(* ===== verification/_CoqProject ===== *)
-Q . S2P
Prelude.v
Bytes.v
Errors.v
Lru.v
Disk.v
BufferPool.v
BufferPoolProofs.v
BufferPoolProps.v
PageStore.v
Bitmap.v
Defs.v
RmFile.v
RmPage.v
RmProofs.v
RmProps.v
RmDurable.v
LogRecord.v
LogManager.v
Float32.v
IxDefs.v
IxNode.v
IxTree.v
IxNodeProofs.v
IxTreeProofs.v
IxProps.v
Lock.v
Text.v
SmMeta.v
SmMetaProps.v
Values.v
ValuesProps.v
Executor.v
Projection.v
Join.v
JoinProofs.v
SmState.v
SeqScan.v
SeqScanProofs.v
Core.v
ExecProps.v
Sort.v
SortMerge.v
SortProps.v
Agg.v
AggProps.v
IxManager.v
IxManagerProps.v
Txn.v
TxnProps.v
TxnAbort.v
Dml.v
DmlProps.v
DelProps.v
TxnAtomic.v
Analyze.v
AnalyzeProps.v
Sm.v
SmProps.v
Recovery.v
RecoveryProps.v
Planner.v
PlannerProps.v
Printer.v
IxExec.v
IxRange.v
IxGrow.v
IxSplit.v
IxSpill.v
InsIndex.v
Portal.v
Load.v
Ql.v
Parser.v
Grammar.v
Server.v
QlProps.v
PortalProps.v
ServerProps.v
ParserProps.v
RequestProps.v
