(* ===== verification/Prelude.v ===== *)
(** * RMDB: a verification development

    The program is a relational database server in C++ (directory [src/src/]): a disk
    manager and a buffer pool, record files, B+ tree indexes, a write-ahead log with
    recovery, a lock manager with transactions, a catalog, a parser, an analysis and a
    planner of SQL statements, query executors that pull tuples, and a server loop that
    reads the text of a request and writes the text of its answer.

    ** Layers and files

    Every file models one part of the program; files ending in [Proofs] hold the
    invariants and lemmas of the part before them, files ending in [Props] its main
    theorems with their witnesses.

    - [Prelude]: the effect monad [M E S A] (a state, an exception, or a failure) and its
      total-correctness judgement [runs]; lists.  [Bytes]: byte buffers and machine
      integers.  [Float32]: binary32.  [Text]: C++ text streams, [std::stof] and [atof].
      [Errors]: [errors.h].
    - [Lru], [Disk], [BufferPool]: [replacer/], [storage/disk_manager.cpp] over the POSIX
      calls it makes, [storage/buffer_pool_manager.cpp] and [storage/page.h].
    - [PageStore]: the interface (class and laws) the buffer pool offers to its clients; the
      buffer pool is an instance, and [Core] transports it to the whole core state.
    - [Bitmap], [Defs], [RmFile], [RmPage]: [record/] with [rm_defs.h], [defs.h],
      [transaction/txn_defs.h], [transaction/transaction.h], [common/context.h].
      [RmDurable]: closing and opening a table.
    - [LogRecord], [LogManager]: [recovery/log_manager.h], [log_manager.cpp], [log_defs.h].
      [Recovery]: [recovery/log_recovery.cpp].
    - [IxDefs], [IxNode], [IxTree], [IxManager]: [index/ix_defs.h], [ix_index_handle.h],
      [ix_index_handle.cpp], [ix_scan.cpp], [ix_manager.h].  [IxRange]: range scans, and the
      executor [IxExec] over them.  [IxGrow]: what a split does to a tree; [IxSplit]: the program
      splits nodes so; [IxSpill]: redistribution, and insertion as a whole.
    - [Lock]: [transaction/concurrency/lock_manager.cpp] and [release_locks].  [Txn]:
      [transaction/transaction_manager.cpp]; [TxnAbort] and [TxnAtomic]: its rollback.
    - [SmMeta]: [system/sm_meta.h] with the text of [db.meta]; [SmState]: the state of
      [SmManager] and its latches; [Sm]: [system/sm_manager.cpp]; [Load]: its [load_data].
      [Values]: [common/common.h].
    - [Executor]: the interface [AbstractExecutor] of [execution/executor_abstract.h] as a class,
      with the laws a parent executor relies on; [SeqScan], [IxExec], [Projection], [Join],
      [Sort] (with [SortMerge]) and [Agg] are the executors of
      [execution/], each written against the interface of its children; [Dml]: the
      executors of INSERT, DELETE and UPDATE, with theorems in [DmlProps], [DelProps] and, for tables with
      indexes, [InsIndex].  [Core]: disk, pool, log and locks together.
    - [Parser]: the scanner of [parser/lex.l] and the parser of [parser/yacc.y]; [Grammar]: the
      productions of [yacc.y] as inductive relations, and the proof that the parser accepts
      their language; [ParserProps]: the texts that spell tokens, and printing.
    - [Analyze]: [analyze/analyze.cpp], with the syntax tree of [parser/ast.h]; [Planner]:
      [optimizer/planner.cpp] and [plan.h]; [Portal]: [portal.h]; [Printer]:
      [record_printer.h]; [Ql]: [execution/execution_manager.cpp] and the printing
      functions of the catalog; [Server]: [SetTransaction] and the loop of [client_handler] of
      [rmdb.cpp].  [RequestProps] composes all of them.

    ** How the code is translated

    A method is a computation over the state of its object and of the objects it calls; a
    C++ exception is a [Throw], a failed assertion, an access outside a buffer, a null
    pointer, signed overflow or an uninitialised value is a [Fail], and so is taking a mutex
    that is held and cannot be released ([Deadlock]).  Assertions are checked, although
    the build removes them ([-DNDEBUG]): a theorem that a call returns shows that none fails.  Where an
    assertion is the only check of its input, the number of the values of an INSERT, the analysis
    is modelled without it too ([analyze_insert_ndebug]).
    Integers are [Z] with their width written out at every store.  Objects keep their field
    names.  A loop that is not bounded by its data takes fuel ([fuel], [ifuel] for the tree
    and [rfuel] for insertion at a given place), and running out of it is the failure [OutOfFuel]:
    the theorems state that the call returns with a given amount of fuel (the number of pages,
    of tuples, of pairs of tuples, or the height of a tree), so fuel is never a way to
    succeed.  A method that holds its latch from beginning to end is one atomic step; the
    buffer pool, whose [fetch_page] releases its latch half-way, is split there.

    What the language leaves open is an argument of the definitions that meet it: the
    addresses [malloc] gives, the bytes [junk] of fresh memory, the result [std_sort] of the
    library's sort, and the contents of variables that are not initialised ([buf0], [page0],
    [idx0], [rid0], [mode0], [ts0], [agg0]).  The theorems hold for all of them; what they
    need of them is a hypothesis.  [c_addrs] is the list of the heap addresses of the write
    records of a transaction, which the log manager uses as keys.

    ** What is shown

    - Storage: a client of the buffer pool cannot tell it from a map of pages
      ([bpm_refines_page_map]); flushing makes pages durable; a fetch fails exactly when all
      frames are pinned; a page written to disk reads back.  The interleaving that loses a page
      ([bpm_eviction_race]) and the overflow of page offsets are theorems too.
    - Records: inserting, deleting, updating and scanning act on a table as on a finite map
      from record ids to byte strings, and closing and opening a table keeps it.
    - Log and recovery: any sequence of logging calls appends the serialized records with
      increasing lsns; the first pass of recovery reads back what was written, and redo of
      the record of a write changes its record of the table, and no other, to the logged value
      ([redo_repeats_writes]).  The insertion at a given place leaves a page pinned: the laws of the
      page store hold again when one pin of the page is not counted ([Leak]).
    - Index: searching and inserting in a B+ tree of any height act on the sorted list of its
      entries, whether a leaf has room, hands pairs to a neighbour or is split, up to a new root
      ([ix_insert_total]); deleting does as long as no node falls below its minimum.  A scan between two
      bounds visits the entries between them, leaf by leaf, so that the index scan executor
      returns what a sequential scan returns, in the order of the index ([index_scan_selects]).
      An INSERT keeps a table and all its indexes in step, so that these scans stay right
      ([insert_keeps_indexes]); that an operation on one file leaves the others alone comes from
      using the theorems at a page store that sees the pages of this file only ([Within]).
    - Locks and transactions: under every interleaving of calls, granted requests are compatible;
      requests are granted exactly when they are compatible; commit makes the log durable
      and releases the locks; abort takes back the insertions of a transaction, writes its
      compensation records and its abort record to the log file and returns, and an
      INSERT that is aborted leaves its table as it was.  That the page operations on a table
      leave the log file alone, and a write to the log the tables, is in [PageStore] ([Lf]).
    - Catalog and values: [db.meta] and the bytes of values and datetimes read back; the
      overflow check of literals is exact; CREATE TABLE adds exactly its table.
    - Parser: a text has a tree exactly if the productions of the grammar derive its first
      tokens with this tree, and a statement comes back from every text that spells it.
    - Analysis and planner: an INSERT that is accepted is typed, by the first column of each
      name; names are resolved to the one table that has them; the join tree of the planner denotes the selection from the
      product of the tables.
    - Executors: scan, join, projection, sort and aggregates return what the
      relational operators they implement return, for any children that keep the laws; the
      plan of a SELECT, whose joins have no join on their right, prints exactly the relation it denotes.  DELETE takes out exactly
      the records that satisfy its conditions, and logs them ([delete_executor_correct]).
    - Server: the answer stays inside its buffer; a statement that fails is answered with its
      error and leaves its transaction open; a SELECT and an INSERT are followed from the
      bytes of the request to those of the answer ([select_request_answered],
      [insert_request_adds_record]).
    - Failures of the program are theorems as well: the latch of the catalog that an unknown
      table leaves held, ORDER BY over an index, comments that outlive their request, the
      loop of insertion at a given place.  The manifest lists them.

    ** What is not modelled

    Threads other than as interleavings of atomic steps or turns; page latches; durability
    below [write] and [fsync]; sockets, signals, [main], the client of [rmdb_client/], the
    generator of [generate_data/] and the tests; the positions in the messages of the parser
    and the tree printer [ast_printer.h]; directories ([create_db], [drop_db], [open_db],
    [close_db] and [DiskManager::create_dir] run shell commands or [chdir]).  Merging
    of index nodes after a deletion, index scans over several columns, UPDATE and the undo pass of recovery
    are modelled, but the theorems about them are few. *)

From stdpp Require Export base list gmap strings numbers pretty.
From Stdlib Require Export ZArith Lia.

#[export] Set Default Goal Selector "!".
Global Open Scope Z_scope.

(** * Outcomes and the effect monad *)

(** Ways in which a run of the program can stop without a value and without a
    C++ exception. *)
Inductive failure :=
  | AssertFail      (** the condition of an [assert] is false *)
  | Undef           (** null dereference or access outside an array *)
  | Deadlock        (** a non-recursive mutex is locked by its holder again *)
  | OutOfFuel.      (** the loop did not finish within the fuel given *)

Inductive outcome (E A : Type) :=
  | Ok (a : A)
  | Throw (e : E)
  | Fail (f : failure).
Arguments Ok {E A} a.
Arguments Throw {E A} e.
Arguments Fail {E A} f.

(** A stateful computation: a thrown exception keeps the state reached, as in
    C++ (there is no transaction on memory). *)
Definition M (E S A : Type) : Type := S -> outcome E A * S.

Section monad.
Context {E S : Type}.

Definition ret {A} (a : A) : M E S A := fun s => (Ok a, s).
Definition throw {A} (e : E) : M E S A := fun s => (Throw e, s).
Definition fail {A} (f : failure) : M E S A := fun s => (Fail f, s).

Definition bind {A B} (m : M E S A) (k : A -> M E S B) : M E S B := fun s =>
  match m s with
  | (Ok a, s') => k a s'
  | (Throw e, s') => (Throw e, s')
  | (Fail f, s') => (Fail f, s')
  end.

Definition get : M E S S := fun s => (Ok s, s).
Definition gets {A} (f : S -> A) : M E S A := fun s => (Ok (f s), s).
Definition modify (f : S -> S) : M E S unit := fun s => (Ok tt, f s).

(** [assert(b)]: the build of the repository passes [-DNDEBUG], which removes
    the check; a run that reaches [Ok] here behaves alike in both builds. *)
Definition assert (b : bool) : M E S unit := if b then ret tt else fail AssertFail.

(** Dereference of a pointer that may be null. *)
Definition deref {A} (o : option A) : M E S A :=
  match o with Some a => ret a | None => fail Undef end.

(** [try m catch (e) h]: the handler runs in the state reached by the throw. *)
Definition try_catch {A} (m : M E S A) (h : E -> M E S A) : M E S A := fun s =>
  match m s with
  | (Throw e, s') => h e s'
  | r => r
  end.

(** [for (x : l) body] *)
Fixpoint for_each {A} (l : list A) (body : A -> M E S unit) : M E S unit :=
  match l with
  | [] => ret tt
  | x :: l' => bind (body x) (fun _ => for_each l' body)
  end.
End monad.

(** Running a computation of a component inside a larger state. *)
Definition zoom {E S T A} (g : T -> S) (p : S -> T -> T) (m : M E S A) : M E T A :=
  fun t => let '(r, s') := m (g t) in (r, p s' t).

Declare Scope prog_scope.
Delimit Scope prog_scope with prog.
Notation "'let*' x := m 'in' k" := (bind m (fun x => k))
  (at level 10, x pattern, m at level 200, k at level 200,
   format "'[v' 'let*'  x  :=  m  'in' '/' k ']'") : prog_scope.
Notation "m ;; k" := (bind m (fun _ => k))
  (at level 100, k at level 200, right associativity,
   format "'[v' m ;; '/' k ']'") : prog_scope.

(** * Total correctness of a computation: it returns, and the result satisfies [Q]. *)

Definition runs {E S A} (m : M E S A) (s : S) (Q : A -> S -> Prop) : Prop :=
  exists a s', m s = (Ok a, s') /\ Q a s'.

(** It throws the exception [e] in a state that satisfies [Q]. *)
Definition throws {E S A} (m : M E S A) (s : S) (e : E) (Q : S -> Prop) : Prop :=
  exists s', m s = (Throw e, s') /\ Q s'.

Section runs.
Context {E S : Type}.
Implicit Types (s : S).

Lemma runs_ret {A} (a : A) s (Q : A -> S -> Prop) : Q a s -> runs (E:=E) (ret a) s Q.
Proof. intros H. by exists a, s. Qed.

Lemma runs_bind {A B} (m : M E S A) (k : A -> M E S B) s R Q :
  runs m s R -> (forall a s', R a s' -> runs (k a) s' Q) -> runs (bind m k) s Q.
Proof.
  intros (a & s' & Hm & HR) Hk. destruct (Hk a s' HR) as (b & s'' & Hb & HQ).
  exists b, s''. split; [|done]. unfold bind. by rewrite Hm.
Qed.

Lemma runs_conseq {A} (m : M E S A) s (R Q : A -> S -> Prop) :
  runs m s R -> (forall a s', R a s' -> Q a s') -> runs m s Q.
Proof. intros (a & s1 & Hm & HR) HQ. exists a, s1. eauto. Qed.

Lemma runs_eq {A} (m : M E S A) s a s' (Q : A -> S -> Prop) :
  m s = (Ok a, s') -> Q a s' -> runs m s Q.
Proof. intros ??. by exists a, s'. Qed.

Lemma runs_gets {A} (f : S -> A) s (Q : A -> S -> Prop) : Q (f s) s -> runs (E:=E) (gets f) s Q.
Proof. intros H. by exists (f s), s. Qed.

Lemma runs_modify (f : S -> S) s (Q : unit -> S -> Prop) : Q tt (f s) -> runs (E:=E) (modify f) s Q.
Proof. intros H. by exists tt, (f s). Qed.

Lemma runs_assert b s (Q : unit -> S -> Prop) : b = true -> Q tt s -> runs (E:=E) (assert b) s Q.
Proof. intros -> ?. by exists tt, s. Qed.

Lemma runs_deref {A} (o : option A) a s (Q : A -> S -> Prop) :
  o = Some a -> Q a s -> runs (E:=E) (deref o) s Q.
Proof. intros -> ?. by exists a, s. Qed.

Lemma bind_ok {A B} (m : M E S A) (k : A -> M E S B) s a s' :
  m s = (Ok a, s') -> bind m k s = k a s'.
Proof. intros H. unfold bind. by rewrite H. Qed.

Lemma bind_throw {A B} (m : M E S A) (k : A -> M E S B) s e s' :
  m s = (Throw e, s') -> bind m k s = (Throw e, s').
Proof. intros H. unfold bind. by rewrite H. Qed.

Lemma bind_fail {A B} (m : M E S A) (k : A -> M E S B) s f s' :
  m s = (Fail f, s') -> bind m k s = (Fail f, s').
Proof. intros H. unfold bind. by rewrite H. Qed.

(** A loop over a list with an invariant indexed by the part already done. *)
Lemma runs_for_each {A} (l : list A) (body : A -> M E S unit) (I : list A -> S -> Prop) s :
  I [] s ->
  (forall done x rest s', l = done ++ x :: rest -> I done s' ->
     runs (body x) s' (fun _ s'' => I (done ++ [x]) s'')) ->
  runs (for_each l body) s (fun _ s' => I l s').
Proof.
  intros H0 Hstep.
  enough (Hall : forall rest done s, l = done ++ rest -> I done s ->
    runs (for_each rest body) s (fun _ s' => I l s')) by (by apply (Hall l [] s)).
  clear s H0. induction rest as [|x rest IH]; intros dn s Hl HI; simpl.
  - apply runs_ret. by rewrite app_nil_r in Hl; subst.
  - eapply runs_bind; [by eapply Hstep|].
    intros [] s' HI'. apply (IH (dn ++ [x])); [|done]. by rewrite <- app_assoc.
Qed.
End runs.

(** Steps that only read or only update the state. *)
Lemma runs_bind_gets {E S A B} (f : S -> A) (k : A -> M E S B) s Q :
  runs (k (f s)) s Q -> runs (bind (gets f) k) s Q.
Proof. done. Qed.

Lemma runs_bind_modify {E S B} (f : S -> S) (k : unit -> M E S B) s Q :
  runs (k tt) (f s) Q -> runs (bind (modify f) k) s Q.
Proof. done. Qed.

Lemma runs_bind_ret {E S A B} (a : A) (k : A -> M E S B) s Q :
  runs (k a) s Q -> runs (bind (ret a) k) s Q.
Proof. done. Qed.

Lemma runs_bind_assert {E S B} (b : bool) (k : unit -> M E S B) s Q :
  b = true -> runs (k tt) s Q -> runs (bind (assert b) k) s Q.
Proof. by intros ->. Qed.

Lemma runs_bind_deref {E S A B} (o : option A) a (k : A -> M E S B) s Q :
  o = Some a -> runs (k a) s Q -> runs (bind (deref o) k) s Q.
Proof. by intros ->. Qed.

Lemma bind_inv {E S A B} (m : M E S A) (k : A -> M E S B) s b s' : bind m k s = (Ok b, s') -> exists a s1, m s = (Ok a, s1) /\ k a s1 = (Ok b, s').
Proof. unfold bind. destruct (m s) as [[a|e|f] s1]; intros H; [|discriminate H|discriminate H]. by exists a, s1. Qed.
Lemma bind_assoc {E S A B C} (m : M E S A) (k : A -> M E S B) (h : B -> M E S C) s :
  bind (bind m k) h s = bind m (fun a => bind (k a) h) s.
Proof. unfold bind. by destruct (m s) as [[a|e|f] s1]. Qed.

Lemma runs_bind_assoc {E S A B C} (m : M E S A) (k : A -> M E S B) (h : B -> M E S C) s Q :
  runs (bind m (fun a => bind (k a) h)) s Q -> runs (bind (bind m k) h) s Q.
Proof. unfold runs. by rewrite bind_assoc. Qed.

Lemma runs_bind_eq {E S A B} (m : M E S A) (k : A -> M E S B) s a s' Q :
  m s = (Ok a, s') -> runs (k a) s' Q -> runs (bind m k) s Q.
Proof. intros H (b & s'' & Hb & HQ). exists b, s''. split; [|done]. by rewrite (bind_ok _ _ _ _ _ H). Qed.

Create HintDb runs.
#[export] Hint Resolve runs_ret runs_gets runs_modify : runs.

(** One step of a sequential computation: the head is one of the primitives. *)
Ltac rstep :=
  lazymatch goal with
  | |- runs (bind (bind _ _) _) _ _ => apply runs_bind_assoc
  | |- runs (bind (ret _) _) _ _ => apply runs_bind_ret
  | |- runs (bind (gets _) _) _ _ => apply runs_bind_gets
  | |- runs (bind (modify _) _) _ _ => apply runs_bind_modify
  | |- runs (bind (assert _) _) _ _ => apply runs_bind_assert
  | |- runs (bind (deref _) _) _ _ => eapply runs_bind_deref
  | |- runs (ret _) _ _ => apply runs_ret
  | |- runs (gets _) _ _ => apply runs_gets
  | |- runs (modify _) _ _ => apply runs_modify
  end.

(** * Generic facts on lists *)

Lemma filter_ext_in {A} (P Q : A -> Prop) `{!forall x, Decision (P x), !forall x, Decision (Q x)}
    (l : list A) :
  (forall x, x ∈ l -> P x <-> Q x) -> filter P l = filter Q l.
Proof.
  induction l as [|x l IH]; intros HPQ; [done|]. rewrite !filter_cons.
  rewrite IH by (intros y Hy; apply HPQ; by constructor).
  assert (Hx : P x <-> Q x) by (apply HPQ; constructor).
  destruct (decide (P x)), (decide (Q x)); tauto.
Qed.

Lemma filter_fmap {A B} (f : A -> B) (P : B -> Prop) `{!forall x, Decision (P x)} (l : list A) :
  filter P (f <$> l) = f <$> filter (fun x => P (f x)) l.
Proof.
  induction l as [|x l IH]; [done|]. rewrite fmap_cons, !filter_cons.
  destruct (decide (P (f x))); [rewrite fmap_cons|]; by rewrite IH.
Qed.

Lemma filter_id {A} (P : A -> Prop) `{!forall x, Decision (P x)} (l : list A) :
  (forall x, x ∈ l -> P x) -> filter P l = l.
Proof.
  induction l as [|x l IH]; intros HP; [done|]. rewrite filter_cons.
  rewrite decide_True by (apply HP; constructor). f_equal. apply IH. set_solver.
Qed.

Lemma removelast_last {A} (l : list A) x : last l = Some x -> l = removelast l ++ [x].
Proof.
  intros H. destruct l as [|y l]; [done|].
  rewrite (app_removelast_last x (l:=y :: l)) at 1 by done. f_equal. f_equal.
  revert y H. induction l as [|z l IH]; intros y H; simpl in *; [congruence|]. by apply IH.
Qed.

Lemma fmap_removelast {A B} (f : A -> B) (l : list A) : f <$> removelast l = removelast (f <$> l).
Proof.
  induction l as [|x l IH]; [done|]. destruct l as [|y l]; [done|].
  change (f x :: (f <$> removelast (y :: l)) = f x :: removelast (f <$> (y :: l))). by rewrite IH.
Qed.

Lemma NoDup_fmap_filter {A B} (f : A -> B) (P : A -> Prop) `{!forall x, Decision (P x)} (l : list A) :
  NoDup (f <$> l) -> NoDup (f <$> filter P l).
Proof.
  induction l as [|x l IH]; [done|]. rewrite fmap_cons, NoDup_cons. intros [Hx Hl].
  rewrite filter_cons. destruct (decide (P x)); [|by apply IH].
  rewrite fmap_cons. apply NoDup_cons. split; [|by apply IH].
  rewrite list_elem_of_fmap. intros (y & Hy & Hin). apply Hx. rewrite Hy.
  apply list_elem_of_fmap_2. by apply list_elem_of_filter in Hin as [_ ?].
Qed.

(** ** Cutting a list into chunks *)

Fixpoint chunks_go {A} (n : nat) (l : list A) (fuel : nat) : list (list A) :=
  match fuel with
  | O => []
  | S fuel => match l with [] => [] | _ => take n l :: chunks_go n (drop n l) fuel end
  end.
(** the list in chunks of [n] elements, the last one may be shorter *)
Definition chunks {A} (n : nat) (l : list A) : list (list A) := chunks_go n l (length l).

Lemma chunks_go_enough {A} (n : nat) fuel : forall (l : list A) fuel',
  (0 < n)%nat -> (length l <= fuel)%nat -> (length l <= fuel')%nat -> chunks_go n l fuel = chunks_go n l fuel'.
Proof.
  induction fuel as [|fuel IH]; intros l fuel' Hn Hl Hl'.
  - destruct l; simpl in Hl; [|lia]. by destruct fuel'.
  - destruct l as [|x l]; [by destruct fuel'|]. destruct fuel' as [|fuel']; [simpl in Hl'; lia|]. cbn [chunks_go].
    f_equal. apply IH; [done| |]; rewrite length_drop; simpl in *; lia.
Qed.

Lemma chunks_cons {A} (n : nat) (l : list A) :
  (0 < n)%nat -> l <> [] -> chunks n l = take n l :: chunks n (drop n l).
Proof.
  intros Hn Hl. unfold chunks. destruct l as [|x l]; [done|]. cbn [length chunks_go]. f_equal.
  apply chunks_go_enough; [done| |done]. rewrite length_drop. simpl. lia.
Qed.

Lemma concat_chunks {A} (n : nat) (l : list A) : (0 < n)%nat -> concat (chunks n l) = l.
Proof.
  intros Hn. remember (length l) as k eqn:Hk. revert l Hk. induction k as [k IH] using lt_wf_ind. intros l ->.
  destruct l as [|x l]; [done|]. rewrite chunks_cons by done. cbn [concat]. rewrite (IH (length (drop n (x :: l)))).
  - apply take_drop.
  - rewrite length_drop. simpl. lia.
  - done.
Qed.

Lemma length_chunks {A} (n : nat) (l : list A) : (length (chunks n l) <= length l)%nat.
Proof.
  unfold chunks. enough (H : forall fuel (l : list A), (length (chunks_go n l fuel) <= fuel)%nat) by apply H.
  induction fuel as [|fuel IH]; intros l'; [done|]. destruct l' as [|x l']; simpl; [lia|]. specialize (IH (drop n (x :: l'))). lia.
Qed.

(** A computation without state inside one with a state. *)
Definition pure_call {E S A} (m : M E unit A) : M E S A := fun s => ((m tt).1, s).

Lemma runs_bind_pure {E S A B} (m : M E unit A) (k : A -> M E S B) a s Q :
  m tt = (Ok a, tt) -> runs (k a) s Q -> runs (bind (pure_call m) k) s Q.
Proof. intros H (b & s' & Hb & HQ). exists b, s'. split; [|done]. unfold pure_call, bind. by rewrite H. Qed.
