(* ===== verification/Bytes.v ===== *)
(** Byte buffers: the memory the program reads and writes through [memcpy],
    [memset], [memcmp] and casts of [char *] to integer pointers.

    A buffer is a list of bytes, each an integer in [0,256).  Integers are
    little endian, as on the x86-64 target.  [slice] and [splice] are the total
    read and write; the programs only use them behind a bounds check
    ([mload], [memcpy], [read_bytes], [write_bytes]), so an access outside a buffer is a visible
    failure of the model and not a silent no-op. *)

From S2P Require Import Prelude.

Definition byte_ok (b : Z) : Prop := 0 <= b < 256.
Definition bytes_ok (l : list Z) : Prop := Forall byte_ok l.

(** ** Slices *)

Definition slice (off n : Z) (l : list Z) : list Z :=
  take (Z.to_nat n) (drop (Z.to_nat off) l).

Definition splice (off : Z) (d l : list Z) : list Z :=
  take (Z.to_nat off) l ++ d ++ drop (Z.to_nat off + length d) l.

Definition zlen {A} (l : list A) : Z := Z.of_nat (length l).

(** [off, off + n) lies inside a buffer of [len] bytes *)
Definition in_range (off n len : Z) : bool :=
  (0 <=? off) && (0 <=? n) && (off + n <=? len).

Definition zeros (n : Z) : list Z := replicate (Z.to_nat n) 0.
#[global] Arguments zeros : simpl never.

Lemma in_range_spec off n len : in_range off n len = true <-> 0 <= off /\ 0 <= n /\ off + n <= len.
Proof. unfold in_range. rewrite !andb_true_iff, !Z.leb_le. tauto. Qed.

Lemma zlen_app {A} (l1 l2 : list A) : zlen (l1 ++ l2) = zlen l1 + zlen l2.
Proof. unfold zlen. rewrite length_app. lia. Qed.

Lemma zlen_nonneg {A} (l : list A) : 0 <= zlen l.
Proof. unfold zlen. lia. Qed.

Lemma zlen_zeros n : 0 <= n -> zlen (zeros n) = n.
Proof. intros. unfold zlen, zeros. rewrite length_replicate. lia. Qed.

Lemma zlen_slice off n l : 0 <= off -> 0 <= n -> off + n <= zlen l -> zlen (slice off n l) = n.
Proof. unfold zlen, slice. intros. rewrite length_take, length_drop. lia. Qed.

Lemma zlen_splice off d l : 0 <= off -> off + zlen d <= zlen l -> zlen (splice off d l) = zlen l.
Proof. unfold zlen, splice. intros. rewrite !length_app, length_take, length_drop. lia. Qed.

Lemma bytes_ok_app l1 l2 : bytes_ok (l1 ++ l2) <-> bytes_ok l1 /\ bytes_ok l2.
Proof. apply Forall_app. Qed.

Lemma bytes_ok_zeros n : bytes_ok (zeros n).
Proof. apply Forall_replicate. unfold byte_ok. lia. Qed.

Lemma bytes_ok_slice off n l : bytes_ok l -> bytes_ok (slice off n l).
Proof. intros H. by apply Forall_take, Forall_drop. Qed.

Lemma bytes_ok_splice off d l : bytes_ok d -> bytes_ok l -> bytes_ok (splice off d l).
Proof.
  intros Hd Hl. unfold splice. rewrite !bytes_ok_app.
  split; [by apply Forall_take|]. split; [done|by apply Forall_drop].
Qed.

Lemma slice_full l : slice 0 (zlen l) l = l.
Proof. unfold slice, zlen. rewrite Z2Nat.inj_0, drop_0, Nat2Z.id. by rewrite firstn_all. Qed.

(** Pointwise reading of slices and splices: the two facts below settle every
    question about overlapping or disjoint accesses. *)
Lemma lookup_slice off n l i :
  0 <= off -> slice off n l !! i =
  if decide (Z.of_nat i < n) then l !! (Z.to_nat off + i)%nat else None.
Proof.
  intros. unfold slice. destruct (decide _).
  - rewrite lookup_take_lt by lia. by rewrite lookup_drop.
  - rewrite lookup_take_ge by lia. done.
Qed.

Lemma lookup_splice off d l i :
  0 <= off -> off + zlen d <= zlen l ->
  splice off d l !! i =
  if decide (off <= Z.of_nat i < off + zlen d) then d !! (i - Z.to_nat off)%nat else l !! i.
Proof.
  unfold zlen, splice. intros Ho Hl.
  assert (Hlen : length (take (Z.to_nat off) l) = Z.to_nat off) by (rewrite length_take; lia).
  destruct (decide (i < Z.to_nat off)%nat).
  - rewrite lookup_app_l by lia. rewrite lookup_take_lt by lia.
    rewrite decide_False by lia. done.
  - rewrite lookup_app_r by lia. rewrite Hlen.
    destruct (decide (off ≤ Z.of_nat i < off + Z.of_nat (length d))).
    + by rewrite lookup_app_l by lia.
    + rewrite lookup_app_r by lia. rewrite lookup_drop. f_equal. lia.
Qed.

Lemma slice_splice_same off d l n :
  0 <= off -> off + zlen d <= zlen l -> n = zlen d -> slice off n (splice off d l) = d.
Proof.
  intros Ho Hl ->. apply list_eq. intros i. rewrite lookup_slice by lia.
  destruct (decide _) as [Hi|Hi].
  - rewrite lookup_splice by lia. rewrite decide_True by lia. f_equal. lia.
  - unfold zlen in Hi. symmetry. apply lookup_ge_None. lia.
Qed.

Lemma slice_splice_disj off n off' d l :
  0 <= off -> 0 <= off' -> off' + zlen d <= zlen l ->
  off + n <= off' \/ off' + zlen d <= off ->
  slice off n (splice off' d l) = slice off n l.
Proof.
  intros. apply list_eq. intros i. rewrite !lookup_slice by lia.
  destruct (decide _); [|done]. rewrite lookup_splice by lia.
  rewrite decide_False by lia. done.
Qed.

(** A slice that lies inside the spliced bytes reads them. *)
Lemma slice_splice_sub off n off' d l :
  0 <= off' -> off' <= off -> off + n <= off' + zlen d -> off' + zlen d <= zlen l ->
  slice off n (splice off' d l) = slice (off - off') n d.
Proof.
  intros. apply list_eq. intros i. rewrite !lookup_slice by lia.
  destruct (decide _); [|done]. rewrite lookup_splice by lia.
  rewrite decide_True by lia. f_equal. lia.
Qed.

Lemma slice_slice off n off' n' l :
  0 <= off -> 0 <= off' -> off + n <= n' ->
  slice off n (slice off' n' l) = slice (off' + off) n l.
Proof.
  intros. apply list_eq. intros i. rewrite !lookup_slice by lia.
  destruct (decide (Z.of_nat i < n)); [|done]. rewrite decide_True by lia. f_equal. lia.
Qed.

Lemma slice_app_l off n l1 l2 :
  0 <= off -> off + n <= zlen l1 -> slice off n (l1 ++ l2) = slice off n l1.
Proof.
  unfold zlen. intros. apply list_eq. intros i. rewrite !lookup_slice by lia.
  destruct (decide _); [|done]. rewrite lookup_app_l by lia. done.
Qed.

Lemma slice_app_r off n l1 l2 :
  zlen l1 <= off -> slice off n (l1 ++ l2) = slice (off - zlen l1) n l2.
Proof.
  unfold zlen. intros. apply list_eq. intros i. rewrite !lookup_slice by lia.
  destruct (decide _); [|done]. rewrite lookup_app_r by lia. f_equal. lia.
Qed.

Lemma splice_all d l : zlen d = zlen l -> splice 0 d l = d.
Proof.
  unfold zlen, splice. intros H. rewrite Z2Nat.inj_0, take_0, drop_ge by lia.
  by rewrite app_nil_r.
Qed.

(** ** Little-endian integers *)

(** the [n] low bytes of [w] *)
Fixpoint le_bytes (n : nat) (w : Z) : list Z :=
  match n with
  | O => []
  | S n' => w mod 256 :: le_bytes n' (w / 256)
  end.

Fixpoint le_value (l : list Z) : Z :=
  match l with
  | [] => 0
  | b :: l' => b + 256 * le_value l'
  end.

(** the signed reading of a [w]-bit unsigned value *)
Definition signed (w v : Z) : Z := if v <? 2 ^ (w - 1) then v else v - 2 ^ w.

(** two's complement wrap-around at [w] bits *)
Definition wrap (w v : Z) : Z := signed w (v mod 2 ^ w).

Definition int32_ok (v : Z) : Prop := - 2 ^ 31 <= v < 2 ^ 31.
Definition int64_ok (v : Z) : Prop := - 2 ^ 63 <= v < 2 ^ 63.

(** stores and loads through an [int] or [int64_t] pointer *)
Definition enc_i32 (v : Z) : list Z := le_bytes 4 v.
Definition dec_i32 (l : list Z) : Z := signed 32 (le_value l).
Definition dec_u32 (l : list Z) : Z := le_value l.
Definition enc_i64 (v : Z) : list Z := le_bytes 8 v.
Definition dec_i64 (l : list Z) : Z := signed 64 (le_value l).
Definition dec_u64 (l : list Z) : Z := le_value l.

#[global] Arguments enc_i32 : simpl never.
#[global] Arguments enc_i64 : simpl never.
#[global] Arguments dec_i32 : simpl never.
#[global] Arguments dec_u32 : simpl never.
#[global] Arguments dec_i64 : simpl never.
#[global] Arguments dec_u64 : simpl never.
#[global] Arguments slice : simpl never.
#[global] Arguments splice : simpl never.
#[global] Arguments wrap : simpl never.

Lemma length_le_bytes n w : length (le_bytes n w) = n.
Proof. revert w. induction n as [|n IH]; intros w; simpl; [done|]. by rewrite IH. Qed.

Lemma le_bytes_ok n w : bytes_ok (le_bytes n w).
Proof.
  revert w. induction n as [|n IH]; intros w; simpl; constructor; [|apply IH].
  unfold byte_ok. apply Z.mod_pos_bound. lia.
Qed.

Lemma le_value_bytes n w : le_value (le_bytes n w) = w mod 256 ^ Z.of_nat n.
Proof.
  revert w. induction n as [|n IH]; intros w; simpl; [by rewrite Z.mod_1_r|].
  rewrite IH. rewrite Nat2Z.inj_succ, Z.pow_succ_r by lia.
  rewrite Z.rem_mul_r by lia. done.
Qed.

Lemma le_value_bound l : bytes_ok l -> 0 <= le_value l < 256 ^ zlen l.
Proof.
  unfold zlen. induction 1 as [|b l Hb _ IH]; simpl; [lia|].
  rewrite Nat2Z.inj_succ, Z.pow_succ_r by lia. unfold byte_ok in Hb. lia.
Qed.

Lemma le_bytes_value l : bytes_ok l -> le_bytes (length l) (le_value l) = l.
Proof.
  induction 1 as [|b l Hb _ IH]; simpl; [done|]. unfold byte_ok in Hb.
  rewrite Z.mul_comm, Z_mod_plus_full, Z.mod_small by lia.
  rewrite Z.div_add, Z.div_small by lia. by rewrite Z.add_0_l, IH.
Qed.

Lemma signed_mod w v : 0 < w -> - 2 ^ (w - 1) <= v < 2 ^ (w - 1) -> signed w (v mod 2 ^ w) = v.
Proof.
  intros Hw Hv. assert (H2 : 2 ^ w = 2 * 2 ^ (w - 1)).
  { rewrite <- Z.pow_succ_r by lia. f_equal. lia. }
  unfold signed. destruct (Z.ltb_spec0 v 0).
  - assert (Hm : v mod 2 ^ w = v + 2 ^ w).
    { symmetry. apply (Z.mod_unique_pos _ _ (-1)); lia. }
    rewrite Hm. destruct (Z.ltb_spec (v + 2 ^ w) (2 ^ (w - 1))); lia.
  - rewrite Z.mod_small by lia. destruct (Z.ltb_spec v (2 ^ (w - 1))); lia.
Qed.

Lemma wrap_id w v : 0 < w -> - 2 ^ (w - 1) <= v < 2 ^ (w - 1) -> wrap w v = v.
Proof. apply signed_mod. Qed.

Lemma dec_enc_i32 v : int32_ok v -> dec_i32 (enc_i32 v) = v.
Proof.
  intros Hv. unfold dec_i32, enc_i32. rewrite le_value_bytes.
  change (256 ^ Z.of_nat 4) with (2 ^ 32). by apply signed_mod.
Qed.

Lemma dec_enc_i64 v : int64_ok v -> dec_i64 (enc_i64 v) = v.
Proof.
  intros Hv. unfold dec_i64, enc_i64. rewrite le_value_bytes.
  change (256 ^ Z.of_nat 8) with (2 ^ 64). by apply signed_mod.
Qed.

Lemma dec_u64_enc v : 0 <= v < 2 ^ 64 -> dec_u64 (enc_i64 v) = v.
Proof.
  intros Hv. unfold dec_u64, enc_i64. rewrite le_value_bytes.
  change (256 ^ Z.of_nat 8) with (2 ^ 64). by apply Z.mod_small.
Qed.

Lemma dec_u32_enc v : 0 <= v < 2 ^ 32 -> dec_u32 (enc_i32 v) = v.
Proof.
  intros Hv. unfold dec_u32, enc_i32. rewrite le_value_bytes.
  change (256 ^ Z.of_nat 4) with (2 ^ 32). by apply Z.mod_small.
Qed.

Lemma zlen_enc_i32 v : zlen (enc_i32 v) = 4.
Proof. unfold zlen, enc_i32. by rewrite length_le_bytes. Qed.

Lemma zlen_enc_i64 v : zlen (enc_i64 v) = 8.
Proof. unfold zlen, enc_i64. by rewrite length_le_bytes. Qed.

Lemma enc_i32_ok v : bytes_ok (enc_i32 v).
Proof. apply le_bytes_ok. Qed.

Lemma enc_i64_ok v : bytes_ok (enc_i64 v).
Proof. apply le_bytes_ok. Qed.

Lemma dec_i32_ok l : bytes_ok l -> zlen l = 4 -> int32_ok (dec_i32 l).
Proof.
  intros Hl Hn. pose proof (le_value_bound l Hl) as Hb. rewrite Hn in Hb.
  change (256 ^ 4) with (2 ^ 32) in Hb. unfold dec_i32, signed, int32_ok.
  change (32 - 1) with 31. destruct (Z.ltb_spec (le_value l) (2 ^ 31)); lia.
Qed.

(** ** Copies with their bounds

    [memcpy(dest + off, src, n)] and a read of [n] bytes at [src + off]: [None]
    stands for an access outside one of the two buffers. *)

Definition memcpy (dest : list Z) (off : Z) (src : list Z) (n : Z) : option (list Z) :=
  if in_range off n (zlen dest) && (n <=? zlen src) then Some (splice off (slice 0 n src) dest) else None.

Definition mload (src : list Z) (off n : Z) : option (list Z) :=
  if in_range off n (zlen src) then Some (slice off n src) else None.

Lemma memcpy_ok dest off src n :
  0 <= off -> off + n <= zlen dest -> zlen src = n -> memcpy dest off src n = Some (splice off src dest).
Proof.
  intros Ho Hd <-. pose proof (zlen_nonneg src). unfold memcpy.
  rewrite (proj2 (in_range_spec _ _ _)) by lia. rewrite (proj2 (Z.leb_le _ _)) by lia. simpl. by rewrite slice_full.
Qed.

(** two copies to adjacent places are one *)
Lemma splice_adjacent off a b l :
  0 <= off -> off + zlen a + zlen b <= zlen l ->
  splice (off + zlen a) b (splice off a l) = splice off (a ++ b) l.
Proof.
  intros Ho Hl. pose proof (zlen_nonneg a). pose proof (zlen_nonneg b).
  apply list_eq. intros i. rewrite lookup_splice by (rewrite ?zlen_splice; lia).
  rewrite !lookup_splice by (rewrite ?zlen_app; lia). rewrite zlen_app.
  destruct (decide (off + zlen a <= Z.of_nat i < off + zlen a + zlen b)).
  - rewrite decide_True by lia. unfold zlen in *. rewrite lookup_app_r by lia. f_equal. lia.
  - destruct (decide (off <= Z.of_nat i < off + zlen a)).
    + rewrite decide_True by lia. unfold zlen in *. rewrite lookup_app_l by lia. done.
    + by rewrite decide_False by lia.
Qed.

Lemma mload_mid l1 x l2 off n :
  off = zlen l1 -> n = zlen x -> mload (l1 ++ x ++ l2) off n = Some x.
Proof.
  intros -> ->. pose proof (zlen_nonneg l1). pose proof (zlen_nonneg x). pose proof (zlen_nonneg l2). unfold mload.
  rewrite (proj2 (in_range_spec _ _ _)) by (rewrite !zlen_app; lia). f_equal.
  rewrite slice_app_r by lia. replace (zlen l1 - zlen l1) with 0 by lia.
  rewrite slice_app_l by lia. apply slice_full.
Qed.

(** ** Strings as bytes *)

Definition ascii_byte (c : Ascii.ascii) : Z := Z.of_N (Ascii.N_of_ascii c).
Definition byte_ascii (b : Z) : Ascii.ascii := Ascii.ascii_of_N (Z.to_N b).
Definition string_bytes (s : string) : list Z := ascii_byte <$> String.list_ascii_of_string s.
Definition bytes_string (l : list Z) : string := String.string_of_list_ascii (byte_ascii <$> l).

Lemma byte_ascii_byte c : byte_ascii (ascii_byte c) = c.
Proof. unfold byte_ascii, ascii_byte. rewrite N2Z.id. apply Ascii.ascii_N_embedding. Qed.

Lemma ascii_byte_ok c : byte_ok (ascii_byte c).
Proof. unfold byte_ok, ascii_byte. pose proof (Ascii.N_ascii_bounded c). lia. Qed.

Lemma bytes_string_bytes s : bytes_string (string_bytes s) = s.
Proof.
  unfold bytes_string, string_bytes.
  assert (Hid : forall l : list Ascii.ascii, byte_ascii <$> (ascii_byte <$> l) = l).
  { induction l as [|c l IH]; [done|]. rewrite !fmap_cons, byte_ascii_byte. by f_equal. }
  rewrite Hid. apply String.string_of_list_ascii_of_string.
Qed.

Lemma string_bytes_ok s : bytes_ok (string_bytes s).
Proof. apply Forall_fmap, Forall_true. intros c. apply ascii_byte_ok. Qed.

Lemma string_bytes_inj s t : string_bytes s = string_bytes t -> s = t.
Proof. intros H. by rewrite <- (bytes_string_bytes s), H, bytes_string_bytes. Qed.

#[global] Arguments enc_i32 : simpl never.
#[global] Arguments enc_i64 : simpl never.
#[global] Arguments zeros : simpl never.
#[global] Arguments slice : simpl never.
#[global] Arguments splice : simpl never.

Create HintDb bytes.
#[export] Hint Resolve bytes_ok_zeros bytes_ok_slice bytes_ok_splice enc_i32_ok enc_i64_ok : bytes.
Create Rewrite HintDb zlen.
#[export] Hint Rewrite zlen_enc_i32 zlen_enc_i64 @zlen_app : zlen.

(** Arithmetic about buffers: lengths first, then [lia]. *)
Ltac blia := autorewrite with zlen in *; try lia.
