(* ===== verification/Errors.v ===== *)
(** The exception classes of [src/src/errors.h], the transaction abort exception of
    [src/src/transaction/txn_defs.h], and the text each of them reports. *)

From S2P Require Import Prelude.

(** [enum class AbortReason] *)
Inductive AbortReason :=
  | LOCK_ON_SHIRINKING | UPGRADE_CONFLICT | DEADLOCK_PREVENTION | GET_LOCK_FAILED.

(** One constructor per exception class, with the arguments of its constructor. *)
Inductive error :=
  | RMDBError (msg : string)
  | InternalError (msg : string)
  | UnixError (strerror : string)
  | FileNotOpenError (fd : Z)
  | FileNotClosedError (filename : string)
  | FileExistsError (filename : string)
  | FileNotFoundError (filename : string)
  | RecordNotFoundError (page_no slot_no : Z)
  | InvalidRecordSizeError (record_size : Z)
  | InvalidColLengthError (col_len : Z)
  | IndexEntryNotFoundError
  | IndexEntryNotUniqueError
  | DatabaseNotFoundError (db_name : string)
  | DatabaseExistsError (db_name : string)
  | TableNotFoundError (tab_name : string)
  | TableExistsError (tab_name : string)
  | ColumnNotFoundError (col_name : string)
  | IndexNotFoundError (tab_name : string) (col_names : list string)
  | IndexExistsError (tab_name : string) (col_names : list string)
  | InvalidValueCountError
  | StringOverflowError
  | IntOverflowError (val : string)
  | FloatOverflowError (val : string)
  | BigIntOverflowError (val : string)
  | DateTimeFormatError (val : string)
  | AggregateParamFormatError (type : string)
  | IncompatibleTypeError (lhs rhs : string)
  | CastTypeError (src_type cast_to_type : string)
  | AmbiguousColumnError (col_name : string)
  | PageNotExistError (table_name : string) (page_no : Z)
  | UnreachableCodeError
  | TransactionAbortException (txn_id : Z) (abort_reason : AbortReason)
  | OutOfRange   (** [std::out_of_range], thrown by the containers' [at] and by [std::stoi] *)
  | InvalidArgument.  (** [std::invalid_argument], thrown by [std::stoi] *)

#[export] Instance AbortReason_eq_dec : EqDecision AbortReason.
Proof. solve_decision. Defined.
#[export] Instance error_eq_dec : EqDecision error.
Proof. solve_decision. Defined.

(** [std::to_string] of an [int] *)
Definition to_string (z : Z) : string := pretty z.

(** the loop of [IndexNotFoundError] and [IndexExistsError]: a comma before
    every name but the first *)
Fixpoint join_cols (first : bool) (col_names : list string) : string :=
  match col_names with
  | [] => ""
  | c :: cs => (if first then "" else ", ") +:+ c +:+ join_cols false cs
  end.

(** [TransactionAbortException::GetInfo] *)
Definition GetInfo (txn_id : Z) (abort_reason : AbortReason) : string :=
  match abort_reason with
  | LOCK_ON_SHIRINKING => "Transaction " +:+ to_string txn_id +:+
      " aborted because it cannot request locks on SHRINKING phase" +:+ String (Ascii.ascii_of_nat 10) ""
  | UPGRADE_CONFLICT => "Transaction " +:+ to_string txn_id +:+
      " aborted because another transaction is waiting for upgrading" +:+ String (Ascii.ascii_of_nat 10) ""
  | DEADLOCK_PREVENTION => "Transaction " +:+ to_string txn_id +:+
      " aborted for deadlock prevention" +:+ String (Ascii.ascii_of_nat 10) ""
  | GET_LOCK_FAILED => "Transaction aborted" +:+ String (Ascii.ascii_of_nat 10) ""
  end.

(** the message a class hands to the constructor of [RMDBError]; [None] for the
    exceptions that are not [RMDBError]s *)
Definition error_msg (e : error) : option string :=
  match e with
  | RMDBError m | InternalError m | UnixError m => Some m
  | FileNotOpenError fd => Some ("Invalid file descriptor: " +:+ to_string fd)
  | FileNotClosedError f => Some ("File is opened: " +:+ f)
  | FileExistsError f => Some ("File already exists: " +:+ f)
  | FileNotFoundError f => Some ("File not found: " +:+ f)
  | RecordNotFoundError p s => Some ("Record not found: (" +:+ to_string p +:+ "," +:+ to_string s +:+ ")")
  | InvalidRecordSizeError n => Some ("Invalid record size: " +:+ to_string n)
  | InvalidColLengthError n => Some ("Invalid column length: " +:+ to_string n)
  | IndexEntryNotFoundError => Some ("Index entry not found")
  | IndexEntryNotUniqueError => Some ("Index entry not unique")
  | DatabaseNotFoundError d => Some ("Database not found: " +:+ d)
  | DatabaseExistsError d => Some ("Database already exists: " +:+ d)
  | TableNotFoundError t => Some ("Table not found: " +:+ t)
  | TableExistsError t => Some ("Table already exists: " +:+ t)
  | ColumnNotFoundError c => Some ("Column not found: " +:+ c)
  | IndexNotFoundError t cs => Some ("Index not found: " +:+ t +:+ ".(" +:+ join_cols true cs +:+ ")")
  | IndexExistsError t cs => Some ("Index already exists: " +:+ t +:+ ".(" +:+ join_cols true cs +:+ ")")
  | InvalidValueCountError => Some ("Invalid value count")
  | StringOverflowError => Some ("String is too long")
  | IntOverflowError v => Some ("Int literal " +:+ v +:+ " overflow")
  | FloatOverflowError v => Some ("Float literal " +:+ v +:+ " overflow")
  | BigIntOverflowError v => Some ("BigInt literal " +:+ v +:+ " overflow")
  | DateTimeFormatError v => Some ("Datetime literal " +:+ v +:+ " format error")
  | AggregateParamFormatError t => Some ("Aggregate " +:+ t +:+ " param format error")
  | IncompatibleTypeError l r => Some ("Incompatible type error: lhs " +:+ l +:+ ", rhs " +:+ r)
  | CastTypeError s c => Some ("Cast type error: can't cast " +:+ s +:+ " to " +:+ c)
  | AmbiguousColumnError c => Some ("Ambiguous column: " +:+ c)
  | PageNotExistError t p => Some ("Page " +:+ to_string p +:+ " in table " +:+ t +:+ "not exits")
  | UnreachableCodeError => Some ("unreachable code !")
  | TransactionAbortException t r => None
  | OutOfRange | InvalidArgument => None
  end.

(** [RMDBError::what] *)
Definition what (e : error) : option string := (fun m => "Error: " +:+ m) <$> error_msg e.

(** The effect monad of the program: exceptions are [error]s. *)
Abbreviation Prog := (M error).
