(* ===== verification/Lru.v ===== *)
(** The replacement policy: [LRUReplacer] of [src/src/replacer/lru_replacer.cpp].

    The code keeps a [std::list] of frame ids and a hash table from a frame id to
    the list iterator of its node.  The model gives every list node an identity,
    so that the hash table really holds iterators and erasing through a stale one
    is a visible failure.  The abstract specification is a duplicate-free queue
    of frames, the most recently unpinned first. *)

From S2P Require Import Prelude Errors.

(** Frame numbers index the array of pages. *)
Abbreviation frame_id := nat (only parsing).

Record LRUReplacer := mkLRU {
  max_size_ : nat;
  LRUlist_ : list (nat * frame_id);      (** list nodes: (node identity, frame id) *)
  LRUhash_ : gmap frame_id nat;          (** frame id -> iterator (node identity) *)
  lru_fresh : nat;                       (** identity of the next node *)
}.

Module Lru.

Definition make (num_pages : nat) : LRUReplacer := mkLRU num_pages [] ∅ 0.

(** [LRUReplacer::victim]: the back of the list *)
Definition victim : Prog LRUReplacer (option frame_id) := fun r =>
  match last (LRUlist_ r) with
  | Some (_, f) =>
      (Ok (Some f),
       mkLRU (max_size_ r) (removelast (LRUlist_ r)) (delete f (LRUhash_ r)) (lru_fresh r))
  | None => (Ok None, r)
  end.

(** [LRUlist_.erase(iter)] *)
Definition erase_node (it : nat) (l : list (nat * frame_id)) : list (nat * frame_id) :=
  filter (fun p => p.1 <> it) l.

(** [LRUReplacer::pin] *)
Definition pin (f : frame_id) : Prog LRUReplacer unit := fun r =>
  match LRUhash_ r !! f with
  | Some it =>
      if decide (it ∈ (LRUlist_ r).*1) then
        (Ok tt, mkLRU (max_size_ r) (erase_node it (LRUlist_ r)) (delete f (LRUhash_ r)) (lru_fresh r))
      else (Fail Undef, r)
  | None => (Ok tt, r)
  end.

(** [LRUReplacer::unpin] *)
Definition unpin (f : frame_id) : Prog LRUReplacer unit := fun r =>
  match LRUhash_ r !! f with
  | Some _ => (Ok tt, r)
  | None =>
      (Ok tt, mkLRU (max_size_ r) ((lru_fresh r, f) :: LRUlist_ r)
                (<[f := lru_fresh r]> (LRUhash_ r)) (S (lru_fresh r)))
  end.

(** [LRUReplacer::Size] *)
Definition Size (r : LRUReplacer) : nat := length (LRUlist_ r).

(** ** Abstraction and invariant *)

(** the queue of evictable frames, most recently unpinned first *)
Definition queue (r : LRUReplacer) : list frame_id := (LRUlist_ r).*2.

Record inv (r : LRUReplacer) : Prop := {
  inv_nodes : NoDup (LRUlist_ r).*1;
  inv_frames : NoDup (LRUlist_ r).*2;
  inv_hash : forall f n, LRUhash_ r !! f = Some n <-> (n, f) ∈ LRUlist_ r;
  inv_fresh : Forall (fun n => (n < lru_fresh r)%nat) (LRUlist_ r).*1;
}.

(** The abstract queue: what the replacer promises to the buffer pool. *)
Definition spec_victim (q : list frame_id) : option frame_id * list frame_id :=
  (last q, removelast q).
Definition spec_pin (f : frame_id) (q : list frame_id) : list frame_id := filter (fun g => g <> f) q.
Definition spec_unpin (f : frame_id) (q : list frame_id) : list frame_id :=
  if decide (f ∈ q) then q else f :: q.

Lemma inv_make n : inv (make n).
Proof. split; [constructor|constructor| |constructor]. intros f m. set_solver. Qed.

Lemma hash_queue r f : inv r -> is_Some (LRUhash_ r !! f) <-> f ∈ queue r.
Proof.
  intros [_ _ Hh _]. unfold queue. rewrite list_elem_of_fmap. split.
  - intros [n Hn]. exists (n, f). by rewrite <- Hh.
  - intros ([n g] & -> & Hin). exists n. by apply Hh.
Qed.

Lemma hash_None_queue r f : inv r -> LRUhash_ r !! f = None <-> f ∉ queue r.
Proof. intros Hi. by rewrite <- hash_queue, eq_None_not_Some. Qed.

Lemma erase_node_fst it l : (erase_node it l).*1 = filter (fun n => n <> it) l.*1.
Proof. unfold erase_node. by rewrite filter_fmap. Qed.

(** In a list without repeated nodes or frames, a node and its frame determine
    each other. *)
Lemma nodes_inj (l : list (nat * frame_id)) a b :
  NoDup l.*1 -> NoDup l.*2 -> a ∈ l -> b ∈ l -> a.1 = b.1 <-> a.2 = b.2.
Proof.
  intros H1 H2 [i Hi]%list_elem_of_lookup [j Hj]%list_elem_of_lookup.
  split; intros Heq; (assert (i = j) as ->; [|congruence]).
  - apply (NoDup_lookup _ i j a.1 H1); rewrite list_lookup_fmap, ?Hi, ?Hj; simpl; congruence.
  - apply (NoDup_lookup _ i j a.2 H2); rewrite list_lookup_fmap, ?Hi, ?Hj; simpl; congruence.
Qed.

Lemma erase_node_snd it f (l : list (nat * frame_id)) :
  NoDup l.*1 -> NoDup l.*2 -> (it, f) ∈ l ->
  erase_node it l = filter (fun p => p.2 <> f) l.
Proof.
  intros H1 H2 Hin. apply filter_ext_in. intros p Hp.
  by rewrite (nodes_inj l p (it, f)).
Qed.

(** ** Every operation implements its abstract counterpart *)

Lemma victim_spec r :
  inv r ->
  exists r', victim r = (Ok (spec_victim (queue r)).1, r') /\ inv r' /\
             queue r' = (spec_victim (queue r)).2.
Proof.
  intros Hi. unfold victim, spec_victim, queue. simpl. rewrite fmap_last.
  destruct (last (LRUlist_ r)) as [[n f]|] eqn:Hl; simpl.
  - eexists. split; [reflexivity|]. apply removelast_last in Hl as Hr.
    destruct Hi as [H1 H2 Hh Hf]. rewrite <- fmap_removelast. split; [|done].
    remember (removelast (LRUlist_ r)) as l0 eqn:Hl0. clear Hl0. rewrite Hr, fmap_app in H1, H2, Hf. simpl in *.
    apply NoDup_app in H1 as (H1 & H1' & _). apply NoDup_app in H2 as (H2 & H2' & _).
    apply Forall_app in Hf as [Hf _]. split; simpl; try done.
    intros g m. rewrite lookup_delete_Some, Hh, Hr, elem_of_app, list_elem_of_singleton.
    split; [intros (Hne & [Hin|Heq]); [done|congruence]|]. intros Hin. split; [|by left]. intros <-.
    apply (H2' f); [|by constructor]. apply list_elem_of_fmap. by exists (m, f).
  - exists r. split; [done|]. split; [done|]. apply last_None in Hl. by rewrite Hl.
Qed.

Lemma pin_spec r f :
  inv r -> exists r', pin f r = (Ok tt, r') /\ inv r' /\ queue r' = spec_pin f (queue r).
Proof.
  intros Hi. unfold pin, spec_pin, queue.
  destruct (LRUhash_ r !! f) as [it|] eqn:Hf.
  - destruct Hi as [H1 H2 Hh Hfr]. apply Hh in Hf as Hin.
    rewrite decide_True by (apply list_elem_of_fmap; by exists (it, f)).
    eexists. split; [done|]. simpl. rewrite filter_fmap, <- (erase_node_snd it) by done.
    split; [|done]. split; simpl.
    + rewrite erase_node_fst. by apply NoDup_filter.
    + by apply NoDup_fmap_filter.
    + intros g m. rewrite lookup_delete_Some, Hh, (erase_node_snd it f) by done.
      rewrite list_elem_of_filter. simpl. intuition congruence.
    + rewrite erase_node_fst. apply Forall_forall. intros n [_ Hn]%list_elem_of_filter.
      rewrite Forall_forall in Hfr. by apply Hfr.
  - exists r. split; [done|]. split; [done|]. apply hash_None_queue in Hf; [|done].
    symmetry. apply filter_id. unfold queue in Hf. intros g Hg ->. done.
Qed.

Lemma unpin_spec r f :
  inv r -> exists r', unpin f r = (Ok tt, r') /\ inv r' /\ queue r' = spec_unpin f (queue r).
Proof.
  intros Hi. unfold unpin, spec_unpin.
  destruct (LRUhash_ r !! f) as [it|] eqn:Hf.
  - exists r. split; [done|]. split; [done|].
    rewrite decide_True; [done|]. apply hash_queue; [done|]. by eexists.
  - eexists. split; [done|]. apply hash_None_queue in Hf as Hq; [|done].
    rewrite decide_False by done. split; [|done].
    destruct Hi as [H1 H2 Hh Hfr]. split; simpl.
    + apply NoDup_cons. split; [|done]. intros Hin.
      rewrite Forall_forall in Hfr. specialize (Hfr _ Hin). lia.
    + apply NoDup_cons. by split.
    + intros g m. rewrite elem_of_cons. destruct (decide (f = g)) as [->|Hne].
      * rewrite lookup_insert_eq. split; [intros [= ->]; by left|].
        intros [[= ->]|Hin]; [done|]. apply Hh in Hin. congruence.
      * rewrite lookup_insert_ne by done. rewrite Hh. intuition congruence.
    + constructor; [lia|]. eapply Forall_impl; [exact Hfr|]. simpl. lia.
Qed.

Lemma Size_spec r : Size r = length (queue r).
Proof. unfold Size, queue. by rewrite length_fmap. Qed.

End Lru.
