(* ===== verification/Disk.v ===== *)
(** The disk manager: [DiskManager] of [src/src/storage/disk_manager.cpp] over the
    part of POSIX it calls.

    POSIX: a directory maps paths to inodes, an inode is a byte string, and an
    open descriptor has an inode and an offset.  [open] takes the lowest free
    descriptor, [write] past the end fills the gap with zeros, [read] returns
    what is there, [lseek] to a negative offset fails and leaves the offset, and
    [unlink] removes the directory entry only.  Calls on a valid descriptor do
    not fail for lack of space or on device errors.

    The latches of the class are held for the whole body of one operation, so
    an operation is one atomic step.  [is_dir], [create_dir] and [destroy_dir]
    run shell commands and are not modelled. *)

From S2P Require Import Prelude Bytes Errors.

(** ** Constants of [src/src/common/config.h] *)
Definition PAGE_SIZE : Z := 4096.
Definition INVALID_PAGE_ID : Z := -1.
Definition INVALID_LSN : Z := -1.
Definition INVALID_TXN_ID : Z := -1.
Definition LOG_BUFFER_SIZE : Z := 1024 * PAGE_SIZE.
Definition LOG_FILE_NAME : string := "db.log".
Definition MAX_FD : Z := 8192.

Record Disk := mkDisk {
  dir : gmap string nat;              (** file system: path -> inode *)
  inodes : gmap nat (list Z);         (** contents *)
  fds : gmap Z (nat * Z);             (** open descriptors: inode and offset *)
  next_ino : nat;
  path2fd_ : gmap string Z;
  fd2path_ : gmap Z string;
  log_fd_ : Z;
  fd2pageno_ : gmap Z Z;              (** array of MAX_FD entries, 0 where unset *)
}.

Module Dsk.

Definition empty : Disk := mkDisk ∅ ∅ ∅ 0 ∅ ∅ (-1) ∅.

Definition set_inodes (f : gmap nat (list Z) -> gmap nat (list Z)) (d : Disk) : Disk :=
  mkDisk (dir d) (f (inodes d)) (fds d) (next_ino d) (path2fd_ d) (fd2path_ d) (log_fd_ d) (fd2pageno_ d).
Definition set_fds (f : gmap Z (nat * Z) -> gmap Z (nat * Z)) (d : Disk) : Disk :=
  mkDisk (dir d) (inodes d) (f (fds d)) (next_ino d) (path2fd_ d) (fd2path_ d) (log_fd_ d) (fd2pageno_ d).
Definition set_pageno (f : gmap Z Z -> gmap Z Z) (d : Disk) : Disk :=
  mkDisk (dir d) (inodes d) (fds d) (next_ino d) (path2fd_ d) (fd2path_ d) (log_fd_ d) (f (fd2pageno_ d)).
Definition set_tables (p : gmap string Z) (q : gmap Z string) (d : Disk) : Disk :=
  mkDisk (dir d) (inodes d) (fds d) (next_ino d) p q (log_fd_ d) (fd2pageno_ d).
Definition SetLogFd (log_fd : Z) (d : Disk) : Disk :=
  mkDisk (dir d) (inodes d) (fds d) (next_ino d) (path2fd_ d) (fd2path_ d) log_fd (fd2pageno_ d).

(** ** POSIX calls *)

(** lowest descriptor not in use, the standard streams being 0, 1 and 2 *)
Fixpoint lowest_from (n : nat) (c : Z) (used : gmap Z (nat * Z)) : Z :=
  match n with
  | O => c
  | S n' => match used !! c with Some _ => lowest_from n' (c + 1) used | None => c end
  end.
Definition lowest_fd (used : gmap Z (nat * Z)) : Z := lowest_from (size used) 3 used.

Definition sys_open (path : string) (d : Disk) : option Z * Disk :=
  match dir d !! path with
  | Some ino =>
      let fd := lowest_fd (fds d) in (Some fd, set_fds (<[fd := (ino, 0)]>) d)
  | None => (None, d)
  end.

(** [open] with [O_CREAT] of a path that does not exist *)
Definition sys_create (path : string) (d : Disk) : Disk :=
  mkDisk (<[path := next_ino d]> (dir d)) (<[next_ino d := []]> (inodes d)) (fds d) (S (next_ino d))
    (path2fd_ d) (fd2path_ d) (log_fd_ d) (fd2pageno_ d).

Definition sys_close (fd : Z) (d : Disk) : Disk := set_fds (delete fd) d.

Definition sys_lseek_set (fd off : Z) (d : Disk) : Disk :=
  match fds d !! fd with
  | Some (ino, _) => if 0 <=? off then set_fds (<[fd := (ino, off)]>) d else d
  | None => d
  end.

Definition sys_lseek_end (fd : Z) (d : Disk) : Disk :=
  match fds d !! fd with
  | Some (ino, _) => set_fds (<[fd := (ino, zlen (default [] (inodes d !! ino)))]>) d
  | None => d
  end.

Definition file_write (off : Z) (b content : list Z) : list Z :=
  splice off b (content ++ zeros (off + zlen b - zlen content)).

(** [write(fd, b, |b|)]: the number of bytes written, -1 on a bad descriptor *)
Definition sys_write (fd : Z) (b : list Z) (d : Disk) : Z * Disk :=
  match fds d !! fd with
  | Some (ino, off) =>
      (zlen b, set_fds (<[fd := (ino, off + zlen b)]>)
                 (set_inodes (<[ino := file_write off b (default [] (inodes d !! ino))]>) d))
  | None => (-1, d)
  end.

(** [read(fd, p, n)]: the bytes read, [None] on a bad descriptor *)
Definition sys_read (fd n : Z) (d : Disk) : option (list Z) * Disk :=
  match fds d !! fd with
  | Some (ino, off) =>
      let b := slice off n (default [] (inodes d !! ino)) in
      (Some b, set_fds (<[fd := (ino, off + zlen b)]>) d)
  | None => (None, d)
  end.

Definition sys_unlink (path : string) (d : Disk) : bool * Disk :=
  match dir d !! path with
  | Some _ =>
      (true, mkDisk (delete path (dir d)) (inodes d) (fds d) (next_ino d)
               (path2fd_ d) (fd2path_ d) (log_fd_ d) (fd2pageno_ d))
  | None => (false, d)
  end.

(** ** DiskManager *)

(** the byte offset of a page: a product of two [int]s *)
Definition page_off (page_no : Z) : Z := wrap 32 (page_no * PAGE_SIZE).

(** [DiskManager::write_page] of the first [num_bytes] bytes at [offset] *)
Definition write_page (fd page_no : Z) (b : list Z) : Prog Disk unit := fun d =>
  let d1 := sys_lseek_set fd (page_off page_no) d in
  let '(n, d2) := sys_write fd b d1 in
  if n =? zlen b then (Ok tt, d2) else (Throw (InternalError "DiskManager::write_page Error"), d2).

(** [DiskManager::read_page]: the destination buffer also receives a short read *)
Definition read_page (fd page_no : Z) (buf : list Z) (num_bytes : Z) (d : Disk)
    : outcome error unit * list Z * Disk :=
  let d1 := sys_lseek_set fd (page_off page_no) d in
  let '(r, d2) := sys_read fd num_bytes d1 in
  match r with
  | Some b =>
      if zlen b =? num_bytes then (Ok tt, splice 0 b buf, d2)
      else (Throw (InternalError "DiskManager::read_page Error"), splice 0 b buf, d2)
  | None => (Throw (InternalError "DiskManager::read_page Error"), buf, d2)
  end.

(** [fd2pageno_[fd]] *)
Definition get_fd2pageno (fd : Z) (d : Disk) : Z := default 0 (fd2pageno_ d !! fd).

Definition set_fd2pageno (fd start_page_no : Z) : Prog Disk unit := fun d =>
  if (0 <=? fd) && (fd <? MAX_FD)
  then (Ok tt, set_pageno (<[fd := start_page_no]>) d)
  else (Fail Undef, d).

(** [DiskManager::allocate_page]: post-increment of an atomic 32-bit counter *)
Definition allocate_page (fd : Z) : Prog Disk Z := fun d =>
  if (0 <=? fd) && (fd <? MAX_FD)
  then (Ok (get_fd2pageno fd d), set_pageno (<[fd := wrap 32 (get_fd2pageno fd d + 1)]>) d)
  else (Fail AssertFail, d).

Definition deallocate_page (page_id : Z) : Prog Disk unit := ret tt.

Definition is_file (path : string) (d : Disk) : bool := bool_decide (is_Some (dir d !! path)).

Definition create_file (path : string) : Prog Disk unit := fun d =>
  if is_file path d then (Throw (FileExistsError path), d)
  else
    let d1 := sys_create path d in
    let '(fd, d2) := sys_open path d1 in
    match fd with
    | Some fd => (Ok tt, sys_close fd d2)
    | None => (Ok tt, d2)
    end.

Definition destroy_file (path : string) : Prog Disk unit := fun d =>
  match path2fd_ d !! path with
  | None =>
      let '(ok, d1) := sys_unlink path d in
      if (ok : bool) then (Ok tt, d1) else (Throw (FileNotFoundError path), d1)
  | Some _ => (Ok tt, d)
  end.

Definition open_file (path : string) : Prog Disk Z := fun d =>
  match path2fd_ d !! path with
  | None =>
      let '(r, d1) := sys_open path d in
      match r with
      | None => (Throw (FileNotFoundError path), d1)
      | Some fd => (Ok fd, set_tables (<[path := fd]> (path2fd_ d1)) (<[fd := path]> (fd2path_ d1)) d1)
      end
  | Some fd => (Ok fd, d)
  end.

Definition close_file (fd : Z) : Prog Disk unit := fun d =>
  match fd2path_ d !! fd with
  | Some path =>
      let d1 := sys_close fd d in
      (Ok tt, set_tables (delete path (path2fd_ d1)) (delete fd (fd2path_ d1)) d1)
  | None => (Ok tt, d)
  end.

Definition get_file_size (file_name : string) (d : Disk) : Z :=
  match dir d !! file_name with
  | Some ino => wrap 32 (zlen (default [] (inodes d !! ino)))
  | None => -1
  end.

Definition get_file_name (fd : Z) : Prog Disk string := fun d =>
  match fd2path_ d !! fd with
  | None => (Throw (FileNotOpenError fd), d)
  | Some p => (Ok p, d)
  end.

Definition get_file_fd (file_name : string) : Prog Disk Z := fun d =>
  match path2fd_ d !! file_name with
  | None => (Fail AssertFail, d)
  | Some fd => (Ok fd, d)
  end.

Section logfile.
Local Open Scope prog_scope.

(** opening the log file at first use *)
Definition ensure_log_fd : Prog Disk unit :=
  let* log_fd := gets log_fd_ in
  if log_fd =? -1
  then let* fd := open_file LOG_FILE_NAME in modify (SetLogFd fd)
  else ret tt.

(** [DiskManager::read_log]: the number of bytes read and the bytes *)
Definition read_log (size offset : Z) : Prog Disk (Z * list Z) :=
  ensure_log_fd;;
  let* file_size := gets (get_file_size LOG_FILE_NAME) in
  if file_size <? offset then ret (-1, [])
  else
    let size := Z.min size (file_size - offset) in
    if size =? 0 then ret (0, [])
    else
      let* log_fd := gets log_fd_ in
      modify (sys_lseek_set log_fd offset);;
      let* b := (fun d => let '(r, d') := sys_read log_fd size d in (Ok (default [] r), d')) in
      assert (zlen b =? size);;
      ret (zlen b, b).

(** [DiskManager::write_log]: append, then [fsync] *)
Definition write_log (b : list Z) : Prog Disk unit :=
  ensure_log_fd;;
  let* log_fd := gets log_fd_ in
  modify (sys_lseek_end log_fd);;
  let* bytes_write := (fun d => let '(n, d') := sys_write log_fd b d in (Ok n, d')) in
  let* synced := gets (fun d => bool_decide (is_Some (fds d !! log_fd))) in
  if synced : bool then
    if bytes_write =? zlen b then ret tt else throw (UnixError "")
  else throw (InternalError "fsync log error").
End logfile.

(** ** The state the operations keep *)

(** the bytes of the file behind an open descriptor *)
Definition content (fd : Z) (d : Disk) : option (list Z) :=
  match fds d !! fd with Some (ino, _) => inodes d !! ino | None => None end.

(** a page that lies within its file *)
Definition disk_page (fd page_no : Z) (d : Disk) : option (list Z) :=
  match content fd d with
  | Some c => if (0 <=? page_no) && ((page_no + 1) * PAGE_SIZE <=? zlen c)
              then Some (slice (page_no * PAGE_SIZE) PAGE_SIZE c) else None
  | None => None
  end.

(** the first [n] bytes of a file, if it has as many *)
Definition file_head (fd n : Z) (d : Disk) : option (list Z) :=
  match content fd d with
  | Some c => if (0 <=? n) && (n <=? zlen c) then Some (slice 0 n c) else None
  | None => None
  end.

(** pages whose offset fits an [int] *)
Definition page_ok (page_no : Z) : Prop := 0 <= page_no < 2 ^ 19.

Record dinv (d : Disk) : Prop := {
  di_tables : forall p fd, path2fd_ d !! p = Some fd <-> fd2path_ d !! fd = Some p;
  di_open : forall fd p, fd2path_ d !! fd = Some p ->
    exists ino off, fds d !! fd = Some (ino, off) /\ dir d !! p = Some ino;
  di_dir : forall p ino, dir d !! p = Some ino -> is_Some (inodes d !! ino) /\ (ino < next_ino d)%nat;
  di_inj : forall p q ino, dir d !! p = Some ino -> dir d !! q = Some ino -> p = q;
  di_fds : forall fd x, fds d !! fd = Some x -> 3 <= fd /\ 0 <= x.2;
}.

(** descriptors handed out by [open_file] and not yet closed *)
Definition registered (fd : Z) (d : Disk) : Prop := is_Some (fd2path_ d !! fd).

Lemma lowest_from_spec n c used :
  used !! lowest_from n c used = None \/
  (lowest_from n c used = c + Z.of_nat n /\
   forall i, c <= i < c + Z.of_nat n -> is_Some (used !! i)).
Proof.
  revert c. induction n as [|n IH]; intros c; simpl.
  - right. split; [lia|]. intros; lia.
  - destruct (used !! c) eqn:Hc; [|by left].
    destruct (IH (c + 1)) as [?|[-> Hall]]; [by left|].
    right. split; [lia|]. intros i Hi.
    destruct (decide (i = c)) as [->|]; [by rewrite Hc|]. apply Hall. lia.
Qed.

Lemma lowest_from_ge n c used : c <= lowest_from n c used.
Proof.
  revert c. induction n as [|n IH]; intros c; simpl; [lia|].
  destruct (used !! c); [|lia]. specialize (IH (c + 1)). lia.
Qed.

(** [open] returns a descriptor that is not in use *)
Lemma lowest_fd_fresh used : used !! lowest_fd used = None.
Proof.
  unfold lowest_fd.
  destruct (lowest_from_spec (size used) 3 used) as [?|[-> Hall]]; [done|].
  destruct (used !! (3 + Z.of_nat (size used))) as [x|] eqn:Hx; [|done]. exfalso.
  set (l := (fun k : nat => 3 + Z.of_nat k) <$> seq 0 (S (size used))).
  assert (Hl : NoDup l).
  { apply NoDup_fmap_2; [intros ???; lia|apply NoDup_seq]. }
  assert (Hsub : list_to_set l ⊆ dom used).
  { intros i Hi. apply elem_of_list_to_set, list_elem_of_fmap in Hi as (k & -> & Hk).
    apply elem_of_seq in Hk. apply elem_of_dom.
    destruct (decide (k = size used)) as [->|]; [by rewrite Hx|]. apply Hall. lia. }
  apply subseteq_size in Hsub. rewrite size_list_to_set, size_dom in Hsub by done.
  unfold l in Hsub. rewrite length_fmap, length_seq in Hsub. lia.
Qed.

Lemma page_off_ok page_no : page_ok page_no -> page_off page_no = page_no * PAGE_SIZE.
Proof. intros ?. unfold page_off, PAGE_SIZE. apply wrap_id; unfold page_ok in *; lia. Qed.

Lemma zlen_pad c n : zlen (c ++ zeros (n - zlen c)) = Z.max (zlen c) n.
Proof.
  rewrite zlen_app. unfold zeros at 1. unfold zlen at 2. rewrite length_replicate. lia.
Qed.

Lemma zlen_file_write off b c :
  0 <= off -> zlen (file_write off b c) = Z.max (zlen c) (off + zlen b).
Proof.
  intros ?. pose proof (zlen_nonneg b). unfold file_write.
  rewrite zlen_splice by (rewrite ?zlen_pad; lia). rewrite zlen_pad. lia.
Qed.

Lemma file_write_same off b c : 0 <= off -> slice off (zlen b) (file_write off b c) = b.
Proof.
  intros ?. unfold file_write. apply slice_splice_same; [done| |done]. rewrite zlen_pad. lia.
Qed.

Lemma file_write_disj off b c off' n :
  0 <= off -> 0 <= off' -> off' + n <= zlen c -> off' + n <= off \/ off + zlen b <= off' ->
  slice off' n (file_write off b c) = slice off' n c.
Proof.
  intros. unfold file_write.
  rewrite slice_splice_disj; [apply slice_app_l; lia|lia|lia|rewrite zlen_pad; lia|lia].
Qed.

(** the state after a [write] or a [read]: one offset, and the bytes of one file *)
Record wrote (fd : Z) (c' : list Z) (d d' : Disk) : Prop := {
  wr_same : content fd d' = Some c';
  wr_other : forall fd', fd' <> fd -> registered fd' d -> content fd' d' = content fd' d;
  wr_inv : dinv d';
  wr_dir : dir d' = dir d;
  wr_tables : path2fd_ d' = path2fd_ d /\ fd2path_ d' = fd2path_ d;
  wr_rest : fd2pageno_ d' = fd2pageno_ d /\ log_fd_ d' = log_fd_ d;
}.

Lemma dinv_content fd d : dinv d -> registered fd d -> is_Some (content fd d).
Proof.
  intros Hd [p Hp]. destruct (di_open _ Hd _ _ Hp) as (ino & off & Hfd & Hdir).
  unfold content. rewrite Hfd. by apply (di_dir _ Hd p).
Qed.

(** registered descriptors never share an inode *)
Lemma dinv_ino_inj d fd fd' ino o o' :
  dinv d -> registered fd d -> registered fd' d ->
  fds d !! fd = Some (ino, o) -> fds d !! fd' = Some (ino, o') -> fd = fd'.
Proof.
  intros Hd [p Hp] [q Hq] Hf Hf'.
  destruct (di_open _ Hd _ _ Hp) as (i1 & ? & E1 & D1).
  destruct (di_open _ Hd _ _ Hq) as (i2 & ? & E2 & D2).
  simplify_eq. pose proof (di_inj _ Hd _ _ _ D1 D2) as ->.
  apply (di_tables _ Hd) in Hp, Hq. congruence.
Qed.

(** changing the offset and the contents of one open descriptor *)
Lemma dinv_update d fd ino off off' c' :
  dinv d -> fds d !! fd = Some (ino, off) -> 0 <= off' ->
  dinv (set_fds (<[fd := (ino, off')]>) (set_inodes (<[ino := c']>) d)).
Proof.
  intros Hd Hfd Hoff. constructor; simpl; try apply Hd.
  - intros fd' p Hp. destruct (di_open _ Hd _ _ Hp) as (i & o & E & D).
    destruct (decide (fd' = fd)) as [->|].
    + rewrite lookup_insert_eq. simplify_eq. eauto 6.
    + rewrite lookup_insert_ne by done. eauto 6.
  - intros p i Hp. destruct (di_dir _ Hd _ _ Hp) as [? ?]. split; [|done].
    destruct (decide (i = ino)) as [->|]; [rewrite lookup_insert_eq|rewrite lookup_insert_ne by done]; eauto.
  - intros fd' x. destruct (decide (fd' = fd)) as [->|].
    + rewrite lookup_insert_eq. intros [= <-]. split; [|done]. eapply (di_fds _ Hd); eauto.
    + rewrite lookup_insert_ne by done. apply Hd.
Qed.

Lemma wrote_update d fd ino off off' c' :
  dinv d -> registered fd d -> fds d !! fd = Some (ino, off) -> 0 <= off' ->
  wrote fd c' d (set_fds (<[fd := (ino, off')]>) (set_inodes (<[ino := c']>) d)).
Proof.
  intros Hd Hr Hfd Hoff. split; try done.
  - unfold content. simpl. rewrite lookup_insert_eq. simpl. by rewrite lookup_insert_eq.
  - intros fd' Hne Hr'. unfold content. simpl. rewrite lookup_insert_ne by done.
    destruct (fds d !! fd') as [[i o]|] eqn:E; [|done].
    rewrite lookup_insert_ne; [done|]. intros ->. by apply Hne, eq_sym, (dinv_ino_inj d fd fd' i off o).
  - by apply (dinv_update _ _ _ off).
Qed.

Lemma registered_fd d fd : dinv d -> registered fd d -> exists ino off c,
  fds d !! fd = Some (ino, off) /\ inodes d !! ino = Some c /\ content fd d = Some c.
Proof.
  intros Hd Hr. destruct (dinv_content fd d Hd Hr) as [c Hc]. pose proof Hc as Hc'.
  unfold content in Hc'. destruct (fds d !! fd) as [[ino off]|]; [|done]. eauto 8.
Qed.

Lemma write_page_runs d fd page_no b c :
  dinv d -> registered fd d -> page_ok page_no -> content fd d = Some c ->
  runs (write_page fd page_no b) d (fun _ d' =>
    wrote fd (file_write (page_no * PAGE_SIZE) b c) d d').
Proof.
  intros Hd Hr Hok Hc. destruct (registered_fd d fd Hd Hr) as (ino & off & c' & Hfd & Hino & Hc').
  simplify_eq.
  assert (Hpos : 0 <= page_no * PAGE_SIZE) by (unfold page_ok, PAGE_SIZE in *; lia).
  exists tt. eexists. split.
  - unfold write_page, sys_lseek_set. rewrite page_off_ok, Hfd by done.
    rewrite (proj2 (Z.leb_le _ _) Hpos). unfold sys_write. simpl.
    rewrite lookup_insert_eq, Hino. simpl. rewrite Z.eqb_refl. reflexivity.
  - replace (set_fds _ _) with (set_fds (<[fd := (ino, page_no * PAGE_SIZE + zlen b)]>)
      (set_inodes (<[ino := file_write (page_no * PAGE_SIZE) b c]>) d)).
    + apply (wrote_update _ _ _ off); try done. pose proof (zlen_nonneg b). lia.
    + unfold set_fds, set_inodes. simpl. by rewrite insert_insert_eq.
Qed.

Lemma read_page_runs d fd page_no buf n c :
  dinv d -> registered fd d -> page_ok page_no -> content fd d = Some c ->
  0 <= n -> page_no * PAGE_SIZE + n <= zlen c ->
  exists d', read_page fd page_no buf n d =
    (Ok tt, splice 0 (slice (page_no * PAGE_SIZE) n c) buf, d') /\ wrote fd c d d'.
Proof.
  intros Hd Hr Hok Hc Hn Hlen. destruct (registered_fd d fd Hd Hr) as (ino & off & c' & Hfd & Hino & Hc').
  simplify_eq. unfold read_page, sys_lseek_set. rewrite page_off_ok, Hfd by done.
  assert (Hpos : 0 <= page_no * PAGE_SIZE) by (unfold page_ok, PAGE_SIZE in *; lia).
  rewrite (proj2 (Z.leb_le _ _) Hpos). unfold sys_read. simpl.
  rewrite lookup_insert_eq, Hino. simpl. rewrite zlen_slice by lia. rewrite Z.eqb_refl.
  eexists. split; [reflexivity|].
  match goal with |- wrote _ _ _ ?x =>
    replace x with (set_fds (<[fd := (ino, page_no * PAGE_SIZE + n)]>)
      (set_inodes (<[ino := c]>) d)) end.
  - apply (wrote_update _ _ _ off); try done. lia.
  - unfold set_fds, set_inodes. simpl. by rewrite insert_insert_eq, insert_id.
Qed.

(** Effect of writing one whole page, page by page. *)
Lemma wrote_page d d' fd page_no b c :
  zlen b = PAGE_SIZE -> page_ok page_no -> content fd d = Some c ->
  wrote fd (file_write (page_no * PAGE_SIZE) b c) d d' ->
  disk_page fd page_no d' = Some b /\
  (forall fd' p x, (fd', p) <> (fd, page_no) -> registered fd' d ->
     disk_page fd' p d = Some x -> disk_page fd' p d' = Some x).
Proof.
  intros Hb Hok Hc Hw. assert (0 <= page_no * PAGE_SIZE) by (unfold page_ok, PAGE_SIZE in *; lia).
  split.
  - unfold disk_page. rewrite (wr_same _ _ _ _ Hw), zlen_file_write by done.
    destruct ((0 <=? page_no) && _) eqn:E.
    + f_equal. rewrite <- Hb. rewrite Hb. rewrite <- Hb at 2. by apply file_write_same.
    + apply andb_false_iff in E as [E|E]; apply Z.leb_gt in E; unfold page_ok, PAGE_SIZE in *; lia.
  - intros fd' p x Hne Hr. unfold disk_page.
    destruct (decide (fd' = fd)) as [->|Hfd]; [|by rewrite (wr_other _ _ _ _ Hw)].
    rewrite Hc, (wr_same _ _ _ _ Hw), zlen_file_write by done.
    destruct ((0 <=? p) && ((p + 1) * PAGE_SIZE <=? zlen c)) eqn:E; [|done].
    apply andb_true_iff in E as [E1 E2]; apply Z.leb_le in E1, E2. intros [= <-].
    assert (p <> page_no) by congruence.
    rewrite (proj2 (Z.leb_le 0 p)) by done.
    rewrite (proj2 (Z.leb_le ((p + 1) * PAGE_SIZE) _)) by lia. simpl. f_equal.
    apply file_write_disj; unfold PAGE_SIZE in *; lia.
Qed.

Lemma disk_page_bounds fd p d x : disk_page fd p d = Some x ->
  exists c, content fd d = Some c /\ 0 <= p /\ (p + 1) * PAGE_SIZE <= zlen c /\
    x = slice (p * PAGE_SIZE) PAGE_SIZE c /\ zlen x = PAGE_SIZE.
Proof.
  unfold disk_page. destruct (content fd d) as [c|]; [|done].
  destruct ((0 <=? p) && ((p + 1) * PAGE_SIZE <=? zlen c)) eqn:E; [|done].
  apply andb_true_iff in E as [E1 E2]; apply Z.leb_le in E1, E2. intros [= <-].
  exists c. repeat split; try done. apply zlen_slice; unfold PAGE_SIZE in *; lia.
Qed.

Lemma wrote_read_page d d' fd c fd' p :
  dinv d -> registered fd d -> content fd d = Some c -> wrote fd c d d' -> registered fd' d ->
  disk_page fd' p d' = disk_page fd' p d.
Proof.
  intros Hd Hr Hc Hw Hr'. unfold disk_page. destruct (decide (fd' = fd)) as [->|].
  - by rewrite (wr_same _ _ _ _ Hw), Hc.
  - by rewrite (wr_other _ _ _ _ Hw).
Qed.

(** writing a page other than the first leaves the head of the file alone *)
Lemma wrote_head d d' fd page_no b c fd' n x :
  0 <= n <= PAGE_SIZE -> 1 <= page_no -> content fd d = Some c ->
  wrote fd (file_write (page_no * PAGE_SIZE) b c) d d' -> registered fd' d ->
  file_head fd' n d = Some x -> file_head fd' n d' = Some x.
Proof.
  intros Hn Hp Hc Hw Hr. unfold file_head. destruct (decide (fd' = fd)) as [->|Hne].
  - rewrite Hc, (wr_same _ _ _ _ Hw). destruct (0 <=? n) eqn:E0; [|done]. simpl.
    destruct (Z.leb_spec n (zlen c)); [|done]. intros [= <-].
    rewrite zlen_file_write by (unfold PAGE_SIZE in *; lia).
    destruct (Z.leb_spec n (Z.max (zlen c) (page_no * PAGE_SIZE + zlen b))); [|lia].
    f_equal. apply file_write_disj; unfold PAGE_SIZE in *; lia.
  - by rewrite (wr_other _ _ _ _ Hw).
Qed.

Lemma wrote_head_other d d' fd c fd' n :
  wrote fd c d d' -> fd' <> fd -> registered fd' d -> file_head fd' n d' = file_head fd' n d.
Proof. intros Hw Hne Hr. unfold file_head. by rewrite (wr_other _ _ _ _ Hw). Qed.

Lemma wrote_read_head d d' fd c fd' n :
  content fd d = Some c -> wrote fd c d d' -> registered fd' d -> file_head fd' n d' = file_head fd' n d.
Proof.
  intros Hc Hw Hr. unfold file_head. destruct (decide (fd' = fd)) as [->|].
  - by rewrite (wr_same _ _ _ _ Hw), Hc.
  - by rewrite (wr_other _ _ _ _ Hw).
Qed.

(** *** Every operation keeps the invariant *)

Lemma dinv_set_offset d fd ino off off' :
  dinv d -> fds d !! fd = Some (ino, off) -> 0 <= off' ->
  dinv (set_fds (<[fd := (ino, off')]>) d).
Proof.
  intros Hd Hfd Hoff. constructor; simpl; try apply Hd.
  - intros fd' p Hp. destruct (di_open _ Hd _ _ Hp) as (i & o & E & D).
    destruct (decide (fd' = fd)) as [->|].
    + rewrite lookup_insert_eq. simplify_eq. eauto.
    + rewrite lookup_insert_ne by done. eauto.
  - intros fd' x. destruct (decide (fd' = fd)) as [->|].
    + rewrite lookup_insert_eq. intros [= <-]. split; [|done]. eapply (di_fds _ Hd); eauto.
    + rewrite lookup_insert_ne by done. apply Hd.
Qed.

Lemma dinv_lseek_set d fd off : dinv d -> dinv (sys_lseek_set fd off d).
Proof.
  intros Hd. unfold sys_lseek_set. destruct (fds d !! fd) as [[ino o]|] eqn:E; [|done].
  destruct (Z.leb_spec 0 off); [|done]. by eapply dinv_set_offset.
Qed.

Lemma dinv_lseek_end d fd : dinv d -> dinv (sys_lseek_end fd d).
Proof.
  intros Hd. unfold sys_lseek_end. destruct (fds d !! fd) as [[ino o]|] eqn:E; [|done].
  eapply dinv_set_offset; [done|done|]. apply zlen_nonneg.
Qed.

Lemma dinv_write d fd b : dinv d -> dinv (sys_write fd b d).2.
Proof.
  intros Hd. unfold sys_write. destruct (fds d !! fd) as [[ino o]|] eqn:E; [|done].
  eapply dinv_update; [done|done|]. destruct (di_fds _ Hd _ _ E) as [_ ?]. simpl in *.
  pose proof (zlen_nonneg b). lia.
Qed.

Lemma dinv_read d fd n : dinv d -> dinv (sys_read fd n d).2.
Proof.
  intros Hd. unfold sys_read. destruct (fds d !! fd) as [[ino o]|] eqn:E; [|done].
  eapply dinv_set_offset; [done|done|]. destruct (di_fds _ Hd _ _ E) as [_ ?]. simpl in *.
  pose proof (zlen_nonneg (slice o n (default [] (inodes d !! ino)))). lia.
Qed.

Lemma dinv_write_page d fd p b : dinv d -> dinv (write_page fd p b d).2.
Proof.
  intros Hd. unfold write_page.
  pose proof (dinv_write _ fd b (dinv_lseek_set d fd (page_off p) Hd)) as Hw.
  destruct (sys_write _ _ _) as [n d2]. by destruct (n =? zlen b).
Qed.

Lemma dinv_read_page d fd p buf n : dinv d -> dinv (read_page fd p buf n d).2.
Proof.
  intros Hd. unfold read_page.
  pose proof (dinv_read _ fd n (dinv_lseek_set d fd (page_off p) Hd)) as Hw.
  destruct (sys_read _ _ _) as [[b|] d2]; [|done]. by destruct (zlen b =? n).
Qed.

Lemma dinv_sys_create d p : dinv d -> dir d !! p = None -> dinv (sys_create p d).
Proof.
  intros Hd Hp. constructor; simpl; try apply Hd.
  - intros fd q Hq. destruct (di_open _ Hd _ _ Hq) as (i & o & E & D).
    exists i, o. split; [done|]. rewrite lookup_insert_ne by congruence. done.
  - intros q i. rewrite lookup_insert_Some. intros [[-> <-]|[_ Hq]].
    + rewrite lookup_insert_eq. split; [by eexists|lia].
    + destruct (di_dir _ Hd _ _ Hq) as [? ?]. rewrite lookup_insert_ne by lia. split; [done|lia].
  - intros q r i. rewrite !lookup_insert_Some. intros [[<- <-]|[? Hq]] [[<- Hi]|[? Hr]]; try done.
    + apply (di_dir _ Hd) in Hr as [_ ?]. lia.
    + subst i. apply (di_dir _ Hd) in Hq as [_ ?]. lia.
    + by eapply (di_inj _ Hd).
Qed.

(** adding and removing a descriptor no table mentions *)
Lemma dinv_fresh_fd d ino : dinv d -> dinv (set_fds (<[lowest_fd (fds d) := (ino, 0)]>) d).
Proof.
  intros Hd. pose proof (lowest_fd_fresh (fds d)) as Hf. constructor; simpl; try apply Hd.
  - intros fd p Hp. destruct (di_open _ Hd _ _ Hp) as (i & o & E & D).
    rewrite lookup_insert_ne by congruence. eauto.
  - intros fd x. rewrite lookup_insert_Some. intros [[<- <-]|[_ Hx]].
    + split; [apply lowest_from_ge|done].
    + by apply (di_fds _ Hd _ _ Hx).
Qed.

Lemma unregistered_fresh d : dinv d -> fd2path_ d !! lowest_fd (fds d) = None.
Proof.
  intros Hd. destruct (fd2path_ d !! _) as [p|] eqn:E; [|done].
  destruct (di_open _ Hd _ _ E) as (i & o & Hf & _). by rewrite lowest_fd_fresh in Hf.
Qed.

Lemma dinv_close_fd d fd : dinv d -> fd2path_ d !! fd = None -> dinv (sys_close fd d).
Proof.
  intros Hd Hfd. constructor; simpl; try apply Hd.
  - intros fd' p Hp. rewrite lookup_delete_ne by congruence. by apply Hd.
  - intros fd' x. rewrite lookup_delete_Some. intros [_ ?]. by apply (di_fds _ Hd).
Qed.

Lemma dinv_create_file d p : dinv d -> dinv (create_file p d).2.
Proof.
  intros Hd. unfold create_file, is_file. case_bool_decide as Hp; [done|].
  apply eq_None_not_Some in Hp. pose proof (dinv_sys_create d p Hd Hp) as Hc.
  unfold sys_open. simpl dir. rewrite lookup_insert_eq.
  cbv zeta iota. apply dinv_close_fd; [by apply dinv_fresh_fd|].
  by apply (unregistered_fresh (sys_create p d)).
Qed.

Lemma dinv_destroy_file d p : dinv d -> dinv (destroy_file p d).2.
Proof.
  intros Hd. unfold destroy_file, sys_unlink.
  destruct (path2fd_ d !! p) eqn:Hp; [done|]. destruct (dir d !! p) as [ino|] eqn:Hi; [|done].
  constructor; simpl; try apply Hd.
  - intros fd q Hq. destruct (di_open _ Hd _ _ Hq) as (i & o & E & D).
    exists i, o. split; [done|]. rewrite lookup_delete_ne; [done|]. intros <-.
    apply (di_tables _ Hd) in Hq. congruence.
  - intros q i. rewrite lookup_delete_Some. intros [_ ?]. by apply (di_dir _ Hd q).
  - intros q r i. rewrite !lookup_delete_Some. intros [_ ?] [_ ?]. by eapply (di_inj _ Hd).
Qed.

Lemma dinv_register d p fd ino :
  dinv d -> dir d !! p = Some ino -> path2fd_ d !! p = None -> fd2path_ d !! fd = None ->
  fds d !! fd = Some (ino, 0) ->
  dinv (set_tables (<[p := fd]> (path2fd_ d)) (<[fd := p]> (fd2path_ d)) d).
Proof.
  intros Hd Hdir Hp Hfd Hf. pose proof (di_tables _ Hd) as Ht. constructor; simpl; try apply Hd.
  - intros q f. rewrite !lookup_insert_Some, Ht. intuition (subst; try congruence).
    right. split; [|done]. intros ->.
    match goal with Hq : fd2path_ d !! f = Some _ |- _ => apply Ht in Hq end. congruence.
  - intros f q. rewrite lookup_insert_Some. intros [[<- <-]|[? Hq]]; [eauto|]. by apply Hd.
Qed.

Lemma dinv_open_file d p : dinv d -> dinv (open_file p d).2.
Proof.
  intros Hd. unfold open_file, sys_open. destruct (path2fd_ d !! p) eqn:Hp; [done|].
  destruct (dir d !! p) as [ino|] eqn:Hi; [|done]. cbv zeta iota.
  eapply (dinv_register (set_fds _ d)); [by apply dinv_fresh_fd|done|done| |simpl; apply lookup_insert_eq].
  by apply (unregistered_fresh d).
Qed.

Lemma dinv_close_file d fd : dinv d -> dinv (close_file fd d).2.
Proof.
  intros Hd. unfold close_file. destruct (fd2path_ d !! fd) as [p|] eqn:Hp; [|done].
  pose proof (di_tables _ Hd) as Ht. constructor; simpl; try apply Hd.
  - intros q f. rewrite !lookup_delete_Some, Ht. split; intros [Hne Hq]; (split; [|done]).
    + intros ->. congruence.
    + intros ->. apply Ht in Hp, Hq. congruence.
  - intros f q. rewrite lookup_delete_Some. intros [? Hq]. rewrite lookup_delete_ne by done. by apply Hd.
  - intros f x. rewrite lookup_delete_Some. intros [_ ?]. by apply (di_fds _ Hd).
Qed.

(** *** The log file *)

Lemma open_file_runs d p ino :
  dinv d -> dir d !! p = Some ino ->
  runs (open_file p) d (fun fd d' => dinv d' /\ path2fd_ d' !! p = Some fd /\ registered fd d' /\
    dir d' = dir d /\ inodes d' = inodes d /\ log_fd_ d' = log_fd_ d /\ fd2pageno_ d' = fd2pageno_ d).
Proof.
  intros Hd Hi. pose proof (dinv_open_file d p Hd) as Hd'. revert Hd'.
  unfold runs, open_file, sys_open, registered. destruct (path2fd_ d !! p) as [fd|] eqn:Hp.
  - intros Hd'. exists fd, d. split; [done|]. split_and!; try done. exists p. by apply (di_tables _ Hd).
  - rewrite Hi. cbv zeta iota. intros Hd'. eexists _, _. split; [done|]. simpl in *.
    rewrite !lookup_insert_eq. split_and!; done.
Qed.

Lemma dinv_log_fd d fd : dinv d -> dinv (SetLogFd fd d).
Proof. intros Hd. constructor; simpl; apply Hd. Qed.

Lemma dinv_bind {A B} (m : Prog Disk A) (k : A -> Prog Disk B) d :
  dinv (m d).2 -> (forall a d', dinv d' -> dinv (k a d').2) -> dinv (bind m k d).2.
Proof. intros Hm Hk. unfold bind. destruct (m d) as [[a|e|f] d']; [by apply Hk|done|done]. Qed.

Lemma dinv_ensure_log_fd d : dinv d -> dinv (ensure_log_fd d).2.
Proof.
  intros Hd. unfold ensure_log_fd. apply dinv_bind; [done|]. intros lf d' Hd'.
  destruct (lf =? -1); [|done]. apply dinv_bind; [by apply dinv_open_file|].
  intros. by apply dinv_log_fd.
Qed.

Lemma dinv_read_log d n off : dinv d -> dinv (read_log n off d).2.
Proof.
  intros Hd. unfold read_log. apply dinv_bind; [by apply dinv_ensure_log_fd|]. intros _ d1 H1.
  apply dinv_bind; [done|]. intros fs d2 H2. destruct (fs <? off); [done|]. cbv zeta.
  destruct (_ =? 0); [done|]. apply dinv_bind; [done|]. intros lf d3 H3.
  apply dinv_bind; [by apply dinv_lseek_set|]. intros _ d4 H4. apply dinv_bind.
  - pose proof (dinv_read d4 lf (Z.min n (fs - off)) H4). by destruct (sys_read _ _ _).
  - intros b d5 H5. apply dinv_bind; [|done]. unfold assert. by destruct (_ =? _).
Qed.

Lemma dinv_write_log d b : dinv d -> dinv (write_log b d).2.
Proof.
  intros Hd. unfold write_log. apply dinv_bind; [by apply dinv_ensure_log_fd|]. intros _ d1 H1.
  apply dinv_bind; [done|]. intros lf d2 H2. apply dinv_bind; [by apply dinv_lseek_end|].
  intros _ d3 H3. apply dinv_bind.
  - pose proof (dinv_write d3 lf b H3). by destruct (sys_write _ _ _).
  - intros n d4 H4. apply dinv_bind; [done|]. intros [] d5 H5; [|done]. by destruct (n =? zlen b).
Qed.

(** the log file as the operations see it *)
Definition log_content (d : Disk) : option (list Z) :=
  match dir d !! LOG_FILE_NAME with Some ino => inodes d !! ino | None => None end.

(** the log descriptor is either unset or the one of the log file *)
Definition log_ok (d : Disk) : Prop :=
  is_Some (dir d !! LOG_FILE_NAME) /\
  (log_fd_ d = -1 \/ fd2path_ d !! log_fd_ d = Some LOG_FILE_NAME).

Lemma ensure_log_fd_runs d :
  dinv d -> log_ok d ->
  runs ensure_log_fd d (fun _ d' => dinv d' /\ fd2path_ d' !! log_fd_ d' = Some LOG_FILE_NAME /\
    dir d' = dir d /\ inodes d' = inodes d /\ fd2pageno_ d' = fd2pageno_ d).
Proof.
  intros Hd [[ino Hi] Hl]. unfold ensure_log_fd. rstep. destruct (Z.eqb_spec (log_fd_ d) (-1)) as [E|E].
  - eapply runs_bind; [by apply (open_file_runs d _ ino)|].
    intros fd d1 (H1 & Hp & _ & Hdir & Hino & _ & Hpn). apply runs_modify. simpl.
    split_and!; try done; [by apply dinv_log_fd|]. by apply (di_tables _ H1).
  - apply runs_ret. destruct Hl as [?|?]; [done|]. split_and!; done.
Qed.

Lemma fd_of_log d : dinv d -> fd2path_ d !! log_fd_ d = Some LOG_FILE_NAME ->
  exists ino off, fds d !! log_fd_ d = Some (ino, off) /\ dir d !! LOG_FILE_NAME = Some ino.
Proof. intros Hd Hl. by apply (di_open _ Hd). Qed.

Lemma write_log_runs d b c :
  dinv d -> log_ok d -> log_content d = Some c ->
  runs (write_log b) d (fun _ d' => dinv d' /\ log_ok d' /\ log_content d' = Some (c ++ b)).
Proof.
  intros Hd Hl Hc. pose proof (dinv_write_log d b Hd) as Hfin.
  destruct (ensure_log_fd_runs d Hd Hl) as ([] & d1 & E1 & H1 & Hp & Hdir & Hino & _).
  destruct (fd_of_log d1 H1 Hp) as (ino & off & Hf & Hd1).
  assert (Hc1 : inodes d1 !! ino = Some c).
  { unfold log_content in Hc. by rewrite <- Hdir, Hd1, <- Hino in Hc. }
  eassert (write_log b d = (Ok tt, _)) as Heq.
  { unfold write_log. rewrite (bind_ok _ _ _ _ _ E1). unfold bind, gets, modify.
    unfold sys_lseek_end. rewrite Hf. unfold sys_write. simpl. rewrite lookup_insert_eq.
    simpl. rewrite lookup_insert_eq. rewrite bool_decide_true by (by eexists).
    rewrite Z.eqb_refl. reflexivity. }
  rewrite Heq in Hfin. eapply runs_eq; [exact Heq|]. split_and!; [done| |].
  - split; simpl; [by rewrite Hd1; eexists|by right].
  - unfold log_content. simpl. rewrite Hd1, lookup_insert_eq, Hc1. simpl. f_equal.
    unfold file_write, splice.
    replace (zlen c + zlen b - zlen c) with (zlen b) by lia.
    assert (Z.to_nat (zlen c) = length c) as -> by (unfold zlen; lia).
    rewrite take_app_length. f_equal. rewrite drop_ge, app_nil_r; [done|].
    rewrite length_app. unfold zeros, zlen. rewrite length_replicate. lia.
Qed.

(** a descriptor that is not open on the log file *)
Definition off_log (d : Disk) (fd : Z) : Prop :=
  forall ino off, fds d !! fd = Some (ino, off) -> dir d !! LOG_FILE_NAME <> Some ino.

(** what a write to the log leaves alone: the other files *)
Record beside_log (d d' : Disk) : Prop := {
  bl_file : forall fd, registered fd d -> registered fd d';
  bl_content : forall fd, registered fd d -> off_log d fd -> content fd d' = content fd d;
  bl_pageno : fd2pageno_ d' = fd2pageno_ d;
}.

Lemma off_log_named d fd p : dinv d -> fd2path_ d !! fd = Some p -> p <> LOG_FILE_NAME -> off_log d fd.
Proof.
  intros Hd Hp Hne ino off Hf Hl. destruct (di_open _ Hd _ _ Hp) as (ino' & off' & Hf' & Hi'). rewrite Hf in Hf'. injection Hf' as <- <-.
  apply Hne. by apply (di_inj _ Hd p LOG_FILE_NAME ino).
Qed.

Lemma open_file_keeps d p fd :
  dinv d -> registered fd d -> registered fd (open_file p d).2 /\ fds (open_file p d).2 !! fd = fds d !! fd.
Proof.
  intros Hd Hr. unfold open_file, sys_open. destruct (path2fd_ d !! p); [done|]. destruct (dir d !! p) as [ino|]; [|done].
  destruct Hr as [q Hq]. destruct (di_open _ Hd _ _ Hq) as (i & o & Hf & _). assert (Hne : lowest_fd (fds d) <> fd).
  { intros E. pose proof (lowest_fd_fresh (fds d)) as Hfr. by rewrite E, Hf in Hfr. }
  unfold registered. simpl. rewrite !lookup_insert_ne by done. split; [by exists q|done].
Qed.

Lemma ensure_log_fd_keeps d fd :
  dinv d -> registered fd d -> registered fd (ensure_log_fd d).2 /\ fds (ensure_log_fd d).2 !! fd = fds d !! fd.
Proof.
  intros Hd Hr. pose proof (open_file_keeps d LOG_FILE_NAME fd Hd Hr) as H. unfold ensure_log_fd, bind, gets.
  destruct (log_fd_ d =? -1); [|done]. by destruct (open_file LOG_FILE_NAME d) as [[|e|f] d'].
Qed.

Lemma write_log_beside d b : dinv d -> log_ok d -> beside_log d (write_log b d).2.
Proof.
  intros Hd Hl. destruct (ensure_log_fd_runs d Hd Hl) as ([] & d1 & E1 & H1 & Hp & Hdir & Hino & Hpn).
  destruct (fd_of_log d1 H1 Hp) as (ino & off & Hf & Hd1).
  pose proof (fun fd => ensure_log_fd_keeps d fd Hd) as Hk. rewrite E1 in Hk. simpl in Hk.
  unfold write_log. rewrite (bind_ok _ _ _ _ _ E1). unfold bind, gets, modify, sys_lseek_end. rewrite Hf.
  unfold sys_write. simpl. rewrite lookup_insert_eq. simpl. rewrite lookup_insert_eq, bool_decide_true by (by eexists). rewrite Z.eqb_refl.
  split; simpl; [intros fd Hr; by apply Hk| |done]. intros fd Hr Ho. unfold content. simpl.
  destruct (Hk fd Hr) as [_ Hfd]. assert (Hne : log_fd_ d1 <> fd).
  { intros <-. rewrite Hf in Hfd. symmetry in Hfd. apply (Ho _ _ Hfd). by rewrite <- Hdir. }
  rewrite !lookup_insert_ne by done. rewrite Hfd. destruct (fds d !! fd) as [[i o]|] eqn:Efd; [|done].
  rewrite lookup_insert_ne; [by rewrite Hino|]. intros <-. apply (Ho _ _ Efd). by rewrite <- Hdir.
Qed.

End Dsk.

(** * Properties *)

Inductive disk_op :=
  | DCreate (path : string) | DDestroy (path : string) | DOpen (path : string) | DClose (fd : Z)
  | DWrite (fd page_no : Z) (b : list Z) | DRead (fd page_no n : Z) (buf : list Z)
  | DReadLog (size offset : Z) | DWriteLog (b : list Z).

Definition disk_run (op : disk_op) (d : Disk) : Disk :=
  match op with
  | DCreate p => (Dsk.create_file p d).2
  | DDestroy p => (Dsk.destroy_file p d).2
  | DOpen p => (Dsk.open_file p d).2
  | DClose fd => (Dsk.close_file fd d).2
  | DWrite fd p b => (Dsk.write_page fd p b d).2
  | DRead fd p n buf => (Dsk.read_page fd p buf n d).2
  | DReadLog n off => (Dsk.read_log n off d).2
  | DWriteLog b => (Dsk.write_log b d).2
  end.

(** C39: Whatever sequence of calls is made on a fresh disk manager, also calls that
    throw, the open-file tables [path2fd_] and [fd2path_] stay inverse of each
    other, every registered descriptor is open on the file of its path, and two
    registered descriptors never share a file. *)
Theorem disk_reachable_invariant (ops : list disk_op) :
  let d := fold_left (fun d op => disk_run op d) ops Dsk.empty in
  (forall p fd, path2fd_ d !! p = Some fd <-> fd2path_ d !! fd = Some p) /\
  (forall fd p, fd2path_ d !! fd = Some p ->
     exists ino off, fds d !! fd = Some (ino, off) /\ dir d !! p = Some ino) /\
  (forall fd fd' ino o o', is_Some (fd2path_ d !! fd) -> is_Some (fd2path_ d !! fd') ->
     fds d !! fd = Some (ino, o) -> fds d !! fd' = Some (ino, o') -> fd = fd').
Proof.
  assert (Hinv : forall l d, Dsk.dinv d -> Dsk.dinv (fold_left (fun d op => disk_run op d) l d)).
  { induction l as [|op l IH]; intros d Hd; [done|]. apply IH. destruct op; simpl;
      auto using Dsk.dinv_create_file, Dsk.dinv_destroy_file, Dsk.dinv_open_file, Dsk.dinv_close_file,
        Dsk.dinv_write_page, Dsk.dinv_read_page, Dsk.dinv_read_log, Dsk.dinv_write_log. }
  intros d. assert (Hd : Dsk.dinv d) by (apply Hinv; by constructor).
  split_and!; [apply Hd|apply Hd|]. intros. by eapply Dsk.dinv_ino_inj.
Qed.

(** A page written with [write_page] is what [read_page] returns, and every
    other page of every open file keeps its contents; for page numbers below
    2^19, where the product of page number and page size fits an [int]. *)
Theorem disk_write_read_roundtrip d fd page_no b buf :
  Dsk.dinv d -> Dsk.registered fd d -> Dsk.page_ok page_no ->
  zlen b = PAGE_SIZE -> zlen buf = PAGE_SIZE ->
  exists d1 d2, Dsk.write_page fd page_no b d = (Ok tt, d1) /\
    Dsk.read_page fd page_no buf PAGE_SIZE d1 = (Ok tt, b, d2) /\ Dsk.dinv d2 /\
    forall fd' p x, (fd', p) <> (fd, page_no) -> Dsk.registered fd' d ->
      Dsk.disk_page fd' p d = Some x -> Dsk.disk_page fd' p d2 = Some x.
Proof.
  intros Hd Hr Hok Hb Hbuf. destruct (Dsk.dinv_content fd d Hd Hr) as [c Hc].
  destruct (Dsk.write_page_runs d fd page_no b c Hd Hr Hok Hc) as ([] & d1 & E1 & Hw).
  destruct (Dsk.wrote_page d d1 fd page_no b c Hb Hok Hc Hw) as [Hsame Hother].
  assert (Hreg : forall f, Dsk.registered f d -> Dsk.registered f d1).
  { intros f. unfold Dsk.registered. by rewrite (proj2 (Dsk.wr_tables _ _ _ _ Hw)). }
  destruct (Dsk.disk_page_bounds _ _ _ _ Hsame) as (c1 & Hc1 & H0 & Hlen & Hbe & _).
  destruct (Dsk.read_page_runs d1 fd page_no buf PAGE_SIZE c1 (Dsk.wr_inv _ _ _ _ Hw) (Hreg _ Hr) Hok Hc1)
    as (d2 & E2 & Hw2); [done|unfold PAGE_SIZE in *; lia|].
  exists d1, d2. split; [done|]. rewrite E2, <- Hbe, splice_all by congruence.
  split; [done|]. split; [apply (Dsk.wr_inv _ _ _ _ Hw2)|]. intros fd' p x Hne Hr' Hx.
  rewrite (Dsk.wrote_read_page d1 d2 fd c1); eauto. apply (Dsk.wr_inv _ _ _ _ Hw).
Qed.

(** a disk with one open file and an empty log *)
Definition demo_disk : Disk :=
  fold_left (fun d op => disk_run op d) [DCreate "t"; DOpen "t"; DCreate LOG_FILE_NAME] Dsk.empty.

Lemma disk_write_read_roundtrip_witness :
  exists d1 d2, Dsk.write_page 3 1 (zeros PAGE_SIZE) demo_disk = (Ok tt, d1) /\
    Dsk.read_page 3 1 (zeros PAGE_SIZE) PAGE_SIZE d1 = (Ok tt, zeros PAGE_SIZE, d2) /\ Dsk.dinv d2 /\
    forall fd' p x, (fd', p) <> (3, 1) -> Dsk.registered fd' demo_disk ->
      Dsk.disk_page fd' p demo_disk = Some x -> Dsk.disk_page fd' p d2 = Some x.
Proof.
  apply (disk_write_read_roundtrip demo_disk 3 1 (zeros PAGE_SIZE) (zeros PAGE_SIZE)).
  - apply Dsk.dinv_create_file, Dsk.dinv_open_file, Dsk.dinv_create_file. by constructor.
  - exists "t". vm_compute. reflexivity.
  - unfold Dsk.page_ok. lia.
  - vm_compute. reflexivity.
  - vm_compute. reflexivity.
Defined.

(** [write_log] appends: whatever the offset of the descriptor and whether or
    not the log was open before, the log file afterwards is the old contents
    followed by the bytes given. *)
Theorem disk_write_log_appends d b c :
  Dsk.dinv d -> Dsk.log_ok d -> Dsk.log_content d = Some c ->
  exists d', Dsk.write_log b d = (Ok tt, d') /\ Dsk.dinv d' /\ Dsk.log_content d' = Some (c ++ b).
Proof.
  intros Hd Hl Hc. destruct (Dsk.write_log_runs d b c Hd Hl Hc) as ([] & d' & E & H1 & _ & H2). eauto.
Qed.

Definition demo_log_disk : Disk := disk_run (DCreate LOG_FILE_NAME) Dsk.empty.

Lemma disk_write_log_appends_witness :
  exists d', Dsk.write_log [1; 2] demo_log_disk = (Ok tt, d') /\ Dsk.dinv d' /\
    Dsk.log_content d' = Some ([] ++ [1; 2]).
Proof.
  apply (disk_write_log_appends demo_log_disk [1; 2] []).
  - apply Dsk.dinv_create_file. by constructor.
  - split; [exists 0%nat; vm_compute; reflexivity|left; reflexivity].
  - vm_compute. reflexivity.
Defined.

(** From page 2^19 on the byte offset, a product of two 32-bit integers, wraps to
    a negative number; [lseek] then fails unchecked and [write_page] writes at
    whatever offset the descriptor happens to have, reporting success. *)
Theorem disk_page_offset_overflow page_no fd b d ino off :
  2 ^ 19 <= page_no < 2 ^ 20 -> fds d !! fd = Some (ino, off) ->
  Dsk.page_off page_no < 0 /\
  exists d', Dsk.write_page fd page_no b d = (Ok tt, d') /\
    inodes d' !! ino = Some (Dsk.file_write off b (default [] (inodes d !! ino))).
Proof.
  intros Hp Hf. assert (Hneg : Dsk.page_off page_no < 0).
  { unfold Dsk.page_off, wrap, signed, PAGE_SIZE. rewrite Z.mod_small by lia.
    destruct (Z.ltb_spec (page_no * 4096) (2 ^ (32 - 1))); lia. }
  split; [done|]. unfold Dsk.write_page, Dsk.sys_lseek_set. rewrite Hf.
  destruct (Z.leb_spec 0 (Dsk.page_off page_no)); [lia|]. unfold Dsk.sys_write. rewrite Hf, Z.eqb_refl.
  eexists. split; [done|]. simpl. apply lookup_insert_eq.
Qed.

Lemma disk_page_offset_overflow_witness :
  Dsk.page_off 524288 < 0 /\
  exists d', Dsk.write_page 3 524288 [7] demo_disk = (Ok tt, d') /\
    inodes d' !! 0%nat = Some (Dsk.file_write 0 [7] (default [] (inodes demo_disk !! 0%nat))).
Proof. apply (disk_page_offset_overflow 524288 3 [7] demo_disk 0 0); [lia|vm_compute; reflexivity]. Defined.
