(* ===== verification/BufferPool.v ===== *)
(** The buffer pool: [BufferPoolManager] of [src/src/storage/buffer_pool_manager.cpp]
    and the page frames of [src/src/storage/page.h].

    The state is the disk together with the pool.  A [Page] pointer is the number
    of its frame.  The pool's mutex [latch_] and the per-frame mutexes
    [page_latches_] are part of the state: locking one that is held is a
    [Deadlock].  [fetch_page] is split where the code releases [latch_], so that
    interleavings of two threads can be written as sequences of steps. *)

From S2P Require Import Prelude Bytes Errors Lru Disk.

Record PageId := mkPageId { fd : Z; page_no : Z }.

#[export] Instance PageId_eq_dec : EqDecision PageId.
Proof. solve_decision. Defined.
#[export] Instance PageId_countable : Countable PageId.
Proof.
  apply (inj_countable' (fun p => (fd p, page_no p)) (fun x => mkPageId x.1 x.2)). by intros [].
Defined.

(** [PageId::operator<] *)
Definition PageId_lt (x y : PageId) : bool :=
  if fd x <? fd y then true else page_no x <? page_no y.

(** [PageId::Get] and [PageIdHash]: [fd << 16] is a shift of a 32-bit [int] *)
Definition PageId_Get (p : PageId) : Z := Z.lor (wrap 32 (Z.shiftl (fd p) 16)) (page_no p).

(** the hash is converted to an unsigned 64-bit integer *)
Definition PageIdHash (p : PageId) : Z :=
  (Z.lor (wrap 32 (Z.shiftl (fd p) 16)) (page_no p)) mod 2 ^ 64.

Record Page := mkPage {
  id_ : PageId;
  data_ : list Z;
  is_dirty_ : bool;
  pin_count_ : Z;
}.

Record BPM := mkBPM {
  pool_size_ : nat;
  pages_ : list Page;
  page_table_ : gmap PageId frame_id;
  free_list_ : list frame_id;
  replacer_ : LRUReplacer;
  latch_ : bool;                     (** [true] while the mutex is held *)
  page_latches_ : gset frame_id;     (** the frames whose mutex is held *)
}.

(** The storage layer: the disk and the pool over it. *)
Record Store := mkStore { disk : Disk; bpm : BPM }.

Module Bpm.

(** [Page::reset_memory] *)
Definition reset_memory (p : Page) : Page :=
  mkPage (id_ p) (zeros PAGE_SIZE) (is_dirty_ p) (pin_count_ p).
Definition set_id (i : PageId) (p : Page) : Page := mkPage i (data_ p) (is_dirty_ p) (pin_count_ p).
Definition set_data (d : list Z) (p : Page) : Page := mkPage (id_ p) d (is_dirty_ p) (pin_count_ p).
Definition set_dirty (b : bool) (p : Page) : Page := mkPage (id_ p) (data_ p) b (pin_count_ p).
Definition set_pin (n : Z) (p : Page) : Page := mkPage (id_ p) (data_ p) (is_dirty_ p) n.

(** The constructor: every frame is free.  The [fd] of a fresh [PageId] is not
    initialised, hence the argument [fd0]. *)
Definition make (fd0 : Z) (pool_size : nat) : BPM :=
  mkBPM pool_size (replicate pool_size (mkPage (mkPageId fd0 INVALID_PAGE_ID) (zeros PAGE_SIZE) false 0))
    ∅ (seq 0 pool_size) (Lru.make pool_size) false ∅.

Definition set_pages (f : list Page -> list Page) (b : BPM) : BPM :=
  mkBPM (pool_size_ b) (f (pages_ b)) (page_table_ b) (free_list_ b) (replacer_ b) (latch_ b) (page_latches_ b).
Definition set_table (f : gmap PageId frame_id -> gmap PageId frame_id) (b : BPM) : BPM :=
  mkBPM (pool_size_ b) (pages_ b) (f (page_table_ b)) (free_list_ b) (replacer_ b) (latch_ b) (page_latches_ b).
Definition set_free (f : list frame_id -> list frame_id) (b : BPM) : BPM :=
  mkBPM (pool_size_ b) (pages_ b) (page_table_ b) (f (free_list_ b)) (replacer_ b) (latch_ b) (page_latches_ b).
Definition set_replacer (r : LRUReplacer) (b : BPM) : BPM :=
  mkBPM (pool_size_ b) (pages_ b) (page_table_ b) (free_list_ b) r (latch_ b) (page_latches_ b).
Definition set_latch (l : bool) (b : BPM) : BPM :=
  mkBPM (pool_size_ b) (pages_ b) (page_table_ b) (free_list_ b) (replacer_ b) l (page_latches_ b).
Definition set_page_latches (f : gset frame_id -> gset frame_id) (b : BPM) : BPM :=
  mkBPM (pool_size_ b) (pages_ b) (page_table_ b) (free_list_ b) (replacer_ b) (latch_ b) (f (page_latches_ b)).

Definition on_bpm (f : BPM -> BPM) (s : Store) : Store := mkStore (disk s) (f (bpm s)).

Section ops.
Local Open Scope prog_scope.

(** *** Mutexes *)
Definition lock_latch : Prog Store unit :=
  let* held := gets (fun s => latch_ (bpm s)) in
  if held : bool then fail Deadlock else modify (on_bpm (set_latch true)).
Definition unlock_latch : Prog Store unit := modify (on_bpm (set_latch false)).

Definition lock_page (f : frame_id) : Prog Store unit :=
  let* held := gets (fun s => page_latches_ (bpm s)) in
  if decide (f ∈ held) then fail Deadlock
  else modify (on_bpm (set_page_latches (fun h => {[f]} ∪ h))).
Definition unlock_page (f : frame_id) : Prog Store unit :=
  modify (on_bpm (set_page_latches (fun h => h ∖ {[f]}))).

(** *** Access to the other parts of the state *)
Definition on_disk {A} (m : Prog Disk A) : Prog Store A :=
  zoom disk (fun d s => mkStore d (bpm s)) m.
Definition on_replacer {A} (m : Prog LRUReplacer A) : Prog Store A :=
  zoom (fun s => replacer_ (bpm s)) (fun r => on_bpm (set_replacer r)) m.

(** [pages_[f]] *)
Definition page_at (f : frame_id) : Prog Store Page :=
  let* ps := gets (fun s => pages_ (bpm s)) in deref (ps !! f).
Definition upd_page (f : frame_id) (g : Page -> Page) : Prog Store unit :=
  modify (on_bpm (set_pages (alter g f))).

(** [disk_manager_->write_page(page.id_.fd, page.id_.page_no, page.data_, PAGE_SIZE)] *)
Definition write_back (f : frame_id) : Prog Store unit :=
  let* p := page_at f in
  on_disk (Dsk.write_page (fd (id_ p)) (page_no (id_ p)) (data_ p)).

(** [disk_manager_->read_page(page_id.fd, page_id.page_no, page.data_, PAGE_SIZE)] *)
Definition read_into (f : frame_id) (page_id : PageId) : Prog Store unit :=
  let* p := page_at f in
  fun s =>
    let '(r, buf, d') := Dsk.read_page (fd page_id) (page_no page_id) (data_ p) PAGE_SIZE (disk s) in
    (r, on_bpm (set_pages (alter (set_data buf) f)) (mkStore d' (bpm s))).

(** *** Operations *)

(** [BufferPoolManager::mark_dirty] *)
Definition mark_dirty (f : frame_id) : Prog Store unit := upd_page f (set_dirty true).

(** [BufferPoolManager::find_victim_page] *)
Definition find_victim_page : Prog Store (option frame_id) :=
  let* fl := gets (fun s => free_list_ (bpm s)) in
  match fl with
  | f :: rest => modify (on_bpm (set_free (fun _ => rest)));; ret (Some f)
  | [] => on_replacer Lru.victim
  end.

(** [BufferPoolManager::update_page] *)
Definition update_page (f : frame_id) (new_page_id : PageId) (new_frame_id : frame_id) : Prog Store unit :=
  let* page := page_at f in
  (if is_dirty_ page then write_back f;; upd_page f (set_dirty false) else ret tt);;
  modify (on_bpm (set_table (delete (id_ page))));;
  modify (on_bpm (set_table (<[new_page_id := new_frame_id]>)));;
  upd_page f (fun p => set_id new_page_id (reset_memory p)).

(** what the part of [fetch_page] under [latch_] found *)
Inductive fetch_result := FetchHit (f : frame_id) | FetchMiss (f : frame_id) | FetchFull.

Definition fetch_begin (page_id : PageId) : Prog Store fetch_result :=
  lock_latch;;
  let* tbl := gets (fun s => page_table_ (bpm s)) in
  match tbl !! page_id with
  | Some f =>
      lock_page f;;
      page_at f;;
      upd_page f (fun p => set_pin (pin_count_ p + 1) p);;
      unlock_page f;;
      on_replacer (Lru.pin f);;
      unlock_latch;;
      ret (FetchHit f)
  | None =>
      let* v := find_victim_page in
      match v with
      | Some f =>
          let* page := page_at f in
          modify (on_bpm (set_table (delete (id_ page))));;
          modify (on_bpm (set_table (<[page_id := f]>)));;
          lock_page f;;
          unlock_latch;;
          ret (FetchMiss f)
      | None => unlock_latch;; ret FetchFull
      end
  end.

(** the part of [fetch_page] after [latch_.unlock()] *)
Definition fetch_load (f : frame_id) (page_id : PageId) : Prog Store unit :=
  let* page := page_at f in
  (if is_dirty_ page then write_back f;; upd_page f (set_dirty false) else ret tt);;
  upd_page f (set_pin 1);;
  upd_page f (set_id page_id);;
  upd_page f reset_memory;;
  read_into f page_id;;
  unlock_page f.

(** [BufferPoolManager::fetch_page] *)
Definition fetch_page (page_id : PageId) : Prog Store (option frame_id) :=
  let* r := fetch_begin page_id in
  match r with
  | FetchHit f => ret (Some f)
  | FetchMiss f => fetch_load f page_id;; ret (Some f)
  | FetchFull => ret None
  end.

(** [BufferPoolManager::unpin_page] *)
Definition unpin_page (page_id : PageId) (is_dirty : bool) : Prog Store bool :=
  lock_latch;;
  let* tbl := gets (fun s => page_table_ (bpm s)) in
  match tbl !! page_id with
  | None => unlock_latch;; ret false
  | Some f =>
      lock_page f;;
      unlock_latch;;
      let* page := page_at f in
      if pin_count_ page =? 0 then unlock_page f;; ret false
      else
        upd_page f (fun p => set_pin (pin_count_ p - 1) p);;
        (if pin_count_ page - 1 =? 0 then on_replacer (Lru.unpin f) else ret tt);;
        (if is_dirty then upd_page f (set_dirty is_dirty) else ret tt);;
        unlock_page f;;
        ret true
  end.

(** [BufferPoolManager::flush_page] *)
Definition flush_page (page_id : PageId) : Prog Store bool :=
  lock_latch;;
  let* tbl := gets (fun s => page_table_ (bpm s)) in
  match tbl !! page_id with
  | Some f =>
      lock_page f;;
      unlock_latch;;
      upd_page f (set_dirty false);;
      write_back f;;
      unlock_page f;;
      ret true
  | None => unlock_latch;; ret false
  end.

(** [BufferPoolManager::new_page]: the page number goes to [page_id->page_no] *)
Definition new_page (file : Z) : Prog Store (option (PageId * frame_id)) :=
  lock_latch;;
  let* v := find_victim_page in
  match v with
  | None => unlock_latch;; ret None
  | Some f =>
      let* old := page_at f in
      modify (on_bpm (set_table (delete (id_ old))));;
      unlock_latch;;
      let* no := on_disk (Dsk.allocate_page file) in
      lock_page f;;
      let* page := page_at f in
      (if is_dirty_ page then write_back f else ret tt);;
      upd_page f reset_memory;;
      upd_page f (set_pin 1);;
      upd_page f (set_dirty false);;
      upd_page f (set_id (mkPageId file no));;
      unlock_page f;;
      lock_latch;;
      modify (on_bpm (set_table (<[mkPageId file no := f]>)));;
      unlock_latch;;
      ret (Some (mkPageId file no, f))
  end.

(** [BufferPoolManager::delete_page] *)
Definition delete_page (page_id : PageId) : Prog Store bool :=
  lock_latch;;
  let* tbl := gets (fun s => page_table_ (bpm s)) in
  match tbl !! page_id with
  | None => on_disk (Dsk.deallocate_page (page_no page_id));; unlock_latch;; ret true
  | Some f =>
      lock_page f;;
      let* page := page_at f in
      if 0 <? pin_count_ page then unlock_page f;; unlock_latch;; ret false
      else
        on_replacer (Lru.pin f);;
        modify (on_bpm (set_table (delete page_id)));;
        modify (on_bpm (set_free (fun l => l ++ [f])));;
        unlock_latch;;
        (if is_dirty_ page then write_back f;; upd_page f (set_dirty false) else ret tt);;
        upd_page f reset_memory;;
        upd_page f (set_id (mkPageId (-1) INVALID_PAGE_ID));;
        unlock_page f;;
        on_disk (Dsk.deallocate_page (page_no page_id));;
        ret true
  end.

(** [BufferPoolManager::flush_all_pages] *)
Definition flush_all_pages (file : Z) : Prog Store unit :=
  let* n := gets (fun s => pool_size_ (bpm s)) in
  for_each (seq 0 n) (fun i =>
    lock_page i;;
    let* page := page_at i in
    (if negb (page_no (id_ page) =? INVALID_PAGE_ID) && (fd (id_ page) =? file)
     then upd_page i (set_dirty false);; write_back i else ret tt);;
    unlock_page i).

(** [BufferPoolManager::free_page] *)
Definition free_page (page_id : PageId) : Prog Store unit :=
  lock_latch;;
  let* tbl := gets (fun s => page_table_ (bpm s)) in
  match tbl !! page_id with
  | Some f =>
      lock_page f;;
      let* page := page_at f in
      assert (pin_count_ page =? 0);;
      assert (negb (is_dirty_ page));;
      upd_page f (fun p => set_id (mkPageId (fd (id_ p)) INVALID_PAGE_ID) p);;
      unlock_page f;;
      on_replacer (Lru.pin f);;
      modify (on_bpm (set_table (delete page_id)));;
      modify (on_bpm (set_free (fun l => l ++ [f])));;
      unlock_latch
  | None => unlock_latch
  end.

(** [BufferPoolManager::free_all_pages] *)
Definition free_all_pages (file : Z) : Prog Store unit :=
  let* n := gets (fun s => pool_size_ (bpm s)) in
  for_each (seq 0 n) (fun i =>
    lock_latch;;
    lock_page i;;
    let* page := page_at i in
    (if negb (page_no (id_ page) =? INVALID_PAGE_ID) && (fd (id_ page) =? file)
     then
       assert (pin_count_ page =? 0);;
       assert (negb (is_dirty_ page));;
       upd_page i (fun p => set_id (mkPageId (fd (id_ p)) INVALID_PAGE_ID) p);;
       unlock_page i;;
       on_replacer (Lru.pin i);;
       modify (on_bpm (set_table (delete (id_ page))));;
       modify (on_bpm (set_free (fun l => l ++ [i])))
     else unlock_page i);;
    unlock_latch).

(** The handle's view of a frame: [Page::get_data] read and written by clients. *)
Definition read_frame (f : frame_id) (off n : Z) : Prog Store (list Z) :=
  let* p := page_at f in
  if in_range off n (zlen (data_ p)) then ret (slice off n (data_ p)) else fail Undef.

Definition write_frame (f : frame_id) (off : Z) (b : list Z) : Prog Store unit :=
  let* p := page_at f in
  if in_range off (zlen b) (zlen (data_ p))
  then upd_page f (fun p => set_data (splice off b (data_ p)) p) else fail Undef.

(** [Page::get_page_id] *)
Definition get_page_id (f : frame_id) : Prog Store PageId :=
  let* p := page_at f in ret (id_ p).
End ops.
End Bpm.
