(* ===== verification/BufferPoolProofs.v ===== *)
(** The buffer pool implements an always-resident array of pages.

    The invariant [binv] ties the page table, the free list, the replacer and the
    frames together; [page_is s k d] is the abstract content of page [k] (its
    frame if it has one, its place on disk otherwise).  Every operation of the
    pool is characterised by its effect on this view, on the pin counts, and on
    [clean], which says that evicting a page without writing it back would lose
    nothing. *)

From S2P Require Import Prelude Bytes Errors Lru Disk BufferPool.

Module BpmInv.

(** ** Invariant *)

Definition resident (p : Page) : Prop := page_no (id_ p) <> INVALID_PAGE_ID.
#[global] Instance resident_dec p : Decision (resident p).
Proof. unfold resident. apply _. Defined.

(** a page of an open file, allocated, at an offset an [int] can hold *)
Definition valid_page (d : Disk) (k : PageId) : Prop :=
  Dsk.registered (fd k) d /\ Dsk.page_ok (page_no k) /\ page_no k < Dsk.get_fd2pageno (fd k) d.

(** the frame is marked dirty or agrees with the disk *)
Definition synced (d : Disk) (p : Page) : Prop :=
  is_dirty_ p = true \/ Dsk.disk_page (fd (id_ p)) (page_no (id_ p)) d = Some (data_ p).

Record pool_ok (d : Disk) (ps : list Page) (tbl : gmap PageId frame_id) (fl q : list frame_id) : Prop := {
  pk_table : forall k f, tbl !! k = Some f <-> exists p, ps !! f = Some p /\ id_ p = k /\ resident p;
  pk_key : forall f p, ps !! f = Some p -> resident p -> valid_page d (id_ p);
  pk_page : forall f p, ps !! f = Some p -> zlen (data_ p) = PAGE_SIZE /\ 0 <= pin_count_ p;
  pk_free : forall f, f ∈ fl <-> exists p, ps !! f = Some p /\ ~ resident p;
  pk_nodup : NoDup fl;
  pk_queue : forall f, f ∈ q <-> exists p, ps !! f = Some p /\ resident p /\ pin_count_ p = 0;
  pk_idle : forall f p, ps !! f = Some p -> ~ resident p -> is_dirty_ p = false /\ pin_count_ p = 0;
  pk_sync : forall f p, ps !! f = Some p -> resident p -> pin_count_ p = 0 -> synced d p;
}.

Record binv (s : Store) : Prop := {
  bi_disk : Dsk.dinv (disk s);
  bi_size : length (pages_ (bpm s)) = pool_size_ (bpm s);
  bi_lru : Lru.inv (replacer_ (bpm s));
  bi_latch : latch_ (bpm s) = false;
  bi_latches : page_latches_ (bpm s) = ∅;
  bi_pool : pool_ok (disk s) (pages_ (bpm s)) (page_table_ (bpm s)) (free_list_ (bpm s))
              (Lru.queue (replacer_ (bpm s)));
}.

(** ** The abstract view *)

Definition frame_of (s : Store) (k : PageId) : option Page :=
  match page_table_ (bpm s) !! k with Some f => pages_ (bpm s) !! f | None => None end.

Definition page_is (s : Store) (k : PageId) (d : list Z) : Prop :=
  valid_page (disk s) k /\
  match frame_of s k with
  | Some p => data_ p = d
  | None => Dsk.disk_page (fd k) (page_no k) (disk s) = Some d
  end.

Definition pins (s : Store) (k : PageId) : Z :=
  match frame_of s k with Some p => pin_count_ p | None => 0 end.

Definition clean (s : Store) (k : PageId) : Prop :=
  match frame_of s k with Some p => synced (disk s) p | None => True end.

(** a pointer to the frame of a pinned page *)
Definition handle (s : Store) (f : frame_id) (k : PageId) : Prop :=
  page_table_ (bpm s) !! k = Some f /\ 0 < pins s k.

(** the number of pages allocated in a file *)
Definition npages (s : Store) (g : Z) : Z := Dsk.get_fd2pageno g (disk s).

(** the number of frames that can take another page *)
Definition room (s : Store) : Z :=
  zlen (free_list_ (bpm s)) + zlen (Lru.queue (replacer_ (bpm s))).

(** ** Consequences of the invariant *)

Lemma pool_inj d ps tbl fl q f g p p' :
  pool_ok d ps tbl fl q -> ps !! f = Some p -> ps !! g = Some p' ->
  resident p -> id_ p = id_ p' -> f = g.
Proof.
  intros Hk Hf Hg Hr Hid.
  assert (tbl !! id_ p = Some f) by (apply (pk_table _ _ _ _ _ Hk); eauto).
  assert (tbl !! id_ p = Some g).
  { apply (pk_table _ _ _ _ _ Hk). exists p'. unfold resident in *. rewrite <- Hid. eauto. }
  congruence.
Qed.

Lemma frame_of_inv s k p :
  binv s -> frame_of s k = Some p ->
  exists f, page_table_ (bpm s) !! k = Some f /\ pages_ (bpm s) !! f = Some p /\ id_ p = k /\ resident p.
Proof.
  intros Hb Hf. unfold frame_of in Hf. destruct (page_table_ (bpm s) !! k) as [f|] eqn:E; [|done].
  pose proof E as E'. apply (pk_table _ _ _ _ _ (bi_pool _ Hb)) in E' as (p' & Hp & Hid & Hr).
  rewrite Hp in Hf. simplify_eq. eauto.
Qed.

Lemma frame_of_intro s f p :
  binv s -> pages_ (bpm s) !! f = Some p -> resident p -> frame_of s (id_ p) = Some p.
Proof.
  intros Hb Hf Hr. unfold frame_of.
  assert (page_table_ (bpm s) !! id_ p = Some f) as ->
    by (apply (pk_table _ _ _ _ _ (bi_pool _ Hb)); eauto). done.
Qed.

Lemma frame_none s k : binv s -> frame_of s k = None -> page_table_ (bpm s) !! k = None.
Proof.
  intros Hb Hf. unfold frame_of in Hf. destruct (page_table_ (bpm s) !! k) as [f|] eqn:E; [|done].
  apply (pk_table _ _ _ _ _ (bi_pool _ Hb)) in E as (p & Hp & _). congruence.
Qed.

Lemma unpinned_clean s k : binv s -> pins s k = 0 -> clean s k.
Proof.
  intros Hb. unfold pins, clean. destruct (frame_of s k) as [p|] eqn:E; [|done]. intros Hp.
  destruct (frame_of_inv s k p Hb E) as (f & _ & Hf & _ & Hr).
  by eapply (pk_sync _ _ _ _ _ (bi_pool _ Hb)).
Qed.

Lemma page_is_len s k d : binv s -> page_is s k d -> zlen d = PAGE_SIZE.
Proof.
  intros Hb [_ Hd]. destruct (frame_of s k) as [p|] eqn:E.
  - destruct (frame_of_inv s k p Hb E) as (f & _ & Hf & _). subst d.
    by apply (pk_page _ _ _ _ _ (bi_pool _ Hb) f).
  - by apply Dsk.disk_page_bounds in Hd as (c & _ & _ & _ & _ & ?).
Qed.

Lemma page_is_fun s k d d' : page_is s k d -> page_is s k d' -> d = d'.
Proof. intros [_ H1] [_ H2]. destruct (frame_of s k); congruence. Qed.

Lemma pins_nonneg s k : binv s -> 0 <= pins s k.
Proof.
  intros Hb. unfold pins. destruct (frame_of s k) as [p|] eqn:E; [|lia].
  destruct (frame_of_inv s k p Hb E) as (f & _ & Hf & _).
  by apply (pk_page _ _ _ _ _ (bi_pool _ Hb) f).
Qed.

(** what the other pages see of a step: [k] is the page the step is about *)
Record stable (k : PageId) (s s' : Store) : Prop := {
  st_page : forall j d, j <> k -> page_is s j d -> page_is s' j d;
  st_pins : forall j, j <> k -> pins s' j = pins s j;
  st_clean : forall j, j <> k -> clean s j -> clean s' j;
  st_handle : forall f j, j <> k -> handle s f j -> handle s' f j;
  st_tables : path2fd_ (disk s') = path2fd_ (disk s) /\ fd2path_ (disk s') = fd2path_ (disk s) /\
              dir (disk s') = dir (disk s);
}.

(** ** Disk steps as the pool sees them *)

Record dpres (P : PageId -> Prop) (d d' : Disk) : Prop := {
  dp_inv : Dsk.dinv d';
  dp_tables : path2fd_ d' = path2fd_ d /\ fd2path_ d' = fd2path_ d /\ dir d' = dir d;
  dp_pageno : forall g, Dsk.get_fd2pageno g d' = Dsk.get_fd2pageno g d;
  dp_page : forall j x, P j -> Dsk.registered (fd j) d ->
    Dsk.disk_page (fd j) (page_no j) d = Some x -> Dsk.disk_page (fd j) (page_no j) d' = Some x;
  dp_head : forall g n x, P (mkPageId g 0) -> 0 <= n <= PAGE_SIZE -> Dsk.registered g d ->
    Dsk.file_head g n d = Some x -> Dsk.file_head g n d' = Some x;
}.

Lemma dpres_refl P d : Dsk.dinv d -> dpres P d d.
Proof. intros. split; try done. Qed.

Lemma dpres_registered P d d' g : dpres P d d' -> Dsk.registered g d' <-> Dsk.registered g d.
Proof. intros [_ (_ & E & _) _ _]. unfold Dsk.registered. by rewrite E. Qed.

Lemma dpres_trans P d1 d2 d3 : dpres P d1 d2 -> dpres P d2 d3 -> dpres P d1 d3.
Proof.
  intros H1 H2. split; [apply H2| | | |].
  - destruct (dp_tables _ _ _ H1) as (? & ? & ?), (dp_tables _ _ _ H2) as (? & ? & ?). split_and!; congruence.
  - intros g. pose proof (dp_pageno _ _ _ H1 g). pose proof (dp_pageno _ _ _ H2 g). lia.
  - intros j x Hj Hr Hx. apply (dp_page _ _ _ H2); [done|by apply (dpres_registered P d1)|].
    by apply (dp_page _ _ _ H1).
  - intros g n x Hg Hn Hr Hx. apply (dp_head _ _ _ H2); [done|done|by apply (dpres_registered P d1)|].
    by apply (dp_head _ _ _ H1).
Qed.

Lemma dpres_weaken (P Q : PageId -> Prop) d d' : (forall j, Q j -> P j) -> dpres P d d' -> dpres Q d d'.
Proof. intros HPQ []. split; eauto. Qed.

Lemma dpres_valid P d d' k : dpres P d d' -> valid_page d k -> valid_page d' k.
Proof.
  intros Hp (Hr & Hok & Hlt). split_and!; [by apply (dpres_registered P d)|done|].
  pose proof (dp_pageno _ _ _ Hp (fd k)). lia.
Qed.

Lemma dpres_synced P d d' p :
  dpres P d d' -> P (id_ p) -> Dsk.registered (fd (id_ p)) d -> synced d p -> synced d' p.
Proof. intros Hp HP Hr [?|?]; [by left|right]. by apply (dp_page _ _ _ Hp). Qed.

Lemma wrote_dpres P d d' g c :
  Dsk.wrote g c d d' ->
  (forall j x, P j -> Dsk.registered (fd j) d ->
    Dsk.disk_page (fd j) (page_no j) d = Some x -> Dsk.disk_page (fd j) (page_no j) d' = Some x) ->
  (forall g n x, P (mkPageId g 0) -> 0 <= n <= PAGE_SIZE -> Dsk.registered g d ->
    Dsk.file_head g n d = Some x -> Dsk.file_head g n d' = Some x) ->
  dpres P d d'.
Proof.
  intros Hw HP HH. split; [apply Hw| | |done|done].
  - destruct (Dsk.wr_tables _ _ _ _ Hw). split_and!; [done|done|apply Hw].
  - intros g'. unfold Dsk.get_fd2pageno. by rewrite (proj1 (Dsk.wr_rest _ _ _ _ Hw)).
Qed.

(** writing a whole page *)
Lemma write_page_dpres d k b :
  Dsk.dinv d -> valid_page d k -> zlen b = PAGE_SIZE ->
  runs (Dsk.write_page (fd k) (page_no k) b) d (fun _ d' =>
    dpres (fun j => j <> k) d d' /\ Dsk.disk_page (fd k) (page_no k) d' = Some b).
Proof.
  intros Hd (Hr & Hok & _) Hb. destruct (Dsk.dinv_content _ _ Hd Hr) as [c Hc].
  eapply runs_conseq; [by apply (Dsk.write_page_runs d (fd k) (page_no k) b c)|].
  intros [] d' Hw. destruct (Dsk.wrote_page d d' _ _ b c Hb Hok Hc Hw) as [Hs Ho].
  split; [|done]. eapply wrote_dpres; [done| |].
  - intros j x Hj. apply Ho. intros E; injection E as E1 E2. apply Hj. destruct j, k; simpl in *; congruence.
  - intros g n x Hg Hn Hrg Hx. destruct (decide (g = fd k)) as [->|Hne].
    + assert (page_no k <> 0) by (intros E; apply Hg; destruct k; simpl in *; congruence).
      eapply (Dsk.wrote_head d d' (fd k) (page_no k) b c); try done. unfold Dsk.page_ok in Hok. lia.
    + by rewrite (Dsk.wrote_head_other d d' (fd k) _ g n Hw Hne Hrg).
Qed.

(** reading a page that is on disk *)
Lemma read_page_dpres d k buf b :
  Dsk.dinv d -> valid_page d k -> zlen buf = PAGE_SIZE ->
  Dsk.disk_page (fd k) (page_no k) d = Some b ->
  exists d', Dsk.read_page (fd k) (page_no k) buf PAGE_SIZE d = (Ok tt, b, d') /\ dpres (fun _ => True) d d'.
Proof.
  intros Hd (Hr & Hok & _) Hbuf Hb.
  destruct (Dsk.disk_page_bounds _ _ _ _ Hb) as (c & Hc & H0 & Hlen & -> & Hb').
  destruct (Dsk.read_page_runs d (fd k) (page_no k) buf PAGE_SIZE c Hd Hr Hok Hc) as (d' & E & Hw);
    [done|unfold PAGE_SIZE in *; lia|].
  exists d'. rewrite E, splice_all by congruence. split; [done|]. eapply wrote_dpres; [done| |].
  - intros j x _ Hj Hx. by rewrite (Dsk.wrote_read_page d d' (fd k) c).
  - intros g n x _ _ Hg Hx. by rewrite (Dsk.wrote_read_head d d' (fd k) c).
Qed.

(** ** Finding a frame *)

Lemma zlen_queue_pop (q : list nat) x : last q = Some x -> zlen (removelast q) = zlen q - 1.
Proof.
  intros Hl. rewrite (removelast_last q x Hl) at 2. rewrite zlen_app. unfold zlen at 3. simpl. lia.
Qed.

Record took (s : Store) (f : frame_id) (p : Page) (fl' : list frame_id) (r' : LRUReplacer) : Prop := {
  tk_page : pages_ (bpm s) !! f = Some p;
  tk_pin : pin_count_ p = 0;
  tk_lru : Lru.inv r';
  tk_free : forall g, g ∈ fl' <-> g ∈ free_list_ (bpm s) /\ g <> f;
  tk_nodup : NoDup fl';
  tk_queue : forall g, g ∈ Lru.queue r' <-> g ∈ Lru.queue (replacer_ (bpm s)) /\ g <> f;
  tk_room : zlen fl' + zlen (Lru.queue r') = room s - 1;
}.

Lemma find_victim_took s b :
  binv s -> 0 < room s ->
  exists f p fl' r', took s f p fl' r' /\
    Bpm.find_victim_page (Bpm.on_bpm (Bpm.set_latch b) s) =
      (Ok (Some f), mkStore (disk s) (mkBPM (pool_size_ (bpm s)) (pages_ (bpm s)) (page_table_ (bpm s)) fl' r'
                      b (page_latches_ (bpm s)))).
Proof.
  intros Hb Hroom. destruct s as [d [n ps tbl fl r l pl]]. destruct Hb as [_ _ Hlru _ _ Hk].
  unfold room in Hroom; simpl in *. destruct fl as [|f fl].
  - destruct (Lru.victim_spec r Hlru) as (r' & Hv & Hi & Hq). unfold Lru.spec_victim in *. simpl in *.
    destruct (last (Lru.queue r)) as [f|] eqn:Hl.
    2:{ apply last_None in Hl. rewrite Hl in Hroom. unfold zlen in Hroom. simpl in Hroom. lia. }
    assert (Hf : f ∈ Lru.queue r) by (by apply last_Some_elem_of).
    apply (pk_queue _ _ _ _ _ Hk) in Hf as (p & Hp & Hr & Hpin).
    pose proof (Lru.inv_frames _ Hlru) as Hnd. change ((LRUlist_ r).*2) with (Lru.queue r) in Hnd.
    exists f, p, [], r'. split.
    + split; simpl; try done; [intros g; rewrite elem_of_nil; tauto|constructor| |].
      * intros g. rewrite Hq. rewrite (removelast_last _ _ Hl) in Hnd |- *.
        rewrite removelast_app, app_nil_r by done. apply NoDup_app in Hnd as (_ & Hd & _).
        rewrite elem_of_app, list_elem_of_singleton. split.
        -- intros Hg. split; [by left|]. intros ->. by eapply Hd; [|constructor].
        -- by intros [[?| ->] ?].
      * rewrite Hq, (zlen_queue_pop _ f) by done. unfold room. simpl. unfold zlen at 1 3. simpl. lia.
    + unfold Bpm.find_victim_page, bind, gets, Bpm.on_replacer, zoom. simpl. rewrite Hv. done.
  - assert (Hf : f ∈ f :: fl) by constructor.
    apply (pk_free _ _ _ _ _ Hk) in Hf as (p & Hp & Hr).
    pose proof (pk_nodup _ _ _ _ _ Hk) as Hnd. apply NoDup_cons in Hnd as [Hni Hnd].
    exists f, p, fl, r. split; [|done]. split; simpl; try done.
    + by apply (pk_idle _ _ _ _ _ Hk) in Hp as [_ ?].
    + intros g. rewrite elem_of_cons. split; [|intros [[->|?] ?]; done]. intros Hg. split; [by right|]. by intros ->.
    + intros g. split; [|by intros [? _]]. intros Hg. split; [done|]. intros ->.
      apply (pk_queue _ _ _ _ _ Hk) in Hg as (p' & Hp' & Hr' & _). by simplify_eq.
    + unfold room. simpl. unfold zlen. simpl. lia.
Qed.

Lemma find_victim_none s b :
  binv s -> room s = 0 ->
  Bpm.find_victim_page (Bpm.on_bpm (Bpm.set_latch b) s) = (Ok None, Bpm.on_bpm (Bpm.set_latch b) s).
Proof.
  intros Hb Hroom. destruct s as [d [n ps tbl fl r l pl]]. destruct Hb as [_ _ Hlru _ _ Hk].
  unfold room, zlen in Hroom; simpl in *.
  destruct fl; [|simpl in Hroom; lia]. unfold Bpm.find_victim_page, bind, gets, Bpm.on_replacer, zoom. simpl.
  unfold Lru.victim, Lru.queue in *. rewrite length_fmap in Hroom. destruct (LRUlist_ r) eqn:E; simpl in *; [done|lia].
Qed.

(** ** Giving a frame to another page *)

(** frame [f] of page [p] now holds page [k] *)
Definition replaced (s : Store) (f : frame_id) (p : Page) (fl' : list frame_id) (r' : LRUReplacer)
    (k : PageId) (b : list Z) (d' : Disk) : Store :=
  mkStore d' (mkBPM (pool_size_ (bpm s)) (<[f := mkPage k b false 1]> (pages_ (bpm s)))
    (<[k := f]> (delete (id_ p) (page_table_ (bpm s)))) fl' r' false ∅).

Section replace.
Context (s : Store) (f : frame_id) (p : Page) (fl' : list frame_id) (r' : LRUReplacer).
Context (k : PageId) (b : list Z) (d' : Disk).
Context (Hb : binv s) (Htook : took s f p fl' r').
Context (Hd : dpres (fun j => j <> id_ p) (disk s) d').
Context (Hwb : resident p -> Dsk.disk_page (fd (id_ p)) (page_no (id_ p)) d' = Some (data_ p)).
Context (Hnew : page_table_ (bpm s) !! k = None) (Hk : valid_page d' k) (Hlen : zlen b = PAGE_SIZE).

Let ps := pages_ (bpm s).
Let tbl := page_table_ (bpm s).
Let p' := mkPage k b false 1.
Let s' := replaced s f p fl' r' k b d'.

Lemma replace_resident : resident p'.
Proof.
  destruct Hk as (_ & Hok & _). unfold resident, INVALID_PAGE_ID. simpl.
  unfold Dsk.page_ok in Hok. lia.
Qed.

Lemma replace_lookup g q : <[f := p']> ps !! g = Some q <-> (g = f /\ q = p') \/ (g <> f /\ ps !! g = Some q).
Proof.
  pose proof (tk_page _ _ _ _ _ Htook) as Hp.
  rewrite list_lookup_insert_Some. pose proof (lookup_lt_Some _ _ _ Hp).
  split; [intros [(-> & -> & _)|[? ?]]; eauto|intros [[-> ->]|[? ?]]; eauto].
Qed.

(** frames other than [f] do not hold the page that was evicted *)
Lemma replace_other g q : g <> f -> ps !! g = Some q -> resident q -> id_ q <> id_ p /\ id_ q <> k.
Proof.
  intros Hg Hq Hr. pose proof (tk_page _ _ _ _ _ Htook) as Hp. pose proof (bi_pool _ Hb) as Hpool.
  split; intros E.
  - apply Hg. by eapply (pool_inj _ _ _ _ _ g f q p).
  - assert (tbl !! k = Some g) by (apply (pk_table _ _ _ _ _ Hpool); eauto).
    unfold tbl in *. congruence.
Qed.

Lemma replace_pool : pool_ok d' (<[f := p']> ps) (<[k := f]> (delete (id_ p) tbl)) fl' (Lru.queue r').
Proof.
  pose proof (bi_pool _ Hb) as Hpool. pose proof (tk_page _ _ _ _ _ Htook) as Hp.
  pose proof replace_resident as Hres.
  split.
  - intros j g. setoid_rewrite replace_lookup. rewrite lookup_insert_Some, lookup_delete_Some.
    unfold tbl. rewrite (pk_table _ _ _ _ _ Hpool). split.
    + intros [[<- <-]|(Hj & Hne & q & Hq & <- & Hr)]; [exists p'; eauto|].
      exists q. split; [|done]. right. split; [|done]. intros ->.
      congruence.
    + intros (q & [[-> ->]|[Hg Hq]] & <- & Hr); [by left|].
      destruct (replace_other g q Hg Hq Hr) as [H1 H2]. right. split_and!; [done|done|]. by exists q.
  - intros g q Hq%replace_lookup Hr. destruct Hq as [[-> ->]|[Hg Hq]]; [done|].
    eapply dpres_valid; [done|]. by apply (pk_key _ _ _ _ _ Hpool g).
  - intros g q Hq%replace_lookup. destruct Hq as [[-> ->]|[Hg Hq]]; [simpl; lia|].
    by apply (pk_page _ _ _ _ _ Hpool g).
  - intros g. rewrite (tk_free _ _ _ _ _ Htook), (pk_free _ _ _ _ _ Hpool).
    setoid_rewrite replace_lookup. split.
    + intros [(q & Hq & Hr) Hg]. exists q. split; [|done]. by right.
    + intros (q & [[-> ->]|[Hg Hq]] & Hr); [done|]. split; [|done]. by exists q.
  - apply Htook.
  - intros g. rewrite (tk_queue _ _ _ _ _ Htook), (pk_queue _ _ _ _ _ Hpool).
    setoid_rewrite replace_lookup. split.
    + intros [(q & Hq & Hr) Hg]. exists q. split; [|done]. by right.
    + intros (q & [[-> ->]|[Hg Hq]] & Hr & Hpin); [done|]. split; [|done]. by exists q.
  - intros g q Hq%replace_lookup Hr. destruct Hq as [[-> ->]|[Hg Hq]]; [done|].
    by eapply (pk_idle _ _ _ _ _ Hpool).
  - intros g q Hq%replace_lookup Hr Hpin. destruct Hq as [[-> ->]|[Hg Hq]]; [done|].
    destruct (replace_other g q Hg Hq Hr) as [H1 H2].
    eapply dpres_synced; [done|done| |]; [|by eapply (pk_sync _ _ _ _ _ Hpool)].
    by apply (pk_key _ _ _ _ _ Hpool g).
Qed.

Lemma replace_binv : binv s'.
Proof.
  split; simpl; try done; [apply Hd| |apply Htook|apply replace_pool].
  rewrite length_insert. apply Hb.
Qed.

Lemma replace_frame_of j : j <> k ->
  frame_of s' j = if decide (j = id_ p) then None else frame_of s j.
Proof.
  intros Hj. unfold frame_of. simpl. rewrite lookup_insert_ne by done.
  destruct (decide (j = id_ p)) as [->|Hne]; [by rewrite lookup_delete_eq|].
  rewrite lookup_delete_ne by done. unfold tbl.
  destruct (page_table_ (bpm s) !! j) as [g|] eqn:E; [|done].
  rewrite list_lookup_insert_ne; [done|]. intros ->.
  apply (pk_table _ _ _ _ _ (bi_pool _ Hb)) in E as (q & Hq & Hid & _).
  pose proof (tk_page _ _ _ _ _ Htook). congruence.
Qed.

Lemma replace_frame_new : frame_of s' k = Some p'.
Proof.
  unfold frame_of. simpl. rewrite lookup_insert_eq. apply replace_lookup. by left.
Qed.

(** the evicted page, if there was one, is the only page that left its frame *)
Lemma replace_evicted q : frame_of s (id_ p) = Some q -> q = p /\ resident p.
Proof.
  intros Hq. destruct (frame_of_inv _ _ _ Hb Hq) as (g & Ht & Hg & Hid & Hr).
  pose proof (tk_page _ _ _ _ _ Htook) as Hp. pose proof (bi_pool _ Hb) as Hpool.
  assert (g = f) as -> by (by eapply (pool_inj _ _ _ _ _ g f q p)). simplify_eq. done.
Qed.

Lemma replace_stable : stable k s s'.
Proof.
  split.
  - intros j x Hj [Hv Hx]. split; [by eapply dpres_valid|]. rewrite replace_frame_of by done.
    destruct (decide (j = id_ p)) as [->|Hne].
    + destruct (frame_of s (id_ p)) as [q|] eqn:E.
      * apply replace_evicted in E as [-> Hr]. subst x. by apply Hwb.
      * destruct (decide (resident p)) as [Hr|Hr].
        -- pose proof (frame_of_intro s f p Hb (tk_page _ _ _ _ _ Htook) Hr). congruence.
        -- destruct Hv as (_ & Hok & _). unfold resident in Hr. apply dec_stable in Hr.
           unfold Dsk.page_ok, INVALID_PAGE_ID in *. lia.
    + destruct (frame_of s j); [done|]. apply (dp_page _ _ _ Hd); [done|apply Hv|done].
  - intros j Hj. unfold pins. rewrite replace_frame_of by done.
    destruct (decide (j = id_ p)) as [->|Hne]; [|done].
    destruct (frame_of s (id_ p)) as [q|] eqn:E; [|done]. apply replace_evicted in E as [-> _].
    symmetry. apply Htook.
  - intros j Hj. unfold clean. rewrite replace_frame_of by done.
    destruct (decide (j = id_ p)) as [->|Hne]; [done|].
    destruct (frame_of s j) as [q|] eqn:E; [|done].
    destruct (frame_of_inv _ _ _ Hb E) as (g & _ & Hg & <- & Hr).
    apply (dpres_synced _ _ _ _ Hd Hne). by apply (pk_key _ _ _ _ _ (bi_pool _ Hb) g).
  - intros g j Hj [Ht Hpin]. unfold handle, pins in *. rewrite replace_frame_of by done. simpl.
    rewrite lookup_insert_ne by done. destruct (decide (j = id_ p)) as [->|Hne].
    + destruct (frame_of s (id_ p)) as [q|] eqn:E; [|lia]. apply replace_evicted in E as [-> _].
      pose proof (tk_pin _ _ _ _ _ Htook). lia.
    + by rewrite lookup_delete_ne.
  - apply Hd.
Qed.

Lemma replace_view :
  page_is s' k b /\ handle s' f k /\ pins s' k = 1 /\ room s' = room s - 1 /\
  (Dsk.disk_page (fd k) (page_no k) d' = Some b -> clean s' k).
Proof.
  unfold page_is, handle, pins, clean. rewrite replace_frame_new. simpl.
  rewrite lookup_insert_eq. split_and!; try done; [apply Htook|]. intros ?. by right.
Qed.
End replace.

(** ** Changing a frame in place *)

(** frame [f] now holds [p'] for the same page *)
Definition touched (s : Store) (f : frame_id) (p' : Page) (r' : LRUReplacer) (d' : Disk) : Store :=
  mkStore d' (mkBPM (pool_size_ (bpm s)) (<[f := p']> (pages_ (bpm s))) (page_table_ (bpm s))
    (free_list_ (bpm s)) r' false ∅).

Section touch.
Context (s : Store) (f : frame_id) (p p' : Page) (r' : LRUReplacer) (d' : Disk).
Context (Hb : binv s) (Hp : pages_ (bpm s) !! f = Some p) (Hr : resident p) (Hid : id_ p' = id_ p).
Context (Hlen : zlen (data_ p') = PAGE_SIZE) (Hpin : 0 <= pin_count_ p').
Context (Hlru : Lru.inv r').
Context (Hq : forall g, g ∈ Lru.queue r' <->
  (g <> f /\ g ∈ Lru.queue (replacer_ (bpm s))) \/ (g = f /\ pin_count_ p' = 0)).
Context (Hd : dpres (fun j => j <> id_ p) (disk s) d').
Context (Hsync : pin_count_ p' = 0 -> synced d' p').

Let ps := pages_ (bpm s).
Let s' := touched s f p' r' d'.

Lemma touch_resident : resident p'.
Proof. unfold resident. by rewrite Hid. Qed.

Lemma touch_lookup g q : <[f := p']> ps !! g = Some q <-> (g = f /\ q = p') \/ (g <> f /\ ps !! g = Some q).
Proof.
  rewrite list_lookup_insert_Some. pose proof (lookup_lt_Some _ _ _ Hp).
  split; [intros [(-> & -> & _)|[? ?]]; eauto|intros [[-> ->]|[? ?]]; eauto].
Qed.

Lemma touch_other g q : g <> f -> ps !! g = Some q -> resident q -> id_ q <> id_ p.
Proof.
  intros Hg Hgq Hrq E. apply Hg. by eapply (pool_inj _ _ _ _ _ g f q p (bi_pool _ Hb)).
Qed.

Lemma touch_pool : pool_ok d' (<[f := p']> ps) (page_table_ (bpm s)) (free_list_ (bpm s)) (Lru.queue r').
Proof.
  pose proof (bi_pool _ Hb) as Hpool. pose proof touch_resident as Hres. split.
  - intros j g. setoid_rewrite touch_lookup. rewrite (pk_table _ _ _ _ _ Hpool). split.
    + intros (q & Hgq & <- & Hrq). destruct (decide (g = f)) as [->|Hg].
      * exists p'. simplify_eq. eauto.
      * exists q. eauto.
    + intros (q & [[-> ->]|[Hg Hgq]] & <- & Hrq); [exists p|exists q]; eauto.
  - intros g q Hgq%touch_lookup Hrq. destruct Hgq as [[-> ->]|[Hg Hgq]].
    + rewrite Hid. eapply dpres_valid; [done|]. by apply (pk_key _ _ _ _ _ Hpool f).
    + eapply dpres_valid; [done|]. by apply (pk_key _ _ _ _ _ Hpool g).
  - intros g q Hgq%touch_lookup. destruct Hgq as [[-> ->]|[Hg Hgq]]; [done|].
    by apply (pk_page _ _ _ _ _ Hpool g).
  - intros g. rewrite (pk_free _ _ _ _ _ Hpool). setoid_rewrite touch_lookup. split.
    + intros (q & Hgq & Hrq). exists q. split; [|done]. right. split; [|done]. intros ->. by simplify_eq.
    + intros (q & [[-> ->]|[Hg Hgq]] & Hrq); [done|]. by exists q.
  - apply Hpool.
  - intros g. rewrite Hq, (pk_queue _ _ _ _ _ Hpool). setoid_rewrite touch_lookup. split.
    + intros [(Hg & q & Hgq & Hrq & ?)|[-> ?]]; [exists q; eauto|exists p'; eauto].
    + intros (q & [[-> ->]|[Hg Hgq]] & Hrq & ?); [by right|]. left. split; [done|]. by exists q.
  - intros g q Hgq%touch_lookup Hrq. destruct Hgq as [[-> ->]|[Hg Hgq]]; [done|].
    by eapply (pk_idle _ _ _ _ _ Hpool).
  - intros g q Hgq%touch_lookup Hrq ?. destruct Hgq as [[-> ->]|[Hg Hgq]]; [by apply Hsync|].
    pose proof (touch_other g q Hg Hgq Hrq) as Hne.
    apply (dpres_synced _ _ _ _ Hd Hne); [by apply (pk_key _ _ _ _ _ Hpool g)|].
    by eapply (pk_sync _ _ _ _ _ Hpool).
Qed.

Lemma touch_binv : binv s'.
Proof.
  split; simpl; try done; [apply Hd| |apply touch_pool]. rewrite length_insert. apply Hb.
Qed.

Lemma touch_frame_of j : j <> id_ p -> frame_of s' j = frame_of s j.
Proof.
  intros Hj. unfold frame_of. simpl. destruct (page_table_ (bpm s) !! j) as [g|] eqn:E; [|done].
  rewrite list_lookup_insert_ne; [done|]. intros ->.
  apply (pk_table _ _ _ _ _ (bi_pool _ Hb)) in E as (q & Hgq & Hidq & _). congruence.
Qed.

Lemma touch_frame_same : frame_of s' (id_ p) = Some p' /\ page_table_ (bpm s') !! id_ p = Some f.
Proof.
  unfold frame_of. simpl.
  assert (page_table_ (bpm s) !! id_ p = Some f) as -> by (apply (pk_table _ _ _ _ _ (bi_pool _ Hb)); eauto).
  split; [|done]. apply touch_lookup. by left.
Qed.

Lemma touch_stable : stable (id_ p) s s'.
Proof.
  split.
  - intros j x Hj [Hv Hx]. split; [by eapply dpres_valid|]. rewrite touch_frame_of by done.
    destruct (frame_of s j); [done|]. apply (dp_page _ _ _ Hd); [done|apply Hv|done].
  - intros j Hj. unfold pins. by rewrite touch_frame_of.
  - intros j Hj. unfold clean. rewrite touch_frame_of by done.
    destruct (frame_of s j) as [q|] eqn:E; [|done].
    destruct (frame_of_inv _ _ _ Hb E) as (g & _ & Hg & <- & Hrq).
    apply (dpres_synced _ _ _ _ Hd Hj). by apply (pk_key _ _ _ _ _ (bi_pool _ Hb) g).
  - intros g j Hj [Ht Hpj]. unfold handle, pins in *. by rewrite touch_frame_of.
  - apply Hd.
Qed.

Lemma touch_view :
  page_is s' (id_ p) (data_ p') /\ pins s' (id_ p) = pin_count_ p' /\
  (0 < pin_count_ p' -> handle s' f (id_ p)) /\ (clean s' (id_ p) <-> synced d' p').
Proof.
  unfold page_is, handle, pins, clean. destruct touch_frame_same as [-> Ht]. split_and!; try done.
  eapply dpres_valid; [done|]. by apply (pk_key _ _ _ _ _ (bi_pool _ Hb) f).
Qed.

Lemma touch_spec :
  binv s' /\ stable (id_ p) s s' /\
  page_is s' (id_ p) (data_ p') /\ pins s' (id_ p) = pin_count_ p' /\
  (0 < pin_count_ p' -> handle s' f (id_ p)) /\ (clean s' (id_ p) <-> synced d' p').
Proof. split; [apply touch_binv|]. split; [apply touch_stable|apply touch_view]. Qed.
End touch.

(** ** Symbolic execution of the pool's code *)

Lemma list_alter_insert_eq {A} (g : A -> A) f (l : list A) x : l !! f = Some x -> alter g f l = <[f := g x]> l.
Proof.
  intros Hx. apply list_eq. intros i. destruct (decide (i = f)) as [->|Hne].
  - rewrite list_lookup_alter_eq, Hx, list_lookup_insert_eq by (by eapply lookup_lt_Some). done.
  - by rewrite list_lookup_alter_ne, list_lookup_insert_ne.
Qed.

(** The steps below are stated on explicit states, so that the state of a run
    stays a record of its components. *)
Section steps.
Context {A : Type}.
Context (d : Disk) (n : nat) (ps : list Page) (tbl : gmap PageId frame_id) (fl : list frame_id)
  (r : LRUReplacer) (l : bool) (pl : gset frame_id).
Implicit Types (Q : A -> Store -> Prop) (m : unit -> Prog Store A).

Lemma runs_lock_latch m Q :
  runs (m tt) (mkStore d (mkBPM n ps tbl fl r true pl)) Q ->
  runs (bind Bpm.lock_latch m) (mkStore d (mkBPM n ps tbl fl r false pl)) Q.
Proof. done. Qed.

Lemma runs_unlock_latch m Q :
  runs (m tt) (mkStore d (mkBPM n ps tbl fl r false pl)) Q ->
  runs (bind Bpm.unlock_latch m) (mkStore d (mkBPM n ps tbl fl r l pl)) Q.
Proof. done. Qed.

Lemma runs_lock_page f m Q :
  runs (m tt) (mkStore d (mkBPM n ps tbl fl r l {[f]})) Q ->
  runs (bind (Bpm.lock_page f) m) (mkStore d (mkBPM n ps tbl fl r l ∅)) Q.
Proof.
  intros Hm. eapply runs_bind_eq; [|exact Hm]. unfold Bpm.lock_page, bind, gets. simpl.
  rewrite decide_False by apply not_elem_of_empty.
  unfold modify, Bpm.on_bpm, Bpm.set_page_latches. simpl. by rewrite union_empty_r_L.
Qed.

Lemma runs_unlock_page f m Q :
  runs (m tt) (mkStore d (mkBPM n ps tbl fl r l ∅)) Q ->
  runs (bind (Bpm.unlock_page f) m) (mkStore d (mkBPM n ps tbl fl r l {[f]})) Q.
Proof.
  intros Hm. eapply runs_bind_eq; [|exact Hm]. unfold Bpm.unlock_page, modify, Bpm.on_bpm, Bpm.set_page_latches.
  simpl. by rewrite difference_diag_L.
Qed.

Lemma runs_set_table g m Q :
  runs (m tt) (mkStore d (mkBPM n ps (g tbl) fl r l pl)) Q ->
  runs (bind (modify (Bpm.on_bpm (Bpm.set_table g))) m) (mkStore d (mkBPM n ps tbl fl r l pl)) Q.
Proof. done. Qed.

Lemma runs_set_free g m Q :
  runs (m tt) (mkStore d (mkBPM n ps tbl (g fl) r l pl)) Q ->
  runs (bind (modify (Bpm.on_bpm (Bpm.set_free g))) m) (mkStore d (mkBPM n ps tbl fl r l pl)) Q.
Proof. done. Qed.

Lemma runs_page_at f p (m : Page -> Prog Store A) s Q :
  pages_ (bpm s) !! f = Some p -> runs (m p) s Q -> runs (bind (Bpm.page_at f) m) s Q.
Proof.
  intros Hp Hm. eapply runs_bind_eq; [|exact Hm]. unfold Bpm.page_at, bind, gets, deref. by rewrite Hp.
Qed.

Lemma runs_upd_page f p g m Q :
  ps !! f = Some p ->
  runs (m tt) (mkStore d (mkBPM n (<[f := g p]> ps) tbl fl r l pl)) Q ->
  runs (bind (Bpm.upd_page f g) m) (mkStore d (mkBPM n ps tbl fl r l pl)) Q.
Proof.
  intros Hp Hm. eapply runs_bind_eq; [|exact Hm]. unfold Bpm.upd_page, modify, Bpm.on_bpm, Bpm.set_pages. simpl.
  by rewrite (list_alter_insert_eq g f _ p).
Qed.

(** an update of a frame that has just been updated *)
Lemma runs_upd_page_again f p g m Q :
  (f < length ps)%nat ->
  runs (m tt) (mkStore d (mkBPM n (<[f := g p]> ps) tbl fl r l pl)) Q ->
  runs (bind (Bpm.upd_page f g) m) (mkStore d (mkBPM n (<[f := p]> ps) tbl fl r l pl)) Q.
Proof.
  intros Hp Hm. eapply runs_bind_eq; [|exact Hm]. unfold Bpm.upd_page, modify, Bpm.on_bpm, Bpm.set_pages. simpl.
  rewrite (list_alter_insert_eq g f _ p) by (by apply list_lookup_insert_eq). by rewrite list_insert_insert_eq.
Qed.

Lemma runs_on_replacer {B} (c : Prog LRUReplacer B) a r' (m : B -> Prog Store A) Q :
  c r = (Ok a, r') -> runs (m a) (mkStore d (mkBPM n ps tbl fl r' l pl)) Q ->
  runs (bind (Bpm.on_replacer c) m) (mkStore d (mkBPM n ps tbl fl r l pl)) Q.
Proof.
  intros Hl Hm. eapply runs_bind_eq; [|exact Hm]. unfold Bpm.on_replacer, zoom. simpl. by rewrite Hl.
Qed.

Lemma runs_on_replacer_if (t : bool) (c : Prog LRUReplacer unit) r' m Q :
  (if t then c r else (Ok tt, r)) = (Ok tt, r') ->
  runs (m tt) (mkStore d (mkBPM n ps tbl fl r' l pl)) Q ->
  runs (bind (if t then Bpm.on_replacer c else ret tt) m) (mkStore d (mkBPM n ps tbl fl r l pl)) Q.
Proof. destruct t; [apply runs_on_replacer|]. intros [= ->] Hm. by apply runs_bind_ret. Qed.

Lemma runs_on_disk {B} (c : Prog Disk B) a d' (m : B -> Prog Store A) b Q :
  c d = (Ok a, d') -> runs (m a) (mkStore d' b) Q -> runs (bind (Bpm.on_disk c) m) (mkStore d b) Q.
Proof.
  intros Hl Hm. eapply runs_bind_eq; [|exact Hm]. unfold Bpm.on_disk, zoom. simpl. by rewrite Hl.
Qed.

Lemma runs_write_back f p d' m b Q :
  pages_ b !! f = Some p ->
  Dsk.write_page (fd (id_ p)) (page_no (id_ p)) (data_ p) d = (Ok tt, d') ->
  runs (m tt) (mkStore d' b) Q -> runs (bind (Bpm.write_back f) m) (mkStore d b) Q.
Proof.
  intros Hp Hw Hm. unfold Bpm.write_back. apply runs_bind_assoc. eapply runs_page_at; [done|].
  by eapply runs_on_disk.
Qed.

Lemma runs_read_into f p k b d' m Q :
  (f < length ps)%nat ->
  Dsk.read_page (fd k) (page_no k) (data_ p) PAGE_SIZE d = (Ok tt, b, d') ->
  runs (m tt) (mkStore d' (mkBPM n (<[f := Bpm.set_data b p]> ps) tbl fl r l pl)) Q ->
  runs (bind (Bpm.read_into f k) m) (mkStore d (mkBPM n (<[f := p]> ps) tbl fl r l pl)) Q.
Proof.
  intros Hp Hw Hm. unfold Bpm.read_into. apply runs_bind_assoc.
  eapply runs_page_at; [by apply list_lookup_insert_eq|].
  eapply runs_bind_eq; [simpl; by rewrite Hw|]. unfold Bpm.on_bpm, Bpm.set_pages. simpl.
  rewrite (list_alter_insert_eq _ f _ p) by (by apply list_lookup_insert_eq). by rewrite list_insert_insert_eq.
Qed.

(** [if (page.is_dirty()) { write_page(...); page.is_dirty_ = false; }] *)
Lemma runs_clean_frame f p d' m Q :
  ps !! f = Some p ->
  (if is_dirty_ p then Dsk.write_page (fd (id_ p)) (page_no (id_ p)) (data_ p) d
   else (Ok tt, d)) = (Ok tt, d') ->
  runs (m tt) (mkStore d' (mkBPM n (<[f := Bpm.set_dirty false p]> ps) tbl fl r l pl)) Q ->
  runs (bind (if is_dirty_ p then bind (Bpm.write_back f) (fun _ => Bpm.upd_page f (Bpm.set_dirty false))
              else ret tt) m) (mkStore d (mkBPM n ps tbl fl r l pl)) Q.
Proof.
  intros Hp Hd Hm. destruct (is_dirty_ p) eqn:Hdirty.
  - apply runs_bind_assoc. eapply runs_write_back; [done|done|].
    eapply runs_bind_eq; [|exact Hm]. unfold Bpm.upd_page, modify, Bpm.on_bpm, Bpm.set_pages. simpl.
    by rewrite (list_alter_insert_eq _ f _ p).
  - simplify_eq. apply runs_bind_ret.
    replace (Bpm.set_dirty false p) with p in Hm by (destruct p; simpl in *; by subst).
    by rewrite list_insert_id in Hm.
Qed.

(** the same without resetting the flag *)
Lemma runs_dirty_write_back f p d' m Q :
  ps !! f = Some p ->
  (if is_dirty_ p then Dsk.write_page (fd (id_ p)) (page_no (id_ p)) (data_ p) d
   else (Ok tt, d)) = (Ok tt, d') ->
  runs (m tt) (mkStore d' (mkBPM n ps tbl fl r l pl)) Q ->
  runs (bind (if is_dirty_ p then Bpm.write_back f else ret tt) m) (mkStore d (mkBPM n ps tbl fl r l pl)) Q.
Proof.
  intros Hp Hd Hm. destruct (is_dirty_ p) eqn:Hdirty.
  - by eapply runs_write_back.
  - simplify_eq. by apply runs_bind_ret.
Qed.
End steps.

Ltac bstep :=
  lazymatch goal with
  | |- runs (bind Bpm.lock_latch _) _ _ => apply runs_lock_latch
  | |- runs (bind Bpm.unlock_latch _) _ _ => apply runs_unlock_latch
  | |- runs (bind (Bpm.lock_page _) _) _ _ => apply runs_lock_page
  | |- runs (bind (Bpm.unlock_page _) _) _ _ => apply runs_unlock_page
  | |- runs (bind (modify (Bpm.on_bpm (Bpm.set_table _))) _) _ _ => apply runs_set_table
  | |- runs (bind (modify (Bpm.on_bpm (Bpm.set_free _))) _) _ _ => apply runs_set_free
  | |- runs (bind (Bpm.page_at _) _) _ _ =>
      eapply runs_page_at;
        [cbn [bpm pages_]; first [eassumption|apply list_lookup_insert_eq; eassumption]|]
  | |- runs (bind (Bpm.upd_page ?f _) _) (mkStore _ (mkBPM _ (<[?f := _]> _) _ _ _ _ _)) _ =>
      apply runs_upd_page_again; [eassumption|]
  | |- runs (bind (Bpm.upd_page _ _) _) _ _ => eapply runs_upd_page; [eassumption|]
  | |- _ => rstep; cbn [bpm disk pool_size_ pages_ page_table_ free_list_ replacer_ latch_ page_latches_]
  end.
Ltac bsteps := repeat bstep.

(** ** Interface lemmas *)

Lemma spec_pin_elem f q g : g ∈ Lru.spec_pin f q <-> g <> f /\ g ∈ q.
Proof. unfold Lru.spec_pin. by rewrite list_elem_of_filter. Qed.

Lemma zlen_spec_pin f q : NoDup q -> zlen (Lru.spec_pin f q) = zlen q - (if decide (f ∈ q) then 1 else 0).
Proof.
  unfold Lru.spec_pin, zlen. intros Hnd. induction Hnd as [|x q Hx Hnd IH]; [done|].
  rewrite filter_cons. destruct (decide (x <> f)) as [Hne|Heq%dec_stable]; simpl.
  - destruct (decide (f ∈ q)) as [Hf|Hf]; [rewrite decide_True by (by right)|rewrite decide_False]; [lia|lia|].
    intros [->|?]%elem_of_cons; done.
  - subst x. rewrite decide_False in IH by done. rewrite decide_True by constructor. lia.
Qed.

Lemma fetch_hit s k f p :
  binv s -> page_table_ (bpm s) !! k = Some f -> pages_ (bpm s) !! f = Some p ->
  exists r', Lru.inv r' /\ Lru.queue r' = Lru.spec_pin f (Lru.queue (replacer_ (bpm s))) /\
    runs (Bpm.fetch_page k) s (fun r s' => r = Some f /\
      s' = touched s f (Bpm.set_pin (pin_count_ p + 1) p) r' (disk s)).
Proof.
  intros Hb Ht Hp. destruct s as [d [n ps tbl fl r l pl]].
  destruct (Lru.pin_spec r f (bi_lru _ Hb)) as (r' & Er & Hi & Hq).
  pose proof (bi_latch _ Hb) as Hl. pose proof (bi_latches _ Hb) as Hpl. simpl in *. subst l pl.
  exists r'. split_and!; [done|done|]. unfold Bpm.fetch_page, Bpm.fetch_begin. rstep. bsteps.
  rewrite Ht. bsteps. eapply runs_on_replacer; [exact Er|]. bsteps. done.
Qed.

Lemma took_synced s f p fl' r' : binv s -> took s f p fl' r' -> resident p -> synced (disk s) p.
Proof. intros Hb Ht Hr. eapply (pk_sync _ _ _ _ _ (bi_pool _ Hb)); [apply Ht|done|apply Ht]. Qed.

Lemma took_len s f p fl' r' : binv s -> took s f p fl' r' -> zlen (data_ p) = PAGE_SIZE.
Proof. intros Hb Ht. eapply (pk_page _ _ _ _ _ (bi_pool _ Hb)). apply Ht. Qed.

(** the disk after the victim has been written back if it was dirty *)
Lemma evict_disk s f p fl' r' :
  binv s -> took s f p fl' r' ->
  exists d', (if is_dirty_ p then Dsk.write_page (fd (id_ p)) (page_no (id_ p)) (data_ p) (disk s)
              else (Ok tt, disk s)) = (Ok tt, d') /\
    dpres (fun j => j <> id_ p) (disk s) d' /\
    (resident p -> Dsk.disk_page (fd (id_ p)) (page_no (id_ p)) d' = Some (data_ p)).
Proof.
  intros Hb Ht. destruct (is_dirty_ p) eqn:Hdirty.
  - assert (Hr : resident p).
    { destruct (decide (resident p)) as [|Hr]; [done|].
      apply (pk_idle _ _ _ _ _ (bi_pool _ Hb) f) in Hr as [? _]; [congruence|apply Ht]. }
    destruct (write_page_dpres (disk s) (id_ p) (data_ p)) as ([] & d' & E & Hd & Hp).
    + apply Hb.
    + eapply (pk_key _ _ _ _ _ (bi_pool _ Hb)); [apply Ht|done].
    + by eapply took_len.
    + exists d'. eauto.
  - exists (disk s). split; [done|]. split; [apply dpres_refl, Hb|]. intros Hr.
    destruct (took_synced _ _ _ _ _ Hb Ht Hr); congruence.
Qed.

Lemma fetch_miss s k b :
  binv s -> page_table_ (bpm s) !! k = None -> valid_page (disk s) k ->
  Dsk.disk_page (fd k) (page_no k) (disk s) = Some b -> 0 < room s ->
  runs (Bpm.fetch_page k) s (fun r s' => exists f, r = Some f /\
    binv s' /\ stable k s s' /\ page_is s' k b /\ handle s' f k /\ pins s' k = 1 /\
    room s' = room s - 1 /\ clean s' k /\ (forall g, npages s' g = npages s g)).
Proof.
  intros Hb Ht Hv Hdp Hroom.
  destruct (find_victim_took s true Hb Hroom) as (f & p & fl' & r' & Htk & Efv).
  destruct (evict_disk s f p fl' r' Hb Htk) as (d1 & Ewb & Hd1 & Hwb).
  assert (Hne : resident p -> k <> id_ p).
  { intros Hr ->. pose proof (frame_of_intro s f p Hb (tk_page _ _ _ _ _ Htk) Hr) as Hf.
    unfold frame_of in Hf. by rewrite Ht in Hf. }
  assert (Hdp1 : Dsk.disk_page (fd k) (page_no k) d1 = Some b).
  { apply (dp_page _ _ _ Hd1); [|apply Hv|done]. intros ->. destruct Hv as (_ & Hok & _).
    unfold Dsk.page_ok in Hok. apply Hne; [|done]. unfold resident, INVALID_PAGE_ID. lia. }
  destruct (read_page_dpres d1 k (zeros PAGE_SIZE) b) as (d2 & Erd & Hd2);
    [apply Hd1|by eapply dpres_valid|by apply zlen_zeros|done|].
  assert (Hd12 : dpres (fun j => j <> id_ p) (disk s) d2)
    by (eapply dpres_trans; [done|]; by eapply dpres_weaken; [|exact Hd2]).
  assert (Hwb2 : resident p -> Dsk.disk_page (fd (id_ p)) (page_no (id_ p)) d2 = Some (data_ p)).
  { intros Hr. apply (dp_page _ _ _ Hd2); [done| |by apply Hwb].
    apply (dpres_registered _ _ _ _ Hd1).
    apply (pk_key _ _ _ _ _ (bi_pool _ Hb) f); [apply Htk|done]. }
  pose proof (Dsk.disk_page_bounds _ _ _ _ Hdp) as (_ & _ & _ & _ & _ & Hlen).
  assert (Hv2 : valid_page d2 k) by (by eapply dpres_valid).
  pose proof (replace_binv s f p fl' r' k b d2 Hb Htk Hd12 Ht Hv2 Hlen) as B.
  pose proof (replace_stable s f p fl' r' k b d2 Hb Htk Hd12 Hwb2) as St.
  pose proof (replace_view s f p fl' r' k b d2 Htk Hv2) as (V1 & V2 & V3 & V4 & V5).
  assert (Hdp2 : Dsk.disk_page (fd k) (page_no k) d2 = Some b).
  { apply (dp_page _ _ _ Hd2); [done| |done]. apply (dpres_registered _ _ _ _ Hd1), Hv. }
  apply (runs_conseq _ _ (fun a s' => a = Some f /\ s' = replaced s f p fl' r' k b d2)).
  2:{ intros a s' [-> ->]. pose proof (dp_pageno _ _ _ Hd12). eauto 12. }
  clear B St V1 V2 V3 V4 V5.
  pose proof (bi_latch _ Hb) as Hl. pose proof (bi_latches _ Hb) as Hpl.
  pose proof (tk_page _ _ _ _ _ Htk) as Hp. pose proof (lookup_lt_Some _ _ _ Hp) as Hlt.
  destruct s as [d [n ps tbl fl r l pl]]. simpl in *. subst l pl.
  unfold Bpm.fetch_page, Bpm.fetch_begin. bsteps. rewrite Ht. rstep.
  eapply runs_bind_eq; [exact Efv|]. simpl. bsteps. unfold Bpm.fetch_load. bsteps.
  eapply runs_clean_frame; [done|exact Ewb|]. bsteps.
  eapply runs_read_into; [exact Hlt|exact Erd|]. bsteps. done.
Qed.

Lemma dpres_same s P : binv s -> dpres P (disk s) (disk s).
Proof. intros Hb. apply dpres_refl, Hb. Qed.

Lemma queue_iff s f p : binv s -> pages_ (bpm s) !! f = Some p -> resident p ->
  f ∈ Lru.queue (replacer_ (bpm s)) <-> pin_count_ p = 0.
Proof.
  intros Hb Hp Hr. rewrite (pk_queue _ _ _ _ _ (bi_pool _ Hb)). split.
  - intros (q & Hq & _ & ?). congruence.
  - intros ?. by exists p.
Qed.

(** [fetch_page] of a page that exists returns a pinned handle on its contents. *)
Lemma fetch_page_spec s k b :
  binv s -> page_is s k b -> 0 < pins s k \/ 0 < room s ->
  runs (Bpm.fetch_page k) s (fun r s' => exists f, r = Some f /\
    binv s' /\ stable k s s' /\ page_is s' k b /\ handle s' f k /\ pins s' k = pins s k + 1 /\
    room s' = room s - (if pins s k =? 0 then 1 else 0) /\ (clean s k -> clean s' k) /\
    (forall g, npages s' g = npages s g)).
Proof.
  intros Hb [Hv Hpg] Hroom. destruct (page_table_ (bpm s) !! k) as [f|] eqn:Ht.
  - pose proof Ht as Ht'. apply (pk_table _ _ _ _ _ (bi_pool _ Hb)) in Ht' as (p & Hp & <- & Hr).
    assert (Hfr : frame_of s (id_ p) = Some p) by (by eapply frame_of_intro).
    destruct (fetch_hit s (id_ p) f p Hb Ht Hp) as (r' & Hi & Hq & Hrun).
    eapply runs_conseq; [exact Hrun|]. intros a s' [-> ->]. exists f. split; [done|].
    set (p' := Bpm.set_pin (pin_count_ p + 1) p).
    destruct (pk_page _ _ _ _ _ (bi_pool _ Hb) f p Hp) as [Hlen Hpin].
    assert (Hqe : forall g, g ∈ Lru.queue r' <->
      (g <> f /\ g ∈ Lru.queue (replacer_ (bpm s))) \/ (g = f /\ pin_count_ p' = 0)).
    { intros g. rewrite Hq, spec_pin_elem. split; [by left|]. intros [?|[_ E]]; [done|].
      unfold p' in E. simpl in E. lia. }
    assert (Hd := dpres_same s (fun j => j <> id_ p) Hb).
    destruct (touch_spec s f p p' r' (disk s)) as (B & St & V1 & V2 & V3 & V4); try done;
      [simpl; lia|simpl; lia|].
    rewrite Hfr in Hpg. subst b. unfold pins at 2 3. rewrite Hfr. split_and!; try done.
    + apply V3. simpl. lia.
    + unfold room. simpl. rewrite Hq, zlen_spec_pin by apply (Lru.inv_frames _ (bi_lru _ Hb)).
      destruct (decide (f ∈ _)) as [Hin|Hin]; rewrite (queue_iff s f p) in Hin by done;
        destruct (Z.eqb_spec (pin_count_ p) 0); try done; lia.
    + intros Hc. apply V4. unfold clean in Hc. by rewrite Hfr in Hc.
  - assert (Hfr : frame_of s k = None) by (unfold frame_of; by rewrite Ht).
    unfold pins in *. rewrite Hfr in *. eapply runs_conseq; [apply (fetch_miss s k b); try done; lia|].
    intros a s' (f & -> & ?). exists f. simpl. intuition.
Qed.

(** *** unpin *)

Lemma unpin_page_spec s k b (dirty : bool) :
  binv s -> page_is s k b -> 0 < pins s k -> (dirty = false -> pins s k = 1 -> clean s k) ->
  runs (Bpm.unpin_page k dirty) s (fun r s' => r = true /\
    binv s' /\ stable k s s' /\ page_is s' k b /\ pins s' k = pins s k - 1 /\
    room s' = room s + (if pins s k =? 1 then 1 else 0) /\
    (dirty = true \/ clean s k -> clean s' k) /\
    (forall f, handle s f k -> 1 < pins s k -> handle s' f k) /\
    (forall g, npages s' g = npages s g)).
Proof.
  intros Hb [Hv Hpg] Hpos Hcl. unfold pins in *.
  destruct (frame_of s k) as [p|] eqn:Hfr; [|lia].
  destruct (frame_of_inv s k p Hb Hfr) as (f & Ht & Hp & <- & Hr).
  destruct (pk_page _ _ _ _ _ (bi_pool _ Hb) f p Hp) as [Hlen _].
  set (p' := mkPage (id_ p) (data_ p) (is_dirty_ p || dirty) (pin_count_ p - 1)).
  assert (exists r', Lru.inv r' /\
    (if pin_count_ p - 1 =? 0 then Lru.unpin f (replacer_ (bpm s)) else (Ok tt, replacer_ (bpm s))) = (Ok tt, r') /\
    (forall g, g ∈ Lru.queue r' <->
      (g <> f /\ g ∈ Lru.queue (replacer_ (bpm s))) \/ (g = f /\ pin_count_ p' = 0)) /\
    zlen (Lru.queue r') = zlen (Lru.queue (replacer_ (bpm s))) + (if pin_count_ p =? 1 then 1 else 0))
    as (r' & Hi & Er & Hqe & Hql).
  { assert (Hni : f ∉ Lru.queue (replacer_ (bpm s))) by (rewrite (queue_iff s f p) by done; lia).
    destruct (Z.eqb_spec (pin_count_ p - 1) 0), (Z.eqb_spec (pin_count_ p) 1); try lia.
    - destruct (Lru.unpin_spec _ f (bi_lru _ Hb)) as (r' & E & Hi & Hq). exists r'.
      unfold Lru.spec_unpin in Hq. rewrite decide_False in Hq by done. split_and!; [done|done| |].
      + intros g. rewrite Hq, elem_of_cons. simpl. split.
        * intros [->|Hg]; [right; split; [done|lia]|]. left. split; [|done]. by intros ->.
        * intros [[_ ?]|[-> _]]; auto.
      + rewrite Hq. unfold zlen. simpl. lia.
    - exists (replacer_ (bpm s)). split_and!; [apply Hb|done| |lia]. intros g. simpl. split.
      + intros Hg. left. split; [|done]. by intros ->.
      + intros [[_ ?]|[_ ?]]; [done|lia]. }
  assert (Hsync : dirty = true \/ clean s (id_ p) -> synced (disk s) p').
  { unfold clean, synced. rewrite Hfr. simpl. intros [->|[->|?]].
    - left. apply orb_true_r.
    - by left.
    - by right. }
  assert (Hd := dpres_same s (fun j => j <> id_ p) Hb).
  assert (Hrun : runs (Bpm.unpin_page (id_ p) dirty) s (fun r s' => r = true /\ s' = touched s f p' r' (disk s))).
  { clear - Hb Ht Hp Hpos Er. pose proof (bi_latch _ Hb) as Hl. pose proof (bi_latches _ Hb) as Hpl.
    pose proof (lookup_lt_Some _ _ _ Hp) as Hlt.
    destruct s as [d [n ps tbl fl r l pl]]. simpl in *. subst l pl.
    unfold Bpm.unpin_page. bsteps. rewrite Ht. bsteps.
    destruct (Z.eqb_spec (pin_count_ p) 0); [lia|]. bsteps.
    eapply (runs_on_replacer_if d n) ; [exact Er|].
    destruct dirty; bsteps; (split; [done|]); unfold touched, p'; simpl; by rewrite ?orb_true_r, ?orb_false_r. }
  eapply runs_conseq; [exact Hrun|]. intros a s' [-> ->]. split; [done|].
  destruct (touch_spec s f p p' r' (disk s)) as (B & St & V1 & V2 & V3 & V4); try done.
  { simpl. lia. }
  { simpl. intros ?. apply Hsync. destruct dirty; [by left|right]. apply Hcl; [done|lia]. }
  subst b. split_and!; try done.
  - unfold room. simpl. lia.
  - intros Hc. by apply V4, Hsync.
  - intros g [Hg _] ?. simplify_eq. apply V3. simpl. lia.
Qed.

(** *** reading and writing the bytes of a frame *)

Lemma queue_same s f p p' : binv s -> pages_ (bpm s) !! f = Some p -> resident p ->
  pin_count_ p' = pin_count_ p ->
  forall g, g ∈ Lru.queue (replacer_ (bpm s)) <->
    (g <> f /\ g ∈ Lru.queue (replacer_ (bpm s))) \/ (g = f /\ pin_count_ p' = 0).
Proof.
  intros Hb Hp Hr Hpin g. rewrite Hpin. rewrite <- (queue_iff s f p) by done.
  destruct (decide (g = f)) as [->|]; intuition.
Qed.

Lemma handle_frame s f k b : binv s -> handle s f k -> page_is s k b ->
  exists p, pages_ (bpm s) !! f = Some p /\ id_ p = k /\ resident p /\ data_ p = b /\
    frame_of s k = Some p /\ 0 < pin_count_ p.
Proof.
  intros Hb [Ht Hpos] [_ Hpg]. unfold pins in Hpos. destruct (frame_of s k) as [p|] eqn:E; [|lia].
  destruct (frame_of_inv s k p Hb E) as (g & Hg & Hp & Hid & Hr). simplify_eq. eauto 10.
Qed.

Lemma read_frame_spec s f k b off n :
  binv s -> handle s f k -> page_is s k b -> in_range off n PAGE_SIZE = true ->
  Bpm.read_frame f off n s = (Ok (slice off n b), s).
Proof.
  intros Hb Hh Hpg Hin. pose proof (page_is_len s k b Hb Hpg) as Hlen.
  destruct (handle_frame s f k b Hb Hh Hpg) as (p & Hp & _ & _ & <- & _).
  unfold Bpm.read_frame, Bpm.page_at, bind, gets, deref. rewrite Hp. simpl. by rewrite Hlen, Hin.
Qed.

Lemma get_page_id_spec s f k b :
  binv s -> handle s f k -> page_is s k b -> Bpm.get_page_id f s = (Ok k, s).
Proof.
  intros Hb Hh Hpg. destruct (handle_frame s f k b Hb Hh Hpg) as (p & Hp & Hid & _).
  unfold Bpm.get_page_id, Bpm.page_at, bind, gets, deref. rewrite Hp. simpl. by rewrite Hid.
Qed.

Lemma write_frame_spec s f k b off w :
  binv s -> handle s f k -> page_is s k b -> in_range off (zlen w) PAGE_SIZE = true ->
  runs (Bpm.write_frame f off w) s (fun _ s' =>
    binv s' /\ stable k s s' /\ page_is s' k (splice off w b) /\ handle s' f k /\
    pins s' k = pins s k /\ room s' = room s /\ (forall g, npages s' g = npages s g)).
Proof.
  intros Hb Hh Hpg Hin. pose proof (page_is_len s k b Hb Hpg) as Hlen.
  destruct (handle_frame s f k b Hb Hh Hpg) as (p & Hp & <- & Hr & <- & Hfr & Hpos).
  set (p' := Bpm.set_data (splice off w (data_ p)) p).
  assert (Hd := dpres_same s (fun j => j <> id_ p) Hb).
  destruct (touch_spec s f p p' (replacer_ (bpm s)) (disk s)) as (B & St & V1 & V2 & V3 & V4); try done.
  - simpl. apply in_range_spec in Hin. rewrite zlen_splice; lia.
  - simpl. lia.
  - apply Hb.
  - by apply queue_same with p.
  - simpl. lia.
  - exists tt, (touched s f p' (replacer_ (bpm s)) (disk s)). split.
    + clear - Hb Hp Hin Hlen. pose proof (bi_latch _ Hb) as Hl. pose proof (bi_latches _ Hb) as Hpl.
      destruct s as [d [n ps tbl fl r l pl]]. simpl in *. subst l pl.
      unfold Bpm.write_frame, Bpm.page_at, bind, gets, deref. simpl. rewrite Hp. simpl. rewrite Hlen, Hin.
      unfold Bpm.upd_page, modify, Bpm.on_bpm, Bpm.set_pages. simpl.
      by rewrite (list_alter_insert_eq _ f _ p).
    + unfold pins at 2. rewrite Hfr. split_and!; try done. by apply V3.
Qed.

(** *** flush_page *)

Lemma flush_page_spec s k b :
  binv s -> page_is s k b -> page_table_ (bpm s) !! k <> None ->
  runs (Bpm.flush_page k) s (fun r s' => r = true /\
    binv s' /\ stable k s s' /\ page_is s' k b /\ pins s' k = pins s k /\ room s' = room s /\
    clean s' k /\ Dsk.disk_page (fd k) (page_no k) (disk s') = Some b /\
    (forall f, handle s f k -> handle s' f k) /\
    (forall g, npages s' g = npages s g)).
Proof.
  intros Hb [Hv Hpg] Hres. destruct (page_table_ (bpm s) !! k) as [f|] eqn:Ht; [|done].
  pose proof Ht as Ht'. apply (pk_table _ _ _ _ _ (bi_pool _ Hb)) in Ht' as (p & Hp & <- & Hr).
  assert (Hfr : frame_of s (id_ p) = Some p) by (by eapply frame_of_intro).
  rewrite Hfr in Hpg. subst b. destruct (pk_page _ _ _ _ _ (bi_pool _ Hb) f p Hp) as [Hlen Hpin].
  destruct (write_page_dpres (disk s) (id_ p) (data_ p) (bi_disk _ Hb) Hv Hlen) as ([] & d' & Ew & Hd & Hdp).
  set (p' := Bpm.set_dirty false p).
  destruct (touch_spec s f p p' (replacer_ (bpm s)) d') as (B & St & V1 & V2 & V3 & V4); try done.
  - apply Hb.
  - by apply queue_same with p.
  - intros _. by right.
  - apply (runs_conseq _ _ (fun a s' => a = true /\ s' = touched s f p' (replacer_ (bpm s)) d')).
    + clear - Hb Hp Ht Ew. pose proof (bi_latch _ Hb) as Hl. pose proof (bi_latches _ Hb) as Hpl.
      pose proof (lookup_lt_Some _ _ _ Hp) as Hlt.
      destruct s as [d [n ps tbl fl r l pl]]. simpl in *. subst l pl.
      unfold Bpm.flush_page. bsteps. rewrite Ht. bsteps.
      eapply runs_write_back; [by apply list_lookup_insert_eq|exact Ew|]. bsteps. done.
    + intros a s' [-> ->]. unfold pins at 2. rewrite Hfr. split_and!; try done.
      * apply V4. by right.
      * intros g [Hg Hpos]. simplify_eq. apply V3. unfold pins in Hpos. by rewrite Hfr in Hpos.
      * intros g. apply (dp_pageno _ _ _ Hd).
Qed.

(** *** new_page *)

(** the disk after one page number has been handed out *)
Definition bump (g : Z) (s : Store) : Store :=
  mkStore (Dsk.set_pageno (<[g := npages s g + 1]>) (disk s)) (bpm s).

Lemma bump_npages g s h : npages (bump g s) h = if decide (h = g) then npages s g + 1 else npages s h.
Proof.
  unfold npages, bump, Dsk.get_fd2pageno. simpl. destruct (decide (h = g)) as [->|].
  - by rewrite lookup_insert_eq.
  - by rewrite lookup_insert_ne.
Qed.

Lemma bump_valid g s k : valid_page (disk s) k -> valid_page (disk (bump g s)) k.
Proof.
  intros (? & ? & ?). split_and!; try done. change (page_no k < npages (bump g s) (fd k)).
  rewrite bump_npages. unfold npages. destruct (decide (fd k = g)); subst; lia.
Qed.

Lemma bump_binv g s : binv s -> binv (bump g s).
Proof.
  intros Hb. destruct Hb as [Hd Hs Hl La Lp [K1 K2 K3 K4 K5 K6 K7 K8]]. split; simpl; try done.
  - destruct Hd. by split.
  - split; try done. intros f p Hp Hr. apply (bump_valid g s). by eapply K2.
Qed.

Lemma bump_stable g s k : stable k s (bump g s).
Proof. split; try done. intros j d _ [Hv Hd]. split; [by apply bump_valid|done]. Qed.

Lemma stable_trans k s1 s2 s3 : stable k s1 s2 -> stable k s2 s3 -> stable k s1 s3.
Proof.
  intros H1 H2. destruct (st_tables _ _ _ H1) as (T1 & T2 & T3), (st_tables _ _ _ H2) as (U1 & U2 & U3). split.
  - intros. apply (st_page _ _ _ H2); [done|]. by apply (st_page _ _ _ H1).
  - intros. rewrite (st_pins _ _ _ H2) by done. by apply (st_pins _ _ _ H1).
  - intros. apply (st_clean _ _ _ H2); [done|]. by apply (st_clean _ _ _ H1).
  - intros. apply (st_handle _ _ _ H2); [done|]. by apply (st_handle _ _ _ H1).
  - split_and!; congruence.
Qed.

Lemma allocate_bump g s :
  0 <= g < MAX_FD -> Dsk.page_ok (npages s g) ->
  Dsk.allocate_page g (disk s) = (Ok (npages s g), disk (bump g s)).
Proof.
  intros Hg Hok. unfold Dsk.allocate_page. fold (npages s g).
  destruct (Z.leb_spec 0 g), (Z.ltb_spec g MAX_FD); try lia. simpl.
  rewrite wrap_id by (unfold Dsk.page_ok in *; lia). done.
Qed.

Lemma new_page_spec s g :
  binv s -> Dsk.registered g (disk s) -> g < MAX_FD -> Dsk.page_ok (npages s g) -> 0 < room s ->
  runs (Bpm.new_page g) s (fun r s' => exists f, r = Some (mkPageId g (npages s g), f) /\
    binv s' /\ stable (mkPageId g (npages s g)) s s' /\
    page_is s' (mkPageId g (npages s g)) (zeros PAGE_SIZE) /\ handle s' f (mkPageId g (npages s g)) /\
    pins s' (mkPageId g (npages s g)) = 1 /\ room s' = room s - 1 /\
    (forall h, npages s' h = if decide (h = g) then npages s g + 1 else npages s h)).
Proof.
  intros Hb Hreg Hmax Hok Hroom. set (k := mkPageId g (npages s g)).
  assert (Hg : 0 <= g < MAX_FD).
  { destruct Hreg as [pth Hp]. destruct (Dsk.di_open _ (bi_disk _ Hb) _ _ Hp) as (i & o & E & _).
    apply (Dsk.di_fds _ (bi_disk _ Hb)) in E. lia. }
  destruct (find_victim_took s true Hb Hroom) as (f & p & fl' & r' & Htk & Efv).
  set (s1 := bump g s). assert (Hb1 : binv s1) by (by apply bump_binv).
  assert (Htk1 : took s1 f p fl' r') by (destruct Htk; by split).
  destruct (evict_disk s1 f p fl' r' Hb1 Htk1) as (d1 & Ewb & Hd1 & Hwb).
  assert (Ht : page_table_ (bpm s1) !! k = None).
  { destruct (page_table_ (bpm s1) !! k) as [h|] eqn:E; [|done]. exfalso.
    apply (pk_table _ _ _ _ _ (bi_pool _ Hb)) in E as (q & Hq & Hid & Hr).
    apply (pk_key _ _ _ _ _ (bi_pool _ Hb)) in Hq as (_ & _ & Hlt); [|done].
    rewrite Hid in Hlt. change (npages s g < npages s g) in Hlt. lia. }
  assert (Hv : valid_page (disk s1) k).
  { split_and!; [done|done|]. change (npages s g < npages s1 g). unfold s1. rewrite bump_npages, decide_True by done. lia. }
  assert (Hv1 : valid_page d1 k) by (by eapply dpres_valid).
  pose proof (replace_binv s1 f p fl' r' k (zeros PAGE_SIZE) d1 Hb1 Htk1 Hd1 Ht Hv1
                (zlen_zeros PAGE_SIZE ltac:(done))) as B.
  pose proof (replace_stable s1 f p fl' r' k (zeros PAGE_SIZE) d1 Hb1 Htk1 Hd1 Hwb) as St.
  pose proof (replace_view s1 f p fl' r' k (zeros PAGE_SIZE) d1 Htk1 Hv1) as (V1 & V2 & V3 & V4 & V5).
  apply (runs_conseq _ _ (fun a s' => a = Some (k, f) /\ s' = replaced s1 f p fl' r' k (zeros PAGE_SIZE) d1)).
  - clear B St V1 V2 V3 V4 V5.
    assert (Eal := allocate_bump g s Hg Hok). change (disk (bump g s)) with (disk s1) in Eal.
    pose proof (tk_page _ _ _ _ _ Htk) as Hp. pose proof (lookup_lt_Some _ _ _ Hp) as Hlt.
    assert (Hb1' : bpm s1 = bpm s) by done. assert (Hd1' : exists d, disk s1 = d) by eauto.
    destruct Hd1' as [ds1 Eds]. unfold replaced. rewrite Hb1'. rewrite Eds in *.
    unfold k in *. set (no := npages s g) in *. clearbody no.
    clear - Efv Ewb Eal Hlt Hb Hp. pose proof (bi_latch _ Hb) as Hl. pose proof (bi_latches _ Hb) as Hpl.
    destruct s as [d [n ps tbl fl r l pl]]. simpl in *. subst l pl.
    unfold Bpm.new_page. bsteps. eapply runs_bind_eq; [exact Efv|]. cbn [bpm disk pages_ page_table_ pool_size_]. bsteps.
    eapply runs_on_disk; [exact Eal|]. bsteps. eapply runs_dirty_write_back; [exact Hp|exact Ewb|]. bsteps. done.
  - intros a s' [-> ->]. exists f. split_and!; try done.
    + eapply stable_trans; [apply bump_stable|exact St].
    + intros h. unfold npages at 1. simpl. rewrite (dp_pageno _ _ _ Hd1). by apply bump_npages.
Qed.

(** ** Giving a frame back to the free list *)

Definition released (s : Store) (f : frame_id) (k : PageId) (p' : Page) (r' : LRUReplacer) (d' : Disk) : Store :=
  mkStore d' (mkBPM (pool_size_ (bpm s)) (<[f := p']> (pages_ (bpm s))) (delete k (page_table_ (bpm s)))
    (free_list_ (bpm s) ++ [f]) r' false ∅).

Section release.
Context (s : Store) (f : frame_id) (p p' : Page) (r' : LRUReplacer) (d' : Disk).
Context (Hb : binv s) (Hp : pages_ (bpm s) !! f = Some p) (Hr : resident p) (Hpin : pin_count_ p = 0).
Context (Hr' : ~ resident p') (Hlen : zlen (data_ p') = PAGE_SIZE).
Context (Hidle : is_dirty_ p' = false /\ pin_count_ p' = 0).
Context (Hlru : Lru.inv r') (Hq : Lru.queue r' = Lru.spec_pin f (Lru.queue (replacer_ (bpm s)))).
Context (Hd : dpres (fun j => j <> id_ p) (disk s) d').
Context (Hwb : Dsk.disk_page (fd (id_ p)) (page_no (id_ p)) d' = Some (data_ p)).

Let ps := pages_ (bpm s).
Let s' := released s f (id_ p) p' r' d'.

Lemma release_lookup g q : <[f := p']> ps !! g = Some q <-> (g = f /\ q = p') \/ (g <> f /\ ps !! g = Some q).
Proof.
  rewrite list_lookup_insert_Some. pose proof (lookup_lt_Some _ _ _ Hp).
  split; [intros [(-> & -> & _)|[? ?]]; eauto|intros [[-> ->]|[? ?]]; eauto].
Qed.

Lemma release_pool : pool_ok d' (<[f := p']> ps) (delete (id_ p) (page_table_ (bpm s)))
  (free_list_ (bpm s) ++ [f]) (Lru.queue r').
Proof.
  pose proof (bi_pool _ Hb) as Hpool.
  assert (Hoth : forall g q, g <> f -> ps !! g = Some q -> resident q -> id_ q <> id_ p).
  { intros g q Hg Hgq Hrq E. apply Hg. by eapply (pool_inj _ _ _ _ _ g f q p Hpool). }
  split.
  - intros j g. setoid_rewrite release_lookup. rewrite lookup_delete_Some, (pk_table _ _ _ _ _ Hpool). split.
    + intros (Hne & q & Hgq & <- & Hrq). exists q. split; [|done]. right. split; [|done]. intros ->. congruence.
    + intros (q & [[-> ->]|[Hg Hgq]] & <- & Hrq); [done|]. split; [|by exists q]. by apply not_eq_sym, (Hoth g).
  - intros g q Hgq%release_lookup Hrq. destruct Hgq as [[-> ->]|[Hg Hgq]]; [done|].
    eapply dpres_valid; [done|]. by apply (pk_key _ _ _ _ _ Hpool g).
  - intros g q Hgq%release_lookup. destruct Hgq as [[-> ->]|[Hg Hgq]]; [lia|].
    by apply (pk_page _ _ _ _ _ Hpool g).
  - intros g. rewrite elem_of_app, list_elem_of_singleton, (pk_free _ _ _ _ _ Hpool).
    setoid_rewrite release_lookup. split.
    + intros [(q & Hgq & Hrq)| ->]; [|exists p'; eauto]. exists q. split; [|done]. right. split; [|done].
      intros ->. unfold ps in *. by simplify_eq.
    + intros (q & [[-> ->]|[Hg Hgq]] & Hrq); [by right|left]. by exists q.
  - apply NoDup_app. split_and!; [apply Hpool| |apply NoDup_singleton].
    intros g Hg ->%list_elem_of_singleton. apply (pk_free _ _ _ _ _ Hpool) in Hg as (q & Hgq & Hrq). by simplify_eq.
  - intros g. rewrite Hq, spec_pin_elem, (pk_queue _ _ _ _ _ Hpool). setoid_rewrite release_lookup. split.
    + intros (Hg & q & Hgq & Hrq & ?). exists q. eauto.
    + intros (q & [[-> ->]|[Hg Hgq]] & Hrq & ?); [done|]. split; [done|]. by exists q.
  - intros g q Hgq%release_lookup Hrq. destruct Hgq as [[-> ->]|[Hg Hgq]]; [done|].
    by eapply (pk_idle _ _ _ _ _ Hpool).
  - intros g q Hgq%release_lookup Hrq ?. destruct Hgq as [[-> ->]|[Hg Hgq]]; [done|].
    apply (dpres_synced _ _ _ _ Hd (Hoth g q Hg Hgq Hrq)); [by apply (pk_key _ _ _ _ _ Hpool g)|].
    by eapply (pk_sync _ _ _ _ _ Hpool).
Qed.

Lemma release_frame_of j : frame_of s' j = if decide (j = id_ p) then None else frame_of s j.
Proof.
  unfold frame_of. simpl. destruct (decide (j = id_ p)) as [->|Hne]; [by rewrite lookup_delete_eq|].
  rewrite lookup_delete_ne by done. destruct (page_table_ (bpm s) !! j) as [g|] eqn:E; [|done].
  rewrite list_lookup_insert_ne; [done|]. intros ->.
  apply (pk_table _ _ _ _ _ (bi_pool _ Hb)) in E as (q & Hgq & Hidq & _). congruence.
Qed.

Lemma release_spec :
  binv s' /\ stable (id_ p) s s' /\ page_is s' (id_ p) (data_ p) /\ pins s' (id_ p) = 0 /\ room s' = room s.
Proof.
  pose proof (bi_pool _ Hb) as Hpool. split_and!.
  - split; simpl; try done; [apply Hd| |apply release_pool]. rewrite length_insert. apply Hb.
  - split.
    + intros j x Hj [Hv Hx]. split; [by eapply dpres_valid|]. rewrite release_frame_of, decide_False by done.
      destruct (frame_of s j); [done|]. apply (dp_page _ _ _ Hd); [done|apply Hv|done].
    + intros j Hj. unfold pins. by rewrite release_frame_of, decide_False.
    + intros j Hj. unfold clean. rewrite release_frame_of, decide_False by done.
      destruct (frame_of s j) as [q|] eqn:E; [|done].
      destruct (frame_of_inv _ _ _ Hb E) as (g & _ & Hg & <- & Hrq).
      apply (dpres_synced _ _ _ _ Hd Hj). by apply (pk_key _ _ _ _ _ Hpool g).
    + intros g j Hj [Ht Hpj]. unfold handle, pins in *. rewrite release_frame_of, decide_False by done.
      split; [|done]. simpl. by rewrite lookup_delete_ne.
    + apply Hd.
  - split.
    + eapply dpres_valid; [done|]. by apply (pk_key _ _ _ _ _ Hpool f).
    + by rewrite release_frame_of, decide_True.
  - unfold pins. by rewrite release_frame_of, decide_True.
  - unfold room. simpl. rewrite Hq, zlen_spec_pin by apply (Lru.inv_frames _ (bi_lru _ Hb)).
    rewrite decide_True by (by apply (queue_iff s f p)). rewrite zlen_app. unfold zlen at 2. simpl. lia.
Qed.
End release.

Lemma delete_page_spec s k b :
  binv s -> page_is s k b ->
  runs (Bpm.delete_page k) s (fun r s' =>
    binv s' /\ stable k s s' /\ page_is s' k b /\ pins s' k = pins s k /\ room s' = room s /\
    r = (pins s k =? 0) /\ (r = true -> frame_of s' k = None) /\ (r = false -> s' = s) /\
    (forall g, npages s' g = npages s g)).
Proof.
  intros Hb [Hv Hpg]. pose proof (bi_latch _ Hb) as Hl. pose proof (bi_latches _ Hb) as Hpl.
  destruct (page_table_ (bpm s) !! k) as [f|] eqn:Ht.
  2:{ assert (Hfr : frame_of s k = None) by (unfold frame_of; by rewrite Ht).
      unfold pins. rewrite Hfr. apply (runs_conseq _ _ (fun a s' => a = true /\ s' = s)).
      - clear - Ht Hl Hpl. destruct s as [d [n ps tbl fl r l pl]]. simpl in *. subst l pl.
        unfold Bpm.delete_page. bsteps. rewrite Ht. eapply runs_on_disk; [done|]. bsteps. done.
      - intros a s' [-> ->]. rewrite Hfr. split_and!; try done; by split. }
  pose proof Ht as Ht'. apply (pk_table _ _ _ _ _ (bi_pool _ Hb)) in Ht' as (p & Hp & <- & Hr).
  assert (Hfr : frame_of s (id_ p) = Some p) by (by eapply frame_of_intro).
  rewrite Hfr in Hpg. subst b. unfold pins at 2 3. rewrite Hfr.
  destruct (pk_page _ _ _ _ _ (bi_pool _ Hb) f p Hp) as [Hlen Hpin].
  pose proof (lookup_lt_Some _ _ _ Hp) as Hlt.
  destruct (Z.eqb_spec (pin_count_ p) 0) as [E0|E0].
  - destruct (Lru.pin_spec _ f (bi_lru _ Hb)) as (r' & Er & Hi & Hq).
    assert (exists d', (if is_dirty_ p then Dsk.write_page (fd (id_ p)) (page_no (id_ p)) (data_ p) (disk s)
              else (Ok tt, disk s)) = (Ok tt, d') /\ dpres (fun j => j <> id_ p) (disk s) d' /\
              Dsk.disk_page (fd (id_ p)) (page_no (id_ p)) d' = Some (data_ p)) as (d' & Ewb & Hd & Hdp).
    { destruct (is_dirty_ p) eqn:Ed.
      - destruct (write_page_dpres (disk s) (id_ p) (data_ p) (bi_disk _ Hb) Hv Hlen) as ([] & d' & ? & ? & ?). eauto.
      - exists (disk s). split; [done|]. split; [by apply dpres_same|].
        destruct (pk_sync _ _ _ _ _ (bi_pool _ Hb) f p Hp Hr E0); congruence. }
    set (p' := mkPage (mkPageId (-1) INVALID_PAGE_ID) (zeros PAGE_SIZE) false (pin_count_ p)).
    destruct (release_spec s f p p' r' d') as (B & St & V1 & V2 & V3); try done.
    { intros H. by apply H. }
    apply (runs_conseq _ _ (fun a s' => a = true /\ s' = released s f (id_ p) p' r' d')).
    + unfold p'. clear - Hp Ht Er Ewb E0 Hlt Hl Hpl. destruct s as [d [n ps tbl fl r l pl]]. simpl in *. subst l pl.
      unfold Bpm.delete_page. bsteps. rewrite Ht. bsteps. destruct (Z.ltb_spec 0 (pin_count_ p)); [lia|].
      eapply runs_on_replacer; [exact Er|]. bsteps. eapply runs_clean_frame; [exact Hp|exact Ewb|]. bsteps.
      eapply runs_on_disk; [done|]. bsteps. done.
    + intros a s' [-> ->]. split_and!; try done; [lia| |].
      * intros _. rewrite release_frame_of with (p := p) by done. by rewrite decide_True.
      * intros g. apply (dp_pageno _ _ _ Hd).
  - apply (runs_conseq _ _ (fun a s' => a = false /\ s' = s)).
    + clear - Hp Ht E0 Hlt Hl Hpl Hpin. destruct s as [d [n ps tbl fl r l pl]]. simpl in *. subst l pl.
      unfold Bpm.delete_page. bsteps. rewrite Ht. bsteps. destruct (Z.ltb_spec 0 (pin_count_ p)); [|lia]. bsteps. done.
    + intros a s' [-> ->]. unfold page_is, pins. rewrite Hfr. split_and!; try done; by split.
Qed.

(** *** flush_all_pages and free_all_pages *)

(** what a whole-file operation keeps *)
Record keeps (s s' : Store) : Prop := {
  kp_page : forall j b, page_is s j b -> page_is s' j b;
  kp_pins : forall j, pins s' j = pins s j;
  kp_pageno : forall g, npages s' g = npages s g;
  kp_room : room s' = room s;
  kp_tables : path2fd_ (disk s') = path2fd_ (disk s) /\ fd2path_ (disk s') = fd2path_ (disk s) /\
              dir (disk s') = dir (disk s);
  kp_head : forall g n x, frame_of s (mkPageId g 0) = None -> 0 <= n <= PAGE_SIZE -> Dsk.registered g (disk s) ->
    Dsk.file_head g n (disk s) = Some x ->
    frame_of s' (mkPageId g 0) = None /\ Dsk.file_head g n (disk s') = Some x;
}.

Lemma keeps_refl s : keeps s s.
Proof. by split. Qed.

Lemma keeps_trans s1 s2 s3 : keeps s1 s2 -> keeps s2 s3 -> keeps s1 s3.
Proof.
  intros H1 H2. destruct (kp_tables _ _ H1) as (? & ? & ?), (kp_tables _ _ H2) as (? & ? & ?). split.
  - intros. by apply H2, H1.
  - intros. rewrite (kp_pins _ _ H2). apply H1.
  - intros. rewrite (kp_pageno _ _ H2). apply H1.
  - rewrite (kp_room _ _ H2). apply H1.
  - split_and!; congruence.
  - intros g n x Hf Hn Hr Hx. destruct (kp_head _ _ H1 g n x Hf Hn Hr Hx) as [Hf1 Hx1].
    apply (kp_head _ _ H2); try done. unfold Dsk.registered in *. congruence.
Qed.

Lemma stable_keeps k s s' b :
  stable k s s' -> page_is s k b -> page_is s' k b -> pins s' k = pins s k ->
  (forall g, npages s' g = npages s g) -> room s' = room s ->
  (forall g n x, frame_of s (mkPageId g 0) = None -> 0 <= n <= PAGE_SIZE -> Dsk.registered g (disk s) ->
    Dsk.file_head g n (disk s) = Some x ->
    frame_of s' (mkPageId g 0) = None /\ Dsk.file_head g n (disk s') = Some x) -> keeps s s'.
Proof.
  intros Hst Hk Hk' Hp Hn Hroom Hh. split; [| |done|done|apply Hst|done].
  - intros j c Hj. destruct (decide (j = k)) as [->|]; [|by apply Hst].
    by rewrite (page_is_fun _ _ _ _ Hj Hk).
  - intros j. destruct (decide (j = k)) as [->|]; [done|by apply Hst].
Qed.

Definition of_file (g : Z) (p : Page) : bool :=
  negb (page_no (id_ p) =? INVALID_PAGE_ID) && (fd (id_ p) =? g).

Lemma of_file_spec g p : of_file g p = true <-> resident p /\ fd (id_ p) = g.
Proof.
  unfold of_file, resident. rewrite andb_true_iff, negb_true_iff, Z.eqb_neq, Z.eqb_eq. done.
Qed.

(** the frame has been written to disk *)
Definition flushed (s : Store) (p : Page) : Prop := is_dirty_ p = false /\ clean s (id_ p).

Lemma flush_frame s i p :
  binv s -> pages_ (bpm s) !! i = Some p -> resident p ->
  exists d', Dsk.write_page (fd (id_ p)) (page_no (id_ p)) (data_ p) (disk s) = (Ok tt, d') /\
    let s' := touched s i (Bpm.set_dirty false p) (replacer_ (bpm s)) d' in
    binv s' /\ keeps s s' /\ stable (id_ p) s s' /\ flushed s' (Bpm.set_dirty false p).
Proof.
  intros Hb Hp Hr. destruct (pk_page _ _ _ _ _ (bi_pool _ Hb) i p Hp) as [Hlen Hpin].
  pose proof (pk_key _ _ _ _ _ (bi_pool _ Hb) i p Hp Hr) as Hv.
  destruct (write_page_dpres (disk s) (id_ p) (data_ p) (bi_disk _ Hb) Hv Hlen) as ([] & d' & Ew & Hd & Hdp).
  exists d'. split; [done|]. assert (Hfr : frame_of s (id_ p) = Some p) by (by eapply frame_of_intro).
  destruct (touch_spec s i p (Bpm.set_dirty false p) (replacer_ (bpm s)) d') as (B & St & V1 & V2 & V3 & V4); try done.
  - apply Hb.
  - by apply queue_same with p.
  - intros _. by right.
  - split_and!; try done.
    + apply (stable_keeps (id_ p) _ _ (data_ p)); try done.
      * split; [done|]. by rewrite Hfr.
      * rewrite V2. unfold pins. by rewrite Hfr.
      * apply Hd.
      * intros g n x Hf Hn Hrg Hx. assert (mkPageId g 0 <> id_ p) as Hne by congruence.
        split; [|by apply (dp_head _ _ _ Hd)]. unfold frame_of. simpl. by rewrite (frame_none s).
    + split; [done|]. apply V4. by right.
Qed.

Lemma seq_done n dn (x : nat) rest : seq 0 n = dn ++ x :: rest -> (x < n)%nat.
Proof.
  intros H. assert (x ∈ seq 0 n) as Hx by (rewrite H; set_solver). apply elem_of_seq in Hx. lia.
Qed.

Lemma flush_all_pages_spec s g :
  binv s ->
  runs (Bpm.flush_all_pages g) s (fun _ s' => binv s' /\ keeps s s' /\
    (forall i p, pages_ (bpm s') !! i = Some p -> of_file g p = true -> flushed s' p)).
Proof.
  intros Hb. unfold Bpm.flush_all_pages. rstep.
  set (I := fun (dn : list nat) s' => binv s' /\ keeps s s' /\ pool_size_ (bpm s') = pool_size_ (bpm s) /\
    forall i p, i ∈ dn -> pages_ (bpm s') !! i = Some p -> of_file g p = true -> flushed s' p).
  eapply runs_conseq.
  - apply (runs_for_each _ _ I).
    + split_and!; [done|apply keeps_refl|done|]. intros i p Hi. by apply elem_of_nil in Hi.
    + intros dn i rest s1 Hseq (Hb1 & Hk & Hn & Hfl). apply seq_done in Hseq.
      pose proof (bi_latches _ Hb1) as Hpl. pose proof (bi_size _ Hb1) as Hsz.
      destruct (lookup_lt_is_Some_2 (pages_ (bpm s1)) i) as [p Hp]; [lia|].
      pose proof (lookup_lt_Some _ _ _ Hp) as Hlt. fold (of_file g p). destruct (of_file g p) eqn:Hof.
      * pose proof (proj1 (of_file_spec g p) Hof) as [Hr Hg].
        destruct (flush_frame s1 i p Hb1 Hp Hr) as (d' & Ew & Hb' & Hk' & St & Hf').
        set (p' := Bpm.set_dirty false p) in *.
        apply (runs_conseq _ _ (fun _ s' => s' = touched s1 i p' (replacer_ (bpm s1)) d')).
        -- clear - Hpl Hp Ew Hlt Hof Hb1. pose proof (bi_latch _ Hb1) as Hl.
           destruct s1 as [d [n ps tbl fl r l pl]]. simpl in *. subst pl l.
           bsteps. fold (of_file g p). rewrite Hof. bsteps.
           eapply runs_write_back; [by apply list_lookup_insert_eq|exact Ew|].
           eapply runs_eq; [|done]. unfold Bpm.unlock_page, modify, Bpm.on_bpm, Bpm.set_page_latches. simpl.
           by rewrite difference_diag_L.
        -- intros _ s' ->. split_and!; [done|by eapply keeps_trans|done|].
           intros j q Hj Hq Hofq. simpl in Hq. apply list_lookup_insert_Some in Hq as [(<- & <- & _)|[Hne Hq]]; [done|].
           apply elem_of_app in Hj as [Hj|Hj%list_elem_of_singleton]; [|congruence].
           destruct (Hfl j q Hj Hq Hofq) as [? Hc]. split; [done|]. apply (st_clean _ _ _ St); [|done].
           apply of_file_spec in Hofq as [Hrq _]. intros E. apply Hne.
           by eapply (pool_inj _ _ _ _ _ i j p q (bi_pool _ Hb1)).
      * apply (runs_conseq _ _ (fun _ s' => s' = s1)).
        -- clear - Hpl Hp Hlt Hof Hb1. pose proof (bi_latch _ Hb1) as Hl.
           destruct s1 as [d [n ps tbl fl r l pl]]. simpl in *. subst pl l.
           bsteps. fold (of_file g p). rewrite Hof. bsteps. eapply runs_eq; [|done].
           unfold Bpm.unlock_page, modify, Bpm.on_bpm, Bpm.set_page_latches. simpl. by rewrite difference_diag_L.
        -- intros _ s' ->. split_and!; try done. intros j q Hj Hq Hofq.
           apply elem_of_app in Hj as [Hj| ->%list_elem_of_singleton]; [by apply (Hfl j)|]. congruence.
  - intros [] s' (Hb' & Hk & Hn & Hfl). split_and!; [done|done|]. intros i p Hp. apply (Hfl i); [|done].
    apply elem_of_seq. pose proof (lookup_lt_Some _ _ _ Hp). rewrite <- Hn, <- (bi_size _ Hb'). lia.
Qed.

Lemma flushed_disk s i p :
  binv s -> pages_ (bpm s) !! i = Some p -> resident p -> flushed s p ->
  Dsk.disk_page (fd (id_ p)) (page_no (id_ p)) (disk s) = Some (data_ p).
Proof.
  intros Hb Hp Hr [Hd Hc]. unfold clean in Hc. rewrite (frame_of_intro s i p) in Hc by done.
  destruct Hc; congruence.
Qed.

(** releasing the frame of a page that is unpinned and written to disk *)
Lemma release_frame s i p :
  binv s -> pages_ (bpm s) !! i = Some p -> resident p -> pin_count_ p = 0 -> is_dirty_ p = false ->
  exists r', Lru.pin i (replacer_ (bpm s)) = (Ok tt, r') /\
    let s' := released s i (id_ p) (Bpm.set_id (mkPageId (fd (id_ p)) INVALID_PAGE_ID) p) r' (disk s) in
    binv s' /\ keeps s s' /\ room s' = room s.
Proof.
  intros Hb Hp Hr Hpin Hdirty. destruct (pk_page _ _ _ _ _ (bi_pool _ Hb) i p Hp) as [Hlen _].
  destruct (Lru.pin_spec _ i (bi_lru _ Hb)) as (r' & Er & Hi & Hq). exists r'. split; [done|].
  assert (Hdp : Dsk.disk_page (fd (id_ p)) (page_no (id_ p)) (disk s) = Some (data_ p)).
  { destruct (pk_sync _ _ _ _ _ (bi_pool _ Hb) i p Hp Hr Hpin); congruence. }
  pose proof (frame_of_intro s i p Hb Hp Hr) as Hfr.
  destruct (release_spec s i p (Bpm.set_id (mkPageId (fd (id_ p)) INVALID_PAGE_ID) p) r' (disk s))
    as (B & St & V1 & V2 & V3); try done.
  - intros H. by apply H.
  - by apply dpres_same.
  - split_and!; try done. apply (stable_keeps (id_ p) _ _ (data_ p)); try done.
    + split; [by apply (pk_key _ _ _ _ _ (bi_pool _ Hb) i)|by rewrite Hfr].
    + rewrite V2. unfold pins. by rewrite Hfr.
    + intros g n x Hf Hn Hrg Hx. split; [|done]. unfold frame_of. simpl.
      rewrite lookup_delete_ne by congruence. by rewrite (frame_none s).
Qed.

Lemma free_page_spec s k b :
  binv s -> page_is s k b -> pins s k = 0 -> (forall p, frame_of s k = Some p -> is_dirty_ p = false) ->
  runs (Bpm.free_page k) s (fun _ s' => binv s' /\ keeps s s' /\ frame_of s' k = None).
Proof.
  intros Hb Hpg Hpin Hdirty. pose proof (bi_latch _ Hb) as Hl. pose proof (bi_latches _ Hb) as Hpl.
  destruct (page_table_ (bpm s) !! k) as [f|] eqn:Ht.
  - pose proof Ht as Ht'. apply (pk_table _ _ _ _ _ (bi_pool _ Hb)) in Ht' as (p & Hp & <- & Hr).
    pose proof (frame_of_intro s f p Hb Hp Hr) as Hfr. unfold pins in Hpin. rewrite Hfr in Hpin.
    specialize (Hdirty p Hfr). destruct (release_frame s f p Hb Hp Hr Hpin Hdirty) as (r' & Er & B & K & _).
    set (p' := Bpm.set_id (mkPageId (fd (id_ p)) INVALID_PAGE_ID) p) in *.
    apply (runs_conseq _ _ (fun _ s' => s' = released s f (id_ p) p' r' (disk s))).
    + clear - Hp Ht Er Hpin Hdirty Hl Hpl. destruct s as [d [n ps tbl fl r l pl]]. simpl in *. subst l pl.
      unfold Bpm.free_page. bsteps. rewrite Ht. bsteps; [by rewrite Hpin|by rewrite Hdirty|].
      eapply runs_on_replacer; [exact Er|]. bsteps. by eapply runs_eq.
    + intros _ s' ->. split_and!; [done|done|]. unfold frame_of. simpl. by rewrite lookup_delete_eq.
  - apply (runs_conseq _ _ (fun _ s' => s' = s)).
    + clear - Ht Hl Hpl. destruct s as [d [n ps tbl fl r l pl]]. simpl in *. subst l pl.
      unfold Bpm.free_page. bsteps. rewrite Ht. by eapply runs_eq.
    + intros _ s' ->. split_and!; [done|apply keeps_refl|]. unfold frame_of. by rewrite Ht.
Qed.

Lemma free_all_pages_spec s g :
  binv s ->
  (forall i p, pages_ (bpm s) !! i = Some p -> of_file g p = true -> pin_count_ p = 0 /\ is_dirty_ p = false) ->
  runs (Bpm.free_all_pages g) s (fun _ s' => binv s' /\ keeps s s' /\
    (forall k, fd k = g -> frame_of s' k = None)).
Proof.
  intros Hb Hidle. unfold Bpm.free_all_pages. rstep.
  set (I := fun (dn : list nat) s' => binv s' /\ keeps s s' /\ pool_size_ (bpm s') = pool_size_ (bpm s) /\
    forall i p, pages_ (bpm s') !! i = Some p -> of_file g p = true ->
      (i ∉ dn) /\ pin_count_ p = 0 /\ is_dirty_ p = false).
  eapply runs_conseq.
  - apply (runs_for_each _ _ I).
    + split_and!; [done|apply keeps_refl|done|]. intros i p Hi Hof. split; [apply not_elem_of_nil|by eapply Hidle].
    + intros dn i rest s1 Hseq (Hb1 & Hk & Hn & Hid). apply seq_done in Hseq.
      pose proof (bi_latches _ Hb1) as Hpl. pose proof (bi_size _ Hb1) as Hsz. pose proof (bi_latch _ Hb1) as Hl.
      destruct (lookup_lt_is_Some_2 (pages_ (bpm s1)) i) as [p Hp]; [lia|].
      destruct (of_file g p) eqn:Hof.
      * destruct (Hid i p Hp Hof) as (_ & Hpin & Hdirty). pose proof (proj1 (of_file_spec g p) Hof) as [Hr Hg].
        destruct (release_frame s1 i p Hb1 Hp Hr Hpin Hdirty) as (r' & Er & B & K & _).
        set (p' := Bpm.set_id (mkPageId (fd (id_ p)) INVALID_PAGE_ID) p) in *.
        apply (runs_conseq _ _ (fun _ s' => s' = released s1 i (id_ p) p' r' (disk s1))).
        -- clear - Hp Er Hpin Hdirty Hl Hpl Hof. destruct s1 as [d [n ps tbl fl r l pl]]. simpl in *. subst l pl.
           bsteps. fold (of_file g p). rewrite Hof. bsteps; [by rewrite Hpin|by rewrite Hdirty|].
           eapply runs_on_replacer; [exact Er|]. bsteps. by eapply runs_eq.
        -- intros _ s' ->. split_and!; [done|by eapply keeps_trans|done|].
           intros j q Hq Hofq. simpl in Hq. apply list_lookup_insert_Some in Hq as [(_ & <- & _)|[Hne Hq]].
           { apply of_file_spec in Hofq as [Hrq _]. exfalso. by apply Hrq. }
           destruct (Hid j q Hq Hofq) as (? & ? & ?). split_and!; [|done|done].
           rewrite elem_of_app, list_elem_of_singleton. by intros [?|<-].
      * apply (runs_conseq _ _ (fun _ s' => s' = s1)).
        -- clear - Hp Hl Hpl Hof. destruct s1 as [d [n ps tbl fl r l pl]]. simpl in *. subst l pl.
           bsteps. fold (of_file g p). rewrite Hof. bsteps. by eapply runs_eq.
        -- intros _ s' ->. split_and!; try done. intros j q Hq Hofq. destruct (Hid j q Hq Hofq) as (? & ? & ?).
           split_and!; [|done|done]. rewrite elem_of_app, list_elem_of_singleton. intros [?| ->]; [done|congruence].
  - intros [] s' (Hb' & Hk & Hn & Hid). split_and!; [done|done|]. intros k Hg.
    destruct (frame_of s' k) as [p|] eqn:E; [|done]. exfalso.
    destruct (frame_of_inv s' k p Hb' E) as (f & _ & Hp & <- & Hr).
    destruct (Hid f p Hp) as [Hni _]; [by apply of_file_spec|]. apply Hni, elem_of_seq.
    pose proof (lookup_lt_Some _ _ _ Hp). rewrite <- Hn, <- (bi_size _ Hb'). lia.
Qed.

End BpmInv.
