(* ===== verification/BufferPoolProps.v ===== *)
(** What the buffer pool promises to its clients, and where it breaks it.

    The abstract pool is a map from page ids to contents and pin counts, with no
    frames, no eviction and no disk.  A client that pins what it writes and
    announces its writes when it unpins cannot tell the pool from this map. *)

From S2P Require Import Prelude Bytes Errors Lru Disk BufferPool BufferPoolProofs.
Import BpmInv.

Module Pool.

(** ** The abstract pool *)

Record entry := mkEntry {
  e_data : list Z;
  e_pins : Z;
  e_written : bool;      (** written since it was pinned, and not yet announced *)
}.

Record apool := mkApool {
  a_pages : gmap PageId entry;
  a_files : gset Z;
  a_next : Z -> Z;        (** pages allocated per file *)
  a_room : Z;             (** frames that are not pinned *)
}.

Inductive op :=
  | PFetch (k : PageId) | PRead (k : PageId) (off n : Z) | PWrite (k : PageId) (off : Z) (w : list Z)
  | PUnpin (k : PageId) (dirty : bool) | PNew (g : Z) | PDelete (k : PageId) | PFlush (k : PageId).

Inductive answer := ABytes (b : list Z) | APage (k : PageId) | ABool (b : bool) | ADone.

Definition set_entry (k : PageId) (e : entry) (r : Z) (A : apool) : apool :=
  mkApool (<[k := e]> (a_pages A)) (a_files A) (a_next A) r.

(** The abstract operation; [None] when the client breaks its side of the contract. *)
Definition astep (o : op) (A : apool) : option (answer * apool) :=
  match o with
  | PFetch k =>
      match a_pages A !! k with
      | Some e =>
          if (0 <? e_pins e) || (0 <? a_room A) then
            Some (ADone, set_entry k (mkEntry (e_data e) (e_pins e + 1) (e_written e))
                           (a_room A - (if e_pins e =? 0 then 1 else 0)) A)
          else None
      | None => None
      end
  | PRead k off n =>
      match a_pages A !! k with
      | Some e => if (0 <? e_pins e) && in_range off n PAGE_SIZE then Some (ABytes (slice off n (e_data e)), A) else None
      | None => None
      end
  | PWrite k off w =>
      match a_pages A !! k with
      | Some e =>
          if (0 <? e_pins e) && in_range off (zlen w) PAGE_SIZE
          then Some (ADone, set_entry k (mkEntry (splice off w (e_data e)) (e_pins e) true) (a_room A) A) else None
      | None => None
      end
  | PUnpin k dirty =>
      match a_pages A !! k with
      | Some e =>
          if (0 <? e_pins e) && (dirty || negb (e_written e) || (1 <? e_pins e)) then
            Some (ABool true, set_entry k (mkEntry (e_data e) (e_pins e - 1) (e_written e && negb dirty))
                                (a_room A + (if e_pins e =? 1 then 1 else 0)) A)
          else None
      | None => None
      end
  | PNew g =>
      if bool_decide (g ∈ a_files A) && (g <? MAX_FD) && (0 <=? a_next A g) && (a_next A g <? 2 ^ 19) && (0 <? a_room A) then
        Some (APage (mkPageId g (a_next A g)),
              mkApool (<[mkPageId g (a_next A g) := mkEntry (zeros PAGE_SIZE) 1 true]> (a_pages A)) (a_files A)
                (fun h => if decide (h = g) then a_next A g + 1 else a_next A h) (a_room A - 1))
      else None
  | PDelete k =>
      match a_pages A !! k with
      | Some e => Some (ABool (e_pins e =? 0), A)
      | None => None
      end
  | PFlush k =>
      match a_pages A !! k with
      | Some e => if 0 <? e_pins e then Some (ABool true, set_entry k (mkEntry (e_data e) (e_pins e) false) (a_room A) A) else None
      | None => None
      end
  end.

(** ** The concrete client: the pool and the pointers it has been given *)

Definition client : Type := Store * gmap PageId frame_id.

Section client.
Local Open Scope prog_scope.

Definition on_store {A} (m : Prog Store A) : Prog client A := zoom fst (fun s c => (s, c.2)) m.

Definition cstep (o : op) : Prog client answer :=
  match o with
  | PFetch k =>
      let* r := on_store (Bpm.fetch_page k) in
      let* f := deref r in
      modify (fun c => (c.1, <[k := f]> c.2));; ret ADone
  | PRead k off n =>
      let* f := gets (fun c => c.2 !! k) in
      let* f := deref f in
      let* b := on_store (Bpm.read_frame f off n) in ret (ABytes b)
  | PWrite k off w =>
      let* f := gets (fun c => c.2 !! k) in
      let* f := deref f in
      on_store (Bpm.write_frame f off w);; ret ADone
  | PUnpin k dirty => let* b := on_store (Bpm.unpin_page k dirty) in ret (ABool b)
  | PNew g =>
      let* r := on_store (Bpm.new_page g) in
      let* x := deref r in
      modify (fun c => (c.1, <[x.1 := x.2]> c.2));; ret (APage x.1)
  | PDelete k => let* b := on_store (Bpm.delete_page k) in ret (ABool b)
  | PFlush k => let* b := on_store (Bpm.flush_page k) in ret (ABool b)
  end.

Fixpoint crun (os : list op) : Prog client (list answer) :=
  match os with
  | [] => ret []
  | o :: os => let* a := cstep o in let* l := crun os in ret (a :: l)
  end.
End client.

Fixpoint arun (os : list op) (A : apool) : option (list answer * apool) :=
  match os with
  | [] => Some ([], A)
  | o :: os =>
      match astep o A with
      | Some (a, A1) => match arun os A1 with Some (l, A2) => Some (a :: l, A2) | None => None end
      | None => None
      end
  end.

(** ** The simulation relation *)

Record entry_ok (s : Store) (h : gmap PageId frame_id) (k : PageId) (e : entry) : Prop := {
  eo_page : page_is s k (e_data e);
  eo_pins : pins s k = e_pins e;
  eo_clean : e_written e = false -> clean s k;
  eo_handle : 0 < e_pins e -> exists f, h !! k = Some f /\ handle s f k;
}.

Record refines (c : client) (A : apool) : Prop := {
  rf_inv : binv c.1;
  rf_pages : forall k e, a_pages A !! k = Some e -> entry_ok c.1 c.2 k e;
  rf_files : forall g, g ∈ a_files A -> Dsk.registered g (disk c.1);
  rf_next : forall g, npages c.1 g = a_next A g;
  rf_room : room c.1 = a_room A;
}.

Lemma entry_stable s s' h k j e :
  stable k s s' -> j <> k -> entry_ok s h j e -> entry_ok s' h j e.
Proof.
  intros St Hne [H1 H2 H3 H4]. split.
  - by apply (st_page _ _ _ St).
  - by rewrite (st_pins _ _ _ St).
  - intros. apply (st_clean _ _ _ St); auto.
  - intros Hp. destruct (H4 Hp) as (f & ? & ?). exists f. split; [done|]. by apply (st_handle _ _ _ St).
Qed.

(** one page changes, the others are stable *)
Lemma refines_step s s' h h' A k e r n' :
  refines (s, h) A -> binv s' -> stable k s s' -> (forall j, j <> k -> h' !! j = h !! j) ->
  entry_ok s' h' k e -> (forall g, npages s' g = n' g) -> room s' = r ->
  refines (s', h') (mkApool (<[k := e]> (a_pages A)) (a_files A) n' r).
Proof.
  intros [Hi Hp Hf Hn Hr] Hb St Hh He Hn' Hr'. split; simpl in *; try done.
  - intros j ej. destruct (decide (j = k)) as [->|Hne].
    + rewrite lookup_insert_eq. by intros [= <-].
    + rewrite lookup_insert_ne by done. intros Hj.
      destruct (entry_stable s s' h k j ej St Hne (Hp j ej Hj)) as [E1 E2 E3 E4].
      split; try done. intros Hpos. rewrite Hh by done. auto.
  - intros g Hg. unfold Dsk.registered. rewrite (proj1 (proj2 (st_tables _ _ _ St))). by apply Hf.
Qed.

Lemma runs_on_store {A B} (m : Prog Store A) (k : A -> Prog client B) s h R Q :
  runs m s R -> (forall a s', R a s' -> runs (k a) (s', h) Q) -> runs (bind (on_store m) k) (s, h) Q.
Proof.
  intros (a & s' & E & HR) Hk. eapply runs_bind_eq; [|exact (Hk a s' HR)].
  unfold on_store, zoom. simpl. by rewrite E.
Qed.

(** *** Simulation, operation by operation *)

Section simulation.
Context (s : Store) (h : gmap PageId frame_id) (A : apool).
Context (HR : refines (s, h) A).

Definition simulated (o : op) : Prop := forall a A',
  astep o A = Some (a, A') -> runs (cstep o) (s, h) (fun r c' => r = a /\ refines c' A').

Lemma sim_fetch k : simulated (PFetch k).
Proof.
  intros a A' Hstep. destruct HR as [Hb Hpages _ Hnext Hroom]. simpl in *.
  destruct (a_pages A !! k) as [e|] eqn:Hk; [|done]. destruct (_ || _) eqn:Hg; simplify_eq.
  destruct (Hpages k e Hk) as [E1 E2 E3 E4].
  eapply runs_on_store; [apply (fetch_page_spec s k (e_data e) Hb E1)|].
  { apply orb_true_iff in Hg as [Hg|Hg]; apply Z.ltb_lt in Hg; lia. }
  intros r s' (f & -> & Hb' & St & P1 & P2 & P3 & P4 & P5 & P6).
  rstep; [done|]. rstep. rstep. split; [done|].
  apply (refines_step s s' h); try done.
  - intros j Hj. by rewrite lookup_insert_ne.
  - split; simpl; try done; [lia|auto|]. intros _. exists f. by rewrite lookup_insert_eq.
  - intros. rewrite P6. apply Hnext.
  - rewrite P4, E2. lia.
Qed.

Lemma sim_read k off n : simulated (PRead k off n).
Proof.
  intros a A' Hstep. destruct HR as [Hb Hpages _ _ _]. simpl in *.
  destruct (a_pages A !! k) as [e|] eqn:Hk; [|done]. destruct (_ && _) eqn:Hg; simplify_eq.
  apply andb_true_iff in Hg as [Hg1%Z.ltb_lt Hg2].
  destruct (Hpages k e Hk) as [E1 E2 E3 E4]. destruct (E4 Hg1) as (f & Hf & Hh).
  rstep. rstep; [done|].
  apply (runs_on_store _ _ _ _ (fun b s' => b = slice off n (e_data e) /\ s' = s)).
  - eapply runs_eq; [by eapply read_frame_spec|done].
  - intros b s' [-> ->]. rstep. done.
Qed.

Lemma sim_write k off w : simulated (PWrite k off w).
Proof.
  intros a A' Hstep. destruct HR as [Hb Hpages _ Hnext Hroom]. simpl in *.
  destruct (a_pages A !! k) as [e|] eqn:Hk; [|done]. destruct (_ && _) eqn:Hg; simplify_eq.
  apply andb_true_iff in Hg as [Hg1%Z.ltb_lt Hg2].
  destruct (Hpages k e Hk) as [E1 E2 E3 E4]. destruct (E4 Hg1) as (f & Hf & Hh).
  rstep. rstep; [done|]. eapply runs_on_store; [by apply (write_frame_spec s f k (e_data e))|].
  intros [] s' (Hb' & St & P1 & P2 & P3 & P4 & P5). rstep. split; [done|].
  apply (refines_step s s' h); try done.
  - split; simpl; try done; [lia|]. intros _. by exists f.
  - intros. rewrite P5. apply Hnext.
  - lia.
Qed.

Lemma sim_unpin k dirty : simulated (PUnpin k dirty).
Proof.
  intros a A' Hstep. destruct HR as [Hb Hpages _ Hnext Hroom]. simpl in *.
  destruct (a_pages A !! k) as [e|] eqn:Hk; [|done]. destruct (_ && _) eqn:Hg; simplify_eq.
  apply andb_true_iff in Hg as [Hg1%Z.ltb_lt Hg2].
  destruct (Hpages k e Hk) as [E1 E2 E3 E4].
  eapply runs_on_store; [apply (unpin_page_spec s k (e_data e) dirty Hb E1); [lia|]|].
  - intros -> Hone. simpl in Hg2. rewrite E2 in Hone. apply orb_true_iff in Hg2 as [Hg2|Hg2].
    + apply E3. by apply negb_true_iff.
    + apply Z.ltb_lt in Hg2. lia.
  - intros r s' (-> & Hb' & St & P1 & P2 & P3 & P4 & P5 & P6). rstep. split; [done|].
    apply (refines_step s s' h); try done.
    + split; simpl; try done; [lia| |].
      * intros Hw. apply P4. destruct dirty; [by left|right]. apply E3. by rewrite andb_true_r in Hw.
      * intros Hpos. destruct (E4 Hg1) as (f & Hf & Hh). exists f. split; [done|]. apply P5; [done|lia].
    + intros. rewrite P6. apply Hnext.
    + rewrite P3, E2. lia.
Qed.

Lemma sim_new g : simulated (PNew g).
Proof.
  intros a A' Hstep. destruct HR as [Hb Hpages Hfiles Hnext Hroom]. simpl in *.
  destruct (_ && _) eqn:Hg; simplify_eq. repeat (apply andb_true_iff in Hg as [Hg ?]).
  repeat match goal with
    | E : (_ <? _) = true |- _ => apply Z.ltb_lt in E
    | E : (_ <=? _) = true |- _ => apply Z.leb_le in E
    end.
  apply bool_decide_eq_true in Hg. pose proof (Hfiles g Hg) as Hreg.
  rewrite <- !Hnext. eapply runs_on_store.
  { apply (new_page_spec s g Hb Hreg); [done|unfold Dsk.page_ok; rewrite Hnext; lia|lia]. }
  intros r s' (f & -> & Hb' & St & P1 & P2 & P3 & P4 & P5). rstep; [done|]. rstep. rstep. split; [done|].
  apply (refines_step s s' h); try done.
  - intros j Hj. by rewrite lookup_insert_ne.
  - split; simpl; try done. intros _. exists f. by rewrite lookup_insert_eq.
  - intros h'. rewrite P5. destruct (decide _); [done|]. apply Hnext.
  - lia.
Qed.

Lemma sim_delete k : simulated (PDelete k).
Proof.
  intros a A' Hstep. destruct HR as [Hb Hpages _ Hnext Hroom]. simpl in *.
  destruct (a_pages A !! k) as [e|] eqn:Hk; [|done]. simplify_eq.
  destruct (Hpages k e Hk) as [E1 E2 E3 E4].
  eapply runs_on_store; [by apply (delete_page_spec s k (e_data e) Hb)|].
  intros r s' (Hb' & St & P1 & P2 & P3 & P4 & _ & P5 & P6). rstep. rewrite P4, E2. split; [done|].
  destruct (Z.eqb_spec (pins s k) 0) as [E|E]; [|subst r; rewrite (P5 eq_refl); done].
  destruct A' as [pg fi nx rm]. simpl in *. rewrite <- (insert_id pg k e Hk).
  apply (refines_step s s' h h (mkApool pg fi nx rm)); try done.
  - split; simpl; try done; [lia| |intros; lia]. intros _. apply unpinned_clean; [done|lia].
  - intros. rewrite P6. apply Hnext.
  - lia.
Qed.

Lemma sim_flush k : simulated (PFlush k).
Proof.
  intros a A' Hstep. destruct HR as [Hb Hpages _ Hnext Hroom]. simpl in *.
  destruct (a_pages A !! k) as [e|] eqn:Hk; [|done]. destruct (Z.ltb_spec 0 (e_pins e)) as [Hg|]; simplify_eq.
  destruct (Hpages k e Hk) as [E1 E2 E3 E4]. destruct (E4 Hg) as (f & Hf & Hh).
  eapply runs_on_store; [apply (flush_page_spec s k (e_data e) Hb E1); by rewrite (proj1 Hh)|].
  intros r s' (-> & Hb' & St & P1 & P2 & P3 & P4 & _ & P5 & P6). rstep. split; [done|].
  apply (refines_step s s' h); try done.
  - split; simpl; try done; [lia|]. intros _. exists f. auto.
  - intros. rewrite P6. apply Hnext.
  - lia.
Qed.

Lemma simulation_step o : simulated o.
Proof. destruct o; auto using sim_fetch, sim_read, sim_write, sim_unpin, sim_new, sim_delete, sim_flush. Qed.
End simulation.

Lemma simulation_run os c A l A' :
  refines c A -> arun os A = Some (l, A') -> runs (crun os) c (fun r c' => r = l /\ refines c' A').
Proof.
  revert c A l. induction os as [|o os IH]; intros [s h] A l HR Hrun; simpl in *; [by simplify_eq; rstep|].
  destruct (astep o A) as [[a A1]|] eqn:E1; [|done]. destruct (arun os A1) as [[l2 A2]|] eqn:E2; simplify_eq.
  eapply runs_bind; [by eapply simulation_step|]. intros x c1 [-> H1].
  eapply runs_bind; [by eapply IH|]. intros y c2 [-> H2]. rstep. done.
Qed.

End Pool.

(** ** The pool as constructed *)

Lemma binv_make d fd0 n : Dsk.dinv d -> binv (mkStore d (Bpm.make fd0 n)).
Proof.
  intros Hd. assert (Hrep : forall f p, pages_ (Bpm.make fd0 n) !! f = Some p ->
    p = mkPage (mkPageId fd0 INVALID_PAGE_ID) (zeros PAGE_SIZE) false 0).
  { intros f p Hp. by apply lookup_replicate in Hp as [? _]. }
  split; simpl; try done; [apply length_replicate|apply Lru.inv_make|].
  split.
  - intros k f. rewrite lookup_empty. split; [done|]. intros (p & Hp & _ & Hr).
    rewrite (Hrep f p Hp) in Hr. by destruct Hr.
  - intros f p Hp Hr. rewrite (Hrep f p Hp) in Hr. by destruct Hr.
  - intros f p Hp. rewrite (Hrep f p Hp). simpl. rewrite zlen_zeros; unfold PAGE_SIZE; lia.
  - intros f. rewrite elem_of_seq. split.
    + intros Hf. eexists. split; [by apply lookup_replicate_2; lia|]. intros Hr. by destruct Hr.
    + intros (p & Hp & _). apply lookup_lt_Some in Hp. rewrite length_replicate in Hp. lia.
  - apply NoDup_seq.
  - intros f. rewrite elem_of_nil. split; [done|]. intros (p & Hp & Hr & _).
    rewrite (Hrep f p Hp) in Hr. by destruct Hr.
  - intros f p Hp _. by rewrite (Hrep f p Hp).
  - intros f p Hp Hr. rewrite (Hrep f p Hp) in Hr. by destruct Hr.
Qed.

(** a pool of [n] frames over a disk with one open file *)
Definition fresh_store (n : nat) : Store := mkStore demo_disk (Bpm.make 0 n).

Lemma demo_disk_inv : Dsk.dinv demo_disk.
Proof. apply Dsk.dinv_create_file, Dsk.dinv_open_file, Dsk.dinv_create_file. by constructor. Qed.

Lemma fresh_refines n :
  Pool.refines (fresh_store n, ∅) (Pool.mkApool ∅ {[3]} (fun _ => 0) (Z.of_nat n)).
Proof.
  split; simpl.
  - apply binv_make, demo_disk_inv.
  - intros k e. by rewrite lookup_empty.
  - intros g ->%elem_of_singleton. exists "t". vm_compute. reflexivity.
  - intros g. unfold npages, Dsk.get_fd2pageno.
    assert (fd2pageno_ (disk (fresh_store n)) = ∅) as -> by (vm_compute; reflexivity). by rewrite lookup_empty.
  - unfold room, zlen. simpl. rewrite length_seq. lia.
Qed.

(** * Properties *)

(** C1: The buffer pool refines a plain map from page ids to page contents and pin
    counts: for every sequence of fetch, read, write, unpin, new, delete and
    flush calls that the abstract map allows (frames are pinned when accessed,
    writes are announced when unpinning, some frame is free or unpinned when one
    is needed), the pool with its frames, evictions and disk returns, call by
    call, exactly the answers of the map, and the relation is re-established. *)
Theorem bpm_refines_page_map os c A l A' :
  Pool.refines c A -> Pool.arun os A = Some (l, A') ->
  exists c', Pool.crun os c = (Ok l, c') /\ Pool.refines c' A'.
Proof.
  intros HR Hrun. destruct (Pool.simulation_run os c A l A' HR Hrun) as (r & c' & E & -> & H). eauto.
Qed.

(** two frames, three pages: the first page is evicted and read back *)
Definition demo_ops : list Pool.op :=
  let k n := mkPageId 3 n in
  [Pool.PNew 3; Pool.PWrite (k 0) 10 [1; 2; 3]; Pool.PUnpin (k 0) true;
   Pool.PNew 3; Pool.PUnpin (k 1) true; Pool.PNew 3; Pool.PUnpin (k 2) true;
   Pool.PFetch (k 0); Pool.PRead (k 0) 10 3].

Lemma bpm_refines_page_map_witness :
  exists l A' c', Pool.arun demo_ops (Pool.mkApool ∅ {[3]} (fun _ => 0) 2) = Some (l, A') /\
    last l = Some (Pool.ABytes [1; 2; 3]) /\
    Pool.crun demo_ops (fresh_store 2, ∅) = (Ok l, c') /\ Pool.refines c' A'.
Proof.
  destruct (Pool.arun demo_ops (Pool.mkApool ∅ {[3]} (fun _ => 0) 2)) as [[l A']|] eqn:E.
  - destruct (bpm_refines_page_map demo_ops (fresh_store 2, ∅) _ l A' (fresh_refines 2) E) as (c' & ? & ?).
    exists l, A', c'. split; [reflexivity|]. split; [|split; assumption].
    apply (f_equal (fun o => match o with Some (l, _) => last l | None => None end)) in E.
    rewrite <- E. vm_compute. reflexivity.
  - apply (f_equal (fun o => match o with Some _ => true | None => false end)) in E.
    vm_compute in E. discriminate E.
Defined.

(** C4: After [flush_all_pages] of a file every page of the file, resident or not,
    pinned or not, is on disk with its current contents; no page changes and no
    pin count changes. *)
Theorem bpm_flush_all_durable s g :
  binv s ->
  exists s', Bpm.flush_all_pages g s = (Ok tt, s') /\ binv s' /\
    (forall k b, page_is s k b -> page_is s' k b) /\ (forall k, pins s' k = pins s k) /\
    (forall k b, fd k = g -> page_is s k b -> Dsk.disk_page (fd k) (page_no k) (disk s') = Some b).
Proof.
  intros Hb. destruct (flush_all_pages_spec s g Hb) as ([] & s' & E & Hb' & Hk & Hfl).
  exists s'. split_and!; [done|done|apply Hk|apply Hk|]. intros k b Hg Hpg.
  apply (kp_page _ _ Hk) in Hpg as [Hv Hd]. destruct (frame_of s' k) as [p|] eqn:Ef; [|done].
  destruct (frame_of_inv s' k p Hb' Ef) as (f & _ & Hp & <- & Hr). subst b.
  apply (flushed_disk s' f p Hb' Hp Hr), (Hfl f p Hp), of_file_spec. done.
Qed.

(** a pool after the first operations above *)
Definition demo_store : Store := (Pool.crun (take 6 demo_ops) (fresh_store 2, ∅)).2.1.

Lemma demo_store_ok :
  binv demo_store /\ page_is demo_store (mkPageId 3 0) (splice 10 [1; 2; 3] (zeros PAGE_SIZE)).
Proof.
  destruct (Pool.arun (take 6 demo_ops) (Pool.mkApool ∅ {[3]} (fun _ => 0) 2)) as [[l A']|] eqn:E.
  - destruct (Pool.simulation_run _ (fresh_store 2, ∅) _ l A' (fresh_refines 2) E) as (r & c' & Ec & _ & H).
    unfold demo_store. rewrite Ec. split; [apply H|].
    assert (HA : Pool.a_pages A' !! mkPageId 3 0 =
      Some (Pool.mkEntry (splice 10 [1; 2; 3] (zeros PAGE_SIZE)) 0 false)).
    { apply (f_equal (fun o => match o with Some (_, A) => Pool.a_pages A !! mkPageId 3 0 | None => None end)) in E.
      rewrite <- E. vm_compute. reflexivity. }
    apply (Pool.eo_page _ _ _ _ (Pool.rf_pages _ _ H _ _ HA)).
  - apply (f_equal (fun o => match o with Some _ => true | None => false end)) in E.
    vm_compute in E. discriminate E.
Qed.

Lemma bpm_flush_all_durable_witness :
  exists s', Bpm.flush_all_pages 3 demo_store = (Ok tt, s') /\ binv s' /\
    (forall k b, page_is demo_store k b -> page_is s' k b) /\
    (forall k, pins s' k = pins demo_store k) /\
    (forall k b, fd k = 3 -> page_is demo_store k b -> Dsk.disk_page (fd k) (page_no k) (disk s') = Some b).
Proof. apply (bpm_flush_all_durable demo_store 3 (proj1 demo_store_ok)). Defined.

(** [fetch_page] returns a null pointer exactly when the page has no frame and
    every frame is pinned; the pool is then unchanged.  With a frame to spare, or
    the page already resident, it returns a frame. *)
Theorem bpm_fetch_null_iff_full s k b :
  binv s -> page_is s k b ->
  exists r s', Bpm.fetch_page k s = (Ok r, s') /\
    (r = None <-> frame_of s k = None /\ room s = 0) /\ (r = None -> s' = s).
Proof.
  intros Hb Hpg. assert (Hnn : 0 <= room s) by (unfold room, zlen; lia).
  destruct (decide (frame_of s k = None /\ room s = 0)) as [[Hf Hr]|Hne].
  - exists None, s. split; [|done]. pose proof (bi_latch _ Hb) as Hl.
    assert (Ht : page_table_ (bpm s) !! k = None).
    { unfold frame_of in Hf. destruct (page_table_ (bpm s) !! k) as [f|] eqn:E; [|done].
      apply (pk_table _ _ _ _ _ (bi_pool _ Hb)) in E as (p & Hp & _). congruence. }
    pose proof (find_victim_none s true Hb Hr) as Hv.
    destruct s as [d [n ps tbl fl r l pl]]. simpl in *. subst l.
    unfold Bpm.fetch_page, Bpm.fetch_begin, Bpm.lock_latch, bind, gets, modify. simpl. rewrite Ht.
    unfold Bpm.on_bpm, Bpm.set_latch in Hv |- *. simpl in *. rewrite Hv. done.
  - destruct (decide (0 < room s)) as [Hroom|Hroom].
    + destruct (fetch_page_spec s k b Hb Hpg) as (r & s' & E & f & -> & _); [by right|].
      exists (Some f), s'. split; [done|]. split; [|done]. split; [done|]. intros [? ?]; lia.
    + destruct (frame_of s k) as [p|] eqn:Ef; [|exfalso; apply Hne; split; [done|lia]].
      assert (Hpin : 0 < pins s k).
      { destruct (frame_of_inv s k p Hb Ef) as (f & _ & Hp & _ & Hr).
        pose proof (pins_nonneg s k Hb). destruct (decide (pins s k = 0)) as [E0|]; [|lia]. exfalso.
        unfold pins in E0. rewrite Ef in E0. apply (queue_iff s f p Hb Hp Hr) in E0.
        apply Hroom. unfold room, zlen. destruct (Lru.queue _); [by apply elem_of_nil in E0|simpl; lia]. }
      destruct (fetch_page_spec s k b Hb Hpg) as (r & s' & E & f & -> & _); [by left|].
      exists (Some f), s'. split; [done|]. split; [|done]. split; [done|]. by intros [? ?].
Qed.

Lemma bpm_fetch_null_iff_full_witness :
  exists r s', Bpm.fetch_page (mkPageId 3 0) demo_store = (Ok r, s') /\
    (r = None <-> frame_of demo_store (mkPageId 3 0) = None /\ room demo_store = 0) /\ (r = None -> s' = demo_store).
Proof. apply (bpm_fetch_null_iff_full demo_store _ _ (proj1 demo_store_ok) (proj2 demo_store_ok)). Defined.

(** ** Two threads *)

(** taking the mutex of a frame while others are held *)
Lemma runs_lock_other {A} d n ps tbl fl r l pl f (m : unit -> Prog Store A) Q :
  f ∉ pl -> runs (m tt) (mkStore d (mkBPM n ps tbl fl r l ({[f]} ∪ pl))) Q -> runs (bind (Bpm.lock_page f) m) (mkStore d (mkBPM n ps tbl fl r l pl)) Q.
Proof. intros Hf Hm. eapply runs_bind_eq; [|exact Hm]. unfold Bpm.lock_page, bind, gets. simpl. by rewrite decide_False. Qed.

Lemma find_victim_lru d n ps tbl r l pl f r' :
  Lru.victim r = (Ok (Some f), r') -> Bpm.find_victim_page (mkStore d (mkBPM n ps tbl [] r l pl)) = (Ok (Some f), mkStore d (mkBPM n ps tbl [] r' l pl)).
Proof. intros Hv. unfold Bpm.find_victim_page, bind, gets, Bpm.on_replacer, zoom. simpl. by rewrite Hv. Qed.

(** a fetch that misses, up to the release of [latch_] *)
Definition begun (j k : PageId) (f : frame_id) (r' : LRUReplacer) (s : Store) : Store :=
  mkStore (disk s) (mkBPM (pool_size_ (bpm s)) (pages_ (bpm s)) (<[j := f]> (delete k (page_table_ (bpm s)))) [] r' false {[f]}).

Lemma fetch_begin_miss s j k f q :
  binv s -> free_list_ (bpm s) = [] -> Lru.queue (replacer_ (bpm s)) = q ++ [f] ->
  page_table_ (bpm s) !! j = None -> page_table_ (bpm s) !! k = Some f ->
  exists r', Lru.inv r' /\ Lru.queue r' = q /\ Bpm.fetch_begin j s = (Ok (Bpm.FetchMiss f), begun j k f r' s).
Proof.
  intros Hb Hfl Hq Hj Hk. destruct (proj1 (pk_table _ _ _ _ _ (bi_pool _ Hb) k f) Hk) as (p & Hp & Hid & _).
  destruct (Lru.victim_spec _ (bi_lru _ Hb)) as (r' & Hv & Hi & Hq'). rewrite Hq in Hv, Hq'. unfold Lru.spec_victim in Hv, Hq'. simpl in Hv, Hq'.
  rewrite last_snoc in Hv. rewrite List.removelast_last in Hq'.
  pose proof (bi_latch _ Hb) as Hl. pose proof (bi_latches _ Hb) as Hpl. destruct s as [d [n ps tbl fl r l pl]]. simpl in *. subst l pl fl.
  exists r'. split; [done|]. split; [done|].
  assert (runs (Bpm.fetch_begin j) (mkStore d (mkBPM n ps tbl [] r false ∅)) (fun x s' => x = Bpm.FetchMiss f /\ s' = begun j k f r' (mkStore d (mkBPM n ps tbl [] r false ∅)))) as (x & s' & E & -> & ->); [|exact E].
  unfold Bpm.fetch_begin. bsteps. rewrite Hj. eapply runs_bind_eq; [by apply find_victim_lru|].
  simpl. bsteps. rewrite Hid. done.
Qed.

(** a page that is in no frame and at the head of no fetch is read from the disk, into the next victim *)
Lemma fetch_in_window s j k f f2 q p dk r1 :
  binv s -> page_table_ (bpm s) !! k = Some f -> pages_ (bpm s) !! f = Some p -> id_ p = k -> resident p ->
  page_table_ (bpm s) !! j = None -> Lru.queue (replacer_ (bpm s)) = q ++ [f2; f] -> Dsk.disk_page (fd k) (page_no k) (disk s) = Some dk ->
  Lru.inv r1 -> Lru.queue r1 = q ++ [f2] ->
  runs (Bpm.fetch_page k) (begun j k f r1 s) (fun r s' => r = Some f2 /\ exists p, pages_ (bpm s') !! f2 = Some p /\ id_ p = k /\ data_ p = dk).
Proof.
  intros Hb Hk Hp Hid Hres Hj Hq Hdk Hi1 Hq1.
  assert (Hin : f2 ∈ Lru.queue (replacer_ (bpm s))) by (rewrite Hq; apply elem_of_app; right; constructor).
  destruct (proj1 (pk_queue _ _ _ _ _ (bi_pool _ Hb) f2) Hin) as (p2 & Hp2 & Hres2 & _).
  assert (Hne : f2 <> f).
  { intros ->. pose proof (Lru.inv_frames _ (bi_lru _ Hb)) as Hnd. change ((LRUlist_ (replacer_ (bpm s))).*2) with (Lru.queue (replacer_ (bpm s))) in Hnd.
    rewrite Hq in Hnd. apply NoDup_app in Hnd as (_ & _ & Hnd). apply NoDup_cons in Hnd as [Hnd _]. apply Hnd. constructor. }
  assert (Hid2 : k <> id_ p2).
  { intros E. pose proof (proj2 (pk_table _ _ _ _ _ (bi_pool _ Hb) k f2)) as H. rewrite Hk in H. by injection H as ->; [|exists p2]. }
  assert (Hjk : j <> k) by congruence.
  pose proof (pk_key _ _ _ _ _ (bi_pool _ Hb) f p Hp Hres) as Hv. rewrite Hid in Hv.
  assert (exists d1, (if is_dirty_ p2 then Dsk.write_page (fd (id_ p2)) (page_no (id_ p2)) (data_ p2) (disk s) else (Ok tt, disk s)) = (Ok tt, d1) /\ dpres (fun x => x <> id_ p2) (disk s) d1) as (d1 & Ewb & Hd1).
  { destruct (is_dirty_ p2); [|exists (disk s); split; [done|apply dpres_refl, Hb]].
    destruct (write_page_dpres (disk s) (id_ p2) (data_ p2)) as ([] & d1 & E & H & _); [apply Hb|by eapply (pk_key _ _ _ _ _ (bi_pool _ Hb))|by eapply (pk_page _ _ _ _ _ (bi_pool _ Hb))|eauto]. }
  assert (Hdk1 : Dsk.disk_page (fd k) (page_no k) d1 = Some dk) by (apply (dp_page _ _ _ Hd1); [done|apply Hv|done]).
  destruct (read_page_dpres d1 k (zeros PAGE_SIZE) dk) as (d2 & Erd & _); [apply Hd1|by eapply dpres_valid|by apply zlen_zeros|done|].
  destruct (Lru.victim_spec _ Hi1) as (r2 & Hv2 & _). rewrite Hq1 in Hv2. unfold Lru.spec_victim in Hv2. simpl in Hv2. rewrite last_snoc in Hv2.
  pose proof (lookup_lt_Some _ _ _ Hp2) as Hlt. destruct s as [d [n ps tbl fl r l pl]]. simpl in *.
  unfold begun, Bpm.fetch_page, Bpm.fetch_begin. simpl. bsteps. rewrite lookup_insert_ne, lookup_delete_eq by done. rstep.
  eapply runs_bind_eq; [by apply find_victim_lru|]. simpl. bsteps.
  apply runs_lock_other; [by rewrite elem_of_singleton|]. bsteps. unfold Bpm.fetch_load. bsteps. eapply runs_clean_frame; [done|exact Ewb|]. bsteps.
  eapply runs_read_into; [exact Hlt|exact Erd|]. eapply runs_bind_eq; [reflexivity|]. bsteps. split; [done|]. eexists.
  split; [apply list_lookup_insert_eq; exact Hlt|]. done.
Qed.

(** C38: The window of [fetch_page] in which a page is nowhere: let the pool have no free frame and two frames that can be evicted, the
    first of which, [f], holds page [k] with contents [d], while [dk] is on the disk.  When one thread has started to fetch a page [j] that is
    not resident and has released [latch_], [k] is out of the page table and not yet written back.  A thread that fetches
    [k] then gets it in the other frame with [dk], without any error, whatever was last written to [k]; before, it would have got [d]. *)
Theorem bpm_eviction_race s j k f f2 q d dk :
  binv s -> free_list_ (bpm s) = [] -> Lru.queue (replacer_ (bpm s)) = q ++ [f2; f] ->
  page_table_ (bpm s) !! j = None -> page_table_ (bpm s) !! k = Some f -> page_is s k d ->
  Dsk.disk_page (fd k) (page_no k) (disk s) = Some dk ->
  runs (Bpm.fetch_page k) s (fun r s' => r = Some f /\ exists p, pages_ (bpm s') !! f = Some p /\ id_ p = k /\ data_ p = d) /\
  exists s1, Bpm.fetch_begin j s = (Ok (Bpm.FetchMiss f), s1) /\
    runs (Bpm.fetch_page k) s1 (fun r s' => r = Some f2 /\ exists p, pages_ (bpm s') !! f2 = Some p /\ id_ p = k /\ data_ p = dk).
Proof.
  intros Hb Hfl Hq Hj Hk Hpg Hdk. destruct (proj1 (pk_table _ _ _ _ _ (bi_pool _ Hb) k f) Hk) as (p & Hp & Hid & Hres). split.
  - destruct (fetch_hit s k f p Hb Hk Hp) as (r' & _ & _ & Hrun). eapply runs_conseq; [exact Hrun|]. intros r s' [-> ->]. split; [done|].
    exists (Bpm.set_pin (pin_count_ p + 1) p). split; [simpl; rewrite list_lookup_insert_eq; [done|by eapply lookup_lt_Some]|].
    split; [done|]. destruct Hpg as [_ Hpg]. unfold frame_of in Hpg. by rewrite Hk, Hp in Hpg.
  - destruct (fetch_begin_miss s j k f (q ++ [f2]) Hb Hfl) as (r1 & Hi1 & Hq1 & E1); [by rewrite <- app_assoc|done|done|].
    exists (begun j k f r1 s). split; [exact E1|]. by eapply (fetch_in_window s j k f f2 q p dk).
Qed.

(** An instance: page 0 is on disk with byte 7, resident, unpinned and dirty with byte 9; page
    2 is resident and unpinned.  Both frames are evictable, page 0 first. *)
Definition race_ops : list Pool.op :=
  let k n := mkPageId 3 n in
  [Pool.PNew 3; Pool.PWrite (k 0) 0 [7]; Pool.PFlush (k 0); Pool.PNew 3; Pool.PUnpin (k 1) true;
   Pool.PNew 3; Pool.PUnpin (k 2) true; Pool.PWrite (k 0) 0 [9]; Pool.PUnpin (k 0) true;
   Pool.PFetch (k 2); Pool.PUnpin (k 2) false].
Definition race_start : Store := (Pool.crun race_ops (fresh_store 2, ∅)).2.1.

Lemma race_start_ok : binv race_start /\ page_is race_start (mkPageId 3 0) (splice 0 [9] (zeros PAGE_SIZE)).
Proof.
  destruct (Pool.arun race_ops (Pool.mkApool ∅ {[3]} (fun _ => 0) 2)) as [[l A']|] eqn:E.
  - destruct (Pool.simulation_run _ (fresh_store 2, ∅) _ l A' (fresh_refines 2) E) as (r & c' & Ec & _ & H).
    unfold race_start. rewrite Ec. split; [apply H|].
    assert (HA : Pool.a_pages A' !! mkPageId 3 0 = Some (Pool.mkEntry (splice 0 [9] (zeros PAGE_SIZE)) 0 false)).
    { apply (f_equal (fun o => match o with Some (_, A) => Pool.a_pages A !! mkPageId 3 0 | None => None end)) in E.
      rewrite <- E. vm_compute. reflexivity. }
    apply (Pool.eo_page _ _ _ _ (Pool.rf_pages _ _ H _ _ HA)).
  - apply (f_equal (fun o => match o with Some _ => true | None => false end)) in E.
    vm_compute in E. discriminate E.
Qed.

Lemma bpm_eviction_race_witness : exists s1, Bpm.fetch_begin (mkPageId 3 1) race_start = (Ok (Bpm.FetchMiss 0), s1) /\
  runs (Bpm.fetch_page (mkPageId 3 0)) s1 (fun r s' => r = Some 1%nat /\ exists p, pages_ (bpm s') !! 1%nat = Some p /\ id_ p = mkPageId 3 0 /\
    data_ p = splice 0 [7] (zeros PAGE_SIZE)).
Proof.
  destruct (bpm_eviction_race race_start (mkPageId 3 1) (mkPageId 3 0) 0%nat 1%nat [] (splice 0 [9] (zeros PAGE_SIZE)) (splice 0 [7] (zeros PAGE_SIZE))) as [_ H].
  - exact (proj1 race_start_ok).
  - vm_compute. reflexivity.
  - vm_compute. reflexivity.
  - vm_compute. reflexivity.
  - vm_compute. reflexivity.
  - exact (proj2 race_start_ok).
  - vm_compute. reflexivity.
  - exact H.
Defined.

(** Fetching a page past the end of its file throws with the frame's mutex held
    and the page table entry in place: the next fetch of the same page blocks
    forever on that mutex. *)
Theorem bpm_fetch_past_eof_poisons :
  let r1 := Bpm.fetch_page (mkPageId 3 5) (fresh_store 2) in
  r1.1 = Throw (InternalError "DiskManager::read_page Error") /\
  (Bpm.fetch_page (mkPageId 3 5) r1.2).1 = Fail Deadlock.
Proof. vm_compute. split; reflexivity. Qed.

(** [PageId::operator<] is not a strict weak order: it is not even antisymmetric,
    so the type cannot be used as an ordered key. *)
Theorem PageId_lt_not_antisymmetric :
  PageId_lt (mkPageId 1 5) (mkPageId 2 3) = true /\ PageId_lt (mkPageId 2 3) (mkPageId 1 5) = true.
Proof. split; reflexivity. Qed.
