(* ===== verification/PageStore.v ===== *)
(** The interface between the buffer pool and its clients (record files and
    indexes).

    [PageStore S] lists the operations a client calls on a storage state [S];
    [PageStoreLaws S] states what it may rely on, in terms of the contents of
    pages and pin counts only.  The record and index modules are written and
    proved against these classes; the buffer pool discharges them below. *)

From S2P Require Import Prelude Bytes Errors Lru Disk BufferPool BufferPoolProofs.

(** [Page] pointers are opaque to clients. *)
Abbreviation page_ptr := nat (only parsing).

Class PageStore (S : Type) := {
  fetch_page : PageId -> Prog S (option page_ptr);
  unpin_page : PageId -> bool -> Prog S bool;
  new_page : Z -> Prog S (option (PageId * page_ptr));
  delete_page : PageId -> Prog S bool;
  read_bytes : page_ptr -> Z -> Z -> Prog S (list Z);     (** [page->get_data()[off, off+n)] *)
  write_bytes : page_ptr -> Z -> list Z -> Prog S unit;
  get_page_id : page_ptr -> Prog S PageId;
  is_dirty : page_ptr -> Prog S bool;
}.

(** what a step about page [k] leaves alone *)
Record others {S} (is_page : S -> PageId -> list Z -> Prop) (pins : S -> PageId -> Z)
    (clean : S -> PageId -> Prop) (handle : S -> page_ptr -> PageId -> Prop)
    (k : PageId) (s s' : S) : Prop := {
  ot_page : forall j b, j <> k -> is_page s j b -> is_page s' j b;
  ot_pins : forall j, j <> k -> pins s' j = pins s j;
  ot_clean : forall j, j <> k -> clean s j -> clean s' j;
  ot_handle : forall f j, j <> k -> handle s f j -> handle s' f j;
}.

Class PageStoreLaws (S : Type) `{!PageStore S} := {
  ps_inv : S -> Prop;
  ps_page : S -> PageId -> list Z -> Prop;       (** contents of a page *)
  ps_pins : S -> PageId -> Z;
  ps_clean : S -> PageId -> Prop;                (** no unannounced write *)
  ps_handle : S -> page_ptr -> PageId -> Prop;   (** valid pointer to a pinned page *)
  ps_room : S -> Z;                              (** frames that are not pinned *)
  ps_npages : S -> Z -> Z;                       (** next page number of a file *)
  ps_file : S -> Z -> Prop;                      (** open file *)
  ps_others := others ps_page ps_pins ps_clean ps_handle;
  (** facts about states *)
  ps_page_len s k b : ps_inv s -> ps_page s k b -> zlen b = PAGE_SIZE;
  ps_page_fun s k b b' : ps_page s k b -> ps_page s k b' -> b = b';
  ps_page_bound s k b : ps_page s k b -> 0 <= page_no k < ps_npages s (fd k);
  ps_idle_clean s k : ps_inv s -> ps_pins s k = 0 -> ps_clean s k;
  (** operations *)
  ps_fetch s k b : ps_inv s -> ps_page s k b -> 0 < ps_pins s k \/ 0 < ps_room s ->
    runs (fetch_page k) s (fun r s' => exists f, r = Some f /\
      ps_inv s' /\ ps_others k s s' /\ ps_page s' k b /\ ps_handle s' f k /\
      ps_pins s' k = ps_pins s k + 1 /\
      ps_room s' = ps_room s - (if ps_pins s k =? 0 then 1 else 0) /\ (ps_clean s k -> ps_clean s' k) /\
      (forall g, ps_npages s' g = ps_npages s g) /\ (forall g, ps_file s g -> ps_file s' g));
  ps_unpin s k b (dirty : bool) : ps_inv s -> ps_page s k b -> 0 < ps_pins s k ->
    (dirty = false -> ps_pins s k = 1 -> ps_clean s k) ->
    runs (unpin_page k dirty) s (fun r s' => r = true /\
      ps_inv s' /\ ps_others k s s' /\ ps_page s' k b /\ ps_pins s' k = ps_pins s k - 1 /\
      ps_room s' = ps_room s + (if ps_pins s k =? 1 then 1 else 0) /\
      (dirty = true \/ ps_clean s k -> ps_clean s' k) /\
      (forall f, ps_handle s f k -> 1 < ps_pins s k -> ps_handle s' f k) /\
      (forall g, ps_npages s' g = ps_npages s g) /\ (forall g, ps_file s g -> ps_file s' g));
  ps_new s g : ps_inv s -> ps_file s g -> 0 <= ps_npages s g < 2 ^ 19 -> 0 < ps_room s ->
    runs (new_page g) s (fun r s' => exists f, r = Some (mkPageId g (ps_npages s g), f) /\
      ps_inv s' /\ ps_others (mkPageId g (ps_npages s g)) s s' /\
      ps_page s' (mkPageId g (ps_npages s g)) (zeros PAGE_SIZE) /\
      ps_handle s' f (mkPageId g (ps_npages s g)) /\ ps_pins s' (mkPageId g (ps_npages s g)) = 1 /\
      ps_room s' = ps_room s - 1 /\
      (forall h, ps_npages s' h = if decide (h = g) then ps_npages s g + 1 else ps_npages s h) /\
      (forall g, ps_file s g -> ps_file s' g));
  ps_delete s k b : ps_inv s -> ps_page s k b ->
    runs (delete_page k) s (fun r s' => r = (ps_pins s k =? 0) /\
      ps_inv s' /\ ps_others k s s' /\ ps_page s' k b /\ ps_pins s' k = ps_pins s k /\
      ps_room s' = ps_room s /\ (r = false -> s' = s) /\
      (forall g, ps_npages s' g = ps_npages s g) /\ (forall g, ps_file s g -> ps_file s' g));
  ps_read s f k b off n : ps_inv s -> ps_handle s f k -> ps_page s k b -> in_range off n PAGE_SIZE = true ->
    read_bytes f off n s = (Ok (slice off n b), s);
  ps_write s f k b off w : ps_inv s -> ps_handle s f k -> ps_page s k b ->
    in_range off (zlen w) PAGE_SIZE = true ->
    runs (write_bytes f off w) s (fun _ s' =>
      ps_inv s' /\ ps_others k s s' /\ ps_page s' k (splice off w b) /\ ps_handle s' f k /\
      ps_pins s' k = ps_pins s k /\ ps_room s' = ps_room s /\
      (forall g, ps_npages s' g = ps_npages s g) /\ (forall g, ps_file s g -> ps_file s' g));
  ps_page_id s f k b : ps_inv s -> ps_handle s f k -> ps_page s k b -> get_page_id f s = (Ok k, s);
  ps_is_dirty s f k b : ps_inv s -> ps_handle s f k -> ps_page s k b -> exists d, is_dirty f s = (Ok d, s);
  ps_handle_pins s f k : ps_handle s f k -> 0 < ps_pins s k;
  (** a pinned page stays where it is *)
  ps_fetch_same s k f r s' : ps_handle s f k -> fetch_page k s = (Ok r, s') -> r = Some f;
}.

(** ** The buffer pool is a page store *)

#[export] Instance bpm_store : PageStore Store := {
  fetch_page := Bpm.fetch_page;
  unpin_page := Bpm.unpin_page;
  new_page := Bpm.new_page;
  delete_page := Bpm.delete_page;
  read_bytes := Bpm.read_frame;
  write_bytes := Bpm.write_frame;
  get_page_id := Bpm.get_page_id;
  is_dirty f := bind (Bpm.page_at f) (fun p => ret (is_dirty_ p));
}.

Lemma stable_others k s s' :
  BpmInv.stable k s s' -> others BpmInv.page_is BpmInv.pins BpmInv.clean BpmInv.handle k s s'.
Proof. intros []. split; auto. Qed.

Lemma stable_file k s s' g :
  BpmInv.stable k s s' -> Dsk.registered g (disk s) -> Dsk.registered g (disk s').
Proof. intros St. unfold Dsk.registered. by rewrite (proj1 (proj2 (BpmInv.st_tables _ _ _ St))). Qed.

Lemma hit_same s k f r s' : page_table_ (bpm s) !! k = Some f -> Bpm.fetch_page k s = (Ok r, s') -> r = Some f.
Proof.
  intros Hf (x & s1 & E & Hx)%bind_inv. unfold Bpm.fetch_begin in E. apply bind_inv in E as ([] & s2 & E1 & E).
  assert (Ht : page_table_ (bpm s2) = page_table_ (bpm s)).
  { unfold Bpm.lock_latch in E1. apply bind_inv in E1 as (held & s3 & E0 & E1). injection E0 as <- <-. destruct (latch_ (bpm s)); [done|]. by injection E1 as <-. }
  apply bind_inv in E as (tbl & s3 & Et & E). injection Et as <- <-. rewrite Ht, Hf in E. do 6 (apply bind_inv in E as (? & ? & _ & E)). injection E as <- _. by injection Hx as <-.
Qed.

#[export] Instance bpm_store_laws : PageStoreLaws Store.
Proof.
  refine {| ps_inv := BpmInv.binv; ps_page := BpmInv.page_is; ps_pins := BpmInv.pins; ps_clean := BpmInv.clean;
            ps_handle := BpmInv.handle; ps_room := BpmInv.room; ps_npages := BpmInv.npages;
            ps_file := fun s g => Dsk.registered g (disk s) /\ g < MAX_FD |}.
  - apply BpmInv.page_is_len.
  - apply BpmInv.page_is_fun.
  - intros s k b [(_ & Hok & Hlt) _]. unfold Dsk.page_ok in Hok. unfold BpmInv.npages. lia.
  - apply BpmInv.unpinned_clean.
  - intros s k b Hb Hp Hr. eapply runs_conseq; [by apply (BpmInv.fetch_page_spec s k b)|].
    intros r s' (f & -> & ? & St & H). exists f. intuition eauto using stable_others, stable_file.
  - intros s k b dirty Hb Hp Hr Hc. eapply runs_conseq; [by apply (BpmInv.unpin_page_spec s k b)|].
    intros r s' (-> & ? & St & H). intuition eauto using stable_others, stable_file.
  - intros s g Hb [Hf Hm] Hn Hr. eapply runs_conseq; [by apply (BpmInv.new_page_spec s g)|].
    intros r s' (f & -> & ? & St & H). exists f. intuition eauto using stable_others, stable_file.
  - intros s k b Hb Hp. eapply runs_conseq; [by apply (BpmInv.delete_page_spec s k b)|].
    intros r s' (? & St & H). intuition eauto using stable_others, stable_file.
  - intros. by eapply BpmInv.read_frame_spec.
  - intros s f k b off w Hb Hh Hp Hin. eapply runs_conseq; [by apply (BpmInv.write_frame_spec s f k b)|].
    intros r s' (? & St & H). intuition eauto using stable_others, stable_file.
  - intros. by eapply BpmInv.get_page_id_spec.
  - intros s f k b Hb Hh Hp. destruct (BpmInv.handle_frame s f k b Hb Hh Hp) as (p & Hpg & _).
    exists (is_dirty_ p). simpl. unfold Bpm.page_at, bind, gets, deref. by rewrite Hpg.
  - intros s f k [_ ?]. done.
  - intros s k f r s' [Hf _]. by apply hit_same.
Defined.

(** ** The open files

    The page operations do not open or close files: the table of the open files stays as it is,
    whatever their outcome.  So a property of that table may stand in the part of a state that the record
    layer leaves alone. *)

Module Fr.
Local Open Scope prog_scope.

Definition names (s : Store) : gmap Z string := fd2path_ (disk s).

(** a computation that leaves the table of open files as it is *)
Definition keeps {A} (m : Prog Store A) : Prop := forall s, names (m s).2 = names s.

Lemma frame_bind {A B} (m : Prog Store A) (k : A -> Prog Store B) : keeps m -> (forall a, keeps (k a)) -> keeps (bind m k).
Proof.
  intros Hm Hk s. specialize (Hm s). unfold bind. destruct (m s) as [[a|e|f] s']; simpl in *; [|done|done]. by rewrite Hk.
Qed.
Lemma frame_ret {A} (a : A) : keeps (ret a).
Proof. done. Qed.
Lemma frame_fail {A} f : keeps (fail f : Prog Store A).
Proof. done. Qed.
Lemma frame_gets {A} (f : Store -> A) : keeps (gets f).
Proof. done. Qed.
Lemma frame_deref {A} (o : option A) : keeps (deref o).
Proof. by destruct o. Qed.
Lemma frame_bpm f : keeps (modify (Bpm.on_bpm f)).
Proof. done. Qed.
Lemma frame_replacer {A} (m : Prog LRUReplacer A) : keeps (Bpm.on_replacer m).
Proof. intros s. unfold Bpm.on_replacer, zoom. by destruct (m _). Qed.

(** the system calls the pages are read and written with *)
Lemma kept_lseek fd off d : fd2path_ (Dsk.sys_lseek_set fd off d) = fd2path_ d.
Proof. unfold Dsk.sys_lseek_set. by repeat case_match. Qed.
Lemma kept_write fd b d : fd2path_ (Dsk.sys_write fd b d).2 = fd2path_ d.
Proof. unfold Dsk.sys_write. by repeat case_match. Qed.
Lemma kept_read fd n d : fd2path_ (Dsk.sys_read fd n d).2 = fd2path_ d.
Proof. unfold Dsk.sys_read. by repeat case_match. Qed.

Lemma frame_write_page fd no b : keeps (Bpm.on_disk (Dsk.write_page fd no b)).
Proof.
  intros s. unfold Bpm.on_disk, zoom, Dsk.write_page. pose proof (kept_write fd b (Dsk.sys_lseek_set fd (Dsk.page_off no) (disk s))) as H.
  rewrite kept_lseek in H. destruct (Dsk.sys_write _ _ _) as [n d]. by destruct (n =? zlen b).
Qed.
Lemma frame_allocate fd : keeps (Bpm.on_disk (Dsk.allocate_page fd)).
Proof. intros s. unfold Bpm.on_disk, zoom, Dsk.allocate_page. by destruct (_ && _). Qed.
Lemma frame_read_into f k : keeps (Bpm.read_into f k).
Proof.
  apply frame_bind; [apply frame_bind; [apply frame_gets|intros; apply frame_deref]|]. intros p s. unfold Dsk.read_page.
  pose proof (kept_read (fd k) PAGE_SIZE (Dsk.sys_lseek_set (fd k) (Dsk.page_off (page_no k)) (disk s))) as H.
  rewrite kept_lseek in H. destruct (Dsk.sys_read _ _ _) as [[b|] d]; [destruct (zlen b =? PAGE_SIZE)|]; exact H.
Qed.

Create HintDb keeps.
#[export] Hint Resolve frame_ret frame_fail frame_gets frame_deref frame_bpm frame_replacer frame_write_page frame_allocate frame_read_into : keeps.

Ltac frame_tac := repeat first [match goal with |- forall _, _ => intros ? end | solve [eauto 1 with keeps] | apply frame_bind | case_match].

Lemma frame_lock_latch : keeps Bpm.lock_latch.
Proof. unfold Bpm.lock_latch. frame_tac. Qed.
Lemma frame_lock_page f : keeps (Bpm.lock_page f).
Proof. unfold Bpm.lock_page. frame_tac. Qed.
Lemma frame_page_at f : keeps (Bpm.page_at f).
Proof. unfold Bpm.page_at. frame_tac. Qed.
#[export] Hint Resolve frame_lock_latch frame_lock_page frame_page_at : keeps.
Lemma frame_write_back f : keeps (Bpm.write_back f).
Proof. unfold Bpm.write_back. frame_tac. Qed.
Lemma frame_victim : keeps Bpm.find_victim_page.
Proof. unfold Bpm.find_victim_page. frame_tac. Qed.
#[export] Hint Resolve frame_write_back frame_victim : keeps.

(** ** The page operations *)

Lemma frame_fetch_page k : keeps (Bpm.fetch_page k).
Proof.
  unfold Bpm.fetch_page, Bpm.fetch_begin, Bpm.fetch_load, Bpm.upd_page, Bpm.unlock_page, Bpm.unlock_latch. frame_tac.
Qed.
Lemma frame_unpin_page k d : keeps (Bpm.unpin_page k d).
Proof. unfold Bpm.unpin_page, Bpm.upd_page, Bpm.unlock_page, Bpm.unlock_latch. frame_tac. Qed.
Lemma frame_new_page f : keeps (Bpm.new_page f).
Proof. unfold Bpm.new_page, Bpm.upd_page, Bpm.unlock_page, Bpm.unlock_latch. frame_tac. Qed.
Lemma frame_dealloc no : keeps (Bpm.on_disk (Dsk.deallocate_page no)).
Proof. done. Qed.
#[export] Hint Resolve frame_dealloc : keeps.
Lemma frame_delete_page k : keeps (Bpm.delete_page k).
Proof. unfold Bpm.delete_page, Bpm.upd_page, Bpm.unlock_page, Bpm.unlock_latch. frame_tac. Qed.
Lemma frame_write_frame f off b : keeps (Bpm.write_frame f off b).
Proof. unfold Bpm.write_frame, Bpm.upd_page. frame_tac. Qed.
End Fr.

(** ** The log file

    The pages a client works on are those of its own file, and the pool writes back the pages it holds.  So the log file, which
    is not read or written through the pool, keeps its contents as long as no frame and no file a client uses is open on it. *)

Module Lf.
Import Dsk.
Local Open Scope prog_scope.

(** the store as it is beside the disk [d0]: the same files are open on the same inodes, the log file is as it was, and no frame
    belongs to it *)
Record log_kept (d0 : Disk) (s : Store) : Prop := {
  lk_dir : dir (disk s) = dir d0;
  lk_names : fd2path_ (disk s) = fd2path_ d0;
  lk_log_fd : log_fd_ (disk s) = log_fd_ d0;
  lk_inode : forall g, fst <$> fds (disk s) !! g = fst <$> fds d0 !! g;
  lk_content : log_content (disk s) = log_content d0;
  lk_frames : forall f p, pages_ (bpm s) !! f = Some p -> off_log d0 (fd (id_ p));
}.

(** no frame of the pool belongs to the log file *)
Definition no_log_frames (s : Store) : Prop := forall f p, pages_ (bpm s) !! f = Some p -> off_log (disk s) (fd (id_ p)).

Lemma log_kept_refl s : no_log_frames s -> log_kept (disk s) s.
Proof. by split. Qed.
Lemma log_kept_ok d0 s : log_kept d0 s -> log_ok d0 -> log_ok (disk s).
Proof. intros [H1 H2 H3 _ _ _] [? ?]. split; rewrite ?H1, ?H2, ?H3; done. Qed.
Lemma off_log_same d0 s g : log_kept d0 s -> off_log d0 g <-> off_log (disk s) g.
Proof.
  intros [H1 _ _ H4 _ _]. specialize (H4 g). unfold off_log. rewrite H1.
  destruct (fds (disk s) !! g) as [[i o]|], (fds d0 !! g) as [[i' o']|]; try done. injection H4 as ->. split; intros H ino off [= <- <-]; by apply (H i' _ eq_refl).
Qed.

Lemma log_kept_self d0 s : log_kept d0 s -> log_kept (disk s) s.
Proof. intros Hs. apply log_kept_refl. intros f p Hp. apply (off_log_same d0 s _ Hs). by apply (lk_frames _ _ Hs f). Qed.

Section kept.
Context (d0 : Disk).

(** a computation after which the log file is as it was, whatever its outcome *)
Definition spares {A} (m : Prog Store A) : Prop := forall s, log_kept d0 s -> log_kept d0 (m s).2.

Lemma spares_bind {A B} (m : Prog Store A) (k : A -> Prog Store B) : spares m -> (forall a, spares (k a)) -> spares (bind m k).
Proof. intros Hm Hk s Hs. specialize (Hm s Hs). unfold bind. destruct (m s) as [[a|e|f] s']; [by apply Hk|done|done]. Qed.
Lemma spares_ret {A} (a : A) : spares (ret a).
Proof. by intros s. Qed.
Lemma spares_fail {A} f : spares (fail f : Prog Store A).
Proof. by intros s. Qed.
Lemma spares_gets {A} (f : Store -> A) : spares (gets f).
Proof. by intros s. Qed.
Lemma spares_deref {A} (o : option A) : spares (deref o).
Proof. by destruct o; intros s. Qed.
Lemma spares_replacer {A} (m : Prog LRUReplacer A) : spares (Bpm.on_replacer m).
Proof. intros s []. unfold Bpm.on_replacer, zoom. destruct (m _). by split. Qed.

(** changes of the pool that leave the frames alone *)
Lemma spares_bpm f : (forall b, pages_ (f b) = pages_ b) -> spares (modify (Bpm.on_bpm f)).
Proof. intros Hf s []. split; simpl; try done. by rewrite Hf. Qed.

(** a frame changes to one of a file other than the log *)
Lemma spares_upd f g : (forall p, off_log d0 (fd (id_ p)) -> off_log d0 (fd (id_ (g p)))) -> spares (Bpm.upd_page f g).
Proof.
  intros Hg s []. split; try done. simpl. intros i p. destruct (decide (i = f)) as [->|Hne].
  - rewrite list_lookup_alter_eq. destruct (pages_ (bpm s) !! f) as [q|] eqn:Eq; [|done]. intros [= <-]. eauto.
  - rewrite list_lookup_alter_ne by done. eauto.
Qed.

(** *** System calls *)

(** the disk of a store on which the log file is as it was *)
Lemma kept_disk s d : log_kept d0 s -> dir d = dir (disk s) -> fd2path_ d = fd2path_ (disk s) -> log_fd_ d = log_fd_ (disk s) ->
  (forall g, fst <$> fds d !! g = fst <$> fds (disk s) !! g) -> log_content d = log_content (disk s) -> log_kept d0 (mkStore d (bpm s)).
Proof. intros [] E1 E2 E3 E4 E5. split; simpl; try congruence. done. Qed.

(** a descriptor is moved, and the inode behind it may be written if it is not the log's *)
Lemma kept_move s g ino off off' : log_kept d0 s -> fds (disk s) !! g = Some (ino, off) ->
  log_kept d0 (mkStore (set_fds (<[g := (ino, off')]>) (disk s)) (bpm s)).
Proof.
  intros Hs Hg. apply kept_disk; try done. intros j. simpl. destruct (decide (g = j)) as [<-|Hne]; [by rewrite lookup_insert_eq, Hg|by rewrite lookup_insert_ne].
Qed.
Lemma kept_inode s ino x : log_kept d0 s -> dir (disk s) !! LOG_FILE_NAME <> Some ino -> log_kept d0 (mkStore (set_inodes (<[ino := x]>) (disk s)) (bpm s)).
Proof.
  intros Hs Hne. apply kept_disk; try done. unfold log_content. simpl. destruct (dir (disk s) !! LOG_FILE_NAME) as [i|]; [|done].
  rewrite lookup_insert_ne; [done|congruence].
Qed.

Lemma kept_seek s g off : log_kept d0 s -> log_kept d0 (mkStore (sys_lseek_set g off (disk s)) (bpm s)).
Proof.
  intros Hs. unfold sys_lseek_set. destruct (fds (disk s) !! g) as [[i o]|] eqn:E; [|by destruct s]. destruct (0 <=? off); [by eapply kept_move|by destruct s].
Qed.
Lemma kept_sys_write s g b : log_kept d0 s -> off_log d0 g -> log_kept d0 (mkStore (sys_write g b (disk s)).2 (bpm s)).
Proof.
  intros Hs Hg. apply (off_log_same d0 s g Hs) in Hg. unfold sys_write. destruct (fds (disk s) !! g) as [[i o]|] eqn:E; [|by destruct s].
  simpl. refine (kept_move (mkStore (set_inodes _ (disk s)) (bpm s)) g i o _ _ E). apply kept_inode; [done|by apply (Hg i o)].
Qed.
Lemma kept_sys_read s g n : log_kept d0 s -> log_kept d0 (mkStore (sys_read g n (disk s)).2 (bpm s)).
Proof. intros Hs. unfold sys_read. destruct (fds (disk s) !! g) as [[i o]|] eqn:E; [by eapply kept_move|by destruct s]. Qed.

(** *** The disk manager *)

Lemma spares_page_at f : spares (Bpm.page_at f).
Proof. apply spares_bind; [apply spares_gets|]. intros ps. apply spares_deref. Qed.

(** the frame that is written back is not one of the log file *)
Lemma spares_write_back f : spares (Bpm.write_back f).
Proof.
  intros s Hs. unfold Bpm.write_back, Bpm.page_at, bind, gets, deref. destruct (pages_ (bpm s) !! f) as [p|] eqn:Ep; [|done].
  unfold Bpm.on_disk, zoom, write_page.
  pose proof (kept_sys_write _ (fd (id_ p)) (data_ p) (kept_seek s (fd (id_ p)) (page_off (page_no (id_ p))) Hs) (lk_frames _ _ Hs f p Ep)) as Hw.
  cbn in Hw |- *. destruct (sys_write _ _ _) as [n d]. by destruct (n =? zlen (data_ p)).
Qed.
Lemma spares_read_into f k : spares (Bpm.read_into f k).
Proof.
  apply spares_bind; [apply spares_page_at|]. intros p s Hs. unfold read_page.
  pose proof (kept_sys_read _ (fd k) PAGE_SIZE (kept_seek s (fd k) (page_off (page_no k)) Hs)) as Hr. simpl in Hr.
  destruct (sys_read _ _ _) as [r d]. simpl in Hr.
  assert (H : forall x, log_kept d0 (Bpm.on_bpm (Bpm.set_pages (alter (Bpm.set_data x) f)) (mkStore d (bpm s)))).
  { intros x. by apply (spares_upd f (Bpm.set_data x)). }
  destruct r as [b|]; [destruct (zlen b =? PAGE_SIZE)|]; apply H.
Qed.
Lemma spares_allocate g : spares (Bpm.on_disk (allocate_page g)).
Proof. intros s Hs. unfold Bpm.on_disk, zoom, allocate_page. destruct (_ && _); [by apply kept_disk|by destruct s]. Qed.
Lemma spares_dealloc no : spares (Bpm.on_disk (deallocate_page no)).
Proof. intros s Hs. by destruct s. Qed.
End kept.

Create HintDb spares.
#[export] Hint Resolve spares_ret spares_fail spares_gets spares_deref spares_replacer spares_page_at spares_write_back spares_read_into
  spares_allocate spares_dealloc : spares.
#[export] Hint Extern 1 (spares _ (modify (Bpm.on_bpm _))) => (apply spares_bpm; done) : spares.
#[export] Hint Extern 1 (spares _ (Bpm.upd_page _ _)) => (apply spares_upd; done) : spares.

Ltac spares_tac := repeat first [match goal with |- forall _, _ => intros ? end | solve [eauto 1 with spares] | apply spares_bind | case_match].

(** *** The page operations *)

Section ops.
Context (d0 : Disk).

Lemma spares_lock_latch : spares d0 Bpm.lock_latch.
Proof. unfold Bpm.lock_latch. spares_tac. Qed.
Lemma spares_lock_page f : spares d0 (Bpm.lock_page f).
Proof. unfold Bpm.lock_page. spares_tac. Qed.
Lemma spares_victim : spares d0 Bpm.find_victim_page.
Proof. unfold Bpm.find_victim_page. spares_tac. Qed.
Hint Resolve spares_lock_latch spares_lock_page spares_victim : spares.

Lemma spares_fetch_page k : off_log d0 (fd k) -> spares d0 (Bpm.fetch_page k).
Proof.
  intros Hk. unfold Bpm.fetch_page, Bpm.fetch_begin, Bpm.fetch_load, Bpm.unlock_page, Bpm.unlock_latch. spares_tac.
Qed.
Lemma spares_unpin_page k d : spares d0 (Bpm.unpin_page k d).
Proof. unfold Bpm.unpin_page, Bpm.unlock_page, Bpm.unlock_latch. spares_tac. Qed.
Lemma spares_new_page g : off_log d0 g -> spares d0 (Bpm.new_page g).
Proof. intros Hg. unfold Bpm.new_page, Bpm.unlock_page, Bpm.unlock_latch. spares_tac. Qed.
Lemma spares_delete_page k : off_log d0 (-1) -> spares d0 (Bpm.delete_page k).
Proof. intros Hm. unfold Bpm.delete_page, Bpm.unlock_page, Bpm.unlock_latch. spares_tac. Qed.
Lemma spares_write_frame f off b : spares d0 (Bpm.write_frame f off b).
Proof. unfold Bpm.write_frame. spares_tac. Qed.
End ops.

(** *** The pool after a write to the log *)

Lemma beside_disk_page d d' g n : beside_log d d' -> registered g d -> off_log d g -> disk_page g n d' = disk_page g n d.
Proof. intros Hb Hr Ho. unfold disk_page. by rewrite (bl_content _ _ Hb g Hr Ho). Qed.
Lemma beside_valid d d' k : beside_log d d' -> BpmInv.valid_page d k -> BpmInv.valid_page d' k.
Proof. intros Hb (H1 & H2 & H3). split; [by apply (bl_file _ _ Hb)|]. split; [done|]. unfold get_fd2pageno in *. by rewrite (bl_pageno _ _ Hb). Qed.

Lemma beside_binv d' s : BpmInv.binv s -> no_log_frames s -> dinv d' -> beside_log (disk s) d' -> BpmInv.binv (mkStore d' (bpm s)).
Proof.
  intros [Hd H1 H2 H3 H4 [P1 P2 P3 P4 P5 P6 P7 P8]] Hn Hd' Hb. split; try done. split; try done; simpl.
  - intros f p Hf Hr. apply (beside_valid _ _ _ Hb). by apply (P2 f).
  - intros f p Hf Hr Hz. unfold BpmInv.synced. rewrite (beside_disk_page _ _ _ _ Hb); [by apply (P8 f)|by apply (P2 f)|by apply (Hn f)].
Qed.
Lemma beside_page d' s k b : beside_log (disk s) d' -> off_log (disk s) (fd k) -> BpmInv.page_is s k b -> BpmInv.page_is (mkStore d' (bpm s)) k b.
Proof.
  intros Hb Ho [Hv Hp]. split; [by apply (beside_valid _ _ _ Hb)|]. unfold BpmInv.frame_of in *. simpl.
  rewrite (beside_disk_page _ _ _ _ Hb); [exact Hp|apply Hv|done].
Qed.
End Lf.
