(* ===== verification/Bitmap.v ===== *)
(** The bitmaps of record pages: [src/src/record/bitmap.h].

    A bitmap is a byte array with the most significant bit first.  The loops work
    on one byte at a time, so the byte operations are definitions of their own:
    the record file applies them to bytes of a page in the buffer pool. *)

From S2P Require Import Prelude Bytes.

Definition BITMAP_WIDTH : Z := 8.
Definition BITMAP_HIGHEST_BIT : Z := 128.

Module Bitmap.

Definition get_bucket (pos : Z) : Z := Z.quot pos BITMAP_WIDTH.
Definition get_bit (pos : Z) : Z := Z.shiftr BITMAP_HIGHEST_BIT (Z.rem pos BITMAP_WIDTH).

(** one byte of the array, as an unsigned value *)
Definition set_byte (b pos : Z) : Z := Z.lor b (get_bit pos) mod 256.
Definition reset_byte (b pos : Z) : Z := Z.ldiff b (get_bit pos) mod 256.
Definition test_byte (b pos : Z) : bool := negb (Z.land b (get_bit pos) =? 0).

Definition byte_at (bm : list Z) (i : Z) : Z := default 0 (bm !! Z.to_nat i).
Definition put_byte (i v : Z) (bm : list Z) : list Z := splice i [v] bm.

Definition init (bm : list Z) (size : Z) : list Z := splice 0 (zeros size) bm.
Definition set (bm : list Z) (pos : Z) : list Z :=
  put_byte (get_bucket pos) (set_byte (byte_at bm (get_bucket pos)) pos) bm.
Definition reset (bm : list Z) (pos : Z) : list Z :=
  put_byte (get_bucket pos) (reset_byte (byte_at bm (get_bucket pos)) pos) bm.
Definition is_set (bm : list Z) (pos : Z) : bool := test_byte (byte_at bm (get_bucket pos)) pos.

(** the loop of [next_bit]: [fuel] positions are left in [[i, max_n)] *)
Fixpoint next_bit_from (bit : bool) (bm : list Z) (max_n i : Z) (fuel : nat) : Z :=
  match fuel with
  | O => max_n
  | S fuel => if Bool.eqb (is_set bm i) bit then i else next_bit_from bit bm max_n (i + 1) fuel
  end.

Definition next_bit (bit : bool) (bm : list Z) (max_n curr : Z) : Z :=
  next_bit_from bit bm max_n (curr + 1) (Z.to_nat (max_n - (curr + 1))).

Definition first_bit (bit : bool) (bm : list Z) (max_n : Z) : Z := next_bit bit bm max_n (-1).

(** ** Bits of a byte *)

Lemma get_bit_pow pos : 0 <= pos -> get_bit pos = 2 ^ (7 - pos mod 8).
Proof.
  intros. unfold get_bit, BITMAP_HIGHEST_BIT, BITMAP_WIDTH. rewrite Z.rem_mod_nonneg by lia.
  pose proof (Z.mod_pos_bound pos 8 ltac:(lia)). change 128 with (2 ^ 7).
  rewrite <- Z.shiftl_1_l, Z.shiftr_shiftl_l by lia. by rewrite Z.shiftl_1_l.
Qed.

Lemma get_bucket_div pos : 0 <= pos -> get_bucket pos = pos / 8.
Proof. intros. unfold get_bucket, BITMAP_WIDTH. by rewrite Z.quot_div_nonneg by lia. Qed.

Lemma testbit_get_bit pos i : 0 <= pos -> Z.testbit (get_bit pos) i = bool_decide (i = 7 - pos mod 8).
Proof.
  intros. rewrite get_bit_pow by done. pose proof (Z.mod_pos_bound pos 8 ltac:(lia)).
  case_bool_decide as E.
  - subst i. by rewrite Z.pow2_bits_true by lia.
  - by rewrite Z.pow2_bits_false by lia.
Qed.

Lemma test_byte_testbit b pos : 0 <= pos -> test_byte b pos = Z.testbit b (7 - pos mod 8).
Proof.
  intros. unfold test_byte. pose proof (Z.mod_pos_bound pos 8 ltac:(lia)).
  destruct (Z.testbit b (7 - pos mod 8)) eqn:E.
  - apply negb_true_iff, Z.eqb_neq. intros Hz.
    assert (Z.testbit (Z.land b (get_bit pos)) (7 - pos mod 8) = true) as Ht
      by (by rewrite Z.land_spec, E, testbit_get_bit, bool_decide_true).
    by rewrite Hz, Z.bits_0 in Ht.
  - apply negb_false_iff, Z.eqb_eq. apply Z.bits_inj'. intros i Hi.
    rewrite Z.land_spec, testbit_get_bit, Z.bits_0 by done. case_bool_decide; [|by rewrite andb_false_r].
    subst i. by rewrite E.
Qed.

Lemma set_byte_ok b pos : byte_ok (set_byte b pos).
Proof. apply Z.mod_pos_bound. lia. Qed.
Lemma reset_byte_ok b pos : byte_ok (reset_byte b pos).
Proof. apply Z.mod_pos_bound. lia. Qed.

Lemma test_set_byte b p q : 0 <= p -> 0 <= q ->
  test_byte (set_byte b p) q = bool_decide (p mod 8 = q mod 8) || test_byte b q.
Proof.
  intros. rewrite !test_byte_testbit by done. unfold set_byte. change 256 with (2 ^ 8).
  pose proof (Z.mod_pos_bound q 8 ltac:(lia)). pose proof (Z.mod_pos_bound p 8 ltac:(lia)).
  rewrite Z.mod_pow2_bits_low by lia. rewrite Z.lor_spec, testbit_get_bit by done.
  rewrite orb_comm. f_equal. apply bool_decide_ext. lia.
Qed.

Lemma test_reset_byte b p q : 0 <= p -> 0 <= q ->
  test_byte (reset_byte b p) q = negb (bool_decide (p mod 8 = q mod 8)) && test_byte b q.
Proof.
  intros. rewrite !test_byte_testbit by done. unfold reset_byte. change 256 with (2 ^ 8).
  pose proof (Z.mod_pos_bound q 8 ltac:(lia)). pose proof (Z.mod_pos_bound p 8 ltac:(lia)).
  rewrite Z.mod_pow2_bits_low by lia. rewrite Z.ldiff_spec, testbit_get_bit by done.
  rewrite andb_comm. f_equal. f_equal. apply bool_decide_ext. lia.
Qed.

(** ** Bits of the array *)

(** positions within the array *)
Definition valid (bm : list Z) (pos : Z) : Prop := 0 <= pos < 8 * zlen bm.

Lemma bucket_range bm pos : valid bm pos -> 0 <= get_bucket pos < zlen bm.
Proof.
  intros [? ?]. rewrite get_bucket_div by done. split; [apply Z.div_pos; lia|].
  apply Z.div_lt_upper_bound; lia.
Qed.

Lemma byte_at_put i j v bm : 0 <= i < zlen bm -> 0 <= j ->
  byte_at (put_byte i v bm) j = if decide (i = j) then v else byte_at bm j.
Proof.
  intros Hi Hj. unfold byte_at, put_byte. rewrite lookup_splice by (unfold zlen in *; simpl; lia).
  unfold zlen. simpl. destruct (decide (i = j)) as [->|Hne].
  - rewrite decide_True by lia. by rewrite Nat.sub_diag.
  - by rewrite decide_False by lia.
Qed.

Lemma zlen_put_byte i v bm : 0 <= i < zlen bm -> zlen (put_byte i v bm) = zlen bm.
Proof. intros. apply zlen_splice; [lia|]. unfold zlen at 1. simpl. lia. Qed.

Lemma same_position p q : 0 <= p -> 0 <= q -> get_bucket p = get_bucket q /\ p mod 8 = q mod 8 <-> p = q.
Proof.
  intros. rewrite !get_bucket_div by done. split; [|by intros ->]. intros [H1 H2].
  rewrite (Z.div_mod p 8), (Z.div_mod q 8) by lia. congruence.
Qed.

(** the state of every bit after setting or clearing one *)
Lemma is_set_put bm p q v (c : bool) :
  valid bm p -> 0 <= q -> (forall q, 0 <= q ->
    test_byte v q = if decide (p mod 8 = q mod 8) then c else test_byte (byte_at bm (get_bucket p)) q) ->
  is_set (put_byte (get_bucket p) v bm) q = if decide (p = q) then c else is_set bm q.
Proof.
  intros Hp Hq Hv. pose proof (bucket_range bm p Hp). destruct Hp as [Hp0 _].
  unfold is_set. rewrite byte_at_put; [|done|rewrite get_bucket_div by done; apply Z.div_pos; lia].
  pose proof (same_position p q Hp0 Hq) as Hsame.
  destruct (decide (get_bucket p = get_bucket q)) as [Eb|Eb].
  - rewrite Hv by done. destruct (decide (p mod 8 = q mod 8)) as [Em|Em].
    + by rewrite decide_True by tauto.
    + rewrite decide_False; [by rewrite Eb|]. intros ->. tauto.
  - rewrite decide_False; [done|]. intros ->. tauto.
Qed.

Lemma is_set_set bm p q : valid bm p -> 0 <= q ->
  is_set (set bm p) q = if decide (p = q) then true else is_set bm q.
Proof.
  intros Hp Hq. apply is_set_put; [done|done|]. intros r Hr. rewrite test_set_byte by (apply Hp || done).
  destruct (decide _); [by rewrite bool_decide_true|by rewrite bool_decide_false].
Qed.

Lemma is_set_reset bm p q : valid bm p -> 0 <= q ->
  is_set (reset bm p) q = if decide (p = q) then false else is_set bm q.
Proof.
  intros Hp Hq. apply is_set_put; [done|done|]. intros r Hr. rewrite test_reset_byte by (apply Hp || done).
  destruct (decide _); [by rewrite bool_decide_true|by rewrite bool_decide_false].
Qed.

Lemma is_set_zeros n q : 0 <= q -> is_set (zeros n) q = false.
Proof.
  intros. unfold is_set, byte_at, zeros. rewrite test_byte_testbit by done.
  destruct (replicate _ _ !! _) eqn:E; simpl; [|by rewrite Z.bits_0].
  apply lookup_replicate in E as [-> _]. by rewrite Z.bits_0.
Qed.

(** ** Searching *)

Lemma next_bit_from_spec bit bm max_n fuel i :
  i + Z.of_nat fuel = max_n ->
  let r := next_bit_from bit bm max_n i fuel in
  i <= r <= max_n /\ (forall j, i <= j < r -> is_set bm j = negb bit) /\ (r < max_n -> is_set bm r = bit).
Proof.
  revert i. induction fuel as [|fuel IH]; intros i Hi; simpl.
  - split_and!; [lia|lia|intros; lia|lia].
  - destruct (Bool.eqb (is_set bm i) bit) eqn:E.
    + apply Bool.eqb_prop in E. split_and!; [lia|lia|intros; lia|done].
    + apply Bool.eqb_false_iff in E. destruct (IH (i + 1)) as (H1 & H2 & H3); [lia|].
      split_and!; [lia|lia| |done]. intros j Hj. destruct (decide (j = i)) as [->|]; [|apply H2; lia].
      destruct (is_set bm i), bit; done.
Qed.
End Bitmap.

(** * Properties *)

(** Setting (clearing) a position of the bitmap sets (clears) that bit and no
    other, for every position inside the array. *)
Theorem bitmap_set_reset_exact bm pos q :
  Bitmap.valid bm pos -> 0 <= q ->
  Bitmap.is_set (Bitmap.set bm pos) q = (if decide (pos = q) then true else Bitmap.is_set bm q) /\
  Bitmap.is_set (Bitmap.reset bm pos) q = (if decide (pos = q) then false else Bitmap.is_set bm q).
Proof. intros. split; [by apply Bitmap.is_set_set|by apply Bitmap.is_set_reset]. Qed.

Lemma bitmap_set_reset_exact_witness :
  Bitmap.is_set (Bitmap.set [0; 3] 9) 14 = (if decide (9 = 14) then true else Bitmap.is_set [0; 3] 14) /\
  Bitmap.is_set (Bitmap.reset [0; 3] 9) 14 = (if decide (9 = 14) then false else Bitmap.is_set [0; 3] 14).
Proof. apply (bitmap_set_reset_exact [0; 3] 9 14); [split; vm_compute; congruence|lia]. Defined.

(** [next_bit] returns the first position after [curr] and below [max_n] whose bit
    has the wanted value, and [max_n] when there is none. *)
Theorem bitmap_next_bit_first bit bm max_n curr :
  curr < max_n ->
  let r := Bitmap.next_bit bit bm max_n curr in
  curr < r <= max_n /\ (forall j, curr < j < r -> Bitmap.is_set bm j = negb bit) /\
  (r < max_n -> Bitmap.is_set bm r = bit).
Proof.
  intros Hc. unfold Bitmap.next_bit.
  destruct (Bitmap.next_bit_from_spec bit bm max_n (Z.to_nat (max_n - (curr + 1))) (curr + 1)) as (H1 & H2 & H3); [lia|].
  split_and!; [lia|lia| |done]. intros j Hj. apply H2. lia.
Qed.

Lemma bitmap_next_bit_first_witness :
  let r := Bitmap.next_bit true [0; 3] 16 2 in
  2 < r <= 16 /\ (forall j, 2 < j < r -> Bitmap.is_set [0; 3] j = negb true) /\
  (r < 16 -> Bitmap.is_set [0; 3] r = true).
Proof. apply (bitmap_next_bit_first true [0; 3] 16 2). lia. Defined.
