(* ===== verification/Defs.v ===== *)
(** Shared data types: [src/src/defs.h], [src/src/record/rm_defs.h],
    [src/src/transaction/txn_defs.h] and [src/src/transaction/transaction.h]. *)

From S2P Require Import Prelude Bytes Errors Disk.

(** ** defs.h *)

Record Rid := mkRid { rid_page_no : Z; rid_slot_no : Z }.

#[export] Instance Rid_eq_dec : EqDecision Rid.
Proof. solve_decision. Defined.
#[export] Instance Rid_countable : Countable Rid.
Proof.
  apply (inj_countable' (fun r => (rid_page_no r, rid_slot_no r)) (fun x => mkRid x.1 x.2)). by intros [].
Defined.

Inductive ColType := TYPE_INT | TYPE_FLOAT | TYPE_BIGINT | TYPE_STRING | TYPE_DATETIME.

#[export] Instance ColType_eq_dec : EqDecision ColType.
Proof. solve_decision. Defined.

Definition coltype2str (type : ColType) : string :=
  match type with
  | TYPE_INT => "INT"
  | TYPE_FLOAT => "FLOAT"
  | TYPE_STRING => "STRING"
  | TYPE_BIGINT => "BIGINT"
  | TYPE_DATETIME => "DATETIME"
  end.

(** ** rm_defs.h *)

Definition RM_NO_PAGE : Z := -1.
Definition RM_FILE_HDR_PAGE : Z := 0.
Definition RM_FIRST_RECORD_PAGE : Z := 1.
Definition RM_MAX_RECORD_SIZE : Z := 2048.

Record RmFileHdr := mkRmFileHdr {
  record_size : Z;
  num_pages : Z;
  num_records_per_page : Z;
  first_free_page_no : Z;
  bitmap_size : Z;
}.

(** the struct as the bytes written to page 0 *)
Definition enc_RmFileHdr (h : RmFileHdr) : list Z :=
  enc_i32 (record_size h) ++ enc_i32 (num_pages h) ++ enc_i32 (num_records_per_page h) ++
  enc_i32 (first_free_page_no h) ++ enc_i32 (bitmap_size h).
Definition dec_RmFileHdr (b : list Z) : RmFileHdr :=
  mkRmFileHdr (dec_i32 (slice 0 4 b)) (dec_i32 (slice 4 4 b)) (dec_i32 (slice 8 4 b))
    (dec_i32 (slice 12 4 b)) (dec_i32 (slice 16 4 b)).
Definition sizeof_RmFileHdr : Z := 20.

(** offsets of the fields of [RmPageHdr] in a page *)
Definition off_page_lsn : Z := 0.
Definition off_rec_lsn : Z := 4.
Definition off_next_free_page_no : Z := 8.
Definition off_num_records : Z := 12.
Definition sizeof_RmPageHdr : Z := 16.

(** [RmRecord]: its data, the size being the length of the data *)
Record RmRecord := mkRmRecord { data : list Z; size : Z }.

(** [RmRecord(int size_, char *data_)] *)
Definition RmRecord_of (size_ : Z) (data_ : list Z) : RmRecord := mkRmRecord (slice 0 size_ data_) size_.
(** [RmRecord::SetData] *)
Definition SetData (data_ : list Z) (r : RmRecord) : RmRecord := mkRmRecord (slice 0 (size r) data_) (size r).
(** [RmRecord::Deserialize] *)
Definition RmRecord_Deserialize (data_ : list Z) : RmRecord :=
  let n := dec_i32 (slice 0 4 data_) in mkRmRecord (slice 4 n data_) n.

(** ** txn_defs.h *)

Inductive TransactionState := DEFAULT | GROWING | SHRINKING | COMMITTED | ABORTED.
#[export] Instance TransactionState_eq_dec : EqDecision TransactionState.
Proof. solve_decision. Defined.

Inductive IsolationLevel := READ_UNCOMMITTED | REPEATABLE_READ | READ_COMMITTED | SERIALIZABLE.

Inductive WType := INSERT_TUPLE | DELETE_TUPLE | UPDATE_TUPLE.
#[export] Instance WType_eq_dec : EqDecision WType.
Proof. solve_decision. Defined.

Record WriteRecord := mkWriteRecord {
  wtype_ : WType;
  tab_name_ : string;
  rid_ : Rid;
  record_ : RmRecord;
  new_record_ : RmRecord;
}.

Inductive LockDataType := TABLE | RECORD.
#[export] Instance LockDataType_eq_dec : EqDecision LockDataType.
Proof. solve_decision. Defined.

Record LockDataId := mkLockDataId { lock_fd : Z; lock_rid : Rid; lock_type : LockDataType }.

#[export] Instance LockDataId_eq_dec : EqDecision LockDataId.
Proof. solve_decision. Defined.
#[export] Instance LockDataType_countable : Countable LockDataType.
Proof.
  refine (inj_countable' (fun t => match t with TABLE => false | RECORD => true end)
    (fun b => if b then RECORD else TABLE) _). by intros [].
Defined.
#[export] Instance LockDataId_countable : Countable LockDataId.
Proof.
  apply (inj_countable' (fun r => (lock_fd r, lock_rid r, lock_type r)) (fun x => mkLockDataId x.1.1 x.1.2 x.2)). by intros [].
Defined.

(** the two constructors, which assert their last argument *)
Definition table_lock_id (fd : Z) : LockDataId := mkLockDataId fd (mkRid (-1) (-1)) TABLE.
Definition record_lock_id (fd : Z) (rid : Rid) : LockDataId := mkLockDataId fd rid RECORD.

(** [LockDataId::Get]: the hash key, in 64 bits *)
Definition LockDataId_Get (l : LockDataId) : Z :=
  match lock_type l with
  | TABLE => lock_fd l
  | RECORD =>
      wrap 64 (Z.lor (Z.lor (Z.lor (Z.shiftl 1 63) (Z.shiftl (lock_fd l) 31))
                 (Z.shiftl (rid_page_no (lock_rid l)) 16)) (rid_slot_no (lock_rid l)))
  end.

(** ** transaction.h *)

(** The page sets are deques of [Page] pointers; the thread id is not used. *)
Record Transaction := mkTransaction {
  txn_mode_ : bool;
  state_ : TransactionState;
  isolation_level_ : IsolationLevel;
  so_far_lsn_ : Z;
  txn_id_ : Z;
  start_ts_ : Z;
  write_records_ : list WriteRecord;
  lock_set_ : gset LockDataId;
  index_latch_page_set_ : list nat;
  index_deleted_page_set_ : list nat;
}.

(** [Transaction::Transaction]; [txn_mode_] and [start_ts_] are not initialised *)
Definition new_Transaction (mode0 : bool) (ts0 : Z) (txn_id : Z) (isolation_level : IsolationLevel) : Transaction :=
  mkTransaction mode0 DEFAULT isolation_level INVALID_LSN txn_id ts0 [] ∅ [] [].

Definition set_state (st : TransactionState) (t : Transaction) : Transaction :=
  mkTransaction (txn_mode_ t) st (isolation_level_ t) (so_far_lsn_ t) (txn_id_ t) (start_ts_ t)
    (write_records_ t) (lock_set_ t) (index_latch_page_set_ t) (index_deleted_page_set_ t).
Definition set_so_far_lsn (lsn : Z) (t : Transaction) : Transaction :=
  mkTransaction (txn_mode_ t) (state_ t) (isolation_level_ t) lsn (txn_id_ t) (start_ts_ t)
    (write_records_ t) (lock_set_ t) (index_latch_page_set_ t) (index_deleted_page_set_ t).
Definition set_start_ts (ts : Z) (t : Transaction) : Transaction :=
  mkTransaction (txn_mode_ t) (state_ t) (isolation_level_ t) (so_far_lsn_ t) (txn_id_ t) ts
    (write_records_ t) (lock_set_ t) (index_latch_page_set_ t) (index_deleted_page_set_ t).
Definition set_write_records (f : list WriteRecord -> list WriteRecord) (t : Transaction) : Transaction :=
  mkTransaction (txn_mode_ t) (state_ t) (isolation_level_ t) (so_far_lsn_ t) (txn_id_ t) (start_ts_ t)
    (f (write_records_ t)) (lock_set_ t) (index_latch_page_set_ t) (index_deleted_page_set_ t).
Definition set_lock_set (f : gset LockDataId -> gset LockDataId) (t : Transaction) : Transaction :=
  mkTransaction (txn_mode_ t) (state_ t) (isolation_level_ t) (so_far_lsn_ t) (txn_id_ t) (start_ts_ t)
    (write_records_ t) (f (lock_set_ t)) (index_latch_page_set_ t) (index_deleted_page_set_ t).

(** [Transaction::append_write_record] *)
Definition append_write_record (w : WriteRecord) : Transaction -> Transaction :=
  set_write_records (fun l => l ++ [w]).

(** ** Facts *)

Lemma zlen_enc_RmFileHdr h : zlen (enc_RmFileHdr h) = sizeof_RmFileHdr.
Proof. unfold enc_RmFileHdr. by rewrite !zlen_app, !zlen_enc_i32. Qed.

Record hdr_int32 (h : RmFileHdr) : Prop := {
  hi_rs : int32_ok (record_size h); hi_np : int32_ok (num_pages h);
  hi_nr : int32_ok (num_records_per_page h); hi_ff : int32_ok (first_free_page_no h);
  hi_bs : int32_ok (bitmap_size h);
}.

(** peeling an encoded field off the front of a byte string *)
Lemma slice_head n (l1 l2 : list Z) : n = zlen l1 -> slice 0 n (l1 ++ l2) = l1.
Proof. intros ->. rewrite slice_app_l by (pose proof (zlen_nonneg l1); lia). apply slice_full. Qed.

Lemma slice_skip off n (l1 l2 : list Z) k :
  zlen l1 = k -> k <= off -> slice off n (l1 ++ l2) = slice (off - k) n l2.
Proof. intros <- ?. by apply slice_app_r. Qed.

Lemma dec_enc_RmFileHdr h : hdr_int32 h -> dec_RmFileHdr (enc_RmFileHdr h) = h.
Proof.
  intros [? ? ? ? ?]. unfold dec_RmFileHdr, enc_RmFileHdr. destruct h as [a b c d e]; cbn [record_size num_pages num_records_per_page first_free_page_no bitmap_size] in *. f_equal.
  - by rewrite slice_head, dec_enc_i32.
  - rewrite (slice_skip _ _ _ _ 4) by (done || lia). change (4 - 4) with 0. by rewrite slice_head, dec_enc_i32.
  - rewrite !(slice_skip _ _ _ _ 4) by (done || lia). change (8 - 4 - 4) with 0. by rewrite slice_head, dec_enc_i32.
  - rewrite !(slice_skip _ _ _ _ 4) by (done || lia). change (12 - 4 - 4 - 4) with 0.
    by rewrite slice_head, dec_enc_i32.
  - rewrite !(slice_skip _ _ _ _ 4) by (done || lia). change (16 - 4 - 4 - 4 - 4) with 0.
    change 4 with (zlen (enc_i32 e)). by rewrite slice_full, dec_enc_i32.
Qed.

(** The 64-bit key of a lock id, which only feeds a hash, does not identify the
    locked object: two different records of one table share it as soon as slot
    numbers exceed 16 bits or page numbers 15 bits; the hash table compares ids
    with [operator==], which does tell them apart. *)
Theorem LockDataId_Get_collides :
  LockDataId_Get (record_lock_id 3 (mkRid 32768 0)) = LockDataId_Get (record_lock_id 3 (mkRid 0 0)) /\
  record_lock_id 3 (mkRid 32768 0) <> record_lock_id 3 (mkRid 0 0).
Proof. split; [vm_compute; reflexivity|discriminate]. Qed.
