(* ===== verification/RmFile.v ===== *)
(** Record files: [RmFileHandle], [RmPageHandle], [RmScan] and [RmManager] of
    [src/src/record/].

    The operations are written against the page store interface; the state is the
    store together with the file handle, whose header is kept in memory.  A page
    holds a 16-byte header, a bitmap and the slots.  [hdr_latch_] is held for the
    whole of every operation, so an operation is one atomic step. *)

From S2P Require Import Prelude Bytes Errors Disk BufferPool PageStore Bitmap Defs.

(** [Context]: what the record layer uses of the transaction and the log manager. *)
Record Context (S : Type) := mkContext {
  ctx_get_state : Prog S TransactionState;          (** [txn_->get_state()] *)
  ctx_get_so_far_lsn : Prog S Z;                    (** [txn_->get_so_far_lsn()] *)
  ctx_get_file_name : Z -> Prog S string;           (** [disk_manager_->get_file_name] *)
  ctx_gen_log : WriteRecord -> Prog S unit;         (** [log_mgr_->gen_log_from_write_set(txn_, _)] *)
  ctx_append : WriteRecord -> Prog S unit;          (** [txn_->append_write_record] *)
}.
Arguments ctx_get_state {S} _.
Arguments ctx_get_so_far_lsn {S} _.
Arguments ctx_get_file_name {S} _ _.
Arguments ctx_gen_log {S} _ _.
Arguments ctx_append {S} _ _.

Record RmFileHandle := mkRmFileHandle { fd_ : Z; file_hdr_ : RmFileHdr }.

Module Rm.

Definition set_num_pages (n : Z) (h : RmFileHdr) : RmFileHdr :=
  mkRmFileHdr (record_size h) n (num_records_per_page h) (first_free_page_no h) (bitmap_size h).
Definition set_first_free (n : Z) (h : RmFileHdr) : RmFileHdr :=
  mkRmFileHdr (record_size h) (num_pages h) (num_records_per_page h) n (bitmap_size h).

(** the header of a new file, [RmManager::create_file] *)
Definition init_file_hdr (record_size : Z) : RmFileHdr :=
  let n := Z.quot (BITMAP_WIDTH * (PAGE_SIZE - 1 - sizeof_RmFileHdr) + 1) (1 + record_size * BITMAP_WIDTH) in
  mkRmFileHdr record_size 1 n RM_NO_PAGE (Z.quot (n + BITMAP_WIDTH - 1) BITMAP_WIDTH).

Section ops.
Context {S : Type} `{!PageStore S}.
Local Open Scope prog_scope.

(** the store and one open file *)
Definition St : Type := S * RmFileHandle.
Implicit Types (ctx : option (Context S)).

Definition lift {A} (m : Prog S A) : Prog St A := zoom fst (fun s t => (s, t.2)) m.
Definition hdr : Prog St RmFileHdr := gets (fun t => file_hdr_ t.2).
Definition get_fd : Prog St Z := gets (fun t => fd_ t.2).
Definition upd_hdr (f : RmFileHdr -> RmFileHdr) : Prog St unit :=
  modify (fun t => (t.1, mkRmFileHandle (fd_ t.2) (f (file_hdr_ t.2)))).

(** *** [RmPageHandle]: the parts of a page *)

Definition get_field (p : page_ptr) (off : Z) : Prog St Z :=
  let* b := lift (read_bytes p off 4) in ret (dec_i32 b).
Definition set_field (p : page_ptr) (off v : Z) : Prog St unit := lift (write_bytes p off (enc_i32 v)).

Definition bitmap_off : Z := sizeof_RmPageHdr.
(** [RmPageHandle::get_slot], as an offset in the page *)
Definition slot_off (h : RmFileHdr) (slot_no : Z) : Z := bitmap_off + bitmap_size h + slot_no * record_size h.

(** [Bitmap::is_set(page_handle.bitmap, pos)] and the two updates *)
Definition bit_is_set (p : page_ptr) (pos : Z) : Prog St bool :=
  let* b := lift (read_bytes p (bitmap_off + Bitmap.get_bucket pos) 1) in
  ret (Bitmap.test_byte (hd 0 b) pos).
Definition bit_set (p : page_ptr) (pos : Z) : Prog St unit :=
  let* b := lift (read_bytes p (bitmap_off + Bitmap.get_bucket pos) 1) in
  lift (write_bytes p (bitmap_off + Bitmap.get_bucket pos) [Bitmap.set_byte (hd 0 b) pos]).
Definition bit_reset (p : page_ptr) (pos : Z) : Prog St unit :=
  let* b := lift (read_bytes p (bitmap_off + Bitmap.get_bucket pos) 1) in
  lift (write_bytes p (bitmap_off + Bitmap.get_bucket pos) [Bitmap.reset_byte (hd 0 b) pos]).

(** [buffer_pool_manager_->unpin_page(page->get_page_id(), dirty)] *)
Definition unpin (p : page_ptr) (dirty : bool) : Prog St unit :=
  let* k := lift (get_page_id p) in
  lift (unpin_page k dirty);; ret tt.

(** *** [RmFileHandle] *)

(** [RmFileHandle::unpin_page] *)
Definition rm_unpin_page (page_id : PageId) (dirty : bool) : Prog St unit :=
  let* ok := lift (unpin_page page_id dirty) in
  if ok : bool then ret tt else assert false.

(** [RmFileHandle::fetch_page_handle]: a null page is dereferenced by the handle *)
Definition fetch_page_handle (page_no : Z) : Prog St page_ptr :=
  let* fd := get_fd in
  let* p := lift (fetch_page (mkPageId fd page_no)) in
  deref p.

(** [RmFileHandle::fetch_free_page_handle] *)
Definition fetch_free_page_handle : Prog St page_ptr :=
  let* h := hdr in
  let* fd := get_fd in
  if first_free_page_no h =? -1 then
    let* r := lift (new_page fd) in
    match r with
    | None => assert false;; fail Undef
    | Some (page_id, p) =>
        set_field p off_next_free_page_no (-1);;
        set_field p off_num_records 0;;
        set_field p off_page_lsn (-1);;
        set_field p off_rec_lsn (-1);;
        upd_hdr (fun h => set_num_pages (num_pages h + 1) h);;
        upd_hdr (set_first_free (page_no page_id));;
        ret p
    end
  else
    let* r := lift (fetch_page (mkPageId fd (first_free_page_no h))) in
    match r with
    | None => assert false;; fail Undef
    | Some p => ret p
    end.

(** [RmFileHandle::is_record] *)
Definition is_record (rid : Rid) : Prog St bool :=
  let* p := fetch_page_handle (rid_page_no rid) in
  let* res := bit_is_set p (rid_slot_no rid) in
  unpin p false;;
  ret res.

(** [RmFileHandle::get_record] *)
Definition get_record (rid : Rid) : Prog St RmRecord :=
  let* p := fetch_page_handle (rid_page_no rid) in
  let* h := hdr in
  let* d := lift (read_bytes p (slot_off h (rid_slot_no rid)) (record_size h)) in
  let res := RmRecord_of (record_size h) d in
  unpin p false;;
  ret res.

(** the lsn fields of the page header: [page_lsn] becomes the maximum, and
    [rec_lsn] is set when the frame was not dirty *)
Definition touch_lsn (p : page_ptr) (lsn : Z) : Prog St unit :=
  let* page_lsn := get_field p off_page_lsn in
  set_field p off_page_lsn (if lsn <? page_lsn then page_lsn else lsn);;
  let* d := lift (is_dirty p) in
  if negb d then set_field p off_rec_lsn lsn else ret tt.

(** logging of an insertion, when there is a context *)
Definition log_insert (ctx : option (Context S)) (p : page_ptr) (rid : Rid) (buf : list Z) : Prog St unit :=
  match ctx with
  | None => ret tt
  | Some c =>
      let* st := lift (ctx_get_state c) in
      (if bool_decide (st = DEFAULT \/ st = GROWING) then
         let* h := hdr in
         let rec := RmRecord_of (record_size h) buf in
         let* fd := get_fd in
         let* table_name := lift (ctx_get_file_name c fd) in
         let w := mkWriteRecord INSERT_TUPLE table_name rid rec (mkRmRecord [] 0) in
         lift (ctx_gen_log c w);;
         lift (ctx_append c w)
       else assert false);;
      let* lsn := lift (ctx_get_so_far_lsn c) in
      touch_lsn p lsn
  end.

(** writing a record into a free slot of a page *)
Definition fill_slot (p : page_ptr) (i : Z) (buf : list Z) : Prog St unit :=
  let* h := hdr in
  lift (write_bytes p (slot_off h i) (slice 0 (record_size h) buf));;
  bit_set p i;;
  let* num := get_field p off_num_records in
  set_field p off_num_records (num + 1);;
  let* num := get_field p off_num_records in
  if num =? num_records_per_page h then
    let* next := get_field p off_next_free_page_no in
    upd_hdr (set_first_free next)
  else ret tt.

(** the loop of [insert_record]: [n] slots remain from [i] on *)
Fixpoint insert_loop (ctx : option (Context S)) (p : page_ptr) (buf : list Z) (i : Z) (n : nat) : Prog St Rid :=
  match n with
  | O => assert false;; ret (mkRid (-1) (-1))
  | Datatypes.S n' =>
      let* used := bit_is_set p i in
      if used then insert_loop ctx p buf (i + 1) n'
      else
        let* page_id := lift (get_page_id p) in
        log_insert ctx p (mkRid (page_no page_id) i) buf;;
        fill_slot p i buf;;
        lift (unpin_page page_id true);;
        ret (mkRid (page_no page_id) i)
  end.

(** [RmFileHandle::insert_record(char *buf, Context *context)] *)
Definition insert_record (ctx : option (Context S)) (buf : list Z) : Prog St Rid :=
  let* p := fetch_free_page_handle in
  let* h := hdr in
  insert_loop ctx p buf 0 (Z.to_nat (num_records_per_page h)).

(** the [while] loop of the recovery insertion, with fuel *)
Fixpoint skip_to_page (fuel : nat) (target : Z) (p : page_ptr) : Prog St unit :=
  match fuel with
  | O => fail OutOfFuel
  | Datatypes.S fuel =>
      let* k := lift (get_page_id p) in
      if page_no k <? target then
        let* p' := fetch_free_page_handle in skip_to_page fuel target p'
      else ret tt
  end.

(** [RmFileHandle::insert_record(const Rid &rid, char *buf)] *)
Definition insert_record_at (fuel : nat) (rid : Rid) (buf : list Z) : Prog St unit :=
  let* p0 := fetch_free_page_handle in
  skip_to_page fuel (rid_page_no rid) p0;;
  let* p := fetch_page_handle (rid_page_no rid) in
  let* used := bit_is_set p (rid_slot_no rid) in
  let* h := hdr in
  (if used then lift (write_bytes p (slot_off h (rid_slot_no rid)) (slice 0 (record_size h) buf))
   else fill_slot p (rid_slot_no rid) buf);;
  unpin p true.

(** clearing a slot and pushing the page on the free chain if it was full *)
Definition free_slot (p : page_ptr) (rid : Rid) : Prog St unit :=
  let* used := bit_is_set p (rid_slot_no rid) in
  if used then
    bit_reset p (rid_slot_no rid);;
    let* num := get_field p off_num_records in
    set_field p off_num_records (num - 1);;
    let* h := hdr in
    let* num := get_field p off_num_records in
    if num =? num_records_per_page h - 1 then
      set_field p off_next_free_page_no (first_free_page_no h);;
      upd_hdr (set_first_free (rid_page_no rid))
    else ret tt
  else assert false.

(** [RmFileHandle::delete_record(const Rid &rid, Context *context)]: the context is
    dereferenced before it is compared with null *)
Definition delete_record (ctx : option (Context S)) (rid : Rid) : Prog St unit :=
  let* p := fetch_page_handle (rid_page_no rid) in
  let* c := deref ctx in
  let* lsn := lift (ctx_get_so_far_lsn c) in
  touch_lsn p lsn;;
  free_slot p rid;;
  unpin p true.

(** [RmFileHandle::delete_record(const Rid &rid)], used by recovery *)
Definition delete_record_at (rid : Rid) : Prog St unit :=
  let* p := fetch_page_handle (rid_page_no rid) in
  free_slot p rid;;
  unpin p true.

(** [RmFileHandle::update_record] *)
Definition update_record (ctx : option (Context S)) (rid : Rid) (buf : list Z) : Prog St unit :=
  let* p := fetch_page_handle (rid_page_no rid) in
  let* c := deref ctx in
  let* lsn := lift (ctx_get_so_far_lsn c) in
  touch_lsn p lsn;;
  let* used := bit_is_set p (rid_slot_no rid) in
  (if used then
     let* h := hdr in
     lift (write_bytes p (slot_off h (rid_slot_no rid)) (slice 0 (record_size h) buf))
   else assert false);;
  unpin p true.

(** *** [RmScan] *)

(** the inner loop: the first set bit at or after [j], [n] slots being left *)
Fixpoint scan_page (p : page_ptr) (j : Z) (n : nat) : Prog St (option Z) :=
  match n with
  | O => ret None
  | Datatypes.S n' =>
      let* used := bit_is_set p j in
      if used then ret (Some j) else scan_page p (j + 1) n'
  end.

(** the outer loop over [n] pages from [i] on; the first page starts at slot [j] *)
Fixpoint scan_pages (i j : Z) (n : nat) : Prog St Rid :=
  match n with
  | O => ret (mkRid INVALID_PAGE_ID (-1))
  | Datatypes.S n' =>
      let* p := fetch_page_handle i in
      let* h := hdr in
      let* r := scan_page p j (Z.to_nat (num_records_per_page h - j)) in
      match r with
      | Some j' => unpin p false;; ret (mkRid i j')
      | None => unpin p false;; scan_pages (i + 1) 0 n'
      end
  end.

(** [RmScan::RmScan] *)
Definition scan_begin : Prog St Rid :=
  let* h := hdr in scan_pages 1 0 (Z.to_nat (num_pages h - 1)).

(** [RmScan::next] *)
Definition scan_next (rid : Rid) : Prog St Rid :=
  let* h := hdr in
  scan_pages (rid_page_no rid) (rid_slot_no rid + 1) (Z.to_nat (num_pages h - rid_page_no rid)).

(** [RmScan::is_end] *)
Definition scan_is_end (rid : Rid) : bool :=
  (rid_page_no rid =? INVALID_PAGE_ID) && (rid_slot_no rid =? -1).
End ops.

(** ** [RmManager], over the concrete store *)
Section manager.
Local Open Scope prog_scope.

(** [RmManager::create_file] *)
Definition create_file (filename : string) (record_size : Z) : Prog Store unit :=
  if (record_size <? 1) || (RM_MAX_RECORD_SIZE <? record_size) then throw (InvalidRecordSizeError record_size)
  else
    Bpm.on_disk (Dsk.create_file filename);;
    let* fd := Bpm.on_disk (Dsk.open_file filename) in
    Bpm.on_disk (Dsk.write_page fd RM_FILE_HDR_PAGE (enc_RmFileHdr (init_file_hdr record_size)));;
    Bpm.on_disk (Dsk.close_file fd).

(** [RmManager::destroy_file] *)
Definition destroy_file (filename : string) : Prog Store unit := Bpm.on_disk (Dsk.destroy_file filename).

(** [RmFileHandle::RmFileHandle]: [buf0] is the uninitialised header *)
Definition make_handle (buf0 : list Z) (fd : Z) : Prog Store RmFileHandle :=
  let* b := (fun s =>
    let '(r, b, d) := Dsk.read_page fd RM_FILE_HDR_PAGE buf0 sizeof_RmFileHdr (disk s) in
    (match r with Ok _ => Ok b | Throw e => Throw e | Fail f => Fail f end, mkStore d (bpm s))) in
  let h := dec_RmFileHdr b in
  Bpm.on_disk (Dsk.set_fd2pageno fd (num_pages h));;
  ret (mkRmFileHandle fd h).

(** [RmManager::open_file] *)
Definition open_file (buf0 : list Z) (filename : string) : Prog Store RmFileHandle :=
  let* fd := Bpm.on_disk (Dsk.open_file filename) in
  make_handle buf0 fd.

(** [RmManager::close_file] *)
Definition close_file (h : RmFileHandle) : Prog Store unit :=
  Bpm.on_disk (Dsk.write_page (fd_ h) RM_FILE_HDR_PAGE (enc_RmFileHdr (file_hdr_ h)));;
  Bpm.flush_all_pages (fd_ h);;
  Bpm.free_all_pages (fd_ h);;
  Bpm.on_disk (Dsk.close_file (fd_ h)).
End manager.
End Rm.
