(* ===== verification/RmPage.v ===== *)
(** The layout of a record page, as facts about byte strings: the header fields,
    the bitmap and the slots do not overlap, and the three updates the record file
    performs (filling, clearing and overwriting a slot) do to the abstract page
    what they should. *)

From S2P Require Import Prelude Bytes Disk Bitmap Defs RmFile.

Module RmPage.

(** ** Layout *)

Record hdr_ok (h : RmFileHdr) : Prop := {
  ho_rs : 1 <= record_size h <= RM_MAX_RECORD_SIZE;
  ho_n : 1 <= num_records_per_page h < 2 ^ 15;
  ho_bm : num_records_per_page h <= 8 * bitmap_size h;
  ho_bs : 0 <= bitmap_size h;
  ho_fit : sizeof_RmPageHdr + bitmap_size h + num_records_per_page h * record_size h <= PAGE_SIZE;
}.

Lemma init_hdr_ok rs : 1 <= rs <= RM_MAX_RECORD_SIZE -> hdr_ok (Rm.init_file_hdr rs).
Proof.
  unfold RM_MAX_RECORD_SIZE. intros Hrs.
  set (n := Z.quot (BITMAP_WIDTH * (PAGE_SIZE - 1 - sizeof_RmFileHdr) + 1) (1 + rs * BITMAP_WIDTH)).
  assert (Hn : n = 32601 / (1 + rs * 8)).
  { unfold n, BITMAP_WIDTH, PAGE_SIZE, sizeof_RmFileHdr. by rewrite Z.quot_div_nonneg by lia. }
  pose proof (Z.mul_div_le 32601 (1 + rs * 8) ltac:(lia)) as Hle.
  assert (H1 : 1 <= n) by (rewrite Hn; apply Z.div_le_lower_bound; lia).
  assert (Hb : Z.quot (n + BITMAP_WIDTH - 1) BITMAP_WIDTH = (n + 7) / 8).
  { unfold BITMAP_WIDTH. rewrite Z.quot_div_nonneg by lia. f_equal. lia. }
  pose proof (Z.mul_div_le (n + 7) 8 ltac:(lia)). pose proof (Z.mod_pos_bound (n + 7) 8 ltac:(lia)).
  pose proof (Z.div_mod (n + 7) 8 ltac:(lia)).
  split; unfold Rm.init_file_hdr; fold n; cbn [record_size num_records_per_page bitmap_size];
    rewrite ?Hb; unfold RM_MAX_RECORD_SIZE, sizeof_RmPageHdr, PAGE_SIZE; nia.
Qed.

Section page.
Context (h : RmFileHdr) (Hh : hdr_ok h).
Let n := num_records_per_page h.
Let rs := record_size h.

Definition valid_slot (j : Z) : Prop := 0 <= j < num_records_per_page h.

Lemma page_bucket_range j : valid_slot j -> 0 <= Bitmap.get_bucket j < bitmap_size h.
Proof.
  intros [? ?]. destruct Hh. rewrite Bitmap.get_bucket_div by done. split; [apply Z.div_pos; lia|].
  apply Z.div_lt_upper_bound; lia.
Qed.

Lemma bitmap_range j : valid_slot j ->
  16 <= Rm.bitmap_off + Bitmap.get_bucket j < 16 + bitmap_size h /\ 16 + bitmap_size h <= PAGE_SIZE.
Proof.
  intros Hj. pose proof (page_bucket_range j Hj). destruct Hh. unfold Rm.bitmap_off, sizeof_RmPageHdr, RM_MAX_RECORD_SIZE in *. nia.
Qed.

Lemma slot_range j : valid_slot j ->
  16 + bitmap_size h <= Rm.slot_off h j /\ Rm.slot_off h j + rs <= PAGE_SIZE /\ 16 + bitmap_size h <= PAGE_SIZE.
Proof.
  intros [? ?]. destruct Hh. unfold Rm.slot_off, Rm.bitmap_off, sizeof_RmPageHdr, rs, RM_MAX_RECORD_SIZE in *. nia.
Qed.

Lemma slot_disjoint i j : valid_slot i -> valid_slot j -> i <> j ->
  Rm.slot_off h i + rs <= Rm.slot_off h j \/ Rm.slot_off h j + rs <= Rm.slot_off h i.
Proof.
  intros [? ?] [? ?] ?. destruct Hh. unfold Rm.slot_off, rs, RM_MAX_RECORD_SIZE in *. nia.
Qed.

(** ** The parts of a page *)

Definition pg_field (off : Z) (b : list Z) : Z := dec_i32 (slice off 4 b).
Definition pg_next : list Z -> Z := pg_field off_next_free_page_no.
Definition pg_num : list Z -> Z := pg_field off_num_records.
Definition pg_byte (j : Z) (b : list Z) : Z := hd 0 (slice (Rm.bitmap_off + Bitmap.get_bucket j) 1 b).
Definition pg_bit (j : Z) (b : list Z) : bool := Bitmap.test_byte (pg_byte j b) j.
Definition pg_slot (j : Z) (b : list Z) : list Z := slice (Rm.slot_off h j) (record_size h) b.

(** the abstract page: its records by slot, and its link in the free chain *)
Record apage := mkApage { ap_recs : gmap Z (list Z); ap_next : Z }.

Record page_rep (p : apage) (b : list Z) : Prop := {
  pr_len : zlen b = PAGE_SIZE;
  pr_num : pg_num b = Z.of_nat (stdpp.base.size (ap_recs p));
  pr_next : pg_next b = ap_next p;
  pr_bit : forall j, valid_slot j -> pg_bit j b = bool_decide (is_Some (ap_recs p !! j));
  pr_slot : forall j x, ap_recs p !! j = Some x -> valid_slot j /\ pg_slot j b = x;
}.

(** *** Writes to the header *)

Definition header_write (off : Z) (w : list Z) (b : list Z) : list Z := splice off w b.

Lemma header_keeps_bits b off v j :
  zlen b = PAGE_SIZE -> 0 <= off <= 12 -> valid_slot j ->
  pg_byte j (splice off (enc_i32 v) b) = pg_byte j b.
Proof.
  intros Hb Ho Hj. pose proof (bitmap_range j Hj). unfold pg_byte.
  rewrite slice_splice_disj; [done|lia|lia|rewrite zlen_enc_i32; unfold PAGE_SIZE in *; lia|rewrite zlen_enc_i32; lia].
Qed.

Lemma header_keeps_slot b off v j :
  zlen b = PAGE_SIZE -> 0 <= off <= 12 -> valid_slot j ->
  pg_slot j (splice off (enc_i32 v) b) = pg_slot j b.
Proof.
  intros Hb Ho Hj. pose proof (slot_range j Hj). destruct Hh. unfold pg_slot.
  rewrite slice_splice_disj; [done|lia|lia|rewrite zlen_enc_i32; unfold PAGE_SIZE in *; lia|rewrite zlen_enc_i32; lia].
Qed.

Lemma header_field_other b off off' v :
  zlen b = PAGE_SIZE -> 0 <= off <= 12 -> 0 <= off' -> off + 4 <= off' \/ off' + 4 <= off ->
  pg_field off' (splice off (enc_i32 v) b) = pg_field off' b.
Proof.
  intros Hb Ho Ho' Hd. unfold pg_field.
  rewrite slice_splice_disj; [done|lia|lia|rewrite zlen_enc_i32; unfold PAGE_SIZE in *; lia|rewrite zlen_enc_i32; lia].
Qed.

Lemma header_field_same b off v :
  zlen b = PAGE_SIZE -> 0 <= off <= 12 -> int32_ok v -> pg_field off (splice off (enc_i32 v) b) = v.
Proof.
  intros Hb Ho Hv. unfold pg_field.
  rewrite slice_splice_same by (rewrite ?zlen_enc_i32; unfold PAGE_SIZE in *; lia). by rewrite dec_enc_i32.
Qed.

Lemma zlen_header_write b off v :
  zlen b = PAGE_SIZE -> 0 <= off <= 12 -> zlen (splice off (enc_i32 v) b) = PAGE_SIZE.
Proof. intros Hb Ho. rewrite zlen_splice; [done|lia|rewrite zlen_enc_i32; unfold PAGE_SIZE in *; lia]. Qed.

(** an lsn field is not part of the abstract page *)
Lemma page_rep_lsn p b off v :
  page_rep p b -> off = off_page_lsn \/ off = off_rec_lsn -> page_rep p (splice off (enc_i32 v) b).
Proof.
  intros [H1 H2 H3 H4 H5] Hoff.
  assert (Ho : 0 <= off /\ off + 4 <= 8) by (unfold off_page_lsn, off_rec_lsn in *; lia).
  split.
  - by apply zlen_header_write; [|lia].
  - unfold pg_num. rewrite header_field_other; unfold off_num_records; (done || lia).
  - unfold pg_next. rewrite header_field_other; unfold off_next_free_page_no; (done || lia).
  - intros j Hj. unfold pg_bit. rewrite header_keeps_bits by (done || lia). by apply H4.
  - intros j x Hx. destruct (H5 j x Hx) as [Hj Hs]. split; [done|]. by rewrite header_keeps_slot by (done || lia).
Qed.

Lemma page_rep_next p b v :
  page_rep p b -> int32_ok v -> page_rep (mkApage (ap_recs p) v) (splice off_next_free_page_no (enc_i32 v) b).
Proof.
  intros [H1 H2 H3 H4 H5] Hv. split; unfold off_next_free_page_no; simpl.
  - by apply zlen_header_write; [|lia].
  - unfold pg_num. rewrite header_field_other; unfold off_num_records; (done || lia).
  - unfold pg_next. by rewrite header_field_same by (done || lia).
  - intros j Hj. unfold pg_bit. rewrite header_keeps_bits by (done || lia). by apply H4.
  - intros j x Hx. destruct (H5 j x Hx) as [Hj Hs]. split; [done|]. by rewrite header_keeps_slot by (done || lia).
Qed.

(** *** Writes to the bitmap *)

Lemma pg_byte_put b i j v :
  zlen b = PAGE_SIZE -> valid_slot i -> valid_slot j ->
  pg_byte j (splice (Rm.bitmap_off + Bitmap.get_bucket i) [v] b) =
  if decide (Bitmap.get_bucket i = Bitmap.get_bucket j) then v else pg_byte j b.
Proof.
  intros Hb Hi Hj. pose proof (bitmap_range i Hi). pose proof (bitmap_range j Hj).
  assert (Hv : zlen [v] = 1) by done. unfold pg_byte. destruct (decide _) as [E|E].
  - rewrite E in *. rewrite slice_splice_same; [done|lia|rewrite Hv; lia|done].
  - rewrite slice_splice_disj; [done|lia|lia|rewrite Hv; lia|rewrite Hv; lia].
Qed.

Lemma bitmap_keeps_slot b i j v :
  zlen b = PAGE_SIZE -> valid_slot i -> valid_slot j ->
  pg_slot j (splice (Rm.bitmap_off + Bitmap.get_bucket i) [v] b) = pg_slot j b.
Proof.
  intros Hb Hi Hj. pose proof (bitmap_range i Hi). pose proof (slot_range j Hj).
  assert (Hv : zlen [v] = 1) by done. unfold pg_slot.
  rewrite slice_splice_disj; [done|lia|lia|rewrite Hv; lia|rewrite Hv; lia].
Qed.

Lemma bitmap_keeps_field b i v off :
  zlen b = PAGE_SIZE -> valid_slot i -> 0 <= off <= 12 ->
  pg_field off (splice (Rm.bitmap_off + Bitmap.get_bucket i) [v] b) = pg_field off b.
Proof.
  intros Hb Hi Ho. pose proof (bitmap_range i Hi). assert (Hv : zlen [v] = 1) by done. unfold pg_field.
  rewrite slice_splice_disj; [done|lia|lia|rewrite Hv; lia|rewrite Hv; lia].
Qed.

Lemma zlen_bitmap_write b i v :
  zlen b = PAGE_SIZE -> valid_slot i -> zlen (splice (Rm.bitmap_off + Bitmap.get_bucket i) [v] b) = PAGE_SIZE.
Proof.
  intros Hb Hi. pose proof (bitmap_range i Hi). assert (Hv : zlen [v] = 1) by done.
  rewrite zlen_splice; [done|lia|rewrite Hv; lia].
Qed.

(** a byte whose bits agree except at [i] *)
Lemma pg_bit_put b i j v (c : bool) :
  zlen b = PAGE_SIZE -> valid_slot i -> valid_slot j ->
  (forall q, 0 <= q -> Bitmap.test_byte v q = if decide (i mod 8 = q mod 8) then c else Bitmap.test_byte (pg_byte i b) q) ->
  pg_bit j (splice (Rm.bitmap_off + Bitmap.get_bucket i) [v] b) = if decide (i = j) then c else pg_bit j b.
Proof.
  intros Hb Hi Hj Hv. unfold pg_bit. rewrite pg_byte_put by done.
  pose proof (Bitmap.same_position i j (proj1 Hi) (proj1 Hj)) as Hsame.
  destruct (decide (Bitmap.get_bucket i = Bitmap.get_bucket j)) as [Eb|Eb].
  - rewrite Hv by apply Hj. unfold pg_byte. rewrite Eb. destruct (decide (i mod 8 = j mod 8)).
    + by rewrite decide_True by tauto.
    + rewrite decide_False; [done|]. intros ->. tauto.
  - rewrite decide_False; [done|]. intros ->. tauto.
Qed.

Lemma set_byte_bits i b q : 0 <= i -> 0 <= q ->
  Bitmap.test_byte (Bitmap.set_byte b i) q = if decide (i mod 8 = q mod 8) then true else Bitmap.test_byte b q.
Proof.
  intros. rewrite Bitmap.test_set_byte by done.
  destruct (decide _); [by rewrite bool_decide_true|by rewrite bool_decide_false].
Qed.

Lemma reset_byte_bits i b q : 0 <= i -> 0 <= q ->
  Bitmap.test_byte (Bitmap.reset_byte b i) q = if decide (i mod 8 = q mod 8) then false else Bitmap.test_byte b q.
Proof.
  intros. rewrite Bitmap.test_reset_byte by done.
  destruct (decide _); [by rewrite bool_decide_true|by rewrite bool_decide_false].
Qed.

(** *** Writes to a slot *)

Lemma slot_keeps_byte b i j w :
  zlen b = PAGE_SIZE -> zlen w = rs -> valid_slot i -> valid_slot j ->
  pg_byte j (splice (Rm.slot_off h i) w b) = pg_byte j b.
Proof.
  intros Hb Hw Hi Hj. pose proof (bitmap_range j Hj). pose proof (slot_range i Hi).
  unfold pg_byte. rewrite slice_splice_disj; [done|lia|lia|lia|lia].
Qed.

Lemma slot_keeps_field b i w off :
  zlen b = PAGE_SIZE -> zlen w = rs -> valid_slot i -> 0 <= off <= 12 ->
  pg_field off (splice (Rm.slot_off h i) w b) = pg_field off b.
Proof.
  intros Hb Hw Hi Ho. pose proof (slot_range i Hi). destruct Hh.
  unfold pg_field. rewrite slice_splice_disj; [done|lia|lia|lia|lia].
Qed.

Lemma slot_other b i j w :
  zlen b = PAGE_SIZE -> zlen w = rs -> valid_slot i -> valid_slot j -> i <> j ->
  pg_slot j (splice (Rm.slot_off h i) w b) = pg_slot j b.
Proof.
  intros Hb Hw Hi Hj Hne. pose proof (slot_range i Hi). pose proof (slot_range j Hj).
  pose proof (slot_disjoint i j Hi Hj Hne). destruct Hh. unfold pg_slot. fold rs.
  rewrite slice_splice_disj; [done|lia|lia|lia|lia].
Qed.

Lemma slot_same b i w :
  zlen b = PAGE_SIZE -> zlen w = rs -> valid_slot i -> pg_slot i (splice (Rm.slot_off h i) w b) = w.
Proof.
  intros Hb Hw Hi. pose proof (slot_range i Hi). destruct Hh. unfold pg_slot. fold rs.
  rewrite slice_splice_same; [done|lia|lia|lia].
Qed.

Lemma zlen_slot_write b i w :
  zlen b = PAGE_SIZE -> zlen w = rs -> valid_slot i -> zlen (splice (Rm.slot_off h i) w b) = PAGE_SIZE.
Proof.
  intros Hb Hw Hi. pose proof (slot_range i Hi). destruct Hh. rewrite zlen_splice; [done|lia|lia].
Qed.

(** overwriting the slot of a record *)
Lemma page_rep_update p b i w :
  page_rep p b -> is_Some (ap_recs p !! i) -> zlen w = rs ->
  page_rep (mkApage (<[i := w]> (ap_recs p)) (ap_next p)) (splice (Rm.slot_off h i) w b).
Proof.
  intros [H1 H2 H3 H4 H5] [x Hx] Hw. destruct (H5 i x Hx) as [Hi _]. split; simpl.
  - by apply zlen_slot_write.
  - unfold pg_num. rewrite slot_keeps_field by (unfold off_num_records; done || lia).
    fold (pg_num b). rewrite H2, map_size_insert, Hx. done.
  - unfold pg_next. rewrite slot_keeps_field by (unfold off_next_free_page_no; done || lia). done.
  - intros j Hj. unfold pg_bit. rewrite slot_keeps_byte by done. fold (pg_bit j b). rewrite H4 by done.
    apply bool_decide_ext. destruct (decide (i = j)) as [<-|].
    + rewrite lookup_insert_eq, Hx. split; by eexists.
    + by rewrite lookup_insert_ne.
  - intros j y. destruct (decide (i = j)) as [<-|Hne].
    + rewrite lookup_insert_eq. intros [= <-]. split; [done|]. by apply slot_same.
    + rewrite lookup_insert_ne by done. intros Hy. destruct (H5 j y Hy) as [Hj Hs]. split; [done|].
      by rewrite slot_other.
Qed.

Definition fill_bytes (i : Z) (w b : list Z) : list Z :=
  let b1 := splice (Rm.slot_off h i) w b in
  let b2 := splice (Rm.bitmap_off + Bitmap.get_bucket i) [Bitmap.set_byte (pg_byte i b1) i] b1 in
  splice off_num_records (enc_i32 (pg_num b2 + 1)) b2.

Definition free_bytes (i : Z) (b : list Z) : list Z :=
  let b2 := splice (Rm.bitmap_off + Bitmap.get_bucket i) [Bitmap.reset_byte (pg_byte i b) i] b in
  splice off_num_records (enc_i32 (pg_num b2 - 1)) b2.

Lemma size_bound p b : page_rep p b -> Z.of_nat (stdpp.base.size (ap_recs p)) <= n.
Proof.
  intros Hr. assert (Hsub : dom (ap_recs p) ⊆ list_to_set (Z.of_nat <$> seq 0 (Z.to_nat n))).
  { intros j [x Hx]%elem_of_dom. destruct (pr_slot _ _ Hr j x Hx) as [[? ?] _].
    apply elem_of_list_to_set, list_elem_of_fmap. exists (Z.to_nat j). rewrite elem_of_seq. unfold n. lia. }
  apply subseteq_size in Hsub. rewrite size_dom in Hsub.
  rewrite size_list_to_set in Hsub by (apply NoDup_fmap_2; [intros ???; lia|apply NoDup_seq]).
  rewrite length_fmap, length_seq in Hsub. destruct Hh. unfold n in *. lia.
Qed.

Lemma page_rep_fill p b i w :
  page_rep p b -> valid_slot i -> ap_recs p !! i = None -> zlen w = rs ->
  page_rep (mkApage (<[i := w]> (ap_recs p)) (ap_next p)) (fill_bytes i w b).
Proof.
  intros Hr Hi Hx Hw. pose proof (size_bound p b Hr) as Hsz. destruct Hr as [H1 H2 H3 H4 H5].
  unfold fill_bytes. set (b1 := splice (Rm.slot_off h i) w b).
  set (b2 := splice (Rm.bitmap_off + Bitmap.get_bucket i) [Bitmap.set_byte (pg_byte i b1) i] b1).
  assert (L1 : zlen b1 = PAGE_SIZE) by (by apply zlen_slot_write).
  assert (L2 : zlen b2 = PAGE_SIZE) by (by apply zlen_bitmap_write).
  assert (N2 : pg_num b2 = Z.of_nat (stdpp.base.size (ap_recs p))).
  { unfold pg_num, b2, b1. rewrite bitmap_keeps_field, slot_keeps_field by (unfold off_num_records; done || lia). done. }
  split; simpl.
  - apply zlen_header_write; [done|unfold off_num_records; lia].
  - unfold pg_num. rewrite header_field_same; [|done|unfold off_num_records; lia|].
    + fold (pg_num b2). rewrite N2, map_size_insert, Hx. simpl. lia.
    + fold (pg_num b2). rewrite N2. destruct Hh. unfold n, int32_ok in *. lia.
  - unfold pg_next. rewrite header_field_other by (unfold off_num_records, off_next_free_page_no; done || lia).
    unfold b2, b1. rewrite bitmap_keeps_field, slot_keeps_field by (unfold off_next_free_page_no; done || lia). done.
  - intros j Hj. unfold pg_bit. rewrite header_keeps_bits by (unfold off_num_records; done || lia).
    fold (pg_bit j b2). unfold b2.
    rewrite (pg_bit_put b1 i j _ true L1 Hi Hj) by (intros; apply set_byte_bits; [apply Hi|done]).
    destruct (decide (i = j)) as [<-|Hne].
    + rewrite lookup_insert_eq, bool_decide_true; [done|by eexists].
    + rewrite lookup_insert_ne by done. unfold pg_bit, b1. rewrite slot_keeps_byte by done. by apply H4.
  - intros j y. rewrite lookup_insert_Some. intros [[<- <-]|[Hne Hy]].
    + split; [done|]. rewrite header_keeps_slot by (unfold off_num_records; done || lia).
      unfold b2. rewrite bitmap_keeps_slot by done. by apply slot_same.
    + destruct (H5 j y Hy) as [Hj Hs]. split; [done|].
      rewrite header_keeps_slot by (unfold off_num_records; done || lia).
      unfold b2. rewrite bitmap_keeps_slot by done. unfold b1. by rewrite slot_other.
Qed.

Lemma page_rep_free p b i :
  page_rep p b -> is_Some (ap_recs p !! i) ->
  page_rep (mkApage (delete i (ap_recs p)) (ap_next p)) (free_bytes i b).
Proof.
  intros Hr [x Hx]. pose proof (size_bound p b Hr) as Hsz. destruct Hr as [H1 H2 H3 H4 H5].
  destruct (H5 i x Hx) as [Hi _]. unfold free_bytes.
  set (b2 := splice (Rm.bitmap_off + Bitmap.get_bucket i) [Bitmap.reset_byte (pg_byte i b) i] b).
  assert (L2 : zlen b2 = PAGE_SIZE) by (by apply zlen_bitmap_write).
  assert (Hpos : (0 < stdpp.base.size (ap_recs p))%nat).
  { destruct (stdpp.base.size (ap_recs p)) eqn:E; [|lia]. apply map_size_empty_inv in E. by rewrite E, lookup_empty in Hx. }
  assert (N2 : pg_num b2 = Z.of_nat (stdpp.base.size (ap_recs p))).
  { unfold pg_num, b2. rewrite bitmap_keeps_field by (unfold off_num_records; done || lia). done. }
  split; simpl.
  - apply zlen_header_write; [done|unfold off_num_records; lia].
  - unfold pg_num. rewrite header_field_same; [|done|unfold off_num_records; lia|].
    + fold (pg_num b2). rewrite N2, map_size_delete, Hx. simpl. lia.
    + fold (pg_num b2). rewrite N2. destruct Hh. unfold n, int32_ok in *. lia.
  - unfold pg_next. rewrite header_field_other by (unfold off_num_records, off_next_free_page_no; done || lia).
    unfold b2. rewrite bitmap_keeps_field by (unfold off_next_free_page_no; done || lia). done.
  - intros j Hj. unfold pg_bit. rewrite header_keeps_bits by (unfold off_num_records; done || lia).
    fold (pg_bit j b2). unfold b2.
    rewrite (pg_bit_put b i j _ false H1 Hi Hj) by (intros; apply reset_byte_bits; [apply Hi|done]).
    destruct (decide (i = j)) as [<-|Hne].
    + rewrite lookup_delete_eq, bool_decide_false; [done|]. by intros [? ?].
    + rewrite lookup_delete_ne by done. by apply H4.
  - intros j y. rewrite lookup_delete_Some. intros [Hne Hy].
    destruct (H5 j y Hy) as [Hj Hs]. split; [done|].
    rewrite header_keeps_slot by (unfold off_num_records; done || lia).
    unfold b2. by rewrite bitmap_keeps_slot.
Qed.

(** a page just allocated *)
Lemma page_rep_fresh b :
  zlen b = PAGE_SIZE -> pg_num b = 0 -> pg_next b = -1 -> (forall j, valid_slot j -> pg_bit j b = false) ->
  page_rep (mkApage ∅ (-1)) b.
Proof.
  intros H1 H2 H3 H4. split; simpl; try done.
Qed.
End page.
End RmPage.
