(* ===== verification/RmProofs.v ===== *)
(** A record file implements a finite map from record ids to byte strings.

    The proofs are against the page store interface only.  [rm_rep] relates a
    store and an open file to the abstract pages; within an operation one page is
    pinned, which [wk] describes. *)

From S2P Require Import Prelude Bytes Errors Disk BufferPool PageStore Bitmap Defs.
From S2P Require Import RmFile RmPage.
Import RmPage.

Module RmP.

Section rm.
Context {S : Type} {PS : PageStore S} {PL : PageStoreLaws S}.

(** ** What a context must do *)

(** a step that no page notices *)
Record quiet (s s' : S) : Prop := {
  qt_inv : ps_inv s -> ps_inv s';
  qt_page : forall k b, ps_page s k b -> ps_page s' k b;
  qt_pins : forall k, ps_pins s' k = ps_pins s k;
  qt_clean : forall k, ps_clean s k -> ps_clean s' k;
  qt_handle : forall f k, ps_handle s f k -> ps_handle s' f k;
  qt_room : ps_room s' = ps_room s;
  qt_npages : forall g, ps_npages s' g = ps_npages s g;
  qt_file : forall g, ps_file s g -> ps_file s' g;
}.

(** [C] is a property of the part of the state the context lives in: the page
    operations keep it. *)
Record framed (C : S -> Prop) : Prop := {
  fr_fetch : forall k s r s', fetch_page k s = (Ok r, s') -> C s -> C s';
  fr_unpin : forall k d s r s', unpin_page k d s = (Ok r, s') -> C s -> C s';
  fr_new : forall g s r s', new_page g s = (Ok r, s') -> C s -> C s';
  fr_delete : forall k s r s', delete_page k s = (Ok r, s') -> C s -> C s';
  fr_write : forall f off w s r s', write_bytes f off w s = (Ok r, s') -> C s -> C s';
}.

(** [C] is kept by the operations on the pages of file [g] *)
Record framed_in (g : Z) (C : S -> Prop) : Prop := {
  fi_fetch : forall k s r s', fd k = g -> fetch_page k s = (Ok r, s') -> C s -> C s';
  fi_unpin : forall k d s r s', fd k = g -> unpin_page k d s = (Ok r, s') -> C s -> C s';
  fi_new : forall s r s', new_page g s = (Ok r, s') -> C s -> C s';
  fi_delete : forall k s r s', fd k = g -> delete_page k s = (Ok r, s') -> C s -> C s';
  fi_write : forall f off w s r s', write_bytes f off w s = (Ok r, s') -> C s -> C s';
}.
Lemma framed_framed_in g C : framed C -> framed_in g C.
Proof. intros []. split; eauto. Qed.

Definition quietly {A} (C : S -> Prop) (m : Prog S A) (Q : A -> Prop) : Prop :=
  forall s, C s -> runs m s (fun a s' => quiet s s' /\ C s' /\ Q a).

(** the transaction may still write, and logging does not touch pages: a write [w] that [W] admits takes
    the state from [C] to [D w] *)
Record ctx_laws (C : S -> Prop) (W : Z -> WriteRecord -> Prop) (D : WriteRecord -> S -> Prop) (c : Context S) : Prop := {
  cl_state : quietly C (ctx_get_state c) (fun st => st = DEFAULT \/ st = GROWING);
  cl_lsn : quietly C (ctx_get_so_far_lsn c) (fun _ => True);
  cl_log : forall fd s, C s -> (exists w, W fd w) -> exists name s1, ctx_get_file_name c fd s = (Ok name, s1) /\ quiet s s1 /\
    forall w, W fd w -> wtype_ w = INSERT_TUPLE -> tab_name_ w = name ->
      exists s2 s3, ctx_gen_log c w s1 = (Ok tt, s2) /\ ctx_append c w s2 = (Ok tt, s3) /\ quiet s1 s2 /\ quiet s2 s3 /\ D w s3;
  cl_lsn_after : forall w, quietly (D w) (ctx_get_so_far_lsn c) (fun _ => True);
}.

Context (C : S -> Prop) (HC : framed C).

(** ** Working on one pinned page *)

(** Since [s0], only page [k] has changed; it is pinned once through [p] and holds
    [b]; [N] and [R] are the page counters and the free frames. *)
Record wk (s0 : S) (N : Z -> Z) (R : Z) (k : PageId) (p : page_ptr) (b : list Z) (s : S) : Prop := {
  wk_inv : ps_inv s;
  wk_ctx : C s;
  wk_handle : ps_handle s p k;
  wk_page : ps_page s k b;
  wk_pins : ps_pins s k = 1;
  wk_others : ps_others k s0 s;
  wk_npages : forall g, ps_npages s g = N g;
  wk_room : ps_room s = R;
  wk_file : forall g, ps_file s0 g -> ps_file s g;
}.

(** at rest again, [k] holding [b] *)
Record rest (s0 : S) (N : Z -> Z) (R : Z) (k : PageId) (b : list Z) (s : S) : Prop := {
  re_inv : ps_inv s;
  re_ctx : C s;
  re_page : ps_page s k b;
  re_pins : ps_pins s k = 0;
  re_others : ps_others k s0 s;
  re_npages : forall g, ps_npages s g = N g;
  re_room : ps_room s = R;
  re_file : forall g, ps_file s0 g -> ps_file s g;
}.

(** no page changed, and nothing stays pinned that was not *)
Record calm (s s' : S) : Prop := {
  ca_inv : ps_inv s';
  ca_page : forall k b, ps_page s k b -> ps_page s' k b;
  ca_pins : forall k, ps_pins s' k = ps_pins s k;
  ca_room : ps_room s' = ps_room s;
  ca_npages : forall g, ps_npages s' g = ps_npages s g;
  ca_file : forall g, ps_file s g -> ps_file s' g;
}.

Lemma calm_refl s : ps_inv s -> calm s s.
Proof. by split. Qed.
Lemma calm_trans s1 s2 s3 : calm s1 s2 -> calm s2 s3 -> calm s1 s3.
Proof. intros [] []. split; try done; [auto|congruence|congruence|congruence|auto]. Qed.
Lemma rest_calm s k b s' : ps_page s k b -> ps_pins s k = 0 -> rest s (ps_npages s) (ps_room s) k b s' -> calm s s'.
Proof.
  intros Hp Hz []. destruct re_others0. split; try done; intros j; destruct (decide (j = k)) as [->|Hne]; try congruence; auto.
  intros b' Hb'. by rewrite (ps_page_fun s k b' b Hb' Hp).
Qed.

Lemma others_refl k (s : S) : ps_others k s s.
Proof. by split. Qed.

Lemma others_trans k (s1 s2 s3 : S) : ps_others k s1 s2 -> ps_others k s2 s3 -> ps_others k s1 s3.
Proof.
  intros H1 H2. split; intros.
  - apply (ot_page _ _ _ _ _ _ _ H2); [done|]. by apply (ot_page _ _ _ _ _ _ _ H1).
  - rewrite (ot_pins _ _ _ _ _ _ _ H2) by done. by apply (ot_pins _ _ _ _ _ _ _ H1).
  - apply (ot_clean _ _ _ _ _ _ _ H2); [done|]. by apply (ot_clean _ _ _ _ _ _ _ H1).
  - apply (ot_handle _ _ _ _ _ _ _ H2); [done|]. by apply (ot_handle _ _ _ _ _ _ _ H1).
Qed.

Lemma quiet_others k s s' : quiet s s' -> ps_others k s s'.
Proof. intros []. split; auto. Qed.

Lemma wk_quiet s0 N R k p b s s' : wk s0 N R k p b s -> quiet s s' -> C s' -> wk s0 N R k p b s'.
Proof.
  intros [] Hq HC'. pose proof (quiet_others k _ _ Hq). destruct Hq. split; auto.
  - by rewrite qt_pins0.
  - by eapply others_trans.
  - intros g. by rewrite qt_npages0.
  - by rewrite qt_room0.
Qed.

(** ** Steps *)

Section steps.
Context (s0 : S) (N : Z -> Z) (R : Z) (k : PageId) (p : page_ptr).
Implicit Types (h : RmFileHandle) (Q : forall A, A -> Rm.St (S:=S) -> Prop).

Lemma step_lift {A B} (m : Prog S A) a s' (f : A -> Prog Rm.St B) s h P :
  m s = (Ok a, s') -> runs (f a) (s', h) P -> runs (bind (Rm.lift m) f) (s, h) P.
Proof.
  intros Hm Hf. eapply runs_bind_eq; [|exact Hf]. unfold Rm.lift, zoom. simpl. by rewrite Hm.
Qed.

Lemma step_read {B} b off n (f : list Z -> Prog Rm.St B) s h P :
  wk s0 N R k p b s -> in_range off n PAGE_SIZE = true ->
  runs (f (slice off n b)) (s, h) P -> runs (bind (Rm.lift (read_bytes p off n)) f) (s, h) P.
Proof.
  intros Hw Hin Hf. eapply step_lift; [|exact Hf].
  eapply ps_read; [apply Hw|apply Hw|apply Hw|done].
Qed.

Lemma wk_write b off w s :
  wk s0 N R k p b s -> in_range off (zlen w) PAGE_SIZE = true ->
  runs (write_bytes p off w) s (fun _ s' => wk s0 N R k p (splice off w b) s').
Proof.
  intros Hw Hin. destruct (ps_write s p k b off w) as (a & s' & E & H1 & H2 & H3 & H4 & H5 & H6 & H7 & H8);
    [apply Hw|apply Hw|apply Hw|done|].
  exists a, s'. split; [done|]. split; auto.
  - eapply (fr_write _ HC); [exact E|apply Hw].
  - rewrite H5. apply Hw.
  - eapply others_trans; [apply Hw|done].
  - intros g. rewrite H7. apply Hw.
  - rewrite H6. apply Hw.
  - intros. by apply H8, Hw.
Qed.

Lemma step_write {B} b off w (f : unit -> Prog Rm.St B) s h P :
  wk s0 N R k p b s -> in_range off (zlen w) PAGE_SIZE = true ->
  (forall s', wk s0 N R k p (splice off w b) s' -> runs (f tt) (s', h) P) ->
  runs (bind (Rm.lift (write_bytes p off w)) f) (s, h) P.
Proof.
  intros Hw Hin Hf. destruct (wk_write b off w s Hw Hin) as ([] & s' & E & H').
  eapply step_lift; [exact E|]. by apply Hf.
Qed.

Lemma last_write b off w s h P :
  wk s0 N R k p b s -> in_range off (zlen w) PAGE_SIZE = true ->
  (forall s', wk s0 N R k p (splice off w b) s' -> P tt (s', h)) ->
  runs (Rm.lift (write_bytes p off w)) (s, h) P.
Proof.
  intros Hw Hin Hf. destruct (wk_write b off w s Hw Hin) as ([] & s' & E & H').
  eapply runs_eq; [|by apply Hf]. unfold Rm.lift, zoom. simpl. by rewrite E.
Qed.

Lemma field_range off : 0 <= off <= 12 -> in_range off 4 PAGE_SIZE = true.
Proof. intros. apply in_range_spec. unfold PAGE_SIZE. lia. Qed.

Lemma step_get_field {B} b off (f : Z -> Prog Rm.St B) s h P :
  wk s0 N R k p b s -> 0 <= off <= 12 ->
  runs (f (pg_field off b)) (s, h) P -> runs (bind (Rm.get_field p off) f) (s, h) P.
Proof.
  intros Hw Ho Hf. unfold Rm.get_field. rstep. eapply step_read; [done|by apply field_range|]. by rstep.
Qed.

Lemma step_set_field {B} b off v (f : unit -> Prog Rm.St B) s h P :
  wk s0 N R k p b s -> 0 <= off <= 12 ->
  (forall s', wk s0 N R k p (splice off (enc_i32 v) b) s' -> runs (f tt) (s', h) P) ->
  runs (bind (Rm.set_field p off v) f) (s, h) P.
Proof.
  intros Hw Ho Hf. unfold Rm.set_field. eapply step_write; [done|rewrite zlen_enc_i32; by apply field_range|done].
Qed.

Lemma step_page_id {B} b (f : PageId -> Prog Rm.St B) s h P :
  wk s0 N R k p b s -> runs (f k) (s, h) P -> runs (bind (Rm.lift (get_page_id p)) f) (s, h) P.
Proof.
  intros Hw Hf. eapply step_lift; [|exact Hf]. eapply ps_page_id; apply Hw.
Qed.

Lemma step_quiet {A B} (m : Prog S A) (Q : A -> Prop) b (f : A -> Prog Rm.St B) s h P :
  quietly C m Q -> wk s0 N R k p b s ->
  (forall a s', Q a -> wk s0 N R k p b s' -> runs (f a) (s', h) P) ->
  runs (bind (Rm.lift m) f) (s, h) P.
Proof.
  intros Hm Hw Hf. destruct (Hm s (wk_ctx _ _ _ _ _ _ _ Hw)) as (a & s' & E & Hq & HC' & HQ).
  eapply step_lift; [exact E|]. apply Hf; [done|]. by eapply wk_quiet.
Qed.

Lemma step_touch_lsn {B} b v (f : unit -> Prog Rm.St B) s h P :
  wk s0 N R k p b s ->
  (forall b' s', wk s0 N R k p b' s' ->
     (forall hd ap, hdr_ok hd -> page_rep hd ap b -> page_rep hd ap b') -> runs (f tt) (s', h) P) ->
  runs (bind (Rm.touch_lsn p v) f) (s, h) P.
Proof.
  intros Hw Hf. unfold Rm.touch_lsn. rstep.
  eapply step_get_field; [done|unfold off_page_lsn; lia|]. rstep.
  eapply step_set_field; [done|unfold off_page_lsn; lia|]. intros s1 H1. rstep.
  destruct (ps_is_dirty s1 p k _ (wk_inv _ _ _ _ _ _ _ H1) (wk_handle _ _ _ _ _ _ _ H1) (wk_page _ _ _ _ _ _ _ H1))
    as [d Ed].
  eapply step_lift; [exact Ed|]. destruct d; simpl.
  - rstep. eapply Hf; [done|]. intros. apply page_rep_lsn; auto.
  - eapply step_set_field; [done|unfold off_rec_lsn; lia|]. intros s2 H2.
    eapply Hf; [done|]. intros. apply page_rep_lsn; auto. apply page_rep_lsn; auto.
Qed.
End steps.

(** pinning and unpinning *)

Lemma step_fetch {B} s0 k b (f : page_ptr -> Prog Rm.St B) h P :
  ps_inv s0 -> C s0 -> ps_page s0 k b -> ps_pins s0 k = 0 -> 0 < ps_room s0 ->
  (forall p s, wk s0 (ps_npages s0) (ps_room s0 - 1) k p b s -> ps_clean s k -> runs (f p) (s, h) P) ->
  runs (bind (Rm.lift (fetch_page k)) (fun r => bind (deref r) f)) (s0, h) P.
Proof.
  intros Hi Hc Hp Hz Hr Hf. destruct (ps_fetch s0 k b Hi Hp) as (r & s & E & p & -> & H1 & H2 & H3 & H4 & H5 & H6 & H7 & H8 & H9);
    [by right|].
  eapply step_lift; [exact E|]. rstep; [done|]. apply Hf.
  - split; auto.
    + by eapply (fr_fetch _ HC).
    + lia.
    + by rewrite H6, Hz.
  - apply H7. by apply ps_idle_clean.
Qed.

Lemma unpin_runs s0 N R k p b (dirty : bool) s h :
  wk s0 N R k p b s -> (dirty = false -> ps_clean s k) ->
  runs (Rm.lift (unpin_page k dirty)) (s, h) (fun ok t => ok = true /\ exists s', t = (s', h) /\ rest s0 N (R + 1) k b s').
Proof.
  intros Hw Hd. destruct (ps_unpin s k b dirty) as (r & s' & E & -> & H1 & H2 & H3 & H4 & H5 & H6 & H7 & H8 & H9);
    [apply Hw|apply Hw|rewrite (wk_pins _ _ _ _ _ _ _ Hw); lia|intros; by apply Hd|].
  rewrite (wk_pins _ _ _ _ _ _ _ Hw) in *.
  exists true, (s', h). split; [unfold Rm.lift, zoom; simpl; by rewrite E|]. split; [done|]. exists s'. split; [done|]. split; auto.
  - eapply (fr_unpin _ HC); [exact E|apply Hw].
  - eapply others_trans; [apply Hw|done].
  - intros g. rewrite H8. apply Hw.
  - rewrite H5, (wk_room _ _ _ _ _ _ _ Hw). done.
  - intros. by apply H9, Hw.
Qed.

Lemma step_unpin {B} s0 N R k p b (dirty : bool) (f : unit -> Prog Rm.St B) s h P :
  wk s0 N R k p b s -> (dirty = false -> ps_clean s k) ->
  (forall s', rest s0 N (R + 1) k b s' -> runs (f tt) (s', h) P) ->
  runs (bind (Rm.unpin p dirty) f) (s, h) P.
Proof.
  intros Hw Hd Hf. unfold Rm.unpin. rstep. eapply step_page_id; [done|]. rstep.
  eapply runs_bind; [by eapply unpin_runs|]. intros a t (_ & s' & -> & Hr). rstep. by apply Hf.
Qed.

Lemma last_unpin s0 N R k p b (dirty : bool) s h P :
  wk s0 N R k p b s -> (dirty = false -> ps_clean s k) ->
  (forall s', rest s0 N (R + 1) k b s' -> P tt (s', h)) ->
  runs (Rm.unpin p dirty) (s, h) P.
Proof.
  intros Hw Hd Hf. unfold Rm.unpin. eapply step_page_id; [done|].
  eapply runs_bind; [by eapply unpin_runs|]. intros a t (_ & s' & -> & Hr). rstep. by apply Hf.
Qed.

(** ** Operations on a pinned page *)

Section page_ops.
Context (s0 : S) (N : Z -> Z) (R : Z) (k : PageId) (p : page_ptr) (hd : RmFileHdr) (Hhd : hdr_ok hd).

Lemma bit_range j : valid_slot hd j -> in_range (Rm.bitmap_off + Bitmap.get_bucket j) 1 PAGE_SIZE = true.
Proof. intros Hj. pose proof (bitmap_range hd Hhd j Hj). apply in_range_spec. lia. Qed.

Lemma step_bit_is_set {B} b j (f : bool -> Prog Rm.St B) s h P :
  wk s0 N R k p b s -> valid_slot hd j ->
  runs (f (pg_bit j b)) (s, h) P -> runs (bind (Rm.bit_is_set p j) f) (s, h) P.
Proof.
  intros Hw Hj Hf. unfold Rm.bit_is_set. rstep. eapply step_read; [done|by apply bit_range|]. by rstep.
Qed.

Lemma step_bit_set {B} b j (f : unit -> Prog Rm.St B) s h P :
  wk s0 N R k p b s -> valid_slot hd j ->
  (forall s', wk s0 N R k p (splice (Rm.bitmap_off + Bitmap.get_bucket j) [Bitmap.set_byte (pg_byte j b) j] b) s' ->
     runs (f tt) (s', h) P) ->
  runs (bind (Rm.bit_set p j) f) (s, h) P.
Proof.
  intros Hw Hj Hf. unfold Rm.bit_set. rstep. eapply step_read; [done|by apply bit_range|].
  eapply step_write; [done|by apply bit_range|done].
Qed.

Lemma step_bit_reset {B} b j (f : unit -> Prog Rm.St B) s h P :
  wk s0 N R k p b s -> valid_slot hd j ->
  (forall s', wk s0 N R k p (splice (Rm.bitmap_off + Bitmap.get_bucket j) [Bitmap.reset_byte (pg_byte j b) j] b) s' ->
     runs (f tt) (s', h) P) ->
  runs (bind (Rm.bit_reset p j) f) (s, h) P.
Proof.
  intros Hw Hj Hf. unfold Rm.bit_reset. rstep. eapply step_read; [done|by apply bit_range|].
  eapply step_write; [done|by apply bit_range|done].
Qed.

Lemma slot_in_range j (w : list Z) : valid_slot hd j -> zlen w = record_size hd -> in_range (Rm.slot_off hd j) (zlen w) PAGE_SIZE = true.
Proof.
  intros Hj Hw. pose proof (slot_range hd Hhd j Hj). destruct Hhd. apply in_range_spec. lia.
Qed.

Lemma buf_slice (buf : list Z) : record_size hd <= zlen buf -> zlen (slice 0 (record_size hd) buf) = record_size hd.
Proof. intros. destruct Hhd. apply zlen_slice; lia. Qed.

(** filling a slot: the header's free pointer moves on when the page becomes full *)
Lemma step_fill_slot {B} b i buf ap (f : unit -> Prog Rm.St B) s fd P :
  wk s0 N R k p b s -> page_rep hd ap b -> valid_slot hd i -> ap_recs ap !! i = None ->
  record_size hd <= zlen buf ->
  (forall s', let b' := fill_bytes hd i (slice 0 (record_size hd) buf) b in
     wk s0 N R k p b' s' ->
     runs (f tt) (s', mkRmFileHandle fd
       (if Z.of_nat (stdpp.base.size (ap_recs ap)) + 1 =? num_records_per_page hd
        then Rm.set_first_free (ap_next ap) hd else hd)) P) ->
  runs (bind (Rm.fill_slot p i buf) f) (s, mkRmFileHandle fd hd) P.
Proof.
  intros Hw Hrep Hi Hnone Hbuf Hf. pose proof (buf_slice buf Hbuf) as Hlen.
  pose proof (page_rep_fill hd Hhd ap b i _ Hrep Hi Hnone Hlen) as Hrep'.
  unfold Rm.fill_slot, Rm.hdr. rstep. rstep. simpl. rstep.
  eapply step_write; [done|by apply slot_in_range|]. intros s1 H1. rstep.
  eapply step_bit_set; [done|done|]. intros s2 H2. rstep.
  eapply step_get_field; [done|unfold off_num_records; lia|]. rstep.
  eapply step_set_field; [done|unfold off_num_records; lia|]. intros s3 H3. rstep.
  eapply step_get_field; [done|unfold off_num_records; lia|].
  change (pg_field off_num_records) with pg_num in *.
  match type of H3 with wk _ _ _ _ _ ?b3 _ => change b3 with (fill_bytes hd i (slice 0 (record_size hd) buf) b) in * end.
  rewrite (pr_num _ _ _ Hrep'). simpl. rewrite map_size_insert, Hnone.
  replace (Z.of_nat (Datatypes.S (stdpp.base.size (ap_recs ap)))) with (Z.of_nat (stdpp.base.size (ap_recs ap)) + 1) by lia.
  specialize (Hf s3 H3). destruct (_ =? num_records_per_page hd).
  - rstep. eapply step_get_field; [done|unfold off_next_free_page_no; lia|].
    change (pg_field off_next_free_page_no) with pg_next. rewrite (pr_next _ _ _ Hrep').
    unfold Rm.upd_hdr. rstep. exact Hf.
  - rstep. exact Hf.
Qed.

Lemma step_free_slot {B} b i ap (f : unit -> Prog Rm.St B) s fd P :
  wk s0 N R k p b s -> page_rep hd ap b -> is_Some (ap_recs ap !! i) ->
  int32_ok (first_free_page_no hd) ->
  (forall s' b' ap',
     let full := Z.of_nat (stdpp.base.size (ap_recs ap)) =? num_records_per_page hd in
     ap' = mkApage (delete i (ap_recs ap)) (if full then first_free_page_no hd else ap_next ap) ->
     wk s0 N R k p b' s' -> page_rep hd ap' b' ->
     runs (f tt) (s', mkRmFileHandle fd (if full then Rm.set_first_free (page_no k) hd else hd)) P) ->
  runs (bind (Rm.free_slot p (mkRid (page_no k) i)) f) (s, mkRmFileHandle fd hd) P.
Proof.
  intros Hw Hrep Hx Hff Hf. pose proof (page_rep_free hd Hhd ap b i Hrep Hx) as Hrep'.
  destruct Hx as [x Hx]. destruct (pr_slot _ _ _ Hrep i x Hx) as [Hi _].
  unfold Rm.free_slot. simpl rid_slot_no. rstep. eapply step_bit_is_set; [done|done|].
  rewrite (pr_bit _ _ _ Hrep i Hi), bool_decide_true by (by eexists). rstep.
  eapply step_bit_reset; [done|done|]. intros s1 H1. rstep.
  eapply step_get_field; [done|unfold off_num_records; lia|]. rstep.
  eapply step_set_field; [done|unfold off_num_records; lia|]. intros s2 H2. unfold Rm.hdr. rstep. rstep. simpl. rstep.
  eapply step_get_field; [done|unfold off_num_records; lia|].
  change (pg_field off_num_records) with pg_num in *.
  match type of H2 with wk _ _ _ _ _ ?b3 _ => change b3 with (free_bytes i b) in * end.
  rewrite (pr_num _ _ _ Hrep'). simpl. rewrite map_size_delete, Hx. simpl.
  assert (Hpos : (0 < stdpp.base.size (ap_recs ap))%nat).
  { destruct (stdpp.base.size (ap_recs ap)) eqn:E; [|lia]. apply map_size_empty_inv in E. by rewrite E, lookup_empty in Hx. }
  replace (Z.of_nat (Init.Nat.pred (stdpp.base.size (ap_recs ap))) =? num_records_per_page hd - 1)
    with (Z.of_nat (stdpp.base.size (ap_recs ap)) =? num_records_per_page hd).
  2:{ destruct (Z.eqb_spec (Z.of_nat (stdpp.base.size (ap_recs ap))) (num_records_per_page hd)),
        (Z.eqb_spec (Z.of_nat (Init.Nat.pred (stdpp.base.size (ap_recs ap)))) (num_records_per_page hd - 1)); lia. }
  destruct (_ =? num_records_per_page hd) eqn:E.
  - rstep. eapply step_set_field; [done|unfold off_next_free_page_no; lia|]. intros s3 H3.
    unfold Rm.upd_hdr. rstep. simpl. eapply Hf; [done|exact H3|].
    exact (page_rep_next hd Hhd _ (free_bytes i b) (first_free_page_no hd) Hrep' Hff).
  - rstep. by eapply Hf.
Qed.
End page_ops.

(** ** The file *)

Definition rec_at (pages : gmap Z apage) (rid : Rid) : option (list Z) :=
  match pages !! rid_page_no rid with Some ap => ap_recs ap !! rid_slot_no rid | None => None end.

(** the chain of pages with free slots *)
Fixpoint linked (pages : gmap Z apage) (chain : list Z) : Prop :=
  match chain with
  | [] => True
  | a :: l => (exists ap, pages !! a = Some ap /\ ap_next ap = List.hd (-1) l) /\ linked pages l
  end.

Record rep (s : S) (h : RmFileHandle) (pages : gmap Z apage) (chain : list Z) : Prop := {
  rp_inv : ps_inv s;
  rp_ctx : C s;
  rp_hdr : hdr_ok (file_hdr_ h);
  rp_file : ps_file s (fd_ h);
  rp_np : ps_npages s (fd_ h) = num_pages (file_hdr_ h);
  rp_range : 1 <= num_pages (file_hdr_ h) <= 2 ^ 19;
  rp_dom : forall i, is_Some (pages !! i) <-> 1 <= i < num_pages (file_hdr_ h);
  rp_pages : forall i ap, pages !! i = Some ap ->
    exists b, ps_page s (mkPageId (fd_ h) i) b /\ page_rep (file_hdr_ h) ap b /\ ps_pins s (mkPageId (fd_ h) i) = 0;
  rp_first : first_free_page_no (file_hdr_ h) = List.hd (-1) chain;
  rp_nodup : NoDup chain;
  rp_chain : forall i, i ∈ chain <->
    exists ap, pages !! i = Some ap /\ Z.of_nat (stdpp.base.size (ap_recs ap)) < num_records_per_page (file_hdr_ h);
  rp_linked : linked pages chain;
  rp_room : 0 < ps_room s;
}.

Lemma page_rep_hdr hd hd' ap b :
  record_size hd' = record_size hd -> num_records_per_page hd' = num_records_per_page hd ->
  bitmap_size hd' = bitmap_size hd -> page_rep hd ap b -> page_rep hd' ap b.
Proof.
  intros E1 E2 E3 [H1 H2 H3 H4 H5].
  assert (Ev : forall j, valid_slot hd' j <-> valid_slot hd j) by (intros; unfold valid_slot; by rewrite E2).
  split; try done.
  - intros j Hj. by apply H4, Ev.
  - intros j x Hx. destruct (H5 j x Hx). split; [by apply Ev|]. unfold pg_slot, Rm.slot_off in *. by rewrite E1, E3.
Qed.

Lemma hdr_ok_same hd hd' :
  record_size hd' = record_size hd -> num_records_per_page hd' = num_records_per_page hd ->
  bitmap_size hd' = bitmap_size hd -> hdr_ok hd -> hdr_ok hd'.
Proof. intros E1 E2 E3 []. split; by rewrite ?E1, ?E2, ?E3. Qed.

(** the header fields that operations never change *)
Definition same_layout (hd hd' : RmFileHdr) : Prop :=
  record_size hd' = record_size hd /\ num_records_per_page hd' = num_records_per_page hd /\
  bitmap_size hd' = bitmap_size hd /\ num_pages hd' = num_pages hd.

Lemma linked_insert pages i ap chain : i ∉ chain -> linked pages chain -> linked (<[i := ap]> pages) chain.
Proof.
  induction chain as [|a l IH]; [done|]. intros Hni [(ap' & Ha & Hn) Hl]. apply not_elem_of_cons in Hni as [Hne Hni].
  split; [|by apply IH]. exists ap'. split; [|done]. by rewrite lookup_insert_ne.
Qed.

(** replacing one page by another with the same link *)
Lemma linked_same pages i ap ap' chain :
  pages !! i = Some ap -> ap_next ap' = ap_next ap -> linked pages chain -> linked (<[i := ap']> pages) chain.
Proof.
  intros Hi Hn. induction chain as [|a l IH]; [done|]. intros [(x & Ha & Hx) Hl]. split; [|by apply IH].
  destruct (decide (i = a)) as [->|Hne].
  - exists ap'. rewrite lookup_insert_eq. split; [done|]. congruence.
  - exists x. by rewrite lookup_insert_ne.
Qed.

(** one page has changed, and the header with it *)
Lemma rep_update s0 s fd hd hd' pages chain chain' i ap ap' b :
  rep s0 (mkRmFileHandle fd hd) pages chain -> same_layout hd hd' -> pages !! i = Some ap ->
  rest s0 (ps_npages s0) (ps_room s0) (mkPageId fd i) b s -> page_rep hd ap' b ->
  first_free_page_no hd' = List.hd (-1) chain' -> NoDup chain' ->
  (forall j, j ∈ chain' <-> exists q, <[i := ap']> pages !! j = Some q /\
     Z.of_nat (stdpp.base.size (ap_recs q)) < num_records_per_page hd) ->
  linked (<[i := ap']> pages) chain' ->
  rep s (mkRmFileHandle fd hd') (<[i := ap']> pages) chain'.
Proof.
  intros Hrep (L1 & L2 & L3 & L4) Hi Hrest Hp Hff Hnd Hch Hl. destruct Hrep; simpl in *.
  split; simpl; try done; rewrite ?L4.
  - apply Hrest.
  - apply Hrest.
  - by apply (hdr_ok_same hd).
  - by apply (re_file _ _ _ _ _ _ Hrest).
  - by rewrite (re_npages _ _ _ _ _ _ Hrest).
  - done.
  - intros j. rewrite <- rp_dom0. destruct (decide (i = j)) as [<-|].
    + rewrite lookup_insert_eq, Hi. split; by eexists.
    + by rewrite lookup_insert_ne.
  - intros j q. rewrite lookup_insert_Some. intros [[<- <-]|[Hne Hj]].
    + exists b. split_and!; [apply Hrest|by apply (page_rep_hdr hd)|apply Hrest].
    + destruct (rp_pages0 j q Hj) as (c & Hc & Hq & Hz). exists c.
      assert (mkPageId fd j <> mkPageId fd i) by congruence. pose proof (re_others _ _ _ _ _ _ Hrest) as Ho.
      split_and!; [by apply (ot_page _ _ _ _ _ _ _ Ho)|by apply (page_rep_hdr hd)|by rewrite (ot_pins _ _ _ _ _ _ _ Ho)].
  - intros j. rewrite L2. apply Hch.
  - rewrite (re_room _ _ _ _ _ _ Hrest). done.
Qed.

(** nothing has changed but the frames *)
Lemma rep_same s0 s h pages chain i ap b :
  rep s0 h pages chain -> pages !! i = Some ap ->
  rest s0 (ps_npages s0) (ps_room s0) (mkPageId (fd_ h) i) b s -> page_rep (file_hdr_ h) ap b -> rep s h pages chain.
Proof.
  intros Hrep Hi Hrest Hp. destruct h as [fd hd]. rewrite <- (insert_id pages i ap Hi).
  eapply (rep_update s0 s fd hd hd pages chain chain i ap ap b); simpl in *; try done.
  - apply (rp_first _ _ _ _ Hrep).
  - apply (rp_nodup _ _ _ _ Hrep).
  - intros j. rewrite insert_id by done. apply (rp_chain _ _ _ _ Hrep).
  - rewrite insert_id by done. apply (rp_linked _ _ _ _ Hrep).
Qed.

Lemma step_fetch_handle {B} s0 h pages chain i ap (f : page_ptr -> Prog Rm.St B) P :
  rep s0 h pages chain -> pages !! i = Some ap ->
  (forall p b s, wk s0 (ps_npages s0) (ps_room s0 - 1) (mkPageId (fd_ h) i) p b s -> page_rep (file_hdr_ h) ap b ->
     ps_clean s (mkPageId (fd_ h) i) -> runs (f p) (s, h) P) ->
  runs (bind (Rm.fetch_page_handle i) f) (s0, h) P.
Proof.
  intros Hrep Hi Hf. destruct (rp_pages _ _ _ _ Hrep i ap Hi) as (b & Hb & Hr & Hz).
  unfold Rm.fetch_page_handle, Rm.get_fd. rstep. rstep. simpl. rstep.
  apply (step_fetch s0 (mkPageId (fd_ h) i) b); try done; try apply Hrep. eauto.
Qed.

(** ** Reading *)

Lemma get_record_frame s h pages chain rid x :
  rep s h pages chain -> rec_at pages rid = Some x ->
  runs (Rm.get_record rid) (s, h) (fun r t => r = mkRmRecord x (record_size (file_hdr_ h)) /\
    exists s', t = (s', h) /\ rep s' h pages chain /\ ps_room s' = ps_room s).
Proof.
  intros Hrep Hx. unfold rec_at in Hx. destruct (pages !! rid_page_no rid) as [ap|] eqn:Hi; [|done].
  unfold Rm.get_record. eapply step_fetch_handle; [done|done|]. intros p b s1 H1 Hr Hc.
  destruct (pr_slot _ _ _ Hr _ _ Hx) as [Hv Hs]. unfold Rm.hdr. rstep. simpl.
  pose proof (slot_range _ (rp_hdr _ _ _ _ Hrep) _ Hv). pose proof (ho_rs _ (rp_hdr _ _ _ _ Hrep)).
  pose proof (ho_bs _ (rp_hdr _ _ _ _ Hrep)).
  eapply step_read; [done|apply in_range_spec; lia|]. fold (pg_slot (file_hdr_ h) (rid_slot_no rid) b). rewrite Hs.
  eapply step_unpin; [done|done|]. intros s2 Hrest. rstep. split.
  - unfold RmRecord_of. f_equal. subst x. unfold pg_slot.
    rewrite <- (zlen_slice (Rm.slot_off (file_hdr_ h) (rid_slot_no rid)) (record_size (file_hdr_ h)) b) at 1;
      [apply slice_full|lia|lia|rewrite (pr_len _ _ _ Hr); lia].
  - replace (ps_room s - 1 + 1) with (ps_room s) in Hrest by lia. exists s2. split; [done|]. split; [by eapply (rep_same s s2)|apply Hrest].
Qed.

Lemma get_record_spec s h pages chain rid x :
  rep s h pages chain -> rec_at pages rid = Some x ->
  runs (Rm.get_record rid) (s, h) (fun r t => r = mkRmRecord x (record_size (file_hdr_ h)) /\
    exists s', t = (s', h) /\ rep s' h pages chain).
Proof.
  intros Hrep Hx. eapply runs_conseq; [by apply get_record_frame|]. intros r t (-> & s' & -> & H & _). by eauto.
Qed.

Lemma is_record_spec s h pages chain rid :
  rep s h pages chain -> 1 <= rid_page_no rid < num_pages (file_hdr_ h) -> valid_slot (file_hdr_ h) (rid_slot_no rid) ->
  runs (Rm.is_record rid) (s, h) (fun r t => r = bool_decide (is_Some (rec_at pages rid)) /\
    exists s', t = (s', h) /\ rep s' h pages chain).
Proof.
  intros Hrep Hpg Hv. apply (rp_dom _ _ _ _ Hrep) in Hpg as [ap Hi].
  unfold Rm.is_record. eapply step_fetch_handle; [done|done|]. intros p b s1 H1 Hr Hc.
  eapply step_bit_is_set; [apply Hrep|done|done|]. rewrite (pr_bit _ _ _ Hr _ Hv).
  eapply step_unpin; [done|done|]. intros s2 H2. rstep. unfold rec_at. rewrite Hi. split; [done|].
  exists s2. split; [done|]. eapply (rep_same s s2); [done|done| |done].
  by replace (ps_room s) with (ps_room s - 1 + 1) by lia.
Qed.

(** ** Updating and deleting *)

Definition put_rec (rid : Rid) (x : list Z) (pages : gmap Z apage) : gmap Z apage :=
  match pages !! rid_page_no rid with
  | Some ap => <[rid_page_no rid := mkApage (<[rid_slot_no rid := x]> (ap_recs ap)) (ap_next ap)]> pages
  | None => pages
  end.

Lemma rec_at_put pages rid ap w r :
  pages !! rid_page_no rid = Some ap -> rec_at (put_rec rid w pages) r = if decide (r = rid) then Some w else rec_at pages r.
Proof.
  intros Hi. unfold put_rec, rec_at. rewrite Hi. destruct r as [a c], rid as [pn j]. simpl in *. destruct (decide (a = pn)) as [->|Ha].
  - rewrite lookup_insert_eq, Hi. simpl. destruct (decide (c = j)) as [->|Hc].
    + by rewrite lookup_insert_eq, decide_True.
    + rewrite lookup_insert_ne by done. rewrite decide_False; [done|]. congruence.
  - rewrite lookup_insert_ne by done. rewrite decide_False; [done|]. congruence.
Qed.

(** chain membership when the number of records of one page changes *)
Lemma chain_update (pages : gmap Z apage) (chain : list Z) (nrec i : Z) (ap ap' : apage) :
  (forall j, j ∈ chain <-> exists q, pages !! j = Some q /\ Z.of_nat (stdpp.base.size (ap_recs q)) < nrec) ->
  pages !! i = Some ap ->
  forall j, (exists q, <[i := ap']> pages !! j = Some q /\ Z.of_nat (stdpp.base.size (ap_recs q)) < nrec) <->
    (j <> i /\ j ∈ chain) \/ (j = i /\ Z.of_nat (stdpp.base.size (ap_recs ap')) < nrec).
Proof.
  intros Hch Hi j. destruct (decide (j = i)) as [->|Hne].
  - split.
    + intros (q & Hq & Hlt). rewrite lookup_insert_eq in Hq. simplify_eq. auto.
    + intros [[? _]|[_ ?]]; [done|]. exists ap'. by rewrite lookup_insert_eq.
  - rewrite Hch. split.
    + intros (q & Hq & Hlt). rewrite lookup_insert_ne in Hq by done. left. eauto.
    + intros [[_ (q & Hq & Hlt)]|[? _]]; [|done]. exists q. by rewrite lookup_insert_ne.
Qed.

(** another value in a slot that is in use *)
Lemma rep_put s s' h pages chain rid ap x w b :
  rep s h pages chain -> pages !! rid_page_no rid = Some ap -> ap_recs ap !! rid_slot_no rid = Some x ->
  rest s (ps_npages s) (ps_room s) (mkPageId (fd_ h) (rid_page_no rid)) b s' ->
  page_rep (file_hdr_ h) (mkApage (<[rid_slot_no rid := w]> (ap_recs ap)) (ap_next ap)) b -> rep s' h (put_rec rid w pages) chain.
Proof.
  intros Hrep Hi Hx H5 Hr'. unfold put_rec. rewrite Hi. destruct h as [fd hd]. simpl in *.
  assert (Hsz : stdpp.base.size (<[rid_slot_no rid := w]> (ap_recs ap)) = stdpp.base.size (ap_recs ap))
    by (rewrite map_size_insert, Hx; done).
  eapply (rep_update s s' fd hd hd pages chain chain); try done; [apply (rp_first _ _ _ _ Hrep)|apply (rp_nodup _ _ _ _ Hrep)| |].
  - intros j. rewrite (chain_update pages chain _ _ ap) by (done || apply (rp_chain _ _ _ _ Hrep)). simpl. rewrite Hsz.
    pose proof (rp_chain _ _ _ _ Hrep j) as Hj. simpl in Hj.
    destruct (decide (j = rid_page_no rid)) as [->|]; [|intuition]. rewrite Hj. split.
    + intros (q & Hq & ?). right. by simplify_eq.
    + intros [[? _]|[_ ?]]; [done|]. by exists ap.
  - apply (linked_same _ _ ap); [done|done|apply Hrep].
Qed.

Lemma update_record_spec s h pages chain c rid x buf :
  rep s h pages chain -> quietly C (ctx_get_so_far_lsn c) (fun _ => True) -> rec_at pages rid = Some x -> record_size (file_hdr_ h) <= zlen buf ->
  runs (Rm.update_record (Some c) rid buf) (s, h) (fun _ t => exists s', t = (s', h) /\
    rep s' h (put_rec rid (slice 0 (record_size (file_hdr_ h)) buf) pages) chain).
Proof.
  intros Hrep Hctx Hx Hbuf. unfold rec_at in Hx. unfold put_rec. destruct (pages !! rid_page_no rid) as [ap|] eqn:Hi; [|done].
  unfold Rm.update_record. eapply step_fetch_handle; [done|done|]. intros p b s1 H1 Hr _. rstep; [done|].
  eapply step_quiet; [apply Hctx|done|]. intros lsn s2 _ H2.
  eapply step_touch_lsn; [done|]. intros b2 s3 H3 Hr2. apply Hr2 in Hr; [|apply Hrep]. clear Hr2.
  destruct (pr_slot _ _ _ Hr _ _ Hx) as [Hv _].
  eapply step_bit_is_set; [apply Hrep|done|done|].
  rewrite (pr_bit _ _ _ Hr _ Hv), bool_decide_true by (by eexists). unfold Rm.hdr. rstep. rstep. simpl.
  pose proof (buf_slice _ (rp_hdr _ _ _ _ Hrep) buf Hbuf) as Hlen.
  eapply step_write; [done|by apply slot_in_range; [apply Hrep|done|done]|]. intros s4 H4.
  eapply last_unpin; [done|done|]. intros s5 H5. exists s5. split; [done|].
  replace (ps_room s - 1 + 1) with (ps_room s) in H5 by lia.
  pose proof (fun w => rep_put s s5 h pages chain rid ap x w _ Hrep Hi Hx H5) as Hfin. unfold put_rec in Hfin. rewrite Hi in Hfin. apply Hfin.
  by apply (page_rep_update _ (rp_hdr _ _ _ _ Hrep) ap b2 _ _ Hr (mk_is_Some _ _ Hx) Hlen).
Qed.

Definition del_rec (hd : RmFileHdr) (rid : Rid) (pages : gmap Z apage) : gmap Z apage :=
  match pages !! rid_page_no rid with
  | Some ap =>
      <[rid_page_no rid := mkApage (delete (rid_slot_no rid) (ap_recs ap))
          (if Z.of_nat (stdpp.base.size (ap_recs ap)) =? num_records_per_page hd then first_free_page_no hd else ap_next ap)]> pages
  | None => pages
  end.

Lemma rec_at_del hd rid pages x r :
  rec_at pages rid = Some x -> rec_at (del_rec hd rid pages) r = if decide (r = rid) then None else rec_at pages r.
Proof.
  unfold rec_at, del_rec. destruct (pages !! rid_page_no rid) as [ap|] eqn:Hi; [|done]. intros _.
  destruct r as [a b], rid as [pn sn]. simpl in *. destruct (decide (a = pn)) as [->|Ha].
  - rewrite lookup_insert_eq, Hi. simpl. destruct (decide (b = sn)) as [->|Hb].
    + by rewrite lookup_delete_eq, decide_True.
    + rewrite lookup_delete_ne by done. rewrite decide_False; [done|]. congruence.
  - rewrite lookup_insert_ne by done. rewrite decide_False; [done|]. congruence.
Qed.

(** the header and the chain after a deletion *)
Definition del_full (hd : RmFileHdr) (rid : Rid) (pages : gmap Z apage) : bool :=
  match pages !! rid_page_no rid with
  | Some ap => Z.of_nat (stdpp.base.size (ap_recs ap)) =? num_records_per_page hd
  | None => false
  end.
Definition del_hdr (hd : RmFileHdr) (rid : Rid) (pages : gmap Z apage) : RmFileHdr :=
  if del_full hd rid pages then Rm.set_first_free (rid_page_no rid) hd else hd.
Definition del_chain (hd : RmFileHdr) (rid : Rid) (pages : gmap Z apage) (chain : list Z) : list Z :=
  if del_full hd rid pages then rid_page_no rid :: chain else chain.

Lemma first_free_int32 s h pages chain : rep s h pages chain -> int32_ok (first_free_page_no (file_hdr_ h)).
Proof.
  intros Hrep. rewrite (rp_first _ _ _ _ Hrep). unfold int32_ok. destruct chain as [|a l]; simpl; [lia|].
  assert (a ∈ a :: l) as Ha by constructor. apply (rp_chain _ _ _ _ Hrep) in Ha as (ap & Ha & _).
  assert (1 <= a < num_pages (file_hdr_ h)) by (apply (rp_dom _ _ _ _ Hrep); by eexists).
  pose proof (rp_range _ _ _ _ Hrep). lia.
Qed.

(** the abstract file after a deletion, given the page left at rest *)
Lemma rep_delete s0 s fd hd pages chain rid ap x b :
  rep s0 (mkRmFileHandle fd hd) pages chain -> pages !! rid_page_no rid = Some ap ->
  ap_recs ap !! rid_slot_no rid = Some x ->
  rest s0 (ps_npages s0) (ps_room s0) (mkPageId fd (rid_page_no rid)) b s ->
  page_rep hd (mkApage (delete (rid_slot_no rid) (ap_recs ap))
    (if Z.of_nat (stdpp.base.size (ap_recs ap)) =? num_records_per_page hd then first_free_page_no hd else ap_next ap)) b ->
  rep s (mkRmFileHandle fd (del_hdr hd rid pages)) (del_rec hd rid pages) (del_chain hd rid pages chain).
Proof.
  intros Hrep Hi Hx Hrest Hp. unfold del_hdr, del_rec, del_chain, del_full. rewrite Hi.
  pose proof (rp_chain _ _ _ _ Hrep) as Hch. pose proof (rp_first _ _ _ _ Hrep) as Hff. simpl in *.
  assert (Hpos : (0 < stdpp.base.size (ap_recs ap))%nat).
  { destruct (stdpp.base.size (ap_recs ap)) eqn:E; [|lia]. apply map_size_empty_inv in E. by rewrite E, lookup_empty in Hx. }
  assert (Hsz : Z.of_nat (stdpp.base.size (delete (rid_slot_no rid) (ap_recs ap))) = Z.of_nat (stdpp.base.size (ap_recs ap)) - 1)
    by (rewrite map_size_delete, Hx; simpl; lia).
  destruct (rp_pages _ _ _ _ Hrep _ _ Hi) as (b0 & _ & Hr0 & _).
  pose proof (size_bound hd (rp_hdr _ _ _ _ Hrep) ap b0 Hr0) as Hbound.
  destruct (Z.eqb_spec (Z.of_nat (stdpp.base.size (ap_recs ap))) (num_records_per_page hd)) as [E|E].
  - assert (Hni : rid_page_no rid ∉ chain) by (rewrite Hch; intros (q & Hq & ?); simplify_eq; lia).
    eapply (rep_update s0 s fd hd); try done; [apply NoDup_cons; split; [done|apply (rp_nodup _ _ _ _ Hrep)]| |].
    + intros j. rewrite (chain_update pages chain _ _ ap) by done. simpl. rewrite elem_of_cons, Hsz.
      destruct (decide (j = rid_page_no rid)) as [->|]; [|intuition]. split; [|by left]. right. split; [done|lia].
    + split; [|by apply linked_insert; [|apply Hrep]]. eexists. by rewrite lookup_insert_eq.
  - eapply (rep_update s0 s fd hd hd); try done; [apply (rp_nodup _ _ _ _ Hrep)| |].
    + intros j. rewrite (chain_update pages chain _ _ ap) by done. simpl. rewrite Hsz.
      destruct (decide (j = rid_page_no rid)) as [->|]; [|intuition]. rewrite Hch. split.
      * intros _. right. split; [done|lia].
      * intros _. exists ap. split; [done|lia].
    + apply (linked_same _ _ ap); [done|done|apply Hrep].
Qed.

Lemma delete_record_spec s h pages chain c rid x :
  rep s h pages chain -> quietly C (ctx_get_so_far_lsn c) (fun _ => True) -> rec_at pages rid = Some x ->
  runs (Rm.delete_record (Some c) rid) (s, h) (fun _ t => exists s',
    t = (s', mkRmFileHandle (fd_ h) (del_hdr (file_hdr_ h) rid pages)) /\
    rep s' t.2 (del_rec (file_hdr_ h) rid pages) (del_chain (file_hdr_ h) rid pages chain)).
Proof.
  intros Hrep Hctx Hx. unfold rec_at in Hx. destruct (pages !! rid_page_no rid) as [ap|] eqn:Hi; [|done].
  unfold Rm.delete_record. eapply step_fetch_handle; [done|done|]. intros p b s1 H1 Hr _. rstep; [done|].
  eapply step_quiet; [apply Hctx|done|]. intros lsn s2 _ H2.
  eapply step_touch_lsn; [done|]. intros b2 s3 H3 Hr2. apply Hr2 in Hr; [|apply Hrep]. clear Hr2.
  pose proof (first_free_int32 _ _ _ _ Hrep) as Hff. destruct h as [fd hd], rid as [pn sn]. simpl in *.
  eapply (step_free_slot s (ps_npages s) (ps_room s - 1) (mkPageId fd pn) p hd (rp_hdr _ _ _ _ Hrep) b2 sn ap); [done|done|by eexists|done|].
  intros s4 b4 ap' full -> H4 Hr4. subst full. eapply last_unpin; [done|done|]. intros s5 H5. exists s5.
  replace (ps_room s - 1 + 1) with (ps_room s) in H5 by lia.
  split; [unfold del_hdr, del_full; simpl; by rewrite Hi|]. simpl.
  pose proof (rep_delete s s5 fd hd pages chain (mkRid pn sn) ap x b4 Hrep Hi Hx H5 Hr4) as Hfin.
  unfold del_hdr, del_full in Hfin. simpl in Hfin. by rewrite Hi in Hfin.
Qed.

Lemma delete_record_at_spec s h pages chain rid x :
  rep s h pages chain -> rec_at pages rid = Some x ->
  runs (Rm.delete_record_at rid) (s, h) (fun _ t => exists s',
    t = (s', mkRmFileHandle (fd_ h) (del_hdr (file_hdr_ h) rid pages)) /\
    rep s' t.2 (del_rec (file_hdr_ h) rid pages) (del_chain (file_hdr_ h) rid pages chain)).
Proof.
  intros Hrep Hx. unfold rec_at in Hx. destruct (pages !! rid_page_no rid) as [ap|] eqn:Hi; [|done].
  unfold Rm.delete_record_at. eapply step_fetch_handle; [done|done|]. intros p b s1 H1 Hr _.
  pose proof (first_free_int32 _ _ _ _ Hrep) as Hff. destruct h as [fd hd], rid as [pn sn]. simpl in *.
  eapply (step_free_slot s (ps_npages s) (ps_room s - 1) (mkPageId fd pn) p hd (rp_hdr _ _ _ _ Hrep) b sn ap);
    [done|done|by eexists|done|].
  intros s4 b4 ap' full -> H4 Hr4. subst full. eapply last_unpin; [done|done|]. intros s5 H5. exists s5.
  replace (ps_room s - 1 + 1) with (ps_room s) in H5 by lia.
  split; [unfold del_hdr, del_full; simpl; by rewrite Hi|]. simpl.
  pose proof (rep_delete s s5 fd hd pages chain (mkRid pn sn) ap x b4 Hrep Hi Hx H5 Hr4) as Hfin.
  unfold del_hdr, del_full in Hfin. simpl in Hfin. by rewrite Hi in Hfin.
Qed.

(** ** Inserting *)

(** a page that is not full has a free slot *)
Lemma free_slot_exists hd ap :
  hdr_ok hd -> Z.of_nat (stdpp.base.size (ap_recs ap)) < num_records_per_page hd ->
  exists j, valid_slot hd j /\ ap_recs ap !! j = None.
Proof.
  intros Hhd Hlt. set (l := Z.of_nat <$> seq 0 (Z.to_nat (num_records_per_page hd))).
  destruct (decide (Exists (fun j => ap_recs ap !! j = None) l)) as [He|Hn].
  - apply Exists_exists in He as (j & Hj & Hnone). exists j. split; [|done].
    apply list_elem_of_fmap in Hj as (n & -> & Hn). apply elem_of_seq in Hn. unfold valid_slot. lia.
  - exfalso. assert (Hsub : list_to_set l ⊆ dom (ap_recs ap)).
    { intros j Hj%elem_of_list_to_set. apply elem_of_dom. destruct (ap_recs ap !! j) eqn:E; [by eexists|].
      exfalso. apply Hn, Exists_exists. eauto. }
    apply subseteq_size in Hsub. rewrite size_dom in Hsub.
    rewrite size_list_to_set in Hsub by (apply NoDup_fmap_2; [intros ???; lia|apply NoDup_seq]).
    unfold l in Hsub. rewrite length_fmap, length_seq in Hsub. destruct Hhd. lia.
Qed.

(** the page after an insertion, and the header *)
Definition ins_hdr (hd : RmFileHdr) (ap : apage) : RmFileHdr :=
  if Z.of_nat (stdpp.base.size (ap_recs ap)) + 1 =? num_records_per_page hd
  then Rm.set_first_free (ap_next ap) hd else hd.

(** inserting into the page at the head of the chain *)
Lemma rep_insert s0 s fd hd pages pn rest_chain ap j w b :
  rep s0 (mkRmFileHandle fd hd) pages (pn :: rest_chain) -> pages !! pn = Some ap ->
  ap_recs ap !! j = None -> rest s0 (ps_npages s0) (ps_room s0) (mkPageId fd pn) b s ->
  page_rep hd (mkApage (<[j := w]> (ap_recs ap)) (ap_next ap)) b ->
  rep s (mkRmFileHandle fd (ins_hdr hd ap)) (put_rec (mkRid pn j) w pages)
    (if Z.of_nat (stdpp.base.size (ap_recs ap)) + 1 =? num_records_per_page hd then rest_chain else pn :: rest_chain).
Proof.
  intros Hrep Hi Hnone Hrest Hp. unfold put_rec, ins_hdr. simpl. rewrite Hi.
  pose proof (rp_chain _ _ _ _ Hrep) as Hch. pose proof (rp_first _ _ _ _ Hrep) as Hff. simpl in *.
  destruct (rp_linked _ _ _ _ Hrep) as [(ap0 & Hi0 & Hnext) Hlink]. assert (ap0 = ap) as -> by congruence.
  pose proof (rp_nodup _ _ _ _ Hrep) as Hnd. apply NoDup_cons in Hnd as [Hni Hnd].
  assert (Hlt : Z.of_nat (stdpp.base.size (ap_recs ap)) < num_records_per_page hd).
  { assert (pn ∈ pn :: rest_chain) as Hin by constructor. apply Hch in Hin as (q & Hq & ?). congruence. }
  assert (Hsz : Z.of_nat (stdpp.base.size (<[j := w]> (ap_recs ap))) = Z.of_nat (stdpp.base.size (ap_recs ap)) + 1)
    by (rewrite map_size_insert, Hnone; simpl; lia).
  destruct (Z.eqb_spec (Z.of_nat (stdpp.base.size (ap_recs ap)) + 1) (num_records_per_page hd)) as [E|E].
  - eapply (rep_update s0 s fd hd); try done.
    + intros i. rewrite (chain_update pages (pn :: rest_chain) _ _ ap) by done. simpl. rewrite Hsz, elem_of_cons.
      split; [|intros [[? [?|?]]|[_ ?]]; [done|done|lia]]. intros Hin. left. split; [|by right]. by intros ->.
    + by apply linked_insert.
  - eapply (rep_update s0 s fd hd hd); try done; [apply (rp_nodup _ _ _ _ Hrep)| |].
    + intros i. rewrite (chain_update pages (pn :: rest_chain) _ _ ap) by done. simpl. rewrite Hsz, elem_of_cons.
      destruct (decide (i = pn)) as [->|]; [|intuition]. split; [|by left]. right. split; [done|lia].
    + apply (linked_same _ _ ap); [done|done|apply Hrep].
Qed.

(** a file whose pages are all full gets a new page, holding the record *)
Lemma rep_extend s0 s fd hd pages j w b :
  rep s0 (mkRmFileHandle fd hd) pages [] -> num_pages hd < 2 ^ 19 -> valid_slot hd j -> zlen w = record_size hd ->
  let np := num_pages hd in
  let hd1 := Rm.set_first_free np (Rm.set_num_pages (np + 1) hd) in
  rest s0 (fun h => if decide (h = fd) then np + 1 else ps_npages s0 h) (ps_room s0) (mkPageId fd np) b s ->
  page_rep hd (mkApage {[j := w]} (-1)) b ->
  rep s (mkRmFileHandle fd (ins_hdr hd1 (mkApage ∅ (-1)))) (<[np := mkApage {[j := w]} (-1)]> pages)
    (if 1 =? num_records_per_page hd then [] else [np]).
Proof.
  intros Hrep Hlt Hj Hw np hd1 Hrest Hp. pose proof (rp_chain _ _ _ _ Hrep) as Hch. simpl in Hch.
  assert (Hnp : pages !! np = None).
  { apply eq_None_not_Some. intros Hs%(rp_dom _ _ _ _ Hrep). unfold np in Hs. simpl in Hs. lia. }
  pose proof (rp_range _ _ _ _ Hrep) as Hrange. simpl in Hrange.
  assert (Hlay : same_layout hd1 (ins_hdr hd1 (mkApage ∅ (-1)))) by (unfold ins_hdr; by destruct (_ =? _)).
  destruct Hlay as (L1 & L2 & L3 & L4).
  assert (Hsz : Z.of_nat (stdpp.base.size ({[j := w]} : gmap Z (list Z))) = 1) by (by rewrite map_size_singleton).
  split; cbn [fd_ file_hdr_]; rewrite ?L4; change (num_pages hd1) with (np + 1).
  - apply Hrest.
  - apply Hrest.
  - apply (hdr_ok_same hd); [by rewrite L1|by rewrite L2|by rewrite L3|apply Hrep].
  - apply (re_file _ _ _ _ _ _ Hrest), (rp_file _ _ _ _ Hrep).
  - rewrite (re_npages _ _ _ _ _ _ Hrest). by destruct (decide (fd = fd)).
  - unfold np. lia.
  - intros i. pose proof (rp_dom _ _ _ _ Hrep i) as Hd. simpl in Hd. destruct (decide (np = i)) as [<-|Hne].
    + rewrite lookup_insert_eq. split; [unfold np; lia|by eexists].
    + rewrite lookup_insert_ne by done. rewrite Hd. unfold np in *. lia.
  - intros i ap. rewrite lookup_insert_Some. intros [[<- <-]|[Hne Hi]].
    + exists b. split_and!; [apply Hrest|by apply (page_rep_hdr hd)|apply (re_pins _ _ _ _ _ _ Hrest)].
    + destruct (rp_pages _ _ _ _ Hrep i ap Hi) as (c & Hc & Hq & Hz). exists c. simpl in *.
      assert (mkPageId fd i <> mkPageId fd np) by congruence. pose proof (re_others _ _ _ _ _ _ Hrest) as Ho.
      split_and!; [by apply (ot_page _ _ _ _ _ _ _ Ho)|by apply (page_rep_hdr hd)|by rewrite (ot_pins _ _ _ _ _ _ _ Ho)].
  - unfold ins_hdr. cbn [ap_recs ap_next]. rewrite map_size_empty. change (Z.of_nat 0 + 1) with 1.
    change (num_records_per_page hd1) with (num_records_per_page hd). by destruct (1 =? num_records_per_page hd).
  - destruct (1 =? num_records_per_page hd); [constructor|apply NoDup_singleton].
  - intros i. rewrite L2. change (num_records_per_page hd1) with (num_records_per_page hd).
    destruct (Z.eqb_spec 1 (num_records_per_page hd)) as [E|E].
    + split; [by intros ?%elem_of_nil|]. intros (q & Hq & Hs). apply lookup_insert_Some in Hq as [[<- <-]|[_ Hq]].
      * cbn [ap_recs] in Hs. lia.
      * exfalso. apply (not_elem_of_nil i), Hch. eauto.
    + rewrite list_elem_of_singleton. split.
      * intros ->. eexists. rewrite lookup_insert_eq. split; [done|]. cbn [ap_recs].
        pose proof (ho_n _ (rp_hdr _ _ _ _ Hrep)) as Hn1. cbn [file_hdr_] in Hn1. lia.
      * intros (q & Hq & Hs). apply lookup_insert_Some in Hq as [[<- <-]|[_ Hq]]; [done|].
        exfalso. apply (not_elem_of_nil i), Hch. eauto.
  - destruct (1 =? num_records_per_page hd); [done|]. split; [|done]. eexists. by rewrite lookup_insert_eq.
  - rewrite (re_room _ _ _ _ _ _ Hrest). apply Hrep.
Qed.

(** the page as [fetch_free_page_handle] initialises it *)
Definition fresh_bytes : list Z :=
  splice off_rec_lsn (enc_i32 (-1)) (splice off_page_lsn (enc_i32 (-1))
    (splice off_num_records (enc_i32 0) (splice off_next_free_page_no (enc_i32 (-1)) (zeros PAGE_SIZE)))).

Lemma fresh_page_rep hd : hdr_ok hd -> page_rep hd (mkApage ∅ (-1)) fresh_bytes.
Proof.
  intros Hhd. apply page_rep_lsn; [done| |by right]. apply page_rep_lsn; [done| |by left].
  set (b1 := splice off_next_free_page_no (enc_i32 (-1)) (zeros PAGE_SIZE)).
  assert (L0 : zlen (zeros PAGE_SIZE) = PAGE_SIZE) by (by apply zlen_zeros).
  assert (L1 : zlen b1 = PAGE_SIZE) by (apply (zlen_header_write hd); [done|unfold off_next_free_page_no; lia]).
  apply page_rep_fresh.
  - apply (zlen_header_write hd); [done|unfold off_num_records; lia].
  - apply (header_field_same hd); [done|unfold off_num_records; lia|unfold int32_ok; lia].
  - unfold pg_next. rewrite (header_field_other hd) by (unfold off_num_records, off_next_free_page_no; done || lia).
    apply (header_field_same hd); [done|unfold off_next_free_page_no; lia|unfold int32_ok; lia].
  - intros j Hj. unfold pg_bit. rewrite (header_keeps_bits hd) by (unfold off_num_records; done || lia).
    unfold b1. rewrite (header_keeps_bits hd) by (unfold off_next_free_page_no; done || lia).
    pose proof (bitmap_range hd Hhd j Hj) as [[Hlo Hhi] Hsz].
    assert (pg_byte j (zeros PAGE_SIZE) = 0) as ->.
    { unfold pg_byte. destruct (slice _ 1 (zeros PAGE_SIZE)) as [|x l] eqn:E; [done|]. simpl.
      assert (Hx : slice (Rm.bitmap_off + Bitmap.get_bucket j) 1 (zeros PAGE_SIZE) !! 0%nat = Some x) by (by rewrite E).
      rewrite lookup_slice in Hx by lia. rewrite decide_True in Hx by lia.
      unfold zeros in Hx. by apply lookup_replicate in Hx as [? _]. }
    rewrite Bitmap.test_byte_testbit by apply Hj. apply Z.bits_0.
Qed.

Definition inserted (h : RmFileHandle) (pages pages' : gmap Z apage) (rid : Rid) (w : list Z) : Prop :=
  rec_at pages rid = None /\ (forall r, rec_at pages' r = if decide (r = rid) then Some w else rec_at pages r).

Lemma put_rec_inserted h pages pn ap j w :
  pages !! pn = Some ap -> ap_recs ap !! j = None -> inserted h pages (put_rec (mkRid pn j) w pages) (mkRid pn j) w.
Proof.
  intros Hi Hj. split; [unfold rec_at; simpl; by rewrite Hi|]. intros r. by apply (rec_at_put pages (mkRid pn j) ap).
Qed.

(** [fetch_free_page_handle] when some page has a free slot, and when none has *)
Lemma step_free_page {B} s fd hd pages pn chain ap (f : page_ptr -> Prog Rm.St B) P :
  rep s (mkRmFileHandle fd hd) pages (pn :: chain) -> pages !! pn = Some ap ->
  (forall p b s1, wk s (ps_npages s) (ps_room s - 1) (mkPageId fd pn) p b s1 -> page_rep hd ap b ->
     runs (f p) (s1, mkRmFileHandle fd hd) P) ->
  runs (bind Rm.fetch_free_page_handle f) (s, mkRmFileHandle fd hd) P.
Proof.
  intros Hrep Hi Hf. unfold Rm.fetch_free_page_handle, Rm.hdr, Rm.get_fd.
  pose proof (rp_first _ _ _ _ Hrep) as Hff. simpl in Hff. rstep. rstep. rstep. rstep. simpl. rewrite Hff.
  assert (Hpn : 1 <= pn < num_pages hd) by (apply (rp_dom _ _ _ _ Hrep); by eexists).
  destruct (Z.eqb_spec pn (-1)); [lia|]. rstep.
  destruct (rp_pages _ _ _ _ Hrep pn ap Hi) as (b & Hb & Hr & Hz). simpl in *.
  destruct (ps_fetch s (mkPageId fd pn) b) as (r & s1 & E & p & -> & H1 & H2 & H3 & H4 & H5 & H6 & H7 & H8 & H9);
    [apply Hrep|done|right; apply Hrep|].
  eapply step_lift; [exact E|]. cbv beta iota. rstep. rewrite Hz in *. eapply Hf; [|exact Hr].
  split; try done. eapply (fr_fetch _ HC); [exact E|apply Hrep].
Qed.

Lemma step_new_page {B} s fd hd pages (f : page_ptr -> Prog Rm.St B) P :
  rep s (mkRmFileHandle fd hd) pages [] -> num_pages hd < 2 ^ 19 ->
  (forall p s1, wk s (fun h => if decide (h = fd) then num_pages hd + 1 else ps_npages s h) (ps_room s - 1)
       (mkPageId fd (num_pages hd)) p fresh_bytes s1 ->
     runs (f p) (s1, mkRmFileHandle fd (Rm.set_first_free (num_pages hd) (Rm.set_num_pages (num_pages hd + 1) hd))) P) ->
  runs (bind Rm.fetch_free_page_handle f) (s, mkRmFileHandle fd hd) P.
Proof.
  intros Hrep Hnew Hf. unfold Rm.fetch_free_page_handle, Rm.hdr, Rm.get_fd.
  pose proof (rp_first _ _ _ _ Hrep) as Hff. simpl in Hff. rstep. rstep. rstep. rstep. simpl. rewrite Hff. simpl.
  pose proof (rp_np _ _ _ _ Hrep) as Hnp. pose proof (rp_range _ _ _ _ Hrep) as Hrange. simpl in *. rstep.
  destruct (ps_new s fd) as (r & s1 & E & p & -> & H1 & H2 & H3 & H4 & H5 & H6 & H7 & H8);
    [apply Hrep|apply (rp_file _ _ _ _ Hrep)|lia|apply Hrep|]. rewrite Hnp in *.
  eapply step_lift; [exact E|]. simpl. rstep.
  assert (Hw : wk s (fun h => if decide (h = fd) then num_pages hd + 1 else ps_npages s h) (ps_room s - 1)
    (mkPageId fd (num_pages hd)) p (zeros PAGE_SIZE) s1).
  { split; try done. eapply (fr_new _ HC); [exact E|apply Hrep]. }
  eapply step_set_field; [done|unfold off_next_free_page_no; lia|]. intros s2 W2. rstep.
  eapply step_set_field; [done|unfold off_num_records; lia|]. intros s3 W3. rstep.
  eapply step_set_field; [done|unfold off_page_lsn; lia|]. intros s4 W4. rstep.
  eapply step_set_field; [done|unfold off_rec_lsn; lia|]. intros s5 W5.
  unfold Rm.upd_hdr. rstep. rstep. rstep. rstep. rstep. by apply Hf.
Qed.

Lemma extended_inserted h pages np j w :
  pages !! np = None -> inserted h pages (<[np := mkApage {[j := w]} (-1)]> pages) (mkRid np j) w.
Proof.
  intros Hnone. unfold inserted, rec_at. simpl. rewrite Hnone. split; [done|]. intros [a c]. simpl.
  destruct (decide (a = np)) as [->|Ha].
  - rewrite lookup_insert_eq, Hnone. simpl. destruct (decide (c = j)) as [->|Hc].
    + by rewrite lookup_singleton_eq, decide_True.
    + rewrite lookup_singleton_ne by done. rewrite decide_False; [done|]. congruence.
  - rewrite lookup_insert_ne by done. rewrite decide_False; [done|]. congruence.
Qed.

(** ** Scanning *)

(** the order of a scan *)
Definition rid_le (i j : Z) (r : Rid) : Prop :=
  i < rid_page_no r \/ (i = rid_page_no r /\ j <= rid_slot_no r).

Definition has_rec (pages : gmap Z apage) (r : Rid) : Prop := is_Some (rec_at pages r).

Definition rid_end : Rid := mkRid INVALID_PAGE_ID (-1).

(** [r] is the first record at or after slot [j] of page [i], or the end mark *)
Definition first_from (pages : gmap Z apage) (i j : Z) (r : Rid) : Prop :=
  (r = rid_end /\ forall q, has_rec pages q -> ~ rid_le i j q) \/
  (has_rec pages r /\ rid_le i j r /\ forall q, has_rec pages q -> rid_le i j q -> rid_le (rid_page_no r) (rid_slot_no r) q).

Lemma has_rec_bounds s h pages chain r :
  rep s h pages chain -> has_rec pages r ->
  1 <= rid_page_no r < num_pages (file_hdr_ h) /\ valid_slot (file_hdr_ h) (rid_slot_no r).
Proof.
  intros Hrep [x Hx]. unfold rec_at in Hx. destruct (pages !! rid_page_no r) as [ap|] eqn:Hi; [|done].
  split; [apply (rp_dom _ _ _ _ Hrep); by eexists|].
  destruct (rp_pages _ _ _ _ Hrep _ _ Hi) as (b & _ & Hr & _). by destruct (pr_slot _ _ _ Hr _ _ Hx).
Qed.

Lemma scan_page_runs s0 N R k p b hd ap fd n : forall j s,
  hdr_ok hd -> wk s0 N R k p b s -> page_rep hd ap b -> 0 <= j -> j + Z.of_nat n = num_records_per_page hd \/ n = 0%nat ->
  runs (Rm.scan_page p j n) (s, mkRmFileHandle fd hd) (fun r t => t = (s, mkRmFileHandle fd hd) /\
    match r with
    | Some i => j <= i < j + Z.of_nat n /\ is_Some (ap_recs ap !! i) /\ forall q, j <= q < i -> ap_recs ap !! q = None
    | None => forall q, j <= q < j + Z.of_nat n -> ap_recs ap !! q = None
    end).
Proof.
  induction n as [|n IH]; intros j s Hhd Hw Hr Hj Hn; cbn [Rm.scan_page].
  - rstep. split; [done|]. intros; lia.
  - assert (Hv : valid_slot hd j) by (unfold valid_slot; lia).
    eapply step_bit_is_set; [done|done|done|]. rewrite (pr_bit _ _ _ Hr j Hv). case_bool_decide as Hu.
    + rstep. split; [done|]. split; [lia|]. split; [done|]. intros; lia.
    + apply eq_None_not_Some in Hu. eapply runs_conseq; [apply (IH (j + 1)); try done; lia|].
      intros [i|] t [-> Hi]; (split; [done|]).
      * destruct Hi as (H1 & H2 & H3). split; [lia|]. split; [done|]. intros q Hq.
        destruct (decide (q = j)) as [->|]; [done|]. apply H3. lia.
      * intros q Hq. destruct (decide (q = j)) as [->|]; [done|]. apply Hi. lia.
Qed.

Lemma scan_pages_runs h pages chain n : forall i j s,
  rep s h pages chain -> 1 <= i -> 0 <= j -> i + Z.of_nat n = num_pages (file_hdr_ h) \/ (num_pages (file_hdr_ h) <= i /\ n = 0%nat) ->
  runs (Rm.scan_pages i j n) (s, h) (fun r t => exists s', t = (s', h) /\ rep s' h pages chain /\ first_from pages i j r).
Proof.
  induction n as [|n IH]; intros i j s Hrep Hi Hj Hn; cbn [Rm.scan_pages].
  - rstep. exists s. split; [done|]. split; [done|]. left. split; [done|]. intros q Hq Hle.
    apply (has_rec_bounds s h pages chain) in Hq as [? _]; [|done]. unfold rid_le in Hle. lia.
  - assert (exists ap, pages !! i = Some ap) as [ap Hp] by (apply (rp_dom _ _ _ _ Hrep); lia).
    eapply step_fetch_handle; [done|done|]. intros p b s1 H1 Hr Hc. unfold Rm.hdr. rstep. simpl.
    destruct h as [fd hd]. simpl in *. set (m := Z.to_nat (num_records_per_page hd - j)).
    assert (Hm : j + Z.of_nat m = num_records_per_page hd \/ (m = 0%nat /\ num_records_per_page hd <= j)) by lia.
    eapply runs_bind.
    { eapply (scan_page_runs s _ _ (mkPageId fd i) p b hd ap fd m j); [apply Hrep|done|done|done|lia]. }
    intros r t [-> Hres]. pose proof (rp_hdr _ _ _ _ Hrep) as Hhd. simpl in Hhd.
    assert (Hback : forall s2, rest s (ps_npages s) (ps_room s - 1 + 1) (mkPageId fd i) b s2 -> rep s2 (mkRmFileHandle fd hd) pages chain).
    { intros s2 H2. eapply (rep_same s s2); [done|done| |done]. by replace (ps_room s) with (ps_room s - 1 + 1) by lia. }
    destruct r as [i'|].
    + destruct Hres as (Hri & [x Hx] & Hmin). eapply step_unpin; [done|done|]. intros s2 H2. rstep.
      exists s2. split; [done|]. split; [by apply Hback|]. right.
      assert (Hrec : rec_at pages (mkRid i i') = Some x) by (unfold rec_at; simpl; by rewrite Hp).
      split; [by exists x|]. split; [right; simpl; lia|]. intros [a c] [y Hy] Hle. unfold rid_le in *. simpl in *.
      destruct Hle as [?|[<- ?]]; [by left|]. right. split; [done|].
      destruct (decide (c < i')); [|lia]. unfold rec_at in Hy. simpl in Hy. rewrite Hp in Hy.
      by rewrite Hmin in Hy by lia.
    + eapply step_unpin; [done|done|]. intros s2 H2.
      eapply runs_conseq; [apply (IH (i + 1) 0 s2); [by apply Hback|lia|lia|simpl; lia]|].
      intros r t (s3 & -> & H3 & Hf). exists s3. split; [done|]. split; [done|].
      assert (Heq : forall q, has_rec pages q -> rid_le i j q <-> rid_le (i + 1) 0 q).
      { intros [a c] Hq. pose proof (has_rec_bounds _ _ _ _ _ Hrep Hq) as [_ [Hc0 Hcn]]. simpl in *. unfold rid_le. simpl.
        destruct (decide (a = i)) as [->|]; [|lia]. split; [|lia]. intros [?|[_ Hjc]]; [lia|]. exfalso.
        destruct Hq as [y Hy]. unfold rec_at in Hy. simpl in Hy. rewrite Hp, Hres in Hy by lia. done. }
      unfold first_from in *. destruct Hf as [[-> Hf]|(Hf1 & Hf2 & Hf3)].
      * left. split; [done|]. intros q Hq. rewrite Heq by done. by apply Hf.
      * right. split; [done|]. rewrite Heq by done. split; [done|]. intros q Hq. rewrite Heq by done. by apply Hf3.
Qed.

Lemma scan_begin_spec s h pages chain :
  rep s h pages chain ->
  runs Rm.scan_begin (s, h) (fun r t => exists s', t = (s', h) /\ rep s' h pages chain /\ first_from pages 1 0 r).
Proof.
  intros Hrep. unfold Rm.scan_begin, Rm.hdr. rstep. simpl. pose proof (rp_range _ _ _ _ Hrep).
  apply (scan_pages_runs h pages chain _ 1 0); [done|lia|lia|lia].
Qed.

Lemma scan_next_spec s h pages chain r :
  rep s h pages chain -> has_rec pages r ->
  runs (Rm.scan_next r) (s, h) (fun r' t => exists s', t = (s', h) /\ rep s' h pages chain /\
    first_from pages (rid_page_no r) (rid_slot_no r + 1) r').
Proof.
  intros Hrep Hr. unfold Rm.scan_next, Rm.hdr. rstep. simpl. pose proof (rp_range _ _ _ _ Hrep).
  destruct (has_rec_bounds _ _ _ _ _ Hrep Hr) as [? [? ?]].
  apply (scan_pages_runs h pages chain _ (rid_page_no r) (rid_slot_no r + 1)); [done|lia|lia|lia].
Qed.

End rm.

(** ** Inserting with a context *)

Section ins.
Context {S : Type} {PS : PageStore S} {PL : PageStoreLaws S}.

(** the representation, apart from the part of the state it does not describe *)
Lemma rep_any (C : S -> Prop) s h pages chain : rep C s h pages chain -> rep (fun _ => True) s h pages chain.
Proof. by intros []; split. Qed.
Lemma rep_ctx (D : S -> Prop) s h pages chain : rep (fun _ => True) s h pages chain -> D s -> rep D s h pages chain.
Proof. by intros []; split. Qed.
Lemma rest_any (D : S -> Prop) s0 N R k b s : rest D s0 N R k b s -> rest (fun _ => True) s0 N R k b s.
Proof. by intros []; split. Qed.
Lemma wk_any (D : S -> Prop) s0 N R k p b s : wk D s0 N R k p b s -> wk (fun _ => True) s0 N R k p b s.
Proof. by intros []; split. Qed.
Lemma wk_ctx_of (D : S -> Prop) s0 N R k p b s : wk (fun _ => True) s0 N R k p b s -> D s -> wk D s0 N R k p b s.
Proof. by intros []; split. Qed.

Context (C : S -> Prop) (W : Z -> WriteRecord -> Prop) (D : WriteRecord -> S -> Prop) (HC : framed C) (HD : forall w, framed (D w)).

Definition ctx_ok (ctx : option (Context S)) : Prop :=
  match ctx with Some c => ctx_laws C W D c | None => forall w s, C s -> D w s end.

(** the write record of an insertion *)
Definition ins_write (name : string) (rid : Rid) (hd : RmFileHdr) (buf : list Z) : WriteRecord :=
  mkWriteRecord INSERT_TUPLE name rid (RmRecord_of (record_size hd) buf) (mkRmRecord [] 0).

Lemma step_log_insert {B} s0 N R k p ctx rid buf b ap hd (f : unit -> Prog Rm.St B) s fd P :
  ctx_ok ctx -> (forall name, W fd (ins_write name rid hd buf)) -> hdr_ok hd -> wk C s0 N R k p b s -> page_rep hd ap b ->
  (forall name b' s', wk (D (ins_write name rid hd buf)) s0 N R k p b' s' -> page_rep hd ap b' -> runs (f tt) (s', mkRmFileHandle fd hd) P) ->
  runs (bind (Rm.log_insert ctx p rid buf) f) (s, mkRmFileHandle fd hd) P.
Proof.
  intros Hctx HW Hhd Hw Hr Hf. destruct ctx as [c|]; simpl.
  2:{ rstep. eapply (Hf ""); [|done]. apply wk_ctx_of; [by apply (wk_any C)|]. apply Hctx. apply Hw. }
  rstep. eapply (step_quiet C); [apply Hctx|done|]. intros st s1 Hst H1. rstep. rewrite bool_decide_true by done.
  unfold Rm.hdr, Rm.get_fd. rstep. rstep. simpl. rstep. rstep. simpl. rstep.
  destruct (cl_log _ _ _ _ Hctx fd s1 (wk_ctx _ _ _ _ _ _ _ _ H1) (ex_intro _ _ (HW ""))) as (nm & s2 & E2 & Hq2 & Hlog).
  eapply step_lift; [exact E2|]. rstep. fold (ins_write nm rid hd buf).
  destruct (Hlog (ins_write nm rid hd buf) (HW nm) eq_refl eq_refl) as (s3 & s4 & E3 & E4 & Hq3 & Hq4 & HD4).
  eapply step_lift; [exact E3|]. eapply step_lift; [exact E4|].
  assert (H4 : wk (D (ins_write nm rid hd buf)) s0 N R k p b s4).
  { apply wk_ctx_of; [|done]. eapply (wk_quiet (fun _ => True)); [|exact Hq4|done]. eapply (wk_quiet (fun _ => True)); [|exact Hq3|done].
    eapply (wk_quiet (fun _ => True)); [by apply (wk_any C)|exact Hq2|done]. }
  rstep. eapply (step_quiet (D (ins_write nm rid hd buf))); [apply Hctx|done|]. intros lsn s5 _ H5.
  eapply (step_touch_lsn _ (HD _)); [done|]. intros b' s6 H6 Hr'. eapply Hf; [done|]. by apply Hr'.
Qed.

Lemma insert_loop_runs s0 N R k p ctx buf ap hd fd n : forall i b s,
  ctx_ok ctx -> (forall name j, valid_slot hd j -> W fd (ins_write name (mkRid (page_no k) j) hd buf)) ->
  hdr_ok hd -> wk C s0 N R k p b s -> page_rep hd ap b -> record_size hd <= zlen buf ->
  0 <= i -> i + Z.of_nat n = num_records_per_page hd ->
  (exists j, i <= j < num_records_per_page hd /\ ap_recs ap !! j = None) ->
  runs (Rm.insert_loop ctx p buf i n) (s, mkRmFileHandle fd hd) (fun rid t => exists name j s' b',
    rid = mkRid (page_no k) j /\ valid_slot hd j /\ ap_recs ap !! j = None /\
    t = (s', mkRmFileHandle fd (ins_hdr hd ap)) /\ rest (D (ins_write name rid hd buf)) s0 N (R + 1) k b' s' /\
    page_rep hd (mkApage (<[j := slice 0 (record_size hd) buf]> (ap_recs ap)) (ap_next ap)) b').
Proof.
  induction n as [|n IH]; intros i b s Hctx HW Hhd Hw Hr Hbuf Hi Hn (j & Hj & Hnone); [lia|]. simpl.
  assert (Hv : valid_slot hd i) by (unfold valid_slot; lia).
  eapply (step_bit_is_set C); [done|done|done|]. rewrite (pr_bit _ _ _ Hr i Hv). case_bool_decide as Hu.
  - apply (IH (i + 1) b); try done; [lia|lia|]. exists j. split; [|done].
    destruct (decide (j = i)) as [->|]; [|lia]. rewrite Hnone in Hu. by destruct Hu.
  - assert (Hfree : ap_recs ap !! i = None) by (by apply eq_None_not_Some).
    eapply (step_page_id C); [done|]. eapply step_log_insert; [done|by intros; apply HW|done|done|done|]. intros name b1 s1 H1 Hr1.
    eapply (step_fill_slot _ (HD _)); [done|done|done|done|done|done|]. intros s2 b2 H2.
    eapply runs_bind; [by eapply (unpin_runs _ (HD _))|]. intros a t (_ & s3 & -> & H3). rstep.
    exists name, i, s3, b2. do 5 (split; [done|]). apply page_rep_fill; try done. by apply buf_slice.
Qed.

(** only one page of the file changed, and nothing stays pinned *)
Definition one_page (g : Z) (s s' : S) : Prop :=
  (exists k, fd k = g /\ ps_others k s s') /\ ps_room s' = ps_room s /\ (forall f, f <> g -> ps_npages s' f = ps_npages s f) /\ (forall f, ps_file s f -> ps_file s' f).

Lemma insert_record_frame s h pages chain ctx buf :
  rep C s h pages chain -> ctx_ok ctx ->
  (forall name rid, 1 <= rid_page_no rid <= num_pages (file_hdr_ h) -> valid_slot (file_hdr_ h) (rid_slot_no rid) ->
     W (fd_ h) (ins_write name rid (file_hdr_ h) buf)) ->
  record_size (file_hdr_ h) <= zlen buf ->
  (chain = [] -> num_pages (file_hdr_ h) < 2 ^ 19) ->
  runs (Rm.insert_record ctx buf) (s, h) (fun rid t => exists name pages' chain',
    rep (D (ins_write name rid (file_hdr_ h) buf)) t.1 t.2 pages' chain' /\ fd_ t.2 = fd_ h /\ record_size (file_hdr_ t.2) = record_size (file_hdr_ h) /\
    inserted h pages pages' rid (slice 0 (record_size (file_hdr_ h)) buf) /\ one_page (fd_ h) s t.1).
Proof.
  intros Hrep Hctx HW Hbuf Hnew. unfold Rm.insert_record.
  pose proof (rp_hdr _ _ _ _ _ Hrep) as Hhd. destruct h as [fd hd]. simpl in *. destruct chain as [|pn chain].
  - specialize (Hnew eq_refl). eapply (step_new_page C HC); [done|done|]. intros p s1 Hw. unfold Rm.hdr. rstep. simpl.
    set (hd1 := Rm.set_first_free (num_pages hd) (Rm.set_num_pages (num_pages hd + 1) hd)).
    assert (Hhd1 : hdr_ok hd1) by (by apply (hdr_ok_same hd)).
    eapply runs_conseq; [eapply (insert_loop_runs s _ _ _ p ctx buf (mkApage ∅ (-1)) hd1); [done| |done|exact Hw|by apply fresh_page_rep|done|done| |]|].
    + intros name j Hj. apply HW; simpl; [pose proof (rp_range _ _ _ _ _ Hrep); simpl in *; lia|done].
    + destruct Hhd. simpl. lia.
    + exists 0. destruct Hhd. simpl. split; [lia|done].
    + intros rid t (name & j & s6 & b6 & -> & Hj & _ & -> & Hrest & Hp). simpl in *.
      replace (ps_room s - 1 + 1) with (ps_room s) in Hrest by lia.
      exists name; eexists _, _. split; [apply rep_ctx; [|apply (re_ctx _ _ _ _ _ _ _ Hrest)];
        eapply (rep_extend (fun _ => True) s s6 fd hd pages j); [by apply (rep_any C)|done|done|by apply buf_slice|by eapply rest_any|]|].
      * by apply (page_rep_hdr hd1).
      * split; [done|]. split; [unfold ins_hdr; by destruct (_ =? _)|]. split; [|destruct Hrest; split_and!; try done; [by exists (mkPageId fd (num_pages hd))|intros f Hf; rewrite re_npages0; by rewrite decide_False]]. apply extended_inserted.
        apply eq_None_not_Some. intros Hs%(rp_dom _ _ _ _ _ Hrep). simpl in Hs. lia.
  - assert (Hin : pn ∈ pn :: chain) by constructor. apply (rp_chain _ _ _ _ _ Hrep) in Hin as (ap & Hi & Hlt). simpl in Hlt.
    eapply (step_free_page C HC); [done|done|]. intros p b s1 Hw Hr. unfold Rm.hdr. rstep. simpl.
    eapply runs_conseq; [eapply (insert_loop_runs s _ _ (mkPageId fd pn) p ctx buf ap hd); try done|].
    + intros name j Hj. apply HW; simpl; [|done]. assert (1 <= pn < num_pages hd) by (apply (rp_dom _ _ _ _ _ Hrep); by eexists). lia.
    + destruct Hhd. lia.
    + destruct (free_slot_exists hd ap Hhd Hlt) as (j & [? ?] & ?). exists j. split; [lia|done].
    + intros rid t (name & j & s6 & b6 & -> & Hj & Hnone & -> & Hrest & Hp). simpl in *.
      replace (ps_room s - 1 + 1) with (ps_room s) in Hrest by lia.
      exists name; eexists _, _. split; [apply rep_ctx; [|apply (re_ctx _ _ _ _ _ _ _ Hrest)];
        eapply (rep_insert (fun _ => True) s s6 fd hd pages pn chain ap j); [by apply (rep_any C)|done|done|by eapply rest_any|done]|].
      split; [done|]. split; [unfold ins_hdr; by destruct (_ =? _)|]. split; [by eapply put_rec_inserted|]. destruct Hrest. split_and!; try done. by exists (mkPageId fd pn).
Qed.
Lemma insert_record_spec s h pages chain ctx buf :
  rep C s h pages chain -> ctx_ok ctx ->
  (forall name rid, 1 <= rid_page_no rid <= num_pages (file_hdr_ h) -> valid_slot (file_hdr_ h) (rid_slot_no rid) ->
     W (fd_ h) (ins_write name rid (file_hdr_ h) buf)) ->
  record_size (file_hdr_ h) <= zlen buf ->
  (chain = [] -> num_pages (file_hdr_ h) < 2 ^ 19) ->
  runs (Rm.insert_record ctx buf) (s, h) (fun rid t => exists name pages' chain',
    rep (D (ins_write name rid (file_hdr_ h) buf)) t.1 t.2 pages' chain' /\ fd_ t.2 = fd_ h /\ record_size (file_hdr_ t.2) = record_size (file_hdr_ h) /\
    inserted h pages pages' rid (slice 0 (record_size (file_hdr_ h)) buf)).
Proof.
  intros Hrep Hctx HW Hbuf Hnew. eapply runs_conseq; [by apply (insert_record_frame s h pages chain)|]. intros rid t (name & pages' & chain' & H1 & H2 & H3 & H4 & _). by exists name, pages', chain'.
Qed.
End ins.
End RmP.

(** ** Frames

    An operation on one file does not notice the others.  The laws of the page store hold again when only the pages of one
    file [g] are seen as pages, and the invariant says that everything else is as it was in [s0].  So a theorem about
    a client that was proved from the laws alone, used at this instance, says in addition what the client leaves alone. *)

Module Within.
Section within.
Context {S : Type} {PS : PageStore S} {PL : PageStoreLaws S}.

(** the files other than those of [G] are the same *)
Record apart_from (G : list Z) (s s' : S) : Prop := {
  af_page : forall k b, fd k ∉ G -> ps_page s k b -> ps_page s' k b;
  af_pins : forall k, fd k ∉ G -> ps_pins s' k = ps_pins s k;
  af_npages : forall f, f ∉ G -> ps_npages s' f = ps_npages s f;
  af_file : forall f, ps_file s f -> ps_file s' f;
}.

Lemma apart_from_refl G s : apart_from G s s.
Proof. by split. Qed.
Lemma apart_trans G s1 s2 s3 : apart_from G s1 s2 -> apart_from G s2 s3 -> apart_from G s1 s3.
Proof.
  intros [P1 Q1 N1 F1] [P2 Q2 N2 F2]. split; auto.
  - intros k Hk. by rewrite Q2, Q1 by done.
  - intros f Hf. by rewrite N2, N1 by done.
Qed.
Lemma apart_mono G G' s s' : G ⊆ G' -> apart_from G s s' -> apart_from G' s s'.
Proof. intros HG []. split; auto. Qed.
Lemma apart_step G k s s' : fd k ∈ G -> ps_others k s s' -> (forall f, f ∉ G -> ps_npages s' f = ps_npages s f) -> (forall f, ps_file s f -> ps_file s' f) -> apart_from G s s'.
Proof.
  intros Hk Ho Hn Hf. split; auto.
  - intros j b Hj. apply (ot_page _ _ _ _ _ _ _ Ho). congruence.
  - intros j Hj. apply (ot_pins _ _ _ _ _ _ _ Ho). congruence.
Qed.
Lemma calm_apart G s s' : RmP.calm s s' -> apart_from G s s'.
Proof. intros []. split; auto. Qed.
Lemma one_page_apart g s s' : RmP.one_page g s s' -> apart_from [g] s s'.
Proof. intros ((k & <- & Ho) & _ & Hn & Hf). apply (apart_step _ k); [by apply list_elem_of_singleton|done| |done]. intros f Hf'. apply Hn. intros ->. apply Hf'. by apply list_elem_of_singleton. Qed.

(** a record file notices the pages of its file only *)
Lemma rep_apart (C C' : S -> Prop) G s s' h pages chain : RmP.rep C s h pages chain -> apart_from G s s' -> fd_ h ∉ G -> ps_inv s' -> C' s' -> 0 < ps_room s' -> RmP.rep C' s' h pages chain.
Proof.
  intros [_ _ Hhd Hf Hnp Hr Hd Hp H1 H2 H3 H4 _] [P Q N F] Hg Hi HC Hroom. split; auto; [by rewrite N|]. intros i ap Hap. destruct (Hp i ap Hap) as (b & Hb & Hrep & Hz). exists b. split; [by apply P|]. split; [done|]. by rewrite Q.
Qed.

Context (g : Z) (s0 : S) (C : S -> Prop) (HC : RmP.framed_in g C).

Definition kept (s : S) : Prop := apart_from [g] s0 s /\ C s.
Definition seen (s : S) (k : PageId) (b : list Z) : Prop := ps_page s k b /\ fd k = g.

Lemma seen_others k s s' : ps_others k s s' -> others seen ps_pins ps_clean ps_handle k s s'.
Proof. intros []. split; auto. intros j b Hj [? ?]. split; auto. Qed.
Lemma kept_step k s s' : kept s -> fd k = g -> ps_others k s s' -> (forall f, f <> g -> ps_npages s' f = ps_npages s f) -> (forall f, ps_file s f -> ps_file s' f) -> C s' -> kept s'.
Proof. intros [Ha _] Hk Ho Hn Hf HCs. split; [|done]. eapply apart_trans; [exact Ha|]. apply (apart_step _ k); [by apply list_elem_of_singleton|done| |done]. intros f Hf'. apply Hn. intros ->. apply Hf'. by apply list_elem_of_singleton. Qed.

Definition within : PageStoreLaws S.
Proof.
  refine {| ps_inv s := ps_inv s /\ kept s; ps_page := seen; ps_pins := ps_pins; ps_clean := ps_clean; ps_handle := ps_handle; ps_room := ps_room; ps_npages := ps_npages; ps_file s f := ps_file s f /\ f = g |}.
  - intros s k b [Hi _] [Hp _]. by eapply ps_page_len.
  - intros s k b b' [Hp _] [Hp' _]. by eapply ps_page_fun.
  - intros s k b [Hp _]. by eapply ps_page_bound.
  - intros s k [Hi _]. by apply ps_idle_clean.
  - intros s k b [Hi Hk] [Hp Hg] Hr. destruct (ps_fetch s k b Hi Hp Hr) as (r & s' & E & f & -> & Hi' & Ho & Hp' & Hh & Hn & HR & Hcl & Hnp & Hf). exists (Some f), s'. split; [done|]. exists f. split; [done|].
    split; [split; [done|]; eapply (kept_step k); eauto; by eapply (RmP.fi_fetch _ _ HC k), Hk|]. split; [by apply seen_others|]. split; [done|]. split_and!; try done. intros x [? ->]. auto.
  - intros s k b d [Hi Hk] [Hp Hg] Hn Hd. destruct (ps_unpin s k b d Hi Hp Hn Hd) as (r & s' & E & -> & Hi' & Ho & Hp' & Hn' & HR & Hcl & Hh & Hnp & Hf). exists true, s'. split; [done|]. split; [done|].
    split; [split; [done|]; eapply (kept_step k); eauto; by eapply (RmP.fi_unpin _ _ HC k), Hk|]. split; [by apply seen_others|]. split; [done|]. split_and!; try done. intros x [? ->]. auto.
  - intros s g' [Hi Hk] [Hf ->] Hn HR. destruct (ps_new s g Hi Hf Hn HR) as (r & s' & E & f & -> & Hi' & Ho & Hp' & Hh & Hpi & HR' & Hnp & Hf'). eexists _, s'. split; [exact E|]. exists f. split; [done|].
    split; [split; [done|]; eapply (kept_step (mkPageId g (ps_npages s g))); eauto; [intros x Hx; by rewrite Hnp, decide_False|by eapply (RmP.fi_new _ _ HC), Hk]|]. split; [by apply seen_others|]. split; [done|]. split_and!; try done. intros x [? ->]. auto.
  - intros s k b [Hi Hk] [Hp Hg]. destruct (ps_delete s k b Hi Hp) as (r & s' & E & Hr & Hi' & Ho & Hp' & Hn' & HR & Hs & Hnp & Hf). exists r, s'. split; [done|]. split; [done|].
    split; [split; [done|]; eapply (kept_step k); eauto; by eapply (RmP.fi_delete _ _ HC k), Hk|]. split; [by apply seen_others|]. split; [done|]. split_and!; try done. intros x [? ->]. auto.
  - intros s f k b off n [Hi _] Hh [Hp _]. by apply (ps_read s f k b).
  - intros s f k b off w [Hi Hk] Hh [Hp Hg] Hin. destruct (ps_write s f k b off w Hi Hh Hp Hin) as (r & s' & E & Hi' & Ho & Hp' & Hh' & Hn & HR & Hnp & Hf). exists r, s'. split; [done|].
    split; [split; [done|]; eapply (kept_step k); eauto; by eapply (RmP.fi_write _ _ HC), Hk|]. split; [by apply seen_others|]. split; [done|]. split_and!; try done. intros x [? ->]. auto.
  - intros s f k b [Hi _] Hh [Hp _]. by apply (ps_page_id s f k b).
  - intros s f k b [Hi _] Hh [Hp _]. by apply (ps_is_dirty s f k b).
  - intros s f k. apply ps_handle_pins.
  - intros s k f r s'. apply ps_fetch_same.
Defined.

(** a record file of [g] seen through these laws, and back *)
Lemma rep_within (C' : S -> Prop) s h pages chain : RmP.rep C' s h pages chain -> fd_ h = g -> kept s -> RmP.rep (PL := within) C' s h pages chain.
Proof.
  intros [] Hg Hk. split; try done. intros i ap Hap. destruct (rp_pages i ap Hap) as (b & ? & ? & ?). by exists b.
Qed.
Lemma rep_outside (C' : S -> Prop) s h pages chain : RmP.rep (PL := within) C' s h pages chain -> RmP.rep C' s h pages chain /\ kept s.
Proof.
  intros []. split; [|apply rp_inv]. split; try done; [apply rp_inv|apply rp_file|]. intros i ap Hap. destruct (rp_pages i ap Hap) as (b & [? _] & ? & ?). by exists b.
Qed.
Lemma one_page_outside s : RmP.one_page (PL := within) g s0 s -> kept s -> (forall f, ps_file s0 f -> ps_file s f) -> RmP.one_page g s0 s.
Proof.
  intros ((k & Hk & [H1 H2 H3 H4]) & HR & Hn & _) [Ha _] Hf. split; [|by split_and!]. exists k. split; [done|]. split; auto. intros j b Hj Hb.
  destruct (decide (fd j = g)) as [E|E]; [by apply (H1 j b Hj)|]. apply (af_page _ _ _ Ha); [by rewrite list_elem_of_singleton|done].
Qed.
End within.
End Within.

(** ** A pin that nobody gives back

    The recovery insertion leaves a page pinned.  A client does not notice the pin: the laws hold again when one pin of page [q] is
    not counted, with a frame less to use. *)

Module Leak.

(** *** The recovery insertion after its loop *)

Section place.
Context {S : Type} {PS : PageStore S} {PL : PageStoreLaws S} (C : S -> Prop) (HC : RmP.framed C).
Local Open Scope prog_scope.

Definition place (rid : Rid) (buf : list Z) : Prog (Rm.St (S:=S)) unit :=
  let* p := Rm.fetch_page_handle (rid_page_no rid) in
  let* used := Rm.bit_is_set p (rid_slot_no rid) in
  let* h := Rm.hdr in
  (if used then Rm.lift (write_bytes p (Rm.slot_off h (rid_slot_no rid)) (slice 0 (record_size h) buf))
   else Rm.fill_slot p (rid_slot_no rid) buf);;
  Rm.unpin p true.

Lemma place_used s h pages chain rid x buf :
  RmP.rep C s h pages chain -> RmP.rec_at pages rid = Some x -> record_size (file_hdr_ h) <= zlen buf ->
  runs (place rid buf) (s, h) (fun _ t => exists s', t = (s', h) /\ RmP.rep C s' h (RmP.put_rec rid (slice 0 (record_size (file_hdr_ h)) buf) pages) chain).
Proof.
  intros Hrep Hx Hbuf. unfold RmP.rec_at in Hx. destruct (pages !! rid_page_no rid) as [ap|] eqn:Hi; [|done]. pose proof (RmP.rp_hdr _ _ _ _ _ Hrep) as Hhd.
  unfold place. eapply (RmP.step_fetch_handle C HC); [done|done|]. intros p b s1 H1 Hr _. destruct (pr_slot _ _ _ Hr _ _ Hx) as [Hv _].
  eapply (RmP.step_bit_is_set C); [done|done|done|]. rewrite (pr_bit _ _ _ Hr _ Hv), bool_decide_true by (by eexists). unfold Rm.hdr. rstep. simpl.
  pose proof (RmP.buf_slice _ Hhd buf Hbuf) as Hlen.
  eapply (RmP.step_write C HC); [done|by apply RmP.slot_in_range|]. intros s2 H2.
  eapply (RmP.last_unpin C HC); [done|done|]. intros s3 H3. exists s3. split; [done|]. replace (ps_room s - 1 + 1) with (ps_room s) in H3 by lia.
  eapply (RmP.rep_put C); [exact Hrep|exact Hi|exact Hx|exact H3|]. by apply (page_rep_update _ Hhd ap b _ _ Hr (mk_is_Some _ _ Hx) Hlen).
Qed.

Lemma place_free s fd hd pages pn chain ap j buf :
  RmP.rep C s (mkRmFileHandle fd hd) pages (pn :: chain) -> pages !! pn = Some ap -> valid_slot hd j -> ap_recs ap !! j = None -> record_size hd <= zlen buf ->
  runs (place (mkRid pn j) buf) (s, mkRmFileHandle fd hd) (fun _ t => exists s', t = (s', mkRmFileHandle fd (RmP.ins_hdr hd ap)) /\
    RmP.rep C s' t.2 (RmP.put_rec (mkRid pn j) (slice 0 (record_size hd) buf) pages)
      (if Z.of_nat (stdpp.base.size (ap_recs ap)) + 1 =? num_records_per_page hd then chain else pn :: chain)).
Proof.
  intros Hrep Hi Hv Hnone Hbuf. pose proof (RmP.rp_hdr _ _ _ _ _ Hrep) as Hhd. simpl in Hhd.
  unfold place. eapply (RmP.step_fetch_handle C HC); [done|exact Hi|]. intros p b s1 H1 Hr _. simpl in H1, Hr. cbn [rid_slot_no rid_page_no].
  eapply (RmP.step_bit_is_set C); [done|done|done|]. rewrite (pr_bit _ _ _ Hr _ Hv), bool_decide_false by (rewrite Hnone; by intros []). unfold Rm.hdr. rstep. simpl.
  eapply (RmP.step_fill_slot C HC); [done|done|done|done|done|done|]. intros s2 b2 H2.
  eapply (RmP.last_unpin C HC); [done|done|]. intros s3 H3. exists s3. split; [done|]. replace (ps_room s - 1 + 1) with (ps_room s) in H3 by lia.
  eapply (RmP.rep_insert C); [exact Hrep|exact Hi|done|exact H3|]. apply page_rep_fill; try done. by apply RmP.buf_slice.
Qed.
End place.

Section leak.
Context {S : Type} {PS : PageStore S} {PL : PageStoreLaws S} (q : PageId).

Definition pins (s : S) (k : PageId) : Z := ps_pins s k - (if decide (k = q) then 1 else 0).
Definition room (s : S) : Z := ps_room s - (if ps_pins s q =? 1 then 0 else 1).
Definition handle (s : S) (f : page_ptr) (k : PageId) : Prop := ps_handle s f k /\ 0 < pins s k.
Record inv (s : S) : Prop := {
  lk_inv : ps_inv s;
  lk_pins : 0 < ps_pins s q;
  lk_clean : ps_pins s q = 1 -> ps_clean s q;
  lk_there : page_no q < ps_npages s (fd q);
}.

(** only a deletion would notice *)
Definition store : PageStore S := {|
  fetch_page := fetch_page; unpin_page := unpin_page; new_page := new_page;
  delete_page k := if decide (k = q) then (fun s => (Ok (ps_pins s q - 1 =? 0), s)) else delete_page k;
  read_bytes := read_bytes; write_bytes := write_bytes; get_page_id := get_page_id; is_dirty := is_dirty;
|}.

Lemma pins_ne s k : k <> q -> pins s k = ps_pins s k.
Proof. intros. unfold pins. rewrite decide_False by done. lia. Qed.
Lemma pins_eq s : pins s q = ps_pins s q - 1.
Proof. unfold pins. by rewrite decide_True. Qed.
Lemma leak_others k s s' : ps_others k s s' -> others ps_page pins ps_clean handle k s s'.
Proof.
  intros []. assert (Hp : forall j, j <> k -> pins s' j = pins s j) by (intros j Hj; unfold pins; by rewrite ot_pins).
  split; auto. intros f j Hj [? ?]. split; [by apply ot_handle|]. by rewrite Hp.
Qed.

(** a step about another page *)
Lemma inv_others k s s' : inv s -> ps_others k s s' -> k <> q -> ps_inv s' -> (forall g, ps_npages s g <= ps_npages s' g) -> inv s'.
Proof.
  intros [Hi Hp Hc Ht] Ho Hk Hi' Hn. destruct Ho. split; [done|by rewrite ot_pins|rewrite ot_pins by done; auto|]. specialize (Hn (fd q)). lia.
Qed.
Lemma room_others k s s' : ps_others k s s' -> k <> q -> room s' - room s = ps_room s' - ps_room s.
Proof. intros [] Hk. unfold room. rewrite ot_pins by done. lia. Qed.

Ltac leak_lia := repeat match goal with |- context [?x =? ?y] => destruct (Z.eqb_spec x y) end; lia.

Lemma leak_fetch s k b : inv s -> ps_page s k b -> 0 < pins s k \/ 0 < room s ->
  runs (fetch_page k) s (fun r s' => exists f, r = Some f /\
    inv s' /\ others ps_page pins ps_clean handle k s s' /\ ps_page s' k b /\ handle s' f k /\ pins s' k = pins s k + 1 /\
    room s' = room s - (if pins s k =? 0 then 1 else 0) /\ (ps_clean s k -> ps_clean s' k) /\
    (forall g, ps_npages s' g = ps_npages s g) /\ (forall g, ps_file s g -> ps_file s' g)).
Proof.
  intros Hv Hp Hr. pose proof Hv as [Hi Hq Hc Ht]. destruct (ps_fetch s k b Hi Hp) as (r & s' & E & f & -> & H1 & H2 & H3 & H4 & H5 & H6 & H7 & H8 & H9).
  { unfold pins, room in Hr. destruct (decide (k = q)) as [->|]; [by left|]. destruct (_ =? _) in Hr; lia. }
  exists (Some f), s'. split; [done|]. exists f. split; [done|]. destruct (decide (k = q)) as [->|Hk].
  - split; [split; [done|lia|intros; lia|by rewrite H8]|]. split; [by apply leak_others|]. split; [done|].
    unfold handle. rewrite !pins_eq, H5. split; [split; [done|lia]|]. split; [lia|]. split; [|done]. unfold room. rewrite H5, H6. leak_lia.
  - split; [eapply inv_others; try done; intros g; by rewrite H8|]. split; [by apply leak_others|]. split; [done|].
    pose proof (ps_handle_pins _ _ _ H4). unfold handle. rewrite !pins_ne, H5 by done. rewrite <- H5. split; [done|]. split; [done|]. split; [|done].
    pose proof (room_others k s s' H2 Hk). lia.
Qed.

Lemma leak_unpin s k b (dirty : bool) : inv s -> ps_page s k b -> 0 < pins s k -> (dirty = false -> pins s k = 1 -> ps_clean s k) ->
  runs (unpin_page k dirty) s (fun r s' => r = true /\
    inv s' /\ others ps_page pins ps_clean handle k s s' /\ ps_page s' k b /\ pins s' k = pins s k - 1 /\
    room s' = room s + (if pins s k =? 1 then 1 else 0) /\ (dirty = true \/ ps_clean s k -> ps_clean s' k) /\
    (forall f, handle s f k -> 1 < pins s k -> handle s' f k) /\
    (forall g, ps_npages s' g = ps_npages s g) /\ (forall g, ps_file s g -> ps_file s' g)).
Proof.
  intros Hv Hp Hn Hd. pose proof Hv as [Hi Hq Hc Ht].
  destruct (ps_unpin s k b dirty Hi Hp) as (r & s' & E & -> & H1 & H2 & H3 & H4 & H5 & H6 & H7 & H8 & H9).
  { unfold pins in Hn. destruct (decide (k = q)); lia. }
  { intros E1 E2. destruct (decide (k = q)) as [->|Hk]; [rewrite pins_eq in Hn; lia|]. apply Hd; [done|]. by rewrite pins_ne. }
  exists true, s'. split; [done|]. split; [done|]. destruct (decide (k = q)) as [->|Hk].
  - rewrite pins_eq in Hn, Hd. split; [split; [done|lia| |by rewrite H8]|].
    { intros E1. apply H6. destruct dirty; [by left|right]. apply Hd; [done|lia]. }
    split; [by apply leak_others|]. split; [done|]. rewrite !pins_eq, H4. split; [lia|]. split; [unfold room; rewrite H4, H5; leak_lia|]. split; [done|]. split; [|done].
    intros f [Hh _] Hlt. split; [apply H7; [done|lia]|]. rewrite pins_eq. lia.
  - rewrite pins_ne in Hn by done. split; [eapply inv_others; try done; intros g; by rewrite H8|]. split; [by apply leak_others|]. split; [done|].
    rewrite !pins_ne, H4 by done. split; [done|]. split; [pose proof (room_others k s s' H2 Hk); lia|]. split; [done|]. split; [|done].
    intros f [Hh _] Hlt. split; [by apply H7|]. rewrite pins_ne by done. lia.
Qed.

Lemma leak_new s g : inv s -> ps_file s g -> 0 <= ps_npages s g < 2 ^ 19 -> 0 < room s ->
  runs (new_page g) s (fun r s' => exists f, r = Some (mkPageId g (ps_npages s g), f) /\
    inv s' /\ others ps_page pins ps_clean handle (mkPageId g (ps_npages s g)) s s' /\
    ps_page s' (mkPageId g (ps_npages s g)) (zeros PAGE_SIZE) /\ handle s' f (mkPageId g (ps_npages s g)) /\ pins s' (mkPageId g (ps_npages s g)) = 1 /\
    room s' = room s - 1 /\ (forall h, ps_npages s' h = if decide (h = g) then ps_npages s g + 1 else ps_npages s h) /\ (forall g, ps_file s g -> ps_file s' g)).
Proof.
  intros Hv Hf Hn HR. pose proof Hv as [Hi Hq Hc Ht]. assert (Hk : mkPageId g (ps_npages s g) <> q) by (intros <-; simpl in Ht; lia).
  destruct (ps_new s g Hi Hf Hn) as (r & s' & E & f & -> & H1 & H2 & H3 & H4 & H5 & H6 & H7 & H8); [unfold room in HR; destruct (_ =? _) in HR; lia|].
  eexists _, s'. split; [exact E|]. exists f. split; [done|]. split; [|split; [by apply leak_others|split; [done|]]].
  { eapply inv_others; try done. intros x. rewrite H7. destruct (decide (x = g)) as [->|]; lia. }
  unfold handle. rewrite pins_ne, H5 by done. split; [done|]. split; [done|]. split; [|done]. pose proof (room_others _ s s' H2 Hk). lia.
Qed.

Definition laws : @PageStoreLaws S store.
Proof.
  unshelve refine (@Build_PageStoreLaws S store inv ps_page pins ps_clean handle room ps_npages ps_file _ _ _ _ _ _ _ _ _ _ _ _ _ _); simpl.
  - intros s k b [Hi _ _ _]. by apply ps_page_len.
  - apply ps_page_fun.
  - apply ps_page_bound.
  - intros s k [Hi Hq Hc _] Hz. destruct (decide (k = q)) as [->|Hk]; [rewrite pins_eq in Hz; apply Hc; lia|]. rewrite pins_ne in Hz by done. by apply ps_idle_clean.
  - apply leak_fetch.
  - apply leak_unpin.
  - apply leak_new.
  - intros s k b Hv Hp. pose proof Hv as [Hi Hq Hc Ht]. destruct (decide (k = q)) as [->|Hk].
    + eexists _, s. split; [done|]. rewrite pins_eq. by split_and!.
    + destruct (ps_delete s k b Hi Hp) as (r & s' & E & Hr & H1 & H2 & H3 & H4 & H5 & H6 & H7 & H8). exists r, s'. split; [done|].
      rewrite !pins_ne by done. split; [done|]. split; [eapply inv_others; try done; intros g; by rewrite H7|]. split; [by apply leak_others|].
      split_and!; try done. pose proof (room_others k s s' H2 Hk). lia.
  - intros s f k b off n [Hi _ _ _] [Hh _]. by apply (ps_read s f k b).
  - intros s f k b off w Hv [Hh Hn] Hp Hin. pose proof Hv as [Hi Hq Hc Ht].
    destruct (ps_write s f k b off w Hi Hh Hp Hin) as (r & s' & E & H1 & H2 & H3 & H4 & H5 & H6 & H7 & H8). exists r, s'. split; [done|].
    assert (Hpins : pins s' k = pins s k) by (unfold pins; by rewrite H5). assert (Hall : ps_pins s' q = ps_pins s q).
    { destruct (decide (k = q)) as [->|Hk]; [done|]. apply (ot_pins _ _ _ _ _ _ _ H2). congruence. }
    split; [|split; [by apply leak_others|]].
    { split; [done|by rewrite Hall| |by rewrite H7]. rewrite Hall. intros E1. destruct (decide (k = q)) as [->|Hk]; [rewrite pins_eq in Hn; lia|].
      apply (ot_clean _ _ _ _ _ _ _ H2); [congruence|auto]. }
    split; [done|]. split; [split; [done|by rewrite Hpins]|]. split; [done|]. split; [unfold room; by rewrite Hall, H6|done].
  - intros s f k b [Hi _ _ _] [Hh _]. by apply (ps_page_id s f k b).
  - intros s f k b [Hi _ _ _] [Hh _]. by apply (ps_is_dirty s f k b).
  - by intros s f k [_ ?].
  - intros s k f r s' [Hh _]. by apply ps_fetch_same.
Defined.

Lemma framed_leak (C : S -> Prop) : RmP.framed C -> RmP.framed (PS := store) C.
Proof. intros []. split; simpl; eauto. intros k s r s'. destruct (decide (k = q)); [|eauto]. by intros [= _ <-]. Qed.
End leak.

(** *** The recovery insertion *)

Section insert_at.
Context {S : Type} {PS : PageStore S} {PL : PageStoreLaws S} (C : S -> Prop) (HC : RmP.framed C).

(** the file at rest, but for a pin of page [q] that nobody will give back *)
Definition leaked (q : PageId) (s : S) (h : RmFileHandle) (pages : gmap Z apage) (chain : list Z) : Prop := RmP.rep (PS := store q) (PL := laws q) C s h pages chain.

Lemma leaked_pins q s h pages chain i : leaked q s h pages chain -> is_Some (pages !! i) ->
  ps_pins s (mkPageId (fd_ h) i) = (if decide (mkPageId (fd_ h) i = q) then 1 else 0).
Proof. intros Hl [ap Hi]. destruct (RmP.rp_pages _ _ _ _ _ Hl i ap Hi) as (b & _ & _ & Hz). simpl in Hz. unfold pins in Hz. destruct (decide _); lia. Qed.

Lemma fetch_free_leaks s fd hd pages pn chain :
  RmP.rep C s (mkRmFileHandle fd hd) pages (pn :: chain) -> 1 < ps_room s ->
  exists p s1, Rm.fetch_free_page_handle (s, mkRmFileHandle fd hd) = (Ok p, (s1, mkRmFileHandle fd hd)) /\
    get_page_id p s1 = (Ok (mkPageId fd pn), s1) /\ leaked (mkPageId fd pn) s1 (mkRmFileHandle fd hd) pages (pn :: chain).
Proof.
  intros Hrep Hroom. set (q := mkPageId fd pn). assert (Hin : pn ∈ pn :: chain) by constructor. apply (RmP.rp_chain _ _ _ _ _ Hrep) in Hin as (ap & Hi & _).
  destruct (RmP.rp_pages _ _ _ _ _ Hrep pn ap Hi) as (b & Hb & Hr & Hz). simpl in *. pose proof (RmP.rp_inv _ _ _ _ _ Hrep) as Hinv.
  destruct (ps_fetch s q b Hinv Hb) as (r & s1 & E & p & -> & H1 & H2 & H3 & H4 & H5 & H6 & H7 & H8 & H9); [right; lia|]. fold q in Hz. rewrite Hz in H5, H6. simpl in H5, H6.
  exists p, s1. split; [|split; [by eapply ps_page_id|]].
  - assert (runs Rm.fetch_free_page_handle (s, mkRmFileHandle fd hd) (fun r t => r = p /\ t = (s1, mkRmFileHandle fd hd))) as (? & ? & E' & -> & ->); [|exact E'].
    unfold Rm.fetch_free_page_handle, Rm.hdr, Rm.get_fd. pose proof (RmP.rp_first _ _ _ _ _ Hrep) as Hff. simpl in Hff. rstep. rstep. simpl. rewrite Hff.
    assert (Hpn : 1 <= pn < num_pages hd) by (apply (RmP.rp_dom _ _ _ _ _ Hrep); by eexists).
    destruct (Z.eqb_spec pn (-1)); [lia|]. eapply RmP.step_lift; [exact E|]. cbv beta iota. rstep. done.
  - destruct Hrep as [Ri Rc Rh Rf Rn Rr Rd Rp R1 R2 R3 R4 R5]. split; simpl; try done.
    + split; [done|lia|intros _; apply H7; by apply ps_idle_clean|]. rewrite H8. simpl. by apply (ps_page_bound s q b).
    + by eapply (RmP.fr_fetch _ HC).
    + by apply H9.
    + by rewrite H8.
    + intros i ap' Hi'. destruct (decide (i = pn)) as [->|Hne].
      * assert (ap' = ap) as -> by congruence. exists b. split; [done|]. split; [done|]. rewrite pins_eq. fold q. by rewrite H5.
      * destruct (Rp i ap' Hi') as (b' & Hb' & Hr' & Hz'). simpl in *. assert (Hq : mkPageId fd i <> q) by (intros [= ?]; done).
        exists b'. split; [by apply (ot_page _ _ _ _ _ _ _ H2)|]. split; [done|]. rewrite pins_ne by done. by rewrite (ot_pins _ _ _ _ _ _ _ H2).
    + unfold room. fold q. rewrite H5, H6. simpl. lia.
Qed.

(** with the first free page at or after the page of the record, the loop ends at once *)
Lemma insert_at_place s fd hd pages pn chain rid buf fuel :
  RmP.rep C s (mkRmFileHandle fd hd) pages (pn :: chain) -> 1 < ps_room s -> rid_page_no rid <= pn ->
  exists s1, leaked (mkPageId fd pn) s1 (mkRmFileHandle fd hd) pages (pn :: chain) /\
    Rm.insert_record_at (Datatypes.S fuel) rid buf (s, mkRmFileHandle fd hd) = place rid buf (s1, mkRmFileHandle fd hd).
Proof.
  intros Hrep Hroom Hle. destruct (fetch_free_leaks s fd hd pages pn chain Hrep Hroom) as (p & s1 & E & Eid & Hl). exists s1. split; [done|].
  unfold Rm.insert_record_at. rewrite (bind_ok _ _ _ _ _ E). cbn [Rm.skip_to_page].
  assert (Es : (let* k := Rm.lift (get_page_id p) in if page_no k <? rid_page_no rid then let* p' := Rm.fetch_free_page_handle in Rm.skip_to_page fuel (rid_page_no rid) p' else ret tt)%prog
    (s1, mkRmFileHandle fd hd) = (Ok tt, (s1, mkRmFileHandle fd hd))).
  { erewrite bind_ok by (unfold Rm.lift, zoom; simpl; by rewrite Eid). simpl. by rewrite (proj2 (Z.ltb_ge _ _)). }
  by rewrite (bind_ok _ _ _ _ _ Es).
Qed.

Lemma insert_at_used s h pages pn chain rid x buf fuel :
  RmP.rep C s h pages (pn :: chain) -> 1 < ps_room s -> rid_page_no rid <= pn -> RmP.rec_at pages rid = Some x -> record_size (file_hdr_ h) <= zlen buf ->
  exists s', Rm.insert_record_at (Datatypes.S fuel) rid buf (s, h) = (Ok tt, (s', h)) /\
    leaked (mkPageId (fd_ h) pn) s' h (RmP.put_rec rid (slice 0 (record_size (file_hdr_ h)) buf) pages) (pn :: chain).
Proof.
  intros Hrep Hroom Hle Hx Hbuf. destruct h as [fd hd]. destruct (insert_at_place s fd hd pages pn chain rid buf fuel Hrep Hroom Hle) as (s1 & Hl & ->).
  destruct (place_used (PS := store (mkPageId fd pn)) (PL := laws (mkPageId fd pn)) C (framed_leak _ C HC) s1 _ pages (pn :: chain) rid x buf Hl Hx Hbuf) as ([] & t & E & s' & -> & Hl').
  exists s'. split; [exact E|exact Hl'].
Qed.

Lemma insert_at_free s fd hd pages pn chain ap j buf fuel :
  RmP.rep C s (mkRmFileHandle fd hd) pages (pn :: chain) -> 1 < ps_room s -> pages !! pn = Some ap -> valid_slot hd j -> ap_recs ap !! j = None -> record_size hd <= zlen buf ->
  exists s' chain', Rm.insert_record_at (Datatypes.S fuel) (mkRid pn j) buf (s, mkRmFileHandle fd hd) = (Ok tt, (s', mkRmFileHandle fd (RmP.ins_hdr hd ap))) /\
    leaked (mkPageId fd pn) s' (mkRmFileHandle fd (RmP.ins_hdr hd ap)) (RmP.put_rec (mkRid pn j) (slice 0 (record_size hd) buf) pages) chain'.
Proof.
  intros Hrep Hroom Hi Hv Hnone Hbuf. destruct (insert_at_place s fd hd pages pn chain (mkRid pn j) buf fuel Hrep Hroom) as (s1 & Hl & ->); [done|].
  destruct (place_free (PS := store (mkPageId fd pn)) (PL := laws (mkPageId fd pn)) C (framed_leak _ C HC) s1 fd hd pages pn chain ap j buf Hl Hi Hv Hnone Hbuf)
    as ([] & t & E & s' & -> & Hl'). eexists s', _. split; [exact E|exact Hl'].
Qed.
End insert_at.
End Leak.
