(* ===== verification/RmProps.v ===== *)
(** What record files promise: a table is a finite map from record ids to byte
    strings, a scan lists it in order, and the layout of a page fits.  The
    recovery insertion does not keep its promise. *)

From S2P Require Import Prelude Bytes Errors Lru Disk BufferPool BufferPoolProofs BufferPoolProps.
From S2P Require Import PageStore Bitmap Defs RmFile RmPage RmProofs.
From Stdlib Require Import Sorting.Sorted.
Import RmPage.

(** ** A concrete file *)

(** an open file with no record pages *)
Lemma rep_empty {S} {PS : PageStore S} {PL : PageStoreLaws S} (C : S -> Prop) s h :
  ps_inv s -> C s -> hdr_ok (file_hdr_ h) -> ps_file s (fd_ h) -> ps_npages s (fd_ h) = 1 ->
  num_pages (file_hdr_ h) = 1 -> first_free_page_no (file_hdr_ h) = -1 -> 0 < ps_room s ->
  RmP.rep C s h ∅ [].
Proof.
  intros. split; try done; try congruence.
  - lia.
  - intros i. rewrite lookup_empty. split; [by intros [? ?]|lia].
  - constructor.
  - intros i. rewrite elem_of_nil. split; [done|]. by intros (? & ? & _).
Qed.

Definition demo_rm_store : Store :=
  mkStore (Dsk.set_pageno (<[3 := 1]>) demo_disk) (Bpm.make 0 4).
Definition demo_handle : RmFileHandle := mkRmFileHandle 3 (Rm.init_file_hdr 8).

Lemma demo_rm_rep : RmP.rep (fun _ => True) demo_rm_store demo_handle ∅ [].
Proof.
  apply rep_empty; try done.
  - apply binv_make. destruct demo_disk_inv. by split.
  - split; [exists "t"; vm_compute; reflexivity|simpl; unfold MAX_FD; lia].
Qed.

(** a context that logs nothing *)
Definition demo_ctx : Context Store :=
  mkContext Store (ret DEFAULT) (ret 7) (fun _ => ret "t") (fun _ => ret tt) (fun _ => ret tt).

Lemma trivially_framed {S} {PS : PageStore S} : RmP.framed (fun _ : S => True).
Proof. by split. Qed.

Lemma quiet_refl {S} {PS : PageStore S} {PL : PageStoreLaws S} (s : S) : RmP.quiet s s.
Proof. by split. Qed.

Lemma demo_ctx_laws : RmP.ctx_laws (fun _ => True) (fun _ _ => True) (fun _ _ => True) demo_ctx.
Proof.
  split; intros; try intros s _; eexists _, _; (split; [reflexivity|]); (split; [apply quiet_refl|]); auto.
  intros w _ _ _. eexists _, _. split; [reflexivity|]. split; [reflexivity|]. split; [apply quiet_refl|]. split; [apply quiet_refl|done].
Qed.

(** after a deletion the page is in the free chain *)
Lemma deleted_in_chain {S} {PS : PageStore S} {PL : PageStoreLaws S} (C : S -> Prop) s h pages chain s' fd rid x :
  RmP.rep C s h pages chain -> RmP.rec_at pages rid = Some x ->
  RmP.rep C s' (mkRmFileHandle fd (RmP.del_hdr (file_hdr_ h) rid pages)) (RmP.del_rec (file_hdr_ h) rid pages)
    (RmP.del_chain (file_hdr_ h) rid pages chain) ->
  rid_page_no rid ∈ RmP.del_chain (file_hdr_ h) rid pages chain.
Proof.
  intros Hrep Hx Hrep'. unfold RmP.rec_at in Hx. destruct (pages !! rid_page_no rid) as [ap|] eqn:Hi; [|done].
  apply (RmP.rp_chain _ _ _ _ _ Hrep'). unfold RmP.del_rec. rewrite Hi. eexists. split; [apply lookup_insert_eq|]. simpl.
  destruct (RmP.rp_pages _ _ _ _ _ Hrep _ _ Hi) as (b & _ & Hr & _).
  pose proof (size_bound _ (RmP.rp_hdr _ _ _ _ _ Hrep) ap b Hr).
  assert (num_records_per_page (RmP.del_hdr (file_hdr_ h) rid pages) = num_records_per_page (file_hdr_ h)) as ->
    by (unfold RmP.del_hdr; by destruct (RmP.del_full _ _ _)).
  rewrite map_size_delete, Hx. simpl.
  assert (stdpp.base.size (ap_recs ap) <> 0%nat).
  { intros E0. apply map_size_empty_inv in E0. by rewrite E0, lookup_empty in Hx. }
  lia.
Qed.

(** * Properties *)

(** For every record size the table layer admits (1 to 2048 bytes) the page layout
    chosen by [create_file] has at least one slot, the bitmap has a bit for every
    slot, and page header, bitmap and slots together fit into one page. *)
Theorem rm_layout_fits rs :
  1 <= rs <= RM_MAX_RECORD_SIZE ->
  let h := Rm.init_file_hdr rs in
  1 <= num_records_per_page h /\ num_records_per_page h <= 8 * bitmap_size h /\
  sizeof_RmPageHdr + bitmap_size h + num_records_per_page h * record_size h <= PAGE_SIZE.
Proof. intros Hrs. destruct (init_hdr_ok rs Hrs) as [_ [? _] ? _ ?]. done. Qed.

Lemma rm_layout_fits_witness :
  let h := Rm.init_file_hdr 2048 in
  1 <= num_records_per_page h /\ num_records_per_page h <= 8 * bitmap_size h /\
  sizeof_RmPageHdr + bitmap_size h + num_records_per_page h * record_size h <= PAGE_SIZE.
Proof. apply (rm_layout_fits 2048). unfold RM_MAX_RECORD_SIZE. lia. Defined.

Section map.
Context {S : Type} {PS : PageStore S} {PL : PageStoreLaws S}.
Context (C : S -> Prop) (HC : RmP.framed C).

(** C2: [insert_record] returns a record id that was free, stores the bytes given under
    it and changes no other record; the file invariant (bitmap, counters, free
    chain) is kept, and [get_record] of the new id returns the bytes.  When every
    page is full it allocates a page, which needs a page number below 2^19. *)
Theorem rm_insert_correct (W : Z -> WriteRecord -> Prop) (D : WriteRecord -> S -> Prop) (HD : forall w, RmP.framed (D w)) ctx s h pages chain buf :
  RmP.rep C s h pages chain -> RmP.ctx_ok C W D ctx ->
  (forall name rid, 1 <= rid_page_no rid <= num_pages (file_hdr_ h) -> valid_slot (file_hdr_ h) (rid_slot_no rid) ->
     W (fd_ h) (RmP.ins_write name rid (file_hdr_ h) buf)) ->
  record_size (file_hdr_ h) <= zlen buf -> (chain = [] -> num_pages (file_hdr_ h) < 2 ^ 19) ->
  exists rid t name pages' chain', Rm.insert_record ctx buf (s, h) = (Ok rid, t) /\
    RmP.rep (D (RmP.ins_write name rid (file_hdr_ h) buf)) t.1 t.2 pages' chain' /\ RmP.rec_at pages rid = None /\
    (forall r, RmP.rec_at pages' r =
       if decide (r = rid) then Some (slice 0 (record_size (file_hdr_ h)) buf) else RmP.rec_at pages r) /\
    exists t', Rm.get_record rid t =
      (Ok (mkRmRecord (slice 0 (record_size (file_hdr_ h)) buf) (record_size (file_hdr_ h))), t').
Proof.
  intros Hrep Hctx HW Hbuf Hnew.
  destruct (RmP.insert_record_spec C W D HC HD s h pages chain ctx buf Hrep Hctx HW Hbuf Hnew)
    as (rid & [s1 h1] & E & name & pages' & chain' & Hrep' & _ & Hrs & Hnone & Hall). simpl in *.
  exists rid, (s1, h1), name, pages', chain'. split; [done|]. split; [done|]. split; [done|]. split; [done|].
  destruct (RmP.get_record_spec _ (HD (RmP.ins_write name rid (file_hdr_ h) buf)) s1 h1 pages' chain' rid (slice 0 (record_size (file_hdr_ h)) buf))
    as (r & t & Eg & -> & _); [done|by rewrite Hall, decide_True|].
  exists t. by rewrite Eg, Hrs.
Qed.

(** C3: [delete_record] of an existing record removes exactly that record; a page that
    was full returns to the free chain, and the file invariant is kept. *)
Theorem rm_delete_correct c s h pages chain rid x :
  RmP.rep C s h pages chain -> RmP.quietly C (ctx_get_so_far_lsn c) (fun _ => True) -> RmP.rec_at pages rid = Some x ->
  exists t pages' chain', Rm.delete_record (Some c) rid (s, h) = (Ok tt, t) /\
    RmP.rep C t.1 t.2 pages' chain' /\
    (forall r, RmP.rec_at pages' r = if decide (r = rid) then None else RmP.rec_at pages r) /\
    (rid_page_no rid ∈ chain').
Proof.
  intros Hrep Hctx Hx.
  destruct (RmP.delete_record_spec C HC s h pages chain c rid x Hrep Hctx Hx) as ([] & [s1 h1] & E & s2 & Ht & Hrep').
  simplify_eq. eexists _, _, _. split; [exact E|]. split; [exact Hrep'|]. simpl in *.
  split; [intros r; by eapply RmP.rec_at_del|by eapply deleted_in_chain].
Qed.

(** [update_record] of an existing record replaces its bytes and nothing else. *)
Theorem rm_update_correct c s h pages chain rid x buf :
  RmP.rep C s h pages chain -> RmP.quietly C (ctx_get_so_far_lsn c) (fun _ => True) -> RmP.rec_at pages rid = Some x ->
  record_size (file_hdr_ h) <= zlen buf ->
  exists t pages', Rm.update_record (Some c) rid buf (s, h) = (Ok tt, t) /\
    RmP.rep C t.1 h pages' chain /\
    (forall r, RmP.rec_at pages' r =
       if decide (r = rid) then Some (slice 0 (record_size (file_hdr_ h)) buf) else RmP.rec_at pages r).
Proof.
  intros Hrep Hctx Hx Hbuf.
  destruct (RmP.update_record_spec C HC s h pages chain c rid x buf Hrep Hctx Hx Hbuf) as ([] & t & E & s2 & -> & Hrep').
  eexists _, _. split; [exact E|]. split; [exact Hrep'|].
  unfold RmP.rec_at in Hx. destruct (pages !! rid_page_no rid) as [ap|] eqn:Hi; [|done].
  intros r. by eapply RmP.rec_at_put.
Qed.
End map.

(** ** Witnesses *)

Lemma rm_insert_correct_witness :
  exists rid t (name : string) pages' chain', Rm.insert_record (Some demo_ctx) [1; 2; 3; 4; 5; 6; 7; 8] (demo_rm_store, demo_handle) = (Ok rid, t) /\
    RmP.rep (fun _ => True) t.1 t.2 pages' chain' /\ RmP.rec_at ∅ rid = None /\
    (forall r, RmP.rec_at pages' r =
       if decide (r = rid) then Some (slice 0 (record_size (file_hdr_ demo_handle)) [1; 2; 3; 4; 5; 6; 7; 8]) else RmP.rec_at ∅ r) /\
    exists t', Rm.get_record rid t =
      (Ok (mkRmRecord (slice 0 (record_size (file_hdr_ demo_handle)) [1; 2; 3; 4; 5; 6; 7; 8]) (record_size (file_hdr_ demo_handle))), t').
Proof.
  apply (rm_insert_correct (fun _ => True) trivially_framed (fun _ _ => True) (fun _ _ => True) (fun _ => trivially_framed) (Some demo_ctx) demo_rm_store demo_handle ∅ []
           [1; 2; 3; 4; 5; 6; 7; 8]).
  - exact demo_rm_rep.
  - exact demo_ctx_laws.
  - done.
  - vm_compute. congruence.
  - intros _. vm_compute. reflexivity.
Defined.

(** the file after one insertion *)
Lemma demo_known_record : exists s h pages chain rid,
  RmP.rep (fun _ => True) s h pages chain /\ RmP.rec_at pages rid = Some [1; 2; 3; 4; 5; 6; 7; 8] /\ record_size (file_hdr_ h) = 8 /\ forall r y, RmP.rec_at pages r = Some y -> r = rid.
Proof.
  destruct (RmP.insert_record_spec (fun _ => True) (fun _ _ => True) (fun _ _ => True) trivially_framed (fun _ => trivially_framed) demo_rm_store demo_handle ∅ [] None [1; 2; 3; 4; 5; 6; 7; 8])
    as (rid & [s1 h1] & E & name & pages' & chain' & Hrep' & _ & Hrs & Hnone & Hall).
  - exact demo_rm_rep.
  - done.
  - done.
  - vm_compute. congruence.
  - intros _. vm_compute. reflexivity.
  - exists s1, h1, pages', chain', rid. split; [exact Hrep'|]. split; [rewrite Hall, decide_True by done; by vm_compute|]. split; [done|].
    intros r y. rewrite Hall. destruct (decide (r = rid)); [done|]. unfold RmP.rec_at. by rewrite lookup_empty.
Qed.
Lemma demo_only_record : exists s h pages chain rid x,
  RmP.rep (fun _ => True) s h pages chain /\ RmP.rec_at pages rid = Some x /\ record_size (file_hdr_ h) = 8 /\ forall r y, RmP.rec_at pages r = Some y -> r = rid.
Proof. destruct demo_known_record as (s & h & pages & chain & rid & H). exists s, h, pages, chain, rid. by eexists. Qed.
Lemma demo_one_record : exists s h pages chain rid x,
  RmP.rep (fun _ => True) s h pages chain /\ RmP.rec_at pages rid = Some x /\ record_size (file_hdr_ h) = 8.
Proof. destruct demo_only_record as (s & h & pages & chain & rid & x & H1 & H2 & H3 & _). by exists s, h, pages, chain, rid, x. Qed.

Lemma rm_delete_correct_witness : exists s h pages (chain : list Z) rid,
  exists t pages' chain', Rm.delete_record (Some demo_ctx) rid (s, h) = (Ok tt, t) /\
    RmP.rep (fun _ => True) t.1 t.2 pages' chain' /\
    (forall r, RmP.rec_at pages' r = if decide (r = rid) then None else RmP.rec_at pages r) /\
    (rid_page_no rid ∈ chain').
Proof.
  destruct demo_one_record as (s & h & pages & chain & rid & x & Hrep & Hx & _). exists s, h, pages, chain, rid.
  exact (rm_delete_correct (fun _ => True) trivially_framed demo_ctx s h pages chain rid x Hrep (RmP.cl_lsn _ _ _ _ demo_ctx_laws) Hx).
Defined.

Lemma rm_update_correct_witness : exists s h pages chain rid,
  exists t pages', Rm.update_record (Some demo_ctx) rid [9; 9; 9; 9; 9; 9; 9; 9] (s, h) = (Ok tt, t) /\
    RmP.rep (fun _ => True) t.1 h pages' chain /\
    (forall r, RmP.rec_at pages' r =
       if decide (r = rid) then Some (slice 0 (record_size (file_hdr_ h)) [9; 9; 9; 9; 9; 9; 9; 9]) else RmP.rec_at pages r).
Proof.
  destruct demo_one_record as (s & h & pages & chain & rid & x & Hrep & Hx & Hrs). exists s, h, pages, chain, rid.
  apply (rm_update_correct (fun _ => True) trivially_framed demo_ctx s h pages chain rid x _ Hrep (RmP.cl_lsn _ _ _ _ demo_ctx_laws) Hx).
  rewrite Hrs. vm_compute. congruence.
Defined.

(** ** Full scans *)

Section scan.
Context {S : Type} {PS : PageStore S} {PL : PageStoreLaws S}.
Context (C : S -> Prop) (HC : RmP.framed C).
Local Open Scope prog_scope.

(** the loop every caller of [RmScan] writes:
    [for (RmScan scan(fh); !scan.is_end(); scan.next()) ... scan.rid() ...] *)
Fixpoint scan_from (fuel : nat) (r : Rid) : Prog (Rm.St (S:=S)) (list Rid) :=
  match fuel with
  | O => fail OutOfFuel
  | Datatypes.S fuel =>
      if Rm.scan_is_end r then ret []
      else let* r' := Rm.scan_next r in let* l := scan_from fuel r' in ret (r :: l)
  end.
Definition full_scan (fuel : nat) : Prog (Rm.St (S:=S)) (list Rid) :=
  let* r := Rm.scan_begin in scan_from fuel r.

(** strictly increasing in scan order *)
Definition rid_lt (a b : Rid) : Prop := RmP.rid_le (rid_page_no a) (rid_slot_no a + 1) b.

(** positions left in the file after [(i, j)] *)
Definition positions_left (h : RmFileHandle) (i j : Z) : Z :=
  (num_pages (file_hdr_ h) - i) * num_records_per_page (file_hdr_ h) - j.

Lemma rid_le_dec i j r : Decision (RmP.rid_le i j r).
Proof. unfold RmP.rid_le. apply _. Qed.

Lemma scan_from_spec h pages chain fuel : forall s i j r,
  RmP.rep C s h pages chain -> RmP.first_from pages i j r -> 1 <= i -> 0 <= j ->
  (r = RmP.rid_end \/ positions_left h (rid_page_no r) (rid_slot_no r) < Z.of_nat fuel) -> (0 < fuel)%nat ->
  runs (scan_from fuel r) (s, h) (fun l t => exists s', t = (s', h) /\ RmP.rep C s' h pages chain /\
    StronglySorted rid_lt l /\ forall q, q ∈ l <-> RmP.has_rec pages q /\ RmP.rid_le i j q).
Proof.
  induction fuel as [|fuel IH]; intros s i j r Hrep Hf Hi Hj Hfuel Hpos; [lia|]. cbn [scan_from].
  destruct Hf as [[-> Hnone]|(Hr & Hle & Hmin)].
  - simpl. rstep. exists s. split; [done|]. split; [done|]. split; [constructor|].
    intros q. rewrite elem_of_nil. split; [done|]. intros [Hq Hl]. by apply (Hnone q).
  - destruct (RmP.has_rec_bounds _ _ _ _ _ _ Hrep Hr) as [Hb1 [Hb2 Hb3]].
    assert (Rm.scan_is_end r = false) as ->.
    { unfold Rm.scan_is_end, INVALID_PAGE_ID. destruct (Z.eqb_spec (rid_page_no r) (-1)); [lia|done]. }
    eapply runs_bind; [by apply (RmP.scan_next_spec C HC s h pages chain r)|].
    intros r' t (s1 & -> & Hrep1 & Hf1). destruct Hfuel as [->|Hfuel]; [simpl in Hb1; unfold INVALID_PAGE_ID in *; lia|].
    assert (Hleft : 1 <= positions_left h (rid_page_no r) (rid_slot_no r)) by (unfold positions_left; nia).
    eapply runs_bind.
    + apply (IH s1 (rid_page_no r) (rid_slot_no r + 1) r'); [done|done|lia|lia| |lia].
      destruct Hf1 as [[-> _]|(Hr' & Hle' & _)]; [by left|right].
      destruct (RmP.has_rec_bounds _ _ _ _ _ _ Hrep Hr') as [? [? ?]]. unfold RmP.rid_le, positions_left in *. nia.
    + intros l t (s2 & -> & Hrep2 & Hsorted & Hmem). rstep. exists s2. split; [done|]. split; [done|]. split.
      * constructor; [done|]. apply Forall_forall. intros q Hq. by apply Hmem in Hq as [_ ?].
      * intros q. rewrite elem_of_cons, Hmem. split.
        -- intros [->|[Hq Hlq]]; [done|]. split; [done|]. unfold RmP.rid_le in *. lia.
        -- intros [Hq Hlq]. pose proof (Hmin q Hq Hlq) as Hge. destruct r as [a b], q as [c d]; simpl in *.
           destruct (decide (mkRid c d = mkRid a b)) as [->|Hne]; [by left|right]. split; [done|].
           assert (c <> a \/ d <> b) by (destruct (decide (c = a)), (decide (d = b)); try lia; congruence).
           unfold RmP.rid_le in *. simpl in *. lia.
Qed.

(** A full scan with [RmScan] terminates and yields every record of the table
    exactly once, in increasing order of page and slot, and nothing else; it does
    not change the table.  The fuel is one more than the number of slots. *)
Theorem rm_scan_enumerates s h pages chain fuel :
  RmP.rep C s h pages chain ->
  num_pages (file_hdr_ h) * num_records_per_page (file_hdr_ h) < Z.of_nat fuel ->
  exists l s', full_scan fuel (s, h) = (Ok l, (s', h)) /\ RmP.rep C s' h pages chain /\
    StronglySorted rid_lt l /\ forall r, r ∈ l <-> is_Some (RmP.rec_at pages r).
Proof.
  intros Hrep Hfuel. pose proof (RmP.rp_hdr _ _ _ _ _ Hrep) as Hhd. pose proof (RmP.rp_range _ _ _ _ _ Hrep).
  destruct (RmP.scan_begin_spec C HC s h pages chain Hrep) as (r & t & E & s1 & -> & Hrep1 & Hf).
  destruct (scan_from_spec h pages chain fuel s1 1 0 r Hrep1 Hf) as (l & t & E2 & s2 & -> & Hrep2 & Hs & Hm).
  - lia.
  - lia.
  - destruct Hf as [[-> _]|(Hr & _)]; [by left|right].
    destruct (RmP.has_rec_bounds _ _ _ _ _ _ Hrep Hr) as [? [? ?]]. unfold positions_left. destruct Hhd. nia.
  - destruct Hhd. nia.
  - exists l, s2. split; [unfold full_scan; by rewrite (bind_ok _ _ _ _ _ E)|]. split; [done|]. split; [done|].
    intros q. rewrite Hm. split; [by intros [? _]|]. intros Hq. split; [done|].
    destruct (RmP.has_rec_bounds _ _ _ _ _ _ Hrep Hq) as [? [? ?]]. unfold RmP.rid_le.
    destruct (decide (rid_page_no q = 1)); lia.
Qed.
End scan.

Lemma rm_scan_enumerates_witness : exists s h pages chain,
  exists l s', full_scan (PS:=bpm_store) 5000 (s, h) = (Ok l, (s', h)) /\ RmP.rep (fun _ => True) s' h pages chain /\
    StronglySorted rid_lt l /\ forall r, r ∈ l <-> is_Some (RmP.rec_at pages r).
Proof.
  exists demo_rm_store, demo_handle, ∅, [].
  apply (rm_scan_enumerates (fun _ => True) trivially_framed demo_rm_store demo_handle ∅ [] 5000 demo_rm_rep).
  vm_compute. reflexivity.
Defined.

(** ** The insertion used by recovery *)

Section recovery.
Context {S : Type} {PS : PageStore S} {PL : PageStoreLaws S}.

(** the page at the head of the free chain is pinned (any number of times) *)
Definition head_pinned (fd pn : Z) (s : S) : Prop :=
  ps_inv s /\ 0 < ps_pins s (mkPageId fd pn) /\ exists b, ps_page s (mkPageId fd pn) b.

Lemma fetch_free_same s fd hd pn :
  first_free_page_no hd = pn -> pn <> -1 -> ps_inv s -> (exists b, ps_page s (mkPageId fd pn) b) ->
  0 < ps_pins s (mkPageId fd pn) \/ 0 < ps_room s -> 0 <= ps_pins s (mkPageId fd pn) ->
  runs Rm.fetch_free_page_handle (s, mkRmFileHandle fd hd) (fun p t => exists s',
    t = (s', mkRmFileHandle fd hd) /\ head_pinned fd pn s' /\ ps_handle s' p (mkPageId fd pn)).
Proof.
  intros Hff Hne Hi [b Hb] Hroom Hnn. unfold Rm.fetch_free_page_handle, Rm.hdr, Rm.get_fd.
  rstep. rstep. simpl. rewrite Hff. destruct (Z.eqb_spec pn (-1)); [lia|].
  destruct (ps_fetch s (mkPageId fd pn) b Hi Hb Hroom) as (r & s1 & E & p & -> & H1 & H2 & H3 & H4 & H5 & _).
  eapply RmP.step_lift; [exact E|]. cbv iota. rstep. exists s1. split; [done|]. split; [|done].
  split; [done|]. split; [lia|by eexists].
Qed.

Lemma skip_to_page_diverges fd hd pn target : first_free_page_no hd = pn -> pn <> -1 -> pn < target ->
  forall fuel s p, head_pinned fd pn s -> ps_handle s p (mkPageId fd pn) ->
  (Rm.skip_to_page fuel target p (s, mkRmFileHandle fd hd)).1 = Fail OutOfFuel.
Proof.
  intros Hff Hne Hlt. induction fuel as [|fuel IH]; intros s p (Hi & Hpins & b & Hb) Hh; [done|]. cbn [Rm.skip_to_page].
  pose proof (ps_page_id s p _ b Hi Hh Hb) as Eid.
  erewrite bind_ok by (unfold Rm.lift, zoom; simpl; by rewrite Eid). simpl.
  destruct (Z.ltb_spec pn target); [|lia].
  destruct (fetch_free_same s fd hd pn Hff Hne Hi) as (p' & t & E & s' & -> & Hp' & Hh'); [by eexists|by left|lia|].
  rewrite (bind_ok _ _ _ _ _ E). by apply IH.
Qed.

(** C40: The recovery insertion [insert_record(rid, buf)] loops forever whenever the
    first page with free space comes before the page of [rid]: the [while] loop
    fetches that same page again and again (pinning it each time), since fetching
    a free page does not advance [first_free_page_no].  No amount of fuel helps. *)
Theorem rm_recovery_insert_diverges (C : S -> Prop) s h pages pn chain rid buf :
  RmP.rep C s h pages (pn :: chain) -> pn < rid_page_no rid ->
  forall fuel, (Rm.insert_record_at fuel rid buf (s, h)).1 = Fail OutOfFuel.
Proof.
  intros Hrep Hlt fuel. destruct h as [fd hd]. pose proof (RmP.rp_first _ _ _ _ _ Hrep) as Hff. simpl in Hff.
  assert (Hin : pn ∈ pn :: chain) by constructor. apply (RmP.rp_chain _ _ _ _ _ Hrep) in Hin as (ap & Hp & _).
  destruct (RmP.rp_pages _ _ _ _ _ Hrep pn ap Hp) as (b & Hb & _ & Hz). simpl in *.
  assert (1 <= pn < num_pages hd) by (apply (RmP.rp_dom _ _ _ _ _ Hrep); by eexists).
  destruct (fetch_free_same s fd hd pn Hff) as (p & t & E & s' & -> & Hp' & Hh');
    [lia|apply Hrep|by eexists|right; apply Hrep|lia|].
  unfold Rm.insert_record_at. rewrite (bind_ok _ _ _ _ _ E).
  pose proof (skip_to_page_diverges fd hd pn (rid_page_no rid) Hff ltac:(lia) Hlt fuel s' p Hp' Hh') as Hd.
  destruct (Rm.skip_to_page fuel (rid_page_no rid) p (s', mkRmFileHandle fd hd)) as [o t] eqn:Es. simpl in Hd. subst o.
  by rewrite (bind_fail _ _ _ _ _ Es).
Qed.
End recovery.

(** a file whose free chain is not empty *)
Lemma demo_free_page : exists s h pages pn chain, RmP.rep (PL:=bpm_store_laws) (fun _ => True) s h pages (pn :: chain).
Proof.
  destruct demo_one_record as (s & h & pages & chain & rid & x & Hrep & Hx & _).
  destruct (RmP.delete_record_at_spec (fun _ => True) trivially_framed s h pages chain rid x Hrep Hx)
    as ([] & t & _ & s' & -> & Hrep'). simpl in Hrep'.
  pose proof (deleted_in_chain _ s h pages chain s' _ rid x Hrep Hx Hrep') as Hin.
  destruct (RmP.del_chain (file_hdr_ h) rid pages chain) as [|pn l]; [by apply elem_of_nil in Hin|]. eauto 6.
Qed.

Lemma rm_recovery_insert_diverges_witness : exists s h rid,
  forall fuel, (Rm.insert_record_at (PageStore0:=bpm_store) fuel rid [1; 2; 3; 4; 5; 6; 7; 8] (s, h)).1 = Fail OutOfFuel.
Proof.
  destruct demo_free_page as (s & h & pages & pn & chain & Hrep). exists s, h, (mkRid (pn + 1) 0).
  apply (rm_recovery_insert_diverges (fun _ => True) s h pages pn chain (mkRid (pn + 1) 0) _ Hrep).
  simpl. lia.
Defined.
