(* ===== verification/RmDurable.v ===== *)
(** Closing a table and opening it again gives back the same table: the header is
    written to page 0, every page is flushed, the frames are released, and the new
    descriptor reads the same file.  Also: a created file opens as an empty table. *)

From S2P Require Import Prelude Bytes Errors Lru Disk BufferPool BufferPoolProofs BufferPoolProps.
From S2P Require Import PageStore Bitmap Defs RmFile RmPage RmProofs RmProps.
Import BpmInv RmPage.

Module RmD.

(** ** Changing the disk under the pool *)

Lemma binv_disk s d' :
  binv s -> Dsk.dinv d' ->
  (forall f p, pages_ (bpm s) !! f = Some p -> resident p ->
     valid_page d' (id_ p) /\ (synced (disk s) p -> synced d' p)) ->
  binv (mkStore d' (bpm s)).
Proof.
  intros [Hd Hs Hl La Lp [K1 K2 K3 K4 K5 K6 K7 K8]] Hd' Hp. split; simpl; try done.
  split; try done.
  - intros f p Hf Hr. by apply (Hp f).
  - intros f p Hf Hr Hz. apply (Hp f p Hf Hr). by eapply K8.
Qed.

Lemma binv_dpres s d' (P : PageId -> Prop) :
  binv s -> dpres P (disk s) d' -> (forall k, ~ P k -> frame_of s k = None) ->
  (forall k, Decision (P k)) ->
  binv (mkStore d' (bpm s)).
Proof.
  intros Hb Hd HP Hdec. apply binv_disk; [done|apply Hd|]. intros f p Hf Hr.
  pose proof (pk_key _ _ _ _ _ (bi_pool _ Hb) f p Hf Hr) as Hv. split; [by eapply dpres_valid|].
  apply (dpres_synced _ _ _ _ Hd); [|apply Hv].
  destruct (Hdec (id_ p)) as [?|Hn]; [done|]. apply HP in Hn. rewrite (frame_of_intro s f p) in Hn; done.
Qed.

(** writing the file header in place *)
Lemma header_dpres d g c w :
  Dsk.dinv d -> Dsk.registered g d -> Dsk.content g d = Some c -> zlen w <= PAGE_SIZE ->
  runs (Dsk.write_page g 0 w) d (fun _ d' =>
    dpres (fun j => j <> mkPageId g 0) d d' /\ Dsk.file_head g (zlen w) d' = Some w).
Proof.
  intros Hd Hr Hc Hw. assert (Hok : Dsk.page_ok 0) by (unfold Dsk.page_ok; lia).
  eapply runs_conseq; [by apply (Dsk.write_page_runs d g 0 w c)|]. intros [] d' Hwr.
  change (0 * PAGE_SIZE) with 0 in Hwr. pose proof (zlen_nonneg w) as Hw0. pose proof (zlen_nonneg c). split.
  - eapply wrote_dpres; [done| |].
    + intros j x Hj Hrj. unfold Dsk.disk_page. destruct (decide (fd j = g)) as [E|Hne].
      * rewrite E, Hc, (Dsk.wr_same _ _ _ _ Hwr), Dsk.zlen_file_write by lia.
        assert (page_no j <> 0) by (intros E0; apply Hj; destruct j; simpl in *; congruence).
        destruct ((0 <=? page_no j) && _) eqn:Eb; [|done]. apply andb_true_iff in Eb as [E1%Z.leb_le E2%Z.leb_le].
        intros [= <-]. rewrite (proj2 (Z.leb_le 0 (page_no j)) E1). simpl.
        rewrite (proj2 (Z.leb_le ((page_no j + 1) * PAGE_SIZE) _)) by lia. f_equal.
        apply Dsk.file_write_disj; unfold PAGE_SIZE in *; lia.
      * by rewrite (Dsk.wr_other _ _ _ _ Hwr).
    + intros g' n x Hg' _ Hrg Hx. rewrite (Dsk.wrote_head_other d d' g _ g' n Hwr); [done|congruence|done].
  - unfold Dsk.file_head. rewrite (Dsk.wr_same _ _ _ _ Hwr), Dsk.zlen_file_write by lia.
    destruct (Z.leb_spec 0 (zlen w)); [|lia]. destruct (Z.leb_spec (zlen w) (Z.max (zlen c) (0 + zlen w))); [|lia].
    simpl. f_equal. by apply Dsk.file_write_same.
Qed.

(** ** Closing a descriptor *)

Lemma content_close d g h : h <> g -> Dsk.content h (Dsk.close_file g d).2 = Dsk.content h d.
Proof.
  intros Hne. unfold Dsk.close_file. destruct (fd2path_ d !! g); [|done].
  unfold Dsk.content. simpl. by rewrite lookup_delete_ne.
Qed.

Lemma registered_close d g h : h <> g -> Dsk.registered h (Dsk.close_file g d).2 <-> Dsk.registered h d.
Proof.
  intros Hne. unfold Dsk.close_file, Dsk.registered. destruct (fd2path_ d !! g) as [p|] eqn:E; [|done].
  simpl. by rewrite lookup_delete_ne.
Qed.

Lemma pageno_close d g h : Dsk.get_fd2pageno h (Dsk.close_file g d).2 = Dsk.get_fd2pageno h d.
Proof. unfold Dsk.close_file. by destruct (fd2path_ d !! g). Qed.

Lemma binv_close s g :
  binv s -> (forall k, fd k = g -> frame_of s k = None) -> binv (mkStore (Dsk.close_file g (disk s)).2 (bpm s)).
Proof.
  intros Hb Hno. apply binv_disk; [done|apply Dsk.dinv_close_file, Hb|]. intros f p Hf Hr.
  assert (Hne : fd (id_ p) <> g).
  { intros E. apply Hno in E. by rewrite (frame_of_intro s f p) in E. }
  destruct (pk_key _ _ _ _ _ (bi_pool _ Hb) f p Hf Hr) as (V1 & V2 & V3). split.
  - split_and!; [by apply registered_close|done|by rewrite pageno_close].
  - intros [?|Hx]; [by left|right]. unfold Dsk.disk_page in *. by rewrite content_close.
Qed.

(** ** Opening a file that is on disk *)

Lemma lowest_from_le n c g used : used !! g = None -> c <= g -> Dsk.lowest_from n c used <= g.
Proof.
  intros Hg. revert c. induction n as [|n IH]; intros c Hc; simpl; [done|].
  destruct (used !! c) eqn:E; [|done]. apply IH. assert (c <> g) by congruence. lia.
Qed.

Record opened (d d' : Disk) (name : string) (g : Z) (c : list Z) : Prop := {
  op_inv : Dsk.dinv d';
  op_fresh : fds d !! g = None;
  op_path : fd2path_ d' !! g = Some name;
  op_content : Dsk.content g d' = Some c;
  op_other : forall h, h <> g -> Dsk.content h d' = Dsk.content h d;
  op_paths : forall h p, fd2path_ d !! h = Some p -> fd2path_ d' !! h = Some p;
  op_files : dir d' = dir d /\ inodes d' = inodes d;
  op_pageno : forall h, Dsk.get_fd2pageno h d' = Dsk.get_fd2pageno h d;
}.

Lemma open_file_opened d name ino c :
  Dsk.dinv d -> path2fd_ d !! name = None -> dir d !! name = Some ino -> inodes d !! ino = Some c ->
  runs (Dsk.open_file name) d (fun g d' => g = Dsk.lowest_fd (fds d) /\ opened d d' name g c).
Proof.
  intros Hd Hp Hi Hc. pose proof (Dsk.dinv_open_file d name Hd) as Hd'. revert Hd'.
  unfold runs, Dsk.open_file, Dsk.sys_open. rewrite Hp, Hi. simpl. intros Hd'.
  eexists _, _. split; [reflexivity|]. split; [done|]. split; simpl; try done.
  - apply Dsk.lowest_fd_fresh.
  - by rewrite lookup_insert_eq.
  - unfold Dsk.content. simpl. by rewrite lookup_insert_eq.
  - intros h Hne. unfold Dsk.content. simpl. by rewrite lookup_insert_ne.
  - intros h p Hh. rewrite lookup_insert_ne; [done|]. intros E. pose proof (Dsk.unregistered_fresh d Hd). congruence.
Qed.

Lemma opened_registered d d' name g c h : opened d d' name g c -> Dsk.registered h d -> Dsk.registered h d'.
Proof. intros Ho [p Hp]. exists p. by apply (op_paths _ _ _ _ _ Ho). Qed.

Lemma fresh_not_registered d g : Dsk.dinv d -> fds d !! g = None -> ~ Dsk.registered g d.
Proof. intros Hd Hf [p Hp]. destruct (Dsk.di_open _ Hd _ _ Hp) as (i & o & E & _). congruence. Qed.

Lemma fresh_no_frame s g k : binv s -> fds (disk s) !! g = None -> fd k = g -> frame_of s k = None.
Proof.
  intros Hb Hf Hk. destruct (frame_of s k) as [p|] eqn:E; [|done]. exfalso.
  destruct (frame_of_inv s k p Hb E) as (f & _ & Hp & <- & Hr).
  destruct (pk_key _ _ _ _ _ (bi_pool _ Hb) f p Hp Hr) as (V & _).
  apply (fresh_not_registered (disk s) g); [apply Hb|done|]. by rewrite <- Hk.
Qed.

Lemma binv_opened s d' name g c :
  binv s -> opened (disk s) d' name g c -> binv (mkStore d' (bpm s)).
Proof.
  intros Hb Ho. apply binv_disk; [done|apply Ho|]. intros f p Hf Hr.
  destruct (pk_key _ _ _ _ _ (bi_pool _ Hb) f p Hf Hr) as (V1 & V2 & V3).
  assert (Hne : fd (id_ p) <> g).
  { intros E. apply (fresh_not_registered (disk s) g); [apply Hb|apply Ho|by rewrite <- E]. }
  split.
  - split_and!; [by apply (opened_registered _ _ _ _ _ _ Ho)|done|by rewrite (op_pageno _ _ _ _ _ Ho)].
  - intros [?|Hx]; [by left|right]. unfold Dsk.disk_page in *. by rewrite (op_other _ _ _ _ _ Ho).
Qed.

(** setting the page counter of a file without frames *)
Lemma binv_set_pageno s g n :
  binv s -> (forall k, fd k = g -> frame_of s k = None) ->
  binv (mkStore (Dsk.set_pageno (<[g := n]>) (disk s)) (bpm s)).
Proof.
  intros Hb Hno. apply binv_disk; [done|destruct (bi_disk _ Hb); by split|]. intros f p Hf Hr.
  destruct (pk_key _ _ _ _ _ (bi_pool _ Hb) f p Hf Hr) as (V1 & V2 & V3).
  assert (Hne : fd (id_ p) <> g).
  { intros E. apply Hno in E. by rewrite (frame_of_intro s f p) in E. }
  split; [|done]. split_and!; [done|done|]. unfold Dsk.get_fd2pageno. simpl. by rewrite lookup_insert_ne.
Qed.

(** *** Files that stay as they are *)

(** what is open stays open, with the same bytes and the same page counter *)
Record grows (d d' : Disk) : Prop := {
  gr_inv : Dsk.dinv d';
  gr_path : forall g p, fd2path_ d !! g = Some p -> fd2path_ d' !! g = Some p;
  gr_content : forall g, Dsk.registered g d -> Dsk.content g d' = Dsk.content g d;
  gr_pageno : forall g, Dsk.registered g d -> Dsk.get_fd2pageno g d' = Dsk.get_fd2pageno g d;
}.

Lemma grows_registered d d' g : grows d d' -> Dsk.registered g d -> Dsk.registered g d'.
Proof. intros Hg [p Hp]. exists p. by apply (gr_path _ _ Hg). Qed.

Lemma grows_trans d1 d2 d3 : grows d1 d2 -> grows d2 d3 -> grows d1 d3.
Proof.
  intros H1 H2. split.
  - apply H2.
  - intros g p Hp. by apply (gr_path _ _ H2), (gr_path _ _ H1).
  - intros g Hg. rewrite (gr_content _ _ H2) by (by apply (grows_registered d1)). by destruct H1 as [_ _ ? ?]; auto.
  - intros g Hg. rewrite (gr_pageno _ _ H2) by (by apply (grows_registered d1)). by destruct H1 as [_ _ ? ?]; auto.
Qed.

Lemma grows_valid d d' k : grows d d' -> valid_page d k -> valid_page d' k.
Proof.
  intros Hg (V1 & V2 & V3). split_and!; [by apply (grows_registered d)|done|]. by rewrite (gr_pageno _ _ Hg).
Qed.

Lemma binv_grows s d' : binv s -> grows (disk s) d' -> binv (mkStore d' (bpm s)).
Proof.
  intros Hb Hg. apply binv_disk; [done|apply Hg|]. intros f p Hf Hr.
  pose proof (pk_key _ _ _ _ _ (bi_pool _ Hb) f p Hf Hr) as Hv. split; [by apply (grows_valid (disk s))|].
  destruct Hv as (V1 & _). intros [?|Hx]; [by left|right]. unfold Dsk.disk_page in *. by rewrite (gr_content _ _ Hg).
Qed.

Lemma page_is_grows s d' k b : grows (disk s) d' -> page_is s k b -> page_is (mkStore d' (bpm s)) k b.
Proof.
  intros Hg [Hv Hx]. split; [by apply (grows_valid (disk s))|]. change (frame_of _ k) with (frame_of s k). destruct (frame_of s k); [done|].
  destruct Hv as (V1 & _). simpl. unfold Dsk.disk_page in *. by rewrite (gr_content _ _ Hg).
Qed.

(** ** A table on disk *)

(** the bytes of a closed table file *)
Record image (hd : RmFileHdr) (pages : gmap Z apage) (c : list Z) : Prop := {
  im_head : slice 0 sizeof_RmFileHdr c = enc_RmFileHdr hd /\ sizeof_RmFileHdr <= zlen c;
  im_page : forall i ap, pages !! i = Some ap -> (i + 1) * PAGE_SIZE <= zlen c /\
    page_rep hd ap (slice (i * PAGE_SIZE) PAGE_SIZE c);
}.

(** the part of the file invariant that does not mention the store *)
Record table_ok (hd : RmFileHdr) (pages : gmap Z apage) (chain : list Z) : Prop := {
  to_hdr : hdr_ok hd;
  to_range : 1 <= num_pages hd <= 2 ^ 19;
  to_dom : forall i, is_Some (pages !! i) <-> 1 <= i < num_pages hd;
  to_first : first_free_page_no hd = List.hd (-1) chain;
  to_nodup : NoDup chain;
  to_chain : forall i, i ∈ chain <-> exists ap, pages !! i = Some ap /\
    Z.of_nat (stdpp.base.size (ap_recs ap)) < num_records_per_page hd;
  to_linked : RmP.linked pages chain;
}.

Lemma rep_table_ok C (s : Store) h pages chain : RmP.rep C s h pages chain -> table_ok (file_hdr_ h) pages chain.
Proof. intros []. by split. Qed.

Lemma table_int32 hd pages chain : table_ok hd pages chain -> hdr_int32 hd.
Proof.
  intros [H1 H2 H3 H4 _ H6 _]. destruct H1. unfold sizeof_RmPageHdr, PAGE_SIZE, RM_MAX_RECORD_SIZE in *.
  split; unfold int32_ok; try nia. rewrite H4. destruct chain as [|a l]; simpl; [lia|].
  assert (a ∈ a :: l) as Ha by constructor. apply H6 in Ha as (ap & Ha & _).
  assert (1 <= a < num_pages hd) by (apply H3; by eexists). lia.
Qed.

(** *** Opening *)

Lemma read_header d g c buf0 :
  Dsk.dinv d -> Dsk.registered g d -> Dsk.content g d = Some c -> sizeof_RmFileHdr <= zlen c ->
  zlen buf0 = sizeof_RmFileHdr ->
  exists d', Dsk.read_page g RM_FILE_HDR_PAGE buf0 sizeof_RmFileHdr d = (Ok tt, slice 0 sizeof_RmFileHdr c, d') /\
    Dsk.wrote g c d d'.
Proof.
  intros Hd Hr Hc Hlen Hbuf.
  destruct (Dsk.read_page_runs d g RM_FILE_HDR_PAGE buf0 sizeof_RmFileHdr c) as (d' & E & Hw); try done.
  exists d'. rewrite E. change (RM_FILE_HDR_PAGE * PAGE_SIZE) with 0. rewrite splice_all; [done|].
  rewrite zlen_slice; [done|lia|unfold sizeof_RmFileHdr; lia|lia].
Qed.

Lemma wrote_same_dpres d d' g c : Dsk.content g d = Some c -> Dsk.wrote g c d d' -> Dsk.dinv d -> Dsk.registered g d ->
  dpres (fun _ => True) d d'.
Proof.
  intros Hc Hw Hd Hr. eapply wrote_dpres; [done| |].
  - intros j x _ Hj Hx. by rewrite (Dsk.wrote_read_page d d' g c).
  - intros h n x _ _ Hh Hx. by rewrite (Dsk.wrote_read_head d d' g c).
Qed.

Lemma read_page_disk g no buf n d :
  let d' := (Dsk.read_page g no buf n d).2 in dir d' = dir d /\ inodes d' = inodes d /\ log_fd_ d' = log_fd_ d.
Proof.
  unfold Dsk.read_page, Dsk.sys_lseek_set, Dsk.sys_read. repeat case_match; simplify_eq; done.
Qed.

Lemma open_grows s name g c d1 d2 n buf :
  binv s -> opened (disk s) d1 name g c -> Dsk.wrote g c d1 d2 -> d2 = (Dsk.read_page g RM_FILE_HDR_PAGE buf sizeof_RmFileHdr d1).2 ->
  let d3 := Dsk.set_pageno (<[g := n]>) d2 in
  grows (disk s) d3 /\ bpm s = bpm s /\ dir d3 = dir (disk s) /\ inodes d3 = inodes (disk s).
Proof.
  intros Hb Ho Hw Ed d3. destruct (op_files _ _ _ _ _ Ho) as [D1 D2]. destruct (read_page_disk g RM_FILE_HDR_PAGE buf sizeof_RmFileHdr d1) as (R1 & R2 & _). rewrite <- Ed in R1, R2.
  split; [|simpl; by rewrite R1, R2]. assert (Hne : forall h, Dsk.registered h (disk s) -> h <> g).
  { intros h Hh ->. by apply (fresh_not_registered (disk s) g (bi_disk _ Hb) (op_fresh _ _ _ _ _ Ho)). }
  split.
  - destruct (Dsk.wr_inv _ _ _ _ Hw). by split.
  - intros h p Hh. simpl. rewrite (proj2 (Dsk.wr_tables _ _ _ _ Hw)). by apply (op_paths _ _ _ _ _ Ho).
  - intros h Hh. change (Dsk.content h d3) with (Dsk.content h d2). rewrite (Dsk.wr_other _ _ _ _ Hw); [|by apply Hne|by apply (opened_registered _ _ _ _ _ _ Ho)]. apply (op_other _ _ _ _ _ Ho), Hne, Hh.
  - intros h Hh. pose proof (Hne h Hh). unfold Dsk.get_fd2pageno, d3. simpl. rewrite lookup_insert_ne by done.
    rewrite (proj1 (Dsk.wr_rest _ _ _ _ Hw)). apply (op_pageno _ _ _ _ _ Ho).
Qed.

Lemma open_image s name ino c hd pages chain buf0 :
  binv s -> path2fd_ (disk s) !! name = None -> dir (disk s) !! name = Some ino -> inodes (disk s) !! ino = Some c ->
  image hd pages c -> table_ok hd pages chain -> zlen buf0 = sizeof_RmFileHdr ->
  Dsk.lowest_fd (fds (disk s)) < MAX_FD -> 0 < room s ->
  runs (Rm.open_file buf0 name) s (fun h s' => h = mkRmFileHandle (Dsk.lowest_fd (fds (disk s))) hd /\
    RmP.rep (fun _ => True) s' h pages chain /\ fd2path_ (disk s') !! fd_ h = Some name /\
    frame_of s' (mkPageId (fd_ h) 0) = None /\
    grows (disk s) (disk s') /\ bpm s' = bpm s /\ dir (disk s') = dir (disk s) /\ inodes (disk s') = inodes (disk s)).
Proof.
  intros Hb Hp Hi Hc Him Hto Hbuf Hmax Hroom. set (g := Dsk.lowest_fd (fds (disk s))) in *.
  destruct (open_file_opened (disk s) name ino c (bi_disk _ Hb) Hp Hi Hc) as (g' & d1 & E1 & -> & Ho). fold g in E1, Ho.
  pose proof (binv_opened s d1 name g c Hb Ho) as Hb1.
  assert (Hreg1 : Dsk.registered g d1) by (exists name; apply (op_path _ _ _ _ _ Ho)).
  destruct (im_head _ _ _ Him) as [Hhead Hlen].
  destruct (read_header d1 g c buf0 (op_inv _ _ _ _ _ Ho) Hreg1 (op_content _ _ _ _ _ Ho) Hlen Hbuf) as (d2 & E2 & Hw).
  pose proof (wrote_same_dpres d1 d2 g c (op_content _ _ _ _ _ Ho) Hw (op_inv _ _ _ _ _ Ho) Hreg1) as Hdp.
  assert (Hnof : forall k, fd k = g -> frame_of s k = None).
  { intros k Hk. eapply fresh_no_frame; [done|apply Ho|done]. }
  assert (Hb2 : binv (mkStore d2 (bpm s))) by (apply (binv_dpres (mkStore d1 (bpm s)) d2 (fun _ => True)); [done|done|done|apply _]).
  pose proof (binv_set_pageno (mkStore d2 (bpm s)) g (num_pages hd) Hb2 Hnof) as Hb3. simpl in Hb3.
  set (d3 := Dsk.set_pageno (<[g := num_pages hd]>) d2) in *.
  assert (Hreg3 : fd2path_ d3 !! g = Some name).
  { simpl. rewrite (proj2 (Dsk.wr_tables _ _ _ _ Hw)). apply (op_path _ _ _ _ _ Ho). }
  assert (Hnp3 : Dsk.get_fd2pageno g d3 = num_pages hd) by (unfold Dsk.get_fd2pageno; simpl; by rewrite lookup_insert_eq).
  assert (Hg0 : 0 <= g) by (pose proof (Dsk.lowest_from_ge (stdpp.base.size (fds (disk s))) 3 (fds (disk s))); unfold g, Dsk.lowest_fd; lia).
  exists (mkRmFileHandle g hd), (mkStore d3 (bpm s)). split.
  - unfold Rm.open_file. erewrite bind_ok by (unfold Bpm.on_disk, zoom; simpl; rewrite E1; reflexivity).
    unfold Rm.make_handle. erewrite bind_ok by (simpl; rewrite E2; reflexivity). rewrite Hhead.
    rewrite (dec_enc_RmFileHdr hd) by (by eapply table_int32).
    erewrite bind_ok; [reflexivity|]. unfold Bpm.on_disk, zoom, Dsk.set_fd2pageno. simpl.
    destruct (Z.leb_spec 0 g); [|lia]. destruct (Z.ltb_spec g MAX_FD); [|lia]. done.
  - split; [done|]. split; [|split; [done|split; [by apply Hnof|apply (open_grows s name g c d1 d2 _ buf0 Hb Ho Hw); by rewrite E2]]]. destruct Hto.
    split; simpl; try done; [split; [by eexists|done]|]. intros i ap Hap.
    destruct (im_page _ _ _ Him i ap Hap) as [Hle Hpr].
    assert (Hir : 1 <= i < num_pages hd) by (apply to_dom0; by eexists).
    eexists. split; [|split; [exact Hpr|unfold pins; change (frame_of _ _) with (frame_of s (mkPageId g i)); by rewrite Hnof]].
    split; [split_and!; [by eexists|unfold Dsk.page_ok; simpl; lia|simpl; rewrite Hnp3; lia]|].
    change (frame_of _ _) with (frame_of s (mkPageId g i)). rewrite Hnof by done. simpl.
    unfold Dsk.disk_page. change (Dsk.content g d3) with (Dsk.content g d2). rewrite (Dsk.wr_same _ _ _ _ Hw).
    destruct (Z.leb_spec 0 i); [|lia]. destruct (Z.leb_spec ((i + 1) * PAGE_SIZE) (zlen c)); [|lia]. done.
Qed.

(** *** Closing *)

Lemma close_sys d g name :
  Dsk.dinv d -> fd2path_ d !! g = Some name ->
  let d' := (Dsk.close_file g d).2 in
  path2fd_ d' !! name = None /\ fds d' !! g = None /\ dir d' = dir d /\ inodes d' = inodes d /\
  Dsk.close_file g d = (Ok tt, d').
Proof.
  intros Hd Hp. unfold Dsk.close_file. rewrite Hp. simpl. split_and!; try done; apply lookup_delete_eq.
Qed.

Lemma registered_content d g name c :
  Dsk.dinv d -> fd2path_ d !! g = Some name -> Dsk.content g d = Some c ->
  exists ino, dir d !! name = Some ino /\ inodes d !! ino = Some c.
Proof.
  intros Hd Hp Hc. destruct (Dsk.di_open _ Hd _ _ Hp) as (ino & off & Hf & Hi). exists ino. split; [done|].
  unfold Dsk.content in Hc. by rewrite Hf in Hc.
Qed.

(** what a flushed file holds *)
Lemma flushed_image s g hd pages c :
  Dsk.content g (disk s) = Some c -> Dsk.file_head g sizeof_RmFileHdr (disk s) = Some (enc_RmFileHdr hd) ->
  (forall i ap, pages !! i = Some ap -> exists b, page_is s (mkPageId g i) b /\ page_rep hd ap b) ->
  (forall k, fd k = g -> frame_of s k = None) -> image hd pages c.
Proof.
  intros Hc Hh Hp Hno. split.
  - unfold Dsk.file_head in Hh. rewrite Hc in Hh. destruct ((0 <=? _) && _) eqn:E; [|done].
    apply andb_true_iff in E as [_ E%Z.leb_le]. split; [congruence|done].
  - intros i ap Hi. destruct (Hp i ap Hi) as (b & [_ Hb] & Hr). rewrite Hno in Hb by done. simpl in Hb.
    apply Dsk.disk_page_bounds in Hb as (c' & Hc' & H0 & Hlen & -> & _). simplify_eq. done.
Qed.

(** No page of a quiescent table is pinned, so once flushed all its frames are idle. *)
Lemma flushed_idle s s2 h pages chain :
  RmP.rep (fun _ => True) s h pages chain -> frame_of s (mkPageId (fd_ h) 0) = None -> binv s2 ->
  (forall k, pins s2 k = pins s k) ->
  (forall i p, pages_ (bpm s2) !! i = Some p -> of_file (fd_ h) p = true -> is_dirty_ p = false) ->
  forall i p, pages_ (bpm s2) !! i = Some p -> of_file (fd_ h) p = true -> pin_count_ p = 0 /\ is_dirty_ p = false.
Proof.
  intros Hrep Hno0 Hb2 Hpk Hfl i p Hp Hof. pose proof (RmP.rp_inv _ _ _ _ _ Hrep) as Hb. simpl in Hb.
  set (g := fd_ h) in *. split; [|by eapply Hfl].
  apply of_file_spec in Hof as [Hr Hg]. pose proof (frame_of_intro s2 i p Hb2 Hp Hr) as Hfr.
  assert (Hpins : pins s (id_ p) = pin_count_ p) by (rewrite <- Hpk; unfold pins; by rewrite Hfr).
  rewrite <- Hpins. destruct (frame_of s (id_ p)) as [q|] eqn:Efr; [|unfold pins; by rewrite Efr].
  destruct (frame_of_inv s _ q Hb Efr) as (f & _ & Hq & Hid & Hrq).
  destruct (pk_key _ _ _ _ _ (bi_pool _ Hb) f q Hq Hrq) as (_ & Hok & Hlt). rewrite Hid in *.
  assert (page_no (id_ p) <> 0).
  { intros E0. destruct (id_ p) as [a n]; simpl in *. subst a n. congruence. }
  pose proof (RmP.rp_np _ _ _ _ _ Hrep) as Hnp. simpl in Hnp. fold g in Hnp. rewrite Hg in Hlt.
  assert (is_Some (pages !! page_no (id_ p))) as [ap Hap].
  { apply (RmP.rp_dom _ _ _ _ _ Hrep). unfold Dsk.page_ok, npages in *. lia. }
  destruct (RmP.rp_pages _ _ _ _ _ Hrep _ _ Hap) as (b & _ & _ & Hz). simpl in Hz. fold g in Hz. rewrite <- Hg in Hz.
  by destruct (id_ p).
Qed.

Lemma close_file_image s h pages chain name :
  RmP.rep (fun _ => True) s h pages chain -> fd2path_ (disk s) !! fd_ h = Some name ->
  frame_of s (mkPageId (fd_ h) 0) = None ->
  runs (Rm.close_file h) s (fun _ s' => binv s' /\ room s' = room s /\ path2fd_ (disk s') !! name = None /\
    fds (disk s') !! fd_ h = None /\
    exists ino c, dir (disk s') !! name = Some ino /\ inodes (disk s') !! ino = Some c /\ image (file_hdr_ h) pages c).
Proof.
  intros Hrep Hname Hno0. pose proof (RmP.rp_inv _ _ _ _ _ Hrep) as Hb. simpl in Hb.
  set (g := fd_ h) in *. assert (Hreg : Dsk.registered g (disk s)) by (by exists name).
  destruct (Dsk.dinv_content _ _ (bi_disk _ Hb) Hreg) as [c0 Hc0].
  pose proof (zlen_enc_RmFileHdr (file_hdr_ h)) as Hlen.
  destruct (header_dpres (disk s) g c0 (enc_RmFileHdr (file_hdr_ h)) (bi_disk _ Hb) Hreg Hc0) as ([] & d1 & E1 & Hd1 & Hh1);
    [rewrite Hlen; unfold sizeof_RmFileHdr, PAGE_SIZE; lia|]. rewrite Hlen in Hh1.
  set (s1 := mkStore d1 (bpm s)).
  assert (Hb1 : binv s1).
  { apply (binv_dpres s d1 _ Hb Hd1); [|apply _]. intros k Hk. apply dec_stable in Hk. by subst k. }
  assert (Hreg1 : Dsk.registered g d1) by (by apply (dpres_registered _ _ _ g Hd1)).
  assert (Hpg1 : forall j b, j <> mkPageId g 0 -> page_is s j b -> page_is s1 j b).
  { intros j b Hj [Hv Hx]. split; [by eapply dpres_valid|]. change (frame_of s1 j) with (frame_of s j).
    destruct (frame_of s j); [done|]. by apply (dp_page _ _ _ Hd1); [|apply Hv|]. }
  destruct (flush_all_pages_spec s1 g Hb1) as ([] & s2 & E2 & Hb2 & Hk2 & Hfl).
  pose proof (flushed_idle s s2 h pages chain Hrep Hno0 Hb2 (kp_pins _ _ Hk2) (fun i p Hp Ho => proj1 (Hfl i p Hp Ho))) as Hidle.
  destruct (free_all_pages_spec s2 g Hb2 Hidle) as ([] & s3 & E3 & Hb3 & Hk3 & Hnof).
  pose proof (keeps_trans _ _ _ Hk2 Hk3) as Hk. destruct (kp_tables _ _ Hk) as (T1 & T2 & T3). simpl in T1, T2, T3.
  destruct (kp_head _ _ Hk g sizeof_RmFileHdr (enc_RmFileHdr (file_hdr_ h))) as [_ Hh3];
    [done|unfold sizeof_RmFileHdr, PAGE_SIZE; lia|done|done|].
  assert (Hp3 : fd2path_ (disk s3) !! g = Some name) by (rewrite T2, (proj1 (proj2 (dp_tables _ _ _ Hd1))); done).
  destruct (Dsk.dinv_content g (disk s3) (bi_disk _ Hb3)) as [c Hc]; [by exists name|].
  destruct (registered_content (disk s3) g name c (bi_disk _ Hb3) Hp3 Hc) as (ino & Hi & Hc').
  destruct (close_sys (disk s3) g name (bi_disk _ Hb3) Hp3) as (C1 & C2 & C3 & C4 & C5).
  exists tt, (mkStore (Dsk.close_file g (disk s3)).2 (bpm s3)). split.
  - unfold Rm.close_file. fold g. change RM_FILE_HDR_PAGE with 0. erewrite bind_ok by (unfold Bpm.on_disk, zoom; rewrite E1; reflexivity).
    rewrite (bind_ok _ _ _ _ _ E2), (bind_ok _ _ _ _ _ E3). unfold Bpm.on_disk, zoom. by rewrite C5.
  - split; [by apply binv_close|]. split; [apply (kp_room _ _ Hk)|]. split; [done|]. split; [done|].
    exists ino, c. simpl. rewrite C3, C4. split; [done|]. split; [done|].
    eapply (flushed_image s3 g); [done|done| |done]. intros i ap Hap.
    destruct (RmP.rp_pages _ _ _ _ _ Hrep i ap Hap) as (b & Hbp & Hr & _). exists b. split; [|done].
    apply (kp_page _ _ Hk), Hpg1; [|done]. intros [= E0].
    assert (1 <= i < num_pages (file_hdr_ h)) by (apply (RmP.rp_dom _ _ _ _ _ Hrep); by eexists). lia.
Qed.
End RmD.

(** * Properties *)

(** C23: A table survives being closed and opened again: after [close_file] and
    [open_file] of the same name the handle has the same header and the table has
    exactly the same records, with the same free chain. *)
Theorem rm_close_reopen s h pages chain name buf0 :
  RmP.rep (fun _ => True) s h pages chain -> fd2path_ (disk s) !! fd_ h = Some name ->
  frame_of s (mkPageId (fd_ h) 0) = None -> zlen buf0 = sizeof_RmFileHdr ->
  exists s1 h' s2, Rm.close_file h s = (Ok tt, s1) /\ Rm.open_file buf0 name s1 = (Ok h', s2) /\
    file_hdr_ h' = file_hdr_ h /\ RmP.rep (fun _ => True) s2 h' pages chain.
Proof.
  intros Hrep Hname Hno0 Hbuf. pose proof (RmP.rp_inv _ _ _ _ _ Hrep) as Hb. simpl in Hb.
  destruct (RmD.close_file_image s h pages chain name Hrep Hname Hno0)
    as ([] & s1 & E1 & Hb1 & Hroom & Hpath & Hfd & ino & c & Hi & Hc & Him).
  destruct (RmP.rp_file _ _ _ _ _ Hrep) as [_ Hmax].
  assert (Hge : 3 <= fd_ h).
  { destruct (Dsk.di_open _ (bi_disk _ Hb) _ _ Hname) as (i & o & E & _). by apply (Dsk.di_fds _ (bi_disk _ Hb)) in E as [? _]. }
  pose proof (RmD.lowest_from_le (stdpp.base.size (fds (disk s1))) 3 (fd_ h) (fds (disk s1)) Hfd Hge) as Hlow.
  destruct (RmD.open_image s1 name ino c (file_hdr_ h) pages chain buf0) as (h' & s2 & E2 & -> & Hrep2 & _); try done.
  - by eapply RmD.rep_table_ok.
  - unfold Dsk.lowest_fd. lia.
  - rewrite Hroom. apply Hrep.
  - eexists s1, _, s2. split; [done|]. split; [exact E2|]. split; [done|exact Hrep2].
Qed.

Lemma rm_close_reopen_witness :
  exists s1 h' s2, Rm.close_file demo_handle demo_rm_store = (Ok tt, s1) /\
    Rm.open_file (zeros 20) "t" s1 = (Ok h', s2) /\
    file_hdr_ h' = file_hdr_ demo_handle /\ RmP.rep (fun _ => True) s2 h' ∅ [].
Proof.
  apply (rm_close_reopen demo_rm_store demo_handle ∅ [] "t" (zeros 20)).
  - exact demo_rm_rep.
  - vm_compute. reflexivity.
  - vm_compute. reflexivity.
  - vm_compute. reflexivity.
Defined.
