(* ===== verification/LogRecord.v ===== *)
(** Log records: [src/src/recovery/log_defs.h] and the record classes of
    [src/src/recovery/log_manager.h].

    A record is its class with its fields; [serialize] writes it into a buffer
    with the copies of the source, in their order, and [deserialize] reads one
    back.  [image] is the byte string the layout comments of the source draw. *)

From S2P Require Import Prelude Bytes Errors Disk Defs.

(** ** log_defs.h *)

Definition OFFSET_LOG_TYPE : Z := 0.
Definition OFFSET_LSN : Z := 4.
Definition OFFSET_LOG_TOT_LEN : Z := OFFSET_LSN + 4.
Definition OFFSET_LOG_TID : Z := OFFSET_LOG_TOT_LEN + 4.
Definition OFFSET_PREV_LSN : Z := OFFSET_LOG_TID + 4.
Definition OFFSET_UNDO_NEXT : Z := OFFSET_PREV_LSN + 4.
Definition OFFSET_LOG_DATA : Z := OFFSET_UNDO_NEXT + 4.
Definition LOG_HEADER_SIZE : Z := OFFSET_LOG_DATA.
Definition INVALID_TXN_ID : Z := -1.

(** ** The classes *)

Inductive LogType :=
  | UPDATE | INSERT | DELETE | BEGIN | COMMIT | ABORT | CLR_UPDATE | CLR_INSERT | CLR_DELETE | CREATE_INDEX.
#[export] Instance LogType_eq_dec : EqDecision LogType.
Proof. solve_decision. Defined.

(** the enum has the underlying type [int] *)
Definition LogType_int (t : LogType) : Z :=
  match t with
  | UPDATE => 0 | INSERT => 1 | DELETE => 2 | BEGIN => 3 | COMMIT => 4 | ABORT => 5
  | CLR_UPDATE => 6 | CLR_INSERT => 7 | CLR_DELETE => 8 | CREATE_INDEX => 9
  end.

(** the fields of the base class; a value of the enum is any [int] *)
Record LogHdr := mkLogHdr {
  log_type_ : Z;
  lsn_ : Z;
  log_tot_len_ : Z;
  log_tid_ : Z;
  prev_lsn_ : Z;
  undo_next_ : Z;
}.

Inductive LogRecord :=
  | BeginLogRecord (h : LogHdr)
  | CommitLogRecord (h : LogHdr)
  | AbortLogRecord (h : LogHdr)
  | InsertLogRecord (h : LogHdr) (insert_value_ : RmRecord) (rid : Rid) (table_name_ : list Z)
  | DeleteLogRecord (h : LogHdr) (delete_value_ : RmRecord) (rid : Rid) (table_name_ : list Z)
  | UpdateLogRecord (h : LogHdr) (old_value_ new_value_ : RmRecord) (rid : Rid) (table_name_ : list Z).

Module Log.

Definition hdr_of (r : LogRecord) : LogHdr :=
  match r with
  | BeginLogRecord h | CommitLogRecord h | AbortLogRecord h
  | InsertLogRecord h _ _ _ | DeleteLogRecord h _ _ _ | UpdateLogRecord h _ _ _ _ => h
  end.

Definition upd_hdr (f : LogHdr -> LogHdr) (r : LogRecord) : LogRecord :=
  match r with
  | BeginLogRecord h => BeginLogRecord (f h)
  | CommitLogRecord h => CommitLogRecord (f h)
  | AbortLogRecord h => AbortLogRecord (f h)
  | InsertLogRecord h v r t => InsertLogRecord (f h) v r t
  | DeleteLogRecord h v r t => DeleteLogRecord (f h) v r t
  | UpdateLogRecord h o n r t => UpdateLogRecord (f h) o n r t
  end.

Definition set_lsn (n : Z) (h : LogHdr) : LogHdr :=
  mkLogHdr (log_type_ h) n (log_tot_len_ h) (log_tid_ h) (prev_lsn_ h) (undo_next_ h).
Definition set_prev_lsn (n : Z) (h : LogHdr) : LogHdr :=
  mkLogHdr (log_type_ h) (lsn_ h) (log_tot_len_ h) (log_tid_ h) n (undo_next_ h).
Definition set_undo_next (n : Z) (h : LogHdr) : LogHdr :=
  mkLogHdr (log_type_ h) (lsn_ h) (log_tot_len_ h) (log_tid_ h) (prev_lsn_ h) n.
Definition set_type (t : Z) (h : LogHdr) : LogHdr :=
  mkLogHdr t (lsn_ h) (log_tot_len_ h) (log_tid_ h) (prev_lsn_ h) (undo_next_ h).

(** [LogRecord::setCLR]; [None] is the failing assertion *)
Definition setCLR (h : LogHdr) : option LogHdr :=
  if log_type_ h =? LogType_int UPDATE then Some (set_type (LogType_int CLR_UPDATE) h)
  else if log_type_ h =? LogType_int DELETE then Some (set_type (LogType_int CLR_INSERT) h)
  else if log_type_ h =? LogType_int INSERT then Some (set_type (LogType_int CLR_DELETE) h)
  else None.

(** *** Constructors *)

Definition sizeof_Rid : Z := 8.
Definition sizeof_size_t : Z := 8.
Definition u32 (n : Z) : Z := n mod 2 ^ 32.

(** the default constructors *)
Definition new_hdr (t : LogType) : LogHdr :=
  mkLogHdr (LogType_int t) INVALID_LSN LOG_HEADER_SIZE INVALID_TXN_ID INVALID_LSN INVALID_LSN.
(** the constructors of the three header-only records *)
Definition txn_hdr (t : LogType) (lsn prev_lsn txn_id : Z) : LogHdr :=
  mkLogHdr (LogType_int t) lsn LOG_HEADER_SIZE txn_id prev_lsn INVALID_LSN.
Definition make_begin (lsn prev_lsn txn_id : Z) : LogRecord := BeginLogRecord (txn_hdr BEGIN lsn prev_lsn txn_id).
Definition make_commit (lsn prev_lsn txn_id : Z) : LogRecord := CommitLogRecord (txn_hdr COMMIT lsn prev_lsn txn_id).
Definition make_abort (lsn prev_lsn txn_id : Z) : LogRecord := AbortLogRecord (txn_hdr ABORT lsn prev_lsn txn_id).

(** a header with the length of the data added to it, in [uint32_t] *)
Definition data_hdr (t : LogType) (txn_id len : Z) : LogHdr :=
  let h := new_hdr t in
  mkLogHdr (log_type_ h) (lsn_ h) (u32 (log_tot_len_ h + len)) txn_id (prev_lsn_ h) (undo_next_ h).

Definition make_insert (txn_id : Z) (insert_value : RmRecord) (rid : Rid) (table_name : string) : LogRecord :=
  let name := string_bytes table_name in
  InsertLogRecord (data_hdr INSERT txn_id (4 + size insert_value + sizeof_Rid + (sizeof_size_t + zlen name)))
    insert_value rid name.
Definition make_delete (txn_id : Z) (delete_value : RmRecord) (rid : Rid) (table_name : string) : LogRecord :=
  let name := string_bytes table_name in
  DeleteLogRecord (data_hdr DELETE txn_id (4 + size delete_value + sizeof_Rid + (sizeof_size_t + zlen name)))
    delete_value rid name.
Definition make_update (txn_id : Z) (old_value new_value : RmRecord) (rid : Rid) (table_name : string) : LogRecord :=
  let name := string_bytes table_name in
  UpdateLogRecord
    (data_hdr UPDATE txn_id (4 + size old_value + 4 + size new_value + sizeof_Rid + (sizeof_size_t + zlen name)))
    old_value new_value rid name.

(** *** [serialize] *)

Definition enc_Rid (r : Rid) : list Z := enc_i32 (rid_page_no r) ++ enc_i32 (rid_slot_no r).
Definition dec_Rid (b : list Z) : Rid := mkRid (dec_i32 (slice 0 4 b)) (dec_i32 (slice 4 4 b)).

(** [LogRecord::serialize] *)
Definition serialize_hdr (h : LogHdr) (dest : list Z) : option (list Z) :=
  dest ← memcpy dest OFFSET_LOG_TYPE (enc_i32 (log_type_ h)) 4;
  dest ← memcpy dest OFFSET_LSN (enc_i32 (lsn_ h)) 4;
  dest ← memcpy dest OFFSET_LOG_TOT_LEN (enc_i32 (log_tot_len_ h)) 4;
  dest ← memcpy dest OFFSET_LOG_TID (enc_i32 (log_tid_ h)) 4;
  dest ← memcpy dest OFFSET_PREV_LSN (enc_i32 (prev_lsn_ h)) 4;
  memcpy dest OFFSET_UNDO_NEXT (enc_i32 (undo_next_ h)) 4.

(** the end of a data record: the rid, the size of the name and the name *)
Definition serialize_tail (offset : Z) (rid : Rid) (table_name : list Z) (dest : list Z) : option (list Z) :=
  dest ← memcpy dest offset (enc_Rid rid) sizeof_Rid;
  let offset := offset + sizeof_Rid in
  dest ← memcpy dest offset (enc_i64 (zlen table_name)) sizeof_size_t;
  let offset := offset + sizeof_size_t in
  memcpy dest offset table_name (zlen table_name).

(** [InsertLogRecord::serialize] and [DeleteLogRecord::serialize] *)
Definition serialize_value (h : LogHdr) (v : RmRecord) (rid : Rid) (table_name dest : list Z) : option (list Z) :=
  dest ← serialize_hdr h dest;
  let offset := OFFSET_LOG_DATA in
  dest ← memcpy dest offset (enc_i32 (size v)) 4;
  let offset := offset + 4 in
  dest ← memcpy dest offset (data v) (size v);
  let offset := offset + size v in
  serialize_tail offset rid table_name dest.

(** [UpdateLogRecord::serialize]: the new value is copied with the size of the old one *)
Definition serialize_update (h : LogHdr) (o n : RmRecord) (rid : Rid) (table_name dest : list Z) : option (list Z) :=
  dest ← serialize_hdr h dest;
  let offset := OFFSET_LOG_DATA in
  dest ← memcpy dest offset (enc_i32 (size o)) 4;
  let offset := offset + 4 in
  dest ← memcpy dest offset (data o) (size o);
  let offset := offset + size o in
  dest ← memcpy dest offset (enc_i32 (size n)) 4;
  let offset := offset + 4 in
  dest ← memcpy dest offset (data n) (size o);
  let offset := offset + size n in
  serialize_tail offset rid table_name dest.

(** the virtual [serialize] *)
Definition serialize (r : LogRecord) (dest : list Z) : option (list Z) :=
  match r with
  | BeginLogRecord h | CommitLogRecord h | AbortLogRecord h => serialize_hdr h dest
  | InsertLogRecord h v rid t | DeleteLogRecord h v rid t => serialize_value h v rid t dest
  | UpdateLogRecord h o n rid t => serialize_update h o n rid t dest
  end.

(** *** [deserialize] *)

(** [LogRecord::deserialize] *)
Definition deserialize_hdr (src : list Z) : option LogHdr :=
  t ← mload src 0 4;
  lsn ← mload src OFFSET_LSN 4;
  len ← mload src OFFSET_LOG_TOT_LEN 4;
  tid ← mload src OFFSET_LOG_TID 4;
  prev ← mload src OFFSET_PREV_LSN 4;
  next ← mload src OFFSET_UNDO_NEXT 4;
  Some (mkLogHdr (dec_i32 t) (dec_i32 lsn) (dec_u32 len) (dec_i32 tid) (dec_i32 prev) (dec_i32 next)).

(** [RmRecord::Deserialize(src + off)] *)
Definition load_record (src : list Z) (off : Z) : option RmRecord :=
  n ← mload src off 4;
  d ← mload src (off + 4) (dec_i32 n);
  Some (mkRmRecord d (dec_i32 n)).

Definition deserialize_tail (src : list Z) (offset : Z) : option (Rid * list Z) :=
  rid ← mload src offset sizeof_Rid;
  let offset := offset + sizeof_Rid in
  n ← mload src offset sizeof_size_t;
  let offset := offset + sizeof_size_t in
  t ← mload src offset (dec_u64 n);
  Some (dec_Rid rid, t).

Definition deserialize_value (src : list Z) : option (LogHdr * RmRecord * Rid * list Z) :=
  h ← deserialize_hdr src;
  v ← load_record src OFFSET_LOG_DATA;
  let offset := OFFSET_LOG_DATA + size v + 4 in
  '(rid, t) ← deserialize_tail src offset;
  Some (h, v, rid, t).

Definition deserialize_insert (src : list Z) : option LogRecord :=
  '(h, v, rid, t) ← deserialize_value src; Some (InsertLogRecord h v rid t).
Definition deserialize_delete (src : list Z) : option LogRecord :=
  '(h, v, rid, t) ← deserialize_value src; Some (DeleteLogRecord h v rid t).
Definition deserialize_update (src : list Z) : option LogRecord :=
  h ← deserialize_hdr src;
  o ← load_record src OFFSET_LOG_DATA;
  let offset := OFFSET_LOG_DATA + 4 + size o in
  n ← load_record src offset;
  let offset := offset + (4 + size n) in
  '(rid, t) ← deserialize_tail src offset;
  Some (UpdateLogRecord h o n rid t).

(** the [deserialize] of the class of [r] *)
Definition deserialize_as (r : LogRecord) (src : list Z) : option LogRecord :=
  match r with
  | BeginLogRecord _ => BeginLogRecord <$> deserialize_hdr src
  | CommitLogRecord _ => CommitLogRecord <$> deserialize_hdr src
  | AbortLogRecord _ => AbortLogRecord <$> deserialize_hdr src
  | InsertLogRecord _ _ _ _ => deserialize_insert src
  | DeleteLogRecord _ _ _ _ => deserialize_delete src
  | UpdateLogRecord _ _ _ _ _ => deserialize_update src
  end.

(** *** The byte image *)

Definition image_hdr (h : LogHdr) : list Z :=
  enc_i32 (log_type_ h) ++ enc_i32 (lsn_ h) ++ enc_i32 (log_tot_len_ h) ++
  enc_i32 (log_tid_ h) ++ enc_i32 (prev_lsn_ h) ++ enc_i32 (undo_next_ h).
Definition image_tail (rid : Rid) (t : list Z) : list Z := enc_Rid rid ++ enc_i64 (zlen t) ++ t.
Definition image_rec (v : RmRecord) : list Z := enc_i32 (size v) ++ data v.

Definition image (r : LogRecord) : list Z :=
  match r with
  | BeginLogRecord h | CommitLogRecord h | AbortLogRecord h => image_hdr h
  | InsertLogRecord h v rid t | DeleteLogRecord h v rid t => image_hdr h ++ image_rec v ++ image_tail rid t
  | UpdateLogRecord h o n rid t => image_hdr h ++ image_rec o ++ image_rec n ++ image_tail rid t
  end.

(** ** Lemmas *)

Lemma splice_nil l : splice 0 [] l = l.
Proof. done. Qed.

(** a copy that continues the part of the buffer already written *)
Lemma memcpy_append acc x dest off n :
  off = zlen acc -> n = zlen x -> zlen acc + zlen x <= zlen dest ->
  memcpy (splice 0 acc dest) off x n = Some (splice 0 (acc ++ x) dest).
Proof.
  intros -> -> Hd. pose proof (zlen_nonneg acc). pose proof (zlen_nonneg x).
  rewrite memcpy_ok by (rewrite ?zlen_splice; lia). f_equal.
  change (zlen acc) with (0 + zlen acc). by rewrite splice_adjacent by lia.
Qed.

Lemma zlen_image_hdr h : zlen (image_hdr h) = LOG_HEADER_SIZE.
Proof. unfold image_hdr. by rewrite !zlen_app, !zlen_enc_i32. Qed.

Lemma zlen_enc_Rid r : zlen (enc_Rid r) = sizeof_Rid.
Proof. unfold enc_Rid. by rewrite zlen_app, !zlen_enc_i32. Qed.

Lemma zlen_image_tail rid t : zlen (image_tail rid t) = sizeof_Rid + (sizeof_size_t + zlen t).
Proof. unfold image_tail. by rewrite !zlen_app, zlen_enc_Rid, zlen_enc_i64. Qed.

(** a record object as the program builds them: the buffer has the size the record says *)
Record rec_ok (v : RmRecord) : Prop := {
  ro_len : zlen (data v) = size v;
  ro_bytes : bytes_ok (data v);
  ro_int : int32_ok (size v);
}.

Lemma zlen_image_rec v : rec_ok v -> zlen (image_rec v) = 4 + size v.
Proof. intros [Hl _ _]. unfold image_rec. by rewrite zlen_app, zlen_enc_i32, Hl. Qed.

Ltac lgeom := rewrite ?zlen_app, ?zlen_image_hdr, ?zlen_image_tail, ?zlen_enc_Rid, ?zlen_enc_i32, ?zlen_enc_i64; change (zlen (@nil Z)) with 0 in *;
  unfold LOG_HEADER_SIZE, OFFSET_LOG_DATA, OFFSET_UNDO_NEXT, OFFSET_PREV_LSN, OFFSET_LOG_TID, OFFSET_LOG_TOT_LEN, OFFSET_LSN,
    OFFSET_LOG_TYPE, sizeof_Rid, sizeof_size_t in *; try lia.

Ltac mstep := rewrite memcpy_append by lgeom; cbn [mbind option_bind].

Lemma serialize_hdr_ok h dest :
  LOG_HEADER_SIZE <= zlen dest -> serialize_hdr h dest = Some (splice 0 (image_hdr h) dest).
Proof.
  intros Hd. unfold serialize_hdr. rewrite <- (splice_nil dest) at 1.
  do 5 (mstep).
  rewrite memcpy_append by lgeom. unfold image_hdr. by rewrite <- !app_assoc.
Qed.

Lemma serialize_tail_ok acc rid t dest off :
  off = zlen acc -> zlen acc + zlen (image_tail rid t) <= zlen dest ->
  serialize_tail off rid t (splice 0 acc dest) = Some (splice 0 (acc ++ image_tail rid t) dest).
Proof.
  intros -> Hd. pose proof (zlen_nonneg t). rewrite zlen_image_tail in Hd. unfold serialize_tail.
  mstep. mstep. rewrite memcpy_append by lgeom.
  unfold image_tail. by rewrite <- !app_assoc.
Qed.

(** the fields fit their types, and the length in the header is the length of the image *)
Record hdr_ok (h : LogHdr) : Prop := {
  ho_type : int32_ok (log_type_ h); ho_lsn : int32_ok (lsn_ h); ho_len : 0 <= log_tot_len_ h < 2 ^ 32;
  ho_tid : int32_ok (log_tid_ h); ho_prev : int32_ok (prev_lsn_ h); ho_next : int32_ok (undo_next_ h);
}.
Definition rid_ok (r : Rid) : Prop := int32_ok (rid_page_no r) /\ int32_ok (rid_slot_no r).
Definition name_ok (t : list Z) : Prop := zlen t < 2 ^ 31.

Definition wf (r : LogRecord) : Prop :=
  hdr_ok (hdr_of r) /\ log_tot_len_ (hdr_of r) = zlen (image r) /\
  match r with
  | BeginLogRecord _ | CommitLogRecord _ | AbortLogRecord _ => True
  | InsertLogRecord _ v rid t | DeleteLogRecord _ v rid t => rec_ok v /\ rid_ok rid /\ name_ok t
  | UpdateLogRecord _ o n rid t => rec_ok o /\ rec_ok n /\ size o = size n /\ rid_ok rid /\ name_ok t
  end.

Lemma serialize_ok r dest : wf r -> zlen (image r) <= zlen dest -> serialize r dest = Some (splice 0 (image r) dest).
Proof.
  intros (_ & _ & Hr) Hd.
  destruct r as [h|h|h|h v rid t|h v rid t|h o n rid t]; cbn [serialize image] in *; try (apply serialize_hdr_ok; by rewrite <- (zlen_image_hdr h)).
  1, 2: destruct Hr as (Hv & _); pose proof (zlen_image_rec v Hv) as Hlv; pose proof (ro_len _ Hv);
    pose proof (zlen_nonneg (data v)); pose proof (zlen_nonneg t); rewrite !zlen_app, zlen_image_hdr, Hlv, zlen_image_tail in Hd;
    unfold serialize_value; rewrite serialize_hdr_ok by lgeom; cbn [mbind option_bind];
    mstep; mstep;
    rewrite serialize_tail_ok by lgeom; unfold image_rec; by rewrite <- !app_assoc.
  destruct Hr as (Ho & Hn & Hsz & _). pose proof (zlen_image_rec o Ho) as Hlo. pose proof (zlen_image_rec n Hn) as Hln.
  pose proof (ro_len _ Ho). pose proof (ro_len _ Hn). pose proof (zlen_nonneg (data o)). pose proof (zlen_nonneg t).
  rewrite !zlen_app, zlen_image_hdr, Hlo, Hln, zlen_image_tail in Hd.
  unfold serialize_update. rewrite serialize_hdr_ok by lgeom. cbn [mbind option_bind].
  do 4 (mstep). rewrite serialize_tail_ok by lgeom.
  unfold image_rec. by rewrite <- !app_assoc.
Qed.

(** *** Reading back *)

Lemma mload_skip l1 l2 off n k : zlen l1 = k -> k <= off -> mload (l1 ++ l2) off n = mload l2 (off - k) n.
Proof.
  intros <- Ho. pose proof (zlen_nonneg l1). unfold mload. rewrite slice_app_r by lia.
  assert (in_range off n (zlen (l1 ++ l2)) = in_range (off - zlen l1) n (zlen l2)) as ->; [|done].
  apply eq_true_iff_eq. rewrite !in_range_spec, zlen_app. lia.
Qed.

Lemma mload_head x l off n : off = 0 -> n = zlen x -> mload (x ++ l) off n = Some x.
Proof. intros -> ->. by apply (mload_mid []). Qed.

(** reads the next encoded [int], at offset [off] *)
Ltac mint := repeat rewrite (mload_skip (enc_i32 _) _ _ _ 4) by (by rewrite ?zlen_enc_i32; lgeom || lgeom);
  rewrite mload_head by lgeom; cbn [mbind option_bind].

Lemma deserialize_hdr_image h rest : hdr_ok h -> deserialize_hdr (image_hdr h ++ rest) = Some h.
Proof.
  intros [? ? ? ? ? ?]. unfold deserialize_hdr, image_hdr. rewrite <- !app_assoc. do 6 mint.
  rewrite !dec_enc_i32, dec_u32_enc by done. by destruct h.
Qed.

Lemma load_record_image pre v rest off :
  rec_ok v -> off = zlen pre -> load_record (pre ++ image_rec v ++ rest) off = Some v.
Proof.
  intros [Hl _ Hi] ->. unfold load_record, image_rec. rewrite <- !app_assoc.
  rewrite mload_mid by lgeom. cbn [mbind option_bind]. rewrite dec_enc_i32 by done.
  rewrite (mload_skip pre _ _ _ (zlen pre)) by lia. rewrite (mload_skip (enc_i32 _) _ _ _ 4) by lgeom.
  rewrite mload_head by lia. by destruct v.
Qed.

Lemma dec_enc_Rid r : rid_ok r -> dec_Rid (enc_Rid r) = r.
Proof.
  intros [H1 H2]. unfold dec_Rid, enc_Rid. rewrite slice_head by (by rewrite zlen_enc_i32).
  rewrite (slice_skip _ _ _ _ 4) by (rewrite ?zlen_enc_i32; lia). change (4 - 4) with 0.
  rewrite <- (zlen_enc_i32 (rid_slot_no r)), slice_full, !dec_enc_i32 by done. by destruct r.
Qed.

Lemma deserialize_tail_image pre rid t rest off :
  rid_ok rid -> name_ok t -> off = zlen pre ->
  deserialize_tail (pre ++ image_tail rid t ++ rest) off = Some (rid, t).
Proof.
  intros Hr Ht ->. unfold name_ok in Ht. pose proof (zlen_nonneg t). unfold deserialize_tail, image_tail. rewrite <- !app_assoc.
  rewrite (mload_mid pre _ _ (zlen pre)) by lgeom. cbn [mbind option_bind].
  rewrite (mload_skip pre _ _ _ (zlen pre)), (mload_skip (enc_Rid _) _ _ _ sizeof_Rid) by lgeom.
  rewrite mload_head by lgeom. cbn [mbind option_bind]. rewrite dec_u64_enc by lia.
  rewrite (mload_skip pre _ _ _ (zlen pre)), (mload_skip (enc_Rid _) _ _ _ sizeof_Rid) by lgeom.
  rewrite (mload_skip (enc_i64 _) _ _ _ sizeof_size_t) by lgeom. rewrite mload_head by lgeom.
  cbn [mbind option_bind]. by rewrite dec_enc_Rid.
Qed.

Lemma deserialize_value_image h v rid t rest :
  hdr_ok h -> rec_ok v -> rid_ok rid -> name_ok t ->
  deserialize_value (image_hdr h ++ (image_rec v ++ image_tail rid t) ++ rest) = Some (h, v, rid, t).
Proof.
  intros Hh Hv Hr Ht. unfold deserialize_value. rewrite deserialize_hdr_image by done. cbn [mbind option_bind].
  rewrite <- !app_assoc, load_record_image by (done || lgeom). cbn [mbind option_bind]. rewrite app_assoc.
  rewrite deserialize_tail_image; [done..|]. pose proof (zlen_image_rec v Hv). lgeom.
Qed.

Lemma deserialize_image r rest : wf r -> deserialize_as r (image r ++ rest) = Some r.
Proof.
  intros (Hh & _ & Hr). destruct r as [h|h|h|h v rid t|h v rid t|h o n rid t]; cbn [deserialize_as image hdr_of] in *.
  1-3: by rewrite deserialize_hdr_image.
  1, 2: destruct Hr as (Hv & Hrid & Hn); unfold deserialize_insert, deserialize_delete;
    by rewrite <- app_assoc, deserialize_value_image.
  destruct Hr as (Ho & Hn & Hs & Hrid & Ht). unfold deserialize_update.
  pose proof (zlen_image_rec o Ho). pose proof (zlen_image_rec n Hn).
  rewrite <- app_assoc, deserialize_hdr_image by done. cbn [mbind option_bind].
  rewrite <- !app_assoc, load_record_image by (done || lgeom). cbn [mbind option_bind]. rewrite app_assoc.
  rewrite load_record_image by (done || lgeom). cbn [mbind option_bind]. rewrite app_assoc.
  by rewrite deserialize_tail_image by (done || lgeom).
Qed.

(** what the constructors build is well formed, as long as its length fits *)
Definition fits (n : Z) : Prop := 0 <= n < 2 ^ 31.

Lemma data_hdr_ok t txn_id n : int32_ok txn_id -> fits (LOG_HEADER_SIZE + n) -> hdr_ok (data_hdr t txn_id n).
Proof.
  intros Ht Hn. assert (int32_ok INVALID_LSN) by (unfold int32_ok, INVALID_LSN; lia). unfold fits in *.
  split; simpl; try done; [unfold int32_ok; destruct t; simpl; lia|].
  unfold u32. apply Z.mod_pos_bound. lia.
Qed.

Lemma u32_small n : fits n -> u32 n = n.
Proof. unfold fits, u32. intros. rewrite Z.mod_small; lia. Qed.

Lemma wf_txn t lsn prev txn_id :
  int32_ok lsn -> int32_ok prev -> int32_ok txn_id -> hdr_ok (txn_hdr t lsn prev txn_id).
Proof.
  intros. assert (int32_ok INVALID_LSN) by (unfold int32_ok, INVALID_LSN; lia).
  split; simpl; try done. unfold int32_ok; destruct t; simpl; lia.
Qed.

(** the three data records: their image is as long as the header says *)
Ltac wf_data :=
  unfold wf, make_insert, make_delete, make_update in *; cbn [hdr_of image] in *;
  rewrite !zlen_app, zlen_image_hdr, !zlen_image_rec, zlen_image_tail in * by done; unfold fits in *;
  split_and!; try done;
  [apply data_hdr_ok; [done|]; unfold fits; lgeom|simpl; rewrite u32_small; unfold fits; lgeom|unfold name_ok; lgeom].

Lemma wf_insert txn_id v rid t :
  int32_ok txn_id -> rec_ok v -> rid_ok rid -> fits (zlen (image (make_insert txn_id v rid t))) -> wf (make_insert txn_id v rid t).
Proof.
  intros Htx Hv Hr Hf. pose proof (zlen_nonneg (data v)). pose proof (ro_len _ Hv). pose proof (zlen_nonneg (string_bytes t)).
  wf_data.
Qed.

Lemma wf_delete txn_id v rid t :
  int32_ok txn_id -> rec_ok v -> rid_ok rid -> fits (zlen (image (make_delete txn_id v rid t))) -> wf (make_delete txn_id v rid t).
Proof.
  intros Htx Hv Hr Hf. pose proof (zlen_nonneg (data v)). pose proof (ro_len _ Hv). pose proof (zlen_nonneg (string_bytes t)).
  wf_data.
Qed.

Lemma wf_update txn_id o n rid t :
  int32_ok txn_id -> rec_ok o -> rec_ok n -> size o = size n -> rid_ok rid ->
  fits (zlen (image (make_update txn_id o n rid t))) -> wf (make_update txn_id o n rid t).
Proof.
  intros Htx Ho Hn Hs Hr Hf. pose proof (zlen_nonneg (data o)). pose proof (ro_len _ Ho). pose proof (ro_len _ Hn).
  pose proof (zlen_nonneg (string_bytes t)). wf_data.
Qed.

(** updates of the header that keep the length *)
Lemma zlen_image_upd f r : zlen (image (upd_hdr f r)) = zlen (image r).
Proof. destruct r; cbn [upd_hdr image]; by rewrite ?zlen_app, !zlen_image_hdr. Qed.

Lemma hdr_of_upd f r : hdr_of (upd_hdr f r) = f (hdr_of r).
Proof. by destruct r. Qed.

Lemma wf_upd f r : wf r -> hdr_ok (f (hdr_of r)) -> log_tot_len_ (f (hdr_of r)) = log_tot_len_ (hdr_of r) -> wf (upd_hdr f r).
Proof.
  intros (Hh & Hl & Hr) Hf Hlen. unfold wf. rewrite hdr_of_upd, zlen_image_upd, Hlen. by destruct r.
Qed.

Lemma wf_set_lsn n r : wf r -> int32_ok n -> wf (upd_hdr (set_lsn n) r).
Proof. intros Hr Hn. apply wf_upd; [done| |done]. by destruct Hr as ([] & _). Qed.

Lemma wf_set_prev n r : wf r -> int32_ok n -> wf (upd_hdr (set_prev_lsn n) r).
Proof. intros Hr Hn. apply wf_upd; [done| |done]. by destruct Hr as ([] & _). Qed.

Lemma setCLR_len h h' : setCLR h = Some h' -> log_tot_len_ h' = log_tot_len_ h.
Proof. unfold setCLR. repeat destruct (_ =? _); intros; by simplify_eq. Qed.
End Log.

(** * Properties *)

(** Writing a log record with [serialize] and reading it with the
    [deserialize] of its class gives the record back, whatever the destination
    held, and no byte after the [log_tot_len_] bytes of the record changes.  For an
    update record this needs the two values to have the same size: the source
    copies the new value with the size of the old one. *)
Theorem log_record_roundtrip r dest :
  Log.wf r -> log_tot_len_ (Log.hdr_of r) <= zlen dest ->
  exists dest', Log.serialize r dest = Some dest' /\ zlen dest' = zlen dest /\
    Log.deserialize_as r dest' = Some r /\
    drop (Z.to_nat (log_tot_len_ (Log.hdr_of r))) dest' = drop (Z.to_nat (log_tot_len_ (Log.hdr_of r))) dest.
Proof.
  intros Hr Hd. pose proof (proj1 (proj2 Hr)) as Hl. rewrite Hl in *. pose proof (zlen_nonneg (Log.image r)).
  exists (splice 0 (Log.image r) dest). split; [by apply Log.serialize_ok|]. split; [by rewrite zlen_splice by lia|].
  split; [by apply Log.deserialize_image|]. unfold splice. rewrite Z2Nat.inj_0, take_0. simpl.
  replace (Z.to_nat (zlen (Log.image r))) with (length (Log.image r)) by (unfold zlen; lia). by rewrite drop_app_length.
Qed.

Definition demo_update_record : LogRecord :=
  Log.make_update 7 (mkRmRecord [1; 2] 2) (mkRmRecord [3; 4] 2) (mkRid 1 5) "t".

Lemma log_record_roundtrip_witness :
  exists dest', Log.serialize demo_update_record (zeros 64) = Some dest' /\ zlen dest' = zlen (zeros 64) /\
    Log.deserialize_as demo_update_record dest' = Some demo_update_record /\
    drop 53 dest' = drop 53 (zeros 64).
Proof.
  apply (log_record_roundtrip demo_update_record (zeros 64)).
  - apply Log.wf_update; try (split; vm_compute; try done; repeat constructor; vm_compute; done);
      vm_compute; repeat constructor; done.
  - vm_compute. discriminate.
Defined.
