(* ===== verification/LogManager.v ===== *)
(** The log manager: [LogBuffer] and [LogManager] of
    [src/src/recovery/log_manager.h] and [src/src/recovery/log_manager.cpp].

    The state is the disk (the log file) with the manager: one buffer, its
    mutex, the lsn counter and the two tables.  The mutex is not recursive:
    locking it while it is held is the failure [Deadlock].  A transaction is
    passed in and its updated value is returned; a write record is passed with
    its address, which is the key of [write_rec_to_lsn_table_]. *)

From S2P Require Import Prelude Bytes Errors Disk Defs LogRecord.

Definition LOG_BUFFER_SIZE : Z := 1024 * PAGE_SIZE.

Record LogBuffer := mkLogBuffer { buffer_ : list Z; offset_ : Z }.

Record LogManager := mkLogManager {
  lsn_prevlsn_table_ : gmap Z Z;
  write_rec_to_lsn_table_ : gmap Z Z;
  global_lsn_ : Z;
  log_latch_ : bool;
  log_buffer_ : LogBuffer;
  buffer_lsn_ : Z;
  persist_lsn_ : Z;
}.

(** ** Operations *)

Module LogM.

Definition St : Type := Disk * LogManager.

(** [LogBuffer::LogBuffer]; [buffer_lsn_] and [persist_lsn_] are not initialised *)
Definition new_buffer : LogBuffer := mkLogBuffer (zeros (LOG_BUFFER_SIZE + 1)) 0.
Definition make (blsn0 plsn0 : Z) : LogManager := mkLogManager ∅ ∅ 0 false new_buffer blsn0 plsn0.

(** [LogBuffer::is_full]: the argument is a [uint32_t] converted to [int] *)
Definition is_full (b : LogBuffer) (append_size : Z) : bool := LOG_BUFFER_SIZE <? offset_ b + append_size.

Section ops.
Local Open Scope prog_scope.

Definition upd_lm (f : LogManager -> LogManager) : Prog St unit := modify (fun s => (s.1, f s.2)).
Definition set_latch (b : bool) (m : LogManager) : LogManager :=
  mkLogManager (lsn_prevlsn_table_ m) (write_rec_to_lsn_table_ m) (global_lsn_ m) b (log_buffer_ m)
    (buffer_lsn_ m) (persist_lsn_ m).
Definition set_buffer (b : LogBuffer) (m : LogManager) : LogManager :=
  mkLogManager (lsn_prevlsn_table_ m) (write_rec_to_lsn_table_ m) (global_lsn_ m) (log_latch_ m) b
    (buffer_lsn_ m) (persist_lsn_ m).
Definition set_global (n : Z) (m : LogManager) : LogManager :=
  mkLogManager (lsn_prevlsn_table_ m) (write_rec_to_lsn_table_ m) n (log_latch_ m) (log_buffer_ m)
    (buffer_lsn_ m) (persist_lsn_ m).
Definition set_buffer_lsn (n : Z) (m : LogManager) : LogManager :=
  mkLogManager (lsn_prevlsn_table_ m) (write_rec_to_lsn_table_ m) (global_lsn_ m) (log_latch_ m) (log_buffer_ m)
    n (persist_lsn_ m).
Definition set_persist_lsn (n : Z) (m : LogManager) : LogManager :=
  mkLogManager (lsn_prevlsn_table_ m) (write_rec_to_lsn_table_ m) (global_lsn_ m) (log_latch_ m) (log_buffer_ m)
    (buffer_lsn_ m) n.
Definition set_tables (p w : gmap Z Z) (m : LogManager) : LogManager :=
  mkLogManager p w (global_lsn_ m) (log_latch_ m) (log_buffer_ m) (buffer_lsn_ m) (persist_lsn_ m).

(** [std::unordered_map::insert]: an existing entry stays *)
Definition insert_new (k v : Z) (m : gmap Z Z) : gmap Z Z :=
  match m !! k with Some _ => m | None => <[k := v]> m end.

Definition lock_latch : Prog St unit :=
  let* l := gets (fun s => log_latch_ s.2) in
  if l : bool then fail Deadlock else upd_lm (set_latch true).
Definition unlock_latch : Prog St unit := upd_lm (set_latch false).

(** [LogManager::alloc_lsn]: a post-increment of an [atomic<int>] *)
Definition alloc_lsn : Prog St Z :=
  let* n := gets (fun s => global_lsn_ s.2) in
  upd_lm (set_global (wrap 32 (n + 1)));;
  ret n.
(** [LogManager::set_lsn] *)
Definition set_lsn (num : Z) : Prog St unit := upd_lm (set_global num).

(** [LogManager::flush_log_to_disk]: the scoped lock is released also when the write throws *)
Definition flush_log_to_disk : Prog St unit :=
  lock_latch;;
  let* b := gets (fun s => log_buffer_ s.2) in
  try_catch (zoom fst (fun d s => (d, s.2)) (Dsk.write_log (slice 0 (offset_ b) (buffer_ b))))
    (fun e => unlock_latch;; throw e);;
  let* lsn := gets (fun s => buffer_lsn_ s.2) in
  upd_lm (set_persist_lsn lsn);;
  upd_lm (fun m => set_buffer (mkLogBuffer (buffer_ (log_buffer_ m)) 0) m);;
  unlock_latch.

(** [LogManager::add_log_to_buffer] *)
Definition add_log_to_buffer (log_record : LogRecord) : Prog St Z :=
  let len := log_tot_len_ (Log.hdr_of log_record) in
  let* b := gets (fun s => log_buffer_ s.2) in
  (if is_full b (wrap 32 len) then flush_log_to_disk else ret tt);;
  let* b := gets (fun s => log_buffer_ s.2) in
  let* d := deref (Log.serialize log_record (drop (Z.to_nat (offset_ b)) (buffer_ b))) in
  upd_lm (set_buffer (mkLogBuffer (take (Z.to_nat (offset_ b)) (buffer_ b) ++ d) (wrap 32 (offset_ b + len))));;
  upd_lm (set_buffer_lsn (lsn_ (Log.hdr_of log_record)));;
  ret (lsn_ (Log.hdr_of log_record)).

(** the record a write record is logged as *)
Definition log_of_write (txn_id : Z) (w : WriteRecord) : LogRecord :=
  match wtype_ w with
  | INSERT_TUPLE => Log.make_insert txn_id (record_ w) (rid_ w) (tab_name_ w)
  | DELETE_TUPLE => Log.make_delete txn_id (record_ w) (rid_ w) (tab_name_ w)
  | UPDATE_TUPLE => Log.make_update txn_id (record_ w) (new_record_ w) (rid_ w) (tab_name_ w)
  end.

(** [LogManager::gen_log_from_write_set] *)
Definition gen_log_from_write_set (txn : Transaction) (addr : Z) (w : WriteRecord) : Prog St (Z * Transaction) :=
  let log := log_of_write (txn_id_ txn) w in
  let log := Log.upd_hdr (Log.set_prev_lsn (so_far_lsn_ txn)) log in
  lock_latch;;
  let* lsn := alloc_lsn in
  let log := Log.upd_hdr (Log.set_lsn lsn) log in
  upd_lm (fun m => set_tables (insert_new lsn (prev_lsn_ (Log.hdr_of log)) (lsn_prevlsn_table_ m))
                     (insert_new addr lsn (write_rec_to_lsn_table_ m)) m);;
  add_log_to_buffer log;;
  unlock_latch;;
  ret (lsn, set_so_far_lsn lsn txn).

(** what the three [gen_log_*_CLR] share: [undo_next_] is assigned to the record
    object after it was copied into the buffer *)
Definition gen_CLR (log : LogRecord) (undo_next : Z) : Prog St Z :=
  let* h := (match Log.setCLR (Log.hdr_of log) with Some h => ret h | None => fail AssertFail end) in
  let log := Log.upd_hdr (fun _ => h) log in
  lock_latch;;
  let* lsn := alloc_lsn in
  let log := Log.upd_hdr (Log.set_lsn lsn) log in
  add_log_to_buffer log;;
  unlock_latch;;
  let log := Log.upd_hdr (Log.set_undo_next undo_next) log in
  ret (lsn_ (Log.hdr_of log)).

(** [LogManager::gen_log_upadte_CLR]: the two values are swapped *)
Definition gen_log_upadte_CLR (tid undo_next : Z) (old_value new_value : RmRecord) (rid : Rid) (table_name : string) : Prog St Z :=
  gen_CLR (Log.make_update tid new_value old_value rid table_name) undo_next.
(** [LogManager::gen_log_insert_CLR] *)
Definition gen_log_insert_CLR (tid undo_next : Z) (insert_value : RmRecord) (rid : Rid) (table_name : string) : Prog St Z :=
  gen_CLR (Log.make_insert tid insert_value rid table_name) undo_next.
(** [LogManager::gen_log_delete_CLR] *)
Definition gen_log_delete_CLR (tid undo_next : Z) (delete_value : RmRecord) (rid : Rid) (table_name : string) : Prog St Z :=
  gen_CLR (Log.make_delete tid delete_value rid table_name) undo_next.

(** what [gen_log_bein], [gen_log_commit] and [gen_log_abort] share *)
Definition gen_txn_log (make_log : Z -> Z -> Z -> LogRecord) (txn : Transaction) : Prog St (Z * Transaction) :=
  lock_latch;;
  let* lsn := alloc_lsn in
  let log_record := make_log lsn (so_far_lsn_ txn) (txn_id_ txn) in
  add_log_to_buffer log_record;;
  unlock_latch;;
  ret (lsn, set_so_far_lsn lsn txn).

(** [LogManager::gen_log_bein] *)
Definition gen_log_bein : Transaction -> Prog St (Z * Transaction) := gen_txn_log Log.make_begin.
(** [LogManager::gen_log_commit] *)
Definition gen_log_commit : Transaction -> Prog St (Z * Transaction) := gen_txn_log Log.make_commit.
(** [LogManager::gen_log_abort] *)
Definition gen_log_abort : Transaction -> Prog St (Z * Transaction) := gen_txn_log Log.make_abort.
End ops.

(** ** The log as a byte stream *)

(** [b] is in the buffer, not written yet *)
Record binv (m : LogManager) (b : list Z) : Prop := {
  bi_len : zlen (buffer_ (log_buffer_ m)) = LOG_BUFFER_SIZE + 1;
  bi_off : offset_ (log_buffer_ m) = zlen b;
  bi_bound : zlen b <= LOG_BUFFER_SIZE;
  bi_pend : slice 0 (zlen b) (buffer_ (log_buffer_ m)) = b;
}.

(** [c] is in the log file and [b] is in the buffer *)
Record linv (s : St) (c b : list Z) : Prop := {
  li_disk : Dsk.dinv s.1;
  li_log : Dsk.log_ok s.1;
  li_file : Dsk.log_content s.1 = Some c;
  li_buf : binv s.2 b;
}.

Lemma linv_with d m c b m' b' : linv (d, m) c b -> binv m' b' -> linv (d, m') c b'.
Proof. by intros [] ?; split. Qed.

Lemma take_slice n (l : list Z) : take (Z.to_nat n) l = slice 0 n l.
Proof. unfold slice. by rewrite Z2Nat.inj_0, drop_0. Qed.

Lemma is_full_spec m b n :
  binv m b -> 0 <= n < 2 ^ 31 -> is_full (log_buffer_ m) (wrap 32 n) = (LOG_BUFFER_SIZE <? zlen b + n).
Proof. intros Hi Hn. unfold is_full. rewrite (bi_off _ _ Hi), wrap_id by lia. done. Qed.

(** the buffer after a record of a given image was copied *)
Lemma append_pending m b img d l g o la bl pl :
  binv m b -> zlen b + zlen img <= LOG_BUFFER_SIZE ->
  d = splice 0 img (drop (Z.to_nat (zlen b)) (buffer_ (log_buffer_ m))) ->
  binv (mkLogManager l g o la
    (mkLogBuffer (take (Z.to_nat (zlen b)) (buffer_ (log_buffer_ m)) ++ d) (zlen b + zlen img)) bl pl) (b ++ img).
Proof.
  intros [H4 H5 H6 H7] Hf ->. pose proof (zlen_nonneg b). pose proof (zlen_nonneg img).
  assert (Hdrop : zlen (drop (Z.to_nat (zlen b)) (buffer_ (log_buffer_ m))) = LOG_BUFFER_SIZE + 1 - zlen b).
  { unfold zlen in *. rewrite length_drop. lia. }
  rewrite take_slice, H7. split; simpl.
  - rewrite zlen_app, zlen_splice by lia. lia.
  - by rewrite zlen_app.
  - by rewrite zlen_app.
  - unfold splice. rewrite Z2Nat.inj_0, take_0. simpl. rewrite app_assoc. by apply slice_head.
Qed.

(** a record that fits is copied into the buffer, and the disk is not used *)
Lemma add_log_fits d m b r :
  binv m b -> Log.wf r -> zlen b + zlen (Log.image r) <= LOG_BUFFER_SIZE ->
  exists m', add_log_to_buffer r (d, m) = (Ok (lsn_ (Log.hdr_of r)), (d, m')) /\ binv m' (b ++ Log.image r) /\
    log_latch_ m' = log_latch_ m /\ global_lsn_ m' = global_lsn_ m /\
    buffer_lsn_ m' = lsn_ (Log.hdr_of r) /\ persist_lsn_ m' = persist_lsn_ m /\
    lsn_prevlsn_table_ m' = lsn_prevlsn_table_ m /\ write_rec_to_lsn_table_ m' = write_rec_to_lsn_table_ m.
Proof.
  intros Hi Hr Hf. pose proof (zlen_nonneg b). pose proof (zlen_nonneg (Log.image r)).
  assert (HS : LOG_BUFFER_SIZE = 4194304) by done.
  pose proof (proj1 (proj2 Hr)) as Hl. unfold add_log_to_buffer. rewrite Hl.
  rewrite (bind_ok (gets _) _ (d, m) (log_buffer_ m) (d, m)) by done.
  rewrite (is_full_spec m b) by (done || lia). rewrite (proj2 (Z.ltb_ge _ _)) by lia.
  rewrite (bind_ok (ret tt) _ (d, m) tt (d, m)), (bind_ok (gets _) _ (d, m) (log_buffer_ m) (d, m)) by done.
  rewrite (bi_off _ _ Hi). rewrite Log.serialize_ok; [|done|].
  2:{ pose proof (bi_len _ _ Hi). unfold zlen in *. rewrite length_drop. lia. }
  simpl. rewrite wrap_id by lia. eexists. split; [reflexivity|]. split; [|done]. by apply append_pending.
Qed.

Lemma add_log_full s c b r :
  linv s c b -> Log.wf r -> zlen (Log.image r) < 2 ^ 31 -> LOG_BUFFER_SIZE < zlen b + zlen (Log.image r) ->
  log_latch_ s.2 = true -> add_log_to_buffer r s = (Fail Deadlock, s).
Proof.
  intros Hi Hr Hlt Hf Hlatch. pose proof (zlen_nonneg (Log.image r)). unfold add_log_to_buffer. rewrite (proj1 (proj2 Hr)).
  rewrite (bind_ok (gets _) _ s (log_buffer_ s.2) s) by done.
  rewrite (is_full_spec _ b) by (done || lia || apply Hi). rewrite (proj2 (Z.ltb_lt _ _)) by lia.
  unfold flush_log_to_disk, lock_latch, bind, gets. by rewrite Hlatch.
Qed.

Lemma flush_ok s c b :
  linv s c b -> log_latch_ s.2 = false ->
  runs flush_log_to_disk s (fun _ s' => linv s' (c ++ b) [] /\ log_latch_ s'.2 = false /\
    global_lsn_ s'.2 = global_lsn_ s.2 /\ buffer_lsn_ s'.2 = buffer_lsn_ s.2 /\ persist_lsn_ s'.2 = buffer_lsn_ s.2 /\
    lsn_prevlsn_table_ s'.2 = lsn_prevlsn_table_ s.2 /\ Dsk.beside_log s.1 s'.1).
Proof.
  intros Hi Hlatch. destruct s as [d m]. simpl in Hlatch. pose proof (Dsk.write_log_beside d b (li_disk _ _ _ Hi) (li_log _ _ _ Hi)) as Hbe.
  destruct (Dsk.write_log_runs d b c (li_disk _ _ _ Hi) (li_log _ _ _ Hi) (li_file _ _ _ Hi)) as ([] & d' & E & H1 & H2 & H3).
  destruct (li_buf _ _ _ Hi) as [Hl Ho _ Hp]. simpl in Ho, Hp, Hl.
  eexists tt, _. split.
  - unfold flush_log_to_disk, lock_latch, bind, gets, upd_lm, modify, try_catch, zoom. simpl. rewrite Hlatch. simpl.
    rewrite Ho, Hp, E. reflexivity.
  - simpl. rewrite E in Hbe. split; [|done]. split; simpl; try done.
Qed.

(** the state in which a [gen_log_*] calls [add_log_to_buffer] *)
Definition entered (p w : gmap Z Z) (s : St) : St :=
  (s.1, mkLogManager p w (wrap 32 (global_lsn_ s.2 + 1)) true (log_buffer_ s.2) (buffer_lsn_ s.2) (persist_lsn_ s.2)).

Lemma entered_binv p w s b : binv s.2 b -> binv (entered p w s).2 b.
Proof. by intros []; split. Qed.
Lemma entered_linv p w s c b : linv s c b -> linv (entered p w s) c b.
Proof. intros []. split; try done. by apply entered_binv. Qed.

(** one record more in the buffer *)
Record appended (s s' : St) (c b : list Z) (r : LogRecord) : Prop := {
  ap_inv : linv s' c (b ++ Log.image r);
  ap_latch : log_latch_ s'.2 = false;
  ap_global : global_lsn_ s'.2 = wrap 32 (global_lsn_ s.2 + 1);
  ap_lsn : buffer_lsn_ s'.2 = lsn_ (Log.hdr_of r);
  ap_persist : persist_lsn_ s'.2 = persist_lsn_ s.2;
  ap_disk : s'.1 = s.1;
}.

Section gen.
Local Open Scope prog_scope.

Lemma gen_finish {A} (a : A) s c b p w r :
  linv s c b -> Log.wf r -> zlen b + zlen (Log.image r) <= LOG_BUFFER_SIZE ->
  exists s', (add_log_to_buffer r;; unlock_latch;; ret a) (entered p w s) = (Ok a, s') /\ appended s s' c b r.
Proof.
  intros Hi Hr Hf. destruct s as [d m].
  destruct (add_log_fits d _ b r (entered_binv p w (d, m) b (li_buf _ _ _ Hi)) Hr Hf) as (m' & E & Hi' & _ & H2 & H3 & H4 & _).
  eexists. split; [rewrite (bind_ok _ _ _ _ _ E); reflexivity|]. split; simpl; try done.
  eapply linv_with; [exact Hi|]. by destruct Hi'; split.
Qed.

Lemma gen_full {A} (a : A) s c b p w r :
  linv s c b -> Log.wf r -> zlen (Log.image r) < 2 ^ 31 -> LOG_BUFFER_SIZE < zlen b + zlen (Log.image r) ->
  (add_log_to_buffer r;; unlock_latch;; ret a) (entered p w s) = (Fail Deadlock, entered p w s).
Proof.
  intros Hi Hr Hlt Hf. apply bind_fail, (add_log_full _ c b); try done. by apply entered_linv.
Qed.
End gen.

(** ** Sequences of calls *)

Inductive op :=
  | OBegin (txn : Transaction) | OCommit (txn : Transaction) | OAbort (txn : Transaction)
  | OWrite (txn : Transaction) (addr : Z) (w : WriteRecord)
  | OClrUpdate (tid undo_next : Z) (old_value new_value : RmRecord) (rid : Rid) (table_name : string)
  | OClrInsert (tid undo_next : Z) (insert_value : RmRecord) (rid : Rid) (table_name : string)
  | OClrDelete (tid undo_next : Z) (delete_value : RmRecord) (rid : Rid) (table_name : string)
  | OFlush.

Definition op_run (o : op) : Prog St unit :=
  (match o with
   | OBegin t => gen_log_bein t;; ret tt
   | OCommit t => gen_log_commit t;; ret tt
   | OAbort t => gen_log_abort t;; ret tt
   | OWrite t a w => gen_log_from_write_set t a w;; ret tt
   | OClrUpdate tid n o v r t => gen_log_upadte_CLR tid n o v r t;; ret tt
   | OClrInsert tid n v r t => gen_log_insert_CLR tid n v r t;; ret tt
   | OClrDelete tid n v r t => gen_log_delete_CLR tid n v r t;; ret tt
   | OFlush => flush_log_to_disk
   end)%prog.

(** the record a call adds to the log, with the given lsn *)
Definition clr (t : LogType) (lsn : Z) (r : LogRecord) : LogRecord :=
  Log.upd_hdr (Log.set_lsn lsn) (Log.upd_hdr (Log.set_type (LogType_int t)) r).

Definition op_record (o : op) (lsn : Z) : option LogRecord :=
  match o with
  | OBegin t => Some (Log.make_begin lsn (so_far_lsn_ t) (txn_id_ t))
  | OCommit t => Some (Log.make_commit lsn (so_far_lsn_ t) (txn_id_ t))
  | OAbort t => Some (Log.make_abort lsn (so_far_lsn_ t) (txn_id_ t))
  | OWrite t a w =>
      Some (Log.upd_hdr (Log.set_lsn lsn) (Log.upd_hdr (Log.set_prev_lsn (so_far_lsn_ t)) (log_of_write (txn_id_ t) w)))
  | OClrUpdate tid _ o n r t => Some (clr CLR_UPDATE lsn (Log.make_update tid n o r t))
  | OClrInsert tid _ v r t => Some (clr CLR_DELETE lsn (Log.make_insert tid v r t))
  | OClrDelete tid _ v r t => Some (clr CLR_INSERT lsn (Log.make_delete tid v r t))
  | OFlush => None
  end.

(** the abstract log: next lsn, bytes in the file, bytes in the buffer; [None] when
    the buffer has no room for the record *)
Definition spec_step (o : op) (a : Z * list Z * list Z) : option (Z * list Z * list Z) :=
  let '(n, c, b) := a in
  match op_record o n with
  | Some r => if zlen b + zlen (Log.image r) <=? LOG_BUFFER_SIZE then Some (n + 1, c, b ++ Log.image r) else None
  | None => Some (n, c ++ b, [])
  end.
Fixpoint spec_run (os : list op) (a : Z * list Z * list Z) : option (Z * list Z * list Z) :=
  match os with [] => Some a | o :: os => a ← spec_step o a; spec_run os a end.

(** the arguments are objects the program builds *)
Definition txn_ok (t : Transaction) : Prop := int32_ok (txn_id_ t) /\ int32_ok (so_far_lsn_ t).
Definition args_ok (tid : Z) (rid : Rid) (v n : RmRecord) (r : LogRecord) : Prop :=
  int32_ok tid /\ Log.rid_ok rid /\ Log.rec_ok v /\ Log.rec_ok n /\ size v = size n /\ Log.fits (zlen (Log.image r)).
Definition op_ok (o : op) : Prop :=
  match o with
  | OBegin t | OCommit t | OAbort t => txn_ok t
  | OWrite t a w =>
      txn_ok t /\ args_ok (txn_id_ t) (rid_ w) (record_ w)
        (match wtype_ w with UPDATE_TUPLE => new_record_ w | _ => record_ w end) (log_of_write (txn_id_ t) w)
  | OClrUpdate tid _ o n r t => args_ok tid r o n (Log.make_update tid n o r t)
  | OClrInsert tid _ v r t => args_ok tid r v v (Log.make_insert tid v r t)
  | OClrDelete tid _ v r t => args_ok tid r v v (Log.make_delete tid v r t)
  | OFlush => True
  end.

Lemma wf_log_of_write t w a : op_ok (OWrite t a w) -> Log.wf (log_of_write (txn_id_ t) w).
Proof.
  intros (_ & H1 & H2 & H3 & H4 & H5 & H6). unfold log_of_write in *.
  destruct (wtype_ w); [by apply Log.wf_insert|by apply Log.wf_delete|by apply Log.wf_update].
Qed.

Lemma wf_clr t lsn r : Log.wf r -> int32_ok lsn -> Log.wf (clr t lsn r).
Proof.
  intros Hr Hl. apply Log.wf_set_lsn; [|done]. apply Log.wf_upd; [done| |done].
  destruct Hr as ([] & _). split; simpl; try done. unfold int32_ok. destruct t; simpl; lia.
Qed.

Lemma op_record_wf o lsn r :
  op_ok o -> int32_ok lsn -> op_record o lsn = Some r -> Log.wf r /\ zlen (Log.image r) < 2 ^ 31.
Proof.
  intros Ho Hl Hr. destruct o; simpl in Hr; simplify_eq.
  1-3: destruct Ho as [? ?]; split; [split_and!; [by apply Log.wf_txn|done|done]|done].
  - pose proof (wf_log_of_write _ _ _ Ho). destruct Ho as ([? ?] & _ & _ & _ & _ & _ & ?). unfold Log.fits in *.
    rewrite !Log.zlen_image_upd. split; [|lia]. by apply Log.wf_set_lsn; [apply Log.wf_set_prev|].
  - destruct Ho as (? & ? & ? & ? & ? & Hf). unfold clr. rewrite !Log.zlen_image_upd.
    split; [apply wf_clr; [by apply Log.wf_update|done]|]. unfold Log.fits in Hf. lia.
  - destruct Ho as (? & ? & ? & ? & ? & Hf). unfold clr. rewrite !Log.zlen_image_upd.
    split; [apply wf_clr; [by apply Log.wf_insert|done]|]. unfold Log.fits in Hf. lia.
  - destruct Ho as (? & ? & ? & ? & ? & Hf). unfold clr. rewrite !Log.zlen_image_upd.
    split; [apply wf_clr; [by apply Log.wf_delete|done]|]. unfold Log.fits in Hf. lia.
Qed.

(** every call but the flush takes the latch, draws an lsn and copies its record *)
Lemma op_run_shape o s r :
  log_latch_ s.2 = false -> op_record o (global_lsn_ s.2) = Some r ->
  exists p w (A : Type) (a : A), op_run o s =
    ((add_log_to_buffer r;; unlock_latch;; ret a);; ret tt)%prog (entered p w s).
Proof.
  intros Hl Hr. destruct s as [d [tp tw g l bu bl pl]]. simpl in *. subst l.
  destruct o; simpl in Hr; simplify_eq.
  1-3: exists tp, tw, _, (g, set_so_far_lsn g txn); reflexivity.
  - eexists (insert_new g (prev_lsn_ (Log.hdr_of (Log.upd_hdr (Log.set_lsn g)
      (Log.upd_hdr (Log.set_prev_lsn (so_far_lsn_ txn)) (log_of_write (txn_id_ txn) w))))) tp), (insert_new addr g tw), _,
      (g, set_so_far_lsn g txn). reflexivity.
  - exists tp, tw, _, g. reflexivity.
  - exists tp, tw, _, g. reflexivity.
  - exists tp, tw, _, g. reflexivity.
Qed.

Lemma op_run_ok o s c b n a' :
  linv s c b -> log_latch_ s.2 = false -> global_lsn_ s.2 = n -> 0 <= n < 2 ^ 31 - 1 -> op_ok o ->
  spec_step o (n, c, b) = Some a' ->
  runs (op_run o) s (fun _ s' => linv s' a'.1.2 a'.2 /\ log_latch_ s'.2 = false /\ global_lsn_ s'.2 = a'.1.1).
Proof.
  intros Hi Hl Hg Hn Ho Hs. assert (int32_ok n) by (unfold int32_ok; lia). simpl in Hs. destruct (op_record o n) as [r|] eqn:Er.
  - destruct (zlen b + _ <=? _) eqn:E; [|done]. apply Z.leb_le in E. simplify_eq.
    destruct (op_record_wf o _ r Ho ltac:(done) Er) as [Hwf _].
    destruct (op_run_shape o s r Hl Er) as (p & w & A & a & Heq).
    destruct (gen_finish a s c b p w r Hi Hwf E) as (s' & E' & Hap). exists tt, s'. rewrite Heq, (bind_ok _ _ _ _ _ E').
    split; [done|]. destruct Hap as [H1 H2 H3 _ _]. split; [done|]. split; [done|]. rewrite H3. simpl. apply wrap_id; lia.
  - simplify_eq. destruct o; try done. destruct (flush_ok s c b Hi Hl) as ([] & s' & E & H1 & H2 & H3 & _).
    exists tt, s'. by rewrite H3.
Qed.

Lemma op_run_full o s c b n :
  linv s c b -> log_latch_ s.2 = false -> global_lsn_ s.2 = n -> 0 <= n < 2 ^ 31 -> op_ok o ->
  spec_step o (n, c, b) = None -> exists s', op_run o s = (Fail Deadlock, s').
Proof.
  intros Hi Hl Hg Hn Ho Hs. assert (int32_ok n) by (unfold int32_ok; lia). simpl in Hs. destruct (op_record o n) as [r|] eqn:Er; [|done].
  destruct (zlen b + _ <=? _) eqn:E; [done|]. apply Z.leb_gt in E. subst n.
  destruct (op_record_wf o _ r Ho ltac:(done) Er) as [Hwf Hlt].
  destruct (op_run_shape o s r Hl Er) as (p & w & A & a & ->). eexists. by eapply bind_fail, gen_full.
Qed.
End LogM.

(** * Properties *)

(** C18: A sequence of logging calls and flushes writes exactly the log it should:
    the calls draw consecutive lsns, each appends the bytes of its record to the
    buffer, and a flush moves the buffer to the end of the log file.  A call for
    which the buffer has no room does not return: it holds [latch_] when
    [add_log_to_buffer] calls [flush_log_to_disk], which locks it again. *)
Theorem log_manager_refines os s n c b :
  LogM.linv s c b -> log_latch_ s.2 = false -> global_lsn_ s.2 = n -> 0 <= n -> n + zlen os < 2 ^ 31 ->
  Forall LogM.op_ok os ->
  match LogM.spec_run os (n, c, b) with
  | Some (n', c', b') =>
      runs (for_each os LogM.op_run) s (fun _ s' =>
        LogM.linv s' c' b' /\ log_latch_ s'.2 = false /\ global_lsn_ s'.2 = n')
  | None => exists s', for_each os LogM.op_run s = (Fail Deadlock, s')
  end.
Proof.
  revert s n c b. induction os as [|o os IH]; intros s n c b Hi Hl Hg Hn Hlen Hok; cbn [LogM.spec_run for_each].
  { apply runs_ret. done. }
  apply Forall_cons in Hok as [Ho Hos]. unfold zlen in *. simpl length in Hlen.
  destruct (LogM.spec_step o (n, c, b)) as [[[n1 c1] b1]|] eqn:Es; cbn [mbind option_bind].
  - destruct (LogM.op_run_ok o s c b n _ Hi Hl Hg ltac:(lia) Ho Es) as ([] & s1 & E1 & Hi1 & Hl1 & Hg1). simpl in Hi1, Hg1.
    assert (Hn1 : n <= n1 <= n + 1).
    { simpl in Es. destruct (LogM.op_record o n); [destruct (_ <=? _)|]; simplify_eq; lia. }
    specialize (IH s1 n1 c1 b1 Hi1 Hl1 Hg1 ltac:(lia) ltac:(lia) Hos).
    destruct (LogM.spec_run os (n1, c1, b1)) as [[[n2 c2] b2]|].
    + by eapply runs_bind_eq.
    + destruct IH as [s2 E2]. exists s2. by rewrite (bind_ok _ _ _ _ _ E1).
  - destruct (LogM.op_run_full o s c b n Hi Hl Hg ltac:(lia) Ho Es) as [s1 E1]. exists s1. by apply bind_fail.
Qed.

Lemma linv_make d c blsn plsn :
  Dsk.dinv d -> Dsk.log_ok d -> Dsk.log_content d = Some c -> LogM.linv (d, LogM.make blsn plsn) c [].
Proof.
  intros Hd Hl Hc. split; [exact Hd|exact Hl|exact Hc|]. split; [|reflexivity| |].
  - cbn [LogM.make log_buffer_ LogM.new_buffer buffer_ snd]. apply zlen_zeros. unfold LOG_BUFFER_SIZE, PAGE_SIZE. lia.
  - change (zlen []) with 0. unfold LOG_BUFFER_SIZE, PAGE_SIZE. lia.
  - change (zlen []) with 0. unfold slice. by rewrite Z2Nat.inj_0, take_0.
Qed.

Definition demo_txn : Transaction := new_Transaction false 0 0 SERIALIZABLE.

Lemma log_manager_refines_witness :
  runs (for_each [LogM.OBegin demo_txn; LogM.OCommit demo_txn; LogM.OFlush] LogM.op_run)
    (demo_log_disk, LogM.make 0 0) (fun _ s' =>
      LogM.linv s' (Log.image (Log.make_begin 0 (-1) 0) ++ Log.image (Log.make_commit 1 (-1) 0)) [] /\
      log_latch_ s'.2 = false /\ global_lsn_ s'.2 = 2).
Proof.
  apply (log_manager_refines [LogM.OBegin demo_txn; LogM.OCommit demo_txn; LogM.OFlush] (demo_log_disk, LogM.make 0 0) 0 [] []).
  - apply linv_make; [apply Dsk.dinv_create_file; by constructor|split; [exists 0%nat; vm_compute; reflexivity|left; reflexivity]|vm_compute; reflexivity].
  - reflexivity.
  - reflexivity.
  - lia.
  - reflexivity.
  - repeat constructor; vm_compute; discriminate || reflexivity.
Defined.

(** The [undo_next_] of a compensation record never reaches the log: it is
    assigned after the record was copied into the buffer, so the bytes logged are
    those of a record whose [undo_next_] is [INVALID_LSN], whatever was asked for. *)
Theorem log_clr_loses_undo_next s c b tid undo_next v rid t :
  LogM.linv s c b -> log_latch_ s.2 = false -> 0 <= global_lsn_ s.2 < 2 ^ 31 - 1 ->
  LogM.args_ok tid rid v v (Log.make_insert tid v rid t) ->
  zlen b + zlen (Log.image (Log.make_insert tid v rid t)) <= LOG_BUFFER_SIZE ->
  exists r, undo_next_ (Log.hdr_of r) = INVALID_LSN /\ log_type_ (Log.hdr_of r) = LogType_int CLR_DELETE /\
    runs (LogM.gen_log_insert_CLR tid undo_next v rid t) s (fun lsn s' =>
      lsn = lsn_ (Log.hdr_of r) /\ LogM.linv s' c (b ++ Log.image r)).
Proof.
  intros Hi Hl Hn Ho Hf. pose (o := LogM.OClrInsert tid undo_next v rid t).
  eexists (LogM.clr CLR_DELETE (global_lsn_ s.2) (Log.make_insert tid v rid t)). split; [done|]. split; [done|].
  destruct (LogM.op_record_wf o (global_lsn_ s.2) _ Ho ltac:(unfold int32_ok; lia) eq_refl) as [Hwf _].
  destruct (LogM.gen_finish (global_lsn_ s.2) s c b (lsn_prevlsn_table_ s.2) (write_rec_to_lsn_table_ s.2) _ Hi Hwf)
    as (s' & E & [Hi' _ _ _ _]).
  { unfold LogM.clr. by rewrite !Log.zlen_image_upd. }
  exists (global_lsn_ s.2), s'. split; [|done]. rewrite <- E. destruct s as [d [tp tw g l bu bl pl]]. simpl in Hl. subst l. done.
Qed.

Lemma log_clr_loses_undo_next_witness :
  exists r, undo_next_ (Log.hdr_of r) = INVALID_LSN /\ log_type_ (Log.hdr_of r) = LogType_int CLR_DELETE /\
    runs (LogM.gen_log_insert_CLR 3 17 (mkRmRecord [5] 1) (mkRid 1 0) "t") (demo_log_disk, LogM.make 0 0) (fun lsn s' =>
      lsn = lsn_ (Log.hdr_of r) /\ LogM.linv s' [] ([] ++ Log.image r)).
Proof.
  apply (log_clr_loses_undo_next (demo_log_disk, LogM.make 0 0) [] [] 3 17 (mkRmRecord [5] 1) (mkRid 1 0) "t").
  - apply linv_make; [apply Dsk.dinv_create_file; by constructor|split; [exists 0%nat; vm_compute; reflexivity|left; reflexivity]|vm_compute; reflexivity].
  - reflexivity.
  - simpl. lia.
  - repeat constructor; vm_compute; discriminate || reflexivity.
  - vm_compute. discriminate.
Defined.
