(* ===== verification/Float32.v ===== *)
(** The C++ type [float] as IEEE 754 binary32: the value of a 32-bit pattern, and
    the comparison operators the program applies to it.

    The operators are those of the standard library's [SpecFloat]; the lemma
    [f32_compare] shows that on patterns that are not NaN they order the numbers as
    sign-and-magnitude integers, which is what makes float keys sortable. *)

From Stdlib Require Import Floats.SpecFloat.
From S2P Require Import Prelude Bytes.

Definition f32_sign (w : Z) : bool := Z.testbit w 31.
Definition f32_exp (w : Z) : Z := (w / 2 ^ 23) mod 256.
Definition f32_frac (w : Z) : Z := w mod 2 ^ 23.

Definition f32_of_bits (w : Z) : spec_float :=
  let s := f32_sign w in
  if f32_exp w =? 255 then (if f32_frac w =? 0 then S754_infinity s else S754_nan)
  else if f32_exp w =? 0 then
    match f32_frac w with Zpos p => S754_finite s p (-149) | _ => S754_zero s end
  else match f32_frac w + 2 ^ 23 with Zpos p => S754_finite s p (f32_exp w - 150) | _ => S754_nan end.

(** reading a [float] from memory *)
Definition dec_f32 (b : list Z) : spec_float := f32_of_bits (le_value b).

(** [fa < fb] and [fa > fb] *)
Definition f32_lt (a b : spec_float) : bool := SFltb a b.
Definition f32_gt (a b : spec_float) : bool := SFltb b a.

Definition f32_nan (w : Z) : bool := (f32_exp w =? 255) && negb (f32_frac w =? 0).

(** the integer whose order is the order of the numbers *)
Definition f32_ord (w : Z) : Z := if f32_sign w then - (w mod 2 ^ 31) else w mod 2 ^ 31.

Lemma f32_magnitude w : w mod 2 ^ 31 = f32_exp w * 2 ^ 23 + f32_frac w /\ 0 <= f32_exp w < 256 /\ 0 <= f32_frac w < 2 ^ 23.
Proof.
  unfold f32_exp, f32_frac. split_and!; try (apply Z.mod_pos_bound; lia).
  change (2 ^ 31) with (2 ^ 23 * 256). rewrite Z.rem_mul_r by lia. lia.
Qed.

(** numbers in the canonical form of binary32, and their magnitude as an integer *)
Definition canonical (f : spec_float) : Prop :=
  match f with
  | S754_finite _ m e => Zpos m < 2 ^ 24 /\ -149 <= e <= 104 /\ (e = -149 \/ 2 ^ 23 <= Zpos m)
  | S754_nan => False
  | _ => True
  end.
Definition magnitude (f : spec_float) : Z :=
  match f with
  | S754_finite _ m e => (e + 149) * 2 ^ 23 + Zpos m
  | S754_infinity _ => 255 * 2 ^ 23
  | _ => 0
  end.
Definition sign_of (f : spec_float) : bool :=
  match f with S754_finite s _ _ | S754_infinity s | S754_zero s => s | S754_nan => false end.
Definition sf_ord (f : spec_float) : Z := if sign_of f then - magnitude f else magnitude f.

Lemma f32_decoded w :
  f32_nan w = false -> canonical (f32_of_bits w) /\ sf_ord (f32_of_bits w) = f32_ord w.
Proof.
  intros Hn. destruct (f32_magnitude w) as (M & He & Hf). unfold f32_ord, sf_ord. rewrite M.
  unfold f32_nan, f32_of_bits in *. change (2 ^ 23) with 8388608 in *. change (2 ^ 24) with 16777216.
  destruct (Z.eqb_spec (f32_exp w) 255) as [E|E]; simpl in Hn.
  { destruct (Z.eqb_spec (f32_frac w) 0); [|done]. simpl. split; [done|]. destruct (f32_sign w); lia. }
  destruct (Z.eqb_spec (f32_exp w) 0) as [E0|E0].
  - destruct (f32_frac w) eqn:Ef; [| |lia]; simpl; change (2 ^ 23) with 8388608 in *; (split; [lia|]); destruct (f32_sign w); lia.
  - destruct (f32_frac w + 8388608) eqn:Ef; [lia| |lia]. simpl. change (2 ^ 24) with 16777216. change (2 ^ 23) with 8388608.
    split; [lia|]. destruct (f32_sign w); lia.
Qed.

(** canonical numbers compare by exponent first, which is comparing magnitudes *)
Lemma lex_compare m e m' e' :
  Zpos m < 2 ^ 24 -> -149 <= e -> e = -149 \/ 2 ^ 23 <= Zpos m ->
  Zpos m' < 2 ^ 24 -> -149 <= e' -> e' = -149 \/ 2 ^ 23 <= Zpos m' ->
  match Z.compare e e' with Lt => Lt | Gt => Gt | Eq => Pos.compare_cont Eq m m' end =
  Z.compare ((e + 149) * 2 ^ 23 + Zpos m) ((e' + 149) * 2 ^ 23 + Zpos m').
Proof.
  change (2 ^ 24) with 16777216. change (2 ^ 23) with 8388608. intros. change (Pos.compare_cont Eq m m') with (Z.compare (Zpos m) (Zpos m')).
  symmetry. destruct (Z.compare_spec e e') as [->|?|?].
  - destruct (Z.compare_spec (Zpos m) (Zpos m')); [apply Z.compare_eq_iff|apply Z.compare_lt_iff|apply Z.compare_gt_iff]; lia.
  - apply Z.compare_lt_iff. lia.
  - apply Z.compare_gt_iff. lia.
Qed.

Lemma sf_compare f g : canonical f -> canonical g -> SFcompare f g = Some (Z.compare (sf_ord f) (sf_ord g)).
Proof.
  intros Hf Hg. unfold sf_ord. destruct f as [s|s| |s m e], g as [s'|s'| |s' m' e']; simpl in Hf, Hg; try done.
  all: destruct s, s'; cbn [SFcompare sign_of magnitude]; f_equal; try done.
  all: try (destruct Hf as (? & ? & ?)); try (destruct Hg as (? & ? & ?)).
  all: try (change (2 ^ 24) with 16777216 in *; change (2 ^ 23) with 8388608 in *;
       symmetry; first [apply Z.compare_lt_iff; lia|apply Z.compare_gt_iff; lia]).
  - rewrite Z.compare_opp, Z.compare_antisym, <- lex_compare by (done || lia).
    destruct (e' ?= e); simpl; try done. change (CompOpp (Pos.compare m m') = Pos.compare m' m). by rewrite <- Pos.compare_antisym.
  - rewrite <- lex_compare by (done || lia). done.
Qed.

(** Patterns that are not NaN are ordered as the integers [f32_ord]. *)
Lemma f32_compare a b :
  f32_nan a = false -> f32_nan b = false ->
  SFcompare (f32_of_bits a) (f32_of_bits b) = Some (Z.compare (f32_ord a) (f32_ord b)).
Proof.
  intros Ha Hb. destruct (f32_decoded a Ha) as [Ca <-], (f32_decoded b Hb) as [Cb <-]. by apply sf_compare.
Qed.

Lemma f32_lt_ord a b :
  f32_nan a = false -> f32_nan b = false -> f32_lt (f32_of_bits a) (f32_of_bits b) = (f32_ord a <? f32_ord b).
Proof.
  intros Ha Hb. unfold f32_lt, SFltb, Z.ltb. rewrite f32_compare by done. by destruct (_ ?= _).
Qed.

(** the 32-bit pattern of a number *)
Definition f32_bits (f : spec_float) : option Z :=
  let sign (s : bool) := if s then 2 ^ 31 else 0 in
  match f with
  | S754_zero s => Some (sign s)
  | S754_infinity s => Some (sign s + 255 * 2 ^ 23)
  | S754_nan => None
  | S754_finite s m e => Some (sign s + if Zpos m <? 2 ^ 23 then Zpos m else (e + 150) * 2 ^ 23 + (Zpos m - 2 ^ 23))
  end.
