(* ===== verification/IxDefs.v ===== *)
(** Index files: [src/src/index/ix_defs.h] and the key comparison of
    [src/src/index/ix_index_handle.h].

    The header of an index file is written and read field by field at a running
    offset; [image] is the byte string.  Keys are byte strings; [key_vals] maps
    a key to the list of its column values, as integers whose order is the order
    of the columns, and [ix_compare] is the lexicographic comparison of them. *)

From S2P Require Import Prelude Bytes Errors Disk Defs LogRecord Float32.

Definition IX_NO_PAGE : Z := -1.
Definition IX_FILE_HDR_PAGE : Z := 0.
Definition IX_INIT_ROOT_PAGE : Z := 1.
Definition IX_INIT_NUM_PAGES : Z := 2.
Definition IX_MAX_COL_LEN : Z := 2000.

Record IxFileHdr := mkIxFileHdr {
  first_free_page_no_ : Z;
  num_pages_ : Z;
  root_page_ : Z;
  col_num_ : Z;
  col_types_ : list ColType;
  col_lens_ : list Z;
  col_tot_len_ : Z;
  btree_order_ : Z;
  keys_size_ : Z;
  first_leaf_ : Z;
  last_leaf_ : Z;
  tot_len_ : Z;
}.

Record Iid := mkIid { iid_page_no : Z; iid_slot_no : Z }.
#[export] Instance Iid_eq_dec : EqDecision Iid.
Proof. solve_decision. Defined.

(** offsets of the fields of [IxPageHdr] in a page; [is_leaf] is one byte, followed by padding *)
Definition off_ix_next_free : Z := 0.
Definition off_parent : Z := 4.
Definition off_num_key : Z := 8.
Definition off_is_leaf : Z := 12.
Definition off_prev_leaf : Z := 16.
Definition off_next_leaf : Z := 20.
Definition sizeof_IxPageHdr : Z := 24.

Definition ColType_int (t : ColType) : Z :=
  match t with TYPE_INT => 0 | TYPE_FLOAT => 1 | TYPE_BIGINT => 2 | TYPE_STRING => 3 | TYPE_DATETIME => 4 end.
Definition ColType_of_int (n : Z) : option ColType :=
  if n =? 0 then Some TYPE_INT else if n =? 1 then Some TYPE_FLOAT else if n =? 2 then Some TYPE_BIGINT
  else if n =? 3 then Some TYPE_STRING else if n =? 4 then Some TYPE_DATETIME else None.

Module IxHdr.
Local Open Scope prog_scope.

(** [IxFileHdr::IxFileHdr(...)] *)
Definition make (first_free_page_no num_pages root_page col_num col_tot_len btree_order keys_size first_leaf last_leaf : Z) : IxFileHdr :=
  mkIxFileHdr first_free_page_no num_pages root_page col_num [] [] col_tot_len btree_order keys_size first_leaf last_leaf 0.

Definition set_tot_len (n : Z) (h : IxFileHdr) : IxFileHdr :=
  mkIxFileHdr (first_free_page_no_ h) (num_pages_ h) (root_page_ h) (col_num_ h) (col_types_ h) (col_lens_ h)
    (col_tot_len_ h) (btree_order_ h) (keys_size_ h) (first_leaf_ h) (last_leaf_ h) n.
(** [IxFileHdr::update_tot_len] *)
Definition update_tot_len (h : IxFileHdr) : IxFileHdr :=
  set_tot_len (4 * 4 + 4 * 6 + (4 * col_num_ h + 4 * col_num_ h)) h.

(** [memcpy(dest + offset, x, |x|); offset += |x|;] on the state [(dest, offset)] *)
Definition emit (x : list Z) : Prog (list Z * Z) unit :=
  let* s := get in
  let* d := deref (memcpy s.1 s.2 x (zlen x)) in
  modify (fun s => (d, s.2 + zlen x)).

(** [IxFileHdr::serialize] *)
Definition serialize (h : IxFileHdr) : Prog (list Z * Z) unit :=
  emit (enc_i32 (tot_len_ h));;
  emit (enc_i32 (first_free_page_no_ h));;
  emit (enc_i32 (num_pages_ h));;
  emit (enc_i32 (root_page_ h));;
  emit (enc_i32 (col_num_ h));;
  for_each (seq 0 (Z.to_nat (col_num_ h))) (fun i => let* t := deref (col_types_ h !! i) in emit (enc_i32 (ColType_int t)));;
  for_each (seq 0 (Z.to_nat (col_num_ h))) (fun i => let* n := deref (col_lens_ h !! i) in emit (enc_i32 n));;
  emit (enc_i32 (col_tot_len_ h));;
  emit (enc_i32 (btree_order_ h));;
  emit (enc_i32 (keys_size_ h));;
  emit (enc_i32 (first_leaf_ h));;
  emit (enc_i32 (last_leaf_ h));;
  let* s := get in
  assert (s.2 =? tot_len_ h).

(** the whole call, from offset 0 *)
Definition serialize_to (h : IxFileHdr) (dest : list Z) : outcome error (list Z) :=
  match serialize h (dest, 0) with
  | (Ok _, s) => Ok s.1
  | (Throw e, _) => Throw e
  | (Fail f, _) => Fail f
  end.

(** [*reinterpret_cast<const int *>(src + offset); offset += 4;] on the state [offset] *)
Definition next_int (src : list Z) : Prog Z Z :=
  let* o := get in
  let* b := deref (mload src o 4) in
  modify (fun o => o + 4);;
  ret (dec_i32 b).

Fixpoint next_types (src : list Z) (n : nat) : Prog Z (list ColType) :=
  match n with
  | O => ret []
  | S n => let* i := next_int src in let* t := deref (ColType_of_int i) in let* ts := next_types src n in ret (t :: ts)
  end.
Fixpoint next_ints (src : list Z) (n : nat) : Prog Z (list Z) :=
  match n with
  | O => ret []
  | S n => let* i := next_int src in let* ns := next_ints src n in ret (i :: ns)
  end.

(** [IxFileHdr::deserialize] of a new object, whose two vectors are empty *)
Definition deserialize (src : list Z) : Prog Z IxFileHdr :=
  let* tot_len := next_int src in
  let* first_free_page_no := next_int src in
  let* num_pages := next_int src in
  let* root_page := next_int src in
  let* col_num := next_int src in
  let* col_types := next_types src (Z.to_nat col_num) in
  let* col_lens := next_ints src (Z.to_nat col_num) in
  let* col_tot_len := next_int src in
  let* btree_order := next_int src in
  let* keys_size := next_int src in
  let* first_leaf := next_int src in
  let* last_leaf := next_int src in
  let* o := get in
  assert (o =? tot_len);;
  ret (mkIxFileHdr first_free_page_no num_pages root_page col_num col_types col_lens col_tot_len btree_order keys_size
         first_leaf last_leaf tot_len).
Definition deserialize_from (src : list Z) : outcome error IxFileHdr := (deserialize src 0).1.

(** *** The byte string of a header *)

Definition ints (l : list Z) : list Z := concat (enc_i32 <$> l).
Definition image (h : IxFileHdr) : list Z :=
  ints ([tot_len_ h; first_free_page_no_ h; num_pages_ h; root_page_ h; col_num_ h] ++ (ColType_int <$> col_types_ h) ++
        col_lens_ h ++ [col_tot_len_ h; btree_order_ h; keys_size_ h; first_leaf_ h; last_leaf_ h]).

Lemma ints_app l1 l2 : ints (l1 ++ l2) = ints l1 ++ ints l2.
Proof. unfold ints. by rewrite fmap_app, concat_app. Qed.

Lemma ints_cons x l : ints (x :: l) = enc_i32 x ++ ints l.
Proof. done. Qed.

Lemma zlen_ints l : zlen (ints l) = 4 * zlen l.
Proof. induction l as [|x l IH]; [done|]. rewrite ints_cons, zlen_app, zlen_enc_i32, IH. unfold zlen. simpl length. lia. Qed.

(** the state of a header being written into [dest]: [acc] is written *)
Definition at_ (dest acc : list Z) : list Z * Z := (splice 0 acc dest, zlen acc).

Lemma emit_at dest acc x :
  zlen acc + zlen x <= zlen dest -> emit x (at_ dest acc) = (Ok tt, at_ dest (acc ++ x)).
Proof.
  intros H. unfold emit, at_, bind, get, modify. cbn [fst snd]. rewrite (Log.memcpy_append acc x dest) by (done || lia).
  cbn [deref ret]. by rewrite zlen_app.
Qed.

Lemma emit_int {B} dest acc v (k : unit -> Prog (list Z * Z) B) :
  zlen acc + 4 <= zlen dest -> bind (emit (enc_i32 v)) k (at_ dest (acc)) = k tt (at_ dest (acc ++ enc_i32 v)).
Proof. intros H. rewrite (bind_ok _ _ _ _ _ (emit_at dest acc (enc_i32 v) ltac:(rewrite zlen_enc_i32; lia))). done. Qed.

Lemma emit_loop {A B} (f : A -> Z) (l pre : list A) dest acc (k : unit -> Prog (list Z * Z) B) :
  zlen acc + 4 * zlen l <= zlen dest ->
  bind (for_each (seq (length pre) (length l)) (fun i => bind (deref ((pre ++ l) !! i)) (fun t => emit (enc_i32 (f t))))) k (at_ dest acc) =
  k tt (at_ dest (acc ++ ints (f <$> l))).
Proof.
  revert pre acc. induction l as [|x l IH]; intros pre acc Hd.
  { change (ints (f <$> [])) with (@nil Z). rewrite (app_nil_r acc). done. }
  unfold zlen in Hd. cbn [length] in Hd. cbn [seq for_each length]. rewrite list_lookup_middle by done.
  assert (E : forall s, bind (bind (bind (deref (Some x)) (fun t => emit (enc_i32 (f t))))
      (fun _ => for_each (seq (S (length pre)) (length l)) (fun i => bind (deref ((pre ++ x :: l) !! i)) (fun t => emit (enc_i32 (f t)))))) k s =
    bind (emit (enc_i32 (f x))) (fun _ => bind (for_each (seq (S (length pre)) (length l)) (fun i => bind (deref ((pre ++ x :: l) !! i)) (fun t => emit (enc_i32 (f t))))) k) s).
  { intros s. unfold bind, deref, ret. by destruct (emit _ s) as [[| |] ?]. }
  rewrite E, emit_int by (unfold zlen; lia). rewrite fmap_cons, ints_cons, app_assoc.
  replace (S (length pre)) with (length (pre ++ [x])) by (rewrite length_app; simpl; lia).
  replace (pre ++ x :: l) with ((pre ++ [x]) ++ l) by (by rewrite <- app_assoc).
  apply IH. rewrite zlen_app, zlen_enc_i32. unfold zlen. lia.
Qed.

Record hdr_ok (h : IxFileHdr) : Prop := {
  io_types : zlen (col_types_ h) = col_num_ h;
  io_lens : zlen (col_lens_ h) = col_num_ h;
  io_tot : tot_len_ h = 40 + 8 * col_num_ h;
  io_ints : Forall int32_ok ([tot_len_ h; first_free_page_no_ h; num_pages_ h; root_page_ h; col_num_ h] ++
    col_lens_ h ++ [col_tot_len_ h; btree_order_ h; keys_size_ h; first_leaf_ h; last_leaf_ h]);
}.

Lemma zlen_image h : hdr_ok h -> zlen (image h) = tot_len_ h.
Proof.
  intros [Ht Hl Hn _]. unfold image. rewrite zlen_ints, !zlen_app. unfold zlen in *. rewrite length_fmap. simpl length. lia.
Qed.

Lemma serialize_image h dest : hdr_ok h -> tot_len_ h <= zlen dest -> serialize_to h dest = Ok (splice 0 (image h) dest).
Proof.
  intros Hh Hd. pose proof (zlen_image h Hh) as Hz. destruct Hh as [Ht Hl Hn _].
  pose proof (zlen_nonneg (col_types_ h)). unfold serialize_to, serialize.
  change (dest, 0) with (at_ dest []).
  do 5 (rewrite emit_int by (rewrite ?zlen_app, ?zlen_enc_i32; change (zlen (@nil Z)) with 0; lia)).
  replace (Z.to_nat (col_num_ h)) with (length (col_types_ h)) at 1 by (unfold zlen in *; lia).
  rewrite (emit_loop ColType_int (col_types_ h) []) by (rewrite ?zlen_app, ?zlen_enc_i32; change (zlen (@nil Z)) with 0; lia).
  replace (Z.to_nat (col_num_ h)) with (length (col_lens_ h)) at 1 by (unfold zlen in *; lia).
  assert (Hz' : zlen (ColType_int <$> col_types_ h) = col_num_ h) by (unfold zlen in *; by rewrite length_fmap).
  rewrite (emit_loop (fun x => x) (col_lens_ h) []) by (rewrite ?zlen_app, ?zlen_enc_i32, ?zlen_ints, Hz'; change (zlen (@nil Z)) with 0; lia).
  rewrite list_fmap_id.
  do 5 (rewrite emit_int by (rewrite ?zlen_app, ?zlen_enc_i32, ?zlen_ints, ?Hz'; change (zlen (@nil Z)) with 0; lia)).
  match goal with |- context [at_ dest ?a] => assert (a = image h) as -> end.
  { unfold image. rewrite !ints_app. unfold ints at 3 4. cbn [fmap list_fmap concat]. rewrite <- !app_assoc. done. }
  unfold bind, get, assert, at_. cbn [snd fst]. rewrite Hz, Z.eqb_refl. done.
Qed.

(** *** Reading it back: the [i]-th integer is at offset [4 * i] *)

Section reading.
Context (L rest : list Z) (HL : Forall int32_ok L).

Lemma ints_split i v : L !! i = Some v -> ints L ++ rest = ints (take i L) ++ enc_i32 v ++ ints (drop (S i) L) ++ rest.
Proof.
  intros Hi. rewrite <- (take_drop_middle L i v Hi) at 1. rewrite ints_app, ints_cons. by rewrite <- !app_assoc.
Qed.

Lemma next_int_at i v : L !! i = Some v -> next_int (ints L ++ rest) (4 * Z.of_nat i) = (Ok v, 4 * Z.of_nat (S i)).
Proof.
  intros Hi. pose proof (lookup_lt_Some _ _ _ Hi). unfold next_int, bind, get, deref, modify, ret. rewrite (ints_split i v Hi).
  rewrite mload_mid; [|rewrite zlen_ints; unfold zlen; rewrite length_take; lia|by rewrite zlen_enc_i32].
  rewrite dec_enc_i32 by (by eapply Forall_lookup_1). f_equal. lia.
Qed.

Lemma next_ints_at n i l :
  take n (drop i L) = l -> length l = n ->
  next_ints (ints L ++ rest) n (4 * Z.of_nat i) = (Ok l, 4 * Z.of_nat (i + n)).
Proof.
  revert i l. induction n as [|n IH]; intros i l Hl Hn.
  { destruct l; [|done]. simpl. unfold ret. do 2 f_equal. lia. }
  destruct l as [|v l]; [done|]. cbn [next_ints].
  assert (Hv : L !! i = Some v).
  { rewrite <- (Nat.add_0_r i), <- lookup_drop, <- (lookup_take_lt _ (S n)) by lia. by rewrite Hl. }
  rewrite (drop_S _ _ _ Hv) in Hl. simpl in Hl. simplify_eq.
  rewrite (bind_ok _ _ _ _ _ (next_int_at i v Hv)), (bind_ok _ _ _ _ _ (IH (S i) _ eq_refl ltac:(simpl in Hn; lia))).
  unfold ret. do 2 f_equal. lia.
Qed.

Lemma ColType_of_to t : ColType_of_int (ColType_int t) = Some t.
Proof. by destruct t. Qed.

Lemma next_types_at n i ts :
  take n (drop i L) = ColType_int <$> ts -> length ts = n ->
  next_types (ints L ++ rest) n (4 * Z.of_nat i) = (Ok ts, 4 * Z.of_nat (i + n)).
Proof.
  revert i ts. induction n as [|n IH]; intros i ts Hl Hn.
  { destruct ts; [|done]. simpl. unfold ret. do 2 f_equal. lia. }
  destruct ts as [|t ts]; [done|]. cbn [next_types].
  assert (Hv : L !! i = Some (ColType_int t)).
  { rewrite <- (Nat.add_0_r i), <- lookup_drop, <- (lookup_take_lt _ (S n)) by lia. by rewrite Hl. }
  rewrite (drop_S _ _ _ Hv) in Hl. simpl in Hl. simplify_eq.
  rewrite (bind_ok _ _ _ _ _ (next_int_at i _ Hv)), ColType_of_to. unfold deref at 1.
  rewrite (bind_ok (ret t) _ _ t _ eq_refl).
  rewrite (bind_ok _ _ _ _ _ (IH (S i) ts Hl ltac:(simpl in Hn; lia))).
  unfold ret. do 2 f_equal. lia.
Qed.
End reading.

Lemma hdr_deserialize_image h rest : hdr_ok h -> deserialize_from (image h ++ rest) = Ok h.
Proof.
  intros [Ht Hl Hn Hi]. unfold deserialize_from, deserialize, image.
  set (tail := [col_tot_len_ h; btree_order_ h; keys_size_ h; first_leaf_ h; last_leaf_ h]) in *.
  set (L := [tot_len_ h; first_free_page_no_ h; num_pages_ h; root_page_ h; col_num_ h] ++ (ColType_int <$> col_types_ h) ++ col_lens_ h ++ tail).
  set (nt := length (col_types_ h)). assert (Hnt : Z.to_nat (col_num_ h) = nt) by (unfold zlen in *; lia).
  assert (Hnl : length (col_lens_ h) = nt) by (unfold zlen in *; lia).
  assert (HL : Forall int32_ok L).
  { apply Forall_app in Hi as [H1 H2]. apply Forall_app. split; [done|]. apply Forall_app. split; [|done].
    apply Forall_fmap, Forall_true. intros t. unfold int32_ok. destruct t; simpl; lia. }
  assert (Hd : drop 5 L = (ColType_int <$> col_types_ h) ++ col_lens_ h ++ tail) by done.
  assert (Hd2 : drop (5 + nt) L = col_lens_ h ++ tail).
  { rewrite <- drop_drop, Hd, drop_app_length' by (by rewrite length_fmap). done. }
  assert (Htail : forall j, L !! (5 + nt + nt + j)%nat = tail !! j).
  { intros j. rewrite <- lookup_drop, <- drop_drop, Hd2, drop_app_length' by done. done. }
  pose proof (next_int_at L rest HL) as NI. change 0 with (4 * Z.of_nat 0).
  do 5 (erewrite bind_ok by (by apply NI)). rewrite Hnt.
  erewrite bind_ok by (apply (next_types_at L rest HL nt 5 (col_types_ h)); [|done];
    by rewrite Hd, take_app_length' by (by rewrite length_fmap)).
  erewrite bind_ok by (apply (next_ints_at L rest HL nt (5 + nt) (col_lens_ h)); [|done];
    by rewrite Hd2, take_app_length' by done).
  replace (5 + nt + nt)%nat with (5 + nt + nt + 0)%nat by lia.
  do 5 (erewrite bind_ok by (apply NI; rewrite <- ?Nat.add_succ_r; rewrite Htail; reflexivity); rewrite <- ?Nat.add_succ_r).
  unfold bind at 1, get. unfold assert. rewrite (proj2 (Z.eqb_eq _ _)) by (unfold nt, zlen in *; lia). by destruct h.
Qed.
End IxHdr.

(** ** Key comparison *)

Module IxKey.
Local Open Scope prog_scope.

(** [memcmp], of which only the sign is specified *)
Fixpoint memcmp (a b : list Z) : Z :=
  match a, b with
  | x :: a, y :: b => if x <? y then -1 else if y <? x then 1 else memcmp a b
  | _, _ => 0
  end.

Definition load (src : list Z) (off n : Z) : Prog unit (list Z) := deref (mload src off n).

(** [ix_compare(a + offset, b + offset, type, col_len)] *)
Definition ix_compare_col (a b : list Z) (offset : Z) (type : ColType) (col_len : Z) : Prog unit Z :=
  match type with
  | TYPE_INT =>
      let* ia := load a offset 4 in
      let* ib := load b offset 4 in
      let ia := dec_i32 ia in let ib := dec_i32 ib in
      ret (if ia <? ib then -1 else if ib <? ia then 1 else 0)
  | TYPE_FLOAT =>
      let* fa := load a offset 4 in
      let* fb := load b offset 4 in
      let fa := dec_f32 fa in let fb := dec_f32 fb in
      ret (if f32_lt fa fb then -1 else if f32_gt fa fb then 1 else 0)
  | TYPE_STRING =>
      let* sa := load a offset col_len in
      let* sb := load b offset col_len in
      ret (memcmp sa sb)
  | _ => throw (InternalError "Unexpected data type")
  end.

(** the loop of [ix_compare], [n] columns being left *)
Fixpoint ix_compare_from (a b : list Z) (col_types : list ColType) (col_lens : list Z) (i : nat) (offset : Z) (n : nat) : Prog unit Z :=
  match n with
  | O => ret 0
  | S n =>
      let* t := deref (col_types !! i) in
      let* len := deref (col_lens !! i) in
      let* res := ix_compare_col a b offset t len in
      if negb (res =? 0) then ret res
      else ix_compare_from a b col_types col_lens (i + 1) (offset + len) n
  end.

(** [ix_compare(a, b, col_types, col_lens, pre)] *)
Definition ix_compare (a b : list Z) (col_types : list ColType) (col_lens : list Z) (pre : Z) : Prog unit Z :=
  let pre := if 0 <? pre then pre else zlen col_lens in
  ix_compare_from a b col_types col_lens 0 0 (Z.to_nat pre).

(** *** The order of keys *)

(** the column types an index supports *)
Definition supported (t : ColType) : bool :=
  match t with TYPE_INT | TYPE_FLOAT | TYPE_STRING => true | _ => false end.

(** big-endian value: byte strings of one length compare as their values *)
Fixpoint be_value (l : list Z) : Z :=
  match l with [] => 0 | x :: l => x * 256 ^ zlen l + be_value l end.

(** a column as an integer *)
Definition col_val (t : ColType) (c : list Z) : Z :=
  match t with
  | TYPE_INT => dec_i32 (slice 0 4 c)
  | TYPE_FLOAT => f32_ord (le_value (slice 0 4 c))
  | _ => be_value c
  end.

(** the values of the columns, the first of which is at offset [off] *)
Fixpoint key_vals (ts : list ColType) (ls : list Z) (off : Z) (key : list Z) : list Z :=
  match ts, ls with
  | t :: ts, n :: ls => col_val t (slice off n key) :: key_vals ts ls (off + n) key
  | _, _ => []
  end.

(** lexicographic comparison of lists of integers *)
Fixpoint lex (a b : list Z) : comparison :=
  match a, b with
  | x :: a, y :: b => match Z.compare x y with Eq => lex a b | c => c end
  | _, _ => Eq
  end.
Definition sign (c : comparison) : Z := match c with Lt => -1 | Eq => 0 | Gt => 1 end.

(** the columns of an index: supported, and four bytes for numbers *)
Definition col_ok (t : ColType) (n : Z) : Prop :=
  supported t = true /\ 0 <= n /\ (t = TYPE_STRING \/ n = 4).

(** a key the index may hold: it has all its bytes, and no float is NaN *)
Fixpoint key_ok_from (ts : list ColType) (ls : list Z) (off : Z) (key : list Z) : Prop :=
  match ts, ls with
  | t :: ts, n :: ls =>
      off + n <= zlen key /\ (t = TYPE_FLOAT -> f32_nan (le_value (slice off n key)) = false) /\
      key_ok_from ts ls (off + n) key
  | _, _ => True
  end.
Definition key_ok (ts : list ColType) (ls : list Z) (key : list Z) : Prop := bytes_ok key /\ key_ok_from ts ls 0 key.

Lemma be_value_bound l : bytes_ok l -> 0 <= be_value l < 256 ^ zlen l.
Proof.
  induction 1 as [|x l Hx _ IH]; simpl; [unfold zlen; simpl; lia|].
  replace (zlen (x :: l)) with (Z.succ (zlen l)) by (unfold zlen; simpl length; lia).
  pose proof (zlen_nonneg l). rewrite Z.pow_succ_r by lia. unfold byte_ok in Hx. nia.
Qed.

Lemma memcmp_sign a b :
  bytes_ok a -> bytes_ok b -> zlen a = zlen b -> memcmp a b = sign (Z.compare (be_value a) (be_value b)).
Proof.
  intros Ha. revert b. induction Ha as [|x a Hx Ha IH]; intros [|y b] Hb Hl; try done.
  apply Forall_cons in Hb as [Hy Hb].
  assert (Hl' : zlen a = zlen b) by (unfold zlen in *; simpl in Hl; lia). specialize (IH b Hb Hl'). simpl. rewrite IH, <- Hl'.
  pose proof (be_value_bound a Ha) as Ba. pose proof (be_value_bound b Hb) as Bb. rewrite <- Hl' in Bb. unfold byte_ok in *.
  set (w := 256 ^ zlen a) in *. destruct (Z.ltb_spec x y) as [H|H]; [|destruct (Z.ltb_spec y x) as [H2|H2]].
  - rewrite (proj2 (Z.compare_lt_iff _ _)) by nia. done.
  - rewrite (proj2 (Z.compare_gt_iff _ _)) by nia. done.
  - assert (x = y) as -> by lia. by rewrite Z.add_compare_mono_l.
Qed.

Lemma sign_3way x y : (if x <? y then -1 else if y <? x then 1 else 0) = sign (Z.compare x y).
Proof.
  destruct (Z.compare_spec x y), (Z.ltb_spec x y), (Z.ltb_spec y x); simpl; lia.
Qed.

Lemma compare_col a b off t n :
  col_ok t n -> bytes_ok a -> bytes_ok b -> 0 <= off -> off + n <= zlen a -> off + n <= zlen b ->
  (t = TYPE_FLOAT -> f32_nan (le_value (slice off n a)) = false /\ f32_nan (le_value (slice off n b)) = false) ->
  ix_compare_col a b off t n tt = (Ok (sign (Z.compare (col_val t (slice off n a)) (col_val t (slice off n b)))), tt).
Proof.
  intros (Hs & Hn & Ht) Ha Hb Ho La Lb Hnan.
  assert (Hload : forall l m, off + m <= zlen l -> 0 <= m -> load l off m tt = (Ok (slice off m l), tt)).
  { intros l m Hl Hm. unfold load, mload. by rewrite (proj2 (in_range_spec _ _ _)) by lia. }
  assert (Hsl : forall l, n = 4 -> slice 0 4 (slice off n l) = slice off 4 l).
  { intros l ->. rewrite slice_slice by lia. f_equal. lia. }
  destruct t; try done; cbn [ix_compare_col col_val].
  - destruct Ht as [|Hn4]; [done|]. rewrite (bind_ok _ _ _ _ _ (Hload a 4 ltac:(lia) ltac:(lia))).
    rewrite (bind_ok _ _ _ _ _ (Hload b 4 ltac:(lia) ltac:(lia))), !Hsl by done. unfold ret. by rewrite sign_3way.
  - destruct Ht as [|Hn4]; [done|]. destruct (Hnan eq_refl) as [Na Nb]. rewrite Hn4 in Na, Nb.
    rewrite (bind_ok _ _ _ _ _ (Hload a 4 ltac:(lia) ltac:(lia))).
    rewrite (bind_ok _ _ _ _ _ (Hload b 4 ltac:(lia) ltac:(lia))), !Hsl by done. unfold ret, dec_f32, f32_gt.
    fold (f32_lt (f32_of_bits (le_value (slice off 4 b))) (f32_of_bits (le_value (slice off 4 a)))).
    by rewrite !f32_lt_ord, sign_3way by done.
  - rewrite (bind_ok _ _ _ _ _ (Hload a n La Hn)), (bind_ok _ _ _ _ _ (Hload b n Lb Hn)). unfold ret.
    rewrite memcmp_sign; [done|by apply bytes_ok_slice|by apply bytes_ok_slice|by rewrite !zlen_slice by lia].
Qed.

Lemma compare_from a b ts ls n i off :
  Forall2 col_ok (drop i ts) (drop i ls) -> bytes_ok a -> bytes_ok b -> 0 <= off ->
  key_ok_from (drop i ts) (drop i ls) off a -> key_ok_from (drop i ts) (drop i ls) off b ->
  (i + n <= length ts)%nat ->
  ix_compare_from a b ts ls i off n tt =
  (Ok (sign (lex (take n (key_vals (drop i ts) (drop i ls) off a)) (take n (key_vals (drop i ts) (drop i ls) off b)))), tt).
Proof.
  intros Hc Ha Hb. revert i off Hc. induction n as [|n IH]; intros i off Hc Ho Ka Kb Hn; [done|].
  destruct (lookup_lt_is_Some_2 ts i ltac:(lia)) as [t Et]. rewrite (drop_S _ _ _ Et) in *.
  destruct (drop i ls) as [|len ls'] eqn:El; [by inversion Hc|]. apply Forall2_cons in Hc as [Hct Hc].
  assert (Els : ls !! i = Some len) by (rewrite <- (Nat.add_0_r i), <- lookup_drop, El; done).
  assert (ls' = drop (S i) ls) as -> by (rewrite (drop_S _ _ _ Els) in El; congruence).
  cbn [key_ok_from] in Ka, Kb. destruct Ka as (La & Na & Ka), Kb as (Lb & Nb & Kb).
  cbn [ix_compare_from key_vals take lex]. rewrite Et, Els. unfold deref at 1 2.
  rewrite (bind_ok (ret t) _ tt t tt eq_refl), (bind_ok (ret len) _ tt len tt eq_refl).
  rewrite (bind_ok _ _ _ _ _ (compare_col a b off t len Hct Ha Hb Ho La Lb ltac:(auto))).
  destruct (Z.compare _ _) eqn:E; simpl; try done. replace (i + 1)%nat with (S i) by lia.
  destruct Hct as (_ & ? & _). apply IH; try done; lia.
Qed.

(** With a prefix of [pre] columns ([0] for all of them) the comparison is the
    lexicographic one of the first [pre] values. *)
Lemma ix_compare_spec a b ts ls pre :
  Forall2 col_ok ts ls -> key_ok ts ls a -> key_ok ts ls b -> 0 <= pre <= zlen ts ->
  ix_compare a b ts ls pre tt =
  (Ok (sign (let n := Z.to_nat (if 0 <? pre then pre else zlen ts) in
             lex (take n (key_vals ts ls 0 a)) (take n (key_vals ts ls 0 b)))), tt).
Proof.
  intros Hc [Ba Ka] [Bb Kb] Hp. unfold ix_compare. pose proof (Forall2_length _ _ _ Hc) as Hl.
  assert (zlen ls = zlen ts) as -> by (unfold zlen; lia).
  apply (compare_from a b ts ls _ 0 0); try done. unfold zlen in *. destruct (0 <? pre); lia.
Qed.

Lemma length_key_vals ts ls off key : length ts = length ls -> length (key_vals ts ls off key) = length ts.
Proof. revert ls off. induction ts as [|t ts IH]; intros [|n ls] off H; simpl in *; try done. f_equal. apply IH. lia. Qed.

(** *** [lex] is a total order on lists of one length *)

Lemma lex_refl a : lex a a = Eq.
Proof. induction a as [|x a IH]; [done|]. simpl. by rewrite Z.compare_refl. Qed.

Lemma lex_eq a b : length a = length b -> lex a b = Eq -> a = b.
Proof.
  revert b. induction a as [|x a IH]; intros [|y b] Hl; simpl; try done.
  destruct (Z.compare_spec x y) as [->|?|?]; try done. intros H. f_equal. apply IH; [|done]. simpl in Hl. lia.
Qed.

Lemma lex_antisym a b : lex b a = CompOpp (lex a b).
Proof.
  revert b. induction a as [|x a IH]; intros [|y b]; try done. simpl. rewrite (Z.compare_antisym x y).
  destruct (Z.compare x y); simpl; try done.
Qed.

Lemma lex_lt_trans a b c :
  length a = length b -> length b = length c -> lex a b = Lt -> lex b c <> Gt -> lex a c = Lt.
Proof.
  revert b c. induction a as [|x a IH]; intros [|y b] [|z c] H1 H2; simpl; try done.
  destruct (Z.compare_spec x y) as [->|Hxy|Hxy]; try done.
  - destruct (Z.compare_spec y z); try done. intros. apply (IH b); simpl in *; (done || lia).
  - intros _ Hc. destruct (Z.compare_spec y z) as [->|Hyz|Hyz]; [| |done];
      by rewrite (proj2 (Z.compare_lt_iff _ _)) by lia.
Qed.

Lemma lex_take n a b : lex a b <> Gt -> lex (take n a) (take n b) <> Gt.
Proof.
  revert n b. induction a as [|x a IH]; intros [|n] [|y b]; simpl; try done. destruct (Z.compare x y); try done. apply IH.
Qed.

Lemma lex_le_lt_trans a b c :
  length a = length b -> length b = length c -> lex a b <> Gt -> lex b c = Lt -> lex a c = Lt.
Proof.
  intros H1 H2 Hab Hbc. destruct (lex a b) eqn:E; [|by apply (lex_lt_trans a b c); rewrite ?Hbc|done].
  by rewrite (lex_eq a b H1 E).
Qed.
End IxKey.

(** * Properties *)

(** The header of an index file survives [serialize] and [deserialize]: into a
    buffer that is long enough the bytes are written without a failing assertion,
    and reading them back gives the same header. *)
Theorem ix_hdr_roundtrip h dest :
  IxHdr.hdr_ok h -> tot_len_ h <= zlen dest ->
  exists d, IxHdr.serialize_to h dest = Ok d /\ zlen d = zlen dest /\ IxHdr.deserialize_from d = Ok h.
Proof.
  intros Hh Hd. pose proof (IxHdr.zlen_image h Hh) as Hz. pose proof (zlen_nonneg (IxHdr.image h)).
  exists (splice 0 (IxHdr.image h) dest). split; [by apply IxHdr.serialize_image|].
  split; [by rewrite zlen_splice by lia|]. by apply IxHdr.hdr_deserialize_image.
Qed.

Definition demo_ix_hdr : IxFileHdr :=
  IxHdr.update_tot_len (mkIxFileHdr IX_NO_PAGE 2 1 2 [TYPE_INT; TYPE_STRING] [4; 8] 12 202 2436 1 1 0).

Lemma ix_hdr_roundtrip_witness :
  exists d, IxHdr.serialize_to demo_ix_hdr (zeros 100) = Ok d /\ zlen d = zlen (zeros 100) /\ IxHdr.deserialize_from d = Ok demo_ix_hdr.
Proof.
  apply (ix_hdr_roundtrip demo_ix_hdr (zeros 100)).
  - split; [reflexivity|reflexivity|reflexivity|]. repeat constructor; vm_compute; discriminate || reflexivity.
  - vm_compute. discriminate.
Defined.

(** On the keys an index may hold, [ix_compare] always returns, is
    antisymmetric up to sign and transitive, and is zero only for keys with the
    same column values: the total preorder the tree search needs. *)
Theorem ix_compare_total_order ts ls a b c :
  Forall2 IxKey.col_ok ts ls -> IxKey.key_ok ts ls a -> IxKey.key_ok ts ls b -> IxKey.key_ok ts ls c ->
  exists ab bc ac, IxKey.ix_compare a b ts ls 0 tt = (Ok ab, tt) /\ IxKey.ix_compare b c ts ls 0 tt = (Ok bc, tt) /\
    IxKey.ix_compare a c ts ls 0 tt = (Ok ac, tt) /\ IxKey.ix_compare b a ts ls 0 tt = (Ok (- ab), tt) /\
    (ab <= 0 -> bc <= 0 -> ac <= 0) /\ (ab <= 0 -> bc < 0 -> ac < 0) /\ (ab < 0 -> bc <= 0 -> ac < 0) /\
    (ab = 0 <-> IxKey.key_vals ts ls 0 a = IxKey.key_vals ts ls 0 b).
Proof.
  intros Hc Ha Hb Hcc. pose proof (zlen_nonneg ts). pose proof (Forall2_length _ _ _ Hc) as Hl.
  rewrite !IxKey.ix_compare_spec by (done || lia). change (0 <? 0) with false. cbv iota zeta.
  assert (Htk : forall k, take (Z.to_nat (zlen ts)) (IxKey.key_vals ts ls 0 k) = IxKey.key_vals ts ls 0 k).
  { intros k. apply firstn_all2. rewrite IxKey.length_key_vals by done. unfold zlen. lia. }
  rewrite !Htk. do 3 eexists. do 3 (split; [reflexivity|]).
  pose proof (IxKey.length_key_vals ts ls 0 a Hl) as La. pose proof (IxKey.length_key_vals ts ls 0 b Hl) as Lb.
  pose proof (IxKey.length_key_vals ts ls 0 c Hl) as Lc.
  set (A := IxKey.key_vals ts ls 0 a) in *. set (B := IxKey.key_vals ts ls 0 b) in *. set (D := IxKey.key_vals ts ls 0 c) in *.
  assert (H1 : IxKey.lex A B = Lt -> IxKey.lex B D <> Gt -> IxKey.lex A D = Lt) by (apply IxKey.lex_lt_trans; congruence).
  assert (H2 : IxKey.lex A B <> Gt -> IxKey.lex B D = Lt -> IxKey.lex A D = Lt) by (apply IxKey.lex_le_lt_trans; congruence).
  assert (HE : IxKey.lex A B = Eq -> A = B) by (apply IxKey.lex_eq; congruence).
  split; [rewrite (IxKey.lex_antisym A B); by destruct (IxKey.lex A B)|].
  destruct (IxKey.lex A B) eqn:E1, (IxKey.lex B D) eqn:E2; simpl; split_and!; try lia;
    try (intros; rewrite ?H1, ?H2 by done; simpl; lia).
  all: try (rewrite HE, E2 by done; simpl; lia).
  all: try (split; [intros; lia|intros Heq; rewrite Heq, IxKey.lex_refl in E1; done]).
  all: try (split; [by intros; apply HE|done]).
Qed.

Lemma ix_compare_total_order_witness :
  exists ab bc ac, IxKey.ix_compare (enc_i32 (-3)) (enc_i32 5) [TYPE_INT] [4] 0 tt = (Ok ab, tt) /\
    IxKey.ix_compare (enc_i32 5) (enc_i32 9) [TYPE_INT] [4] 0 tt = (Ok bc, tt) /\
    IxKey.ix_compare (enc_i32 (-3)) (enc_i32 9) [TYPE_INT] [4] 0 tt = (Ok ac, tt) /\
    IxKey.ix_compare (enc_i32 5) (enc_i32 (-3)) [TYPE_INT] [4] 0 tt = (Ok (- ab), tt) /\
    (ab <= 0 -> bc <= 0 -> ac <= 0) /\ (ab <= 0 -> bc < 0 -> ac < 0) /\ (ab < 0 -> bc <= 0 -> ac < 0) /\
    (ab = 0 <-> IxKey.key_vals [TYPE_INT] [4] 0 (enc_i32 (-3)) = IxKey.key_vals [TYPE_INT] [4] 0 (enc_i32 5)).
Proof.
  apply (ix_compare_total_order [TYPE_INT] [4] (enc_i32 (-3)) (enc_i32 5) (enc_i32 9)).
  - constructor; [|constructor]. split; [reflexivity|]. split; [lia|right; reflexivity].
  - split; [apply enc_i32_ok|]. vm_compute. split; [discriminate|]. split; [discriminate|exact I].
  - split; [apply enc_i32_ok|]. vm_compute. split; [discriminate|]. split; [discriminate|exact I].
  - split; [apply enc_i32_ok|]. vm_compute. split; [discriminate|]. split; [discriminate|exact I].
Defined.

(** A key column of type BIGINT or DATETIME is not supported: the first comparison
    throws. *)
Lemma ix_compare_unsupported a b t n ts ls :
  IxKey.supported t = false ->
  IxKey.ix_compare a b (t :: ts) (n :: ls) 1 tt = (Throw (InternalError "Unexpected data type"), tt).
Proof. by destruct t. Qed.
