(* ===== verification/IxNode.v ===== *)
(** Nodes of the B+ tree: [IxNodeHandle] of [src/src/index/ix_index_handle.h] and
    [src/src/index/ix_index_handle.cpp].

    A node is the data of one page: the header, an array of [btree_order + 1] keys
    and an array of [btree_order + 1] rids.  The operations run on the bytes of
    the page; an access outside the page is the failure [Undef]. *)

From S2P Require Import Prelude Bytes Errors Disk Defs LogRecord IxDefs.

Module IxNode.

Section node.
Context (h : IxFileHdr).
Local Open Scope prog_scope.
Abbreviation NodeM := (Prog (list Z)).

(** ** Memory of a page *)

Definition load (off n : Z) : NodeM (list Z) := let* b := get in deref (mload b off n).
Definition store (off : Z) (d : list Z) : NodeM unit :=
  let* b := get in
  let* b := deref (memcpy b off d (zlen d)) in
  modify (fun _ => b).
Definition get_int (off : Z) : NodeM Z := let* b := load off 4 in ret (dec_i32 b).
Definition set_int (off v : Z) : NodeM unit := store off (enc_i32 v).

(** a computation that does not use the page, like [ix_compare] *)
Definition pure_call {A} (m : Prog unit A) : NodeM A := fun b => ((m tt).1, b).

(** ** Accessors *)

Definition get_size : NodeM Z := get_int off_num_key.
Definition set_size (size : Z) : NodeM unit := set_int off_num_key size.
Definition get_parent_page_no : NodeM Z := get_int off_parent.
Definition set_parent_page_no (parent : Z) : NodeM unit := set_int off_parent parent.
Definition get_next_leaf : NodeM Z := get_int off_next_leaf.
Definition set_next_leaf (page_no : Z) : NodeM unit := set_int off_next_leaf page_no.
Definition get_prev_leaf : NodeM Z := get_int off_prev_leaf.
Definition set_prev_leaf (page_no : Z) : NodeM unit := set_int off_prev_leaf page_no.
Definition get_next_free_page_no : NodeM Z := get_int off_ix_next_free.
Definition is_leaf_page : NodeM bool := let* b := load off_is_leaf 1 in ret (negb (le_value b =? 0)).
Definition is_root_page : NodeM bool := let* p := get_parent_page_no in ret (p =? IX_NO_PAGE).

Definition get_max_rid_size : Z := btree_order_ h.
Definition get_min_rid_size : Z := Z.shiftr (get_max_rid_size + 1) 1.
Definition get_max_key_size : NodeM Z :=
  let* l := is_leaf_page in ret (if l : bool then get_max_rid_size else get_max_rid_size - 1).
Definition get_min_key_size : NodeM Z :=
  let* l := is_leaf_page in ret (if l : bool then get_min_rid_size else get_min_rid_size - 1).

(** the addresses of the [i]-th key and rid, from the start of the page *)
Definition key_off (i : Z) : Z := sizeof_IxPageHdr + i * col_tot_len_ h.
Definition rid_off (i : Z) : Z := sizeof_IxPageHdr + keys_size_ h + i * Log.sizeof_Rid.

Definition get_key (i : Z) : NodeM (list Z) := load (key_off i) (col_tot_len_ h).
Definition set_key (i : Z) (key : list Z) : NodeM unit :=
  let* k := deref (mload key 0 (col_tot_len_ h)) in store (key_off i) k.
Definition get_rid (i : Z) : NodeM Rid := let* b := load (rid_off i) Log.sizeof_Rid in ret (Log.dec_Rid b).
Definition set_rid (i : Z) (rid : Rid) : NodeM unit := store (rid_off i) (Log.enc_Rid rid).
(** [get_rid(i)->page_no = v] *)
Definition set_rid_page_no (i v : Z) : NodeM unit := set_int (rid_off i) v.
Definition value_at (i : Z) : NodeM Z := let* r := get_rid i in ret (rid_page_no r).

(** [*page_hdr = {...}]; the padding after [is_leaf] is unspecified, zero here *)
Definition set_page_hdr (next_free_page_no parent num_key : Z) (is_leaf : bool) (prev_leaf next_leaf : Z) : NodeM unit :=
  store 0 (enc_i32 next_free_page_no ++ enc_i32 parent ++ enc_i32 num_key ++ enc_i32 (if is_leaf then 1 else 0) ++
           enc_i32 prev_leaf ++ enc_i32 next_leaf).

Definition compare (a b : list Z) (pre : Z) : NodeM Z := pure_call (IxKey.ix_compare a b (col_types_ h) (col_lens_ h) pre).

(** ** Search *)

(** [while (l < r) { mid = (l + r) >> 1; if (test(mid)) l = mid + 1; else r = mid; }],
    returning [r] *)
Fixpoint bsearch (test : Z -> NodeM bool) (fuel : nat) (l r : Z) : NodeM Z :=
  if negb (l <? r) then ret r
  else
    match fuel with
    | O => fail OutOfFuel
    | S fuel =>
        let mid := Z.shiftr (l + r) 1 in
        let* t := test mid in
        if t : bool then bsearch test fuel (mid + 1) r else bsearch test fuel l mid
    end.

Definition prefix (pre : Z) : Z := if pre =? 0 then col_num_ h else pre.

(** [IxNodeHandle::lower_bound] *)
Definition lower_bound (target : list Z) (pre : Z) : NodeM Z :=
  let* n := get_size in
  if n =? 0 then ret 0
  else
    let pre := prefix pre in
    let* r := bsearch (fun mid => let* k := get_key mid in let* c := compare k target pre in ret (c <? 0))
                (Z.to_nat n) 0 (n - 1) in
    let* k := get_key r in
    let* c := compare k target pre in
    if 0 <=? c then ret r else get_size.

(** [IxNodeHandle::upper_bound] *)
Definition upper_bound (target : list Z) (pre : Z) : NodeM Z :=
  let* n := get_size in
  if n =? 0 then ret 0
  else
    let pre := prefix pre in
    let* r := bsearch (fun mid => let* k := get_key mid in let* c := compare k target pre in ret (c <=? 0))
                (Z.to_nat n) 0 (n - 1) in
    let* k := get_key r in
    let* c := compare k target pre in
    if 0 <? c then ret r else get_size.

(** [IxNodeHandle::leaf_lookup]: [None] is the return value false *)
Definition leaf_lookup (key : list Z) : NodeM (option Rid) :=
  let* n := get_size in
  let pre := col_num_ h in
  let* r := bsearch (fun mid => let* k := get_key mid in let* c := compare k key pre in ret (c <? 0))
              (Z.to_nat n) 0 (n - 1) in
  let* k := get_key r in
  let* c := compare k key pre in
  if c =? 0 then let* v := get_rid r in ret (Some v) else ret None.

(** [IxNodeHandle::internal_lookup] *)
Definition internal_lookup (key : list Z) (pre : Z) : NodeM Z :=
  let* slot_no := upper_bound key pre in
  value_at slot_no.

(** [IxNodeHandle::find_child], of the child stored in page [child] *)
Fixpoint find_child_from (child rid_idx : Z) (fuel : nat) : NodeM Z :=
  let* n := get_size in
  if negb (rid_idx <=? n) then ret rid_idx
  else
    let* v := value_at rid_idx in
    if v =? child then ret rid_idx
    else match fuel with
         | O => fail OutOfFuel
         | S fuel => find_child_from child (rid_idx + 1) fuel
         end.
Definition find_child (child : Z) : NodeM Z :=
  let* n := get_size in
  let* rid_idx := find_child_from child 0 (Z.to_nat (n + 1)) in
  let* n := get_size in
  assert (rid_idx <=? n);;
  ret rid_idx.

(** ** Updates *)

(** [memcpy(get_key(i), get_key(j), col_tot_len); *get_rid(i) = *get_rid(j)]; the
    second copies the eight bytes of a struct *)
Definition copy_key (i j : Z) : NodeM unit := let* k := get_key j in set_key i k.
Definition load_rid (j : Z) : NodeM (list Z) := load (rid_off j) Log.sizeof_Rid.
Definition store_rid (i : Z) (r : list Z) : NodeM unit := store (rid_off i) r.
Definition copy_rid (i j : Z) : NodeM unit := let* r := load_rid j in store_rid i r.
Definition move_pair (i j : Z) : NodeM unit := copy_key i j;; copy_rid i j.

(** [for (i = from; i > to; --i)] and [for (i = from; i < to; ++i)] *)
Fixpoint loop_down (n : nat) (i : Z) (body : Z -> NodeM unit) : NodeM unit :=
  match n with O => ret tt | S n => body i;; loop_down n (i - 1) body end.
Fixpoint loop_up (n : nat) (i : Z) (body : Z -> NodeM unit) : NodeM unit :=
  match n with O => ret tt | S n => body i;; loop_up n (i + 1) body end.

(** [IxNodeHandle::insert_pair] *)
Definition insert_pair (pos : Z) (key : list Z) (rid : Rid) : NodeM unit :=
  let* n := get_size in
  assert (pos <=? n);;
  loop_down (Z.to_nat (n - pos)) n (fun i => move_pair i (i - 1));;
  set_key pos key;;
  set_rid pos rid;;
  let* n := get_size in
  set_size (n + 1).

(** [IxNodeHandle::erase_pair] *)
Definition erase_pair (pos : Z) : NodeM unit :=
  let* n := get_size in
  assert (pos <? n);;
  let* l := is_leaf_page in
  assert l;;
  loop_up (Z.to_nat (n - 1 - pos)) pos (fun i => move_pair i (i + 1));;
  let* n := get_size in
  set_size (n - 1).

(** [IxNodeHandle::insert] *)
Definition insert (key : list Z) (value : Rid) : NodeM (Z * Z) :=
  let* l := is_leaf_page in
  assert l;;
  let* key_idx := lower_bound key 0 in
  let* n := get_size in
  let* fresh := (if key_idx =? n then ret true
                 else let* k := get_key key_idx in let* c := compare k key 0 in ret (0 <? c)) in
  (if fresh : bool then insert_pair key_idx key value
   else assert (key_idx <? n);; throw IndexEntryNotUniqueError);;
  let* n := get_size in
  ret (key_idx, n).

(** the loop of [IxNodeHandle::remove]: the index moves on after each removal *)
Fixpoint remove_from (key : list Z) (key_idx : Z) (fuel : nat) : NodeM unit :=
  let* n := get_size in
  let* go := (if key_idx <? n then let* k := get_key key_idx in let* c := compare k key 0 in ret (c =? 0) else ret false) in
  if go : bool then
    match fuel with
    | O => fail OutOfFuel
    | S fuel => erase_pair key_idx;; remove_from key (key_idx + 1) fuel
    end
  else ret tt.

(** [IxNodeHandle::remove] *)
Definition remove (key : list Z) : NodeM Z :=
  let* l := is_leaf_page in
  assert l;;
  let* key_idx := lower_bound key 0 in
  let* n := get_size in
  remove_from key key_idx (Z.to_nat n);;
  get_size.

(** [IxNodeHandle::remove_and_return_only_child] *)
Definition remove_and_return_only_child : NodeM Z :=
  let* n := get_size in
  assert (n =? 1);;
  let* child_page_no := value_at 0 in
  erase_pair 0;;
  let* n := get_size in
  assert (n =? 0);;
  ret child_page_no.
End node.
End IxNode.
