(* ===== verification/IxTree.v ===== *)
(** The B+ tree: [IxIndexHandle] of [src/src/index/ix_index_handle.h] and
    [src/src/index/ix_index_handle.cpp], and [IxScan].

    The tree lives in pages of the page store; a node handle is the pointer to its
    pinned page, and the node operations run on the bytes of that page
    ([on_node]).  The recursive descents and the mutually recursive split and
    coalesce take a fuel argument, the height of the tree being enough.  The
    latch [root_latch_] is not modelled: each operation runs alone.  Deleting a
    handle object has no effect on the model. *)

From S2P Require Import Prelude Bytes Errors Disk BufferPool PageStore Defs LogRecord.
From S2P Require Import IxDefs IxNode.

Record IxIndexHandle := mkIxIndexHandle { ix_fd_ : Z; ix_hdr_ : IxFileHdr }.

Module Ix.

Definition set_root (v : Z) (h : IxFileHdr) : IxFileHdr :=
  mkIxFileHdr (first_free_page_no_ h) (num_pages_ h) v (col_num_ h) (col_types_ h) (col_lens_ h) (col_tot_len_ h)
    (btree_order_ h) (keys_size_ h) (first_leaf_ h) (last_leaf_ h) (tot_len_ h).
Definition set_last_leaf (v : Z) (h : IxFileHdr) : IxFileHdr :=
  mkIxFileHdr (first_free_page_no_ h) (num_pages_ h) (root_page_ h) (col_num_ h) (col_types_ h) (col_lens_ h) (col_tot_len_ h)
    (btree_order_ h) (keys_size_ h) (first_leaf_ h) v (tot_len_ h).
Definition set_num_pages (v : Z) (h : IxFileHdr) : IxFileHdr :=
  mkIxFileHdr (first_free_page_no_ h) v (root_page_ h) (col_num_ h) (col_types_ h) (col_lens_ h) (col_tot_len_ h)
    (btree_order_ h) (keys_size_ h) (first_leaf_ h) (last_leaf_ h) (tot_len_ h).
Definition set_first_free (v : Z) (h : IxFileHdr) : IxFileHdr :=
  mkIxFileHdr v (num_pages_ h) (root_page_ h) (col_num_ h) (col_types_ h) (col_lens_ h) (col_tot_len_ h)
    (btree_order_ h) (keys_size_ h) (first_leaf_ h) (last_leaf_ h) (tot_len_ h).

Section ops.
Context {S : Type} `{!PageStore S}.
Local Open Scope prog_scope.

Definition St : Type := S * IxIndexHandle.
Definition lift {A} (m : Prog S A) : Prog St A := zoom fst (fun s t => (s, t.2)) m.
Definition hdr : Prog St IxFileHdr := gets (fun t => ix_hdr_ t.2).
Definition get_fd : Prog St Z := gets (fun t => ix_fd_ t.2).
Definition upd_hdr (f : IxFileHdr -> IxFileHdr) : Prog St unit :=
  modify (fun t => (t.1, mkIxIndexHandle (ix_fd_ t.2) (f (ix_hdr_ t.2)))).

(** running a node operation on the memory of a pinned page: the bytes it changed,
    if any, are in the page afterwards, also when it throws *)
Definition on_node {A} (p : page_ptr) (m : IxFileHdr -> Prog (list Z) A) : Prog St A :=
  let* h := hdr in
  let* b := lift (read_bytes p 0 PAGE_SIZE) in
  let '(r, b') := m h b in
  (if bool_decide (b' = b) then ret tt else lift (write_bytes p 0 b'));;
  match r with Ok a => ret a | Throw e => throw e | Fail f => fail f end.

Definition compare (a b : list Z) : Prog St Z :=
  let* h := hdr in
  match (IxKey.ix_compare a b (col_types_ h) (col_lens_ h) 0 tt).1 with
  | Ok c => ret c | Throw e => throw e | Fail f => fail f
  end.

(** [IxIndexHandle::fetch_node] *)
Definition fetch_node (page_no : Z) : Prog St page_ptr :=
  let* fd := get_fd in
  let* r := lift (fetch_page (mkPageId fd page_no)) in
  deref r.

(** [IxIndexHandle::release_node_handle] *)
Definition release_node_handle (node : page_ptr) (is_dirty : bool) : Prog St unit :=
  let* id := lift (get_page_id node) in
  let* ok := lift (unpin_page id is_dirty) in
  assert ok.

Definition get_page_no (node : page_ptr) : Prog St Z := let* id := lift (get_page_id node) in ret (page_no id).

(** [IxIndexHandle::create_node] *)
Definition create_node : Prog St page_ptr :=
  let* h := hdr in
  upd_hdr (set_num_pages (num_pages_ h + 1));;
  let* fd := get_fd in
  if negb (first_free_page_no_ h =? IX_NO_PAGE) then
    let* r := lift (fetch_page (mkPageId fd (first_free_page_no_ h))) in
    let* page := deref r in
    let* next := on_node page (fun _ => IxNode.get_next_free_page_no) in
    upd_hdr (set_first_free next);;
    ret page
  else
    let* r := lift (new_page fd) in
    let* r := deref r in
    ret r.2.

(** ** Search *)

Fixpoint find_leaf_from (key : list Z) (fuel : nat) (tnode : page_ptr) : Prog St page_ptr :=
  match fuel with
  | O => fail OutOfFuel
  | Datatypes.S fuel =>
      let* page_id := on_node tnode (fun h => IxNode.internal_lookup h key 0) in
      release_node_handle tnode false;;
      let* tnode := fetch_node page_id in
      let* l := on_node tnode (fun _ => IxNode.is_leaf_page) in
      if l : bool then ret tnode else find_leaf_from key fuel tnode
  end.

(** [IxIndexHandle::find_leaf_page]; the operation, the transaction and [find_first] are not used *)
Definition find_leaf_page (fuel : nat) (key : list Z) : Prog St page_ptr :=
  let* h := hdr in
  let* tnode := fetch_node (root_page_ h) in
  let* l := on_node tnode (fun _ => IxNode.is_leaf_page) in
  if l : bool then ret tnode else find_leaf_from key fuel tnode.

(** [IxIndexHandle::is_exist] *)
Definition is_exist (fuel : nat) (key : list Z) : Prog St bool :=
  let* ix_hdl := find_leaf_page fuel key in
  let* key_idx := on_node ix_hdl (fun h => IxNode.lower_bound h key 0) in
  let* n := on_node ix_hdl (fun _ => IxNode.get_size) in
  let* found := (if key_idx <? n then
                   let* k := on_node ix_hdl (fun h => IxNode.get_key h key_idx) in
                   let* c := compare key k in ret (c =? 0)
                 else ret false) in
  if found : bool then release_node_handle ix_hdl false;; ret true
  else release_node_handle ix_hdl false;; ret false.

(** the loop of [get_value] *)
Fixpoint collect (ix_hdl : page_ptr) (key : list Z) (key_idx : Z) (fuel : nat) : Prog St (list Rid) :=
  let* n := on_node ix_hdl (fun _ => IxNode.get_size) in
  let* go := (if key_idx <? n then
                let* k := on_node ix_hdl (fun h => IxNode.get_key h key_idx) in
                let* c := compare key k in ret (c =? 0)
              else ret false) in
  if go : bool then
    match fuel with
    | O => fail OutOfFuel
    | Datatypes.S fuel =>
        let* r := on_node ix_hdl (fun h => IxNode.get_rid h key_idx) in
        let* rs := collect ix_hdl key (key_idx + 1) fuel in
        ret (r :: rs)
    end
  else ret [].

(** [IxIndexHandle::get_value]: the result vector; the return value is that it is not empty *)
Definition get_value (fuel : nat) (key : list Z) : Prog St (bool * list Rid) :=
  let* ix_hdl := find_leaf_page fuel key in
  let* key_idx := on_node ix_hdl (fun h => IxNode.lower_bound h key 0) in
  let* n := on_node ix_hdl (fun _ => IxNode.get_size) in
  let* result := collect ix_hdl key key_idx (Z.to_nat n) in
  release_node_handle ix_hdl false;;
  ret (negb (bool_decide (result = [])), result).

(** [get_min_leafnode]: the leaf, and whether it is the argument itself *)
Fixpoint min_leaf_from (page_id : Z) (fuel : nat) : Prog St page_ptr :=
  match fuel with
  | O => fail OutOfFuel
  | Datatypes.S fuel =>
      let* node := fetch_node page_id in
      let* l := on_node node (fun _ => IxNode.is_leaf_page) in
      if l : bool then ret node
      else
        let* page_id := on_node node (fun h => IxNode.value_at h 0) in
        release_node_handle node false;;
        min_leaf_from page_id fuel
  end.
Definition get_min_leafnode (fuel : nat) (node : page_ptr) : Prog St (bool * page_ptr) :=
  let* l := on_node node (fun _ => IxNode.is_leaf_page) in
  if l : bool then ret (true, node)
  else
    let* page_id := on_node node (fun h => IxNode.value_at h 0) in
    let* leaf := min_leaf_from page_id fuel in
    ret (false, leaf).

(** what [lower_bound] and [upper_bound] of the tree share *)
Definition bound (search : IxFileHdr -> list Z -> Z -> Prog (list Z) Z) (fuel : nat) (key : list Z) (pre : Z) : Prog St Iid :=
  let* leaf_hdl := find_leaf_page fuel key in
  let* slot_no := on_node leaf_hdl (fun h => search h key pre) in
  let* n := on_node leaf_hdl (fun _ => IxNode.get_size) in
  let* next := on_node leaf_hdl (fun _ => IxNode.get_next_leaf) in
  let* here := get_page_no leaf_hdl in
  let iid := if (slot_no =? n) && negb (next =? IX_NO_PAGE) then mkIid next 0 else mkIid here slot_no in
  release_node_handle leaf_hdl false;;
  ret iid.
(** [IxIndexHandle::lower_bound] *)
Definition lower_bound : nat -> list Z -> Z -> Prog St Iid := bound IxNode.lower_bound.
(** [IxIndexHandle::upper_bound] *)
Definition upper_bound : nat -> list Z -> Z -> Prog St Iid := bound IxNode.upper_bound.

(** [IxIndexHandle::get_rid] *)
Definition get_rid (iid : Iid) : Prog St Rid :=
  let* node := fetch_node (iid_page_no iid) in
  let* n := on_node node (fun _ => IxNode.get_size) in
  if iid_slot_no iid =? n then release_node_handle node false;; ret (mkRid (-1) (-1))
  else if n <? iid_slot_no iid then throw IndexEntryNotFoundError
  else
    let* res := on_node node (fun h => IxNode.get_rid h (iid_slot_no iid)) in
    release_node_handle node false;;
    ret res.

(** [IxIndexHandle::leaf_end] *)
Definition leaf_end : Prog St Iid :=
  let* h := hdr in
  let* node := fetch_node (last_leaf_ h) in
  let* n := on_node node (fun _ => IxNode.get_size) in
  release_node_handle node false;;
  ret (mkIid (last_leaf_ h) n).
(** [IxIndexHandle::leaf_begin] *)
Definition leaf_begin : Prog St Iid := let* h := hdr in ret (mkIid (first_leaf_ h) 0).

(** ** Maintenance *)

(** [IxIndexHandle::maintain_child] *)
Definition maintain_child (node : page_ptr) (child_idx : Z) : Prog St unit :=
  let* l := on_node node (fun _ => IxNode.is_leaf_page) in
  if negb l then
    let* child_page_no := on_node node (fun h => IxNode.value_at h child_idx) in
    let* child := fetch_node child_page_no in
    let* pn := get_page_no node in
    on_node child (fun _ => IxNode.set_parent_page_no pn);;
    release_node_handle child true
  else ret tt.

(** [maintain_child(node, i)] for [n] indices from [i] on *)
Fixpoint maintain_children (node : page_ptr) (i : Z) (n : nat) : Prog St unit :=
  match n with O => ret tt | Datatypes.S n => maintain_child node i;; maintain_children node (i + 1) n end.

(** the loop of [maintain_parent]: [first] says that [curr] is the argument node;
    the result is the last value of [parent_page_no] and the last [parent] *)
Fixpoint maintain_up (min_key : list Z) (first : bool) (curr : page_ptr) (parent_page_no : Z) (parent : option page_ptr)
    (fuel : nat) : Prog St (Z * option page_ptr) :=
  if parent_page_no =? IX_NO_PAGE then ret (parent_page_no, parent)
  else
    match fuel with
    | O => fail OutOfFuel
    | Datatypes.S fuel =>
        let* parent := fetch_node parent_page_no in
        let* pn := get_page_no curr in
        let* rank := on_node parent (fun h => IxNode.find_child h pn) in
        (if first then ret tt else release_node_handle curr false);;
        if 0 <? rank then
          on_node parent (fun h => IxNode.set_key h (rank - 1) min_key);;
          release_node_handle parent true;;
          ret (parent_page_no, Some parent)
        else
          let* parent_page_no := on_node parent (fun _ => IxNode.get_parent_page_no) in
          maintain_up min_key false parent parent_page_no (Some parent) fuel
    end.

(** [IxIndexHandle::maintain_parent] *)
Definition maintain_parent (fuel : nat) (node : page_ptr) : Prog St unit :=
  let* parent_page_no := on_node node (fun _ => IxNode.get_parent_page_no) in
  assert (negb (parent_page_no =? IX_NO_PAGE));;
  let* (same, min_leafnode) := get_min_leafnode fuel node in
  let* min_key := on_node min_leafnode (fun h => IxNode.get_key h 0) in
  let* (parent_page_no, parent) := maintain_up min_key true node parent_page_no None fuel in
  (if parent_page_no =? IX_NO_PAGE then let* parent := deref parent in release_node_handle parent false else ret tt);;
  if same : bool then ret tt else release_node_handle min_leafnode false.

(** [IxIndexHandle::erase_leaf] *)
Definition erase_leaf (leaf : page_ptr) : Prog St unit :=
  let* l := on_node leaf (fun _ => IxNode.is_leaf_page) in
  assert l;;
  let* prev_no := on_node leaf (fun _ => IxNode.get_prev_leaf) in
  let* prev := fetch_node prev_no in
  let* next_no := on_node leaf (fun _ => IxNode.get_next_leaf) in
  on_node prev (fun _ => IxNode.set_next_leaf next_no);;
  release_node_handle prev true;;
  let* next := fetch_node next_no in
  let* prev_no := on_node leaf (fun _ => IxNode.get_prev_leaf) in
  on_node next (fun _ => IxNode.set_prev_leaf prev_no);;
  release_node_handle next true.

(** ** Moving pairs between two nodes *)

(** [memcpy(dst->get_key(i), src->get_key(j), col_tot_len)] and [*dst->get_rid(i) = *src->get_rid(j)] *)
Definition key_across (dst : page_ptr) (i : Z) (src : page_ptr) (j : Z) : Prog St unit :=
  let* k := on_node src (fun h => IxNode.get_key h j) in on_node dst (fun h => IxNode.set_key h i k).
Definition rid_across (dst : page_ptr) (i : Z) (src : page_ptr) (j : Z) : Prog St unit :=
  let* r := on_node src (fun h => IxNode.load_rid h j) in on_node dst (fun h => IxNode.store_rid h i r).

Definition size_of (node : page_ptr) : Prog St Z := on_node node (fun _ => IxNode.get_size).
Definition resize (node : page_ptr) (n : Z) : Prog St unit := on_node node (fun _ => IxNode.set_size n).

(** [while (size(big) - size(small) > 1) body] *)
Fixpoint balance (big small : page_ptr) (body : Z -> Z -> Prog St unit) (fuel : nat) : Prog St unit :=
  let* nb := size_of big in
  let* ns := size_of small in
  if 1 <? nb - ns then
    match fuel with
    | O => fail OutOfFuel
    | Datatypes.S fuel => body nb ns;; balance big small body fuel
    end
  else ret tt.

(** the first pair of the right leaf becomes the last one of the left leaf *)
Definition leaf_shift_left (left_node right_node : page_ptr) (right_size left_size : Z) : Prog St unit :=
  key_across left_node left_size right_node 0;;
  rid_across left_node left_size right_node 0;;
  resize left_node (left_size + 1);;
  on_node right_node (fun h => IxNode.loop_up (Z.to_nat (right_size - 1)) 0 (fun i => IxNode.move_pair h i (i + 1)));;
  resize right_node (right_size - 1).

(** the last pair of the left leaf becomes the first one of the right leaf *)
Definition leaf_shift_right (left_node right_node : page_ptr) (left_size right_size : Z) : Prog St unit :=
  on_node right_node (fun h => IxNode.loop_down (Z.to_nat right_size) right_size (fun i => IxNode.move_pair h i (i - 1)));;
  key_across right_node 0 left_node (left_size - 1);;
  rid_across right_node 0 left_node (left_size - 1);;
  resize right_node (right_size + 1);;
  resize left_node (left_size - 1).

(** the first child of the right internal node becomes the last one of the left *)
Definition internal_shift_left (fuel : nat) (left_node right_node : page_ptr) (right_size left_size : Z) : Prog St unit :=
  let* (_, tmp) := get_min_leafnode fuel right_node in
  key_across left_node left_size tmp 0;;
  release_node_handle tmp false;;
  rid_across left_node (left_size + 1) right_node 0;;
  on_node right_node (fun h => IxNode.loop_up (Z.to_nat (right_size - 1)) 0 (fun i => IxNode.move_pair h i (i + 1)));;
  on_node right_node (fun h => IxNode.copy_rid h (right_size - 1) right_size);;
  resize left_node (left_size + 1);;
  resize right_node (right_size - 1);;
  maintain_child left_node (left_size + 1).

(** the last child of the left internal node becomes the first one of the right *)
Definition internal_shift_right (fuel : nat) (left_node right_node : page_ptr) (left_size right_size : Z) : Prog St unit :=
  let* (_, tmp) := get_min_leafnode fuel right_node in
  on_node right_node (fun h => IxNode.loop_down (Z.to_nat right_size) right_size
    (fun i => IxNode.copy_key h i (i - 1);; IxNode.copy_rid h (i + 1) i));;
  on_node right_node (fun h => IxNode.copy_rid h 1 0);;
  key_across right_node 0 tmp 0;;
  release_node_handle tmp false;;
  rid_across right_node 0 left_node left_size;;
  resize right_node (right_size + 1);;
  resize left_node (left_size - 1);;
  maintain_child right_node 0.

(** [IxIndexHandle::redistribute] *)
Definition redistribute (fuel : nat) (left_node right_node : page_ptr) : Prog St unit :=
  let* left_size := size_of left_node in
  let* right_size := size_of right_node in
  let n := Z.to_nat (Z.abs (left_size - right_size)) in
  assert ((1 <? left_size - right_size) || (1 <? right_size - left_size));;
  let* leaf := on_node left_node (fun _ => IxNode.is_leaf_page) in
  if leaf : bool then
    let* leaf' := on_node right_node (fun _ => IxNode.is_leaf_page) in
    assert leaf';;
    (if left_size <? right_size
     then balance right_node left_node (leaf_shift_left left_node right_node) n
     else balance left_node right_node (leaf_shift_right left_node right_node) n);;
    maintain_parent fuel right_node
  else
    (if left_size <? right_size
     then balance right_node left_node (internal_shift_left fuel left_node right_node) n
     else balance left_node right_node (internal_shift_right fuel left_node right_node) n);;
    maintain_parent fuel right_node.

(** ** Insertion *)

(** a root above the two nodes: [insert_into_parent] of the root *)
Definition new_root (old_node : page_ptr) (key : list Z) (new_node : page_ptr) : Prog St page_ptr :=
  let* parent_node := create_node in
  on_node parent_node (fun _ => IxNode.set_page_hdr IX_NO_PAGE IX_NO_PAGE 0 false IX_NO_PAGE IX_NO_PAGE);;
  on_node parent_node (fun h => IxNode.set_key h 0 key);;
  let* old_no := get_page_no old_node in
  let* new_no := get_page_no new_node in
  on_node parent_node (fun h => IxNode.set_rid_page_no h 0 old_no);;
  on_node parent_node (fun h => IxNode.set_rid_page_no h 1 new_no);;
  let* n := size_of parent_node in
  resize parent_node (n + 1);;
  let* parent_no := get_page_no parent_node in
  on_node old_node (fun _ => IxNode.set_parent_page_no parent_no);;
  on_node new_node (fun _ => IxNode.set_parent_page_no parent_no);;
  upd_hdr (set_root parent_no);;
  ret parent_node.

(** the new node behind the old one in their parent: [insert_into_parent] of any other node *)
Definition add_child (old_node : page_ptr) (key : list Z) (new_node : page_ptr) : Prog St (page_ptr * Z) :=
  let* parent_no := on_node old_node (fun _ => IxNode.get_parent_page_no) in
  let* parent_node := fetch_node parent_no in
  let* key_idx := on_node parent_node (fun h => IxNode.upper_bound h key 0) in
  let* n := size_of parent_node in
  on_node parent_node (fun h => IxNode.loop_down (Z.to_nat (n - key_idx)) n
    (fun i => IxNode.copy_key h i (i - 1);; IxNode.copy_rid h (i + 1) i));;
  on_node parent_node (fun h => IxNode.set_key h key_idx key);;
  let* new_no := get_page_no new_node in
  on_node parent_node (fun h => IxNode.set_rid h (key_idx + 1) (mkRid new_no (-1)));;
  let* n := size_of parent_node in
  resize parent_node (n + 1);;
  ret (parent_node, n + 1).

(** [IxIndexHandle::insert_into_parent], given the function that splits the parent *)
Definition insert_into_parent (split : page_ptr -> Prog St page_ptr) (old_node : page_ptr) (key : list Z) (new_node : page_ptr) : Prog St unit :=
  let* root := on_node old_node (fun _ => IxNode.is_root_page) in
  let* parent_node :=
    (if root : bool then new_root old_node key new_node
     else
       let* (parent_node, n) := add_child old_node key new_node in
       let* m := on_node parent_node IxNode.get_max_key_size in
       (if m <? n then
          let* parent_new_node := split parent_node in
          release_node_handle parent_new_node true
        else ret tt);;
       ret parent_node) in
  release_node_handle parent_node true.

(** the upper half of the pairs of a node goes to the new node, which is linked behind it: [split] between the
    creation of the new node and [insert_into_parent].  The result is the key that goes up, read before the node
    shrinks; the pointer the source keeps to it sees the same bytes, which nothing overwrites *)
Definition move_half (node new_node : page_ptr) : Prog St (list Z) :=
  let* split_from := on_node node IxNode.get_min_key_size in
  let* split_to := size_of node in
  let* insert_up_key := on_node node (fun h => IxNode.get_key h split_from) in
  let* leaf := on_node node (fun _ => IxNode.is_leaf_page) in
  let* node_no := get_page_no node in
  let* new_no := get_page_no new_node in
  let* parent := on_node node (fun _ => IxNode.get_parent_page_no) in
  let* next := on_node node (fun _ => IxNode.get_next_leaf) in
  let first := if leaf : bool then split_from else split_from + 1 in
  let* ks := on_node node (fun h => IxNode.load (IxNode.key_off h first) (col_tot_len_ h * (split_to - first))) in
  on_node new_node (fun h => IxNode.store (IxNode.key_off h 0) ks);;
  let* rs := on_node node (fun h => IxNode.load (IxNode.rid_off h first) (Log.sizeof_Rid * (split_to - split_from))) in
  on_node new_node (fun h => IxNode.store (IxNode.rid_off h 0) rs);;
  on_node new_node (fun _ => IxNode.set_page_hdr IX_NO_PAGE parent (split_to - first) leaf node_no next);;
  resize node split_from;;
  (if negb (next =? IX_NO_PAGE) then
     let* old_next_node := fetch_node next in
     on_node old_next_node (fun _ => IxNode.set_prev_leaf new_no);;
     release_node_handle old_next_node true
   else if leaf : bool then upd_hdr (set_last_leaf new_no) else ret tt);;
  on_node node (fun _ => IxNode.set_next_leaf new_no);;
  (if leaf : bool then ret tt else maintain_children new_node 0 (Z.to_nat (split_to - split_from)));;
  ret insert_up_key.

(** [IxIndexHandle::split] *)
Fixpoint split (fuel : nat) (node : page_ptr) : Prog St page_ptr :=
  match fuel with
  | O => fail OutOfFuel
  | Datatypes.S fuel =>
      let* n := size_of node in
      let* m := on_node node IxNode.get_max_key_size in
      assert (n =? m + 1);;
      let* new_node := create_node in
      let* insert_up_key := move_half node new_node in
      insert_into_parent (split fuel) node insert_up_key new_node;;
      ret new_node
  end.

(** where the pair went: the right one of two leaves if the key is not before its first key *)
Definition landed (key : list Z) (left_node right_node : page_ptr) : Prog St Z :=
  let* k := on_node right_node (fun h => IxNode.get_key h 0) in
  let* c := compare key k in
  if 0 <=? c then get_page_no right_node else get_page_no left_node.

(** [redistribute] with a neighbour that has room, in [insert_entry]; [None]: no room *)
Definition try_left (fuel : nat) (key : list Z) (old_ix_hdl : page_ptr) : Prog St (option Z) :=
  let* prev_no := on_node old_ix_hdl (fun _ => IxNode.get_prev_leaf) in
  if prev_no =? IX_NO_PAGE then ret None
  else
    let* prev_node := fetch_node prev_no in
    let* n := size_of prev_node in
    let* m := on_node prev_node IxNode.get_max_key_size in
    if n <? m then
      redistribute fuel prev_node old_ix_hdl;;
      let* insert_id := landed key prev_node old_ix_hdl in
      release_node_handle prev_node true;;
      release_node_handle old_ix_hdl true;;
      ret (Some insert_id)
    else release_node_handle prev_node false;; ret None.
Definition try_right (fuel : nat) (key : list Z) (old_ix_hdl : page_ptr) : Prog St (option Z) :=
  let* next_no := on_node old_ix_hdl (fun _ => IxNode.get_next_leaf) in
  if next_no =? IX_NO_PAGE then ret None
  else
    let* next_node := fetch_node next_no in
    let* n := size_of next_node in
    let* m := on_node next_node IxNode.get_max_key_size in
    if n <? m then
      redistribute fuel old_ix_hdl next_node;;
      let* insert_id := landed key old_ix_hdl next_node in
      release_node_handle next_node true;;
      release_node_handle old_ix_hdl true;;
      ret (Some insert_id)
    else release_node_handle next_node false;; ret None.

(** [IxIndexHandle::insert_entry] *)
Definition insert_entry (fuel : nat) (key : list Z) (value : Rid) : Prog St Z :=
  let* old_ix_hdl := find_leaf_page fuel key in
  let* (_, pair_count) := try_catch (on_node old_ix_hdl (fun h => IxNode.insert h key value))
    (fun e => match e with
              | IndexEntryNotUniqueError => release_node_handle old_ix_hdl false;; throw e
              | _ => throw e
              end) in
  let* m := on_node old_ix_hdl IxNode.get_max_key_size in
  if m <? pair_count then
    assert (pair_count =? m + 1);;
    let* r := try_left fuel key old_ix_hdl in
    match r with
    | Some insert_id => ret insert_id
    | None =>
        let* r := try_right fuel key old_ix_hdl in
        match r with
        | Some insert_id => ret insert_id
        | None =>
            let* new_ix_hdl := split fuel old_ix_hdl in
            let* insert_id := landed key old_ix_hdl new_ix_hdl in
            release_node_handle new_ix_hdl true;;
            release_node_handle old_ix_hdl true;;
            ret insert_id
        end
    end
  else
    let* old_page_id := get_page_no old_ix_hdl in
    release_node_handle old_ix_hdl true;;
    ret old_page_id.

(** ** Deletion *)

(** [IxIndexHandle::adjust_root] *)
Definition adjust_root (old_root_node : page_ptr) : Prog St bool :=
  let* l := on_node old_root_node (fun _ => IxNode.is_leaf_page) in
  assert (negb l);;
  let* n := size_of old_root_node in
  assert (n =? 0);;
  let* new_root_id := on_node old_root_node (fun h => IxNode.value_at h 0) in
  let* new_root := fetch_node new_root_id in
  let* id := lift (get_page_id old_root_node) in
  lift (unpin_page id false);;
  lift (delete_page id);;
  upd_hdr (set_root new_root_id);;
  on_node new_root (fun _ => IxNode.set_parent_page_no IX_NO_PAGE);;
  release_node_handle new_root true;;
  ret true.

(** [IxIndexHandle::update_right_parent], given [coalesce_or_redistribute] *)
Definition update_right_parent (fuel : nat) (cor : page_ptr -> Prog St bool) (right_node : page_ptr) : Prog St unit :=
  let* right_parent_no := on_node right_node (fun _ => IxNode.get_parent_page_no) in
  let* right_parent := fetch_node right_parent_no in
  let* right_no := get_page_no right_node in
  let* child_idx := on_node right_parent (fun h => IxNode.find_child h right_no) in
  let* id := lift (get_page_id right_node) in
  lift (unpin_page id false);;
  lift (delete_page id);;
  let* n := size_of right_parent in
  (if child_idx =? 0 then
     on_node right_parent (fun h => IxNode.loop_up (Z.to_nat (n - 1)) 0 (fun i => IxNode.move_pair h i (i + 1)));;
     on_node right_parent (fun h => IxNode.copy_rid h (n - 1) n);;
     resize right_parent (n - 1);;
     maintain_parent fuel right_parent
   else
     on_node right_parent (fun h => IxNode.loop_up (Z.to_nat (n - 1 - (child_idx - 1))) (child_idx - 1)
       (fun i => IxNode.copy_key h i (i + 1);; IxNode.copy_rid h (i + 1) (i + 2)));;
     resize right_parent (n - 1));;
  let* root := on_node right_parent (fun _ => IxNode.is_root_page) in
  let* n := size_of right_parent in
  let* m := on_node right_parent IxNode.get_min_key_size in
  if (root && (n =? 0)) || (negb root && (n <? m)) then
    let* deleted := cor right_parent in
    if negb deleted then release_node_handle right_parent true else ret tt
  else release_node_handle right_parent true.

(** the pairs [j], [j+1], ... of the right node, [n] of them, to [i], [i+1], ... of the left *)
Fixpoint move_across (left_node right_node : page_ptr) (i j : Z) (n : nat) : Prog St unit :=
  match n with
  | O => ret tt
  | Datatypes.S n => key_across left_node i right_node j;; rid_across left_node i right_node j;;
                     move_across left_node right_node (i + 1) (j + 1) n
  end.

(** [IxIndexHandle::coalesce], given [coalesce_or_redistribute] *)
Definition coalesce (fuel : nat) (cor : page_ptr -> Prog St bool) (left_node right_node : page_ptr) : Prog St unit :=
  let* left_size := size_of left_node in
  let* right_size := size_of right_node in
  let* leaf := on_node left_node (fun _ => IxNode.is_leaf_page) in
  let* m := on_node left_node IxNode.get_max_key_size in
  let* left_no := get_page_no left_node in
  let* right_no := get_page_no right_node in
  let* left_next := on_node left_node (fun _ => IxNode.get_next_leaf) in
  (if leaf : bool then
     assert (left_size + right_size <=? m);;
     let* leaf' := on_node right_node (fun _ => IxNode.is_leaf_page) in
     assert leaf';;
     assert (left_next =? right_no)
   else assert (left_size + right_size <? m));;
  let* rright_node_id := on_node right_node (fun _ => IxNode.get_next_leaf) in
  on_node left_node (fun _ => IxNode.set_next_leaf rright_node_id);;
  (if negb (rright_node_id =? IX_NO_PAGE) then
     let* rright_node := fetch_node rright_node_id in
     on_node rright_node (fun _ => IxNode.set_prev_leaf left_no);;
     release_node_handle rright_node true
   else if leaf : bool then upd_hdr (set_last_leaf left_no) else ret tt);;
  (if leaf : bool then
     move_across left_node right_node left_size 0 (Z.to_nat right_size);;
     resize left_node (left_size + right_size)
   else
     let* (_, right_min_node) := get_min_leafnode fuel right_node in
     key_across left_node left_size right_min_node 0;;
     release_node_handle right_min_node false;;
     move_across left_node right_node (left_size + 1) 0 (Z.to_nat right_size);;
     rid_across left_node (left_size + right_size + 1) right_node right_size;;
     maintain_children left_node (left_size + 1) (Z.to_nat (right_size + 1));;
     resize left_node (left_size + (right_size + 1)));;
  update_right_parent fuel cor right_node.

(** [IxIndexHandle::coalesce_or_redistribute]: whether [node] was deleted *)
Fixpoint coalesce_or_redistribute (fuel : nat) (node : page_ptr) : Prog St bool :=
  match fuel with
  | O => fail OutOfFuel
  | Datatypes.S fuel =>
      let* root := on_node node (fun _ => IxNode.is_root_page) in
      if root : bool then adjust_root node
      else
        let* left_node_id := on_node node (fun _ => IxNode.get_prev_leaf) in
        if negb (left_node_id =? IX_NO_PAGE) then
          let* left_node := fetch_node left_node_id in
          let* n := size_of left_node in
          let* m := on_node left_node IxNode.get_min_key_size in
          if m <? n then
            redistribute fuel left_node node;;
            release_node_handle left_node true;;
            ret false
          else
            coalesce fuel (coalesce_or_redistribute fuel) left_node node;;
            release_node_handle left_node true;;
            ret true
        else
          let* right_node_id := on_node node (fun _ => IxNode.get_next_leaf) in
          if negb (right_node_id =? IX_NO_PAGE) then
            let* right_node := fetch_node right_node_id in
            let* n := size_of right_node in
            let* m := on_node right_node IxNode.get_min_key_size in
            if m <? n then
              redistribute fuel node right_node;;
              release_node_handle right_node true;;
              ret false
            else
              coalesce fuel (coalesce_or_redistribute fuel) node right_node;;
              ret false
          else assert false;; ret false
  end.

(** [IxIndexHandle::delete_entry]: the result is always false *)
Definition delete_entry (fuel : nat) (key : list Z) : Prog St bool :=
  let* old_ix_hdl := find_leaf_page fuel key in
  let* pair_count := on_node old_ix_hdl (fun h => IxNode.remove h key) in
  let* root := on_node old_ix_hdl (fun _ => IxNode.is_root_page) in
  let* m := on_node old_ix_hdl IxNode.get_min_key_size in
  (if negb root && (pair_count <? m) then
     let* deleted := coalesce_or_redistribute fuel old_ix_hdl in
     if negb deleted then release_node_handle old_ix_hdl true else ret tt
   else release_node_handle old_ix_hdl true);;
  ret false.
End ops.
End Ix.

(** ** [IxScan] *)

Record IxScan := mkIxScan { scan_iid : Iid; scan_end : Iid; is_end_ : bool; curr_node_size_ : Z }.

Module IxSc.
Section ops.
Context {S : Type} `{!PageStore S}.
Local Open Scope prog_scope.

(** [IxScan::is_end] *)
Definition is_end (sc : IxScan) : bool := is_end_ sc || bool_decide (scan_iid sc = scan_end sc).

(** the size of the leaf the scan is at *)
Definition leaf_size (page_no : Z) : Prog (Ix.St (S:=S)) Z :=
  let* node := Ix.fetch_node page_no in
  let* l := Ix.on_node node (fun _ => IxNode.is_leaf_page) in
  assert l;;
  let* n := Ix.size_of node in
  Ix.release_node_handle node false;;
  ret n.

(** [IxScan::IxScan] *)
Definition begin (lower upper : Iid) (is_end0 : bool) : Prog (Ix.St (S:=S)) IxScan :=
  if negb (is_end0 || bool_decide (lower = upper)) then
    let* n := leaf_size (iid_page_no lower) in
    ret (mkIxScan lower upper is_end0 n)
  else ret (mkIxScan lower upper is_end0 (-1)).

(** [IxScan::next] *)
Definition next (sc : IxScan) : Prog (Ix.St (S:=S)) IxScan :=
  assert (negb (is_end sc));;
  let iid := mkIid (iid_page_no (scan_iid sc)) (iid_slot_no (scan_iid sc) + 1) in
  let* h := Ix.hdr in
  if negb (iid_page_no iid =? last_leaf_ h) && (iid_slot_no iid =? curr_node_size_ sc) then
    let* node := Ix.fetch_node (iid_page_no iid) in
    let* next_no := Ix.on_node node (fun _ => IxNode.get_next_leaf) in
    Ix.release_node_handle node false;;
    let* n := leaf_size next_no in
    ret (mkIxScan (mkIid next_no 0) (scan_end sc) (is_end_ sc) n)
  else if (iid_page_no iid =? last_leaf_ h) && (iid_slot_no iid =? curr_node_size_ sc) then
    ret (mkIxScan iid (scan_end sc) true (curr_node_size_ sc))
  else ret (mkIxScan iid (scan_end sc) (is_end_ sc) (curr_node_size_ sc)).

(** [IxScan::rid] *)
Definition rid (sc : IxScan) : Prog (Ix.St (S:=S)) Rid := Ix.get_rid (scan_iid sc).
End ops.
End IxSc.
