(* ===== verification/IxNodeProofs.v ===== *)
(** What the node operations do to the keys and rids of a page.

    [K], [R] and [F] read a key, a rid and a header field of a page; every store of
    the source changes exactly one of them.  [nrep] relates the bytes of a
    page to an abstract node, a header with lists of keys and rids. *)

From S2P Require Import Prelude Bytes Errors Disk Defs LogRecord IxDefs IxNode.

Module IxN.
Import IxNode.

(** the geometry [IxManager::create_index] sets up *)
Record geo (h : IxFileHdr) : Prop := {
  ge_len : 0 < col_tot_len_ h;
  ge_order : 2 < btree_order_ h;
  ge_keys : keys_size_ h = (btree_order_ h + 1) * col_tot_len_ h;
  ge_fit : sizeof_IxPageHdr + (btree_order_ h + 1) * (col_tot_len_ h + Log.sizeof_Rid) <= PAGE_SIZE;
}.

Section node.
Context (h : IxFileHdr) (Hg : geo h).
Local Open Scope prog_scope.

Definition slot (i : Z) : Prop := 0 <= i <= btree_order_ h.
Definition K (b : list Z) (i : Z) : list Z := slice (key_off h i) (col_tot_len_ h) b.
Definition R (b : list Z) (i : Z) : list Z := slice (rid_off h i) Log.sizeof_Rid b.
Definition F (b : list Z) (off : Z) : Z := dec_i32 (slice off 4 b).
Definition page (b : list Z) : Prop := zlen b = PAGE_SIZE.

(** ** Where things are *)

Lemma key_range i : slot i -> sizeof_IxPageHdr <= key_off h i /\ key_off h i + col_tot_len_ h <= sizeof_IxPageHdr + keys_size_ h.
Proof. intros [? ?]. unfold key_off. destruct Hg as [? ? -> ?]. nia. Qed.

Lemma rid_range i : slot i -> sizeof_IxPageHdr + keys_size_ h <= rid_off h i /\ rid_off h i + Log.sizeof_Rid <= PAGE_SIZE.
Proof. intros [? ?]. unfold rid_off, Log.sizeof_Rid in *. destruct Hg as [? ? -> Hf]. unfold Log.sizeof_Rid in Hf. nia. Qed.

Lemma keys_size_pos : 0 < keys_size_ h /\ sizeof_IxPageHdr + keys_size_ h <= PAGE_SIZE.
Proof. destruct Hg as [? ? -> Hf]. unfold Log.sizeof_Rid in Hf. nia. Qed.

Lemma key_disjoint i j : slot i -> slot j -> i <> j ->
  key_off h i + col_tot_len_ h <= key_off h j \/ key_off h j + col_tot_len_ h <= key_off h i.
Proof. intros [? ?] [? ?] ?. destruct Hg. unfold key_off. destruct (Z.lt_ge_cases i j); [left|right]; nia. Qed.

Lemma rid_disjoint i j : i <> j ->
  rid_off h i + Log.sizeof_Rid <= rid_off h j \/ rid_off h j + Log.sizeof_Rid <= rid_off h i.
Proof. intros ?. unfold rid_off, Log.sizeof_Rid. lia. Qed.

(** ** Loads *)

Lemma load_ok b off n : page b -> 0 <= off -> 0 <= n -> off + n <= PAGE_SIZE -> load off n b = (Ok (slice off n b), b).
Proof.
  intros Hb ? ? ?. unfold load, bind, get, mload. rewrite (proj2 (in_range_spec _ _ _)) by (rewrite Hb; lia). done.
Qed.

Lemma store_ok b off d : page b -> 0 <= off -> off + zlen d <= PAGE_SIZE -> store off d b = (Ok tt, splice off d b).
Proof.
  intros Hb ? ?. unfold store, bind, get. rewrite memcpy_ok by (done || rewrite Hb; lia). done.
Qed.

Lemma get_int_ok b off : page b -> 0 <= off <= 20 -> get_int off b = (Ok (F b off), b).
Proof.
  intros Hb ?. unfold get_int. erewrite bind_ok by (apply load_ok; try done; unfold PAGE_SIZE; lia). done.
Qed.

Lemma set_int_ok b off v : page b -> 0 <= off <= 20 -> set_int off v b = (Ok tt, splice off (enc_i32 v) b).
Proof. intros Hb ?. apply store_ok; try done; rewrite ?zlen_enc_i32; unfold PAGE_SIZE; lia. Qed.

Lemma get_key_ok b i : page b -> slot i -> get_key h i b = (Ok (K b i), b).
Proof.
  intros Hb Hi. pose proof (key_range i Hi). pose proof keys_size_pos. destruct Hg. apply load_ok; try done; unfold sizeof_IxPageHdr in *; lia.
Qed.

Lemma get_rid_ok b i : page b -> slot i -> get_rid h i b = (Ok (Log.dec_Rid (R b i)), b).
Proof.
  intros Hb Hi. pose proof (rid_range i Hi). pose proof keys_size_pos. unfold get_rid.
  erewrite bind_ok by (apply load_ok; try done; unfold sizeof_IxPageHdr, Log.sizeof_Rid in *; lia). done.
Qed.

Lemma value_at_ok b i : page b -> slot i -> value_at h i b = (Ok (rid_page_no (Log.dec_Rid (R b i))), b).
Proof. intros Hb Hi. unfold value_at. by erewrite bind_ok by (by apply get_rid_ok). Qed.

Lemma is_leaf_ok b : page b -> is_leaf_page b = (Ok (negb (le_value (slice off_is_leaf 1 b) =? 0)), b).
Proof. intros Hb. unfold is_leaf_page. by erewrite bind_ok by (by apply load_ok; try done; unfold off_is_leaf, PAGE_SIZE; lia). Qed.

(** ** Stores *)

(** two pages with the same header, and the same keys and rids where [P], [Q] hold *)
Record agree (P Q : Z -> Prop) (b b' : list Z) : Prop := {
  ag_page : page b';
  ag_hdr : forall off n, 0 <= off -> 0 <= n -> off + n <= sizeof_IxPageHdr -> slice off n b' = slice off n b;
  ag_key : forall i, slot i -> P i -> K b' i = K b i;
  ag_rid : forall i, slot i -> Q i -> R b' i = R b i;
}.

Lemma agree_refl b P Q : page b -> agree P Q b b.
Proof. by split. Qed.

Lemma agree_trans (P Q P' Q' : Z -> Prop) b1 b2 b3 :
  agree P Q b1 b2 -> agree P' Q' b2 b3 -> agree (fun i => P i /\ P' i) (fun i => Q i /\ Q' i) b1 b3.
Proof.
  intros [_ H1 H2 H3] [? H1' H2' H3']. split; [done| | |].
  - intros. by rewrite H1', H1.
  - intros i ? [? ?]. by rewrite H2', H2.
  - intros i ? [? ?]. by rewrite H3', H3.
Qed.

Lemma set_key_ok b i k :
  page b -> slot i -> zlen k = col_tot_len_ h ->
  exists b', set_key h i k b = (Ok tt, b') /\ K b' i = k /\ agree (fun j => j <> i) (fun _ => True) b b'.
Proof.
  intros Hb Hi Hk. pose proof (key_range i Hi) as Hr. pose proof keys_size_pos as Hs. pose proof Hg as []. unfold page in *.
  exists (splice (key_off h i) k b). split; [|split].
  - unfold set_key, mload. rewrite (proj2 (in_range_spec _ _ _)) by lia. rewrite <- Hk, slice_full.
    apply store_ok; try done; unfold sizeof_IxPageHdr in *; lia.
  - unfold K. apply slice_splice_same; unfold sizeof_IxPageHdr in *; lia.
  - split; unfold page, K, R, sizeof_IxPageHdr in *.
    + rewrite zlen_splice; lia.
    + intros. apply slice_splice_disj; lia.
    + intros j Hj ?. pose proof (key_range j Hj). pose proof (key_disjoint i j Hi Hj ltac:(done)).
      apply slice_splice_disj; unfold sizeof_IxPageHdr in *; lia.
    + intros j Hj ?. pose proof (rid_range j Hj). apply slice_splice_disj; unfold sizeof_IxPageHdr in *; lia.
Qed.

Lemma store_rid_ok b i r :
  page b -> slot i -> zlen r = Log.sizeof_Rid ->
  exists b', store_rid h i r b = (Ok tt, b') /\ R b' i = r /\ agree (fun _ => True) (fun j => j <> i) b b'.
Proof.
  intros Hb Hi Hz. pose proof (rid_range i Hi) as Hr. pose proof keys_size_pos as Hs. unfold page in *.
  exists (splice (rid_off h i) r b). split; [|split].
  - apply store_ok; try done; unfold sizeof_IxPageHdr in *; lia.
  - unfold R. apply slice_splice_same; unfold sizeof_IxPageHdr in *; lia.
  - split; unfold page, K, R, sizeof_IxPageHdr in *.
    + rewrite zlen_splice; lia.
    + intros. apply slice_splice_disj; lia.
    + intros j Hj ?. pose proof (key_range j Hj). apply slice_splice_disj; unfold sizeof_IxPageHdr in *; lia.
    + intros j Hj ?. pose proof (rid_range j Hj). pose proof (rid_disjoint i j ltac:(done)).
      apply slice_splice_disj; unfold sizeof_IxPageHdr in *; lia.
Qed.

(** a store into a header field *)
Lemma set_int_agree b off v :
  page b -> 0 <= off <= 20 ->
  exists b', set_int off v b = (Ok tt, b') /\ page b' /\ slice off 4 b' = enc_i32 v /\
    (forall off' n, 0 <= off' -> off' + n <= off \/ off + 4 <= off' -> slice off' n b' = slice off' n b) /\
    (forall i, slot i -> K b' i = K b i) /\ (forall i, slot i -> R b' i = R b i).
Proof.
  intros Hb Ho. pose proof keys_size_pos as Hs. pose proof (zlen_enc_i32 v) as Hz. pose proof Hb as Hb'. unfold page in Hb'.
  exists (splice off (enc_i32 v) b). assert (PAGE_SIZE = 4096) as HP by done. split; [by apply set_int_ok|]. split_and!.
  - unfold page. rewrite zlen_splice; lia.
  - apply slice_splice_same; lia.
  - intros. apply slice_splice_disj; lia.
  - intros i Hi. pose proof (key_range i Hi). unfold K, sizeof_IxPageHdr in *. apply slice_splice_disj; lia.
  - intros i Hi. pose proof (rid_range i Hi). unfold R, sizeof_IxPageHdr in *. apply slice_splice_disj; lia.
Qed.

Lemma move_pair_ok b i j :
  page b -> slot i -> slot j ->
  exists b', move_pair h i j b = (Ok tt, b') /\ K b' i = K b j /\ R b' i = R b j /\
    agree (fun k => k <> i) (fun k => k <> i) b b'.
Proof.
  intros Hb Hi Hj. pose proof (key_range j Hj). pose proof (rid_range j Hj). pose proof keys_size_pos. pose proof Hg as [].
  assert (Hk : zlen (K b j) = col_tot_len_ h) by (apply zlen_slice; unfold page, sizeof_IxPageHdr in *; lia).
  destruct (set_key_ok b i (K b j) Hb Hi Hk) as (b1 & E1 & HK & A1).
  assert (Hr : zlen (R b1 j) = Log.sizeof_Rid).
  { pose proof (ag_page _ _ _ _ A1) as Hp. apply zlen_slice; unfold page, sizeof_IxPageHdr, Log.sizeof_Rid in *; lia. }
  destruct (store_rid_ok b1 i (R b1 j) (ag_page _ _ _ _ A1) Hi Hr) as (b2 & E2 & HR & A2).
  exists b2. split; [|split_and!].
  - unfold move_pair, copy_key, copy_rid. erewrite bind_ok; [|erewrite bind_ok by (by apply get_key_ok); exact E1].
    erewrite bind_ok; [exact E2|]. apply load_ok; [apply A1|..]; unfold sizeof_IxPageHdr, Log.sizeof_Rid in *; lia.
  - by rewrite (ag_key _ _ _ _ A2).
  - by rewrite HR, (ag_rid _ _ _ _ A1).
  - destruct (agree_trans _ _ _ _ _ _ _ A1 A2) as [? ? Ak Ar]. split; auto.
Qed.

(** *** The shifting loops *)

Lemma shift_down n i b :
  page b -> slot i -> 0 <= i - Z.of_nat n ->
  exists b', loop_down n i (fun i => move_pair h i (i - 1)) b = (Ok tt, b') /\
    agree (fun j => j <= i - Z.of_nat n \/ i < j) (fun j => j <= i - Z.of_nat n \/ i < j) b b' /\
    (forall j, slot j -> i - Z.of_nat n < j <= i -> K b' j = K b (j - 1) /\ R b' j = R b (j - 1)).
Proof.
  revert i b. induction n as [|n IH]; intros i b Hb Hi Hn.
  { exists b. split; [done|]. split; [by apply agree_refl|]. intros. lia. }
  assert (Hi1 : slot (i - 1)) by (unfold slot in *; lia).
  destruct (move_pair_ok b i (i - 1) Hb Hi Hi1) as (b1 & E1 & K1 & R1 & A1).
  destruct (IH (i - 1) b1 (ag_page _ _ _ _ A1) Hi1 ltac:(lia)) as (b2 & E2 & A2 & H2).
  exists b2. split; [cbn [loop_down]; by rewrite (bind_ok _ _ _ _ _ E1)|]. split.
  - destruct (agree_trans _ _ _ _ _ _ _ A1 A2) as [? ? Ak Ar]. split; try done; intros j Hj Hc; [apply Ak|apply Ar]; try done; lia.
  - intros j Hj Hc. destruct (decide (j = i)) as [->|Hne].
    + rewrite (ag_key _ _ _ _ A2), (ag_rid _ _ _ _ A2) by (done || lia). done.
    + destruct (H2 j Hj ltac:(lia)) as [-> ->].
      rewrite (ag_key _ _ _ _ A1), (ag_rid _ _ _ _ A1) by (unfold slot in *; lia). done.
Qed.

Lemma shift_up n i b :
  page b -> 0 <= i -> i + Z.of_nat n <= btree_order_ h ->
  exists b', loop_up n i (fun i => move_pair h i (i + 1)) b = (Ok tt, b') /\
    agree (fun j => j < i \/ i + Z.of_nat n <= j) (fun j => j < i \/ i + Z.of_nat n <= j) b b' /\
    (forall j, i <= j < i + Z.of_nat n -> K b' j = K b (j + 1) /\ R b' j = R b (j + 1)).
Proof.
  revert i b. induction n as [|n IH]; intros i b Hb Hi Hn.
  { exists b. split; [done|]. split; [by apply agree_refl|]. intros. lia. }
  destruct (move_pair_ok b i (i + 1) Hb) as (b1 & E1 & K1 & R1 & A1); [unfold slot; lia|unfold slot; lia|].
  destruct (IH (i + 1) b1 (ag_page _ _ _ _ A1) ltac:(lia) ltac:(lia)) as (b2 & E2 & A2 & H2).
  exists b2. split; [cbn [loop_up]; by rewrite (bind_ok _ _ _ _ _ E1)|]. split.
  - destruct (agree_trans _ _ _ _ _ _ _ A1 A2) as [? ? Ak Ar]. split; try done; intros j Hj Hc; [apply Ak|apply Ar]; try done; lia.
  - intros j Hc. destruct (decide (j = i)) as [->|Hne].
    + rewrite (ag_key _ _ _ _ A2), (ag_rid _ _ _ _ A2) by (unfold slot in *; lia). done.
    + destruct (H2 j ltac:(lia)) as [-> ->].
      rewrite (ag_key _ _ _ _ A1), (ag_rid _ _ _ _ A1) by (unfold slot in *; lia). done.
Qed.

(** ** Abstract nodes *)

Record anode := mkANode {
  an_parent : Z; an_leaf : bool; an_prev : Z; an_next : Z;
  an_keys : list (list Z); an_rids : list Rid;
}.

Definition set_pairs (ks : list (list Z)) (rs : list Rid) (nd : anode) : anode :=
  mkANode (an_parent nd) (an_leaf nd) (an_prev nd) (an_next nd) ks rs.

Record nrep (nd : anode) (b : list Z) : Prop := {
  nr_page : page b;
  nr_parent : F b off_parent = an_parent nd;
  nr_num : F b off_num_key = zlen (an_keys nd);
  nr_leaf : negb (le_value (slice off_is_leaf 1 b) =? 0) = an_leaf nd;
  nr_prev : F b off_prev_leaf = an_prev nd;
  nr_next : F b off_next_leaf = an_next nd;
  nr_keys : forall i k, an_keys nd !! i = Some k -> K b (Z.of_nat i) = k;
  nr_rids : forall i r, an_rids nd !! i = Some r -> Log.dec_Rid (R b (Z.of_nat i)) = r;
  nr_cap : zlen (an_rids nd) <= btree_order_ h + 1;
  nr_len : length (an_rids nd) = if an_leaf nd then length (an_keys nd) else S (length (an_keys nd));
}.

Lemma nrep_keys_cap nd b : nrep nd b -> zlen (an_keys nd) <= btree_order_ h + 1.
Proof. intros []. unfold zlen in *. destruct (an_leaf nd); lia. Qed.

Lemma nrep_size nd b : nrep nd b -> get_size b = (Ok (zlen (an_keys nd)), b).
Proof. intros []. unfold get_size. rewrite get_int_ok by (done || unfold off_num_key; lia). by rewrite nr_num0. Qed.

Lemma nrep_is_leaf nd b : nrep nd b -> is_leaf_page b = (Ok (an_leaf nd), b).
Proof. intros []. rewrite is_leaf_ok by done. by rewrite nr_leaf0. Qed.

Lemma nrep_next nd b : nrep nd b -> get_next_leaf b = (Ok (an_next nd), b).
Proof. intros []. unfold get_next_leaf. rewrite get_int_ok by (done || unfold off_next_leaf; lia). by rewrite nr_next0. Qed.
Lemma nrep_prev nd b : nrep nd b -> get_prev_leaf b = (Ok (an_prev nd), b).
Proof. intros []. unfold get_prev_leaf. rewrite get_int_ok by (done || unfold off_prev_leaf; lia). by rewrite nr_prev0. Qed.
Lemma nrep_parent nd b : nrep nd b -> get_parent_page_no b = (Ok (an_parent nd), b).
Proof. intros []. unfold get_parent_page_no. rewrite get_int_ok by (done || unfold off_parent; lia). by rewrite nr_parent0. Qed.

Lemma nrep_get_key nd b i k : nrep nd b -> an_keys nd !! i = Some k -> get_key h (Z.of_nat i) b = (Ok k, b).
Proof.
  intros Hr Hi. pose proof (nrep_keys_cap nd b Hr). pose proof (lookup_lt_Some _ _ _ Hi). rewrite get_key_ok.
  - by rewrite (nr_keys _ _ Hr i k Hi).
  - apply Hr.
  - unfold slot, zlen in *. lia.
Qed.

Lemma nrep_get_rid nd b i r : nrep nd b -> an_rids nd !! i = Some r -> get_rid h (Z.of_nat i) b = (Ok r, b).
Proof.
  intros Hr Hi. pose proof (nr_cap _ _ Hr). pose proof (lookup_lt_Some _ _ _ Hi). rewrite get_rid_ok.
  - by rewrite (nr_rids _ _ Hr i r Hi).
  - apply Hr.
  - unfold slot, zlen in *. lia.
Qed.

(** *** Insertion and removal of a pair at a position of a leaf *)

Definition ins {A} (i : nat) (x : A) (l : list A) : list A := take i l ++ x :: drop i l.
Definition del {A} (i : nat) (l : list A) : list A := take i l ++ drop (S i) l.

Lemma lookup_ins {A} (i j : nat) (x : A) l : (i <= length l)%nat ->
  ins i x l !! j = if decide (j < i)%nat then l !! j else if decide (j = i) then Some x else l !! (j - 1)%nat.
Proof.
  intros Hi. unfold ins. assert (Ht : length (take i l) = i) by (rewrite length_take; lia). repeat destruct (decide _).
  - rewrite lookup_app_l by lia. by rewrite lookup_take_lt.
  - subst j. rewrite lookup_app_r by lia. by rewrite Ht, Nat.sub_diag.
  - rewrite lookup_app_r by lia. rewrite Ht. replace (j - i)%nat with (S (j - i - 1)) by lia. simpl. rewrite lookup_drop. f_equal. lia.
Qed.

Lemma lookup_del {A} (i j : nat) (l : list A) : (i < length l)%nat -> del i l !! j = if decide (j < i)%nat then l !! j else l !! S j.
Proof.
  intros Hi. unfold del. assert (Ht : length (take i l) = i) by (rewrite length_take; lia). destruct (decide _).
  - rewrite lookup_app_l by lia. by rewrite lookup_take_lt.
  - rewrite lookup_app_r by lia. rewrite Ht, lookup_drop. f_equal. lia.
Qed.

Lemma length_ins {A} i (x : A) l : (i <= length l)%nat -> length (ins i x l) = S (length l).
Proof. intros. unfold ins. rewrite length_app. simpl. rewrite length_take, length_drop. lia. Qed.

Lemma length_del {A} i (l : list A) : (i < length l)%nat -> length (del i l) = (length l - 1)%nat.
Proof. intros. unfold del. rewrite length_app, length_take, length_drop. lia. Qed.

(** after the pairs were rewritten, setting the size gives a node with the new pairs *)
Lemma nrep_resize P Q nd b b' ks rs :
  nrep nd b -> agree P Q b b' ->
  (forall i k, ks !! i = Some k -> K b' (Z.of_nat i) = k) ->
  (forall i r, rs !! i = Some r -> Log.dec_Rid (R b' (Z.of_nat i)) = r) ->
  zlen rs <= btree_order_ h + 1 -> length rs = (if an_leaf nd then length ks else S (length ks)) ->
  exists b'', set_size (zlen ks) b' = (Ok tt, b'') /\ nrep (set_pairs ks rs nd) b''.
Proof.
  intros Hr [Hp Hh _ _] HK HR Hcap Hlen.
  destruct (set_int_agree b' off_num_key (zlen ks) Hp) as (b2 & E2 & Hp2 & Hn2 & Hf2 & HK2 & HR2); [unfold off_num_key; lia|].
  assert (Hfield : forall off m, 0 <= off -> 0 <= m -> off + m <= 8 \/ 12 <= off -> off + m <= 24 -> slice off m b2 = slice off m b).
  { intros. rewrite Hf2 by (unfold off_num_key; lia). apply Hh; unfold sizeof_IxPageHdr; lia. }
  assert (Hks : zlen ks <= zlen rs) by (unfold zlen; destruct (an_leaf nd); lia). pose proof (zlen_nonneg ks).
  exists b2. split; [done|]. split; simpl; try done.
  - unfold F. rewrite Hfield by (unfold off_parent; lia). apply (nr_parent _ _ Hr).
  - unfold F. rewrite Hn2, dec_enc_i32; [done|]. pose proof Hg as [? ? ? Hfit].
    unfold int32_ok, Log.sizeof_Rid, sizeof_IxPageHdr, PAGE_SIZE in *; nia.
  - rewrite Hfield by (unfold off_is_leaf; lia). apply (nr_leaf _ _ Hr).
  - unfold F. rewrite Hfield by (unfold off_prev_leaf; lia). apply (nr_prev _ _ Hr).
  - unfold F. rewrite Hfield by (unfold off_next_leaf; lia). apply (nr_next _ _ Hr).
  - intros i k Hi. pose proof (lookup_lt_Some _ _ _ Hi). rewrite HK2 by (unfold slot, zlen in *; lia). by apply HK.
  - intros i r Hi. pose proof (lookup_lt_Some _ _ _ Hi). rewrite HR2 by (unfold slot, zlen in *; lia). by apply HR.
Qed.

Lemma agree_size P Q nd b b' : nrep nd b -> agree P Q b b' -> get_size b' = (Ok (zlen (an_keys nd)), b').
Proof.
  intros Hr [Hp Hh _ _]. unfold get_size. rewrite get_int_ok by (done || unfold off_num_key; lia).
  unfold F. rewrite Hh by (unfold off_num_key, sizeof_IxPageHdr; lia). by rewrite (nr_num _ _ Hr : dec_i32 _ = _).
Qed.

Lemma assert_ok {T} (c : bool) (k : unit -> Prog (list Z) T) b : c = true -> bind (assert c) k b = k tt b.
Proof. by intros ->. Qed.

Lemma insert_pair_ok nd b i key r :
  nrep nd b -> an_leaf nd = true -> (i <= length (an_keys nd))%nat -> zlen (an_keys nd) <= btree_order_ h ->
  zlen key = col_tot_len_ h -> Log.rid_ok r ->
  exists b', insert_pair h (Z.of_nat i) key r b = (Ok tt, b') /\
    nrep (set_pairs (ins i key (an_keys nd)) (ins i r (an_rids nd)) nd) b'.
Proof.
  intros Hr Hl Hi Hn Hk Hrid. pose proof (nr_len _ _ Hr) as Hlen. rewrite Hl in Hlen. set (n := length (an_keys nd)) in *.
  pose proof (nr_page _ _ Hr) as Hp. unfold zlen in Hn. fold n in Hn.
  destruct (shift_down (n - i) (Z.of_nat n) b Hp) as (b1 & E1 & A1 & S1); [unfold slot; lia|lia|].
  replace (Z.of_nat n - Z.of_nat (n - i)) with (Z.of_nat i) in * by lia.
  destruct (set_key_ok b1 (Z.of_nat i) key (ag_page _ _ _ _ A1)) as (b2 & E2 & K2 & A2); [unfold slot; lia|done|].
  destruct (store_rid_ok b2 (Z.of_nat i) (Log.enc_Rid r) (ag_page _ _ _ _ A2)) as (b3 & E3 & R3 & A3);
    [unfold slot; lia|apply Log.zlen_enc_Rid|].
  pose proof (agree_trans _ _ _ _ _ _ _ A1 (agree_trans _ _ _ _ _ _ _ A2 A3)) as A. pose proof A as [Hp3 _ HK3 HR3].
  assert (Hlk : length (ins i key (an_keys nd)) = S n) by (by apply length_ins).
  assert (Hlr : length (ins i r (an_rids nd)) = S n) by (rewrite length_ins; lia).
  destruct (nrep_resize _ _ nd b b3 (ins i key (an_keys nd)) (ins i r (an_rids nd)) Hr A) as (b4 & E4 & Hr4).
  - intros j k Hj. pose proof (lookup_lt_Some _ _ _ Hj). rewrite lookup_ins in Hj by done. repeat destruct (decide _); simplify_eq.
    + rewrite HK3 by (unfold slot; lia). by apply (nr_keys _ _ Hr).
    + by rewrite (ag_key _ _ _ _ A3) by (unfold slot; lia || done).
    + rewrite (ag_key _ _ _ _ A3), (ag_key _ _ _ _ A2), (proj1 (S1 (Z.of_nat j) ltac:(unfold slot; lia) ltac:(lia))) by (unfold slot; lia || done).
      replace (Z.of_nat j - 1) with (Z.of_nat (j - 1)) by lia. by apply (nr_keys _ _ Hr).
  - intros j k Hj. pose proof (lookup_lt_Some _ _ _ Hj). rewrite lookup_ins in Hj by lia. repeat destruct (decide _); simplify_eq.
    + rewrite HR3 by (unfold slot; lia). by apply (nr_rids _ _ Hr).
    + rewrite R3. by apply Log.dec_enc_Rid.
    + rewrite (ag_rid _ _ _ _ A3), (ag_rid _ _ _ _ A2), (proj2 (S1 (Z.of_nat j) ltac:(unfold slot; lia) ltac:(lia))) by (unfold slot; lia || done).
      replace (Z.of_nat j - 1) with (Z.of_nat (j - 1)) by lia. by apply (nr_rids _ _ Hr).
  - unfold zlen. lia.
  - rewrite Hl. lia.
  - exists b4. split; [|done]. unfold insert_pair. rewrite (bind_ok _ _ _ _ _ (nrep_size nd b Hr)).
    rewrite assert_ok by (apply Z.leb_le; unfold zlen; lia).
    unfold zlen. fold n. replace (Z.to_nat (Z.of_nat n - Z.of_nat i)) with (n - i)%nat by lia.
    rewrite (bind_ok _ _ _ _ _ E1), (bind_ok _ _ _ _ _ E2), (bind_ok _ _ _ _ _ E3), (bind_ok _ _ _ _ _ (agree_size _ _ nd b b3 Hr A)).
    rewrite <- E4. unfold zlen. rewrite Hlk. do 2 f_equal. lia.
Qed.

Lemma erase_pair_ok nd b i :
  nrep nd b -> an_leaf nd = true -> (i < length (an_keys nd))%nat ->
  exists b', erase_pair h (Z.of_nat i) b = (Ok tt, b') /\
    nrep (set_pairs (del i (an_keys nd)) (del i (an_rids nd)) nd) b'.
Proof.
  intros Hr Hl Hi. pose proof (nr_len _ _ Hr) as Hlen. rewrite Hl in Hlen. pose proof (nrep_keys_cap nd b Hr) as Hcap.
  set (n := length (an_keys nd)) in *. pose proof (nr_page _ _ Hr) as Hp. unfold zlen in Hcap. fold n in Hcap.
  destruct (shift_up (n - 1 - i) (Z.of_nat i) b Hp) as (b1 & E1 & A & S1); [lia|lia|].
  replace (Z.of_nat i + Z.of_nat (n - 1 - i)) with (Z.of_nat n - 1) in * by lia.
  assert (Hlk : length (del i (an_keys nd)) = (n - 1)%nat) by (by apply length_del).
  assert (Hlr : length (del i (an_rids nd)) = (n - 1)%nat) by (rewrite length_del; lia).
  destruct (nrep_resize _ _ nd b b1 (del i (an_keys nd)) (del i (an_rids nd)) Hr A) as (b2 & E2 & Hr2).
  - intros j k Hj. pose proof (lookup_lt_Some _ _ _ Hj). rewrite lookup_del in Hj by lia. destruct (decide _).
    + rewrite (ag_key _ _ _ _ A) by (unfold slot; lia). by apply (nr_keys _ _ Hr).
    + rewrite (proj1 (S1 (Z.of_nat j) ltac:(lia))). replace (Z.of_nat j + 1) with (Z.of_nat (S j)) by lia. by apply (nr_keys _ _ Hr).
  - intros j k Hj. pose proof (lookup_lt_Some _ _ _ Hj). rewrite lookup_del in Hj by lia. destruct (decide _).
    + rewrite (ag_rid _ _ _ _ A) by (unfold slot; lia). by apply (nr_rids _ _ Hr).
    + rewrite (proj2 (S1 (Z.of_nat j) ltac:(lia))). replace (Z.of_nat j + 1) with (Z.of_nat (S j)) by lia. by apply (nr_rids _ _ Hr).
  - unfold zlen. lia.
  - rewrite Hl. lia.
  - exists b2. split; [|done]. unfold erase_pair. rewrite (bind_ok _ _ _ _ _ (nrep_size nd b Hr)).
    rewrite assert_ok by (apply Z.ltb_lt; unfold zlen; lia). rewrite (bind_ok _ _ _ _ _ (nrep_is_leaf nd b Hr)), assert_ok by done.
    unfold zlen. fold n. replace (Z.to_nat (Z.of_nat n - 1 - Z.of_nat i)) with (n - 1 - i)%nat by lia.
    rewrite (bind_ok _ _ _ _ _ E1), (bind_ok _ _ _ _ _ (agree_size _ _ nd b b1 Hr A)).
    rewrite <- E2. unfold zlen. rewrite Hlk. do 2 f_equal. lia.
Qed.

(** ** Search *)

Lemma bsearch_ok (test : Z -> Prog (list Z) bool) (T : Z -> bool) b fuel l r :
  l <= r -> r - l <= Z.of_nat fuel -> (forall i, l <= i < r -> test i b = (Ok (T i), b)) ->
  (forall i j, l <= i <= j -> j < r -> T j = true -> T i = true) ->
  exists m, bsearch test fuel l r b = (Ok m, b) /\ l <= m <= r /\
    (forall i, l <= i < m -> T i = true) /\ (forall i, m <= i < r -> T i = false).
Proof.
  revert l r. induction fuel as [|fuel IH]; intros l r Hlr Hf Ht Hm.
  { exists r. assert (l = r) by lia. subst l. cbn [bsearch]. rewrite (proj2 (Z.ltb_ge _ _)) by lia. split_and!; try done; lia. }
  cbn [bsearch]. destruct (Z.ltb_spec l r) as [Hlt|Hge]; cbn [negb].
  2:{ exists r. split_and!; try done; lia. }
  rewrite Z.shiftr_div_pow2 by lia. change (2 ^ 1) with 2. set (mid := (l + r) / 2).
  assert (Hmid : l <= mid < r) by (unfold mid; split; [apply Z.div_le_lower_bound|apply Z.div_lt_upper_bound]; lia).
  rewrite (bind_ok _ _ _ _ _ (Ht mid Hmid)). destruct (T mid) eqn:ET.
  - destruct (IH (mid + 1) r) as (m & E & Hb & H1 & H2); [lia|lia|intros; apply Ht; lia|intros i j ??; apply Hm; lia|].
    exists m. split; [done|]. split; [lia|]. split; [|done]. intros i Hi. destruct (Z.le_gt_cases i mid); [|apply H1; lia].
    by apply (Hm i mid); [lia|lia|].
  - destruct (IH l mid) as (m & E & Hb & H1 & H2); [lia|lia|intros; apply Ht; lia|intros i j ??; apply Hm; lia|].
    exists m. split; [done|]. split; [lia|]. split; [done|]. intros i Hi. destruct (Z.lt_ge_cases i mid); [apply H2; lia|].
    destruct (T i) eqn:E2; [|done]. by rewrite (Hm mid i) in ET by (done || lia).
Qed.

(** *** Keys in order *)

(** the columns the comparison needs *)
Record cols : Prop := {
  co_cols : Forall2 IxKey.col_ok (col_types_ h) (col_lens_ h);
  co_num : col_num_ h = zlen (col_types_ h);
  co_some : 0 < col_num_ h;
}.
Context (Hc : cols).

Definition kv (k : list Z) : list Z := IxKey.key_vals (col_types_ h) (col_lens_ h) 0 k.
Definition key_good (k : list Z) : Prop := zlen k = col_tot_len_ h /\ IxKey.key_ok (col_types_ h) (col_lens_ h) k.
Definition klt (a b : list Z) : Prop := IxKey.lex (kv a) (kv b) = Lt.

(** strictly increasing keys, all of them well formed *)
Record sorted (ks : list (list Z)) : Prop := {
  so_good : Forall key_good ks;
  so_lt : forall i j a b, (i < j)%nat -> ks !! i = Some a -> ks !! j = Some b -> klt a b;
}.

(** comparison on the first [pre] columns; all of them for [pre = 0] *)
Definition pfx (pre : Z) : nat := Z.to_nat (if pre =? 0 then zlen (col_types_ h) else pre).
Definition klex (pre : Z) (a b : list Z) : comparison := IxKey.lex (take (pfx pre) (kv a)) (take (pfx pre) (kv b)).

Lemma length_kv k : length (kv k) = length (col_types_ h).
Proof. apply IxKey.length_key_vals. apply (Forall2_length _ _ _ (co_cols Hc)). Qed.

Lemma klex_0 a b : klex 0 a b = IxKey.lex (kv a) (kv b).
Proof. unfold klex, pfx. simpl. rewrite !firstn_all2; [done|..]; rewrite length_kv; unfold zlen; lia. Qed.

Lemma compare_ok a b pre (pg : list Z) :
  key_good a -> key_good b -> 0 <= pre <= zlen (col_types_ h) ->
  compare h a b (prefix h pre) pg = (Ok (IxKey.sign (klex pre a b)), pg).
Proof.
  intros [_ Ha] [_ Hb] Hp. unfold compare, pure_call, prefix. pose proof (co_num Hc) as Hn. pose proof (co_some Hc).
  rewrite IxKey.ix_compare_spec; [|apply Hc|done|done|destruct (pre =? 0); lia]. cbn [fst]. unfold klex, pfx.
  destruct (Z.eqb_spec pre 0) as [->|]; rewrite (proj2 (Z.ltb_lt _ _)) by lia; by rewrite ?Hn.
Qed.

Lemma compare_all a b (pg : list Z) :
  key_good a -> key_good b -> compare h a b 0 pg = (Ok (IxKey.sign (IxKey.lex (kv a) (kv b))), pg).
Proof.
  intros [_ Ha] [_ Hb]. unfold compare, pure_call. pose proof (zlen_nonneg (col_types_ h)).
  rewrite IxKey.ix_compare_spec; [|apply Hc|done|done|lia]. cbn [fst]. do 2 f_equal. simpl.
  rewrite !firstn_all2; [done|..]; rewrite length_kv; unfold zlen; lia.
Qed.

(** the shape of the two searches; [below] says that a key lies before the bound *)
Definition gsearch (below : Z -> bool) (target : list Z) (pre : Z) : Prog (list Z) Z :=
  let* n := get_size in
  if n =? 0 then ret 0
  else
    let* r := bsearch (fun mid => let* k := get_key h mid in let* c := compare h k target (prefix h pre) in ret (below c))
                (Z.to_nat n) 0 (n - 1) in
    let* k := get_key h r in
    let* c := compare h k target (prefix h pre) in
    if below c then get_size else ret r.

Lemma gsearch_ok (below : Z -> bool) nd b target pre :
  nrep nd b -> sorted (an_keys nd) -> key_good target -> 0 <= pre <= zlen (col_types_ h) ->
  (forall k k', klt k k' -> below (IxKey.sign (klex pre k' target)) = true -> below (IxKey.sign (klex pre k target)) = true) ->
  exists m, gsearch below target pre b = (Ok (Z.of_nat m), b) /\ (m <= length (an_keys nd))%nat /\
    (forall i k, (i < m)%nat -> an_keys nd !! i = Some k -> below (IxKey.sign (klex pre k target)) = true) /\
    (forall i k, (m <= i)%nat -> an_keys nd !! i = Some k -> below (IxKey.sign (klex pre k target)) = false).
Proof.
  intros Hr [Hgood Hlt] Ht Hpre Hmono. set (n := length (an_keys nd)). unfold gsearch.
  rewrite (bind_ok _ _ _ _ _ (nrep_size nd b Hr)). unfold zlen. fold n.
  destruct (Z.eqb_spec (Z.of_nat n) 0) as [E0|E0].
  { exists 0%nat. split; [done|]. split; [lia|]. split; intros i k ? Hi; [lia|]. apply lookup_lt_Some in Hi. fold n in Hi. lia. }
  pose (T := fun i : Z => match an_keys nd !! Z.to_nat i with Some k => below (IxKey.sign (klex pre k target)) | None => false end).
  assert (Htest : forall i, 0 <= i < Z.of_nat n -> (let* k := get_key h i in let* c := compare h k target (prefix h pre) in ret (below c)) b = (Ok (T i), b)).
  { intros i Hi. destruct (lookup_lt_is_Some_2 (an_keys nd) (Z.to_nat i) ltac:(lia)) as [k Hk].
    pose proof (nrep_get_key nd b _ k Hr Hk) as Eg. rewrite Z2Nat.id in Eg by lia. rewrite (bind_ok _ _ _ _ _ Eg).
    rewrite (bind_ok _ _ _ _ _ (compare_ok k target pre b (Forall_lookup_1 _ _ _ _ Hgood Hk) Ht Hpre)). unfold T. by rewrite Hk. }
  assert (HT : forall i j, 0 <= i <= j -> j < Z.of_nat n -> T j = true -> T i = true).
  { intros i j Hij Hj. unfold T. destruct (decide (i = j)) as [->|Hne]; [done|].
    destruct (lookup_lt_is_Some_2 (an_keys nd) (Z.to_nat i) ltac:(lia)) as [k Hk].
    destruct (lookup_lt_is_Some_2 (an_keys nd) (Z.to_nat j) ltac:(lia)) as [k' Hk']. rewrite Hk, Hk'.
    apply Hmono. apply (Hlt (Z.to_nat i) (Z.to_nat j)); (done || lia). }
  destruct (bsearch_ok (fun mid => let* k := get_key h mid in let* c := compare h k target (prefix h pre) in ret (below c)) T b (Z.to_nat (Z.of_nat n)) 0 (Z.of_nat n - 1)) as (r & E & Hr' & H1 & H2); [lia|lia|intros; apply Htest; lia|intros i j ??; apply HT; lia|].
  rewrite (bind_ok _ _ _ _ _ E). pose proof (Htest r ltac:(lia)) as Hlast.
  assert (Hfin : (let* k := get_key h r in let* c := compare h k target (prefix h pre) in if below c then get_size else ret r) b =
    (if T r then (Ok (Z.of_nat n), b) else (Ok r, b))).
  { revert Hlast. unfold bind. destruct (get_key h r b) as [[k| |] b1] eqn:Eg; try done. destruct (compare h k target _ b1) as [[c| |] b2]; try done.
    unfold ret. intros [= <- ->]. destruct (below c); [|done]. by rewrite (nrep_size nd b Hr). }
  rewrite Hfin.
  assert (HTk : forall i k, an_keys nd !! i = Some k -> below (IxKey.sign (klex pre k target)) = T (Z.of_nat i)) by (intros i k Hk; unfold T; by rewrite Nat2Z.id, Hk).
  destruct (T r) eqn:ET.
  - exists n. split; [done|]. split; [done|]. split; intros i k ? Hi; pose proof (lookup_lt_Some _ _ _ Hi).
    + rewrite (HTk i k Hi). apply (HT (Z.of_nat i) (Z.of_nat n - 1)); [lia|lia|].
      destruct (decide (r = Z.of_nat n - 1)) as [->|]; [done|]. rewrite H2 in ET by lia. done.
    + lia.
  - exists (Z.to_nat r). split; [by rewrite Z2Nat.id by lia|]. split; [lia|]. split; intros i k ? Hi; pose proof (lookup_lt_Some _ _ _ Hi); rewrite (HTk i k Hi).
    + apply H1. lia.
    + destruct (T (Z.of_nat i)) eqn:Ei; [|done]. rewrite (HT r (Z.of_nat i)) in ET by (done || lia). done.
Qed.

Lemma lower_bound_gsearch target pre b : lower_bound h target pre b = gsearch (fun c => c <? 0) target pre b.
Proof.
  unfold lower_bound, gsearch, bind. destruct (get_size b) as [[n| |] b1]; try done. destruct (n =? 0); [done|].
  destruct (bsearch _ _ _ _ b1) as [[r| |] b2]; try done. destruct (get_key h r b2) as [[k| |] b3]; try done.
  destruct (compare h k target (prefix h pre) b3) as [[c| |] b4]; try done. rewrite Z.ltb_antisym. by destruct (0 <=? c).
Qed.

Lemma upper_bound_gsearch target pre b : upper_bound h target pre b = gsearch (fun c => c <=? 0) target pre b.
Proof.
  unfold upper_bound, gsearch, bind. destruct (get_size b) as [[n| |] b1]; try done. destruct (n =? 0); [done|].
  destruct (bsearch _ _ _ _ b1) as [[r| |] b2]; try done. destruct (get_key h r b2) as [[k| |] b3]; try done.
  destruct (compare h k target (prefix h pre) b3) as [[c| |] b4]; try done. rewrite Z.leb_antisym. by destruct (0 <? c).
Qed.

Lemma klex_mono pre k k' t :
  klt k k' -> (klex pre k' t = Lt -> klex pre k t = Lt) /\ (klex pre k' t <> Gt -> klex pre k t <> Gt).
Proof.
  intros Hk. assert (Hle : klex pre k k' <> Gt) by (apply IxKey.lex_take; unfold klt in Hk; by rewrite Hk).
  assert (Hlen : forall x, length (take (pfx pre) (kv x)) = min (pfx pre) (length (col_types_ h))) by (intros; by rewrite length_take, length_kv).
  unfold klex in *. split; [apply IxKey.lex_le_lt_trans; by rewrite ?Hlen|].
  intros Ht. destruct (IxKey.lex (take (pfx pre) (kv k)) (take (pfx pre) (kv k'))) eqn:E; [| |done].
  - rewrite (IxKey.lex_eq _ _ ltac:(by rewrite !Hlen) E). done.
  - rewrite (IxKey.lex_lt_trans _ _ _ ltac:(by rewrite !Hlen) ltac:(by rewrite !Hlen) E Ht). done.
Qed.

(** [lower_bound]: the first key that is not less than the target *)
Lemma lower_bound_ok nd b target pre :
  nrep nd b -> sorted (an_keys nd) -> key_good target -> 0 <= pre <= zlen (col_types_ h) ->
  exists m, lower_bound h target pre b = (Ok (Z.of_nat m), b) /\ (m <= length (an_keys nd))%nat /\
    (forall i k, (i < m)%nat -> an_keys nd !! i = Some k -> klex pre k target = Lt) /\
    (forall i k, (m <= i)%nat -> an_keys nd !! i = Some k -> klex pre k target <> Lt).
Proof.
  intros Hr Hs Ht Hp. destruct (gsearch_ok (fun c => c <? 0) nd b target pre Hr Hs Ht Hp) as (m & E & Hm & H1 & H2).
  { intros k k' Hk. destruct (klex_mono pre k k' target Hk) as [Hlt _]. destruct (klex pre k' target) eqn:E'; simpl; try done. by rewrite Hlt. }
  exists m. rewrite lower_bound_gsearch. split; [done|]. split; [done|]. split; intros i k Hi Hk; [specialize (H1 i k Hi Hk)|specialize (H2 i k Hi Hk)];
    by destruct (klex pre k target).
Qed.

(** [upper_bound]: the first key that is greater than the target *)
Lemma upper_bound_ok nd b target pre :
  nrep nd b -> sorted (an_keys nd) -> key_good target -> 0 <= pre <= zlen (col_types_ h) ->
  exists m, upper_bound h target pre b = (Ok (Z.of_nat m), b) /\ (m <= length (an_keys nd))%nat /\
    (forall i k, (i < m)%nat -> an_keys nd !! i = Some k -> klex pre k target <> Gt) /\
    (forall i k, (m <= i)%nat -> an_keys nd !! i = Some k -> klex pre k target = Gt).
Proof.
  intros Hr Hs Ht Hp. destruct (gsearch_ok (fun c => c <=? 0) nd b target pre Hr Hs Ht Hp) as (m & E & Hm & H1 & H2).
  { intros k k' Hk. destruct (klex_mono pre k k' target Hk) as [_ Hle]. destruct (klex pre k' target), (klex pre k target); simpl; try done;
      (by destruct Hle). }
  exists m. rewrite upper_bound_gsearch. split; [done|]. split; [done|]. split; intros i k Hi Hk; [specialize (H1 i k Hi Hk)|specialize (H2 i k Hi Hk)];
    by destruct (klex pre k target).
Qed.

(** *** Insertion and removal by key *)

(** the keys that [lower_bound] separates *)
Definition splits (m : nat) (ks : list (list Z)) (key : list Z) : Prop :=
  (forall i k, (i < m)%nat -> ks !! i = Some k -> klt k key) /\
  (forall i k, (m <= i)%nat -> ks !! i = Some k -> IxKey.lex (kv k) (kv key) <> Lt).

Lemma lower_bound_splits nd b key :
  nrep nd b -> sorted (an_keys nd) -> key_good key ->
  exists m, lower_bound h key 0 b = (Ok (Z.of_nat m), b) /\ (m <= length (an_keys nd))%nat /\ splits m (an_keys nd) key.
Proof.
  intros Hr Hs Hk. pose proof (zlen_nonneg (col_types_ h)).
  destruct (lower_bound_ok nd b key 0 Hr Hs Hk ltac:(lia)) as (m & E & Hm & H1 & H2).
  exists m. split; [done|]. split; [done|]. split; intros i k Hi Hl.
  - unfold klt. rewrite <- klex_0. by eapply H1.
  - rewrite <- klex_0. by eapply H2.
Qed.

Lemma sorted_ins ks m key :
  sorted ks -> key_good key -> (m <= length ks)%nat ->
  (forall i k, (i < m)%nat -> ks !! i = Some k -> klt k key) ->
  (forall i k, (m <= i)%nat -> ks !! i = Some k -> klt key k) -> sorted (ins m key ks).
Proof.
  intros [Hg' Hl] Hk Hm H1 H2. split.
  - unfold ins. apply Forall_app. split; [by apply Forall_take|]. constructor; [done|by apply Forall_drop].
  - intros i j a b Hij. rewrite !lookup_ins by done. repeat destruct (decide _); intros Ha Hb; simplify_eq; try lia.
    + by eapply (Hl i j).
    + by eapply H1.
    + eapply (Hl i (j - 1)%nat); (done || lia).
    + eapply (H2 (j - 1)%nat); (done || lia).
    + eapply (Hl (i - 1)%nat (j - 1)%nat); (done || lia).
Qed.

Lemma sorted_del ks m : sorted ks -> (m < length ks)%nat -> sorted (del m ks).
Proof.
  intros [Hg' Hl] Hm. split.
  - unfold del. apply Forall_app. split; [by apply Forall_take|by apply Forall_drop].
  - intros i j a b Hij. rewrite !lookup_del by done. repeat destruct (decide _); intros Ha Hb; simplify_eq; try lia.
    + by eapply (Hl i j).
    + eapply (Hl i (S j)); (done || lia).
    + eapply (Hl (S i) (S j)); (done || lia).
Qed.

(** a key of the node with the column values of [key], at position [m] *)
Definition holds_at (m : nat) (ks : list (list Z)) (key : list Z) : Prop := exists k, ks !! m = Some k /\ kv k = kv key.
Definition holds (ks : list (list Z)) (key : list Z) : Prop := exists m, holds_at m ks key.

Lemma lex_kv_eq a b : IxKey.lex (kv a) (kv b) = Eq <-> kv a = kv b.
Proof.
  split; [|intros ->; apply IxKey.lex_refl]. apply IxKey.lex_eq. by rewrite !length_kv.
Qed.

(** the position of an equal key is the one [lower_bound] returns *)
Lemma splits_holds ks m key i : sorted ks -> splits m ks key -> holds_at i ks key -> i = m.
Proof.
  intros Hs [H1 H2] (k & Hk & Heq). apply lex_kv_eq in Heq. destruct (decide (i < m)%nat) as [Hlt|Hge].
  { specialize (H1 i k Hlt Hk). unfold klt in H1. congruence. }
  destruct (decide (i = m)) as [|Hne]; [done|].
  destruct (lookup_lt_is_Some_2 ks m) as [km Hkm]; [apply lookup_lt_Some in Hk; lia|].
  pose proof (so_lt _ Hs m i km k ltac:(lia) Hkm Hk) as Hlt. unfold klt in Hlt.
  destruct (H2 m km ltac:(lia) Hkm). eapply IxKey.lex_lt_trans; [..|exact Hlt|by rewrite Heq]; by rewrite !length_kv.
Qed.

Lemma get_key_at nd b m k : nrep nd b -> an_keys nd !! m = Some k -> (Z.of_nat m =? zlen (an_keys nd)) = false /\ get_key h (Z.of_nat m) b = (Ok k, b).
Proof.
  intros Hr Hk. split; [|by eapply nrep_get_key]. apply Z.eqb_neq. apply lookup_lt_Some in Hk. unfold zlen. lia.
Qed.

Lemma insert_ok nd b key r :
  nrep nd b -> an_leaf nd = true -> sorted (an_keys nd) -> zlen (an_keys nd) <= btree_order_ h -> key_good key -> Log.rid_ok r ->
  ~ holds (an_keys nd) key ->
  exists m b', insert h key r b = (Ok (Z.of_nat m, zlen (an_keys nd) + 1), b') /\ (m <= length (an_keys nd))%nat /\ splits m (an_keys nd) key /\
    nrep (set_pairs (ins m key (an_keys nd)) (ins m r (an_rids nd)) nd) b' /\ sorted (ins m key (an_keys nd)).
Proof.
  intros Hr Hl Hs Hn Hk Hrid Hfresh. destruct (lower_bound_splits nd b key Hr Hs Hk) as (m & E & Hm & Hsp).
  destruct (insert_pair_ok nd b m key r Hr Hl Hm Hn (proj1 Hk) Hrid) as (b' & E' & Hr'). exists m, b'. split; [|split_and!]; try done.
  - unfold insert. rewrite (bind_ok _ _ _ _ _ (nrep_is_leaf nd b Hr)), assert_ok by done.
    rewrite (bind_ok _ _ _ _ _ E), (bind_ok _ _ _ _ _ (nrep_size nd b Hr)).
    assert (Hfr : (if Z.of_nat m =? zlen (an_keys nd) then ret true
      else let* k := get_key h (Z.of_nat m) in let* c := compare h k key 0 in ret (0 <? c)) b = (Ok true, b)).
    { destruct (an_keys nd !! m) as [k|] eqn:Ek.
      - destruct (get_key_at nd b m k Hr Ek) as [-> Eg]. rewrite (bind_ok _ _ _ _ _ Eg).
        rewrite (bind_ok _ _ _ _ _ (compare_all k key b (Forall_lookup_1 _ _ _ _ (so_good _ Hs) Ek) Hk)).
        pose proof (proj2 Hsp m k ltac:(lia) Ek). destruct (IxKey.lex (kv k) (kv key)) eqn:El; try done.
        destruct Hfresh. exists m, k. split; [done|]. by apply lex_kv_eq.
      - apply lookup_ge_None in Ek. unfold zlen. by rewrite (proj2 (Z.eqb_eq _ _)) by lia. }
    rewrite (bind_ok _ _ _ _ _ Hfr), (bind_ok _ _ _ _ _ E'), (bind_ok _ _ _ _ _ (nrep_size _ b' Hr')). simpl an_keys.
    unfold ret, zlen. rewrite length_ins by done. do 3 f_equal. lia.
  - destruct Hsp as [H1 H2]. apply sorted_ins; try done. intros i k Hi Hki. specialize (H2 i k Hi Hki). unfold klt.
    rewrite IxKey.lex_antisym. destruct (IxKey.lex (kv k) (kv key)) eqn:El; try done. destruct Hfresh. exists i, k.
    split; [done|]. by apply lex_kv_eq.
Qed.

Lemma insert_dup nd b key r :
  nrep nd b -> an_leaf nd = true -> sorted (an_keys nd) -> key_good key -> holds (an_keys nd) key ->
  insert h key r b = (Throw IndexEntryNotUniqueError, b).
Proof.
  intros Hr Hl Hs Hk [i Hi]. destruct (lower_bound_splits nd b key Hr Hs Hk) as (m & E & Hm & Hsp).
  pose proof (splits_holds _ _ _ _ Hs Hsp Hi) as ->. destruct Hi as (k & Hkm & Heq).
  unfold insert. rewrite (bind_ok _ _ _ _ _ (nrep_is_leaf nd b Hr)), assert_ok by done.
  rewrite (bind_ok _ _ _ _ _ E), (bind_ok _ _ _ _ _ (nrep_size nd b Hr)).
  destruct (get_key_at nd b m k Hr Hkm) as [-> Eg].
  erewrite bind_ok; [|rewrite (bind_ok _ _ _ _ _ Eg), (bind_ok _ _ _ _ _ (compare_all k key b (Forall_lookup_1 _ _ _ _ (so_good _ Hs) Hkm) Hk));
    rewrite (proj2 (lex_kv_eq _ _) Heq); reflexivity].
  apply bind_throw. simpl. rewrite assert_ok; [done|]. apply Z.ltb_lt. apply lookup_lt_Some in Hkm. unfold zlen. lia.
Qed.

(** the condition of the loop of [remove] at position [j] *)
Lemma equal_at nd b key j :
  nrep nd b -> Forall key_good (an_keys nd) -> key_good key ->
  (if Z.of_nat j <? zlen (an_keys nd) then let* k := get_key h (Z.of_nat j) in let* c := compare h k key 0 in ret (c =? 0) else ret false) b =
  (Ok (match an_keys nd !! j with Some k => bool_decide (kv k = kv key) | None => false end), b).
Proof.
  intros Hr Hg' Hk. destruct (an_keys nd !! j) as [k|] eqn:Ek.
  - rewrite (proj2 (Z.ltb_lt _ _)) by (apply lookup_lt_Some in Ek; unfold zlen; lia).
    rewrite (bind_ok _ _ _ _ _ (nrep_get_key nd b j k Hr Ek)).
    rewrite (bind_ok _ _ _ _ _ (compare_all k key b (Forall_lookup_1 _ _ _ _ Hg' Ek) Hk)). unfold ret. do 2 f_equal.
    pose proof (lex_kv_eq k key) as Hiff. destruct (IxKey.lex (kv k) (kv key)); simpl; symmetry;
      [apply bool_decide_true; tauto|apply bool_decide_false..]; intros He; by apply Hiff in He.
  - apply lookup_ge_None in Ek. by rewrite (proj2 (Z.ltb_ge _ _)) by (unfold zlen; lia).
Qed.

(** one turn of the loop of [remove] *)
Lemma remove_from_step nd b key j fuel :
  nrep nd b -> Forall key_good (an_keys nd) -> key_good key ->
  remove_from h key (Z.of_nat j) fuel b =
  (if match an_keys nd !! j with Some k => bool_decide (kv k = kv key) | None => false end then
     match fuel with O => fail OutOfFuel | S fuel => erase_pair h (Z.of_nat j);; remove_from h key (Z.of_nat j + 1) fuel end
   else ret tt) b.
Proof.
  intros Hr Hg' Hk. destruct fuel; cbn [remove_from];
    by rewrite (bind_ok _ _ _ _ _ (nrep_size nd b Hr)), (bind_ok _ _ _ _ _ (equal_at nd b key j Hr Hg' Hk)).
Qed.

(** [remove] takes out the pair with the key, if the node has one *)
Lemma remove_ok nd b key :
  nrep nd b -> an_leaf nd = true -> sorted (an_keys nd) -> key_good key ->
  exists b' nd', remove h key b = (Ok (zlen (an_keys nd')), b') /\ nrep nd' b' /\ sorted (an_keys nd') /\
    ((exists m, holds_at m (an_keys nd) key /\ nd' = set_pairs (del m (an_keys nd)) (del m (an_rids nd)) nd) \/
     (~ holds (an_keys nd) key /\ nd' = nd)).
Proof.
  intros Hr Hl Hs Hk. destruct (lower_bound_splits nd b key Hr Hs Hk) as (m & E & Hm & Hsp). pose proof (so_good _ Hs) as Hgood.
  assert (Hpre : forall b' nd', nrep nd' b' -> remove_from h key (Z.of_nat m) (Z.to_nat (zlen (an_keys nd))) b = (Ok tt, b') ->
    remove h key b = (Ok (zlen (an_keys nd')), b')).
  { intros b' nd' Hr' Ef. unfold remove. rewrite (bind_ok _ _ _ _ _ (nrep_is_leaf nd b Hr)), assert_ok by done.
    rewrite (bind_ok _ _ _ _ _ E), (bind_ok _ _ _ _ _ (nrep_size nd b Hr)), (bind_ok _ _ _ _ _ Ef). by apply nrep_size. }
  destruct (decide (match an_keys nd !! m with Some k => bool_decide (kv k = kv key) | None => false end = true)) as [Ht|Hf].
  - destruct (an_keys nd !! m) as [k|] eqn:Ek; [|done]. apply bool_decide_eq_true in Ht. pose proof (lookup_lt_Some _ _ _ Ek) as Hlt.
    destruct (erase_pair_ok nd b m Hr Hl Hlt) as (b' & E' & Hr').
    exists b', (set_pairs (del m (an_keys nd)) (del m (an_rids nd)) nd). split.
    + apply Hpre; [done|]. rewrite (remove_from_step nd), Ek, bool_decide_true by done.
      destruct (Z.to_nat (zlen (an_keys nd))) eqn:En; [unfold zlen in En; lia|]. rewrite (bind_ok _ _ _ _ _ E').
      pose proof (sorted_del _ m Hs Hlt) as Hs'.
      replace (Z.of_nat m + 1) with (Z.of_nat (S m)) by lia. rewrite (remove_from_step _ b' key (S m) _ Hr') by (done || apply Hs').
      cbn [set_pairs an_keys]. rewrite lookup_del by done. rewrite decide_False by lia.
      destruct (an_keys nd !! S (S m)) as [k'|] eqn:Ek'; [|done]. rewrite bool_decide_false; [done|]. intros Heq.
      pose proof (splits_holds _ m key (S (S m)) Hs Hsp ltac:(by exists k')). lia.
    + split; [done|]. split; [by apply sorted_del|]. left. exists m. split; [by exists k|done].
  - exists b, nd. split; [|split; [done|]; split; [done|]; right].
    + apply Hpre; [done|]. rewrite (remove_from_step nd) by done. by destruct (match an_keys nd !! m with Some _ => _ | None => _ end).
    + split; [|done]. intros [i Hi]. pose proof (splits_holds _ m key i Hs Hsp Hi) as ->. destruct Hi as (k & Ek & Heq).
      rewrite Ek, bool_decide_true in Hf by done. done.
Qed.
End node.
End IxN.
