(* ===== verification/IxTreeProofs.v ===== *)
(** The B+ tree as a sorted map: what a well-formed tree is, and that searching,
    inserting into a leaf with room, and deleting without underflow do what they
    should to the entries of the tree.

    A tree of a given height is a family of abstract nodes indexed by page
    number; [sub] says that the pages below a node are in order and within the
    bounds their ancestors set, [entries] lists the pairs of the leaves from left
    to right. *)

From S2P Require Import Prelude Bytes Errors Disk BufferPool PageStore Defs LogRecord.
From S2P Require Import RmFile RmProofs IxDefs IxNode IxNodeProofs IxTree.
Import IxN.

Module IxT.

Section tree.
Context (h : IxFileHdr) (Hg : geo h) (Hc : cols h).

(** ** Bounds *)

(** the key is not below [lo] and is below [hi] *)
Definition inb (lo hi : option (list Z)) (k : list Z) : Prop :=
  (forall l, lo = Some l -> IxKey.lex (kv h l) (kv h k) <> Gt) /\
  (forall u, hi = Some u -> IxKey.lex (kv h k) (kv h u) = Lt).

(** the bounds of the [i]-th child of a node *)
Definition lo_of (lo : option (list Z)) (ks : list (list Z)) (i : nat) : option (list Z) :=
  match i with O => lo | S i => ks !! i end.
Definition hi_of (hi : option (list Z)) (ks : list (list Z)) (i : nat) : option (list Z) :=
  match ks !! i with Some k => Some k | None => hi end.

(** ** Trees *)

Fixpoint sub (ps : gmap Z anode) (n : nat) (pn : Z) (lo hi : option (list Z)) : Prop :=
  exists nd, ps !! pn = Some nd /\ sorted h (an_keys nd) /\ (forall k, k ∈ an_keys nd -> inb lo hi k) /\
    match n with
    | O => an_leaf nd = true /\ length (an_rids nd) = length (an_keys nd)
    | S n => an_leaf nd = false /\ length (an_rids nd) = S (length (an_keys nd)) /\
        forall i r, an_rids nd !! i = Some r ->
          sub ps n (rid_page_no r) (lo_of lo (an_keys nd) i) (hi_of hi (an_keys nd) i)
    end.

Fixpoint entries (ps : gmap Z anode) (n : nat) (pn : Z) : list (list Z * Rid) :=
  match ps !! pn with
  | None => []
  | Some nd =>
      match n with
      | O => zip (an_keys nd) (an_rids nd)
      | S n => concat ((fun r => entries ps n (rid_page_no r)) <$> an_rids nd)
      end
  end.

(** the leaf the search for a key ends in *)
Fixpoint route (ps : gmap Z anode) (n : nat) (pn : Z) (key : list Z) (leaf : Z) : Prop :=
  match n with
  | O => leaf = pn
  | S n => exists nd m r, ps !! pn = Some nd /\ an_rids nd !! m = Some r /\
      (forall i k, (i < m)%nat -> an_keys nd !! i = Some k -> IxKey.lex (kv h k) (kv h key) <> Gt) /\
      (forall i k, (m <= i)%nat -> an_keys nd !! i = Some k -> IxKey.lex (kv h k) (kv h key) = Gt) /\
      route ps n (rid_page_no r) key leaf
  end.

Lemma kv_len a b : length (kv h a) = length (kv h b).
Proof. by rewrite !length_kv. Qed.

Lemma lex_gt a b : IxKey.lex (kv h a) (kv h b) = Gt <-> IxKey.lex (kv h b) (kv h a) = Lt.
Proof. rewrite (IxKey.lex_antisym (kv h b)). by destruct (IxKey.lex (kv h b) (kv h a)). Qed.

(** the bounds of the child a search descends into contain the key *)
Lemma inb_child lo hi ks m key :
  inb lo hi key -> (m <= length ks)%nat ->
  (forall i k, (i < m)%nat -> ks !! i = Some k -> IxKey.lex (kv h k) (kv h key) <> Gt) ->
  (forall i k, (m <= i)%nat -> ks !! i = Some k -> IxKey.lex (kv h k) (kv h key) = Gt) ->
  inb (lo_of lo ks m) (hi_of hi ks m) key.
Proof.
  intros [Hlo Hhi] Hm H1 H2. split.
  - intros l. destruct m as [|m]; simpl; [apply Hlo|]. intros Hl. apply (H1 m); [lia|done].
  - intros u. unfold hi_of. destruct (ks !! m) as [k|] eqn:Ek; [|apply Hhi]. intros [= <-]. apply lex_gt. by apply (H2 m).
Qed.

Lemma sub_entries ps n pn lo hi k r :
  sub ps n pn lo hi -> (k, r) ∈ entries ps n pn -> key_good h k /\ inb lo hi k.
Proof.
  revert pn lo hi. induction n as [|n IH]; intros pn lo hi (nd & Hnd & Hs & Hin & Hk) He; cbn [entries] in He; rewrite Hnd in He.
  - apply elem_of_zip_l in He. split; [|by apply Hin]. by eapply Forall_forall; [apply Hs|].
  - apply list_elem_of_In, in_concat in He as (l & Hl & He). apply list_elem_of_In in Hl, He.
    apply list_elem_of_fmap in Hl as (r' & -> & Hr'). apply list_elem_of_lookup in Hr' as [i Hi].
    destruct Hk as (_ & Hlen & Hk). destruct (IH _ _ _ (Hk i r' Hi) He) as [Hgood [Hlo Hhi]]. split; [done|].
    pose proof (lookup_lt_Some _ _ _ Hi) as Hlt. split.
    + intros l Hl. destruct i as [|i]; [by apply Hlo|]. simpl in Hlo.
      destruct (lookup_lt_is_Some_2 (an_keys nd) i) as [ki Hki]; [lia|]. specialize (Hlo ki Hki).
      destruct (Hin ki) as [Hl' _]; [by eapply list_elem_of_lookup_2|]. specialize (Hl' l Hl).
      destruct (IxKey.lex (kv h l) (kv h ki)) eqn:E; [|by rewrite (IxKey.lex_lt_trans _ _ _ (kv_len _ _) (kv_len _ _) E Hlo)|done].
      by rewrite (IxKey.lex_eq _ _ (kv_len _ _) E).
    + intros u Hu. unfold hi_of in Hhi. destruct (an_keys nd !! i) as [ki|] eqn:Eki; [|by apply Hhi].
      specialize (Hhi ki eq_refl). destruct (Hin ki) as [_ Hu']; [by eapply list_elem_of_lookup_2|].
      eapply IxKey.lex_lt_trans; [apply kv_len|apply kv_len|exact Hhi|]. by rewrite (Hu' u Hu).
Qed.

(** every entry with the values of the key is in the leaf its search ends in *)
Lemma route_entries ps n pn lo hi key leaf k r :
  sub ps n pn lo hi -> route ps n pn key leaf -> (k, r) ∈ entries ps n pn -> kv h k = kv h key ->
  (k, r) ∈ entries ps 0 leaf.
Proof.
  revert pn lo hi. induction n as [|n IH]; intros pn lo hi Hsub Hrt He Hk; [by simpl in Hrt; subst leaf|].
  destruct Hrt as (nd & m & r0 & Hnd & Hm & H1 & H2 & Hrt). destruct Hsub as (nd' & Hnd' & Hs & Hin & Hl & Hlen & Hch). rewrite Hnd in Hnd'. injection Hnd' as <-.
  cbn [entries] in He. rewrite Hnd in He. apply list_elem_of_In, in_concat in He as (l & Hl' & He). apply list_elem_of_In in Hl', He.
  apply list_elem_of_fmap in Hl' as (r' & -> & Hr'). apply list_elem_of_lookup in Hr' as [i Hi].
  destruct (decide (i = m)) as [->|Hne]; [simplify_eq; eapply IH; [by apply (Hch m)|done|done|done]|].
  destruct (sub_entries _ _ _ _ _ _ _ (Hch i r' Hi) He) as [_ [Hlo Hhi]]. exfalso.
  pose proof (lookup_lt_Some _ _ _ Hi). pose proof (lookup_lt_Some _ _ _ Hm).
  destruct (decide (i < m)%nat) as [Hlt|Hge].
  - destruct (lookup_lt_is_Some_2 (an_keys nd) i) as [ki Hki]; [lia|]. apply (H1 i ki Hlt Hki). apply lex_gt.
    rewrite <- Hk. apply Hhi. unfold hi_of. by rewrite Hki.
  - destruct i as [|i]; [lia|]. destruct (lookup_lt_is_Some_2 (an_keys nd) i) as [ki Hki]; [lia|].
    specialize (Hlo ki Hki). apply Hlo. rewrite Hk. by apply (H2 i); [lia|].
Qed.

(** and the entries of that leaf are entries of the tree *)
Lemma route_leaf ps n pn key leaf lo hi :
  sub ps n pn lo hi -> route ps n pn key leaf -> inb lo hi key ->
  exists lo' hi', sub ps 0 leaf lo' hi' /\ inb lo' hi' key /\ (forall e, e ∈ entries ps 0 leaf -> e ∈ entries ps n pn).
Proof.
  revert pn lo hi. induction n as [|n IH]; intros pn lo hi Hsub Hrt Hb; [simpl in Hrt; subst leaf; eauto|].
  destruct Hrt as (nd & m & r0 & Hnd & Hm & H1 & H2 & Hrt). destruct Hsub as (nd' & Hnd' & Hs & Hin & Hl & Hlen & Hch). rewrite Hnd in Hnd'. injection Hnd' as <-.
  pose proof (lookup_lt_Some _ _ _ Hm). destruct (IH _ _ _ (Hch m r0 Hm) Hrt) as (lo' & hi' & Hs' & Hb' & He).
  { apply inb_child; try done. lia. }
  exists lo', hi'. split; [done|]. split; [done|]. intros e Hin'. cbn [entries]. rewrite Hnd. apply list_elem_of_In, in_concat.
  exists (entries ps n (rid_page_no r0)). split; [|by apply list_elem_of_In, He]. apply list_elem_of_In, list_elem_of_fmap.
  exists r0. split; [done|]. by eapply list_elem_of_lookup_2.
Qed.

(** ** Changing one leaf *)

(** the pages of a tree *)
Fixpoint pages_of (ps : gmap Z anode) (n : nat) (pn : Z) : list Z :=
  pn :: match n with
        | O => []
        | S n => match ps !! pn with
                 | Some nd => concat ((fun r => pages_of ps n (rid_page_no r)) <$> an_rids nd)
                 | None => []
                 end
        end.

Lemma route_pages ps n pn key leaf : route ps n pn key leaf -> leaf ∈ pages_of ps n pn.
Proof.
  revert pn. induction n as [|n IH]; intros pn Hr; [simpl in Hr; subst; constructor|].
  destruct Hr as (nd & m & r & Hnd & Hm & _ & _ & Hr). cbn [pages_of]. rewrite Hnd. apply elem_of_cons. right.
  apply list_elem_of_In, in_concat. exists (pages_of ps n (rid_page_no r)). split; [|by apply list_elem_of_In, IH].
  apply list_elem_of_In, list_elem_of_fmap. exists r. split; [done|]. by eapply list_elem_of_lookup_2.
Qed.

(** a page outside the tree does not matter *)
Lemma outside ps x nd' n pn lo hi :
  sub ps n pn lo hi -> x ∉ pages_of ps n pn ->
  sub (<[x := nd']> ps) n pn lo hi /\ entries (<[x := nd']> ps) n pn = entries ps n pn /\
  pages_of (<[x := nd']> ps) n pn = pages_of ps n pn.
Proof.
  revert pn lo hi. induction n as [|n IH]; intros pn lo hi (nd & Hnd & Hs & Hin & Hk) Hx.
  - assert (x <> pn) by (intros ->; apply Hx; constructor). cbn [sub entries pages_of]. rewrite lookup_insert_ne by done.
    split; [by exists nd|done].
  - cbn [pages_of] in Hx. rewrite Hnd in Hx. apply not_elem_of_cons in Hx as [Hne Hx]. destruct Hk as (Hl & Hlen & Hch).
    assert (Hsub : forall i r, an_rids nd !! i = Some r -> x ∉ pages_of ps n (rid_page_no r)).
    { intros i r Hi Hc'. apply Hx, list_elem_of_In, in_concat. exists (pages_of ps n (rid_page_no r)).
      split; [|by apply list_elem_of_In]. apply list_elem_of_In, list_elem_of_fmap. exists r. split; [done|]. by eapply list_elem_of_lookup_2. }
    cbn [sub entries pages_of]. rewrite lookup_insert_ne by done. rewrite Hnd. split.
    + exists nd. split_and!; try done. intros i r Hi. by apply (IH _ _ _ (Hch i r Hi) (Hsub i r Hi)).
    + split; [f_equal|do 2 f_equal]; apply list_fmap_ext; intros i r Hi; by apply (IH _ _ _ (Hch i r Hi) (Hsub i r Hi)).
Qed.

Lemma concat_fmap_split {A B} (f : A -> list B) l i x :
  l !! i = Some x -> concat (f <$> l) = concat (f <$> take i l) ++ f x ++ concat (f <$> drop (S i) l).
Proof. intros Hi. rewrite <- (take_drop_middle l i x Hi) at 1. by rewrite fmap_app, concat_app. Qed.

(** the pages of the other children do not contain those of one child *)
Lemma disjoint_children ps n (rs : list Rid) m i r r' x :
  (forall y, y ∈ concat ((fun r => pages_of ps n (rid_page_no r)) <$> take m rs) ->
     y ∉ pages_of ps n (rid_page_no r) ++ concat ((fun r => pages_of ps n (rid_page_no r)) <$> drop (S m) rs)) ->
  (forall y, y ∈ pages_of ps n (rid_page_no r) -> y ∉ concat ((fun r => pages_of ps n (rid_page_no r)) <$> drop (S m) rs)) ->
  rs !! m = Some r -> rs !! i = Some r' -> i <> m -> x ∈ pages_of ps n (rid_page_no r) -> x ∉ pages_of ps n (rid_page_no r').
Proof.
  intros Hd1 Hd2 Hm Hi Hne Hx Hx'.
  assert (Hin : forall l : list Rid, r' ∈ l -> x ∈ concat ((fun r => pages_of ps n (rid_page_no r)) <$> l)).
  { intros l Hl. apply list_elem_of_In, in_concat. eexists. split; [|by apply list_elem_of_In].
    apply list_elem_of_In, list_elem_of_fmap. by exists r'. }
  destruct (decide (i < m)%nat).
  - apply (Hd1 x); [|rewrite elem_of_app; by left]. apply Hin, list_elem_of_lookup. exists i. by rewrite lookup_take_lt.
  - apply (Hd2 x Hx). apply Hin, list_elem_of_lookup. exists (i - S m)%nat. rewrite lookup_drop.
    by replace (S m + (i - S m))%nat with i by lia.
Qed.

(** so they are unchanged when a page of that child changes *)
Lemma same_children ps n nd m x nd' lo hi :
  (forall i r, an_rids nd !! i = Some r -> sub ps n (rid_page_no r) (lo_of lo (an_keys nd) i) (hi_of hi (an_keys nd) i)) ->
  (forall i r, an_rids nd !! i = Some r -> i <> m -> x ∉ pages_of ps n (rid_page_no r)) ->
  forall (l : list Rid) i0, (forall j r', l !! j = Some r' -> an_rids nd !! (i0 + j)%nat = Some r' /\ (i0 + j)%nat <> m) ->
  ((fun r => entries (<[x := nd']> ps) n (rid_page_no r)) <$> l) = ((fun r => entries ps n (rid_page_no r)) <$> l) /\
  ((fun r => pages_of (<[x := nd']> ps) n (rid_page_no r)) <$> l) = ((fun r => pages_of ps n (rid_page_no r)) <$> l).
Proof.
  intros Hch Hout l i0 Hl0. split; apply list_fmap_ext; intros j r' Hj; destruct (Hl0 j r' Hj) as [Hj' Hjm];
    by apply (outside ps x nd' n _ _ _ (Hch _ r' Hj') (Hout _ r' Hj' Hjm)).
Qed.

(** the leaf of a route gets new contents: the rest of the tree is as before *)
Lemma update_leaf ps n pn lo hi key leaf nd' :
  sub ps n pn lo hi -> route ps n pn key leaf -> NoDup (pages_of ps n pn) -> inb lo hi key ->
  (forall lo' hi', sub ps 0 leaf lo' hi' -> inb lo' hi' key -> sub (<[leaf := nd']> ps) 0 leaf lo' hi') ->
  sub (<[leaf := nd']> ps) n pn lo hi /\ pages_of (<[leaf := nd']> ps) n pn = pages_of ps n pn /\
  exists pre suf, entries ps n pn = pre ++ entries ps 0 leaf ++ suf /\
    entries (<[leaf := nd']> ps) n pn = pre ++ entries (<[leaf := nd']> ps) 0 leaf ++ suf.
Proof.
  intros Hsub Hrt Hnd Hb Hleaf. revert pn lo hi Hsub Hrt Hnd Hb. induction n as [|n IH]; intros pn lo hi Hsub Hrt Hdup Hb.
  { simpl in Hrt. subst pn. split; [by apply Hleaf|]. split; [done|]. exists [], []. by rewrite !app_nil_r. }
  destruct Hrt as (nd & m & r & Hnd & Hm & H1 & H2 & Hrt). destruct Hsub as (nd2 & Hnd2 & Hs & Hin & Hl & Hlen & Hch).
  rewrite Hnd in Hnd2. injection Hnd2 as <-. pose proof (route_pages _ _ _ _ _ Hrt) as Hlf. pose proof (lookup_lt_Some _ _ _ Hm).
  cbn [pages_of] in Hdup. rewrite Hnd in Hdup. apply NoDup_cons in Hdup as [Hpn Hdup].
  rewrite (concat_fmap_split _ _ _ _ Hm) in Hpn, Hdup. apply NoDup_app in Hdup as (_ & Hd1 & Hdup).
  apply NoDup_app in Hdup as (Hdm & Hd2 & _). assert (Hne : leaf <> pn) by (intros ->; apply Hpn; rewrite !elem_of_app; tauto).
  destruct (IH _ _ _ (Hch m r Hm) Hrt Hdm) as (Hs' & Hp' & pre & suf & E1 & E2); [apply inb_child; try done; lia|].
  pose proof (fun i r' Hi Hne' => disjoint_children ps n (an_rids nd) m i r r' leaf Hd1 Hd2 Hm Hi Hne' Hlf) as Hout.
  pose proof (same_children ps n nd m leaf nd' lo hi Hch Hout) as Hsame.
  destruct (Hsame (take m (an_rids nd)) 0%nat) as [T1 T2].
  { intros j r' Hj. apply lookup_take_Some in Hj as [? ?]. split; [done|lia]. }
  destruct (Hsame (drop (S m) (an_rids nd)) (S m)) as [D1 D2].
  { intros j r' Hj. rewrite lookup_drop in Hj. split; [done|lia]. }
  cbn [sub entries pages_of]. rewrite lookup_insert_ne, Hnd by done. split; [|split].
  - exists nd. split_and!; try done. intros i r' Hi. destruct (decide (i = m)) as [->|Him]; [rewrite Hm in Hi; injection Hi as <-; done|].
    by apply (outside ps leaf nd' n _ _ _ (Hch i r' Hi) (Hout i r' Hi Him)).
  - f_equal. by rewrite !(concat_fmap_split _ _ _ _ Hm), T2, D2, Hp'.
  - exists (concat ((fun r => entries ps n (rid_page_no r)) <$> take m (an_rids nd)) ++ pre),
      (suf ++ concat ((fun r => entries ps n (rid_page_no r)) <$> drop (S m) (an_rids nd))).
    rewrite !(concat_fmap_split _ _ _ _ Hm), T1, D1, E1, E2. by rewrite <- !app_assoc.
Qed.
End tree.

(** ** Node operations on pages of the store *)

Section store.
Context {S : Type} {PS : PageStore S} {PL : PageStoreLaws S}.
Context (h : IxFileHdr) (Hg : geo h) (Hc : cols h).
Local Open Scope prog_scope.

Definition any (_ : S) : Prop := True.
Lemma any_framed : RmP.framed any.
Proof. by split. Qed.

Abbreviation wk := (RmP.wk any).
Abbreviation rest := (RmP.rest any).

Lemma fetch_wk s0 k b :
  ps_inv s0 -> ps_page s0 k b -> ps_pins s0 k = 0 -> 0 < ps_room s0 ->
  runs (fetch_page k) s0 (fun r s => exists p, r = Some p /\ wk s0 (ps_npages s0) (ps_room s0 - 1) k p b s /\ ps_clean s k).
Proof.
  intros Hi Hp Hz Hr. destruct (ps_fetch s0 k b Hi Hp) as (r & s & E & p & -> & H1 & H2 & H3 & H4 & H5 & H6 & H7 & H8 & H9); [by right|].
  exists (Some p), s. split; [done|]. exists p. split; [done|]. split; [|apply H7; by apply ps_idle_clean].
  split; auto; [done|lia|by rewrite H6, Hz].
Qed.

Lemma unpin_rest s0 N R k p b (dirty : bool) s :
  wk s0 N R k p b s -> (dirty = false -> ps_clean s k) ->
  runs (unpin_page k dirty) s (fun r s' => r = true /\ rest s0 N (R + 1) k b s').
Proof.
  intros Hw Hd. destruct (ps_unpin s k b dirty) as (r & s' & E & -> & H1 & H2 & H3 & H4 & H5 & H6 & H7 & H8 & H9);
    [apply Hw|apply Hw|rewrite (RmP.wk_pins _ _ _ _ _ _ _ _ Hw); lia|intros; by apply Hd|].
  rewrite (RmP.wk_pins _ _ _ _ _ _ _ _ Hw) in *. exists true, s'. split; [done|]. split; [done|]. split; auto.
  - done.
  - eapply RmP.others_trans; [apply Hw|done].
  - intros g. rewrite H8. apply Hw.
  - rewrite H5, (RmP.wk_room _ _ _ _ _ _ _ _ Hw). done.
  - intros. by apply H9, Hw.
Qed.

Implicit Types (hd : IxIndexHandle).

Lemma lift_step {A B} (m : Prog S A) a s' (f : A -> Prog Ix.St B) s hd P :
  m s = (Ok a, s') -> runs (f a) (s', hd) P -> runs (bind (Ix.lift m) f) (s, hd) P.
Proof. intros Hm Hf. eapply runs_bind_eq; [|exact Hf]. unfold Ix.lift, zoom. simpl. by rewrite Hm. Qed.

(** an operation on a pinned node *)
Lemma on_node_eq {A} s0 N R k p b s hd (m : IxFileHdr -> Prog (list Z) A) :
  wk s0 N R k p b s ->
  Ix.on_node p m (s, hd) = (let '(r, b') := m (ix_hdr_ hd) b in
    (if bool_decide (b' = b) then ret tt else Ix.lift (write_bytes p 0 b'));;
    match r with Ok a => ret a | Throw e => throw e | Fail f => fail f end) (s, hd).
Proof.
  intros Hw. unfold Ix.on_node, Ix.hdr. rewrite (bind_ok (gets _) _ (s, hd) (ix_hdr_ hd) (s, hd)) by done.
  assert (E : read_bytes p 0 PAGE_SIZE s = (Ok (slice 0 PAGE_SIZE b), s)) by (eapply ps_read; [apply Hw|apply Hw|apply Hw|done]).
  assert (slice 0 PAGE_SIZE b = b) as Eb.
  { rewrite <- (ps_page_len s k b (RmP.wk_inv _ _ _ _ _ _ _ _ Hw) (RmP.wk_page _ _ _ _ _ _ _ _ Hw)). apply slice_full. }
  rewrite Eb in E. erewrite bind_ok by (unfold Ix.lift, zoom; simpl; rewrite E; reflexivity). done.
Qed.

(** ... that leaves it as it was *)
Lemma node_read {A B} s0 N R k p b s hd (m : IxFileHdr -> Prog (list Z) A) a (f : A -> Prog Ix.St B) P :
  wk s0 N R k p b s -> m (ix_hdr_ hd) b = (Ok a, b) -> runs (f a) (s, hd) P -> runs (bind (Ix.on_node p m) f) (s, hd) P.
Proof.
  intros Hw Hm Hf. eapply runs_bind_eq; [|exact Hf]. rewrite (on_node_eq _ _ _ _ _ _ _ _ _ Hw), Hm.
  by rewrite bool_decide_true by done.
Qed.

(** ... that changes it *)
Lemma node_write {A B} s0 N R k p b s hd (m : IxFileHdr -> Prog (list Z) A) a b' (f : A -> Prog Ix.St B) P :
  wk s0 N R k p b s -> m (ix_hdr_ hd) b = (Ok a, b') -> zlen b' = PAGE_SIZE ->
  (forall s', wk s0 N R k p b' s' -> runs (f a) (s', hd) P) -> runs (bind (Ix.on_node p m) f) (s, hd) P.
Proof.
  intros Hw Hm Hlen Hf. destruct (decide (b' = b)) as [->|Hne]; [by eapply node_read; eauto|].
  pose proof (ps_page_len s k b (RmP.wk_inv _ _ _ _ _ _ _ _ Hw) (RmP.wk_page _ _ _ _ _ _ _ _ Hw)) as Hb.
  destruct (RmP.wk_write any any_framed s0 N R k p b 0 b' s Hw) as ([] & s' & E & Hw'); [rewrite Hlen; done|].
  rewrite splice_all in Hw' by congruence. eapply runs_bind_eq; [|apply (Hf s' Hw')].
  rewrite (on_node_eq _ _ _ _ _ _ _ _ _ Hw), Hm, bool_decide_false by done.
  erewrite bind_ok by (unfold Ix.lift, zoom; simpl; rewrite E; reflexivity). done.
Qed.

Lemma node_release {B} s0 N R k p b (dirty : bool) s hd (f : unit -> Prog Ix.St B) P :
  wk s0 N R k p b s -> (dirty = false -> ps_clean s k) ->
  (forall s', rest s0 N (R + 1) k b s' -> runs (f tt) (s', hd) P) ->
  runs (bind (Ix.release_node_handle p dirty) f) (s, hd) P.
Proof.
  intros Hw Hd Hf. unfold Ix.release_node_handle. rstep. eapply lift_step; [eapply ps_page_id; apply Hw|]. rstep.
  destruct (unpin_rest s0 N R k p b dirty s Hw Hd) as (r & s' & E & -> & Hr). eapply lift_step; [exact E|]. rstep; [done|]. by apply Hf.
Qed.

Lemma node_fetch {B} s0 b hd pn (f : page_ptr -> Prog Ix.St B) P :
  ps_inv s0 -> ps_page s0 (mkPageId (ix_fd_ hd) pn) b -> ps_pins s0 (mkPageId (ix_fd_ hd) pn) = 0 -> 0 < ps_room s0 ->
  (forall p s, wk s0 (ps_npages s0) (ps_room s0 - 1) (mkPageId (ix_fd_ hd) pn) p b s -> ps_clean s (mkPageId (ix_fd_ hd) pn) ->
     runs (f p) (s, hd) P) ->
  runs (bind (Ix.fetch_node pn) f) (s0, hd) P.
Proof.
  intros Hi Hp Hz Hr Hf. destruct (fetch_wk s0 _ b Hi Hp Hz Hr) as (r & s & E & p & -> & Hw & Hcl).
  unfold Ix.fetch_node, Ix.get_fd. rstep. rstep. simpl. rstep. eapply lift_step; [exact E|]. rstep; [done|]. by apply Hf.
Qed.

(** ** An index file at rest *)

Record irep (s : S) (hd : IxIndexHandle) (ps : gmap Z anode) (n : nat) : Prop := {
  ir_inv : ps_inv s;
  ir_hdr : ix_hdr_ hd = h;
  ir_pages : forall i nd, ps !! i = Some nd -> exists b, ps_page s (mkPageId (ix_fd_ hd) i) b /\ nrep h nd b /\
    ps_pins s (mkPageId (ix_fd_ hd) i) = 0;
  ir_room : 0 < ps_room s;
  ir_tree : sub h ps n (root_page_ h) None None;
  ir_nodup : NoDup (pages_of ps n (root_page_ h));
}.

(** a node was pinned and released, its contents being those of [nd'] now *)
Lemma irep_rest s s' hd ps n pn nd' b' R :
  irep s hd ps n -> rest s (ps_npages s) R (mkPageId (ix_fd_ hd) pn) b' s' -> nrep h nd' b' -> 0 < R ->
  sub h (<[pn := nd']> ps) n (root_page_ h) None None -> NoDup (pages_of (<[pn := nd']> ps) n (root_page_ h)) ->
  irep s' hd (<[pn := nd']> ps) n.
Proof.
  intros Hi Hr Hn HR Hs Hd. split; [apply Hr|apply Hi| |by rewrite (RmP.re_room _ _ _ _ _ _ _ Hr)|done|done].
  intros i nd. rewrite lookup_insert. destruct (decide (pn = i)) as [<-|Hne].
  - intros [= <-]. exists b'. split; [apply Hr|]. split; [done|apply Hr].
  - intros Hl. destruct (ir_pages _ _ _ _ Hi i nd Hl) as (b & Hb & Hnb & Hz).
    assert (Hk : mkPageId (ix_fd_ hd) i <> mkPageId (ix_fd_ hd) pn) by congruence.
    exists b. split; [by apply (ot_page _ _ _ _ _ _ _ (RmP.re_others _ _ _ _ _ _ _ Hr))|]. split; [done|].
    by rewrite (ot_pins _ _ _ _ _ _ _ (RmP.re_others _ _ _ _ _ _ _ Hr)).
Qed.

Lemma irep_same s s' hd ps n pn nd b R :
  irep s hd ps n -> ps !! pn = Some nd -> nrep h nd b -> rest s (ps_npages s) R (mkPageId (ix_fd_ hd) pn) b s' -> 0 < R ->
  irep s' hd ps n.
Proof.
  intros Hi Hl Hn Hr HR. rewrite <- (insert_id ps pn nd Hl). eapply irep_rest; try done; rewrite insert_id by done; apply Hi.
Qed.

(** pinned at the leaf of the key, everything else being as in a state [s1] at rest *)
Record at_leaf (s : S) (hd : IxIndexHandle) (ps : gmap Z anode) (n : nat) (key : list Z) (p : page_ptr) (t : Ix.St (S:=S))
    (s1 s' : S) (leaf : Z) (nd : anode) (b : list Z) : Prop := {
  al_state : t = (s', hd);
  al_rest : irep s1 hd ps n;
  al_calm : RmP.calm s s1;
  al_route : route h ps n (root_page_ h) key leaf;
  al_leaf : ps !! leaf = Some nd;
  al_rep : nrep h nd b;
  al_wk : wk s1 (ps_npages s1) (ps_room s1 - 1) (mkPageId (ix_fd_ hd) leaf) p b s';
  al_clean : ps_clean s' (mkPageId (ix_fd_ hd) leaf);
  al_page : ps_page s1 (mkPageId (ix_fd_ hd) leaf) b;
}.

Lemma internal_lookup_ok nd b key :
  nrep h nd b -> an_leaf nd = false -> sorted h (an_keys nd) -> key_good h key ->
  exists m r, IxNode.internal_lookup h key 0 b = (Ok (rid_page_no r), b) /\ an_rids nd !! m = Some r /\
    (forall i k, (i < m)%nat -> an_keys nd !! i = Some k -> IxKey.lex (kv h k) (kv h key) <> Gt) /\
    (forall i k, (m <= i)%nat -> an_keys nd !! i = Some k -> IxKey.lex (kv h k) (kv h key) = Gt).
Proof.
  intros Hr Hl Hs Hk. pose proof (zlen_nonneg (col_types_ h)). pose proof (nr_len _ _ _ Hr) as Hlen. rewrite Hl in Hlen.
  destruct (upper_bound_ok h Hg Hc nd b key 0 Hr Hs Hk ltac:(lia)) as (m & E & Hm & H1 & H2).
  destruct (lookup_lt_is_Some_2 (an_rids nd) m) as [r Hrm]; [lia|]. exists m, r. split_and!; [|done|..].
  - unfold IxNode.internal_lookup. rewrite (bind_ok _ _ _ _ _ E). unfold IxNode.value_at.
    by rewrite (bind_ok _ _ _ _ _ (nrep_get_rid h Hg nd b m r Hr Hrm)).
  - intros. rewrite <- klex_0 by done. by eapply H1.
  - intros. rewrite <- klex_0 by done. by eapply H2.
Qed.

Lemma find_leaf_from_runs s hd ps N key n pn lo hi nd b s1 p s2 fuel :
  key_good h key -> irep s1 hd ps N -> RmP.calm s s1 -> sub h ps (Datatypes.S n) pn lo hi ->
  (forall leaf, route h ps (Datatypes.S n) pn key leaf -> route h ps N (root_page_ h) key leaf) ->
  ps !! pn = Some nd -> nrep h nd b ->
  wk s1 (ps_npages s1) (ps_room s1 - 1) (mkPageId (ix_fd_ hd) pn) p b s2 -> ps_clean s2 (mkPageId (ix_fd_ hd) pn) ->
  ps_page s1 (mkPageId (ix_fd_ hd) pn) b -> (n < fuel)%nat ->
  runs (Ix.find_leaf_from key fuel p) (s2, hd) (fun p' t => exists s1 s' leaf nd b, at_leaf s hd ps N key p' t s1 s' leaf nd b).
Proof.
  intros Hkey. revert n pn lo hi nd b s1 p s2. induction fuel as [|fuel IH]; intros n pn lo hi nd b s1 p s2 Hi Hcalm Hsub Hroute Hnd Hrep Hw Hcl Hpage Hf; [lia|].
  destruct Hsub as (nd' & Hnd' & Hs & Hin & Hl & Hlen & Hch). rewrite Hnd in Hnd'. injection Hnd' as <-.
  destruct (internal_lookup_ok nd b key Hrep Hl Hs Hkey) as (m & r & El & Hm & H1 & H2). cbn [Ix.find_leaf_from].
  eapply node_read; [exact Hw|by rewrite (ir_hdr _ _ _ _ Hi)|].
  eapply node_release; [exact Hw|by intros _|]. intros s3 Hr3. replace (ps_room s1 - 1 + 1) with (ps_room s1) in Hr3 by lia.
  pose proof (irep_same _ _ _ _ _ _ _ _ _ Hi Hnd Hrep Hr3 (ir_room _ _ _ _ Hi)) as Hi3.
  pose proof (Hch m r Hm) as Hsub'. assert (Hex : exists nd', ps !! rid_page_no r = Some nd') by (destruct n, Hsub' as (x & ? & _); eauto).
  destruct Hex as [nd' Hnd']. destruct (ir_pages _ _ _ _ Hi3 _ _ Hnd') as (b' & Hb' & Hrep' & Hz').
  eapply node_fetch; [apply Hi3|exact Hb'|exact Hz'|apply Hi3|]. intros p' s4 Hw4 Hcl4.
  eapply node_read; [exact Hw4|exact (nrep_is_leaf h _ _ Hrep')|].
  assert (Hroute' : forall leaf, route h ps n (rid_page_no r) key leaf -> route h ps N (root_page_ h) key leaf).
  { intros leaf Hlf. apply Hroute. exists nd, m, r. done. }
  destruct (ir_pages _ _ _ _ Hi _ _ Hnd) as (b0 & _ & _ & Hz0).
  assert (Hcalm3 : RmP.calm s s3) by (eapply RmP.calm_trans; [exact Hcalm|by eapply RmP.rest_calm]).
  destruct n as [|n].
  - destruct Hsub' as (nd2 & Hnd2 & _ & _ & Hleaf & _). rewrite Hnd' in Hnd2. injection Hnd2 as <-. rewrite Hleaf.
    apply runs_ret. eexists s3, s4, _, nd', b'. split; try done. by apply Hroute'.
  - pose proof Hsub' as (nd2 & Hnd2 & _ & _ & Hleaf & _). rewrite Hnd' in Hnd2. injection Hnd2 as <-. rewrite Hleaf.
    eapply (IH n); try done. lia.
Qed.

Lemma find_leaf_runs s hd ps n key fuel :
  key_good h key -> irep s hd ps n -> (n <= fuel)%nat ->
  runs (Ix.find_leaf_page fuel key) (s, hd) (fun p t => exists s1 s' leaf nd b, at_leaf s hd ps n key p t s1 s' leaf nd b).
Proof.
  intros Hkey Hi Hf. pose proof (ir_tree _ _ _ _ Hi) as Hsub.
  assert (Hex : exists nd, ps !! root_page_ h = Some nd) by (destruct n, Hsub as (x & ? & _); eauto).
  destruct Hex as [nd Hnd]. destruct (ir_pages _ _ _ _ Hi _ _ Hnd) as (b & Hb & Hrep & Hz).
  unfold Ix.find_leaf_page, Ix.hdr. rstep. simpl. rewrite (ir_hdr _ _ _ _ Hi).
  eapply node_fetch; [apply Hi|exact Hb|exact Hz|apply Hi|]. intros p s2 Hw Hcl.
  eapply node_read; [exact Hw|exact (nrep_is_leaf h _ _ Hrep)|]. destruct n as [|n].
  - destruct Hsub as (nd2 & Hnd2 & _ & _ & Hleaf & _). rewrite Hnd in Hnd2. injection Hnd2 as <-. rewrite Hleaf.
    apply runs_ret. eexists s, s2, _, nd, b. split; try done. apply RmP.calm_refl, Hi.
  - pose proof Hsub as (nd2 & Hnd2 & _ & _ & Hleaf & _). rewrite Hnd in Hnd2. injection Hnd2 as <-. rewrite Hleaf.
    eapply (find_leaf_from_runs s hd ps (Datatypes.S n) key n); try done. apply RmP.calm_refl, Hi.
Qed.

(** ** Reading the leaf *)

Lemma node_read_eq {A} s0 N R k p b s hd (m : IxFileHdr -> Prog (list Z) A) a :
  wk s0 N R k p b s -> m (ix_hdr_ hd) b = (Ok a, b) -> Ix.on_node p m (s, hd) = (Ok a, (s, hd)).
Proof. intros Hw Hm. rewrite (on_node_eq _ _ _ _ _ _ _ _ _ Hw), Hm. by rewrite bool_decide_true by done. Qed.

Lemma compare_eq a b (s : S) hd :
  ix_hdr_ hd = h -> key_good h a -> key_good h b ->
  Ix.compare a b (s, hd) = (Ok (IxKey.sign (IxKey.lex (kv h a) (kv h b))), (s, hd)).
Proof.
  intros Hh Ha Hb. pose proof (compare_all h Hc a b [] Ha Hb) as E. unfold IxNode.compare, IxNode.pure_call in E.
  unfold Ix.compare, Ix.hdr. rewrite (bind_ok (gets _) _ (s, hd) h (s, hd)) by (unfold gets; simpl; by rewrite Hh).
  injection E as E. by rewrite E.
Qed.

(** whether the pair at position [j] of the leaf has the key *)
Definition has_at (nd : anode) (key : list Z) (j : nat) : bool :=
  match an_keys nd !! j with Some k => bool_decide (kv h k = kv h key) | None => false end.

Lemma same_key_at s0 N R k p b s hd nd key j :
  wk s0 N R k p b s -> ix_hdr_ hd = h -> nrep h nd b -> Forall (key_good h) (an_keys nd) -> key_good h key ->
  (if Z.of_nat j <? zlen (an_keys nd) then
     let* k := Ix.on_node p (fun h => IxNode.get_key h (Z.of_nat j)) in let* c := Ix.compare key k in ret (c =? 0)
   else ret false) (s, hd) = (Ok (has_at nd key j), (s, hd)).
Proof.
  intros Hw Hh Hr Hgood Hk. unfold has_at. destruct (an_keys nd !! j) as [kj|] eqn:Ek.
  - rewrite (proj2 (Z.ltb_lt _ _)) by (apply lookup_lt_Some in Ek; unfold zlen; lia).
    erewrite bind_ok by (eapply node_read_eq; [exact Hw|rewrite Hh; exact (nrep_get_key h Hg nd b j kj Hr Ek)]).
    erewrite bind_ok by (apply compare_eq; [done|done|exact (Forall_lookup_1 _ _ _ _ Hgood Ek)]).
    unfold ret. do 2 f_equal. pose proof (lex_kv_eq h Hc key kj) as Hiff.
    destruct (IxKey.lex (kv h key) (kv h kj)); simpl; symmetry; [apply bool_decide_true; symmetry; tauto|apply bool_decide_false..];
      intros He; symmetry in He; by apply Hiff in He.
  - apply lookup_ge_None in Ek. by rewrite (proj2 (Z.ltb_ge _ _)) by (unfold zlen; lia).
Qed.

Lemma collect_stop s0 N R k p b s hd nd key j fuel :
  wk s0 N R k p b s -> ix_hdr_ hd = h -> nrep h nd b -> Forall (key_good h) (an_keys nd) -> key_good h key ->
  has_at nd key j = false -> Ix.collect p key (Z.of_nat j) fuel (s, hd) = (Ok [], (s, hd)).
Proof.
  intros Hw Hh Hr Hgood Hk Hf. destruct fuel; cbn [Ix.collect];
    erewrite bind_ok by (eapply node_read_eq; [exact Hw|exact (nrep_size h nd b Hr)]);
    erewrite bind_ok by (by eapply same_key_at); by rewrite Hf.
Qed.

(** the rid stored with the key in a leaf *)
Definition found (nd : anode) (key : list Z) (m : nat) : list Rid :=
  if has_at nd key m then match an_rids nd !! m with Some r => [r] | None => [] end else [].

Lemma collect_ok s0 N R k p b s hd nd key m :
  wk s0 N R k p b s -> ix_hdr_ hd = h -> nrep h nd b -> an_leaf nd = true -> sorted h (an_keys nd) -> key_good h key ->
  splits h m (an_keys nd) key ->
  Ix.collect p key (Z.of_nat m) (Z.to_nat (zlen (an_keys nd))) (s, hd) = (Ok (found nd key m), (s, hd)).
Proof.
  intros Hw Hh Hr Hl Hs Hk Hsp. pose proof (so_good _ _ Hs) as Hgood. unfold found. destruct (has_at nd key m) eqn:Eh; [|by eapply collect_stop].
  pose proof Eh as Eh'. unfold has_at in Eh'. destruct (an_keys nd !! m) as [km|] eqn:Ek; [|done]. apply bool_decide_eq_true in Eh'.
  pose proof (lookup_lt_Some _ _ _ Ek) as Hlt. pose proof (nr_len _ _ _ Hr) as Hlen. rewrite Hl in Hlen.
  destruct (lookup_lt_is_Some_2 (an_rids nd) m) as [r Hrm]; [lia|]. rewrite Hrm.
  destruct (Z.to_nat (zlen (an_keys nd))) eqn:En; [unfold zlen in En; lia|]. cbn [Ix.collect].
  erewrite bind_ok by (eapply node_read_eq; [exact Hw|exact (nrep_size h nd b Hr)]).
  erewrite bind_ok by (by eapply same_key_at). rewrite Eh.
  erewrite bind_ok by (eapply node_read_eq; [exact Hw|rewrite Hh; exact (nrep_get_rid h Hg nd b m r Hr Hrm)]).
  replace (Z.of_nat m + 1) with (Z.of_nat (Datatypes.S m)) by lia. erewrite bind_ok; [reflexivity|].
  eapply collect_stop; try done. unfold has_at. destruct (an_keys nd !! Datatypes.S m) as [k'|] eqn:Ek'; [|done].
  apply bool_decide_false. intros Heq. pose proof (splits_holds h Hc _ m key (Datatypes.S m) Hs Hsp ltac:(by exists k')). lia.
Qed.

(** what [found] finds *)
Lemma found_entries ps leaf nd key m :
  ps !! leaf = Some nd -> length (an_rids nd) = length (an_keys nd) -> sorted h (an_keys nd) -> splits h m (an_keys nd) key ->
  forall r, r ∈ found nd key m <-> exists k, (k, r) ∈ entries ps 0 leaf /\ kv h k = kv h key.
Proof.
  intros Hnd Hlen Hs Hsp r. cbn [entries]. rewrite Hnd. unfold found. split.
  - destruct (has_at nd key m) eqn:Eh; [|intros H; by apply not_elem_of_nil in H]. unfold has_at in Eh.
    destruct (an_keys nd !! m) as [k|] eqn:Ek; [|done]. apply bool_decide_eq_true in Eh.
    destruct (an_rids nd !! m) as [r'|] eqn:Er; [|intros H; by apply not_elem_of_nil in H]. rewrite list_elem_of_singleton. intros ->.
    exists k. split; [|done]. apply list_elem_of_lookup. exists m. by rewrite lookup_zip_with, Ek, Er.
  - intros (k & Hin & Heq). apply list_elem_of_lookup in Hin as [i Hi]. rewrite lookup_zip_with in Hi.
    destruct (an_keys nd !! i) as [k0|] eqn:Ek; [|done]. destruct (an_rids nd !! i) as [r0|] eqn:Er; [|done]. simpl in Hi. simplify_eq.
    pose proof (splits_holds h Hc _ m key i Hs Hsp ltac:(by exists k)) as ->. unfold has_at. rewrite Ek, bool_decide_true by done.
    rewrite Er. by apply list_elem_of_singleton.
Qed.

Lemma leaf_facts s hd ps n key p t s1 s' leaf nd b :
  at_leaf s hd ps n key p t s1 s' leaf nd b -> exists lo hi,
    sorted h (an_keys nd) /\ an_leaf nd = true /\ length (an_rids nd) = length (an_keys nd) /\
    sub h ps 0 leaf lo hi /\ inb h lo hi key /\
    (forall k r, kv h k = kv h key -> (k, r) ∈ entries ps n (root_page_ h) <-> (k, r) ∈ entries ps 0 leaf).
Proof.
  intros Ha. pose proof (ir_tree _ _ _ _ (al_rest _ _ _ _ _ _ _ _ _ _ _ _ Ha)) as Ht. pose proof (al_route _ _ _ _ _ _ _ _ _ _ _ _ Ha) as Hr.
  destruct (route_leaf h ps n _ key leaf None None Ht Hr) as (lo & hi & Hsub & Hb & He); [by split|].
  exists lo, hi. pose proof Hsub as (nd' & Hnd' & Hs & _ & Hl & Hlen). rewrite (al_leaf _ _ _ _ _ _ _ _ _ _ _ _ Ha) in Hnd'. injection Hnd' as <-.
  split_and!; try done. intros k r Hk. split; [|apply He]. intros Hin. by eapply (route_entries h Hc); [exact Ht|exact Hr|exact Hin|].
Qed.

Lemma get_value_runs s hd ps n key fuel :
  key_good h key -> irep s hd ps n -> (n <= fuel)%nat ->
  runs (Ix.get_value fuel key) (s, hd) (fun res t => exists s', t = (s', hd) /\ irep s' hd ps n /\
    res.1 = negb (bool_decide (res.2 = [])) /\ (length res.2 <= 1)%nat /\
    (forall r, r ∈ res.2 <-> exists k, (k, r) ∈ entries ps n (root_page_ h) /\ kv h k = kv h key)).
Proof.
  intros Hkey Hi Hf. unfold Ix.get_value. eapply runs_bind; [by apply find_leaf_runs|].
  intros p t (s1 & s' & leaf & nd & b & Ha). destruct (leaf_facts _ _ _ _ _ _ _ _ _ _ _ _ Ha) as (lo & hi & Hs & Hl & Hlen & _ & _ & He).
  destruct Ha as [-> Hi1 Hcalm Hrt Hnd Hrep Hw Hcl Hpage]. pose proof (ir_hdr _ _ _ _ Hi1) as Hh.
  destruct (lower_bound_splits h Hg Hc nd b key Hrep Hs Hkey) as (m & El & Hm & Hsp).
  eapply node_read; [exact Hw|by rewrite Hh|]. eapply node_read; [exact Hw|exact (nrep_size h nd b Hrep)|].
  eapply runs_bind_eq; [by eapply collect_ok|].
  eapply node_release; [exact Hw|by intros _|]. intros s3 Hr3. replace (ps_room s1 - 1 + 1) with (ps_room s1) in Hr3 by lia.
  apply runs_ret. exists s3. split; [done|]. split; [by eapply (irep_same s1); try done; apply Hi1|]. cbn [fst snd].
  split; [done|]. split.
  - unfold found. destruct (has_at nd key m); [|simpl; lia]. destruct (an_rids nd !! m); simpl; lia.
  - intros r. rewrite (found_entries ps leaf nd key m Hnd Hlen Hs Hsp). split; intros (k & Hin & Hk); exists k; (split; [|done]); by apply (He k r Hk).
Qed.

(** the lookup that [InsertExecutor] makes before it inserts *)
Lemma is_exist_runs s hd ps n key fuel :
  key_good h key -> irep s hd ps n -> (n <= fuel)%nat ->
  runs (Ix.is_exist fuel key) (s, hd) (fun res t => exists s', t = (s', hd) /\ RmP.calm s s' /\ (res = true <-> exists k r, (k, r) ∈ entries ps n (root_page_ h) /\ kv h k = kv h key)).
Proof.
  intros Hkey Hi Hf. unfold Ix.is_exist. eapply runs_bind; [by apply find_leaf_runs|].
  intros p t (s1 & s' & leaf & nd & b & Ha). destruct (leaf_facts _ _ _ _ _ _ _ _ _ _ _ _ Ha) as (lo & hi & Hs & Hl & Hlen & _ & _ & He).
  destruct Ha as [-> Hi1 Hcalm Hrt Hnd Hrep Hw Hcl Hpage]. pose proof (ir_hdr _ _ _ _ Hi1) as Hh.
  destruct (lower_bound_splits h Hg Hc nd b key Hrep Hs Hkey) as (m & El & Hm & Hsp).
  eapply node_read; [exact Hw|by rewrite Hh|]. eapply node_read; [exact Hw|exact (nrep_size h nd b Hrep)|].
  eapply runs_bind_eq; [by eapply same_key_at; try done; apply so_good|].
  assert (Hres : has_at nd key m = true <-> exists k r, (k, r) ∈ entries ps n (root_page_ h) /\ kv h k = kv h key).
  { pose proof (found_entries ps leaf nd key m Hnd Hlen Hs Hsp) as Hfe. split.
    - intros Eh. assert (Hr : exists r, an_rids nd !! m = Some r) by (unfold has_at in Eh; destruct (an_keys nd !! m) eqn:Ek; [|done]; apply lookup_lt_Some in Ek; apply lookup_lt_is_Some_2; lia).
      destruct Hr as [r Hr]. destruct (proj1 (Hfe r)) as (k & Hin & Hk); [unfold found; rewrite Eh, Hr; by apply list_elem_of_singleton|]. exists k, r. split; [by apply (He k r Hk)|done].
    - intros (k & r & Hin & Hk). pose proof (proj2 (Hfe r) (ex_intro _ k (conj (proj1 (He k r Hk) Hin) Hk))) as Hr. unfold found in Hr. destruct (has_at nd key m); [done|by apply not_elem_of_nil in Hr]. }
  assert (Hz : ps_pins s1 (mkPageId (ix_fd_ hd) leaf) = 0) by (by destruct (ir_pages _ _ _ _ Hi1 leaf nd Hnd) as (? & _ & _ & ?)).
  destruct (has_at nd key m); (eapply node_release; [exact Hw|by intros _|]); intros s3 Hr3; replace (ps_room s1 - 1 + 1) with (ps_room s1) in Hr3 by lia;
    apply runs_ret; exists s3; (split; [done|]); (split; [|exact Hres]); (eapply RmP.calm_trans; [exact Hcalm|]); eapply RmP.rest_calm; [exact Hpage|exact Hz|exact Hr3|exact Hpage|exact Hz|exact Hr3].
Qed.
End store.
End IxT.
