(* ===== verification/IxProps.v ===== *)
(** What the B+ tree promises: it is a map from keys to rids, sorted by key.
    Looking a key up finds the rid stored with it and nothing else; inserting a
    new key into a leaf with room adds one entry in order; inserting a key that
    is there is refused without a change; deleting a key from a leaf that does
    not underflow removes one entry.  Splitting and merging nodes are modelled
    in [IxTree] but not covered by these theorems. *)

From S2P Require Import Prelude Bytes Errors Disk BufferPool BufferPoolProps PageStore Defs.
From S2P Require Import LogRecord RmFile RmProofs RmProps IxDefs IxNode IxTree.
From S2P Require Import IxNodeProofs IxTreeProofs.
Import IxN IxT.

Module IxP.

(** ** Lists of pairs *)

Lemma zip_ins {A B} (i : nat) (x : A) (y : B) l k :
  length l = length k -> (i <= length l)%nat -> zip (ins i x l) (ins i y k) = ins i (x, y) (zip l k).
Proof.
  intros Hl Hi. unfold ins. rewrite zip_with_app by (rewrite !length_take; lia). simpl.
  by rewrite zip_with_take, zip_with_drop.
Qed.

Lemma zip_del {A B} (i : nat) (l : list A) (k : list B) :
  length l = length k -> zip (del i l) (del i k) = del i (zip l k).
Proof.
  intros Hl. unfold del. rewrite zip_with_app by (rewrite !length_take; lia). by rewrite zip_with_take, zip_with_drop.
Qed.

Lemma elem_of_ins {A} (i : nat) (x y : A) l : (i <= length l)%nat -> y ∈ ins i x l -> y = x \/ y ∈ l.
Proof.
  intros Hi Hy. unfold ins in Hy. rewrite elem_of_app, elem_of_cons in Hy. destruct Hy as [Hy|[->|Hy]]; [right|by left|right].
  - apply list_elem_of_lookup in Hy as [j Hj]. apply lookup_take_Some in Hj as [Hj _]. by eapply list_elem_of_lookup_2.
  - apply list_elem_of_lookup in Hy as [j Hj]. rewrite lookup_drop in Hj. by eapply list_elem_of_lookup_2.
Qed.

Lemma elem_of_del {A} (i : nat) (y : A) l : y ∈ del i l -> y ∈ l.
Proof.
  intros Hy. unfold del in Hy. rewrite elem_of_app in Hy.
  destruct Hy as [Hy|Hy]; apply list_elem_of_lookup in Hy as [j Hj].
  - apply lookup_take_Some in Hj as [Hj _]. by eapply list_elem_of_lookup_2.
  - rewrite lookup_drop in Hj. by eapply list_elem_of_lookup_2.
Qed.

(** ** The entries of a tree are in order *)

Section order.
Context (h : IxFileHdr) (Hg : geo h) (Hc : cols h).

Definition elt (e e' : list Z * Rid) : Prop := klt h e.1 e'.1.
Definition ordered (l : list (list Z * Rid)) : Prop :=
  forall i j a b, (i < j)%nat -> l !! i = Some a -> l !! j = Some b -> elt a b.

Lemma ordered_app l1 l2 : ordered l1 -> ordered l2 -> (forall a b, a ∈ l1 -> b ∈ l2 -> elt a b) -> ordered (l1 ++ l2).
Proof.
  intros H1 H2 H12 i j a b Hij Ha Hb. apply lookup_app_Some in Ha as [Ha|[Hi Ha]], Hb as [Hb|[Hj Hb]].
  - by eapply (H1 i j).
  - apply H12; by eapply list_elem_of_lookup_2.
  - apply lookup_lt_Some in Hb. lia.
  - eapply (H2 (i - length l1)%nat (j - length l1)%nat); [lia|done|done].
Qed.

(** the lists of the children, separated by the bounds *)
Lemma ordered_concat {A} (f : A -> list (list Z * Rid)) rs :
  (forall i r, rs !! i = Some r -> ordered (f r)) ->
  (forall i j r r', (i < j)%nat -> rs !! i = Some r -> rs !! j = Some r' -> forall a b, a ∈ f r -> b ∈ f r' -> elt a b) ->
  ordered (concat (f <$> rs)).
Proof.
  induction rs as [|r rs IH]; intros H1 H2; [by intros i j a b _ Ha|]. rewrite fmap_cons. simpl. apply ordered_app.
  - by apply (H1 0%nat).
  - apply IH; [intros i r' Hr'; by apply (H1 (S i))|]. intros i j r1 r2 Hij Hr1 Hr2. by apply (H2 (S i) (S j)); [lia|..].
  - intros a b Ha Hb. apply list_elem_of_In, in_concat in Hb as (l & Hl & Hb). apply list_elem_of_In in Hl, Hb.
    apply list_elem_of_fmap in Hl as (r' & -> & Hr'). apply list_elem_of_lookup in Hr' as [j Hj].
    by apply (H2 0%nat (S j) r r'); [lia|..].
Qed.

Lemma child_below nd i j :
  sorted h (an_keys nd) -> (i < j)%nat -> (j <= length (an_keys nd))%nat ->
  forall a b lo hi, inb h (lo_of lo (an_keys nd) i) (hi_of hi (an_keys nd) i) a ->
    inb h (lo_of lo (an_keys nd) j) (hi_of hi (an_keys nd) j) b -> klt h a b.
Proof.
  intros Hs Hij Hj a b lo hi [_ Ha] [Hb _]. destruct j as [|j]; [lia|]. simpl in Hb.
  destruct (lookup_lt_is_Some_2 (an_keys nd) i) as [ki Hki]; [lia|]. destruct (lookup_lt_is_Some_2 (an_keys nd) j) as [kj Hkj]; [lia|].
  specialize (Hb kj Hkj). unfold hi_of in Ha. rewrite Hki in Ha. specialize (Ha ki eq_refl).
  assert (Hlt : klt h a kj).
  { destruct (decide (i = j)) as [->|Hne]; [by rewrite Hki in Hkj; injection Hkj as <-|].
    eapply IxKey.lex_lt_trans; [apply kv_len, Hc|apply kv_len, Hc|exact Ha|].
    pose proof (so_lt _ _ Hs i j ki kj ltac:(lia) Hki Hkj) as Hl. unfold klt in Hl. by rewrite Hl. }
  unfold klt in *. eapply IxKey.lex_lt_trans; [apply kv_len, Hc|apply kv_len, Hc|exact Hlt|done].
Qed.

Lemma entries_ordered ps n pn lo hi : sub h ps n pn lo hi -> ordered (entries ps n pn).
Proof.
  revert pn lo hi. induction n as [|n IH]; intros pn lo hi (nd & Hnd & Hs & Hin & Hk); cbn [entries]; rewrite Hnd.
  - intros i j a b Hij Ha Hb. rewrite lookup_zip_with in Ha, Hb.
    destruct (an_keys nd !! i) as [k|] eqn:Ei; [|done]. destruct (an_rids nd !! i); [|done].
    destruct (an_keys nd !! j) as [k'|] eqn:Ej; [|done]. destruct (an_rids nd !! j); [|done]. simpl in Ha, Hb. simplify_eq.
    by apply (so_lt _ _ Hs i j).
  - destruct Hk as (_ & Hlen & Hch). apply ordered_concat; [intros i r Hr; by eapply IH, Hch|].
    intros i j r r' Hij Hr Hr' [a ra] [b rb] Ha Hb. pose proof (lookup_lt_Some _ _ _ Hr').
    eapply (child_below nd i j Hs Hij ltac:(lia)).
    + by eapply (sub_entries h Hc); [by apply Hch|exact Ha].
    + by eapply (sub_entries h Hc); [by apply Hch|exact Hb].
Qed.
End order.

(** ** Changing the leaf of a key *)

Section ops.
Context {S : Type} {PS : PageStore S} {PL : PageStoreLaws S}.
Context (h : IxFileHdr) (Hg : geo h) (Hc : cols h).
Local Open Scope prog_scope.
Abbreviation wk := (RmP.wk any).
Abbreviation rest := (RmP.rest any).
Abbreviation root := (root_page_ h).

(** new pairs within the bounds of a leaf make a leaf with the same bounds *)
Lemma sub_leaf ps leaf nd ks rs lo hi :
  an_leaf nd = true -> sorted h ks -> length rs = length ks -> (forall k, k ∈ ks -> inb h lo hi k) ->
  sub h (<[leaf := set_pairs ks rs nd]> ps) 0 leaf lo hi.
Proof. intros. exists (set_pairs ks rs nd). rewrite lookup_insert_eq. done. Qed.

(** the leaf got other pairs, was marked dirty and released *)
Lemma leaf_replaced s hd ps n key p s1 s' leaf nd b ks rs s3 b' R :
  at_leaf h s hd ps n key p (s', hd) s1 s' leaf nd b ->
  sorted h ks -> length rs = length ks -> (forall k, k ∈ ks -> k = key \/ k ∈ an_keys nd) ->
  rest s1 (ps_npages s1) R (mkPageId (ix_fd_ hd) leaf) b' s3 -> nrep h (set_pairs ks rs nd) b' -> 0 < R ->
  let ps' := <[leaf := set_pairs ks rs nd]> ps in
  irep h s3 hd ps' n /\ exists pre suf, entries ps n root = pre ++ zip (an_keys nd) (an_rids nd) ++ suf /\
    entries ps' n root = pre ++ zip ks rs ++ suf.
Proof.
  intros Ha Hs Hlen Hin Hr Hrep HR ps'. destruct (leaf_facts h Hc _ _ _ _ _ _ _ _ _ _ _ _ Ha) as (lo & hi & _ & Hl & _ & _ & _ & _).
  destruct Ha as [_ Hi _ Hrt Hnd _ _ _ _].
  destruct (update_leaf h ps n root None None key leaf (set_pairs ks rs nd) (ir_tree _ _ _ _ _ Hi) Hrt (ir_nodup _ _ _ _ _ Hi))
    as (Hsub & Hpages & pre & suf & E1 & E2); [by split| |].
  - intros lo' hi' (nd' & Hnd' & _ & Hb & _) Hkb. rewrite Hnd in Hnd'. injection Hnd' as <-. apply sub_leaf; try done.
    intros k Hk. destruct (Hin k Hk) as [->|Hk']; [done|by apply Hb].
  - split; [eapply irep_rest; try done; rewrite Hpages; apply Hi|]. exists pre, suf.
    cbn [entries] in E1, E2. rewrite Hnd in E1. rewrite lookup_insert_eq in E2. by split.
Qed.

(** the key is not in the tree, so not in its leaf *)
Lemma fresh_in_leaf ps n leaf nd key :
  ps !! leaf = Some nd -> length (an_rids nd) = length (an_keys nd) ->
  (forall k r, kv h k = kv h key -> (k, r) ∈ entries ps n root <-> (k, r) ∈ entries ps 0 leaf) ->
  (exists k r, (k, r) ∈ entries ps n root /\ kv h k = kv h key) <-> holds h (an_keys nd) key.
Proof.
  intros Hnd Hlen He. split.
  - intros (k & r & Hin & Hk). apply (He k r Hk) in Hin. cbn [entries] in Hin. rewrite Hnd in Hin. apply elem_of_zip_l in Hin.
    apply list_elem_of_lookup in Hin as [m Hm]. by exists m, k.
  - intros (m & k & Hm & Hk). destruct (lookup_lt_is_Some_2 (an_rids nd) m) as [r Hr]; [apply lookup_lt_Some in Hm; lia|].
    exists k, r. split; [|done]. apply (He k r Hk). cbn [entries]. rewrite Hnd. apply list_elem_of_lookup. exists m.
    by rewrite lookup_zip_with, Hm, Hr.
Qed.

Lemma max_key_size_ok nd b : nrep h nd b -> an_leaf nd = true -> IxNode.get_max_key_size h b = (Ok (btree_order_ h), b).
Proof. intros Hr Hl. unfold IxNode.get_max_key_size. rewrite (bind_ok _ _ _ _ _ (nrep_is_leaf h nd b Hr)). by rewrite Hl. Qed.

Lemma min_key_size_ok nd b : nrep h nd b -> an_leaf nd = true -> IxNode.get_min_key_size h b = (Ok (IxNode.get_min_rid_size h), b).
Proof. intros Hr Hl. unfold IxNode.get_min_key_size. rewrite (bind_ok _ _ _ _ _ (nrep_is_leaf h nd b Hr)). by rewrite Hl. Qed.

Lemma get_page_no_eq s0 N R k p b s hd : wk s0 N R k p b s -> Ix.get_page_no p (s, hd) = (Ok (page_no k), (s, hd)).
Proof.
  intros Hw. unfold Ix.get_page_no. erewrite bind_ok; [reflexivity|]. unfold Ix.lift, zoom. simpl.
  erewrite ps_page_id by apply Hw. done.
Qed.

Lemma node_write_eq {A} s0 N R k p b s hd (m : IxFileHdr -> Prog (list Z) A) a b' :
  wk s0 N R k p b s -> m (ix_hdr_ hd) b = (Ok a, b') -> zlen b' = PAGE_SIZE ->
  exists s', Ix.on_node p m (s, hd) = (Ok a, (s', hd)) /\ wk s0 N R k p b' s'.
Proof.
  intros Hw Hm Hlen. destruct (node_write s0 N R k p b s hd m a b' ret (fun x t => x = a /\ exists s', t = (s', hd) /\ wk s0 N R k p b' s'))
    as (x & t & E & -> & s' & -> & Hw'); [done..|intros s' Hw'; apply runs_ret; eauto|].
  exists s'. split; [|done]. unfold bind in E. destruct (Ix.on_node p m (s, hd)) as [[y| |] t]; simplify_eq/=; done.
Qed.

(** *** Insertion *)

Lemma insert_node_eq s0 N R k p b s hd key r nd :
  wk s0 N R k p b s -> ix_hdr_ hd = h -> nrep h nd b -> an_leaf nd = true -> sorted h (an_keys nd) ->
  zlen (an_keys nd) <= btree_order_ h -> key_good h key -> Log.rid_ok r -> ~ holds h (an_keys nd) key ->
  exists m b' s', Ix.on_node p (fun h => IxNode.insert h key r) (s, hd) = (Ok (Z.of_nat m, zlen (an_keys nd) + 1), (s', hd)) /\
    wk s0 N R k p b' s' /\ (m <= length (an_keys nd))%nat /\
    nrep h (set_pairs (ins m key (an_keys nd)) (ins m r (an_rids nd)) nd) b' /\ sorted h (ins m key (an_keys nd)).
Proof.
  intros Hw Hh Hr Hl Hs Hn Hk Hrid Hf. destruct (insert_ok h Hg Hc nd b key r Hr Hl Hs Hn Hk Hrid Hf) as (m & b' & E & Hm & _ & Hr' & Hs').
  assert (Hm' : IxNode.insert (ix_hdr_ hd) key r b = (Ok (Z.of_nat m, zlen (an_keys nd) + 1), b')) by (by rewrite Hh).
  destruct (node_write_eq _ _ _ _ _ _ _ _ (fun h => IxNode.insert h key r) _ _ Hw Hm' (nr_page _ _ _ Hr')) as (s' & E' & Hw').
  by exists m, b', s'.
Qed.
(** the leaf of the key has room for one more pair *)
Definition has_room (ps : gmap Z anode) (n : nat) (key : list Z) : Prop :=
  forall leaf nd, route h ps n root key leaf -> ps !! leaf = Some nd -> zlen (an_keys nd) < btree_order_ h.

Definition present (ps : gmap Z anode) (n : nat) (key : list Z) : Prop :=
  exists k r, (k, r) ∈ entries ps n root /\ kv h k = kv h key.

Lemma insert_entry_runs s hd ps n key r fuel :
  irep h s hd ps n -> (n <= fuel)%nat -> key_good h key -> Log.rid_ok r -> ~ present ps n key -> has_room ps n key ->
  runs (Ix.insert_entry fuel key r) (s, hd) (fun _ t => exists s' ps' l1 l2, t = (s', hd) /\ irep h s' hd ps' n /\
    entries ps n root = l1 ++ l2 /\ entries ps' n root = l1 ++ (key, r) :: l2).
Proof.
  intros Hi Hf Hk Hrid Hnew Hroom. unfold Ix.insert_entry. eapply runs_bind; [by apply (find_leaf_runs h Hg Hc s hd ps n)|].
  intros p t (s1 & s' & leaf & nd & b & Ha). destruct (leaf_facts h Hc _ _ _ _ _ _ _ _ _ _ _ _ Ha) as (lo & hi & Hs & Hl & Hlen & _ & _ & He).
  pose proof (al_state _ _ _ _ _ _ _ _ _ _ _ _ _ Ha) as ->. pose proof Ha as [_ Hi1 _ Hrt Hnd Hrep Hw Hcl _].
  pose proof (ir_hdr _ _ _ _ _ Hi1) as Hh. specialize (Hroom leaf nd Hrt Hnd).
  assert (Hfr : ~ holds h (an_keys nd) key) by (intros Hx; apply Hnew; by apply (fresh_in_leaf ps n leaf nd key Hnd Hlen He)).
  destruct (insert_node_eq _ _ _ _ _ _ _ hd key r nd Hw Hh Hrep Hl Hs ltac:(lia) Hk Hrid Hfr) as (m & b' & s2 & E & Hw2 & Hm & Hr' & Hs').
  eapply runs_bind_eq; [unfold try_catch; by rewrite E|]. cbn beta iota.
  eapply node_read; [exact Hw2|rewrite Hh; by eapply max_key_size_ok|]. rewrite (proj2 (Z.ltb_ge _ _)) by lia.
  eapply runs_bind_eq; [by eapply get_page_no_eq|]. eapply node_release; [exact Hw2|done|]. intros s3 Hr3.
  replace (ps_room s1 - 1 + 1) with (ps_room s1) in Hr3 by lia. apply runs_ret.
  destruct (leaf_replaced s hd ps n key p s1 s' leaf nd b (ins m key (an_keys nd)) (ins m r (an_rids nd)) s3 b' (ps_room s1) Ha Hs')
    as (Hi3 & pre & suf & E1 & E2); [rewrite !length_ins by lia; lia|intros k' Hk'; by apply elem_of_ins in Hk'|done|done|apply Hi1|].
  rewrite zip_ins in E2 by lia.
  exists s3, (<[leaf := set_pairs (ins m key (an_keys nd)) (ins m r (an_rids nd)) nd]> ps),
    (pre ++ take m (zip (an_keys nd) (an_rids nd))), (drop m (zip (an_keys nd) (an_rids nd)) ++ suf).
  split; [done|]. split; [done|]. rewrite E1, E2. split; [by rewrite <- (take_drop m (zip (an_keys nd) (an_rids nd))) at 1; rewrite <- !app_assoc|].
  unfold ins. by rewrite <- !app_assoc.
Qed.

(** the node is released as it was, and the exception goes on *)
Lemma insert_entry_dup s hd ps n key r fuel :
  irep h s hd ps n -> (n <= fuel)%nat -> key_good h key -> present ps n key ->
  throws (Ix.insert_entry fuel key r) (s, hd) IndexEntryNotUniqueError (fun t => exists s', t = (s', hd) /\ irep h s' hd ps n).
Proof.
  intros Hi Hf Hk Hpres. unfold Ix.insert_entry, throws.
  destruct (find_leaf_runs h Hg Hc s hd ps n key fuel Hk Hi Hf) as (p & t & E & s1 & s' & leaf & nd & b & Ha).
  rewrite (bind_ok _ _ _ _ _ E). destruct (leaf_facts h Hc _ _ _ _ _ _ _ _ _ _ _ _ Ha) as (lo & hi & Hs & Hl & Hlen & _ & _ & He).
  destruct Ha as [-> Hi1 _ Hrt Hnd Hrep Hw Hcl _]. pose proof (ir_hdr _ _ _ _ _ Hi1) as Hh.
  assert (Hx : holds h (an_keys nd) key) by (by apply (fresh_in_leaf ps n leaf nd key Hnd Hlen He)).
  assert (Et : Ix.on_node p (fun h => IxNode.insert h key r) (s', hd) = (Throw IndexEntryNotUniqueError, (s', hd))).
  { rewrite (on_node_eq _ _ _ _ _ _ _ _ _ Hw), Hh, (insert_dup h Hg Hc nd b key r Hrep Hl Hs Hk Hx). by rewrite bool_decide_true by done. }
  destruct (node_release (PL:=PL) s1 _ _ _ p b false s' hd (@ret error Ix.St unit) (fun _ t => exists s3, t = (s3, hd) /\
    rest s1 (ps_npages s1) (ps_room s1 - 1 + 1) (mkPageId (ix_fd_ hd) leaf) b s3) Hw) as ([] & t & Er & s3 & -> & Hr3);
    [by intros _|intros s3 Hr3; apply runs_ret; eauto|].
  exists (s3, hd). split.
  - apply bind_throw. unfold try_catch. rewrite Et. unfold bind, ret in Er; unfold bind.
    destruct (Ix.release_node_handle p false (s', hd)) as [[]]; simplify_eq/=. done.
  - exists s3. split; [done|]. eapply (irep_same h s1); try done. pose proof (ir_room _ _ _ _ _ Hi1). lia.
Qed.

(** *** Deletion *)

(** the leaf of the key is the root or keeps enough pairs *)
Definition no_underflow (ps : gmap Z anode) (n : nat) (key : list Z) : Prop :=
  forall leaf nd, route h ps n root key leaf -> ps !! leaf = Some nd ->
    an_parent nd = IX_NO_PAGE \/ IxNode.get_min_rid_size h < zlen (an_keys nd).

Lemma is_root_ok nd b : nrep h nd b -> IxNode.is_root_page b = (Ok (an_parent nd =? IX_NO_PAGE), b).
Proof.
  intros Hr. unfold IxNode.is_root_page, IxNode.get_parent_page_no.
  rewrite (bind_ok _ _ _ _ _ (get_int_ok b off_parent (nr_page _ _ _ Hr) ltac:(unfold off_parent; lia))).
  by rewrite (nr_parent _ _ _ Hr).
Qed.

Lemma del_split {A} (l : list A) m x : l !! m = Some x -> l = take m l ++ x :: drop (Datatypes.S m) l /\ del m l = take m l ++ drop (Datatypes.S m) l.
Proof. intros Hx. split; [by rewrite take_drop_middle|done]. Qed.

(** what a deletion does to the entries: one is gone, or the key was not there *)
Definition deleted (ps ps' : gmap Z anode) (n : nat) (key : list Z) : Prop :=
  (exists l1 l2 k r, kv h k = kv h key /\ entries ps n root = l1 ++ (k, r) :: l2 /\ entries ps' n root = l1 ++ l2) \/
  (~ present ps n key /\ ps' = ps).

Lemma leaf_deleted s hd ps n key p s1 s' leaf nd b nd' s3 b' R :
  at_leaf h s hd ps n key p (s', hd) s1 s' leaf nd b -> sorted h (an_keys nd') -> nrep h nd' b' ->
  (exists m, holds_at h m (an_keys nd) key /\ nd' = set_pairs (del m (an_keys nd)) (del m (an_rids nd)) nd) \/
    (~ holds h (an_keys nd) key /\ nd' = nd) ->
  rest s1 (ps_npages s1) R (mkPageId (ix_fd_ hd) leaf) b' s3 -> 0 < R ->
  exists ps', irep h s3 hd ps' n /\ deleted ps ps' n key.
Proof.
  intros Ha Hs' Hrep' Hcase Hr HR. destruct (leaf_facts h Hc _ _ _ _ _ _ _ _ _ _ _ _ Ha) as (lo & hi & Hs & Hl & Hlen & _ & _ & He).
  pose proof Ha as [_ Hi1 _ _ Hnd _ _ _ _]. destruct Hcase as [(m & (k & Hm & Hk) & ->)|[Hno ->]].
  - pose proof (lookup_lt_Some _ _ _ Hm) as Hlt. destruct (lookup_lt_is_Some_2 (an_rids nd) m) as [r Hr']; [lia|].
    destruct (leaf_replaced s hd ps n key p s1 s' leaf nd b (del m (an_keys nd)) (del m (an_rids nd)) s3 b' R Ha Hs')
      as (Hi3 & pre & suf & E1 & E2); [rewrite !length_del by lia; lia|intros k' Hk'; right; by eapply elem_of_del|done|done|done|].
    eexists. split; [exact Hi3|]. left. assert (Hz : zip (an_keys nd) (an_rids nd) !! m = Some (k, r)) by (by rewrite lookup_zip_with, Hm, Hr').
    destruct (del_split _ _ _ Hz) as [Hz1 Hz2]. rewrite zip_del, Hz2 in E2 by lia. rewrite Hz1 in E1.
    eexists (pre ++ take m _), (drop (Datatypes.S m) _ ++ suf), k, r. split; [done|]. rewrite E1, E2. by rewrite <- !app_assoc.
  - exists ps. split; [by eapply (irep_same h s1)|]. right. split; [|done]. intros Hx. apply Hno.
    by apply (fresh_in_leaf ps n leaf nd key Hnd Hlen He).
Qed.

Lemma delete_entry_runs s hd ps n key fuel :
  irep h s hd ps n -> (n <= fuel)%nat -> key_good h key -> no_underflow ps n key ->
  runs (Ix.delete_entry fuel key) (s, hd) (fun _ t => exists s' ps', t = (s', hd) /\ irep h s' hd ps' n /\ deleted ps ps' n key).
Proof.
  intros Hi Hf Hk Hun. unfold Ix.delete_entry. eapply runs_bind; [by apply (find_leaf_runs h Hg Hc s hd ps n)|].
  intros p t (s1 & s' & leaf & nd & b & Ha). destruct (leaf_facts h Hc _ _ _ _ _ _ _ _ _ _ _ _ Ha) as (lo & hi & Hs & Hl & Hlen & _ & _ & _).
  pose proof (al_state _ _ _ _ _ _ _ _ _ _ _ _ _ Ha) as ->. pose proof Ha as [_ Hi1 _ Hrt Hnd Hrep Hw Hcl _].
  pose proof (ir_hdr _ _ _ _ _ Hi1) as Hh. pose proof (ir_room _ _ _ _ _ Hi1). specialize (Hun leaf nd Hrt Hnd).
  destruct (remove_ok h Hg Hc nd b key Hrep Hl Hs Hk) as (b' & nd' & E & Hrep' & Hs' & Hcase).
  assert (Hnd' : an_parent nd' = an_parent nd /\ an_leaf nd' = true /\ zlen (an_keys nd) - 1 <= zlen (an_keys nd')).
  { destruct Hcase as [(m & (k & Hm & _) & ->)|[_ ->]]; (split; [done|]); (split; [done|]); simpl; [|lia].
    unfold zlen. rewrite length_del by (by apply lookup_lt_Some in Hm). lia. }
  destruct Hnd' as (Hpar & Hl' & Hn'). eapply node_write; [exact Hw|by rewrite Hh|apply Hrep'|]. intros s2 Hw2.
  eapply node_read; [exact Hw2|exact (is_root_ok nd' b' Hrep')|].
  eapply node_read; [exact Hw2|rewrite Hh; exact (min_key_size_ok nd' b' Hrep' Hl')|].
  assert (Hcond : negb (an_parent nd' =? IX_NO_PAGE) && (zlen (an_keys nd') <? IxNode.get_min_rid_size h) = false).
  { rewrite Hpar. destruct Hun as [->|Hun]; [done|]. rewrite (proj2 (Z.ltb_ge _ _)) by lia. apply andb_false_r. }
  rewrite Hcond. eapply node_release; [exact Hw2|done|]. intros s3 Hr3. replace (ps_room s1 - 1 + 1) with (ps_room s1) in Hr3 by lia.
  apply runs_ret. destruct (leaf_deleted s hd ps n key p s1 s' leaf nd b nd' s3 b' _ Ha Hs' Hrep' Hcase Hr3) as (ps' & Hi3 & Hdel); [lia|].
  by exists s3, ps'.
Qed.

(** *** Lookups afterwards *)

Lemma get_value_present s hd ps n key k r fuel :
  irep h s hd ps n -> (n <= fuel)%nat -> key_good h key -> (k, r) ∈ entries ps n root -> kv h k = kv h key ->
  exists t, Ix.get_value fuel key (s, hd) = (Ok (true, [r]), t).
Proof.
  intros Hi Hf Hk Hin Heq. destruct (get_value_runs h Hg Hc s hd ps n key fuel Hk Hi Hf) as ([ok l] & t & E & s' & -> & _ & H1 & H2 & H3).
  cbn [fst snd] in *. assert (Hr : r ∈ l) by (apply H3; eauto). destruct l as [|x [|y l]]; [by apply not_elem_of_nil in Hr| |simpl in H2; lia].
  apply list_elem_of_singleton in Hr as ->. rewrite bool_decide_false in H1 by done. subst ok. eauto.
Qed.

Lemma get_value_absent s hd ps n key fuel :
  irep h s hd ps n -> (n <= fuel)%nat -> key_good h key -> ~ present ps n key ->
  exists t, Ix.get_value fuel key (s, hd) = (Ok (false, []), t).
Proof.
  intros Hi Hf Hk Hno. destruct (get_value_runs h Hg Hc s hd ps n key fuel Hk Hi Hf) as ([ok l] & t & E & s' & -> & _ & H1 & H2 & H3).
  cbn [fst snd] in *. destruct l as [|x l]; [rewrite bool_decide_true in H1 by done; subst ok; eauto|].
  destruct Hno. destruct (proj1 (H3 x) ltac:(constructor)) as (k & ? & ?). by exists k, x.
Qed.

(** the values of a key occur once *)
Lemma ordered_unique l1 l2 k r k' r' :
  ordered h (l1 ++ (k, r) :: l2) -> (k', r') ∈ l1 ++ l2 -> kv h k' <> kv h k.
Proof.
  intros Ho Hin Heq. assert (Hirr : forall a b, kv h a = kv h b -> ~ klt h a b) by (intros a b E Hl; unfold klt in Hl; by rewrite E, IxKey.lex_refl in Hl).
  assert (Hk : (l1 ++ (k, r) :: l2) !! length l1 = Some (k, r)) by (by rewrite lookup_app_r, Nat.sub_diag by lia).
  apply elem_of_app in Hin as [Hin|Hin]; apply list_elem_of_lookup in Hin as [i Hi].
  - apply (Hirr _ _ Heq). pose proof (lookup_lt_Some _ _ _ Hi). apply (Ho i (length l1) (k', r') (k, r)); [lia|by rewrite lookup_app_l|done].
  - symmetry in Heq. apply (Hirr _ _ Heq). apply (Ho (length l1) (length l1 + Datatypes.S i)%nat (k, r) (k', r')); [lia|done|].
    rewrite lookup_app_r by lia. by replace (length l1 + Datatypes.S i - length l1)%nat with (Datatypes.S i) by lia.
Qed.

Lemma deleted_absent s hd ps ps' n key : irep h s hd ps n -> deleted ps ps' n key -> ~ present ps' n key.
Proof.
  intros Hi [(l1 & l2 & k & r & Hk & E1 & E2)|[Hno ->]]; [|done]. intros (k' & r' & Hin & Hk').
  pose proof (entries_ordered h Hc _ _ _ _ _ (ir_tree _ _ _ _ _ Hi)) as Ho. rewrite E1 in Ho. rewrite E2 in Hin.
  apply (ordered_unique _ _ _ _ _ _ Ho Hin). congruence.
Qed.
End ops.
End IxP.
Import IxP.

(** ** A concrete index *)

(** a new page with given contents *)
Lemma put_page_framed {S} {PS : PageStore S} {PL : PageStoreLaws S} (C : S -> Prop) (HC : RmP.framed C) s g b : ps_inv s -> ps_file s g -> 0 <= ps_npages s g < 2 ^ 19 -> 0 < ps_room s -> zlen b = PAGE_SIZE -> C s ->
  exists s', ps_inv s' /\ ps_others (mkPageId g (ps_npages s g)) s s' /\ ps_page s' (mkPageId g (ps_npages s g)) b /\ ps_pins s' (mkPageId g (ps_npages s g)) = 0 /\ ps_room s' = ps_room s /\
    (forall f, ps_npages s' f = if decide (f = g) then ps_npages s g + 1 else ps_npages s f) /\ (forall f, ps_file s f -> ps_file s' f) /\ C s'.
Proof.
  intros Hi Hf Hn Hroom Hlen HCs.
  destruct (ps_new s g Hi Hf Hn Hroom) as (r1 & s1 & E1 & p & -> & I1 & O1 & P1 & H1 & N1 & R1 & K1 & F1).
  destruct (ps_write s1 p _ _ 0 b I1 H1 P1) as ([] & s2 & E2 & I2 & O2 & P2 & H2 & N2 & R2 & K2 & F2); [by rewrite Hlen|].
  rewrite splice_all in P2 by (by rewrite Hlen).
  destruct (ps_unpin s2 _ _ true I2 P2) as (r3 & s3 & E3 & -> & I3 & O3 & P3 & N3 & R3 & _ & _ & K3 & F3); [lia|done|]. rewrite N2, N1 in *.
  exists s3. split; [done|]. split; [eapply RmP.others_trans; [exact O1|]; by eapply RmP.others_trans|]. split; [done|]. split; [done|]. split; [simpl in R3; lia|].
  split; [intros f; by rewrite K3, K2, K1|]. split; [auto|]. eapply (RmP.fr_unpin _ HC), (RmP.fr_write _ HC), (RmP.fr_new _ HC); [exact E3|exact E2|exact E1|done].
Qed.
Lemma put_page {S} {PS : PageStore S} {PL : PageStoreLaws S} s g b : ps_inv s -> ps_file s g -> 0 <= ps_npages s g < 2 ^ 19 -> 0 < ps_room s -> zlen b = PAGE_SIZE ->
  exists s', ps_inv s' /\ ps_others (mkPageId g (ps_npages s g)) s s' /\ ps_page s' (mkPageId g (ps_npages s g)) b /\ ps_pins s' (mkPageId g (ps_npages s g)) = 0 /\ ps_room s' = ps_room s /\
    (forall f, ps_npages s' f = if decide (f = g) then ps_npages s g + 1 else ps_npages s f) /\ (forall f, ps_file s f -> ps_file s' f).
Proof.
  intros Hi Hf Hn Hr Hl. destruct (put_page_framed any any_framed s g b Hi Hf Hn Hr Hl I) as (s' & H1 & H2 & H3 & H4 & H5 & H6 & H7 & _). by exists s'.
Qed.

(** a file whose root page holds a leaf *)
Lemma irep_leaf {S} {PS : PageStore S} {PL : PageStoreLaws S} s (h : IxFileHdr) g nd b :
  ps_inv s -> ps_page s (mkPageId g (root_page_ h)) b -> ps_pins s (mkPageId g (root_page_ h)) = 0 -> 0 < ps_room s ->
  nrep h nd b -> an_leaf nd = true -> sorted h (an_keys nd) -> IxT.irep h s (mkIxIndexHandle g h) {[root_page_ h := nd]} 0.
Proof.
  intros Hi Hb Hp Hroom Hr Hl Hs. pose proof (nr_len _ _ _ Hr) as Hk. rewrite Hl in Hk. split; simpl; try done.
  - intros i nd'. rewrite lookup_singleton_Some. intros [<- <-]. by exists b.
  - exists nd. rewrite lookup_singleton_eq. split_and!; try done.
  - apply NoDup_singleton.
Qed.
Lemma irep_root {S} {PS : PageStore S} {PL : PageStoreLaws S} s (h : IxFileHdr) g nd b :
  ps_inv s -> ps_file s g -> ps_npages s g = root_page_ h -> 0 <= root_page_ h < 2 ^ 19 -> 0 < ps_room s ->
  nrep h nd b -> an_leaf nd = true -> sorted h (an_keys nd) ->
  exists s', IxT.irep h s' (mkIxIndexHandle g h) {[root_page_ h := nd]} 0.
Proof.
  intros Hi Hf Hn Hb Hroom Hr Hl Hs. destruct (put_page s g b Hi Hf ltac:(by rewrite Hn) Hroom (nr_page _ _ _ Hr)) as (s' & I1 & _ & P1 & N1 & R1 & _).
  rewrite Hn in *. exists s'. eapply irep_leaf; try done. lia.
Qed.

(** an index on one integer column, as [ix_manager.h] lays it out, with the key 5 *)
Definition demo_ix : IxFileHdr := mkIxFileHdr IX_NO_PAGE 2 1 1 [TYPE_INT] [4] 4 338 1356 1 1 48.
Definition demo_node : anode := mkANode IX_NO_PAGE true IX_NO_PAGE IX_NO_PAGE [enc_i32 5] [mkRid 3 2].
Definition demo_page : list Z :=
  splice 1380 (Log.enc_Rid (mkRid 3 2)) (splice 24 (enc_i32 5)
    (splice 0 (enc_i32 IX_NO_PAGE ++ enc_i32 IX_NO_PAGE ++ enc_i32 1 ++ enc_i32 1 ++ enc_i32 IX_NO_PAGE ++ enc_i32 IX_NO_PAGE) (zeros PAGE_SIZE))).

Lemma demo_geo : geo demo_ix.
Proof. by split. Qed.
Lemma demo_cols : cols demo_ix.
Proof. split; [|done|done]. constructor; [|constructor]. split; [done|]. split; [done|by right]. Qed.

Lemma demo_key v : key_good demo_ix (enc_i32 v).
Proof.
  split; [by rewrite zlen_enc_i32|]. split; [apply enc_i32_ok|]. simpl. rewrite zlen_enc_i32. done.
Qed.

Lemma demo_nrep : nrep demo_ix demo_node demo_page.
Proof.
  split.
  1-6: vm_compute; reflexivity.
  - intros i k Hi. destruct i; [|done]. injection Hi as <-. vm_compute. reflexivity.
  - intros i k Hi. destruct i; [|done]. injection Hi as <-. vm_compute. reflexivity.
  - vm_compute. discriminate.
  - done.
Qed.


Lemma demo_sorted : sorted demo_ix (an_keys demo_node).
Proof.
  split; [constructor; [apply demo_key|constructor]|]. intros i j a b Hij Ha Hb. apply lookup_lt_Some in Hb. simpl in Hb. lia.
Qed.

Definition demo_tree : gmap Z anode := {[1 := demo_node]}.
Definition demo_ix_handle : IxIndexHandle := mkIxIndexHandle 3 demo_ix.

Lemma demo_irep : exists s : Store, irep demo_ix s demo_ix_handle demo_tree 0.
Proof.
  apply (irep_root demo_rm_store demo_ix 3 demo_node demo_page); try done.
  - apply (RmP.rp_inv _ _ _ _ _ demo_rm_rep).
  - apply (RmP.rp_file _ _ _ _ _ demo_rm_rep).
  - apply demo_nrep.
  - apply demo_sorted.
Qed.

Lemma demo_entries : entries demo_tree 0 (root_page_ demo_ix) = [(enc_i32 5, mkRid 3 2)].
Proof. done. Qed.

Lemma demo_absent : ~ present demo_ix demo_tree 0 (enc_i32 9).
Proof.
  intros (k & r & Hin & Hk). rewrite demo_entries in Hin. apply list_elem_of_singleton in Hin. injection Hin as -> ->.
  vm_compute in Hk. discriminate.
Qed.

Lemma demo_present : present demo_ix demo_tree 0 (enc_i32 5).
Proof. exists (enc_i32 5), (mkRid 3 2). split; [|done]. rewrite demo_entries. by apply list_elem_of_singleton. Qed.

Lemma demo_leaf leaf nd key : route demo_ix demo_tree 0 (root_page_ demo_ix) key leaf -> demo_tree !! leaf = Some nd -> nd = demo_node.
Proof. intros -> Hl. by injection Hl as <-. Qed.

(** ** Properties *)

Section props.
Context {S : Type} {PS : PageStore S} {PL : PageStoreLaws S}.
Context (h : IxFileHdr) (Hg : geo h) (Hc : cols h).

(** C12: looking a key up ([IxIndexHandle::get_value]) in a well-formed tree of any
    height terminates within a fuel of the height, returns true exactly when the
    tree has an entry with that key, returns the rid of that entry alone, leaves
    the tree as it was, and unpins every page it visited. *)
Theorem ix_lookup_correct s hd ps n key fuel :
  irep h s hd ps n -> (n <= fuel)%nat -> key_good h key ->
  exists ok rids s', Ix.get_value fuel key (s, hd) = (Ok (ok, rids), (s', hd)) /\ irep h s' hd ps n /\
    (ok = true <-> present h ps n key) /\ (length rids <= 1)%nat /\
    (forall r, r ∈ rids <-> exists k, (k, r) ∈ entries ps n (root_page_ h) /\ kv h k = kv h key).
Proof.
  intros Hi Hf Hk. destruct (get_value_runs h Hg Hc s hd ps n key fuel Hk Hi Hf) as ([ok l] & t & E & s' & -> & Hi' & H1 & H2 & H3).
  cbn [fst snd] in *. exists ok, l, s'. split_and!; try done. subst ok. destruct l as [|r l].
  - rewrite bool_decide_true by done. split; [done|]. intros (k & r & Hin). pose proof (proj2 (H3 r) (ex_intro _ k Hin)) as Hr. by apply not_elem_of_nil in Hr.
  - rewrite bool_decide_false by done. split; [intros _|done]. destruct (proj1 (H3 r) ltac:(constructor)) as (k & ? & ?). by exists k, r.
Qed.

(** inserting a key that is not in the tree, into a leaf with room, adds exactly
    the new entry: the entries keep their order, the tree stays well formed with the
    same height, all pages are unpinned, and a lookup of the key finds the new rid. *)
Theorem ix_insert_correct s hd ps n key r fuel :
  irep h s hd ps n -> (n <= fuel)%nat -> key_good h key -> Log.rid_ok r -> ~ present h ps n key -> has_room h ps n key ->
  exists pn s' ps' l1 l2 t, Ix.insert_entry fuel key r (s, hd) = (Ok pn, (s', hd)) /\ irep h s' hd ps' n /\
    entries ps n (root_page_ h) = l1 ++ l2 /\ entries ps' n (root_page_ h) = l1 ++ (key, r) :: l2 /\
    ordered h (entries ps' n (root_page_ h)) /\ Ix.get_value fuel key (s', hd) = (Ok (true, [r]), t).
Proof.
  intros Hi Hf Hk Hr Hno Hroom.
  destruct (insert_entry_runs h Hg Hc s hd ps n key r fuel Hi Hf Hk Hr Hno Hroom) as (pn & t & E & s' & ps' & l1 & l2 & -> & Hi' & E1 & E2).
  destruct (get_value_present h Hg Hc s' hd ps' n key key r fuel Hi' Hf Hk) as [t Et]; [|done|].
  - rewrite E2. apply elem_of_app. right. constructor.
  - exists pn, s', ps', l1, l2, t. split_and!; try done. eapply (entries_ordered h Hc), Hi'.
Qed.

(** inserting a key the tree has already throws [IndexEntryNotUniqueError]; the
    tree is unchanged and the leaf is unpinned before the exception leaves. *)
Theorem ix_insert_duplicate_refused s hd ps n key r fuel :
  irep h s hd ps n -> (n <= fuel)%nat -> key_good h key -> present h ps n key ->
  exists s', Ix.insert_entry fuel key r (s, hd) = (Throw IndexEntryNotUniqueError, (s', hd)) /\ irep h s' hd ps n.
Proof.
  intros Hi Hf Hk Hp. destruct (insert_entry_dup h Hg Hc s hd ps n key r fuel Hi Hf Hk Hp) as (t & E & s' & -> & Hi'). eauto.
Qed.

(** C14: deleting a key, when its leaf is the root or keeps enough pairs, removes the
    entry with that key and no other, or changes nothing when there is none; the tree
    stays well formed and a lookup of the key finds nothing afterwards. *)
Theorem ix_delete_correct s hd ps n key fuel :
  irep h s hd ps n -> (n <= fuel)%nat -> key_good h key -> no_underflow h ps n key ->
  exists res s' ps' t, Ix.delete_entry fuel key (s, hd) = (Ok res, (s', hd)) /\ irep h s' hd ps' n /\
    deleted h ps ps' n key /\ Ix.get_value fuel key (s', hd) = (Ok (false, []), t).
Proof.
  intros Hi Hf Hk Hu. destruct (delete_entry_runs h Hg Hc s hd ps n key fuel Hi Hf Hk Hu) as (res & t & E & s' & ps' & -> & Hi' & Hd).
  destruct (get_value_absent h Hg Hc s' hd ps' n key fuel Hi' Hf Hk) as [t Et]; [by eapply (deleted_absent h Hc s)|].
  exists res, s', ps', t. done.
Qed.
End props.

Lemma ix_lookup_correct_witness : exists (s : Store) ok rids s',
  Ix.get_value 3 (enc_i32 5) (s, demo_ix_handle) = (Ok (ok, rids), (s', demo_ix_handle)) /\ mkRid 3 2 ∈ rids.
Proof.
  destruct demo_irep as [s Hi]. exists s.
  destruct (ix_lookup_correct demo_ix demo_geo demo_cols s demo_ix_handle demo_tree 0 (enc_i32 5) 3 Hi) as (ok & rids & s' & E & _ & _ & _ & H);
    [lia|apply demo_key|].
  exists ok, rids, s'. split; [done|]. apply H. exists (enc_i32 5). split; [|done]. rewrite demo_entries. by apply list_elem_of_singleton.
Defined.

Lemma ix_insert_correct_witness : exists (s s' : Store) pn ps' t,
  Ix.insert_entry 3 (enc_i32 9) (mkRid 4 1) (s, demo_ix_handle) = (Ok pn, (s', demo_ix_handle)) /\
  irep demo_ix s' demo_ix_handle ps' 0 /\ Ix.get_value 3 (enc_i32 9) (s', demo_ix_handle) = (Ok (true, [mkRid 4 1]), t).
Proof.
  destruct demo_irep as [s Hi]. exists s.
  destruct (ix_insert_correct demo_ix demo_geo demo_cols s demo_ix_handle demo_tree 0 (enc_i32 9) (mkRid 4 1) 3 Hi)
    as (pn & s' & ps' & l1 & l2 & t & E & Hi' & _ & _ & _ & Et).
  - lia.
  - apply demo_key.
  - by vm_compute.
  - apply demo_absent.
  - intros leaf nd Hr Hl. by rewrite (demo_leaf leaf nd _ Hr Hl).
  - by exists s', pn, ps', t.
Defined.

Lemma ix_insert_duplicate_refused_witness : exists s s' : Store,
  Ix.insert_entry 3 (enc_i32 5) (mkRid 4 1) (s, demo_ix_handle) = (Throw IndexEntryNotUniqueError, (s', demo_ix_handle)).
Proof.
  destruct demo_irep as [s Hi]. exists s.
  destruct (ix_insert_duplicate_refused demo_ix demo_geo demo_cols s demo_ix_handle demo_tree 0 (enc_i32 5) (mkRid 4 1) 3 Hi) as (s' & E & _);
    [lia|apply demo_key|apply demo_present|].
  by exists s'.
Defined.

Lemma ix_delete_correct_witness : exists (s s' : Store) res t,
  Ix.delete_entry 3 (enc_i32 5) (s, demo_ix_handle) = (Ok res, (s', demo_ix_handle)) /\
  Ix.get_value 3 (enc_i32 5) (s', demo_ix_handle) = (Ok (false, []), t).
Proof.
  destruct demo_irep as [s Hi]. exists s.
  destruct (ix_delete_correct demo_ix demo_geo demo_cols s demo_ix_handle demo_tree 0 (enc_i32 5) 3 Hi) as (res & s' & ps' & t & E & _ & _ & Et).
  - lia.
  - apply demo_key.
  - intros leaf nd Hr Hl. rewrite (demo_leaf leaf nd _ Hr Hl). by left.
  - by exists s', res, t.
Defined.
