(* ===== verification/Lock.v ===== *)
(** The lock manager: [LockManager] of
    [src/src/transaction/concurrency/lock_manager.cpp] and [lock_manager.h], and
    [TransactionManager::release_locks].

    The state is the lock table and the transaction objects; a [Transaction]
    pointer is the id of the transaction, which [begin] hands out once.  The calls
    hold [latch_] while they work on the table ([lock_IS_on_table] and
    [lock_IX_on_table] are called with it held), so an interleaving of threads is
    a sequence of calls.  The fields [cv_], [num] and [curr] of a queue are never
    used and are left out. *)

From S2P Require Import Prelude Bytes Errors Disk Defs.

(** [enum class LockMode] *)
Module LockMode.
Inductive t := S | X | IS | IX | SIX.
#[global] Instance eq_dec : EqDecision t.
Proof. solve_decision. Defined.
End LockMode.

Record LockRequest := mkLockRequest { req_txn_id : Z; lock_mode_ : LockMode.t; granted_ : bool }.
Record LockManager := mkLockManager {
  lock_table_ : gmap LockDataId (list LockRequest);
  txns : gmap Z Transaction;
}.

Module Lk.
Local Open Scope prog_scope.
Abbreviation LockP := (Prog LockManager).

Definition set_table (f : gmap LockDataId (list LockRequest) -> gmap LockDataId (list LockRequest)) (s : LockManager) : LockManager :=
  mkLockManager (f (lock_table_ s)) (txns s).
Definition set_txn (p : Z) (f : Transaction -> Transaction) (s : LockManager) : LockManager :=
  mkLockManager (lock_table_ s) (alter f p (txns s)).

Definition txn (p : Z) : LockP Transaction := let* o := gets (fun s => txns s !! p) in deref o.
Definition get_state (p : Z) : LockP TransactionState := let* t := txn p in ret (state_ t).
Definition get_transaction_id (p : Z) : LockP Z := let* t := txn p in ret (txn_id_ t).
Definition put_state (p : Z) (st : TransactionState) : LockP unit := let* _ := txn p in modify (set_txn p (set_state st)).

(** [auto& rwlock = lock_table_[lock_data_id]]: an absent queue is created *)
Definition queue (id : LockDataId) : LockP (list LockRequest) :=
  modify (set_table (fun m => <[id := default [] (m !! id)]> m));;
  gets (fun s => default [] (lock_table_ s !! id)).

(** the check every request starts with *)
Definition growing (p : Z) : LockP unit :=
  let* st := get_state p in
  (if bool_decide (st = SHRINKING) then
     put_state p ABORTED;;
     let* id := get_transaction_id p in
     throw (TransactionAbortException id LOCK_ON_SHIRINKING)
   else ret tt);;
  put_state p GROWING.

(** [request_queue_.push_back({txn_id, mode}); get_lock_set()->insert(id)] *)
Definition grant (p : Z) (id : LockDataId) (mode : LockMode.t) : LockP unit :=
  let* me := get_transaction_id p in
  modify (set_table (alter (fun q => q ++ [mkLockRequest me mode false]) id));;
  modify (set_txn p (set_lock_set (fun l => {[id]} ∪ l))).

(** the loop of the table locks: a request of another transaction in a mode of [bad] *)
Fixpoint conflict (bad : LockMode.t -> bool) (me : Z) (q : list LockRequest) : bool :=
  match q with
  | [] => false
  | r :: q => if bad (lock_mode_ r) then if negb (req_txn_id r =? me) then true else conflict bad me q else conflict bad me q
  end.

(** the common body of the table locks *)
Definition lock_table (bad : LockMode.t -> bool) (mode : LockMode.t) (p tab_fd : Z) : LockP bool :=
  growing p;;
  let id := table_lock_id tab_fd in
  let* q := queue id in
  let* me := get_transaction_id p in
  if conflict bad me q then ret false
  else grant p id mode;; ret true.

Definition is_mode (l : list LockMode.t) (m : LockMode.t) : bool := bool_decide (m ∈ l).

Definition lock_shared_on_table : Z -> Z -> LockP bool := lock_table (is_mode [LockMode.IX; LockMode.SIX; LockMode.X]) LockMode.S.
Definition lock_exclusive_on_table : Z -> Z -> LockP bool := lock_table (fun _ => true) LockMode.X.
Definition lock_IS_on_table : Z -> Z -> LockP bool := lock_table (is_mode [LockMode.X]) LockMode.IS.
Definition lock_IX_on_table : Z -> Z -> LockP bool := lock_table (is_mode [LockMode.S; LockMode.SIX; LockMode.X]) LockMode.IX.
Definition lock_SIX_on_table : Z -> Z -> LockP bool :=
  lock_table (is_mode [LockMode.IX; LockMode.S; LockMode.SIX; LockMode.X]) LockMode.SIX.

(** the loop of [lock_shared_on_record]: [Some b] is [return b] *)
Fixpoint scan_shared (me : Z) (q : list LockRequest) : LockP (option bool) :=
  match q with
  | [] => ret None
  | r :: q =>
      assert (is_mode [LockMode.S; LockMode.X] (lock_mode_ r));;
      if bool_decide (lock_mode_ r = LockMode.X) then ret (Some (req_txn_id r =? me)) else scan_shared me q
  end.

Definition lock_shared_on_record (p : Z) (rid : Rid) (tab_fd : Z) : LockP bool :=
  let* st := get_state p in
  if bool_decide (st = ABORTED) then ret false
  else
    growing p;;
    let id := record_lock_id tab_fd rid in
    let* _ := queue id in
    let* ok := lock_IS_on_table p tab_fd in
    if negb ok then ret false
    else
      let* q := queue id in
      let* me := get_transaction_id p in
      let* r := scan_shared me q in
      match r with
      | Some b => ret b
      | None => grant p id LockMode.S;; ret true
      end.

(** the loop of [lock_exclusive_on_record] *)
Fixpoint scan_exclusive (me : Z) (q : list LockRequest) : LockP bool :=
  match q with
  | [] => ret true
  | r :: q =>
      assert (is_mode [LockMode.S; LockMode.X] (lock_mode_ r));;
      if negb (req_txn_id r =? me) then ret false else scan_exclusive me q
  end.

Definition lock_exclusive_on_record (p : Z) (rid : Rid) (tab_fd : Z) : LockP bool :=
  growing p;;
  let id := record_lock_id tab_fd rid in
  let* _ := queue id in
  let* ok := lock_IX_on_table p tab_fd in
  if negb ok then ret false
  else
    let* q := queue id in
    let* me := get_transaction_id p in
    let* free := scan_exclusive me q in
    if negb free then ret false
    else grant p id LockMode.X;; ret true.

(** the loop of [unlock] *)
Fixpoint drop_requests (me : Z) (q : list LockRequest) : list LockRequest :=
  match q with
  | [] => []
  | r :: q => if req_txn_id r =? me then drop_requests me q else r :: drop_requests me q
  end.

Definition unlock (p : Z) (id : LockDataId) : LockP bool :=
  let* st := get_state p in
  (if bool_decide (st = GROWING) then put_state p SHRINKING else ret tt);;
  let* q := queue id in
  let* me := get_transaction_id p in
  modify (set_table (<[id := drop_requests me q]>));;
  (match drop_requests me q with
   | [] => modify (set_table (delete id))
   | _ => ret tt
   end);;
  ret true.

(** [TransactionManager::release_locks] *)
Definition release_locks (p : Z) : LockP unit :=
  let* t := txn p in
  for_each (elements (lock_set_ t)) (fun id => let* _ := unlock p id in ret tt);;
  modify (set_txn p (set_lock_set (fun _ => ∅))).

(** ** Calls *)

Inductive call :=
  | SharedRecord (p : Z) (rid : Rid) (fd : Z)
  | ExclusiveRecord (p : Z) (rid : Rid) (fd : Z)
  | SharedTable (p fd : Z)
  | ExclusiveTable (p fd : Z)
  | ISTable (p fd : Z)
  | IXTable (p fd : Z)
  | SIXTable (p fd : Z)
  | Unlock (p : Z) (id : LockDataId)
  | Release (p : Z).

Definition caller (c : call) : Z :=
  match c with
  | SharedRecord p _ _ | ExclusiveRecord p _ _ | SharedTable p _ | ExclusiveTable p _ | ISTable p _ | IXTable p _
  | SIXTable p _ | Unlock p _ | Release p => p
  end.

Definition exec (c : call) : LockP bool :=
  match c with
  | SharedRecord p rid fd => lock_shared_on_record p rid fd
  | ExclusiveRecord p rid fd => lock_exclusive_on_record p rid fd
  | SharedTable p fd => lock_shared_on_table p fd
  | ExclusiveTable p fd => lock_exclusive_on_table p fd
  | ISTable p fd => lock_IS_on_table p fd
  | IXTable p fd => lock_IX_on_table p fd
  | SIXTable p fd => lock_SIX_on_table p fd
  | Unlock p id => unlock p id
  | Release p => release_locks p;; ret true
  end.

(** the calls of all threads in the order they took the latch; a caller that got
    an exception goes on *)
Fixpoint run (l : list call) (s : LockManager) : LockManager :=
  match l with [] => s | c :: l => run l (exec c s).2 end.
End Lk.

(** ** The compatibility matrix of the lock modes *)

Definition compatible (a b : LockMode.t) : bool :=
  match a, b with
  | LockMode.IS, LockMode.X | LockMode.X, LockMode.IS => false
  | LockMode.IS, _ | _, LockMode.IS => true
  | LockMode.IX, LockMode.IX => true
  | LockMode.S, LockMode.S => true
  | _, _ => false
  end.

Lemma compatible_sym a b : compatible a b = compatible b a.
Proof. by destruct a, b. Qed.

Module LkP.
Import Lk.
Local Open Scope prog_scope.

(** ** The invariant *)

Record linv (s : LockManager) : Prop := {
  li_ids : forall p t, txns s !! p = Some t -> txn_id_ t = p;
  li_compat : forall id q a b, lock_table_ s !! id = Some q -> a ∈ q -> b ∈ q -> req_txn_id a <> req_txn_id b ->
    compatible (lock_mode_ a) (lock_mode_ b) = true;
  li_record : forall id q a, lock_table_ s !! id = Some q -> lock_type id = RECORD -> a ∈ q -> is_mode [LockMode.S; LockMode.X] (lock_mode_ a) = true;
  li_held : forall id q a, lock_table_ s !! id = Some q -> a ∈ q -> exists t, txns s !! req_txn_id a = Some t /\ id ∈ lock_set_ t;
}.

(** an outcome that is not a failure, in a state that keeps the invariant *)
Definition safe {A} (s : LockManager) (o : outcome error A * LockManager) (Q : A -> LockManager -> Prop) : Prop :=
  linv o.2 /\ dom (txns o.2) = dom (txns s) /\
  match o.1 with Ok a => Q a o.2 | Throw _ => True | Fail _ => False end.

Lemma safe_bind {A B} (m : LockP A) (k : A -> LockP B) s Q R :
  safe s (m s) Q -> (forall a s', linv s' -> dom (txns s') = dom (txns s) -> Q a s' -> safe s' (k a s') R) -> safe s (bind m k s) R.
Proof.
  unfold safe, bind. destruct (m s) as [[a|e|f] s']; simpl; [|tauto|tauto]. intros (Hi & Hd & HQ) Hk.
  destruct (Hk a s' Hi Hd HQ) as (? & ? & ?). split; [done|]. split; [congruence|done].
Qed.

Lemma safe_ret {A} (a : A) s (Q : A -> LockManager -> Prop) : linv s -> Q a s -> safe s (ret a s) Q.
Proof. done. Qed.

Lemma safe_conseq {A} s (o : outcome error A * LockManager) (Q R : A -> LockManager -> Prop) :
  safe s o Q -> (forall a, Q a o.2 -> R a o.2) -> safe s o R.
Proof. unfold safe. destruct o as [[a|e|f] s']; simpl; firstorder. Qed.

(** a change of a transaction that keeps its id and does not drop locks *)
Lemma linv_set_txn p f s :
  (forall t, txn_id_ (f t) = txn_id_ t) -> (forall t, lock_set_ t ⊆ lock_set_ (f t)) -> linv s -> linv (set_txn p f s).
Proof.
  intros Hid Hls [H1 H2 H3 H4]. split; try done.
  - intros p' t. simpl. destruct (decide (p = p')) as [<-|Hne]; [|rewrite lookup_alter_ne by done; apply H1].
    rewrite lookup_alter_eq. destruct (txns s !! p) as [t0|] eqn:E; [|done]. intros [= <-]. rewrite Hid. by apply H1.
  - intros id q a Hq Ha. destruct (H4 id q a Hq Ha) as (t & Ht & Hin). simpl.
    destruct (decide (p = req_txn_id a)) as [->|Hne]; [|rewrite lookup_alter_ne by done; eauto].
    exists (f t). split; [by rewrite lookup_alter_eq, Ht|by apply Hls].
Qed.

Lemma safe_txn {B} p (k : Transaction -> LockP B) s Q :
  linv s -> p ∈ dom (txns s) -> (forall t, txns s !! p = Some t -> txn_id_ t = p -> safe s (k t s) Q) -> safe s (bind (txn p) k s) Q.
Proof.
  intros Hi Hp Hk. apply elem_of_dom in Hp as [t Ht]. pose proof (li_ids s Hi p t Ht) as Hid.
  unfold txn, gets, bind, deref. rewrite Ht. by apply Hk.
Qed.

Lemma safe_id {B} p (k : Z -> LockP B) s Q :
  linv s -> p ∈ dom (txns s) -> safe s (k p s) Q -> safe s (bind (get_transaction_id p) k s) Q.
Proof.
  intros Hi Hp Hk. apply elem_of_dom in Hp as [t Ht]. pose proof (li_ids s Hi p t Ht) as Hid.
  unfold get_transaction_id, txn, gets, bind, deref, ret. rewrite Ht, Hid. done.
Qed.

Lemma dom_set_txn p f s : dom (txns (set_txn p f s)) = dom (txns s).
Proof. simpl. apply dom_alter_L. Qed.

Lemma put_state_eq p st s : p ∈ dom (txns s) -> put_state p st s = (Ok tt, set_txn p (set_state st) s).
Proof. intros Hp. apply elem_of_dom in Hp as [t Ht]. unfold put_state, txn, gets, bind, deref. by rewrite Ht. Qed.

Lemma linv_set_state p st s : linv s -> linv (set_txn p (set_state st) s).
Proof. by apply linv_set_txn. Qed.

(** ** The steps *)

Lemma growing_safe p s : linv s -> p ∈ dom (txns s) -> safe s (growing p s) (fun _ s' => lock_table_ s' = lock_table_ s).
Proof.
  intros Hi Hp. unfold growing, get_state. rewrite elem_of_dom in Hp. destruct Hp as [t Ht].
  assert (Hp : p ∈ dom (txns s)) by (by apply elem_of_dom_2 in Ht). unfold bind at 1. rewrite (bind_ok _ _ s t s) by (unfold txn, gets, bind, deref; by rewrite Ht).
  unfold ret at 1. case_bool_decide.
  - unfold bind at 1. unfold bind at 1. rewrite put_state_eq by done. unfold bind, get_transaction_id, txn, gets, deref, bind. simpl.
    rewrite lookup_alter_eq, Ht. simpl. split; [by apply linv_set_state|]. split; [apply dom_alter_L|done].
  - rewrite (bind_ok (ret tt) _ s tt s) by done. rewrite put_state_eq by done. split; [by apply linv_set_state|]. split; [apply dom_alter_L|done].
Qed.

Lemma queue_safe id s :
  linv s -> safe s (queue id s) (fun q s' => lock_table_ s' !! id = Some q /\ q = default [] (lock_table_ s !! id) /\
    txns s' = txns s /\ (forall j, j <> id -> lock_table_ s' !! j = lock_table_ s !! j)).
Proof.
  intros [H1 H2 H3 H4]. unfold queue, bind, modify, gets. simpl. split; [|split; [done|]].
  - assert (Hq : forall j q, <[id := default [] (lock_table_ s !! id)]> (lock_table_ s) !! j = Some q -> lock_table_ s !! j = Some q \/ q = []).
    { intros j q. rewrite lookup_insert. destruct (decide (id = j)) as [<-|]; [|by left]. intros [= <-].
      destruct (lock_table_ s !! id); [by left|by right]. }
    split; simpl; try done.
    + intros j q a b Hj Ha. destruct (Hq j q Hj) as [Hl| ->]; [by eapply H2|by apply not_elem_of_nil in Ha].
    + intros j q a Hj Ht Ha. destruct (Hq j q Hj) as [Hl| ->]; [by eapply H3|by apply not_elem_of_nil in Ha].
    + intros j q a Hj Ha. destruct (Hq j q Hj) as [Hl| ->]; [by eapply H4|by apply not_elem_of_nil in Ha].
  - simpl. rewrite lookup_insert_eq. split_and!; try done. intros j Hj. by rewrite lookup_insert_ne.
Qed.

Lemma grant_safe p id mode q s :
  linv s -> p ∈ dom (txns s) -> lock_table_ s !! id = Some q ->
  (forall r, r ∈ q -> req_txn_id r <> p -> compatible (lock_mode_ r) mode = true) ->
  (lock_type id = RECORD -> is_mode [LockMode.S; LockMode.X] mode = true) ->
  safe s (grant p id mode s) (fun _ s' => lock_table_ s' = <[id := q ++ [mkLockRequest p mode false]]> (lock_table_ s)).
Proof.
  intros Hi Hp Hq Hc Hm. unfold grant. apply safe_id; [done|done|]. unfold bind, modify. simpl. apply elem_of_dom in Hp as [t Ht].
  assert (Ha : alter (fun q => q ++ [mkLockRequest p mode false]) id (lock_table_ s) = <[id := q ++ [mkLockRequest p mode false]]> (lock_table_ s)).
  { apply map_eq. intros j. rewrite lookup_insert. destruct (decide (id = j)) as [<-|]; [by rewrite lookup_alter_eq, Hq|by rewrite lookup_alter_ne]. }
  split; [|split; [apply dom_alter_L|done]]. pose proof Hi as [H1 H2 H3 H4]. split; simpl; rewrite ?Ha.
  - intros p' t'. destruct (decide (p = p')) as [<-|Hne]; [|rewrite lookup_alter_ne by done; apply H1].
    rewrite lookup_alter_eq, Ht. intros [= <-]. simpl. by apply H1.
  - intros j q' a b. rewrite lookup_insert. destruct (decide (id = j)) as [<-|]; [|apply H2]. intros [= <-].
    rewrite !elem_of_app, !list_elem_of_singleton. intros [Ha'| ->] [Hb| ->] Hne; simpl in *; [by eapply H2| | |done].
    + by apply Hc.
    + rewrite compatible_sym. apply Hc; [done|congruence].
  - intros j q' a. rewrite lookup_insert. destruct (decide (id = j)) as [<-|]; [|apply H3]. intros [= <-] Hty.
    rewrite elem_of_app, list_elem_of_singleton. intros [Ha'| ->]; [by eapply H3|by apply Hm].
  - assert (Hold : forall j q' a, lock_table_ s !! j = Some q' -> a ∈ q' -> exists t0,
      alter (set_lock_set (fun l => {[id]} ∪ l)) p (txns s) !! req_txn_id a = Some t0 /\ j ∈ lock_set_ t0).
    { intros j q' a Hj Hain. destruct (H4 j q' a Hj Hain) as (t0 & Ht0 & Hin). destruct (decide (p = req_txn_id a)) as [->|Hne].
      - eexists. rewrite lookup_alter_eq, Ht0. split; [done|]. simpl. apply elem_of_union. by right.
      - exists t0. by rewrite lookup_alter_ne. }
    intros j q' a. rewrite lookup_insert. destruct (decide (id = j)) as [<-|]; [|apply Hold]. intros [= <-].
    rewrite elem_of_app, list_elem_of_singleton. intros [Ha'| ->]; [by eapply Hold|]. simpl.
    eexists. rewrite lookup_alter_eq, Ht. split; [done|]. simpl. apply elem_of_union. left. by apply elem_of_singleton.
Qed.

(** ** Requests *)

(** the requests other transactions have for an object are compatible with a mode *)
Definition free_for (s : LockManager) (p : Z) (id : LockDataId) (mode : LockMode.t) : Prop :=
  forall q r, lock_table_ s !! id = Some q -> r ∈ q -> req_txn_id r <> p -> compatible (lock_mode_ r) mode = true.

Definition exact (bad : LockMode.t -> bool) (mode : LockMode.t) : Prop := forall m, bad m = negb (compatible m mode).

Lemma conflict_false bad me q : conflict bad me q = false <-> forall r, r ∈ q -> req_txn_id r <> me -> bad (lock_mode_ r) = false.
Proof.
  induction q as [|r q IH]; simpl; [split; [intros _ r Hr; by apply not_elem_of_nil in Hr|done]|].
  destruct (bad (lock_mode_ r)) eqn:Eb; [destruct (Z.eqb_spec (req_txn_id r) me) as [He|Hne]; simpl|].
  - rewrite IH. split; intros Hq r' Hr'; [apply elem_of_cons in Hr' as [->|]; [done|by apply Hq]|apply Hq; by constructor].
  - split; [done|]. intros Hq. rewrite (Hq r) in Eb; [done|constructor|done].
  - rewrite IH. split; intros Hq r' Hr'; [apply elem_of_cons in Hr' as [->|]; [done|by apply Hq]|apply Hq; by constructor].
Qed.

Lemma conflict_free bad mode p id s q :
  exact bad mode -> q = default [] (lock_table_ s !! id) -> conflict bad p q = false <-> free_for s p id mode.
Proof.
  intros Hb ->. rewrite conflict_false. unfold free_for. destruct (lock_table_ s !! id) as [q|]; simpl.
  - split; [intros H q' r [= <-] Hr Hne; specialize (H r Hr Hne); rewrite Hb in H; by destruct (compatible _ _)|].
    intros H r Hr Hne. rewrite Hb, (H q r eq_refl Hr Hne). done.
  - split; [done|]. intros _ r Hr. by apply not_elem_of_nil in Hr.
Qed.

(** what a request changes: the transaction is granted the mode, or nothing *)
Definition requested (s : LockManager) (p : Z) (id : LockDataId) (mode : LockMode.t) (b : bool) (s' : LockManager) : Prop :=
  (b = true <-> free_for s p id mode) /\
  (b = true -> exists r q, lock_table_ s' !! id = Some q /\ r ∈ q /\ req_txn_id r = p /\ lock_mode_ r = mode) /\
  (forall j, j <> id -> lock_table_ s' !! j = lock_table_ s !! j).

Lemma lock_table_safe bad mode p fd s :
  exact bad mode -> linv s -> p ∈ dom (txns s) ->
  safe s (lock_table bad mode p fd s) (requested s p (table_lock_id fd) mode).
Proof.
  intros Hb Hi Hp. unfold lock_table. eapply safe_bind; [by apply growing_safe|]. intros [] s1 Hi1 Hd1 Ht1. rewrite <- Hd1 in Hp.
  eapply safe_bind; [by apply queue_safe|]. intros q s2 Hi2 Hd2 (Hq & Hq0 & Htx & Hoth). rewrite <- Hd2 in Hp. apply safe_id; [done|done|].
  assert (Hiff : conflict bad p q = false <-> free_for s p (table_lock_id fd) mode) by (apply conflict_free; [done|by rewrite <- Ht1]).
  assert (Hj : forall j, j <> table_lock_id fd -> lock_table_ s2 !! j = lock_table_ s !! j) by (intros j Hj; by rewrite Hoth, Ht1).
  destruct (conflict bad p q) eqn:Ec.
  { apply safe_ret; [done|]. split; [split; [done|]; intros Hf; by apply Hiff in Hf|]. by split. }
  eapply safe_bind; [apply (grant_safe p (table_lock_id fd) mode q s2 Hi2 Hp Hq); [|done]|].
  - intros r Hr Hne. apply (proj1 Hiff eq_refl (default [] (lock_table_ s !! table_lock_id fd))); [|rewrite <- Ht1, <- Hq0; done|done].
    rewrite Ht1 in Hq0. destruct (lock_table_ s !! table_lock_id fd); [done|]. subst q. by apply not_elem_of_nil in Hr.
  - intros [] s3 Hi3 Hd3 Ht3. apply safe_ret; [done|]. split; [split; [intros _; by apply Hiff|done]|]. rewrite Ht3. split.
    + intros _. eexists _, _. rewrite lookup_insert_eq. split; [done|]. split; [apply elem_of_app; right; by apply list_elem_of_singleton|done].
    + intros j Hj'. rewrite lookup_insert_ne by done. by apply Hj.
Qed.

Lemma exact_S : exact (is_mode [LockMode.IX; LockMode.SIX; LockMode.X]) LockMode.S.
Proof. by intros []. Qed.
Lemma exact_X : exact (fun _ => true) LockMode.X.
Proof. by intros []. Qed.
Lemma exact_IS : exact (is_mode [LockMode.X]) LockMode.IS.
Proof. by intros []. Qed.
Lemma exact_IX : exact (is_mode [LockMode.S; LockMode.SIX; LockMode.X]) LockMode.IX.
Proof. by intros []. Qed.
Lemma exact_SIX : exact (is_mode [LockMode.IX; LockMode.S; LockMode.SIX; LockMode.X]) LockMode.SIX.
Proof. by intros []. Qed.

(** the loops over a record's queue *)
Definition record_modes (q : list LockRequest) : Prop := forall r, r ∈ q -> is_mode [LockMode.S; LockMode.X] (lock_mode_ r) = true.

Lemma scan_exclusive_eq p q s :
  record_modes q -> scan_exclusive p q s = (Ok (negb (conflict (fun _ => true) p q)), s).
Proof.
  induction q as [|r q IH]; intros Hm; [done|]. simpl. rewrite (Hm r) by constructor. rewrite (bind_ok (assert true) _ s tt s) by done.
  destruct (req_txn_id r =? p); [|done]. apply IH. intros r' Hr'. apply Hm. by constructor.
Qed.

(** the first exclusive request decides; there is one of [p], or none at all, if [p] may share *)
Lemma scan_shared_eq p q s :
  record_modes q -> (forall a b, a ∈ q -> b ∈ q -> req_txn_id a <> req_txn_id b -> compatible (lock_mode_ a) (lock_mode_ b) = true) ->
  exists o, scan_shared p q s = (Ok o, s) /\
    match o with
    | None => conflict (is_mode [LockMode.IX; LockMode.SIX; LockMode.X]) p q = false
    | Some b => b = negb (conflict (is_mode [LockMode.IX; LockMode.SIX; LockMode.X]) p q) /\
                (b = true -> exists r, r ∈ q /\ req_txn_id r = p /\ lock_mode_ r = LockMode.X)
    end.
Proof.
  induction q as [|r q IH]; intros Hm Hc; [by exists None|]. cbn [scan_shared conflict].
  rewrite (bind_ok (assert _) _ s tt s) by (by rewrite (Hm r) by constructor). pose proof (Hm r ltac:(constructor)) as Hr.
  case_bool_decide as HX.
  - exists (Some (req_txn_id r =? p)). split; [done|]. rewrite HX. simpl. destruct (Z.eqb_spec (req_txn_id r) p) as [He|Hne]; simpl; [|done].
    split; [|intros _; exists r; split; [constructor|done]]. symmetry. apply negb_true_iff, conflict_false. intros r' Hr' Hne.
    pose proof (Hc r r' ltac:(constructor) ltac:(by constructor) ltac:(congruence)) as Hx. rewrite HX in Hx. by destruct (lock_mode_ r').
  - assert (Hmode : lock_mode_ r = LockMode.S) by (destruct (lock_mode_ r); done).
    destruct IH as (o & Ho & Hpost).
    + intros r' Hr'. apply Hm. by constructor.
    + intros a b Ha Hb. apply Hc; by constructor.
    + exists o. split; [done|]. rewrite Hmode. change (is_mode _ LockMode.S) with false.
      destruct o as [b|]; [|done]. destruct Hpost as [? Hex]. split; [done|]. intros Hb. destruct (Hex Hb) as (r' & ? & ?). exists r'. split; [by constructor|done].
Qed.

(** the table and the record of a record lock are different objects *)
Lemma record_not_table fd rid fd' : record_lock_id fd rid <> table_lock_id fd'.
Proof. discriminate. Qed.

Lemma free_for_same s s' p id mode : lock_table_ s' !! id = lock_table_ s !! id -> free_for s' p id mode <-> free_for s p id mode.
Proof. unfold free_for. by intros ->. Qed.

Lemma free_for_default s p id mode q0 : free_for s p id mode -> q0 = default [] (lock_table_ s !! id) ->
  forall r, r ∈ q0 -> req_txn_id r <> p -> compatible (lock_mode_ r) mode = true.
Proof.
  intros Hf -> r Hr. unfold free_for in Hf. destruct (lock_table_ s !! id) as [q|]; [by apply (Hf q r eq_refl)|by apply not_elem_of_nil in Hr].
Qed.

Definition record_granted (s : LockManager) (p fd : Z) (rid : Rid) (imode mode : LockMode.t) (b : bool) (s' : LockManager) : Prop :=
  (b = true <-> free_for s p (table_lock_id fd) imode /\ free_for s p (record_lock_id fd rid) mode) /\
  (b = true -> exists r q, lock_table_ s' !! record_lock_id fd rid = Some q /\ r ∈ q /\ req_txn_id r = p /\
     (lock_mode_ r = mode \/ lock_mode_ r = LockMode.X)).

(** the part of a record lock up to its own queue *)
Lemma record_prefix bad imode p rid fd s (k : Z -> list LockRequest -> LockP bool) Q :
  exact bad imode -> linv s -> p ∈ dom (txns s) ->
  (forall s', linv s' -> p ∈ dom (txns s') -> ~ free_for s p (table_lock_id fd) imode -> Q false s') ->
  (forall q s', linv s' -> p ∈ dom (txns s') -> free_for s p (table_lock_id fd) imode ->
     lock_table_ s' !! record_lock_id fd rid = Some q -> q = default [] (lock_table_ s !! record_lock_id fd rid) ->
     safe s' (k p q s') Q) ->
  safe s ((growing p;; let* _ := queue (record_lock_id fd rid) in
           let* ok := lock_table bad imode p fd in
           if negb ok then ret false else let* q := queue (record_lock_id fd rid) in let* me := get_transaction_id p in k me q) s) Q.
Proof.
  intros Hb Hi Hp Hno Hk. eapply safe_bind; [by apply growing_safe|]. intros [] s1 Hi1 Hd1 Ht1. rewrite <- Hd1 in Hp.
  eapply safe_bind; [by apply queue_safe|]. intros q1 s2 Hi2 Hd2 (Hq1 & Hq1' & _ & Hoth2). rewrite <- Hd2 in Hp.
  eapply safe_bind; [by apply lock_table_safe|]. intros ok s3 Hi3 Hd3 (Hiff & _ & Hoth3). rewrite <- Hd3 in Hp.
  rewrite (free_for_same s s2) in Hiff by (rewrite Hoth2, Ht1; done). destruct ok; simpl.
  - eapply safe_bind; [by apply queue_safe|]. intros q s4 Hi4 Hd4 (Hq & Hq' & _ & _). rewrite <- Hd4 in Hp. apply safe_id; [done|done|].
    apply Hk; try done; [by apply Hiff|]. rewrite Hoth3, Hq1 in Hq' by done. rewrite Ht1 in Hq1'. simpl in Hq'. congruence.
  - apply safe_ret; [done|]. apply Hno; try done. intros Hf. by apply Hiff in Hf.
Qed.

Lemma lock_exclusive_on_record_safe p rid fd s :
  linv s -> p ∈ dom (txns s) ->
  safe s (lock_exclusive_on_record p rid fd s) (record_granted s p fd rid LockMode.IX LockMode.X).
Proof.
  intros Hi Hp. eapply (record_prefix _ LockMode.IX p rid fd s (fun me q => let* free := scan_exclusive me q in
    if negb free then ret false else grant p (record_lock_id fd rid) LockMode.X;; ret true)); [exact exact_IX|done|done|..].
  all: cycle 1. (* the record's queue; then the refused intention lock *)
  - intros q s' Hi' Hp' Hf Hq Hq'. rewrite (bind_ok _ _ _ _ _ (scan_exclusive_eq p q s' (fun r Hr => li_record s' Hi' _ _ _ Hq eq_refl Hr))).
    assert (Hiff : conflict (fun _ => true) p q = false <-> free_for s p (record_lock_id fd rid) LockMode.X) by (by apply conflict_free; [exact exact_X|]).
    destruct (conflict (fun _ => true) p q); simpl.
    + apply safe_ret; [done|]. split; [|done]. split; [done|]. intros [_ Hx]. by apply Hiff in Hx.
    + pose proof (proj1 Hiff eq_refl) as Hx. eapply safe_bind; [apply (grant_safe p _ LockMode.X q s' Hi' Hp' Hq); [|done]|].
      * by eapply free_for_default.
      * intros [] s2 Hi2 _ Ht2. apply safe_ret; [done|]. split; [done|]. intros _. eexists _, _. rewrite Ht2, lookup_insert_eq.
        split; [done|]. split; [apply elem_of_app; right; by apply list_elem_of_singleton|auto].
  - intros s' _ _ Hno. split; [|done]. split; [done|]. by intros [? _].
Qed.

Lemma lock_shared_on_record_safe p rid fd s :
  linv s -> p ∈ dom (txns s) ->
  safe s (lock_shared_on_record p rid fd s) (fun b s' => (exists t, txns s !! p = Some t /\ state_ t = ABORTED) \/
    record_granted s p fd rid LockMode.IS LockMode.S b s').
Proof.
  intros Hi Hp. unfold lock_shared_on_record. pose proof Hp as Hp0. apply elem_of_dom in Hp0 as [t Ht].
  rewrite (bind_ok (get_state p) _ s (state_ t) s) by (unfold get_state, txn, gets, bind, deref; by rewrite Ht).
  case_bool_decide; [apply safe_ret; eauto|].
  eapply (record_prefix _ LockMode.IS p rid fd s (fun me q => let* r := scan_shared me q in
    match r with Some b => ret b | None => grant p (record_lock_id fd rid) LockMode.S;; ret true end)); [exact exact_IS|done|done|..].
  all: cycle 1.
  - intros q s' Hi' Hp' Hf Hq Hq'.
    destruct (scan_shared_eq p q s' (fun r Hr => li_record s' Hi' _ _ _ Hq eq_refl Hr) (fun a b => li_compat s' Hi' _ _ a b Hq)) as (o & Eo & Ho).
    rewrite (bind_ok _ _ _ _ _ Eo).
    assert (Hiff : conflict (is_mode [LockMode.IX; LockMode.SIX; LockMode.X]) p q = false <-> free_for s p (record_lock_id fd rid) LockMode.S)
      by (by apply conflict_free; [exact exact_S|]).
    destruct o as [b|].
    + destruct Ho as [-> Hex]. apply safe_ret; [done|]. right. split; [|intros Hb; destruct (Hex Hb) as (r & ? & ? & ?); eauto 10].
      rewrite negb_true_iff, Hiff. tauto.
    + pose proof (proj1 Hiff Ho) as Hx. eapply safe_bind; [apply (grant_safe p _ LockMode.S q s' Hi' Hp' Hq); [|done]|].
      * by eapply free_for_default.
      * intros [] s2 Hi2 _ Ht2. apply safe_ret; [done|]. right. split; [done|]. intros _. eexists _, _. rewrite Ht2, lookup_insert_eq.
        split; [done|]. split; [apply elem_of_app; right; by apply list_elem_of_singleton|auto].
  - intros s' _ _ Hno. right. split; [|done]. split; [done|]. by intros [? _].
Qed.

(** ** Releases *)

Lemma elem_of_drop_requests r me q : r ∈ drop_requests me q <-> r ∈ q /\ req_txn_id r <> me.
Proof.
  induction q as [|x q IH]; simpl; [split; [intros H; by apply not_elem_of_nil in H|intros [H _]; by apply not_elem_of_nil in H]|].
  rewrite elem_of_cons. destruct (Z.eqb_spec (req_txn_id x) me) as [He|Hne].
  - rewrite IH. split; [tauto|]. intros [[->|] ?]; tauto.
  - rewrite elem_of_cons, IH. split; [intros [->|]; tauto|tauto].
Qed.

(** the requests of a state: who asks for what in which mode *)
Definition holds_lock (s : LockManager) (id : LockDataId) (r : LockRequest) : Prop := exists q, lock_table_ s !! id = Some q /\ r ∈ q.

Lemma linv_shrink s s' :
  linv s -> (forall p, txns s' !! p = txns s !! p \/ exists st t, txns s !! p = Some t /\ txns s' !! p = Some (set_state st t)) ->
  (forall id r, holds_lock s' id r -> holds_lock s id r) -> linv s'.
Proof.
  intros [H1 H2 H3 H4] Ht Hh.
  assert (Hq : forall id q a, lock_table_ s' !! id = Some q -> a ∈ q -> holds_lock s id a) by (intros id q a Hq Ha; apply Hh; by exists q).
  split.
  - intros p t Hp. destruct (Ht p) as [He|(st & t0 & Ht0 & Ht1)]; [rewrite He in Hp; by apply H1|]. rewrite Ht1 in Hp. injection Hp as <-. simpl. by apply H1.
  - intros id q a b Hl Ha Hb. destruct (Hq _ _ _ Hl Ha) as (q1 & E1 & Ha1), (Hq _ _ _ Hl Hb) as (q2 & E2 & Hb2). rewrite E1 in E2. injection E2 as <-. by eapply H2.
  - intros id q a Hl Hty Ha. destruct (Hq _ _ _ Hl Ha) as (q1 & E1 & Ha1). by eapply H3.
  - intros id q a Hl Ha. destruct (Hq _ _ _ Hl Ha) as (q1 & E1 & Ha1). destruct (H4 _ _ _ E1 Ha1) as (t & Htx & Hin).
    destruct (Ht (req_txn_id a)) as [He|(st & t0 & Ht0 & Ht1)]; [rewrite He; eauto|]. exists (set_state st t0). split; [done|].
    rewrite Htx in Ht0. by injection Ht0 as <-.
Qed.

(** transactions differ only in their states *)
Definition same_txns (s s' : LockManager) : Prop :=
  forall p, txns s' !! p = txns s !! p \/ exists st t, txns s !! p = Some t /\ txns s' !! p = Some (set_state st t).

Lemma same_txns_refl s : same_txns s s.
Proof. by left. Qed.

Lemma same_txns_trans s1 s2 s3 : same_txns s1 s2 -> same_txns s2 s3 -> same_txns s1 s3.
Proof.
  intros H12 H23 p. destruct (H12 p) as [E1|(st1 & t1 & A1 & B1)], (H23 p) as [E2|(st2 & t2 & A2 & B2)].
  - left. congruence.
  - right. exists st2, t2. split; [congruence|done].
  - right. exists st1, t1. split; [done|congruence].
  - right. rewrite B1 in A2. injection A2 as <-. by exists st2, t1.
Qed.

Lemma same_txns_dom s s' : same_txns s s' -> dom (txns s') = dom (txns s).
Proof.
  intros Hs. apply set_eq. intros p. rewrite !elem_of_dom. destruct (Hs p) as [->|(st & t & -> & ->)]; [done|]. by split; eexists.
Qed.

Lemma same_txns_state p st s : p ∈ dom (txns s) -> same_txns s (set_txn p (set_state st) s).
Proof.
  intros Hp q. simpl. destruct (decide (p = q)) as [<-|Hne]; [|left; by rewrite lookup_alter_ne].
  apply elem_of_dom in Hp as [t Ht]. right. exists st, t. by rewrite lookup_alter_eq, Ht.
Qed.

(** what [unlock] does: the caller's requests for the object are gone *)
Lemma unlock_spec p id s :
  linv s -> p ∈ dom (txns s) ->
  exists s', unlock p id s = (Ok true, s') /\ linv s' /\ same_txns s s' /\
    (forall j r, holds_lock s' j r <-> holds_lock s j r /\ ~ (j = id /\ req_txn_id r = p)).
Proof.
  intros Hi Hp. unfold unlock. pose proof Hp as Hp0. apply elem_of_dom in Hp0 as [t Ht].
  rewrite (bind_ok (get_state p) _ s (state_ t) s) by (unfold get_state, txn, gets, bind, deref; by rewrite Ht).
  set (s1 := if bool_decide (state_ t = GROWING) then set_txn p (set_state SHRINKING) s else s).
  assert (E1 : (if bool_decide (state_ t = GROWING) then put_state p SHRINKING else ret tt) s = (Ok tt, s1)).
  { unfold s1. case_bool_decide; [by apply put_state_eq|done]. }
  rewrite (bind_ok _ _ _ _ _ E1). assert (Hs1 : same_txns s s1 /\ lock_table_ s1 = lock_table_ s).
  { unfold s1. case_bool_decide; split; try done; [by apply same_txns_state|apply same_txns_refl]. }
  destruct Hs1 as [Hs1 Ht1]. assert (Hid : exists t1, txns s1 !! p = Some t1 /\ txn_id_ t1 = p).
  { destruct (Hs1 p) as [->|(st & t0 & Ht0 & ->)]; [exists t; split; [done|by apply (li_ids s Hi)]|]. exists (set_state st t0). split; [done|]. exact (li_ids s Hi p t0 Ht0). }
  destruct Hid as (t1 & Ht1' & Hid). set (q := default [] (lock_table_ s !! id)).
  unfold queue, get_transaction_id, txn, gets, modify, bind, deref, ret. simpl. rewrite Ht1', Hid, lookup_insert_eq, Ht1. simpl. fold q.
  set (s2 := set_table (<[id := drop_requests p q]>) (set_table (fun m => <[id := default [] (m !! id)]> m) s1)).
  set (s3 := match drop_requests p q with [] => set_table (delete id) s2 | _ => s2 end).
  assert (Hh : forall j r, holds_lock s3 j r <-> holds_lock s j r /\ ~ (j = id /\ req_txn_id r = p)).
  { assert (Hl : forall j, default [] (lock_table_ s3 !! j) = if decide (j = id) then drop_requests p q else default [] (lock_table_ s !! j)).
    { intros j. unfold s3. destruct (drop_requests p q) eqn:Ed; simpl; destruct (decide (j = id)) as [->|Hne];
        rewrite ?lookup_delete_eq, ?lookup_delete_ne, ?lookup_insert_eq, ?lookup_insert_ne, ?Ht1 by done; done. }
    assert (Hd : forall s' j r, holds_lock s' j r <-> r ∈ default [] (lock_table_ s' !! j)).
    { intros s' j r. unfold holds_lock. destruct (lock_table_ s' !! j) as [q'|]; simpl;
        [split; [by intros (? & [= <-] & ?)|eauto]|split; [by intros (? & ? & _)|intros H; by apply not_elem_of_nil in H]]. }
    intros j r. rewrite !Hd, Hl. destruct (decide (j = id)) as [->|Hne]; [rewrite elem_of_drop_requests; unfold q; tauto|tauto]. }
  exists s3. split; [unfold s3; by destruct (drop_requests p q)|]. assert (Hs3 : same_txns s s3).
  { intros p'. unfold s3. destruct (drop_requests p q); apply Hs1. }
  split; [|done]. eapply linv_shrink; [exact Hi|exact Hs3|]. intros j r Hj. by apply Hh in Hj as [? _].
Qed.

Lemma unlock_all_spec p ids s :
  linv s -> p ∈ dom (txns s) ->
  exists s', for_each ids (fun id => let* _ := unlock p id in ret tt) s = (Ok tt, s') /\ linv s' /\ same_txns s s' /\
    (forall j r, holds_lock s' j r <-> holds_lock s j r /\ ~ (j ∈ ids /\ req_txn_id r = p)).
Proof.
  revert s. induction ids as [|id ids IH]; intros s Hi Hp.
  { exists s. split_and!; try done; [apply same_txns_refl|]. intros j r. rewrite elem_of_nil. tauto. }
  destruct (unlock_spec p id s Hi Hp) as (s1 & E1 & Hi1 & Hs1 & Hh1). rewrite <- (same_txns_dom _ _ Hs1) in Hp.
  destruct (IH s1 Hi1 Hp) as (s2 & E2 & Hi2 & Hs2 & Hh2). exists s2. split; [|split; [done|split; [by eapply same_txns_trans|]]].
  - cbn [for_each]. rewrite (bind_ok _ _ s tt s1); [done|]. by rewrite (bind_ok _ _ _ _ _ E1).
  - intros j r. rewrite Hh2, Hh1, elem_of_cons. tauto.
Qed.

Lemma release_locks_spec p s :
  linv s -> p ∈ dom (txns s) ->
  exists s' t', release_locks p s = (Ok tt, s') /\ linv s' /\ dom (txns s') = dom (txns s) /\
    txns s' !! p = Some t' /\ lock_set_ t' = ∅ /\
    (forall j r, holds_lock s' j r <-> holds_lock s j r /\ req_txn_id r <> p).
Proof.
  intros Hi Hp. pose proof Hp as Hp0. apply elem_of_dom in Hp0 as [t Ht].
  destruct (unlock_all_spec p (elements (lock_set_ t)) s Hi Hp) as (s1 & E1 & Hi1 & Hs1 & Hh1).
  assert (Hh : forall j r, holds_lock s1 j r <-> holds_lock s j r /\ req_txn_id r <> p).
  { intros j r. rewrite Hh1. split; intros [Hl Hno]; (split; [done|]); [|tauto]. intros He. apply Hno. split; [|done].
    destruct Hl as (q & Hq & Hr). destruct (li_held s Hi j q r Hq Hr) as (t0 & Ht0 & Hin). rewrite He, Ht in Ht0. injection Ht0 as <-. by apply elem_of_elements. }
  assert (Hp1 : exists t1, txns s1 !! p = Some t1) by (destruct (Hs1 p) as [->|(st & t0 & _ & ->)]; eauto). destruct Hp1 as [t1 Ht1].
  set (s2 := set_txn p (set_lock_set (fun _ => ∅)) s1). exists s2, (set_lock_set (fun _ => ∅) t1).
  assert (Hdom : dom (txns s2) = dom (txns s)) by (unfold s2; rewrite dom_set_txn; by apply same_txns_dom).
  split; [|split; [|split; [done|split; [|split; [done|exact Hh]]]]].
  - unfold release_locks. rewrite (bind_ok (txn p) _ s t s) by (unfold txn, gets, bind, deref; by rewrite Ht). by rewrite (bind_ok _ _ _ _ _ E1).
  - destruct Hi1 as [H1 H2 H3 H4]. split; try done.
    + intros p' t'. unfold s2. simpl. destruct (decide (p = p')) as [<-|Hne]; [|rewrite lookup_alter_ne by done; apply H1].
      rewrite lookup_alter_eq, Ht1. intros [= <-]. simpl. by apply H1.
    + intros id q a Hq Ha. destruct (H4 id q a Hq Ha) as (t0 & Ht0 & Hin). exists t0. split; [|done]. unfold s2. simpl.
      rewrite lookup_alter_ne; [done|]. intros He. symmetry in He. by apply (proj1 (Hh id a) (ex_intro _ q (conj Hq Ha))).
  - unfold s2. simpl. by rewrite lookup_alter_eq, Ht1.
Qed.

(** ** All calls *)

Lemma exec_safe c s : linv s -> caller c ∈ dom (txns s) -> safe s (exec c s) (fun _ _ => True).
Proof.
  intros Hi Hp. destruct c as [p rid fd|p rid fd|p fd|p fd|p fd|p fd|p fd|p id|p]; simpl in *.
  - by eapply safe_conseq; [apply lock_shared_on_record_safe|].
  - by eapply safe_conseq; [apply lock_exclusive_on_record_safe|].
  - by eapply safe_conseq; [apply lock_table_safe; [exact exact_S|..]|].
  - by eapply safe_conseq; [apply lock_table_safe; [exact exact_X|..]|].
  - by eapply safe_conseq; [apply lock_table_safe; [exact exact_IS|..]|].
  - by eapply safe_conseq; [apply lock_table_safe; [exact exact_IX|..]|].
  - by eapply safe_conseq; [apply lock_table_safe; [exact exact_SIX|..]|].
  - destruct (unlock_spec p id s Hi Hp) as (s' & E & Hi' & Hs & _). rewrite E. split; [done|]. split; [by apply same_txns_dom|done].
  - destruct (release_locks_spec p s Hi Hp) as (s' & t' & E & Hi' & Hd & _). unfold bind. rewrite E. by split.
Qed.

Lemma run_inv l s : linv s -> (forall c, c ∈ l -> caller c ∈ dom (txns s)) -> linv (run l s).
Proof.
  revert s. induction l as [|c l IH]; intros s Hi Hp; [done|]. simpl.
  destruct (exec_safe c s Hi (Hp c ltac:(constructor))) as (Hi' & Hd & _). apply IH; [done|]. intros c' Hc'. rewrite Hd. apply Hp. by constructor.
Qed.

(** ** Exceptions *)

(** the transaction exists and is not shrinking *)
Definition alive (p : Z) (s : LockManager) : Prop := exists t, txns s !! p = Some t /\ state_ t <> SHRINKING.
Definition calm {A} (p : Z) (m : LockP A) : Prop :=
  forall s, alive p s -> match m s with (Ok _, s') => alive p s' | (Throw _, _) => False | _ => True end.

Lemma calm_bind {A B} p (m : LockP A) (k : A -> LockP B) : calm p m -> (forall a, calm p (k a)) -> calm p (bind m k).
Proof. intros Hm Hk s Hs. specialize (Hm s Hs). unfold bind. destruct (m s) as [[a|e|f] s']; [by apply Hk|done|done]. Qed.
Lemma calm_ret {A} p (a : A) : calm p (ret a).
Proof. by intros s Hs. Qed.
Lemma calm_gets {A} p (f : LockManager -> A) : calm p (gets f).
Proof. by intros s Hs. Qed.
Lemma calm_assert p b : calm p (assert b).
Proof. intros s Hs. by destruct b. Qed.
Lemma calm_deref {A} p (o : option A) : calm p (deref o).
Proof. intros s Hs. by destruct o. Qed.
Lemma calm_table p f : calm p (modify (set_table f)).
Proof. by intros s Hs. Qed.
Lemma calm_lock_set p p' f : calm p (modify (set_txn p' (set_lock_set f))).
Proof.
  intros s (t & Ht & Hs). simpl. destruct (decide (p' = p)) as [->|Hne].
  - exists (set_lock_set f t). simpl. by rewrite lookup_alter_eq, Ht.
  - exists t. simpl. by rewrite lookup_alter_ne.
Qed.

Create HintDb calm.
#[local] Hint Resolve calm_ret calm_gets calm_assert calm_deref calm_table calm_lock_set : calm.
Ltac calm_tac := repeat first [solve [auto with calm] | apply calm_bind; [|intros ?] | case_match].

Lemma growing_alive p s : alive p s -> growing p s = (Ok tt, set_txn p (set_state GROWING) s).
Proof.
  intros (t & Ht & Hs). unfold growing, get_state. assert (Et : txn p s = (Ok t, s)) by (unfold txn, gets, bind, deref; by rewrite Ht).
  rewrite (bind_ok _ _ s (state_ t) s) by (by rewrite (bind_ok _ _ _ _ _ Et)). rewrite bool_decide_false by done.
  rewrite (bind_ok (ret tt) _ s tt s) by done. apply put_state_eq. by apply elem_of_dom_2 in Ht.
Qed.

Lemma calm_growing p : calm p (growing p).
Proof.
  intros s Hs. rewrite growing_alive by done. destruct Hs as (t & Ht & _). exists (set_state GROWING t). simpl. by rewrite lookup_alter_eq, Ht.
Qed.
#[local] Hint Resolve calm_growing : calm.

Lemma calm_lock_table p bad mode fd : calm p (lock_table bad mode p fd).
Proof. unfold lock_table, queue, get_transaction_id, txn, grant, get_transaction_id, txn. calm_tac. Qed.

Lemma calm_scan_exclusive p me q : calm p (scan_exclusive me q).
Proof. induction q; simpl; calm_tac. Qed.
Lemma calm_scan_shared p me q : calm p (scan_shared me q).
Proof. induction q; simpl; calm_tac. Qed.
#[local] Hint Resolve calm_lock_table calm_scan_exclusive calm_scan_shared : calm.

Lemma calm_exclusive p rid fd : calm p (lock_exclusive_on_record p rid fd).
Proof. unfold lock_exclusive_on_record, lock_IX_on_table, queue, get_transaction_id, txn, grant, get_transaction_id, txn. calm_tac. Qed.
Lemma calm_shared p rid fd : calm p (lock_shared_on_record p rid fd).
Proof. unfold lock_shared_on_record, lock_IS_on_table, get_state, queue, get_transaction_id, txn, grant, get_transaction_id, txn. calm_tac. Qed.

(** a transaction that differs from [t0] in its locks, and in that it may be growing *)
Definition like (t0 t : Transaction) : Prop := exists st ls, t = set_lock_set (fun _ => ls) (set_state st t0) /\ (st = state_ t0 \/ st = GROWING).
Definition keeps_txn {A} (p : Z) (t0 : Transaction) (m : LockP A) : Prop :=
  forall s t, txns s !! p = Some t -> like t0 t -> exists t', txns (m s).2 !! p = Some t' /\ like t0 t'.

Lemma like_refl t : like t t.
Proof. exists (state_ t), (lock_set_ t). split; [by destruct t|by left]. Qed.
Lemma like_growing t0 t : like t0 t -> like t0 (set_state GROWING t).
Proof. intros (st' & ls & -> & _). exists GROWING, ls. split; [done|by right]. Qed.
Lemma like_lock_set t0 t f : like t0 t -> like t0 (set_lock_set f t).
Proof. intros (st' & ls & -> & H). by exists st', (f ls). Qed.
Lemma txn_keeps_bind {A B} p t0 (m : LockP A) (k : A -> LockP B) : keeps_txn p t0 m -> (forall a, keeps_txn p t0 (k a)) -> keeps_txn p t0 (bind m k).
Proof.
  intros Hm Hk s t Ht Hl. destruct (Hm s t Ht Hl) as (t' & Ht' & Hl'). unfold bind. destruct (m s) as [[a|e|f] s']; simpl in *; [by apply (Hk a s' t')|eauto..].
Qed.
Lemma txn_keeps_same {A} p t0 (m : LockP A) : (forall s, txns (m s).2 = txns s) -> keeps_txn p t0 m.
Proof. intros Hm s t Ht Hl. rewrite Hm. eauto. Qed.
Lemma txn_keeps_set p t0 p' f : (forall t, like t0 t -> like t0 (f t)) -> keeps_txn p t0 (modify (set_txn p' f)).
Proof.
  intros Hf s t Ht Hl. simpl. destruct (decide (p' = p)) as [->|Hne]; [exists (f t)|exists t].
  - rewrite lookup_alter_eq, Ht. eauto.
  - by rewrite lookup_alter_ne.
Qed.
Lemma keeps_lock_table p t0 bad mode fd s t : alive p s -> txns s !! p = Some t -> like t0 t ->
  exists t', txns (lock_table bad mode p fd s).2 !! p = Some t' /\ like t0 t'.
Proof.
  intros Ha Ht Hl. unfold lock_table. rewrite (bind_ok _ _ _ _ _ (growing_alive p s Ha)).
  assert (Hk : keeps_txn p t0 (let id := table_lock_id fd in let* q := queue id in let* me := get_transaction_id p in if conflict bad me q then ret false else grant p id mode;; ret true)%prog).
  { unfold queue, grant. cbv zeta.
    repeat first [apply txn_keeps_bind; [|intros ?]|by apply txn_keeps_same|case_match|apply txn_keeps_set; intros; by apply like_lock_set].
    all: apply txn_keeps_same; intros ?; by match goal with |- context [deref ?o] => destruct o end. }
  apply (Hk _ (set_state GROWING t)); [|by apply like_growing]. simpl. by rewrite lookup_alter_eq, Ht.
Qed.

(** a safe and calm call returns *)
Lemma safe_returns {A} p (m : LockP A) s Q : alive p s -> calm p m -> safe s (m s) Q -> exists a s', m s = (Ok a, s') /\ Q a s'.
Proof. intros Hs Hc (_ & _ & HQ). specialize (Hc s Hs). destruct (m s) as [[a|e|f] s']; [eauto|done|done]. Qed.

(** the locks a request asks for *)
Definition needs (c : call) : option (list (LockDataId * LockMode.t)) :=
  match c with
  | SharedRecord _ rid fd => Some [(table_lock_id fd, LockMode.IS); (record_lock_id fd rid, LockMode.S)]
  | ExclusiveRecord _ rid fd => Some [(table_lock_id fd, LockMode.IX); (record_lock_id fd rid, LockMode.X)]
  | SharedTable _ fd => Some [(table_lock_id fd, LockMode.S)]
  | ExclusiveTable _ fd => Some [(table_lock_id fd, LockMode.X)]
  | ISTable _ fd => Some [(table_lock_id fd, LockMode.IS)]
  | IXTable _ fd => Some [(table_lock_id fd, LockMode.IX)]
  | SIXTable _ fd => Some [(table_lock_id fd, LockMode.SIX)]
  | Unlock _ _ | Release _ => None
  end.

Lemma request_table bad mode p fd s :
  exact bad mode -> linv s -> alive p s ->
  exists b s', lock_table bad mode p fd s = (Ok b, s') /\ (b = true <-> Forall (fun n => free_for s p n.1 n.2) [(table_lock_id fd, mode)]).
Proof.
  intros Hb Hi Hs. assert (Hp : p ∈ dom (txns s)) by (destruct Hs as (t & Ht & _); by apply elem_of_dom_2 in Ht).
  destruct (safe_returns p _ _ _ Hs (calm_lock_table p bad mode fd) (lock_table_safe bad mode p fd s Hb Hi Hp)) as (b & s' & E & Hiff & _).
  exists b, s'. split; [done|]. rewrite Hiff. rewrite Forall_singleton. done.
Qed.

Lemma request_returns c s t ns :
  linv s -> txns s !! caller c = Some t -> state_ t <> SHRINKING -> state_ t <> ABORTED -> needs c = Some ns ->
  exists b s', exec c s = (Ok b, s') /\ (b = true <-> Forall (fun n => free_for s (caller c) n.1 n.2) ns).
Proof.
  intros Hi Ht Hs Ha Hn. assert (Hal : alive (caller c) s) by (by exists t). pose proof (elem_of_dom_2 _ _ _ Ht) as Hp.
  destruct c as [p rid fd|p rid fd|p fd|p fd|p fd|p fd|p fd|p id|p]; simpl in *; [| | | | | | |done|done]; injection Hn as <-.
  - destruct (safe_returns p _ _ _ Hal (calm_shared p rid fd) (lock_shared_on_record_safe p rid fd s Hi Hp)) as (b & s' & E & [(t' & Ht' & Hab)|[Hiff _]]).
    + rewrite Ht in Ht'. injection Ht' as <-. done.
    + exists b, s'. split; [done|]. rewrite Hiff. by rewrite Forall_cons, Forall_singleton.
  - destruct (safe_returns p _ _ _ Hal (calm_exclusive p rid fd) (lock_exclusive_on_record_safe p rid fd s Hi Hp)) as (b & s' & E & Hiff & _).
    exists b, s'. split; [done|]. rewrite Hiff. by rewrite Forall_cons, Forall_singleton.
  - by apply request_table; [exact exact_S|..].
  - by apply request_table; [exact exact_X|..].
  - by apply request_table; [exact exact_IS|..].
  - by apply request_table; [exact exact_IX|..].
  - by apply request_table; [exact exact_SIX|..].
Qed.
End LkP.
Import Lk LkP.

(** ** Properties *)

(** transactions that have just begun, under their ids *)
Definition txn_table (ts : gmap Z Transaction) : Prop := forall p t, ts !! p = Some t -> txn_id_ t = p.

(** C21: whatever sequence of lock, unlock and release calls the transactions make,
    in whatever interleaving, two requests of different transactions that are in the
    queue of one table or record have compatible modes, and no call fails an
    assertion. *)
Theorem lock_modes_compatible ts l :
  txn_table ts -> (forall c, c ∈ l -> caller c ∈ dom ts) ->
  let s := run l (mkLockManager ∅ ts) in
  (forall id a b, holds_lock s id a -> holds_lock s id b -> req_txn_id a <> req_txn_id b ->
     compatible (lock_mode_ a) (lock_mode_ b) = true) /\
  (forall c f, caller c ∈ dom (txns s) -> (exec c s).1 <> Fail f).
Proof.
  intros Hts Hc s. assert (Hi : linv s).
  { apply run_inv; [|done]. split; [done|..]; intros id q a; simpl; rewrite lookup_empty; done. }
  split.
  - intros id a b (q & Hq & Ha) (q' & Hq' & Hb). rewrite Hq in Hq'. injection Hq' as <-. by eapply (li_compat s Hi).
  - intros c f Hp Hf. destruct (exec_safe c s Hi Hp) as (_ & _ & Hx). by rewrite Hf in Hx.
Qed.


Lemma growing_shrinking p s t :
  linv s -> txns s !! p = Some t -> state_ t = SHRINKING ->
  growing p s = (Throw (TransactionAbortException p LOCK_ON_SHIRINKING), set_txn p (set_state ABORTED) s).
Proof.
  intros Hi Ht Hs. pose proof (li_ids s Hi p t Ht) as Hid. unfold growing, get_state, put_state, get_transaction_id, txn, gets, modify, bind, deref, ret, throw.
  rewrite Ht, Hs. simpl. rewrite Ht. simpl. rewrite lookup_alter_eq, Ht. simpl. by rewrite Hid.
Qed.

(** two phases.  Once a transaction has released a lock while growing, any lock
    request it makes next throws, marks it aborted and leaves the lock table as it
    was. *)
Theorem lock_two_phase s p t id c s1 :
  linv s -> txns s !! p = Some t -> state_ t = GROWING -> unlock p id s = (Ok true, s1) ->
  caller c = p -> needs c <> None ->
  exists s2 t2, exec c s1 = (Throw (TransactionAbortException p LOCK_ON_SHIRINKING), s2) /\
    lock_table_ s2 = lock_table_ s1 /\ txns s2 !! p = Some t2 /\ state_ t2 = ABORTED.
Proof.
  intros Hi Ht Hs Hu Hc Hn. destruct (unlock_spec p id s Hi (elem_of_dom_2 _ _ _ Ht)) as (s' & E & Hi1 & _). rewrite E in Hu. injection Hu as ->.
  assert (Ht1 : exists t1, txns s1 !! p = Some t1 /\ state_ t1 = SHRINKING).
  { revert E. unfold unlock, get_state, put_state, queue, get_transaction_id, txn, gets, modify, bind, deref, ret. rewrite Ht, Hs. simpl. rewrite Ht. simpl.
    rewrite lookup_alter_eq, Ht. simpl. destruct (drop_requests _ _); intros [= <-]; simpl; rewrite lookup_alter_eq, Ht; eauto. }
  destruct Ht1 as (t1 & Ht1 & Hs1). pose proof (growing_shrinking p s1 t1 Hi1 Ht1 Hs1) as Eg.
  exists (set_txn p (set_state ABORTED) s1), (set_state ABORTED t1). split; [|simpl; rewrite lookup_alter_eq, Ht1; done].
  assert (Hst : get_state p s1 = (Ok SHRINKING, s1)) by (unfold get_state, txn, gets, bind, deref, ret; by rewrite Ht1, Hs1).
  destruct c; simpl in *; subst; try done; try (apply bind_throw; exact Eg).
  unfold lock_shared_on_record. rewrite (bind_ok _ _ _ _ _ Hst). rewrite bool_decide_false by done. by apply bind_throw.
Qed.

(** [release_locks], called by commit and abort, takes every request of the
    transaction out of the lock table and empties its lock set, and leaves the
    requests of other transactions. *)
Theorem lock_release_complete p s :
  linv s -> p ∈ dom (txns s) ->
  exists s' t', release_locks p s = (Ok tt, s') /\ linv s' /\ txns s' !! p = Some t' /\ lock_set_ t' = ∅ /\
    (forall j r, holds_lock s' j r <-> holds_lock s j r /\ req_txn_id r <> p).
Proof. intros Hi Hp. destruct (release_locks_spec p s Hi Hp) as (s' & t' & ? & ? & _ & ? & ? & ?). by exists s', t'. Qed.

(** a transaction that was aborted, for instance for asking for a lock while
    shrinking, can take exclusive locks again: only [lock_shared_on_record] refuses an
    aborted transaction. *)
Theorem lock_exclusive_revives_aborted s p t rid fd :
  linv s -> txns s !! p = Some t -> state_ t = ABORTED ->
  free_for s p (table_lock_id fd) LockMode.IX -> free_for s p (record_lock_id fd rid) LockMode.X ->
  exists s' q r, lock_exclusive_on_record p rid fd s = (Ok true, s') /\
    lock_table_ s' !! record_lock_id fd rid = Some q /\ r ∈ q /\ req_txn_id r = p /\ lock_mode_ r = LockMode.X.
Proof.
  intros Hi Ht Hs H1 H2. assert (Hal : alive p s) by (exists t; split; [done|congruence]).
  destruct (safe_returns p _ _ _ Hal (calm_exclusive p rid fd) (lock_exclusive_on_record_safe p rid fd s Hi (elem_of_dom_2 _ _ _ Ht)))
    as (b & s' & E & Hiff & Hex).
  assert (Hb : b = true) by (by apply Hiff). subst b. destruct (Hex eq_refl) as (r & q & Hq & Hr & Hp & [Hm|Hm]); by exists s', q, r.
Qed.

(** ** Witnesses *)

Definition demo_txn (id : Z) (st : TransactionState) : Transaction := set_state st (new_Transaction false 0 id SERIALIZABLE).
Definition demo_txns : gmap Z Transaction := {[1 := demo_txn 1 GROWING; 2 := demo_txn 2 ABORTED]}.
Definition demo_locks : LockManager := mkLockManager ∅ demo_txns.

Lemma demo_txn_table : txn_table demo_txns.
Proof.
  intros p t. unfold demo_txns. rewrite lookup_insert. destruct (decide (1 = p)) as [<-|]; [by intros [= <-]|].
  rewrite lookup_singleton_Some. by intros [<- <-].
Qed.

Lemma demo_linv : linv demo_locks.
Proof. split; [apply demo_txn_table|..]; intros id q a; simpl; rewrite lookup_empty; done. Qed.

Definition demo_calls : list call :=
  [SharedRecord 1 (mkRid 1 0) 3; ExclusiveRecord 2 (mkRid 1 0) 3; ExclusiveRecord 2 (mkRid 1 1) 3].

Lemma lock_modes_compatible_witness : exists s, s = run demo_calls (mkLockManager ∅ demo_txns) /\
  (forall id a b, holds_lock s id a -> holds_lock s id b -> req_txn_id a <> req_txn_id b -> compatible (lock_mode_ a) (lock_mode_ b) = true).
Proof.
  eexists. split; [reflexivity|]. apply (lock_modes_compatible demo_txns demo_calls demo_txn_table).
  intros c Hc. repeat (apply elem_of_cons in Hc as [->|Hc]; [vm_compute; done|]). by apply not_elem_of_nil in Hc.
Defined.


Lemma lock_two_phase_witness : exists s1 s2 t2,
  unlock 1 (table_lock_id 3) demo_locks = (Ok true, s1) /\
  exec (SharedRecord 1 (mkRid 1 0) 3) s1 = (Throw (TransactionAbortException 1 LOCK_ON_SHIRINKING), s2) /\
  txns s2 !! 1 = Some t2 /\ state_ t2 = ABORTED.
Proof.
  destruct (lock_two_phase demo_locks 1 (demo_txn 1 GROWING) (table_lock_id 3) (SharedRecord 1 (mkRid 1 0) 3)
    (unlock 1 (table_lock_id 3) demo_locks).2 demo_linv) as (s2 & t2 & E & _ & H1 & H2).
  - vm_compute. reflexivity.
  - reflexivity.
  - vm_compute. reflexivity.
  - reflexivity.
  - discriminate.
  - exists (unlock 1 (table_lock_id 3) demo_locks).2, s2, t2. split; [vm_compute; reflexivity|]. done.
Defined.

Lemma lock_release_complete_witness : exists s' t',
  release_locks 1 demo_locks = (Ok tt, s') /\ txns s' !! 1 = Some t' /\ lock_set_ t' = ∅.
Proof.
  destruct (lock_release_complete 1 demo_locks demo_linv) as (s' & t' & E & _ & H1 & H2 & _); [vm_compute; done|]. by exists s', t'.
Defined.

Lemma lock_exclusive_revives_aborted_witness : exists s' q r,
  lock_exclusive_on_record 2 (mkRid 1 0) 3 demo_locks = (Ok true, s') /\
  lock_table_ s' !! record_lock_id 3 (mkRid 1 0) = Some q /\ r ∈ q /\ req_txn_id r = 2 /\ lock_mode_ r = LockMode.X.
Proof.
  apply (lock_exclusive_revives_aborted demo_locks 2 (demo_txn 2 ABORTED) (mkRid 1 0) 3 demo_linv);
    [vm_compute; reflexivity|reflexivity|intros q r Hq; discriminate Hq|intros q r Hq; discriminate Hq].
Defined.
