(* ===== verification/Text.v ===== *)
(** Text streams: what [operator<<] and [operator>>] of the C++ standard library do
    for the strings and integers of the metadata files.

    A stream is the list of its characters.  Extraction skips white space; a string
    ends before the next white space, an integer before the first character that is
    not a digit.  The source never tests a stream: when an extraction fails it goes on
    with variables it has not set, so a failed extraction is the failure [Undef]. *)

From Stdlib Require Import Strings.Ascii Strings.String Floats.SpecFloat.
From S2P Require Import Prelude Bytes Errors Float32.

Abbreviation text := (list ascii).

Module Text.
Local Open Scope prog_scope.

Definition str (s : string) : text := list_ascii_of_string s.
Definition nl : text := [ascii_of_nat 10].
Definition sp : text := [ascii_of_nat 32].

(** [std::isspace] in the classic locale *)
Definition is_space (c : ascii) : bool :=
  let n := Z.of_nat (nat_of_ascii c) in (n =? 32) || ((9 <=? n) && (n <=? 13)).

Fixpoint skip_ws (s : text) : text :=
  match s with c :: r => if is_space c then skip_ws r else s | [] => [] end.
Fixpoint span_word (s : text) : text * text :=
  match s with
  | [] => ([], [])
  | c :: r => if is_space c then ([], s) else let '(w, r) := span_word r in (c :: w, r)
  end.

(** [is >> str] *)
Definition read_string : Prog text string :=
  let* s := get in
  match span_word (skip_ws s) with
  | ([], _) => fail Undef
  | (w, r) => modify (fun _ => r);; ret (string_of_list_ascii w)
  end.

Definition digit (c : ascii) : option Z :=
  let n := Z.of_nat (nat_of_ascii c) in if (48 <=? n) && (n <=? 57) then Some (n - 48) else None.
Fixpoint digits (acc : Z) (s : text) : Z * text :=
  match s with
  | c :: r => match digit c with Some d => digits (10 * acc + d) r | None => (acc, s) end
  | [] => (acc, [])
  end.
Definition starts_digit (s : text) : bool := match s with c :: _ => bool_decide (is_Some (digit c)) | [] => false end.

(** an optional sign and one or more digits *)
Definition unsigned (neg : bool) (s : text) : option (Z * text) :=
  if starts_digit s then let '(v, r) := digits 0 s in Some (if neg then - v else v, r) else None.
Definition number (s : text) : option (Z * text) :=
  match s with
  | c :: r => if Ascii.eqb c "-" then unsigned true r else if Ascii.eqb c "+" then unsigned false r else unsigned false s
  | [] => None
  end.

(** [is >> n] for an integer type with values from [lo] to [hi] *)
Definition read_int (lo hi : Z) : Prog text Z :=
  let* s := get in
  match number (skip_ws s) with
  | Some (v, r) => if (lo <=? v) && (v <=? hi) then modify (fun _ => r);; ret v else fail Undef
  | None => fail Undef
  end.

Definition read_i32 : Prog text Z := read_int (- 2 ^ 31) (2 ^ 31 - 1).
Definition read_size : Prog text Z := read_int 0 (2 ^ 64 - 1).
(** [is >> b] for a [bool]: 0 or 1 *)
Definition read_bool : Prog text bool :=
  let* v := read_int 0 1 in ret (v =? 1).

(** [os << n] *)
Definition show_int (z : Z) : text := str (pretty z).
Definition show_bool (b : bool) : text := show_int (if b then 1 else 0).

(** ** Reading what was written *)

(** a non-empty string without white space *)
Definition word (w : string) : Prop := w <> ""%string /\ Forall (fun c => is_space c = false) (str w).
(** what separates two items, and what may follow one *)
Definition blank (s : text) : Prop := Forall (fun c => is_space c = true) s.
Definition ends (s : text) : Prop := match s with [] => True | c :: _ => is_space c = true end.

Lemma skip_blank ws s : blank ws -> skip_ws (ws ++ s) = skip_ws s.
Proof. induction 1 as [|c ws Hc _ IH]; [done|]. simpl. by rewrite Hc. Qed.

Lemma skip_none c s : is_space c = false -> skip_ws (c :: s) = c :: s.
Proof. intros H. simpl. by rewrite H. Qed.

Lemma span_word_app w rest : Forall (fun c => is_space c = false) w -> ends rest -> span_word (w ++ rest) = (w, rest).
Proof.
  induction 1 as [|c w Hc _ IH]; intros He; [|simpl; by rewrite Hc, IH]. destruct rest as [|c r]; [done|]. simpl in *. by rewrite He.
Qed.

Lemma str_inv s : string_of_list_ascii (str s) = s.
Proof. apply string_of_list_ascii_of_string. Qed.

Lemma read_string_ok ws w rest : blank ws -> word w -> ends rest -> read_string (ws ++ str w ++ rest) = (Ok w, rest).
Proof.
  intros Hb [Hw Hs] He. unfold read_string, bind, get. rewrite skip_blank by done. destruct w as [|c w]; [done|].
  change (str (String c w)) with (c :: str w) in *. pose proof (Forall_inv Hs) as Hc. rewrite <- app_comm_cons, skip_none by done.
  change (c :: str w ++ rest) with ((c :: str w) ++ rest). rewrite span_word_app by done. unfold modify, ret.
  change (c :: str w) with (str (String c w)). by rewrite str_inv.
Qed.

(** *** Integers *)

Lemma digit_char x : (x < 10)%N -> digit (pretty_N_char x) = Some (Z.of_N x).
Proof. intros Hx. assert (Hc : (x = 0 \/ x = 1 \/ x = 2 \/ x = 3 \/ x = 4 \/ x = 5 \/ x = 6 \/ x = 7 \/ x = 8 \/ x = 9)%N) by lia.
  repeat destruct Hc as [->|Hc]; [reflexivity..|]. subst. reflexivity. Qed.

Lemma digits_pretty x s rest : digits 0 (str (pretty_N_go x s) ++ rest) = digits (Z.of_N x) (str s ++ rest).
Proof.
  revert s. induction (N.lt_wf_0 x) as [x _ IH]. intros s. destruct (decide (x = 0)%N) as [->|Hne]; [by rewrite pretty_N_go_0|].
  rewrite pretty_N_go_step by lia. rewrite IH by (apply N.div_lt; lia). cbn [str list_ascii_of_string digits app].
  rewrite digit_char by (apply N.mod_lt; lia). f_equal.
  rewrite N2Z.inj_div, N2Z.inj_mod. pose proof (Z.div_mod (Z.of_N x) 10). lia.
Qed.

Lemma starts_digit_pretty x s rest : starts_digit (str s ++ rest) = true \/ (0 < x)%N -> starts_digit (str (pretty_N_go x s) ++ rest) = true.
Proof.
  revert s. induction (N.lt_wf_0 x) as [x _ IH]. intros s Hs. destruct (decide (x = 0)%N) as [->|Hne]; [rewrite pretty_N_go_0; destruct Hs; [done|lia]|].
  rewrite pretty_N_go_step by lia. apply IH; [apply N.div_lt; lia|]. left. cbn [str list_ascii_of_string starts_digit app].
  rewrite digit_char by (apply N.mod_lt; lia). by apply bool_decide_true.
Qed.

Lemma pretty_N_reads x rest : ends rest ->
  starts_digit (str (pretty x) ++ rest) = true /\ digits 0 (str (pretty x) ++ rest) = (Z.of_N x, rest).
Proof.
  intros He. assert (Hd : forall v, digits v rest = (v, rest)).
  { intros v. destruct rest as [|c r]; [done|]. simpl in *. unfold digit, is_space in *.
    destruct ((48 <=? _) && _) eqn:E; [|done]. apply andb_true_iff in E as [E1 E2]. apply Z.leb_le in E1, E2.
    apply orb_true_iff in He as [He|He]; [apply Z.eqb_eq in He; lia|]. apply andb_true_iff in He as [_ He]. apply Z.leb_le in He. lia. }
  unfold pretty, pretty_N. destruct (decide (x = 0)%N) as [->|Hne]; [split; [done|apply (Hd 0)]|].
  split; [apply starts_digit_pretty; right; lia|]. rewrite digits_pretty. apply Hd.
Qed.

(** a digit is neither white space nor a sign *)
Lemma digit_plain c : is_Some (digit c) -> is_space c = false /\ Ascii.eqb c "-" = false /\ Ascii.eqb c "+" = false.
Proof.
  intros Hd. split; [|split].
  - unfold digit, is_space in *. destruct ((48 <=? _) && _) eqn:E; [|by destruct Hd]. apply andb_true_iff in E as [E1 E2]. apply Z.leb_le in E1, E2.
    apply orb_false_iff. split; [apply Z.eqb_neq; lia|]. apply andb_false_iff. right. apply Z.leb_gt. lia.
  - apply Ascii.eqb_neq. intros ->. by destruct Hd.
  - apply Ascii.eqb_neq. intros ->. by destruct Hd.
Qed.

Lemma number_N x rest : ends rest -> number (skip_ws (str (pretty x) ++ rest)) = Some (Z.of_N x, rest).
Proof.
  intros He. destruct (pretty_N_reads x rest He) as [Hs Hd]. pose proof Hs as Hs'. unfold starts_digit in Hs'.
  destruct (str (pretty x) ++ rest) as [|c r]; [done|]. apply bool_decide_eq_true in Hs'. destruct (digit_plain c Hs') as (H1 & H2 & H3).
  rewrite skip_none by done. unfold number, unsigned. by rewrite H2, H3, Hs, Hd.
Qed.

Lemma number_Z z rest : ends rest -> number (skip_ws (show_int z ++ rest)) = Some (z, rest).
Proof.
  intros He. unfold show_int. destruct z as [|x|x]; [by apply (number_N 0%N)|by apply (number_N (Npos x))|].
  destruct (pretty_N_reads (Npos x) rest He) as [Hs Hd]. change (str (pretty (Z.neg x))) with ("-"%char :: str (pretty (Npos x))).
  rewrite <- app_comm_cons, skip_none by done. unfold number. rewrite Ascii.eqb_refl. unfold unsigned. by rewrite Hs, Hd.
Qed.

Lemma read_int_ok lo hi ws z rest :
  blank ws -> lo <= z <= hi -> ends rest -> read_int lo hi (ws ++ show_int z ++ rest) = (Ok z, rest).
Proof.
  intros Hb Hz He. unfold read_int, bind, get. rewrite skip_blank, number_Z by done.
  by rewrite (proj2 (Z.leb_le _ _) (proj1 Hz)), (proj2 (Z.leb_le _ _) (proj2 Hz)).
Qed.

Lemma read_bool_ok ws (b : bool) rest : blank ws -> ends rest -> read_bool (ws ++ show_bool b ++ rest) = (Ok b, rest).
Proof.
  intros Hb He. unfold read_bool, show_bool. rewrite (bind_ok _ _ _ _ _ (read_int_ok 0 1 ws (if b then 1 else 0) rest Hb ltac:(destruct b; lia) He)). by destruct b.
Qed.

Lemma blank_nl : blank nl.
Proof. by repeat constructor. Qed.
Lemma blank_sp : blank sp.
Proof. by repeat constructor. Qed.
Lemma blank_app a b : blank a -> blank b -> blank (a ++ b).
Proof. intros. by apply Forall_app. Qed.
Lemma blank_nil : blank [].
Proof. constructor. Qed.
Lemma ends_nl s : ends (nl ++ s).
Proof. done. Qed.
Lemma ends_sp s : ends (sp ++ s).
Proof. done. Qed.
Create HintDb text.
#[export] Hint Resolve blank_nl blank_sp blank_app blank_nil ends_nl ends_sp : text.
End Text.

(** ** Decimal numbers: what the program uses of [std::stof] and of [atof] *)

Module Dec.
Import Text.
Local Open Scope prog_scope.
Definition is_char (n : nat) (c : Ascii.ascii) : bool := Ascii.eqb c (Ascii.ascii_of_nat n).

(** the longest row of digits: its value, how many, and what follows *)
Fixpoint digit_run (acc n : Z) (s : text) : Z * Z * text :=
  match s with
  | c :: r => match digit c with Some d => digit_run (10 * acc + d) (n + 1) r | None => (acc, n, s) end
  | [] => (acc, n, [])
  end.
Definition fraction (acc : Z) (s : text) : Z * Z * text :=
  match s with
  | c :: r => if is_char 46 c then digit_run acc 0 r else (acc, 0, s)
  | [] => (acc, 0, s)
  end.
(** an exponent that has no digits is not part of the number *)
Definition exponent (s : text) : Z :=
  match s with
  | c :: r => if is_char 101 c || is_char 69 c then match number r with Some (e, _) => e | None => 0 end else 0
  | [] => 0
  end.
(** [m * 10 ^ e], or nothing when there is no digit *)
Definition decimal (s : text) : option (Z * Z) :=
  let '(i, n1, s1) := digit_run 0 0 s in
  let '(m, n2, s2) := fraction i s1 in
  if n1 + n2 =? 0 then None else Some (m, exponent s2 - n2).
Definition sign (s : text) : bool * text :=
  match s with
  | c :: r => if is_char 45 c then (true, r) else if is_char 43 c then (false, r) else (false, s)
  | [] => (false, s)
  end.

(** the number of [prec] bits nearest to [n / d]: a quotient of more bits with a sticky bit below it is rounded *)
Definition nearest (prec emax : Z) (neg : bool) (n d : Z) : spec_float :=
  let k := Z.max 0 (64 + Z.log2 d - Z.log2 n) in
  let q := n * 2 ^ k / d in
  let m := 2 * q + (if n * 2 ^ k mod d =? 0 then 0 else 1) in
  binary_normalize prec emax (if neg then - m else m) (- k - 1) neg.
(** a result that is subnormal or zero and not exact is a range error *)
Definition underflow (n d : Z) (f : spec_float) : bool :=
  match f with
  | S754_zero _ => negb (n =? 0)
  | S754_finite _ m e => (Zpos m <? 2 ^ 23) && negb (Zpos m * d * 2 ^ (e + 149) =? n * 2 ^ 149)
  | _ => false
  end.

Definition ratio (m e : Z) : Z * Z := if 0 <=? e then (m * 10 ^ e, 1) else (m, 10 ^ (- e)).

(** the forms with letters (hexadecimal, [inf], [nan]) are left out: they give [Undef] *)
Definition lettered (s : text) : bool :=
  match s with
  | c :: d :: _ => is_char 105 c || is_char 73 c || is_char 110 c || is_char 78 c || (is_char 48 c && (is_char 120 d || is_char 88 d))
  | _ => false
  end.
Definition stof (s : text) : Prog unit Z :=
  let '(neg, s) := sign (skip_ws s) in
  if lettered s then fail Undef
  else
    match decimal s with
    | None => throw InvalidArgument
    | Some (m, e) =>
        let '(n, d) := ratio m e in
        let f := nearest 24 128 neg n d in
        if underflow n d f then throw OutOfRange
        else match f with S754_infinity _ => throw OutOfRange | _ => deref (f32_bits f) end
    end.

(** [float f = atof(s)] of digits with a point: rounded to a [double] and then to a [float] *)
Definition to_float (f : spec_float) : spec_float :=
  match f with
  | S754_finite s m e => binary_normalize 24 128 (if s then Zneg m else Zpos m) e s
  | _ => f
  end.
Definition atof (s : text) : spec_float :=
  match decimal s with
  | Some (m, e) => let '(n, d) := ratio m e in to_float (nearest 53 1024 false n d)
  | None => S754_zero false
  end.
End Dec.
