(* ===== verification/SmMeta.v ===== *)
(** The catalog: the metadata of [src/src/system/sm_meta.h], its text form in the
    file [db.meta], and [get_index_name] of [src/src/index/ix_manager.h].

    [std::map<std::string, TabMeta>] is a list of pairs in increasing order of the
    keys, the order in which the program walks through it.  The shared latch of
    [DbMeta] is part of [SmManager]; the copies here are values. *)

From S2P Require Import Prelude Bytes Errors Disk Defs Text IxDefs.

(** ** Maps with string keys *)

Module StrMap.
Section map.
Context {V : Type}.
Implicit Types (m : list (string * V)) (k : string).

Fixpoint find k m : option V :=
  match m with [] => None | (k', v) :: m => if bool_decide (k = k') then Some v else find k m end.
(** [m[k] = v] *)
Fixpoint insert k (v : V) m : list (string * V) :=
  match m with
  | [] => [(k, v)]
  | (k', v') :: m' =>
      match String.compare k k' with
      | Lt => (k, v) :: m
      | Eq => (k, v) :: m'
      | Gt => (k', v') :: insert k v m'
      end
  end.
Fixpoint erase k m : list (string * V) :=
  match m with [] => [] | (k', v) :: m => if bool_decide (k = k') then m else (k', v) :: erase k m end.

(** increasing keys *)
Fixpoint ok_from (lo : option string) m : Prop :=
  match m with
  | [] => True
  | (k, _) :: m => (forall l, lo = Some l -> String.compare l k = Lt) /\ ok_from (Some k) m
  end.
Definition ok m : Prop := ok_from None m.

Lemma compare_refl k : String.compare k k = Eq.
Proof. induction k as [|c k IH]; [done|]. simpl. unfold Ascii.compare. by rewrite N.compare_refl. Qed.

Lemma compare_trans a b c : String.compare a b = Lt -> String.compare b c = Lt -> String.compare a c = Lt.
Proof.
  revert b c. induction a as [|x a IH]; intros [|y b] [|z c]; simpl; try done. unfold Ascii.compare.
  destruct (N.compare_spec (Ascii.N_of_ascii x) (Ascii.N_of_ascii y)) as [E1|E1|E1]; [|intros _|done].
  - rewrite E1. destruct (N.compare _ _); [apply IH|done|done].
  - destruct (N.compare_spec (Ascii.N_of_ascii y) (Ascii.N_of_ascii z)) as [E2|E2|E2]; [intros _|intros _|done];
      rewrite (proj2 (N.compare_lt_iff _ _)); [done|lia|done|lia].
Qed.

Lemma find_insert k j v m : find j (insert k v m) = if bool_decide (j = k) then Some v else find j m.
Proof.
  induction m as [|[k' v'] m IH]; [done|]. simpl. destruct (String.compare k k') eqn:E.
  - apply String.compare_eq_iff in E as ->. simpl. by case_bool_decide.
  - done.
  - simpl. rewrite IH. repeat case_bool_decide; try done. subst. by rewrite compare_refl in E.
Qed.

Lemma ok_insert_gen k v lo m : ok_from lo m -> (forall l, lo = Some l -> String.compare l k = Lt) -> ok_from lo (insert k v m).
Proof.
  revert lo. induction m as [|[k' v'] m IH]; intros lo Hm Hlo; [done|]. simpl in *. destruct Hm as [H1 H2]. destruct (String.compare k k') eqn:E.
  - apply String.compare_eq_iff in E as ->. by split.
  - split; [done|]. split; [by intros l [= <-]|done].
  - split; [done|]. apply IH; [done|]. intros l [= <-]. rewrite String.compare_antisym, E. done.
Qed.
Lemma ok_insert k v m : ok m -> ok (insert k v m).
Proof. intros. by apply ok_insert_gen. Qed.

(** inserting a key above all others appends it *)
Lemma insert_last k v m : Forall (fun e => String.compare e.1 k = Lt) m -> insert k v m = m ++ [(k, v)].
Proof.
  induction 1 as [|[k' v'] m Hlt _ IH]; [done|]. simpl in *. by rewrite String.compare_antisym, Hlt, IH.
Qed.
End map.
End StrMap.

(** ** Metadata *)

Record ColMeta := mkColMeta {
  cm_tab_name : string; cm_name : string; cm_type : ColType; cm_len : Z; cm_offset : Z; cm_index : bool;
}.
Record IndexMeta := mkIndexMeta { im_tab_name : string; im_col_tot_len : Z; im_col_num : Z; im_cols : list ColMeta }.
Record TabMeta := mkTabMeta { tm_name : string; tm_cols : list ColMeta; tm_indexes : list IndexMeta }.
Record DbMeta := mkDbMeta { db_name_ : string; tabs_ : list (string * TabMeta) }.
Record ColDef := mkColDef { cd_name : string; cd_type : ColType; cd_len : Z }.

Module Meta.
Import Text.
Local Open Scope prog_scope.

(** [ColMeta::find_from_cols] *)
Fixpoint find_col (cols : list ColMeta) (col_name : string) : option ColMeta :=
  match cols with
  | [] => None
  | c :: cols => if bool_decide (cm_name c = col_name) then Some c else find_col cols col_name
  end.
Definition find_from_cols (cols : list ColMeta) (col_name : string) : error + ColMeta :=
  match find_col cols col_name with None => inl (ColumnNotFoundError col_name) | Some c => inr c end.

(** [TabMeta::is_col], [TabMeta::get_col] *)
Definition is_col (tab : TabMeta) (col_name : string) : bool := bool_decide (is_Some (find_col (tm_cols tab) col_name)).
Definition get_col (tab : TabMeta) (col_name : string) : error + ColMeta := find_from_cols (tm_cols tab) col_name.

(** [IndexMeta::get_index_name]; [IxManager::get_index_name] of names *)
Fixpoint join_names (names : list string) : string :=
  match names with [] => "" | n :: names => "_" +:+ n +:+ join_names names end.
Definition index_file_name (filename : string) (names : list string) : string := filename +:+ join_names names +:+ ".idx".
Definition get_index_name (index : IndexMeta) : string := index_file_name (im_tab_name index) (cm_name <$> im_cols index).

(** whether the columns of an index have these names: the comparison in [TabMeta::is_index] and
    [TabMeta::get_index_meta] *)
Fixpoint same_names (cols : list ColMeta) (names : list string) : bool :=
  match names with
  | [] => true
  | n :: names => match cols with c :: cols => bool_decide (cm_name c = n) && same_names cols names | [] => false end
  end.
Definition index_matches (col_names : list string) (index : IndexMeta) : bool :=
  (im_col_num index =? zlen col_names) && same_names (im_cols index) col_names.
Definition is_index (tab : TabMeta) (col_names : list string) : bool := existsb (index_matches col_names) (tm_indexes tab).
Fixpoint find_index (l : list IndexMeta) (col_names : list string) : option IndexMeta :=
  match l with [] => None | i :: l => if index_matches col_names i then Some i else find_index l col_names end.
Definition get_index_meta (tab : TabMeta) (col_names : list string) : error + IndexMeta :=
  match find_index (tm_indexes tab) col_names with Some i => inr i | None => inl (IndexNotFoundError (tm_name tab) col_names) end.

(** [DbMeta::is_table], [DbMeta::get_table] *)
Definition is_table (db : DbMeta) (tab_name : string) : bool := bool_decide (is_Some (StrMap.find tab_name (tabs_ db))).
Definition get_table (db : DbMeta) (tab_name : string) : error + TabMeta :=
  match StrMap.find tab_name (tabs_ db) with Some t => inr t | None => inl (TableNotFoundError tab_name) end.

(** ** [operator<<] *)

Definition show_ColMeta (col : ColMeta) : text :=
  str (cm_tab_name col) ++ sp ++ str (cm_name col) ++ sp ++ show_int (ColType_int (cm_type col)) ++ sp ++
  show_int (cm_len col) ++ sp ++ show_int (cm_offset col) ++ sp ++ show_bool (cm_index col).
Definition show_IndexMeta (index : IndexMeta) : text :=
  str (im_tab_name index) ++ sp ++ show_int (im_col_tot_len index) ++ sp ++ show_int (im_col_num index) ++
  concat ((fun col => nl ++ show_ColMeta col) <$> im_cols index).
Definition show_TabMeta (tab : TabMeta) : text :=
  str (tm_name tab) ++ nl ++ show_int (zlen (tm_cols tab)) ++ nl ++
  concat ((fun col => show_ColMeta col ++ nl) <$> tm_cols tab) ++
  show_int (zlen (tm_indexes tab)) ++ nl ++ concat ((fun index => show_IndexMeta index ++ nl) <$> tm_indexes tab).
Definition show_DbMeta (db : DbMeta) : text :=
  str (db_name_ db) ++ nl ++ show_int (zlen (tabs_ db)) ++ nl ++
  concat ((fun entry : string * TabMeta => show_TabMeta entry.2 ++ nl) <$> tabs_ db).

(** ** [operator>>] *)

(** [for (i = 0; i < n; i++) { T x; is >> x; v.push_back(x); }] *)
Fixpoint read_n {A} (n : nat) (r : Prog text A) : Prog text (list A) :=
  match n with O => ret [] | S n => let* x := r in let* l := read_n n r in ret (x :: l) end.

Definition read_ColType : Prog text ColType := let* n := read_i32 in deref (ColType_of_int n).
Definition read_ColMeta : Prog text ColMeta :=
  let* tab_name := read_string in
  let* name := read_string in
  let* type := read_ColType in
  let* len := read_i32 in
  let* offset := read_i32 in
  let* index := read_bool in
  ret (mkColMeta tab_name name type len offset index).
Definition read_IndexMeta : Prog text IndexMeta :=
  let* tab_name := read_string in
  let* col_tot_len := read_i32 in
  let* col_num := read_i32 in
  let* cols := read_n (Z.to_nat col_num) read_ColMeta in
  ret (mkIndexMeta tab_name col_tot_len col_num cols).
Definition read_TabMeta : Prog text TabMeta :=
  let* name := read_string in
  let* n := read_size in
  let* cols := read_n (Z.to_nat n) read_ColMeta in
  let* n := read_size in
  let* indexes := read_n (Z.to_nat n) read_IndexMeta in
  ret (mkTabMeta name cols indexes).
(** the tables are added to those of [db] *)
Definition read_DbMeta (db : DbMeta) : Prog text DbMeta :=
  let* name := read_string in
  let* n := read_size in
  let* tabs := read_n (Z.to_nat n) read_TabMeta in
  ret (mkDbMeta name (foldl (fun m tab => StrMap.insert (tm_name tab) tab m) (tabs_ db) tabs)).

(** ** [SmManager::create_table]: the metadata of a new table *)

Fixpoint layout_cols (tab_name : string) (curr_offset : Z) (col_defs : list ColDef) : list ColMeta :=
  match col_defs with
  | [] => []
  | d :: defs => mkColMeta tab_name (cd_name d) (cd_type d) (cd_len d) curr_offset false ::
                 layout_cols tab_name (curr_offset + cd_len d) defs
  end.
Definition table_record_size (col_defs : list ColDef) : Z := foldl (fun n d => n + cd_len d) 0 col_defs.
Definition new_table (tab_name : string) (col_defs : list ColDef) : TabMeta := mkTabMeta tab_name (layout_cols tab_name 0 col_defs) [].
End Meta.
