(* ===== verification/SmMetaProps.v ===== *)
(** What the catalog promises: [db.meta] reads back as the metadata that was
    written, the columns of a new table tile its records, and looking tables,
    columns and indexes up finds what was put there.  File names of indexes are not
    unique. *)

From S2P Require Import Prelude Bytes Errors Disk Defs Text IxDefs SmMeta.
Import Text Meta.
Local Open Scope prog_scope.

(** ** Well-formed metadata *)

Definition int_ok (z : Z) : Prop := - 2 ^ 31 <= z <= 2 ^ 31 - 1.
Record col_meta_ok (c : ColMeta) : Prop := {
  co_tab : word (cm_tab_name c); co_name : word (cm_name c); co_len : int_ok (cm_len c); co_off : int_ok (cm_offset c);
}.
Record index_meta_ok (i : IndexMeta) : Prop := {
  io_tab : word (im_tab_name i); io_tot : int_ok (im_col_tot_len i); io_num : int_ok (im_col_num i);
  io_cols : Forall col_meta_ok (im_cols i); io_len : im_col_num i = zlen (im_cols i);
}.
Record tab_meta_ok (t : TabMeta) : Prop := {
  to_name : word (tm_name t); to_cols : Forall col_meta_ok (tm_cols t); to_indexes : Forall index_meta_ok (tm_indexes t);
  to_ncols : zlen (tm_cols t) < 2 ^ 64; to_nidx : zlen (tm_indexes t) < 2 ^ 64;
}.
Record db_meta_ok (db : DbMeta) : Prop := {
  dbo_name : word (db_name_ db); dbo_map : StrMap.ok (tabs_ db);
  dbo_tabs : Forall (fun e => e.1 = tm_name e.2 /\ tab_meta_ok e.2) (tabs_ db); dbo_n : zlen (tabs_ db) < 2 ^ 64;
}.

(** ** Readers that undo printers *)

(** after any white space, [r] reads back [x] and leaves at most white space before the rest *)
Definition reads {A} (show : A -> text) (r : Prog text A) (x : A) : Prop :=
  forall ws rest, blank ws -> ends rest -> exists ws', blank ws' /\ r (ws ++ show x ++ rest) = (Ok x, ws' ++ rest).

Lemma ends_app ws rest : blank ws -> ends rest -> ends (ws ++ rest).
Proof. intros Hb He. destruct Hb; [done|]. done. Qed.

Lemma read_n_post {A} (show : A -> text) (r : Prog text A) l :
  Forall (reads show r) l -> forall ws rest, blank ws ->
  exists ws', blank ws' /\ read_n (length l) r (ws ++ concat ((fun x => show x ++ nl) <$> l) ++ rest) = (Ok l, ws' ++ rest).
Proof.
  induction 1 as [|x l Hx _ IH]; intros ws rest Hb; [by exists ws|]. cbn [length read_n fmap list_fmap concat]. rewrite <- !app_assoc.
  destruct (Hx ws (nl ++ concat ((fun x => show x ++ nl) <$> l) ++ rest) Hb (ends_nl _)) as (w1 & Hw1 & E1). rewrite (bind_ok _ _ _ _ _ E1).
  rewrite app_assoc. destruct (IH (w1 ++ nl) rest) as (w2 & Hw2 & E2); [by auto with text|]. rewrite (bind_ok _ _ _ _ _ E2). by exists w2.
Qed.

Lemma ends_concat {A} (show : A -> text) l rest : ends rest -> ends (concat ((fun x => nl ++ show x) <$> l) ++ rest).
Proof. intros He. by destruct l. Qed.

Lemma read_n_pre {A} (show : A -> text) (r : Prog text A) l :
  Forall (reads show r) l -> forall ws rest, blank ws -> ends rest ->
  exists ws', blank ws' /\ read_n (length l) r (ws ++ concat ((fun x => nl ++ show x) <$> l) ++ rest) = (Ok l, ws' ++ rest).
Proof.
  induction 1 as [|x l Hx _ IH]; intros ws rest Hb He; [by exists ws|]. cbn [length read_n fmap list_fmap concat]. rewrite <- !app_assoc.
  rewrite app_assoc. destruct (Hx (ws ++ nl) (concat ((fun x => nl ++ show x) <$> l) ++ rest)) as (w1 & Hw1 & E1);
    [by auto with text|by apply ends_concat|]. rewrite (bind_ok _ _ _ _ _ E1).
  destruct (IH w1 rest Hw1 He) as (w2 & Hw2 & E2). rewrite (bind_ok _ _ _ _ _ E2). by exists w2.
Qed.

Lemma read_ColType_ok ws t rest : blank ws -> ends rest -> read_ColType (ws ++ show_int (ColType_int t) ++ rest) = (Ok t, rest).
Proof.
  intros Hb He. assert (Hr : - 2 ^ 31 <= ColType_int t <= 2 ^ 31 - 1) by (destruct t; simpl; lia).
  unfold read_ColType, read_i32. rewrite (bind_ok _ _ _ _ _ (read_int_ok _ _ ws (ColType_int t) rest Hb Hr He)).
  by rewrite IxHdr.ColType_of_to.
Qed.

Lemma read_ColMeta_ok c : col_meta_ok c -> reads show_ColMeta read_ColMeta c.
Proof.
  intros [H1 H2 H3 H4] ws rest Hb He. exists []. split; [constructor|]. unfold show_ColMeta, read_ColMeta, read_i32. rewrite <- !app_assoc.
  rewrite (bind_ok _ _ _ _ _ (read_string_ok ws _ _ Hb H1 (ends_sp _))), (bind_ok _ _ _ _ _ (read_string_ok sp _ _ blank_sp H2 (ends_sp _))).
  rewrite (bind_ok _ _ _ _ _ (read_ColType_ok sp _ _ blank_sp (ends_sp _))).
  rewrite (bind_ok _ _ _ _ _ (read_int_ok _ _ sp _ _ blank_sp H3 (ends_sp _))), (bind_ok _ _ _ _ _ (read_int_ok _ _ sp _ _ blank_sp H4 (ends_sp _))).
  rewrite (bind_ok _ _ _ _ _ (read_bool_ok sp _ _ blank_sp He)). by destruct c.
Qed.

Lemma read_IndexMeta_ok i : index_meta_ok i -> reads show_IndexMeta read_IndexMeta i.
Proof.
  intros [H1 H2 H3 H4 H5] ws rest Hb He. unfold show_IndexMeta, read_IndexMeta, read_i32. rewrite <- !app_assoc.
  rewrite (bind_ok _ _ _ _ _ (read_string_ok ws _ _ Hb H1 (ends_sp _))), (bind_ok _ _ _ _ _ (read_int_ok _ _ sp _ _ blank_sp H2 (ends_sp _))).
  rewrite (bind_ok _ _ _ _ _ (read_int_ok _ _ sp _ _ blank_sp H3 (ends_concat show_ColMeta _ _ He))).
  assert (Hn : Z.to_nat (im_col_num i) = length (im_cols i)) by (rewrite H5; unfold zlen; lia). rewrite Hn.
  destruct (read_n_pre show_ColMeta read_ColMeta (im_cols i)) with (ws := @nil Ascii.ascii) (rest := rest) as (w & Hw & E);
    [eapply Forall_impl; [exact H4|apply read_ColMeta_ok]|constructor|done|]. rewrite (bind_ok _ _ _ _ _ E). exists w. split; [done|]. by destruct i.
Qed.

Lemma read_TabMeta_ok t : tab_meta_ok t -> reads show_TabMeta read_TabMeta t.
Proof.
  intros [H1 H2 H3 H4 H5] ws rest Hb He. unfold show_TabMeta, read_TabMeta, read_size. rewrite <- !app_assoc.
  assert (N1 : 0 <= zlen (tm_cols t) <= 2 ^ 64 - 1) by (pose proof (zlen_nonneg (tm_cols t)); lia).
  assert (N2 : 0 <= zlen (tm_indexes t) <= 2 ^ 64 - 1) by (pose proof (zlen_nonneg (tm_indexes t)); lia).
  rewrite (bind_ok _ _ _ _ _ (read_string_ok ws _ _ Hb H1 (ends_nl _))). rewrite (bind_ok _ _ _ _ _ (read_int_ok _ _ nl _ _ blank_nl N1 (ends_nl _))).
  replace (Z.to_nat (zlen (tm_cols t))) with (length (tm_cols t)) by (unfold zlen; lia).
  destruct (read_n_post show_ColMeta read_ColMeta (tm_cols t)) with (ws := nl)
    (rest := show_int (zlen (tm_indexes t)) ++ nl ++ concat ((fun index => show_IndexMeta index ++ nl) <$> tm_indexes t) ++ rest) as (w & Hw & E);
    [eapply Forall_impl; [exact H2|apply read_ColMeta_ok]|apply blank_nl|]. rewrite (bind_ok _ _ _ _ _ E).
  rewrite (bind_ok _ _ _ _ _ (read_int_ok _ _ w _ _ Hw N2 (ends_nl _))).
  replace (Z.to_nat (zlen (tm_indexes t))) with (length (tm_indexes t)) by (unfold zlen; lia).
  destruct (read_n_post show_IndexMeta read_IndexMeta (tm_indexes t)) with (ws := nl) (rest := rest) as (w' & Hw' & E');
    [eapply Forall_impl; [exact H3|apply read_IndexMeta_ok]|apply blank_nl|]. rewrite (bind_ok _ _ _ _ _ E'). exists w'. split; [done|]. by destruct t.
Qed.

(** inserting the tables in the order they were written rebuilds the map *)
Lemma ok_from_above {V} lo (m : list (string * V)) :
  StrMap.ok_from (Some lo) m -> Forall (fun e => String.compare lo e.1 = Lt) m.
Proof.
  revert lo. induction m as [|[k v] m IH]; intros lo Hm; [constructor|]. destruct Hm as [H1 H2]. specialize (H1 lo eq_refl).
  constructor; [done|]. eapply Forall_impl; [by apply IH|]. intros [k' v'] Hk. simpl in *. by eapply StrMap.compare_trans.
Qed.

Lemma rebuild_map (m pre : list (string * TabMeta)) :
  StrMap.ok (pre ++ m) -> Forall (fun e => e.1 = tm_name e.2) m ->
  foldl (fun m tab => StrMap.insert (tm_name tab) tab m) pre (snd <$> m) = pre ++ m.
Proof.
  revert pre. induction m as [|[k t] m IH]; intros pre Hok Hn; [by rewrite app_nil_r|]. apply Forall_cons in Hn as [Hk Hn]. simpl in Hk. subst k.
  cbn [fmap list_fmap foldl snd]. rewrite StrMap.insert_last.
  - rewrite IH; rewrite <- ?app_assoc; done.
  - clear IH Hn. unfold StrMap.ok in Hok. revert Hok. generalize (@None string). induction pre as [|[k' t'] pre IH]; intros lo Hok; [constructor|].
    destruct Hok as [_ Hok]. constructor; [|by eapply IH]. apply ok_from_above in Hok. rewrite Forall_app in Hok. destruct Hok as [_ Hok].
    by apply Forall_cons in Hok as [? _].
Qed.

Lemma read_DbMeta_ok db : db_meta_ok db -> exists rest, read_DbMeta (mkDbMeta "" []) (show_DbMeta db) = (Ok db, rest).
Proof.
  intros [H1 H2 H3 H4]. unfold show_DbMeta, read_DbMeta, read_size.
  assert (N1 : 0 <= zlen (tabs_ db) <= 2 ^ 64 - 1) by (pose proof (zlen_nonneg (tabs_ db)); lia).
  rewrite <- (app_nil_l (str (db_name_ db) ++ _)). rewrite (bind_ok _ _ _ _ _ (read_string_ok [] _ _ blank_nil H1 (ends_nl _))).
  rewrite (bind_ok _ _ _ _ _ (read_int_ok _ _ nl _ _ blank_nl N1 (ends_nl _))).
  replace (Z.to_nat (zlen (tabs_ db))) with (length (snd <$> tabs_ db)) by (rewrite length_fmap; unfold zlen; lia).
  destruct (read_n_post show_TabMeta read_TabMeta (snd <$> tabs_ db)) with (ws := nl) (rest := @nil Ascii.ascii) as (w & Hw & E); [|apply blank_nl|].
  - apply Forall_fmap. eapply Forall_impl; [exact H3|]. intros [k t] [_ Ht]. by apply read_TabMeta_ok.
  - rewrite app_nil_r in E. rewrite <- list_fmap_compose in E. unfold compose in E. rewrite (bind_ok _ _ _ _ _ E). exists (w ++ []).
    rewrite rebuild_map; [by destruct db|done|]. eapply Forall_impl; [exact H3|]. by intros [k t] [? _].
Qed.

(** ** Properties *)

(** C30: the metadata file: reading ([operator>>] of [DbMeta], in [open_db]) the text
    that [operator<<] wrote ([flush_meta]) into an empty catalog gives the catalog
    back, for any tables, columns and indexes with names that are words. *)
Theorem db_meta_roundtrip db :
  db_meta_ok db -> exists rest, read_DbMeta (mkDbMeta "" []) (show_DbMeta db) = (Ok db, rest).
Proof. apply read_DbMeta_ok. Qed.

Lemma layout_offsets tab_name off defs i c :
  layout_cols tab_name off defs !! i = Some c ->
  exists d, defs !! i = Some d /\ cm_name c = cd_name d /\ cm_type c = cd_type d /\ cm_len c = cd_len d /\
    cm_offset c = foldl (fun n d => n + cd_len d) off (take i defs).
Proof.
  revert off i. induction defs as [|d defs IH]; intros off i Hi; [done|]. destruct i as [|i]; simpl in Hi; [injection Hi as <-; by exists d|].
  destruct (IH _ _ Hi) as (d' & Hd' & ? & ? & ? & ?). by exists d'.
Qed.

Lemma foldl_len off defs : foldl (fun n d => n + cd_len d) off defs = off + foldl (fun n d => n + cd_len d) 0 defs.
Proof.
  revert off. induction defs as [|d defs IH]; intros off; simpl; [lia|]. rewrite IH, (IH (0 + cd_len d)). lia.
Qed.

Lemma foldl_nonneg defs : Forall (fun d => 0 <= cd_len d) defs -> 0 <= foldl (fun n d => n + cd_len d) 0 defs.
Proof. induction 1 as [|d defs Hd _ IH]; simpl; [lia|]. rewrite foldl_len. lia. Qed.

(** [create_table] lays the columns out one after the other: each keeps the name,
    type and length of its definition, starts where the one before it ends, the first at
    0, and the last ends at the record size. *)
Theorem table_layout_tiles tab_name defs :
  Forall (fun d => 0 <= cd_len d) defs ->
  let cols := tm_cols (new_table tab_name defs) in
  length cols = length defs /\
  (forall i c, cols !! i = Some c -> exists d, defs !! i = Some d /\ cm_name c = cd_name d /\ cm_type c = cd_type d /\
     cm_len c = cd_len d /\ 0 <= cm_offset c /\ cm_offset c + cm_len c <= table_record_size defs) /\
  (forall i a b, cols !! i = Some a -> cols !! S i = Some b -> cm_offset b = cm_offset a + cm_len a) /\
  (forall c, last cols = Some c -> cm_offset c + cm_len c = table_record_size defs).
Proof.
  intros Hpos cols. assert (Hlen : length cols = length defs).
  { unfold cols, new_table. simpl. generalize 0. clear. induction defs as [|d defs IH]; intros off; [done|]. simpl. by rewrite IH. }
  assert (Hend : forall i c, cols !! i = Some c -> cm_offset c + cm_len c = foldl (fun n d => n + cd_len d) 0 (take (S i) defs)).
  { intros i c Hi. destruct (layout_offsets _ _ _ _ _ Hi) as (d & Hd & _ & _ & Hl & Ho). rewrite (take_S_r _ _ _ Hd), foldl_app. simpl. lia. }
  assert (Hoff : forall i c, cols !! i = Some c -> cm_offset c = foldl (fun n d => n + cd_len d) 0 (take i defs)).
  { intros i c Hi. by destruct (layout_offsets _ _ _ _ _ Hi) as (d & _ & _ & _ & _ & ?). }
  split; [done|split; [|split]].
  - intros i c Hi. destruct (layout_offsets _ _ _ _ _ Hi) as (d & Hd & H1 & H2 & H3 & H4). exists d. split_and!; try done.
    + rewrite H4. by apply foldl_nonneg, Forall_take.
    + rewrite (Hend i c Hi). unfold table_record_size. rewrite <- (take_drop (S i) defs) at 2. rewrite foldl_app, (foldl_len (foldl _ 0 (take _ _))).
      pose proof (foldl_nonneg (drop (S i) defs) ltac:(by apply Forall_drop)). lia.
  - intros i a b Ha Hb. by rewrite (Hoff _ _ Hb), (Hend _ _ Ha).
  - intros c Hc. rewrite last_lookup, Hlen in Hc. rewrite (Hend _ _ Hc). unfold table_record_size. f_equal.
    apply take_ge. apply lookup_lt_Some in Hc. lia.
Qed.

Lemma string_app_assoc a b c : (a +:+ b) +:+ c = a +:+ b +:+ c.
Proof. induction a as [|x a IH]; [done|]. exact (f_equal (String x) IH). Qed.

(** file names of indexes are not unique: for all names, the index on the column
    [a_b] has the file name of the index on the columns [a] and [b], and so has the index
    on the column [b] of the table [t_a]; [create_index] then reports that the index
    exists. *)
Theorem index_names_collide t a b :
  index_file_name t [a +:+ "_" +:+ b] = index_file_name t [a; b] /\
  index_file_name (t +:+ "_" +:+ a) [b] = index_file_name t [a; b].
Proof. unfold index_file_name. cbn [join_names]. split; by repeat rewrite string_app_assoc. Qed.

(** ** Witnesses *)

Definition demo_cols : list ColMeta := [mkColMeta "t" "a" TYPE_INT 4 0 false; mkColMeta "t" "b" TYPE_STRING 8 4 true].
Definition demo_tab : TabMeta := mkTabMeta "t" demo_cols [mkIndexMeta "t" 4 1 [mkColMeta "t" "a" TYPE_INT 4 0 false]].
Definition demo_db : DbMeta := mkDbMeta "db" [("t", demo_tab)].

Lemma word_dec w : bool_decide (w <> ""%string) && forallb (fun c => negb (is_space c)) (str w) = true -> word w.
Proof.
  intros H. apply andb_true_iff in H as [H1 H2]. split; [by apply bool_decide_eq_true in H1|]. apply Forall_forall. intros c Hc.
  rewrite forallb_forall in H2. apply negb_true_iff, H2. by apply list_elem_of_In.
Qed.

Lemma demo_db_ok : db_meta_ok demo_db.
Proof.
  assert (Hcols : Forall col_meta_ok demo_cols) by (repeat constructor; try (apply word_dec; reflexivity); unfold int_ok; simpl; lia).
  split; [by apply word_dec|by split| |done]. constructor; [|constructor]. split; [done|]. split; [by apply word_dec|done| |done|done].
  constructor; [|constructor]. split; [by apply word_dec|unfold int_ok; simpl; lia|unfold int_ok; simpl; lia| |done].
  apply Forall_cons in Hcols as [H _]. by constructor.
Qed.

Lemma db_meta_roundtrip_witness : exists rest, read_DbMeta (mkDbMeta "" []) (show_DbMeta demo_db) = (Ok demo_db, rest).
Proof. exact (db_meta_roundtrip demo_db demo_db_ok). Defined.

Lemma table_layout_tiles_witness :
  length (tm_cols (new_table "t" [mkColDef "a" TYPE_INT 4; mkColDef "b" TYPE_STRING 8])) = 2%nat /\
  (forall c, last (tm_cols (new_table "t" [mkColDef "a" TYPE_INT 4; mkColDef "b" TYPE_STRING 8])) = Some c -> cm_offset c + cm_len c = 12).
Proof.
  destruct (table_layout_tiles "t" [mkColDef "a" TYPE_INT 4; mkColDef "b" TYPE_STRING 8]) as (H1 & _ & _ & H4);
    [repeat constructor; simpl; lia|]. split; [exact H1|exact H4].
Defined.
