(* ===== verification/Values.v ===== *)
(** Values and conditions: [src/src/common/common.h], and the text of a datetime in
    [src/src/execution/execution_manager.cpp].

    A [Value] is a tagged union; a float is kept as its 32-bit pattern.  The buffer
    [raw] of a value is the result of [init_raw].  [std::stoi] and [std::stoll] read
    an optional sign and digits after white space and ignore what follows. *)

From Stdlib Require Import Floats.SpecFloat Strings.Ascii.
From S2P Require Import Prelude Bytes Errors Disk Defs Float32 Text SmMeta.

(** ** Limits of integer literals *)

Module Lit.
Import Text.

(** [compare_pos_int_string]; characters are compared as [char]s, which are signed *)
Definition char_val (c : Ascii.ascii) : Z :=
  let n := Z.of_nat (Ascii.nat_of_ascii c) in if n <? 128 then n else n - 256.
Fixpoint compare_chars (val1 val2 : text) : Z :=
  match val1, val2 with
  | a :: val1, b :: val2 => if char_val b <? char_val a then 1 else if char_val a <? char_val b then -1 else compare_chars val1 val2
  | _, _ => 0
  end.
Definition compare_pos_int_string (val1 val2 : text) : Z :=
  let len1 := zlen val1 in let len2 := zlen val2 in
  if len2 <? len1 then 1 else if len1 <? len2 then -1 else compare_chars val1 val2.

Definition starts (c : Ascii.ascii) (s : text) : bool := match s with x :: _ => Ascii.eqb x c | [] => false end.
Definition drop_plus (s : text) : text := if starts "+"%char s then tail s else s.

(** [compare_int_string], for strings that are not empty *)
Definition compare_int_string (val1 val2 : text) : Z :=
  if starts "-"%char val2 && negb (starts "-"%char val1) then 1
  else if starts "-"%char val1 && negb (starts "-"%char val2) then -1
  else if starts "-"%char val1 && starts "-"%char val2 then - compare_pos_int_string (tail val1) (tail val2)
  else compare_pos_int_string (drop_plus val1) (drop_plus val2).

(** [no_overflow<type>], given the texts of the limits of the type *)
Definition no_overflow (max lowest : text) (value : text) : bool :=
  (compare_int_string value max <=? 0) && (0 <=? compare_int_string value lowest).
Definition no_overflow_int : text -> bool := no_overflow (show_int (2 ^ 31 - 1)) (show_int (- 2 ^ 31)).
Definition no_overflow_int64 : text -> bool := no_overflow (show_int (2 ^ 63 - 1)) (show_int (- 2 ^ 63)).

(** [std::stoi], [std::stoll] *)
Definition sto (lo hi : Z) (s : text) : error + Z :=
  match number (skip_ws s) with
  | Some (v, _) => if (lo <=? v) && (v <=? hi) then inr v else inl OutOfRange
  | None => inl InvalidArgument
  end.
Definition stoi : text -> error + Z := sto (- 2 ^ 31) (2 ^ 31 - 1).
Definition stoll : text -> error + Z := sto (- 2 ^ 63) (2 ^ 63 - 1).
End Lit.

(** ** Values *)

Inductive Value :=
  | VInt (int_val : Z)
  | VBigint (bigint_val : Z)
  | VFloat (float_bits : Z)
  | VString (str_val : string)
  | VDatetime (bigint_val : Z).

Inductive CompOp := OP_EQ | OP_NE | OP_LT | OP_GT | OP_LE | OP_GE.
Inductive AggType := COUNT | MAX | MIN | SUM.

Record TabCol := mkTabCol {
  tc_tab_name : string; tc_col_name : string; has_agg : bool; aggregate_type : AggType;
  another_name : string; agg_arg_col_name : string;
}.
Record Condition := mkCondition { lhs_col : TabCol; cond_op : CompOp; is_rhs_val : bool; rhs_col : TabCol; rhs_val : Value }.
Record SetClause := mkSetClause { set_lhs : TabCol; set_rhs : Value; set_op : Z }.

Module Val.
Import Text Lit.
Local Open Scope prog_scope.

Definition type (v : Value) : ColType :=
  match v with
  | VInt _ => TYPE_INT | VBigint _ => TYPE_BIGINT | VFloat _ => TYPE_FLOAT | VString _ => TYPE_STRING | VDatetime _ => TYPE_DATETIME
  end.

(** [static_cast<uint64_t>] *)
Definition u64 (z : Z) : Z := z mod 2 ^ 64.
Definition str_lt (a b : string) : bool := bool_decide (String.compare a b = Lt).

(** [operator==], [operator>], [operator<]: false for values of different types *)
Definition eq (x y : Value) : bool :=
  match x, y with
  | VInt a, VInt b | VBigint a, VBigint b | VDatetime a, VDatetime b => a =? b
  | VFloat a, VFloat b => SFeqb (f32_of_bits a) (f32_of_bits b)
  | VString a, VString b => bool_decide (a = b)
  | _, _ => false
  end.
Definition gt (x y : Value) : bool :=
  match x, y with
  | VInt a, VInt b | VBigint a, VBigint b => b <? a
  | VFloat a, VFloat b => f32_gt (f32_of_bits a) (f32_of_bits b)
  | VString a, VString b => str_lt b a
  | VDatetime a, VDatetime b => u64 b <? u64 a
  | _, _ => false
  end.
Definition lt (x y : Value) : bool :=
  match x, y with
  | VInt a, VInt b | VBigint a, VBigint b => a <? b
  | VFloat a, VFloat b => f32_lt (f32_of_bits a) (f32_of_bits b)
  | VString a, VString b => str_lt a b
  | VDatetime a, VDatetime b => u64 a <? u64 b
  | _, _ => false
  end.
Definition ne (x y : Value) : bool := negb (eq x y).
Definition le (x y : Value) : bool := negb (gt x y).
Definition ge (x y : Value) : bool := negb (lt x y).

(** the bytes of a C string: those before the first zero *)
Fixpoint c_str (b : list Z) : list Z :=
  match b with [] => [] | x :: b => if x =? 0 then [] else x :: c_str b end.

Definition load (data : list Z) (off n : Z) : Prog unit (list Z) := deref (mload data off n).

(** [Value::read_from_record]; [strlen] of a string that fills its column reads on
    into the next column, or past the record, before the length is cut *)
Definition read_from_record (data : list Z) (col : ColMeta) : Prog unit Value :=
  match cm_type col with
  | TYPE_INT => let* b := load data (cm_offset col) 4 in ret (VInt (dec_i32 b))
  | TYPE_BIGINT => let* b := load data (cm_offset col) 8 in ret (VBigint (dec_i64 b))
  | TYPE_FLOAT => let* b := load data (cm_offset col) 4 in ret (VFloat (le_value b))
  | TYPE_STRING => let* b := load data (cm_offset col) (cm_len col) in ret (VString (bytes_string (c_str b)))
  | TYPE_DATETIME => let* b := load data (cm_offset col) 8 in ret (VDatetime (dec_i64 b))
  end.

(** [Value::init_raw]: the bytes of [raw] *)
Definition init_raw (v : Value) (len : Z) : Prog unit (list Z) :=
  match v with
  | VInt i => assert (len =? 4);; ret (enc_i32 i)
  | VBigint i | VDatetime i => assert (len =? 8);; ret (enc_i64 i)
  | VFloat w => assert (len =? 4);; ret (le_bytes 4 w)
  | VString s =>
      if len <? zlen (string_bytes s) then throw StringOverflowError
      else ret (string_bytes s ++ zeros (len - zlen (string_bytes s)))
  end.

(** ** Datetimes *)

(** [Value::IsDayValid] *)
Definition IsDayValid (year month day : Z) : bool :=
  if (month =? 4) || (month =? 6) || (month =? 9) || (month =? 11) then day <=? 30
  else if month =? 2 then
    if ((Z.rem year 4 =? 0) && negb (Z.rem year 100 =? 0)) || (Z.rem year 400 =? 0) then day <=? 29 else day <=? 28
  else if (month =? 1) || (month =? 3) || (month =? 5) || (month =? 7) || (month =? 8) || (month =? 10) || (month =? 12) then day <=? 31
  else false.

Definition substr (pos n : nat) (s : text) : text := take n (drop pos s).
(** [lo <= s && s <= hi] on strings *)
Definition tcompare (a b : text) : comparison := String.compare (String.string_of_list_ascii a) (String.string_of_list_ascii b).
Definition between (lo hi s : text) : bool := bool_decide (tcompare s lo <> Lt) && bool_decide (tcompare s hi <> Gt).
Definition char_at (i : nat) (c : Ascii.ascii) (s : text) : bool := bool_decide (s !! i = Some c).

Definition lift_sum {A} (x : error + A) : Prog unit A := match x with inr a => ret a | inl e => throw e end.

Definition pack (year month day hour minute sec : Z) : Z :=
  Z.shiftl year 40 + Z.shiftl month 32 + Z.shiftl day 24 + Z.shiftl hour 16 + Z.shiftl minute 8 + sec.

(** [Value::check_set_datetime] *)
Definition check_set_datetime (s : text) : Prog unit Value :=
  if (zlen s =? 19) && char_at 4 "-"%char s && char_at 7 "-"%char s && char_at 10 " "%char s && char_at 13 ":"%char s && char_at 16 ":"%char s then
    let syear := substr 0 4 s in let smonth := substr 5 2 s in let sday := substr 8 2 s in
    let shour := substr 11 2 s in let sminute := substr 14 2 s in let ssec := substr 17 2 s in
    let* year := lift_sum (stoi syear) in
    let* month := lift_sum (stoi smonth) in
    let* day := lift_sum (stoi sday) in
    if between (str "1000") (str "9999") syear && between (str "01") (str "12") smonth && between (str "01") (str "31") sday &&
       between (str "00") (str "23") shour && between (str "00") (str "59") sminute && between (str "00") (str "59") ssec &&
       IsDayValid year month day then
      let* hour := lift_sum (stoll shour) in
      let* minute := lift_sum (stoll sminute) in
      let* sec := lift_sum (stoll ssec) in
      ret (VDatetime (pack year month day hour minute sec))
    else throw (DateTimeFormatError (String.string_of_list_ascii s))
  else throw (DateTimeFormatError (String.string_of_list_ascii s)).

(** [std::string(n - s.size(), '0') + s]: the size is unsigned, a longer string gives [std::length_error] *)
Definition pad (n : nat) (s : text) : option text :=
  if (length s <=? n)%nat then Some (replicate (n - length s) "0"%char ++ s) else None.

(** the text of a datetime column in [select_from] *)
Definition field (tmp : Z) (shift bits : Z) (width : nat) : Prog unit text :=
  deref (pad width (show_int (Z.land (Z.shiftr tmp shift) (2 ^ bits - 1)))).
Definition datetime_str (tmp : Z) : Prog unit text :=
  let* fyear := field tmp 40 16 4 in
  let* fmonth := field tmp 32 8 2 in
  let* fday := field tmp 24 8 2 in
  let* fhour := field tmp 16 8 2 in
  let* fminute := field tmp 8 8 2 in
  let* fsec := field tmp 0 8 2 in
  ret (fyear ++ str "-" ++ fmonth ++ str "-" ++ fday ++ str " " ++ fhour ++ str ":" ++ fminute ++ str ":" ++ fsec).

(** ** Conditions *)

(** the chain of comparisons of [test_record] and [test_join_record] *)
Definition apply_op (op : CompOp) (l r : Value) : bool :=
  match op with OP_EQ => eq l r | OP_NE => ne l r | OP_LT => lt l r | OP_GT => gt l r | OP_LE => le l r | OP_GE => ge l r end.

(** [Condition::test_record] *)
Definition test_record (cond : Condition) (cols : list ColMeta) (data : list Z) : Prog unit bool :=
  let* lhs_col_meta := lift_sum (Meta.find_from_cols cols (tc_col_name (lhs_col cond))) in
  let* lhs_val := read_from_record data lhs_col_meta in
  let* real_rhs_val := (if negb (is_rhs_val cond) then
                          let* rhs_col_meta := lift_sum (Meta.find_from_cols cols (tc_col_name (rhs_col cond))) in
                          read_from_record data rhs_col_meta
                        else ret (rhs_val cond)) in
  ret (apply_op (cond_op cond) lhs_val real_rhs_val).

(** [Condition::test_join_record] *)
Definition test_join_record (cond : Condition) (left_cols : list ColMeta) (left_rec : list Z)
    (right_cols : list ColMeta) (right_rec : list Z) : Prog unit bool :=
  if is_rhs_val cond then test_record cond left_cols left_rec
  else
    let* cond_rhs_col_meta := lift_sum (Meta.find_from_cols right_cols (tc_col_name (rhs_col cond))) in
    let* real_rhs_val := read_from_record right_rec cond_rhs_col_meta in
    let* cond_lhs_col_meta := lift_sum (Meta.find_from_cols left_cols (tc_col_name (lhs_col cond))) in
    let* real_lhs_val := read_from_record left_rec cond_lhs_col_meta in
    ret (apply_op (cond_op cond) real_lhs_val real_rhs_val).

Definition type_compatible (type1 type2 : ColType) : bool :=
  let number t := bool_decide (t = TYPE_INT \/ t = TYPE_FLOAT \/ t = TYPE_BIGINT) in
  let texty t := bool_decide (t = TYPE_STRING \/ t = TYPE_DATETIME) in
  if number type1 && number type2 then true else if texty type1 && texty type2 then true else false.
End Val.
