(* ===== verification/ValuesProps.v ===== *)
(** What values promise: integer literals are checked against the limits of their
    type, the bytes of a value read back as the value, datetimes print as they were
    written and compare in the order of time.  Comparisons between types and malformed
    datetimes do not behave. *)

From Stdlib Require Import Floats.SpecFloat Strings.Ascii.
From S2P Require Import Prelude Bytes Errors Disk Defs Float32 Text SmMeta Values.
Import Text Lit.
Local Open Scope prog_scope.

(** ** Decimal numerals *)

Definition sgn (c : comparison) : Z := match c with Lt => -1 | Eq => 0 | Gt => 1 end.
Definition dv (c : ascii) : Z := char_val c - 48.
Definition is_digit (c : ascii) : Prop := 0 <= dv c <= 9.
Definition value (acc : Z) (l : text) : Z := foldl (fun a c => 10 * a + dv c) acc l.

Lemma value_bounds acc l : Forall is_digit l -> acc * 10 ^ zlen l <= value acc l < (acc + 1) * 10 ^ zlen l.
Proof.
  intros Hl. revert acc. induction Hl as [|c l Hc _ IH]; intros acc; simpl; [unfold zlen; simpl; lia|].
  specialize (IH (10 * acc + dv c)). unfold is_digit in Hc. replace (zlen (c :: l)) with (Z.succ (zlen l)) by (unfold zlen; simpl length; lia).
  rewrite Z.pow_succ_r by apply zlen_nonneg. assert (0 < 10 ^ zlen l) by (apply Z.pow_pos_nonneg; [lia|apply zlen_nonneg]). nia.
Qed.

(** numerals of one length compare as their values *)
Lemma compare_chars_value acc a b :
  Forall is_digit a -> Forall is_digit b -> length a = length b -> compare_chars a b = sgn (Z.compare (value acc a) (value acc b)).
Proof.
  intros Ha. revert acc b. induction Ha as [|x a Hx Ha IH]; intros acc [|y b] Hb Hl; try done; [simpl; by rewrite Z.compare_refl|].
  apply Forall_cons in Hb as [Hy Hb]. injection Hl as Hl. cbn [compare_chars value foldl].
  pose proof (value_bounds (10 * acc + dv x) a Ha) as Va. pose proof (value_bounds (10 * acc + dv y) b Hb) as Vb.
  assert (Hz : zlen a = zlen b) by (unfold zlen; lia). rewrite Hz in Va. assert (0 < 10 ^ zlen b) by (apply Z.pow_pos_nonneg; [lia|apply zlen_nonneg]).
  unfold value in *. unfold dv in *. destruct (Z.ltb_spec (char_val y) (char_val x)).
  - rewrite (proj2 (Z.compare_gt_iff _ _)); [done|]. nia.
  - destruct (Z.ltb_spec (char_val x) (char_val y)); [rewrite (proj2 (Z.compare_lt_iff _ _)); [done|nia]|].
    replace (char_val x) with (char_val y) by lia. by apply IH.
Qed.

(** a numeral without leading zeros *)
Definition canonical (l : text) : Prop := Forall is_digit l /\ exists c r, l = c :: r /\ (r = [] \/ 1 <= dv c).

Lemma compare_pos_value a b : canonical a -> canonical b -> compare_pos_int_string a b = sgn (Z.compare (value 0 a) (value 0 b)).
Proof.
  intros [Ha (x & a' & -> & Hx)] [Hb (y & b' & -> & Hy)]. unfold compare_pos_int_string.
  assert (Hlt : forall (x y : ascii) (a b : text), Forall is_digit (x :: a) -> Forall is_digit (y :: b) -> (b = [] \/ 1 <= dv y) ->
    zlen (x :: a) < zlen (y :: b) -> value 0 (x :: a) < value 0 (y :: b)).
  { clear. intros x y a b Ha Hb Hy Hl. apply Forall_cons in Ha as [Hx Ha], Hb as [_ Hb].
    pose proof (value_bounds (dv x) a Ha) as Va. pose proof (value_bounds (dv y) b Hb) as Vb. unfold is_digit in Hx. change (value 0 (x :: a)) with (value (dv x) a).
    change (value 0 (y :: b)) with (value (dv y) b). assert (Hz : zlen a + 1 <= zlen b) by (unfold zlen in *; simpl length in Hl; lia).
    pose proof (zlen_nonneg a). assert (Hp : 10 * 10 ^ zlen a <= 10 ^ zlen b) by (rewrite <- Z.pow_succ_r by lia; apply Z.pow_le_mono_r; lia).
    assert (0 < 10 ^ zlen a) by (apply Z.pow_pos_nonneg; lia). destruct Hy as [->|Hy]; [change (zlen (@nil ascii)) with 0 in Hz; lia|nia]. }
  destruct (Z.ltb_spec (zlen (y :: b')) (zlen (x :: a'))) as [H|H].
  - rewrite (proj2 (Z.compare_gt_iff _ _)); [done|]. by apply Hlt.
  - destruct (Z.ltb_spec (zlen (x :: a')) (zlen (y :: b'))) as [H'|H'].
    + rewrite (proj2 (Z.compare_lt_iff _ _)); [done|]. by apply Hlt.
    + apply compare_chars_value; try done. unfold zlen in *. lia.
Qed.

Lemma char_digit x : (x < 10)%N -> dv (pretty_N_char x) = Z.of_N x.
Proof.
  intros Hx. assert (Hc : (x = 0 \/ x = 1 \/ x = 2 \/ x = 3 \/ x = 4 \/ x = 5 \/ x = 6 \/ x = 7 \/ x = 8 \/ x = 9)%N) by lia.
  repeat destruct Hc as [->|Hc]; [reflexivity..|]. subst. reflexivity.
Qed.

Lemma pretty_go_digits x s : (0 < x)%N -> exists ds, str (pretty_N_go x s) = ds ++ str s /\ Forall is_digit ds /\ value 0 ds = Z.of_N x /\
  exists c r, ds = c :: r /\ 1 <= dv c.
Proof.
  revert s. induction (N.lt_wf_0 x) as [x _ IH]. intros s Hx. rewrite pretty_N_go_step by done.
  pose proof (N.mod_lt x 10 ltac:(lia)) as Hm. pose proof (N.div_mod x 10 ltac:(lia)) as Hdm.
  remember (x `mod` 10)%N as m eqn:Em. set (c := pretty_N_char m). assert (Hd : dv c = Z.of_N m) by (by apply char_digit).
  assert (Hc : is_digit c) by (unfold is_digit; rewrite Hd; lia). destruct (decide (x `div` 10 = 0)%N) as [E0|Hne].
  - rewrite E0, pretty_N_go_0. exists [c]. split; [done|]. split; [by constructor|]. simpl. split; [lia|]. exists c, []. split; [done|lia].
  - destruct (IH (x `div` 10)%N ltac:(apply N.div_lt; lia) (String c s) ltac:(lia)) as (ds & E & Hds & Hv & c0 & r & -> & H1).
    exists ((c0 :: r) ++ [c]). rewrite E, <- app_assoc. split; [done|]. split; [apply Forall_app; split; [done|by constructor]|].
    split; [|by exists c0, (r ++ [c])]. unfold value in *. rewrite foldl_app, Hv. simpl. lia.
Qed.

Lemma pretty_N_canonical x : canonical (str (pretty x)) /\ value 0 (str (pretty x)) = Z.of_N x.
Proof.
  unfold pretty, pretty_N. destruct (decide (x = 0)%N) as [->|Hne].
  - split; [|done]. split; [repeat constructor; vm_compute; discriminate|]. exists "0"%char, []. by split; [|left].
  - destruct (pretty_go_digits x "" ltac:(lia)) as (ds & E & Hds & Hv & c & r & Ec & H1). rewrite E. cbn [str String.list_ascii_of_string]. rewrite app_nil_r.
    split; [|done]. split; [done|]. exists c, r. by split; [|right].
Qed.

Lemma starts_canonical l : canonical l -> starts "-"%char l = false /\ starts "+"%char l = false.
Proof.
  intros [Hl (c & r & -> & _)]. apply Forall_inv in Hl. unfold is_digit, dv in Hl. simpl.
  split; apply Ascii.eqb_neq; intros ->; vm_compute in Hl; destruct Hl as [Hl Hu]; [by apply Hl|by apply Hl].
Qed.

(** the numeral of an integer: a sign, and the numeral of its absolute value *)
Lemma show_int_form z : exists l, canonical l /\ value 0 l = Z.abs z /\ show_int z = if z <? 0 then "-"%char :: l else l.
Proof.
  destruct (pretty_N_canonical (Z.abs_N z)) as [Hc Hv]. exists (str (pretty (Z.abs_N z))). split; [done|]. split; [rewrite Hv; lia|]. by destruct z.
Qed.

Lemma compare_int_string_show a b : compare_int_string (show_int a) (show_int b) = sgn (Z.compare a b).
Proof.
  destruct (show_int_form a) as (la & Ca & Va & ->), (show_int_form b) as (lb & Cb & Vb & ->).
  destruct (starts_canonical la Ca) as [Ma Pa], (starts_canonical lb Cb) as [Mb Pb]. unfold compare_int_string.
  destruct (Z.ltb_spec a 0), (Z.ltb_spec b 0); cbn [starts tail]; rewrite ?Ma, ?Mb, ?Ascii.eqb_refl; cbn [andb negb].
  - rewrite compare_pos_value by done. rewrite Va, Vb, !Z.abs_neq by lia. rewrite Z.compare_opp, (Z.compare_antisym a b). by destruct (a ?= b).
  - by rewrite (proj2 (Z.compare_lt_iff _ _)) by lia.
  - by rewrite (proj2 (Z.compare_gt_iff _ _)) by lia.
  - unfold drop_plus. rewrite Pa, Pb, compare_pos_value by done. by rewrite Va, Vb, !Z.abs_eq by lia.
Qed.

Lemma sgn_le c : (sgn c <=? 0) = match c with Gt => false | _ => true end.
Proof. by destruct c. Qed.
Lemma sgn_ge c : (0 <=? sgn c) = match c with Lt => false | _ => true end.
Proof. by destruct c. Qed.

Lemma no_overflow_show hi lo z : no_overflow (show_int hi) (show_int lo) (show_int z) = (z <=? hi) && (lo <=? z).
Proof.
  unfold no_overflow. rewrite !compare_int_string_show, sgn_le, sgn_ge. unfold Z.leb. rewrite (Z.compare_antisym z lo).
  by destruct (z ?= hi), (z ?= lo).
Qed.

(** ** Bytes of values *)

(** a value that a column of [len] bytes can hold *)
Definition value_ok (v : Value) (len : Z) : Prop :=
  match v with
  | VInt i => int32_ok i /\ len = 4
  | VBigint i | VDatetime i => int64_ok i /\ len = 8
  | VFloat w => 0 <= w < 2 ^ 32 /\ len = 4
  | VString s => zlen (string_bytes s) <= len /\ Forall (fun b => b <> 0) (string_bytes s)
  end.

Lemma c_str_zeros l n : Forall (fun b => b <> 0) l -> Val.c_str (l ++ zeros n) = l.
Proof.
  induction 1 as [|b l Hb _ IH]; simpl; [|by rewrite (proj2 (Z.eqb_neq _ _) Hb), IH].
  unfold zeros. by destruct (Z.to_nat n).
Qed.

(** *** The bytes of a value *)

Lemma init_raw_ok v len : value_ok v len -> exists raw, Val.init_raw v len tt = (Ok raw, tt) /\ zlen raw = len.
Proof.
  destruct v as [i|i|w|s|i]; simpl; intros [H1 H2]; try rewrite H2; try (eexists; split; [reflexivity|]).
  - apply zlen_enc_i32.
  - apply zlen_enc_i64.
  - change (zlen (le_bytes 4 w) = 4). unfold zlen. by rewrite length_le_bytes.
  - rewrite (proj2 (Z.ltb_ge _ _) H1). eexists. split; [reflexivity|]. rewrite zlen_app, zlen_zeros by lia. lia.
  - apply zlen_enc_i64.
Qed.

(** a column that holds the bytes of a value reads as the value *)
Lemma read_raw v col d raw :
  cm_type col = Val.type v -> value_ok v (cm_len col) -> Val.init_raw v (cm_len col) tt = (Ok raw, tt) ->
  in_range (cm_offset col) (cm_len col) (zlen d) = true -> slice (cm_offset col) (cm_len col) d = raw ->
  Val.read_from_record d col tt = (Ok v, tt).
Proof.
  intros Ht Hv Hr Hin Hs.
  assert (Hload : Val.load d (cm_offset col) (cm_len col) tt = (Ok raw, tt)) by (unfold Val.load, mload; by rewrite Hin, Hs).
  unfold Val.read_from_record. rewrite Ht.
  destruct v as [i|i|w|s|i]; cbn [Val.type value_ok Val.init_raw] in *; destruct Hv as [Hi Hn]; try rewrite Hn in *.
  - rewrite (bind_ok _ _ _ _ _ Hload). injection Hr as <-. by rewrite dec_enc_i32.
  - rewrite (bind_ok _ _ _ _ _ Hload). injection Hr as <-. by rewrite dec_enc_i64.
  - rewrite (bind_ok _ _ _ _ _ Hload). assert (raw = le_bytes 4 w) as -> by (by injection Hr as <-). rewrite le_value_bytes.
    change (256 ^ Z.of_nat 4) with (2 ^ 32). by rewrite Z.mod_small.
  - rewrite (bind_ok _ _ _ _ _ Hload). rewrite (proj2 (Z.ltb_ge _ _) Hi) in Hr. injection Hr as <-. rewrite c_str_zeros by done.
    by rewrite bytes_string_bytes.
  - rewrite (bind_ok _ _ _ _ _ Hload). injection Hr as <-. by rewrite dec_enc_i64.
Qed.

(** ** Properties *)

Lemma no_overflow_range lo hi z : no_overflow (show_int hi) (show_int lo) (show_int z) = true <-> lo <= z <= hi.
Proof. rewrite no_overflow_show, andb_true_iff, !Z.leb_le. lia. Qed.

Lemma sto_show lo hi z : lo <= z <= hi -> sto lo hi (show_int z) = inr z.
Proof.
  intros Hz. unfold sto. rewrite <- (app_nil_r (show_int z)), number_Z by done.
  by rewrite (proj2 (Z.leb_le _ _) (proj1 Hz)), (proj2 (Z.leb_le _ _) (proj2 Hz)).
Qed.

(** the overflow check of integer literals: for the numeral of any integer,
    [no_overflow<int>] and [no_overflow<int64_t>] accept it exactly when it is in the
    range of the type, and then [std::stoi] and [std::stoll] return the integer. *)
Theorem literal_check_exact z :
  (no_overflow_int (show_int z) = true <-> - 2 ^ 31 <= z <= 2 ^ 31 - 1) /\
  (no_overflow_int64 (show_int z) = true <-> - 2 ^ 63 <= z <= 2 ^ 63 - 1) /\
  (no_overflow_int (show_int z) = true -> stoi (show_int z) = inr z) /\
  (no_overflow_int64 (show_int z) = true -> stoll (show_int z) = inr z).
Proof.
  unfold no_overflow_int, no_overflow_int64, stoi, stoll. rewrite !no_overflow_range. split_and!; try done; apply sto_show.
Qed.

(** a value and its bytes: what [init_raw] writes for a value into a column of
    its type, [read_from_record] reads back from the record as the same value, wherever
    the column is and whatever the rest of the record; strings are those without a zero
    byte that fit. *)
Theorem value_raw_roundtrip v col d :
  cm_type col = Val.type v -> value_ok v (cm_len col) -> 0 <= cm_offset col -> cm_offset col + cm_len col <= zlen d ->
  exists raw, Val.init_raw v (cm_len col) tt = (Ok raw, tt) /\ zlen raw = cm_len col /\
    Val.read_from_record (splice (cm_offset col) raw d) col tt = (Ok v, tt).
Proof.
  intros Ht Hv Ho Hl. destruct (init_raw_ok v (cm_len col) Hv) as (raw & E & Hz). exists raw. split; [done|]. split; [done|].
  pose proof (zlen_nonneg raw). apply (read_raw v col _ raw Ht Hv E).
  - rewrite zlen_splice by lia. apply in_range_spec. lia.
  - rewrite <- Hz. apply slice_splice_same; lia.
Qed.

(** comparing values of different types: [=], [<] and [>] are false and [<>], [<=]
    and [>=] are true whatever the values; the semantic analysis lets conditions between
    columns of different numeric types through ([type_compatible]), so that such a
    condition does not depend on the numbers. *)
Theorem mixed_comparison_constant op x y :
  Val.type x <> Val.type y -> Val.apply_op op x y = match op with OP_EQ | OP_LT | OP_GT => false | OP_NE | OP_LE | OP_GE => true end.
Proof. intros Ht. by destruct x, y; simpl in Ht; try done; destruct op. Qed.

Lemma mixed_comparison_constant_witness :
  Val.type_compatible TYPE_INT TYPE_FLOAT = true /\ Val.apply_op OP_LE (VInt 5) (VFloat 0) = true /\ Val.apply_op OP_EQ (VInt 0) (VFloat 0) = false.
Proof.
  split; [reflexivity|]. split; [apply (mixed_comparison_constant OP_LE (VInt 5) (VFloat 0)); discriminate|].
  apply (mixed_comparison_constant OP_EQ (VInt 0) (VFloat 0)); discriminate.
Defined.

Lemma value_raw_roundtrip_witness : exists raw,
  Val.init_raw (VString "ab") 8 tt = (Ok raw, tt) /\
  Val.read_from_record (splice 4 raw (zeros 12)) (mkColMeta "t" "b" TYPE_STRING 8 4 false) tt = (Ok (VString "ab"), tt).
Proof.
  destruct (value_raw_roundtrip (VString "ab") (mkColMeta "t" "b" TYPE_STRING 8 4 false) (zeros 12)) as (raw & H1 & _ & H3).
  - reflexivity.
  - split; [vm_compute; discriminate|]. repeat constructor; vm_compute; discriminate.
  - vm_compute. discriminate.
  - vm_compute. discriminate.
  - by exists raw.
Defined.

(** ** Datetimes *)

Definition dchar (x : Z) : ascii := ascii_of_nat (Z.to_nat (48 + x)).
Definition two (x : Z) : text := [dchar (x / 10); dchar (x mod 10)].
Definition four (x : Z) : text := two (x / 100) ++ two (x mod 100).
(** [YYYY-MM-DD HH:MM:SS] *)
Definition datetime_text (y mo d h mi se : Z) : text :=
  four y ++ str "-" ++ two mo ++ str "-" ++ two d ++ str " " ++ two h ++ str ":" ++ two mi ++ str ":" ++ two se.

(** checking a statement about small numbers by running through them *)
Lemma check_range (P : Z -> bool) n x : forallb P (seqZ 0 n) = true -> 0 <= x < n -> P x = true.
Proof. intros H Hx. rewrite forallb_forall in H. apply H, list_elem_of_In, elem_of_seqZ. lia. Qed.

Definition two_check (x : Z) : bool :=
  bool_decide (stoi (two x) = inr x) && bool_decide (stoll (two x) = inr x) && bool_decide (Val.pad 2 (show_int x) = Some (two x)).
Lemma two_checked : forallb two_check (seqZ 0 100) = true.
Proof. vm_compute. reflexivity. Qed.
Lemma two_reads x : 0 <= x < 100 -> stoi (two x) = inr x /\ stoll (two x) = inr x /\ Val.pad 2 (show_int x) = Some (two x).
Proof.
  intros Hx. pose proof (check_range _ _ _ two_checked Hx) as H.
  apply andb_true_iff in H as [H H3]. apply andb_true_iff in H as [H1 H2]. by apply bool_decide_eq_true in H1, H2, H3.
Qed.

Definition two_order (a b : Z) : bool := bool_decide (Val.tcompare (two a) (two b) = Z.compare a b).
Lemma two_ordered : forallb (fun a => forallb (two_order a) (seqZ 0 100)) (seqZ 0 100) = true.
Proof. vm_compute. reflexivity. Qed.
Lemma two_between lo hi x : 0 <= lo < 100 -> 0 <= hi < 100 -> 0 <= x < 100 -> Val.between (two lo) (two hi) (two x) = (lo <=? x) && (x <=? hi).
Proof.
  intros Hlo Hhi Hx. assert (Hc : forall a b, 0 <= a < 100 -> 0 <= b < 100 -> Val.tcompare (two a) (two b) = Z.compare a b).
  { intros a b Ha Hb. pose proof (check_range _ _ _ two_ordered Ha) as H. apply (check_range _ 100 b) in H; [|done]. by apply bool_decide_eq_true in H. }
  unfold Val.between. rewrite !Hc by done. unfold Z.leb. rewrite (Z.compare_antisym x lo). by destruct (x ?= lo), (x ?= hi).
Qed.

Definition four_check (x : Z) : bool :=
  implb (1000 <=? x) (bool_decide (stoi (four x) = inr x) && Val.between (str "1000") (str "9999") (four x) &&
    bool_decide (Val.pad 4 (show_int x) = Some (four x))).
Lemma four_checked : forallb four_check (seqZ 0 10000) = true.
Proof. vm_compute. reflexivity. Qed.
Lemma four_reads y : 1000 <= y <= 9999 ->
  stoi (four y) = inr y /\ Val.between (str "1000") (str "9999") (four y) = true /\ Val.pad 4 (show_int y) = Some (four y).
Proof.
  intros Hy. pose proof (check_range _ _ y four_checked ltac:(lia)) as H. unfold four_check in H. rewrite (proj2 (Z.leb_le _ _) (proj1 Hy)) in H.
  cbn [implb] in H. apply andb_true_iff in H as [H H3]. apply andb_true_iff in H as [H1 H2]. by apply bool_decide_eq_true in H1, H3.
Qed.

Record datetime_ok (y mo d h mi se : Z) : Prop := {
  dt_year : 1000 <= y <= 9999; dt_month : 1 <= mo <= 12; dt_day : 1 <= d <= 31; dt_valid : Val.IsDayValid y mo d = true;
  dt_hour : 0 <= h <= 23; dt_minute : 0 <= mi <= 59; dt_sec : 0 <= se <= 59;
}.

(** the fields of a packed datetime *)
Lemma pack_value y mo d h mi se : Val.pack y mo d h mi se = y * 2 ^ 40 + mo * 2 ^ 32 + d * 2 ^ 24 + h * 2 ^ 16 + mi * 2 ^ 8 + se.
Proof. unfold Val.pack. by rewrite !Z.shiftl_mul_pow2 by lia. Qed.

Lemma field_value tmp shift bits : 0 <= shift -> 0 <= bits -> Z.land (Z.shiftr tmp shift) (2 ^ bits - 1) = (tmp / 2 ^ shift) mod 2 ^ bits.
Proof. intros. rewrite Z.shiftr_div_pow2 by done. replace (2 ^ bits - 1) with (Z.ones bits) by (rewrite Z.ones_equiv; lia). by rewrite Z.land_ones. Qed.

Lemma pack_fields y mo d h mi se : datetime_ok y mo d h mi se ->
  let t := Val.pack y mo d h mi se in
  (t / 2 ^ 40) mod 2 ^ 16 = y /\ (t / 2 ^ 32) mod 2 ^ 8 = mo /\ (t / 2 ^ 24) mod 2 ^ 8 = d /\
  (t / 2 ^ 16) mod 2 ^ 8 = h /\ (t / 2 ^ 8) mod 2 ^ 8 = mi /\ (t / 2 ^ 0) mod 2 ^ 8 = se.
Proof.
  intros [Hy Hmo Hd _ Hh Hmi Hse] t. unfold t. rewrite pack_value.
  change (2 ^ 40) with 1099511627776. change (2 ^ 32) with 4294967296. change (2 ^ 24) with 16777216. change (2 ^ 16) with 65536.
  change (2 ^ 8) with 256. change (2 ^ 0) with 1. split_and!; Z.to_euclidean_division_equations; lia.
Qed.

(** the text has its separators and its six fields in place *)
Lemma datetime_parts y mo d h mi se :
  let s := datetime_text y mo d h mi se in
  (zlen s =? 19) && Val.char_at 4 "-" s && Val.char_at 7 "-" s && Val.char_at 10 " " s && Val.char_at 13 ":" s && Val.char_at 16 ":" s = true /\
  Val.substr 0 4 s = four y /\ Val.substr 5 2 s = two mo /\ Val.substr 8 2 s = two d /\
  Val.substr 11 2 s = two h /\ Val.substr 14 2 s = two mi /\ Val.substr 17 2 s = two se.
Proof. split_and!; reflexivity. Qed.

Lemma datetime_reads y mo d h mi se :
  datetime_ok y mo d h mi se -> Val.check_set_datetime (datetime_text y mo d h mi se) tt = (Ok (VDatetime (Val.pack y mo d h mi se)), tt).
Proof.
  intros [Hy Hmo Hd Hv Hh Hmi Hse]. destruct (four_reads y Hy) as (Y1 & Y2 & _).
  destruct (two_reads mo ltac:(lia)) as (MO1 & _ & _), (two_reads d ltac:(lia)) as (D1 & _ & _), (two_reads h ltac:(lia)) as (_ & H2 & _).
  destruct (two_reads mi ltac:(lia)) as (_ & MI2 & _), (two_reads se ltac:(lia)) as (_ & S2 & _). set (t := datetime_text y mo d h mi se).
  destruct (datetime_parts y mo d h mi se) as (P0 & E1 & E2 & E3 & E4 & E5 & E6). fold t in P0, E1, E2, E3, E4, E5, E6.
  unfold Val.check_set_datetime. rewrite P0, E1, E2, E3, E4, E5, E6.
  rewrite Y1, MO1, D1. cbn [Val.lift_sum].
  rewrite (bind_ok (ret y) _ tt y tt), (bind_ok (ret mo) _ tt mo tt), (bind_ok (ret d) _ tt d tt) by done.
  change (str "01") with (two 1). change (str "12") with (two 12). change (str "31") with (two 31). change (str "00") with (two 0).
  change (str "23") with (two 23). change (str "59") with (two 59). rewrite !two_between by lia. rewrite Y2, Hv.
  repeat (rewrite (proj2 (Z.leb_le _ _)) by lia). cbn [andb]. rewrite H2, MI2, S2. done.
Qed.

(** datetimes: the text of a valid date and time is accepted and packed into one
    integer, and the text that [select_from] prints for that integer is the text that was
    read. *)
Theorem datetime_roundtrip y mo d h mi se :
  datetime_ok y mo d h mi se ->
  let t := datetime_text y mo d h mi se in
  Val.check_set_datetime t tt = (Ok (VDatetime (Val.pack y mo d h mi se)), tt) /\
  Val.datetime_str (Val.pack y mo d h mi se) tt = (Ok t, tt).
Proof.
  intros Hok t. split; [by apply datetime_reads|]. pose proof Hok as [Hy Hmo Hd Hv Hh Hmi Hse]. destruct (four_reads y Hy) as (_ & _ & Y3).
  destruct (two_reads mo ltac:(lia)) as (_ & _ & MO3), (two_reads d ltac:(lia)) as (_ & _ & D3), (two_reads h ltac:(lia)) as (_ & _ & H3).
  destruct (two_reads mi ltac:(lia)) as (_ & _ & MI3), (two_reads se ltac:(lia)) as (_ & _ & S3).
  unfold Val.datetime_str, Val.field. rewrite !field_value by lia. destruct (pack_fields _ _ _ _ _ _ Hok) as (-> & -> & -> & -> & -> & ->).
  rewrite Y3, MO3, D3, H3, MI3, S3. reflexivity.
Qed.

Lemma datetime_roundtrip_witness :
  Val.check_set_datetime (str "2023-02-28 23:59:07") tt = (Ok (VDatetime (Val.pack 2023 2 28 23 59 7)), tt) /\
  Val.datetime_str (Val.pack 2023 2 28 23 59 7) tt = (Ok (str "2023-02-28 23:59:07"), tt).
Proof. apply (datetime_roundtrip 2023 2 28 23 59 7). split; try lia. reflexivity. Defined.

(** datetimes that are not dates: the fields are compared with their limits as
    strings and converted up to the first character that is not a digit, so that letters
    pass; the year [2xyz] is accepted as the year 2. *)
Theorem datetime_accepts_letters :
  Val.check_set_datetime (str "2xyz-01-1x 0a:00:00") tt = (Ok (VDatetime (Val.pack 2 1 1 0 0 0)), tt).
Proof. vm_compute. reflexivity. Qed.
