(* ===== verification/Executor.v ===== *)
(** The executor interface: [AbstractExecutor] of
    [src/src/execution/executor_abstract.h].

    [AbstractExecutor W E] lists the virtual functions of an executor with state
    [E] over the rest of the system [W]; a parent executor is written against it.
    [ExecutorLaws] states what a parent may rely on: from [beginTuple] on, the
    executor enumerates a fixed list of tuples.  [Next] may move the tuple out of
    the executor, so it may be called once per position.  [Restartable] adds that
    [beginTuple] may be called again; not every executor of the program keeps that
    promise. *)

From S2P Require Import Prelude Bytes Errors Disk Defs Text SmMeta Values.

Class AbstractExecutor (W E : Type) := {
  cols : E -> list ColMeta;
  tupleLen : E -> error + Z;
  is_end : E -> bool;
  beginTuple : Prog (E * W) unit;
  nextTuple : Prog (E * W) unit;
  Next : Prog (E * W) RmRecord;
  get_col_offset : TabCol -> E -> error + ColMeta;
}.
Arguments cols W {E _} _ : rename.
Arguments tupleLen W {E _} _ : rename.
Arguments is_end W {E _} _ : rename.
Arguments get_col_offset W {E _} _ _ : rename.

(** [AbstractExecutor::get_col] and the loop of the [get_col_offset]s: a column is found by
    table and name; [get_col] yields the position *)
Definition col_is (target : TabCol) (c : ColMeta) : bool :=
  bool_decide (cm_tab_name c = tc_tab_name target) && bool_decide (cm_name c = tc_col_name target).
Fixpoint find_pos (rec_cols : list ColMeta) (target : TabCol) : option nat :=
  match rec_cols with
  | [] => None
  | c :: rest => if col_is target c then Some O else S <$> find_pos rest target
  end.
Definition get_col (rec_cols : list ColMeta) (target : TabCol) : error + nat :=
  match find_pos rec_cols target with
  | Some i => inr i
  | None => inl (ColumnNotFoundError (tc_tab_name target +:+ "." +:+ tc_col_name target))
  end.
Definition col_offset_in (rec_cols : list ColMeta) (target : TabCol) : error + ColMeta :=
  match find_pos rec_cols target with
  | Some i => match rec_cols !! i with Some c => inr c | None => inl (ColumnNotFoundError (tc_col_name target)) end
  | None => inl (ColumnNotFoundError (tc_col_name target))
  end.

(** the record of a tuple, and the tuple of a record *)
Definition rec_of (t : list Z) : RmRecord := mkRmRecord t (zlen t).

(** what the operations of an executor never change *)
Definition same_shape {W E} {X : AbstractExecutor W E} (e e' : E) : Prop :=
  cols W e' = cols W e /\ tupleLen W e' = tupleLen W e.

Class ExecutorLaws (W E : Type) {X : AbstractExecutor W E} (I : W -> Prop) := {
  ex_src : E -> list (list Z) -> Prop;                      (** [beginTuple] would start enumerating these *)
  ex_at : E -> list (list Z) -> list (list Z) -> Prop;      (** of all of these, those are left; the first is there *)
  ex_taken : E -> list (list Z) -> list (list Z) -> Prop;   (** the first one has been moved out by [Next] *)
  ex_len e all : ex_src e all -> exists n, tupleLen W e = inr n /\ Forall (fun t => zlen t = n) all;
  ex_begin e all w : ex_src e all -> I w ->
    runs beginTuple (e, w) (fun _ s => ex_at s.1 all all /\ same_shape e s.1 /\ I s.2);
  ex_end e all ts : ex_at e all ts -> is_end W e = bool_decide (ts = []);
  ex_end_taken e all t ts : ex_taken e all (t :: ts) -> is_end W e = false;
  ex_next e all t ts w : ex_at e all (t :: ts) -> I w ->
    runs Next (e, w) (fun r s => r = rec_of t /\ ex_taken s.1 all (t :: ts) /\ same_shape e s.1 /\ I s.2);
  ex_step e all t ts w : ex_at e all (t :: ts) \/ ex_taken e all (t :: ts) -> I w ->
    runs nextTuple (e, w) (fun _ s => ex_at s.1 all ts /\ same_shape e s.1 /\ I s.2);
}.
Arguments ex_src {W E X I L} _ _ : rename.
Arguments ex_at {W E X I L} _ _ _ : rename.
Arguments ex_taken {W E X I L} _ _ _ : rename.

Class Restartable (W E : Type) {X : AbstractExecutor W E} (I : W -> Prop) {L : ExecutorLaws W E I} := {
  ex_restart e all ts : ex_at e all ts \/ ex_taken e all ts -> ex_src e all;
}.

(** ** Loops over an executor *)

Section loops.
Context {W E : Type} {X : AbstractExecutor W E}.
Local Open Scope prog_scope.

(** [while (save.size() < n && !exec->is_end()) { save.emplace_back(exec->Next()); exec->nextTuple(); }] *)
Fixpoint fill (n : nat) : Prog (E * W) (list RmRecord) :=
  match n with
  | O => ret []
  | S n =>
      let* stop := gets (fun s => is_end W s.1) in
      if stop : bool then ret []
      else
        let* r := Next in
        nextTuple;;
        let* l := fill n in
        ret (r :: l)
  end.

(** [while (!exec->is_end()) { body(exec->Next()); exec->nextTuple(); }], with fuel; the body
    updates an accumulator *)
Fixpoint fold_rest {A} (body : A -> RmRecord -> Prog unit A) (acc : A) (fuel : nat) : Prog (E * W) A :=
  match fuel with
  | O => fail OutOfFuel
  | S fuel =>
      let* stop := gets (fun s => is_end W s.1) in
      if stop : bool then ret acc
      else
        let* r := Next in
        let* acc := pure_call (body acc r) in
        nextTuple;;
        fold_rest body acc fuel
  end.

(** the tuples a client sees: [for (e->beginTuple(); !e->is_end(); e->nextTuple()) ... e->Next() ...] *)
Definition all_tuples (fuel : nat) : Prog (E * W) (list RmRecord) :=
  beginTuple;;
  let* l := fold_rest (fun acc r => ret (r :: acc)) [] fuel in
  ret (rev l).
End loops.

Section loop_specs.
Context {W E : Type} {X : AbstractExecutor W E} {I : W -> Prop} {L : ExecutorLaws W E I}.

Lemma shape_refl (e : E) : same_shape (W:=W) e e.
Proof. done. Qed.
Lemma shape_trans (a b c : E) : same_shape (W:=W) a b -> same_shape (W:=W) b c -> same_shape (W:=W) a c.
Proof. intros [] []. split; congruence. Qed.

(** one round of a loop *)
Lemma take_one e all t ts w :
  ex_at e all (t :: ts) -> I w ->
  exists e1 e2 w1 w2, Next (e, w) = (Ok (rec_of t), (e1, w1)) /\ nextTuple (e1, w1) = (Ok tt, (e2, w2)) /\
    ex_at e2 all ts /\ same_shape e e2 /\ I w2.
Proof.
  intros Ha Hw. destruct (ex_next e all t ts w Ha Hw) as (r & [e1 w1] & E1 & -> & Ht & S1 & H1).
  destruct (ex_step e1 all t ts w1 (or_intror Ht) H1) as ([] & [e2 w2] & E2 & H2 & S2 & H3).
  exists e1, e2, w1, w2. split_and!; try done. by eapply shape_trans.
Qed.

Lemma fill_spec n : forall e all ts w,
  ex_at e all ts -> I w ->
  runs (fill n) (e, w) (fun l s => l = rec_of <$> take n ts /\ ex_at s.1 all (drop n ts) /\ same_shape e s.1 /\ I s.2).
Proof.
  induction n as [|n IH]; intros e all ts w Ha Hw; cbn [fill].
  - rstep. rewrite take_0, drop_0. by split_and!.
  - rstep. simpl. rewrite (ex_end e all ts Ha). destruct ts as [|t ts]; simpl.
    + rstep. by split_and!.
    + destruct (take_one e all t ts w Ha Hw) as (e1 & e2 & w1 & w2 & E1 & E2 & H2 & S2 & Hw2).
      eapply runs_bind_eq; [exact E1|]. eapply runs_bind_eq; [exact E2|].
      eapply runs_bind; [by apply (IH e2 all ts w2)|]. intros l s (-> & H3 & S3 & Hw3). rstep.
      split_and!; try done. by eapply shape_trans.
Qed.

Lemma fold_rest_spec {A} (body : A -> RmRecord -> Prog unit A) (P : list (list Z) -> A -> Prop) fuel : forall e all dn ts acc w,
  ex_at e all ts -> I w -> P dn acc -> (length ts < fuel)%nat ->
  (forall dn' t rest acc, dn ++ ts = dn' ++ t :: rest -> P dn' acc ->
     exists acc', body acc (rec_of t) tt = (Ok acc', tt) /\ P (dn' ++ [t]) acc') ->
  runs (fold_rest body acc fuel) (e, w) (fun a s => P (dn ++ ts) a /\ ex_at s.1 all [] /\ same_shape e s.1 /\ I s.2).
Proof.
  induction fuel as [|fuel IH]; intros e all dn ts acc w Ha Hw HP Hf Hb; [lia|]. cbn [fold_rest].
  rstep. simpl. rewrite (ex_end e all ts Ha). destruct ts as [|t ts]; simpl.
  - rstep. rewrite app_nil_r. by split_and!.
  - destruct (take_one e all t ts w Ha Hw) as (e1 & e2 & w1 & w2 & E1 & E2 & H2 & S2 & Hw2).
    eapply runs_bind_eq; [exact E1|]. destruct (Hb dn t ts acc eq_refl HP) as (acc' & Eb & HP').
    eapply runs_bind_pure; [exact Eb|]. eapply runs_bind_eq; [exact E2|].
    eapply runs_conseq; [apply (IH e2 all (dn ++ [t]) ts acc' w2); try done; [simpl in Hf; lia|]|].
    + intros dn' u rest a. rewrite <- app_assoc. apply Hb.
    + intros a s (H3 & H4 & S3 & Hw3). rewrite <- app_assoc in H3. split_and!; try done. by eapply shape_trans.
Qed.

(** A client that runs the executor sees its tuples, in order. *)
Lemma all_tuples_spec e all w fuel :
  ex_src e all -> I w -> (length all < fuel)%nat ->
  runs (all_tuples fuel) (e, w) (fun l s => l = rec_of <$> all /\ ex_at s.1 all [] /\ same_shape e s.1 /\ I s.2).
Proof.
  intros Hs Hw Hf. unfold all_tuples. eapply runs_bind; [by apply ex_begin|]. intros [] [e1 w1] (H1 & S1 & Hw1).
  eapply runs_bind.
  - apply (fold_rest_spec _ (fun dn acc => rev acc = rec_of <$> dn) fuel e1 all [] all [] w1); try done.
    intros dn t rest acc _ HP. exists (rec_of t :: acc). split; [done|]. simpl. by rewrite HP, fmap_app.
  - intros a s (HP & H2 & S2 & Hw2). rstep. split_and!; try done. by eapply shape_trans.
Qed.
End loop_specs.

(** ** Tuples in memory: a concrete executor that keeps the laws *)

Module Mem.
Record MemExecutor := mkMem { mx_cols : list ColMeta; mx_len : Z; mx_all : list (list Z); mx_rest : list (list Z) }.

#[export] Instance exec W : AbstractExecutor W MemExecutor := {
  cols := mx_cols;
  tupleLen e := inr (mx_len e);
  is_end e := bool_decide (mx_rest e = []);
  beginTuple := modify (fun s => (mkMem (mx_cols s.1) (mx_len s.1) (mx_all s.1) (mx_all s.1), s.2));
  nextTuple := modify (fun s => (mkMem (mx_cols s.1) (mx_len s.1) (mx_all s.1) (tl (mx_rest s.1)), s.2));
  Next := bind (gets (fun s => head (mx_rest s.1))) (fun t => bind (deref t) (fun t => ret (rec_of t)));
  get_col_offset target e := col_offset_in (mx_cols e) target;
}.

Definition src (e : MemExecutor) (all : list (list Z)) : Prop := mx_all e = all /\ Forall (fun t => zlen t = mx_len e) all.
Definition at_ (e : MemExecutor) (all ts : list (list Z)) : Prop := src e all /\ mx_rest e = ts.

#[export] Program Instance laws W (I : W -> Prop) : ExecutorLaws W MemExecutor I := { ex_src := src; ex_at := at_; ex_taken := at_ }.
Next Obligation. intros W I e all [<- H]. by exists (mx_len e). Qed.
Next Obligation. intros W I e all w [<- H] Hw. simpl. rstep. by split_and!. Qed.
Next Obligation. by intros W I e all ts [_ <-]. Qed.
Next Obligation. intros W I e all t ts [_ H]. simpl. by rewrite H. Qed.
Next Obligation. intros W I e all t ts w [H1 H2] Hw. simpl. rstep. simpl. rewrite H2. rstep; [reflexivity|]. rstep. by split_and!. Qed.
Next Obligation. intros W I e all t ts w Hor Hw. assert (Ha : at_ e all (t :: ts)) by tauto. destruct Ha as [H1 H2]. simpl. rstep. split_and!; [|done|done]. split; [done|]. simpl. by rewrite H2. Qed.
End Mem.
