(* ===== verification/Projection.v ===== *)
(** The projection: [ProjectionExecutor] of [src/src/execution/executor_projection.h],
    over any child executor. *)

From S2P Require Import Prelude Bytes Errors Disk Defs Text SmMeta Values.
From S2P Require Import Executor.

Record ProjectionExecutor (E : Type) := mkProjectionExecutor {
  pj_prev_ : E;
  pj_cols_ : list ColMeta;
  pj_len_ : Z;
  pj_sel_idxs_ : list nat;
  pj_rec_ : RmRecord;
}.
Arguments mkProjectionExecutor {E} _ _ _ _ _.
Arguments pj_prev_ {E} _.
Arguments pj_cols_ {E} _.
Arguments pj_len_ {E} _.
Arguments pj_sel_idxs_ {E} _.
Arguments pj_rec_ {E} _.

Module Proj.
Section ops.
Context {W E : Type} {X : AbstractExecutor W E}.
Local Open Scope prog_scope.
Abbreviation PE := (ProjectionExecutor E).

Definition set_prev (e : E) (p : PE) : PE := mkProjectionExecutor e (pj_cols_ p) (pj_len_ p) (pj_sel_idxs_ p) (pj_rec_ p).
Definition set_rec (r : RmRecord) (p : PE) : PE := mkProjectionExecutor (pj_prev_ p) (pj_cols_ p) (pj_len_ p) (pj_sel_idxs_ p) r.
Definition set_offset (off : Z) (c : ColMeta) : ColMeta := mkColMeta (cm_tab_name c) (cm_name c) (cm_type c) (cm_len c) off (cm_index c).

(** the loop of the constructor: positions, columns and the length *)
Fixpoint select (prev_cols : list ColMeta) (sel_cols : list TabCol) (curr_offset : Z) : error + (list nat * list ColMeta * Z) :=
  match sel_cols with
  | [] => inr ([], [], curr_offset)
  | sel_col :: rest =>
      match get_col prev_cols sel_col with
      | inl e => inl e
      | inr pos =>
          match prev_cols !! pos with
          | None => inl (ColumnNotFoundError (tc_col_name sel_col))
          | Some col =>
              match select prev_cols rest (curr_offset + cm_len col) with
              | inl e => inl e
              | inr (idxs, cs, len) => inr (pos :: idxs, set_offset curr_offset col :: cs, len)
              end
          end
      end
  end.

(** [ProjectionExecutor::ProjectionExecutor]; [buf0] is the fresh buffer of [rec_] *)
Definition make (buf0 : list Z) (prev : E) (sel_cols : list TabCol) : error + PE :=
  match select (cols W prev) sel_cols 0 with
  | inl e => inl e
  | inr (idxs, cs, len) => inr (mkProjectionExecutor prev cs len idxs (mkRmRecord (slice 0 len buf0) len))
  end.

(** one [memcpy] of [beginTuple] and [nextTuple] *)
Definition copy_col (dst src : list Z) (prev_col this_col : ColMeta) : option (list Z) :=
  d ← mload src (cm_offset prev_col) (cm_len prev_col); memcpy dst (cm_offset this_col) d (cm_len prev_col).
Fixpoint copy_cols (prev_cols : list ColMeta) (sel_idxs : list nat) (cs : list ColMeta) (src dst : list Z) : option (list Z) :=
  match sel_idxs, cs with
  | i :: sel_idxs, this_col :: cs =>
      prev_col ← prev_cols !! i;
      dst ← copy_col dst src prev_col this_col;
      copy_cols prev_cols sel_idxs cs src dst
  | _, _ => Some dst
  end.

Definition on_prev {A} (m : Prog (E * W) A) : Prog (PE * W) A :=
  zoom (fun s => (pj_prev_ s.1, s.2)) (fun t s => (set_prev t.1 s.1, t.2)) m.

(** the common part of [beginTuple] and [nextTuple] *)
Definition load : Prog (PE * W) unit :=
  let* p := gets fst in
  if is_end W (pj_prev_ p) then ret tt
  else
    let* record := on_prev Next in
    let* p := gets fst in
    let* d := deref (copy_cols (cols W (pj_prev_ p)) (pj_sel_idxs_ p) (pj_cols_ p) (data record) (data (pj_rec_ p))) in
    modify (fun s => (set_rec (mkRmRecord d (size (pj_rec_ s.1))) s.1, s.2)).

#[export] Instance exec : AbstractExecutor W PE := {
  cols := pj_cols_;
  tupleLen p := inr (pj_len_ p);
  is_end p := is_end W (pj_prev_ p);
  beginTuple := on_prev beginTuple;; load;
  nextTuple := on_prev nextTuple;; load;
  Next := gets (fun s => SetData (data (pj_rec_ s.1)) (mkRmRecord [] (pj_len_ s.1)));
  get_col_offset target p := col_offset_in (pj_cols_ p) target;
}.
End ops.

(** ** What it enumerates *)

(** the selected columns of a tuple, one after the other *)
Definition part (t : list Z) (c : ColMeta) : list Z := slice (cm_offset c) (cm_len c) t.
Definition project (prev_cols : list ColMeta) (idxs : list nat) (t : list Z) : list Z :=
  concat ((fun i => match prev_cols !! i with Some c => part t c | None => [] end) <$> idxs).

(** columns inside tuples of length [n] *)
Definition col_in (n : Z) (c : ColMeta) : Prop := 0 <= cm_offset c /\ 0 <= cm_len c /\ cm_offset c + cm_len c <= n.

(** the columns [cs] are the selected ones, laid out from [off] on *)
Inductive laid_out (prev_cols : list ColMeta) : Z -> list nat -> list ColMeta -> Z -> Prop :=
  | lo_nil off : laid_out prev_cols off [] [] off
  | lo_cons off i c idxs cs len : prev_cols !! i = Some c ->
      laid_out prev_cols (off + cm_len c) idxs cs len ->
      laid_out prev_cols off (i :: idxs) (set_offset off c :: cs) len.

Lemma select_laid_out prev_cols sel : forall off idxs cs len,
  select prev_cols sel off = inr (idxs, cs, len) -> laid_out prev_cols off idxs cs len.
Proof.
  induction sel as [|s sel IH]; intros off idxs cs len; cbn [select].
  - intros [= <- <- <-]. constructor.
  - destruct (get_col prev_cols s) as [|pos]; [done|]. destruct (prev_cols !! pos) as [c|] eqn:Hc; [|done].
    destruct (select prev_cols sel (off + cm_len c)) as [|[[idxs' cs'] len']] eqn:E; [done|].
    intros [= <- <- <-]. econstructor; eauto.
Qed.

Lemma zlen_part n c t : col_in n c -> zlen t = n -> zlen (part t c) = cm_len c.
Proof. intros (? & ? & ?) <-. by apply zlen_slice. Qed.

Lemma laid_out_len prev_cols n off idxs cs len t :
  laid_out prev_cols off idxs cs len -> Forall (col_in n) prev_cols -> zlen t = n -> zlen (project prev_cols idxs t) = len - off.
Proof.
  intros H Hin Ht. induction H as [off|off i c idxs cs len Hc H IH]; [unfold project, zlen; simpl; lia|].
  unfold project in *. rewrite fmap_cons. cbn [concat]. rewrite zlen_app, IH, Hc.
  rewrite (zlen_part n) by (done || by eapply Forall_lookup_1). lia.
Qed.

Lemma laid_out_le prev_cols n off idxs cs len : laid_out prev_cols off idxs cs len -> Forall (col_in n) prev_cols -> off <= len.
Proof.
  intros H Hin. induction H as [|off i c idxs cs len Hc H IH]; [lia|].
  assert (col_in n c) as (? & ? & ?) by (by eapply Forall_lookup_1). lia.
Qed.

(** the copies of the loop write the projected tuple *)
Lemma copy_cols_spec prev_cols n t : zlen t = n -> Forall (col_in n) prev_cols -> forall idxs off cs len dst,
  laid_out prev_cols off idxs cs len -> 0 <= off -> len <= zlen dst ->
  copy_cols prev_cols idxs cs t dst = Some (splice off (project prev_cols idxs t) dst).
Proof.
  intros Ht Hin idxs off cs len dst H. revert dst.
  induction H as [off|off i c idxs cs len Hc H IH]; intros dst Ho Hd; cbn [copy_cols].
  - unfold project, splice, zlen. simpl. rewrite Nat.add_0_r. by rewrite take_drop.
  - pose proof (laid_out_le _ _ _ _ _ _ H Hin) as Hle. assert (Hci : col_in n c) by (by eapply Forall_lookup_1).
    pose proof Hci as (H1 & H2 & H3). rewrite Hc. cbn [option_bind mbind]. unfold copy_col, mload.
    rewrite (proj2 (in_range_spec _ _ _)) by lia. cbn [option_bind mbind set_offset cm_offset].
    fold (part t c). pose proof (zlen_part n c t Hci Ht) as Hp. rewrite memcpy_ok by lia.
    simpl. rewrite IH by (rewrite ?zlen_splice; lia). rewrite <- Hp. rewrite splice_adjacent.
    + unfold project. rewrite fmap_cons. cbn [concat]. by rewrite Hc.
    + done.
    + rewrite (laid_out_len _ n _ _ _ _ _ H Hin Ht). lia.
Qed.

Section laws.
Context {W E : Type} {X : AbstractExecutor W E} {I : W -> Prop} {L : ExecutorLaws W E I}.
Abbreviation PE := (ProjectionExecutor E).

(** a projection as its constructor leaves it, whatever its buffer holds *)
Record wf (n : Z) (p : PE) : Prop := {
  wf_len : tupleLen W (pj_prev_ p) = inr n;
  wf_in : Forall (col_in n) (cols W (pj_prev_ p));
  wf_out : laid_out (cols W (pj_prev_ p)) 0 (pj_sel_idxs_ p) (pj_cols_ p) (pj_len_ p);
  wf_rec : zlen (data (pj_rec_ p)) = pj_len_ p;
}.

Definition out (p : PE) (t : list Z) : list Z := project (cols W (pj_prev_ p)) (pj_sel_idxs_ p) t.

Definition src (p : PE) (all : list (list Z)) : Prop :=
  exists n allp, wf n p /\ ex_src (pj_prev_ p) allp /\ all = out p <$> allp.
Definition at_ (p : PE) (all ts : list (list Z)) : Prop :=
  exists n allp tsp, wf n p /\ all = out p <$> allp /\ ts = out p <$> tsp /\ Forall (fun t => zlen t = n) allp /\ tsp `suffix_of` allp /\
    match tsp with
    | [] => ex_at (pj_prev_ p) allp []
    | t :: _ => ex_taken (pj_prev_ p) allp tsp /\ data (pj_rec_ p) = out p t
    end.

Lemma make_wf buf0 prev sel p n :
  make buf0 prev sel = inr p -> tupleLen W prev = inr n -> Forall (col_in n) (cols W prev) -> pj_len_ p <= zlen buf0 -> wf n p.
Proof.
  unfold make. destruct (select (cols W prev) sel 0) as [|[[idxs cs] len]] eqn:Es; [done|]. intros [= <-] Hl Hin Hb. simpl in Hb.
  pose proof (select_laid_out _ _ _ _ _ _ Es) as Ho. pose proof (laid_out_le _ _ _ _ _ _ Ho Hin).
  split; simpl; try done. rewrite zlen_slice; lia.
Qed.

(** a projection that has just been made *)
Lemma make_src buf0 prev sel n idxs cs len all :
  select (cols W prev) sel 0 = inr (idxs, cs, len) -> len <= zlen buf0 -> tupleLen W prev = inr n -> Forall (col_in n) (cols W prev) ->
  ex_src prev all -> exists p, make buf0 prev sel = inr p /\ src p (project (cols W prev) idxs <$> all).
Proof.
  intros Es Hb Hl Hin Hs. eexists. split; [unfold make; rewrite Es; reflexivity|]. exists n, all. split_and!; [|done|done].
  apply (make_wf buf0 prev sel); [unfold make; by rewrite Es|done|done|done].
Qed.

Lemma on_prev_runs {A} (m : Prog (E * W) A) p w a e' w' :
  m (pj_prev_ p, w) = (Ok a, (e', w')) -> on_prev m (p, w) = (Ok a, (set_prev e' p, w')).
Proof. intros H. unfold on_prev, zoom. simpl. by rewrite H. Qed.

Lemma wf_prev n p e' : wf n p -> same_shape (W:=W) (pj_prev_ p) e' -> wf n (set_prev e' p) /\ out (set_prev e' p) = out p.
Proof. intros [] [H1 H2]. unfold out. split; [split; simpl; by rewrite ?H1, ?H2|]. simpl. by rewrite H1. Qed.

(** after the child has moved *)
Lemma load_spec n p allp tsp w :
  wf n p -> Forall (fun t => zlen t = n) allp -> tsp `suffix_of` allp -> ex_at (pj_prev_ p) allp tsp -> I w ->
  runs load (p, w) (fun _ s => at_ s.1 (out p <$> allp) (out p <$> tsp) /\ same_shape p s.1 /\ I s.2).
Proof.
  intros Hp Hall Hsuf Ha Hw. unfold load. rstep. simpl. rewrite (ex_end _ _ _ Ha). destruct tsp as [|t tsp]; simpl.
  - rstep. split_and!; [|done|done]. by exists n, allp, [].
  - destruct (ex_next _ _ _ _ w Ha Hw) as (r & [e1 w1] & E1 & -> & Ht & S1 & Hw1).
    eapply runs_bind_eq; [by apply on_prev_runs|]. rstep. simpl. destruct (wf_prev n p e1 Hp S1) as [Hp1 Ho1].
    assert (Hlt : zlen t = n).
    { rewrite Forall_forall in Hall. apply Hall. destruct Hsuf as [k ->]. apply elem_of_app. right. constructor. }
    destruct Hp1 as [W1 W2 W3 W4]. simpl in *. rewrite (copy_cols_spec _ n t Hlt W2 _ 0 _ _ _ W3) by lia.
    rstep; [done|]. rstep. simpl. split_and!; [|done|done]. exists n, allp, (t :: tsp).
    assert (Hz : zlen (out p t) = zlen (data (pj_rec_ p))).
    { pose proof (laid_out_len _ n _ _ _ _ t W3 W2 Hlt) as Hl. unfold out in *. rewrite <- (proj1 S1). rewrite Hl, W4. lia. }
    assert (Hsp : splice 0 (project (cols W e1) (pj_sel_idxs_ p) t) (data (pj_rec_ p)) = out p t).
    { unfold out in *. rewrite (proj1 S1). by apply splice_all. }
    assert (Hout : out (set_rec (mkRmRecord (splice 0 (project (cols W e1) (pj_sel_idxs_ p) t) (data (pj_rec_ p))) (size (pj_rec_ p))) (set_prev e1 p)) = out p).
    { unfold out. simpl. by rewrite (proj1 S1). }
    rewrite Hout. split_and!; try done. split; simpl; try done. rewrite Hsp, Hz. done.
Qed.

Lemma at_rec_len n p allp t : wf n p -> Forall (fun t => zlen t = n) allp -> t ∈ allp -> zlen (out p t) = pj_len_ p.
Proof.
  intros [W1 W2 W3 W4] Hall Ht. unfold out. rewrite (laid_out_len _ n _ _ _ _ t W3 W2); [lia|]. rewrite Forall_forall in Hall. by apply Hall.
Qed.

#[export] Program Instance laws : ExecutorLaws W PE I := {
  ex_src := src; ex_at := at_; ex_taken p all ts := at_ p all ts;
}.
Next Obligation.
  intros p all (n & allp & Hp & Hs & ->). exists (pj_len_ p). split; [done|]. apply Forall_fmap, Forall_forall. intros t Ht. simpl.
  destruct (ex_len _ _ Hs) as (n' & Hn & Hall). rewrite (wf_len _ _ Hp) in Hn. injection Hn as <-. by eapply at_rec_len.
Qed.
Next Obligation.
  intros p all w (n & allp & Hp & Hs & ->) Hw. simpl. destruct (ex_begin _ _ w Hs Hw) as ([] & [e1 w1] & E1 & H1 & S1 & Hw1).
  destruct (ex_len _ _ Hs) as (n' & Hn & Hall). rewrite (wf_len _ _ Hp) in Hn. injection Hn as <-.
  eapply runs_bind_eq; [by apply on_prev_runs|]. destruct (wf_prev n p e1 Hp S1) as [Hp1 Ho1].
  rewrite <- Ho1. by apply (load_spec n (set_prev e1 p) allp allp w1).
Qed.
Next Obligation.
  intros p all ts (n & allp & tsp & Hp & -> & -> & Hall & Hsuf & H). simpl. destruct tsp as [|t tsp].
  - by rewrite (ex_end _ _ _ H).
  - destruct H as [H _]. by rewrite (ex_end_taken _ _ _ _ H).
Qed.
Next Obligation.
  intros p all t ts (n & allp & tsp & Hp & -> & Hts & Hall & Hsuf & H). simpl. destruct tsp as [|u tsp]; [done|].
  destruct H as [H _]. by rewrite (ex_end_taken _ _ _ _ H).
Qed.
Next Obligation.
  intros p all t ts w Ha Hw. pose proof Ha as (n & allp & tsp & Hp & -> & Hts & Hall & Hsuf & H). simpl. rstep.
  split_and!; try done. simpl. destruct tsp as [|u tsp]; [done|]. destruct H as [_ Hr]. injection Hts as -> ->.
  assert (Hin : u ∈ allp) by (destruct Hsuf as [k ->]; apply elem_of_app; right; constructor).
  unfold SetData, rec_of. simpl. rewrite Hr, <- (at_rec_len n p allp u) by done. by rewrite slice_full.
Qed.
Next Obligation.
  intros p all t ts w Hor Hw. assert (Ha : at_ p all (t :: ts)) by tauto. clear Hor.
  destruct Ha as (n & allp & tsp & Hp & -> & Hts & Hall & Hsuf & H). simpl. destruct tsp as [|u tsp]; [done|].
  destruct H as [H _]. injection Hts as -> ->.
  destruct (ex_step _ _ _ _ w (or_intror H) Hw) as ([] & [e1 w1] & E1 & H1 & S1 & Hw1).
  eapply runs_bind_eq; [by apply on_prev_runs|]. destruct (wf_prev n p e1 Hp S1) as [Hp1 Ho1].
  rewrite <- Ho1. apply (load_spec n (set_prev e1 p) allp tsp w1); try done.
  etrans; [|exact Hsuf]. by apply suffix_cons_r.
Qed.

#[export] Instance restartable {R : Restartable W E I} : Restartable W PE I.
Proof.
  split. intros p all ts Hor. assert (Ha : at_ p all ts) by (simpl in Hor; tauto). clear Hor.
  destruct Ha as (n & allp & tsp & Hp & -> & -> & Hall & Hsuf & H). exists n, allp. split_and!; try done.
  destruct tsp as [|t tsp]; [by eapply ex_restart; left|]. destruct H as [H _]. by eapply ex_restart; right.
Qed.
End laws.
End Proj.
