(* ===== verification/JoinProofs.v ===== *)
(** The block nested loop join enumerates the pairs that satisfy its conditions.

    [result] is the exact order: block by block of the left child, within it block
    by block of the right child, and within a pair of blocks row by row.  As a
    multiset it is the selection from the cross product. *)

From S2P Require Import Prelude Bytes Errors Disk Defs Text SmMeta Values.
From S2P Require Import Executor Join.

Module NljP.
Import Nlj.

Lemma outer_pos : (0 < OUTER_BUFFER_SIZE)%nat.
Proof. vm_compute. lia. Qed.
Lemma inner_pos : (0 < INNER_BUFFER_SIZE)%nat.
Proof. vm_compute. lia. Qed.
#[local] Opaque OUTER_BUFFER_SIZE INNER_BUFFER_SIZE.
#[local] Hint Resolve outer_pos inner_pos : core.

(** ** The result as a list *)

Section spec.
Context (sat : list Z -> list Z -> bool).

Definition row (l : list Z) (rb : list (list Z)) : list (list Z) := rb ≫= (fun r => if sat l r then [l ++ r] else []).
Definition block (lb rb : list (list Z)) : list (list Z) := lb ≫= (fun l => row l rb).
Definition right_blocks (lb rs : list (list Z)) : list (list Z) := chunks INNER_BUFFER_SIZE rs ≫= block lb.
Definition left_blocks (ls all_r : list (list Z)) : list (list Z) := chunks OUTER_BUFFER_SIZE ls ≫= (fun lb => right_blocks lb all_r).
(** the result of the join *)
Definition result (all_l all_r : list (list Z)) : list (list Z) := left_blocks all_l all_r.
(** the part of a pair of blocks from row [i] and column [j] on *)
Definition from (lb rb : list (list Z)) (i j : nat) : list (list Z) :=
  match drop i lb with [] => [] | l :: lb' => row l (drop j rb) ++ block lb' rb end.

Lemma right_blocks_step lb rs : right_blocks lb rs = block lb (take INNER_BUFFER_SIZE rs) ++ right_blocks lb (drop INNER_BUFFER_SIZE rs).
Proof.
  unfold right_blocks. destruct rs as [|r rs].
  - rewrite take_nil, drop_nil. simpl. rewrite app_nil_r. unfold block. induction lb as [|l lb IH]; [done|]. simpl. done.
  - by rewrite chunks_cons by done.
Qed.
Lemma left_blocks_step ls all_r : ls <> [] ->
  left_blocks ls all_r = right_blocks (take OUTER_BUFFER_SIZE ls) all_r ++ left_blocks (drop OUTER_BUFFER_SIZE ls) all_r.
Proof. intros H. unfold left_blocks. by rewrite chunks_cons. Qed.

Lemma from_0 lb rb : from lb rb 0 0 = block lb rb.
Proof. unfold from. rewrite !drop_0. by destruct lb. Qed.

Lemma length_row l rs : (length (row l rs) <= length rs)%nat.
Proof. unfold row. induction rs as [|r rs IH]; [done|]. rewrite bind_cons, length_app. destruct (sat l r); simpl in *; lia. Qed.
Lemma length_block lb rb : (length (block lb rb) <= length lb * length rb)%nat.
Proof.
  unfold block. induction lb as [|l lb IH]; [done|]. rewrite bind_cons, length_app. pose proof (length_row l rb). simpl in *. lia.
Qed.

(** ** As a multiset *)

Lemma row_app l a b : row l (a ++ b) = row l a ++ row l b.
Proof. unfold row. apply bind_app. Qed.
Lemma block_app lb a b : block lb (a ++ b) ≡ₚ block lb a ++ block lb b.
Proof.
  unfold block. induction lb as [|l lb IH]; [done|]. simpl. rewrite row_app, IH. rewrite <- !app_assoc. apply Permutation_app_head.
  rewrite !app_assoc. apply Permutation_app_tail, Permutation_app_comm.
Qed.
Lemma right_blocks_perm lb rs : right_blocks lb rs ≡ₚ block lb rs.
Proof.
  rewrite <- (concat_chunks INNER_BUFFER_SIZE rs) at 2 by done. unfold right_blocks. generalize (chunks INNER_BUFFER_SIZE rs) as cs.
  induction cs as [|c cs IH]; simpl.
  - unfold block. induction lb as [|l lb IHl]; [done|]. simpl. done.
  - rewrite IH. symmetry. apply block_app.
Qed.
Lemma result_perm all_l all_r : result all_l all_r ≡ₚ block all_l all_r.
Proof.
  unfold result, left_blocks. rewrite <- (concat_chunks OUTER_BUFFER_SIZE all_l) at 2 by done.
  generalize (chunks OUTER_BUFFER_SIZE all_l) as cs. induction cs as [|c cs IH]; [done|]. simpl.
  rewrite right_blocks_perm. unfold block at 2. rewrite bind_app. by f_equiv.
Qed.
End spec.

(** ** The laws *)

Section laws.
Context {W L R : Type} {XL : AbstractExecutor W L} {XR : AbstractExecutor W R} {I : W -> Prop}.
Context {LL : ExecutorLaws W L I} {LR : ExecutorLaws W R I} {RR : Restartable W R I}.
Context (fuel : nat).
Abbreviation NE := (NestedLoopJoinExecutor L R).
Implicit Types (p : NE).

(** the outcome of the conditions on a pair *)
Definition sat_of (p : NE) (l r : list Z) : bool :=
  match (test_all (fed_conds_ p) (left_cols_ p) l (right_cols_ p) r tt).1 with Ok b => b | _ => false end.
(** they can be evaluated on every pair *)
Definition testable (p : NE) (all_l all_r : list (list Z)) : Prop :=
  forall l r, l ∈ all_l -> r ∈ all_r -> exists b, test_all (fed_conds_ p) (left_cols_ p) l (right_cols_ p) r tt = (Ok b, tt).

(** what the operations never change *)
Record fixed (p : NE) (nl nr : Z) (all_l all_r : list (list Z)) : Prop := {
  fx_left : tupleLen W (left_ p) = inr nl;
  fx_right : tupleLen W (right_ p) = inr nr;
  fx_len : nj_len_ p = nl + nr;
  fx_alll : Forall (fun t => zlen t = nl) all_l;
  fx_allr : Forall (fun t => zlen t = nr) all_r;
  fx_test : testable p all_l all_r;
}.

(** the blocks in the buffers, and what the children have left *)
Record core (p : NE) (nl nr : Z) (all_l all_r lb rb ls rs : list (list Z)) : Prop := {
  co_fixed : fixed p nl nr all_l all_r;
  co_lsave : left_record_save_ p = rec_of <$> lb;
  co_rsave : right_record_save_ p = rec_of <$> rb;
  co_left : ex_at (left_ p) all_l ls;
  co_right : ex_at (right_ p) all_r rs;
  co_lb : forall l, l ∈ lb -> l ∈ all_l;
  co_rb : forall r, r ∈ rb -> r ∈ all_r;
  co_ls : forall l, l ∈ ls -> l ∈ all_l;
  co_rs : forall r, r ∈ rs -> r ∈ all_r;
}.

(** the blocks still to come *)
Definition blocks_left (all_r ls rs : list (list Z)) : nat :=
  (length (chunks INNER_BUFFER_SIZE rs) + length (chunks OUTER_BUFFER_SIZE ls) * length (chunks INNER_BUFFER_SIZE all_r))%nat.

Definition remaining (p : NE) (all_r lb rb ls rs : list (list Z)) : list (list Z) :=
  from (sat_of p) lb rb (left_index_ p) (right_index_ p) ++ right_blocks (sat_of p) lb rs ++ left_blocks (sat_of p) ls all_r.

Definition src (p : NE) (all : list (list Z)) : Prop :=
  exists nl nr all_l all_r, fixed p nl nr all_l all_r /\ ex_src (left_ p) all_l /\ ex_src (right_ p) all_r /\
    nj_is_end_ p = false /\ (length all_l * length all_r < fuel)%nat /\ all = result (sat_of p) all_l all_r.

Definition at_ (p : NE) (all ts : list (list Z)) : Prop :=
  (nj_is_end_ p = true /\ ts = []) \/
  (nj_is_end_ p = false /\ exists nl nr all_l all_r lb rb ls rs l r, core p nl nr all_l all_r lb rb ls rs /\
    (blocks_left all_r ls rs < fuel)%nat /\ all_r <> [] /\ ts = remaining p all_r lb rb ls rs /\
    lb !! left_index_ p = Some l /\ rb !! right_index_ p = Some r /\ sat_of p l r = true).

(** *** The search in the buffers *)

Lemma inner_for_spec p l : forall rs j rb,
  drop j rb = rs -> (forall r, r ∈ rs -> exists b, test_all (fed_conds_ p) (left_cols_ p) l (right_cols_ p) r tt = (Ok b, tt)) ->
  exists m, inner_for p l (rec_of <$> rs) j tt = (Ok m, tt) /\
    match m with
    | None => row (sat_of p) l rs = []
    | Some j' => row (sat_of p) l rs = row (sat_of p) l (drop j' rb) /\ exists r, rb !! j' = Some r /\ sat_of p l r = true
    end.
Proof.
  induction rs as [|r rs IH]; intros j rb Hd Hok; cbn [inner_for fmap list_fmap].
  - by exists None.
  - destruct (Hok r) as [b Hb]; [constructor|]. rewrite (bind_ok _ _ _ _ _ Hb).
    assert (Hs : sat_of p l r = b) by (unfold sat_of; by rewrite Hb).
    assert (Hd' : drop (S j) rb = rs).
    { replace (S j) with (j + 1)%nat by lia. by rewrite <- drop_drop, Hd. }
    destruct b.
    + exists (Some j). split; [done|]. rewrite Hd. split; [done|]. exists r. split; [|done].
      rewrite <- (Nat.add_0_r j), <- lookup_drop, Hd. done.
    + destruct (IH (S j) rb Hd') as (m & E & Hm); [intros r' Hr'; apply Hok; by constructor|].
      exists m. split; [exact E|]. unfold row in *. simpl. rewrite Hs. simpl. done.
Qed.

Lemma outer_for_spec p all_l all_r nl nr rb : fixed p nl nr all_l all_r -> right_record_save_ p = rec_of <$> rb ->
  (forall r, r ∈ rb -> r ∈ all_r) -> forall ls i j lb,
  drop i lb = ls -> (forall l, l ∈ ls -> l ∈ all_l) ->
  exists m, outer_for p (rec_of <$> ls) i j tt = (Ok m, tt) /\
    match m with
    | None => from (sat_of p) lb rb i j = []
    | Some (i', j') => from (sat_of p) lb rb i j = from (sat_of p) lb rb i' j' /\
        exists l r, lb !! i' = Some l /\ rb !! j' = Some r /\ sat_of p l r = true
    end.
Proof.
  intros Hf Hrb Hin. induction ls as [|l ls IH]; intros i j lb Hd Hls; cbn [outer_for fmap list_fmap].
  - exists None. split; [done|]. unfold from. by rewrite Hd.
  - destruct (inner_for_spec p l (drop j rb) j rb eq_refl) as (m & E & Hm).
    { intros r Hr. apply (fx_test _ _ _ _ _ Hf); [apply Hls; constructor|]. apply Hin. rewrite <- (take_drop j rb). apply elem_of_app. by right. }
    rewrite Hrb, <- fmap_drop. rewrite (bind_ok _ _ _ _ _ E).
    assert (Hli : lb !! i = Some l) by (rewrite <- (Nat.add_0_r i), <- lookup_drop, Hd; done).
    assert (Hd' : drop (S i) lb = ls).
    { replace (S i) with (i + 1)%nat by lia. by rewrite <- drop_drop, Hd. }
    destruct m as [j'|].
    + destruct Hm as (Hrow & r & Hr & Hs). exists (Some (i, j')). split; [done|]. split; [|by exists l, r].
      unfold from. by rewrite Hd, Hrow.
    + destruct (IH (S i) O lb Hd') as (m & E2 & Hm2); [intros l' Hl'; apply Hls; by constructor|].
      exists m. split; [exact E2|].
      assert (Heq : from (sat_of p) lb rb i j = from (sat_of p) lb rb (S i) 0).
      { unfold from. rewrite Hd, Hd', Hm, drop_0. simpl. by destruct ls. }
      destruct m as [[i' j']|]; by rewrite Heq.
Qed.

Lemma search_spec p nl nr all_l all_r lb rb ls rs : core p nl nr all_l all_r lb rb ls rs ->
  exists m, search p tt = (Ok m, tt) /\
    match m with
    | None => from (sat_of p) lb rb (left_index_ p) (right_index_ p) = []
    | Some (i', j') => from (sat_of p) lb rb (left_index_ p) (right_index_ p) = from (sat_of p) lb rb i' j' /\
        exists l r, lb !! i' = Some l /\ rb !! j' = Some r /\ sat_of p l r = true
    end.
Proof.
  intros Hc. unfold search. rewrite (co_lsave _ _ _ _ _ _ _ _ _ Hc), <- fmap_drop.
  apply (outer_for_spec p all_l all_r nl nr rb); [apply Hc|apply Hc|apply Hc|done|].
  intros l Hl. apply (co_lb _ _ _ _ _ _ _ _ _ Hc). rewrite <- (take_drop (left_index_ p) lb). apply elem_of_app. by right.
Qed.

(** *** Moving the children *)

Lemma fixed_left p nl nr all_l all_r e save : fixed p nl nr all_l all_r -> same_shape (W:=W) (left_ p) e -> fixed (set_left e save p) nl nr all_l all_r.
Proof. intros [] [_ Hl]. split; simpl; try done. by rewrite Hl. Qed.
Lemma fixed_right p nl nr all_l all_r e save : fixed p nl nr all_l all_r -> same_shape (W:=W) (right_ p) e -> fixed (set_right e save p) nl nr all_l all_r.
Proof. intros [] [_ Hl]. split; simpl; try done. by rewrite Hl. Qed.
Lemma fixed_index p nl nr all_l all_r i j : fixed p nl nr all_l all_r -> fixed (set_index i j p) nl nr all_l all_r.
Proof. by intros []; split. Qed.

Lemma on_left_eq {A} (m : Prog (L * W) A) p w a e' w' :
  m (left_ p, w) = (Ok a, (e', w')) -> on_left m (p, w) = (Ok a, (set_left e' (left_record_save_ p) p, w')).
Proof. intros H. unfold on_left, zoom. simpl. by rewrite H. Qed.
Lemma on_right_eq {A} (m : Prog (R * W) A) p w a e' w' :
  m (right_ p, w) = (Ok a, (e', w')) -> on_right m (p, w) = (Ok a, (set_right e' (right_record_save_ p) p, w')).
Proof. intros H. unfold on_right, zoom. simpl. by rewrite H. Qed.

Lemma fill_left_eq p all_l ls w : ex_at (left_ p) all_l ls -> I w ->
  exists e w', fill_left (p, w) = (Ok tt, (set_left e (rec_of <$> take OUTER_BUFFER_SIZE ls) p, w')) /\
    ex_at e all_l (drop OUTER_BUFFER_SIZE ls) /\ same_shape (left_ p) e /\ I w'.
Proof.
  intros Ha Hw. destruct (fill_spec OUTER_BUFFER_SIZE _ _ _ w Ha Hw) as (l & [e w'] & E & -> & H1 & H2 & H3).
  exists e, w'. split; [|done]. unfold fill_left. by rewrite (bind_ok _ _ _ _ _ (on_left_eq _ _ _ _ _ _ E)).
Qed.
Lemma fill_right_eq p all_r rs w : ex_at (right_ p) all_r rs -> I w ->
  exists e w', fill_right (p, w) = (Ok tt, (set_right e (rec_of <$> take INNER_BUFFER_SIZE rs) p, w')) /\
    ex_at e all_r (drop INNER_BUFFER_SIZE rs) /\ same_shape (right_ p) e /\ I w'.
Proof.
  intros Ha Hw. destruct (fill_spec INNER_BUFFER_SIZE _ _ _ w Ha Hw) as (l & [e w'] & E & -> & H1 & H2 & H3).
  exists e, w'. split; [|done]. unfold fill_right. by rewrite (bind_ok _ _ _ _ _ (on_right_eq _ _ _ _ _ _ E)).
Qed.

Lemma in_take {A} n (l : list A) x : x ∈ take n l -> x ∈ l.
Proof. rewrite <- (take_drop n l) at 2. intros. apply elem_of_app. by left. Qed.
Lemma in_drop {A} n (l : list A) x : x ∈ drop n l -> x ∈ l.
Proof. rewrite <- (take_drop n l) at 2. intros. apply elem_of_app. by right. Qed.
Lemma take_nil_inv {A} n (l : list A) : (0 < n)%nat -> take n l = [] -> l = [].
Proof. destruct n; [lia|]. by destruct l. Qed.

(** the next block of the right child is in the buffer *)
Lemma core_next_right p nl nr all_l all_r lb rb ls rs e :
  core p nl nr all_l all_r lb rb ls rs -> ex_at e all_r (drop INNER_BUFFER_SIZE rs) -> same_shape (W:=W) (right_ p) e ->
  core (set_right e (rec_of <$> take INNER_BUFFER_SIZE rs) (set_index 0 0 p)) nl nr all_l all_r lb
    (take INNER_BUFFER_SIZE rs) ls (drop INNER_BUFFER_SIZE rs).
Proof.
  intros Hc He Hs. destruct Hc. split; simpl; try done.
  - apply (fixed_right (set_index 0 0 p)); [by apply fixed_index|done].
  - intros r Hr. apply in_take in Hr. auto.
  - intros r Hr. apply in_drop in Hr. auto.
Qed.

(** the next block of the left child, and the first of the right one *)
Lemma core_next_left p nl nr all_l all_r lb rb ls rs er save el er' :
  core p nl nr all_l all_r lb rb ls rs -> same_shape (W:=W) (right_ p) er ->
  ex_at el all_l (drop OUTER_BUFFER_SIZE ls) -> same_shape (W:=W) (left_ p) el ->
  ex_at er' all_r (drop INNER_BUFFER_SIZE all_r) -> same_shape (W:=W) er er' ->
  core (set_right er' (rec_of <$> take INNER_BUFFER_SIZE all_r)
    (set_index 0 0 (set_left el (rec_of <$> take OUTER_BUFFER_SIZE ls) (set_right er save (set_index 0 0 p))))) nl nr all_l all_r
    (take OUTER_BUFFER_SIZE ls) (take INNER_BUFFER_SIZE all_r) (drop OUTER_BUFFER_SIZE ls) (drop INNER_BUFFER_SIZE all_r).
Proof.
  intros Hc Hs1 Hl Hs2 Hr Hs3. destruct Hc. split; simpl; try done.
  - apply fixed_right; [|done]. apply fixed_index, fixed_left; [|done]. apply fixed_right; [|done]. by apply fixed_index.
  - intros r Hr'. apply in_take in Hr'. auto.
  - intros r Hr'. by apply in_take in Hr'.
  - intros r Hr'. apply in_drop in Hr'. auto.
  - intros r Hr'. by apply in_drop in Hr'.
Qed.

Lemma blocks_next_right all_r ls rs : take INNER_BUFFER_SIZE rs <> [] ->
  (blocks_left all_r ls (drop INNER_BUFFER_SIZE rs) < blocks_left all_r ls rs)%nat.
Proof.
  intros Ht. assert (rs <> []) by (intros ->; by rewrite take_nil in Ht). unfold blocks_left.
  rewrite (chunks_cons INNER_BUFFER_SIZE rs) by done. simpl. lia.
Qed.
Lemma blocks_next_left all_r ls : ls <> [] -> all_r <> [] ->
  (blocks_left all_r (drop OUTER_BUFFER_SIZE ls) (drop INNER_BUFFER_SIZE all_r) < blocks_left all_r ls [])%nat.
Proof.
  intros Hl Hr. unfold blocks_left. rewrite (chunks_cons OUTER_BUFFER_SIZE ls), (chunks_cons INNER_BUFFER_SIZE all_r) by done.
  change (chunks INNER_BUFFER_SIZE (@nil (list Z))) with (@nil (list (list Z))). cbn [length]. lia.
Qed.

(** *** The loop *)

Lemma left_index_zero p nl nr all_l all_r lb rb ls rs :
  core p nl nr all_l all_r lb rb ls rs -> (left_index_ p < length lb)%nat ->
  set_index 0 (if (left_index_ p <? length (left_record_save_ p))%nat then 0 else right_index_ p) p = set_index 0 0 p.
Proof. intros Hc Hi. rewrite (co_lsave _ _ _ _ _ _ _ _ _ Hc), length_fmap. by rewrite (proj2 (Nat.ltb_lt _ _)). Qed.

Lemma loop_spec chk all nl nr all_l all_r n : forall p w lb rb ls rs,
  core p nl nr all_l all_r lb rb ls rs -> nj_is_end_ p = false -> (left_index_ p < length lb)%nat -> all_r <> [] ->
  (blocks_left all_r ls rs < n)%nat -> (n <= fuel)%nat -> I w ->
  runs (loop chk n) (p, w) (fun _ s => at_ s.1 all (remaining p all_r lb rb ls rs) /\ same_shape (X:=exec fuel) p s.1 /\ I s.2).
Proof.
  induction n as [|n IH]; intros p w lb rb ls rs Hc He Hi Hne Hn Hfu Hw; [lia|]. cbn [loop]. rstep. simpl fst.
  destruct (search_spec _ _ _ _ _ _ _ _ _ Hc) as (m & Es & Hm). eapply runs_bind_pure; [exact Es|]. destruct m as [[i j]|].
  - destruct Hm as (Heq & l & r & Hl & Hr & Hs). unfold upd. rstep. simpl. split_and!; [|done|done]. right. split; [done|].
    exists nl, nr, all_l, all_r, lb, rb, ls, rs, l, r. split_and!; try done; [|lia|].
    + destruct Hc. split; simpl; try done. by apply fixed_index.
    + unfold remaining. simpl. by rewrite Heq.
  - unfold remaining. rewrite Hm. simpl app. unfold upd at 1. rstep. cbn [fst snd].
    rewrite (left_index_zero _ _ _ _ _ _ _ _ _ Hc Hi).
    destruct (fill_right_eq (set_index 0 0 p) all_r rs w (co_right _ _ _ _ _ _ _ _ _ Hc) Hw) as (er & w1 & E1 & H1 & S1 & Hw1).
    eapply runs_bind_eq; [exact E1|]. rstep. cbn [fst]. pose proof (core_next_right _ _ _ _ _ _ _ _ _ er Hc H1 S1) as Hc1.
    rewrite right_blocks_step. destruct (decide (take INNER_BUFFER_SIZE rs = [])) as [Ht|Ht].
    + apply take_nil_inv in Ht as ->; [|done]. rewrite take_nil, drop_nil in *. simpl right_record_save_. cbn [fmap list_fmap].
      assert (Hre : is_end W er = true) by (by rewrite (ex_end _ _ _ H1)).
      eapply (runs_bind_eq _ _ _ tt); [by destruct chk; simpl; rewrite ?Hre|].
      destruct (fill_left_eq (set_right er [] (set_index 0 0 p)) all_l ls w1 (co_left _ _ _ _ _ _ _ _ _ Hc) Hw1) as (el & w2 & E2 & H2 & S2 & Hw2).
      eapply runs_bind_eq; [exact E2|]. rstep. cbn [fst].
      assert (Hz : forall sat, block sat lb [] = []) by (intros sat; unfold block; clear; induction lb; [done|]; simpl; done).
      assert (Hz' : forall sat, right_blocks sat lb [] = []) by done. rewrite Hz, Hz'. simpl app.
      destruct (decide (take OUTER_BUFFER_SIZE ls = [])) as [Hl|Hl].
      * rewrite Hl. cbn [set_left left_record_save_ fmap list_fmap]. apply take_nil_inv in Hl as ->; [|done]. rewrite drop_nil in H2.
        rstep; [simpl; by rewrite (ex_end _ _ _ H2)|]. unfold upd. rstep. simpl. split_and!; [|done|done]. by left.
      * assert (Hls : ls <> []) by (intros ->; by rewrite take_nil in Hl).
        destruct (rec_of <$> take OUTER_BUFFER_SIZE ls) as [|x xs] eqn:Ex; [by apply fmap_nil_inv in Ex|].
        cbn [set_left left_record_save_]. rewrite <- Ex. unfold upd at 1. rstep. cbn [fst snd].
        destruct (ex_begin er all_r w2) as ([] & [er1 w3] & E3 & H3 & S3 & Hw3); [by eapply ex_restart; left|done|].
        eapply runs_bind_eq; [by apply on_right_eq|].
        destruct (fill_right_eq (set_right er1 [] (set_index 0 0 (set_left el (rec_of <$> take OUTER_BUFFER_SIZE ls) (set_right er [] (set_index 0 0 p))))) all_r all_r w3
          H3 Hw3) as (er2 & w4 & E4 & H4 & S4 & Hw4).
        eapply runs_bind_eq; [exact E4|].
        pose proof (core_next_left _ _ _ _ _ _ _ _ _ er [] el er2 Hc S1 H2 S2 H4 (shape_trans _ _ _ S3 S4)) as Hc2.
        eapply runs_conseq; [apply (IH _ w4 _ _ _ _ Hc2); try done; simpl|].
        -- destruct (take OUTER_BUFFER_SIZE ls); simpl; [done|lia].
        -- pose proof (blocks_next_left all_r ls Hls Hne). unfold blocks_left in *. simpl in *. lia.
        -- lia.
        -- intros [] s (Ha & Hsh & Hw5). split_and!; [|done|done]. unfold remaining in Ha. simpl in Ha.
           rewrite from_0 in Ha. rewrite left_blocks_step, right_blocks_step by done. by rewrite <- app_assoc.
    + destruct (rec_of <$> take INNER_BUFFER_SIZE rs) as [|x xs] eqn:Ex; [by apply fmap_nil_inv in Ex|].
      cbn [set_right right_record_save_]. rewrite <- Ex in *.
      eapply runs_conseq; [apply (IH _ w1 _ _ _ _ Hc1); try done; simpl; try lia|].
      * pose proof (blocks_next_right all_r ls rs Ht). lia.
      * intros [] s (Ha & Hsh & Hw5). split_and!; [|done|done]. unfold remaining in Ha. simpl in Ha. rewrite from_0 in Ha.
        by rewrite <- app_assoc.
Qed.

(** *** The executor *)

Lemma elem_of_block sat lb rb t : t ∈ block sat lb rb <-> exists l r, l ∈ lb /\ r ∈ rb /\ sat l r = true /\ t = l ++ r.
Proof.
  unfold block, row. rewrite list_elem_of_bind. split.
  - intros (l & Ht & Hl). apply list_elem_of_bind in Ht as (r & Ht & Hr). destruct (sat l r) eqn:E; [|by apply elem_of_nil in Ht].
    apply list_elem_of_singleton in Ht as ->. by exists l, r.
  - intros (l & r & Hl & Hr & Hs & ->). exists l. split; [|done]. apply list_elem_of_bind. exists r. split; [|done].
    rewrite Hs. by apply list_elem_of_singleton.
Qed.

(** the pair at the current position is the head of what remains *)
Lemma from_head sat lb rb i j l r : lb !! i = Some l -> rb !! j = Some r -> sat l r = true ->
  from sat lb rb i j = (l ++ r) :: from sat lb rb i (S j).
Proof.
  intros Hl Hr Hs. unfold from. rewrite (drop_S lb l i Hl). rewrite (drop_S rb r j Hr). unfold row. simpl. by rewrite Hs.
Qed.

Lemma next_ok p nl nr all_l all_r lb rb ls rs l r w :
  core p nl nr all_l all_r lb rb ls rs -> lb !! left_index_ p = Some l -> rb !! right_index_ p = Some r ->
  next (p, w) = (Ok (rec_of (l ++ r)), (p, w)).
Proof.
  intros Hc Hl Hr. pose proof (co_fixed _ _ _ _ _ _ _ _ _ Hc) as [F1 F2 F3 F4 F5 _]. rewrite Forall_forall in F4, F5.
  assert (Hzl : zlen l = nl) by (apply F4, (co_lb _ _ _ _ _ _ _ _ _ Hc); by eapply list_elem_of_lookup_2).
  assert (Hzr : zlen r = nr) by (apply F5, (co_rb _ _ _ _ _ _ _ _ _ Hc); by eapply list_elem_of_lookup_2).
  pose proof (zlen_nonneg l). pose proof (zlen_nonneg r).
  unfold next, bind, gets, deref, pure_call, Val.lift_sum. simpl. rewrite (co_lsave _ _ _ _ _ _ _ _ _ Hc), (co_rsave _ _ _ _ _ _ _ _ _ Hc).
  rewrite !list_lookup_fmap, Hl, Hr, F1, F2. simpl.
  assert (Hz : zlen (zeros (nj_len_ p)) = nl + nr) by (rewrite zlen_zeros; lia).
  rewrite memcpy_ok by (simpl; lia). simpl. rewrite memcpy_ok by (rewrite ?zlen_splice; simpl; lia). simpl.
  replace nl with (0 + zlen l) at 1 by lia. rewrite splice_adjacent by lia.
  rewrite splice_all by (rewrite zlen_app; lia). unfold rec_of. rewrite zlen_app, F3, Hzl, Hzr. done.
Qed.

Lemma join_begin_spec p all w : src p all -> I w ->
  runs (begin_tuple fuel) (p, w) (fun _ s => at_ s.1 all all /\ same_shape (X:=exec fuel) p s.1 /\ I s.2).
Proof.
  intros (nl & nr & all_l & all_r & Hf & Hl & Hr & He & Hfu & ->) Hw. unfold begin_tuple.
  destruct (ex_begin _ _ w Hl Hw) as ([] & [e1 w1] & E1 & H1 & S1 & Hw1). eapply runs_bind_eq; [by apply on_left_eq|].
  destruct (fill_left_eq (set_left e1 (left_record_save_ p) p) all_l all_l w1 H1 Hw1) as (e2 & w2 & E2 & H2 & S2 & Hw2).
  eapply runs_bind_eq; [exact E2|]. unfold upd at 1. rstep. rstep. cbn [fst snd set_index left_record_save_ set_left].
  destruct (decide (all_l = [])) as [->|Hnl].
  { rewrite take_nil, drop_nil in *. cbn [fmap list_fmap]. rstep; [simpl; by rewrite (ex_end _ _ _ H2)|]. unfold upd. rstep. simpl. split_and!; [|done|done]. by left. }
  destruct (rec_of <$> take OUTER_BUFFER_SIZE all_l) as [|x xs] eqn:Ex.
  { apply fmap_nil_inv, take_nil_inv in Ex; done. }
  destruct (ex_begin _ _ w2 Hr Hw2) as ([] & [e3 w3] & E3 & H3 & S3 & Hw3). eapply runs_bind_eq; [by apply on_right_eq|].
  rewrite <- Ex.
  set (q := set_right e3 (right_record_save_ p) (set_index 0 (right_index_ p) (set_left e2 (rec_of <$> take OUTER_BUFFER_SIZE all_l) p))).
  destruct (fill_right_eq q all_r all_r w3 H3 Hw3) as (e4 & w4 & E4 & H4 & S4 & Hw4).
  eapply runs_bind_eq; [exact E4|]. rstep. cbn [fst set_right right_record_save_].
  destruct (decide (all_r = [])) as [->|Hnr].
  { rewrite take_nil, drop_nil in *. cbn [fmap list_fmap]. rstep; [simpl; by rewrite (ex_end _ _ _ H4)|]. unfold upd. rstep. simpl. split_and!; [|done|done].
    left. split; [done|]. unfold result, left_blocks. generalize (chunks OUTER_BUFFER_SIZE all_l) as cs. by induction cs. }
  destruct (rec_of <$> take INNER_BUFFER_SIZE all_r) as [|y ys] eqn:Ey; [by apply fmap_nil_inv, take_nil_inv in Ey|]. rewrite <- Ey.
  unfold upd at 1. rstep. cbn [fst snd set_right left_index_ q set_index set_left].
  eapply runs_conseq; [apply (loop_spec false (result (sat_of p) all_l all_r) nl nr all_l all_r fuel _ w4 (take OUTER_BUFFER_SIZE all_l)
    (take INNER_BUFFER_SIZE all_r) (drop OUTER_BUFFER_SIZE all_l) (drop INNER_BUFFER_SIZE all_r)); try done|].
  - split; simpl; try done; try (intros ? ?%in_take; done); try (intros ? ?%in_drop; done).
    destruct Hf as [F1 F2 F3 F4 F5 F6]. split; simpl; try done.
    + pose proof (shape_trans _ _ _ S1 S2) as [_ ->]. done.
    + pose proof (shape_trans _ _ _ S3 S4) as [_ ->]. done.
  - simpl. destruct (take OUTER_BUFFER_SIZE all_l); simpl; [done|lia].
  - pose proof (blocks_next_left all_r all_l Hnl Hnr) as Hb. unfold blocks_left in Hb at 2.
    change (chunks INNER_BUFFER_SIZE (@nil (list Z))) with (@nil (list (list Z))) in Hb. cbn [length] in Hb.
    pose proof (length_chunks INNER_BUFFER_SIZE all_r). pose proof (length_chunks OUTER_BUFFER_SIZE all_l). nia.
  - intros [] s (Ha & Hs & Hw5). split_and!; [|done|done]. unfold remaining in Ha. simpl in Ha. rewrite from_0 in Ha.
    unfold result. rewrite left_blocks_step, right_blocks_step by done. rewrite <- app_assoc. exact Ha.
Qed.

#[export] Program Instance laws : ExecutorLaws W NE (X:=exec fuel) I := {
  ex_src := src; ex_at := at_; ex_taken := at_;
}.
Next Obligation.
  intros p all (nl & nr & all_l & all_r & Hf & Hl & Hr & He & Hfu & ->). exists (nj_len_ p). split; [done|].
  rewrite Forall_forall. intros t Ht. rewrite result_perm in Ht. apply elem_of_block in Ht as (l & r & Hl' & Hr' & _ & ->).
  destruct Hf as [_ _ F3 F4 F5 _]. rewrite Forall_forall in F4, F5. rewrite zlen_app, F3, F4, F5 by done. done.
Qed.
Next Obligation. intros p all w Hs Hw. by apply join_begin_spec. Qed.
Next Obligation.
  intros p all ts [[He ->]|(He & nl & nr & all_l & all_r & lb & rb & ls & rs & l & r & Hc & _ & _ & -> & Hl & Hr & Hs)]; simpl; rewrite He; [done|].
  unfold remaining. by rewrite (from_head _ _ _ _ _ _ _ Hl Hr Hs).
Qed.
Next Obligation. intros p all t ts [[He Hts]|[He _]]; [done|exact He]. Qed.
Next Obligation.
  intros p all t ts w Ha Hw. pose proof Ha as [[He Hts]|(He & nl & nr & all_l & all_r & lb & rb & ls & rs & l & r & Hc & _ & _ & Hts & Hl & Hr & Hs)]; [done|].
  eapply runs_eq; [by eapply next_ok|]. split_and!; try done. unfold remaining in Hts.
  rewrite (from_head _ _ _ _ _ _ _ Hl Hr Hs) in Hts. by injection Hts as -> _.
Qed.
Next Obligation.
  intros p all t ts w Hor Hw. assert (Ha : at_ p all (t :: ts)) by tauto. clear Hor.
  destruct Ha as [[He Hts]|(He & nl & nr & all_l & all_r & lb & rb & ls & rs & l & r & Hc & Hb & Hne & Hts & Hl & Hr & Hs)]; [done|].
  simpl. unfold next_tuple, upd. rstep. cbn [fst snd]. unfold remaining in Hts. rewrite (from_head _ _ _ _ _ _ _ Hl Hr Hs) in Hts.
  injection Hts as _ Hts. rewrite Hts.
  apply (loop_spec true all nl nr all_l all_r fuel (set_index (left_index_ p) (S (right_index_ p)) p) w lb rb ls rs); try done.
  - destruct Hc. split; simpl; try done. by apply fixed_index.
  - simpl. by eapply lookup_lt_Some.
Qed.

(** a join that has just been made *)
Lemma join_src left right conds nl nr all_l all_r :
  ex_src left all_l -> ex_src right all_r -> tupleLen W left = inr nl -> tupleLen W right = inr nr ->
  (forall l r, l ∈ all_l -> r ∈ all_r -> exists b, test_all conds (cols W left) l (cols W right) r tt = (Ok b, tt)) ->
  (length all_l * length all_r < fuel)%nat ->
  exists p, make left right conds = inr p /\ src p (result (sat_of p) all_l all_r) /\ fed_conds_ p = conds /\
    left_cols_ p = cols W left /\ right_cols_ p = cols W right /\ nj_len_ p = nl + nr /\
    nj_cols_ p = cols W left ++ (shift_offset nl <$> cols W right).
Proof.
  intros Hl Hr El Er Ht Hf. unfold make. rewrite El, Er. eexists. split; [reflexivity|]. split; [|done].
  exists nl, nr, all_l, all_r. split_and!; try done. destruct (ex_len _ _ Hl) as (n & En & Hn), (ex_len _ _ Hr) as (n' & En' & Hn').
  rewrite El in En. rewrite Er in En'. injection En as <-. injection En' as <-. by split.
Qed.
End laws.

(** ** Restarting *)

Section restart.
Context {W L R : Type} {XL : AbstractExecutor W L} {XR : AbstractExecutor W R}.
Abbreviation NE := (NestedLoopJoinExecutor L R).

(** a computation that leaves [is_end_] set *)
Definition keeps_end {A} (m : Prog (NE * W) A) : Prop :=
  forall s, nj_is_end_ s.1 = true -> nj_is_end_ (m s).2.1 = true.

Lemma keeps_bind {A B} (m : Prog (NE * W) A) (k : A -> Prog (NE * W) B) : keeps_end m -> (forall a, keeps_end (k a)) -> keeps_end (bind m k).
Proof. intros Hm Hk s Hs. specialize (Hm s Hs). unfold bind. destruct (m s) as [[a|e|f] s']; [by apply Hk|done|done]. Qed.
Lemma keeps_ret {A} (a : A) : keeps_end (ret a).
Proof. by intros s Hs. Qed.
Lemma keeps_gets {A} (f : NE * W -> A) : keeps_end (gets f).
Proof. by intros s Hs. Qed.
Lemma keeps_fail {A} f : keeps_end (@fail error (NE * W) A f).
Proof. by intros s Hs. Qed.
Lemma keeps_assert b : keeps_end (assert b).
Proof. intros s Hs. by destruct b. Qed.
Lemma keeps_pure {A} (m : Prog unit A) : keeps_end (pure_call m).
Proof. by intros s Hs. Qed.
Lemma keeps_left {A} (m : Prog (L * W) A) : keeps_end (on_left m).
Proof. intros s Hs. unfold on_left, zoom. by destruct (m (left_ s.1, s.2)) as [r [e w]]. Qed.
Lemma keeps_right {A} (m : Prog (R * W) A) : keeps_end (on_right m).
Proof. intros s Hs. unfold on_right, zoom. by destruct (m (right_ s.1, s.2)) as [r [e w]]. Qed.
Lemma keeps_upd (f : NE -> NE) : (forall p, nj_is_end_ p = true -> nj_is_end_ (f p) = true) -> keeps_end (upd f).
Proof. intros Hf s Hs. by apply Hf. Qed.

Create HintDb keeps.
#[local] Hint Resolve keeps_ret keeps_gets keeps_fail keeps_assert keeps_pure keeps_left keeps_right : keeps.
Ltac keeps_tac := repeat first [solve [auto with keeps] | apply keeps_upd; done | apply keeps_bind; [|intros ?] | case_match].

Lemma keeps_loop chk n : keeps_end (loop chk n).
Proof. induction n as [|n IH]; cbn [loop]; unfold fill_left, fill_right; keeps_tac; exact IH. Qed.

Lemma keeps_begin fuel : keeps_end (begin_tuple fuel).
Proof. unfold begin_tuple, fill_left, fill_right. keeps_tac. apply keeps_loop. Qed.
End restart.
End NljP.
