(* ===== verification/SmState.v ===== *)
(** The state of the system manager: [SmManager] of [src/src/system/sm_manager.h], over a core [S]
    that holds the storage, the log and the locks.

    [std::shared_mutex] is a reader count and a writer flag.  A program step runs to
    its end before the next one, so a latch that cannot be taken is held by a step
    that has ended and will not release it: taking it is the failure [Deadlock].  A
    pointer to a file handle is the key of [fhs_] or [ihs_]. *)

From S2P Require Import Prelude Bytes Errors Disk Defs SmMeta RmFile IxDefs IxTree.

Record SharedMutex := mkSharedMutex { readers : Z; writer : bool }.
Definition free_mutex : SharedMutex := mkSharedMutex 0 false.

Record SmManager (S : Type) := mkSmManager {
  sm_core : S;
  db_ : DbMeta;
  db_latch_ : SharedMutex;
  fhs_ : gmap string RmFileHandle;
  ihs_ : gmap string IxIndexHandle;
  sm_latch_ : SharedMutex;
}.
Arguments mkSmManager {S} _ _ _ _ _ _.
Arguments sm_core {S} _.
Arguments db_ {S} _.
Arguments db_latch_ {S} _.
Arguments fhs_ {S} _.
Arguments ihs_ {S} _.
Arguments sm_latch_ {S} _.

Module SmSt.
Section ops.
Context {S : Type}.
Local Open Scope prog_scope.
Abbreviation SM := (SmManager S).

Definition set_core (c : S) (s : SM) : SM := mkSmManager c (db_ s) (db_latch_ s) (fhs_ s) (ihs_ s) (sm_latch_ s).
Definition set_db (d : DbMeta) (s : SM) : SM := mkSmManager (sm_core s) d (db_latch_ s) (fhs_ s) (ihs_ s) (sm_latch_ s).
Definition set_db_latch (l : SharedMutex) (s : SM) : SM := mkSmManager (sm_core s) (db_ s) l (fhs_ s) (ihs_ s) (sm_latch_ s).
Definition set_fhs (f : gmap string RmFileHandle) (s : SM) : SM := mkSmManager (sm_core s) (db_ s) (db_latch_ s) f (ihs_ s) (sm_latch_ s).
Definition set_ihs (f : gmap string IxIndexHandle) (s : SM) : SM := mkSmManager (sm_core s) (db_ s) (db_latch_ s) (fhs_ s) f (sm_latch_ s).
Definition set_sm_latch (l : SharedMutex) (s : SM) : SM := mkSmManager (sm_core s) (db_ s) (db_latch_ s) (fhs_ s) (ihs_ s) l.

(** running a computation of the core, and one on an open file *)
Definition on_core {A} (m : Prog S A) : Prog SM A := zoom sm_core set_core m.
Definition on_file {A} (tab : string) (m : Prog (S * RmFileHandle) A) : Prog SM A := fun s =>
  match fhs_ s !! tab with
  | None => (Fail Undef, s)
  | Some h => let '(r, (c, h')) := m (sm_core s, h) in (r, set_fhs (<[tab := h']> (fhs_ s)) (set_core c s))
  end.
Definition on_index {A} (name : string) (m : Prog (S * IxIndexHandle) A) : Prog SM A := fun s =>
  match ihs_ s !! name with
  | None => (Fail Undef, s)
  | Some h => let '(r, (c, h')) := m (sm_core s, h) in (r, set_ihs (<[name := h']> (ihs_ s)) (set_core c s))
  end.

(** [lock_shared], [unlock_shared], [lock], [unlock] *)
Definition lock_shared (m : SharedMutex) : option SharedMutex := if writer m then None else Some (mkSharedMutex (readers m + 1) false).
Definition unlock_shared (m : SharedMutex) : SharedMutex := mkSharedMutex (readers m - 1) (writer m).
Definition lock_excl (m : SharedMutex) : option SharedMutex := if writer m || negb (readers m =? 0) then None else Some (mkSharedMutex (readers m) true).
Definition unlock_excl (m : SharedMutex) : SharedMutex := mkSharedMutex (readers m) false.

Definition try_mutex (get : SM -> SharedMutex) (set : SharedMutex -> SM -> SM) (f : SharedMutex -> option SharedMutex) : Prog SM unit := fun s =>
  match f (get s) with Some m => (Ok tt, set m s) | None => (Fail Deadlock, s) end.

(** [DbMeta::RLatch] and the others *)
Definition RLatch : Prog SM unit := try_mutex db_latch_ set_db_latch lock_shared.
Definition RUnLatch : Prog SM unit := modify (fun s => set_db_latch (unlock_shared (db_latch_ s)) s).
Definition WLatch : Prog SM unit := try_mutex db_latch_ set_db_latch lock_excl.
Definition WUnLatch : Prog SM unit := modify (fun s => set_db_latch (unlock_excl (db_latch_ s)) s).
(** the latch of [fhs_] and [ihs_] *)
Definition latch_shared : Prog SM unit := try_mutex sm_latch_ set_sm_latch lock_shared.
Definition unlatch_shared : Prog SM unit := modify (fun s => set_sm_latch (unlock_shared (sm_latch_ s)) s).
Definition latch_excl : Prog SM unit := try_mutex sm_latch_ set_sm_latch lock_excl.
Definition unlatch_excl : Prog SM unit := modify (fun s => set_sm_latch (unlock_excl (sm_latch_ s)) s).

Definition of_sum {A} (x : error + A) : Prog SM A := match x with inr a => ret a | inl e => throw e end.

(** [DbMeta::get_table], and [DbMeta::is_table], which takes the latch itself *)
Definition get_table (tab_name : string) : Prog SM TabMeta := fun s => (match Meta.get_table (db_ s) tab_name with inr t => Ok t | inl e => Throw e end, s).
Definition is_table (tab_name : string) : Prog SM bool :=
  RLatch;;
  let* b := gets (fun s => Meta.is_table (db_ s) tab_name) in
  RUnLatch;;
  ret b.

(** [fhs_.at(tab_name).get()] and [ihs_.at(name).get()]: the pointer, if there is one *)
Definition fh_at (tab_name : string) : Prog SM string :=
  let* o := gets (fun s => fhs_ s !! tab_name) in
  match o with Some _ => ret tab_name | None => throw OutOfRange end.
Definition ih_at (name : string) : Prog SM string :=
  let* o := gets (fun s => ihs_ s !! name) in
  match o with Some _ => ret name | None => throw OutOfRange end.

(** the reads under a latch that the executors and the planner make; a throw leaves the latch held *)
Definition read_table (tab_name : string) : Prog SM TabMeta :=
  RLatch;; let* t := get_table tab_name in RUnLatch;; ret t.
Definition read_fh (tab_name : string) : Prog SM string :=
  latch_shared;; let* f := fh_at tab_name in unlatch_shared;; ret f.
End ops.

(** ** Facts *)

Section facts.
Context {S : Type}.
Implicit Types (s : SmManager S).

(** no writer: reads go through and give the latch back *)
Lemma read_table_ok tab_name t s :
  writer (db_latch_ s) = false -> Meta.get_table (db_ s) tab_name = inr t -> read_table tab_name s = (Ok t, s).
Proof.
  intros Hw Ht. destruct s as [c d [r w] f i l]. simpl in *. subst w.
  unfold read_table, RLatch, try_mutex, lock_shared, bind, get_table, RUnLatch, modify. simpl. rewrite Ht. simpl.
  unfold ret, set_db_latch, unlock_shared. simpl. by rewrite Z.add_simpl_r.
Qed.

Lemma read_fh_ok tab_name h s :
  writer (sm_latch_ s) = false -> fhs_ s !! tab_name = Some h -> read_fh tab_name s = (Ok tab_name, s).
Proof.
  intros Hw Ht. destruct s as [c d [r w] f i [r' w']]. simpl in *. subst w'.
  unfold read_fh, latch_shared, try_mutex, lock_shared, bind, fh_at, gets, unlatch_shared, modify, bind. simpl. rewrite Ht. simpl.
  unfold ret, set_sm_latch, unlock_shared. simpl. by rewrite Z.add_simpl_r.
Qed.

(** a table that does not exist: the exception leaves a reader behind, and the next writer never gets in *)
Lemma read_table_leaks tab_name s :
  writer (db_latch_ s) = false -> 0 <= readers (db_latch_ s) -> StrMap.find tab_name (tabs_ (db_ s)) = None ->
  exists s', read_table tab_name s = (Throw (TableNotFoundError tab_name), s') /\ readers (db_latch_ s') = readers (db_latch_ s) + 1 /\
    WLatch s' = (Fail Deadlock, s').
Proof.
  intros Hw Hr Ht. destruct s as [c d [r w] f i l]. simpl in *. subst w.
  eexists. split; [unfold read_table, RLatch, try_mutex, lock_shared, bind, get_table, Meta.get_table; simpl; rewrite Ht; reflexivity|].
  simpl. split; [done|]. unfold WLatch, try_mutex, lock_excl. simpl. destruct (Z.eqb_spec (r + 1) 0); [lia|done].
Qed.
End facts.
End SmSt.
