(* ===== verification/SeqScan.v ===== *)
(** The sequential scan: [SeqScanExecutor] of [src/src/execution/executor_seq_scan.h].

    The scan reads one page at a time into its buffer.  [tuple_buffer] holds unique
    pointers: [Next] moves one out and leaves a null pointer. *)

From S2P Require Import Prelude Bytes Errors Disk PageStore Bitmap Defs Text SmMeta.
From S2P Require Import RmFile Values IxTree SmState Executor.

Record SeqScanExecutor := mkSeqScanExecutor {
  ss_tab_name_ : string;
  ss_tab_ : TabMeta;
  ss_conds_ : list Condition;
  ss_fh_ : string;                 (** the key of the file handle *)
  ss_cols_ : list ColMeta;
  ss_len_ : Z;
  ss_txn_ : Z;                     (** [context_->txn_] *)
  tuple_buffer : list (option RmRecord);
  rids_buffer : list Rid;
  curr_page_in_buffer : Z;
  buffer_idx : nat;
  ss_is_end_ : bool;
}.

Module Scan.
Section ops.
Context {S : Type} {PS : PageStore S} (lock_shared_on_table : Z -> Z -> Prog S bool).
Local Open Scope prog_scope.
Abbreviation SM := (SmManager S).

Definition set_buffer (tuples : list (option RmRecord)) (rids : list Rid) (page : Z) (idx : nat) (fin : bool) (e : SeqScanExecutor) : SeqScanExecutor :=
  mkSeqScanExecutor (ss_tab_name_ e) (ss_tab_ e) (ss_conds_ e) (ss_fh_ e) (ss_cols_ e) (ss_len_ e) (ss_txn_ e) tuples rids page idx fin.

(** the constructor; [page0] and [idx0] are the uninitialised fields.  [cols_.back()] of a table without columns is
    undefined *)
Definition make (page0 : Z) (idx0 : nat) (tab_name : string) (conds : list Condition) (txn : Z) : Prog SM SeqScanExecutor :=
  let* tab := SmSt.read_table tab_name in
  let* fh := SmSt.read_fh tab_name in
  let* c := deref (last (tm_cols tab)) in
  let len := cm_offset c + cm_len c in
  let* rs := SmSt.on_file fh (let* h := Rm.hdr in ret (record_size h)) in
  assert (len =? rs);;
  ret (mkSeqScanExecutor tab_name tab conds fh (tm_cols tab) len txn [] [] page0 idx0 false).

(** the inner loop over the bitmap: the used slots, at most [num_records] of them *)
Fixpoint used_slots (p : page_ptr) (j : Z) (n : nat) (found : Z) : Prog (Rm.St (S:=S)) (list Z) :=
  match n with
  | O => ret []
  | Datatypes.S n =>
      let* num := Rm.get_field p off_num_records in
      if found <? num then
        let* used := Rm.bit_is_set p j in
        if used : bool then let* l := used_slots p (j + 1) n (found + 1) in ret (j :: l)
        else used_slots p (j + 1) n found
      else ret []
  end.

(** the conditions on one record, up to the first that fails *)
Fixpoint test_conds (conds : list Condition) (cols : list ColMeta) (d : list Z) : Prog unit bool :=
  match conds with
  | [] => ret true
  | cond :: conds =>
      let* flag := Val.test_record cond cols d in
      if flag : bool then test_conds conds cols d else ret false
  end.

(** the loop over the slots found *)
Fixpoint select_slots (e : SeqScanExecutor) (i : Z) (p : page_ptr) (slots : list Z) : Prog (Rm.St (S:=S)) (list (option RmRecord) * list Rid) :=
  match slots with
  | [] => ret ([], [])
  | slot_no :: slots =>
      let* h := Rm.hdr in
      let* d := Rm.lift (read_bytes p (Rm.slot_off h slot_no) (ss_len_ e)) in
      let* cond_flag := pure_call (test_conds (ss_conds_ e) (ss_cols_ e) d) in
      let* r := select_slots e i p slots in
      ret (if cond_flag : bool then (Some (RmRecord_of (ss_len_ e) d) :: r.1, mkRid i slot_no :: r.2) else r)
  end.

(** one page: fetch it, select its records, unpin it *)
Definition scan_one (e : SeqScanExecutor) (i : Z) : Prog (Rm.St (S:=S)) (list (option RmRecord) * list Rid) :=
  let* p := Rm.fetch_page_handle i in
  let* h := Rm.hdr in
  let* slots := used_slots p 0 (Z.to_nat (num_records_per_page h)) 0 in
  let* r := select_slots e i p slots in
  let* k := Rm.lift (get_page_id p) in
  Rm.rm_unpin_page k false;;
  ret r.

(** the loop over [n] pages from [i] on: the first page with a match, and its matches *)
Fixpoint find_page (e : SeqScanExecutor) (i : Z) (n : nat) : Prog (Rm.St (S:=S)) (option (Z * list (option RmRecord) * list Rid)) :=
  match n with
  | O => ret None
  | Datatypes.S n =>
      let* r := scan_one e i in
      match r.1 with
      | [] => find_page e (i + 1) n
      | _ => ret (Some (i, r.1, r.2))
      end
  end.

(** the part [beginTuple] and [nextTuple] share: look from page [i] on *)
Definition scan_from (i : Z) : Prog (SeqScanExecutor * SM) unit :=
  let* e := gets fst in
  let* r := zoom snd (fun s t => (t.1, s)) (SmSt.on_file (ss_fh_ e)
              (let* h := Rm.hdr in find_page e i (Z.to_nat (num_pages h - i)))) in
  modify (fun t => (match r with
                    | Some (page, tuples, rids) => set_buffer tuples rids page 0 (ss_is_end_ t.1) t.1
                    | None => set_buffer [] [] (curr_page_in_buffer t.1) (buffer_idx t.1) true t.1
                    end, t.2)).

Definition begin_tuple : Prog (SeqScanExecutor * SM) unit :=
  let* e := gets fst in
  let* fd := zoom snd (fun s t => (t.1, s)) (SmSt.on_file (ss_fh_ e) Rm.get_fd) in
  let* ok := zoom snd (fun s t => (t.1, s)) (SmSt.on_core (lock_shared_on_table (ss_txn_ e) fd)) in
  if negb ok then throw (TransactionAbortException (ss_txn_ e) DEADLOCK_PREVENTION)
  else
    modify (fun t => (set_buffer [] [] (curr_page_in_buffer t.1) 0 false t.1, t.2));;
    scan_from 1.

Definition next_tuple : Prog (SeqScanExecutor * SM) unit :=
  modify (fun t => (set_buffer (tuple_buffer t.1) (rids_buffer t.1) (curr_page_in_buffer t.1) (Datatypes.S (buffer_idx t.1)) (ss_is_end_ t.1) t.1, t.2));;
  let* e := gets fst in
  if (buffer_idx e =? length (tuple_buffer e))%nat then scan_from (curr_page_in_buffer e + 1) else ret tt.

(** [return std::move(tuple_buffer[buffer_idx])] *)
Definition next : Prog (SeqScanExecutor * SM) RmRecord :=
  let* e := gets fst in
  let* o := deref (tuple_buffer e !! buffer_idx e) in
  modify (fun t => (set_buffer (<[buffer_idx e := None]> (tuple_buffer t.1)) (rids_buffer t.1) (curr_page_in_buffer t.1) (buffer_idx t.1) (ss_is_end_ t.1) t.1, t.2));;
  deref o.

#[export] Instance exec : AbstractExecutor SM SeqScanExecutor := {
  cols := ss_cols_;
  tupleLen e := inr (ss_len_ e);
  is_end := ss_is_end_;
  beginTuple := begin_tuple;
  nextTuple := next_tuple;
  Next := next;
  get_col_offset target e := col_offset_in (ss_cols_ e) target;
}.

(** [SeqScanExecutor::rid] *)
Definition rid (e : SeqScanExecutor) : option Rid := rids_buffer e !! buffer_idx e.
End ops.
End Scan.
