(* ===== verification/SeqScanProofs.v ===== *)
(** The sequential scan enumerates the records of its table that satisfy its
    conditions, in the order of their record ids. *)

From S2P Require Import Prelude Bytes Errors Disk BufferPool PageStore Bitmap Defs Text SmMeta.
From Stdlib Require Import Sorting.Sorted.
From S2P Require Import RmFile RmPage RmProofs RmProps Values IxTree SmState Executor SeqScan.
Import RmPage.

Module ScanP.
Import Scan.

(** ** The rows of a page and of a table *)

(** the used slots among [n] from [j] on *)
Fixpoint rows_from (ap : apage) (j : Z) (n : nat) : list (Z * list Z) :=
  match n with
  | O => []
  | S n => match ap_recs ap !! j with Some x => (j, x) :: rows_from ap (j + 1) n | None => rows_from ap (j + 1) n end
  end.

Lemma elem_of_rows ap n : forall j i x, (i, x) ∈ rows_from ap j n <-> j <= i < j + Z.of_nat n /\ ap_recs ap !! i = Some x.
Proof.
  induction n as [|n IH]; intros j i x; cbn [rows_from].
  - rewrite elem_of_nil. split; [done|]. intros [? _]. lia.
  - destruct (ap_recs ap !! j) as [y|] eqn:Ej; [rewrite elem_of_cons|]; rewrite IH; split.
    + intros [[= -> ->]|[? ?]]; [split; [lia|done]|split; [lia|done]].
    + intros [? Hi]. destruct (decide (i = j)) as [->|]; [left; congruence|right; split; [lia|done]].
    + intros [? ?]. split; [lia|done].
    + intros [? Hi]. destruct (decide (i = j)) as [->|]; [congruence|]. split; [lia|done].
Qed.

Lemma NoDup_rows ap n : forall j, NoDup (rows_from ap j n).
Proof.
  induction n as [|n IH]; intros j; cbn [rows_from]; [constructor|]. destruct (ap_recs ap !! j) as [y|]; [|apply IH].
  constructor; [|apply IH]. rewrite elem_of_rows. intros [? _]. lia.
Qed.

Lemma rows_length hd ap b : page_rep hd ap b ->
  Z.of_nat (length (rows_from ap 0 (Z.to_nat (num_records_per_page hd)))) = Z.of_nat (stdpp.base.size (ap_recs ap)).
Proof.
  intros Hr. f_equal. rewrite <- length_map_to_list. apply Permutation_length, NoDup_Permutation; [apply NoDup_rows|apply NoDup_map_to_list|].
  intros [i x]. rewrite elem_of_rows, elem_of_map_to_list. split; [by intros [_ ?]|]. intros Hx. split; [|done].
  destruct (pr_slot _ _ _ Hr i x Hx) as [[? ?] _]. lia.
Qed.

(** the rows of a table, from page [i] on *)
Definition page_rows (hd : RmFileHdr) (pages : gmap Z apage) (i : Z) : list (Rid * list Z) :=
  match pages !! i with
  | Some ap => (fun r : Z * list Z => (mkRid i r.1, r.2)) <$> rows_from ap 0 (Z.to_nat (num_records_per_page hd))
  | None => []
  end.
Fixpoint table_rows (hd : RmFileHdr) (pages : gmap Z apage) (i : Z) (n : nat) : list (Rid * list Z) :=
  match n with O => [] | S n => page_rows hd pages i ++ table_rows hd pages (i + 1) n end.
Definition all_rows (h : RmFileHandle) (pages : gmap Z apage) : list (Rid * list Z) :=
  table_rows (file_hdr_ h) pages 1 (Z.to_nat (num_pages (file_hdr_ h) - 1)).

(** *** The rows are the records of the table, in order *)

Lemma elem_of_page_rows hd pages i rid x : (rid, x) ∈ page_rows hd pages i <->
  rid_page_no rid = i /\ 0 <= rid_slot_no rid < Z.max 0 (num_records_per_page hd) /\ RmP.rec_at pages rid = Some x.
Proof.
  unfold page_rows, RmP.rec_at. destruct (pages !! i) as [ap|] eqn:Ei.
  - rewrite list_elem_of_fmap. split.
    + intros ([j y] & [= -> ->] & Hin). apply elem_of_rows in Hin as [? ?]. simpl. rewrite Ei. split_and!; [done|lia|lia|done].
    + intros (Hp & Hs & Hr). rewrite Hp, Ei in Hr. exists (rid_slot_no rid, x). split; [destruct rid; simpl in *; by rewrite Hp|].
      apply elem_of_rows. split; [lia|done].
  - rewrite elem_of_nil. split; [done|]. intros (Hp & _ & Hr). by rewrite Hp, Ei in Hr.
Qed.

Lemma elem_of_table_rows hd pages rid x n : forall i, (rid, x) ∈ table_rows hd pages i n <->
  i <= rid_page_no rid < i + Z.of_nat n /\ 0 <= rid_slot_no rid < Z.max 0 (num_records_per_page hd) /\ RmP.rec_at pages rid = Some x.
Proof.
  induction n as [|n IH]; intros i; cbn [table_rows].
  - rewrite elem_of_nil. split; [done|]. intros [? _]. lia.
  - rewrite elem_of_app, elem_of_page_rows, IH. split; [intros [(? & ? & ?)|(? & ? & ?)]; split_and!; (lia || done)|].
    intros (? & ? & ?). destruct (decide (rid_page_no rid = i)); [left|right]; split_and!; (lia || done).
Qed.

Lemma sorted_page_rows hd pages i : StronglySorted rid_lt (page_rows hd pages i).*1.
Proof.
  unfold page_rows. destruct (pages !! i) as [ap|]; [|constructor]. rewrite <- list_fmap_compose.
  generalize 0 as j. induction (Z.to_nat (num_records_per_page hd)) as [|n IH]; intros j; cbn [rows_from]; [constructor|].
  destruct (ap_recs ap !! j) as [x|]; [|apply IH]. rewrite fmap_cons. constructor; [apply IH|]. apply Forall_fmap, Forall_forall.
  intros [k y] Hin. apply elem_of_rows in Hin as [? _]. unfold rid_lt, RmP.rid_le. simpl. lia.
Qed.

Lemma StronglySorted_app_lt {A} (R : A -> A -> Prop) (l1 l2 : list A) :
  StronglySorted R l1 -> StronglySorted R l2 -> (forall x y, x ∈ l1 -> y ∈ l2 -> R x y) -> StronglySorted R (l1 ++ l2).
Proof.
  induction 1 as [|x l1 Hs IH Hf]; intros H2 Hlt; [done|]. simpl. constructor.
  - apply IH; [done|]. intros y z Hy Hz. apply Hlt; [by constructor|done].
  - apply Forall_app. split; [done|]. apply Forall_forall. intros y Hy. apply Hlt; [constructor|done].
Qed.

Lemma sorted_table_rows hd pages n : forall i, StronglySorted rid_lt (table_rows hd pages i n).*1.
Proof.
  induction n as [|n IH]; intros i; cbn [table_rows]; [constructor|]. rewrite fmap_app. apply StronglySorted_app_lt; [apply sorted_page_rows|apply IH|].
  intros x y ([? a] & -> & Ha)%list_elem_of_fmap ([? b] & -> & Hb)%list_elem_of_fmap. apply elem_of_page_rows in Ha as (? & _).
  apply elem_of_table_rows in Hb as (? & _). unfold rid_lt, RmP.rid_le. simpl. lia.
Qed.

Lemma length_table_rows hd pages n : forall i, (length (table_rows hd pages i n) <= n * Z.to_nat (num_records_per_page hd))%nat.
Proof.
  assert (Hr : forall ap k j, (length (rows_from ap j k) <= k)%nat).
  { intros ap k. induction k as [|k IH]; intros j; cbn [rows_from]; [done|]. specialize (IH (j + 1)). destruct (ap_recs ap !! j); simpl; lia. }
  induction n as [|n IH]; intros i; cbn [table_rows]; [done|]. rewrite length_app. specialize (IH (i + 1)).
  assert (length (page_rows hd pages i) <= Z.to_nat (num_records_per_page hd))%nat.
  { unfold page_rows. destruct (pages !! i); [rewrite length_fmap; apply Hr|simpl; lia]. }
  simpl. lia.
Qed.

Section scan.
Context {S : Type} {PS : PageStore S} {PL : PageStoreLaws S} (C : S -> Prop) (HC : RmP.framed C).
Context (lock : Z -> Z -> Prog S bool).

(** a step that no file notices *)
Definition untouched (s s' : S) : Prop := forall h pages chain, RmP.rep C s h pages chain -> RmP.rep C s' h pages chain.

Lemma rest_untouched s s' k b :
  ps_page s k b -> ps_pins s k = 0 -> RmP.rest C s (ps_npages s) (ps_room s) k b s' -> untouched s s'.
Proof.
  intros Hb Hz Hr h pages chain Hrep. pose proof (RmP.re_others _ _ _ _ _ _ _ Hr) as Ho. destruct Hrep. split; try done.
  - apply Hr.
  - apply Hr.
  - by apply (RmP.re_file _ _ _ _ _ _ _ Hr).
  - by rewrite (RmP.re_npages _ _ _ _ _ _ _ Hr).
  - intros i ap Hi. destruct (rp_pages i ap Hi) as (c & Hc & Hp & Hq). exists c.
    destruct (decide (mkPageId (fd_ h) i = k)) as [Ek|Ek].
    + rewrite Ek in *. assert (c = b) as -> by (by eapply ps_page_fun). split_and!; [apply Hr|done|apply Hr].
    + split_and!; [by apply (ot_page _ _ _ _ _ _ _ Ho)|done|by rewrite (ot_pins _ _ _ _ _ _ _ Ho)].
  - by rewrite (RmP.re_room _ _ _ _ _ _ _ Hr).
Qed.

Lemma quiet_untouched s s' : RmP.quiet s s' -> C s' -> untouched s s'.
Proof.
  intros [] HC' h pages chain []. split; try done; auto.
  - by rewrite qt_npages.
  - intros i ap Hi. destruct (rp_pages i ap Hi) as (c & Hc & Hp & Hq). exists c. split_and!; [by apply qt_page|done|by rewrite qt_pins].
  - by rewrite qt_room.
Qed.

Lemma fetch_handle {B} s h pages chain i ap (f : page_ptr -> Prog Rm.St B) P :
  RmP.rep C s h pages chain -> pages !! i = Some ap ->
  (forall p b s1, RmP.wk C s (ps_npages s) (ps_room s - 1) (mkPageId (fd_ h) i) p b s1 -> page_rep (file_hdr_ h) ap b ->
     ps_clean s1 (mkPageId (fd_ h) i) -> ps_page s (mkPageId (fd_ h) i) b -> ps_pins s (mkPageId (fd_ h) i) = 0 -> runs (f p) (s1, h) P) ->
  runs (bind (Rm.fetch_page_handle i) f) (s, h) P.
Proof.
  intros Hrep Hi Hf. destruct (RmP.rp_pages _ _ _ _ _ Hrep i ap Hi) as (b & Hb & Hr & Hz).
  unfold Rm.fetch_page_handle, Rm.get_fd. rstep. rstep. simpl. rstep.
  apply (RmP.step_fetch C HC s (mkPageId (fd_ h) i) b); try done; try apply Hrep. eauto.
Qed.

(** *** One page *)

Section page.
Context (s0 : S) (N : Z -> Z) (R : Z) (k : PageId) (p : page_ptr) (hd : RmFileHdr) (Hhd : hdr_ok hd) (fd : Z).
Context (b : list Z) (ap : apage) (Hr : page_rep hd ap b).

Lemma used_slots_spec n : forall j found s,
  RmP.wk C s0 N R k p b s -> 0 <= j -> j + Z.of_nat n <= num_records_per_page hd ->
  found + Z.of_nat (length (rows_from ap j n)) = Z.of_nat (stdpp.base.size (ap_recs ap)) ->
  runs (used_slots p j n found) (s, mkRmFileHandle fd hd) (fun l t => l = (rows_from ap j n).*1 /\ t = (s, mkRmFileHandle fd hd)).
Proof.
  induction n as [|n IH]; intros j found s Hw Hj Hn Hc; cbn [used_slots rows_from] in *.
  - rstep. done.
  - eapply RmP.step_get_field; [exact Hw|unfold off_num_records; lia|]. fold (pg_num b). rewrite (pr_num _ _ _ Hr).
    assert (Hv : valid_slot hd j) by (unfold valid_slot; lia).
    destruct (Z.ltb_spec found (Z.of_nat (stdpp.base.size (ap_recs ap)))) as [Hlt|Hge].
    + eapply RmP.step_bit_is_set; [done|exact Hw|exact Hv|]. rewrite (pr_bit _ _ _ Hr j Hv).
      destruct (ap_recs ap !! j) as [x|] eqn:Ex; simpl in *.
      * eapply runs_bind; [apply (IH (j + 1) (found + 1)); try done; lia|]. intros l t [-> ->]. rstep. done.
      * apply IH; try done; lia.
    + rstep. split; [|done].
      destruct (ap_recs ap !! j) as [x|]; [simpl in Hc; lia|]. destruct (rows_from ap (j + 1) n); [done|simpl in Hc; lia].
Qed.

(** the records that satisfy the conditions *)
Definition sat (e : SeqScanExecutor) (d : list Z) : bool :=
  match (test_conds (ss_conds_ e) (ss_cols_ e) d tt).1 with Ok b => b | _ => false end.
Definition testable (e : SeqScanExecutor) (d : list Z) : Prop := exists b, test_conds (ss_conds_ e) (ss_cols_ e) d tt = (Ok b, tt).

Definition good (e : SeqScanExecutor) (rows : list (Rid * list Z)) : list (Rid * list Z) := List.filter (fun r => sat e r.2) rows.

Lemma select_slots_spec e i s : RmP.wk C s0 N R k p b s -> ss_len_ e = record_size hd -> forall rows,
  Forall (fun r : Z * list Z => ap_recs ap !! r.1 = Some r.2 /\ testable e r.2) rows ->
  runs (select_slots e i p rows.*1) (s, mkRmFileHandle fd hd) (fun r t =>
    r = ((fun q => Some (rec_of q.2)) <$> good e ((fun q : Z * list Z => (mkRid i q.1, q.2)) <$> rows),
         (good e ((fun q : Z * list Z => (mkRid i q.1, q.2)) <$> rows)).*1) /\ t = (s, mkRmFileHandle fd hd)).
Proof.
  intros Hw Hlen. induction rows as [|[j x] rows IH]; intros Hall; cbn [select_slots fmap list_fmap fst].
  - rstep. done.
  - apply Forall_cons in Hall as [[Hx [c Hc]] Hall]. simpl in Hx, Hc. destruct (pr_slot _ _ _ Hr j x Hx) as [Hv Hs].
    pose proof (slot_range hd Hhd j Hv). destruct Hhd as [Hrs ? ? ?]. unfold Rm.hdr. rstep. simpl.
    eapply RmP.step_read; [exact Hw|rewrite Hlen; apply in_range_spec; lia|]. rewrite Hlen. fold (pg_slot hd j b). rewrite Hs.
    eapply runs_bind_pure; [exact Hc|]. eapply runs_bind; [by apply IH|]. intros r t [-> ->]. rstep. split; [|done].
    assert (Hz : zlen x = record_size hd).
    { subst x. unfold pg_slot. rewrite zlen_slice; [done|lia|lia|rewrite (pr_len _ _ _ Hr); lia]. }
    assert (Hsat : sat e x = c) by (unfold sat; by rewrite Hc).
    unfold good. cbn [List.filter snd]. rewrite Hsat. destruct c; [|done].
    cbn [fmap list_fmap fst snd]. f_equal. f_equal. unfold RmRecord_of, rec_of. rewrite <- Hz. by rewrite slice_full.
Qed.
End page.

(** *** Pages *)

Definition tuples_of (rows : list (Rid * list Z)) : list (option RmRecord) := (fun q : Rid * list Z => Some (rec_of q.2)) <$> rows.

Lemma scan_one_spec e s h pages chain i :
  RmP.rep C s h pages chain -> is_Some (pages !! i) -> ss_len_ e = record_size (file_hdr_ h) ->
  Forall (fun r => testable e r.2) (page_rows (file_hdr_ h) pages i) ->
  runs (scan_one e i) (s, h) (fun r t => exists s', t = (s', h) /\ untouched s s' /\
    r = (tuples_of (good e (page_rows (file_hdr_ h) pages i)), (good e (page_rows (file_hdr_ h) pages i)).*1)).
Proof.
  intros Hrep [ap Hi] Hlen Htest. unfold scan_one. eapply fetch_handle; [exact Hrep|exact Hi|]. intros p b s1 Hw Hr Hcl Hpg Hz.
  pose proof (RmP.rp_hdr _ _ _ _ _ Hrep) as Hhd. destruct h as [fd hd]. simpl in *. unfold Rm.hdr. rstep. simpl.
  eapply runs_bind.
  { apply (used_slots_spec s (ps_npages s) (ps_room s - 1) (mkPageId fd i) p hd Hhd fd b ap Hr); [exact Hw|lia|destruct Hhd; lia|].
    rewrite (rows_length hd ap b) by done. lia. }
  intros slots t [-> ->]. eapply runs_bind.
  { apply (select_slots_spec s (ps_npages s) (ps_room s - 1) (mkPageId fd i) p hd Hhd fd b ap Hr e i s1 Hw Hlen).
    unfold page_rows in Htest. rewrite Hi in Htest. rewrite Forall_fmap, Forall_forall in Htest. apply Forall_forall.
    intros [j x] Hin. specialize (Htest _ Hin). simpl in *. apply elem_of_rows in Hin as [_ ?]. done. }
  intros r t [-> ->]. eapply RmP.step_page_id; [exact Hw|]. unfold Rm.rm_unpin_page. rstep.
  eapply runs_bind; [by eapply (RmP.unpin_runs C HC)|]. intros ok t (-> & s2 & -> & Hrest).
  replace (ps_room s - 1 + 1) with (ps_room s) in Hrest by lia. rstep. rstep. exists s2. split; [done|].
  split; [by eapply rest_untouched|]. unfold page_rows. by rewrite Hi.
Qed.

Lemma untouched_refl s : untouched s s.
Proof. by intros ???. Qed.
Lemma untouched_trans s1 s2 s3 : untouched s1 s2 -> untouched s2 s3 -> untouched s1 s3.
Proof. intros H1 H2 h pages chain H. by apply H2, H1. Qed.

Lemma good_rows e h pages s chain : RmP.rep C s h pages chain -> forall rid x,
  (rid, x) ∈ good e (all_rows h pages) <-> RmP.rec_at pages rid = Some x /\ sat e x = true.
Proof.
  intros Hrep rid x. unfold good. rewrite list_elem_of_In, List.filter_In, <- list_elem_of_In. unfold all_rows. rewrite elem_of_table_rows. simpl.
  split; [intros [(? & ? & ?) ?]; done|]. intros [Hx Hs].
  destruct (RmP.has_rec_bounds _ _ _ _ _ rid Hrep ltac:(by exists x)) as [? [? ?]]. split_and!; (lia || done).
Qed.

Lemma sorted_good e rows : StronglySorted rid_lt rows.*1 -> StronglySorted rid_lt (good e rows).*1.
Proof.
  induction rows as [|[r x] rows IH]; [done|]. rewrite fmap_cons. intros H. apply StronglySorted_inv in H as [H1 H2].
  unfold good in *. cbn [List.filter]. destruct (sat e _); [|by apply IH]. rewrite fmap_cons. constructor; [by apply IH|].
  apply Forall_forall. intros y ([r' x'] & -> & Hin)%list_elem_of_fmap. rewrite list_elem_of_In, List.filter_In in Hin. destruct Hin as [Hin _].
  rewrite Forall_forall in H2. apply H2. apply list_elem_of_fmap. exists (r', x'). split; [done|]. by apply list_elem_of_In.
Qed.

Lemma good_app e a b : good e (a ++ b) = good e a ++ good e b.
Proof. apply List.filter_app. Qed.

Lemma tuples_nil e rows : tuples_of (good e rows) = [] -> good e rows = [].
Proof. apply fmap_nil_inv. Qed.

(** the rows after page [i] *)
Definition rows_after (h : RmFileHandle) (pages : gmap Z apage) (i : Z) : list (Rid * list Z) :=
  table_rows (file_hdr_ h) pages (i + 1) (Z.to_nat (num_pages (file_hdr_ h) - (i + 1))).

Lemma find_page_spec e h pages chain n : forall i s,
  RmP.rep C s h pages chain -> ss_len_ e = record_size (file_hdr_ h) -> 1 <= i ->
  n = Z.to_nat (num_pages (file_hdr_ h) - i) ->
  Forall (fun r => testable e r.2) (table_rows (file_hdr_ h) pages i n) ->
  runs (find_page e i n) (s, h) (fun r t => exists s', t = (s', h) /\ untouched s s' /\
    match r with
    | None => good e (table_rows (file_hdr_ h) pages i n) = []
    | Some (i', tuples, rids) => i <= i' < num_pages (file_hdr_ h) /\
        good e (page_rows (file_hdr_ h) pages i') <> [] /\
        tuples = tuples_of (good e (page_rows (file_hdr_ h) pages i')) /\
        rids = (good e (page_rows (file_hdr_ h) pages i')).*1 /\
        good e (table_rows (file_hdr_ h) pages i n) = good e (page_rows (file_hdr_ h) pages i') ++ good e (rows_after h pages i')
    end).
Proof.
  induction n as [|n IH]; intros i s Hrep Hlen Hi Hn Ht; cbn [find_page table_rows] in *.
  - rstep. exists s. split; [done|]. split; [apply untouched_refl|done].
  - apply Forall_app in Ht as [Ht1 Ht2].
    assert (Hp : is_Some (pages !! i)) by (apply (RmP.rp_dom _ _ _ _ _ Hrep); lia).
    eapply runs_bind; [by apply (scan_one_spec e s h pages chain i)|]. intros r t (s1 & -> & Hu & ->). cbn [fst snd].
    rewrite good_app.
    destruct (tuples_of (good e (page_rows (file_hdr_ h) pages i))) as [|x xs] eqn:Et.
    + apply tuples_nil in Et. rewrite Et. simpl app.
      eapply runs_conseq; [apply (IH (i + 1) s1); [by apply Hu|done|lia|lia|done]|].
      intros r t (s2 & -> & Hu2 & Hm). exists s2. split; [done|]. split; [by eapply untouched_trans|].
      destruct r as [[[i' tu] ri]|]; [|done]. destruct Hm as (? & ?). split; [lia|done].
    + rewrite <- Et. rstep. exists s1. split; [done|]. split; [done|]. split; [lia|]. split_and!; try done.
      * intros E. by rewrite E in Et.
      * unfold rows_after. by replace (Z.to_nat (num_pages (file_hdr_ h) - (i + 1))) with n by lia.
Qed.

(** ** The laws *)

(** the open tables: handle, pages and free chain by name *)
Context (T : gmap string (RmFileHandle * gmap Z apage * list Z)) (txn : Z).
Context (Hlock : forall tab h pages chain, T !! tab = Some (h, pages, chain) -> RmP.quietly C (lock txn (fd_ h)) (fun b => b = true)).

Abbreviation SM := (SmManager S).
Definition tables_ok (w : SM) : Prop :=
  C (sm_core w) /\ forall tab h pages chain, T !! tab = Some (h, pages, chain) -> fhs_ w !! tab = Some h /\ RmP.rep C (sm_core w) h pages chain.

(** the scan [e] is over the table with these pages *)
Record scan_of (e : SeqScanExecutor) (h : RmFileHandle) (pages : gmap Z apage) (chain : list Z) : Prop := {
  so_tab : T !! ss_fh_ e = Some (h, pages, chain);
  so_txn : ss_txn_ e = txn;
  so_len : ss_len_ e = record_size (file_hdr_ h);
  so_test : Forall (fun r => testable e r.2) (all_rows h pages);
  so_recs : Forall (fun r => zlen r.2 = ss_len_ e) (all_rows h pages);
}.

Definition src (e : SeqScanExecutor) (all : list (list Z)) : Prop :=
  exists h pages chain, scan_of e h pages chain /\ all = (good e (all_rows h pages)).*2.

(** the buffer holds the selected rows of page [i], from the index on; the current one may have been taken *)
Definition at_gen (taken : bool) (e : SeqScanExecutor) (all ts : list (list Z)) : Prop :=
  exists h pages chain, scan_of e h pages chain /\ all = (good e (all_rows h pages)).*2 /\
    ((ss_is_end_ e = true /\ ts = []) \/
     (ss_is_end_ e = false /\ exists rows, let i := curr_page_in_buffer e in
        1 <= i < num_pages (file_hdr_ h) /\ rows = good e (page_rows (file_hdr_ h) pages i) /\ (buffer_idx e < length rows)%nat /\
        length (tuple_buffer e) = length rows /\ rids_buffer e = rows.*1 /\
        (forall k, (buffer_idx e < k)%nat \/ (k = buffer_idx e /\ taken = false) -> tuple_buffer e !! k = tuples_of rows !! k) /\
        ts = drop (buffer_idx e) rows.*2 ++ (good e (rows_after h pages i)).*2)).

Lemma on_file_eq {A} tab (m : Prog (Rm.St (S:=S)) A) (w : SM) h a c :
  fhs_ w !! tab = Some h -> m (sm_core w, h) = (Ok a, (c, h)) -> SmSt.on_file tab m w = (Ok a, SmSt.set_core c w).
Proof.
  intros Hh Hm. unfold SmSt.on_file. rewrite Hh, Hm. f_equal. unfold SmSt.set_fhs, SmSt.set_core. simpl. by rewrite insert_id.
Qed.

Lemma tables_core w c : tables_ok w -> C c -> untouched (sm_core w) c -> tables_ok (SmSt.set_core c w).
Proof.
  intros [_ Hw] Hc Hu. split; [done|]. intros tab h pages chain Ht. destruct (Hw _ _ _ _ Ht) as [H1 H2]. split; [done|]. by apply Hu.
Qed.

Lemma scan_of_buffer e h pages chain tuples rids page idx fin :
  scan_of e h pages chain -> scan_of (set_buffer tuples rids page idx fin e) h pages chain.
Proof. by intros []; split. Qed.

(** looking from page [i] on *)
Lemma pages_from_spec e h pages chain w i :
  scan_of e h pages chain -> tables_ok w -> ss_is_end_ e = false -> 1 <= i <= num_pages (file_hdr_ h) ->
  Forall (fun r => testable e r.2) (table_rows (file_hdr_ h) pages i (Z.to_nat (num_pages (file_hdr_ h) - i))) ->
  runs (scan_from i) (e, w) (fun _ s => at_gen false s.1 (good e (all_rows h pages)).*2
      (good e (table_rows (file_hdr_ h) pages i (Z.to_nat (num_pages (file_hdr_ h) - i)))).*2 /\
    same_shape (X:=exec lock) e s.1 /\ tables_ok s.2).
Proof.
  intros Hs Hw He Hi Ht. pose proof Hw as [HCw Hw']. destruct (Hw' _ _ _ _ (so_tab _ _ _ _ Hs)) as [Hh Hrep].
  destruct (find_page_spec e h pages chain _ i (sm_core w) Hrep (so_len _ _ _ _ Hs) (proj1 Hi) eq_refl Ht) as (r & t & E & c & -> & Hu & Hm).
  assert (Hw2 : tables_ok (SmSt.set_core c w)) by (apply tables_core; [done|apply (RmP.rp_ctx _ _ _ _ _ (Hu _ _ _ Hrep))|done]).
  unfold scan_from. rstep. cbn [fst].
  eapply (runs_bind_eq _ _ _ r (e, SmSt.set_core c w)).
  { unfold zoom. cbn [snd fst]. erewrite on_file_eq; [reflexivity|exact Hh|]. unfold Rm.hdr, bind, gets. cbn [snd]. exact E. }
  rstep. cbn [fst snd]. destruct r as [[[i' tu] ri]|]; (split_and!; [|done|done]).
  - destruct Hm as (Hi' & Hne & -> & -> & Hg). exists h, pages, chain. split; [by apply scan_of_buffer|]. split; [done|]. right.
    split; [done|]. exists (good e (page_rows (file_hdr_ h) pages i')). simpl. split_and!; try done; try lia.
    + destruct (good e (page_rows (file_hdr_ h) pages i')); simpl; [done|lia].
    + unfold tuples_of. by rewrite length_fmap.
    + rewrite drop_0, Hg, fmap_app. done.
  - exists h, pages, chain. split; [by apply scan_of_buffer|]. split; [done|]. left. split; [done|]. by rewrite Hm.
Qed.

Lemma all_rows_after h pages i : 1 <= i < num_pages (file_hdr_ h) ->
  exists before, all_rows h pages = before ++ rows_after h pages i.
Proof.
  intros Hi. unfold all_rows, rows_after.
  assert (Hgen : forall n j, 1 <= j -> (j <= i -> n = Z.to_nat (num_pages (file_hdr_ h) - j) ->
    exists before, table_rows (file_hdr_ h) pages j n = before ++ table_rows (file_hdr_ h) pages (i + 1) (Z.to_nat (num_pages (file_hdr_ h) - (i + 1))))).
  { induction n as [|n IH]; intros j Hj Hji Hn; [lia|]. cbn [table_rows]. destruct (decide (j = i)) as [->|].
    - exists (page_rows (file_hdr_ h) pages i). f_equal. f_equal. lia.
    - destruct (IH (j + 1)) as [be Hbe]; [lia|lia|lia|]. exists (page_rows (file_hdr_ h) pages j ++ be). by rewrite Hbe, app_assoc. }
  apply (Hgen _ 1); lia.
Qed.

Lemma begin_spec e all w : src e all -> tables_ok w ->
  runs (begin_tuple lock) (e, w) (fun _ s => at_gen false s.1 all all /\ same_shape (X:=exec lock) e s.1 /\ tables_ok s.2).
Proof.
  intros (h & pages & chain & Hs & ->) Hw. pose proof Hw as [HCw Hw']. destruct (Hw' _ _ _ _ (so_tab _ _ _ _ Hs)) as [Hh Hrep].
  unfold begin_tuple. rstep. cbn [fst].
  eapply (runs_bind_eq _ _ _ (fd_ h) (e, w)).
  { unfold zoom. cbn [fst snd]. rewrite (on_file_eq _ _ w h (fd_ h) (sm_core w)) by done. by destruct w. }
  destruct (Hlock _ _ _ _ (so_tab _ _ _ _ Hs) (sm_core w) HCw) as (ok & c & El & Hq & HCc & ->).
  eapply (runs_bind_eq _ _ _ true (e, SmSt.set_core c w)).
  { unfold zoom. cbn [fst snd]. unfold SmSt.on_core, zoom. rewrite (so_txn _ _ _ _ Hs), El. done. }
  cbn [negb]. rstep. cbn [fst snd].
  assert (Hw2 : tables_ok (SmSt.set_core c w)) by (apply tables_core; [done|done|by apply quiet_untouched]).
  pose proof (RmP.rp_range _ _ _ _ _ Hrep).
  apply (pages_from_spec (set_buffer [] [] (curr_page_in_buffer e) 0 false e) h pages chain (SmSt.set_core c w) 1); try done.
  - by apply scan_of_buffer.
  - lia.
  - apply (so_test _ _ _ _ Hs).
Qed.

Lemma next_tuple_spec taken e all t ts w : at_gen taken e all (t :: ts) -> tables_ok w ->
  runs (next_tuple) (e, w) (fun _ s => at_gen false s.1 all ts /\ same_shape (X:=exec lock) e s.1 /\ tables_ok s.2).
Proof.
  intros (h & pages & chain & Hs & -> & [[_ Hts]|(He & rows & Hi & Hrows & Hidx & Hlen & Hrids & Hbuf & Hts)]) Hw; [done|].
  unfold next_tuple. rstep. rstep. cbn [fst snd set_buffer buffer_idx tuple_buffer curr_page_in_buffer].
  assert (Htail : ts = drop (Datatypes.S (buffer_idx e)) rows.*2 ++ (good e (rows_after h pages (curr_page_in_buffer e))).*2).
  { destruct (lookup_lt_is_Some_2 rows.*2 (buffer_idx e)) as [x Hx]; [by rewrite length_fmap|].
    rewrite (drop_S _ _ _ Hx) in Hts. by injection Hts as _ ->. }
  destruct (Nat.eqb_spec (Datatypes.S (buffer_idx e)) (length (tuple_buffer e))) as [Eq|Ne].
  - rewrite drop_ge in Htail by (rewrite length_fmap; lia). simpl in Htail. subst ts. unfold rows_after.
    apply (pages_from_spec (set_buffer (tuple_buffer e) (rids_buffer e) (curr_page_in_buffer e) (Datatypes.S (buffer_idx e)) (ss_is_end_ e) e) h pages chain w); try done.
    + by apply scan_of_buffer.
    + simpl. lia.
    + destruct (all_rows_after h pages (curr_page_in_buffer e) Hi) as [be Hbe]. pose proof (so_test _ _ _ _ Hs) as Ht.
      rewrite Hbe in Ht. by apply Forall_app in Ht as [_ ?].
  - rstep. cbn [fst snd]. split_and!; [|done|done]. exists h, pages, chain. split; [by apply scan_of_buffer|]. split; [done|].
    right. split; [done|]. exists rows. simpl. split_and!; try done; try lia. intros k Hk. apply Hbuf. lia.
Qed.

Lemma next_spec e all t ts w : at_gen false e all (t :: ts) -> tables_ok w ->
  runs next (e, w) (fun r s => r = rec_of t /\ at_gen true s.1 all (t :: ts) /\ same_shape (X:=exec lock) e s.1 /\ tables_ok s.2).
Proof.
  intros (h & pages & chain & Hs & -> & [[_ Hts]|(He & rows & Hi & Hrows & Hidx & Hlen & Hrids & Hbuf & Hts)]) Hw; [done|].
  destruct (lookup_lt_is_Some_2 rows (buffer_idx e)) as [[r x] Hx]; [done|].
  assert (Hx2 : rows.*2 !! buffer_idx e = Some x) by (by rewrite list_lookup_fmap, Hx).
  assert (t = x) as -> by (rewrite (drop_S _ _ _ Hx2) in Hts; by injection Hts as -> _).
  unfold next. rstep. cbn [fst].
  rstep; [rewrite Hbuf by (right; done); unfold tuples_of; rewrite list_lookup_fmap, Hx; reflexivity|].
  rstep. cbn [fst snd]. eapply runs_deref; [reflexivity|]. split_and!; try done. exists h, pages, chain.
  split; [by apply scan_of_buffer|]. split; [done|]. right. split; [done|]. exists rows. cbn [fst set_buffer curr_page_in_buffer buffer_idx tuple_buffer rids_buffer]. split_and!; try done; try lia.
  - by rewrite length_insert.
  - intros k [Hk|[_ ?]]; [|done]. rewrite list_lookup_insert_ne by lia. apply Hbuf. by left.
Qed.

#[export] Program Instance laws : ExecutorLaws SM SeqScanExecutor (X:=exec lock) tables_ok := {
  ex_src := src; ex_at := at_gen false; ex_taken := at_gen true;
}.
Next Obligation.
  intros e all (h & pages & chain & Hs & ->). exists (ss_len_ e). split; [done|]. apply Forall_fmap, Forall_forall. intros r Hr.
  apply (proj1 (Forall_forall _ _) (so_recs _ _ _ _ Hs)). unfold good in Hr. rewrite list_elem_of_In, List.filter_In in Hr. apply list_elem_of_In, Hr.
Qed.
Next Obligation. intros e all w Hs Hw. by apply begin_spec. Qed.
Next Obligation.
  intros e all ts (h & pages & chain & Hs & -> & [[He ->]|(He & rows & Hi & Hrows & Hidx & Hlen & Hrids & Hbuf & ->)]); simpl; rewrite He; [done|].
  symmetry. apply bool_decide_eq_false. intros Hn. apply app_eq_nil in Hn as [Hn _]. apply (f_equal length) in Hn. rewrite length_drop, length_fmap in Hn. simpl in Hn. lia.
Qed.
Next Obligation. intros e all t ts (h & pages & chain & Hs & -> & [[_ Hts]|[He _]]); [done|exact He]. Qed.
Next Obligation. intros e all t ts w Ha Hw. by apply next_spec. Qed.
Next Obligation. intros e all t ts w [Ha|Ha] Hw; by eapply next_tuple_spec. Qed.

#[export] Instance restartable : Restartable SM SeqScanExecutor (X:=exec lock) tables_ok.
Proof. split. intros e all ts [(h & pages & chain & Hs & Hall & _)|(h & pages & chain & Hs & Hall & _)]; by exists h, pages, chain. Qed.
End scan.
End ScanP.
