(* ===== verification/Core.v ===== *)
(** The core of the system: buffer pool and disk, log manager, and lock manager with the
    transactions.

    The page operations act on the first part only, so the core is a page store with the laws of
    the buffer pool; the record and index modules are used over it. *)

From S2P Require Import Prelude Bytes Errors Disk BufferPool BufferPoolProofs PageStore Defs.
From S2P Require Import RmFile RmProofs LogRecord LogManager Lock.

(** ** A page store inside a larger state *)

Lemma runs_zoom {E S T A} (g : T -> S) (p : S -> T -> T) (m : M E S A) t (Q : A -> S -> Prop) (R : A -> T -> Prop) :
  (forall s t, g (p s t) = s) -> runs m (g t) Q -> (forall a s', Q a s' -> Q a (g (p s' t)) -> R a (p s' t)) -> runs (zoom g p m) t R.
Proof.
  intros Hgp (a & s' & Hm & HQ) HR. exists a, (p s' t). split; [unfold zoom; by rewrite Hm|]. apply HR; [done|]. by rewrite Hgp.
Qed.

Lemma zoom_eq {E S T A} (g : T -> S) (p : S -> T -> T) (m : M E S A) t a s' :
  m (g t) = (Ok a, s') -> zoom g p m t = (Ok a, p s' t).
Proof. intros Hm. unfold zoom. by rewrite Hm. Qed.

Section lens.
Context {S T : Type} {PS : PageStore S} {PL : PageStoreLaws S} (g : T -> S) (p : S -> T -> T).
Context (Hgp : forall s t, g (p s t) = s) (Hpg : forall t, p (g t) t = t).

Definition zoom_store : PageStore T := {|
  fetch_page k := zoom g p (fetch_page k);
  unpin_page k d := zoom g p (unpin_page k d);
  new_page f := zoom g p (new_page f);
  delete_page k := zoom g p (delete_page k);
  read_bytes f off n := zoom g p (read_bytes f off n);
  write_bytes f off w := zoom g p (write_bytes f off w);
  get_page_id f := zoom g p (get_page_id f);
  is_dirty f := zoom g p (is_dirty f);
|}.

Lemma others_zoom k t t' :
  ps_others k (g t) (g t') ->
  others (fun t => ps_page (g t)) (fun t => ps_pins (g t)) (fun t => ps_clean (g t)) (fun t => ps_handle (g t)) k t t'.
Proof. intros []. by split. Qed.

Definition zoom_laws : @PageStoreLaws T zoom_store.
Proof.
  unshelve refine (@Build_PageStoreLaws T zoom_store (fun t => ps_inv (g t)) (fun t => ps_page (g t)) (fun t => ps_pins (g t))
    (fun t => ps_clean (g t)) (fun t => ps_handle (g t)) (fun t => ps_room (g t)) (fun t => ps_npages (g t)) (fun t => ps_file (g t))
    _ _ _ _ _ _ _ _ _ _ _ _ _ _); simpl.
  - intros t. apply ps_page_len.
  - intros t. apply ps_page_fun.
  - intros t. apply ps_page_bound.
  - intros t. apply ps_idle_clean.
  - intros t k b Hi Hp Hr. eapply (runs_zoom g p _ t); [exact Hgp|exact (ps_fetch (g t) k b Hi Hp Hr)|].
    intros r s' _ (f & -> & H). exists f. intuition (auto; try by apply others_zoom).
  - intros t k b d Hi Hp Hr Hd. eapply (runs_zoom g p _ t); [exact Hgp|exact (ps_unpin (g t) k b d Hi Hp Hr Hd)|].
    intros r s' _ H. cbn beta in H. intuition (auto; try by apply others_zoom).
  - intros t f Hi Hf Hn Hr. eapply (runs_zoom g p _ t); [exact Hgp|exact (ps_new (g t) f Hi Hf Hn Hr)|].
    intros r s' _ (q & -> & H). exists q. intuition (auto; try by apply others_zoom).
  - intros t k b Hi Hp. eapply (runs_zoom g p _ t); [exact Hgp|exact (ps_delete (g t) k b Hi Hp)|].
    intros r s' (_ & _ & _ & _ & _ & _ & H7' & _) H. destruct H as (H1 & H2 & H3 & H4 & H5 & H6 & H7 & H8 & H9).
    split_and!; try done; [by apply others_zoom|]. intros Hf. rewrite (H7' Hf). apply Hpg.
  - intros t f k b off n Hi Hh Hp Hin. rewrite (zoom_eq g p _ t _ (g t) (ps_read (g t) f k b off n Hi Hh Hp Hin)). by rewrite Hpg.
  - intros t f k b off w Hi Hh Hp Hin. eapply (runs_zoom g p _ t); [exact Hgp|exact (ps_write (g t) f k b off w Hi Hh Hp Hin)|].
    intros r s' _ H. cbn beta in H. intuition (auto; try by apply others_zoom).
  - intros t f k b Hi Hh Hp. rewrite (zoom_eq g p _ t _ (g t) (ps_page_id (g t) f k b Hi Hh Hp)). by rewrite Hpg.
  - intros t f k b Hi Hh Hp. destruct (ps_is_dirty (g t) f k b Hi Hh Hp) as [d Hd]. exists d.
    rewrite (zoom_eq g p _ t _ (g t) Hd). by rewrite Hpg.
  - intros t f k. apply ps_handle_pins.
  - intros t k f r t' Hh E. unfold zoom in E. destruct (fetch_page k (g t)) as [o s'] eqn:Ef. injection E as -> _. by apply (ps_fetch_same (g t) k f r s').
Defined.

(** what does not depend on the store is kept by the page operations *)
Lemma zoom_framed (C : T -> Prop) : (forall s t, C t -> C (p s t)) -> @RmP.framed T zoom_store C.
Proof.
  intros HC. split; simpl.
  - intros k t r t' E. unfold zoom in E. destruct (fetch_page k (g t)) as [o s']. injection E as _ <-. apply HC.
  - intros k d t r t' E. unfold zoom in E. destruct (unpin_page k d (g t)) as [o s']. injection E as _ <-. apply HC.
  - intros f t r t' E. unfold zoom in E. destruct (new_page f (g t)) as [o s']. injection E as _ <-. apply HC.
  - intros k t r t' E. unfold zoom in E. destruct (delete_page k (g t)) as [o s']. injection E as _ <-. apply HC.
  - intros f off w t r t' E. unfold zoom in E. destruct (write_bytes f off w (g t)) as [o s']. injection E as _ <-. apply HC.
Qed.
End lens.

(** ** The core *)

(** [c_addrs] holds, for each transaction, the addresses of its write records, in their order: the log
    manager uses them as keys. *)
Record Core := mkCore { c_store : Store; c_log : LogManager; c_locks : LockManager; c_addrs : gmap Z (list Z) }.

Definition set_store (s : Store) (c : Core) : Core := mkCore s (c_log c) (c_locks c) (c_addrs c).
Definition set_locks (l : LockManager) (c : Core) : Core := mkCore (c_store c) (c_log c) l (c_addrs c).
Definition set_addrs (a : gmap Z (list Z)) (c : Core) : Core := mkCore (c_store c) (c_log c) (c_locks c) a.
(** the log manager writes to the disk of the store *)
Definition log_part (c : Core) : LogM.St := (disk (c_store c), c_log c).
Definition set_log_part (s : LogM.St) (c : Core) : Core := mkCore (mkStore s.1 (bpm (c_store c))) s.2 (c_locks c) (c_addrs c).

#[export] Instance core_store : PageStore Core := zoom_store c_store set_store.
#[export] Instance core_store_laws : PageStoreLaws Core.
Proof. apply (zoom_laws c_store set_store); [done|by intros []]. Defined.

Definition on_locks {A} (m : Prog LockManager A) : Prog Core A := zoom c_locks set_locks m.
Definition on_log {A} (m : Prog LogM.St A) : Prog Core A := zoom log_part set_log_part m.
Definition on_store {A} (m : Prog Store A) : Prog Core A := zoom c_store set_store m.

Module CoreP.

Lemma locks_quiet (c : Core) l : RmP.quiet c (set_locks l c).
Proof. by split. Qed.

(** transaction [p], which is [t0] but for its locks and may be growing, may take a shared lock on these tables *)
Definition can_read (p : Z) (t0 : Transaction) (fds : list Z) (l : LockManager) : Prop :=
  LkP.linv l /\ LkP.alive p l /\ (exists t, txns l !! p = Some t /\ LkP.like t0 t) /\ forall fd, fd ∈ fds -> LkP.free_for l p (table_lock_id fd) LockMode.S.
Definition reader (p : Z) (t0 : Transaction) (fds : list Z) (c : Core) : Prop := can_read p t0 fds (c_locks c).

Lemma reader_framed p t0 fds : RmP.framed (reader p t0 fds).
Proof. by apply zoom_framed. Qed.

(** the shared lock is granted, and stays grantable *)
Lemma lock_shared_ok p t0 fds fd l : can_read p t0 fds l -> fd ∈ fds ->
  exists l', Lk.lock_shared_on_table p fd l = (Ok true, l') /\ can_read p t0 fds l'.
Proof.
  intros (Hi & Hal & (t & Ht & Hl) & Hf) Hfd. assert (Hp : p ∈ dom (txns l)) by (by apply elem_of_dom_2 in Ht).
  pose proof (LkP.lock_table_safe _ _ p fd l LkP.exact_S Hi Hp) as Hs. pose proof (LkP.calm_lock_table p (Lk.is_mode [LockMode.IX; LockMode.SIX; LockMode.X]) LockMode.S fd l Hal) as Hc.
  pose proof (LkP.keeps_lock_table p t0 (Lk.is_mode [LockMode.IX; LockMode.SIX; LockMode.X]) LockMode.S fd l t Hal Ht Hl) as Hk.
  unfold Lk.lock_shared_on_table. destruct Hs as (Hi' & _ & Hs).
  destruct (Lk.lock_table _ _ p fd l) as [[b|e|f] l']; [|done|done]. simpl in *. destruct Hs as (Hiff & Hown & Hoth).
  assert (b = true) as -> by (apply Hiff; by apply Hf). exists l'. split; [done|]. split; [done|]. split; [done|]. split; [done|].
  intros fd' Hfd'. destruct (decide (fd' = fd)) as [->|Hne].
  - destruct (Hown eq_refl) as (r & q & Hq & Hr & Hrp & Hrm). intros q' r' Hq' Hr' Hne. rewrite Hq in Hq'. injection Hq' as <-.
    rewrite <- Hrm. apply (LkP.li_compat _ Hi' _ _ _ _ Hq); congruence.
  - apply (LkP.free_for_same l l'); [|by apply Hf]. apply Hoth. intros E. by injection E.
Qed.

Lemma core_lock_quietly p t0 fds fd : fd ∈ fds ->
  RmP.quietly (reader p t0 fds) (on_locks (Lk.lock_shared_on_table p fd)) (fun b => b = true).
Proof.
  intros Hfd c Hc. destruct (lock_shared_ok p t0 fds fd _ Hc Hfd) as (l' & E & Hc').
  exists true, (set_locks l' c). split; [unfold on_locks; by apply zoom_eq|]. split; [apply locks_quiet|]. done.
Qed.
End CoreP.
