(* ===== verification/ExecProps.v ===== *)
(** What the query executors promise, over the concrete core: sequential scan, nested loop join and
    projection, and their composition into the plan of a [SELECT]. *)

From S2P Require Import Prelude Bytes Errors Disk BufferPool PageStore Bitmap Defs.
From S2P Require Import Text SmMeta RmFile RmPage RmProofs RmProps LogManager Lock.
From S2P Require Import Core Values IxTree SmState Executor Projection Join JoinProofs.
From S2P Require Import SeqScan SeqScanProofs.
From Stdlib Require Import Sorting.Sorted.
Import RmPage.

(** ** Conditions that can be evaluated *)

Module Cond.
Definition width (c : ColMeta) : Z :=
  match cm_type c with TYPE_INT | TYPE_FLOAT => 4 | TYPE_BIGINT | TYPE_DATETIME => 8 | TYPE_STRING => cm_len c end.
(** the column lies inside records of [n] bytes *)
Definition readable (n : Z) (c : ColMeta) : bool := in_range (cm_offset c) (width c) n.
Definition has_col (cols : list ColMeta) (n : Z) (name : string) : bool :=
  match Meta.find_col cols name with Some c => readable n c | None => false end.

(** the columns of a condition of a scan, and of a join *)
Definition scan_ok (cols : list ColMeta) (n : Z) (cond : Condition) : bool :=
  has_col cols n (tc_col_name (lhs_col cond)) && (is_rhs_val cond || has_col cols n (tc_col_name (rhs_col cond))).
Definition join_ok (lcols : list ColMeta) (nl : Z) (rcols : list ColMeta) (nr : Z) (cond : Condition) : bool :=
  has_col lcols nl (tc_col_name (lhs_col cond)) && (is_rhs_val cond || has_col rcols nr (tc_col_name (rhs_col cond))).

Lemma read_ok n c d : readable n c = true -> zlen d = n -> exists v, Val.read_from_record d c tt = (Ok v, tt).
Proof.
  unfold readable, width, Val.read_from_record, Val.load, mload. intros Hr Hd. rewrite Hd.
  destruct (cm_type c); unfold bind; rewrite Hr; simpl; eauto.
Qed.

Lemma find_read cols n name d : has_col cols n name = true -> zlen d = n ->
  exists c v, Val.lift_sum (Meta.find_from_cols cols name) tt = (Ok c, tt) /\ Val.read_from_record d c tt = (Ok v, tt).
Proof.
  unfold has_col, Meta.find_from_cols. destruct (Meta.find_col cols name) as [c|]; [|done]. intros Hr Hd.
  destruct (read_ok n c d Hr Hd) as [v Hv]. by exists c, v.
Qed.

Lemma test_record_ok cols n cond d : scan_ok cols n cond = true -> zlen d = n -> exists b, Val.test_record cond cols d tt = (Ok b, tt).
Proof.
  unfold scan_ok. intros [Hl Hr]%andb_prop Hd. destruct (find_read _ _ _ d Hl Hd) as (c & v & E1 & E2).
  unfold Val.test_record. rewrite (bind_ok _ _ _ _ _ E1), (bind_ok _ _ _ _ _ E2).
  destruct (is_rhs_val cond); simpl in *; [unfold bind, ret; eauto|].
  destruct (find_read _ _ _ d Hr Hd) as (c' & v' & E3 & E4).
  erewrite (bind_ok _ _ _ v'); [unfold ret; eauto|]. by rewrite (bind_ok _ _ _ _ _ E3).
Qed.

Lemma test_conds_ok cols n conds d : forallb (scan_ok cols n) conds = true -> zlen d = n -> exists b, Scan.test_conds conds cols d tt = (Ok b, tt).
Proof.
  intros H Hd. induction conds as [|cond conds IH]; cbn [Scan.test_conds forallb] in *; [unfold ret; eauto|].
  apply andb_prop in H as [H1 H2]. destruct (test_record_ok _ _ _ d H1 Hd) as [[] Hb]; rewrite (bind_ok _ _ _ _ _ Hb); [by apply IH|unfold ret; eauto].
Qed.

Lemma test_join_ok lcols nl rcols nr cond l r : join_ok lcols nl rcols nr cond = true -> zlen l = nl -> zlen r = nr ->
  exists b, Val.test_join_record cond lcols l rcols r tt = (Ok b, tt).
Proof.
  unfold join_ok. intros [Hl Hr]%andb_prop Hzl Hzr. unfold Val.test_join_record. destruct (is_rhs_val cond) eqn:Ev; simpl in Hr.
  - apply (test_record_ok lcols nl); [|done]. unfold scan_ok. by rewrite Hl, Ev.
  - destruct (find_read _ _ _ r Hr Hzr) as (c & v & E1 & E2). destruct (find_read _ _ _ l Hl Hzl) as (c' & v' & E3 & E4).
    rewrite (bind_ok _ _ _ _ _ E1), (bind_ok _ _ _ _ _ E2), (bind_ok _ _ _ _ _ E3), (bind_ok _ _ _ _ _ E4). unfold ret. eauto.
Qed.

Lemma test_all_ok lcols nl rcols nr conds l r : forallb (join_ok lcols nl rcols nr) conds = true -> zlen l = nl -> zlen r = nr ->
  exists b, Nlj.test_all conds lcols l rcols r tt = (Ok b, tt).
Proof.
  intros H Hzl Hzr. induction conds as [|cond conds IH]; cbn [Nlj.test_all forallb] in *; [unfold ret; eauto|].
  apply andb_prop in H as [H1 H2]. destruct (test_join_ok _ _ _ _ _ l r H1 Hzl Hzr) as [[] Hb]; rewrite (bind_ok _ _ _ _ _ Hb); [by apply IH|unfold ret; eauto].
Qed.
End Cond.

(** ** The results of conditions *)

(** whether conditions hold of a record, and of a pair of records *)
Definition holds_scan (conds : list Condition) (cols : list ColMeta) (d : list Z) : bool :=
  match (Scan.test_conds conds cols d tt).1 with Ok b => b | _ => false end.
Definition holds_join (conds : list Condition) (lcols rcols : list ColMeta) (l r : list Z) : bool :=
  match (Nlj.test_all conds lcols l rcols r tt).1 with Ok b => b | _ => false end.
(** the selection from the cross product *)
Definition cross (sat : list Z -> list Z -> bool) (ls rs : list (list Z)) : list (list Z) :=
  ls ≫= (fun l => rs ≫= (fun r => if sat l r then [l ++ r] else [])).

(** the records of a table on which conditions hold, in the order of a scan *)
Definition matching (conds : list Condition) (tab : TabMeta) (h : RmFileHandle) (pages : gmap Z apage) : list (list Z) :=
  (List.filter (fun r => holds_scan conds (tm_cols tab) r.2) (ScanP.all_rows h pages)).*2.

(** ** Scans over the core *)

Module Q.
(** the shared table lock of the core *)
Definition lock (p fd : Z) : Prog Core bool := on_locks (Lk.lock_shared_on_table p fd).
Abbreviation tables := (gmap string (RmFileHandle * gmap Z apage * list Z)).
Abbreviation World := (SmManager Core).

Section world.
Context (p : Z) (t0 : Transaction) (fds : list Z) (T : tables) (HT : forall tab h pages chain, T !! tab = Some (h, pages, chain) -> fd_ h ∈ fds).

Definition world_ok : World -> Prop := ScanP.tables_ok (CoreP.reader p t0 fds) T.

#[export] Instance scan_laws : ExecutorLaws World SeqScanExecutor (X:=Scan.exec lock) world_ok.
Proof.
  refine (ScanP.laws (CoreP.reader p t0 fds) (CoreP.reader_framed p t0 fds) lock T p _).
  intros tab h pages chain Ht. apply CoreP.core_lock_quietly. by eapply HT.
Defined.
#[export] Instance scan_restart : Restartable World SeqScanExecutor (X:=Scan.exec lock) world_ok.
Proof. apply ScanP.restartable. Defined.

Lemma rows_len (w : World) tab h pages chain : world_ok w -> T !! tab = Some (h, pages, chain) ->
  Forall (fun r => zlen r.2 = record_size (file_hdr_ h)) (ScanP.all_rows h pages).
Proof.
  intros [_ Hw] Ht. destruct (Hw _ _ _ _ Ht) as [_ Hrep]. pose proof (RmP.rp_hdr _ _ _ _ _ Hrep) as Hhd.
  assert (Hpage : forall i, Forall (fun r => zlen r.2 = record_size (file_hdr_ h)) (ScanP.page_rows (file_hdr_ h) pages i)).
  { intros i. unfold ScanP.page_rows. destruct (pages !! i) as [ap|] eqn:Hi; [|constructor].
    apply Forall_fmap, Forall_forall. intros [j x] Hin. simpl. apply ScanP.elem_of_rows in Hin as [_ Hx].
    destruct (RmP.rp_pages _ _ _ _ _ Hrep i ap Hi) as (b & _ & Hr & _). destruct (pr_slot _ _ _ Hr j x Hx) as [Hv <-].
    pose proof (slot_range _ Hhd j Hv). destruct Hhd. unfold pg_slot. rewrite zlen_slice; [done|lia|lia|rewrite (pr_len _ _ _ Hr); lia]. }
  unfold ScanP.all_rows. generalize 1 (Z.to_nat (num_pages (file_hdr_ h) - 1)). intros i n. revert i.
  induction n as [|n IH]; intros i; cbn [ScanP.table_rows]; [constructor|]. by apply Forall_app.
Qed.

(** what the catalog says of a table agrees with its file *)
Record table_of (w : World) (tab_name : string) (tab : TabMeta) (h : RmFileHandle) (pages : gmap Z apage) (chain : list Z) : Prop := {
  to_ok : world_ok w;
  to_free : writer (db_latch_ w) = false /\ writer (sm_latch_ w) = false;
  to_meta : Meta.get_table (db_ w) tab_name = inr tab;
  to_file : T !! tab_name = Some (h, pages, chain);
  to_size : exists c, last (tm_cols tab) = Some c /\ cm_offset c + cm_len c = record_size (file_hdr_ h);
}.

Lemma size_pos w tab_name tab h pages chain : table_of w tab_name tab h pages chain -> 0 <= record_size (file_hdr_ h).
Proof. intros [Hw _ _ Ht _]. destruct (proj2 Hw _ _ _ _ Ht) as [_ Hrep]. destruct (RmP.rp_hdr _ _ _ _ _ Hrep). lia. Qed.

(** the scan of a table whose conditions can be evaluated *)
Lemma make_scan w tab_name tab h pages chain conds page0 idx0 :
  table_of w tab_name tab h pages chain -> forallb (Cond.scan_ok (tm_cols tab) (record_size (file_hdr_ h))) conds = true ->
  exists e, Scan.make page0 idx0 tab_name conds p w = (Ok e, w) /\ ss_cols_ e = tm_cols tab /\ ss_len_ e = record_size (file_hdr_ h) /\
    ss_conds_ e = conds /\ ScanP.src T p e (matching conds tab h pages).
Proof.
  intros [Hw [Hf1 Hf2] Hm Ht (c & Hc & Hsz)] Hconds. pose proof Hw as [_ Hw']. destruct (Hw' _ _ _ _ Ht) as [Hh Hrep].
  exists (mkSeqScanExecutor tab_name tab conds tab_name (tm_cols tab) (record_size (file_hdr_ h)) p [] [] page0 idx0 false).
  split; [|split_and!; try done].
  - unfold Scan.make. rewrite (bind_ok _ _ _ _ _ (SmSt.read_table_ok tab_name tab w Hf1 Hm)).
    rewrite (bind_ok _ _ _ _ _ (SmSt.read_fh_ok tab_name h w Hf2 Hh)). rewrite (bind_ok _ _ w c w) by (by rewrite Hc).
    rewrite (bind_ok _ _ w (record_size (file_hdr_ h)) w).
    + rewrite Hsz, Z.eqb_refl. by rewrite (bind_ok _ _ w tt w).
    + rewrite (ScanP.on_file_eq tab_name _ w h (record_size (file_hdr_ h)) (sm_core w)) by done. by destruct w.
  - exists h, pages, chain. split; [|done]. pose proof (rows_len w tab_name h pages chain Hw Ht) as Hl. split; simpl; try done.
    apply Forall_forall. intros r Hr. rewrite Forall_forall in Hl. apply (Cond.test_conds_ok _ _ _ _ Hconds). by apply Hl.
Qed.

(** the join of two scans *)
Lemma join_source fuel e1 e2 conds n1 n2 cols1 cols2 all1 all2 :
  ScanP.src T p e1 all1 -> ScanP.src T p e2 all2 -> ss_len_ e1 = n1 -> ss_len_ e2 = n2 -> ss_cols_ e1 = cols1 -> ss_cols_ e2 = cols2 ->
  forallb (Cond.join_ok cols1 n1 cols2 n2) conds = true -> (length all1 * length all2 < fuel)%nat ->
  exists j out, Nlj.make (W:=World) (XL:=Scan.exec lock) (XR:=Scan.exec lock) e1 e2 conds = inr j /\
    ex_src (L:=NljP.laws (LL:=scan_laws) (RR:=scan_restart) fuel) j out /\
    out ≡ₚ cross (holds_join conds cols1 cols2) all1 all2 /\ nj_cols_ j = cols1 ++ (Nlj.shift_offset n1 <$> cols2) /\ nj_len_ j = n1 + n2.
Proof.
  intros Hs1 Hs2 <- <- <- <- Hc Hf.
  destruct (ex_len (ExecutorLaws:=scan_laws) e1 all1 Hs1) as (k1 & Ek1 & F1), (ex_len (ExecutorLaws:=scan_laws) e2 all2 Hs2) as (k2 & Ek2 & F2).
  injection Ek1 as <-. injection Ek2 as <-. rewrite Forall_forall in F1, F2.
  destruct (NljP.join_src (LL:=scan_laws) (LR:=scan_laws) fuel e1 e2 conds (ss_len_ e1) (ss_len_ e2) all1 all2 Hs1 Hs2 eq_refl eq_refl)
    as (j & Ej & Hsj & Hcs & Hlc & Hrc & Hjl & Hjc); [|done|].
  - intros l r Hl Hr. apply (Cond.test_all_ok _ (ss_len_ e1) _ (ss_len_ e2)); [done|by apply F1|by apply F2].
  - exists j, (NljP.result (NljP.sat_of j) all1 all2). split_and!; try done. rewrite NljP.result_perm.
    unfold NljP.block, NljP.row, cross, NljP.sat_of, holds_join. by rewrite Hcs, Hlc, Hrc.
Qed.
End world.
End Q.

(** ** Properties *)

(** C24: a sequential scan, run by a transaction that may read the table, returns
    exactly the records on which all conditions hold, each once and in increasing
    order of record id, and leaves every table as it was. *)
Theorem seq_scan_selects p t0 fds T w tab_name tab h pages chain conds page0 idx0 fuel :
  (forall tab h pages chain, T !! tab = Some (h, pages, chain) -> fd_ h ∈ fds) ->
  Q.table_of p t0 fds T w tab_name tab h pages chain ->
  forallb (Cond.scan_ok (tm_cols tab) (record_size (file_hdr_ h))) conds = true ->
  num_pages (file_hdr_ h) * num_records_per_page (file_hdr_ h) < Z.of_nat fuel ->
  exists e e' w' l, Scan.make page0 idx0 tab_name conds p w = (Ok e, w) /\
    all_tuples (X:=Scan.exec Q.lock) fuel (e, w) = (Ok (rec_of <$> l.*2), (e', w')) /\
    StronglySorted rid_lt l.*1 /\
    (forall rid x, (rid, x) ∈ l <-> RmP.rec_at pages rid = Some x /\ holds_scan conds (tm_cols tab) x = true) /\
    Q.world_ok p t0 fds T w'.
Proof.
  intros HT Htab Hc Hfuel. destruct (Q.make_scan p t0 fds T w tab_name tab h pages chain conds page0 idx0 Htab Hc) as (e & Em & Ecols & _ & Econds & Hs).
  destruct Htab as [Hw _ _ Ht _]. destruct (proj2 Hw _ _ _ _ Ht) as [_ Hrep].
  set (l := ScanP.good e (ScanP.all_rows h pages)).
  assert (Hl : matching conds tab h pages = l.*2) by (unfold matching, l, ScanP.good, ScanP.sat, holds_scan; by rewrite Econds, Ecols). rewrite Hl in Hs.
  assert (Hlen : (length l.*2 < fuel)%nat).
  { rewrite length_fmap. unfold l, ScanP.good. pose proof (List.filter_length_le (fun r => ScanP.sat e r.2) (ScanP.all_rows h pages)).
    pose proof (ScanP.length_table_rows (file_hdr_ h) pages (Z.to_nat (num_pages (file_hdr_ h) - 1)) 1) as Hr.
    pose proof (ho_n _ (RmP.rp_hdr _ _ _ _ _ Hrep)). pose proof (RmP.rp_range _ _ _ _ _ Hrep). unfold ScanP.all_rows in *. nia. }
  destruct (all_tuples_spec (L:=Q.scan_laws p t0 fds T HT) e l.*2 w fuel Hs Hw Hlen) as (out & [e' w'] & Er & -> & _ & _ & Hw').
  exists e, e', w', l. split_and!; try done.
  - apply ScanP.sorted_good, ScanP.sorted_table_rows.
  - intros rid x. unfold l. rewrite (ScanP.good_rows (CoreP.reader p t0 fds) e h pages _ chain Hrep).
    unfold ScanP.sat, holds_scan. by rewrite Econds, Ecols.
Qed.

(** C25: the block nested loop join, over any left executor and any right executor that
    can be restarted (a sequential scan can, and a projection of one; a join cannot, as [nested_loop_join_restart] shows), terminates and
    enumerates the pairs of tuples on which its conditions hold: as a multiset, the selection from the cross product.  The fuel
    of its loops is the number of pairs. *)
Theorem nested_loop_join_correct {W L R} {XL : AbstractExecutor W L} {XR : AbstractExecutor W R} {I : W -> Prop}
    {LL : ExecutorLaws W L I} {LR : ExecutorLaws W R I} {RR : Restartable W R I}
    left right conds nl nr all_l all_r w fuel fuel' :
  ex_src left all_l -> ex_src right all_r -> tupleLen W left = inr nl -> tupleLen W right = inr nr -> I w ->
  forallb (Cond.join_ok (cols W left) nl (cols W right) nr) conds = true ->
  (length all_l * length all_r < fuel)%nat -> (length all_l * length all_r < fuel')%nat ->
  exists j j' w' out, Nlj.make (W:=W) left right conds = inr j /\
    all_tuples (X:=Nlj.exec fuel) fuel' (j, w) = (Ok (rec_of <$> out), (j', w')) /\ I w' /\
    out ≡ₚ cross (holds_join conds (cols W left) (cols W right)) all_l all_r.
Proof.
  intros Hl Hr El Er Hw Hc Hf Hf'. destruct (ex_len _ _ Hl) as (n1 & E1 & F1), (ex_len _ _ Hr) as (n2 & E2 & F2).
  rewrite El in E1. rewrite Er in E2. injection E1 as <-. injection E2 as <-. rewrite Forall_forall in F1, F2.
  destruct (NljP.join_src fuel left right conds nl nr all_l all_r Hl Hr El Er) as (j & Ej & Hs & Hcs & Hlc & Hrc & _ & _); [|done|].
  { intros l r Hl' Hr'. apply (Cond.test_all_ok _ nl _ nr); [done|by apply F1|by apply F2]. }
  pose proof (NljP.result_perm (NljP.sat_of j) all_l all_r) as Hp.
  destruct (all_tuples_spec (L:=NljP.laws fuel) j _ w fuel' Hs Hw) as (out & [j' w'] & Eo & -> & _ & _ & Hw').
  { rewrite (Permutation_length Hp). eapply Nat.le_lt_trans; [apply NljP.length_block|exact Hf']. }
  exists j, j', w', (NljP.result (NljP.sat_of j) all_l all_r). split_and!; try done. rewrite Hp. unfold NljP.block, NljP.row, cross, NljP.sat_of, holds_join.
  by rewrite Hcs, Hlc, Hrc.
Qed.

(** A join whose enumeration has ended cannot be restarted: [beginTuple] leaves [is_end_] set, so a
    parent that restarts it sees no tuple. *)
Theorem nested_loop_join_restart {W L R} {XL : AbstractExecutor W L} {XR : AbstractExecutor W R} fuel (j : NestedLoopJoinExecutor L R) (w : W) :
  nj_is_end_ j = true -> @is_end W _ (Nlj.exec fuel) (@beginTuple W _ (Nlj.exec fuel) (j, w)).2.1 = true.
Proof. intros Hj. apply (NljP.keeps_begin fuel (j, w) Hj). Qed.

Lemma shifted_cols_in n1 n2 cols1 cols2 : 0 <= n1 -> 0 <= n2 -> Forall (Proj.col_in n1) cols1 -> Forall (Proj.col_in n2) cols2 ->
  Forall (Proj.col_in (n1 + n2)) (cols1 ++ (Nlj.shift_offset n1 <$> cols2)).
Proof.
  intros H1 H2 F1 F2. apply Forall_app. split.
  - eapply Forall_impl; [exact F1|]. intros c (? & ? & ?). unfold Proj.col_in. lia.
  - apply Forall_fmap. eapply Forall_impl; [exact F2|]. intros c (? & ? & ?). unfold Proj.col_in. simpl. lia.
Qed.

(** the plan of a [SELECT] over two tables (projection over a join over two
    sequential scans), as [Portal] builds it, returns the selected columns of exactly
    the pairs of records on which the conditions of the scans and of the join hold,
    and leaves every table as it was. *)
Theorem select_join_correct p t0 fds T w t1 tab1 h1 pages1 chain1 t2 tab2 h2 pages2 chain2 conds1 conds2 jconds sel buf0 page0 idx0 fuel :
  let n1 := record_size (file_hdr_ h1) in let n2 := record_size (file_hdr_ h2) in
  let jcols := tm_cols tab1 ++ (Nlj.shift_offset n1 <$> tm_cols tab2) in
  (forall tab h pages chain, T !! tab = Some (h, pages, chain) -> fd_ h ∈ fds) ->
  Q.table_of p t0 fds T w t1 tab1 h1 pages1 chain1 -> Q.table_of p t0 fds T w t2 tab2 h2 pages2 chain2 ->
  forallb (Cond.scan_ok (tm_cols tab1) n1) conds1 = true -> forallb (Cond.scan_ok (tm_cols tab2) n2) conds2 = true ->
  forallb (Cond.join_ok (tm_cols tab1) n1 (tm_cols tab2) n2) jconds = true ->
  Forall (Proj.col_in n1) (tm_cols tab1) -> Forall (Proj.col_in n2) (tm_cols tab2) ->
  forall idxs scols slen, Proj.select jcols sel 0 = inr (idxs, scols, slen) -> slen <= zlen buf0 ->
  (length (ScanP.all_rows h1 pages1) * length (ScanP.all_rows h2 pages2) < fuel)%nat ->
  exists e1 e2 j q q' w' out,
    Scan.make page0 idx0 t1 conds1 p w = (Ok e1, w) /\ Scan.make page0 idx0 t2 conds2 p w = (Ok e2, w) /\
    Nlj.make (W:=Q.World) (XL:=Scan.exec Q.lock) (XR:=Scan.exec Q.lock) e1 e2 jconds = inr j /\
    Proj.make (W:=Q.World) (X:=Nlj.exec (XL:=Scan.exec Q.lock) (XR:=Scan.exec Q.lock) fuel) buf0 j sel = inr q /\
    all_tuples (X:=Proj.exec (X:=Nlj.exec (XL:=Scan.exec Q.lock) (XR:=Scan.exec Q.lock) fuel)) fuel (q, w) = (Ok (rec_of <$> out), (q', w')) /\
    out ≡ₚ Proj.project jcols idxs <$> cross (holds_join jconds (tm_cols tab1) (tm_cols tab2)) (matching conds1 tab1 h1 pages1) (matching conds2 tab2 h2 pages2) /\
    Q.world_ok p t0 fds T w'.
Proof.
  intros n1 n2 jcols HT Ht1 Ht2 Hc1 Hc2 Hcj Hin1 Hin2 idxs scols slen Hsel Hbuf Hfuel. pose proof (Q.to_ok _ _ _ _ _ _ _ _ _ _ Ht1) as Hw.
  destruct (Q.make_scan p t0 fds T w t1 tab1 h1 pages1 chain1 conds1 page0 idx0 Ht1 Hc1) as (e1 & Em1 & Ec1 & El1 & _ & Hs1).
  destruct (Q.make_scan p t0 fds T w t2 tab2 h2 pages2 chain2 conds2 page0 idx0 Ht2 Hc2) as (e2 & Em2 & Ec2 & El2 & _ & Hs2).
  assert (Hrf : (length (matching conds1 tab1 h1 pages1) * length (matching conds2 tab2 h2 pages2) < fuel)%nat).
  { unfold matching. rewrite !length_fmap. eapply Nat.le_lt_trans; [apply Nat.mul_le_mono; apply List.filter_length_le|done]. }
  destruct (Q.join_source p t0 fds T HT fuel e1 e2 jconds n1 n2 (tm_cols tab1) (tm_cols tab2) _ _ Hs1 Hs2 El1 El2 Ec1 Ec2 Hcj Hrf)
    as (j & outj & Ej & Hsj & Hp & Hjc & Hjl).
  destruct (Proj.make_src (X:=Nlj.exec fuel) (L:=NljP.laws (LL:=Q.scan_laws p t0 fds T HT) (RR:=Q.scan_restart p t0 fds T HT) fuel) buf0 j sel (n1 + n2) idxs scols slen outj) as (q & Eq & Hsq);
    [by simpl; rewrite Hjc|done|by simpl; rewrite Hjl| |done|].
  { simpl. rewrite Hjc. apply shifted_cols_in; [by apply (Q.size_pos p t0 fds T w t1 tab1 h1 pages1 chain1)|by apply (Q.size_pos p t0 fds T w t2 tab2 h2 pages2 chain2)|done|done]. }
  simpl in Hsq. rewrite Hjc in Hsq.
  destruct (all_tuples_spec (L:=Proj.laws (L:=NljP.laws (LL:=Q.scan_laws p t0 fds T HT) (RR:=Q.scan_restart p t0 fds T HT) fuel)) q _ w fuel Hsq Hw) as (out & [q' w'] & Eo & -> & _ & _ & Hw').
  { rewrite length_fmap, (Permutation_length Hp). eapply Nat.le_lt_trans; [apply (NljP.length_block (holds_join jconds (tm_cols tab1) (tm_cols tab2)))|done]. }
  exists e1, e2, j, q, q', w', (Proj.project jcols idxs <$> outj). split_and!; try done. by rewrite Hp.
Qed.

(** ** Witnesses: a table with one record *)

Definition demo_cols : list ColMeta :=
  [mkColMeta "t" "a" TYPE_INT 4 0 false; mkColMeta "t" "b" TYPE_INT 4 4 false].
Definition demo_tab : TabMeta := mkTabMeta "t" demo_cols [].
Definition demo_world (s : Store) (h : RmFileHandle) : Q.World :=
  mkSmManager (mkCore s (LogM.make 0 0) demo_locks ∅) (mkDbMeta "db" [("t", demo_tab)]) free_mutex {["t" := h]} ∅ free_mutex.
Definition demo_tabcol (name : string) : TabCol := mkTabCol "t" name false COUNT "" "".
(** [t.a >= 1], [t.a = t.a] *)
Definition demo_scan_cond : Condition := mkCondition (demo_tabcol "a") OP_GE true (demo_tabcol "a") (VInt 1).
Definition demo_join_cond : Condition := mkCondition (demo_tabcol "a") OP_EQ false (demo_tabcol "a") (VInt 0).

(** a file of the store is a file of the core *)
Lemma core_rep (C : Core -> Prop) c h pages chain :
  RmP.rep (fun _ : Store => True) (c_store c) h pages chain -> C c -> RmP.rep C c h pages chain.
Proof. intros [] HC. by split. Qed.

Lemma demo_table_of : exists w T h pages chain rid x,
  (forall tab h' pages chain, T !! tab = Some (h', pages, chain) -> fd_ h' ∈ [fd_ h]) /\
  Q.table_of 1 (demo_txn 1 GROWING) [fd_ h] T w "t" demo_tab h pages chain /\ record_size (file_hdr_ h) = 8 /\ RmP.rec_at pages rid = Some x.
Proof.
  destruct demo_one_record as (s & h & pages & chain & rid & x & Hrep & Hx & Hsz).
  exists (demo_world s h), {["t" := (h, pages, chain)]}, h, pages, chain, rid, x. split_and!; [| |done|done].
  - intros tab h' pages' chain'. rewrite lookup_singleton_Some. intros [_ [= -> _ _]]. by apply list_elem_of_singleton.
  - assert (Hr : CoreP.reader 1 (demo_txn 1 GROWING) [fd_ h] (sm_core (demo_world s h))).
    { split; [apply demo_linv|]. split; [exists (demo_txn 1 GROWING); split; [by vm_compute|done]|]. split; [exists (demo_txn 1 GROWING); split; [by vm_compute|apply LkP.like_refl]|].
      intros fd _ q r. simpl. by rewrite lookup_empty. }
    split; try done.
    + split; [done|]. intros tab h' pages' chain'. rewrite lookup_singleton_Some. intros [<- [= <- <- <-]].
      split; [apply lookup_singleton_eq|]. by apply core_rep.
    + exists (mkColMeta "t" "b" TYPE_INT 4 4 false). by rewrite Hsz.
Qed.

Lemma seq_scan_selects_witness : exists T w h (pages : gmap Z apage) (chain : list Z) fuel e e' w' l,
  Scan.make 0 0 "t" [demo_scan_cond] 1 w = (Ok e, w) /\
  all_tuples (X:=Scan.exec Q.lock) fuel (e, w) = (Ok (rec_of <$> l.*2), (e', w')) /\ StronglySorted rid_lt l.*1 /\
  (forall rid x, (rid, x) ∈ l <-> RmP.rec_at pages rid = Some x /\ holds_scan [demo_scan_cond] demo_cols x = true) /\
  Q.world_ok 1 (demo_txn 1 GROWING) [fd_ h] T w'.
Proof.
  destruct demo_table_of as (w & T & h & pages & chain & rid & x & HT & Ht & Hsz & _).
  exists T, w, h, pages, chain, (S (Z.to_nat (num_pages (file_hdr_ h) * num_records_per_page (file_hdr_ h)))).
  apply (seq_scan_selects 1 (demo_txn 1 GROWING) [fd_ h] T w "t" demo_tab h pages chain [demo_scan_cond] 0 0 _ HT Ht).
  - rewrite Hsz. vm_compute. reflexivity.
  - lia.
Defined.

Lemma nested_loop_join_correct_witness : exists T w h e w' j j' out fuel,
  Nlj.make (W:=Q.World) (XL:=Scan.exec Q.lock) (XR:=Scan.exec Q.lock) e e [demo_join_cond] = inr j /\
  all_tuples (X:=Nlj.exec (XL:=Scan.exec Q.lock) (XR:=Scan.exec Q.lock) fuel) fuel (j, w) = (Ok (rec_of <$> out), (j', w')) /\
  Q.world_ok 1 (demo_txn 1 GROWING) [fd_ h] T w'.
Proof.
  destruct demo_table_of as (w & T & h & pages & chain & rid & x & HT & Ht & Hsz & _).
  destruct (Q.make_scan 1 (demo_txn 1 GROWING) [fd_ h] T w "t" demo_tab h pages chain [] 0 0 Ht eq_refl) as (e & _ & Ec & El & _ & Hs).
  set (rows := matching [] demo_tab h pages) in Hs.
  destruct (nested_loop_join_correct (LL:=Q.scan_laws 1 (demo_txn 1 GROWING) [fd_ h] T HT) (RR:=Q.scan_restart 1 (demo_txn 1 GROWING) [fd_ h] T HT) e e [demo_join_cond] 8 8 rows rows w
    (S (length rows * length rows)) (S (length rows * length rows)) Hs Hs) as (j & j' & w' & out & H1 & H2 & H3 & _).
  - simpl. by rewrite El, Hsz.
  - simpl. by rewrite El, Hsz.
  - exact (Q.to_ok _ _ _ _ _ _ _ _ _ _ Ht).
  - simpl. rewrite Ec. vm_compute. reflexivity.
  - lia.
  - lia.
  - by exists T, w, h, e, w', j, j', out, (S (length rows * length rows)).
Defined.

Lemma select_join_correct_witness : exists T w h (pages : gmap Z apage) fuel e1 e2 j q q' w' out,
  Scan.make 0 0 "t" [demo_scan_cond] 1 w = (Ok e1, w) /\ Scan.make 0 0 "t" [] 1 w = (Ok e2, w) /\
  Nlj.make (W:=Q.World) (XL:=Scan.exec Q.lock) (XR:=Scan.exec Q.lock) e1 e2 [demo_join_cond] = inr j /\
  Proj.make (W:=Q.World) (X:=Nlj.exec (XL:=Scan.exec Q.lock) (XR:=Scan.exec Q.lock) fuel) (zeros 4) j [demo_tabcol "b"] = inr q /\
  all_tuples (X:=Proj.exec (X:=Nlj.exec (XL:=Scan.exec Q.lock) (XR:=Scan.exec Q.lock) fuel)) fuel (q, w) = (Ok (rec_of <$> out), (q', w')) /\
  out ≡ₚ Proj.project (demo_cols ++ (Nlj.shift_offset (record_size (file_hdr_ h)) <$> demo_cols)) [1%nat] <$>
    cross (holds_join [demo_join_cond] demo_cols demo_cols) (matching [demo_scan_cond] demo_tab h pages) (matching [] demo_tab h pages) /\
  Q.world_ok 1 (demo_txn 1 GROWING) [fd_ h] T w'.
Proof.
  destruct demo_table_of as (w & T & h & pages & chain & rid & x & HT & Ht & Hsz & _). set (rows := ScanP.all_rows h pages).
  exists T, w, h, pages, (S (length rows * length rows)).
  assert (Hin : Forall (Proj.col_in (record_size (file_hdr_ h))) (tm_cols demo_tab)).
  { rewrite Hsz. repeat constructor; vm_compute; congruence. }
  apply (select_join_correct 1 (demo_txn 1 GROWING) [fd_ h] T w "t" demo_tab h pages chain "t" demo_tab h pages chain [demo_scan_cond] [] [demo_join_cond] [demo_tabcol "b"] (zeros 4) 0 0
    (S (length rows * length rows)) HT Ht Ht) with (scols := [mkColMeta "t" "b" TYPE_INT 4 0 false]) (slen := 4);
    [rewrite Hsz; vm_compute; reflexivity|done|rewrite Hsz; vm_compute; reflexivity|done|done|rewrite Hsz; vm_compute; reflexivity|vm_compute; congruence|unfold rows; lia].
Defined.
