(* ===== verification/Sort.v ===== *)
(** The external merge sort: [TupleBufFile] and [SortExecutor] of
    [src/src/execution/execution_sort.h].

    A buffer or file of tuples is the list of its tuples.  The first [n] tuples of a
    buffer are the only ones looked at after [n] were read into it, so a buffer is
    the list of those.  The temporary files have names of their own (a time stamp in
    nanoseconds) and are kept with their object; [read] and [write] transfer all they are
    asked for, up to the end of the file.  [std::sort] is a parameter. *)

From S2P Require Import Prelude Bytes Errors Disk Defs Text Float32 SmMeta Values.
From S2P Require Import Executor.

Record TupleBufFile := mkTupleBufFile {
  tb_data : list (list Z);       (** the tuples in the file *)
  tb_pos : nat;                  (** the offset of [fd_] *)
  tb_opened : bool;              (** [fd_ != -1] *)
  tot_read_tuple_num : nat;
  tot_write_tuple_num : nat;
}.

Module Tbf.
Section ops.
Local Open Scope prog_scope.

(** the constructor; [fd0] is whether the uninitialised [fd_] differs from -1 *)
Definition make (fd0 : bool) : TupleBufFile := mkTupleBufFile [] 0 fd0 0 0.
Definition open (f : TupleBufFile) : TupleBufFile := mkTupleBufFile (tb_data f) 0 true (tot_read_tuple_num f) (tot_write_tuple_num f).
(** [write(buffer, n)] of the tuples [buf] *)
Definition write (buf : list (list Z)) : Prog TupleBufFile nat :=
  assert (0 <? zlen buf);;
  modify (fun f => mkTupleBufFile (take (tb_pos f) (tb_data f) ++ buf ++ drop (tb_pos f + length buf) (tb_data f))
    (tb_pos f + length buf) (tb_opened f) (tot_read_tuple_num f) (tot_write_tuple_num f + length buf));;
  ret (length buf).
(** the tuples that were read *)
Definition read (max : nat) : Prog TupleBufFile (list (list Z)) :=
  let* b := gets (fun f => take max (drop (tb_pos f) (tb_data f))) in
  assert (0 <? zlen b);;
  modify (fun f => mkTupleBufFile (tb_data f) (tb_pos f + length b) (tb_opened f) (tot_read_tuple_num f + length b) (tot_write_tuple_num f));;
  ret b.
(** [fd_] is set to -1 before it is passed to [::close], so the descriptor stays open *)
Definition close (f : TupleBufFile) : TupleBufFile := mkTupleBufFile (tb_data f) (tb_pos f) false 0 (tot_write_tuple_num f).
Definition is_eof (f : TupleBufFile) : bool := (tot_write_tuple_num f =? tot_read_tuple_num f)%nat.
End ops.
End Tbf.

Record SortExecutor (E : Type) := mkSortExecutor {
  so_prev_ : E;
  so_cols_ : list (ColMeta * bool);     (** [true] is descending *)
  total_tuple_num_ : nat;
  so_tuple_len_ : Z;
  limit_num_ : Z;
  res_file_ : option TupleBufFile;
  buffer0_ : list (list Z);
  curr_read_idx_ : nat;
  so_is_end_ : bool;
}.
Arguments mkSortExecutor {E}.
Arguments so_prev_ {E}.
Arguments so_cols_ {E}.
Arguments total_tuple_num_ {E}.
Arguments so_tuple_len_ {E}.
Arguments limit_num_ {E}.
Arguments res_file_ {E}.
Arguments buffer0_ {E}.
Arguments curr_read_idx_ {E}.
Arguments so_is_end_ {E}.

Module Srt.
Definition tuple_num_per_step : nat := Z.to_nat 2000.

(** ** Comparisons *)

Section cmp.
Local Open Scope prog_scope.

(** [SortExecutor::cmp_record] *)
Fixpoint cmp_record (cs : list (ColMeta * bool)) (rec1 rec2 : list Z) : Prog unit bool :=
  match cs with
  | [] => ret false
  | (col, desc) :: cs =>
      let* val1 := Val.read_from_record rec1 col in
      let* val2 := Val.read_from_record rec2 col in
      if Val.gt val1 val2 then ret desc
      else if Val.lt val1 val2 then ret (negb desc)
      else cmp_record cs rec1 rec2
  end.

(** [strcmp] of the strings at two offsets: the bytes up to the first zero, which must come before
    the end of the tuple *)
Definition c_string (d : list Z) (off : Z) : option (list Z) :=
  if (0 <=? off) && bool_decide (0 ∈ drop (Z.to_nat off) d) then Some (Val.c_str (drop (Z.to_nat off) d)) else None.
Fixpoint strcmp (a b : list Z) : comparison :=
  match a, b with
  | [], [] => Eq
  | [], _ :: _ => Lt
  | _ :: _, [] => Gt
  | x :: a, y :: b => match Z.compare x y with Eq => strcmp a b | c => c end
  end.

(** the comparison of one column of the raw tuples *)
Definition cmp_col (col : ColMeta) (fir sec : list Z) : Prog unit comparison :=
  match cm_type col with
  | TYPE_INT =>
      let* a := Val.load fir (cm_offset col) 4 in let* b := Val.load sec (cm_offset col) 4 in
      ret (Z.compare (dec_i32 a) (dec_i32 b))
  | TYPE_BIGINT =>
      let* a := Val.load fir (cm_offset col) 8 in let* b := Val.load sec (cm_offset col) 8 in
      ret (Z.compare (dec_i64 a) (dec_i64 b))
  | TYPE_DATETIME =>
      let* a := Val.load fir (cm_offset col) 8 in let* b := Val.load sec (cm_offset col) 8 in
      ret (Z.compare (dec_u64 a) (dec_u64 b))
  | TYPE_FLOAT =>
      let* a := Val.load fir (cm_offset col) 4 in let* b := Val.load sec (cm_offset col) 4 in
      ret (if f32_gt (dec_f32 a) (dec_f32 b) then Gt else if f32_lt (dec_f32 a) (dec_f32 b) then Lt else Eq)
  | TYPE_STRING =>
      let* a := deref (c_string fir (cm_offset col)) in let* b := deref (c_string sec (cm_offset col)) in
      ret (strcmp a b)
  end.

(** [SortExecutor::cmp_raw_data]: true also when all columns are equal *)
Fixpoint cmp_raw_data (cs : list (ColMeta * bool)) (fir sec : list Z) : Prog unit bool :=
  match cs with
  | [] => ret true
  | (col, desc) :: cs =>
      let* c := cmp_col col fir sec in
      match c with
      | Gt => ret desc
      | Lt => ret (negb desc)
      | Eq => cmp_raw_data cs fir sec
      end
  end.
End cmp.

(** ** Merging two files *)

Record MergeSt := mkMergeSt {
  fir_file : TupleBufFile; sec_file : TupleBufFile; ret_file : TupleBufFile;
  mg_buffer0 : list (list Z); mg_buffer1 : list (list Z); mg_buffer2 : list (list Z);
  buf0_idx : nat; buf1_idx : nat;
}.

Section merge.
Context (cs : list (ColMeta * bool)).
Local Open Scope prog_scope.

Definition on_fir {A} (m : Prog TupleBufFile A) : Prog MergeSt A :=
  zoom fir_file (fun f s => mkMergeSt f (sec_file s) (ret_file s) (mg_buffer0 s) (mg_buffer1 s) (mg_buffer2 s) (buf0_idx s) (buf1_idx s)) m.
Definition on_sec {A} (m : Prog TupleBufFile A) : Prog MergeSt A :=
  zoom sec_file (fun f s => mkMergeSt (fir_file s) f (ret_file s) (mg_buffer0 s) (mg_buffer1 s) (mg_buffer2 s) (buf0_idx s) (buf1_idx s)) m.
Definition on_ret {A} (m : Prog TupleBufFile A) : Prog MergeSt A :=
  zoom ret_file (fun f s => mkMergeSt (fir_file s) (sec_file s) f (mg_buffer0 s) (mg_buffer1 s) (mg_buffer2 s) (buf0_idx s) (buf1_idx s)) m.
Definition set_buf0 (b : list (list Z)) (i : nat) (s : MergeSt) : MergeSt :=
  mkMergeSt (fir_file s) (sec_file s) (ret_file s) b (mg_buffer1 s) (mg_buffer2 s) i (buf1_idx s).
Definition set_buf1 (b : list (list Z)) (i : nat) (s : MergeSt) : MergeSt :=
  mkMergeSt (fir_file s) (sec_file s) (ret_file s) (mg_buffer0 s) b (mg_buffer2 s) (buf0_idx s) i.
Definition set_buf2 (b : list (list Z)) (s : MergeSt) : MergeSt :=
  mkMergeSt (fir_file s) (sec_file s) (ret_file s) (mg_buffer0 s) (mg_buffer1 s) b (buf0_idx s) (buf1_idx s).

(** refill an exhausted buffer; [false] is the [break] at the end of the file *)
Definition more0 : Prog MergeSt bool :=
  let* s := get in
  if (buf0_idx s =? length (mg_buffer0 s))%nat then
    if Tbf.is_eof (fir_file s) then ret false
    else let* b := on_fir (Tbf.read tuple_num_per_step) in modify (set_buf0 b 0);; ret true
  else ret true.
Definition more1 : Prog MergeSt bool :=
  let* s := get in
  if (buf1_idx s =? length (mg_buffer1 s))%nat then
    if Tbf.is_eof (sec_file s) then ret false
    else let* b := on_sec (Tbf.read tuple_num_per_step) in modify (set_buf1 b 0);; ret true
  else ret true.

(** put one tuple into [buffer2], and write it out when it is full *)
Definition emit (t : list Z) : Prog MergeSt unit :=
  modify (fun s => set_buf2 (mg_buffer2 s ++ [t]) s);;
  let* s := get in
  if (length (mg_buffer2 s) =? tuple_num_per_step)%nat then on_ret (Tbf.write (mg_buffer2 s));; modify (set_buf2 []) else ret tt.

(** the first loop: both files have tuples *)
Fixpoint merge_loop (fuel : nat) : Prog MergeSt unit :=
  match fuel with
  | O => fail OutOfFuel
  | S fuel =>
      let* go := more0 in
      if negb go then ret tt
      else
        let* go := more1 in
        if negb go then ret tt
        else
          let* s := get in
          let* fir := deref (mg_buffer0 s !! buf0_idx s) in
          let* sec := deref (mg_buffer1 s !! buf1_idx s) in
          let* first := pure_call (cmp_raw_data cs fir sec) in
          (if first : bool then modify (fun s => set_buf0 (mg_buffer0 s) (S (buf0_idx s)) s);; emit fir
           else modify (fun s => set_buf1 (mg_buffer1 s) (S (buf1_idx s)) s);; emit sec);;
          merge_loop fuel
  end.

(** the two loops that copy the rest of a file *)
Fixpoint copy0 (fuel : nat) : Prog MergeSt unit :=
  match fuel with
  | O => fail OutOfFuel
  | S fuel =>
      let* go := more0 in
      if negb go then ret tt
      else
        let* s := get in
        on_ret (Tbf.write (drop (buf0_idx s) (mg_buffer0 s)));;
        modify (fun s => set_buf0 (mg_buffer0 s) (length (mg_buffer0 s)) s);;
        copy0 fuel
  end.
Fixpoint copy1 (fuel : nat) : Prog MergeSt unit :=
  match fuel with
  | O => fail OutOfFuel
  | S fuel =>
      let* go := more1 in
      if negb go then ret tt
      else
        let* s := get in
        on_ret (Tbf.write (drop (buf1_idx s) (mg_buffer1 s)));;
        modify (fun s => set_buf1 (mg_buffer1 s) (length (mg_buffer1 s)) s);;
        copy1 fuel
  end.

(** the body of [mergeTmpFiles] on two files *)
Definition merge_two (fuel : nat) (fir sec : TupleBufFile) : Prog unit TupleBufFile := fun u =>
  let s0 := mkMergeSt (Tbf.open fir) (Tbf.open sec) (Tbf.open (Tbf.make false)) [] [] [] 0 0 in
  let '(r, s) := (let* b0 := on_fir (Tbf.read tuple_num_per_step) in
                  let* b1 := on_sec (Tbf.read tuple_num_per_step) in
                  modify (fun s => set_buf1 b1 0 (set_buf0 b0 0 s));;
                  merge_loop fuel;;
                  let* s := get in
                  (if bool_decide (mg_buffer2 s = []) then ret tt else on_ret (Tbf.write (mg_buffer2 s));; ret tt);;
                  copy0 fuel;;
                  copy1 fuel) s0 in
  (match r with Ok _ => Ok (Tbf.close (ret_file s)) | Throw e => Throw e | Fail f => Fail f end, u).

(** [SortExecutor::mergeTmpFiles] on the files from [start_idx] to [end_idx] *)
Fixpoint mergeTmpFiles (files : list TupleBufFile) (start_idx end_idx : Z) (fuel mfuel : nat) : Prog unit (option TupleBufFile) :=
  match fuel with
  | O => fail OutOfFuel
  | S fuel =>
      if end_idx <? start_idx then ret None
      else if start_idx =? end_idx then
        let* f := deref (files !! Z.to_nat start_idx) in ret (Some f)
      else
        let mid := Z.shiftr (start_idx + end_idx) 1 in
        let* fir := mergeTmpFiles files start_idx mid fuel mfuel in
        let* sec := mergeTmpFiles files (mid + 1) end_idx fuel mfuel in
        let* fir := deref fir in
        let* sec := deref sec in
        let* f := merge_two mfuel fir sec in
        ret (Some f)
  end.
End merge.

(** ** The executor *)

Section ops.
Context {W E : Type} {X : AbstractExecutor W E}.
Context (std_sort : (RmRecord -> RmRecord -> bool) -> list RmRecord -> list RmRecord) (fuel : nat).
Local Open Scope prog_scope.
Abbreviation SE := (SortExecutor E).

(** [cmp_record] as the comparison function of [std::sort] *)
Definition cmp_fun (cs : list (ColMeta * bool)) (t1 t2 : RmRecord) : bool :=
  match (cmp_record cs (data t1) (data t2) tt).1 with Ok b => b | _ => false end.
Definition comparable (cs : list (ColMeta * bool)) (t1 t2 : RmRecord) : bool :=
  match (cmp_record cs (data t1) (data t2) tt).1 with Ok _ => true | _ => false end.

(** [std::sort(tuples.begin(), tuples.end(), func)]; all the records must be comparable *)
Definition sort_tuples (cs : list (ColMeta * bool)) (tuples : list RmRecord) : Prog unit (list RmRecord) :=
  if forallb (fun a => forallb (comparable cs a) tuples) tuples then ret (std_sort (cmp_fun cs) tuples) else fail Undef.

(** sort, copy into [buffer0_] and [writeTmpData] *)
Definition write_run (cs : list (ColMeta * bool)) (tuples : list RmRecord) (files : list TupleBufFile) : Prog unit (list TupleBufFile) :=
  let* l := sort_tuples cs tuples in
  let '(r, f) := Tbf.write (data <$> l) (Tbf.open (Tbf.make false)) in
  match r with Ok _ => ret (files ++ [Tbf.close f]) | Throw e => throw e | Fail f => fail f end.

(** the loop over the child, and the last run *)
Definition add_tuple (cs : list (ColMeta * bool)) (acc : list RmRecord * list TupleBufFile * nat) (r : RmRecord) : Prog unit (list RmRecord * list TupleBufFile * nat) :=
  let '(tuples, files, total) := acc in
  let tuples := tuples ++ [r] in
  if (length tuples =? tuple_num_per_step)%nat then
    let* files := write_run cs tuples files in ret ([], files, total + tuple_num_per_step)%nat
  else ret (tuples, files, total).
Definition last_run (cs : list (ColMeta * bool)) (acc : list RmRecord * list TupleBufFile * nat) : Prog unit (list TupleBufFile * nat) :=
  let '(tuples, files, total) := acc in
  match tuples with
  | [] => ret (files, total)
  | _ => let* files := write_run cs tuples files in ret (files, (total + length tuples)%nat)
  end.

(** [for (auto& col : sel_cols) cols_.push_back(make_pair(prev_->get_col_offset(col.first), col.second))] *)
Fixpoint sort_cols (prev : E) (sel_cols : list (TabCol * bool)) : error + list (ColMeta * bool) :=
  match sel_cols with
  | [] => inr []
  | (col, desc) :: rest =>
      match get_col_offset W col prev with
      | inl e => inl e
      | inr c => match sort_cols prev rest with inl e => inl e | inr l => inr ((c, desc) :: l) end
      end
  end.

(** the constructor, which sorts; [idx0] is the uninitialised [curr_read_idx_] *)
Definition make (idx0 : nat) (sel_cols : list (TabCol * bool)) (limit_num : Z) : Prog (E * W) SE :=
  let* prev := gets fst in
  let* tuple_len := pure_call (Val.lift_sum (tupleLen W prev)) in
  let* cs := pure_call (Val.lift_sum (sort_cols prev sel_cols)) in
  beginTuple;;
  let* acc := fold_rest (add_tuple cs) ([], [], O) fuel in
  let* r := pure_call (last_run cs acc) in
  let* res := pure_call (mergeTmpFiles cs r.1 0 (zlen r.1 - 1) fuel fuel) in
  let* prev := gets fst in
  ret (mkSortExecutor prev cs r.2 tuple_len limit_num res [] idx0 false).

Definition set_pos (f : option TupleBufFile) (buf : list (list Z)) (idx : nat) (fin : bool) (e : SE) : SE :=
  mkSortExecutor (so_prev_ e) (so_cols_ e) (total_tuple_num_ e) (so_tuple_len_ e) (limit_num_ e) f buf idx fin.

(** [res_file_->read(buffer0_, tuple_num_per_step)] *)
Definition read_res (f : TupleBufFile) (idx : nat) : Prog (SE * W) unit := fun s =>
  let '(r, f') := Tbf.read tuple_num_per_step f in
  match r with
  | Ok b => (Ok tt, (set_pos (Some f') b idx (so_is_end_ s.1) s.1, s.2))
  | Throw e => (Throw e, s)
  | Fail x => (Fail x, s)
  end.

(** [beginTuple]: [is_end_] is not reset; an empty read fails the assertion in [read] *)
Definition begin_tuple : Prog (SE * W) unit :=
  modify (fun s => (set_pos (res_file_ s.1) (buffer0_ s.1) 0 (so_is_end_ s.1) s.1, s.2));;
  let* e := gets fst in
  match res_file_ e with
  | None => modify (fun s => (set_pos (res_file_ s.1) (buffer0_ s.1) 0 true s.1, s.2))
  | Some f =>
      if limit_num_ e =? 0 then modify (fun s => (set_pos (res_file_ s.1) (buffer0_ s.1) 0 true s.1, s.2))
      else read_res (Tbf.open (if tb_opened f then Tbf.close f else f)) 0
  end.

Definition next_tuple : Prog (SE * W) unit :=
  modify (fun s => (set_pos (res_file_ s.1) (buffer0_ s.1) (S (curr_read_idx_ s.1)) (so_is_end_ s.1) s.1, s.2));;
  let* e := gets fst in
  if (0 <? limit_num_ e) && (Z.of_nat (curr_read_idx_ e) =? limit_num_ e) then
    modify (fun s => (set_pos (res_file_ s.1) (buffer0_ s.1) (curr_read_idx_ s.1) true s.1, s.2))
  else if (curr_read_idx_ e =? length (buffer0_ e))%nat then
    let* f := deref (res_file_ e) in
    if Tbf.is_eof f then modify (fun s => (set_pos (res_file_ s.1) (buffer0_ s.1) (curr_read_idx_ s.1) true s.1, s.2))
    else read_res f 0
  else ret tt.

Definition next : Prog (SE * W) RmRecord :=
  let* e := gets fst in
  let* t := deref (buffer0_ e !! curr_read_idx_ e) in
  ret (RmRecord_of (so_tuple_len_ e) t).

#[export] Instance exec : AbstractExecutor W SE := {
  cols e := cols W (so_prev_ e);
  tupleLen e := inr (so_tuple_len_ e);
  is_end := so_is_end_;
  beginTuple := begin_tuple;
  nextTuple := next_tuple;
  Next := next;
  get_col_offset target e := get_col_offset W target (so_prev_ e);
}.
End ops.
End Srt.
