(* ===== verification/SortMerge.v ===== *)
(** The order of the sort and its merge.

    The two comparison functions of [SortExecutor], one on values and one on raw bytes, are the strict and the
    weak form of one total preorder.  Two sorted files merge into one sorted file with the tuples of both,
    whatever the refills of the buffers, and a list of runs merges into one file. *)

From Stdlib Require Import Sorting.Sorted Floats.SpecFloat.
From S2P Require Import Prelude Bytes Errors Disk Defs Text Float32 SmMeta Values.
From S2P Require Import Executor Sort.

Module SrtO.
Import Srt.

(** ** Keys *)

(** the key of a column: a number as a list of one element, or the bytes of a string *)
Definition key (col : ColMeta) (d : list Z) : list Z :=
  match cm_type col with
  | TYPE_INT => [dec_i32 (slice (cm_offset col) 4 d)]
  | TYPE_BIGINT => [dec_i64 (slice (cm_offset col) 8 d)]
  | TYPE_DATETIME => [dec_u64 (slice (cm_offset col) 8 d)]
  | TYPE_FLOAT => [f32_ord (le_value (slice (cm_offset col) 4 d))]
  | TYPE_STRING => Val.c_str (drop (Z.to_nat (cm_offset col)) d)
  end.

(** a tuple whose column can be compared: inside the tuple, not a NaN, a string that ends in the column *)
Definition col_good (col : ColMeta) (d : list Z) : Prop :=
  bytes_ok d /\
  match cm_type col with
  | TYPE_INT => in_range (cm_offset col) 4 (zlen d) = true
  | TYPE_BIGINT | TYPE_DATETIME => in_range (cm_offset col) 8 (zlen d) = true
  | TYPE_FLOAT => in_range (cm_offset col) 4 (zlen d) = true /\ f32_nan (le_value (slice (cm_offset col) 4 d)) = false
  | TYPE_STRING => in_range (cm_offset col) (cm_len col) (zlen d) = true /\ 0 ∈ slice (cm_offset col) (cm_len col) d
  end.

Lemma strcmp_one a b : strcmp [a] [b] = Z.compare a b.
Proof. simpl. by destruct (a ?= b). Qed.

Lemma strcmp_antisym a : forall b, strcmp b a = CompOpp (strcmp a b).
Proof.
  induction a as [|x a IH]; intros [|y b]; simpl; try done. rewrite (Z.compare_antisym x y). destruct (x ?= y); simpl; [apply IH|done|done].
Qed.
Lemma strcmp_refl a : strcmp a a = Eq.
Proof. induction a as [|x a IH]; [done|]. simpl. by rewrite Z.compare_refl. Qed.
Lemma strcmp_eq a : forall b, strcmp a b = Eq -> a = b.
Proof.
  induction a as [|x a IH]; intros [|y b]; simpl; try done. destruct (Z.compare_spec x y) as [->| |]; [|done|done]. intros H. f_equal. by apply IH.
Qed.
Lemma strcmp_trans a : forall b c, strcmp a b = Lt -> strcmp b c = Lt -> strcmp a c = Lt.
Proof.
  induction a as [|x a IH]; intros [|y b] [|z c]; simpl; try done.
  destruct (Z.compare_spec x y) as [->|H1|H1]; [destruct (Z.compare_spec y z); [apply IH|done|done]| |done].
  intros _. destruct (Z.compare_spec y z) as [->|H2|H2]; [|intros _|done]; by rewrite (proj2 (Z.compare_lt_iff _ _)) by lia.
Qed.

(** ** The two comparisons of one column *)

Lemma c_str_slice (d : list Z) (n : nat) : 0 ∈ take n d -> Val.c_str (take n d) = Val.c_str d.
Proof.
  revert n. induction d as [|x d IH]; intros [|n]; simpl; try done; [by intros ?%elem_of_nil|].
  intros Hin. destruct (Z.eqb_spec x 0); [done|]. f_equal. apply IH. apply elem_of_cons in Hin as [?|?]; [lia|done].
Qed.

Lemma in_range_len off n (d : list Z) : in_range off n (zlen d) = true -> zlen (slice off n d) = n.
Proof. intros H. apply in_range_spec in H. apply zlen_slice; lia. Qed.

Lemma string_good col d : cm_type col = TYPE_STRING -> col_good col d ->
  c_string d (cm_offset col) = Some (key col d) /\ Val.c_str (slice (cm_offset col) (cm_len col) d) = key col d.
Proof.
  intros Ht [Hb Hg]. unfold key. rewrite Ht in *. destruct Hg as [Hr Hz]. apply in_range_spec in Hr as (H1 & H2 & H3). unfold slice in *. split.
  - unfold c_string. rewrite (proj2 (Z.leb_le _ _)) by lia. rewrite bool_decide_true; [done|].
    rewrite <- (take_drop (Z.to_nat (cm_len col)) (drop _ d)). apply elem_of_app. by left.
  - by apply c_str_slice.
Qed.

Lemma f32_gt_ord a b : f32_nan a = false -> f32_nan b = false -> f32_gt (f32_of_bits a) (f32_of_bits b) = (f32_ord b <? f32_ord a).
Proof. intros Ha Hb. exact (f32_lt_ord b a Hb Ha). Qed.

Lemma cmp_col_key col a b : col_good col a -> col_good col b ->
  cmp_col col a b tt = (Ok (strcmp (key col a) (key col b)), tt).
Proof.
  intros Ha Hb. unfold cmp_col. destruct (cm_type col) eqn:Et.
  all: pose proof Ha as [Ba Ra]; pose proof Hb as [Bb Rb]; rewrite Et in Ra, Rb.
  - unfold Val.load, mload, key. rewrite Ra, Rb, Et. by rewrite strcmp_one.
  - destruct Ra as [Ra Na], Rb as [Rb Nb]. unfold Val.load, mload, key. rewrite Ra, Rb, Et. rewrite strcmp_one.
    unfold bind, deref, ret. cbn beta iota. unfold dec_f32. rewrite f32_gt_ord, f32_lt_ord by done. do 2 f_equal.
    destruct (Z.ltb_spec (f32_ord (le_value (slice (cm_offset col) 4 b))) (f32_ord (le_value (slice (cm_offset col) 4 a)))) as [H|H];
      [symmetry; by apply Z.compare_gt_iff|].
    destruct (Z.ltb_spec (f32_ord (le_value (slice (cm_offset col) 4 a))) (f32_ord (le_value (slice (cm_offset col) 4 b))));
      symmetry; [by apply Z.compare_lt_iff|apply Z.compare_eq_iff; lia].
  - unfold Val.load, mload, key. rewrite Ra, Rb, Et. by rewrite strcmp_one.
  - destruct (string_good col a Et Ha) as [Ea _], (string_good col b Et Hb) as [Eb _]. unfold bind, deref. by rewrite Ea, Eb.
  - unfold Val.load, mload, key. rewrite Ra, Rb, Et. by rewrite strcmp_one.
Qed.

Lemma string_compare_bytes a : forall b, bytes_ok a -> bytes_ok b ->
  String.compare (bytes_string a) (bytes_string b) = strcmp a b.
Proof.
  induction a as [|x a IH]; intros [|y b] Ha Hb; try done. apply Forall_cons in Ha as [Hx Ha], Hb as [Hy Hb]. unfold byte_ok in *.
  change (bytes_string (x :: a)) with (String.String (byte_ascii x) (bytes_string a)).
  change (bytes_string (y :: b)) with (String.String (byte_ascii y) (bytes_string b)). simpl. unfold Ascii.compare, byte_ascii.
  rewrite !Ascii.N_ascii_embedding by lia. rewrite (Z2N.inj_compare x y) by lia.
  destruct (x ?= y); [|done|done]. by apply IH.
Qed.

Lemma c_str_ok d : bytes_ok d -> bytes_ok (Val.c_str d).
Proof. induction 1 as [|x d Hx Hd IH]; simpl; [constructor|]. destruct (x =? 0); [constructor|]. by constructor. Qed.

Lemma u64_dec d : bytes_ok d -> zlen d = 8 -> Val.u64 (dec_i64 d) = dec_u64 d.
Proof.
  intros Hb Hl. pose proof (le_value_bound d Hb) as Hv. rewrite Hl in Hv. change (256 ^ 8) with (2 ^ 64) in Hv.
  unfold Val.u64, dec_i64, dec_u64, signed. destruct (Z.ltb_spec (le_value d) (2 ^ (64 - 1))); [apply Z.mod_small; lia|].
  rewrite <- (Z_mod_plus_full _ 1). rewrite Z.mul_1_l, Z.sub_add. apply Z.mod_small. lia.
Qed.

Definition is_gt (c : comparison) : bool := match c with Gt => true | _ => false end.
Definition is_lt (c : comparison) : bool := match c with Lt => true | _ => false end.

Lemma zcompare_gt a b : is_gt (Z.compare a b) = (b <? a).
Proof. destruct (Z.compare_spec a b), (Z.ltb_spec b a); simpl; (done || lia). Qed.
Lemma zcompare_lt a b : is_lt (Z.compare a b) = (a <? b).
Proof. destruct (Z.compare_spec a b), (Z.ltb_spec a b); simpl; (done || lia). Qed.

Lemma read_key col a b : col_good col a -> col_good col b ->
  exists v1 v2, Val.read_from_record a col tt = (Ok v1, tt) /\ Val.read_from_record b col tt = (Ok v2, tt) /\
    Val.gt v1 v2 = is_gt (strcmp (key col a) (key col b)) /\ Val.lt v1 v2 = is_lt (strcmp (key col a) (key col b)).
Proof.
  intros Ha Hb. unfold Val.read_from_record. destruct (cm_type col) eqn:Et.
  all: pose proof Ha as [Ba Ra]; pose proof Hb as [Bb Rb]; rewrite Et in Ra, Rb; unfold Val.load, mload.
  - rewrite Ra, Rb. eexists _, _. split_and!; [reflexivity|reflexivity| |]; unfold key; rewrite Et, strcmp_one, ?zcompare_gt, ?zcompare_lt; done.
  - destruct Ra as [Ra Na], Rb as [Rb Nb]. rewrite Ra, Rb. eexists _, _. split_and!; [reflexivity|reflexivity| |]; unfold key; rewrite Et, strcmp_one, ?zcompare_gt, ?zcompare_lt; simpl.
    + by apply f32_gt_ord.
    + by apply f32_lt_ord.
  - rewrite Ra, Rb. eexists _, _. split_and!; [reflexivity|reflexivity| |]; unfold key; rewrite Et, strcmp_one, ?zcompare_gt, ?zcompare_lt; done.
  - destruct (string_good col a Et Ha) as [_ Ea], (string_good col b Et Hb) as [_ Eb]. destruct Ra as [Ra _], Rb as [Rb _]. rewrite Ra, Rb.
    eexists _, _. split_and!; [reflexivity|reflexivity| |]; simpl; rewrite Ea, Eb; unfold Val.str_lt; rewrite string_compare_bytes by
      (rewrite <- ?Ea, <- ?Eb; by apply c_str_ok, bytes_ok_slice).
    + rewrite strcmp_antisym. by destruct (strcmp (key col a) (key col b)).
    + by destruct (strcmp (key col a) (key col b)).
  - rewrite Ra, Rb. eexists _, _. split_and!; [reflexivity|reflexivity| |]; unfold key; rewrite Et, strcmp_one, ?zcompare_gt, ?zcompare_lt; simpl.
    + by rewrite !u64_dec by (apply in_range_len || apply bytes_ok_slice; done).
    + by rewrite !u64_dec by (apply in_range_len || apply bytes_ok_slice; done).
Qed.

(** ** The lexicographic order *)

Definition dir (desc : bool) (c : comparison) : comparison := if desc then CompOpp c else c.
Fixpoint lex (cs : list (ColMeta * bool)) (a b : list Z) : comparison :=
  match cs with
  | [] => Eq
  | (col, desc) :: cs => match dir desc (strcmp (key col a) (key col b)) with Eq => lex cs a b | c => c end
  end.
Definition good (cs : list (ColMeta * bool)) (d : list Z) : Prop := Forall (fun c => col_good c.1 d) cs.
Definition leb (cs : list (ColMeta * bool)) (a b : list Z) : bool := negb (is_gt (lex cs a b)).

Lemma cmp_raw_lex cs a b : good cs a -> good cs b -> cmp_raw_data cs a b tt = (Ok (leb cs a b), tt).
Proof.
  induction cs as [|[col desc] cs IH]; intros Ha Hb; [done|]. apply Forall_cons in Ha as [Ha1 Ha2], Hb as [Hb1 Hb2]. cbn [cmp_raw_data].
  rewrite (bind_ok _ _ _ _ _ (cmp_col_key col a b Ha1 Hb1)). unfold leb. cbn [lex]. destruct (strcmp (key col a) (key col b)), desc; simpl; try done; by apply IH.
Qed.

Lemma cmp_record_lex cs a b : good cs a -> good cs b -> cmp_record cs a b tt = (Ok (is_lt (lex cs a b)), tt).
Proof.
  induction cs as [|[col desc] cs IH]; intros Ha Hb; [done|]. apply Forall_cons in Ha as [Ha1 Ha2], Hb as [Hb1 Hb2]. cbn [cmp_record].
  destruct (read_key col a b Ha1 Hb1) as (v1 & v2 & E1 & E2 & Hg & Hl). rewrite (bind_ok _ _ _ _ _ E1), (bind_ok _ _ _ _ _ E2), Hg, Hl.
  cbn [lex]. destruct (strcmp (key col a) (key col b)), desc; simpl; try done; by apply IH.
Qed.

Lemma dir_antisym desc a b : dir desc (strcmp b a) = CompOpp (dir desc (strcmp a b)).
Proof. rewrite (strcmp_antisym a b). destruct desc, (strcmp a b); done. Qed.
Lemma keys_antisym cs a b : lex cs b a = CompOpp (lex cs a b).
Proof.
  induction cs as [|[col desc] cs IH]; [done|]. cbn [lex]. rewrite dir_antisym. destruct (dir desc _); simpl; [apply IH|done|done].
Qed.

Lemma leb_total cs a b : leb cs a b = false -> leb cs b a = true.
Proof. unfold leb. rewrite (keys_antisym cs a b). by destruct (lex cs a b). Qed.

Lemma dir_trans desc a b c : dir desc (strcmp a b) = Lt -> dir desc (strcmp b c) = Lt -> dir desc (strcmp a c) = Lt.
Proof.
  destruct desc; simpl; [|apply strcmp_trans]. rewrite <- !strcmp_antisym. intros H1 H2. by eapply strcmp_trans.
Qed.
Lemma dir_eq desc a b : dir desc (strcmp a b) = Eq -> a = b.
Proof. intros H. apply strcmp_eq. destruct desc; simpl in H; [|done]. by destruct (strcmp a b). Qed.

Lemma leb_trans cs a b c : leb cs a b = true -> leb cs b c = true -> leb cs a c = true.
Proof.
  unfold leb. induction cs as [|[col desc] cs IH]; [done|]. cbn [lex].
  destruct (dir desc (strcmp (key col a) (key col b))) eqn:E1; [| |done].
  - apply dir_eq in E1. rewrite E1. destruct (dir desc (strcmp (key col b) (key col c))); [apply IH|done|done].
  - intros _. destruct (dir desc (strcmp (key col b) (key col c))) eqn:E2; [| |done].
    + apply dir_eq in E2. rewrite <- E2, E1. done.
    + intros _. by rewrite (dir_trans _ _ _ _ E1 E2).
Qed.

Lemma lex_leb cs a b : is_lt (lex cs a b) = negb (leb cs b a).
Proof. unfold leb. rewrite (keys_antisym cs a b). by destruct (lex cs a b). Qed.
End SrtO.

Module SrtM.
Import Srt SrtO.

(** ** The list function the merge computes *)

Section lmerge.
Context (cs : list (ColMeta * bool)).

Fixpoint lmerge (l1 : list (list Z)) : list (list Z) -> list (list Z) :=
  fix go l2 :=
    match l1, l2 with
    | [], _ => l2
    | _, [] => l1
    | x :: l1', y :: l2' => if leb cs x y then x :: lmerge l1' l2 else y :: go l2'
    end.

Definition le (a b : list Z) : Prop := leb cs a b = true.
Abbreviation sorted := (StronglySorted le).

Lemma lmerge_nil_l l : lmerge [] l = l.
Proof. by destruct l. Qed.
Lemma lmerge_nil_r l : lmerge l [] = l.
Proof. by destruct l. Qed.
Lemma lmerge_cons x l1 y l2 : lmerge (x :: l1) (y :: l2) = if leb cs x y then x :: lmerge l1 (y :: l2) else y :: lmerge (x :: l1) l2.
Proof. done. Qed.
Lemma lmerge_one l1 l2 : l1 = [] \/ l2 = [] -> lmerge l1 l2 = l1 ++ l2.
Proof. intros [->| ->]; [by rewrite lmerge_nil_l|by rewrite lmerge_nil_r, app_nil_r]. Qed.

Lemma lmerge_perm l1 : forall l2, lmerge l1 l2 ≡ₚ l1 ++ l2.
Proof.
  induction l1 as [|x l1 IH1]; intros l2; [by rewrite lmerge_nil_l|]. induction l2 as [|y l2 IH2]; [by rewrite lmerge_nil_r, app_nil_r|].
  rewrite lmerge_cons. destruct (leb cs x y).
  - simpl. f_equiv. apply IH1.
  - rewrite IH2. apply Permutation_middle.
Qed.

Lemma le_all x y l : le x y -> Forall (le y) l -> Forall (le x) l.
Proof. intros H Hl. eapply Forall_impl; [exact Hl|]. intros z. by apply leb_trans. Qed.

Lemma lmerge_sorted l1 : forall l2, sorted l1 -> sorted l2 -> sorted (lmerge l1 l2).
Proof.
  induction l1 as [|x l1 IH1]; intros l2 H1 H2; [by rewrite lmerge_nil_l|]. induction l2 as [|y l2 IH2]; [by rewrite lmerge_nil_r|].
  apply StronglySorted_inv in H1 as [S1 A1]; pose proof H2 as H2'; apply StronglySorted_inv in H2 as [S2 A2]. rewrite lmerge_cons. destruct (leb cs x y) eqn:Hxy.
  - constructor; [by apply IH1|]. rewrite lmerge_perm. apply Forall_app. split; [done|]. constructor; [done|]. by apply (le_all x y).
  - apply leb_total in Hxy. constructor; [by apply IH2|].
    rewrite lmerge_perm. apply Forall_app. split; [|done]. constructor; [done|]. by apply (le_all y x).
Qed.
End lmerge.

(** ** Files *)

(** a closed file with the tuples [l] *)
Definition closed (l : list (list Z)) (f : TupleBufFile) : Prop :=
  tb_data f = l /\ tot_write_tuple_num f = length l /\ tot_read_tuple_num f = O /\ tb_opened f = false.
(** a file that is read: [r] is what is left *)
Definition reading (r : list (list Z)) (f : TupleBufFile) : Prop :=
  tot_write_tuple_num f = length (tb_data f) /\ tot_read_tuple_num f = tb_pos f /\ (tb_pos f <= length (tb_data f))%nat /\
  drop (tb_pos f) (tb_data f) = r.
(** a file that is written at its end *)
Definition writing (l : list (list Z)) (f : TupleBufFile) : Prop :=
  tb_data f = l /\ tb_pos f = length l /\ tot_write_tuple_num f = length l.

Lemma open_reading l f : closed l f -> reading l (Tbf.open f).
Proof. intros (<- & H1 & H2 & H3). unfold reading. simpl. split_and!; try done. lia. Qed.

Lemma reading_eof r f : reading r f -> Tbf.is_eof f = bool_decide (r = []).
Proof.
  intros (H1 & H2 & H3 & <-). unfold Tbf.is_eof. rewrite H1, H2. destruct (Nat.eqb_spec (length (tb_data f)) (tb_pos f)) as [E|E].
  - symmetry. apply bool_decide_eq_true. by rewrite <- E, drop_all.
  - symmetry. apply bool_decide_eq_false. intros Hd. apply (f_equal length) in Hd. rewrite length_drop in Hd. simpl in Hd. lia.
Qed.

Lemma read_spec n r f : reading r f -> r <> [] -> (0 < n)%nat ->
  exists f', Tbf.read n f = (Ok (take n r), f') /\ reading (drop n r) f' /\ tb_data f' = tb_data f /\ tb_opened f' = tb_opened f /\
    tb_pos f' = (tb_pos f + length (take n r))%nat.
Proof.
  intros (H1 & H2 & H3 & Hr) Hne Hn. unfold Tbf.read, bind, gets. rewrite Hr. cbn beta iota. unfold assert.
  rewrite (proj2 (Z.ltb_lt _ _)) by (unfold zlen; destruct r, n; simpl; try done; lia). eexists. split; [reflexivity|].
  assert (Hl : (tb_pos f + length r = length (tb_data f))%nat) by (rewrite <- Hr, length_drop; lia).
  split; [|by split_and!]. unfold reading. simpl. split_and!; [lia|lia|rewrite length_take; lia|].
  rewrite <- drop_drop, Hr. destruct (decide (n <= length r)%nat).
  - by rewrite length_take, Nat.min_l.
  - by rewrite take_ge, drop_all, drop_ge by lia.
Qed.

Lemma write_spec l b f : writing l f -> b <> [] ->
  exists f', Tbf.write b f = (Ok (length b), f') /\ writing (l ++ b) f' /\ tot_read_tuple_num f' = tot_read_tuple_num f /\ tb_opened f' = tb_opened f.
Proof.
  intros (H1 & H2 & H3) Hb. unfold Tbf.write, bind, assert. rewrite (proj2 (Z.ltb_lt _ _)) by (unfold zlen; destruct b; simpl; (done || lia)).
  eexists. split; [reflexivity|]. unfold writing. simpl. rewrite H1, H2, H3. split_and!; try done.
  - rewrite take_ge, drop_ge by lia. by rewrite app_nil_r.
  - by rewrite length_app.
  - by rewrite length_app.
Qed.

(** ** One merge *)

(** what is left of the two inputs: the rest of the buffer and of the file *)
Definition side (r : list (list Z)) (f : TupleBufFile) (buf : list (list Z)) (i : nat) : Prop :=
  (i <= length buf)%nat /\ exists fr, reading fr f /\ r = drop i buf ++ fr.
Definition state (r0 r1 out : list (list Z)) (s : MergeSt) : Prop :=
  side r0 (fir_file s) (mg_buffer0 s) (buf0_idx s) /\ side r1 (sec_file s) (mg_buffer1 s) (buf1_idx s) /\ writing out (ret_file s).

Lemma step_pos : (0 < tuple_num_per_step)%nat.
Proof. unfold tuple_num_per_step. lia. Qed.

(** a buffer that is not empty offers its next tuple *)
Lemma side_head t r f buf i : side (t :: r) f buf i -> (i < length buf)%nat -> buf !! i = Some t /\ side r f buf (S i).
Proof.
  intros (H1 & fr & H2 & H3) Hi. destruct (lookup_lt_is_Some_2 buf i Hi) as [x Hx]. rewrite (drop_S buf x i Hx) in H3. injection H3 as -> ->.
  split; [done|]. split; [lia|]. by exists fr.
Qed.

Lemma more0_end r1 out s : state [] r1 out s -> more0 s = (Ok false, s).
Proof.
  intros ((H1 & fr & H2 & H3) & _). symmetry in H3. apply app_nil in H3 as [Hd ->]. unfold more0, bind, get.
  apply (f_equal length) in Hd. rewrite length_drop in Hd. simpl in Hd. rewrite (proj2 (Nat.eqb_eq _ _)) by lia. by rewrite (reading_eof _ _ H2).
Qed.
Lemma more1_end r0 out s : state r0 [] out s -> more1 s = (Ok false, s).
Proof.
  intros (_ & (H1 & fr & H2 & H3) & _). symmetry in H3. apply app_nil in H3 as [Hd ->]. unfold more1, bind, get.
  apply (f_equal length) in Hd. rewrite length_drop in Hd. simpl in Hd. rewrite (proj2 (Nat.eqb_eq _ _)) by lia. by rewrite (reading_eof _ _ H2).
Qed.

(** the refill of one side *)
Lemma refill r f buf i : side r f buf i -> r <> [] -> i = length buf ->
  exists b f', Tbf.read tuple_num_per_step f = (Ok b, f') /\ side r f' b 0 /\ (0 < length b)%nat /\ Tbf.is_eof f = false.
Proof.
  intros (H1 & fr & H2 & H3) Hne ->. rewrite drop_all in H3. simpl in H3. subst fr.
  destruct (read_spec tuple_num_per_step r f H2 Hne step_pos) as (f' & E & Hr & _). exists (take tuple_num_per_step r), f'. split; [done|].
  rewrite (reading_eof _ _ H2), bool_decide_false by done. split; [|split; [|done]].
  - split; [lia|]. exists (drop tuple_num_per_step r). split; [done|]. by rewrite drop_0, take_drop.
  - rewrite length_take. destruct r; [done|]. simpl. pose proof step_pos. lia.
Qed.

Lemma more0_go r0 r1 out s : state r0 r1 out s -> r0 <> [] ->
  runs more0 s (fun go s' => go = true /\ state r0 r1 out s' /\ (buf0_idx s' < length (mg_buffer0 s'))%nat /\
    mg_buffer1 s' = mg_buffer1 s /\ buf1_idx s' = buf1_idx s /\ mg_buffer2 s' = mg_buffer2 s).
Proof.
  intros (H0 & H1 & H2) Hne. unfold more0, runs, bind, get. destruct (Nat.eqb_spec (buf0_idx s) (length (mg_buffer0 s))) as [E|E].
  - destruct (refill _ _ _ _ H0 Hne E) as (b & f' & Er & Hs & Hl & He). rewrite He. unfold on_fir, zoom. rewrite Er.
    eexists _, _. split; [reflexivity|]. by split_and!.
  - exists true, s. split; [done|]. split_and!; try done. destruct H0 as [? _]. lia.
Qed.
Lemma more1_go r0 r1 out s : state r0 r1 out s -> r1 <> [] ->
  runs more1 s (fun go s' => go = true /\ state r0 r1 out s' /\ (buf1_idx s' < length (mg_buffer1 s'))%nat /\
    mg_buffer0 s' = mg_buffer0 s /\ buf0_idx s' = buf0_idx s /\ mg_buffer2 s' = mg_buffer2 s).
Proof.
  intros (H0 & H1 & H2) Hne. unfold more1, runs, bind, get. destruct (Nat.eqb_spec (buf1_idx s) (length (mg_buffer1 s))) as [E|E].
  - destruct (refill _ _ _ _ H1 Hne E) as (b & f' & Er & Hs & Hl & He). rewrite He. unfold on_sec, zoom. rewrite Er.
    eexists _, _. split; [reflexivity|]. by split_and!.
  - exists true, s. split; [done|]. split_and!; try done. destruct H1 as [? _]. lia.
Qed.

Lemma emit_spec r0 r1 out t s : state r0 r1 out s -> (length (mg_buffer2 s) < tuple_num_per_step)%nat ->
  runs (emit t) s (fun _ s' => exists out', state r0 r1 out' s' /\ out' ++ mg_buffer2 s' = (out ++ mg_buffer2 s) ++ [t] /\
    (length (mg_buffer2 s') < tuple_num_per_step)%nat).
Proof.
  intros (H0 & H1 & H2) Hl. unfold emit, runs, bind, modify, get. cbn [set_buf2 mg_buffer2]. rewrite length_app. cbn [length].
  destruct (Nat.eqb_spec (length (mg_buffer2 s) + 1) tuple_num_per_step) as [E|E].
  - unfold on_ret, zoom. cbn [ret_file set_buf2]. destruct (write_spec out (mg_buffer2 s ++ [t]) (ret_file s) H2) as (f' & Ew & Hw & _); [by destruct (mg_buffer2 s)|].
    rewrite Ew. eexists _, _. split; [reflexivity|]. exists (out ++ mg_buffer2 s ++ [t]). cbn [mg_buffer2 set_buf2].
    split_and!; [done|by rewrite app_nil_r, app_assoc|apply step_pos].
  - eexists _, _. split; [reflexivity|]. exists out. cbn [mg_buffer2 set_buf2]. rewrite app_assoc, length_app. cbn [length]. split_and!; [done|done|lia].
Qed.

Lemma merge_loop_spec cs fuel : forall r0 r1 out s,
  state r0 r1 out s -> (length (mg_buffer2 s) < tuple_num_per_step)%nat ->
  Forall (good cs) r0 -> Forall (good cs) r1 -> (length r0 + length r1 < fuel)%nat ->
  runs (merge_loop cs fuel) s (fun _ s' => exists r0' r1' out', state r0' r1' out' s' /\
    (out' ++ mg_buffer2 s') ++ r0' ++ r1' = (out ++ mg_buffer2 s) ++ lmerge cs r0 r1).
Proof.
  induction fuel as [|fuel IH]; intros r0 r1 out s Hs Hb G0 G1 Hf; [lia|]. cbn [merge_loop].
  destruct r0 as [|x r0].
  { eapply runs_bind_eq; [by eapply more0_end|]. cbn [negb]. rstep. exists [], r1, out. by rewrite lmerge_nil_l. }
  eapply runs_bind; [by apply (more0_go _ _ _ _ Hs)|]. intros ? s1 (-> & Hs1 & Hi0 & _ & _ & Eb1). cbn [negb].
  destruct r1 as [|y r1].
  { eapply runs_bind_eq; [by eapply more1_end|]. cbn [negb]. rstep. exists (x :: r0), [], out. by rewrite app_nil_r, Eb1, lmerge_nil_r. }
  eapply runs_bind; [by apply (more1_go _ _ _ _ Hs1)|]. intros ? s2 (-> & Hs2 & Hi1 & Eb0 & Ei0 & Eb2). cbn [negb].
  rewrite <- Eb0, <- Ei0 in Hi0. pose proof Hs2 as (A0 & A1 & A2).
  destruct (side_head _ _ _ _ _ A0 Hi0) as [L0 N0], (side_head _ _ _ _ _ A1 Hi1) as [L1 N1].
  eapply runs_bind_eq; [reflexivity|]. rstep; [exact L0|]. rstep; [exact L1|].
  pose proof G0 as [Gx G0']%Forall_cons. pose proof G1 as [Gy G1']%Forall_cons.
  eapply runs_bind_pure; [by apply cmp_raw_lex|]. rewrite lmerge_cons. rewrite <- Eb1, <- Eb2 in Hb. rewrite <- Eb1, <- Eb2.
  destruct (leb cs x y).
  - eapply runs_bind; [rstep; apply (emit_spec r0 (y :: r1) out x); done|].
    intros [] s3 (out' & H3 & Eo & Hl). eapply runs_conseq; [apply (IH r0 (y :: r1) out' s3); try done; simpl in *; lia|].
    intros _ s4 (r0' & r1' & o4 & H4 & E4). exists r0', r1', o4. split; [done|]. rewrite E4. cbn [mg_buffer2 set_buf0] in Eo. by rewrite Eo, <- (app_assoc _ [x]).
  - eapply runs_bind; [rstep; apply (emit_spec (x :: r0) r1 out y); done|].
    intros [] s3 (out' & H3 & Eo & Hl). eapply runs_conseq; [apply (IH (x :: r0) r1 out' s3); try done; simpl in *; lia|].
    intros _ s4 (r0' & r1' & o4 & H4 & E4). exists r0', r1', o4. split; [done|]. rewrite E4. cbn [mg_buffer2 set_buf1] in Eo. by rewrite Eo, <- (app_assoc _ [y]).
Qed.

(** the copying loops *)
Lemma side_all r f buf i : side r f buf i -> (i < length buf)%nat ->
  exists r', r = drop i buf ++ r' /\ side r' f buf (length buf) /\ drop i buf <> [].
Proof.
  intros (H1 & fr & H2 & ->) Hi. exists fr. split; [done|]. split; [split; [lia|]; exists fr; by rewrite drop_all|].
  intros Hd. apply (f_equal length) in Hd. rewrite length_drop in Hd. simpl in Hd. lia.
Qed.

Lemma copy0_spec fuel : forall r0 r1 out s,
  state r0 r1 out s -> (length r0 < fuel)%nat -> runs (copy0 fuel) s (fun _ s' => state [] r1 (out ++ r0) s').
Proof.
  induction fuel as [|fuel IH]; intros r0 r1 out s Hs Hf; [lia|]. cbn [copy0]. destruct (decide (r0 = [])) as [->|Hne].
  { eapply runs_bind_eq; [by eapply more0_end|]. cbn [negb]. rstep. by rewrite app_nil_r. }
  eapply runs_bind; [by apply (more0_go _ _ _ _ Hs)|]. intros ? s1 (-> & (A0 & A1 & A2) & Hi & _). cbn [negb]. eapply runs_bind_eq; [reflexivity|].
  destruct (side_all _ _ _ _ A0 Hi) as (r' & Er & A0' & Hd). destruct (write_spec _ _ _ A2 Hd) as (f' & Ew & Hw & _).
  eapply runs_bind_eq; [unfold on_ret, zoom; rewrite Ew; reflexivity|]. rstep.
  eapply runs_conseq; [apply (IH r' r1 (out ++ drop (buf0_idx s1) (mg_buffer0 s1)))|].
  - by split_and!.
  - rewrite Er, length_app in Hf. destruct (drop _ _); [done|]. simpl in Hf. lia.
  - intros [] s' H. by rewrite Er, app_assoc.
Qed.
Lemma copy1_spec fuel : forall r0 r1 out s,
  state r0 r1 out s -> (length r1 < fuel)%nat -> runs (copy1 fuel) s (fun _ s' => state r0 [] (out ++ r1) s').
Proof.
  induction fuel as [|fuel IH]; intros r0 r1 out s Hs Hf; [lia|]. cbn [copy1]. destruct (decide (r1 = [])) as [->|Hne].
  { eapply runs_bind_eq; [by eapply more1_end|]. cbn [negb]. rstep. by rewrite app_nil_r. }
  eapply runs_bind; [by apply (more1_go _ _ _ _ Hs)|]. intros ? s1 (-> & (A0 & A1 & A2) & Hi & _). cbn [negb]. eapply runs_bind_eq; [reflexivity|].
  destruct (side_all _ _ _ _ A1 Hi) as (r' & Er & A1' & Hd). destruct (write_spec _ _ _ A2 Hd) as (f' & Ew & Hw & _).
  eapply runs_bind_eq; [unfold on_ret, zoom; rewrite Ew; reflexivity|]. rstep.
  eapply runs_conseq; [apply (IH r0 r' (out ++ drop (buf1_idx s1) (mg_buffer1 s1)))|].
  - by split_and!.
  - rewrite Er, length_app in Hf. destruct (drop _ _); [done|]. simpl in Hf. lia.
  - intros [] s' H. by rewrite Er, app_assoc.
Qed.

Lemma flush_spec r0 r1 out s : state r0 r1 out s ->
  runs (if bool_decide (mg_buffer2 s = []) then ret tt else bind (on_ret (Tbf.write (mg_buffer2 s))) (fun _ => ret tt)) s
    (fun _ s' => state r0 r1 (out ++ mg_buffer2 s) s').
Proof.
  intros Hs. case_bool_decide as Hb; [rewrite Hb, app_nil_r; by rstep|].
  destruct Hs as (A0 & A1 & A2). destruct (write_spec _ _ _ A2 Hb) as (f' & Ew & Hw & _).
  eapply runs_bind_eq; [unfold on_ret, zoom; rewrite Ew; reflexivity|]. rstep. by split_and!.
Qed.

(** the first reads *)
Lemma first_state l1 l2 f1 f2 fn b0 f1' b1 f2' :
  closed l1 f1 -> closed l2 f2 -> l1 <> [] -> l2 <> [] -> writing [] fn ->
  Tbf.read tuple_num_per_step (Tbf.open f1) = (Ok b0, f1') -> Tbf.read tuple_num_per_step (Tbf.open f2) = (Ok b1, f2') ->
  state l1 l2 [] (mkMergeSt f1' f2' fn b0 b1 [] 0 0).
Proof.
  intros C1 C2 N1 N2 Hw E1 E2. destruct (read_spec _ _ _ (open_reading _ _ C1) N1 step_pos) as (g1 & E1' & R1 & _).
  destruct (read_spec _ _ _ (open_reading _ _ C2) N2 step_pos) as (g2 & E2' & R2 & _).
  rewrite E1 in E1'. injection E1' as -> ->. rewrite E2 in E2'. injection E2' as -> ->.
  split_and!; [| |done]; (split; [simpl; lia|]; eexists; split; [eassumption|]; simpl; by rewrite drop_0, take_drop).
Qed.

Lemma merge_two_spec cs fuel l1 l2 f1 f2 :
  closed l1 f1 -> closed l2 f2 -> l1 <> [] -> l2 <> [] -> Forall (good cs) l1 -> Forall (good cs) l2 ->
  (length l1 + length l2 < fuel)%nat ->
  exists f, merge_two cs fuel f1 f2 tt = (Ok f, tt) /\ closed (lmerge cs l1 l2) f.
Proof.
  intros C1 C2 N1 N2 G1 G2 Hf. unfold merge_two.
  destruct (read_spec _ _ _ (open_reading _ _ C1) N1 step_pos) as (f1' & E1 & _).
  destruct (read_spec _ _ _ (open_reading _ _ C2) N2 step_pos) as (f2' & E2 & _).
  match goal with |- context [let '(r, s) := ?m ?s0 in _] =>
    assert (Hm : runs m s0 (fun _ s' => exists r0 r1, state r0 r1 (lmerge cs l1 l2) s' )) end.
  { eapply runs_bind_eq; [unfold on_fir, zoom; cbn [fir_file]; rewrite E1; reflexivity|].
    eapply runs_bind_eq; [unfold on_sec, zoom; cbn [sec_file]; rewrite E2; reflexivity|]. rstep.
    pose proof (first_state l1 l2 f1 f2 (Tbf.open (Tbf.make false)) _ _ _ _ C1 C2 N1 N2 ltac:(done) E1 E2) as Hs.
    eapply runs_bind; [apply (merge_loop_spec cs fuel l1 l2 [] _ Hs); try done; apply step_pos|].
    intros [] s1 (r0 & r1 & out & H1 & Eo). simpl in Eo.
    assert (Hl : (length r0 + length r1 < fuel)%nat).
    { apply (f_equal length) in Eo. rewrite (lmerge_perm cs l1 l2) in Eo. rewrite !length_app in Eo. lia. }
    eapply runs_bind_eq; [reflexivity|]. eapply runs_bind; [apply (flush_spec _ _ _ _ H1)|]. intros [] s2 H2.
    eapply runs_bind; [apply (copy0_spec _ _ _ _ _ H2); lia|]. intros [] s3 H3.
    eapply runs_conseq; [apply (copy1_spec _ _ _ _ _ H3); lia|]. intros [] s4 H4. exists [], []. rewrite <- app_assoc, Eo in H4. done. }
  destruct Hm as ([] & s' & -> & r0 & r1 & _ & _ & H1 & H2 & H3). eexists. split; [reflexivity|].
  by split_and!.
Qed.

(** ** All the runs *)

(** the runs from the [i]-th one, one more than [n] of them *)
Definition seg {A} (i n : nat) (ls : list A) : list A := take (S n) (drop i ls).
Lemma seg_split {A} i n m (ls : list A) : seg i (S (n + m)) ls = seg i n ls ++ seg (i + S n) m ls.
Proof. unfold seg. replace (S (S (n + m))) with (S n + S m)%nat by lia. by rewrite <- take_take_drop, drop_drop. Qed.

Lemma seg_one {A} i (ls : list A) l : ls !! i = Some l -> seg i 0 ls = [l].
Proof. intros H. unfold seg. rewrite (drop_S _ _ _ H). done. Qed.
Lemma seg_length_le {A} i n (ls : list (list A)) : (length (concat (seg i n ls)) <= length (concat ls))%nat.
Proof.
  unfold seg. rewrite <- (take_drop i ls) at 2. rewrite concat_app, length_app. rewrite <- (take_drop (S n) (drop i ls)) at 2.
  rewrite concat_app, length_app. lia.
Qed.

(** a run: a closed file with sorted tuples, at least one *)
Definition run (cs : list (ColMeta * bool)) (l : list (list Z)) (f : TupleBufFile) : Prop :=
  closed l f /\ l <> [] /\ Forall (good cs) l /\ StronglySorted (le cs) l.

Lemma mergeTmpFiles_spec cs ls files mfuel fuel : forall i n,
  Forall2 (run cs) ls files -> (i + n < length ls)%nat -> (n < fuel)%nat -> (length (concat ls) < mfuel)%nat ->
  exists f l, mergeTmpFiles cs files (Z.of_nat i) (Z.of_nat (i + n)) fuel mfuel tt = (Ok (Some f), tt) /\
    run cs l f /\ l ≡ₚ concat (seg i n ls).
Proof.
  induction fuel as [|fuel IH]; intros i n HF Hin Hn Hm; [lia|]. cbn [mergeTmpFiles].
  rewrite (proj2 (Z.ltb_ge _ _)) by lia. destruct (decide (n = O)) as [->|Hn0].
  - rewrite (proj2 (Z.eqb_eq _ _)) by lia. rewrite Nat2Z.id. destruct (lookup_lt_is_Some_2 ls i ltac:(lia)) as [l Hl].
    destruct (Forall2_lookup_l _ _ _ _ _ HF Hl) as (f & Hf & Hr). exists f, l. rewrite Hf. split; [done|]. split; [done|].
    rewrite (seg_one _ _ _ Hl). simpl. by rewrite app_nil_r.
  - rewrite (proj2 (Z.eqb_neq _ _)) by lia. set (h := (n / 2)%nat).
    assert (Hh : Z.shiftr (Z.of_nat i + Z.of_nat (i + n)) 1 = Z.of_nat (i + h)).
    { rewrite Z.shiftr_div_pow2 by lia. change (2 ^ 1) with 2. rewrite (Nat2Z.inj_add i h). unfold h. rewrite Nat2Z.inj_div.
      replace (Z.of_nat i + Z.of_nat (i + n)) with (Z.of_nat n + Z.of_nat i * 2) by lia. rewrite Z.div_add by lia. change (Z.of_nat 2) with 2. lia. }
    assert (Hlt : (h < n)%nat) by (unfold h; apply Nat.div_lt; lia). rewrite Hh.
    destruct (IH i h HF ltac:(lia) ltac:(lia) Hm) as (f1 & l1 & E1 & (C1 & N1 & G1 & S1) & P1).
    destruct (IH (i + S h)%nat (n - S h)%nat HF ltac:(lia) ltac:(lia) Hm) as (f2 & l2 & E2 & (C2 & N2 & G2 & S2) & P2).
    rewrite (bind_ok _ _ _ _ _ E1). replace (Z.of_nat (i + h) + 1) with (Z.of_nat (i + S h)) by lia.
    replace (i + S h + (n - S h))%nat with (i + n)%nat in E2 by lia. rewrite (bind_ok _ _ _ _ _ E2).
    assert (Hseg : l1 ++ l2 ≡ₚ concat (seg i n ls)).
    { replace n with (S (h + (n - S h)))%nat at 1 by lia. rewrite seg_split, concat_app. by rewrite P1, P2. }
    destruct (merge_two_spec cs mfuel l1 l2 f1 f2) as (f & Ef & Cf); try done.
    { rewrite <- length_app, Hseg. pose proof (seg_length_le i n ls). lia. }
    exists f, (lmerge cs l1 l2). unfold bind at 1, deref at 1. unfold ret at 1. unfold bind at 1, deref at 1. unfold ret at 1. rewrite (bind_ok _ _ _ _ _ Ef).
    pose proof (lmerge_perm cs l1 l2) as Hp. split; [done|]. split; [|by rewrite Hp]. split_and!; [done| | |by apply lmerge_sorted].
    + intros Hnil. rewrite Hnil in Hp. apply Permutation_nil_l in Hp. by destruct l1.
    + rewrite Hp. by apply Forall_app.
Qed.

Corollary merge_all cs ls files mfuel fuel :
  Forall2 (run cs) ls files -> (length ls < fuel)%nat -> (length (concat ls) < mfuel)%nat ->
  exists r, mergeTmpFiles cs files 0 (zlen files - 1) fuel mfuel tt = (Ok r, tt) /\
    match r with
    | None => ls = []
    | Some f => exists l, run cs l f /\ l ≡ₚ concat ls
    end.
Proof.
  intros HF Hf Hm. pose proof (Forall2_length _ _ _ HF) as Hl. destruct ls as [|l0 ls].
  - destruct files; [|done]. exists None. split; [|done]. destruct fuel; [simpl in Hf; lia|]. done.
  - destruct (mergeTmpFiles_spec cs (l0 :: ls) files mfuel fuel 0 (length ls) HF) as (f & l & E & Hr & Hp); try (simpl in *; lia).
    exists (Some f). unfold zlen. rewrite <- Hl. cbn [length] in *. replace (Z.of_nat (S (length ls)) - 1) with (Z.of_nat (length ls)) by lia. split; [done|].
    exists l. split; [done|]. rewrite Hp. unfold seg. rewrite drop_0, take_ge by (simpl; lia). done.
Qed.
End SrtM.
