(* ===== verification/SortProps.v ===== *)
(** The sort executor: its constructor reads the child to the end and leaves one sorted file, and from
    [beginTuple] on it enumerates that file, up to the limit.  So over any child it enumerates the child's
    tuples in order. *)

From Stdlib Require Import Sorting.Sorted.
From S2P Require Import Prelude Bytes Errors Disk Defs Text Float32 SmMeta Values.
From S2P Require Import Executor Sort SortMerge.

Module SrtP.
Import Srt SrtO SrtM.

(** What [std::sort] promises: where the comparison is a strict weak order on the elements, the
    result is a permutation of them in which no element is less than an earlier one. *)
Definition weak_order {A} (lt : A -> A -> bool) (l : list A) : Prop :=
  (forall a, a ∈ l -> lt a a = false) /\
  (forall a b c, a ∈ l -> b ∈ l -> c ∈ l -> lt a b = true -> lt b c = true -> lt a c = true) /\
  (forall a b c, a ∈ l -> b ∈ l -> c ∈ l -> lt a b = false -> lt b c = false -> lt a c = false).
Definition sorts {A} (f : (A -> A -> bool) -> list A -> list A) : Prop :=
  forall lt l, weak_order lt l -> f lt l ≡ₚ l /\ StronglySorted (fun a b => lt b a = false) (f lt l).

Section runs.
Context (std_sort : (RmRecord -> RmRecord -> bool) -> list RmRecord -> list RmRecord) (Hsort : sorts std_sort).
Context (cs : list (ColMeta * bool)).

Lemma cmp_fun_lex a b : good cs a -> good cs b -> cmp_fun cs (rec_of a) (rec_of b) = negb (leb cs b a).
Proof. intros Ha Hb. unfold cmp_fun. cbn [data rec_of]. rewrite cmp_record_lex by done. apply lex_leb. Qed.

Lemma cmp_fun_order l : Forall (good cs) l -> weak_order (cmp_fun cs) (rec_of <$> l).
Proof.
  rewrite Forall_forall. intros Hg.
  assert (HE : forall r, r ∈ rec_of <$> l -> exists a, r = rec_of a /\ good cs a).
  { intros r (a & -> & Ha)%list_elem_of_fmap. exists a. split; [done|]. by apply Hg. }
  split_and!.
  - intros ? (a & -> & Ha)%HE. rewrite cmp_fun_lex by done. unfold leb. assert (Hr : lex cs a a = Eq).
    { clear. induction cs as [|[c d] cs' IH]; [done|]. cbn [lex]. rewrite strcmp_refl. by destruct d. }
    by rewrite Hr.
  - intros ? ? ? (a & -> & Ha)%HE (b & -> & Hb)%HE (c & -> & Hc)%HE. rewrite !cmp_fun_lex, !negb_true_iff by done. intros H1 H2.
    destruct (leb cs c a) eqn:E; [|done]. rewrite <- H2. symmetry. apply (leb_trans cs c a b); [done|]. by apply leb_total.
  - intros ? ? ? (a & -> & Ha)%HE (b & -> & Hb)%HE (c & -> & Hc)%HE. rewrite !cmp_fun_lex, !negb_false_iff by done. intros H1 H2.
    by apply (leb_trans cs c b a).
Qed.

Lemma comparable_all l : Forall (good cs) l -> forallb (fun a => forallb (comparable cs a) (rec_of <$> l)) (rec_of <$> l) = true.
Proof.
  rewrite Forall_forall. intros Hg. apply forallb_forall. intros ? (a & -> & Ha)%list_elem_of_In%list_elem_of_fmap.
  apply forallb_forall. intros ? (b & -> & Hb)%list_elem_of_In%list_elem_of_fmap. unfold comparable. cbn [data rec_of].
  by rewrite cmp_record_lex by (by apply Hg).
Qed.

Lemma write_run_spec l files : Forall (good cs) l -> l <> [] ->
  exists l' f, write_run std_sort cs (rec_of <$> l) files tt = (Ok (files ++ [f]), tt) /\ run cs l' f /\ l' ≡ₚ l.
Proof.
  intros Hg Hne. destruct (Hsort _ _ (cmp_fun_order l Hg)) as [Hp Hs]. unfold write_run, sort_tuples. rewrite comparable_all by done.
  unfold bind at 1, ret at 1. set (rs := std_sort _ _) in *.
  destruct (Permutation_map_inv rec_of _ Hp) as (l' & Hl' & Hp'). change (map rec_of l') with (rec_of <$> l') in Hl'.
  rewrite Hl' in Hs |- *. assert (Hd : data <$> (rec_of <$> l') = l') by (rewrite <- list_fmap_compose; apply list_fmap_id). rewrite Hd.
  assert (Hg' : Forall (good cs) l') by (by rewrite <- Hp').
  destruct (write_spec [] l' (Tbf.open (Tbf.make false)) ltac:(done)) as (f & Ef & Hw & Hr & _); [intros ->; by apply Permutation_nil_r in Hp'|].
  rewrite Ef. exists l', (Tbf.close f). split; [done|]. split; [|done]. split_and!; [|intros ->; by apply Permutation_nil_r in Hp'|done|].
  - destruct Hw as (H1 & H2 & H3). by split_and!.
  - clear -Hs Hg'. induction l' as [|x l' IH]; [constructor|]. rewrite fmap_cons in Hs. apply StronglySorted_inv in Hs as [Hs Ha].
    apply Forall_cons in Hg' as [Hx Hg]. constructor; [by apply IH|]. rewrite Forall_fmap, Forall_forall in Ha. rewrite Forall_forall in Hg. apply Forall_forall. intros y Hy.
    specialize (Ha y Hy). simpl in Ha. rewrite cmp_fun_lex in Ha by (done || by apply Hg). by apply negb_false_iff in Ha.
Qed.

(** after the tuples [dn], the files are runs of all but the last ones *)
Definition acc_ok (dn : list (list Z)) (acc : list RmRecord * list TupleBufFile * nat) : Prop :=
  exists ls l, Forall2 (run cs) ls acc.1.2 /\ acc.1.1 = rec_of <$> l /\ (length l < tuple_num_per_step)%nat /\
    acc.2 = length (concat ls) /\ dn ≡ₚ concat ls ++ l.

Lemma runs_snoc ls l' f (files : list TupleBufFile) l : Forall2 (run cs) ls files -> run cs l' f -> l' ≡ₚ l ->
  Forall2 (run cs) (ls ++ [l']) (files ++ [f]) /\ concat (ls ++ [l']) ≡ₚ concat ls ++ l.
Proof.
  intros H1 H2 Hp. split; [apply Forall2_app; [done|]; by constructor|]. rewrite concat_app. simpl. by rewrite app_nil_r, Hp.
Qed.

Lemma add_tuple_spec dn t acc : Forall (good cs) (dn ++ [t]) -> acc_ok dn acc ->
  exists acc', add_tuple std_sort cs acc (rec_of t) tt = (Ok acc', tt) /\ acc_ok (dn ++ [t]) acc'.
Proof.
  intros Hg (ls & l & HF & Ht & Hl & Hn & Hp). destruct acc as [[tuples files] total]. simpl in *. subst tuples.
  assert (Hp' : dn ++ [t] ≡ₚ concat ls ++ (l ++ [t])) by (by rewrite Hp, app_assoc). rewrite Hp' in Hg. apply Forall_app in Hg as [_ Hg].
  unfold add_tuple. replace ((rec_of <$> l) ++ [rec_of t]) with (rec_of <$> (l ++ [t])) by (by rewrite fmap_app).
  rewrite length_fmap. destruct (Nat.eqb_spec (length (l ++ [t])) tuple_num_per_step) as [E|E].
  - destruct (write_run_spec (l ++ [t]) files Hg) as (l' & f & Ew & Hr & Hpl); [by destruct l|]. rewrite (bind_ok _ _ _ _ _ Ew).
    eexists. split; [reflexivity|]. destruct (runs_snoc ls l' f files (l ++ [t]) HF Hr Hpl) as [HF' Hc]. exists (ls ++ [l']), []. cbn [fst snd].
    split_and!; [done|done|apply step_pos|rewrite Hc, length_app; lia|by rewrite app_nil_r, Hc].
  - eexists. split; [reflexivity|]. exists ls, (l ++ [t]). cbn [fst snd]. split_and!; try done. rewrite length_app in *. simpl in *. lia.
Qed.

Lemma last_run_spec dn acc : Forall (good cs) dn -> acc_ok dn acc ->
  exists files ls, last_run std_sort cs acc tt = (Ok (files, length dn), tt) /\ Forall2 (run cs) ls files /\ dn ≡ₚ concat ls.
Proof.
  intros Hg (ls & l & HF & Ht & Hl & Hn & Hp). destruct acc as [[tuples files] total]. simpl in *. subst tuples total.
  pose proof (Permutation_length Hp) as Hlen. rewrite length_app in Hlen. rewrite Hp in Hg. apply Forall_app in Hg as [_ Hg].
  destruct l as [|x l].
  - exists files, ls. simpl in *. rewrite app_nil_r in Hp. split; [|done]. by rewrite Hlen, Nat.add_0_r.
  - destruct (write_run_spec (x :: l) files Hg) as (l' & f & Ew & Hr & Hpl); [done|].
    destruct (runs_snoc ls l' f files (x :: l) HF Hr Hpl) as [HF' Hc]. exists (files ++ [f]), (ls ++ [l']).
    change (rec_of <$> x :: l) with (rec_of x :: (rec_of <$> l)) in *. unfold last_run. rewrite (bind_ok _ _ _ _ _ Ew). split; [|split; [done|by rewrite Hc]].
    unfold ret. rewrite Hlen. cbn [length]. by rewrite length_fmap.
Qed.
End runs.

(** ** The executor *)

(** [LIMIT n] is honoured up to one buffer of tuples: [curr_read_idx_] starts again at 0 with every
    buffer, so a larger limit is never reached *)
Definition small (limit : Z) : bool := (0 <? limit) && (limit <=? Z.of_nat tuple_num_per_step).
Definition rest (limit : Z) (i : nat) (l : list (list Z)) : list (list Z) := if small limit then take (Z.to_nat limit - i) l else l.
Definition limited (limit : Z) (l : list (list Z)) : list (list Z) := if limit =? 0 then [] else rest limit 0 l.

Lemma rest_nil limit i : rest limit i [] = [].
Proof. unfold rest. destruct (small limit); [apply take_nil|done]. Qed.
Lemma limited_nil limit : limited limit [] = [].
Proof. unfold limited. destruct (limit =? 0); [done|apply rest_nil]. Qed.

Section laws.
Context {W E : Type} {X : AbstractExecutor W E} {I : W -> Prop}.
Abbreviation SE := (SortExecutor E).

Definition src (e : SE) (all : list (list Z)) : Prop :=
  exists l, all = limited (limit_num_ e) l /\ Forall (fun t => zlen t = so_tuple_len_ e) l /\
    match res_file_ e with
    | None => l = []
    | Some f => closed l f /\ l <> [] /\ so_is_end_ e = false
    end.

(** in the middle of a buffer; [fr] is what is left in the file *)
Definition inside (e : SE) (ts : list (list Z)) : Prop :=
  exists f fr, res_file_ e = Some f /\ reading fr f /\ (curr_read_idx_ e < length (buffer0_ e) <= tuple_num_per_step)%nat /\
    so_is_end_ e = false /\ limit_num_ e <> 0 /\ Forall (fun t => zlen t = so_tuple_len_ e) (buffer0_ e ++ fr) /\
    ts = rest (limit_num_ e) (curr_read_idx_ e) (drop (curr_read_idx_ e) (buffer0_ e) ++ fr) /\
    (small (limit_num_ e) = true -> (Z.of_nat (curr_read_idx_ e) < limit_num_ e) /\ (fr = [] \/ length (buffer0_ e) = tuple_num_per_step)).
Definition at_ (e : SE) (all ts : list (list Z)) : Prop := (so_is_end_ e = true /\ ts = []) \/ inside e ts.

Lemma inside_head e ts : inside e ts -> exists t ts', ts = t :: ts' /\ buffer0_ e !! curr_read_idx_ e = Some t /\ zlen t = so_tuple_len_ e.
Proof.
  intros (f & fr & _ & _ & Hi & _ & _ & HF & -> & Hs). destruct (lookup_lt_is_Some_2 (buffer0_ e) (curr_read_idx_ e) ltac:(lia)) as [t Ht].
  rewrite (drop_S _ _ _ Ht). exists t. unfold rest. assert (Hz : zlen t = so_tuple_len_ e).
  { apply Forall_app in HF as [HF _]. rewrite Forall_forall in HF. apply HF. by eapply list_elem_of_lookup_2. }
  destruct (small (limit_num_ e)) eqn:Es; [|eauto]. destruct (Hs eq_refl) as [Hlt _].
  destruct (Z.to_nat (limit_num_ e) - curr_read_idx_ e)%nat eqn:En; [lia|]. simpl. eauto.
Qed.

(** [read] into the buffer, at the start of a file or when the buffer is used up *)
Lemma read_res_runs (e : SE) (w : W) f r : reading r f -> r <> [] ->
  exists f', read_res f 0 (e, w) = (Ok tt, (set_pos (Some f') (take tuple_num_per_step r) 0 (so_is_end_ e) e, w)) /\
    reading (drop tuple_num_per_step r) f'.
Proof.
  intros Hr Hne. destruct (read_spec _ _ _ Hr Hne step_pos) as (f' & E1 & H1 & _). exists f'. unfold read_res. rewrite E1. done.
Qed.

Lemma inside_fresh (e : SE) f r : reading (drop tuple_num_per_step r) f -> r <> [] -> so_is_end_ e = false -> limit_num_ e <> 0 ->
  Forall (fun t => zlen t = so_tuple_len_ e) r ->
  inside (set_pos (Some f) (take tuple_num_per_step r) 0 (so_is_end_ e) e) (rest (limit_num_ e) 0 r).
Proof.
  intros Hr Hne He Hl HF. exists f, (drop tuple_num_per_step r). cbn [res_file_ set_pos curr_read_idx_ buffer0_ so_is_end_ limit_num_ so_tuple_len_].
  rewrite drop_0, take_drop, length_take. pose proof step_pos. assert (length r <> 0%nat) by (by destruct r).
  split_and!; try done; try lia. intros Hs. unfold small in Hs. split; [lia|]. destruct (decide (length r <= tuple_num_per_step)%nat); [left; by apply drop_ge|right; lia].
Qed.

Lemma begin_runs e all (w : W) : src e all ->
  runs begin_tuple (e, w) (fun _ s => at_ s.1 all all /\ same_shape (X:=exec) e s.1 /\ s.2 = w).
Proof.
  intros (l & -> & HF & Hf). unfold begin_tuple. rstep. rstep. cbn [fst set_pos res_file_].
  destruct (res_file_ e) as [f|]; [|rstep; split_and!; [|done|done]; left; subst l; split; [done|]; apply limited_nil].
  destruct Hf as (Hc & Hne & He). cbn [limit_num_ set_pos]. destruct (Z.eqb_spec (limit_num_ e) 0) as [H0|H0].
  - rstep. split_and!; [|done|done]. left. split; [done|]. unfold limited. by rewrite H0.
  - pose proof Hc as (_ & _ & _ & ->). destruct (read_res_runs (set_pos (Some f) (buffer0_ e) 0 (so_is_end_ e) e) w _ l (open_reading _ _ Hc) Hne) as (f' & E1 & H1).
    eapply runs_eq; [exact E1|]. split_and!; [|done|done]. right. unfold limited. rewrite (proj2 (Z.eqb_neq _ _)) by done.
    by apply (inside_fresh (set_pos (Some f) (buffer0_ e) 0 (so_is_end_ e) e)).
Qed.

Lemma step_runs e t ts (w : W) : inside e (t :: ts) ->
  runs next_tuple (e, w) (fun _ s => at_ s.1 [] ts /\ same_shape (X:=exec) e s.1 /\ s.2 = w).
Proof.
  intros Hin. pose proof Hin as (f & fr & Hf & Hr & Hi & He & H0 & HF & Hts & Hs).
  destruct (lookup_lt_is_Some_2 (buffer0_ e) (curr_read_idx_ e) ltac:(lia)) as [u Hu]. rewrite (drop_S _ _ _ Hu) in Hts.
  assert (Ht : ts = rest (limit_num_ e) (S (curr_read_idx_ e)) (drop (S (curr_read_idx_ e)) (buffer0_ e) ++ fr)).
  { unfold rest in *. destruct (small (limit_num_ e)); [|by injection Hts].
    destruct (Hs eq_refl) as [Hlt _]. replace (Z.to_nat (limit_num_ e) - curr_read_idx_ e)%nat with (S (Z.to_nat (limit_num_ e) - S (curr_read_idx_ e))) in Hts by lia.
    by injection Hts. }
  unfold next_tuple. rstep. rstep. cbn [fst snd set_pos curr_read_idx_ limit_num_ buffer0_ res_file_].
  destruct ((0 <? limit_num_ e) && (Z.of_nat (S (curr_read_idx_ e)) =? limit_num_ e)) eqn:Elim.
  - rstep. split_and!; [|done|done]. left. split; [done|]. subst ts. unfold rest, small. apply andb_true_iff in Elim as [H1%Z.ltb_lt H2%Z.eqb_eq].
    rewrite (proj2 (Z.ltb_lt 0 (limit_num_ e)) H1), (proj2 (Z.leb_le (limit_num_ e) _)) by lia. cbn [andb].
    replace (Z.to_nat (limit_num_ e) - S (curr_read_idx_ e))%nat with O by lia. done.
  - destruct (Nat.eqb_spec (S (curr_read_idx_ e)) (length (buffer0_ e))) as [Eb|Eb].
    + rewrite Eb, drop_all in Ht. simpl in Ht. rewrite Hf. rstep; [reflexivity|]. rewrite (reading_eof _ _ Hr). case_bool_decide as Hfr.
      * rstep. split_and!; [|done|done]. left. split; [done|]. subst ts fr. apply rest_nil.
      * assert (Hsm : small (limit_num_ e) = false).
        { destruct (small (limit_num_ e)) eqn:Es; [|done]. destruct (Hs eq_refl) as [Hlt [?|Hl]]; [done|]. unfold small in Es. apply andb_true_iff in Es as [_ Es%Z.leb_le]. apply andb_false_iff in Elim as [Hx%Z.ltb_ge|Hx%Z.eqb_neq]; lia. }
        destruct (read_res_runs (set_pos (Some f) (buffer0_ e) (S (curr_read_idx_ e)) (so_is_end_ e) e) w f fr Hr Hfr) as (f' & E1 & H1).
        eapply runs_eq; [exact E1|]. split_and!; [|done|done]. right. apply Forall_app in HF as [_ HF].
        assert (Hre : ts = rest (limit_num_ e) 0 fr) by (subst ts; unfold rest; by rewrite Hsm). rewrite Hre.
        exact (inside_fresh (set_pos (Some f) (buffer0_ e) (S (curr_read_idx_ e)) (so_is_end_ e) e) f' fr H1 Hfr He H0 HF).
    + rstep. split_and!; [|done|done]. right. exists f, fr. cbn [res_file_ set_pos curr_read_idx_ buffer0_ so_is_end_ limit_num_ so_tuple_len_ fst].
      split_and!; try done; try lia. intros Es. destruct (Hs Es) as [Hlt Hor]. split; [|done].
      apply andb_true_iff in Es as [Es%Z.ltb_lt _]. apply andb_false_iff in Elim as [Hx%Z.ltb_ge|Hx%Z.eqb_neq]; lia.
Qed.

#[export] Program Instance laws : ExecutorLaws W SE I := {
  ex_src := src; ex_at := at_; ex_taken e all ts := at_ e all ts;
}.
Next Obligation.
  intros e all (l & -> & HF & _). exists (so_tuple_len_ e). split; [done|]. unfold limited, rest.
  destruct (_ =? 0); [constructor|]. destruct (small _); [by apply Forall_take|done].
Qed.
Next Obligation.
  intros e all w Hs Hw. eapply runs_conseq; [by apply begin_runs|]. intros [] s (H1 & H2 & ->). by split_and!.
Qed.
Next Obligation.
  intros e all ts [[H ->]|H]; simpl; [done|]. destruct (inside_head e ts H) as (t & ts' & -> & _). destruct H as (? & ? & _ & _ & _ & H & _). exact H.
Qed.
Next Obligation. intros e all t ts [[_ ?]|H]; [done|]. by destruct H as (? & ? & _ & _ & _ & H & _). Qed.
Next Obligation.
  intros e all t ts w [[_ ?]|H] Hw; [done|]. destruct (inside_head e _ H) as (u & ts' & Hu & Hl & Hz). injection Hu as <- <-.
  simpl. unfold next. rstep. rstep; [exact Hl|]. rstep. split_and!; [|by right|done|done].
  unfold RmRecord_of, rec_of. cbn [fst]. rewrite <- Hz. by rewrite slice_full.
Qed.
Next Obligation.
  intros e all t ts w Hor Hw. assert (H : at_ e all (t :: ts)) by (simpl in Hor; tauto). destruct H as [[_ ?]|H]; [done|].
  eapply runs_conseq; [by apply (step_runs e t ts w)|]. intros [] s (H1 & H2 & ->). by split_and!.
Qed.
End laws.

(** ** The constructor *)

Section make.
Context {W E : Type} {X : AbstractExecutor W E} {I : W -> Prop} {L : ExecutorLaws W E I}.
Context (std_sort : (RmRecord -> RmRecord -> bool) -> list RmRecord -> list RmRecord) (Hsort : sorts std_sort).

Lemma sorted_src idx0 sel_cols limit cs fuel e all w :
  sort_cols (W:=W) e sel_cols = inr cs -> ex_src e all -> Forall (good cs) all -> I w -> (S (length all) < fuel)%nat ->
  runs (make std_sort fuel idx0 sel_cols limit) (e, w) (fun so s =>
    exists l, l ≡ₚ all /\ StronglySorted (le cs) l /\ src so (limited limit l) /\ total_tuple_num_ so = length all /\
      cols W (so_prev_ so) = cols W e /\ I s.2).
Proof.
  intros Hc Hs Hg Hw Hf. unfold make. rstep. cbn [fst]. destruct (ex_len e all Hs) as (n & Hn & Hlen). rewrite Hn.
  eapply runs_bind_pure; [reflexivity|]. rewrite Hc. eapply runs_bind_pure; [reflexivity|].
  eapply runs_bind; [by apply ex_begin|]. intros [] [e1 w1] (H1 & S1 & Hw1). cbn [fst snd] in *.
  eapply runs_bind.
  { apply (fold_rest_spec _ (acc_ok cs) fuel e1 all [] all ([], [], O) w1); [done|done| |lia|].
    - exists [], []. cbn [fst snd]. split_and!; try done. apply step_pos.
    - intros dn t rs acc Hall Ha. apply (add_tuple_spec std_sort Hsort); [|done]. simpl in Hall. rewrite Hall in Hg.
      change (t :: rs) with ([t] ++ rs) in Hg. rewrite app_assoc in Hg. by apply Forall_app in Hg as [? _]. }
  intros acc [e2 w2] (Ha & H2 & S2 & Hw2). cbn [fst snd app] in *.
  destruct (last_run_spec std_sort Hsort cs all acc Hg Ha) as (files & ls & El & HF & Hp). eapply runs_bind_pure; [exact El|]. cbn [fst snd].
  pose proof (Permutation_length Hp) as Hpl. assert (Hls : (length ls <= length (concat ls))%nat).
  { clear -HF. induction HF as [|l f ls files (_ & Hne & _) _ IH]; [done|]. simpl. rewrite length_app. destruct l; [done|]. simpl. lia. }
  destruct (merge_all cs ls files fuel fuel HF) as (r & Er & Hr); [lia|lia|]. eapply runs_bind_pure; [exact Er|]. rstep. rstep.
  assert (Hsh : cols W e2 = cols W e) by (by rewrite (proj1 S2), (proj1 S1)). destruct r as [f|].
  - destruct Hr as (l & (Hcl & Hne & Hgl & Hsl) & Hpr). exists l. assert (Hla : l ≡ₚ all) by (by rewrite Hpr, Hp). split_and!; try done.
    exists l. simpl. split_and!; try done. by rewrite Hla.
  - subst ls. simpl in Hp. apply Permutation_nil_r in Hp as ->. exists []. split_and!; try done; [constructor|]. exists []. by split_and!.
Qed.
End make.
End SrtP.

(** * The property *)


(** A limit above 2000 is not honoured: the index that is compared with it starts again with every
    buffer. *)
Theorem sort_limit_ignored limit l : 2000 < limit -> SrtP.limited limit l = l.
Proof.
  intros H. unfold SrtP.limited, SrtP.rest, SrtP.small. rewrite (proj2 (Z.eqb_neq _ _)) by lia.
  rewrite (proj2 (Z.leb_gt limit _)) by (unfold Srt.tuple_num_per_step; lia). by rewrite andb_false_r.
Qed.

(** ** A sorting function *)

Module Isort.
Section isort.
Context {A : Type} (lt : A -> A -> bool).

Fixpoint insert (a : A) (l : list A) : list A :=
  match l with
  | [] => [a]
  | b :: l' => if lt b a then b :: insert a l' else a :: l
  end.
Definition isort (l : list A) : list A := foldr insert [] l.

Lemma insert_perm a l : insert a l ≡ₚ a :: l.
Proof. induction l as [|b l IH]; [done|]. simpl. destruct (lt b a); [|done]. rewrite IH. apply Permutation_swap. Qed.
Lemma isort_perm l : isort l ≡ₚ l.
Proof. induction l as [|a l IH]; [done|]. simpl. by rewrite insert_perm, IH. Qed.

Lemma weak_sub l l' : (forall x, x ∈ l' -> x ∈ l) -> SrtP.weak_order lt l -> SrtP.weak_order lt l'.
Proof. intros Hs (H1 & H2 & H3). split_and!; intros; [apply H1|eapply H2|eapply H3]; try eassumption; by apply Hs. Qed.

Abbreviation sorted := (StronglySorted (fun a b => lt b a = false)).
Lemma insert_sorted a l : SrtP.weak_order lt (a :: l) -> sorted l -> sorted (insert a l).
Proof.
  induction l as [|b l IH]; intros Ho Hs; [repeat constructor|]. apply StronglySorted_inv in Hs as [Hs Hb]. simpl.
  assert (Ha : a ∈ a :: b :: l) by constructor. assert (Hb' : b ∈ a :: b :: l) by (constructor; constructor).
  pose proof Ho as (Hirr & Htr & Hneg). destruct (lt b a) eqn:E.
  - constructor; [apply IH; [|done]; apply (weak_sub (a :: b :: l)); [|done]; intros x; rewrite !elem_of_cons; tauto|].
    rewrite insert_perm. constructor; [|done]. destruct (lt a b) eqn:E'; [|done]. by rewrite <- (Hirr a Ha), (Htr a b a).
  - constructor; [by constructor|]. constructor; [done|]. rewrite Forall_forall in Hb |- *. intros c Hc.
    apply (Hneg c b a); [rewrite !elem_of_cons; tauto|done|done|by apply Hb|done].
Qed.

Lemma isort_sorted l : SrtP.weak_order lt l -> sorted (isort l).
Proof.
  induction l as [|a l IH]; intros Ho; [constructor|]. simpl. apply insert_sorted.
  - apply (weak_sub (a :: l)); [|done]. intros x. by rewrite !elem_of_cons, isort_perm.
  - apply IH, (weak_sub (a :: l)); [|done]. by constructor.
Qed.
End isort.

Lemma isort_sorts A : SrtP.sorts (A:=A) isort.
Proof. intros lt l Ho. split; [apply isort_perm|by apply isort_sorted]. Qed.
End Isort.

(** ** Witness: three tuples by a descending column *)

Definition demo_sort_tuples : list (list Z) := [enc_i32 5; enc_i32 9; enc_i32 7].
Definition demo_sort_child : Mem.MemExecutor := Mem.mkMem [mkColMeta "t" "a" TYPE_INT 4 0 false] 4 demo_sort_tuples [].

