(* ===== verification/Agg.v ===== *)
(** The aggregate executor: [AggExecutor] of [src/src/execution/executor_agg.h], and the addition of
    values of [src/src/common/common.h].

    A result that was not computed yet is [None]: the program leaves it uninitialised.  Signed
    overflow is undefined; so is here a sum of floats that is not a number, as the bits of the result
    are the processor's. *)

From Stdlib Require Import Floats.SpecFloat.
From S2P Require Import Prelude Bytes Errors Disk Defs Text Float32 SmMeta Values.
From S2P Require Import Executor.

(** ** Addition *)

Definition int_ok (z : Z) : bool := (- 2 ^ 31 <=? z) && (z <? 2 ^ 31).

(** [operator+] *)
Definition value_plus (x y : Value) : Prog unit Value :=
  (match x, y with
   | VFloat a, VFloat b => let* w := deref (f32_bits (SFadd 24 128 (f32_of_bits a) (f32_of_bits b))) in ret (VFloat w)
   | VInt a, VInt b => if int_ok (a + b) then ret (VInt (a + b)) else fail Undef
   | _, _ => throw (InternalError "error value plus operator type")
   end)%prog.

(** ** The executor *)

Record AggExecutor (E : Type) := mkAggExecutor {
  ag_prev_ : E;
  res_cols_ : list ColMeta;
  ag_len_ : Z;
  prev_col_ : ColMeta;
  sel_col_ : TabCol;
  max_res_ : option Value;
  min_res_ : option Value;
  sum_res_ : option Value;
  count_res_ : option Value;
  is_result_used_ : bool;
}.
Arguments mkAggExecutor {E}.
Arguments ag_prev_ {E}.
Arguments res_cols_ {E}.
Arguments ag_len_ {E}.
Arguments prev_col_ {E}.
Arguments sel_col_ {E}.
Arguments max_res_ {E}.
Arguments min_res_ {E}.
Arguments sum_res_ {E}.
Arguments count_res_ {E}.
Arguments is_result_used_ {E}.

Module Agg.
Section ops.
Context {W E : Type} {X : AbstractExecutor W E}.
Context (fuel : nat).
Local Open Scope prog_scope.
Abbreviation AE := (AggExecutor E).

(** the name, the type and the length of the result column *)
Definition res_col (sel_col : TabCol) (prev_col : ColMeta) : ColMeta :=
  let name (f : string) := if bool_decide (another_name sel_col = "") then f +:+ tc_col_name sel_col +:+ ")" else another_name sel_col in
  match aggregate_type sel_col with
  | MAX => mkColMeta "" (name "MAX(") (cm_type prev_col) (cm_len prev_col) 0 false
  | MIN => mkColMeta "" (name "MIN(") (cm_type prev_col) (cm_len prev_col) 0 false
  | SUM => mkColMeta "" (name "SUM(") (cm_type prev_col) (cm_len prev_col) 0 false
  | COUNT => mkColMeta "" (name "COUNT(") TYPE_INT 4 0 false
  end.

(** the constructor *)
Definition make (prev : E) (sel_col : TabCol) : Prog unit AE :=
  assert (has_agg sel_col);;
  let* prev_col := deref (head (cols W prev)) in
  let* len := (if zlen (cols W prev) =? 1 then ret (cm_len prev_col)
               else
                 assert (match aggregate_type sel_col with COUNT => true | _ => false end);;
                 assert (bool_decide (tc_col_name sel_col = ""));;
                 ret 4) in
  ret (mkAggExecutor prev [res_col sel_col prev_col] len prev_col sel_col None None None None false).

Definition set_prev (e : E) (a : AE) : AE :=
  mkAggExecutor e (res_cols_ a) (ag_len_ a) (prev_col_ a) (sel_col_ a) (max_res_ a) (min_res_ a) (sum_res_ a) (count_res_ a) (is_result_used_ a).
Definition set_results (mx mn su co : option Value) (a : AE) : AE :=
  mkAggExecutor (ag_prev_ a) (res_cols_ a) (ag_len_ a) (prev_col_ a) (sel_col_ a) mx mn su co (is_result_used_ a).
Definition set_max (v : Value) (a : AE) : AE := set_results (Some v) (min_res_ a) (sum_res_ a) (count_res_ a) a.
Definition set_min (v : Value) (a : AE) : AE := set_results (max_res_ a) (Some v) (sum_res_ a) (count_res_ a) a.
Definition set_sum (v : Value) (a : AE) : AE := set_results (max_res_ a) (min_res_ a) (Some v) (count_res_ a) a.
Definition set_count (v : Value) (a : AE) : AE := set_results (max_res_ a) (min_res_ a) (sum_res_ a) (Some v) a.
Definition set_used (a : AE) : AE :=
  mkAggExecutor (ag_prev_ a) (res_cols_ a) (ag_len_ a) (prev_col_ a) (sel_col_ a) (max_res_ a) (min_res_ a) (sum_res_ a) (count_res_ a) true.

Definition on_prev {A} (m : Prog (E * W) A) : Prog (AE * W) A :=
  zoom (fun s => (ag_prev_ s.1, s.2)) (fun s' s => (set_prev s'.1 s.1, s'.2)) m.

(** one round of the loops of [beginMax], [beginMin] and [beginSum] *)
Definition pick (better : Value -> Value -> bool) (col : ColMeta) (res : option Value) (rec : RmRecord) : Prog unit (option Value) :=
  let* val := Val.read_from_record (data rec) col in
  let* r := deref res in
  ret (Some (if better val r then val else r)).
Definition add (col : ColMeta) (res : Value) (rec : RmRecord) : Prog unit Value :=
  let* val := Val.read_from_record (data rec) col in
  value_plus res val.

(** [beginMax] and [beginMin] up to the name of the result; without a tuple the result keeps its value,
    and [nextTuple] is called all the same *)
Definition begin_best (better : Value -> Value -> bool) (cur : option Value) : Prog (AE * W) (option Value) :=
  let* col := gets (fun s => prev_col_ s.1) in
  on_prev beginTuple;;
  let* stop := gets (fun s => is_end W (ag_prev_ s.1)) in
  let* first := (if stop : bool then ret cur
                 else
                   let* rec := on_prev Next in
                   let* v := pure_call (Val.read_from_record (data rec) col) in
                   ret (Some v)) in
  on_prev nextTuple;;
  on_prev (fold_rest (pick better col) first fuel).

Definition set_opt (f : Value -> AE -> AE) (r : option Value) : Prog (AE * W) unit :=
  match r with Some v => modify (fun s => (f v s.1, s.2)) | None => ret tt end.
Definition beginMax : Prog (AE * W) unit :=
  let* cur := gets (fun s => max_res_ s.1) in let* r := begin_best Val.gt cur in set_opt set_max r.
Definition beginMin : Prog (AE * W) unit :=
  let* cur := gets (fun s => min_res_ s.1) in let* r := begin_best Val.lt cur in set_opt set_min r.

Definition beginSum : Prog (AE * W) unit :=
  let* col := gets (fun s => prev_col_ s.1) in
  let* zero := (match cm_type col with
                | TYPE_INT => ret (VInt 0)
                | TYPE_FLOAT => ret (VFloat 0)
                | _ => throw (InternalError "Agg function type not match")
                end) in
  modify (fun s => (set_sum zero s.1, s.2));;
  on_prev beginTuple;;
  let* r := on_prev (fold_rest (add col) zero fuel) in
  modify (fun s => (set_sum r s.1, s.2)).

(** [for (...; !prev_->is_end(); prev_->nextTuple()) res += 1] *)
Fixpoint count_rest (res : Z) (n : nat) : Prog (E * W) Z :=
  match n with
  | O => fail OutOfFuel
  | S n =>
      let* stop := gets (fun s => is_end W s.1) in
      if stop : bool then ret res
      else if int_ok (res + 1) then nextTuple;; count_rest (res + 1) n
      else fail Undef
  end.
Definition beginCount : Prog (AE * W) unit :=
  modify (fun s => (set_count (VInt 0) s.1, s.2));;
  on_prev beginTuple;;
  let* res := on_prev (count_rest 0 fuel) in
  modify (fun s => (set_count (VInt res) s.1, s.2)).

(** the check after the work *)
Definition type_match (agg : AggType) (t : ColType) : bool :=
  match agg, t with
  | SUM, (TYPE_INT | TYPE_FLOAT) => true
  | SUM, _ => false
  | _, (TYPE_INT | TYPE_FLOAT | TYPE_STRING) => true
  | _, _ => false
  end.
Definition begin_tuple : Prog (AE * W) unit :=
  let* agg := gets (fun s => aggregate_type (sel_col_ s.1)) in
  (match agg with MAX => beginMax | MIN => beginMin | SUM => beginSum | COUNT => beginCount end);;
  let* t := gets (fun s => cm_type (prev_col_ s.1)) in
  if type_match agg t then ret tt else throw (InternalError "Agg function type not match").

Definition next_tuple : Prog (AE * W) unit :=
  let* stop := gets (fun s => is_end W (ag_prev_ s.1)) in
  if stop : bool then ret tt else throw (InternalError "should not be called").

Definition next : Prog (AE * W) RmRecord :=
  modify (fun s => (set_used s.1, s.2));;
  let* a := gets fst in
  let '(res, res_len) := match aggregate_type (sel_col_ a) with
                         | MAX => (max_res_ a, ag_len_ a)
                         | MIN => (min_res_ a, ag_len_ a)
                         | SUM => (sum_res_ a, ag_len_ a)
                         | COUNT => (count_res_ a, 4)
                         end in
  let* v := deref res in
  let* raw := pure_call (Val.init_raw v res_len) in
  ret (RmRecord_of res_len raw).

#[export] Instance exec : AbstractExecutor W AE := {
  cols := res_cols_;
  tupleLen a := inr (ag_len_ a);
  is_end := is_result_used_;
  beginTuple := begin_tuple;
  nextTuple := next_tuple;
  Next := next;
  get_col_offset _ _ := inl UnreachableCodeError;
}.
End ops.
End Agg.
