(* ===== verification/AggProps.v ===== *)
(** What the aggregate executor promises over any child: [COUNT], [MAX], [MIN] and [SUM] of the child's
    tuples. *)

From S2P Require Import Prelude Bytes Errors Disk Defs Text Float32 SmMeta Values.
From S2P Require Import Executor Sort SortMerge Agg.

Module AggP.
Import Agg SrtO.

(** the value of a column of a tuple *)
Definition val_of (col : ColMeta) (t : list Z) : Value :=
  match (Val.read_from_record t col tt).1 with Ok v => v | _ => VInt 0 end.

Lemma read_val col t : col_good col t -> Val.read_from_record t col tt = (Ok (val_of col t), tt).
Proof. intros H. destruct (read_key col t t H H) as (v & _ & E1 & _). unfold val_of. by rewrite E1. Qed.
Lemma gt_key col a b : col_good col a -> col_good col b -> Val.gt (val_of col a) (val_of col b) = negb (leb [(col, false)] a b).
Proof.
  intros Ha Hb. destruct (read_key col a b Ha Hb) as (v1 & v2 & E1 & E2 & Hg & _). unfold val_of. rewrite E1, E2. simpl. rewrite Hg.
  unfold leb. simpl. by destruct (Srt.strcmp _ _).
Qed.
Lemma lt_key col a b : col_good col a -> col_good col b -> Val.lt (val_of col a) (val_of col b) = negb (leb [(col, false)] b a).
Proof.
  intros Ha Hb. destruct (read_key col a b Ha Hb) as (v1 & v2 & E1 & E2 & _ & Hl). unfold val_of. rewrite E1, E2. simpl. rewrite Hl.
  unfold leb. simpl. rewrite (strcmp_antisym (key col a) (key col b)). by destruct (Srt.strcmp _ _).
Qed.

(** the best of the first tuples: among them, and none of them better *)
Definition best (better : Value -> Value -> bool) (col : ColMeta) (l : list (list Z)) (v : Value) : Prop :=
  exists t, t ∈ l /\ v = val_of col t /\ forall u, u ∈ l -> better (val_of col u) v = false.

(** [operator>] and [operator<] on the values of a column: the order and its converse *)
Definition ordered (better : Value -> Value -> bool) : Prop :=
  exists rev : bool, forall col a b, col_good col a -> col_good col b ->
    better (val_of col a) (val_of col b) = negb (if rev then leb [(col, false)] a b else leb [(col, false)] b a).
Lemma ordered_gt : ordered Val.gt.
Proof. exists true. intros. by apply gt_key. Qed.
Lemma ordered_lt : ordered Val.lt.
Proof. exists false. intros. by apply lt_key. Qed.

Lemma leb_refl cs a : leb cs a a = true.
Proof. destruct (leb cs a a) eqn:E; [done|]. rewrite <- E. by apply leb_total. Qed.

Lemma pick_best better col l v t : ordered better -> Forall (col_good col) (l ++ [t]) -> best better col l v ->
  exists v', pick better col (Some v) (rec_of t) tt = (Ok (Some v'), tt) /\ best better col (l ++ [t]) v'.
Proof.
  intros [rv Ho] Hg (u & Hu & -> & Hb). apply Forall_app in Hg as [Hg Ht]. apply Forall_cons in Ht as [Ht _]. rewrite Forall_forall in Hg.
  unfold pick. cbn [data rec_of]. rewrite (bind_ok _ _ _ _ _ (read_val col t Ht)). eexists. split; [reflexivity|].
  pose proof (Ho col t u Ht (Hg u Hu)) as Htu. destruct (better (val_of col t) (val_of col u)) eqn:Eb.
  - exists t. split; [apply elem_of_app; right; constructor|]. split; [done|]. intros x [Hx|Hx]%elem_of_app.
    + rewrite Ho by (done || by apply Hg). pose proof (Hb x Hx) as Hxu. rewrite Ho in Hxu by (by apply Hg).
      apply negb_false_iff in Hxu. symmetry in Htu. apply negb_true_iff in Htu. apply negb_false_iff.
      destruct rv; [apply (leb_trans _ x u t)|apply (leb_trans _ t u x)]; try done; by apply leb_total.
    + apply list_elem_of_singleton in Hx as ->. rewrite Ho by done. rewrite leb_refl. by destruct rv.
  - exists u. split; [apply elem_of_app; by left|]. split; [done|]. intros x [Hx|Hx]%elem_of_app; [by apply Hb|]. by apply list_elem_of_singleton in Hx as ->.
Qed.

(** the length of a column fits its type *)
Definition col_width_ok (c : ColMeta) : Prop :=
  match cm_type c with TYPE_INT | TYPE_FLOAT => cm_len c = 4 | TYPE_BIGINT | TYPE_DATETIME => cm_len c = 8 | TYPE_STRING => True end.

Lemma length_string_bytes b : zlen (string_bytes (bytes_string b)) = zlen b.
Proof. induction b as [|x b IH]; [done|]. change (zlen (Z.of_nat (Ascii.nat_of_ascii (byte_ascii x)) :: string_bytes (bytes_string b)) = zlen (x :: b)).
  unfold zlen in *. cbn [length]. lia. Qed.
Lemma c_str_len d : zlen (Val.c_str d) <= zlen d.
Proof. induction d as [|x d IH]; [done|]. simpl. destruct (x =? 0); unfold zlen in *; simpl; lia. Qed.

Lemma raw_ok col t : col_good col t -> col_width_ok col ->
  exists raw, Val.init_raw (val_of col t) (cm_len col) tt = (Ok raw, tt) /\ zlen raw = cm_len col.
Proof.
  unfold col_width_ok, val_of, Val.read_from_record, Val.load, mload. intros [_ Hr] Hw. destruct (cm_type col); unfold bind, deref, ret.
  - rewrite Hr, Hw. eexists. split; [reflexivity|]. apply zlen_enc_i32.
  - destruct Hr as [Hr _]. rewrite Hr, Hw. eexists. split; [reflexivity|done].
  - rewrite Hr, Hw. eexists. split; [reflexivity|]. apply zlen_enc_i64.
  - destruct Hr as [Hr _]. rewrite Hr. cbn [fst Val.init_raw]. pose proof (c_str_len (slice (cm_offset col) (cm_len col) t)) as Hl.
    rewrite (in_range_len _ _ _ Hr) in Hl. rewrite length_string_bytes. rewrite (proj2 (Z.ltb_ge _ _)) by lia. eexists. split; [reflexivity|].
    rewrite zlen_app, length_string_bytes, zlen_zeros by lia. lia.
  - rewrite Hr, Hw. eexists. split; [reflexivity|]. apply zlen_enc_i64.
Qed.

Section specs.
Context {W E : Type} {X : AbstractExecutor W E} {I : W -> Prop} {L : ExecutorLaws W E I}.
Abbreviation AE := (AggExecutor E).

Lemma child_runs {A B} (m : Prog (E * W) A) (k : A -> Prog (AE * W) B) (a : AE) w R Q :
  runs m (ag_prev_ a, w) R -> (forall r e' w', R r (e', w') -> runs (k r) (set_prev e' a, w') Q) -> runs (bind (on_prev m) k) (a, w) Q.
Proof.
  intros (r & [e' w'] & Hm & HR) Hk. eapply runs_bind_eq; [|by apply Hk]. unfold on_prev, zoom. simpl. by rewrite Hm.
Qed.

Lemma runs_last {A} (m : Prog (AE * W) A) s Q : runs (bind m ret) s Q -> runs m s Q.
Proof. intros (a & s' & H & HQ). exists a, s'. split; [|done]. revert H. unfold bind, ret. by destruct (m s) as [[]]. Qed.

Lemma count_rest_spec n : forall e all ts res w, ex_at e all ts -> I w -> (length ts < n)%nat -> 0 <= res -> res + zlen ts < 2 ^ 31 ->
  runs (count_rest res n) (e, w) (fun r s => r = res + zlen ts /\ ex_at s.1 all [] /\ I s.2).
Proof.
  induction n as [|n IH]; intros e all ts res w Ha Hw Hn Hr Hb; [lia|]. cbn [count_rest]. rstep. simpl. rewrite (ex_end _ _ _ Ha).
  destruct ts as [|t ts]; simpl.
  - rstep. split_and!; try done. unfold zlen. simpl. lia.
  - unfold zlen in Hb. simpl in Hb, Hn. assert (Hi : int_ok (res + 1) = true) by (unfold int_ok; lia). rewrite Hi.
    eapply runs_bind; [by apply (ex_step e all t ts w (or_introl Ha))|]. intros [] [e1 w1] (H1 & S1 & Hw1).
    eapply runs_conseq; [apply (IH e1 all ts (res + 1) w1); try done; unfold zlen; lia|]. intros r s (-> & H2 & H3). split_and!; try done. unfold zlen. simpl. lia.
Qed.

(** the child has been run to its end; only the results differ *)
Definition finished (all : list (list Z)) (a a' : AE) : Prop :=
  ex_at (ag_prev_ a') all [] /\ ag_len_ a' = ag_len_ a /\ prev_col_ a' = prev_col_ a /\ sel_col_ a' = sel_col_ a /\ is_result_used_ a' = is_result_used_ a.

Lemma begin_count_spec fuel a all w : ex_src (ag_prev_ a) all -> I w -> (length all < fuel)%nat -> zlen all < 2 ^ 31 ->
  runs (beginCount fuel) (a, w) (fun _ s => finished all a s.1 /\ count_res_ s.1 = Some (VInt (zlen all)) /\ I s.2).
Proof.
  intros Hs Hw Hf Hz. unfold beginCount. rstep. eapply child_runs; [by apply ex_begin|].
  intros [] e1 w1 (H1 & _ & Hw1). cbn [fst snd] in *.
  eapply child_runs; [apply (count_rest_spec fuel e1 all all 0 w1); (done || lia)|].
  intros r e2 w2 (-> & H2 & Hw2). cbn [fst snd] in *. rstep. by split_and!.
Qed.

Lemma begin_best_spec fuel better cur a all w : ordered better -> ex_src (ag_prev_ a) all -> I w -> (length all <= fuel)%nat -> all <> [] ->
  Forall (col_good (prev_col_ a)) all ->
  runs (begin_best fuel better cur) (a, w) (fun r s => exists e' v, s.1 = set_prev e' a /\ r = Some v /\ best better (prev_col_ a) all v /\
    ex_at e' all [] /\ I s.2).
Proof.
  intros Ho Hs Hw Hf Hne Hg. unfold begin_best. rstep. eapply child_runs; [by apply ex_begin|].
  intros [] e1 w1 (H1 & _ & Hw1). cbn [fst snd] in *. rstep. cbn [fst ag_prev_ set_prev]. rewrite (ex_end _ _ _ H1), bool_decide_false by done.
  destruct all as [|t ts]; [done|]. rstep. eapply child_runs; [by apply ex_next|].
  intros r e2 w2 (-> & H2 & _ & Hw2). cbn [fst snd] in *. pose proof Hg as [Ht Hts]%Forall_cons.
  rstep. eapply runs_bind_pure; [by apply read_val|]. rstep.
  eapply child_runs; [apply (ex_step e2 (t :: ts) t ts w2); [by right|done]|]. intros [] e3 w3 (H3 & _ & Hw3). cbn [fst snd] in *.
  eapply runs_last. eapply child_runs; [apply (fold_rest_spec (pick better (prev_col_ a)) (fun dn r => exists v, r = Some v /\ best better (prev_col_ a) dn v) fuel e3 (t :: ts) [t] ts); try done|].
  - exists (val_of (prev_col_ a) t). split; [done|]. exists t. split; [constructor|]. split; [done|]. intros u Hu%list_elem_of_singleton. subst u.
    destruct Ho as [rv Ho]. rewrite Ho by done. rewrite leb_refl. by destruct rv.
  - intros dn u rs acc Hall (v & -> & Hb). destruct (pick_best better (prev_col_ a) dn v u Ho) as (v' & E1 & Hb'); [|done|exists (Some v'); split; [exact E1|by exists v']].
    simpl in Hall. rewrite Hall in Hg. change (u :: rs) with ([u] ++ rs) in Hg. rewrite app_assoc in Hg. by apply Forall_app in Hg as [? _].
  - intros r e4 w4 ((v & -> & Hb) & H4 & _ & Hw4). cbn [fst snd] in *. rstep. exists e4, v. by split_and!.
Qed.

(** the sum of the integers of a column, within [int] after every tuple *)
Definition ints (col : ColMeta) (l : list (list Z)) : list Z := (fun t => dec_i32 (slice (cm_offset col) 4 t)) <$> l.
Definition total (l : list Z) : Z := foldr Z.add 0 l.
Lemma total_snoc l x : total (l ++ [x]) = total l + x.
Proof. induction l as [|y l IH]; simpl; [lia|]. change (foldr Z.add 0) with total. rewrite IH. lia. Qed.

Lemma begin_sum_spec fuel a all w : ex_src (ag_prev_ a) all -> I w -> (length all < fuel)%nat ->
  Forall (col_good (prev_col_ a)) all -> cm_type (prev_col_ a) = TYPE_INT -> (forall n, int_ok (total (take n (ints (prev_col_ a) all))) = true) ->
  runs (beginSum fuel) (a, w) (fun _ s => finished all a s.1 /\ sum_res_ s.1 = Some (VInt (total (ints (prev_col_ a) all))) /\ I s.2).
Proof.
  intros Hs Hw Hf Hg Ht Hok. unfold beginSum. rstep. cbn [fst]. rewrite Ht. rstep. rstep. eapply child_runs; [by apply ex_begin|].
  intros [] e1 w1 (H1 & _ & Hw1). cbn [fst snd] in *.
  eapply child_runs; [apply (fold_rest_spec (add (prev_col_ a)) (fun dn r => r = VInt (total (ints (prev_col_ a) dn))) fuel e1 all [] all); try done|].
  - intros dn t rs acc Hall ->. eexists. split; [|reflexivity]. rewrite Forall_forall in Hg. assert (Hgt : col_good (prev_col_ a) t).
    { apply Hg. simpl in Hall. rewrite Hall. apply elem_of_app. right. constructor. }
    unfold add. cbn [data rec_of]. unfold Val.read_from_record, Val.load, mload. rewrite Ht. destruct Hgt as [_ Hr]. rewrite Ht in Hr. rewrite Hr.
    unfold bind, deref, ret. cbn beta iota. unfold value_plus. specialize (Hok (S (length dn))). simpl in Hall. rewrite Hall in Hok.
    unfold ints in *. rewrite fmap_app in Hok |- *. simpl in Hok |- *. rewrite take_app_ge in Hok by (rewrite length_fmap; lia).
    rewrite length_fmap, Nat.sub_succ_l, Nat.sub_diag in Hok by lia. simpl in Hok. rewrite take_0, total_snoc in Hok. by rewrite Hok, total_snoc.
  - intros r e2 w2 (-> & H2 & _ & Hw2). cbn [fst snd] in *. rstep. by split_and!.
Qed.

(** the one record of the result *)
Definition result (a : AE) : option Value :=
  match aggregate_type (sel_col_ a) with MAX => max_res_ a | MIN => min_res_ a | SUM => sum_res_ a | COUNT => count_res_ a end.
Definition result_len (a : AE) : Z := match aggregate_type (sel_col_ a) with COUNT => 4 | _ => ag_len_ a end.

Lemma next_eq (a : AE) v raw (w : W) : result a = Some v -> Val.init_raw v (result_len a) tt = (Ok raw, tt) -> zlen raw = result_len a ->
  next (a, w) = (Ok (rec_of raw), (set_used a, w)).
Proof.
  unfold result, result_len. intros Hv Hr Hz. unfold next, bind, modify, gets. cbn [fst snd set_used sel_col_ max_res_ min_res_ sum_res_ count_res_ ag_len_].
  destruct (aggregate_type (sel_col_ a)); rewrite Hv; unfold deref, ret, pure_call; rewrite Hr; cbn [fst]; unfold RmRecord_of; rewrite <- Hz at 1 2; by rewrite slice_full.
Qed.

Lemma run_agg (a : AE) w all v raw fuel :
  runs (match aggregate_type (sel_col_ a) with MAX => beginMax fuel | MIN => beginMin fuel | SUM => beginSum fuel | COUNT => beginCount fuel end) (a, w)
    (fun _ s => finished all a s.1 /\ result s.1 = Some v /\ I s.2) ->
  is_result_used_ a = false -> type_match (aggregate_type (sel_col_ a)) (cm_type (prev_col_ a)) = true ->
  Val.init_raw v (result_len a) tt = (Ok raw, tt) -> zlen raw = result_len a ->
  runs (all_tuples (X:=exec fuel) 2) (a, w) (fun l s => l = [rec_of raw] /\ I s.2).
Proof.
  intros (u & [a1 w1] & Em & (H1 & H2 & H3 & H4 & H5) & Hv & Hw1) Hu Ht Hraw Hz. cbn [fst snd] in *.
  assert (Hl : result_len a1 = result_len a) by (unfold result_len; by rewrite H4, H2). rewrite <- Hl in Hraw, Hz.
  unfold all_tuples. cbn [beginTuple exec]. eapply runs_bind_eq.
  - unfold begin_tuple. rewrite (bind_ok _ _ (a, w) (aggregate_type (sel_col_ a)) (a, w)) by done. rewrite (bind_ok _ _ _ _ _ Em).
    rewrite (bind_ok _ _ (a1, w1) (cm_type (prev_col_ a)) (a1, w1)) by (unfold gets; cbn [fst]; by rewrite H3). rewrite Ht. reflexivity.
  - cbn [fold_rest]. rstep. rstep. cbn [fst is_end exec]. rewrite H5, Hu. rstep. eapply runs_bind_eq; [by apply (next_eq a1 v raw w1)|].
    rstep. eapply runs_bind_pure; [reflexivity|]. rstep. eapply runs_bind_eq; [cbn [nextTuple exec]; unfold next_tuple, bind, gets; cbn [fst set_used ag_prev_]; rewrite (ex_end _ _ _ H1); reflexivity|].
    rstep. rstep. cbn [fst is_end exec set_used is_result_used_]. rstep. rstep. done.
Qed.

Lemma made (prev : E) sel (a : AE) : make (W:=W) prev sel tt = (Ok a, tt) ->
  prev = ag_prev_ a /\ sel_col_ a = sel /\ is_result_used_ a = false /\
  (aggregate_type sel <> COUNT -> ag_len_ a = cm_len (prev_col_ a)).
Proof.
  unfold make, bind, assert, deref. destruct (has_agg sel); [|done]. destruct (head (cols W prev)) as [c|]; [|done].
  destruct (zlen (cols W prev) =? 1); [intros [= <-]; by split_and!|]. destruct (aggregate_type sel); try done.
  destruct (bool_decide _); [|done]. intros [= <-]. by split_and!.
Qed.

Lemma begin_max_spec fuel (a : AE) all w : ex_src (ag_prev_ a) all -> I w -> (length all <= fuel)%nat -> all <> [] ->
  Forall (col_good (prev_col_ a)) all ->
  exists v, runs (beginMax fuel) (a, w) (fun _ s => finished all a s.1 /\ max_res_ s.1 = Some v /\ I s.2) /\ best Val.gt (prev_col_ a) all v.
Proof.
  intros Hs Hw Hf Hne Hg. destruct (begin_best_spec fuel Val.gt (max_res_ a) a all w ordered_gt Hs Hw Hf Hne Hg) as (r & [a' w'] & Em & e' & v & Ea & -> & Hb & He & Hw').
  cbn [fst snd] in *. subst a'. exists v. split; [|done]. unfold beginMax. rstep. eapply runs_bind_eq; [exact Em|]. unfold set_opt. rstep. by split_and!.
Qed.
Lemma begin_min_spec fuel (a : AE) all w : ex_src (ag_prev_ a) all -> I w -> (length all <= fuel)%nat -> all <> [] ->
  Forall (col_good (prev_col_ a)) all ->
  exists v, runs (beginMin fuel) (a, w) (fun _ s => finished all a s.1 /\ min_res_ s.1 = Some v /\ I s.2) /\ best Val.lt (prev_col_ a) all v.
Proof.
  intros Hs Hw Hf Hne Hg. destruct (begin_best_spec fuel Val.lt (min_res_ a) a all w ordered_lt Hs Hw Hf Hne Hg) as (r & [a' w'] & Em & e' & v & Ea & -> & Hb & He & Hw').
  cbn [fst snd] in *. subst a'. exists v. split; [|done]. unfold beginMin. rstep. eapply runs_bind_eq; [exact Em|]. unfold set_opt. rstep. by split_and!.
Qed.
End specs.
End AggP.


(** ** Witness: the maximum of three integers *)

Definition demo_agg_tuples : list (list Z) := [enc_i32 5; enc_i32 9; enc_i32 7].
Definition demo_agg_child : Mem.MemExecutor := Mem.mkMem [mkColMeta "t" "a" TYPE_INT 4 0 false] 4 demo_agg_tuples [].
Definition demo_agg_sel : TabCol := mkTabCol "t" "a" true MAX "" "a".

