(* ===== verification/IxManager.v ===== *)
(** Index files: [IxManager] of [src/src/index/ix_manager.h] and the constructor of [IxIndexHandle].

    The bytes between [is_leaf] and [prev_leaf] of a page header are padding; [pad0] is what the
    assignment of the structure leaves there. *)

From S2P Require Import Prelude Bytes Errors Disk BufferPool PageStore Defs RmFile.
From S2P Require Import Text SmMeta LogRecord IxDefs IxNode IxTree.

Module IxM.
Section files.
Local Open Scope prog_scope.

(** [get_index_name], [exists] *)
Definition get_index_name (filename : string) (index_cols : list ColMeta) : string := Meta.index_file_name filename (cm_name <$> index_cols).
Definition exists_ (filename : string) (names : list string) : Prog Store bool :=
  gets (fun s => Dsk.is_file (Meta.index_file_name filename names) (disk s)).

(** the sum of the column lengths, and the order of the tree; the quotient is taken in [size_t] *)
Definition col_tot_len (index_cols : list ColMeta) : Z := foldr Z.add 0 (cm_len <$> index_cols).
Definition btree_order (len : Z) : Z := Z.quot (PAGE_SIZE - sizeof_IxPageHdr) (len + Log.sizeof_Rid) - 1.

(** the header of a new index *)
Definition new_hdr (index_cols : list ColMeta) : IxFileHdr :=
  let len := col_tot_len index_cols in
  let order := btree_order len in
  let h := IxHdr.make IX_NO_PAGE IX_INIT_NUM_PAGES IX_INIT_ROOT_PAGE (zlen index_cols) len order ((order + 1) * len) IX_INIT_ROOT_PAGE IX_INIT_ROOT_PAGE in
  IxHdr.update_tot_len (mkIxFileHdr (first_free_page_no_ h) (num_pages_ h) (root_page_ h) (col_num_ h)
    (col_types_ h ++ (cm_type <$> index_cols)) (col_lens_ h ++ (cm_len <$> index_cols)) (col_tot_len_ h) (btree_order_ h) (keys_size_ h)
    (first_leaf_ h) (last_leaf_ h) (tot_len_ h)).

(** the header of the root page: an empty leaf *)
Definition root_page_hdr (pad0 : list Z) : list Z :=
  enc_i32 IX_NO_PAGE ++ enc_i32 IX_NO_PAGE ++ enc_i32 0 ++ [1] ++ slice 0 3 pad0 ++ enc_i32 IX_NO_PAGE ++ enc_i32 IX_NO_PAGE.

Definition of_outcome {A} (o : outcome error A) : Prog Store A := fun s => (o, s).

(** [create_index]: an exception leaves the new file open *)
Definition create_index (buf0 pad0 : list Z) (filename : string) (index_cols : list ColMeta) : Prog Store unit :=
  let ix_name := get_index_name filename index_cols in
  Bpm.on_disk (Dsk.create_file ix_name);;
  let* fd := Bpm.on_disk (Dsk.open_file ix_name) in
  let len := col_tot_len index_cols in
  if IX_MAX_COL_LEN <? len then throw (InvalidColLengthError len)
  else
    assert (2 <? btree_order len);;
    let fhdr := new_hdr index_cols in
    let* data := of_outcome (IxHdr.serialize_to fhdr (slice 0 (tot_len_ fhdr) buf0)) in
    Bpm.on_disk (Dsk.write_page fd IX_FILE_HDR_PAGE data);;
    Bpm.on_disk (Dsk.set_fd2pageno fd IX_INIT_ROOT_PAGE);;
    let* r := Bpm.new_page fd in
    let* page := deref (snd <$> r) in
    let* id := Bpm.get_page_id page in
    assert (page_no id =? IX_INIT_ROOT_PAGE);;
    Bpm.write_frame page 0 (root_page_hdr pad0);;
    let* id := Bpm.get_page_id page in
    Bpm.unpin_page id true;;
    let* id := Bpm.get_page_id page in
    Bpm.flush_page id;;
    let* id := Bpm.get_page_id page in
    Bpm.free_page id;;
    Bpm.on_disk (Dsk.close_file fd).

(** [destroy_index] *)
Definition destroy_index (filename : string) (names : list string) : Prog Store unit :=
  Bpm.on_disk (Dsk.destroy_file (Meta.index_file_name filename names)).

(** [IxIndexHandle::IxIndexHandle] *)
Definition make_handle (fd : Z) : Prog Store IxIndexHandle :=
  let* b := (fun s =>
    let '(r, b, d) := Dsk.read_page fd IX_FILE_HDR_PAGE (zeros PAGE_SIZE) PAGE_SIZE (disk s) in
    (match r with Ok _ => Ok b | Throw e => Throw e | Fail f => Fail f end, mkStore d (bpm s))) in
  let* h := of_outcome (IxHdr.deserialize_from b) in
  Bpm.on_disk (Dsk.set_fd2pageno fd (num_pages_ h));;
  ret (mkIxIndexHandle fd h).

(** [open_index] *)
Definition open_index (index_name : string) : Prog Store IxIndexHandle :=
  let* fd := Bpm.on_disk (Dsk.open_file index_name) in
  make_handle fd.

(** [close_index] *)
Definition close_index (buf0 : list Z) (ih : IxIndexHandle) : Prog Store unit :=
  let* data := of_outcome (IxHdr.serialize_to (ix_hdr_ ih) (slice 0 (tot_len_ (ix_hdr_ ih)) buf0)) in
  Bpm.on_disk (Dsk.write_page (ix_fd_ ih) IX_FILE_HDR_PAGE data);;
  Bpm.flush_all_pages (ix_fd_ ih);;
  Bpm.free_all_pages (ix_fd_ ih);;
  Bpm.on_disk (Dsk.close_file (ix_fd_ ih)).
End files.

(** ** Keys *)

(** [memcpy(key + offset, record->data + col.offset, col.len); offset += col.len;] over the columns: the
    loop that builds the key of a record in the executors, in rollback and here *)
Fixpoint fill_key (key rec : list Z) (cols : list ColMeta) (offset : Z) : option (list Z * Z) :=
  match cols with
  | [] => Some (key, offset)
  | c :: cols =>
      match mload rec (cm_offset c) (cm_len c) with
      | Some b => match memcpy key offset b (cm_len c) with
                  | Some key => fill_key key rec cols (offset + cm_len c)
                  | None => None
                  end
      | None => None
      end
  end.

(** [init_tree]: one entry per record of the table, in the order of a scan *)
Section init_tree.
Context {S : Type} `{!PageStore S}.
Local Open Scope prog_scope.
Definition TSt : Type := S * RmFileHandle * IxIndexHandle.

Definition on_rm {A} (m : Prog (Rm.St (S:=S)) A) : Prog TSt A := zoom (fun s => s.1) (fun s' s => (s', s.2)) m.
Definition on_ix {A} (m : Prog (Ix.St (S:=S)) A) : Prog TSt A := zoom (fun s => (s.1.1, s.2)) (fun s' s => (s'.1, s.1.2, s'.2)) m.

Fixpoint fill_tree (ifuel : nat) (key : list Z) (cols : list ColMeta) (rid : Rid) (fuel : nat) : Prog TSt unit :=
  match fuel with
  | O => fail OutOfFuel
  | Datatypes.S fuel =>
      if Rm.scan_is_end rid then ret tt
      else
        let* record := on_rm (Rm.get_record rid) in
        let* k := deref (fill_key key (data record) cols 0) in
        let* h := on_ix Ix.hdr in
        assert (k.2 =? col_tot_len_ h);;
        on_ix (Ix.insert_entry ifuel k.1 rid);;
        let* rid := on_rm (Rm.scan_next rid) in
        fill_tree ifuel k.1 cols rid fuel
  end.
Definition init_tree (ifuel : nat) (buf0 : list Z) (cols : list ColMeta) (fuel : nat) : Prog TSt unit :=
  let* rid := on_rm Rm.scan_begin in
  let* h := on_ix Ix.hdr in
  fill_tree ifuel (slice 0 (col_tot_len_ h) buf0) cols rid fuel.
End init_tree.
End IxM.
