(* ===== verification/IxManagerProps.v ===== *)
(** What [IxManager] promises to the tree: the header and the root page it creates have the shape the
    theorems on the B+ tree start from.  Also the key of a record, which the executors, rollback and
    [init_tree] build in the same way. *)

From S2P Require Import Prelude Bytes Errors Disk BufferPool PageStore Defs RmFile.
From S2P Require Import Text SmMeta LogRecord IxDefs IxNode IxTree IxNodeProofs.
From S2P Require Import IxManager.
Import IxN.

Module IxMP.
Import IxM.

(** ** Keys *)

(** the key of a record: the bytes of its columns one after the other *)
Definition key_of (cols : list ColMeta) (rec : list Z) : list Z := concat ((fun c => slice (cm_offset c) (cm_len c) rec) <$> cols).

Lemma fill_key_spec cols : forall done_ key rec offset,
  zlen done_ = offset -> Forall (fun c => in_range (cm_offset c) (cm_len c) (zlen rec) = true) cols ->
  offset + col_tot_len cols <= zlen key -> take (length done_) key = done_ ->
  exists key', fill_key key rec cols offset = Some (key', offset + col_tot_len cols) /\ zlen key' = zlen key /\
    slice 0 (offset + col_tot_len cols) key' = done_ ++ key_of cols rec.
Proof.
  induction cols as [|c cols IH]; intros dn key rec offset Hz Hin Hfit Hdn; cbn [fill_key].
  - exists key. unfold col_tot_len, key_of. simpl. rewrite Z.add_0_r, app_nil_r. split_and!; try done. unfold slice. rewrite drop_0, <- Hz. unfold zlen. rewrite Nat2Z.id. done.
  - apply Forall_cons in Hin as [Hc Hin]. pose proof Hc as (H1 & H2 & H3)%in_range_spec. unfold mload. rewrite Hc.
    assert (Hl : zlen (slice (cm_offset c) (cm_len c) rec) = cm_len c) by (apply zlen_slice; lia).
    assert (Ht : 0 <= col_tot_len cols).
    { clear -Hin. induction Hin as [|x l Hx Hl IH]; [done|]. apply in_range_spec in Hx as (? & ? & ?). change (0 <= cm_len x + col_tot_len l). lia. }
    change (col_tot_len (c :: cols)) with (cm_len c + col_tot_len cols) in *. pose proof (zlen_nonneg dn) as Hnn.
    unfold memcpy. rewrite (proj2 (in_range_spec offset (cm_len c) (zlen key))) by lia. rewrite Hl, Z.leb_refl. cbn [andb].
    set (b := slice (cm_offset c) (cm_len c) rec) in *. assert (Hb : slice 0 (cm_len c) b = b) by (rewrite <- Hl; apply slice_full). rewrite Hb.
    destruct (IH (dn ++ b) (splice offset b key) rec (offset + cm_len c)) as (key' & E & Hz' & Hs).
    + rewrite zlen_app. lia.
    + done.
    + rewrite zlen_splice by lia. lia.
    + apply list_eq. intros i. destruct (decide (i < length (dn ++ b))%nat) as [Hi|Hi].
      * rewrite lookup_take_lt by done. unfold splice. assert (Hdk : take (Z.to_nat offset) key = dn) by (rewrite <- Hz; unfold zlen; by rewrite Nat2Z.id).
        rewrite Hdk, app_assoc. by rewrite lookup_app_l.
      * rewrite lookup_take_ge, lookup_ge_None_2 by lia. done.
    + exists key'. rewrite E. split_and!.
      * f_equal. f_equal. lia.
      * rewrite Hz', zlen_splice by lia. done.
      * rewrite Z.add_assoc, Hs, <- app_assoc. done.
Qed.

(** a new buffer of the right size is filled with the key *)
Lemma fill_key_ok cols key0 rec :
  Forall (fun c => in_range (cm_offset c) (cm_len c) (zlen rec) = true) cols -> zlen key0 = col_tot_len cols ->
  fill_key key0 rec cols 0 = Some (key_of cols rec, col_tot_len cols).
Proof.
  intros Hin Hz. destruct (fill_key_spec cols [] key0 rec 0) as (key' & E & Hz' & Hs); try done; [lia|].
  rewrite E. rewrite Z.add_0_l in *. f_equal. f_equal. rewrite <- Hz, <- Hz', slice_full in Hs. done.
Qed.

(** ** The new index *)

(** columns an index may have: types the key comparison knows, with their lengths *)
Definition index_cols_ok (cs : list ColMeta) : Prop :=
  cs <> [] /\ Forall (fun c => IxKey.col_ok (cm_type c) (cm_len c) /\ 0 < cm_len c) cs.

Lemma tot_len_pos cs : index_cols_ok cs -> 0 < col_tot_len cs /\ zlen cs <= col_tot_len cs /\ Forall (fun c => cm_len c <= col_tot_len cs) cs.
Proof.
  intros [Hne HF]. assert (H : 0 <= col_tot_len cs /\ zlen cs <= col_tot_len cs /\ Forall (fun c => cm_len c <= col_tot_len cs) cs).
  { clear Hne. induction HF as [|c cs [_ Hc] _ (IH0 & IH1 & IH2)]; [by split_and!|]. change (col_tot_len (c :: cs)) with (cm_len c + col_tot_len cs).
    unfold zlen in *. cbn [length]. split_and!; [lia|lia|]. constructor; [lia|]. eapply Forall_impl; [exact IH2|]. intros x Hx. simpl in *. lia. }
  destruct H as (H0 & H1 & H2). split_and!; try done. destruct cs; [done|]. unfold zlen in H1. simpl in H1. lia.
Qed.

Lemma order_bounds len : 0 < len -> 2 < btree_order len ->
  len <= 1010 /\ btree_order len <= 451 /\ sizeof_IxPageHdr + (btree_order len + 1) * (len + Log.sizeof_Rid) <= PAGE_SIZE.
Proof.
  unfold btree_order, sizeof_IxPageHdr, Log.sizeof_Rid, PAGE_SIZE. change (4096 - 24) with 4072. intros Hl Ho.
  rewrite Z.quot_div_nonneg in * by lia. pose proof (Z.mul_div_le 4072 (len + 8) ltac:(lia)) as Hm. set (q := 4072 / (len + 8)) in *.
  split_and!; nia.
Qed.

Lemma order_accepts len : 0 < len <= 1010 -> 2 < btree_order len.
Proof.
  unfold btree_order, sizeof_IxPageHdr, Log.sizeof_Rid, PAGE_SIZE. change (4096 - 24) with 4072. intros Hl.
  rewrite Z.quot_div_nonneg by lia. enough (4 <= 4072 / (len + 8)) by lia. apply Z.div_le_lower_bound; lia.
Qed.

Definition empty_leaf : anode := mkANode IX_NO_PAGE true IX_NO_PAGE IX_NO_PAGE [] [].

Lemma root_nrep h pad0 b : zlen pad0 = 3 -> page b -> -1 <= btree_order_ h -> nrep h empty_leaf (splice 0 (root_page_hdr pad0) b).
Proof.
  intros Hp Hb Ho. destruct pad0 as [|p0 [|p1 [|p2 [|]]]]; try (unfold zlen in Hp; simpl in Hp; lia).
  unfold page in *. assert (Hr : zlen (root_page_hdr [p0; p1; p2]) = 24) by reflexivity.
  assert (Hz : zlen (splice 0 (root_page_hdr [p0; p1; p2]) b) = PAGE_SIZE) by (rewrite zlen_splice; unfold PAGE_SIZE in *; lia).
  assert (HF : forall off n, 0 <= off -> 0 <= n -> off + n <= 24 -> slice off n (splice 0 (root_page_hdr [p0; p1; p2]) b) = slice off n (root_page_hdr [p0; p1; p2])).
  { intros off n H1 H2 H3. rewrite slice_splice_sub by (rewrite ?Hr; unfold PAGE_SIZE in *; lia). by rewrite Z.sub_0_r. }
  split; unfold F, off_parent, off_num_key, off_is_leaf, off_prev_leaf, off_next_leaf, page; try rewrite HF by lia; try done.
  simpl. unfold zlen. simpl. lia.
Qed.
End IxMP.

(** the index that [create_index] writes for columns with supported types: the two checks pass
    exactly when the key has at most 1010 bytes, and then the header has the geometry the tree
    operations rely on (order above 2, keys and rids of a node fit in a page), its fields fit in the
    integers they are stored in, and the root page it writes is an empty leaf, whatever the page held. *)
Theorem ix_new_index_wellformed cs pad0 b :
  IxMP.index_cols_ok cs -> zlen pad0 = 3 -> page b ->
  let h := IxM.new_hdr cs in
  ((IxM.col_tot_len cs <= IX_MAX_COL_LEN /\ 2 < IxM.btree_order (IxM.col_tot_len cs)) <-> IxM.col_tot_len cs <= 1010) /\
  (IxM.col_tot_len cs <= 1010 -> geo h /\ cols h /\ IxHdr.hdr_ok h /\ nrep h IxMP.empty_leaf (splice 0 (IxM.root_page_hdr pad0) b)).
Proof.
  intros Hcs Hp Hb h. destruct (IxMP.tot_len_pos cs Hcs) as (Hpos & Hn & HF). destruct Hcs as [Hne Hok]. unfold IX_MAX_COL_LEN. split.
  { split; [intros [_ Ho]; by apply (IxMP.order_bounds _ Hpos Ho)|]. intros Hl. split; [lia|]. apply IxMP.order_accepts. lia. }
  intros Hl. assert (Ho : 2 < IxM.btree_order (IxM.col_tot_len cs)) by (apply IxMP.order_accepts; lia).
  destruct (IxMP.order_bounds _ Hpos Ho) as (_ & Hob & Hfit).
  assert (Hcn : 0 < zlen cs) by (destruct cs; [done|]; unfold zlen; simpl; lia). split_and!.
  - split; simpl; lia.
  - split; simpl; [|unfold zlen; by rewrite length_fmap|done]. rewrite Forall2_fmap. apply Forall_Forall2_diag. eapply Forall_impl; [exact Hok|]. by intros c [? _].
  - split; simpl.
    + unfold zlen. by rewrite length_fmap.
    + unfold zlen. by rewrite length_fmap.
    + lia.
    + unfold int32_ok. rewrite !Forall_cons, Forall_app, Forall_fmap, !Forall_cons. split_and!; try (unfold IX_NO_PAGE, IX_INIT_NUM_PAGES, IX_INIT_ROOT_PAGE; nia); [|constructor].
      rewrite Forall_forall in *. intros c Hc. specialize (HF c Hc). destruct (Hok c Hc) as [_ ?]. simpl. lia.
  - apply IxMP.root_nrep; [done|done|]. simpl. lia.
Qed.

(** A key of 1011 to 2000 bytes passes the length check and fails the assertion on the order, which ends the
    server; the comment above it bounds the length. *)
Theorem ix_create_asserts : IxM.btree_order 1011 = 2 /\ 1011 <= IX_MAX_COL_LEN.
Proof. by vm_compute. Qed.

Lemma ix_new_index_wellformed_witness : exists cs, let h := IxM.new_hdr cs in
  geo h /\ cols h /\ nrep h IxMP.empty_leaf (splice 0 (IxM.root_page_hdr [0; 0; 0]) (zeros PAGE_SIZE)).
Proof.
  exists [mkColMeta "t" "a" TYPE_INT 4 0 false].
  destruct (ix_new_index_wellformed [mkColMeta "t" "a" TYPE_INT 4 0 false] [0; 0; 0] (zeros PAGE_SIZE)) as (_ & H).
  - split; [done|]. constructor; [|constructor]. split; [|done]. split; [done|]. split; [done|by right].
  - done.
  - by vm_compute.
  - destruct H as (H1 & H2 & _ & H3); [by vm_compute|]. done.
Defined.
