(* ===== verification/Txn.v ===== *)
(** Transactions: [TransactionManager] of [src/src/transaction/transaction_manager.h] and
    [transaction_manager.cpp], and the context an executor hands to the record layer.

    A [Transaction] pointer is the id of the transaction.  [malloc] yields the address of a new write
    record, given those in use; [junk n] is what a new buffer of [n] bytes holds.  [ifuel] bounds the
    descents in the index trees. *)

From S2P Require Import Prelude Bytes Errors Disk BufferPool PageStore Defs.
From S2P Require Import Text SmMeta RmFile LogRecord LogManager Lock.
From S2P Require Import IxDefs IxTree IxManager SmState Core.

Record TransactionManager := mkTransactionManager {
  tm_sm : SmManager Core;
  next_txn_id_ : Z;
  next_timestamp_ : Z;
  txn_map : gmap Z Z;
}.

(** ** Write sets *)

Module Ws.
Section ops.
Context (malloc : gmap Z (list Z) -> Z).
Local Open Scope prog_scope.

Definition get_txn (p : Z) : Prog Core Transaction := on_locks (Lk.txn p).
Definition put_txn (p : Z) (t : Transaction) : Prog Core unit := on_locks (modify (Lk.set_txn p (fun _ => t))).

(** [log_mgr_->gen_log_from_write_set(txn_, w)] of a new write record, and [txn_->append_write_record] of it *)
Definition gen_log (p : Z) (w : WriteRecord) : Prog Core unit :=
  let* t := get_txn p in
  let* addr := gets (fun c => malloc (c_addrs c)) in
  let* r := on_log (LogM.gen_log_from_write_set t addr w) in
  put_txn p r.2.
Definition append (p : Z) (w : WriteRecord) : Prog Core unit :=
  let* t := get_txn p in
  put_txn p (append_write_record w t);;
  modify (fun c => set_addrs (<[p := default [] (c_addrs c !! p) ++ [malloc (c_addrs c)]]> (c_addrs c)) c).

(** the context of a transaction *)
Definition ctx (p : Z) : Context Core :=
  mkContext Core (on_locks (Lk.get_state p))
    (let* t := get_txn p in ret (so_far_lsn_ t))
    (fun fd => on_store (Bpm.on_disk (Dsk.get_file_name fd)))
    (gen_log p) (append p).

(** [write_records->clear()] *)
Definition clear (p : Z) : Prog Core unit :=
  let* t := get_txn p in
  put_txn p (set_write_records (fun _ => []) t);;
  modify (fun c => set_addrs (<[p := []]> (c_addrs c)) c).
(** [write_set->pop_back()] *)
Definition pop_back (p : Z) : Prog Core unit :=
  let* t := get_txn p in
  put_txn p (set_write_records (@removelast _) t);;
  modify (fun c => set_addrs (<[p := @removelast _ (default [] (c_addrs c !! p))]> (c_addrs c)) c).
End ops.
End Ws.

(** ** Rolling back one write *)

Module Roll.
Section ops.
Context (ifuel rfuel : nat) (junk : Z -> list Z).
Local Open Scope prog_scope.
Abbreviation SM := (SmManager Core).

(** the key of a record in an index: the loop over [col_num] columns, as [size_t]; an index out of range is undefined *)
Definition make_key (index : IndexMeta) (rec : list Z) : Prog SM (list Z) :=
  (if (0 <=? im_col_num index) && (im_col_num index <=? zlen (im_cols index)) then ret tt else fail Undef);;
  let* k := deref (IxM.fill_key (junk (im_col_tot_len index)) rec (take (Z.to_nat (im_col_num index)) (im_cols index)) 0) in
  ret k.1.

Definition drop_entry (index : IndexMeta) (rec : list Z) : Prog SM unit :=
  let* ih := SmSt.ih_at (Meta.get_index_name index) in
  let* key := make_key index rec in
  let* _ := SmSt.on_index ih (Ix.delete_entry ifuel key) in
  ret tt.
Definition add_entry (index : IndexMeta) (name : string) (rec : list Z) (rid : Rid) : Prog SM unit :=
  let* ih := SmSt.ih_at name in
  let* key := make_key index rec in
  let* _ := SmSt.on_index ih (Ix.insert_entry ifuel key rid) in
  ret tt.

(** [rollback_insert] *)
Definition rollback_insert (tab_name : string) (rid : Rid) : Prog SM unit :=
  let* table := SmSt.get_table tab_name in
  let* fh := SmSt.fh_at tab_name in
  let* rec := SmSt.on_file fh (Rm.get_record rid) in
  for_each (tm_indexes table) (fun index => drop_entry index (data rec));;
  SmSt.on_file fh (Rm.delete_record_at rid).

(** [rollback_delete] *)
Definition rollback_delete (tab_name : string) (rid : Rid) (rec : RmRecord) : Prog SM unit :=
  let* table := SmSt.get_table tab_name in
  let* fh := SmSt.fh_at tab_name in
  for_each (tm_indexes table) (fun index => add_entry index (Meta.get_index_name index) (data rec) rid);;
  SmSt.on_file fh (Rm.insert_record_at rfuel rid (data rec)).

(** [rollback_update]: the entries are found by the record that is there, and put back by the old one *)
Definition rollback_update (tab_name : string) (rid : Rid) (record : RmRecord) : Prog SM unit :=
  let* table := SmSt.get_table tab_name in
  let* fh := SmSt.fh_at tab_name in
  let* rec := SmSt.on_file fh (Rm.get_record rid) in
  for_each (tm_indexes table) (fun index => drop_entry index (data rec));;
  SmSt.on_file fh (Rm.insert_record_at rfuel rid (data record));;
  for_each (tm_indexes table) (fun index =>
    add_entry index (Meta.index_file_name tab_name (cm_name <$> im_cols index)) (data record) rid).
End ops.
End Roll.

(** ** The transaction manager *)

Module TxnM.
Section ops.
Context (ifuel rfuel : nat) (junk : Z -> list Z).
Local Open Scope prog_scope.
Abbreviation TM := TransactionManager.

Definition on_sm {A} (m : Prog (SmManager Core) A) : Prog TM A :=
  zoom tm_sm (fun s t => mkTransactionManager s (next_txn_id_ t) (next_timestamp_ t) (txn_map t)) m.
Definition core {A} (m : Prog Core A) : Prog TM A := on_sm (SmSt.on_core m).

(** [txn_map[txn_id] = txn], where the object is new *)
Definition add_txn (t : Transaction) : Prog Core unit :=
  on_locks (modify (fun l => mkLockManager (lock_table_ l) (<[txn_id_ t := t]> (txns l))));;
  modify (fun c => set_addrs (<[txn_id_ t := []]> (c_addrs c)) c).

(** [begin] with a null pointer: the two counters are [atomic] integers; [mode0] and [ts0] are the
    fields the constructor does not set *)
Definition begin (mode0 : bool) (ts0 : Z) : Prog TM Z :=
  let* txn_id := gets next_txn_id_ in
  modify (fun t => mkTransactionManager (tm_sm t) (wrap 32 (next_txn_id_ t + 1)) (next_timestamp_ t) (txn_map t));;
  let txn := new_Transaction mode0 ts0 txn_id SERIALIZABLE in
  let* ts := gets next_timestamp_ in
  modify (fun t => mkTransactionManager (tm_sm t) (next_txn_id_ t) (wrap 32 (next_timestamp_ t + 1)) (txn_map t));;
  let txn := set_state DEFAULT (set_start_ts ts txn) in
  modify (fun t => mkTransactionManager (tm_sm t) (next_txn_id_ t) (next_timestamp_ t) (<[txn_id := txn_id]> (txn_map t)));;
  core (add_txn txn);;
  let* r := core (on_log (LogM.gen_log_bein txn)) in
  core (Ws.put_txn txn_id r.2);;
  ret txn_id.

(** the three page sets of an index operation are not used; clearing them *)
Definition clear_index_sets (t : Transaction) : Transaction :=
  mkTransaction (txn_mode_ t) (state_ t) (isolation_level_ t) (so_far_lsn_ t) (txn_id_ t) (start_ts_ t) (write_records_ t) (lock_set_ t) [] [].

(** [commit]: the locks are given back before the commit record is written *)
Definition commit (p : Z) : Prog TM unit :=
  core (on_locks (Lk.put_state p COMMITTED));;
  core (on_locks (Lk.release_locks p));;
  core (Ws.clear p);;
  core (let* t := Ws.get_txn p in Ws.put_txn p (clear_index_sets t));;
  core (let* t := Ws.get_txn p in
        let* r := on_log (LogM.gen_log_commit t) in
        Ws.put_txn p r.2);;
  core (on_log LogM.flush_log_to_disk).

(** [lsn_prevlsn_table_[lsn]]: an absent entry is created *)
Definition prev_of (lsn : Z) : Prog LogM.St Z :=
  let* o := gets (fun s => lsn_prevlsn_table_ s.2 !! lsn) in
  match o with
  | Some v => ret v
  | None => LogM.upd_lm (fun m => LogM.set_tables (<[lsn := 0]> (lsn_prevlsn_table_ m)) (write_rec_to_lsn_table_ m) m);; ret 0
  end.

(** one round of the loop of [abort], on the last write record; it is searched in the table by its address *)
Definition undo_last (p : Z) (w : WriteRecord) (addr : Z) : Prog TM unit :=
  let* undo_next := core (on_log (let* o := gets (fun s => write_rec_to_lsn_table_ s.2 !! addr) in
                                  let* lsn := deref o in
                                  prev_of lsn)) in
  let* tid := core (on_locks (Lk.get_transaction_id p)) in
  (match wtype_ w with
   | INSERT_TUPLE =>
       on_sm (Roll.rollback_insert ifuel junk (tab_name_ w) (rid_ w));;
       core (on_log (LogM.gen_log_insert_CLR tid undo_next (record_ w) (rid_ w) (tab_name_ w)))
   | DELETE_TUPLE =>
       on_sm (Roll.rollback_delete ifuel rfuel junk (tab_name_ w) (rid_ w) (record_ w));;
       core (on_log (LogM.gen_log_delete_CLR tid undo_next (record_ w) (rid_ w) (tab_name_ w)))
   | UPDATE_TUPLE =>
       on_sm (Roll.rollback_update ifuel rfuel junk (tab_name_ w) (rid_ w) (record_ w));;
       core (on_log (LogM.gen_log_upadte_CLR tid undo_next (record_ w) (new_record_ w) (rid_ w) (tab_name_ w)))
   end);;
  core (Ws.pop_back p).

(** [while (!write_set->empty())], with the length of the write set as fuel *)
Fixpoint undo_writes (p : Z) (fuel : nat) : Prog TM unit :=
  let* t := core (Ws.get_txn p) in
  let* addrs := gets (fun t => default [] (c_addrs (sm_core (tm_sm t)) !! p)) in
  match last (write_records_ t), fuel with
  | None, _ => ret tt
  | Some _, O => fail OutOfFuel
  | Some w, S fuel =>
      let* addr := deref (last addrs) in
      undo_last p w addr;;
      undo_writes p fuel
  end.

(** [abort] *)
Definition abort (p : Z) : Prog TM unit :=
  core (on_locks (Lk.put_state p ABORTED));;
  let* t := core (Ws.get_txn p) in
  undo_writes p (length (write_records_ t));;
  core (on_locks (Lk.release_locks p));;
  core (Ws.clear p);;
  core (let* t := Ws.get_txn p in
        let* r := on_log (LogM.gen_log_abort t) in
        Ws.put_txn p r.2);;
  core (on_log LogM.flush_log_to_disk);;
  core (on_locks (Lk.put_state p ABORTED)).

(** [get_transaction]; the thread that asks is the one that began the transaction *)
Definition get_transaction (txn_id : Z) : Prog TM (option Z) :=
  if txn_id =? INVALID_TXN_ID then ret None
  else
    let* o := gets (fun t => txn_map t !! txn_id) in
    match o with Some p => ret (Some p) | None => fail AssertFail end.
(** [set_txn_id_num] *)
Definition set_txn_id_num (txn : Z) : Prog TM unit :=
  modify (fun t => mkTransactionManager (tm_sm t) txn (next_timestamp_ t) (txn_map t)).
End ops.
End TxnM.
