(* ===== verification/TxnProps.v ===== *)
(** Commit and begin: what a transaction leaves in the log and in the lock table. *)

From S2P Require Import Prelude Bytes Errors Disk BufferPool PageStore Defs.
From S2P Require Import Text SmMeta RmFile LogRecord LogManager Lock.
From S2P Require Import IxDefs IxTree IxManager SmState Core Txn.

Module TxnP.
Import Lk LkP.

(** ** Programs of the parts *)

(** the transaction manager with another core *)
Definition with_core (c : Core) (tm : TransactionManager) : TransactionManager :=
  mkTransactionManager (SmSt.set_core c (tm_sm tm)) (next_txn_id_ tm) (next_timestamp_ tm) (txn_map tm).
Definition core_of (tm : TransactionManager) : Core := sm_core (tm_sm tm).

Lemma core_eq {A} (m : Prog Core A) tm a c' :
  m (core_of tm) = (Ok a, c') -> TxnM.core m tm = (Ok a, with_core c' tm).
Proof. intros E. unfold TxnM.core, TxnM.on_sm, SmSt.on_core, zoom. unfold core_of in E. by rewrite E. Qed.

Lemma on_locks_eq {A} (m : Prog LockManager A) c a l' :
  m (c_locks c) = (Ok a, l') -> on_locks m c = (Ok a, set_locks l' c).
Proof. intros E. unfold on_locks. by apply zoom_eq. Qed.

Lemma on_log_eq {A} (m : Prog LogM.St A) c a s' :
  m (log_part c) = (Ok a, s') -> on_log m c = (Ok a, set_log_part s' c).
Proof. intros E. unfold on_log. by apply zoom_eq. Qed.

Lemma get_txn_eq p c t : txns (c_locks c) !! p = Some t -> Ws.get_txn p c = (Ok t, c).
Proof.
  intros Ht. unfold Ws.get_txn. rewrite (on_locks_eq _ c t (c_locks c)); [by destruct c|].
  unfold txn, gets, bind, deref. by rewrite Ht.
Qed.

Lemma put_txn_eq p t c :
  Ws.put_txn p t c = (Ok tt, set_locks (set_txn p (fun _ => t) (c_locks c)) c).
Proof. by apply on_locks_eq. Qed.

Lemma log_part_set s c : log_part (set_log_part s c) = s.
Proof. by destruct s. Qed.

(** ** Locks of a transaction that has ended *)

Lemma unlock_txns p id s t :
  txns s !! p = Some t -> state_ t <> GROWING -> txns (unlock p id s).2 = txns s.
Proof.
  intros Ht Hs. unfold unlock, get_state, queue, get_transaction_id, txn, gets, modify, bind, deref, ret. rewrite Ht. simpl.
  rewrite bool_decide_eq_false_2 by done. simpl. rewrite Ht. simpl. by destruct (drop_requests _ _).
Qed.

Lemma unlock_all_txns p ids s t s' :
  txns s !! p = Some t -> state_ t <> GROWING ->
  for_each ids (fun id => let* _ := unlock p id in ret tt)%prog s = (Ok tt, s') -> txns s' = txns s.
Proof.
  intros Ht Hs. revert s Ht. induction ids as [|id ids IH]; intros s Ht; cbn [for_each]; [by intros [= <-]|].
  pose proof (unlock_txns p id s t Ht Hs) as Hu. unfold bind at 1. unfold bind at 1.
  destruct (unlock p id s) as [[b|e|f] s1]; simpl in *; [|done|done]. intros E. rewrite <- Hu in Ht. by rewrite (IH s1 Ht E).
Qed.

(** releasing the locks of a transaction that is not growing changes its lock set only *)
Lemma release_ended p s t :
  linv s -> txns s !! p = Some t -> state_ t <> GROWING ->
  exists s', release_locks p s = (Ok tt, s') /\ linv s' /\ txns s' = <[p := set_lock_set (fun _ => ∅) t]> (txns s) /\
    (forall j r, holds_lock s' j r <-> holds_lock s j r /\ req_txn_id r <> p).
Proof.
  intros Hi Ht Hs. destruct (release_locks_spec p s Hi (elem_of_dom_2 _ _ _ Ht)) as (s' & t' & E & Hi' & _ & _ & _ & Hh).
  exists s'. split; [done|]. split; [done|]. split; [|done]. revert E. unfold release_locks, txn, gets, bind at 1 2, deref. rewrite Ht.
  simpl. unfold bind. destruct (for_each _ _ s) as [[[]|e|f] s1] eqn:E1; [|done|done]. simpl. intros [= <-].
  simpl. rewrite (unlock_all_txns p _ s t s1 Ht Hs E1). apply map_eq. intros q.
  destruct (decide (q = p)) as [->|Hne]; [by rewrite lookup_alter_eq, lookup_insert_eq, Ht|by rewrite lookup_alter_ne, lookup_insert_ne].
Qed.

(** another value for a transaction, with its id and no fewer locks *)
Lemma linv_put p t t' s :
  txns s !! p = Some t -> txn_id_ t' = txn_id_ t -> lock_set_ t ⊆ lock_set_ t' -> linv s -> linv (set_txn p (fun _ => t') s).
Proof.
  intros Ht Hid Hls [H1 H2 H3 H4]. split; try done.
  - intros q u. simpl. destruct (decide (p = q)) as [<-|Hne]; [|rewrite lookup_alter_ne by done; apply H1].
    rewrite lookup_alter_eq, Ht. intros [= <-]. rewrite Hid. by apply H1.
  - intros id q a Hq Ha. destruct (H4 id q a Hq Ha) as (u & Hu & Hin). simpl.
    destruct (decide (p = req_txn_id a)) as [->|Hne]; [|rewrite lookup_alter_ne by done; eauto].
    exists t'. split; [by rewrite lookup_alter_eq, Hu|]. apply Hls. congruence.
Qed.

Lemma put_txns p t t' s : txns s !! p = Some t -> txns (set_txn p (fun _ => t') s) = <[p := t']> (txns s).
Proof.
  intros Ht. apply map_eq. intros q. simpl.
  destruct (decide (p = q)) as [<-|Hne]; [by rewrite lookup_alter_eq, lookup_insert_eq, Ht|by rewrite lookup_alter_ne, lookup_insert_ne].
Qed.

Lemma put_state_eq' p st s t :
  txns s !! p = Some t -> put_state p st s = (Ok tt, set_txn p (set_state st) s) /\
  txns (set_txn p (set_state st) s) !! p = Some (set_state st t).
Proof.
  intros Ht. split; [apply put_state_eq; by apply elem_of_dom_2 in Ht|]. simpl. by rewrite lookup_alter_eq, Ht.
Qed.

(** ** The record that ends a transaction *)

Lemma gen_txn_eq mk t s c b :
  LogM.linv s c b -> log_latch_ s.2 = false -> Log.wf (mk (global_lsn_ s.2) (so_far_lsn_ t) (txn_id_ t)) ->
  zlen b + zlen (Log.image (mk (global_lsn_ s.2) (so_far_lsn_ t) (txn_id_ t))) <= LOG_BUFFER_SIZE ->
  exists s', LogM.gen_txn_log mk t s = (Ok (global_lsn_ s.2, set_so_far_lsn (global_lsn_ s.2) t), s') /\
    LogM.appended s s' c b (mk (global_lsn_ s.2) (so_far_lsn_ t) (txn_id_ t)).
Proof.
  intros Hi Hl Hwf Hf.
  destruct (LogM.gen_finish (global_lsn_ s.2, set_so_far_lsn (global_lsn_ s.2) t) s c b (lsn_prevlsn_table_ s.2) (write_rec_to_lsn_table_ s.2) _ Hi Hwf Hf)
    as (s' & E & Ha).
  exists s'. split; [|done]. rewrite <- E. destruct s as [d [tp tw g l bu bl pl]]. simpl in Hl. by subst l.
Qed.

(** the end of [commit] and of [abort]: a record is logged for the transaction and the log is flushed *)
Definition log_end (mk : Z -> Z -> Z -> LogRecord) (p : Z) : Prog TransactionManager unit :=
  (TxnM.core (let* t := Ws.get_txn p in
              let* r := on_log (LogM.gen_txn_log mk t) in
              Ws.put_txn p r.2);;
   TxnM.core (on_log LogM.flush_log_to_disk))%prog.

Lemma log_end_spec mk p tm t c b :
  let lsn := global_lsn_ (c_log (core_of tm)) in
  let r := mk lsn (so_far_lsn_ t) (txn_id_ t) in
  txns (c_locks (core_of tm)) !! p = Some t ->
  LogM.linv (log_part (core_of tm)) c b -> log_latch_ (c_log (core_of tm)) = false ->
  Log.wf r -> lsn_ (Log.hdr_of r) = lsn -> zlen b + zlen (Log.image r) <= LOG_BUFFER_SIZE ->
  exists c', log_end mk p tm = (Ok tt, with_core c' tm) /\
    LogM.linv (log_part c') (c ++ b ++ Log.image r) [] /\ log_latch_ (c_log c') = false /\
    global_lsn_ (c_log c') = wrap 32 (lsn + 1) /\ persist_lsn_ (c_log c') = lsn /\
    c_locks c' = set_txn p (fun _ => set_so_far_lsn lsn t) (c_locks (core_of tm)) /\ c_addrs c' = c_addrs (core_of tm) /\
    bpm (c_store c') = bpm (c_store (core_of tm)) /\ Dsk.beside_log (disk (c_store (core_of tm))) (disk (c_store c')).
Proof.
  intros lsn r Ht Hi Hl Hwf Hlsn Hf. destruct tm as [[core0 d dl fh ih sl] n ts m]. unfold core_of in *. simpl in *.
  destruct (gen_txn_eq mk t (log_part core0) c b Hi Hl Hwf Hf) as (s1 & E1 & [Hi1 Hl1 Hg1 Hb1 Hp1 Hd1]).
  destruct (LogM.flush_ok s1 _ _ Hi1 Hl1) as ([] & s2 & E2 & Hi2 & Hl2 & Hg2 & Hb2 & Hp2 & _ & Hbe).
  set (c1 := set_locks (set_txn p (fun _ => set_so_far_lsn lsn t) (c_locks core0)) (set_log_part s1 core0)).
  exists (set_log_part s2 c1). split.
  - unfold log_end. erewrite bind_ok; [|apply (core_eq _ _ tt c1)].
    + assert (Hc1 : log_part c1 = s1) by (unfold c1; by destruct s1). rewrite <- Hc1 in E2.
      apply (core_eq _ (with_core c1 (mkTransactionManager (mkSmManager core0 d dl fh ih sl) n ts m))). by apply on_log_eq.
    + rewrite (bind_ok _ _ _ _ _ (get_txn_eq p core0 t Ht)). rewrite (bind_ok _ _ _ _ _ (on_log_eq _ core0 _ _ E1)). apply put_txn_eq.
  - rewrite log_part_set. rewrite Hd1 in Hbe. split; [done|]. simpl. rewrite Hg2, Hp2, Hl2, Hg1, Hb1. done.
Qed.

(** ** Commit *)

Lemma wf_commit lsn t : int32_ok lsn -> LogM.txn_ok t -> Log.wf (Log.make_commit lsn (so_far_lsn_ t) (txn_id_ t)).
Proof. intros Hl [H1 H2]. split_and!; [by apply Log.wf_txn|done|done]. Qed.

(** what [commit] does before it writes to the log *)
Definition committed (t : Transaction) : Transaction :=
  TxnM.clear_index_sets (set_write_records (fun _ => []) (set_lock_set (fun _ => ∅) (set_state COMMITTED t))).

Lemma commit_locks p tm t :
  LkP.linv (c_locks (core_of tm)) -> txns (c_locks (core_of tm)) !! p = Some t ->
  exists l1, TxnM.commit p tm = log_end Log.make_commit p (with_core (set_addrs (<[p := []]> (c_addrs (core_of tm))) (set_locks l1 (core_of tm))) tm) /\
    LkP.linv l1 /\ txns l1 = <[p := committed t]> (txns (c_locks (core_of tm))) /\
    (forall j r, holds_lock l1 j r <-> holds_lock (c_locks (core_of tm)) j r /\ req_txn_id r <> p).
Proof.
  intros Hi Ht. set (core0 := core_of tm) in *. destruct (put_state_eq' p COMMITTED _ t Ht) as [E1 Ht1].
  set (l1 := set_txn p (set_state COMMITTED) (c_locks core0)) in *.
  destruct (release_ended p l1 (set_state COMMITTED t) (linv_set_state p COMMITTED _ Hi) Ht1 ltac:(done)) as (l2 & E2 & Hi2 & Ht2 & Hh2).
  assert (Hp2 : txns l2 !! p = Some (set_lock_set (fun _ => ∅) (set_state COMMITTED t))) by (by rewrite Ht2, lookup_insert_eq).
  set (l3 := set_txn p (fun _ => set_write_records (fun _ => []) (set_lock_set (fun _ => ∅) (set_state COMMITTED t))) l2).
  set (l4 := set_txn p (fun _ => committed t) l3).
  assert (Hp3 : txns l3 !! p = Some (set_write_records (fun _ => []) (set_lock_set (fun _ => ∅) (set_state COMMITTED t)))) by (simpl; by rewrite lookup_alter_eq, Hp2).
  exists l4. split; [|split; [|split]].
  - unfold TxnM.commit. rewrite (bind_ok _ _ _ _ _ (core_eq _ tm _ _ (on_locks_eq _ core0 _ _ E1))).
    set (tm1 := with_core (set_locks l1 core0) tm).
    rewrite (bind_ok _ _ _ _ _ (core_eq _ tm1 _ _ (on_locks_eq _ (set_locks l1 core0) _ _ E2))).
    set (c2 := set_locks l2 (set_locks l1 core0)). set (tm2 := with_core c2 tm1).
    assert (E3 : Ws.clear p (core_of tm2) = (Ok tt, set_addrs (<[p := []]> (c_addrs core0)) (set_locks l3 c2))).
    { unfold Ws.clear. rewrite (bind_ok _ _ _ _ _ (get_txn_eq p c2 _ Hp2)). by rewrite (bind_ok _ _ _ _ _ (put_txn_eq _ _ _)). }
    rewrite (bind_ok _ _ _ _ _ (core_eq _ tm2 _ _ E3)). set (c3 := set_addrs _ _). set (tm3 := with_core c3 tm2).
    assert (E4 : (let* t := Ws.get_txn p in Ws.put_txn p (TxnM.clear_index_sets t))%prog (core_of tm3) = (Ok tt, set_locks l4 c3)).
    { rewrite (bind_ok _ _ _ _ _ (get_txn_eq p c3 _ Hp3)). apply put_txn_eq. }
    by rewrite (bind_ok _ _ _ _ _ (core_eq _ tm3 _ _ E4)).
  - apply (linv_put p _ _ l3 Hp3); [done|done|]. by apply (linv_put p _ _ l2 Hp2).
  - unfold l4. rewrite (put_txns p _ _ l3 Hp3). unfold l3. rewrite (put_txns p _ _ l2 Hp2), Ht2. unfold l1. rewrite !insert_insert_eq.
    apply map_eq. intros q. simpl. destruct (decide (p = q)) as [<-|Hne]; [by rewrite !lookup_insert_eq|by rewrite !lookup_insert_ne, lookup_alter_ne].
  - intros j r. exact (Hh2 j r).
Qed.
Lemma commit_spec p tm t c b :
  let core := core_of tm in
  let lsn := global_lsn_ (c_log core) in
  let r := Log.make_commit lsn (so_far_lsn_ t) (txn_id_ t) in
  LkP.linv (c_locks core) -> txns (c_locks core) !! p = Some t -> LogM.txn_ok t ->
  LogM.linv (log_part core) c b -> log_latch_ (c_log core) = false -> 0 <= lsn < 2 ^ 31 - 1 ->
  zlen b + zlen (Log.image r) <= LOG_BUFFER_SIZE ->
  runs (TxnM.commit p) tm (fun _ tm' =>
    let core' := core_of tm' in
    LogM.linv (log_part core') (c ++ b ++ Log.image r) [] /\ log_latch_ (c_log core') = false /\
    global_lsn_ (c_log core') = lsn + 1 /\ persist_lsn_ (c_log core') = lsn /\
    LkP.linv (c_locks core') /\
    txns (c_locks core') = <[p := set_so_far_lsn lsn (committed t)]> (txns (c_locks core)) /\
    (forall id q, LkP.holds_lock (c_locks core') id q <-> LkP.holds_lock (c_locks core) id q /\ req_txn_id q <> p)).
Proof.
  intros core lsn r Hi Ht Hok Hlog Hlatch Hlsn Hfit. destruct (commit_locks p tm t Hi Ht) as (l1 & E1 & Hi1 & Ht1 & Hh1).
  assert (Hp1 : txns l1 !! p = Some (committed t)) by (by rewrite Ht1, lookup_insert_eq).
  set (tm1 := with_core (set_addrs (<[p := []]> (c_addrs core)) (set_locks l1 core)) tm) in *.
  destruct (log_end_spec Log.make_commit p tm1 (committed t) c b) as (c' & E & H1 & H2 & H3 & H4 & H5 & _); try done.
  { apply (wf_commit lsn t); [unfold int32_ok; lia|done]. }
  exists tt, (with_core c' tm1). split; [by rewrite E1|]. cbn zeta. change (core_of (with_core c' tm1)) with c'.
  split; [done|]. split; [done|]. split; [rewrite H3; apply wrap_id; lia|]. split; [done|]. rewrite H5.
  change (c_locks (core_of tm1)) with l1. split; [by apply (linv_put p _ _ l1 Hp1)|]. split; [|done].
  by rewrite (put_txns p _ _ l1 Hp1), Ht1, insert_insert_eq.
Qed.
End TxnP.

(** * Properties *)

(** C16: A commit is durable and gives everything back: when [commit] returns, the log file holds
    all that was in the log buffer followed by the commit record, with the next lsn and the
    transaction's last one as [prev_lsn_], and [persist_lsn_] is the lsn of the commit; the
    transaction is [COMMITTED], with an empty write set and no locks, its requests are gone
    from every queue of the lock table, and those of the other transactions are still there. *)
Theorem txn_commit_durable p tm t c b :
  let core := TxnP.core_of tm in
  let lsn := global_lsn_ (c_log core) in
  let r := Log.make_commit lsn (so_far_lsn_ t) (txn_id_ t) in
  LkP.linv (c_locks core) -> txns (c_locks core) !! p = Some t -> LogM.txn_ok t ->
  LogM.linv (log_part core) c b -> log_latch_ (c_log core) = false -> 0 <= lsn < 2 ^ 31 - 1 ->
  zlen b + zlen (Log.image r) <= LOG_BUFFER_SIZE ->
  runs (TxnM.commit p) tm (fun _ tm' =>
    let core' := TxnP.core_of tm' in
    LogM.linv (log_part core') (c ++ b ++ Log.image r) [] /\ log_latch_ (c_log core') = false /\
    global_lsn_ (c_log core') = lsn + 1 /\ persist_lsn_ (c_log core') = lsn /\
    LkP.linv (c_locks core') /\
    (exists t', txns (c_locks core') !! p = Some t' /\ state_ t' = COMMITTED /\ write_records_ t' = [] /\ lock_set_ t' = ∅ /\ so_far_lsn_ t' = lsn) /\
    (forall id q, LkP.holds_lock (c_locks core') id q <-> LkP.holds_lock (c_locks core) id q /\ req_txn_id q <> p)).
Proof.
  intros core lsn r Hi Ht Hok Hlog Hlatch Hlsn Hfit.
  eapply runs_conseq; [exact (TxnP.commit_spec p tm t c b Hi Ht Hok Hlog Hlatch Hlsn Hfit)|].
  intros [] tm' (H1 & H2 & H3 & H4 & H5 & H6 & H7). split_and!; try done.
  eexists. split; [by rewrite H6, lookup_insert_eq|]. done.
Qed.

(** C34: The locks of a transaction do not outlive it: a lock request of another transaction
    that only requests of [p] stand in the way of is granted when it is made after the commit
    of [p]. *)
Theorem txn_commit_unblocks p tm t c b call tq ns :
  let core := TxnP.core_of tm in
  let lsn := global_lsn_ (c_log core) in
  LkP.linv (c_locks core) -> txns (c_locks core) !! p = Some t -> LogM.txn_ok t ->
  LogM.linv (log_part core) c b -> log_latch_ (c_log core) = false -> 0 <= lsn < 2 ^ 31 - 1 ->
  zlen b + zlen (Log.image (Log.make_commit lsn (so_far_lsn_ t) (txn_id_ t))) <= LOG_BUFFER_SIZE ->
  Lk.caller call <> p -> txns (c_locks core) !! Lk.caller call = Some tq -> state_ tq <> SHRINKING -> state_ tq <> ABORTED ->
  LkP.needs call = Some ns ->
  (forall id m r, (id, m) ∈ ns -> LkP.holds_lock (c_locks core) id r -> req_txn_id r <> Lk.caller call ->
     compatible m (lock_mode_ r) = false -> req_txn_id r = p) ->
  runs (TxnM.commit p;; TxnM.core (on_locks (Lk.exec call)))%prog tm (fun granted _ => granted = true).
Proof.
  intros core lsn Hi Ht Hok Hlog Hlatch Hlsn Hfit Hne Htq Hs1 Hs2 Hn Honly.
  eapply runs_bind; [exact (TxnP.commit_spec p tm t c b Hi Ht Hok Hlog Hlatch Hlsn Hfit)|].
  intros [] tm' (_ & _ & _ & _ & Hi' & Htx & Hh).
  assert (Htq' : txns (c_locks (TxnP.core_of tm')) !! Lk.caller call = Some tq) by (by rewrite Htx, lookup_insert_ne).
  destruct (LkP.request_returns call _ tq ns Hi' Htq' Hs1 Hs2 Hn) as (g & l' & E & Hg).
  exists g, (TxnP.with_core (set_locks l' (TxnP.core_of tm')) tm'). split; [apply TxnP.core_eq, TxnP.on_locks_eq, E|].
  apply Hg. apply Forall_forall. intros [id m] Hin. intros q r Hq Hr Hneq.
  destruct (proj1 (Hh id r)) as [Hr0 Hrp]; [by exists q|].
  destruct (compatible (lock_mode_ r) m) eqn:Ec; [done|]. exfalso. apply Hrp. apply (Honly id m r); try done. by rewrite compatible_sym.
Qed.

(** ** An instance *)

Definition demo_sm (l : LockManager) : SmManager Core :=
  mkSmManager (mkCore (mkStore demo_log_disk (Bpm.make 0 2)) (LogM.make 0 0) l ∅) (mkDbMeta "db" []) free_mutex ∅ ∅ free_mutex.
Definition demo_tm (l : LockManager) : TransactionManager := mkTransactionManager (demo_sm l) 3 3 ∅.

(** transaction 1 has an exclusive lock on table 3, transaction 2 wants to read it *)
Definition demo_pair : gmap Z Transaction :=
  {[1 := new_Transaction false 0 1 SERIALIZABLE; 2 := new_Transaction false 0 2 SERIALIZABLE]}.
Definition demo_held : LockManager := Lk.run [Lk.ExclusiveTable 1 3] (mkLockManager ∅ demo_pair).

Lemma demo_held_linv : LkP.linv demo_held.
Proof.
  apply LkP.run_inv.
  - split; [|by intros id q a; simpl; rewrite lookup_empty..]. intros p t. simpl. unfold demo_pair.
    rewrite lookup_insert. destruct (decide (1 = p)) as [<-|]; [by intros [= <-]|]. rewrite lookup_singleton_Some. by intros [<- <-].
  - intros c Hc. apply list_elem_of_singleton in Hc as ->. vm_compute. done.
Qed.

Lemma demo_log_linv : LogM.linv (demo_log_disk, LogM.make 0 0) [] [].
Proof.
  apply linv_make; [apply Dsk.dinv_create_file; by constructor|split; [exists 0%nat; vm_compute; reflexivity|left; reflexivity]|vm_compute; reflexivity].
Qed.

Lemma demo_held_only id r : LkP.holds_lock demo_held id r -> req_txn_id r = 1.
Proof.
  intros (q & Hq & Hr). assert (E : lock_table_ demo_held = {[table_lock_id 3 := [mkLockRequest 1 LockMode.X false]]}) by (vm_compute; reflexivity).
  rewrite E in Hq. apply lookup_singleton_Some in Hq as [_ <-]. by apply list_elem_of_singleton in Hr as ->.
Qed.

Lemma txn_commit_durable_witness :
  runs (TxnM.commit 1) (demo_tm demo_held) (fun _ tm' =>
    LogM.linv (log_part (TxnP.core_of tm')) (Log.image (Log.make_commit 0 (-1) 1)) [] /\ persist_lsn_ (c_log (TxnP.core_of tm')) = 0 /\
    forall id q, ~ LkP.holds_lock (c_locks (TxnP.core_of tm')) id q).
Proof.
  eapply runs_conseq; [apply (txn_commit_durable 1 (demo_tm demo_held) (set_lock_set (fun _ => {[table_lock_id 3]}) (set_state GROWING (new_Transaction false 0 1 SERIALIZABLE))) [] [])|].
  - exact demo_held_linv.
  - vm_compute. reflexivity.
  - split; vm_compute; split; discriminate || reflexivity.
  - exact demo_log_linv.
  - reflexivity.
  - simpl. lia.
  - vm_compute. discriminate.
  - intros [] tm' (H1 & _ & _ & H2 & _ & _ & H3). split; [exact H1|]. split; [exact H2|]. intros id q Hq. apply H3 in Hq as [Hq Hne].
    apply Hne. exact (demo_held_only id q Hq).
Defined.

Lemma txn_commit_unblocks_witness :
  (Lk.exec (Lk.SharedTable 2 3) demo_held).1 = Ok false /\
  runs (TxnM.commit 1;; TxnM.core (on_locks (Lk.exec (Lk.SharedTable 2 3))))%prog (demo_tm demo_held) (fun granted _ => granted = true).
Proof.
  split; [vm_compute; reflexivity|].
  apply (txn_commit_unblocks 1 (demo_tm demo_held) (set_lock_set (fun _ => {[table_lock_id 3]}) (set_state GROWING (new_Transaction false 0 1 SERIALIZABLE))) [] []
    (Lk.SharedTable 2 3) (new_Transaction false 0 2 SERIALIZABLE) [(table_lock_id 3, LockMode.S)]).
  - exact demo_held_linv.
  - vm_compute. reflexivity.
  - split; vm_compute; split; discriminate || reflexivity.
  - exact demo_log_linv.
  - reflexivity.
  - simpl. lia.
  - vm_compute. discriminate.
  - discriminate.
  - vm_compute. reflexivity.
  - discriminate.
  - discriminate.
  - reflexivity.
  - intros id m r _ Hr _ _. exact (demo_held_only id r Hr).
Defined.
