(* ===== verification/TxnAbort.v ===== *)
(** Abort: rolling back the insertions of a transaction.

    The loop of [TransactionManager::abort] is followed over the whole core: the record file, the log
    buffer and the write set.  While the compensation records fit in the log buffer the log file is not
    written, so the file of the table is all that changes on the disk; the flush at the end of [abort] then
    appends to the log file and leaves the table's alone. *)

From S2P Require Import Prelude Bytes Errors Disk BufferPool BufferPoolProofs PageStore Defs.
From S2P Require Import Text SmMeta RmFile RmPage RmProofs RmProps LogRecord LogManager Lock.
From S2P Require Import IxDefs IxTree IxManager SmState Core Txn TxnProps.
Import RmPage.

Module AbP.
Import TxnP.

(** ** Logging in the buffer *)

(** what a step of the log manager that only fills the buffer does *)
Record logged (m m' : LogManager) (b img : list Z) : Prop := {
  lg_buf : LogM.binv m' (b ++ img);
  lg_latch : log_latch_ m' = false;
  lg_lsn : global_lsn_ m' = global_lsn_ m + 1;
  lg_addrs : write_rec_to_lsn_table_ m' = write_rec_to_lsn_table_ m;
}.

(** the compensation record of an insertion *)
Definition clr_of (tid lsn : Z) (w : WriteRecord) : LogRecord :=
  LogM.clr CLR_DELETE lsn (Log.make_insert tid (record_ w) (rid_ w) (tab_name_ w)).
Definition clr_ok (tid : Z) (w : WriteRecord) : Prop :=
  LogM.args_ok tid (rid_ w) (record_ w) (record_ w) (Log.make_insert tid (record_ w) (rid_ w) (tab_name_ w)).

Lemma gen_insert_CLR_eq d m b tid undo_next w :
  LogM.binv m b -> log_latch_ m = false -> 0 <= global_lsn_ m < 2 ^ 31 - 1 -> clr_ok tid w ->
  zlen b + zlen (Log.image (clr_of tid (global_lsn_ m) w)) <= LOG_BUFFER_SIZE ->
  exists m', LogM.gen_log_insert_CLR tid undo_next (record_ w) (rid_ w) (tab_name_ w) (d, m) = (Ok (global_lsn_ m), (d, m')) /\
    logged m m' b (Log.image (clr_of tid (global_lsn_ m) w)).
Proof.
  intros Hb Hl Hn Ho Hf.
  destruct (LogM.op_record_wf (LogM.OClrInsert tid undo_next (record_ w) (rid_ w) (tab_name_ w)) (global_lsn_ m) _ Ho ltac:(unfold int32_ok; lia) eq_refl) as [Hwf _].
  destruct (LogM.add_log_fits d _ b _ (LogM.entered_binv (lsn_prevlsn_table_ m) (write_rec_to_lsn_table_ m) (d, m) b Hb) Hwf Hf)
    as (m' & E & Hb' & H1 & H2 & _ & _ & _ & H3).
  exists (LogM.set_latch false m'). split.
  - transitivity ((LogM.add_log_to_buffer (clr_of tid (global_lsn_ m) w);; LogM.unlock_latch;; ret (global_lsn_ m))%prog
      (LogM.entered (lsn_prevlsn_table_ m) (write_rec_to_lsn_table_ m) (d, m))).
    + destruct m as [tp tw g l bu bl pl]. simpl in Hl. by subst l.
    + by rewrite (bind_ok _ _ _ _ _ E).
  - split; simpl; [by destruct Hb'; split|done|rewrite H2; simpl; apply wrap_id; lia|done].
Qed.

Lemma prev_of_eq d m lsn :
  exists v m', TxnM.prev_of lsn (d, m) = (Ok v, (d, m')) /\ log_buffer_ m' = log_buffer_ m /\ log_latch_ m' = log_latch_ m /\
    global_lsn_ m' = global_lsn_ m /\ write_rec_to_lsn_table_ m' = write_rec_to_lsn_table_ m.
Proof.
  unfold TxnM.prev_of, gets, bind. simpl. destruct (lsn_prevlsn_table_ m !! lsn) as [v|].
  - by exists v, m.
  - by eexists 0, _.
Qed.

Lemma binv_buffer m m' b : log_buffer_ m' = log_buffer_ m -> LogM.binv m b -> LogM.binv m' b.
Proof. intros E []. split; by rewrite ?E. Qed.

(** ** One insertion *)

(** the parts of the core the page operations do not use *)
Definition apart (m : LogManager) (l : LockManager) (a : gmap Z (list Z)) (c : Core) : Prop :=
  c_log c = m /\ c_locks c = l /\ c_addrs c = a.
Lemma apart_framed m l a : RmP.framed (apart m l a).
Proof. by apply zoom_framed. Qed.
Lemma apart_refl c : apart (c_log c) (c_locks c) (c_addrs c) c.
Proof. done. Qed.

Abbreviation rep := (RmP.rep (S:=Core) (fun _ => True)).

(** the core after a step of the log manager that leaves the disk alone *)
Definition set_log (m : LogManager) (c : Core) : Core := mkCore (c_store c) m (c_locks c) (c_addrs c).
Lemma on_log_buf {A} (m : Prog LogM.St A) c a lm' :
  m (log_part c) = (Ok a, (disk (c_store c), lm')) -> on_log m c = (Ok a, set_log lm' c).
Proof. intros E. rewrite (on_log_eq _ _ _ _ E). by destruct c as [[d b] lg l ad]. Qed.

Lemma rep_set_log m c h pages chain : rep c h pages chain -> rep (set_log m c) h pages chain.
Proof. by intros []; split. Qed.
Lemma rep_set_locks l c h pages chain : rep c h pages chain -> rep (set_locks l c) h pages chain.
Proof. by intros []; split. Qed.
Lemma rep_set_addrs a c h pages chain : rep c h pages chain -> rep (set_addrs a c) h pages chain.
Proof. by intros []; split. Qed.

(** the log file is not one the page operations on file [g] touch *)
Lemma log_kept_framed d0 g : Dsk.dinv d0 -> Dsk.off_log d0 g -> RmP.framed_in g (fun c => Lf.log_kept d0 (c_store c)).
Proof.
  intros Hd Hg. assert (Hm : Dsk.off_log d0 (-1)) by (intros ino off H; apply (Dsk.di_fds _ Hd) in H; lia).
  split; simpl; unfold zoom.
  - intros k c r c' Hk E Hc. rewrite <- Hk in Hg. pose proof (Lf.spares_fetch_page d0 k Hg _ Hc) as H. destruct (Bpm.fetch_page k (c_store c)). by injection E as _ <-.
  - intros k d c r c' _ E Hc. pose proof (Lf.spares_unpin_page d0 k d _ Hc) as H. destruct (Bpm.unpin_page k d (c_store c)). by injection E as _ <-.
  - intros c r c' E Hc. pose proof (Lf.spares_new_page d0 g Hg _ Hc) as H. destruct (Bpm.new_page g (c_store c)). by injection E as _ <-.
  - intros k c r c' _ E Hc. pose proof (Lf.spares_delete_page d0 k Hm _ Hc) as H. destruct (Bpm.delete_page k (c_store c)). by injection E as _ <-.
  - intros f off w c r c' E Hc. pose proof (Lf.spares_write_frame d0 f off w _ Hc) as H. destruct (Bpm.write_frame f off w (c_store c)). by injection E as _ <-.
Qed.

(** a table's file does not notice a write to the log *)
Lemma rep_beside c c' h pages chain :
  rep c h pages chain -> Lf.no_log_frames (c_store c) -> Dsk.off_log (disk (c_store c)) (fd_ h) ->
  bpm (c_store c') = bpm (c_store c) -> Dsk.dinv (disk (c_store c')) -> Dsk.beside_log (disk (c_store c)) (disk (c_store c')) ->
  rep c' h pages chain.
Proof.
  intros [Hi _ Hh [Hf Hmax] Hnp Hra Hd Hp H1 H2 H3 H4 Hroom] Hn Ho Hb Hd' Hbe.
  assert (E : c_store c' = mkStore (disk (c_store c')) (bpm (c_store c))) by (rewrite <- Hb; by destruct (c_store c')).
  assert (Hpn : forall g, BpmInv.npages (c_store c') g = BpmInv.npages (c_store c) g).
  { intros g. unfold BpmInv.npages, Dsk.get_fd2pageno. by rewrite (Dsk.bl_pageno _ _ Hbe). }
  split; try done.
  - change (BpmInv.binv (c_store c')). rewrite E. by apply Lf.beside_binv.
  - split; [by apply (Dsk.bl_file _ _ Hbe)|done].
  - change (BpmInv.npages (c_store c') (fd_ h) = num_pages (file_hdr_ h)). rewrite Hpn. exact Hnp.
  - intros i ap Hap. destruct (Hp i ap Hap) as (b & Hb1 & Hb2 & Hb3). exists b. split; [|split; [done|]].
    + change (BpmInv.page_is (c_store c') (mkPageId (fd_ h) i) b). rewrite E. by apply Lf.beside_page.
    + change (BpmInv.pins (c_store c') (mkPageId (fd_ h) i) = 0). rewrite E. exact Hb3.
  - change (0 < BpmInv.room (c_store c')). rewrite E. exact Hroom.
Qed.

(** the system manager after a step on the file of one table *)
Definition with_file (tab : string) (c : Core) (h : RmFileHandle) (s : SmManager Core) : SmManager Core :=
  SmSt.set_fhs (<[tab := h]> (fhs_ s)) (SmSt.set_core c s).

Lemma on_table_file_eq {A} tab (m : Prog (Core * RmFileHandle) A) s h a c' h' :
  fhs_ s !! tab = Some h -> m (sm_core s, h) = (Ok a, (c', h')) -> SmSt.on_file tab m s = (Ok a, with_file tab c' h' s).
Proof. intros Hh E. unfold SmSt.on_file. by rewrite Hh, E. Qed.

(** [rollback_insert] on a table without indexes; [J] is anything the operations on the pages of the table keep *)
Lemma rollback_insert_spec ifuel junk tab ti s h pages chain rid x (J : Core -> Prop) :
  Meta.get_table (db_ s) tab = inr ti -> tm_indexes ti = [] -> fhs_ s !! tab = Some h ->
  rep (sm_core s) h pages chain -> RmP.rec_at pages rid = Some x -> RmP.framed_in (fd_ h) J -> J (sm_core s) ->
  exists c' h', Roll.rollback_insert ifuel junk tab rid s = (Ok tt, with_file tab c' h' s) /\
    apart (c_log (sm_core s)) (c_locks (sm_core s)) (c_addrs (sm_core s)) c' /\
    rep c' h' (RmP.del_rec (file_hdr_ h) rid pages) (RmP.del_chain (file_hdr_ h) rid pages chain) /\ fd_ h' = fd_ h /\ J c'.
Proof.
  intros Hti Hix Hh Hrep Hx HJ HJs. set (C := apart (c_log (sm_core s)) (c_locks (sm_core s)) (c_addrs (sm_core s))).
  pose proof (Within.rep_within _ (sm_core s) J HJ C _ _ _ _ (RmP.rep_ctx C _ _ _ _ Hrep (apart_refl _)) eq_refl (conj (Within.apart_from_refl _ _) HJs)) as HrepC.
  destruct (RmP.get_record_spec C (apart_framed _ _ _) _ h pages chain rid x HrepC Hx) as (r & t & E1 & -> & s1 & -> & Hrep1).
  destruct (RmP.delete_record_at_spec C (apart_framed _ _ _) s1 h pages chain rid x Hrep1 Hx) as ([] & t & E2 & s2 & -> & Hrep2).
  apply Within.rep_outside in Hrep2 as [Hrep2 [_ HJ2]].
  exists s2, (mkRmFileHandle (fd_ h) (RmP.del_hdr (file_hdr_ h) rid pages)).
  split; [|split; [exact (RmP.rp_ctx _ _ _ _ _ Hrep2)|split; [exact (RmP.rep_any _ _ _ _ _ Hrep2)|done]]].
  unfold Roll.rollback_insert. erewrite bind_ok by (unfold SmSt.get_table; rewrite Hti; reflexivity).
  erewrite bind_ok by (unfold SmSt.fh_at, gets, bind; rewrite Hh; reflexivity).
  rewrite (bind_ok _ _ _ _ _ (on_table_file_eq tab _ s h _ _ _ Hh E1)), Hix. cbn [for_each].
  erewrite bind_ok by reflexivity. rewrite (on_table_file_eq tab _ (with_file tab s1 h s) h tt s2 _ (lookup_insert_eq _ _ _) E2).
  unfold with_file. destruct s. unfold SmSt.set_fhs, SmSt.set_core. simpl. by rewrite insert_insert_eq.
Qed.

(** ** The loop *)

Section undo.
Context (ifuel rfuel : nat) (junk : Z -> list Z) (p tid : Z) (tab : string) (ti : TabMeta).
Context (K : gmap LockDataId (list LockRequest)) (st : TransactionState) (prev : Z) (d0 : Disk).

(** the writes [ws] of transaction [p], of ids [ads], are still to be undone; they are insertions into [tab], whose
    file is described by [h], [pages] and [chain]; [b] is in the log buffer, [K] is the lock table, [prev] the lsn of the last
    record of the transaction, and the log file is the one of the disk [d0] and not in the buffer pool *)
Record undoing (tm : TransactionManager) (ws : list WriteRecord) (ads : list Z) (h : RmFileHandle) (pages : gmap Z apage)
    (chain : list Z) (b : list Z) : Prop := {
  un_ti : Meta.get_table (db_ (tm_sm tm)) tab = inr ti;
  un_fh : fhs_ (tm_sm tm) !! tab = Some h;
  un_rep : rep (core_of tm) h pages chain;
  un_txn : exists t, txns (c_locks (core_of tm)) !! p = Some t /\ txn_id_ t = tid /\ state_ t = st /\ so_far_lsn_ t = prev /\ write_records_ t = ws;
  un_linv : LkP.linv (c_locks (core_of tm));
  un_table : lock_table_ (c_locks (core_of tm)) = K;
  un_addrs : c_addrs (core_of tm) !! p = Some ads;
  un_len : length ads = length ws;
  un_known : Forall (fun a => is_Some (write_rec_to_lsn_table_ (c_log (core_of tm)) !! a)) ads;
  un_kind : Forall (fun w => wtype_ w = INSERT_TUPLE /\ tab_name_ w = tab /\ clr_ok tid w) ws;
  un_there : Forall (fun w => is_Some (RmP.rec_at pages (rid_ w))) ws;
  un_nodup : NoDup (rid_ <$> ws);
  un_buf : LogM.binv (c_log (core_of tm)) b;
  un_latch : log_latch_ (c_log (core_of tm)) = false;
  un_lsn : 0 <= global_lsn_ (c_log (core_of tm)) /\ global_lsn_ (c_log (core_of tm)) + zlen ws < 2 ^ 31;
  un_kept : Lf.log_kept d0 (c_store (core_of tm));
  un_off : Dsk.off_log d0 (fd_ h);
}.

Lemma on_sm_eq {A} (m : Prog (SmManager Core) A) tm a s' :
  m (tm_sm tm) = (Ok a, s') -> TxnM.on_sm m tm = (Ok a, mkTransactionManager s' (next_txn_id_ tm) (next_timestamp_ tm) (txn_map tm)).
Proof. intros E. unfold TxnM.on_sm, zoom. by rewrite E. Qed.

Lemma pop_back_eq c t ws w ads a :
  txns (c_locks c) !! p = Some t -> write_records_ t = ws ++ [w] -> c_addrs c !! p = Some (ads ++ [a]) ->
  Ws.pop_back p c = (Ok tt, set_addrs (<[p := ads]> (c_addrs c))
    (set_locks (Lk.set_txn p (fun _ => set_write_records (fun _ => ws) t) (c_locks c)) c)).
Proof.
  intros Ht Hw Ha. unfold Ws.pop_back. rewrite (bind_ok _ _ _ _ _ (get_txn_eq p c t Ht)), (bind_ok _ _ _ _ _ (put_txn_eq _ _ _)).
  unfold modify. simpl. rewrite Ha. simpl. unfold set_write_records. by rewrite Hw, !List.removelast_last.
Qed.

Lemma tid_eq tm t :
  txns (c_locks (core_of tm)) !! p = Some t -> TxnM.core (on_locks (Lk.get_transaction_id p)) tm = (Ok (txn_id_ t), tm).
Proof.
  intros Ht. rewrite (core_eq _ tm (txn_id_ t) (core_of tm)); [by destruct tm as [[]]|].
  rewrite (on_locks_eq _ _ (txn_id_ t) (c_locks (core_of tm))); [by destruct (core_of tm)|].
  unfold Lk.get_transaction_id, Lk.txn, gets, bind, deref. by rewrite Ht.
Qed.

(** the search of the write record in the tables of the log manager *)
Lemma undo_next_eq tm a lsn :
  write_rec_to_lsn_table_ (c_log (core_of tm)) !! a = Some lsn ->
  exists v m1, TxnM.core (on_log (let* o := gets (fun s => write_rec_to_lsn_table_ s.2 !! a) in let* lsn := deref o in TxnM.prev_of lsn))%prog tm
    = (Ok v, with_core (set_log m1 (core_of tm)) tm) /\ log_buffer_ m1 = log_buffer_ (c_log (core_of tm)) /\
    log_latch_ m1 = log_latch_ (c_log (core_of tm)) /\ global_lsn_ m1 = global_lsn_ (c_log (core_of tm)) /\
    write_rec_to_lsn_table_ m1 = write_rec_to_lsn_table_ (c_log (core_of tm)).
Proof.
  intros Ha. destruct (prev_of_eq (disk (c_store (core_of tm))) (c_log (core_of tm)) lsn) as (v & m1 & E & H).
  exists v, m1. split; [|done]. apply core_eq, on_log_buf. erewrite bind_ok by reflexivity. simpl. rewrite Ha. by erewrite bind_ok by reflexivity.
Qed.

Hypothesis (Hix : tm_indexes ti = []) (Hd0 : Dsk.dinv d0).

Lemma undo_last_spec tm ws w ads a h pages chain b :
  undoing tm (ws ++ [w]) (ads ++ [a]) h pages chain b ->
  let img := Log.image (clr_of tid (global_lsn_ (c_log (core_of tm))) w) in
  zlen b + zlen img <= LOG_BUFFER_SIZE ->
  exists tm' h' pages' chain', TxnM.undo_last ifuel rfuel junk p w a tm = (Ok tt, tm') /\
    undoing tm' ws ads h' pages' chain' (b ++ img) /\
    global_lsn_ (c_log (core_of tm')) = global_lsn_ (c_log (core_of tm)) + 1 /\
    (forall r, RmP.rec_at pages' r = if decide (r = rid_ w) then None else RmP.rec_at pages r).
Proof.
  intros [Hti Hfh Hrep (t & Ht & Htid & Hst & Hpv & Hws) Hli Htab Had Hlen Hkn Hkind Hthere Hnd Hbuf Hla Hlsn Hke Hoff] img Hfit.
  apply Forall_app in Hkn as [Hkn [[lsn Hlsn_a] _]%Forall_cons]. apply Forall_app in Hkind as [Hkind [(Hw1 & Hw2 & Hw3) _]%Forall_cons].
  apply Forall_app in Hthere as [Hthere [[x Hx] _]%Forall_cons].
  destruct (undo_next_eq tm a lsn Hlsn_a) as (v & m1 & E1 & Hb1 & Hl1 & Hg1 & Hwr1).
  set (tm1 := with_core (set_log m1 (core_of tm)) tm) in *. pose proof (tid_eq tm1 t Ht) as E2. rewrite Htid in E2.
  destruct (rollback_insert_spec ifuel junk tab ti (tm_sm tm1) h pages chain (rid_ w) x _ Hti Hix Hfh (rep_set_log m1 _ _ _ _ Hrep) Hx (log_kept_framed d0 _ Hd0 Hoff) Hke)
    as (c2 & h2 & E3 & (Ha1 & Ha2 & Ha3) & Hrep2 & Hfd2 & Hke2). apply on_sm_eq in E3. change (c_log c2 = m1) in Ha1.
  set (tm2 := mkTransactionManager (with_file tab c2 h2 (tm_sm tm1)) _ _ _) in E3.
  destruct (gen_insert_CLR_eq (disk (c_store c2)) (c_log c2) b tid v w) as (m3 & E4 & [Hb3 Hl3 Hg3 Hwr3]).
  { rewrite Ha1. by apply (binv_buffer _ m1 b Hb1). }
  { rewrite Ha1. simpl. congruence. }
  { rewrite Ha1. simpl. rewrite Hg1. unfold zlen in Hlsn. rewrite length_app in Hlsn. simpl in Hlsn. lia. }
  { done. }
  { rewrite Ha1. simpl. rewrite Hg1. exact Hfit. }
  apply (on_log_buf _ c2), (core_eq _ tm2) in E4. set (tm3 := with_core (set_log m3 c2) tm2) in E4.
  assert (Ht3 : txns (c_locks (core_of tm3)) !! p = Some t) by (simpl; by rewrite Ha2).
  assert (Had3 : c_addrs (core_of tm3) !! p = Some (ads ++ [a])) by (simpl; by rewrite Ha3).
  pose proof (core_eq _ tm3 _ _ (pop_back_eq (core_of tm3) t ws w ads a Ht3 Hws Had3)) as E5.
  eexists _, h2, (RmP.del_rec (file_hdr_ h) (rid_ w) pages), (RmP.del_chain (file_hdr_ h) (rid_ w) pages chain). split; [|split; [|split]].
  - unfold TxnM.undo_last. rewrite (bind_ok _ _ _ _ _ E1), (bind_ok _ _ _ _ _ E2), Hw1.
    erewrite bind_ok; [exact E5|]. rewrite Hw2, (bind_ok _ _ _ _ _ E3), <- Hw2. exact E4.
  - split; simpl; try done.
    + rewrite lookup_insert_eq. done.
    + apply rep_set_addrs, rep_set_locks, rep_set_log. exact Hrep2.
    + exists (set_write_records (fun _ => ws) t). by rewrite lookup_alter_eq, (Ht3 : txns (c_locks c2) !! p = Some t).
    + apply (linv_put p t); [by rewrite Ha2|done|done|by rewrite Ha2].
    + by rewrite Ha2.
    + by rewrite Ha3, lookup_insert_eq.
    + rewrite !length_app in Hlen. simpl in Hlen. lia.
    + by rewrite Hwr3, Ha1, Hwr1.
    + rewrite fmap_app in Hnd. apply NoDup_app in Hnd as (_ & Hdis & _). apply Forall_forall. intros w' Hin.
      rewrite (RmP.rec_at_del _ _ _ x) by done. rewrite decide_False; [by eapply (proj1 (Forall_forall _ _) Hthere)|].
      intros Heq. apply (Hdis (rid_ w')); [by apply list_elem_of_fmap_2|rewrite Heq; constructor].
    + rewrite fmap_app in Hnd. by apply NoDup_app in Hnd as (? & _ & _).
    + rewrite Ha1 in Hb3. simpl in Hb3. by rewrite Hg1 in Hb3.
    + rewrite Hg3, Ha1. simpl. rewrite Hg1. unfold zlen in *. rewrite length_app in Hlsn. simpl in Hlsn. lia.
    + by rewrite Hfd2.
  - simpl. by rewrite Hg3, Ha1, <- Hg1.
  - intros r. by eapply RmP.rec_at_del.
Qed.


(** the compensation records of the writes [ws], the first one with [lsn] *)
Fixpoint clr_log (lsn : Z) (ws : list WriteRecord) : list Z :=
  match ws with [] => [] | w :: ws => Log.image (clr_of tid lsn w) ++ clr_log (lsn + 1) ws end.

Lemma core_get_txn tm t : txns (c_locks (core_of tm)) !! p = Some t -> TxnM.core (Ws.get_txn p) tm = (Ok t, tm).
Proof. intros Ht. rewrite (core_eq _ tm t (core_of tm) (get_txn_eq p _ t Ht)). by destruct tm as [[]]. Qed.

Lemma undo_writes_spec ws : forall tm ads h pages chain b,
  undoing tm ws ads h pages chain b ->
  let log := clr_log (global_lsn_ (c_log (core_of tm))) (rev ws) in
  zlen b + zlen log <= LOG_BUFFER_SIZE ->
  exists tm' h' pages' chain', TxnM.undo_writes ifuel rfuel junk p (length ws) tm = (Ok tt, tm') /\
    undoing tm' [] [] h' pages' chain' (b ++ log) /\ global_lsn_ (c_log (core_of tm')) = global_lsn_ (c_log (core_of tm)) + zlen ws /\
    (forall r, RmP.rec_at pages' r = if decide (r ∈ rid_ <$> ws) then None else RmP.rec_at pages r).
Proof.
  induction ws as [|w ws IH] using rev_ind; intros tm ads h pages chain b Hun log Hfit.
  - destruct (un_txn _ _ _ _ _ _ _ Hun) as (t & Ht & _ & _ & _ & Hws). exists tm, h, pages, chain. split; [|split; [|split]].
    + cbn [TxnM.undo_writes length]. rewrite (bind_ok _ _ _ _ _ (core_get_txn tm t Ht)). erewrite bind_ok by reflexivity. by rewrite Hws.
    + unfold log. simpl. rewrite app_nil_r. pose proof (un_len _ _ _ _ _ _ _ Hun). destruct ads; [exact Hun|done].
    + unfold zlen. simpl. lia.
    + intros r. by rewrite decide_False by apply not_elem_of_nil.
  - unfold log in *. clear log. rewrite rev_app_distr in *. cbn [rev app clr_log] in *. rewrite zlen_app in Hfit.
    pose proof (un_len _ _ _ _ _ _ _ Hun) as Hlen. destruct ads as [|a ads _] using rev_ind; [rewrite length_app in Hlen; simpl in Hlen; lia|].
    pose proof (zlen_nonneg (clr_log (global_lsn_ (c_log (core_of tm)) + 1) (rev ws))).
    destruct (undo_last_spec tm ws w ads a h pages chain b Hun) as (tm1 & h1 & pages1 & chain1 & E1 & Hun1 & Hg1 & Hr1); [lia|].
    rewrite <- Hg1 in *. destruct (IH tm1 ads h1 pages1 chain1 _ Hun1) as (tm2 & h2 & pages2 & chain2 & E2 & Hun2 & Hg2 & Hr2); [rewrite zlen_app; lia|].
    exists tm2, h2, pages2, chain2. split; [|split; [|split]].
    + destruct (un_txn _ _ _ _ _ _ _ Hun) as (t & Ht & _ & _ & _ & Hws). rewrite length_app, Nat.add_comm. cbn [length Nat.add TxnM.undo_writes].
      rewrite (bind_ok _ _ _ _ _ (core_get_txn tm t Ht)). erewrite bind_ok by reflexivity. rewrite Hws, last_snoc.
      pose proof (un_addrs _ _ _ _ _ _ _ Hun) as Ha. unfold core_of in Ha. rewrite Ha. simpl. rewrite last_snoc.
      erewrite bind_ok by reflexivity. by rewrite (bind_ok _ _ _ _ _ E1).
    + by rewrite app_assoc.
    + rewrite Hg2. unfold zlen. rewrite length_app. simpl. lia.
    + intros r. rewrite Hr2, Hr1, fmap_app. simpl. destruct (decide (r ∈ rid_ <$> ws)) as [Hin|Hin].
      * rewrite decide_True; [done|]. apply elem_of_app. by left.
      * destruct (decide (r = rid_ w)) as [->|Hne]; [rewrite decide_True; [done|]; apply elem_of_app; right; constructor|].
        rewrite decide_False; [done|]. rewrite elem_of_app, list_elem_of_singleton. tauto.
Qed.
End undo.

(** ** Before and after the loop *)

Section around.
Context (p tid : Z) (tab : string) (ti : TabMeta) (K : gmap LockDataId (list LockRequest)) (prev : Z) (d0 : Disk).

Lemma undoing_state st st' tm ws ads h pages chain b :
  undoing p tid tab ti K st prev d0 tm ws ads h pages chain b ->
  exists tm', TxnM.core (on_locks (Lk.put_state p st')) tm = (Ok tt, tm') /\ undoing p tid tab ti K st' prev d0 tm' ws ads h pages chain b /\
    c_log (core_of tm') = c_log (core_of tm).
Proof.
  intros [Hti Hfh Hrep (t & Ht & Htid & Hst & Hpv & Hws) Hli Htab Had Hlen Hkn Hkind Hthere Hnd Hbuf Hla Hlsn Hke Hoff].
  destruct (put_state_eq' p st' _ t Ht) as [E Ht']. eexists. split; [apply core_eq, on_locks_eq, E|]. split; [|done].
  split; simpl; try done.
  - by apply rep_set_locks.
  - exists (set_state st' t). split; [exact Ht'|]. done.
  - by apply LkP.linv_set_state.
Qed.

(** a transaction that was rolled back: nothing is left to undo and its locks are given back *)
Record undone (tm : TransactionManager) (h : RmFileHandle) (pages : gmap Z apage) (chain : list Z) : Prop := {
  ud_fh : fhs_ (tm_sm tm) !! tab = Some h;
  ud_rep : rep (core_of tm) h pages chain;
  ud_linv : LkP.linv (c_locks (core_of tm));
  ud_locks : forall id r, LkP.holds_lock (c_locks (core_of tm)) id r <-> LkP.holds_lock (mkLockManager K ∅) id r /\ req_txn_id r <> p;
}.
(** the transaction itself *)
Definition rolled_back (last : Z) (t : Transaction) : Prop :=
  txn_id_ t = tid /\ state_ t = ABORTED /\ so_far_lsn_ t = last /\ write_records_ t = [] /\ lock_set_ t = ∅.

(** the locks are given back and the write set is cleared *)
Lemma release_clear tm ads h pages chain b :
  undoing p tid tab ti K ABORTED prev d0 tm [] ads h pages chain b ->
  exists tm' t, (TxnM.core (on_locks (Lk.release_locks p));; TxnM.core (Ws.clear p))%prog tm = (Ok tt, tm') /\
    undone tm' h pages chain /\ c_log (core_of tm') = c_log (core_of tm) /\ c_store (core_of tm') = c_store (core_of tm) /\
    txns (c_locks (core_of tm')) !! p = Some t /\ rolled_back prev t.
Proof.
  intros [Hti Hfh Hrep (t & Ht & Htid & Hst & Hpv & Hws) Hli Htab Had Hlen Hkn Hkind Hthere Hnd Hbuf Hla Hlsn Hke Hoff].
  destruct (release_ended p _ t Hli Ht ltac:(congruence)) as (l1 & E1 & Hl1 & Ht1 & Hh1).
  pose proof (core_eq _ tm _ _ (on_locks_eq _ _ _ _ E1)) as E1'. set (tm1 := with_core (set_locks l1 (core_of tm)) tm) in *.
  assert (Hp1 : txns l1 !! p = Some (set_lock_set (fun _ => ∅) t)) by (by rewrite Ht1, lookup_insert_eq).
  set (t2 := set_write_records (fun _ => []) (set_lock_set (fun _ => ∅) t)).
  assert (E2 : Ws.clear p (core_of tm1) = (Ok tt, set_addrs (<[p := []]> (c_addrs (core_of tm)))
    (set_locks (Lk.set_txn p (fun _ => t2) l1) (core_of tm1)))).
  { unfold Ws.clear. rewrite (bind_ok _ _ _ _ _ (get_txn_eq p (core_of tm1) _ Hp1)). by rewrite (bind_ok _ _ _ _ _ (put_txn_eq _ _ _)). }
  eexists _, t2. split; [rewrite (bind_ok _ _ _ _ _ E1'); apply core_eq; exact E2|]. simpl. split; [split; simpl|split_and!]; try done.
  - by apply rep_set_addrs, rep_set_locks, rep_set_locks.
  - by apply (linv_put p _ _ l1 Hp1).
  - intros id r. rewrite <- Htab. exact (Hh1 id r).
  - by rewrite lookup_alter_eq, Hp1.
Qed.

(** the end of [abort]: its record is logged, the log is flushed and the state is set once more *)
Lemma end_abort tm h pages chain t c b : let lsn := global_lsn_ (c_log (core_of tm)) in
  undone tm h pages chain -> txns (c_locks (core_of tm)) !! p = Some t -> rolled_back prev t ->
  LogM.linv (log_part (core_of tm)) c b -> log_latch_ (c_log (core_of tm)) = false -> int32_ok lsn -> int32_ok prev -> int32_ok tid ->
  zlen b + LOG_HEADER_SIZE <= LOG_BUFFER_SIZE -> Lf.no_log_frames (c_store (core_of tm)) -> Dsk.off_log (disk (c_store (core_of tm))) (fd_ h) ->
  exists tm' t', (log_end Log.make_abort p;; TxnM.core (on_locks (Lk.put_state p ABORTED)))%prog tm = (Ok tt, tm') /\
    undone tm' h pages chain /\ LogM.linv (log_part (core_of tm')) (c ++ b ++ Log.image (Log.make_abort lsn prev tid)) [] /\
    persist_lsn_ (c_log (core_of tm')) = lsn /\ txns (c_locks (core_of tm')) !! p = Some t' /\ rolled_back lsn t'.
Proof.
  intros lsn [Hfh Hrep Hli Hlo] Ht (<- & Hst & <- & Hws & Hls) Hlog Hla H1 H2 H3 Hfit Hno Hoff.
  assert (Hwf : Log.wf (Log.make_abort lsn (so_far_lsn_ t) (txn_id_ t))) by (split_and!; [by apply Log.wf_txn|done|done]).
  assert (Hlen : zlen (Log.image (Log.make_abort lsn (so_far_lsn_ t) (txn_id_ t))) = LOG_HEADER_SIZE) by (apply Log.zlen_image_hdr).
  destruct (log_end_spec Log.make_abort p tm t c b Ht Hlog Hla Hwf eq_refl) as (c' & E & Hlog' & _ & _ & Hpl & Hlk & _ & Hb & Hbe).
  { fold lsn. rewrite Hlen. exact Hfit. }
  set (t1 := set_so_far_lsn lsn t) in *. assert (Ht1 : txns (c_locks c') !! p = Some t1) by (rewrite Hlk; simpl; by rewrite lookup_alter_eq, Ht).
  destruct (put_state_eq' p ABORTED _ t1 Ht1) as [E2 Ht2]. apply on_locks_eq, (core_eq _ (with_core c' tm)) in E2.
  eexists _, (set_state ABORTED t1). split; [rewrite (bind_ok _ _ _ _ _ E); exact E2|]. simpl. split; [split; simpl|split_and!]; try done.
  - apply rep_set_locks. eapply rep_beside; [exact Hrep|done|done|done|apply Hlog'|done].
  - apply LkP.linv_set_state. rewrite Hlk. by apply (linv_put p t).
  - intros id r. rewrite <- Hlo. by rewrite Hlk.
Qed.
End around.

(** [abort] as a whole *)
Lemma abort_spec ifuel rfuel junk p tid tab ti K st prev tm ws ads h pages chain c b :
  let lsn := global_lsn_ (c_log (core_of tm)) in
  undoing p tid tab ti K st prev (disk (c_store (core_of tm))) tm ws ads h pages chain b -> tm_indexes ti = [] ->
  LogM.linv (log_part (core_of tm)) c b -> int32_ok prev -> int32_ok tid ->
  zlen b + zlen (clr_log tid lsn (rev ws)) + LOG_HEADER_SIZE <= LOG_BUFFER_SIZE ->
  exists tm' h' pages' chain' t', TxnM.abort ifuel rfuel junk p tm = (Ok tt, tm') /\
    undone p tab K tm' h' pages' chain' /\
    (forall r, RmP.rec_at pages' r = if decide (r ∈ rid_ <$> ws) then None else RmP.rec_at pages r) /\
    LogM.linv (log_part (core_of tm')) (c ++ b ++ clr_log tid lsn (rev ws) ++ Log.image (Log.make_abort (lsn + zlen ws) prev tid)) [] /\
    persist_lsn_ (c_log (core_of tm')) = lsn + zlen ws /\
    txns (c_locks (core_of tm')) !! p = Some t' /\ rolled_back tid (lsn + zlen ws) t'.
Proof.
  intros lsn Hun Hix Hlog Hpv Htid Hfit. set (d0 := disk (c_store (core_of tm))) in *. assert (Hd0 : Dsk.dinv d0) by apply Hlog.
  destruct (undoing_state p tid tab ti K prev d0 st ABORTED tm ws ads h pages chain b Hun) as (tm1 & E1 & Hun1 & Hg1).
  destruct (undo_writes_spec ifuel rfuel junk p tid tab ti K ABORTED prev d0 Hix Hd0 ws tm1 ads h pages chain b Hun1)
    as (tm2 & h2 & pages2 & chain2 & E2 & Hun2 & Hg2 & Hr2).
  { rewrite Hg1. fold lsn. assert (0 <= LOG_HEADER_SIZE) by done. lia. }
  rewrite Hg1 in Hun2, Hg2. fold lsn in Hun2, Hg2.
  destruct (release_clear p tid tab ti K prev d0 tm2 [] h2 pages2 chain2 _ Hun2) as (tm3 & t3 & E3 & Hud & Hlg & Hstore & Ht3 & Hrb).
  pose proof (un_kept _ _ _ _ _ _ _ _ _ _ _ _ _ _ _ Hun2) as Hke. pose proof (un_off _ _ _ _ _ _ _ _ _ _ _ _ _ _ _ Hun2) as Hoff.
  pose proof (un_lsn _ _ _ _ _ _ _ _ _ _ _ _ _ _ _ Hun) as Hls. fold lsn in Hls. pose proof (zlen_nonneg ws).
  destruct (end_abort p tid tab K prev tm3 h2 pages2 chain2 t3 c (b ++ clr_log tid lsn (rev ws)) Hud Ht3 Hrb) as (tm4 & t4 & E4 & Hud4 & Hlog4 & Hpl4 & Ht4 & Hrb4);
    rewrite ?Hlg, ?Hg2 in *; try done.
  - split; simpl; rewrite ?Hstore, ?Hlg; [apply (BpmInv.bi_disk _ (RmP.rp_inv _ _ _ _ _ (un_rep _ _ _ _ _ _ _ _ _ _ _ _ _ _ _ Hun2)))|by eapply Lf.log_kept_ok, Hlog| |by eapply un_buf].
    rewrite (Lf.lk_content _ _ Hke). apply Hlog.
  - by eapply un_latch.
  - unfold int32_ok. lia.
  - rewrite zlen_app. lia.
  - rewrite Hstore. intros f q Hq. apply (Lf.off_log_same _ _ _ Hke). by apply (Lf.lk_frames _ _ Hke f).
  - rewrite Hstore. by apply (Lf.off_log_same _ _ _ Hke).
  - exists tm4, h2, pages2, chain2, t4. split; [|split_and!; try done; by rewrite <- app_assoc in Hlog4].
    destruct (un_txn _ _ _ _ _ _ _ _ _ _ _ _ _ _ _ Hun1) as (t & Ht & _ & _ & _ & Hws). unfold TxnM.abort.
    rewrite (bind_ok _ _ _ _ _ E1), (bind_ok _ _ _ _ _ (core_get_txn p tm1 t Ht)), Hws, (bind_ok _ _ _ _ _ E2).
    revert E3. unfold bind at 1. destruct (TxnM.core (on_locks (Lk.release_locks p)) tm2) as [[[]|e|f] s3] eqn:E3; [|done|done].
    intros E5. rewrite (bind_ok _ _ _ _ _ E3), (bind_ok _ _ _ _ _ E5). unfold TxnP.log_end, LogM.gen_log_abort in *. by rewrite bind_assoc in E4.
Qed.
End AbP.

(** * Properties *)

(** C17: [abort] takes the insertions of a transaction back and ends it: for a transaction whose writes are insertions
    into one table without indexes, while the compensation records and the abort record fit in the log buffer and the buffer pool
    holds no page of the log file, [abort] returns.  The table then holds the records it held before the insertions and no
    others, and its file is well formed; the log file holds all it held, then what was in the log buffer, then one compensation
    record per insertion, last insertion first, then the abort record, and the buffer is empty; the transaction is [ABORTED]
    with an empty write set and no locks, and its requests, and only those, are gone from the lock table. *)
Theorem txn_abort_undoes_inserts ifuel rfuel junk p tid tab ti K st prev tm ws ads h pages chain c b :
  let core := TxnP.core_of tm in
  let lsn := global_lsn_ (c_log core) in
  AbP.undoing p tid tab ti K st prev (disk (c_store core)) tm ws ads h pages chain b -> tm_indexes ti = [] ->
  LogM.linv (log_part core) c b -> int32_ok prev -> int32_ok tid ->
  zlen b + zlen (AbP.clr_log tid lsn (rev ws)) + LOG_HEADER_SIZE <= LOG_BUFFER_SIZE ->
  exists tm' h' pages' chain' t', let core' := TxnP.core_of tm' in
    TxnM.abort ifuel rfuel junk p tm = (Ok tt, tm') /\
    fhs_ (tm_sm tm') !! tab = Some h' /\ RmP.rep (fun _ => True) core' h' pages' chain' /\
    (forall r, RmP.rec_at pages' r = if decide (r ∈ rid_ <$> ws) then None else RmP.rec_at pages r) /\
    LogM.linv (log_part core') (c ++ b ++ AbP.clr_log tid lsn (rev ws) ++ Log.image (Log.make_abort (lsn + zlen ws) prev tid)) [] /\
    persist_lsn_ (c_log core') = lsn + zlen ws /\
    txns (c_locks core') !! p = Some t' /\ state_ t' = ABORTED /\ write_records_ t' = [] /\ lock_set_ t' = ∅ /\
    LkP.linv (c_locks core') /\
    (forall id r, LkP.holds_lock (c_locks core') id r <-> LkP.holds_lock (c_locks core) id r /\ req_txn_id r <> p).
Proof.
  intros core lsn Hun Hix Hlog Hpv Htid Hfit.
  destruct (AbP.abort_spec ifuel rfuel junk p tid tab ti K st prev tm ws ads h pages chain c b Hun Hix Hlog Hpv Htid Hfit)
    as (tm' & h' & pages' & chain' & t' & E & [Hf Hrep Hli Hlo] & Hr & Hl & Hp & Ht & _ & Hst & _ & Hw & Hls).
  exists tm', h', pages', chain', t'. split_and!; try done.
  intros id r. rewrite (Hlo id r), <- (AbP.un_table _ _ _ _ _ _ _ _ _ _ _ _ _ _ _ Hun). done.
Qed.

(** ** An instance: one insertion into the table [t] *)

Definition demo_write (rid : Rid) : WriteRecord := mkWriteRecord INSERT_TUPLE "t" rid (mkRmRecord [1; 2; 3; 4; 5; 6; 7; 8] 8) (mkRmRecord [] 0).
Definition demo_abort_locks (rid : Rid) : LockManager :=
  mkLockManager ∅ {[1 := append_write_record (demo_write rid) (new_Transaction false 0 1 SERIALIZABLE)]}.
Definition demo_abort_log : LogManager := LogM.set_tables ∅ {[4096 := 0]} (LogM.make 0 0).
Definition demo_abort_tab : TabMeta := mkTabMeta "t" [mkColMeta "t" "a" TYPE_INT 4 0 false; mkColMeta "t" "b" TYPE_INT 4 4 false] [].
Definition demo_abort_tm (s : Store) (h : RmFileHandle) (rid : Rid) : TransactionManager :=
  mkTransactionManager (mkSmManager (mkCore s demo_abort_log (demo_abort_locks rid) {[1 := [4096]]})
    (mkDbMeta "db" [("t", demo_abort_tab)]) free_mutex {["t" := h]} ∅ free_mutex) 2 2 ∅.

Lemma demo_abort_buf : LogM.binv demo_abort_log [].
Proof. apply (AbP.binv_buffer (LogM.make 0 0)); [reflexivity|]. exact (LogM.li_buf _ _ _ demo_log_linv). Qed.

Lemma demo_clr_ok s h pages chain rid x :
  RmP.rep (fun _ : Core => True) s h pages chain -> RmP.rec_at pages rid = Some x -> AbP.clr_ok 1 (demo_write rid).
Proof.
  intros Hrep Hx. destruct (RmP.has_rec_bounds _ _ _ _ _ _ Hrep (ex_intro _ x Hx)) as [H1 [H2 H3]].
  pose proof (RmP.rp_range _ _ _ _ _ Hrep). pose proof (ho_n _ (RmP.rp_hdr _ _ _ _ _ Hrep)).
  unfold AbP.clr_ok, LogM.args_ok, Log.rid_ok, int32_ok. cbn [demo_write rid_ record_ tab_name_]. split_and!; try lia.
  1-2: by repeat constructor.
  clear. destruct rid as [pn sn]. split; vm_compute; [discriminate|reflexivity].
Qed.

Lemma demo_abort_linv rid : LkP.linv (demo_abort_locks rid).
Proof.
  unfold demo_abort_locks. split; cbn [lock_table_ txns]; intros id q; [rewrite lookup_singleton_Some; by intros [<- <-]|..];
    intros; by rewrite lookup_empty in *.
Qed.

(** the disk has an empty log, and neither the table nor a frame belongs to it *)
Lemma demo_log_ok : Dsk.log_ok (disk demo_rm_store) /\ Dsk.log_content (disk demo_rm_store) = Some [].
Proof. split; [split; [exists 1%nat; vm_compute; reflexivity|by left]|vm_compute; reflexivity]. Qed.
Lemma demo_off_log : Dsk.off_log (disk demo_rm_store) 3.
Proof.
  apply (Dsk.off_log_named _ _ "t"); [exact (BpmInv.bi_disk _ (RmP.rp_inv _ _ _ _ _ demo_rm_rep))|vm_compute; reflexivity|discriminate].
Qed.
Lemma demo_no_log_frames : Lf.no_log_frames demo_rm_store.
Proof.
  intros f q Hq. assert (Hq' : q ∈ pages_ (bpm demo_rm_store)) by (by eapply list_elem_of_lookup_2).
  apply elem_of_replicate in Hq' as [-> _]. intros ino off H. vm_compute in H. discriminate.
Qed.

(** the file after one insertion, with the log as it was *)
Lemma demo_kept_record : exists s h pages chain rid,
  RmP.rep (fun _ : Core => True) (mkCore s (LogM.make 0 0) (mkLockManager ∅ ∅) ∅) h pages chain /\ fd_ h = 3 /\
  RmP.rec_at pages rid = Some [1; 2; 3; 4; 5; 6; 7; 8] /\ Lf.log_kept (disk demo_rm_store) s.
Proof.
  set (c0 := mkCore demo_rm_store (LogM.make 0 0) (mkLockManager ∅ ∅) ∅).
  assert (Hd : Dsk.dinv (disk demo_rm_store)) by exact (BpmInv.bi_disk _ (RmP.rp_inv _ _ _ _ _ demo_rm_rep)).
  pose proof (AbP.log_kept_framed (disk demo_rm_store) 3 Hd demo_off_log) as HJ. set (C := AbP.apart (LogM.make 0 0) (mkLockManager ∅ ∅) ∅).
  destruct (RmP.insert_record_spec (PL := Within.within 3 c0 _ HJ) C (fun _ _ => True) (fun _ => C) (AbP.apart_framed _ _ _) (fun _ => AbP.apart_framed _ _ _)
    c0 demo_handle ∅ [] None [1; 2; 3; 4; 5; 6; 7; 8]) as (rid & [s1 h1] & E & name & pages' & chain' & Hrep' & Hfd & Hrs & Hnone & Hall).
  - apply Within.rep_within; [by destruct demo_rm_rep; split|done|]. split; [apply Within.apart_from_refl|]. apply (Lf.log_kept_refl demo_rm_store), demo_no_log_frames.
  - exact (fun _ _ H => H).
  - done.
  - vm_compute. congruence.
  - intros _. vm_compute. reflexivity.
  - apply Within.rep_outside in Hrep' as [Hrep' [_ HJ']]. destruct s1 as [s1 lm lk ad]. destruct (RmP.rp_ctx _ _ _ _ _ Hrep') as (H1 & H2 & H3).
    simpl in H1, H2, H3. subst lm lk ad. exists s1, h1, pages', chain', rid. split; [by apply (RmP.rep_any C)|]. split; [done|]. split; [|done].
    rewrite Hall, decide_True by done. by vm_compute.
Qed.

Lemma demo_undoing : exists s h pages chain rid,
  AbP.undoing 1 1 "t" demo_abort_tab ∅ DEFAULT (-1) (disk s) (demo_abort_tm s h rid) [demo_write rid] [4096] h pages chain [] /\
  LogM.linv (disk s, demo_abort_log) [] [].
Proof.
  destruct demo_kept_record as (s & h & pages & chain & rid & Hrep & Hfd & Hx & Hke). exists s, h, pages, chain, rid.
  split; [split|split].
  - reflexivity.
  - apply lookup_singleton_eq.
  - by destruct Hrep; split.
  - eexists. split; [apply lookup_singleton_eq|]. done.
  - exact (demo_abort_linv rid).
  - reflexivity.
  - apply lookup_singleton_eq.
  - reflexivity.
  - constructor; [|constructor]. by eexists.
  - constructor; [|constructor]. split; [done|]. split; [done|]. by eapply demo_clr_ok.
  - by constructor; [eexists|].
  - apply NoDup_singleton.
  - exact demo_abort_buf.
  - reflexivity.
  - split; [vm_compute; discriminate|vm_compute; reflexivity].
  - by apply (Lf.log_kept_self (disk demo_rm_store) s).
  - rewrite Hfd. apply (Lf.off_log_same _ _ _ Hke), demo_off_log.
  - exact (BpmInv.bi_disk _ (RmP.rp_inv _ _ _ _ _ Hrep)).
  - apply (Lf.log_kept_ok _ _ Hke), demo_log_ok.
  - simpl. rewrite (Lf.lk_content _ _ Hke). apply demo_log_ok.
  - exact demo_abort_buf.
Qed.

Lemma txn_abort_undoes_inserts_witness : exists s h pages rid,
  exists tm' h' pages' chain',
    TxnM.abort 1 1 zeros 1 (demo_abort_tm s h rid) = (Ok tt, tm') /\
    RmP.rep (fun _ => True) (TxnP.core_of tm') h' pages' chain' /\
    (forall r, RmP.rec_at pages' r = if decide (r ∈ [rid]) then None else RmP.rec_at pages r) /\
    LogM.linv (log_part (TxnP.core_of tm')) (AbP.clr_log 1 0 [demo_write rid] ++ Log.image (Log.make_abort 1 (-1) 1)) [].
Proof.
  destruct demo_undoing as (s & h & pages & chain & rid & Hun & Hlog). exists s, h, pages, rid.
  destruct (txn_abort_undoes_inserts 1 1 zeros 1 1 "t" demo_abort_tab ∅ DEFAULT (-1) (demo_abort_tm s h rid) [demo_write rid] [4096] h pages chain [] [] Hun)
    as (tm' & h' & pages' & chain' & t' & E & _ & Hrep & Hr & Hl & _).
  - reflexivity.
  - exact Hlog.
  - unfold int32_ok. lia.
  - unfold int32_ok. lia.
  - destruct rid as [pn sn]. vm_compute. discriminate.
  - exists tm', h', pages', chain'. split; [exact E|]. split; [exact Hrep|]. split; [exact Hr|]. exact Hl.
Defined.
