(* ===== verification/Dml.v ===== *)
(** The executors that change tables: [src/src/execution/executor_insert.h], [executor_delete.h]
    and [executor_update.h].

    A value of a statement comes with its raw buffer, the bytes [Value::init_raw] made, or a null
    pointer.  An executor has one operation, [Next], which does all its work; the others throw
    [UnreachableCodeError].  The mutex of the lock manager, which [InsertExecutor] takes around one
    request, is not part of the state: no other step runs while it is held. *)

From S2P Require Import Prelude Bytes Errors Disk BufferPool PageStore Defs.
From S2P Require Import Text SmMeta RmFile LogRecord LogManager Lock Float32 Values.
From S2P Require Import IxDefs IxTree IxManager SmState Executor SeqScan Core Txn.
From Stdlib Require Import Floats.SpecFloat.
From S2P Require Import Agg.

(** a value with its [raw] buffer *)
Definition RawValue : Type := Value * option (list Z).

Record InsertExecutor := mkInsertExecutor {
  ie_tab_ : TabMeta;
  ie_values_ : list RawValue;
  ie_fh_ : string;
  ie_tab_name_ : string;
  ie_rid_ : Rid;
  ie_txn_ : Z;                     (** [context_->txn_] *)
}.

Record DeleteExecutor := mkDeleteExecutor {
  de_tab_ : TabMeta;
  de_conds_ : list Condition;
  de_fh_ : string;
  de_rids_ : list Rid;
  de_tab_name_ : string;
  de_txn_ : Z;
}.

Record UpdateExecutor := mkUpdateExecutor {
  ue_tab_ : TabMeta;
  ue_conds_ : list Condition;
  ue_fh_ : string;
  ue_rids_ : list Rid;
  ue_tab_name_ : string;
  ue_set_clauses_ : list (SetClause * option (list Z));
  ue_txn_ : Z;
}.

(** ** What the executors share *)

Module Dml.
Section ops.
Context (malloc : gmap Z (list Z) -> Z) (ifuel : nat) (junk : Z -> list Z).
Local Open Scope prog_scope.
Abbreviation SM := (SmManager Core).

Definition locks {A} (m : Prog LockManager A) : Prog SM A := SmSt.on_core (on_locks m).
Definition abort_with {A} (txn : Z) (reason : AbortReason) : Prog SM A :=
  let* id := locks (Lk.get_transaction_id txn) in
  throw (TransactionAbortException id reason).

(** the handles of the indexes, read under the latch; a throw leaves it held *)
Fixpoint collect (indexes : list IndexMeta) : Prog SM (list string) :=
  match indexes with
  | [] => ret []
  | index :: indexes =>
      let* ih := SmSt.ih_at (Meta.get_index_name index) in
      let* l := collect indexes in
      ret (ih :: l)
  end.
Definition idx_hdls (tab : TabMeta) : Prog SM (list string) :=
  SmSt.latch_shared;;
  let* l := collect (tm_indexes tab) in
  SmSt.unlatch_shared;;
  ret l.

(** one entry of one index *)
Definition add_key (i : IndexMeta * string) (rec : list Z) (rid : Rid) : Prog SM unit :=
  let* key := Roll.make_key junk i.1 rec in
  let* _ := SmSt.on_index i.2 (Ix.insert_entry ifuel key rid) in
  ret tt.
Definition drop_key (i : IndexMeta * string) (rec : list Z) : Prog SM unit :=
  let* key := Roll.make_key junk i.1 rec in
  let* _ := SmSt.on_index i.2 (Ix.delete_entry ifuel key) in
  ret tt.

(** logging a write and adding it to the write set, if the transaction may still write *)
Definition log_write (txn : Z) (w : WriteRecord) : Prog SM unit :=
  let* st := locks (Lk.get_state txn) in
  if bool_decide (st = DEFAULT \/ st = GROWING) then
    SmSt.on_core (Ws.gen_log malloc txn w);;
    SmSt.on_core (Ws.append malloc txn w)
  else assert false.
End ops.
End Dml.

(** ** INSERT *)

Module Ins.
Section ops.
Context (malloc : gmap Z (list Z) -> Z) (ifuel : nat) (junk : Z -> list Z).
Local Open Scope prog_scope.
Abbreviation SM := (SmManager Core).

(** the constructor; [rid0] is the uninitialised field *)
Definition make (rid0 : Rid) (tab_name : string) (values : list RawValue) (txn : Z) : Prog SM InsertExecutor :=
  let* tab := SmSt.read_table tab_name in
  (if (length values =? length (tm_cols tab))%nat then ret tt else throw InvalidValueCountError);;
  let* fh := SmSt.read_fh tab_name in
  ret (mkInsertExecutor tab values fh tab_name rid0 txn).

(** the record: the values in the columns of the table *)
Fixpoint fill_record (rec : list Z) (cols : list ColMeta) (values : list RawValue) : Prog unit (list Z) :=
  match values with
  | [] => ret rec
  | (v, raw) :: values =>
      match cols with
      | [] => fail Undef
      | col :: cols =>
          (if bool_decide (cm_type col = Val.type v) then ret tt
           else throw (IncompatibleTypeError (coltype2str (cm_type col)) (coltype2str (Val.type v))));;
          let* raw := deref raw in
          let* rec := deref (memcpy rec (cm_offset col) raw (cm_len col)) in
          fill_record rec cols values
      end
  end.

(** the check against each index *)
Definition check_unique (rec : list Z) (i : IndexMeta * string) : Prog SM unit :=
  assert (0 <=? im_col_num i.1);;
  let* key := Roll.make_key junk i.1 rec in
  let* b := SmSt.on_index i.2 (Ix.is_exist ifuel key) in
  if b : bool then throw IndexEntryNotUniqueError else ret tt.

(** [Next]; the new [rid_] is returned *)
Definition next (e : InsertExecutor) : Prog SM Rid :=
  let* rs := SmSt.on_file (ie_fh_ e) (let* h := Rm.hdr in ret (record_size h)) in
  let* rec := pure_call (fill_record (junk rs) (tm_cols (ie_tab_ e)) (ie_values_ e)) in
  let* hdls := Dml.idx_hdls (ie_tab_ e) in
  for_each (zip (tm_indexes (ie_tab_ e)) hdls) (check_unique rec);;
  let* fd := SmSt.on_file (ie_fh_ e) Rm.get_fd in
  let* ok := Dml.locks (Lk.lock_IX_on_table (ie_txn_ e) fd) in
  (if ok : bool then ret tt else Dml.abort_with (ie_txn_ e) GET_LOCK_FAILED);;
  let* rid := SmSt.on_file (ie_fh_ e) (Rm.insert_record (Some (Ws.ctx malloc (ie_txn_ e))) rec) in
  let* ok := Dml.locks (Lk.lock_exclusive_on_record (ie_txn_ e) rid fd) in
  (if ok : bool then ret tt else Dml.abort_with (ie_txn_ e) GET_LOCK_FAILED);;
  for_each (zip (tm_indexes (ie_tab_ e)) hdls) (fun i => assert (0 <=? im_col_num i.1);; Dml.add_key ifuel junk i rec rid);;
  ret rid.
End ops.
End Ins.

(** ** DELETE *)

Module Del.
Section ops.
Context (malloc : gmap Z (list Z) -> Z) (ifuel : nat) (junk : Z -> list Z).
Local Open Scope prog_scope.
Abbreviation SM := (SmManager Core).

(** the constructor, which locks the table *)
Definition make (tab_name : string) (conds : list Condition) (rids : list Rid) (txn : Z) : Prog SM DeleteExecutor :=
  let* tab := SmSt.read_table tab_name in
  let* fh := SmSt.read_fh tab_name in
  let* fd := SmSt.on_file fh Rm.get_fd in
  let* ok := Dml.locks (Lk.lock_exclusive_on_table txn fd) in
  (if ok : bool then ret tt else Dml.abort_with txn DEADLOCK_PREVENTION);;
  ret (mkDeleteExecutor tab conds fh rids tab_name txn).

(** the body of the loop over the rids *)
Definition delete_one (e : DeleteExecutor) (hdls : list string) (rid : Rid) : Prog SM unit :=
  let* record := SmSt.on_file (de_fh_ e) (Rm.get_record rid) in
  let* old_record := SmSt.on_file (de_fh_ e) (Rm.get_record rid) in
  let* cond_flag := pure_call (Scan.test_conds (de_conds_ e) (tm_cols (de_tab_ e)) (data record)) in
  if cond_flag : bool then
    Dml.log_write malloc (de_txn_ e) (mkWriteRecord DELETE_TUPLE (de_tab_name_ e) rid old_record (mkRmRecord [] 0));;
    SmSt.on_file (de_fh_ e) (Rm.delete_record (Some (Ws.ctx malloc (de_txn_ e))) rid);;
    for_each (zip (tm_indexes (de_tab_ e)) hdls) (fun i => Dml.drop_key ifuel junk i (data record))
  else ret tt.

(** [Next] *)
Definition next (e : DeleteExecutor) : Prog SM unit :=
  let* hdls := Dml.idx_hdls (de_tab_ e) in
  for_each (de_rids_ e) (delete_one e hdls).
End ops.
End Del.

(** ** UPDATE *)

Module Upd.
Section ops.
Context (malloc : gmap Z (list Z) -> Z) (ifuel : nat) (junk : Z -> list Z).
Local Open Scope prog_scope.
Abbreviation SM := (SmManager Core).

Definition make (tab_name : string) (set_clauses : list (SetClause * option (list Z))) (conds : list Condition) (rids : list Rid) (txn : Z) : Prog SM UpdateExecutor :=
  let* tab := SmSt.read_table tab_name in
  let* fh := SmSt.read_fh tab_name in
  ret (mkUpdateExecutor tab conds fh rids tab_name set_clauses txn).

(** the first loop: every record is locked, read and taken out of the indexes *)
Fixpoint take_records (e : UpdateExecutor) (hdls : list string) (rids : list Rid) : Prog SM (list RmRecord) :=
  match rids with
  | [] => ret []
  | rid :: rids =>
      let* fd := SmSt.on_file (ue_fh_ e) Rm.get_fd in
      let* ok := Dml.locks (Lk.lock_exclusive_on_record (ue_txn_ e) rid fd) in
      (if ok : bool then ret tt else Dml.abort_with (ue_txn_ e) GET_LOCK_FAILED);;
      let* record := SmSt.on_file (ue_fh_ e) (Rm.get_record rid) in
      for_each (zip (tm_indexes (ue_tab_ e)) hdls) (fun i => Dml.drop_key ifuel junk i (data record));;
      let* l := take_records e hdls rids in
      ret (record :: l)
  end.

(** [*(T* )(data + offset) op= *(T* )raw]: [int] must not overflow, [size_t] wraps *)
Definition add_int (sub : bool) (a b : list Z) : Prog unit (list Z) :=
  let r := if sub then dec_i32 a - dec_i32 b else dec_i32 a + dec_i32 b in
  if int_ok r then ret (enc_i32 r) else fail Undef.
Definition add_float (sub : bool) (a b : list Z) : Prog unit (list Z) :=
  let f := if sub then SFsub 24 128 else SFadd 24 128 in
  let* w := deref (f32_bits (f (dec_f32 a) (dec_f32 b))) in
  ret (le_bytes 4 w).
Definition add_size_t (sub : bool) (a b : list Z) : Prog unit (list Z) :=
  ret (le_bytes 8 (Val.u64 (if sub then le_value a - le_value b else le_value a + le_value b))).

Definition op_at (rec raw : list Z) (off n : Z) (f : list Z -> list Z -> Prog unit (list Z)) : Prog unit (list Z) :=
  let* a := deref (mload rec off n) in
  let* b := deref (mload raw 0 n) in
  let* r := f a b in
  deref (memcpy rec off r n).

(** one set clause; the operator is a [char] *)
Definition set_one (e : UpdateExecutor) (rec : list Z) (c : SetClause * option (list Z)) : Prog unit (list Z) :=
  assert (String.eqb (ue_tab_name_ e) (tc_tab_name (set_lhs c.1)));;
  let* col := (match Meta.get_col (ue_tab_ e) (tc_col_name (set_lhs c.1)) with inr col => ret col | inl err => throw err end) in
  (if bool_decide (cm_type col = Val.type (set_rhs c.1)) then ret tt
   else throw (IncompatibleTypeError (coltype2str (cm_type col)) (coltype2str (Val.type (set_rhs c.1)))));;
  let* raw := deref c.2 in
  if set_op c.1 =? 0 then deref (memcpy rec (cm_offset col) raw (cm_len col))
  else
    assert ((set_op c.1 =? 43) || (set_op c.1 =? 45));;
    let sub := set_op c.1 =? 45 in
    match cm_type col with
    | TYPE_INT => op_at rec raw (cm_offset col) 4 (add_int sub)
    | TYPE_FLOAT => op_at rec raw (cm_offset col) 4 (add_float sub)
    | TYPE_BIGINT => op_at rec raw (cm_offset col) 8 (add_size_t sub)
    | _ => fail AssertFail
    end.
Fixpoint set_all (e : UpdateExecutor) (rec : list Z) (cs : list (SetClause * option (list Z))) : Prog unit (list Z) :=
  match cs with [] => ret rec | c :: cs => let* rec := set_one e rec c in set_all e rec cs end.

(** the entries of a new record: the number of indexes that took it when one refused it *)
Fixpoint try_insert (idx : list (IndexMeta * string)) (rec : list Z) (rid : Rid) (i : nat) : Prog SM (option nat) :=
  match idx with
  | [] => ret None
  | x :: idx =>
      let* ok := try_catch (Dml.add_key ifuel junk x rec rid;; ret true)
                   (fun err => match err with IndexEntryNotUniqueError => ret false | _ => throw err end) in
      if ok : bool then try_insert idx rec rid (Datatypes.S i) else ret (Some i)
  end.

(** the handler: the new entries are dropped and the old ones put back *)
Definition undo_indexes (idx : list (IndexMeta * string)) (rec : list Z) (i : nat) (news : list (list Z)) (olds : list (Rid * RmRecord)) : Prog SM unit :=
  for_each (take i idx) (fun x => Dml.drop_key ifuel junk x rec);;
  for_each news (fun r => for_each idx (fun x => Dml.drop_key ifuel junk x r));;
  for_each olds (fun o => for_each idx (fun x => Dml.add_key ifuel junk x (data o.2) o.1)).

(** the second loop: the new records, with their entries; [news] are those already made *)
Fixpoint make_records (e : UpdateExecutor) (idx : list (IndexMeta * string)) (all todo : list (Rid * RmRecord)) (news : list (list Z)) : Prog SM (list (list Z)) :=
  match todo with
  | [] => ret news
  | (rid, old) :: todo =>
      let* rec := pure_call (set_all e (data old) (ue_set_clauses_ e)) in
      let* r := try_insert idx rec rid 0 in
      match r with
      | None => make_records e idx all todo (news ++ [rec])
      | Some i => undo_indexes idx rec i news all;; throw IndexEntryNotUniqueError
      end
  end.

(** the third loop: one write *)
Definition write_one (e : UpdateExecutor) (x : Rid * RmRecord * list Z) : Prog SM unit :=
  Dml.log_write malloc (ue_txn_ e) (mkWriteRecord UPDATE_TUPLE (ue_tab_name_ e) x.1.1 x.1.2 (mkRmRecord x.2 (size x.1.2)));;
  SmSt.on_file (ue_fh_ e) (Rm.update_record (Some (Ws.ctx malloc (ue_txn_ e))) x.1.1 x.2).

(** [Next] *)
Definition next (e : UpdateExecutor) : Prog SM unit :=
  let* hdls := Dml.idx_hdls (ue_tab_ e) in
  let idx := zip (tm_indexes (ue_tab_ e)) hdls in
  let* olds := take_records e hdls (ue_rids_ e) in
  let all := zip (ue_rids_ e) olds in
  let* news := make_records e idx all all [] in
  for_each (zip all news) (write_one e).
End ops.
End Upd.
