(* ===== verification/DmlProps.v ===== *)
(** INSERT: the record the executor builds, and what executing it does to the table, the write set,
    the locks and the log. *)

From S2P Require Import Prelude Bytes Errors Disk BufferPool PageStore Defs.
From S2P Require Import Text SmMeta RmFile RmPage RmProofs RmProps LogRecord LogManager Lock.
From S2P Require Import Values ValuesProps IxDefs IxTree IxManager SmState Executor SeqScan.
From S2P Require Import Core Txn TxnProps TxnAbort Dml.
Import RmPage.

Module InsP.
Import TxnP AbP.

(** ** The record *)

(** the columns follow each other from [off] on *)
Fixpoint tiles (off : Z) (cols : list ColMeta) : Prop :=
  match cols with
  | [] => True
  | c :: cols => cm_offset c = off /\ 0 <= cm_len c /\ tiles (off + cm_len c) cols
  end.

Lemma tiles_nonneg cols : forall off, tiles off cols -> 0 <= foldr Z.add 0 (cm_len <$> cols).
Proof.
  induction cols as [|c cols IH]; intros off; [done|]. intros (_ & Hl & Ht). specialize (IH _ Ht). rewrite fmap_cons. cbn [foldr]. lia.
Qed.

Lemma tiles_from cols : forall off n, 0 <= off -> tiles off cols -> off + foldr Z.add 0 (cm_len <$> cols) <= n ->
  Forall (fun c => in_range (cm_offset c) (cm_len c) n = true) cols.
Proof.
  induction cols as [|c cols IH]; intros off n Ho; [constructor|]. intros (Hc & Hl & Ht). rewrite fmap_cons. cbn [foldr]. intros Hn.
  pose proof (tiles_nonneg _ _ Ht). constructor; [apply in_range_spec; lia|]. apply (IH (off + cm_len c)); [lia|done|lia].
Qed.
Lemma tiles_range cols n : tiles 0 cols -> n = foldr Z.add 0 (cm_len <$> cols) -> Forall (fun c => in_range (cm_offset c) (cm_len c) n = true) cols.
Proof. intros Ht ->. apply (tiles_from cols 0); [done|done|lia]. Qed.

(** a value of the type of the column, with the bytes [init_raw] gives it *)
Definition value_for (col : ColMeta) (v : RawValue) : Prop :=
  cm_type col = Val.type v.1 /\ value_ok v.1 (cm_len col) /\
  exists raw, v.2 = Some raw /\ Val.init_raw v.1 (cm_len col) tt = (Ok raw, tt).

Definition raw_of (v : RawValue) : list Z := default [] v.2.

Lemma value_for_raw col v : value_for col v -> zlen (raw_of v) = cm_len col.
Proof.
  intros (_ & Hok & raw & E & Hr). destruct (init_raw_ok v.1 (cm_len col) Hok) as (raw' & Hr' & Hz). unfold raw_of. rewrite E. simpl. congruence.
Qed.

Lemma memcpy_tile pre rest raw off len :
  zlen pre = off -> zlen raw = len -> len <= zlen rest ->
  memcpy (pre ++ rest) off raw len = Some (pre ++ raw ++ drop (length raw) rest).
Proof.
  intros Hp Hr Hl. pose proof (zlen_nonneg pre). pose proof (zlen_nonneg raw). unfold memcpy. rewrite (proj2 (in_range_spec _ _ _)) by (rewrite zlen_app; lia).
  rewrite Hr, Z.leb_refl. simpl. rewrite <- Hr, slice_full. unfold splice. f_equal. f_equal; [|f_equal].
  - rewrite <- Hp. unfold zlen. by rewrite Nat2Z.id, take_app_length.
  - rewrite <- Hp. unfold zlen. by rewrite Nat2Z.id, <- drop_drop, drop_app_length.
Qed.

(** the values are written one after the other *)
Lemma fill_record_tiles cols : forall values pre rest,
  Forall2 value_for cols values -> tiles (zlen pre) cols -> foldr Z.add 0 (cm_len <$> cols) <= zlen rest ->
  exists rest', Ins.fill_record (pre ++ rest) cols values tt = (Ok (pre ++ concat (raw_of <$> values) ++ rest'), tt) /\
    zlen rest' = zlen rest - foldr Z.add 0 (cm_len <$> cols).
Proof.
  induction cols as [|col cols IH]; intros values pre rest HF Ht Hl; inversion HF as [|? v ? vs Hv HF']; subst; cbn [Ins.fill_record].
  - exists rest. simpl. split; [done|lia].
  - destruct Ht as (Ho & Hn & Ht). pose proof (value_for_raw _ _ Hv) as Hz. pose proof Hv as (Hty & _ & raw & E & _). destruct v as [v o]. simpl in E. subst o.
    cbn in Hz. rewrite bool_decide_true by done. rewrite fmap_cons in Hl. cbn [foldr] in Hl.
    pose proof (tiles_nonneg _ _ Ht) as Hnn.
    rewrite (bind_ok _ _ tt tt tt), (bind_ok _ _ tt raw tt) by done.
    rewrite Ho, (memcpy_tile pre rest raw (zlen pre) (cm_len col)) by (done || lia). erewrite bind_ok by reflexivity.
    destruct (IH vs (pre ++ raw) (drop (length raw) rest) HF') as (rest' & E' & Hz').
    + rewrite zlen_app, Hz. done.
    + unfold zlen in *. rewrite length_drop. lia.
    + exists rest'. rewrite <- app_assoc in E'. rewrite E'. split; [simpl; by rewrite <- !app_assoc|].
      rewrite Hz'. rewrite fmap_cons. cbn [foldr]. unfold zlen in *. rewrite length_drop. lia.
Qed.

(** the record of a row that fills the table's columns *)
Lemma fill_record_ok cols values rec0 :
  Forall2 value_for cols values -> tiles 0 cols -> zlen rec0 = foldr Z.add 0 (cm_len <$> cols) ->
  Ins.fill_record rec0 cols values tt = (Ok (concat (raw_of <$> values)), tt).
Proof.
  intros HF Ht Hz. destruct (fill_record_tiles cols values [] rec0 HF Ht) as (rest' & E & Hz'); [lia|].
  destruct rest' as [|x rest']; [by rewrite app_nil_r in E|]. unfold zlen in *. simpl in Hz'. lia.
Qed.

(** each column of the record holds the bytes of its value *)
Lemma concat_tile cols : forall values off i col v,
  Forall2 value_for cols values -> tiles off cols -> cols !! i = Some col -> values !! i = Some v ->
  slice (cm_offset col - off) (cm_len col) (concat (raw_of <$> values)) = raw_of v /\
  in_range (cm_offset col - off) (cm_len col) (zlen (concat (raw_of <$> values))) = true.
Proof.
  induction cols as [|c cols IH]; intros values off i col v HF Ht Hc Hv; inversion HF as [|? w ? vs Hw HF']; subst; [by destruct i|].
  destruct Ht as (Ho & Hn & Ht). pose proof (value_for_raw _ _ Hw) as Hz. rewrite fmap_cons. cbn [concat]. destruct i as [|i]; simpl in Hc, Hv.
  - injection Hc as <-. injection Hv as <-. rewrite Ho, Z.sub_diag. split.
    + rewrite <- Hz. by apply slice_head.
    + apply in_range_spec. rewrite zlen_app. pose proof (zlen_nonneg (concat (raw_of <$> vs))). lia.
  - destruct (IH vs _ i col v HF' Ht Hc Hv) as [H1 H2]. apply in_range_spec in H2 as (H2 & H3 & H4). rewrite <- Hz in *. split.
    + rewrite <- H1. rewrite slice_app_r by lia. f_equal. lia.
    + apply in_range_spec. rewrite zlen_app. lia.
Qed.

Lemma fill_record_reads cols values i col v :
  Forall2 value_for cols values -> tiles 0 cols -> cols !! i = Some col -> values !! i = Some v ->
  Val.read_from_record (concat (raw_of <$> values)) col tt = (Ok v.1, tt).
Proof.
  intros HF Ht Hc Hv. destruct (concat_tile cols values 0 i col v HF Ht Hc Hv) as [H1 H2]. rewrite Z.sub_0_r in *.
  pose proof (Forall2_lookup_lr _ _ _ _ _ _ HF Hc Hv) as (Hty & Hok & raw & E & Hr). unfold raw_of in H1 at 2. rewrite E in H1. simpl in H1.
  by apply (read_raw v.1 col _ raw).
Qed.

(** a value of another type than its column *)
Lemma fill_record_mismatch cols values i col v : forall rec0,
  Forall2 value_for (take i cols) (take i values) -> cols !! i = Some col -> values !! i = Some v -> cm_type col <> Val.type v.1 ->
  Forall (fun c => in_range (cm_offset c) (cm_len c) (zlen rec0) = true) cols ->
  Ins.fill_record rec0 cols values tt = (Throw (IncompatibleTypeError (coltype2str (cm_type col)) (coltype2str (Val.type v.1))), tt).
Proof.
  revert cols values. induction i as [|i IH]; intros [|c cols] [|[w o] values] rec0 HF Hc Hv Hne Hin; try done; simpl in Hc, Hv; cbn [Ins.fill_record].
  - injection Hc as <-. injection Hv as <-. rewrite bool_decide_false by done. done.
  - simpl in HF. inversion HF as [|? ? ? ? Hw HF']; subst. pose proof (value_for_raw _ _ Hw) as Hz. destruct Hw as (Hty & _ & raw & E & _). simpl in E. subst o.
    cbn in Hz. apply Forall_cons in Hin as [Hc0 Hin]. rewrite bool_decide_true by done.
    rewrite (bind_ok _ _ tt tt tt), (bind_ok _ _ tt raw tt) by done. unfold memcpy. rewrite Hc0, Hz, Z.leb_refl. simpl.
    erewrite bind_ok by reflexivity. apply in_range_spec in Hc0. apply IH; try done. rewrite zlen_splice; [done|lia|]. rewrite <- Hz, slice_full. lia.
Qed.

(** ** The context of a transaction *)

(** what the page operations leave alone, with the names of the open files *)
Definition aparts (m : LogManager) (l : LockManager) (a : gmap Z (list Z)) (F : gmap Z string) (c : Core) : Prop :=
  apart m l a c /\ Fr.names (c_store c) = F.

Lemma aparts_framed m l a F : RmP.framed (aparts m l a F).
Proof.
  split; simpl; unfold zoom.
  - intros k c r c' E [H1 H2]. pose proof (Fr.frame_fetch_page k (c_store c)) as Hk. destruct (Bpm.fetch_page k (c_store c)). injection E as _ <-.
    split; [done|]. simpl in *. congruence.
  - intros k d c r c' E [H1 H2]. pose proof (Fr.frame_unpin_page k d (c_store c)) as Hk. destruct (Bpm.unpin_page k d (c_store c)). injection E as _ <-.
    split; [done|]. simpl in *. congruence.
  - intros f c r c' E [H1 H2]. pose proof (Fr.frame_new_page f (c_store c)) as Hk. destruct (Bpm.new_page f (c_store c)). injection E as _ <-.
    split; [done|]. simpl in *. congruence.
  - intros k c r c' E [H1 H2]. pose proof (Fr.frame_delete_page k (c_store c)) as Hk. destruct (Bpm.delete_page k (c_store c)). injection E as _ <-.
    split; [done|]. simpl in *. congruence.
  - intros f off w c r c' E [H1 H2]. pose proof (Fr.frame_write_frame f off w (c_store c)) as Hk. destruct (Bpm.write_frame f off w (c_store c)). injection E as _ <-.
    split; [done|]. simpl in *. congruence.
Qed.

(** the log record of a write *)
Definition write_log (lsn : Z) (t : Transaction) (w : WriteRecord) : LogRecord :=
  Log.upd_hdr (Log.set_lsn lsn) (Log.upd_hdr (Log.set_prev_lsn (so_far_lsn_ t)) (LogM.log_of_write (txn_id_ t) w)).

(** the log manager after a write was logged *)
Record wrote (m m' : LogManager) (b : list Z) (t : Transaction) (addr : Z) (w : WriteRecord) : Prop := {
  wr_buf : LogM.binv m' (b ++ Log.image (write_log (global_lsn_ m) t w));
  wr_latch : log_latch_ m' = false;
  wr_lsn : global_lsn_ m' = global_lsn_ m + 1;
  wr_addrs : write_rec_to_lsn_table_ m' = LogM.insert_new addr (global_lsn_ m) (write_rec_to_lsn_table_ m);
}.

Lemma gen_write_eq d m b t addr w :
  LogM.binv m b -> log_latch_ m = false -> 0 <= global_lsn_ m < 2 ^ 31 - 1 -> LogM.op_ok (LogM.OWrite t addr w) ->
  zlen b + zlen (Log.image (LogM.log_of_write (txn_id_ t) w)) <= LOG_BUFFER_SIZE ->
  exists m', LogM.gen_log_from_write_set t addr w (d, m) = (Ok (global_lsn_ m, set_so_far_lsn (global_lsn_ m) t), (d, m')) /\ wrote m m' b t addr w.
Proof.
  intros Hb Hl Hn Ho Hf. set (r := write_log (global_lsn_ m) t w).
  destruct (LogM.op_record_wf (LogM.OWrite t addr w) (global_lsn_ m) r Ho ltac:(unfold int32_ok; lia) eq_refl) as [Hwf _].
  set (tp := LogM.insert_new (global_lsn_ m) (prev_lsn_ (Log.hdr_of r)) (lsn_prevlsn_table_ m)).
  set (tw := LogM.insert_new addr (global_lsn_ m) (write_rec_to_lsn_table_ m)).
  destruct (LogM.add_log_fits d _ b r (LogM.entered_binv tp tw (d, m) b Hb) Hwf) as (m' & E & Hb' & H1 & H2 & _ & _ & _ & H3).
  { unfold r, write_log. by rewrite !Log.zlen_image_upd. }
  exists (LogM.set_latch false m'). split.
  - transitivity ((LogM.add_log_to_buffer r;; LogM.unlock_latch;; ret (global_lsn_ m, set_so_far_lsn (global_lsn_ m) t))%prog (LogM.entered tp tw (d, m))).
    + destruct m as [tp0 tw0 g l bu bl pl]. simpl in Hl. by subst l.
    + by rewrite (bind_ok _ _ _ _ _ E).
  - split; simpl; [by destruct Hb'; split|done|rewrite H2; simpl; apply wrap_id; lia|done].
Qed.

Section ctx.
Context (malloc : gmap Z (list Z) -> Z) (p : Z) (t : Transaction).
Context (m : LogManager) (l : LockManager) (a : gmap Z (list Z)) (F : gmap Z string) (b : list Z) (fd0 : Z).
Hypothesis (Ht : txns l !! p = Some t) (Hst : state_ t = DEFAULT \/ state_ t = GROWING).
Hypothesis (Hb : LogM.binv m b) (Hla : log_latch_ m = false) (Hlsn : 0 <= global_lsn_ m < 2 ^ 31 - 1).

(** the transaction, the locks and the addresses after a write *)
Definition after_txn (w : WriteRecord) : Transaction := append_write_record w (set_so_far_lsn (global_lsn_ m) t).
Definition after_locks (w : WriteRecord) : LockManager :=
  Lk.set_txn p (fun _ => after_txn w) (Lk.set_txn p (fun _ => set_so_far_lsn (global_lsn_ m) t) l).
Definition after_addrs : gmap Z (list Z) := <[p := default [] (a !! p) ++ [malloc a]]> a.

(** a write that can be logged: to the open file [fd0], with a record that fits *)
Definition loggable (fd : Z) (w : WriteRecord) : Prop :=
  fd = fd0 /\ exists name, F !! fd = Some name /\ (tab_name_ w = name -> LogM.op_ok (LogM.OWrite t (malloc a) w) /\
    zlen b + zlen (Log.image (LogM.log_of_write (txn_id_ t) w)) <= LOG_BUFFER_SIZE).
Definition written (w : WriteRecord) (c : Core) : Prop :=
  F !! fd0 = Some (tab_name_ w) /\ exists m', wrote m m' b t (malloc a) w /\ aparts m' (after_locks w) after_addrs F c.

Lemma written_framed w : RmP.framed (written w).
Proof.
  split; intros until 1; intros (Hn & m' & Hw & Hc); (split; [done|]); exists m'; (split; [done|]).
  - by eapply (RmP.fr_fetch _ (aparts_framed m' _ _ F)).
  - by eapply (RmP.fr_unpin _ (aparts_framed m' _ _ F)).
  - by eapply (RmP.fr_new _ (aparts_framed m' _ _ F)).
  - by eapply (RmP.fr_delete _ (aparts_framed m' _ _ F)).
  - by eapply (RmP.fr_write _ (aparts_framed m' _ _ F)).
Qed.

Lemma after_txn_lookup w : txns (after_locks w) !! p = Some (after_txn w).
Proof. simpl. by rewrite !lookup_alter_eq, Ht. Qed.

Lemma ws_gen_log_eq w c :
  aparts m l a F c -> LogM.op_ok (LogM.OWrite t (malloc a) w) ->
  zlen b + zlen (Log.image (LogM.log_of_write (txn_id_ t) w)) <= LOG_BUFFER_SIZE ->
  exists m', wrote m m' b t (malloc a) w /\
    Ws.gen_log malloc p w c = (Ok tt, set_locks (Lk.set_txn p (fun _ => set_so_far_lsn (global_lsn_ m) t) l) (set_log m' c)).
Proof.
  intros [(H1 & H2 & H3) HF] Ho Hf. destruct (gen_write_eq (disk (c_store c)) m b t (malloc a) w Hb Hla Hlsn Ho Hf) as (m' & E & Hw).
  exists m'. split; [done|]. unfold Ws.gen_log. rewrite <- H2 in Ht. rewrite (bind_ok _ _ _ _ _ (get_txn_eq p c t Ht)).
  erewrite bind_ok by reflexivity. rewrite H3. rewrite <- H1 in E. erewrite bind_ok; [|apply on_log_buf; exact E].
  rewrite put_txn_eq. simpl. by rewrite H1, H2.
Qed.

Lemma ws_append_eq w m' c :
  aparts m l a F c ->
  Ws.append malloc p w (set_locks (Lk.set_txn p (fun _ => set_so_far_lsn (global_lsn_ m) t) l) (set_log m' c)) =
  (Ok tt, set_addrs after_addrs (set_locks (after_locks w) (set_log m' c))).
Proof.
  intros [(H1 & H2 & H3) HF]. unfold Ws.append. erewrite bind_ok; [|apply get_txn_eq; simpl; by rewrite lookup_alter_eq, Ht].
  erewrite bind_ok; [|apply put_txn_eq]. unfold modify. simpl. unfold after_addrs. by rewrite H3.
Qed.

(** under any laws of the page store that look at the store only *)
Lemma ws_ctx_laws {PL : PageStoreLaws Core} :
  (forall c m l a, RmP.quiet c (mkCore (c_store c) m l a)) -> RmP.ctx_laws (aparts m l a F) loggable written (Ws.ctx malloc p).
Proof.
  intros Hq. split; simpl.
  - intros c [(H1 & H2 & H3) HF]. exists (state_ t), c. split; [|split; [apply quiet_refl|done]].
    rewrite (on_locks_eq _ c (state_ t) (c_locks c)); [by destruct c|]. unfold Lk.get_state, Lk.txn, gets, bind, deref. by rewrite H2, Ht.
  - intros c Hc. exists (so_far_lsn_ t), c. split; [|split; [apply quiet_refl|done]]. destruct Hc as [(_ & H2 & _) _]. rewrite <- H2 in Ht.
    by rewrite (bind_ok _ _ _ _ _ (get_txn_eq p c t Ht)).
  - intros fd c Hc (w0 & -> & name & Hn & _). exists name, c. split; [|split; [apply quiet_refl|]].
    + unfold on_store. erewrite zoom_eq; [|unfold Bpm.on_disk; apply zoom_eq; unfold Dsk.get_file_name].
      2:{ pose proof (proj2 Hc) as HF. unfold Fr.names in HF. rewrite HF, Hn. reflexivity. }
      by destruct c as [[] ? ? ?].
    + intros w (_ & name' & Hn' & Hok) _ Hname. assert (name' = name) as -> by congruence. destruct (Hok Hname) as [Ho Hf].
      destruct (ws_gen_log_eq w c Hc Ho Hf) as (m' & Hw & E). eexists _, _. split; [exact E|]. split; [by apply ws_append_eq|].
      split; [exact (Hq c _ _ _)|]. split; [exact (Hq (set_locks _ (set_log m' c)) _ _ _)|]. split; [by rewrite Hname|]. exists m'. split; [done|]. destruct Hc as [_ HF]. by split.
  - intros w c (Hn & m' & Hw & (H1 & H2 & H3) & HF). exists (so_far_lsn_ (after_txn w)), c. split; [|split; [apply quiet_refl|split; [by split; [|exists m']|done]]].
    pose proof (after_txn_lookup w) as Ha. rewrite <- H2 in Ha. by rewrite (bind_ok _ _ _ _ _ (get_txn_eq p c _ Ha)).
Qed.
End ctx.

(** what depends on the store only *)
Lemma within_quiet g c0 (J : Store -> Prop) (HJ : RmP.framed_in g (fun c => J (c_store c))) (c : Core) m l a :
  RmP.quiet (PL := Within.within g c0 _ HJ) c (mkCore (c_store c) m l a).
Proof. split; try done. intros [Hi [[] HJc]]. split; [done|]. split; [by split|done]. Qed.
Lemma any_kept g : RmP.framed_in (S := Core) g (fun _ => True).
Proof. by split. Qed.

(** ** What a lock request does to its transaction *)

(** [t] growing, with the locks [ls] *)
Definition holding (t : Transaction) (ls : gset LockDataId) : Transaction := set_lock_set (fun _ => ls) (set_state GROWING t).

(** a computation that leaves a growing transaction as it is, but for its locks *)
Definition stays {A} (p : Z) (m : Prog LockManager A) : Prop :=
  forall s t ls, txns s !! p = Some (holding t ls) -> exists ls', txns (m s).2 !! p = Some (holding t ls').

Section stays.
Import Lk.
Context (p : Z).
Local Open Scope prog_scope.

Lemma stays_bind {A B} (m : Prog LockManager A) (k : A -> Prog LockManager B) : stays p m -> (forall a, stays p (k a)) -> stays p (bind m k).
Proof.
  intros Hm Hk s t ls Hs. destruct (Hm s t ls Hs) as [ls' Hs']. unfold bind. destruct (m s) as [[x|e|f] s']; simpl in *; [by apply (Hk x s' t ls')|eauto..].
Qed.
Lemma stays_pure {A} (m : Prog LockManager A) : (forall s, (m s).2 = s) -> stays p m.
Proof. intros Hm s t ls Hs. rewrite Hm. eauto. Qed.
Lemma stays_table f : stays p (modify (set_table f)).
Proof. intros s t ls Hs. simpl. eauto. Qed.
Lemma stays_lock_set f : stays p (modify (set_txn p (set_lock_set f))).
Proof. intros s t ls Hs. simpl. rewrite lookup_alter_eq, Hs. exists (f ls). done. Qed.
Lemma stays_txn : stays p (txn p).
Proof. intros s t ls Hs. unfold txn, gets, bind, deref. rewrite Hs. eauto. Qed.
Lemma stays_queue id : stays p (queue id).
Proof. apply stays_bind; [apply stays_table|]. intros _. by apply stays_pure. Qed.
Lemma stays_id : stays p (get_transaction_id p).
Proof. apply stays_bind; [apply stays_txn|]. intros t. by apply stays_pure. Qed.
Lemma stays_grant id mode : stays p (grant p id mode).
Proof. apply stays_bind; [apply stays_id|]. intros me. apply stays_bind; [apply stays_table|]. intros _. apply stays_lock_set. Qed.
Lemma stays_growing : stays p (growing p).
Proof.
  intros s t ls Hs. exists ls. rewrite LkP.growing_alive; [|eexists; split; [exact Hs|done]]. simpl. by rewrite lookup_alter_eq, Hs.
Qed.

(** the body of a table lock after the check of the phase *)
Lemma stays_lock_table bad mode fd : stays p (lock_table bad mode p fd).
Proof.
  apply stays_bind; [apply stays_growing|]. intros _. apply stays_bind; [apply stays_queue|]. intros q. apply stays_bind; [apply stays_id|]. intros me.
  destruct (conflict bad me q); [by apply stays_pure|]. apply stays_bind; [apply stays_grant|]. intros _. by apply stays_pure.
Qed.
Lemma stays_scan me q : stays p (scan_exclusive me q).
Proof.
  induction q as [|r q IH]; [by apply stays_pure|]. apply stays_bind; [apply stays_pure; by destruct (is_mode _ _)|]. intros _.
  destruct (negb _); [by apply stays_pure|exact IH].
Qed.
Lemma stays_exclusive rid fd : stays p (lock_exclusive_on_record p rid fd).
Proof.
  apply stays_bind; [apply stays_growing|]. intros _. apply stays_bind; [apply stays_queue|]. intros _.
  apply stays_bind; [apply stays_lock_table|]. intros ok. destruct (negb ok); [by apply stays_pure|].
  apply stays_bind; [apply stays_queue|]. intros q. apply stays_bind; [apply stays_id|]. intros me. apply stays_bind; [apply stays_scan|]. intros free.
  destruct (negb free); [by apply stays_pure|]. apply stays_bind; [apply stays_grant|]. intros _. by apply stays_pure.
Qed.

(** a lock on a table that is granted *)
Lemma table_lock_granted bad mode fd s t : LkP.exact bad mode ->
  LkP.linv s -> txns s !! p = Some t -> state_ t = DEFAULT \/ state_ t = GROWING -> LkP.free_for s p (table_lock_id fd) mode ->
  exists s' ls r, lock_table bad mode p fd s = (Ok true, s') /\ LkP.linv s' /\ txns s' !! p = Some (holding t ls) /\
    (forall j, j <> table_lock_id fd -> lock_table_ s' !! j = lock_table_ s !! j) /\
    LkP.holds_lock s' (table_lock_id fd) r /\ req_txn_id r = p /\ lock_mode_ r = mode.
Proof.
  intros Hex Hi Ht Hst Hf. assert (Hal : LkP.alive p s) by (exists t; split; [done|]; intros E; rewrite E in Hst; by destruct Hst).
  pose proof (LkP.lock_table_safe _ _ p fd s Hex Hi (elem_of_dom_2 _ _ _ Ht)) as Hs.
  pose proof (LkP.calm_lock_table p bad mode fd s Hal) as Hc.
  assert (Hls : exists ls, txns (lock_table bad mode p fd s).2 !! p = Some (holding t ls)).
  { unfold lock_table. rewrite (bind_ok _ _ _ _ _ (LkP.growing_alive p s Hal)).
    assert (H1 : txns (set_txn p (set_state GROWING) s) !! p = Some (holding t (lock_set_ t))) by (simpl; by rewrite lookup_alter_eq, Ht; destruct t).
    refine (stays_bind _ _ (stays_queue _) _ _ _ _ H1). intros q. apply stays_bind; [apply stays_id|]. intros me.
    destruct (conflict _ me q); [by apply stays_pure|]. apply stays_bind; [apply stays_grant|]. intros _. by apply stays_pure. }
  destruct Hls as [ls Hls]. destruct Hs as (Hi' & _ & Hs).
  destruct (lock_table _ _ p fd s) as [[g|e|f] s']; [|done|done]. simpl in *. destruct Hs as (Hiff & Hown & Hoth).
  assert (g = true) as -> by (by apply Hiff). destruct (Hown eq_refl) as (r & q & Hq & Hr & Hrp & Hrm). exists s', ls, r. split_and!; try done. by exists q.
Qed.

(** an intention lock, which stays free for the transaction *)
Lemma lock_IX_granted fd s t :
  LkP.linv s -> txns s !! p = Some t -> state_ t = DEFAULT \/ state_ t = GROWING -> LkP.free_for s p (table_lock_id fd) LockMode.IX ->
  exists s' ls, lock_IX_on_table p fd s = (Ok true, s') /\ LkP.linv s' /\ txns s' !! p = Some (holding t ls) /\
    (forall j, j <> table_lock_id fd -> lock_table_ s' !! j = lock_table_ s !! j) /\ LkP.free_for s' p (table_lock_id fd) LockMode.IX.
Proof.
  intros Hi Ht Hst Hf. destruct (table_lock_granted _ _ fd s t LkP.exact_IX Hi Ht Hst Hf) as (s' & ls & r & E & Hi' & Ht' & Hoth & (q & Hq & Hr) & Hrp & Hrm).
  exists s', ls. split_and!; try done. intros q' r' Hq' Hr' Hne. rewrite Hq in Hq'. injection Hq' as <-.
  rewrite <- Hrm. apply (LkP.li_compat _ Hi' _ _ _ _ Hq); congruence.
Qed.

(** an exclusive lock on a record that is granted *)
Lemma lock_X_granted rid fd s t ls :
  LkP.linv s -> txns s !! p = Some (holding t ls) -> LkP.free_for s p (table_lock_id fd) LockMode.IX -> LkP.free_for s p (record_lock_id fd rid) LockMode.X ->
  exists s' ls' r, lock_exclusive_on_record p rid fd s = (Ok true, s') /\ LkP.linv s' /\ txns s' !! p = Some (holding t ls') /\
    LkP.holds_lock s' (record_lock_id fd rid) r /\ req_txn_id r = p /\ lock_mode_ r = LockMode.X.
Proof.
  intros Hi Ht H1 H2. assert (Hal : LkP.alive p s) by (by exists (holding t ls)).
  pose proof (LkP.lock_exclusive_on_record_safe p rid fd s Hi (elem_of_dom_2 _ _ _ Ht)) as (Hi' & _ & Hs).
  pose proof (LkP.calm_exclusive p rid fd s Hal) as Hc. destruct (stays_exclusive rid fd s t ls Ht) as [ls' Hls].
  destruct (lock_exclusive_on_record p rid fd s) as [[g|e|f] s']; [|done|done]. simpl in *. destruct Hs as [Hiff Hex].
  assert (g = true) as -> by (by apply Hiff). destruct (Hex eq_refl) as (r & q & Hq & Hr & Hp & Hm).
  exists s', ls', r. split_and!; try done; [by exists q|by destruct Hm].
Qed.
End stays.

(** ** The insertion *)

Lemma init_raw_bytes v len raw : Val.init_raw v len tt = (Ok raw, tt) -> bytes_ok raw.
Proof.
  destruct v as [i|i|w|x|i]; cbn [Val.init_raw].
  1-3, 5: destruct (len =? _); [|done]; intros [= <-]; first [apply le_bytes_ok | exact (le_bytes_ok 4 w)].
  destruct (len <? _); [done|]. intros [= <-]. apply bytes_ok_app. split; [apply string_bytes_ok|apply bytes_ok_zeros].
Qed.

Lemma row_bytes cols values : Forall2 value_for cols values -> bytes_ok (concat (raw_of <$> values)).
Proof.
  induction 1 as [|c v cols values (_ & _ & raw & E & Hr) _ IH]; [constructor|]. rewrite fmap_cons. cbn [concat]. apply bytes_ok_app. split; [|done].
  unfold raw_of. rewrite E. simpl. by eapply init_raw_bytes.
Qed.

Lemma row_size cols values : Forall2 value_for cols values -> zlen (concat (raw_of <$> values)) = foldr Z.add 0 (cm_len <$> cols).
Proof.
  induction 1 as [|c v cols values Hv _ IH]; [done|]. rewrite !fmap_cons. cbn [concat foldr]. rewrite zlen_app, IH. by rewrite (value_for_raw _ _ Hv).
Qed.

(** the length of the log record of an insertion *)
Definition insert_log_len (rs : Z) (name : string) : Z :=
  LOG_HEADER_SIZE + (4 + rs + (Log.sizeof_Rid + (Log.sizeof_size_t + zlen (string_bytes name)))).

(** the row may be inserted into the table *)
Record can_insert (junk : Z -> list Z) (s : SmManager Core) (p : Z) (t : Transaction) (tab : string) (ti : TabMeta) (h : RmFileHandle)
    (pages : gmap Z apage) (chain : list Z) (name : string) (values : list RawValue) (b : list Z) : Prop := {
  ci_db : writer (db_latch_ s) = false;
  ci_sm : writer (sm_latch_ s) = false;
  ci_tab : Meta.get_table (db_ s) tab = inr ti;
  ci_fh : fhs_ s !! tab = Some h;
  ci_rep : rep (sm_core s) h pages chain;
  ci_room : chain = [] -> num_pages (file_hdr_ h) < 2 ^ 19;
  ci_junk : forall n, 0 <= n -> zlen (junk n) = n;
  ci_cols : tiles 0 (tm_cols ti);
  ci_size : record_size (file_hdr_ h) = foldr Z.add 0 (cm_len <$> tm_cols ti);
  ci_values : Forall2 value_for (tm_cols ti) values;
  ci_locks : LkP.linv (c_locks (sm_core s));
  ci_txn : txns (c_locks (sm_core s)) !! p = Some t;
  ci_state : state_ t = DEFAULT \/ state_ t = GROWING;
  ci_ids : LogM.txn_ok t;
  ci_free : LkP.free_for (c_locks (sm_core s)) p (table_lock_id (fd_ h)) LockMode.IX;
  ci_rid_free : forall rid, RmP.rec_at pages rid = None -> LkP.free_for (c_locks (sm_core s)) p (record_lock_id (fd_ h) rid) LockMode.X;
  ci_name : Fr.names (c_store (sm_core s)) !! fd_ h = Some name;
  ci_buf : LogM.binv (c_log (sm_core s)) b;
  ci_latch : log_latch_ (c_log (sm_core s)) = false;
  ci_lsn : 0 <= global_lsn_ (c_log (sm_core s)) < 2 ^ 31 - 1;
  ci_fits : zlen b + insert_log_len (record_size (file_hdr_ h)) name <= LOG_BUFFER_SIZE;
}.

Lemma make_eq rid0 junk s p t tab ti h pages chain name values b :
  can_insert junk s p t tab ti h pages chain name values b ->
  Ins.make rid0 tab values p s = (Ok (mkInsertExecutor ti values tab tab rid0 p), s).
Proof.
  intros Hc. unfold Ins.make. rewrite (bind_ok _ _ _ _ _ (SmSt.read_table_ok tab ti s (ci_db _ _ _ _ _ _ _ _ _ _ _ _ Hc) (ci_tab _ _ _ _ _ _ _ _ _ _ _ _ Hc))).
  rewrite (proj2 (Nat.eqb_eq _ _)) by (symmetry; eapply Forall2_length; exact (ci_values _ _ _ _ _ _ _ _ _ _ _ _ Hc)).
  erewrite bind_ok by reflexivity.
  by rewrite (bind_ok _ _ _ _ _ (SmSt.read_fh_ok tab h s (ci_sm _ _ _ _ _ _ _ _ _ _ _ _ Hc) (ci_fh _ _ _ _ _ _ _ _ _ _ _ _ Hc))).
Qed.

(** the log record of a row *)
Lemma row_args_ok tid rid hd name row :
  Log.fits (insert_log_len (record_size hd) name) -> hdr_ok hd -> int32_ok tid -> zlen row = record_size hd -> bytes_ok row ->
  1 <= rid_page_no rid <= 2 ^ 19 -> valid_slot hd (rid_slot_no rid) ->
  let v := RmRecord_of (record_size hd) row in
  LogM.args_ok tid rid v v (Log.make_insert tid v rid name) /\ zlen (Log.image (Log.make_insert tid v rid name)) = insert_log_len (record_size hd) name.
Proof.
  intros Hfits Hhd Hok Hz Hby Hp [Hs1 Hs2] v. destruct Hhd as [H1 H2 _ _ _]. unfold RM_MAX_RECORD_SIZE in H1.
  assert (Hrec : Log.rec_ok v).
  { unfold v, RmRecord_of. rewrite <- Hz, slice_full. split; simpl; try done. unfold int32_ok. lia. }
  assert (Hlen : zlen (Log.image (Log.make_insert tid v rid name)) = insert_log_len (record_size hd) name).
  { unfold Log.make_insert. cbn [Log.image]. rewrite !zlen_app, Log.zlen_image_hdr, Log.zlen_image_rec, Log.zlen_image_tail by done. done. }
  split; [|done]. split_and!; try done; [|by rewrite Hlen]. unfold Log.rid_ok, int32_ok. lia.
Qed.

(** the write of a row that fits can be logged *)
Lemma row_loggable malloc a F t hd name b row :
  Log.fits (insert_log_len (record_size hd) name) -> hdr_ok hd -> LogM.txn_ok t -> zlen row = record_size hd -> bytes_ok row ->
  zlen b + insert_log_len (record_size hd) name <= LOG_BUFFER_SIZE ->
  forall fd, F !! fd = Some name -> forall nm rid, 1 <= rid_page_no rid <= 2 ^ 19 -> valid_slot hd (rid_slot_no rid) ->
  loggable malloc t a F b fd fd (RmP.ins_write nm rid hd row).
Proof.
  intros Hfits Hhd Hok Hz Hby Hf fd HF nm rid Hp Hs. split; [done|]. exists name. split; [done|]. intros Hnm. simpl in Hnm. subst nm.
  destruct (row_args_ok (txn_id_ t) rid hd name row Hfits Hhd (proj1 Hok) Hz Hby Hp Hs) as [Ha Hlen].
  unfold LogM.log_of_write, RmP.ins_write. cbn [wtype_ record_ rid_ tab_name_]. by rewrite Hlen.
Qed.

Lemma idx_hdls_none ti (s : SmManager Core) : writer (sm_latch_ s) = false -> tm_indexes ti = [] -> Dml.idx_hdls ti s = (Ok [], s).
Proof.
  intros Hw Hix. destruct s as [c d l f i [r w]]. simpl in Hw. subst w. unfold Dml.idx_hdls. rewrite Hix.
  unfold SmSt.latch_shared, SmSt.try_mutex, SmSt.lock_shared, SmSt.unlatch_shared, modify, bind. simpl.
  unfold ret, SmSt.set_sm_latch, SmSt.unlock_shared. simpl. by rewrite Z.add_simpl_r.
Qed.

Lemma on_file_get {A} tab h (f : RmFileHdr -> A) (s : SmManager Core) :
  fhs_ s !! tab = Some h -> SmSt.on_file tab (let* hd := Rm.hdr in ret (f hd))%prog s = (Ok (f (file_hdr_ h)), s).
Proof.
  intros Hh. rewrite (on_table_file_eq tab _ s h (f (file_hdr_ h)) (sm_core s) h Hh); [|done]. destruct s. unfold with_file, SmSt.set_fhs, SmSt.set_core. simpl in *.
  by rewrite insert_id.
Qed.
Lemma on_file_fd tab h (s : SmManager Core) : fhs_ s !! tab = Some h -> SmSt.on_file tab Rm.get_fd s = (Ok (fd_ h), s).
Proof.
  intros Hh. rewrite (on_table_file_eq tab _ s h (fd_ h) (sm_core s) h Hh); [|done]. destruct s. unfold with_file, SmSt.set_fhs, SmSt.set_core. simpl in *.
  by rewrite insert_id.
Qed.

Lemma dml_locks_eq {A} (m : Prog LockManager A) s a l' :
  m (c_locks (sm_core s)) = (Ok a, l') -> Dml.locks m s = (Ok a, SmSt.set_core (set_locks l' (sm_core s)) s).
Proof. intros E. unfold Dml.locks, SmSt.on_core. apply zoom_eq. by apply on_locks_eq. Qed.

Section next.
Context (malloc : gmap Z (list Z) -> Z) (ifuel : nat) (junk : Z -> list Z).
Context (s : SmManager Core) (p : Z) (t : Transaction) (tab : string) (ti : TabMeta) (h : RmFileHandle).
Context (pages : gmap Z apage) (chain : list Z) (name : string) (values : list RawValue) (b : list Z).
Hypothesis Hc : can_insert junk s p t tab ti h pages chain name values b.
(** anything about the store that the operations on the pages of the table keep *)
Context (J : Store -> Prop) (HJ : RmP.framed_in (fd_ h) (fun c => J (c_store c))) (HJs : J (c_store (sm_core s))).
Local Open Scope prog_scope.

Definition row : list Z := concat (raw_of <$> values).

Lemma row_fits : Log.fits (insert_log_len (record_size (file_hdr_ h)) name).
Proof.
  destruct Hc. destruct (RmP.rp_hdr _ _ _ _ _ ci_rep0) as [Hrs _ _ _ _]. pose proof (zlen_nonneg b). pose proof (zlen_nonneg (string_bytes name)).
  assert (Hbs : LOG_BUFFER_SIZE = 4194304) by reflexivity. assert (Hh : LOG_HEADER_SIZE = 24) by reflexivity.
  unfold Log.fits, insert_log_len, Log.sizeof_Rid, Log.sizeof_size_t in *. lia.
Qed.

(** the insertion into the file, once the table is locked *)
Lemma insert_record_logged l1 ls :
  txns l1 !! p = Some (holding t ls) ->
  exists rid c2 h2 pages2 chain2 m2, let w := RmP.ins_write name rid (file_hdr_ h) row in
    Rm.insert_record (Some (Ws.ctx malloc p)) row (set_locks l1 (sm_core s), h) = (Ok rid, (c2, h2)) /\
    rep c2 h2 pages2 chain2 /\ RmP.inserted h pages pages2 rid row /\
    wrote (c_log (sm_core s)) m2 b t (malloc (c_addrs (sm_core s))) w /\ c_log c2 = m2 /\
    c_locks c2 = after_locks p (holding t ls) (c_log (sm_core s)) l1 w /\ c_addrs c2 = after_addrs malloc p (c_addrs (sm_core s)) /\
    record_size (file_hdr_ h2) = record_size (file_hdr_ h) /\ fd_ h2 = fd_ h /\ RmP.one_page (fd_ h) (sm_core s) c2 /\ Fr.names (c_store c2) = Fr.names (c_store (sm_core s)) /\ J (c_store c2).
Proof.
  intros Ht1. set (core := sm_core s) in *. pose proof row_fits as Hfits. destruct Hc. pose proof (row_size _ _ ci_values0) as Hsz. fold row in Hsz.
  assert (Hrep1 : RmP.rep (aparts (c_log core) l1 (c_addrs core) (Fr.names (c_store core))) (set_locks l1 core) h pages chain).
  { apply RmP.rep_ctx; [by apply rep_set_locks|]. done. }
  apply (Within.rep_within (fd_ h) (set_locks l1 core) _ HJ) in Hrep1; [|done|split; [apply Within.apart_from_refl|exact HJs]].
  destruct (RmP.insert_record_frame _ _ _ (aparts_framed _ _ _ _) (written_framed malloc p (holding t ls) (c_log core) l1 (c_addrs core) (Fr.names (c_store core)) b (fd_ h))
    (set_locks l1 core) h pages chain (Some (Ws.ctx malloc p)) row Hrep1
    (ws_ctx_laws malloc p (holding t ls) (c_log core) l1 (c_addrs core) (Fr.names (c_store core)) b (fd_ h) Ht1 (or_intror eq_refl) ci_buf0 ci_latch0 ci_lsn0 (within_quiet _ _ J HJ)))
    as (rid & [c2 h2] & E & nm & pages2 & chain2 & Hrep2 & Hfd2 & Hrs2 & Hins & Hone).
  { intros nm rid Hp Hs. eapply row_loggable; try done; [by apply (RmP.rp_hdr _ _ _ _ _ ci_rep0)|by rewrite Hsz|by eapply row_bytes|].
    pose proof (RmP.rp_range _ _ _ _ _ ci_rep0). lia. }
  { rewrite Hsz, ci_size0. lia. }
  { done. }
  simpl in Hrep2, Hins, Hone. apply Within.rep_outside in Hrep2 as [Hrep2 Hkept]. apply Within.one_page_outside in Hone; [|done|apply Hkept].
  destruct (RmP.rp_ctx _ _ _ _ _ Hrep2) as (Hn & m2 & Hw & (H1 & H2 & H3) & Hnm). change (Fr.names (c_store (sm_core s)) !! fd_ h = Some nm) in Hn.
  assert (nm = name) as -> by congruence.
  assert (Hrow : slice 0 (record_size (file_hdr_ h)) row = row) by (rewrite ci_size0, <- Hsz; apply slice_full). rewrite Hrow in Hins.
  exists rid, c2, h2, pages2, chain2, m2. split_and!; try done; [by eapply RmP.rep_any|by destruct Hw; split|by destruct Hone as ((k & Hk & []) & ? & ? & ?); split_and!; [exists k; split; [done|by split]|..]|apply Hkept].
Qed.

(** [Next] once the record is made *)
Lemma insert_next_eq rid0 : Ins.next malloc ifuel junk (mkInsertExecutor ti values tab tab rid0 p) s =
  (let* hdls := Dml.idx_hdls ti in
   for_each (zip (tm_indexes ti) hdls) (Ins.check_unique ifuel junk row);;
   let* fd := SmSt.on_file tab Rm.get_fd in
   let* ok := Dml.locks (Lk.lock_IX_on_table p fd) in
   (if ok : bool then ret tt else Dml.abort_with p GET_LOCK_FAILED);;
   let* rid := SmSt.on_file tab (Rm.insert_record (Some (Ws.ctx malloc p)) row) in
   let* ok := Dml.locks (Lk.lock_exclusive_on_record p rid fd) in
   (if ok : bool then ret tt else Dml.abort_with p GET_LOCK_FAILED);;
   for_each (zip (tm_indexes ti) hdls) (fun i => assert (0 <=? im_col_num i.1);; Dml.add_key ifuel junk i row rid);;
   ret rid) s.
Proof.
  pose proof Hc as []. unfold Ins.next. cbn [ie_fh_ ie_tab_ ie_values_ ie_txn_]. rewrite (bind_ok _ _ _ _ _ (on_file_get tab h record_size s ci_fh0)).
  rewrite (bind_ok _ _ s row s); [done|]. unfold pure_call. rewrite (fill_record_ok (tm_cols ti) values); try done. rewrite ci_size0, ci_junk0; [done|]. by eapply tiles_nonneg.
Qed.

(** the three steps that take the locks and insert the record *)
Lemma insert_steps : exists rid s1 s2 s3 h' pages' chain' ls, let w := RmP.ins_write name rid (file_hdr_ h) row in
    Dml.locks (Lk.lock_IX_on_table p (fd_ h)) s = (Ok true, s1) /\ SmSt.on_file tab (Rm.insert_record (Some (Ws.ctx malloc p)) row) s1 = (Ok rid, s2) /\
    Dml.locks (Lk.lock_exclusive_on_record p rid (fd_ h)) s2 = (Ok true, s3) /\
    fhs_ s3 = <[tab := h']> (fhs_ s) /\ rep (sm_core s3) h' pages' chain' /\ RmP.inserted h pages pages' rid row /\
    wrote (c_log (sm_core s)) (c_log (sm_core s3)) b t (malloc (c_addrs (sm_core s))) w /\
    LkP.linv (c_locks (sm_core s3)) /\
    txns (c_locks (sm_core s3)) !! p = Some (holding (append_write_record w (set_so_far_lsn (global_lsn_ (c_log (sm_core s))) t)) ls) /\
    (exists r, LkP.holds_lock (c_locks (sm_core s3)) (record_lock_id (fd_ h) rid) r /\ req_txn_id r = p /\ lock_mode_ r = LockMode.X) /\
    db_ s3 = db_ s /\ c_addrs (sm_core s3) = after_addrs malloc p (c_addrs (sm_core s)) /\ record_size (file_hdr_ h') = record_size (file_hdr_ h) /\
    fd_ h' = fd_ h /\ RmP.one_page (fd_ h) (sm_core s) (sm_core s3) /\ Fr.names (c_store (sm_core s3)) = Fr.names (c_store (sm_core s)) /\ ihs_ s3 = ihs_ s /\ J (c_store (sm_core s3)).
Proof.
  pose proof Hc as []. destruct (lock_IX_granted p (fd_ h) _ t ci_locks0 ci_txn0 ci_state0 ci_free0) as (l1 & ls1 & E1 & Hi1 & Ht1 & Hoth1 & Hfree1).
  destruct (insert_record_logged l1 ls1 Ht1) as (rid & c2 & h2 & pages2 & chain2 & m2 & E2 & Hrep2 & Hins & Hw & Hm2 & Hl2 & Ha2 & Hrs2 & Hfd2 & Hone & Hnm & HJ2).
  set (w := RmP.ins_write name rid (file_hdr_ h) row) in *.
  set (t2 := append_write_record w (set_so_far_lsn (global_lsn_ (c_log (sm_core s))) t)).
  assert (Ht2 : txns (c_locks c2) !! p = Some (holding t2 ls1)) by (rewrite Hl2; simpl; by rewrite !lookup_alter_eq, Ht1).
  assert (Hi2 : LkP.linv (c_locks c2)).
  { rewrite Hl2. unfold after_locks. eapply linv_put; [simpl; by rewrite lookup_alter_eq, Ht1|done|done|]. by eapply linv_put. }
  destruct (lock_X_granted p rid (fd_ h) (c_locks c2) t2 ls1 Hi2 Ht2) as (l3 & ls3 & r & E3 & Hi3 & Ht3 & Hr).
  { apply (LkP.free_for_same l1); [by rewrite Hl2|done]. }
  { apply (LkP.free_for_same (c_locks (sm_core s))); [rewrite Hl2; simpl; by apply Hoth1|]. apply ci_rid_free0, Hins. }
  apply dml_locks_eq in E1. set (s1 := SmSt.set_core (set_locks l1 (sm_core s)) s) in *.
  assert (Hfh1 : fhs_ s1 !! tab = Some h) by done. apply (on_table_file_eq tab _ s1 h rid c2 h2 Hfh1) in E2.
  set (s2 := with_file tab c2 h2 s1) in *. change (c_locks c2) with (c_locks (sm_core s2)) in E3. apply dml_locks_eq in E3.
  eexists rid, _, _, _, h2, pages2, chain2, ls3. split; [exact E1|]. split; [exact E2|]. split; [exact E3|].
  simpl. split; [done|]. split; [by apply rep_set_locks|]. split; [done|]. split; [by rewrite Hm2|]. split; [done|]. split; [done|]. split; [by exists r|].
  split_and!; try done. destruct Hone as ((k & Hk & []) & ? & ? & ?). split_and!; try done. exists k. split; [done|by split].
Qed.

(** [Next], when there is no index *)
Lemma insert_next_spec rid0 : tm_indexes ti = [] ->
  exists rid s' h' pages' chain' ls, let w := RmP.ins_write name rid (file_hdr_ h) row in
    Ins.next malloc ifuel junk (mkInsertExecutor ti values tab tab rid0 p) s = (Ok rid, s') /\
    fhs_ s' = <[tab := h']> (fhs_ s) /\ rep (sm_core s') h' pages' chain' /\ RmP.inserted h pages pages' rid row /\
    wrote (c_log (sm_core s)) (c_log (sm_core s')) b t (malloc (c_addrs (sm_core s))) w /\
    LkP.linv (c_locks (sm_core s')) /\
    txns (c_locks (sm_core s')) !! p = Some (holding (append_write_record w (set_so_far_lsn (global_lsn_ (c_log (sm_core s))) t)) ls) /\
    (exists r, LkP.holds_lock (c_locks (sm_core s')) (record_lock_id (fd_ h) rid) r /\ req_txn_id r = p /\ lock_mode_ r = LockMode.X) /\
    db_ s' = db_ s /\ c_addrs (sm_core s') = after_addrs malloc p (c_addrs (sm_core s)) /\ record_size (file_hdr_ h') = record_size (file_hdr_ h) /\ fd_ h' = fd_ h /\ J (c_store (sm_core s')).
Proof.
  intros Hnoix. destruct insert_steps as (rid & s1 & s2 & s3 & h2 & pages2 & chain2 & ls & E1 & E2 & E3 & H1 & H2 & H3 & H4 & H5 & H6 & H7 & H8 & H9 & H10 & H12 & _ & _ & _ & H11).
  exists rid, s3, h2, pages2, chain2, ls. split; [|by split_and!]. rewrite insert_next_eq, Hnoix. rewrite (bind_ok _ _ _ _ _ (idx_hdls_none ti s (ci_sm _ _ _ _ _ _ _ _ _ _ _ _ Hc) Hnoix)). cbn [zip zip_with for_each].
  erewrite bind_ok by reflexivity. rewrite (bind_ok _ _ _ _ _ (on_file_fd tab h s (ci_fh _ _ _ _ _ _ _ _ _ _ _ _ Hc))), (bind_ok _ _ _ _ _ E1).
  erewrite bind_ok by reflexivity. rewrite (bind_ok _ _ _ _ _ E2), (bind_ok _ _ _ _ _ E3). do 2 (erewrite bind_ok by reflexivity). reflexivity.
Qed.
End next.
End InsP.

(** * Properties *)

(** The record [InsertExecutor] builds is well typed: with values of the types of the columns, in the bytes
    [init_raw] gives them, every byte of the record is written, and reading any column of it gives the value of
    that column; the first value of another type than its column is refused with [IncompatibleTypeError]. *)
Theorem insert_row_typed cols values rec0 :
  InsP.tiles 0 cols -> zlen rec0 = foldr Z.add 0 (cm_len <$> cols) ->
  (Forall2 InsP.value_for cols values ->
   exists rec, Ins.fill_record rec0 cols values tt = (Ok rec, tt) /\ zlen rec = zlen rec0 /\
     forall i col v, cols !! i = Some col -> values !! i = Some v -> Val.read_from_record rec col tt = (Ok v.1, tt)) /\
  (forall i col v, Forall2 InsP.value_for (take i cols) (take i values) -> cols !! i = Some col -> values !! i = Some v ->
   cm_type col <> Val.type v.1 ->
   Ins.fill_record rec0 cols values tt = (Throw (IncompatibleTypeError (coltype2str (cm_type col)) (coltype2str (Val.type v.1))), tt)).
Proof.
  intros Ht Hz. split.
  - intros HF. exists (concat (InsP.raw_of <$> values)). split; [by apply (InsP.fill_record_ok cols)|]. split; [by rewrite (InsP.row_size cols)|].
    intros i col v Hc Hv. by apply (InsP.fill_record_reads cols values i).
  - intros i col v HF Hc Hv Hne. apply (InsP.fill_record_mismatch cols values i col v); try done. by apply InsP.tiles_range.
Qed.

(** An INSERT into a table without indexes, from the executor's construction to its [Next], adds exactly one
    record, at a free record id, whose columns read as the given values; the insertion is the last write of
    the transaction's write set and is in the log buffer after what was there, and the transaction, growing, has an exclusive
    lock on the record. *)
Theorem insert_executor_correct malloc ifuel junk rid0 s p t tab ti h pages chain name values b :
  InsP.can_insert junk s p t tab ti h pages chain name values b -> tm_indexes ti = [] ->
  exists e rid s' h' pages' chain' row t', let w := RmP.ins_write name rid (file_hdr_ h) row in
    Ins.make rid0 tab values p s = (Ok e, s) /\ Ins.next malloc ifuel junk e s = (Ok rid, s') /\
    fhs_ s' !! tab = Some h' /\ RmP.rep (fun _ => True) (sm_core s') h' pages' chain' /\
    RmP.rec_at pages rid = None /\
    (forall r, RmP.rec_at pages' r = if decide (r = rid) then Some row else RmP.rec_at pages r) /\
    (forall i col v, tm_cols ti !! i = Some col -> values !! i = Some v -> Val.read_from_record row col tt = (Ok v.1, tt)) /\
    txns (c_locks (sm_core s')) !! p = Some t' /\ state_ t' = GROWING /\ write_records_ t' = write_records_ t ++ [w] /\
    so_far_lsn_ t' = global_lsn_ (c_log (sm_core s)) /\
    LogM.binv (c_log (sm_core s')) (b ++ Log.image (InsP.write_log (global_lsn_ (c_log (sm_core s))) t w)) /\
    LkP.linv (c_locks (sm_core s')) /\
    (exists r, LkP.holds_lock (c_locks (sm_core s')) (record_lock_id (fd_ h) rid) r /\ req_txn_id r = p /\ lock_mode_ r = LockMode.X).
Proof.
  intros Hc Hnoix. destruct (InsP.insert_next_spec malloc ifuel junk s p t tab ti h pages chain name values b Hc (fun _ => True) (InsP.any_kept _) I rid0 Hnoix)
    as (rid & s' & h' & pages' & chain' & ls & E & Hf & Hrep & [Hnone Hall] & Hw & Hi & Ht & Hr & _).
  eexists _, rid, s', h', pages', chain', (InsP.row values), _. split; [exact (InsP.make_eq rid0 _ _ _ _ _ _ _ _ _ _ _ _ Hc)|]. split; [exact E|].
  split; [by rewrite Hf, lookup_insert_eq|]. split; [done|]. split; [done|]. split; [done|].
  split; [intros i col v; eapply InsP.fill_record_reads; [exact (InsP.ci_values _ _ _ _ _ _ _ _ _ _ _ _ Hc)|exact (InsP.ci_cols _ _ _ _ _ _ _ _ _ _ _ _ Hc)]|].
  split; [exact Ht|]. split; [done|]. split; [done|]. split; [done|]. split; [exact (InsP.wr_buf _ _ _ _ _ _ Hw)|]. by split.
Qed.

(** ** An instance: a row of two integers into an empty table *)

Definition demo_row_cols : list ColMeta := [mkColMeta "t" "a" TYPE_INT 4 0 false; mkColMeta "t" "b" TYPE_INT 4 4 false].
Definition demo_row : list RawValue := [(VInt 7, Some (enc_i32 7)); (VInt (-1), Some (enc_i32 (-1)))].

Lemma demo_row_for : Forall2 InsP.value_for demo_row_cols demo_row.
Proof.
  repeat constructor; simpl; try (unfold int32_ok; lia); eexists; (split; reflexivity).
Qed.

Lemma insert_row_typed_witness : exists rec,
  Ins.fill_record (zeros 8) demo_row_cols demo_row tt = (Ok rec, tt) /\
  Val.read_from_record rec (mkColMeta "t" "b" TYPE_INT 4 4 false) tt = (Ok (VInt (-1)), tt).
Proof.
  destruct (insert_row_typed demo_row_cols demo_row (zeros 8)) as [H _].
  - split_and!; done.
  - reflexivity.
  - destruct (H demo_row_for) as (rec & E & _ & Hr). exists rec. split; [exact E|].
    exact (Hr 1%nat _ (VInt (-1), Some (enc_i32 (-1))) eq_refl eq_refl).
Defined.

Definition demo_insert_with (txns : gmap Z Transaction) : SmManager Core :=
  mkSmManager (mkCore demo_rm_store (LogM.make 0 0) (mkLockManager ∅ txns) ∅)
    (mkDbMeta "db" [("t", mkTabMeta "t" demo_row_cols [])]) free_mutex {["t" := demo_handle]} ∅ free_mutex.
Definition demo_insert_sm : SmManager Core := demo_insert_with demo_pair.

(** transaction 1 may insert the row *)
Lemma demo_can_insert_with txns t : LkP.linv (mkLockManager ∅ txns) -> txns !! 1 = Some t -> state_ t = DEFAULT \/ state_ t = GROWING -> LogM.txn_ok t ->
  InsP.can_insert zeros (demo_insert_with txns) 1 t "t" (mkTabMeta "t" demo_row_cols []) demo_handle ∅ [] "t" demo_row [].
Proof.
  intros Hi Ht Hst Hok. split; try reflexivity; try assumption.
  - pose proof demo_rm_rep as []. by split.
  - intros n Hn. by apply zlen_zeros.
  - by split_and!.
  - exact demo_row_for.
  - intros q r. simpl. by rewrite lookup_empty.
  - intros rid _ q r. simpl. by rewrite lookup_empty.
  - exact (LogM.li_buf _ _ _ demo_log_linv).
  - simpl. lia.
  - vm_compute. discriminate.
Qed.
Lemma demo_can_insert :
  InsP.can_insert zeros demo_insert_sm 1 (new_Transaction false 0 1 SERIALIZABLE) "t" (mkTabMeta "t" demo_row_cols []) demo_handle ∅ [] "t" demo_row [].
Proof.
  apply demo_can_insert_with; [|reflexivity|by left|split; vm_compute; split; discriminate || reflexivity].
  split; simpl; [|intros; by rewrite lookup_empty in *..]. intros q u. unfold demo_pair. rewrite lookup_insert. destruct (decide (1 = q)) as [<-|]; [by intros [= <-]|].
  rewrite lookup_singleton_Some. by intros [<- <-].
Qed.

Lemma insert_executor_correct_witness : exists e rid s' h' pages' (chain' : list Z) row,
  Ins.make (mkRid 0 0) "t" demo_row 1 demo_insert_sm = (Ok e, demo_insert_sm) /\ Ins.next (fun _ => 4096) 1 zeros e demo_insert_sm = (Ok rid, s') /\
  fhs_ s' !! "t" = Some h' /\ RmP.rep (fun _ => True) (sm_core s') h' pages' chain' /\
  (forall r, RmP.rec_at pages' r = if decide (r = rid) then Some row else None).
Proof.
  destruct (insert_executor_correct (fun _ => 4096) 1 zeros (mkRid 0 0) demo_insert_sm 1 _ "t" _ _ _ _ _ _ _ demo_can_insert eq_refl)
    as (e & rid & s' & h' & pages' & chain' & row & t' & E1 & E2 & Hf & Hrep & _ & Hall & _).
  exists e, rid, s', h', pages', chain', row. split; [exact E1|]. split; [exact E2|]. split; [exact Hf|]. split; [exact Hrep|]. exact Hall.
Defined.
