(* ===== verification/DelProps.v ===== *)
(** The executor of DELETE on a table without indexes: the loop over the record ids, with the log buffer, the write set and the
    record file. *)

From S2P Require Import Prelude Bytes Errors Disk BufferPool PageStore Defs.
From S2P Require Import Text SmMeta RmFile RmPage RmProofs RmProps LogRecord LogManager.
From S2P Require Import Values Executor SeqScan Lock Core ExecProps SmState IxDefs.
From S2P Require Import IxTree IxManager Txn TxnProps TxnAbort Dml DmlProps.
Import RmPage.

Module DelP.
Import TxnP AbP.

(** the write of a deletion, and what a list of writes adds to the log and to the transaction *)
Definition del_write (tab : string) (rs : Z) (rid : Rid) (x : list Z) : WriteRecord := mkWriteRecord DELETE_TUPLE tab rid (mkRmRecord x rs) (mkRmRecord [] 0).
Definition after_write (lsn : Z) (t : Transaction) (w : WriteRecord) : Transaction := append_write_record w (set_so_far_lsn lsn t).
Fixpoint log_all (lsn : Z) (t : Transaction) (ws : list WriteRecord) : Transaction * list Z :=
  match ws with
  | [] => (t, [])
  | w :: ws => let '(t', l) := log_all (lsn + 1) (after_write lsn t w) ws in (t', Log.image (InsP.write_log lsn t w) ++ l)
  end.
Definition delete_log_len (rs : Z) (tab : string) : Z := InsP.insert_log_len rs tab.

Lemma del_args_ok tid rid hd tab x :
  Log.fits (delete_log_len (record_size hd) tab) -> hdr_ok hd -> int32_ok tid -> zlen x = record_size hd -> bytes_ok x ->
  1 <= rid_page_no rid <= 2 ^ 19 -> valid_slot hd (rid_slot_no rid) ->
  let v := mkRmRecord x (record_size hd) in
  LogM.args_ok tid rid v v (Log.make_delete tid v rid tab) /\ zlen (Log.image (Log.make_delete tid v rid tab)) = delete_log_len (record_size hd) tab.
Proof.
  intros Hfits Hhd Hok Hz Hby Hp [Hs1 Hs2] v. destruct Hhd as [H1 H2 _ _ _]. unfold RM_MAX_RECORD_SIZE in H1.
  assert (Hrec : Log.rec_ok v) by (unfold v; split; simpl; try done; unfold int32_ok; lia).
  assert (Hlen : zlen (Log.image (Log.make_delete tid v rid tab)) = delete_log_len (record_size hd) tab).
  { unfold Log.make_delete. cbn [Log.image]. rewrite !zlen_app, Log.zlen_image_hdr, Log.zlen_image_rec, Log.zlen_image_tail by done. done. }
  split; [|done]. split_and!; try done; [|by rewrite Hlen]. unfold Log.rid_ok, int32_ok. lia.
Qed.

Section del.
Context (malloc : gmap Z (list Z) -> Z) (ifuel : nat) (junk : Z -> list Z) (p : Z) (tab : string) (ti : TabMeta) (conds : list Condition) (rids : list Rid) (L : gmap LockDataId (list LockRequest)).

(** [n] more records can be deleted *)
Record deleting (s : SmManager Core) (t : Transaction) (h : RmFileHandle) (pages : gmap Z apage) (chain : list Z) (b : list Z) (lsn : Z) (n : nat) : Prop := {
  dl_fh : fhs_ s !! tab = Some h;
  dl_rep : rep (sm_core s) h pages chain;
  dl_bytes : forall r x, RmP.rec_at pages r = Some x -> bytes_ok x;
  dl_locks : LkP.linv (c_locks (sm_core s));
  dl_table : lock_table_ (c_locks (sm_core s)) = L;
  dl_txn : txns (c_locks (sm_core s)) !! p = Some t;
  dl_state : state_ t = DEFAULT \/ state_ t = GROWING;
  dl_ids : LogM.txn_ok t;
  dl_buf : LogM.binv (c_log (sm_core s)) b;
  dl_latch : log_latch_ (c_log (sm_core s)) = false;
  dl_lsn : global_lsn_ (c_log (sm_core s)) = lsn;
  dl_lsns : 0 <= lsn /\ lsn + Z.of_nat n < 2 ^ 31;
  dl_fits : zlen b + Z.of_nat n * delete_log_len (record_size (file_hdr_ h)) tab <= LOG_BUFFER_SIZE;
}.

Definition same_parts (s : SmManager Core) (c : Core) : Prop := apart (c_log (sm_core s)) (c_locks (sm_core s)) (c_addrs (sm_core s)) c.

(** reading a record leaves all parts alone *)
Lemma get_record_eq s t h pages chain b lsn n rid x : deleting s t h pages chain b lsn n -> RmP.rec_at pages rid = Some x ->
  exists s', SmSt.on_file tab (Rm.get_record rid) s = (Ok (mkRmRecord x (record_size (file_hdr_ h))), s') /\ deleting s' t h pages chain b lsn n.
Proof.
  intros [] Hx. set (C := apart (c_log (sm_core s)) (c_locks (sm_core s)) (c_addrs (sm_core s))).
  pose proof (RmP.rep_ctx C _ _ _ _ dl_rep0 (apart_refl _)) as HrepC.
  destruct (RmP.get_record_spec C (apart_framed _ _ _) _ h pages chain rid x HrepC Hx) as (r & u & E & -> & c & -> & Hrep).
  pose proof (RmP.rp_ctx _ _ _ _ _ Hrep) as (H1 & H2 & H3). eexists. split; [exact (on_table_file_eq tab _ s h _ _ _ dl_fh0 E)|].
  split; simpl; rewrite ?H1, ?H2, ?H3; try done; [apply lookup_insert_eq|exact (RmP.rep_any _ _ _ _ _ Hrep)].
Qed.

(** logging a write that fits *)
Lemma log_write_eq s t h pages chain b lsn n w : deleting s t h pages chain b lsn (S n) -> LogM.op_ok (LogM.OWrite t (malloc (c_addrs (sm_core s))) w) ->
  zlen (Log.image (LogM.log_of_write (txn_id_ t) w)) = delete_log_len (record_size (file_hdr_ h)) tab ->
  exists s', Dml.log_write malloc p w s = (Ok tt, s') /\ deleting s' (after_write lsn t w) h pages chain (b ++ Log.image (InsP.write_log lsn t w)) (lsn + 1) n.
Proof.
  intros [] Hop Hlen. set (core := sm_core s) in *. pose proof (zlen_nonneg (string_bytes tab)) as Hnn.
  assert (Hdl : 0 <= delete_log_len (record_size (file_hdr_ h)) tab) by (rewrite <- Hlen; apply zlen_nonneg).
  assert (Hl1 : 0 <= global_lsn_ (c_log core) < 2 ^ 31 - 1) by lia.
  assert (Hap : InsP.aparts (c_log core) (c_locks core) (c_addrs core) (Fr.names (c_store core)) core) by done.
  destruct (InsP.ws_gen_log_eq malloc p t (c_log core) (c_locks core) (c_addrs core) (Fr.names (c_store core)) b dl_txn0 dl_buf0 dl_latch0 Hl1 w core Hap Hop) as (m' & [W1 W2 W3 W4] & E1).
  { rewrite Hlen. nia. }
  pose proof (InsP.ws_append_eq malloc p t (c_log core) (c_locks core) (c_addrs core) (Fr.names (c_store core)) dl_txn0 w m' core Hap) as E2.
  rewrite dl_lsn0 in *. eexists (SmSt.set_core _ s). split.
  - unfold Dml.log_write. erewrite bind_ok; [|apply InsP.dml_locks_eq; unfold Lk.get_state, Lk.txn, gets, bind, deref; fold core; rewrite dl_txn0; reflexivity].
    rewrite bool_decide_true by done. set (s0 := SmSt.set_core (set_locks (c_locks core) (sm_core s)) s).
    assert (Hs0 : s0 = s) by (unfold s0; by destruct s as [[] ? ? ? ? ?]). rewrite Hs0.
    unfold SmSt.on_core. rewrite (bind_ok _ _ s tt _ (zoom_eq _ _ _ _ _ _ E1)). erewrite zoom_eq; [|exact E2]. simpl. by destruct s.
  - split; simpl; try done.
    + by apply rep_set_addrs, rep_set_locks, rep_set_log.
    + eapply linv_put; [simpl; by rewrite lookup_alter_eq, dl_txn0|done|done|]. by eapply linv_put.
    + rewrite !lookup_alter_eq, dl_txn0. simpl. unfold InsP.after_txn, after_write. by rewrite dl_lsn0.
    + destruct dl_ids0. split; [done|]. simpl. unfold int32_ok. lia.
    + split; lia.
    + rewrite zlen_app. unfold InsP.write_log. rewrite !Log.zlen_image_upd, Hlen. nia.
Qed.

(** the executor the loop runs in *)
Abbreviation exec := (mkDeleteExecutor ti conds tab rids tab p).
Hypothesis Hix : tm_indexes ti = [].

(** the file after the deletion of a record *)
Lemma delete_record_eq s t h pages chain b lsn n rid x : deleting s t h pages chain b lsn n -> RmP.rec_at pages rid = Some x ->
  exists s' h' pages' chain', SmSt.on_file tab (Rm.delete_record (Some (Ws.ctx malloc p)) rid) s = (Ok tt, s') /\ deleting s' t h' pages' chain' b lsn n /\
    (forall r, RmP.rec_at pages' r = if decide (r = rid) then None else RmP.rec_at pages r) /\ record_size (file_hdr_ h') = record_size (file_hdr_ h) /\ fd_ h' = fd_ h.
Proof using.
  intros [] Hx. set (core := sm_core s) in *. set (C := apart (c_log core) (c_locks core) (c_addrs core)).
  pose proof (RmP.rep_ctx C _ _ _ _ dl_rep0 (apart_refl _)) as HrepC.
  assert (Hq : RmP.quietly C (ctx_get_so_far_lsn (Ws.ctx malloc p)) (fun _ => True)).
  { intros c (H1 & H2 & H3). exists (so_far_lsn_ t), c. split; [|split; [apply quiet_refl|done]]. rewrite <- H2 in dl_txn0.
    simpl. by rewrite (bind_ok _ _ _ _ _ (get_txn_eq p c t dl_txn0)). }
  destruct (RmP.delete_record_spec C (apart_framed _ _ _) core h pages chain (Ws.ctx malloc p) rid x HrepC Hq Hx) as ([] & u & E & c & -> & Hrep). cbn [snd] in Hrep.
  pose proof (RmP.rp_ctx _ _ _ _ _ Hrep) as (H1 & H2 & H3).
  pose proof (fun r => RmP.rec_at_del (file_hdr_ h) rid pages x r Hx) as Hdel.
  assert (Hrs : record_size (RmP.del_hdr (file_hdr_ h) rid pages) = record_size (file_hdr_ h)) by (unfold RmP.del_hdr; by destruct (RmP.del_full _ _ _)).
  eexists _, (mkRmFileHandle (fd_ h) (RmP.del_hdr (file_hdr_ h) rid pages)), _, _. split; [exact (on_table_file_eq tab _ s h _ _ _ dl_fh0 E)|].
  split; [|split; [exact Hdel|done]]. split; simpl; rewrite ?H1, ?H2, ?H3; try done.
  - apply lookup_insert_eq.
  - exact (RmP.rep_any _ _ _ _ _ Hrep).
  - intros r y. rewrite Hdel. destruct (decide (r = rid)); [done|apply dl_bytes0].
  - by rewrite Hrs.
Qed.

Lemma deleting_less s t h pages chain b lsn n : deleting s t h pages chain b lsn (S n) -> deleting s t h pages chain b lsn n.
Proof using.
  intros []. assert (0 <= delete_log_len (record_size (file_hdr_ h)) tab).
  { unfold delete_log_len, InsP.insert_log_len, Log.sizeof_Rid, Log.sizeof_size_t. pose proof (ho_rs _ (RmP.rp_hdr _ _ _ _ _ dl_rep0)). pose proof (zlen_nonneg (string_bytes tab)).
    assert (LOG_HEADER_SIZE = 24) by reflexivity. lia. }
  split; try done; [lia|nia].
Qed.

(** a record of a represented file *)
Lemma rec_at_facts c h pages chain rid x : rep c h pages chain -> RmP.rec_at pages rid = Some x ->
  zlen x = record_size (file_hdr_ h) /\ 1 <= rid_page_no rid <= 2 ^ 19 /\ valid_slot (file_hdr_ h) (rid_slot_no rid).
Proof using.
  intros Hrep Hx. unfold RmP.rec_at in Hx. destruct (pages !! rid_page_no rid) as [ap|] eqn:Hi; [|done].
  destruct (RmP.rp_pages _ _ _ _ _ Hrep _ _ Hi) as (b & _ & Hr & _). destruct (pr_slot _ _ _ Hr _ _ Hx) as [Hv <-].
  pose proof (proj1 (RmP.rp_dom _ _ _ _ _ Hrep (rid_page_no rid)) (mk_is_Some _ _ Hi)). pose proof (RmP.rp_range _ _ _ _ _ Hrep).
  pose proof (RmP.rp_hdr _ _ _ _ _ Hrep) as Hh. pose proof (slot_range _ Hh _ Hv). pose proof (ho_rs _ Hh). pose proof (ho_bs _ Hh).
  split_and!; [|lia|lia|done]. unfold pg_slot. apply zlen_slice; [lia|lia|]. rewrite (pr_len _ _ _ Hr). lia.
Qed.

(** the writes of the records that satisfy the conditions *)
Definition doomed (d : list Z) : bool := holds_scan conds (tm_cols ti) d.
Definition dels (rs : Z) (pages : gmap Z apage) (rid : Rid) : list WriteRecord :=
  match RmP.rec_at pages rid with Some x => if doomed x then [del_write tab rs rid x] else [] | None => [] end.

(** one turn of the loop *)
Lemma delete_one_spec s t h pages chain b lsn n rid x :
  deleting s t h pages chain b lsn (S n) -> RmP.rec_at pages rid = Some x -> forallb (Cond.scan_ok (tm_cols ti) (record_size (file_hdr_ h))) conds = true ->
  Log.fits (delete_log_len (record_size (file_hdr_ h)) tab) ->
  let ws := dels (record_size (file_hdr_ h)) pages rid in
  exists s' h' pages' chain', Del.delete_one malloc ifuel junk exec [] rid s = (Ok tt, s') /\
    deleting s' (log_all lsn t ws).1 h' pages' chain' (b ++ (log_all lsn t ws).2) (lsn + zlen ws) n /\
    (forall r, RmP.rec_at pages' r = if decide (r = rid /\ doomed x = true) then None else RmP.rec_at pages r) /\
    record_size (file_hdr_ h') = record_size (file_hdr_ h) /\ fd_ h' = fd_ h.
Proof using Hix.
  intros Hd Hx Hc Hfits ws. destruct (get_record_eq _ _ _ _ _ _ _ _ _ _ Hd Hx) as (s1 & E1 & Hd1).
  destruct (get_record_eq _ _ _ _ _ _ _ _ _ _ Hd1 Hx) as (s2 & E2 & Hd2). destruct (rec_at_facts _ _ _ _ _ _ (dl_rep _ _ _ _ _ _ _ _ Hd) Hx) as (Hz & Hp & Hv).
  destruct (Cond.test_conds_ok _ _ _ x Hc Hz) as [r Er]. assert (Hr : doomed x = r) by (unfold doomed, holds_scan; by rewrite Er).
  unfold Del.delete_one. cbn [de_fh_ de_conds_ de_tab_ de_txn_ de_tab_name_ data]. rewrite (bind_ok _ _ _ _ _ E1), (bind_ok _ _ _ _ _ E2).
  cbn [data]. rewrite (bind_ok _ _ s2 r s2) by (unfold pure_call; by rewrite Er). subst ws. unfold dels. rewrite Hx, Hr. destruct r.
  - set (w := del_write tab (record_size (file_hdr_ h)) rid x).
    destruct (del_args_ok (txn_id_ t) rid (file_hdr_ h) tab x Hfits (RmP.rp_hdr _ _ _ _ _ (dl_rep _ _ _ _ _ _ _ _ Hd)) (proj1 (dl_ids _ _ _ _ _ _ _ _ Hd)) Hz (dl_bytes _ _ _ _ _ _ _ _ Hd _ _ Hx) Hp Hv) as [Ha Hl].
    destruct (log_write_eq s2 t h pages chain b lsn n w Hd2) as (s3 & E3 & Hd3); [split; [exact (dl_ids _ _ _ _ _ _ _ _ Hd)|exact Ha]|exact Hl|].
    destruct (delete_record_eq _ _ _ _ _ _ _ _ _ _ Hd3 Hx) as (s4 & h' & pages' & chain' & E4 & Hd4 & Hdel & Hrs & Hfd).
    exists s4, h', pages', chain'. rewrite (bind_ok _ _ _ _ _ E3), (bind_ok _ _ _ _ _ E4), Hix. split; [done|]. cbn [log_all fst snd]. rewrite app_nil_r. split; [done|].
    split; [|done]. intros q. rewrite Hdel. destruct (decide (q = rid)) as [->|]; [by rewrite decide_True|by rewrite decide_False by (intros [??]; congruence)].
  - exists s2, h, pages, chain. split; [done|]. cbn [log_all fst snd]. rewrite app_nil_r. replace (lsn + zlen []) with lsn by (unfold zlen; simpl; lia).
    split; [by apply deleting_less|]. split; [|done]. intros q. by rewrite decide_False by (intros [??]; congruence).
Qed.

(** the records that stay *)
Definition keep (l : list Rid) (pages : gmap Z apage) (r : Rid) : option (list Z) :=
  match RmP.rec_at pages r with Some x => if bool_decide (r ∈ l) && doomed x then None else Some x | None => None end.

Lemma log_all_app lsn t ws ws' :
  log_all lsn t (ws ++ ws') = let '(t1, l1) := log_all lsn t ws in let '(t2, l2) := log_all (lsn + zlen ws) t1 ws' in (t2, l1 ++ l2).
Proof using.
  revert lsn t. induction ws as [|w ws IH]; intros lsn t; simpl.
  - replace (lsn + zlen []) with lsn by (unfold zlen; simpl; lia). by destruct (log_all lsn t ws').
  - rewrite IH. replace (zlen (w :: ws)) with (1 + zlen ws) by (unfold zlen; simpl; lia). replace (lsn + 1 + zlen ws) with (lsn + (1 + zlen ws)) by lia.
    destruct (log_all (lsn + 1) (after_write lsn t w) ws) as [t1 l1]. destruct (log_all _ t1 ws') as [t2 l2]. by rewrite app_assoc.
Qed.

Lemma keep_cons rid x l pages pages' : rid ∉ l -> RmP.rec_at pages rid = Some x ->
  (forall r, RmP.rec_at pages' r = if decide (r = rid /\ doomed x = true) then None else RmP.rec_at pages r) ->
  (forall r, keep l pages' r = keep (rid :: l) pages r) /\ forall rs, concat (dels rs pages <$> rid :: l) = dels rs pages rid ++ concat (dels rs pages' <$> l).
Proof using.
  intros Hni Hx Hp. split.
  - intros r. unfold keep. rewrite Hp. destruct (decide (r = rid)) as [->|Hne].
    + rewrite Hx, (bool_decide_true (rid ∈ rid :: l)) by left. destruct (doomed x) eqn:Hd; [by rewrite decide_True|].
      by rewrite decide_False, Hd, andb_false_r by (intros [??]; congruence).
    + rewrite decide_False by (intros [??]; congruence). destruct (RmP.rec_at pages r) as [y|]; [|done].
      by rewrite (bool_decide_ext (r ∈ rid :: l) (r ∈ l)) by (rewrite elem_of_cons; split; [by intros [?|?]|by right]).
  - intros rs. rewrite fmap_cons. simpl. f_equal. f_equal. apply list_fmap_ext. intros i r Hr. unfold dels. rewrite Hp.
    rewrite decide_False; [done|]. intros [-> _]. apply Hni. by eapply list_elem_of_lookup_2.
Qed.

(** the loop *)
Lemma delete_all_spec l : forall s t h pages chain b lsn,
  deleting s t h pages chain b lsn (length l) -> NoDup l -> Forall (fun r => is_Some (RmP.rec_at pages r)) l ->
  forallb (Cond.scan_ok (tm_cols ti) (record_size (file_hdr_ h))) conds = true -> Log.fits (delete_log_len (record_size (file_hdr_ h)) tab) ->
  let ws := concat (dels (record_size (file_hdr_ h)) pages <$> l) in
  exists s' h' pages' chain', for_each l (Del.delete_one malloc ifuel junk exec []) s = (Ok tt, s') /\
    deleting s' (log_all lsn t ws).1 h' pages' chain' (b ++ (log_all lsn t ws).2) (lsn + zlen ws) 0 /\
    (forall r, RmP.rec_at pages' r = keep l pages r).
Proof using Hix.
  induction l as [|rid l IH]; intros s t h pages chain b lsn Hd Hnd Hall Hc Hf ws.
  - exists s, h, pages, chain. split; [done|]. simpl in *. rewrite app_nil_r. replace (lsn + zlen ws) with lsn by (unfold ws, zlen; simpl; lia).
    split; [done|]. intros r. unfold keep. by destruct (RmP.rec_at pages r).
  - apply NoDup_cons in Hnd as [Hni Hnd]. apply Forall_cons in Hall as [[x Hx] Hall].
    destruct (delete_one_spec s t h pages chain b lsn (length l) rid x Hd Hx Hc Hf) as (s1 & h1 & pages1 & chain1 & E1 & Hd1 & Hp1 & Hrs1 & Hfd1).
    destruct (keep_cons rid x l pages pages1 Hni Hx Hp1) as [Hk Hw]. rewrite <- Hrs1 in Hc, Hf.
    destruct (IH _ _ _ _ _ _ _ Hd1 Hnd) as (s2 & h2 & pages2 & chain2 & E2 & Hd2 & Hp2); try done.
    { apply Forall_forall. intros r Hr. rewrite Forall_forall in Hall. rewrite Hp1, decide_False; [by apply Hall|]. intros [-> _]. done. }
    exists s2, h2, pages2, chain2. cbn [for_each]. rewrite (bind_ok _ _ _ _ _ E1). split; [done|]. split; [|intros r; by rewrite Hp2].
    unfold ws. rewrite Hw, log_all_app, zlen_app. rewrite Hrs1 in Hd2. destruct (log_all lsn t _) as [t1 l1]. simpl in Hd2.
    destruct (log_all _ t1 _) as [t2 l2]. simpl in *. by rewrite app_assoc, Z.add_assoc.
Qed.
End del.

(** the records of [rids] may be considered for deletion *)
Record can_delete (s : SmManager Core) (p : Z) (t : Transaction) (tab : string) (ti : TabMeta) (conds : list Condition) (rids : list Rid)
    (h : RmFileHandle) (pages : gmap Z apage) (chain : list Z) (b : list Z) : Prop := {
  cd_db : writer (db_latch_ s) = false;
  cd_sm : writer (sm_latch_ s) = false;
  cd_tab : Meta.get_table (db_ s) tab = inr ti;
  cd_noix : tm_indexes ti = [];
  cd_conds : forallb (Cond.scan_ok (tm_cols ti) (record_size (file_hdr_ h))) conds = true;
  cd_nodup : NoDup rids;
  cd_rids : Forall (fun r => is_Some (RmP.rec_at pages r)) rids;
  cd_free : LkP.free_for (c_locks (sm_core s)) p (table_lock_id (fd_ h)) LockMode.X;
  cd_fits : Log.fits (delete_log_len (record_size (file_hdr_ h)) tab);
  cd_state : deleting p tab (lock_table_ (c_locks (sm_core s))) s t h pages chain b (global_lsn_ (c_log (sm_core s))) (length rids);
}.

(** the constructor: only the lock table and the locks of the transaction change *)
Lemma delete_make_spec s p t tab ti conds rids h pages chain b :
  can_delete s p t tab ti conds rids h pages chain b ->
  exists s1 ls r, Del.make tab conds rids p s = (Ok (mkDeleteExecutor ti conds tab rids tab p), s1) /\ sm_latch_ s1 = sm_latch_ s /\
    deleting p tab (lock_table_ (c_locks (sm_core s1))) s1 (InsP.holding t ls) h pages chain b (global_lsn_ (c_log (sm_core s))) (length rids) /\
    LkP.holds_lock (c_locks (sm_core s1)) (table_lock_id (fd_ h)) r /\ req_txn_id r = p /\ lock_mode_ r = LockMode.X.
Proof.
  intros []. destruct cd_state0. destruct (InsP.table_lock_granted p _ _ (fd_ h) _ t LkP.exact_X dl_locks0 dl_txn0 dl_state0 cd_free0) as (l1 & ls & r & E & Hi & Ht & _ & Hr).
  exists (SmSt.set_core (set_locks l1 (sm_core s)) s), ls, r. split; [|split; [by destruct s|split; [|by destruct s]]].
  - unfold Del.make. rewrite (bind_ok _ _ _ _ _ (SmSt.read_table_ok tab ti s cd_db0 cd_tab0)), (bind_ok _ _ _ _ _ (SmSt.read_fh_ok tab h s cd_sm0 dl_fh0)).
    rewrite (bind_ok _ _ _ _ _ (InsP.on_file_fd tab h s dl_fh0)), (bind_ok _ _ _ _ _ (InsP.dml_locks_eq _ _ _ _ E)). by erewrite bind_ok by reflexivity.
  - destruct s as [c d1 d2 d3 d4 d5]. split; simpl in *; try done; [by apply rep_set_locks|by right].
Qed.

(** what the transaction holds does not show in the log *)
Lemma log_all_holding lsn t ls ws : log_all lsn (InsP.holding t ls) ws = (InsP.holding (log_all lsn t ws).1 ls, (log_all lsn t ws).2).
Proof.
  revert lsn t. induction ws as [|w ws IH]; intros lsn t; [done|]. cbn [log_all].
  change (after_write lsn (InsP.holding t ls) w) with (InsP.holding (after_write lsn t w) ls). rewrite IH. by destruct (log_all _ (after_write lsn t w) ws).
Qed.
Lemma log_all_writes lsn t ws : write_records_ (log_all lsn t ws).1 = write_records_ t ++ ws.
Proof.
  revert lsn t. induction ws as [|w ws IH]; intros lsn t; cbn [log_all]; [by rewrite app_nil_r|]. specialize (IH (lsn + 1) (after_write lsn t w)).
  destruct (log_all _ (after_write lsn t w) ws) as [t' l]. simpl in *. by rewrite IH, <- app_assoc.
Qed.
End DelP.

(** * Properties *)

(** C8: A DELETE on a table without indexes, from the executor's construction to the end of its [Next], takes out of the table exactly the records of
    the given record ids that satisfy the conditions and keeps every other record; the deletions, in the order of the ids and with the
    old records, are appended to the transaction's write set, and their log records, chained by their previous lsn, to the log
    buffer; the transaction, growing, has an exclusive lock on the table. *)
Theorem delete_executor_correct malloc ifuel junk s p t tab ti conds rids h pages chain b :
  DelP.can_delete s p t tab ti conds rids h pages chain b ->
  let ws := concat (DelP.dels tab ti conds (record_size (file_hdr_ h)) pages <$> rids) in
  exists e s1 s' h' pages' chain' t' r, Del.make tab conds rids p s = (Ok e, s1) /\ Del.next malloc ifuel junk e s1 = (Ok tt, s') /\
    fhs_ s' !! tab = Some h' /\ RmP.rep (fun _ => True) (sm_core s') h' pages' chain' /\
    (forall r x, RmP.rec_at pages' r = Some x <-> RmP.rec_at pages r = Some x /\ ~ (r ∈ rids /\ holds_scan conds (tm_cols ti) x = true)) /\
    txns (c_locks (sm_core s')) !! p = Some t' /\ state_ t' = GROWING /\ write_records_ t' = write_records_ t ++ ws /\
    LogM.binv (c_log (sm_core s')) (b ++ (DelP.log_all (global_lsn_ (c_log (sm_core s))) t ws).2) /\
    LkP.linv (c_locks (sm_core s')) /\ LkP.holds_lock (c_locks (sm_core s')) (table_lock_id (fd_ h)) r /\ req_txn_id r = p /\ lock_mode_ r = LockMode.X.
Proof.
  intros Hc ws. destruct (DelP.delete_make_spec _ _ _ _ _ _ _ _ _ _ _ Hc) as (s1 & ls & r & E1 & Hsm & Hd1 & Hr & Hrp). destruct Hc.
  destruct (DelP.delete_all_spec malloc ifuel junk p tab ti conds rids _ cd_noix rids _ _ _ _ _ _ _ Hd1 cd_nodup cd_rids cd_conds cd_fits)
    as (s' & h' & pages' & chain' & E2 & Hd2 & Hk). fold ws in Hd2. rewrite DelP.log_all_holding in Hd2. destruct Hd2.
  eexists _, s1, s', h', pages', chain', _, r. split; [exact E1|]. split.
  { unfold Del.next. rewrite (bind_ok _ _ _ _ _ (InsP.idx_hdls_none ti s1 ltac:(by rewrite Hsm) cd_noix)). exact E2. }
  split; [done|]. split; [done|]. split; [|split; [exact dl_txn|]].
  - intros q x. rewrite Hk. unfold DelP.keep, DelP.doomed. destruct (RmP.rec_at pages q) as [y|]; [|split; [done|by intros [? _]]].
    destruct (bool_decide_reflect (q ∈ rids)) as [Hq|Hq]; simpl; [|split; [intros [= <-]; by split; [|intros [? _]]|by intros [? _]]].
    destruct (holds_scan conds (tm_cols ti) y) eqn:Hy; split; [done|intros [[= <-] Hn]; by destruct Hn| |by intros [? _]].
    intros [= <-]. split; [done|]. intros [_ ?]. congruence.
  - split; [done|]. split; [exact (DelP.log_all_writes _ t ws)|]. split; [exact dl_buf|]. split; [done|].
    split; [|exact Hrp]. destruct Hr as (q & Hq & Hin). exists q. by rewrite dl_table.
Qed.

(** ** An instance: [delete from t where t.a >= 1] on a table with one record *)

Lemma delete_executor_correct_witness : exists s h pages rid e s1 s' h' pages' (chain' : list Z) t',
  RmP.rec_at pages rid = Some [1; 2; 3; 4; 5; 6; 7; 8] /\
  Del.make "t" [demo_scan_cond] [rid] 1 (demo_world s h) = (Ok e, s1) /\ Del.next (fun _ => 4096) 1 zeros e s1 = (Ok tt, s') /\
  fhs_ s' !! "t" = Some h' /\ RmP.rep (fun _ => True) (sm_core s') h' pages' chain' /\ (forall r, RmP.rec_at pages' r = None) /\
  txns (c_locks (sm_core s')) !! 1 = Some t' /\ write_records_ t' = [DelP.del_write "t" 8 rid [1; 2; 3; 4; 5; 6; 7; 8]].
Proof.
  destruct demo_known_record as (s & h & pages & chain & rid & Hrep & Hx & Hsz & Hone).
  assert (Hall : forall r x, RmP.rec_at pages r = Some x -> r = rid /\ x = [1; 2; 3; 4; 5; 6; 7; 8]).
  { intros r x Hr. pose proof (Hone r x Hr) as ->. split; [done|congruence]. }
  assert (Hdoom : holds_scan [demo_scan_cond] (tm_cols demo_tab) [1; 2; 3; 4; 5; 6; 7; 8] = true) by (vm_compute; reflexivity).
  destruct (delete_executor_correct (fun _ => 4096) 1 zeros (demo_world s h) 1 (demo_txn 1 GROWING) "t" demo_tab [demo_scan_cond] [rid] h pages chain [])
    as (e & s1 & s' & h' & pages' & chain' & t' & q & E1 & E2 & Hf & Hrep' & Hk & Ht & _ & Hw & _).
  { split; try reflexivity; try (rewrite Hsz; reflexivity).
    - apply NoDup_singleton.
    - apply Forall_singleton. by eexists.
    - intros ? ?. simpl. by rewrite lookup_empty.
    - rewrite Hsz. split; vm_compute; discriminate || reflexivity.
    - split; try reflexivity; simpl; try (apply lookup_singleton_eq); try lia.
      + by apply core_rep.
      + intros r x [-> ->]%Hall. repeat constructor; lia.
      + exact demo_linv.
      + by right.
      + split; vm_compute; split; discriminate || reflexivity.
      + exact (LogM.li_buf _ _ _ demo_log_linv).
      + rewrite Hsz. vm_compute. discriminate. }
  exists s, h, pages, rid, e, s1, s', h', pages', chain', t'. split; [exact Hx|]. split; [exact E1|]. split; [exact E2|]. split; [exact Hf|]. split; [exact Hrep'|].
  split; [|split; [exact Ht|]].
  - intros r. destruct (RmP.rec_at pages' r) as [x|] eqn:E; [|reflexivity]. apply Hk in E as [E Hn]. destruct (Hall _ _ E) as [-> ->]. destruct Hn. split; [left|exact Hdoom].
  - rewrite Hw. cbn [fmap list_fmap concat]. unfold DelP.dels. rewrite Hx, Hsz. unfold DelP.doomed. rewrite Hdoom. reflexivity.
Defined.
