(* ===== verification/TxnAtomic.v ===== *)
(** Atomicity: the executor, the record file, the log manager, the lock manager and the transaction manager
    together.  A statement that was executed and then rolled back leaves the table as it was. *)

From S2P Require Import Prelude Bytes Errors Disk BufferPool BufferPoolProofs PageStore Defs.
From S2P Require Import Text SmMeta RmFile RmPage RmProofs RmProps LogRecord LogManager Lock.
From S2P Require Import Values IxDefs IxTree IxManager SmState Executor SeqScan.
From S2P Require Import Core Txn TxnProps TxnAbort Dml DmlProps.
Import RmPage.

Module Atom.
Import TxnP AbP InsP.

(** the transaction manager over another state of the system *)
Definition with_sm (s : SmManager Core) (tm : TransactionManager) : TransactionManager :=
  mkTransactionManager s (next_txn_id_ tm) (next_timestamp_ tm) (txn_map tm).

Lemma insert_new_known k v m : is_Some (LogM.insert_new k v m !! k).
Proof. unfold LogM.insert_new. destruct (m !! k) eqn:E; [by rewrite E|]. by rewrite lookup_insert_eq. Qed.

Lemma zlen_write_log lsn t w : zlen (Log.image (write_log lsn t w)) = zlen (Log.image (LogM.log_of_write (txn_id_ t) w)).
Proof. unfold write_log. by rewrite !Log.zlen_image_upd. Qed.

(** after the insertion the transaction can be rolled back *)
Lemma insert_undoable malloc ifuel junk rid0 tm p t tab ti h pages chain values c b :
  let core := core_of tm in
  can_insert junk (tm_sm tm) p t tab ti h pages chain tab values b -> tm_indexes ti = [] ->
  write_records_ t = [] -> default [] (c_addrs core !! p) = [] -> global_lsn_ (c_log core) < 2 ^ 31 - 2 ->
  LogM.linv (log_part core) c b -> Lf.no_log_frames (c_store core) -> tab <> LOG_FILE_NAME ->
  exists rid s' h' pages' chain', let w := RmP.ins_write tab rid (file_hdr_ h) (row values) in
    let img := Log.image (write_log (global_lsn_ (c_log core)) t w) in
    Ins.next malloc ifuel junk (mkInsertExecutor ti values tab tab rid0 p) (tm_sm tm) = (Ok rid, s') /\
    undoing p (txn_id_ t) tab ti (lock_table_ (c_locks (sm_core s'))) GROWING (global_lsn_ (c_log core)) (disk (c_store (sm_core s'))) (with_sm s' tm)
      [w] [malloc (c_addrs core)] h' pages' chain' (b ++ img) /\
    RmP.inserted h pages pages' rid (row values) /\ LogM.linv (log_part (sm_core s')) c (b ++ img) /\ global_lsn_ (c_log (sm_core s')) = global_lsn_ (c_log core) + 1 /\
    zlen img = insert_log_len (record_size (file_hdr_ h)) tab /\
    zlen (Log.image (clr_of (txn_id_ t) (global_lsn_ (c_log core) + 1) w)) = insert_log_len (record_size (file_hdr_ h)) tab.
Proof.
  intros core Hc Hnoix Hw0 Ha0 Hl0 Hlog Hno Hname. set (s := tm_sm tm) in *. set (d0 := disk (c_store core)) in *.
  assert (Hoff : Dsk.off_log d0 (fd_ h)) by (eapply Dsk.off_log_named; [apply Hlog|exact (ci_name _ _ _ _ _ _ _ _ _ _ _ _ Hc)|done]).
  destruct (insert_next_spec malloc ifuel junk s p t tab ti h pages chain tab values b Hc (Lf.log_kept d0) (log_kept_framed d0 _ (LogM.li_disk _ _ _ Hlog) Hoff)
    (Lf.log_kept_refl _ Hno) rid0 Hnoix) as (rid & s' & h' & pages' & chain' & ls & E & Hf & Hrep & [Hnone Hall] & [Hb Hla Hlsn Had] & Hi & Ht & _ & Hdb & Haddr & Hrs & Hfd & Hke).
  change (c_log (sm_core s)) with (c_log core) in *. set (w := RmP.ins_write tab rid (file_hdr_ h) (row values)) in *.
  pose proof (row_fits junk s p t tab ti h pages chain tab values b Hc) as Hfits. destruct Hc.
  assert (Hx : RmP.rec_at pages' rid = Some (row values)) by (by rewrite Hall, decide_True).
  destruct (RmP.has_rec_bounds _ _ _ _ _ _ Hrep (ex_intro _ _ Hx)) as [Hp Hs]. pose proof (RmP.rp_range _ _ _ _ _ Hrep).
  destruct (row_args_ok (txn_id_ t) rid (file_hdr_ h') tab (row values)) as [Hargs Hlen]; [by rewrite Hrs|apply (RmP.rp_hdr _ _ _ _ _ Hrep)|apply ci_ids0| | |lia|done|].
  { rewrite Hrs, ci_size0. by eapply row_size. }
  { by eapply row_bytes. }
  rewrite Hrs in Hargs, Hlen. exists rid, s', h', pages', chain'. fold w.
  split; [exact E|]. split; [|split; [done|split; [|split; [done|split]]]].
  - split; simpl; try done.
    + by rewrite Hdb.
    + by rewrite Hf, lookup_insert_eq.
    + eexists. split; [exact Ht|]. simpl. by rewrite Hw0.
    + unfold core_of. simpl. rewrite Haddr. unfold after_addrs. change (c_addrs (sm_core s)) with (c_addrs core). by rewrite lookup_insert_eq, Ha0.
    + constructor; [|constructor]. unfold core_of. simpl. rewrite Had. apply insert_new_known.
    + constructor; [|constructor]. split; [done|]. split; [done|]. exact Hargs.
    + constructor; [|constructor]. simpl. rewrite Hx. by eexists.
    + apply NoDup_singleton.
    + unfold core_of. simpl. rewrite Hlsn. unfold zlen. simpl. change (c_log (sm_core s)) with (c_log core) in ci_lsn0. lia.
    + by apply (Lf.log_kept_self d0).
    + rewrite Hfd. by apply (Lf.off_log_same _ _ _ Hke).
  - split; simpl; [exact (BpmInv.bi_disk _ (RmP.rp_inv _ _ _ _ _ Hrep))|by eapply Lf.log_kept_ok, Hlog|rewrite (Lf.lk_content _ _ Hke); apply Hlog|done].
  - rewrite zlen_write_log. exact Hlen.
  - unfold clr_of, LogM.clr. rewrite !Log.zlen_image_upd. exact Hlen.
Qed.
End Atom.

(** * Properties *)

(** C6: A statement that is rolled back leaves no trace in the table: an INSERT into a table without indexes that is executed as the
    first write of a transaction, and then [abort], both return, while the three log records fit in the log buffer and the buffer
    pool holds no page of the log file.  The table then has the records it had, in a well-formed file; the log file holds all it
    held, then what was in the log buffer, the insertion, its compensation and the abort record; and the transaction, [ABORTED],
    has an empty write set and no locks. *)
Theorem insert_abort_atomic malloc ifuel rfuel junk rid0 tm p t tab ti h pages chain values c b :
  let core := TxnP.core_of tm in
  let lsn := global_lsn_ (c_log core) in
  InsP.can_insert junk (tm_sm tm) p t tab ti h pages chain tab values b -> tm_indexes ti = [] ->
  write_records_ t = [] -> default [] (c_addrs core !! p) = [] -> lsn < 2 ^ 31 - 2 ->
  LogM.linv (log_part core) c b -> Lf.no_log_frames (c_store core) -> tab <> LOG_FILE_NAME ->
  zlen b + 2 * InsP.insert_log_len (record_size (file_hdr_ h)) tab + LOG_HEADER_SIZE <= LOG_BUFFER_SIZE ->
  exists e rid s' tm' h' pages' chain' t', let w := RmP.ins_write tab rid (file_hdr_ h) (InsP.row values) in let core' := TxnP.core_of tm' in
    Ins.make rid0 tab values p (tm_sm tm) = (Ok e, tm_sm tm) /\ Ins.next malloc ifuel junk e (tm_sm tm) = (Ok rid, s') /\
    TxnM.abort ifuel rfuel junk p (Atom.with_sm s' tm) = (Ok tt, tm') /\
    fhs_ (tm_sm tm') !! tab = Some h' /\ RmP.rep (fun _ => True) core' h' pages' chain' /\
    (forall r, RmP.rec_at pages' r = RmP.rec_at pages r) /\
    LogM.linv (log_part core') (c ++ b ++ Log.image (InsP.write_log lsn t w) ++ Log.image (AbP.clr_of (txn_id_ t) (lsn + 1) w) ++
      Log.image (Log.make_abort (lsn + 2) lsn (txn_id_ t))) [] /\
    txns (c_locks core') !! p = Some t' /\ state_ t' = ABORTED /\ write_records_ t' = [] /\ lock_set_ t' = ∅ /\
    LkP.linv (c_locks core') /\ (forall id r, LkP.holds_lock (c_locks core') id r -> req_txn_id r <> p).
Proof.
  intros core lsn Hc Hnoix Hw Ha Hl Hlog Hno Hname Hfit.
  destruct (Atom.insert_undoable malloc ifuel junk rid0 tm p t tab ti h pages chain values c b Hc Hnoix Hw Ha Hl Hlog Hno Hname)
    as (rid & s' & h1 & pages1 & chain1 & E & Hun & [Hnone Hall] & Hlog1 & Hlsn1 & Hz & Hz'). fold core lsn in Hun, Hlog1, Hlsn1, Hz, Hz'.
  pose proof (InsP.ci_lsn _ _ _ _ _ _ _ _ _ _ _ _ Hc) as Hl2. change (0 <= lsn < 2 ^ 31 - 1) in Hl2.
  set (w := RmP.ins_write tab rid (file_hdr_ h) (InsP.row values)) in *.
  destruct (AbP.abort_spec ifuel rfuel junk p (txn_id_ t) tab ti _ GROWING lsn (Atom.with_sm s' tm) _ _ h1 pages1 chain1 c _ Hun Hnoix Hlog1)
    as (tm' & h' & pages' & chain' & t' & E' & [Hf Hrep Hli Hlo] & Hr & Hb & _ & Ht & _ & Hst & _ & Hwr & Hls).
  { unfold int32_ok. lia. }
  { apply (InsP.ci_ids _ _ _ _ _ _ _ _ _ _ _ _ Hc). }
  { unfold TxnP.core_of. cbn [rev app AbP.clr_log Atom.with_sm tm_sm]. rewrite app_nil_r, zlen_app, Hz, Hlsn1, Hz'. lia. }
  unfold TxnP.core_of in Hb at 2 3. cbn [rev app AbP.clr_log Atom.with_sm tm_sm] in Hb. rewrite app_nil_r, Hlsn1 in Hb. replace (lsn + 1 + zlen [w]) with (lsn + 2) in Hb by (unfold zlen; simpl; lia).
  rewrite <- app_assoc in Hb.
  eexists _, rid, s', tm', h', pages', chain', t'. fold w. split; [exact (InsP.make_eq rid0 _ _ _ _ _ _ _ _ _ _ _ _ Hc)|]. split; [exact E|]. split; [exact E'|].
  split_and!; try done.
  - intros r. rewrite Hr. simpl. destruct (decide (r ∈ [rid])) as [->%list_elem_of_singleton|Hne]; [done|]. rewrite Hall, decide_False; [done|].
    intros ->. apply Hne. constructor.
  - intros id r Hr'. by apply Hlo in Hr' as [_ ?].
Qed.

Lemma insert_abort_atomic_witness : exists e rid s' tm' h' pages' (chain' : list Z),
  Ins.make (mkRid 0 0) "t" demo_row 1 demo_insert_sm = (Ok e, demo_insert_sm) /\ Ins.next (fun _ => 4096) 1 zeros e demo_insert_sm = (Ok rid, s') /\
  TxnM.abort 1 1 zeros 1 (mkTransactionManager s' 3 3 ∅) = (Ok tt, tm') /\
  RmP.rep (fun _ => True) (TxnP.core_of tm') h' pages' chain' /\ (forall r, RmP.rec_at pages' r = None).
Proof.
  destruct (insert_abort_atomic (fun _ => 4096) 1 1 zeros (mkRid 0 0) (mkTransactionManager demo_insert_sm 3 3 ∅) 1 _ "t" _ _ _ _ _ [] _ demo_can_insert eq_refl)
    as (e & rid & s' & tm' & h' & pages' & chain' & t' & E1 & E2 & E3 & _ & Hrep & Hall & _).
  - reflexivity.
  - reflexivity.
  - reflexivity.
  - split; [exact (BpmInv.bi_disk _ (RmP.rp_inv _ _ _ _ _ demo_rm_rep))|apply demo_log_ok|apply demo_log_ok|exact (InsP.ci_buf _ _ _ _ _ _ _ _ _ _ _ _ demo_can_insert)].
  - exact demo_no_log_frames.
  - discriminate.
  - vm_compute. discriminate.
  - exists e, rid, s', tm', h', pages', chain'. split; [exact E1|]. split; [exact E2|]. split; [exact E3|]. split; [exact Hrep|]. exact Hall.
Defined.
