(* ===== verification/Analyze.v ===== *)
(** Semantic analysis: [Analyze] of [src/src/analyze/analyze.h] and [analyze.cpp], on the statements of
    [src/src/parser/ast.h] that it treats.

    The literal of an integer is its text, a sign and digits.  A read of the catalog under the latch that
    throws leaves the latch held.  A value comes with the [raw] buffer that [init_raw] makes. *)

From Stdlib Require Import Floats.SpecFloat.
From S2P Require Import Prelude Bytes Errors Disk Defs Text Float32 SmMeta Values.
From S2P Require Import SmState Executor Agg.
From S2P Require Import IxDefs IxTree RmFile.

(** ** Syntax trees *)

Module ast.
Inductive SvCompOp := SV_OP_EQ | SV_OP_NE | SV_OP_LT | SV_OP_GT | SV_OP_LE | SV_OP_GE.
Inductive OrderByDir := OrderBy_DEFAULT | OrderBy_ASC | OrderBy_DESC.
Inductive AggregateType := COUNT | MAX | MIN | SUM | NONE.
#[global] Instance AggregateType_eq_dec : EqDecision AggregateType.
Proof. solve_decision. Defined.
#[global] Instance OrderByDir_eq_dec : EqDecision OrderByDir.
Proof. solve_decision. Defined.

Inductive Value :=
  | Int_Bint_Lit (val : string)
  | FloatLit (val : Z)
  | StringLit (val : string).
Record Col := mkCol { c_tab_name : string; c_col_name : string; c_aggregate_type : AggregateType; c_another_name : string }.
Inductive Expr := EValue (v : Value) | ECol (c : Col).
Record SetClause := mkSetClause { sc_col_name : string; sc_op : Z; sc_val : Value }.
Record BinaryExpr := mkBinaryExpr { be_lhs : Col; be_op : SvCompOp; be_rhs : Expr }.
Record OrderBy := mkOrderBy { ob_col : Col; ob_dir : OrderByDir }.

(** types of columns in [CREATE TABLE]; a field is a column definition or a node of another class *)
Inductive SvType := SV_TYPE_INT | SV_TYPE_FLOAT | SV_TYPE_STRING | SV_TYPE_BIGINT | SV_TYPE_DATETIME.
Record TypeLen := mkTypeLen { tl_type : SvType; tl_len : Z }.
Inductive Field := ColDef (col_name : string) (type_len : TypeLen) | OtherField.

(** the statements; [do_analyze] treats the last four and does nothing for the others *)
Inductive TreeNode :=
  | Help | SetOutputOff | ShowTables | TxnBegin | TxnCommit | TxnAbort | TxnRollback
  | LoadData (file_path tab_name : string)
  | ShowIndexes (tab_name : string)
  | CreateTable (tab_name : string) (fields : list Field)
  | DropTable (tab_name : string)
  | DescTable (tab_name : string)
  | CreateIndex (tab_name : string) (col_names : list string)
  | DropIndex (tab_name : string) (col_names : list string)
  | InsertStmt (tab_name : string) (vals : list Value)
  | DeleteStmt (tab_name : string) (conds : list BinaryExpr)
  | UpdateStmt (tab_name : string) (set_clauses : list SetClause) (conds : list BinaryExpr)
  | SelectStmt (cols : list Col) (tabs : list string) (conds : list BinaryExpr) (orderbys : option (list OrderBy)) (limit : option Value).
End ast.

(** a value with its [raw] buffer *)
Definition AValue : Type := Value * option (list Z).

(** [Query]; the raw buffers of the values of conditions and set clauses are those of the values *)
Record Query := mkQuery {
  q_conds : list (Condition * option (list Z));
  q_cols : list TabCol;
  q_tables : list string;
  q_set_clauses : list (SetClause * option (list Z));
  q_values : list AValue;
  q_order_by : list (TabCol * bool);
  q_limit : option Z;
}.
Definition new_Query : Query := mkQuery [] [] [] [] [] [] None.

(** ** Literals *)

Module An.
Import Text Lit.

(** [std::to_string(std::numeric_limits<float>::max())], of [lowest()] *)
Definition flt_max : text := str "340282346638528859811704183484516925440.000000".
Definition flt_lowest : text := str "-340282346638528859811704183484516925440.000000".
Definition no_overflow_float : text -> bool := no_overflow flt_max flt_lowest.

(** [std::stof] of an integer: the nearest float; other texts are not literals of integers *)
Definition stof (s : text) : Prog unit Z :=
  (match number (skip_ws s) with
   | Some (v, []) =>
       match binary_normalize 24 128 v 0 (v <? 0) with
       | S754_infinity _ => throw OutOfRange
       | f => deref (f32_bits f)
       end
   | Some _ => fail Undef
   | None => throw InvalidArgument
   end)%prog.

(** [static_cast<int>] of a float: towards zero; undefined when out of range *)
Definition f32_trunc (f : spec_float) : option Z :=
  match f with
  | S754_zero _ => Some 0
  | S754_finite s m e =>
      let n := if 0 <=? e then Zpos m * 2 ^ e else Zpos m / 2 ^ (- e) in
      Some (if s then - n else n)
  | _ => None
  end.
Definition f32_to (lo hi : Z) (w : Z) : Prog unit Z :=
  (let* n := deref (f32_trunc (f32_of_bits w)) in
   if (lo <=? n) && (n <=? hi) then ret n else fail Undef)%prog.

Section convert.
Local Open Scope prog_scope.

(** [Analyze::convert_sv_value] up to the raw buffer *)
Definition convert_lit (sv_val : ast.Value) (col : ColMeta) : Prog unit Value :=
  match sv_val with
  | ast.Int_Bint_Lit val =>
      let int_bint := String.list_ascii_of_string val in
      match cm_type col with
      | TYPE_BIGINT => if no_overflow_int64 int_bint then let* v := Val.lift_sum (stoll int_bint) in ret (VBigint v) else throw (BigIntOverflowError val)
      | TYPE_INT => if no_overflow_int int_bint then let* v := Val.lift_sum (stoi int_bint) in ret (VInt v) else throw (IntOverflowError val)
      | TYPE_FLOAT => if no_overflow_float int_bint then let* w := stof int_bint in ret (VFloat w) else throw (FloatOverflowError val)
      | t => throw (CastTypeError "int_bigint" (coltype2str t))
      end
  | ast.FloatLit w =>
      match cm_type col with
      | TYPE_FLOAT => ret (VFloat w)
      | TYPE_INT => let* n := f32_to (- 2 ^ 31) (2 ^ 31 - 1) w in ret (VInt n)
      | TYPE_BIGINT => let* n := f32_to (- 2 ^ 63) (2 ^ 63 - 1) w in ret (VBigint n)
      | t => throw (CastTypeError "float" (coltype2str t))
      end
  | ast.StringLit val =>
      match cm_type col with
      | TYPE_STRING => ret (VString val)
      | TYPE_DATETIME => Val.check_set_datetime (String.list_ascii_of_string val)
      | t => throw (CastTypeError "string" (coltype2str t))
      end
  end.

Definition convert_sv_value (sv_val : ast.Value) (col : ColMeta) : Prog unit AValue :=
  let* val := convert_lit sv_val col in
  let* raw := Val.init_raw val (cm_len col) in
  ret (val, Some raw).
End convert.

Definition convert_sv_comp_op (op : ast.SvCompOp) : CompOp :=
  match op with
  | ast.SV_OP_EQ => OP_EQ | ast.SV_OP_NE => OP_NE | ast.SV_OP_LT => OP_LT
  | ast.SV_OP_GT => OP_GT | ast.SV_OP_LE => OP_LE | ast.SV_OP_GE => OP_GE
  end.

(** [{.tab_name = tab_name, .col_name = col_name}]: the other fields are zero *)
Definition tab_col (tab_name col_name : string) : TabCol := mkTabCol tab_name col_name false COUNT "" "".
Definition set_tab (tab_name : string) (t : TabCol) : TabCol :=
  mkTabCol tab_name (tc_col_name t) (has_agg t) (aggregate_type t) (another_name t) (agg_arg_col_name t).

(** ** Columns *)

(** the loop of [check_column] that infers the table *)
Fixpoint infer_tab (all_cols : list ColMeta) (col_name : string) (tab_name : string) : error + string :=
  match all_cols with
  | [] => inr tab_name
  | col :: cols =>
      if String.eqb (cm_name col) col_name then
        if String.eqb tab_name "" then infer_tab cols col_name (cm_tab_name col) else inl (AmbiguousColumnError col_name)
      else infer_tab cols col_name tab_name
  end.

(** [Analyze::check_column] *)
Definition check_column (all_cols : list ColMeta) (target : TabCol) : error + TabCol :=
  if String.eqb (tc_tab_name target) "" then
    match infer_tab all_cols (tc_col_name target) "" with
    | inl e => inl e
    | inr tab_name =>
        if String.eqb tab_name "" && negb (has_agg target) then inl (ColumnNotFoundError (tc_col_name target))
        else inr (set_tab tab_name target)
    end
  else if existsb (fun col => String.eqb (cm_tab_name col) (tc_tab_name target) && String.eqb (cm_name col) (tc_col_name target)) all_cols
  then inr target else inl (ColumnNotFoundError (tc_col_name target)).

Section ops.
Context {S : Type}.
Local Open Scope prog_scope.
Abbreviation SM := (SmManager S).

(** [Analyze::get_all_cols], appending to [all_cols] *)
Fixpoint get_all_cols (tab_names : list string) (all_cols : list ColMeta) : Prog SM (list ColMeta) :=
  match tab_names with
  | [] => ret all_cols
  | t :: tab_names =>
      let* tab := SmSt.read_table t in
      get_all_cols tab_names (all_cols ++ tm_cols tab)
  end.

(** [get_table(t).get_col(c)] under the latch *)
Definition read_col (tab_name col_name : string) : Prog SM ColMeta :=
  SmSt.RLatch;;
  let* tab := SmSt.get_table tab_name in
  let* col := SmSt.of_sum (Meta.get_col tab col_name) in
  SmSt.RUnLatch;;
  ret col.

(** one condition of [get_check_clause] *)
Definition check_cond (all_cols : list ColMeta) (expr : ast.BinaryExpr) : Prog SM (Condition * option (list Z)) :=
  let op := convert_sv_comp_op (ast.be_op expr) in
  let* lhs := SmSt.of_sum (check_column all_cols (tab_col (ast.c_tab_name (ast.be_lhs expr)) (ast.c_col_name (ast.be_lhs expr)))) in
  let* lhs_col := read_col (tc_tab_name lhs) (tc_col_name lhs) in
  match ast.be_rhs expr with
  | ast.EValue rhs_val =>
      let* v := pure_call (convert_sv_value rhs_val lhs_col) in
      ret (mkCondition lhs op true (tab_col "" "") v.1, v.2)
  | ast.ECol rhs_col =>
      let* rhs := SmSt.of_sum (check_column all_cols (tab_col (ast.c_tab_name rhs_col) (ast.c_col_name rhs_col))) in
      let* rcol := read_col (tc_tab_name rhs) (tc_col_name rhs) in
      (if Val.type_compatible (cm_type lhs_col) (cm_type rcol) then ret tt
       else throw (CastTypeError (coltype2str (cm_type lhs_col)) (coltype2str (cm_type rcol))));;
      ret (mkCondition lhs op false rhs (VInt 0), None)
  end.

Fixpoint map_m {A B} (f : A -> Prog SM B) (l : list A) : Prog SM (list B) :=
  match l with [] => ret [] | x :: l => let* y := f x in let* ys := map_m f l in ret (y :: ys) end.

(** [Analyze::get_check_clause] *)
Definition get_check_clause (sv_conds : list ast.BinaryExpr) (tab_names : list string) : Prog SM (list (Condition * option (list Z))) :=
  let* all_cols := get_all_cols tab_names [] in
  map_m (check_cond all_cols) sv_conds.

(** [Analyze::get_check_orderby_clause] *)
Definition get_check_orderby_clause (order_bys : list ast.OrderBy) (tab_names : list string) : Prog SM (list (TabCol * bool)) :=
  let* all_cols := get_all_cols tab_names [] in
  map_m (fun o => let* c := SmSt.of_sum (check_column all_cols (tab_col (ast.c_tab_name (ast.ob_col o)) (ast.c_col_name (ast.ob_col o)))) in
                  ret (c, bool_decide (ast.ob_dir o = ast.OrderBy_DESC))) order_bys.

(** [Analyze::get_limit_clause] *)
Definition get_limit_clause (val : ast.Value) : Prog SM Z :=
  match val with
  | ast.Int_Bint_Lit v =>
      let int_bint := String.list_ascii_of_string v in
      if no_overflow_int int_bint then SmSt.of_sum (stoi int_bint) else throw (IntOverflowError v)
  | _ => fail AssertFail
  end.

(** *** [do_analyze] *)

(** a column of the target list; [agg0] is the uninitialised [aggregate_type] *)
Definition sel_col (agg0 : AggType) (c : ast.Col) : TabCol :=
  let base a := mkTabCol (ast.c_tab_name c) (ast.c_col_name c) true a (ast.c_another_name c) (ast.c_col_name c) in
  match ast.c_aggregate_type c with
  | ast.NONE => mkTabCol (ast.c_tab_name c) (ast.c_col_name c) false agg0 "" ""
  | ast.MAX => base MAX
  | ast.COUNT => base COUNT
  | ast.MIN => base MIN
  | ast.SUM => base SUM
  end.

(** the name of [COUNT( * )] *)
Definition name_count (c : TabCol) : TabCol :=
  if String.eqb (tc_col_name c) "" && String.eqb (another_name c) ""
  then mkTabCol (tc_tab_name c) (tc_col_name c) (has_agg c) (aggregate_type c) "COUNT(*)" (agg_arg_col_name c) else c.

Definition analyze_select (agg0 : AggType) (cols : list ast.Col) (tabs : list string) (conds : list ast.BinaryExpr)
    (orderbys : option (list ast.OrderBy)) (limit : option ast.Value) : Prog SM Query :=
  let* all_cols := get_all_cols tabs [] in
  let qcols := name_count <$> (sel_col agg0 <$> cols) in
  let* qcols := (match qcols with
                 | [] => ret ((fun col => tab_col (cm_tab_name col) (cm_name col)) <$> all_cols)
                 | _ => map_m (fun c => SmSt.of_sum (check_column all_cols c)) qcols
                 end) in
  let* qconds := get_check_clause conds tabs in
  let* ord := (match orderbys with Some o => get_check_orderby_clause o tabs | None => ret [] end) in
  let* lim := (match limit with Some v => let* n := get_limit_clause v in ret (Some n) | None => ret None end) in
  ret (mkQuery qconds qcols tabs [] [] ord lim).

(** one set clause *)
Definition check_set (tab_name : string) (all_cols : list ColMeta) (c : ast.SetClause) : Prog SM (SetClause * option (list Z)) :=
  let* lhs := SmSt.of_sum (check_column all_cols (tab_col tab_name (ast.sc_col_name c))) in
  let* lhs_col := read_col (tc_tab_name lhs) (tc_col_name lhs) in
  let* v := pure_call (convert_sv_value (ast.sc_val c) lhs_col) in
  ret (mkSetClause lhs v.1 (ast.sc_op c), v.2).

Definition analyze_update (tab_name : string) (set_clauses : list ast.SetClause) (conds : list ast.BinaryExpr) : Prog SM Query :=
  let* all_cols := get_all_cols [tab_name] [] in
  let* sets := map_m (check_set tab_name all_cols) set_clauses in
  let* qconds := get_check_clause conds [tab_name] in
  ret (mkQuery qconds [] [] sets [] [] None).

Definition analyze_insert (tab_name : string) (vals : list ast.Value) : Prog SM Query :=
  let* all_cols := get_all_cols [tab_name] [] in
  assert (length all_cols =? length vals)%nat;;
  let* values := map_m (fun x => let* col := read_col tab_name (cm_name x.1) in pure_call (convert_sv_value x.2 col)) (zip all_cols vals) in
  ret (mkQuery [] [] [] [] values [] None).

(** the same branch as it is built, with [-DNDEBUG]: the number of the values is not checked, values after the last column are
    not looked at, and a value that is missing is read past the end of the vector *)
Definition analyze_insert_ndebug (tab_name : string) (vals : list ast.Value) : Prog SM Query :=
  let* all_cols := get_all_cols [tab_name] [] in
  let* values := map_m (fun x => let* col := read_col tab_name (cm_name x.1) in let* v := deref x.2 in pure_call (convert_sv_value v col))
    (imap (fun i col => (col, vals !! i)) all_cols) in
  ret (mkQuery [] [] [] [] values [] None).

(** [Analyze::do_analyze] *)
Definition do_analyze (agg0 : AggType) (parse : ast.TreeNode) : Prog SM Query :=
  match parse with
  | ast.SelectStmt cols tabs conds orderbys limit => analyze_select agg0 cols tabs conds orderbys limit
  | ast.UpdateStmt tab_name set_clauses conds => analyze_update tab_name set_clauses conds
  | ast.DeleteStmt tab_name conds => let* qconds := get_check_clause conds [tab_name] in ret (mkQuery qconds [] [] [] [] [] None)
  | ast.InsertStmt tab_name vals => analyze_insert tab_name vals
  | _ => ret new_Query
  end.
End ops.
End An.
