(* ===== verification/AnalyzeProps.v ===== *)
(** Semantic analysis: the values of an analysed INSERT have the types of the columns, and column names are
    resolved to the one table that has them. *)

From Stdlib Require Import Floats.SpecFloat Strings.Ascii.
From S2P Require Import Prelude Bytes Errors Disk Defs Text Float32 SmMeta.
From S2P Require Import Values ValuesProps SmState Executor Agg Dml DmlProps Analyze.
From S2P Require Import IxDefs IxTree RmFile.

Module AnP.
Import Text Lit An InsP.

(** ** Floats made of integers *)

Lemma digits2_pos_bound m : Zpos m < 2 ^ Zpos (digits2_pos m).
Proof.
  induction m as [m IH|m IH|]; cbn [digits2_pos]; [| |done]; rewrite Pos2Z.inj_succ, Z.pow_succ_r by lia; lia.
Qed.

Lemma shr_1_div mrs : 0 <= shr_m mrs -> shr_m (shr_1 mrs) = shr_m mrs / 2 /\ 0 <= shr_m (shr_1 mrs).
Proof.
  destruct mrs as [m r s]. cbn [shr_m]. intros Hm. unfold shr_1. cbn [shr_m shr_r shr_s].
  destruct m as [|[p|p|]|p]; cbn [shr_m]; [done| | |done|lia].
  - split; [|lia]. rewrite <- Z.div2_div. reflexivity.
  - split; [|lia]. rewrite <- Z.div2_div. reflexivity.
Qed.

Lemma shr_iter p mrs : 0 <= shr_m mrs -> shr_m (SpecFloat.iter_pos shr_1 p mrs) = shr_m mrs / 2 ^ Zpos p /\ 0 <= shr_m (SpecFloat.iter_pos shr_1 p mrs).
Proof.
  revert mrs. induction p as [p IH|p IH|]; intros mrs Hm; cbn [SpecFloat.iter_pos].
  - destruct (shr_1_div mrs Hm) as [E0 H0]. destruct (IH _ H0) as [E1 H1]. destruct (IH _ H1) as [E2 H2]. split; [|done].
    rewrite E2, E1, E0, !Z.div_div by lia. f_equal. rewrite <- Z.pow_add_r by lia. change 2 with (2 ^ 1) at 1. rewrite <- Z.pow_add_r by lia. f_equal. lia.
  - destruct (IH _ Hm) as [E1 H1]. destruct (IH _ H1) as [E2 H2]. split; [|done].
    rewrite E2, E1, Z.div_div by lia. f_equal. rewrite <- Z.pow_add_r by lia. f_equal. lia.
  - apply shr_1_div, Hm.
Qed.

Lemma shr_record_m m l : shr_m (shr_record_of_loc m l) = m.
Proof. by destruct l as [|[]]. Qed.

(** after a shift to the precision the mantissa has at most 24 digits and the exponent is not below the least *)
Lemma shr_fexp_bound m e l mrs e' : 0 <= m -> shr_fexp 24 128 m e l = (mrs, e') -> 0 <= shr_m mrs < 2 ^ 24 /\ -149 <= e'.
Proof.
  intros Hm. unfold shr_fexp, shr, fexp, emin. set (d := Zdigits2 m). set (n := Z.max (d + e - 24) (3 - 128 - 24) - e).
  assert (Hd : m < 2 ^ d /\ 0 <= d).
  { unfold d. destruct m as [|p|p]; cbn [Zdigits2]; [lia| |lia]. split; [apply digits2_pos_bound|lia]. }
  pose proof (shr_record_m m l) as Er. destruct (Z_le_gt_dec n 0) as [Hn|Hn].
  - assert (E : (match n with Zpos p => (SpecFloat.iter_pos shr_1 p (shr_record_of_loc m l), e + n) | _ => (shr_record_of_loc m l, e) end) = (shr_record_of_loc m l, e))
      by (destruct n; [done|lia|done]).
    rewrite E. intros H. injection H as <- <-. rewrite Er. assert (2 ^ d <= 2 ^ 24) by (apply Z.pow_le_mono_r; lia). lia.
  - destruct n as [|p|p] eqn:En; [lia| |lia]. intros H. injection H as <- <-. destruct (shr_iter p (shr_record_of_loc m l)) as [E H0]; [by rewrite Er|].
    split; [|lia]. split; [done|]. rewrite E, Er. apply Z.div_lt_upper_bound; [lia|]. rewrite <- Z.pow_add_r by lia.
    assert (2 ^ d <= 2 ^ (Zpos p + 24)) by (apply Z.pow_le_mono_r; lia). lia.
Qed.

Lemma round_nonneg m l : 0 <= m -> 0 <= round_nearest_even m l.
Proof. intros Hm. unfold round_nearest_even. destruct l as [|[]]; [lia|destruct (Z.even m); lia|lia|lia]. Qed.

(** a rounded float is an infinity or has the form of a 32-bit number *)
Definition f32_form (f : spec_float) : Prop :=
  match f with S754_finite _ m e => Zpos m < 2 ^ 24 /\ -149 <= e <= 104 | _ => True end.

Lemma binary_round_aux_form sx mx ex lx : 0 <= mx -> f32_form (binary_round_aux 24 128 sx mx ex lx).
Proof.
  intros Hm. unfold binary_round_aux. destruct (shr_fexp 24 128 mx ex lx) as [mrs' e'] eqn:E1.
  destruct (shr_fexp_bound _ _ _ _ _ Hm E1) as [[H0 _] _].
  destruct (shr_fexp 24 128 (round_nearest_even _ _) e' loc_Exact) as [mrs'' e''] eqn:E2.
  destruct (shr_fexp_bound _ _ _ _ _ (round_nonneg _ _ H0) E2) as [[H1 H2] H3].
  destruct (shr_m mrs'') as [|m|m] eqn:Em; [done| |done]. destruct (Z.leb_spec e'' (128 - 24)); [|done]. simpl. lia.
Qed.

Lemma binary_normalize_form z e s : f32_form (binary_normalize 24 128 z e s).
Proof.
  destruct z as [|p|p]; cbn [binary_normalize]; [done| |]; unfold binary_round; destruct (shl_align _ _ _); apply binary_round_aux_form; lia.
Qed.

Lemma f32_bits_range f w : f32_form f -> f32_bits f = Some w -> 0 <= w < 2 ^ 32.
Proof.
  intros Hf. unfold f32_bits. destruct f as [s|s| |s m e]; simpl in Hf; intros H; simplify_eq; change (2 ^ 31) with 2147483648 in *;
    change (2 ^ 23) with 8388608 in *; change (2 ^ 32) with 4294967296; change (2 ^ 24) with 16777216 in *; [destruct s; lia..|].
  destruct (Z.ltb_spec (Zpos m) 8388608); destruct s; lia.
Qed.

(** ** Literals *)

Lemma bind_returns {E S A B} (m : M E S A) (k : A -> M E S B) s b s' :
  bind m k s = (Ok b, s') -> exists a s1, m s = (Ok a, s1) /\ k a s1 = (Ok b, s').
Proof. unfold bind. destruct (m s) as [[a|e|f] s1]; intros H; [by eauto|done|done]. Qed.

Ltac returns := repeat match goal with
  | H : bind ?m ?k ?s = (Ok _, _) |- _ =>
      let a := fresh "a" in let s1 := fresh "s1" in let H1 := fresh "R" in
      apply bind_returns in H; destruct H as (a & s1 & H1 & H); cbv beta in H
  | H : throw _ _ = (Ok _, _) |- _ => discriminate H
  | H : ret _ _ = (Ok _, _) |- _ => injection H as ? ?; subst
  end.

Lemma sto_range lo hi s z u u' : Val.lift_sum (sto lo hi s) u = (Ok z, u') -> lo <= z <= hi /\ exists r, number (skip_ws s) = Some (z, r).
Proof.
  unfold sto. destruct (number (skip_ws s)) as [[v r]|]; [|done]. destruct (Z.leb_spec lo v); [|done]. destruct (Z.leb_spec v hi); [|done].
  cbn. intros E. injection E as <- _. split; [lia|]. by eexists.
Qed.

Lemma digits_range acc s : 0 <= acc -> acc <= (digits acc s).1 < (acc + 1) * 10 ^ zlen s.
Proof.
  revert acc. induction s as [|c s IH]; intros acc Ha; cbn [digits]; [cbn [fst]; change (10 ^ zlen []) with 1; lia|]. unfold zlen. cbn [length]. rewrite Nat2Z.inj_succ, Z.pow_succ_r by lia.
  fold (zlen s). assert (Hp : 0 < 10 ^ zlen s) by (apply Z.pow_pos_nonneg; unfold zlen; lia).
  destruct (digit c) as [d|] eqn:E; [|cbn; nia]. unfold digit in E. destruct ((48 <=? _) && _) eqn:E'; [|done].
  apply andb_true_iff in E' as [E1 E2]. apply Z.leb_le in E1, E2. injection E as <-. specialize (IH (10 * acc + (Z.of_nat (nat_of_ascii c) - 48)) ltac:(lia)). nia.
Qed.

Lemma skip_ws_le s : zlen (skip_ws s) <= zlen s.
Proof. induction s as [|c s IH]; [done|]. cbn [skip_ws]. destruct (is_space c); unfold zlen in *; cbn [length] in *; lia. Qed.

(** a numeral of [n] characters is below [10 ^ n] *)
Lemma number_range s z r : number s = Some (z, r) -> - 10 ^ zlen s < z < 10 ^ zlen s.
Proof.
  assert (Hu : forall neg t, unsigned neg t = Some (z, r) -> - 10 ^ zlen t < z < 10 ^ zlen t).
  { intros neg t. unfold unsigned. destruct (starts_digit t); [|done]. pose proof (digits_range 0 t ltac:(lia)) as Hd.
    destruct (digits 0 t) as [v r']. cbn [fst] in Hd. intros H. injection H as <- _. destruct neg; lia. }
  destruct s as [|c s]; [done|]. assert (Hp : 10 ^ zlen s <= 10 ^ zlen (c :: s)) by (apply Z.pow_le_mono_r; unfold zlen; cbn [length]; lia).
  cbn [number]. destruct (Ascii.eqb c "-"); [intros H%Hu; lia|]. destruct (Ascii.eqb c "+"); [intros H%Hu; lia|apply Hu].
Qed.

Lemma substr_number n pos s lo hi z u u' :
  Val.lift_sum (sto lo hi (Val.substr pos n s)) u = (Ok z, u') -> - 10 ^ Z.of_nat n < z < 10 ^ Z.of_nat n.
Proof.
  intros (_ & r & H)%sto_range. apply number_range in H. assert (10 ^ zlen (skip_ws (Val.substr pos n s)) <= 10 ^ Z.of_nat n); [|lia].
  apply Z.pow_le_mono_r; [lia|]. pose proof (skip_ws_le (Val.substr pos n s)). unfold Val.substr, zlen in *. rewrite length_take in *. lia.
Qed.

(** a text that is accepted as a datetime gives a packed integer of 64 bits *)
Lemma check_set_datetime_range s v u u' : Val.check_set_datetime s u = (Ok v, u') -> exists n, v = VDatetime n /\ int64_ok n.
Proof.
  unfold Val.check_set_datetime, stoi, stoll. destruct (_ && _); [|done]. cbv zeta. intros H. returns. destruct (_ && _); [|done]. returns.
  repeat match goal with R : Val.lift_sum _ _ = _ |- _ => apply substr_number in R end. eexists. split; [done|]. rewrite pack_value. unfold int64_ok.
  change (10 ^ Z.of_nat 4) with 10000 in *. change (10 ^ Z.of_nat 2) with 100 in *.
  change (2 ^ 63) with 9223372036854775808. change (2 ^ 40) with 1099511627776. change (2 ^ 32) with 4294967296. change (2 ^ 24) with 16777216.
  change (2 ^ 16) with 65536. change (2 ^ 8) with 256. lia.
Qed.

Definition lit_ok (v : ast.Value) : Prop :=
  match v with
  | ast.Int_Bint_Lit _ => True
  | ast.FloatLit w => 0 <= w < 2 ^ 32
  | ast.StringLit s => Forall (fun b => b <> 0) (string_bytes s)
  end.

(** the ranges of the values of each type *)
Definition in_range (v : Value) : Prop :=
  match v with
  | VInt i => int32_ok i
  | VBigint i | VDatetime i => int64_ok i
  | VFloat w => 0 <= w < 2 ^ 32
  | VString s => Forall (fun b => b <> 0) (string_bytes s)
  end.

Lemma stof_range s w u u' : stof s u = (Ok w, u') -> 0 <= w < 2 ^ 32.
Proof.
  unfold stof. destruct (number (skip_ws s)) as [[v [|]]|]; [|done|done]. pose proof (binary_normalize_form v 0 (v <? 0)) as Hf.
  destruct (binary_normalize 24 128 v 0 (v <? 0)) as [b|b| |b m e] eqn:E; [|done| |].
  all: match goal with |- deref ?o _ = _ -> _ => destruct o as [z|] eqn:Eb; [|done] end; cbn; intros H; injection H as <- _; by apply (f32_bits_range _ _ Hf Eb).
Qed.

Lemma f32_to_range lo hi w n u u' : f32_to lo hi w u = (Ok n, u') -> lo <= n <= hi.
Proof.
  unfold f32_to. intros H. returns. destruct (Z.leb_spec lo a); [|done]. destruct (Z.leb_spec a hi); [|done]. cbn in H. injection H as <- _. lia.
Qed.

(** conversion: a literal that is converted has the type of the column and is in its range *)
Lemma convert_lit_typed lit col v u u' : lit_ok lit -> convert_lit lit col u = (Ok v, u') -> Val.type v = cm_type col /\ in_range v.
Proof.
  intros Hl. destruct lit as [t|w|t]; cbn [convert_lit]; destruct (cm_type col) eqn:Et; try (intros H; discriminate H).
  - destruct (no_overflow_int _); [|done]. intros H. returns. apply sto_range in R as [Hr _]. split; [done|]. unfold in_range, int32_ok. lia.
  - destruct (no_overflow_float _); [|done]. intros H. returns. split; [done|]. by apply stof_range in R.
  - destruct (no_overflow_int64 _); [|done]. intros H. returns. apply sto_range in R as [Hr _]. split; [done|]. unfold in_range, int64_ok. lia.
  - intros H. returns. apply f32_to_range in R. split; [done|]. unfold in_range, int32_ok. lia.
  - intros H. returns. by split.
  - intros H. returns. apply f32_to_range in R. split; [done|]. unfold in_range, int64_ok. lia.
  - intros H. returns. by split.
  - intros H. apply check_set_datetime_range in H as (n & -> & Hn). by split.
Qed.

Lemma convert_typed lit col v u u' : lit_ok lit -> convert_sv_value lit col u = (Ok v, u') -> value_for col v.
Proof.
  intros Hl. unfold convert_sv_value. intros H. returns. destruct u'. apply convert_lit_typed in R as [Ht Hr]; [|done]. unfold value_for. cbn [fst snd].
  split; [done|]. destruct s1. split; [|by eexists]. revert R0. destruct a as [i|i|w|t|i]; cbn [Val.init_raw value_ok in_range] in *; intros R0.
  all: try (returns; match goal with R : assert (?l =? ?n) _ = _ |- _ => destruct (Z.eqb_spec l n); [by split|discriminate R] end).
  destruct (Z.ltb_spec (cm_len col) (zlen (string_bytes t))); [done|]. split; [lia|done].
Qed.

(** ** INSERT *)

Section insert.
Context {S : Type}.
Implicit Types (s : SmManager S) (tab : TabMeta).

Lemma read_col_ok tab_name col_name tab col s :
  writer (db_latch_ s) = false -> Meta.get_table (db_ s) tab_name = inr tab -> Meta.get_col tab col_name = inr col ->
  read_col tab_name col_name s = (Ok col, s).
Proof.
  intros Hw Ht Hc. pose proof (SmSt.read_table_ok tab_name tab s Hw Ht) as Hr. destruct s as [c d [r w] f i l]. simpl in *. subst w.
  unfold read_col, SmSt.RLatch, SmSt.try_mutex, SmSt.lock_shared, bind, SmSt.get_table, SmSt.RUnLatch, modify. simpl. rewrite Ht. simpl. rewrite Hc. simpl.
  unfold ret, SmSt.set_db_latch, SmSt.unlock_shared. simpl. by rewrite Z.add_simpl_r.
Qed.

Lemma get_col_nodup tab col : NoDup (cm_name <$> tm_cols tab) -> col ∈ tm_cols tab -> Meta.get_col tab (cm_name col) = inr col.
Proof.
  unfold Meta.get_col, Meta.find_from_cols. induction (tm_cols tab) as [|c cols IH]; intros Hn Hc; [by apply elem_of_nil in Hc|].
  rewrite fmap_cons in Hn. apply NoDup_cons in Hn as [Hc' Hn]. cbn [Meta.find_col]. case_bool_decide as E.
  - apply elem_of_cons in Hc as [->|Hc]; [done|]. destruct Hc'. rewrite E. by apply list_elem_of_fmap_2.
  - apply elem_of_cons in Hc as [->|Hc]; [done|]. by apply IH.
Qed.

(** the loop over the values, when every read of a column succeeds: the conversions in order, up to the first that does not return *)
Definition convert_all (l : list (ColMeta * ast.Value)) : Prog (SmManager S) (list AValue) :=
  map_m (fun x => pure_call (convert_sv_value x.2 x.1)) l.

Lemma map_m_ext {A B} (f g : A -> Prog (SmManager S) B) l s :
  (forall x, x ∈ l -> f x s = g x s /\ (g x s).2 = s) -> map_m f l s = map_m g l s.
Proof.
  induction l as [|x l IH]; intros H; [done|]. cbn [map_m]. unfold bind at 1 3. destruct (H x) as [-> Hs]; [by left|].
  destruct (g x s) as [[y|e|f'] s1]; [|done|done]. cbn [snd] in Hs. subst s1. unfold bind. rewrite IH; [done|]. intros z Hz. apply H. by right.
Qed.

Lemma analyze_insert_loop tab_name vals tab s :
  writer (db_latch_ s) = false -> Meta.get_table (db_ s) tab_name = inr tab -> NoDup (cm_name <$> tm_cols tab) ->
  length vals = length (tm_cols tab) ->
  analyze_insert tab_name vals s = bind (convert_all (zip (tm_cols tab) vals)) (fun values => ret (mkQuery [] [] [] [] values [] None)) s.
Proof.
  intros Hw Ht Hn Hl. unfold analyze_insert. cbn [get_all_cols]. rewrite bind_assoc.
  rewrite (bind_ok _ _ _ _ _ (SmSt.read_table_ok tab_name tab s Hw Ht)). cbn [app].
  rewrite (bind_ok (ret (tm_cols tab)) _ s (tm_cols tab) s) by done.
  rewrite (bind_ok (assert _) _ s tt s) by (by rewrite Hl, Nat.eqb_refl). unfold bind at 1 3. unfold convert_all.
  rewrite (map_m_ext _ (fun x => pure_call (convert_sv_value x.2 x.1))); [done|]. intros [col v] Hx. cbn [fst snd]. split; [|done].
  apply elem_of_zip_l in Hx. by rewrite (bind_ok _ _ _ _ _ (read_col_ok _ _ _ _ _ Hw Ht (get_col_nodup _ _ Hn Hx))).
Qed.

Lemma convert_all_returns l s vs s' :
  convert_all l s = (Ok vs, s') -> s' = s /\ Forall2 (fun x v => convert_sv_value x.2 x.1 tt = (Ok v, tt)) l vs.
Proof.
  revert vs. unfold convert_all. induction l as [|x l IH]; intros vs H; cbn [map_m] in H; returns; [by split|].
  unfold pure_call in R. destruct (convert_sv_value x.2 x.1 tt) as [r []] eqn:E. cbn [fst] in R. injection R as -> <-.
  apply IH in R0 as [-> HF]. split; [done|]. by constructor.
Qed.

Lemma convert_all_ok l s vs :
  Forall2 (fun x v => convert_sv_value x.2 x.1 tt = (Ok v, tt)) l vs -> convert_all l s = (Ok vs, s).
Proof.
  unfold convert_all. induction 1 as [|x v l vs Hx _ IH]; [done|]. cbn [map_m].
  rewrite (bind_ok _ _ s v s) by (unfold pure_call; by rewrite Hx). by rewrite (bind_ok _ _ s vs s IH).
Qed.
End insert.

(** ** Values and the literals that denote them *)

Inductive lit_of : ast.Value -> Value -> Prop :=
  | lit_int i : lit_of (ast.Int_Bint_Lit (String.string_of_list_ascii (show_int i))) (VInt i)
  | lit_bigint i : lit_of (ast.Int_Bint_Lit (String.string_of_list_ascii (show_int i))) (VBigint i)
  | lit_float w : lit_of (ast.FloatLit w) (VFloat w)
  | lit_string t : lit_of (ast.StringLit t) (VString t)
  | lit_datetime y mo d h mi se : datetime_ok y mo d h mi se ->
      lit_of (ast.StringLit (String.string_of_list_ascii (datetime_text y mo d h mi se))) (VDatetime (Val.pack y mo d h mi se)).

Lemma convert_lit_of lit v col : lit_of lit v -> cm_type col = Val.type v -> in_range v -> convert_lit lit col tt = (Ok v, tt).
Proof.
  intros Hl Ht Hr. destruct Hl as [i|i|w|t|y mo d h mi se Hd]; cbn [convert_lit Val.type in_range] in *; rewrite Ht.
  - rewrite String.list_ascii_of_string_of_list_ascii. unfold int32_ok in Hr. unfold no_overflow_int, stoi.
    rewrite (proj2 (no_overflow_range _ _ i)), sto_show by lia. done.
  - rewrite String.list_ascii_of_string_of_list_ascii. unfold int64_ok in Hr. unfold no_overflow_int64, stoll.
    rewrite (proj2 (no_overflow_range _ _ i)), sto_show by lia. done.
  - done.
  - done.
  - rewrite String.list_ascii_of_string_of_list_ascii. by apply datetime_reads.
Qed.

Lemma value_ok_in_range v len : value_ok v len -> in_range v.
Proof. destruct v; simpl; tauto. Qed.

(** what the values of the columns are: their literals convert to them *)
Lemma convert_value_for lit col v : lit_of lit v.1 -> value_for col v -> convert_sv_value lit col tt = (Ok v, tt).
Proof.
  intros Hl (Ht & Hok & raw & Er & Hraw). unfold convert_sv_value. rewrite (bind_ok _ _ tt v.1 tt) by (by apply convert_lit_of, (value_ok_in_range _ (cm_len col))).
  rewrite (bind_ok _ _ tt raw tt Hraw). destruct v as [v o]. simpl in Er. by subst o.
Qed.

(** the loop over the columns keeps the table of the last match and stops at the second *)
Lemma infer_tab_filter all_cols col_name tab_name :
  Forall (fun c => cm_tab_name c <> ""%string) all_cols ->
  infer_tab all_cols col_name tab_name =
    match filter (fun c => cm_name c = col_name) all_cols with
    | [] => inr tab_name
    | [c] => if String.eqb tab_name "" then inr (cm_tab_name c) else inl (AmbiguousColumnError col_name)
    | _ => inl (AmbiguousColumnError col_name)
    end.
Proof.
  intros Hne. revert tab_name. induction Hne as [|c cols Hc _ IH]; intros tab_name; [done|]. cbn [infer_tab]. rewrite filter_cons.
  destruct (String.eqb_spec (cm_name c) col_name) as [E|E]; [|by rewrite decide_False, IH by done]. rewrite decide_True, IH by done.
  rewrite (proj2 (String.eqb_neq _ _) Hc). destruct (String.eqb tab_name ""); by destruct (filter _ cols) as [|? [|]].
Qed.

(** *** The loop over the columns of an INSERT *)

Section insert_loop.
Context {S : Type}.
Implicit Types (s : SmManager S) (tab : TabMeta).

Lemma get_col_first tab col : col ∈ tm_cols tab -> exists c0, Meta.get_col tab (cm_name col) = inr c0.
Proof.
  unfold Meta.get_col, Meta.find_from_cols. induction (tm_cols tab) as [|c cols IH]; intros Hc; [by apply elem_of_nil in Hc|].
  cbn [Meta.find_col]. case_bool_decide as E; [by eexists|]. apply elem_of_cons in Hc as [->|Hc]; [done|]. by apply IH.
Qed.

(** a value is converted for the first column of the name *)
Definition first_typed tab (col : ColMeta) (v : AValue) : Prop := exists first, Meta.get_col tab (cm_name col) = inr first /\ value_for first v.

Lemma first_typed_nodup tab vs : NoDup (cm_name <$> tm_cols tab) -> Forall2 (first_typed tab) (tm_cols tab) vs -> Forall2 value_for (tm_cols tab) vs.
Proof.
  intros Hn HF. apply Forall2_same_length_lookup. apply Forall2_same_length_lookup in HF as [Hl HF]. split; [done|]. intros i c v Hc Hv.
  destruct (HF i c v Hc Hv) as (c0 & E & Hv0). rewrite (get_col_nodup _ _ Hn) in E by (by eapply list_elem_of_lookup_2). by injection E as <-.
Qed.

Lemma map_m_returns {A B} (f : A -> Prog (SmManager S) B) (P : A -> B -> Prop) l vs s s' :
  (forall x v s1, x ∈ l -> f x s = (Ok v, s1) -> s1 = s /\ P x v) -> map_m f l s = (Ok vs, s') -> s' = s /\ Forall2 P l vs.
Proof.
  revert vs. induction l as [|x l IH]; intros vs Hf H; cbn [map_m] in H; returns; [by split|].
  apply Hf in R as [-> HP]; [|by left]. apply IH in R0 as [-> HF]; [by split; [|constructor]|]. intros y v s1 Hy. apply Hf. by right.
Qed.

Lemma step_typed tab_name tab col (o : option ast.Value) v s s1 :
  writer (db_latch_ s) = false -> Meta.get_table (db_ s) tab_name = inr tab -> col ∈ tm_cols tab -> (forall lit, o = Some lit -> lit_ok lit) ->
  bind (read_col tab_name (cm_name col)) (fun c => bind (deref o) (fun lit => pure_call (convert_sv_value lit c))) s = (Ok v, s1) ->
  s1 = s /\ is_Some o /\ first_typed tab col v.
Proof.
  intros Hw Ht Hc Hl E. destruct (get_col_first tab col Hc) as [c0 E0]. rewrite (bind_ok _ _ _ _ _ (read_col_ok _ _ _ _ _ Hw Ht E0)) in E.
  destruct o as [lit|]; [|discriminate E]. rewrite (bind_ok _ _ s lit s) in E by done. unfold pure_call in E.
  destruct (convert_sv_value lit c0 tt) as [r []] eqn:Ec. cbn [fst] in E. injection E as -> <-. split; [done|]. split; [by eexists|].
  exists c0. split; [done|]. apply (convert_typed lit c0 v tt tt); [by apply Hl|done].
Qed.

Lemma analyze_insert_returns tab_name vals tab q s s' :
  writer (db_latch_ s) = false -> Meta.get_table (db_ s) tab_name = inr tab -> Forall lit_ok vals -> length vals = length (tm_cols tab) ->
  analyze_insert tab_name vals s = (Ok q, s') -> s' = s /\ Forall2 (first_typed tab) (tm_cols tab) (q_values q).
Proof.
  intros Hw Ht Hl E H. unfold analyze_insert in H. cbn [get_all_cols] in H. rewrite bind_assoc, (bind_ok _ _ _ _ _ (SmSt.read_table_ok tab_name tab s Hw Ht)) in H.
  cbn [app] in H. rewrite (bind_ok (ret (tm_cols tab)) _ s (tm_cols tab) s), (bind_ok (assert _) _ s tt s) in H by (done || by rewrite E, Nat.eqb_refl).
  returns. apply (map_m_returns _ (fun x v => first_typed tab x.1 v)) in R as [-> HF].
  - split; [done|]. cbn [q_values]. rewrite <- (fst_zip (tm_cols tab) vals) by lia. by apply Forall2_fmap_l.
  - intros [col lit] v s1 Hx Ex. cbn [fst snd] in *. destruct (step_typed tab_name tab col (Some lit) v s s1 Hw Ht) as (? & _ & ?); [by eapply elem_of_zip_l| |done|done].
    intros ? [= <-]. rewrite Forall_forall in Hl. apply Hl. by eapply elem_of_zip_r.
Qed.

Lemma analyze_insert_count agg0 tab_name vals tab q s s' :
  writer (db_latch_ s) = false -> Meta.get_table (db_ s) tab_name = inr tab ->
  do_analyze agg0 (ast.InsertStmt tab_name vals) s = (Ok q, s') -> length vals = length (tm_cols tab).
Proof.
  intros Hw Ht H. destruct (decide (length vals = length (tm_cols tab))) as [|Hlen]; [done|exfalso]. cbn [do_analyze] in H.
  unfold analyze_insert in H. cbn [get_all_cols] in H. rewrite bind_assoc, (bind_ok _ _ _ _ _ (SmSt.read_table_ok tab_name tab s Hw Ht)) in H.
  cbn [app] in H. rewrite (bind_ok (ret (tm_cols tab)) _ s (tm_cols tab) s) in H by done.
  rewrite (proj2 (Nat.eqb_neq (length (tm_cols tab)) (length vals))) in H by congruence. discriminate H.
Qed.

Lemma analyze_ndebug_returns tab_name vals tab q s s' :
  writer (db_latch_ s) = false -> Meta.get_table (db_ s) tab_name = inr tab -> Forall lit_ok vals ->
  analyze_insert_ndebug tab_name vals s = (Ok q, s') ->
  s' = s /\ (length (tm_cols tab) <= length vals)%nat /\ Forall2 (first_typed tab) (tm_cols tab) (q_values q).
Proof.
  intros Hw Ht Hl H. unfold analyze_insert_ndebug in H. cbn [get_all_cols] in H. rewrite bind_assoc, (bind_ok _ _ _ _ _ (SmSt.read_table_ok tab_name tab s Hw Ht)) in H.
  cbn [app] in H. rewrite (bind_ok (ret (tm_cols tab)) _ s (tm_cols tab) s) in H by done. returns.
  apply (map_m_returns _ (fun x v => is_Some x.2 /\ first_typed tab x.1 v)) in R as [-> HF].
  - apply Forall2_same_length_lookup in HF as [Hn HF]. rewrite length_imap in Hn. split; [done|]. cbn [q_values]. split.
    + destruct (decide (length (tm_cols tab) <= length vals)%nat) as [|Hgt]; [done|exfalso].
      destruct (lookup_lt_is_Some_2 (tm_cols tab) (length vals)) as [c Hc]; [lia|]. destruct (lookup_lt_is_Some_2 a (length vals)) as [v Hv]; [lia|].
      destruct (HF (length vals) (c, vals !! length vals) v) as [Hs _]; [by rewrite list_lookup_imap, Hc|done|]. cbn [snd] in Hs.
      rewrite lookup_ge_None_2 in Hs by lia. by destruct Hs.
    + apply Forall2_same_length_lookup. split; [done|]. intros i c v Hc Hv. apply (HF i (c, vals !! i) v); [by rewrite list_lookup_imap, Hc|done].
  - intros [col o] v s1 Hx Ex. cbn [fst snd] in *. apply elem_of_lookup_imap in Hx as (i & c & [= -> ->] & Hi).
    apply (step_typed tab_name tab c (vals !! i) v s s1 Hw Ht); [by eapply list_elem_of_lookup_2| |done].
    intros lit Hlit. rewrite Forall_forall in Hl. apply Hl. by eapply list_elem_of_lookup_2.
Qed.
End insert_loop.

Section theorems.
Context {S : Type}.
Implicit Types (s : SmManager S).

(** C31: an INSERT that the analysis accepts is well typed, with the assertions checked and as the program is built, without
    them: the query has one value per column of the table, with the raw bytes of its length, as the executor
    requires; the value of a column has the type, range and length of the first column of its name, which is the column itself
    when the names of the columns are distinct (CREATE TABLE does not check that they are; see [analyze_insert_duplicate_column]).
    With the assertions there are as many values as columns, and without them at least as many, the rest being ignored
    ([analyze_insert_surplus]).  The catalog and its latch are as before. *)
Theorem analyze_insert_typed agg0 tab_name vals tab q s s' :
  writer (db_latch_ s) = false -> Meta.get_table (db_ s) tab_name = inr tab -> Forall lit_ok vals ->
  (do_analyze agg0 (ast.InsertStmt tab_name vals) s = (Ok q, s') \/ analyze_insert_ndebug tab_name vals s = (Ok q, s')) ->
  s' = s /\ (length (tm_cols tab) <= length vals)%nat /\
  (do_analyze agg0 (ast.InsertStmt tab_name vals) s = (Ok q, s') -> length vals = length (tm_cols tab)) /\
  Forall2 (fun col v => exists first, Meta.get_col tab (cm_name col) = inr first /\ value_for first v) (tm_cols tab) (q_values q) /\
  (NoDup (cm_name <$> tm_cols tab) -> Forall2 value_for (tm_cols tab) (q_values q)).
Proof.
  intros Hw Ht Hl H. assert (Hlen : do_analyze agg0 (ast.InsertStmt tab_name vals) s = (Ok q, s') -> length vals = length (tm_cols tab)).
  { intros E. by eapply analyze_insert_count. }
  assert (s' = s /\ (length (tm_cols tab) <= length vals)%nat /\ Forall2 (first_typed tab) (tm_cols tab) (q_values q)) as (-> & Hle & HF).
  { destruct H as [H|H]; [|by eapply analyze_ndebug_returns]. pose proof (Hlen H) as E. cbn [do_analyze] in H.
    destruct (analyze_insert_returns tab_name vals tab q s s' Hw Ht Hl E H) as [-> HF]. split; [done|]. split; [lia|done]. }
  split_and!; try done. intros Hn. by apply first_typed_nodup.
Qed.

(** without assertions the values after the last column are silently dropped *)
Theorem analyze_insert_surplus tab_name vals extra tab s :
  writer (db_latch_ s) = false -> Meta.get_table (db_ s) tab_name = inr tab -> length vals = length (tm_cols tab) ->
  analyze_insert_ndebug tab_name (vals ++ extra) s = analyze_insert_ndebug tab_name vals s.
Proof.
  intros Hw Ht Hl. unfold analyze_insert_ndebug. cbn [get_all_cols]. rewrite !bind_assoc, !(bind_ok _ _ _ _ _ (SmSt.read_table_ok tab_name tab s Hw Ht)).
  cbn [app]. rewrite !(bind_ok (ret (tm_cols tab)) _ s (tm_cols tab) s) by done. rewrite (imap_ext _ (fun i col => (col, vals !! i))); [done|].
  intros i c Hi. f_equal. apply lookup_app_l. rewrite Hl. by eapply lookup_lt_Some.
Qed.

(** every row can be written: for values of the columns' types and in their ranges,
    the INSERT of the literals that denote them (the numerals of the integers, the strings,
    the texts of the datetimes) is accepted and analysed to exactly these values. *)
Theorem analyze_insert_roundtrip agg0 tab_name vals tab values s :
  writer (db_latch_ s) = false -> Meta.get_table (db_ s) tab_name = inr tab -> NoDup (cm_name <$> tm_cols tab) ->
  Forall2 value_for (tm_cols tab) values -> Forall2 (fun lit v => lit_of lit v.1) vals values ->
  do_analyze agg0 (ast.InsertStmt tab_name vals) s = (Ok (mkQuery [] [] [] [] values [] None), s).
Proof.
  intros Hw Ht Hn HF Hl. cbn [do_analyze]. rewrite (analyze_insert_loop _ _ tab); [|done..|].
  - rewrite (bind_ok _ _ s values s); [done|]. apply convert_all_ok. clear -HF Hl. revert vals Hl.
    induction HF as [|col v cols vs Hv _ IH]; intros vals Hl; [by constructor|]. inversion Hl as [|lit ? lits ? Hlit Hls]; subst.
    simpl. constructor; [by apply convert_value_for|by apply IH].
  - apply Forall2_length in HF, Hl. exact (eq_trans Hl (eq_sym HF)).
Qed.

(** C32: a name without a table is resolved to the table that has such a column: with
    one column of the name its table, with two or more [AmbiguousColumnError], and with none [ColumnNotFoundError], unless the
    name is the argument of an aggregate: then it is accepted, whatever it is, with the empty name as its table (the code lets
    [COUNT] of a star pass this way).  A name with a table stays when the table has the column, and is refused otherwise. *)
Theorem analyze_resolves_columns (all_cols : list ColMeta) target :
  Forall (fun c => cm_tab_name c <> ""%string) all_cols ->
  check_column all_cols target =
    if decide (tc_tab_name target = ""%string) then
      match filter (fun c => cm_name c = tc_col_name target) all_cols with
      | [] => if has_agg target then inr (set_tab "" target) else inl (ColumnNotFoundError (tc_col_name target))
      | [c] => inr (set_tab (cm_tab_name c) target)
      | _ => inl (AmbiguousColumnError (tc_col_name target))
      end
    else if decide (Exists (fun c => cm_tab_name c = tc_tab_name target /\ cm_name c = tc_col_name target) all_cols) then inr target
    else inl (ColumnNotFoundError (tc_col_name target)).
Proof.
  intros Hne. unfold check_column. destruct (String.eqb_spec (tc_tab_name target) "") as [E|E].
  - rewrite decide_True, infer_tab_filter by done. destruct (filter _ all_cols) as [|c [|? ?]] eqn:Ef; [by destruct (has_agg target)| |done]. cbn [String.eqb].
    assert (Hc : c ∈ all_cols) by (apply (list_elem_of_filter (fun c => cm_name c = tc_col_name target) all_cols c); rewrite Ef; by left).
    rewrite Forall_forall in Hne. destruct (String.eqb_spec (cm_tab_name c) "") as [E'|]; [by destruct (Hne c Hc)|done].
  - rewrite decide_False by done. match goal with |- (if ?b then _ else _) = _ => destruct b eqn:Eb end.
    + rewrite decide_True; [done|]. apply existsb_exists in Eb as (c & Hc & Hb). apply Exists_exists. exists c. split; [by apply list_elem_of_In|].
      apply andb_true_iff in Hb as [H1 H2]. split; by apply String.eqb_eq.
    + rewrite decide_False; [done|]. intros (c & Hc & H1 & H2)%Exists_exists. apply not_true_iff_false in Eb. destruct Eb.
      apply existsb_exists. exists c. split; [by apply list_elem_of_In|]. by rewrite H1, H2, !String.eqb_refl.
Qed.
End theorems.
End AnP.

(** ** Witnesses *)

Definition demo_an_cols : list ColMeta :=
  [mkColMeta "t" "a" TYPE_INT 4 0 false; mkColMeta "t" "b" TYPE_DATETIME 8 4 false; mkColMeta "t" "c" TYPE_STRING 3 12 false].
Definition demo_an_sm : SmManager unit :=
  mkSmManager tt (mkDbMeta "db" [("t", mkTabMeta "t" demo_an_cols [])]) free_mutex ∅ ∅ free_mutex.
Definition demo_an_lits : list ast.Value := [ast.Int_Bint_Lit "-7"; ast.StringLit "2023-02-28 23:59:07"; ast.StringLit "ab"].
Definition demo_an_values : list AValue :=
  [(VInt (-7), Some (enc_i32 (-7))); (VDatetime (Val.pack 2023 2 28 23 59 7), Some (enc_i64 (Val.pack 2023 2 28 23 59 7))); (VString "ab", Some [97; 98; 0])].
Definition demo_an_query : Query := mkQuery [] [] [] [] demo_an_values [] None.

Lemma demo_an_nodup : NoDup (cm_name <$> demo_an_cols).
Proof. by apply (bool_decide_unpack _). Qed.

Lemma demo_an_for : Forall2 InsP.value_for demo_an_cols demo_an_values.
Proof.
  repeat constructor; simpl; try (unfold int32_ok, int64_ok; lia); try (eexists; split; reflexivity).
  all: vm_compute; try discriminate; (split; discriminate || reflexivity).
Qed.

Lemma analyze_insert_typed_witness :
  An.do_analyze COUNT (ast.InsertStmt "t" demo_an_lits) demo_an_sm = (Ok demo_an_query, demo_an_sm) /\
  Forall2 InsP.value_for demo_an_cols demo_an_values.
Proof.
  assert (E : An.do_analyze COUNT (ast.InsertStmt "t" demo_an_lits) demo_an_sm = (Ok demo_an_query, demo_an_sm)) by (vm_compute; reflexivity).
  split; [exact E|].
  destruct (AnP.analyze_insert_typed COUNT "t" demo_an_lits (mkTabMeta "t" demo_an_cols []) demo_an_query demo_an_sm demo_an_sm) as (_ & _ & _ & _ & H).
  - reflexivity.
  - reflexivity.
  - repeat constructor; vm_compute; discriminate.
  - left. exact E.
  - exact (H demo_an_nodup).
Defined.

(** a table with two columns of one name, which [create_table] accepts: the INSERT of two integers is analysed, and its second
    value is an integer of four bytes for a column of three characters *)
Definition demo_twice : TabMeta := mkTabMeta "t" [mkColMeta "t" "a" TYPE_INT 4 0 false; mkColMeta "t" "a" TYPE_STRING 3 4 false] [].
Theorem analyze_insert_duplicate_column : exists q,
  let s := mkSmManager tt (mkDbMeta "db" [("t"%string, demo_twice)]) free_mutex ∅ ∅ free_mutex in
  An.do_analyze COUNT (ast.InsertStmt "t" [ast.Int_Bint_Lit "1"; ast.Int_Bint_Lit "2"]) s = (Ok q, s) /\
  q_values q = [(VInt 1, Some (enc_i32 1)); (VInt 2, Some (enc_i32 2))] /\ ~ Forall2 InsP.value_for (tm_cols demo_twice) (q_values q).
Proof.
  eexists. split; [vm_compute; reflexivity|]. split; [vm_compute; reflexivity|]. cbn [q_values demo_twice tm_cols]. intros H.
  inversion H as [|? ? ? ? _ H2]; subst. inversion H2 as [|? ? ? ? (Ht & _) _]; subst. discriminate Ht.
Qed.

Lemma analyze_insert_roundtrip_witness :
  An.do_analyze COUNT (ast.InsertStmt "t" demo_an_lits) demo_an_sm = (Ok demo_an_query, demo_an_sm).
Proof.
  apply (AnP.analyze_insert_roundtrip COUNT "t" demo_an_lits (mkTabMeta "t" demo_an_cols []) demo_an_values demo_an_sm).
  - reflexivity.
  - reflexivity.
  - exact demo_an_nodup.
  - exact demo_an_for.
  - constructor; [exact (AnP.lit_int (-7))|]. constructor; [|constructor; [exact (AnP.lit_string "ab")|constructor]].
    apply (AnP.lit_datetime 2023 2 28 23 59 7). split; try lia. reflexivity.
Defined.

Lemma analyze_resolves_columns_witness :
  An.check_column (demo_an_cols ++ [mkColMeta "u" "a" TYPE_INT 4 0 false]) (An.tab_col "" "a") = inl (AmbiguousColumnError "a") /\
  An.check_column (demo_an_cols ++ [mkColMeta "u" "a" TYPE_INT 4 0 false]) (An.tab_col "" "b") = inr (An.tab_col "t" "b") /\
  forall agg, has_agg agg = true -> tc_tab_name agg = ""%string -> tc_col_name agg = "nope"%string -> An.check_column demo_an_cols agg = inr (An.set_tab "" agg).
Proof.
  split_and!; [(rewrite AnP.analyze_resolves_columns; [reflexivity|]); repeat constructor; discriminate..|].
  intros agg Ha Ht Hc. rewrite AnP.analyze_resolves_columns by (repeat constructor; discriminate). rewrite Ht, Hc, Ha. reflexivity.
Defined.

(** a numeral of 40 to 45 digits is shorter than the text of the greatest float, so that [no_overflow<float>] lets it
    through, and [std::stof] throws what no handler of the server catches *)
Lemma float_literal_escapes :
  An.no_overflow_float (Text.str "10000000000000000000000000000000000000000") = true /\
  An.convert_sv_value (ast.Int_Bint_Lit "10000000000000000000000000000000000000000") (mkColMeta "t" "f" TYPE_FLOAT 4 0 false) tt = (Throw OutOfRange, tt).
Proof. vm_compute. by split. Qed.
