(* ===== verification/Sm.v ===== *)
(** The system manager: the operations of [SmManager] of [src/src/system/sm_manager.h] and [sm_manager.cpp]
    that change the catalog and the files.

    A stream opened for writing truncates its file, or creates it, and its descriptor is closed when the
    stream is destroyed.  [junk n] is what a new buffer of [n] bytes holds.  A context is the transaction it
    carries.  Directories are not modelled: [init_db], [load_db] and [close_db] are what [create_db], [open_db]
    and [close_db] do inside the directory of the database. *)

From S2P Require Import Prelude Bytes Errors Disk BufferPool PageStore Defs.
From S2P Require Import Text SmMeta RmFile LogRecord LogManager Lock.
From S2P Require Import IxDefs IxTree IxManager SmState Core.

Definition DB_META_NAME : string := "db.meta".

Module Sm.

(** ** Streams on files *)

(** [std::ofstream ofs(path); ofs << text;] *)
Definition put_file (path : string) (b : list Z) (d : Disk) : Disk :=
  let d := match dir d !! path with Some _ => d | None => Dsk.sys_create path d end in
  match dir d !! path with Some ino => Dsk.set_inodes (<[ino := b]>) d | None => d end.
(** [std::ifstream ifs(path)]: nothing to read when the file does not exist *)
Definition get_file (path : string) (d : Disk) : list Z :=
  match dir d !! path with Some ino => default [] (inodes d !! ino) | None => [] end.

Section ops.
Context (ifuel rfuel : nat) (junk : Z -> list Z).
Local Open Scope prog_scope.
Abbreviation SM := (SmManager Core).

Definition on_store {A} (m : Prog Store A) : Prog SM A := SmSt.on_core (Core.on_store m).
Definition set_tabs (f : list (string * TabMeta) -> list (string * TabMeta)) (db : DbMeta) : DbMeta := mkDbMeta (db_name_ db) (f (tabs_ db)).

(** [flush_meta] *)
Definition flush_meta : Prog SM unit :=
  let* db := gets db_ in
  on_store (Bpm.on_disk (modify (put_file DB_META_NAME (ascii_byte <$> Meta.show_DbMeta db)))).

(** the catalog is changed and written under the latch *)
Definition change_db (f : DbMeta -> DbMeta) : Prog SM unit :=
  SmSt.WLatch;;
  modify (fun s => SmSt.set_db (f (db_ s)) s);;
  flush_meta;;
  SmSt.WUnLatch.

(** [fhs_.emplace(tab_name, ...)] and [fhs_.erase(tab_name)] under the latch; [emplace] keeps an entry that is there *)
Definition emplace_fh (tab_name : string) (fh : RmFileHandle) : Prog SM unit :=
  SmSt.latch_excl;;
  modify (fun s => match fhs_ s !! tab_name with Some _ => s | None => SmSt.set_fhs (<[tab_name := fh]> (fhs_ s)) s end);;
  SmSt.unlatch_excl.
Definition erase_fh (tab_name : string) : Prog SM unit :=
  SmSt.latch_excl;;
  modify (fun s => SmSt.set_fhs (delete tab_name (fhs_ s)) s);;
  SmSt.unlatch_excl.
Definition erase_ih (index_name : string) : Prog SM unit :=
  SmSt.latch_excl;;
  modify (fun s => SmSt.set_ihs (delete index_name (ihs_ s)) s);;
  SmSt.unlatch_excl.

(** [create_table] *)
Definition create_table (tab_name : string) (col_defs : list ColDef) : Prog SM unit :=
  let* there := SmSt.is_table tab_name in
  if there then throw (TableExistsError tab_name)
  else
    let tab := Meta.new_table tab_name col_defs in
    on_store (Rm.create_file tab_name (Meta.table_record_size col_defs));;
    change_db (set_tabs (StrMap.insert tab_name tab));;
    let* fh := on_store (Rm.open_file (junk sizeof_RmFileHdr) tab_name) in
    emplace_fh tab_name fh.

(** the loop of [drop_index]: the first index with these columns goes *)
Fixpoint same_cols (cols : list ColMeta) (names : list string) : bool :=
  match cols, names with
  | [], [] => true
  | c :: cols, n :: names => bool_decide (cm_name c = n) && same_cols cols names
  | _, _ => false
  end.
Fixpoint erase_index (l : list IndexMeta) (names : list string) : option (list IndexMeta) :=
  match l with
  | [] => None
  | i :: l => if same_cols (im_cols i) names then Some l else (i ::.) <$> erase_index l names
  end.
Definition set_indexes (tab : TabMeta) (l : list IndexMeta) : TabMeta := mkTabMeta (tm_name tab) (tm_cols tab) l.

(** [ihs_[index_name].get()]: a missing entry is created, empty; its use is undefined *)
Definition ih_of (index_name : string) : Prog SM IxIndexHandle :=
  SmSt.latch_shared;;
  let* o := gets (fun s => ihs_ s !! index_name) in
  SmSt.unlatch_shared;;
  match o with Some h => ret h | None => fail Undef end.
Definition fh_of (tab_name : string) : Prog SM RmFileHandle :=
  SmSt.latch_shared;;
  let* o := gets (fun s => fhs_ s !! tab_name) in
  SmSt.unlatch_shared;;
  match o with Some h => ret h | None => fail Undef end.

(** [drop_index] of column names; the catalog is written whether or not the index is found *)
Definition drop_index (tab_name : string) (col_names : list string) : Prog SM unit :=
  let* there := SmSt.is_table tab_name in
  if negb there then throw (TableNotFoundError tab_name)
  else
    let index_name := Meta.index_file_name tab_name col_names in
    let* f := on_store (gets (fun s => Dsk.is_file index_name (disk s))) in
    if negb f then throw (FileNotFoundError index_name)
    else
      SmSt.WLatch;;
      let* tab := SmSt.get_table tab_name in
      let found := erase_index (tm_indexes tab) col_names in
      modify (fun s => match found with
                       | Some l => SmSt.set_db (set_tabs (StrMap.insert tab_name (set_indexes tab l)) (db_ s)) s
                       | None => s
                       end);;
      flush_meta;;
      SmSt.WUnLatch;;
      match found with
      | None => throw (IndexNotFoundError tab_name col_names)
      | Some _ =>
          let* idx_hdl := ih_of index_name in
          on_store (IxM.close_index (junk (tot_len_ (ix_hdr_ idx_hdl))) idx_hdl);;
          on_store (Bpm.on_disk (Dsk.destroy_file index_name));;
          erase_ih index_name
      end.
(** [drop_index] of column metadata *)
Definition drop_index_cols (tab_name : string) (cols : list ColMeta) : Prog SM unit := drop_index tab_name (cm_name <$> cols).

(** [drop_table]: the indexes are read without the latch *)
Definition drop_table (tab_name : string) : Prog SM unit :=
  let* tab := SmSt.get_table tab_name in
  for_each (tm_indexes tab) (fun index_meta => drop_index_cols tab_name (im_cols index_meta));;
  let* there := SmSt.is_table tab_name in
  if negb there then throw (TableNotFoundError tab_name)
  else
    change_db (set_tabs (StrMap.erase tab_name));;
    let* rh := fh_of tab_name in
    on_store (Rm.close_file rh);;
    on_store (Rm.destroy_file tab_name);;
    erase_fh tab_name.

(** the columns of a new index *)
Fixpoint index_cols (tab : TabMeta) (col_names : list string) : error + list ColMeta :=
  match col_names with
  | [] => inr []
  | n :: names =>
      match Meta.get_col tab n with
      | inl e => inl e
      | inr c => match index_cols tab names with inl e => inl e | inr cs => inr (c :: cs) end
      end
  end.

(** [init_tree] on the two handles *)
Definition on_file_index {A} (tab_name index_name : string) (m : Prog (Core * RmFileHandle * IxIndexHandle) A) : Prog SM A := fun s =>
  match fhs_ s !! tab_name, ihs_ s !! index_name with
  | Some fh, Some ih =>
      let '(r, (c, fh', ih')) := m (sm_core s, fh, ih) in
      (r, SmSt.set_ihs (<[index_name := ih']> (ihs_ s)) (SmSt.set_fhs (<[tab_name := fh']> (fhs_ s)) (SmSt.set_core c s)))
  | _, _ => (Fail Undef, s)
  end.

(** [create_index]; the answer of the lock manager is not looked at *)
Definition create_index (tab_name : string) (col_names : list string) (context : option Z) : Prog SM unit :=
  let* there := SmSt.is_table tab_name in
  if negb there then throw (TableNotFoundError tab_name)
  else
    let* f := on_store (IxM.exists_ tab_name col_names) in
    if f then throw (IndexExistsError tab_name col_names)
    else
      SmSt.RLatch;;
      let* tab := SmSt.get_table tab_name in
      let* col_meta_vec := SmSt.of_sum (index_cols tab col_names) in
      SmSt.RUnLatch;;
      let col_tot_len := IxM.col_tot_len col_meta_vec in
      if IX_MAX_COL_LEN <? col_tot_len then throw (InvalidColLengthError col_tot_len)
      else
        let idx := mkIndexMeta tab_name col_tot_len (zlen col_names) col_meta_vec in
        SmSt.WLatch;;
        let* tab := SmSt.get_table tab_name in
        modify (fun s => SmSt.set_db (set_tabs (StrMap.insert tab_name (set_indexes tab (tm_indexes tab ++ [idx]))) (db_ s)) s);;
        flush_meta;;
        SmSt.WUnLatch;;
        on_store (IxM.create_index (junk (tot_len_ (IxM.new_hdr col_meta_vec))) (junk 3) tab_name col_meta_vec);;
        let index_name := Meta.index_file_name tab_name col_names in
        let* idx_hdl := on_store (IxM.open_index index_name) in
        SmSt.latch_excl;;
        let* o := gets (fun s => ihs_ s !! index_name) in
        (match o with
         | Some _ => fail Undef
         | None => modify (fun s => SmSt.set_ihs (<[index_name := idx_hdl]> (ihs_ s)) s)
         end);;
        SmSt.unlatch_excl;;
        (match context with
         | Some p =>
             let* fd := on_store (Bpm.on_disk (Dsk.get_file_fd tab_name)) in
             let* _ := SmSt.on_core (on_locks (Lk.lock_shared_on_table p fd)) in
             ret tt
         | None => ret tt
         end);;
        let* fh := SmSt.read_fh tab_name in
        on_file_index fh index_name (IxM.init_tree ifuel (junk (col_tot_len_ (ix_hdr_ idx_hdl))) col_meta_vec rfuel).

(** ** The database *)

(** [create_db]: the files of a new database *)
Definition init_db (db_name : string) : Prog Store unit :=
  Bpm.on_disk (modify (put_file DB_META_NAME (ascii_byte <$> Meta.show_DbMeta (mkDbMeta db_name []))));;
  Bpm.on_disk (Dsk.create_file LOG_FILE_NAME).

(** [ofs >> db_] *)
Definition read_meta : Prog SM unit :=
  let* c := on_store (gets (fun s => get_file DB_META_NAME (disk s))) in
  let* db := gets db_ in
  let* db := pure_call (fun _ => ((Meta.read_DbMeta db (byte_ascii <$> c)).1, tt)) in
  modify (SmSt.set_db db).

Definition open_index (index : IndexMeta) : Prog SM unit :=
  let index_name := Meta.get_index_name index in
  let* ih := on_store (IxM.open_index index_name) in
  modify (fun s => match ihs_ s !! index_name with Some _ => s | None => SmSt.set_ihs (<[index_name := ih]> (ihs_ s)) s end).
Definition open_table (tab : string * TabMeta) : Prog SM unit :=
  let* fh := on_store (Rm.open_file (junk sizeof_RmFileHdr) tab.1) in
  modify (fun s => match fhs_ s !! tab.1 with Some _ => s | None => SmSt.set_fhs (<[tab.1 := fh]> (fhs_ s)) s end);;
  for_each (tm_indexes tab.2) open_index.

(** [open_db] *)
Definition load_db : Prog SM unit :=
  read_meta;;
  let* db := gets db_ in
  for_each (tabs_ db) open_table.

(** [close_db]: the order of the hash maps is that of the lists *)
Definition close_db (tables indexes : list string) : Prog SM unit :=
  flush_meta;;
  for_each tables (fun t => let* o := gets (fun s => fhs_ s !! t) in
                            match o with Some h => on_store (Rm.close_file h) | None => fail Undef end);;
  for_each indexes (fun i => let* o := gets (fun s => ihs_ s !! i) in
                             match o with Some h => on_store (IxM.close_index (junk (tot_len_ (ix_hdr_ h))) h) | None => fail Undef end).
End ops.
End Sm.
