(* ===== verification/SmProps.v ===== *)
(** The system manager: creating a table. *)

From S2P Require Import Prelude Bytes Errors Lru Disk BufferPool BufferPoolProofs BufferPoolProps.
From S2P Require Import PageStore Bitmap Defs RmFile RmPage RmProofs RmProps RmDurable.
From S2P Require Import Text SmMeta SmMetaProps LogRecord LogManager Lock.
From S2P Require Import IxDefs IxTree IxManager SmState Core Sm.
Import BpmInv RmPage.

Module SmP.

(** ** New files *)

(** the disk with one more file *)
Definition added (name : string) (b : list Z) (d : Disk) : Disk :=
  mkDisk (<[name := next_ino d]> (dir d)) (<[next_ino d := b]> (inodes d)) (fds d) (Datatypes.S (next_ino d))
    (path2fd_ d) (fd2path_ d) (log_fd_ d) (fd2pageno_ d).

Lemma added_created name b d : added name b d = Dsk.set_inodes (<[next_ino d := b]>) (Dsk.sys_create name d).
Proof. unfold added, Dsk.set_inodes, Dsk.sys_create. simpl. by rewrite insert_insert_eq. Qed.

Lemma dinv_set_inode d ino b : Dsk.dinv d -> Dsk.dinv (Dsk.set_inodes (<[ino := b]>) d).
Proof.
  intros Hd. split; simpl; try apply Hd. intros p i Hi. destruct (Dsk.di_dir _ Hd _ _ Hi) as [Hs ?]. split; [|done].
  destruct (decide (i = ino)) as [->|]; [rewrite lookup_insert_eq; by eexists|by rewrite lookup_insert_ne].
Qed.

(** the bytes of the open files do not change when those of a file that is not open do *)
Lemma grows_set_inode d p ino b :
  Dsk.dinv d -> path2fd_ d !! p = None -> dir d !! p = Some ino -> RmD.grows d (Dsk.set_inodes (<[ino := b]>) d).
Proof.
  intros Hd Hp Hi. split; [by apply dinv_set_inode|done| |done]. intros g [q Hq]. destruct (Dsk.di_open _ Hd _ _ Hq) as (i & o & Hf & Hdir).
  unfold Dsk.content. simpl. rewrite Hf, lookup_insert_ne; [done|]. intros ->. pose proof (Dsk.di_inj _ Hd _ _ _ Hi Hdir) as ->.
  apply (Dsk.di_tables _ Hd) in Hq. congruence.
Qed.

Lemma grows_create d p : Dsk.dinv d -> dir d !! p = None -> RmD.grows d (Dsk.sys_create p d).
Proof.
  intros Hd Hp. split; [by apply Dsk.dinv_sys_create|done| |done]. intros g [q Hq]. destruct (Dsk.di_open _ Hd _ _ Hq) as (i & o & Hf & Hdir).
  unfold Dsk.content. simpl. rewrite Hf, lookup_insert_ne; [done|]. apply (Dsk.di_dir _ Hd) in Hdir as [_ ?]. lia.
Qed.

Lemma not_open_missing d p : Dsk.dinv d -> dir d !! p = None -> path2fd_ d !! p = None.
Proof.
  intros Hd Hp. destruct (path2fd_ d !! p) as [g|] eqn:E; [|done]. apply (Dsk.di_tables _ Hd) in E.
  destruct (Dsk.di_open _ Hd _ _ E) as (? & ? & _ & ?). congruence.
Qed.

Lemma grows_added d p b : Dsk.dinv d -> dir d !! p = None -> RmD.grows d (added p b d).
Proof.
  intros Hd Hp. rewrite added_created. eapply RmD.grows_trans; [by apply (grows_create d p)|].
  apply (grows_set_inode _ p); [by apply Dsk.dinv_sys_create|by apply (not_open_missing d)|simpl; apply lookup_insert_eq].
Qed.

Lemma file_write_new b : Dsk.file_write 0 b [] = b.
Proof. unfold Dsk.file_write. cbn [app]. rewrite splice_all; [done|]. rewrite zlen_zeros; unfold zlen; simpl; lia. Qed.

Lemma create_file_eq name size s :
  binv s -> dir (disk s) !! name = None -> 1 <= size <= RM_MAX_RECORD_SIZE ->
  Rm.create_file name size s = (Ok tt, mkStore (added name (enc_RmFileHdr (Rm.init_file_hdr size)) (disk s)) (bpm s)).
Proof.
  intros Hb Hd Hs. destruct s as [d pool]. simpl in *. pose proof (bi_disk _ Hb) as Hi. simpl in Hi. pose proof (not_open_missing d name Hi Hd) as Hp.
  pose proof (Dsk.lowest_fd_fresh (fds d)) as Hf. pose proof (Dsk.unregistered_fresh d Hi) as Hu.
  unfold Rm.create_file. destruct (Z.ltb_spec size 1); [lia|]. destruct (Z.ltb_spec RM_MAX_RECORD_SIZE size); [lia|]. cbn [orb].
  set (b := enc_RmFileHdr (Rm.init_file_hdr size)). set (g := Dsk.lowest_fd (fds d)) in *.
  rewrite (bind_ok _ _ _ tt (mkStore (Dsk.sys_create name d) pool)).
  2:{ unfold Bpm.on_disk, zoom, Dsk.create_file, Dsk.is_file. simpl. rewrite bool_decide_false by (rewrite Hd; by intros []).
      unfold Dsk.sys_open. simpl. rewrite lookup_insert_eq. unfold Dsk.sys_close, Dsk.set_fds, Dsk.sys_create. simpl. fold g. by rewrite delete_insert_id. }
  set (d1 := Dsk.sys_create name d).
  set (d2 := Dsk.set_tables (<[name := g]> (path2fd_ d)) (<[g := name]> (fd2path_ d)) (Dsk.set_fds (<[g := (next_ino d, 0)]>) d1)).
  rewrite (bind_ok _ _ _ g (mkStore d2 pool)).
  2:{ unfold Bpm.on_disk, zoom, Dsk.open_file. simpl. rewrite Hp. unfold Dsk.sys_open. simpl. rewrite lookup_insert_eq. done. }
  set (d3 := Dsk.set_fds (<[g := (next_ino d, zlen b)]>) (Dsk.set_inodes (<[next_ino d := b]>) d2)).
  rewrite (bind_ok _ _ _ tt (mkStore d3 pool)).
  2:{ unfold Bpm.on_disk, zoom, Dsk.write_page, Dsk.sys_lseek_set. simpl. rewrite lookup_insert_eq. change (Dsk.page_off RM_FILE_HDR_PAGE) with 0. cbn [Z.leb Z.compare].
      unfold Dsk.sys_write. simpl. rewrite !lookup_insert_eq. simpl. rewrite file_write_new. unfold d3, Dsk.set_fds, Dsk.set_inodes. simpl.
      by rewrite !insert_insert_eq. }
  unfold Bpm.on_disk, zoom, Dsk.close_file. simpl. rewrite lookup_insert_eq. unfold added, Dsk.sys_close, Dsk.set_tables. simpl.
  rewrite !insert_insert_eq, !delete_insert_id by done. done.
Qed.

(** the header of a new file is the image of an empty table *)
Lemma new_image size : 1 <= size <= RM_MAX_RECORD_SIZE -> RmD.image (Rm.init_file_hdr size) ∅ (enc_RmFileHdr (Rm.init_file_hdr size)).
Proof.
  intros Hs. pose proof (zlen_enc_RmFileHdr (Rm.init_file_hdr size)) as Hz. split; [|intros i ap Hi; by rewrite lookup_empty in Hi].
  rewrite Hz. split; [|done]. rewrite <- Hz. apply slice_full.
Qed.

Lemma new_table_ok size : 1 <= size <= RM_MAX_RECORD_SIZE -> RmD.table_ok (Rm.init_file_hdr size) ∅ [].
Proof.
  intros Hs. split; try done.
  - by apply init_hdr_ok.
  - simpl. intros i. rewrite lookup_empty. split; [by intros []|lia].
  - constructor.
  - intros i. split; [by intros ?%elem_of_nil|]. intros (ap & Hap & _). by rewrite lookup_empty in Hap.
Qed.

(** ** Streams *)

Lemma put_file_eq p b d ino : dir d !! p = Some ino -> Sm.put_file p b d = Dsk.set_inodes (<[ino := b]>) d.
Proof. intros Hp. unfold Sm.put_file. by rewrite !Hp. Qed.

(** ** Tables in the core *)

Lemma rep_core (c : Core) h pages chain : RmP.rep (fun _ => True) c h pages chain <-> RmP.rep (fun _ => True) (c_store c) h pages chain.
Proof. split; intros []; by split. Qed.

Lemma rep_grows s d' h pages chain :
  RmP.rep (fun _ => True) s h pages chain -> RmD.grows (disk s) d' -> RmP.rep (fun _ => True) (mkStore d' (bpm s)) h pages chain.
Proof.
  intros [] Hg. simpl in *. destruct rp_file as [Hr Hm]. split; try done.
  - by apply RmD.binv_grows.
  - split; [by apply (RmD.grows_registered (disk s))|done].
  - unfold ps_npages in *. simpl in *. rewrite <- rp_np. by apply (RmD.gr_pageno _ _ Hg).
  - intros i ap Hi. destruct (rp_pages i ap Hi) as (b & Hb & Hpr & Hpin). exists b. split; [by apply RmD.page_is_grows|]. done.
Qed.

(** ** Steps of the manager *)

Section steps.
Abbreviation SM := (SmManager Core).
Implicit Types (s : SM).

Definition store_of s : Store := c_store (sm_core s).
Definition with_store (st : Store) s : SM := SmSt.set_core (set_store st (sm_core s)) s.
Definition with_disk (d : Disk) s : SM := with_store (mkStore d (bpm (store_of s))) s.

Lemma is_table_ok tab_name s : db_latch_ s = free_mutex -> SmSt.is_table tab_name s = (Ok (Meta.is_table (db_ s) tab_name), s).
Proof. intros Hl. destruct s as [c d l f i l']. simpl in Hl. by subst l. Qed.

Lemma on_store_ok {A} (m : Prog Store A) s a st : m (store_of s) = (Ok a, st) -> Sm.on_store m s = (Ok a, with_store st s).
Proof. intros Hm. unfold Sm.on_store, SmSt.on_core, on_store, zoom. unfold store_of in Hm. by rewrite Hm. Qed.

Lemma change_db_ok f s :
  db_latch_ s = free_mutex ->
  Sm.change_db f s = (Ok tt, SmSt.set_db (f (db_ s)) (with_disk (Sm.put_file DB_META_NAME (ascii_byte <$> Meta.show_DbMeta (f (db_ s))) (disk (store_of s))) s)).
Proof. intros Hl. destruct s as [c d l g i l']. simpl in Hl. by subst l. Qed.

Lemma emplace_fh_ok tab_name fh s :
  sm_latch_ s = free_mutex -> fhs_ s !! tab_name = None -> Sm.emplace_fh tab_name fh s = (Ok tt, SmSt.set_fhs (<[tab_name := fh]> (fhs_ s)) s).
Proof.
  intros Hl Hn. destruct s as [c d l g i l']. simpl in Hl, Hn. subst l'. unfold Sm.emplace_fh, SmSt.latch_excl, SmSt.try_mutex, bind, modify. simpl. rewrite Hn. done.
Qed.

(** a database in which a table can be created *)
Record can_create s (tab_name : string) (col_defs : list ColDef) : Prop := {
  cr_inv : binv (store_of s);
  cr_latch : db_latch_ s = free_mutex /\ sm_latch_ s = free_mutex;
  cr_new : StrMap.find tab_name (tabs_ (db_ s)) = None;
  cr_file : dir (disk (store_of s)) !! tab_name = None;
  cr_handle : fhs_ s !! tab_name = None;
  cr_meta : is_Some (dir (disk (store_of s)) !! DB_META_NAME) /\ path2fd_ (disk (store_of s)) !! DB_META_NAME = None;
  cr_size : 1 <= Meta.table_record_size col_defs <= RM_MAX_RECORD_SIZE;
  cr_fd : Dsk.lowest_fd (fds (disk (store_of s))) < MAX_FD;
  cr_room : 0 < room (store_of s);
}.

(** the disk after the catalog is written *)
Lemma create_disk s tab_name col_defs b bm :
  can_create s tab_name col_defs ->
  let d := disk (store_of s) in
  exists ino, dir d !! DB_META_NAME = Some ino /\ ino <> next_ino d /\
  let d' := Sm.put_file DB_META_NAME bm (added tab_name b d) in
  RmD.grows d d' /\ dir d' !! tab_name = Some (next_ino d) /\ inodes d' !! next_ino d = Some b /\ path2fd_ d' !! tab_name = None /\
  fds d' = fds d /\ dir d' !! DB_META_NAME = Some ino /\ inodes d' !! ino = Some bm.
Proof.
  intros [Hb _ _ Hf _ [[ino Hi] Hm] _ _ _] d. pose proof (bi_disk _ Hb) as Hd. fold d in Hd, Hf, Hi, Hm.
  assert (Hne : tab_name <> DB_META_NAME) by congruence. destruct (Dsk.di_dir _ Hd _ _ Hi) as [_ Hlt]. exists ino. split; [done|]. split; [lia|].
  assert (Hi' : dir (added tab_name b d) !! DB_META_NAME = Some ino) by (simpl; by rewrite lookup_insert_ne).
  pose proof (grows_added d tab_name b Hd Hf) as Hg. cbv zeta. rewrite (put_file_eq _ _ _ _ Hi'). simpl. split.
  - eapply RmD.grows_trans; [exact Hg|]. apply (grows_set_inode _ DB_META_NAME); [apply Hg|done|done].
  - rewrite lookup_insert_eq. rewrite (lookup_insert_ne _ ino) by lia. rewrite lookup_insert_eq, lookup_insert_eq. rewrite lookup_insert_ne by done.
    split_and!; try done. by apply not_open_missing.
Qed.
End steps.
End SmP.

(** * Properties *)

(** C33: CREATE TABLE: the catalog has the table with the columns laid out one after the
    other, the file [db.meta] holds the new catalog, and the table is open and empty with
    the record size of its columns; every table that was open has the same records as
    before, and the latches are free again. *)
Theorem create_table_correct junk tab_name col_defs (s : SmManager Core) :
  SmP.can_create s tab_name col_defs -> zlen (junk sizeof_RmFileHdr) = sizeof_RmFileHdr ->
  exists s' h, Sm.create_table junk tab_name col_defs s = (Ok tt, s') /\
    db_ s' = Sm.set_tabs (StrMap.insert tab_name (Meta.new_table tab_name col_defs)) (db_ s) /\
    Sm.get_file DB_META_NAME (disk (SmP.store_of s')) = ascii_byte <$> Meta.show_DbMeta (db_ s') /\
    fhs_ s' = <[tab_name := h]> (fhs_ s) /\ record_size (file_hdr_ h) = Meta.table_record_size col_defs /\
    RmP.rep (fun _ => True) (sm_core s') h ∅ [] /\
    (forall h' pages chain, RmP.rep (fun _ => True) (sm_core s) h' pages chain -> RmP.rep (fun _ => True) (sm_core s') h' pages chain) /\
    ihs_ s' = ihs_ s /\ db_latch_ s' = free_mutex /\ sm_latch_ s' = free_mutex.
Proof.
  intros Hc Hj. pose proof Hc as [Hb [Hl1 Hl2] Hn Hf Hh Hm Hs Hfd Hr]. set (size := Meta.table_record_size col_defs) in *.
  set (b := enc_RmFileHdr (Rm.init_file_hdr size)). set (db' := Sm.set_tabs (StrMap.insert tab_name (Meta.new_table tab_name col_defs)) (db_ s)).
  set (bm := ascii_byte <$> Meta.show_DbMeta db'). set (d := disk (SmP.store_of s)) in *.
  destruct (SmP.create_disk s tab_name col_defs b bm Hc) as (ino & _ & _ & Hg & D1 & D2 & D3 & D4 & D5 & D6). fold d in Hg, D1, D2, D3, D4, D5, D6.
  set (d1 := SmP.added tab_name b d) in *. set (d2 := Sm.put_file DB_META_NAME bm d1) in *.
  set (s1 := SmP.with_disk d1 s). set (s2 := SmSt.set_db db' (SmP.with_disk d2 s1)).
  assert (Hb2 : binv (mkStore d2 (bpm (SmP.store_of s)))) by (by apply RmD.binv_grows).
  destruct (RmD.open_image (mkStore d2 (bpm (SmP.store_of s))) tab_name _ b (Rm.init_file_hdr size) ∅ [] (junk sizeof_RmFileHdr) Hb2 D3 D1 D2
    (SmP.new_image size Hs) (SmP.new_table_ok size Hs) Hj) as (h & st & E & -> & Hrep & _ & _ & Hg3 & Hbpm & Hdir & Hino).
  { simpl. by rewrite D4. }
  { exact Hr. }
  simpl in Hg3, Hbpm, Hdir, Hino. set (h := mkRmFileHandle (Dsk.lowest_fd (fds d2)) (Rm.init_file_hdr size)).
  exists (SmSt.set_fhs (<[tab_name := h]> (fhs_ s)) (SmP.with_store st s2)), h. split.
  { unfold Sm.create_table. rewrite (bind_ok _ _ _ _ _ (SmP.is_table_ok tab_name s Hl1)). unfold Meta.is_table. rewrite Hn, bool_decide_false by (by intros []).
    rewrite (bind_ok _ _ _ _ _ (SmP.on_store_ok _ s _ _ (SmP.create_file_eq tab_name size (SmP.store_of s) Hb Hf Hs))). fold b d d1.
    change (SmP.with_store _ s) with s1. rewrite (bind_ok _ _ _ _ _ (SmP.change_db_ok _ s1 Hl1)). change (SmSt.set_db _ _) with s2.
    rewrite (bind_ok _ _ _ _ _ (SmP.on_store_ok _ s2 _ _ E)). exact (SmP.emplace_fh_ok tab_name h (SmP.with_store st s2) Hl2 Hh). }
  split; [done|]. split.
  { unfold Sm.get_file. cbn [SmP.store_of SmSt.set_fhs sm_core SmP.with_store SmSt.set_core set_store c_store]. rewrite Hdir, D5. rewrite Hino, D6. done. }
  split; [done|]. split; [done|]. split; [by apply SmP.rep_core|]. split; [|done].
  intros h' pages chain H'%SmP.rep_core. apply SmP.rep_core. change (RmP.rep (fun _ => True) st h' pages chain). destruct st as [d3 pool]. simpl in Hbpm. subst pool.
  apply (SmP.rep_grows (mkStore d2 (bpm (SmP.store_of s)))); [|exact Hg3]. by apply SmP.rep_grows.
Qed.

(** CREATE TABLE refuses a table that exists, and a record size outside 1 to 2048
    bytes, and then changes nothing. *)
Theorem create_table_refuses junk tab_name col_defs (s : SmManager Core) :
  db_latch_ s = free_mutex ->
  (is_Some (StrMap.find tab_name (tabs_ (db_ s))) -> Sm.create_table junk tab_name col_defs s = (Throw (TableExistsError tab_name), s)) /\
  (StrMap.find tab_name (tabs_ (db_ s)) = None -> ~ (1 <= Meta.table_record_size col_defs <= RM_MAX_RECORD_SIZE) ->
     Sm.create_table junk tab_name col_defs s = (Throw (InvalidRecordSizeError (Meta.table_record_size col_defs)), s)).
Proof.
  intros Hl. unfold Sm.create_table. rewrite (bind_ok _ _ _ _ _ (SmP.is_table_ok tab_name s Hl)). unfold Meta.is_table. split.
  - intros Ht. by rewrite bool_decide_true.
  - intros -> Hs. rewrite bool_decide_false by (by intros []). unfold bind at 1, Sm.on_store, SmSt.on_core, on_store, zoom, Rm.create_file.
    replace ((Meta.table_record_size col_defs <? 1) || (RM_MAX_RECORD_SIZE <? Meta.table_record_size col_defs)) with true; [by destruct s as [[] ? ? ? ? ?]|].
    symmetry. apply orb_true_iff. rewrite !Z.ltb_lt. lia.
Qed.

(** ** Witnesses *)

Definition demo_sm_store : Store := mkStore (SmP.added DB_META_NAME [] (disk demo_rm_store)) (bpm demo_rm_store).
Definition demo_sm : SmManager Core :=
  mkSmManager (mkCore demo_sm_store (LogM.make 0 0) (mkLockManager ∅ ∅) ∅) (mkDbMeta "db" []) free_mutex ∅ ∅ free_mutex.
Definition demo_sm_defs : list ColDef := [mkColDef "a" TYPE_INT 4; mkColDef "b" TYPE_STRING 16].

Lemma demo_can_create : SmP.can_create demo_sm "u" demo_sm_defs.
Proof.
  split; try reflexivity.
  - apply (RmD.binv_grows demo_rm_store); [apply demo_rm_rep|]. apply SmP.grows_added; [apply (bi_disk _ (RmP.rp_inv _ _ _ _ _ demo_rm_rep))|by vm_compute].
  - done.
  - split; [by eexists|reflexivity].
  - vm_compute. split; discriminate.
Qed.

Lemma create_table_correct_witness : exists s' h,
  Sm.create_table zeros "u" demo_sm_defs demo_sm = (Ok tt, s') /\ fhs_ s' = {["u" := h]} /\ record_size (file_hdr_ h) = 20 /\
  RmP.rep (fun _ => True) (sm_core s') h ∅ [].
Proof.
  destruct (create_table_correct zeros "u" demo_sm_defs demo_sm demo_can_create eq_refl) as (s' & h & E & _ & _ & Hf & Hs & Hr & _).
  exists s', h. split; [exact E|]. split; [exact Hf|]. split; [exact Hs|]. exact Hr.
Defined.

Lemma create_table_refuses_witness :
  Sm.create_table zeros "u" [mkColDef "a" TYPE_STRING 2049] demo_sm = (Throw (InvalidRecordSizeError 2049), demo_sm).
Proof.
  apply (proj2 (create_table_refuses zeros "u" [mkColDef "a" TYPE_STRING 2049] demo_sm eq_refl) eq_refl). change (~ (1 <= 2049 <= 2048)). lia.
Defined.
