(* ===== verification/Recovery.v ===== *)
(** Recovery: [RecoveryManager] of [src/src/recovery/log_recovery.h] and [log_recovery.cpp].

    The loops over the log file take the number of rounds as fuel [lfuel]; a buffer keeps what it held where
    a read is short.  [rollback_insert], [rollback_delete] and [rollback_update] are the same code as in the
    transaction manager. *)

From S2P Require Import Prelude Bytes Errors Disk BufferPool PageStore Defs.
From S2P Require Import Text SmMeta RmFile LogRecord LogManager Lock.
From S2P Require Import IxDefs IxTree IxManager SmState Core Txn Sm.

Record RecoveryManager := mkRecoveryManager {
  rc_tm : TransactionManager;
  undo_list_ : gset Z;
  lsn_offset_table_ : gmap Z Z;
  rc_lsn_prevlsn_table_ : gmap Z Z;
  offset_list_ : list Z;
}.

Module Rec.
Section ops.
Context (ifuel rfuel : nat) (junk : Z -> list Z).
Local Open Scope prog_scope.
Abbreviation RM := RecoveryManager.

Definition on_tm {A} (m : Prog TransactionManager A) : Prog RM A :=
  zoom rc_tm (fun t r => mkRecoveryManager t (undo_list_ r) (lsn_offset_table_ r) (rc_lsn_prevlsn_table_ r) (offset_list_ r)) m.
Definition on_sm {A} (m : Prog (SmManager Core) A) : Prog RM A := on_tm (TxnM.on_sm m).
Definition on_log {A} (m : Prog LogM.St A) : Prog RM A := on_tm (TxnM.core (Core.on_log m)).
Definition set_undo (f : gset Z -> gset Z) (r : RM) : RM :=
  mkRecoveryManager (rc_tm r) (f (undo_list_ r)) (lsn_offset_table_ r) (rc_lsn_prevlsn_table_ r) (offset_list_ r).

(** [read_log] into a buffer: what it returns, and the buffer *)
Definition read_log (buf : list Z) (size offset : Z) : Prog RM (Z * list Z) :=
  let* r := on_sm (Sm.on_store (Bpm.on_disk (Dsk.read_log size offset))) in
  ret (r.1, splice 0 r.2 buf).

(** ** [analyze] *)

(** a table is dropped and created again, empty; its indexes are not *)
Definition reset_table (tab_meta : TabMeta) : Prog RM unit :=
  on_sm (Sm.drop_table junk (tm_name tab_meta));;
  on_sm (Sm.create_table junk (tm_name tab_meta) ((fun col => mkColDef (cm_name col) (cm_type col) (cm_len col)) <$> tm_cols tab_meta)).

(** the tables a record header is entered in *)
Definition note_record (log : LogHdr) (offset : Z) (r : RM) : RM :=
  mkRecoveryManager (rc_tm r) (undo_list_ r) (LogM.insert_new (lsn_ log) offset (lsn_offset_table_ r))
    (LogM.insert_new (lsn_ log) (prev_lsn_ log) (rc_lsn_prevlsn_table_ r)) (offset_list_ r ++ [offset]).

Fixpoint scan_log (lfuel : nat) (log_hdr : list Z) (offset last_lsn last_txn : Z) : Prog RM (Z * Z) :=
  match lfuel with
  | O => fail OutOfFuel
  | S lfuel =>
      let* r := read_log log_hdr LOG_HEADER_SIZE offset in
      if 0 <? r.1 then
        let* log := deref (Log.deserialize_hdr r.2) in
        modify (note_record log offset);;
        scan_log lfuel r.2 (wrap 32 (offset + log_tot_len_ log)) (lsn_ log) (if last_txn <? log_tid_ log then log_tid_ log else last_txn)
      else ret (last_lsn, last_txn)
  end.

Definition analyze (lfuel : nat) : Prog RM unit :=
  let* tab_metas := gets (fun r => snd <$> tabs_ (db_ (tm_sm (rc_tm r)))) in
  for_each tab_metas reset_table;;
  let* last := scan_log lfuel (junk LOG_HEADER_SIZE) 0 0 0 in
  on_log (LogM.set_lsn (last.1 + 1));;
  on_tm (TxnM.set_txn_id_num (last.2 + 1)).

(** ** Redoing and undoing one write *)

Definition rollback_insert (tab_name : string) (rid : Rid) : Prog RM unit := on_sm (Roll.rollback_insert ifuel junk tab_name rid).
Definition rollback_delete (tab_name : string) (rid : Rid) (rec : RmRecord) : Prog RM unit :=
  on_sm (Roll.rollback_delete ifuel rfuel junk tab_name rid rec).
Definition rollback_update (tab_name : string) (rid : Rid) (record : RmRecord) : Prog RM unit :=
  on_sm (Roll.rollback_update ifuel rfuel junk tab_name rid record).

Definition is_type (ts : list LogType) (log : LogHdr) : bool := existsb (fun t => log_type_ log =? LogType_int t) ts.

(** ** [redo] *)

Definition redo_record (log : LogHdr) (log_buf : list Z) : Prog RM unit :=
  if is_type [DELETE; CLR_INSERT] log then
    let* del_log := deref (Log.deserialize_delete log_buf) in
    match del_log with DeleteLogRecord _ _ rid t => rollback_insert (bytes_string t) rid | _ => fail Undef end
  else if is_type [INSERT; CLR_DELETE] log then
    let* insert_log := deref (Log.deserialize_insert log_buf) in
    match insert_log with InsertLogRecord _ v rid t => rollback_delete (bytes_string t) rid v | _ => fail Undef end
  else if is_type [UPDATE; CLR_UPDATE] log then
    let* update_log := deref (Log.deserialize_update log_buf) in
    match update_log with UpdateLogRecord _ _ n rid t => rollback_update (bytes_string t) rid n | _ => fail Undef end
  else if is_type [BEGIN] log then modify (set_undo (fun u => {[log_tid_ log]} ∪ u))
  else if is_type [COMMIT; ABORT] log then
    let* u := gets undo_list_ in
    assert (bool_decide (log_tid_ log ∈ u));;
    modify (set_undo (fun u => u ∖ {[log_tid_ log]}))
  else ret tt.

Fixpoint redo_from (lfuel : nat) (log_hdr : list Z) (offset : Z) : Prog RM unit :=
  match lfuel with
  | O => fail OutOfFuel
  | S lfuel =>
      let* r := read_log log_hdr LOG_HEADER_SIZE offset in
      if 0 <? r.1 then
        let* log := deref (Log.deserialize_hdr r.2) in
        modify (fun m => mkRecoveryManager (rc_tm m) (undo_list_ m) (LogM.insert_new (lsn_ log) offset (lsn_offset_table_ m)) (rc_lsn_prevlsn_table_ m) (offset_list_ m));;
        let* b := read_log (junk (log_tot_len_ log)) (wrap 32 (log_tot_len_ log)) offset in
        redo_record log b.2;;
        redo_from lfuel r.2 (wrap 32 (offset + log_tot_len_ log))
      else ret tt
  end.
Definition redo (lfuel : nat) : Prog RM unit := redo_from lfuel (junk LOG_HEADER_SIZE) 0.

(** ** [undo] *)

(** [lsn_prevlsn_table_[lsn]]: an absent entry is created *)
Definition prev_of (lsn : Z) : Prog RM Z :=
  let* o := gets (fun r => rc_lsn_prevlsn_table_ r !! lsn) in
  match o with
  | Some v => ret v
  | None =>
      modify (fun r => mkRecoveryManager (rc_tm r) (undo_list_ r) (lsn_offset_table_ r) (<[lsn := 0]> (rc_lsn_prevlsn_table_ r)) (offset_list_ r));;
      ret 0
  end.

(** the undo of one record; for an insertion the table is asked for the predecessor of the predecessor *)
Definition undo_record (log : LogHdr) (log_buf : list Z) : Prog RM unit :=
  if is_type [DELETE] log then
    let* del_log := deref (Log.deserialize_delete log_buf) in
    match del_log with
    | DeleteLogRecord h v rid t =>
        rollback_delete (bytes_string t) rid v;;
        let* next := prev_of (lsn_ h) in
        let* _ := on_log (LogM.gen_log_delete_CLR (log_tid_ h) next v rid (bytes_string t)) in ret tt
    | _ => fail Undef
    end
  else if is_type [INSERT] log then
    let* insert_log := deref (Log.deserialize_insert log_buf) in
    match insert_log with
    | InsertLogRecord h v rid t =>
        rollback_insert (bytes_string t) rid;;
        let* next := prev_of (prev_lsn_ h) in
        let* _ := on_log (LogM.gen_log_insert_CLR (log_tid_ h) next v rid (bytes_string t)) in ret tt
    | _ => fail Undef
    end
  else if is_type [UPDATE] log then
    let* update_log := deref (Log.deserialize_update log_buf) in
    match update_log with
    | UpdateLogRecord h o n rid t =>
        rollback_update (bytes_string t) rid o;;
        let* next := prev_of (lsn_ h) in
        let* _ := on_log (LogM.gen_log_upadte_CLR (log_tid_ h) next o n rid (bytes_string t)) in ret tt
    | _ => fail Undef
    end
  else if is_type [BEGIN] log then
    modify (set_undo (fun u => u ∖ {[log_tid_ log]}));;
    assert (prev_lsn_ log =? INVALID_LSN)
  else if is_type [COMMIT; ABORT] log then assert false
  else ret tt.

(** one round of the loop over [offset_list_], backwards *)
Definition undo_at (offset : Z) : Prog RM unit :=
  let* r := read_log (junk LOG_HEADER_SIZE) LOG_HEADER_SIZE offset in
  assert (0 <? r.1);;
  let* log := deref (Log.deserialize_hdr r.2) in
  let* u := gets undo_list_ in
  if bool_decide (log_tid_ log ∈ u) then
    let* b := read_log (junk (log_tot_len_ log)) (wrap 32 (log_tot_len_ log)) offset in
    undo_record log b.2
  else ret tt.

Definition undo : Prog RM unit :=
  let* offsets := gets offset_list_ in
  for_each (rev offsets) undo_at;;
  let* tab_metas := gets (fun r => snd <$> tabs_ (db_ (tm_sm (rc_tm r)))) in
  for_each tab_metas (fun tab_meta =>
    for_each (tm_indexes tab_meta) (fun index_meta =>
      on_sm (Sm.create_index ifuel rfuel junk (tm_name tab_meta) (cm_name <$> im_cols index_meta) None))).
End ops.
End Rec.
