(* ===== verification/RecoveryProps.v ===== *)
(** Recovery: reading the log back.

    [read_log] leaves everything but the offset of the log descriptor alone, so the first pass of
    [analyze] is followed over a log file that holds the records the log manager wrote: it meets every
    record at its first byte, in order, and stops at the end.  What [redo] does with one record is
    related to the call that logged it, and followed to the records of the table. *)

From S2P Require Import Prelude Bytes Errors Disk BufferPool PageStore Defs.
From S2P Require Import Text SmMeta RmFile RmPage RmProofs RmProps LogRecord LogManager Lock.
From S2P Require Import IxDefs IxTree IxManager SmState Core Txn Sm TxnProps TxnAbort.
From S2P Require Import Recovery.
Import RmPage.

Module RecP.

(** ** Reading the log file *)

(** the disk with other file offsets *)
Record same_files (d d' : Disk) : Prop := {
  sf_inv : Dsk.dinv d';
  sf_log : Dsk.log_ok d';
  sf_dir : dir d' = dir d;
  sf_inodes : inodes d' = inodes d;
}.

Lemma same_files_trans d d' d'' : same_files d d' -> same_files d' d'' -> same_files d d''.
Proof. intros [] []. split; congruence || done. Qed.

Lemma same_files_log d d' : same_files d d' -> Dsk.log_content d' = Dsk.log_content d.
Proof. intros []. unfold Dsk.log_content. by rewrite sf_dir0, sf_inodes0. Qed.

Lemma lseek_set_files fd off d : dir (Dsk.sys_lseek_set fd off d) = dir d /\ inodes (Dsk.sys_lseek_set fd off d) = inodes d /\
  log_fd_ (Dsk.sys_lseek_set fd off d) = log_fd_ d /\ fd2path_ (Dsk.sys_lseek_set fd off d) = fd2path_ d.
Proof. unfold Dsk.sys_lseek_set. destruct (fds d !! fd) as [[? ?]|]; [|done]. by destruct (0 <=? off). Qed.

Lemma read_log_eq d c n off :
  Dsk.dinv d -> Dsk.log_ok d -> Dsk.log_content d = Some c -> zlen c < 2 ^ 31 -> 0 <= off <= zlen c -> 0 <= n ->
  exists d', Dsk.read_log n off d = (Ok (Z.min n (zlen c - off), slice off (Z.min n (zlen c - off)) c), d') /\ same_files d d'.
Proof.
  intros Hd Hl Hc Hlen Ho Hn. pose proof (Dsk.dinv_read_log d n off Hd) as Hfin. pose proof (zlen_nonneg c).
  destruct (Dsk.ensure_log_fd_runs d Hd Hl) as ([] & d1 & E1 & H1 & Hp & Hdir & Hino & _).
  destruct (Dsk.fd_of_log d1 H1 Hp) as (ino & o & Hf & Hd1).
  assert (Hc1 : inodes d1 !! ino = Some c) by (unfold Dsk.log_content in Hc; by rewrite <- Hdir, Hd1, <- Hino in Hc).
  set (k := Z.min n (zlen c - off)). revert Hfin. unfold Dsk.read_log. rewrite (bind_ok _ _ _ _ _ E1). unfold bind, gets, modify.
  unfold Dsk.get_file_size. rewrite Hd1, Hc1. simpl. rewrite wrap_id by lia. destruct (Z.ltb_spec (zlen c) off); [lia|]. fold k.
  destruct (Z.eqb_spec k 0) as [E|E].
  - intros _. exists d1. simpl. rewrite E. split; [done|]. split; try done. split; [by rewrite Hd1|by right].
  - unfold Dsk.sys_lseek_set. rewrite Hf. destruct (Z.leb_spec 0 off); [|lia]. unfold Dsk.sys_read. simpl.
    rewrite lookup_insert_eq, Hc1. simpl. rewrite zlen_slice by lia. rewrite Z.eqb_refl. simpl. intros Hfin.
    eexists. split; [done|]. split; simpl; try done. split; simpl; [by rewrite Hd1|by right].
Qed.

(** ** The disk of the recovery manager *)

Definition disk_of (r : RecoveryManager) : Disk := disk (c_store (sm_core (tm_sm (rc_tm r)))).
Definition on_disk (d : Disk) (r : RecoveryManager) : RecoveryManager :=
  let tm := rc_tm r in let sm := tm_sm tm in let c := sm_core sm in
  mkRecoveryManager
    (mkTransactionManager (SmSt.set_core (set_store (mkStore d (bpm (c_store c))) c) sm) (next_txn_id_ tm) (next_timestamp_ tm) (txn_map tm))
    (undo_list_ r) (lsn_offset_table_ r) (rc_lsn_prevlsn_table_ r) (offset_list_ r).

(** the log file is readable and holds [c] *)
Record log_is (c : list Z) (r : RecoveryManager) : Prop := {
  lf_inv : Dsk.dinv (disk_of r);
  lf_ok : Dsk.log_ok (disk_of r);
  lf_content : Dsk.log_content (disk_of r) = Some c;
  lf_len : zlen c < 2 ^ 31;
}.

Lemma rec_read_log buf n off c r :
  log_is c r -> 0 <= off <= zlen c -> 0 <= n ->
  exists d', Rec.read_log buf n off r =
      (Ok (Z.min n (zlen c - off), splice 0 (slice off (Z.min n (zlen c - off)) c) buf), on_disk d' r) /\
    same_files (disk_of r) d' /\ log_is c (on_disk d' r).
Proof.
  intros [Hd Hl Hc Hlen] Ho Hn. destruct (read_log_eq _ c n off Hd Hl Hc Hlen Ho Hn) as (d' & E & Hs).
  exists d'. split.
  - destruct r as [[[[[d p] lm lk ad] db dl f ih sl] nt ts tmap] u lt pt ol]. unfold disk_of in E. simpl in E.
    unfold Rec.read_log, bind, Rec.on_sm, Rec.on_tm, TxnM.on_sm, Sm.on_store, SmSt.on_core, Core.on_store, Bpm.on_disk, zoom. simpl. by rewrite E.
  - split; [done|]. destruct r as [[[[[d p] lm lk ad] db dl f ih sl] nt ts tmap] u lt pt ol].
    split; [apply (sf_inv _ _ Hs)|apply (sf_log _ _ Hs)| |done]. by rewrite <- Hc, <- (same_files_log _ _ Hs).
Qed.

(** ** The first pass *)

(** the records a sequence of calls logs, the first with lsn [n] *)
Fixpoint records (n : Z) (os : list LogM.op) : list LogRecord :=
  match os with
  | [] => []
  | o :: os => match LogM.op_record o n with Some x => x :: records (n + 1) os | None => records n os end
  end.

Abbreviation log_of rs := (concat (Log.image <$> rs)).

(** where the records start *)
Fixpoint starts (off : Z) (rs : list LogRecord) : list Z :=
  match rs with [] => [] | x :: rs => off :: starts (off + zlen (Log.image x)) rs end.

Fixpoint noted (off : Z) (rs : list LogRecord) (r : RecoveryManager) : RecoveryManager :=
  match rs with [] => r | x :: rs => noted (off + zlen (Log.image x)) rs (Rec.note_record (Log.hdr_of x) off r) end.

Fixpoint last_of (last : Z) (rs : list LogRecord) : Z :=
  match rs with [] => last | x :: rs => last_of (lsn_ (Log.hdr_of x)) rs end.
Fixpoint max_tid (tid : Z) (rs : list LogRecord) : Z :=
  match rs with [] => tid | x :: rs => max_tid (Z.max tid (log_tid_ (Log.hdr_of x))) rs end.

Lemma image_starts x : exists body, Log.image x = Log.image_hdr (Log.hdr_of x) ++ body.
Proof. destruct x; try (eexists; done). all: exists []; by rewrite app_nil_r. Qed.

Lemma image_len x : LOG_HEADER_SIZE <= zlen (Log.image x).
Proof.
  destruct (image_starts x) as [b E]. pose proof (Log.zlen_image_hdr (Log.hdr_of x)). rewrite E.
  unfold zlen in *. rewrite length_app. lia.
Qed.

Lemma noted_on_disk d rs off r : noted off rs (on_disk d r) = on_disk d (noted off rs r).
Proof. revert off r. induction rs as [|x rs IH]; intros off r; [done|]. cbn [noted]. by rewrite <- IH. Qed.

(** a record header that follows the bytes [pre] *)
Lemma read_log_header buf pre x rest r :
  log_is (pre ++ Log.image x ++ rest) r -> Log.wf x -> zlen buf = LOG_HEADER_SIZE ->
  exists d', Rec.read_log buf LOG_HEADER_SIZE (zlen pre) r = (Ok (LOG_HEADER_SIZE, Log.image_hdr (Log.hdr_of x)), on_disk d' r) /\
    same_files (disk_of r) d' /\ log_is (pre ++ Log.image x ++ rest) (on_disk d' r).
Proof.
  intros Hl Hx Hb. pose proof (image_len x). pose proof (zlen_nonneg (Log.image x)). pose proof (zlen_nonneg pre). pose proof (zlen_nonneg rest).
  destruct (image_starts x) as [body Eb]. pose proof (Log.zlen_image_hdr (Log.hdr_of x)) as Hh.
  assert (Hz : zlen (pre ++ Log.image x ++ rest) = zlen pre + zlen (Log.image x) + zlen rest) by (unfold zlen; rewrite !length_app; lia).
  destruct (rec_read_log buf LOG_HEADER_SIZE (zlen pre) _ r Hl ltac:(lia) ltac:(done)) as (d' & E & Hs & Hl').
  exists d'. split; [|done]. rewrite E, Z.min_l by lia. do 3 f_equal.
  rewrite slice_app_r, Z.sub_diag by lia. rewrite Eb, <- app_assoc, slice_app_l by lia. rewrite <- Hh, slice_full.
  apply splice_all. lia.
Qed.

Lemma scan_from rs : forall lfuel buf pre r last tid,
  log_is (pre ++ log_of rs) r -> Forall Log.wf rs -> (length rs < lfuel)%nat -> zlen buf = LOG_HEADER_SIZE ->
  exists d', Rec.scan_log lfuel buf (zlen pre) last tid r = (Ok (last_of last rs, max_tid tid rs), on_disk d' (noted (zlen pre) rs r)) /\
    same_files (disk_of r) d'.
Proof.
  induction rs as [|x rs IH]; intros lfuel buf pre r last tid Hl Hwf Hf Hb; (destruct lfuel as [|lfuel]; [simpl in Hf; lia|]);
    cbn [Rec.scan_log fmap list_fmap concat] in *.
  - rewrite app_nil_r in Hl. pose proof (zlen_nonneg pre).
    destruct (rec_read_log buf LOG_HEADER_SIZE (zlen pre) _ r Hl ltac:(lia) ltac:(done)) as (d' & E & Hs & _).
    exists d'. split; [|done]. rewrite (bind_ok _ _ _ _ _ E). by rewrite Z.sub_diag.
  - apply Forall_cons in Hwf as [Hx Hwf]. destruct (read_log_header buf pre x _ r Hl Hx Hb) as (d' & E & Hs & Hl').
    rewrite (bind_ok _ _ _ _ _ E). cbn [fst snd]. rewrite (proj2 (Z.ltb_lt _ _)) by done.
    rewrite <- (app_nil_r (Log.image_hdr _)), Log.deserialize_hdr_image, app_nil_r by apply Hx. unfold deref.
    assert (Hz : zlen pre + log_tot_len_ (Log.hdr_of x) = zlen (pre ++ Log.image x)).
    { rewrite (proj1 (proj2 Hx)). unfold zlen. rewrite length_app. lia. }
    pose proof (lf_len _ _ Hl) as Hlen. rewrite (app_assoc pre) in Hl', Hlen. pose proof (zlen_nonneg (pre ++ Log.image x)).
    assert (zlen (pre ++ Log.image x) < 2 ^ 31) by (unfold zlen in *; rewrite (length_app (_ ++ _)) in Hlen; lia).
    unfold bind at 1. cbn [ret]. unfold bind at 1, modify at 1. rewrite Hz, wrap_id by lia.
    destruct (IH lfuel (Log.image_hdr (Log.hdr_of x)) (pre ++ Log.image x) (on_disk d' (Rec.note_record (Log.hdr_of x) (zlen pre) r))
      (lsn_ (Log.hdr_of x)) (if tid <? log_tid_ (Log.hdr_of x) then log_tid_ (Log.hdr_of x) else tid)) as (d2 & E2 & Hs2).
    + destruct Hl'. by split.
    + done.
    + simpl in Hf. lia.
    + apply Log.zlen_image_hdr.
    + exists d2. split; [|by eapply same_files_trans]. rewrite noted_on_disk in E2.
      cbn [last_of max_tid noted]. rewrite <- (proj1 (proj2 Hx)), Hz.
      assert ((if tid <? log_tid_ (Log.hdr_of x) then log_tid_ (Log.hdr_of x) else tid) = Z.max tid (log_tid_ (Log.hdr_of x))) as Em.
      { destruct (Z.ltb_spec tid (log_tid_ (Log.hdr_of x))); lia. }
      rewrite Em in *. exact E2.
Qed.

(** *** What the first pass writes down *)

Lemma spec_run_records os : forall n c b n' c' b',
  LogM.spec_run os (n, c, b) = Some (n', c', b') ->
  c' ++ b' = c ++ b ++ log_of (records n os) /\ n' = n + zlen (records n os).
Proof.
  induction os as [|o os IH]; intros n c b n' c' b' E; cbn [LogM.spec_run records] in *.
  - simplify_eq. simpl. rewrite app_nil_r. split; [done|]. unfold zlen. simpl. lia.
  - unfold LogM.spec_step in E. destruct (LogM.op_record o n) as [x|] eqn:Ex.
    + destruct (_ <=? _); [|done]. cbn [mbind option_bind] in E. apply IH in E as [-> ->]. cbn [fmap list_fmap concat].
      rewrite <- !app_assoc. split; [done|]. unfold zlen. simpl. lia.
    + cbn [mbind option_bind] in E. apply IH in E as [-> ->]. by rewrite <- !app_assoc.
Qed.

(** consecutive log sequence numbers *)
Definition numbered (n : Z) (rs : list LogRecord) : Prop := forall i x, rs !! i = Some x -> lsn_ (Log.hdr_of x) = n + Z.of_nat i.

Lemma numbered_cons n x rs : numbered n (x :: rs) -> lsn_ (Log.hdr_of x) = n /\ numbered (n + 1) rs.
Proof.
  intros H. split; [rewrite (H 0%nat x eq_refl); lia|]. intros i y E. rewrite (H (Datatypes.S i) y E). lia.
Qed.

Lemma op_record_lsn o n x : LogM.op_record o n = Some x -> lsn_ (Log.hdr_of x) = n.
Proof. intros E. destruct o; simpl in E; simplify_eq; simpl; unfold LogM.clr; by rewrite ?Log.hdr_of_upd. Qed.

Lemma records_numbered os : forall n, numbered n (records n os).
Proof.
  induction os as [|o os IH]; intros n i x; cbn [records]; [done|]. destruct (LogM.op_record o n) as [y|] eqn:Ey; [|apply IH].
  destruct i as [|i]; simpl; [intros E; simplify_eq; rewrite (op_record_lsn _ _ _ Ey); lia|].
  intros E. rewrite (IH (n + 1) i x E). lia.
Qed.

Lemma records_wf os : forall n, 0 <= n -> n + zlen os < 2 ^ 31 -> Forall LogM.op_ok os -> Forall Log.wf (records n os).
Proof.
  induction os as [|o os IH]; intros n Hn Hl Ho; cbn [records]; [done|]. apply Forall_cons in Ho as [Ho Hos].
  unfold zlen in *. simpl length in Hl. destruct (LogM.op_record o n) as [y|] eqn:Ey.
  - constructor; [|apply IH; done || lia]. eapply LogM.op_record_wf; [exact Ho| |exact Ey]. unfold int32_ok. lia.
  - apply IH; done || lia.
Qed.

Lemma last_of_numbered rs : forall n last, numbered n rs -> last_of last rs = if bool_decide (rs = []) then last else n + zlen rs - 1.
Proof.
  induction rs as [|x rs IH]; intros n last H; [done|]. apply numbered_cons in H as [Hx H]. cbn [last_of]. rewrite (IH _ _ H), Hx.
  rewrite (bool_decide_false (x :: rs = [])) by done. unfold zlen. case_bool_decide; [subst; simpl; lia|]. simpl length. lia.
Qed.

Lemma max_tid_ge rs : forall tid, tid <= max_tid tid rs /\ Forall (fun x => log_tid_ (Log.hdr_of x) <= max_tid tid rs) rs.
Proof.
  induction rs as [|x rs IH]; intros tid; cbn [max_tid]; [split; [lia|done]|].
  destruct (IH (Z.max tid (log_tid_ (Log.hdr_of x)))) as [H1 H2]. split; [lia|]. constructor; [lia|done].
Qed.

Lemma insert_new_old {k v k'} (t : gmap Z Z) : k' <> k -> LogM.insert_new k v t !! k' = t !! k'.
Proof. intros. unfold LogM.insert_new. destruct (t !! k); [done|]. by rewrite lookup_insert_ne. Qed.
Lemma insert_new_eq {k v} (t : gmap Z Z) : t !! k = None -> LogM.insert_new k v t !! k = Some v.
Proof. intros E. unfold LogM.insert_new. by rewrite E, lookup_insert_eq. Qed.

(** the tables after the pass *)
Record tables_of (n off : Z) (rs : list LogRecord) (r r' : RecoveryManager) : Prop := {
  tb_offsets : offset_list_ r' = offset_list_ r ++ starts off rs;
  tb_old : forall k, k < n -> lsn_offset_table_ r' !! k = lsn_offset_table_ r !! k /\ rc_lsn_prevlsn_table_ r' !! k = rc_lsn_prevlsn_table_ r !! k;
  tb_new : forall i x o, rs !! i = Some x -> starts off rs !! i = Some o ->
    lsn_offset_table_ r' !! lsn_ (Log.hdr_of x) = Some o /\ rc_lsn_prevlsn_table_ r' !! lsn_ (Log.hdr_of x) = Some (prev_lsn_ (Log.hdr_of x));
}.

Lemma noted_tables rs : forall n off r,
  numbered n rs -> (forall k, n <= k -> lsn_offset_table_ r !! k = None /\ rc_lsn_prevlsn_table_ r !! k = None) ->
  tables_of n off rs r (noted off rs r).
Proof.
  induction rs as [|x rs IH]; intros n off r H Hfree; cbn [noted starts].
  { split; [by rewrite app_nil_r|done|done]. }
  apply numbered_cons in H as [Hx H]. destruct (Hfree n ltac:(lia)) as [F1 F2].
  destruct (IH (n + 1) (off + zlen (Log.image x)) (Rec.note_record (Log.hdr_of x) off r) H) as [T1 T2 T3].
  { intros k Hk. simpl. rewrite Hx, !insert_new_old by lia. apply Hfree. lia. }
  split.
  - rewrite T1. simpl. by rewrite <- app_assoc.
  - intros k Hk. destruct (T2 k ltac:(lia)) as [-> ->]. simpl. by rewrite Hx, !insert_new_old by lia.
  - intros [|i] y o; simpl; [|apply T3]. intros; simplify_eq. destruct (T2 (lsn_ (Log.hdr_of y)) ltac:(lia)) as [-> ->].
    simpl. by rewrite !insert_new_eq.
Qed.

Lemma noted_rest rs : forall off r, rc_tm (noted off rs r) = rc_tm r /\ undo_list_ (noted off rs r) = undo_list_ r.
Proof. induction rs as [|x rs IH]; intros off r; [done|]. cbn [noted]. destruct (IH (off + zlen (Log.image x)) (Rec.note_record (Log.hdr_of x) off r)) as [-> ->]. done. Qed.

(** the bytes at the start of a record are the record *)
Lemma starts_image rs : forall pre rest i x o,
  rs !! i = Some x -> starts (zlen pre) rs !! i = Some o -> slice o (zlen (Log.image x)) (pre ++ log_of rs ++ rest) = Log.image x.
Proof.
  induction rs as [|y rs IH]; intros pre rest i x o; [done|]. destruct i as [|i]; cbn [starts fmap list_fmap concat].
  - simpl. intros; simplify_eq. rewrite slice_app_r, Z.sub_diag, <- app_assoc, slice_app_l by lia. apply slice_full.
  - assert (zlen pre + zlen (Log.image y) = zlen (pre ++ Log.image y)) as -> by (unfold zlen; rewrite length_app; lia).
    intros Ex Eo. rewrite <- app_assoc, (app_assoc pre). by eapply IH.
Qed.

Lemma length_starts rs : forall off, length (starts off rs) = length rs.
Proof. induction rs as [|x rs IH]; intros off; [done|]. simpl. by rewrite IH. Qed.
Lemma starts_lookup rs i off (x : LogRecord) : rs !! i = Some x -> exists o, starts off rs !! i = Some o.
Proof. intros E. apply lookup_lt_is_Some. rewrite length_starts. by eapply lookup_lt_Some. Qed.

Lemma records_flush os : forall n, records n (os ++ [LogM.OFlush]) = records n os.
Proof. induction os as [|o os IH]; intros n; [done|]. simpl. by destruct (LogM.op_record o n); rewrite IH. Qed.

Lemma spec_run_flushed os n c :
  LogM.spec_run (os ++ [LogM.OFlush]) (0, [], []) = Some (n, c, []) -> c = log_of (records 0 os) /\ n = zlen (records 0 os).
Proof.
  intros H. apply spec_run_records in H as [H1 H2]. rewrite records_flush in H1, H2. by rewrite app_nil_r in H1.
Qed.
End RecP.

(** C19: The first pass of recovery reads back the log that was written.  Let the log file hold what a sequence
    of calls on the log manager, starting from an empty log and ending with a flush, writes.  The scan of
    [analyze] ends (one round per record and one for the end of the file are enough); it meets the records at
    exactly the offsets where they start, in the order of the calls, and enters the offset and the
    [prev_lsn_] of each under its own lsn.  The number it hands to [set_lsn] is the one the log manager would
    have drawn next (1 for an empty log, where it would be 0), and the transaction number it finds is at
    least that of every record.  No file changes. *)
Theorem recovery_scan_reads_log os n c lfuel buf r :
  Forall LogM.op_ok os -> zlen os < 2 ^ 31 -> LogM.spec_run (os ++ [LogM.OFlush]) (0, [], []) = Some (n, c, []) ->
  RecP.log_is c r -> lsn_offset_table_ r = ∅ -> rc_lsn_prevlsn_table_ r = ∅ -> offset_list_ r = [] ->
  zlen buf = LOG_HEADER_SIZE -> (length (RecP.records 0 os) < lfuel)%nat ->
  exists last_lsn last_txn d' r', Rec.scan_log lfuel buf 0 0 0 r = (Ok (last_lsn, last_txn), r') /\
    last_lsn + 1 = Z.max 1 n /\ Forall (fun x => log_tid_ (Log.hdr_of x) <= last_txn) (RecP.records 0 os) /\
    rc_tm r' = rc_tm (RecP.on_disk d' r) /\ RecP.same_files (RecP.disk_of r) d' /\ undo_list_ r' = undo_list_ r /\
    length (offset_list_ r') = length (RecP.records 0 os) /\
    (forall i x, RecP.records 0 os !! i = Some x -> exists off, offset_list_ r' !! i = Some off /\
       slice off (zlen (Log.image x)) c = Log.image x /\
       lsn_offset_table_ r' !! lsn_ (Log.hdr_of x) = Some off /\ rc_lsn_prevlsn_table_ r' !! lsn_ (Log.hdr_of x) = Some (prev_lsn_ (Log.hdr_of x))).
Proof.
  intros Hok Hlen Hrun Hl H1 H2 H3 Hb Hf. pose proof (RecP.spec_run_flushed _ _ _ Hrun) as [-> ->].
  pose proof (RecP.records_numbered os 0) as Hnum. pose proof (RecP.noted_tables _ 0 0 r Hnum) as [T1 _ T3].
  { intros. by rewrite H1, H2. }
  destruct (RecP.scan_from (RecP.records 0 os) lfuel buf [] r 0 0 Hl) as (d' & E & Hs); [by apply RecP.records_wf|done|done|].
  rewrite RecP.last_of_numbered with (n := 0) in E by done. destruct (RecP.noted_rest (RecP.records 0 os) 0 r) as [N1 N2].
  do 4 eexists. split; [exact E|]. split_and!; [| apply RecP.max_tid_ge | | exact Hs | done | |].
  - case_bool_decide as Hnil; [by rewrite Hnil|]. destruct (RecP.records 0 os); [done|]. unfold zlen. simpl length. lia.
  - unfold RecP.on_disk. simpl. change (zlen (@nil Z)) with 0. by rewrite N1.
  - change (length (offset_list_ (RecP.noted 0 (RecP.records 0 os) r)) = length (RecP.records 0 os)).
    rewrite T1, H3. apply RecP.length_starts.
  - intros i x Ex. destruct (RecP.starts_lookup (RecP.records 0 os) i 0 x Ex) as [o Eo]. exists o.
    split; [transitivity (offset_list_ (RecP.noted 0 (RecP.records 0 os) r) !! i); [done|by rewrite T1, H3]|]. split; [|by apply (T3 i x o)].
    rewrite <- (app_nil_r (concat _)). by apply (RecP.starts_image _ [] [] i).
Qed.

(** ** What redo does with the record of a call *)

Module Redo.
Section effect.
Context (ifuel rfuel : nat) (junk : Z -> list Z).
Local Open Scope prog_scope.

(** a transaction leaves the list of those to undo *)
Definition ended (tid : Z) : Prog RecoveryManager unit :=
  let* u := gets undo_list_ in
  assert (bool_decide (tid ∈ u));;
  modify (Rec.set_undo (fun u => u ∖ {[tid]})).

Definition of_call (o : LogM.op) : Prog RecoveryManager unit :=
  match o with
  | LogM.OBegin t => modify (Rec.set_undo (fun u => {[txn_id_ t]} ∪ u))
  | LogM.OCommit t | LogM.OAbort t => ended (txn_id_ t)
  | LogM.OWrite _ _ w =>
      match wtype_ w with
      | INSERT_TUPLE => Rec.rollback_delete ifuel rfuel junk (tab_name_ w) (rid_ w) (record_ w)
      | DELETE_TUPLE => Rec.rollback_insert ifuel junk (tab_name_ w) (rid_ w)
      | UPDATE_TUPLE => Rec.rollback_update ifuel rfuel junk (tab_name_ w) (rid_ w) (new_record_ w)
      end
  | LogM.OClrUpdate _ _ old _ rid t => Rec.rollback_update ifuel rfuel junk t rid old
  | LogM.OClrInsert _ _ v rid t => Rec.rollback_delete ifuel rfuel junk t rid v
  | LogM.OClrDelete _ _ v rid t => Rec.rollback_insert ifuel junk t rid
  | LogM.OFlush => ret tt
  end.
End effect.

Lemma redo_insert ifuel rfuel junk h v rid t rest s :
  Log.wf (InsertLogRecord h v rid (string_bytes t)) -> log_type_ h = LogType_int INSERT \/ log_type_ h = LogType_int CLR_DELETE ->
  Rec.redo_record ifuel rfuel junk h (Log.image (InsertLogRecord h v rid (string_bytes t)) ++ rest) s = Rec.rollback_delete ifuel rfuel junk t rid v s.
Proof.
  intros Hwf Ht. pose proof (Log.deserialize_image _ rest Hwf) as E. cbn [Log.deserialize_as] in E.
  unfold Rec.redo_record, Rec.is_type. destruct Ht as [-> | ->]; cbn [existsb Z.eqb LogType_int orb Pos.eqb];
    rewrite E; unfold deref, bind, ret; by rewrite bytes_string_bytes.
Qed.
Lemma redo_delete ifuel rfuel junk h v rid t rest s :
  Log.wf (DeleteLogRecord h v rid (string_bytes t)) -> log_type_ h = LogType_int DELETE \/ log_type_ h = LogType_int CLR_INSERT ->
  Rec.redo_record ifuel rfuel junk h (Log.image (DeleteLogRecord h v rid (string_bytes t)) ++ rest) s = Rec.rollback_insert ifuel junk t rid s.
Proof.
  intros Hwf Ht. pose proof (Log.deserialize_image _ rest Hwf) as E. cbn [Log.deserialize_as] in E.
  unfold Rec.redo_record, Rec.is_type. destruct Ht as [-> | ->]; cbn [existsb Z.eqb LogType_int orb Pos.eqb];
    rewrite E; unfold deref, bind, ret; by rewrite bytes_string_bytes.
Qed.
Lemma redo_update ifuel rfuel junk h o n rid t rest s :
  Log.wf (UpdateLogRecord h o n rid (string_bytes t)) -> log_type_ h = LogType_int UPDATE \/ log_type_ h = LogType_int CLR_UPDATE ->
  Rec.redo_record ifuel rfuel junk h (Log.image (UpdateLogRecord h o n rid (string_bytes t)) ++ rest) s = Rec.rollback_update ifuel rfuel junk t rid n s.
Proof.
  intros Hwf Ht. pose proof (Log.deserialize_image _ rest Hwf) as E. cbn [Log.deserialize_as] in E.
  unfold Rec.redo_record, Rec.is_type. destruct Ht as [-> | ->]; cbn [existsb Z.eqb LogType_int orb Pos.eqb];
    rewrite E; unfold deref, bind, ret; by rewrite bytes_string_bytes.
Qed.
(** redo of the record a call logged calls the function of the call again: the compensation record of an insertion, however, is
    taken for the insertion itself, and that of a deletion for the deletion *)
Lemma redo_of_call ifuel rfuel junk o lsn x rest s :
  LogM.op_ok o -> int32_ok lsn -> LogM.op_record o lsn = Some x ->
  Rec.redo_record ifuel rfuel junk (Log.hdr_of x) (Log.image x ++ rest) s = of_call ifuel rfuel junk o s.
Proof.
  intros Ho Hl Ex. destruct (LogM.op_record_wf o lsn x Ho Hl Ex) as [Hwf _].
  destruct o as [t|t|t|t a w|tid un v n rid t|tid un v rid t|tid un v rid t|]; simpl in Ex; simplify_eq; try done.
  - unfold LogM.log_of_write in *. cbn [of_call]. destruct (wtype_ w);
      [apply redo_insert|apply redo_delete|apply redo_update]; try done; by left.
  - apply redo_update; [done|by right].
  - apply redo_insert; [done|by right].
  - apply redo_delete; [done|by right].
Qed.

(** ** The effect on the table *)

(** what becomes of one record of a table: it is removed, or it gets a value; an update wants a record to be there *)
Inductive change := Remove | Put (update : bool) (v : RmRecord).

Definition change_of (o : LogM.op) : option (string * Rid * change) :=
  match o with
  | LogM.OWrite _ _ w =>
      Some (tab_name_ w, rid_ w, match wtype_ w with INSERT_TUPLE => Put false (record_ w) | DELETE_TUPLE => Remove | UPDATE_TUPLE => Put true (new_record_ w) end)
  | LogM.OClrUpdate _ _ old _ rid t => Some (t, rid, Put true old)
  | LogM.OClrInsert _ _ v rid t => Some (t, rid, Put false v)
  | LogM.OClrDelete _ _ _ rid t => Some (t, rid, Remove)
  | _ => None
  end.

(** when the functions of recovery can make the change: [insert_record(rid, buf)] ends only when the first page with free space is not before that
    of the record, and keeps the free chain only when it fills a slot of that page *)
Definition possible (ch : change) (rid : Rid) (c : Core) (h : RmFileHandle) (pages : gmap Z apage) (chain : list Z) : Prop :=
  match ch with
  | Remove => is_Some (RmP.rec_at pages rid)
  | Put update v => record_size (file_hdr_ h) <= zlen (data v) /\ 1 < ps_room c /\ chain <> [] /\
      ((is_Some (RmP.rec_at pages rid) /\ rid_page_no rid <= List.hd (-1) chain) \/
       (update = false /\ RmP.rec_at pages rid = None /\ rid_page_no rid = List.hd (-1) chain /\ valid_slot (file_hdr_ h) (rid_slot_no rid)))
  end.

Definition value_after (ch : change) (h : RmFileHandle) : option (list Z) :=
  match ch with Remove => None | Put _ v => Some (slice 0 (record_size (file_hdr_ h)) (data v)) end.

(** the file afterwards; a [Put] leaves the first page with free space pinned *)
Definition file_after (ch : change) (q : PageId) (C : Core -> Prop) (c : Core) (h : RmFileHandle) (pages : gmap Z apage) (chain : list Z) : Prop :=
  match ch with Remove => RmP.rep C c h pages chain | Put _ _ => Leak.leaked C q c h pages chain end.

Section changes.
Context (ifuel rfuel : nat) (junk : Z -> list Z) (s : SmManager Core) (tab : string) (ti : TabMeta) (h : RmFileHandle) (pages : gmap Z apage) (chain : list Z).
Hypothesis (Hti : Meta.get_table (db_ s) tab = inr ti) (Hix : tm_indexes ti = []) (Hfh : fhs_ s !! tab = Some h).
Hypothesis Hrep : RmP.rep (fun _ => True) (sm_core s) h pages chain.
Abbreviation C := (AbP.apart (c_log (sm_core s)) (c_locks (sm_core s)) (c_addrs (sm_core s))).

Lemma insert_at_redone c rid v update :
  RmP.rep C c h pages chain -> possible (Put update v) rid c h pages chain ->
  exists c' h' pages' chain', Rm.insert_record_at (Datatypes.S rfuel) rid (data v) (c, h) = (Ok tt, (c', h')) /\
    Leak.leaked C (mkPageId (fd_ h) (List.hd (-1) chain)) c' h' pages' chain' /\
    (forall i, RmP.rec_at pages' i = if decide (i = rid) then Some (slice 0 (record_size (file_hdr_ h)) (data v)) else RmP.rec_at pages i).
Proof.
  intros Hr (Hsz & Hroom & Hne & Hcase). pose proof (AbP.apart_framed (c_log (sm_core s)) (c_locks (sm_core s)) (c_addrs (sm_core s))) as HC. destruct chain as [|pn l]; [done|]. cbn [List.hd] in Hcase |- *.
  destruct Hcase as [[[x Hx] Hle]|(_ & Hnone & Hpn & Hv)].
  - destruct (Leak.insert_at_used C HC c h pages pn l rid x (data v) rfuel Hr Hroom Hle Hx Hsz) as (c' & E & Hl). eexists c', h, _, _. split; [exact E|]. split; [exact Hl|].
    intros i. unfold RmP.rec_at in Hx. destruct (pages !! rid_page_no rid) eqn:Hi; [|done]. by eapply RmP.rec_at_put.
  - destruct h as [g hd], rid as [pn' j]. simpl in Hpn, Hv. subst pn'. assert (Hin : pn ∈ pn :: l) by constructor. apply (RmP.rp_chain _ _ _ _ _ Hr) in Hin as (ap & Hi & _).
    unfold RmP.rec_at in Hnone. simpl in Hnone. rewrite Hi in Hnone.
    destruct (Leak.insert_at_free C HC c g hd pages pn l ap j (data v) rfuel Hr Hroom Hi Hv Hnone Hsz) as (c' & chain' & E & Hl).
    eexists c', _, _, chain'. split; [exact E|]. split; [exact Hl|]. intros i. by apply (RmP.rec_at_put pages (mkRid pn j) ap).
Qed.

Lemma rollback_delete_redone rid v :
  possible (Put false v) rid (sm_core s) h pages chain ->
  exists c' h' pages' chain', Roll.rollback_delete ifuel (Datatypes.S rfuel) junk tab rid v s = (Ok tt, AbP.with_file tab c' h' s) /\
    Leak.leaked C (mkPageId (fd_ h) (List.hd (-1) chain)) c' h' pages' chain' /\
    (forall i, RmP.rec_at pages' i = if decide (i = rid) then Some (slice 0 (record_size (file_hdr_ h)) (data v)) else RmP.rec_at pages i).
Proof.
  intros Hp. destruct (insert_at_redone (sm_core s) rid v false (RmP.rep_ctx C _ _ _ _ Hrep (AbP.apart_refl _)) Hp) as (c' & h' & pages' & chain' & E & H).
  exists c', h', pages', chain'. split; [|exact H]. unfold Roll.rollback_delete. erewrite bind_ok by (unfold SmSt.get_table; rewrite Hti; reflexivity).
  erewrite bind_ok by (unfold SmSt.fh_at, gets, bind; rewrite Hfh; reflexivity). rewrite Hix. cbn [for_each]. erewrite bind_ok by reflexivity.
  exact (AbP.on_table_file_eq tab _ s h _ _ _ Hfh E).
Qed.

Lemma rollback_update_redone rid v :
  possible (Put true v) rid (sm_core s) h pages chain ->
  exists c' h' pages' chain', Roll.rollback_update ifuel (Datatypes.S rfuel) junk tab rid v s = (Ok tt, AbP.with_file tab c' h' s) /\
    Leak.leaked C (mkPageId (fd_ h) (List.hd (-1) chain)) c' h' pages' chain' /\
    (forall i, RmP.rec_at pages' i = if decide (i = rid) then Some (slice 0 (record_size (file_hdr_ h)) (data v)) else RmP.rec_at pages i).
Proof.
  intros (Hsz & Hroom & Hne & [[[x Hx] Hle]|[? _]]); [|done]. pose proof (AbP.apart_framed (c_log (sm_core s)) (c_locks (sm_core s)) (c_addrs (sm_core s))) as HC.
  destruct (RmP.get_record_frame C HC _ h pages chain rid x (RmP.rep_ctx C _ _ _ _ Hrep (AbP.apart_refl _)) Hx) as (r & t & E1 & -> & s1 & -> & Hrep1 & Hroom1).
  destruct (insert_at_redone s1 rid v true Hrep1) as (c' & h' & pages' & chain' & E & H).
  { split; [done|]. split; [by rewrite Hroom1|]. split; [done|]. left. split; [by eexists|done]. }
  exists c', h', pages', chain'. split; [|exact H]. unfold Roll.rollback_update. erewrite bind_ok by (unfold SmSt.get_table; rewrite Hti; reflexivity).
  erewrite bind_ok by (unfold SmSt.fh_at, gets, bind; rewrite Hfh; reflexivity). rewrite (bind_ok _ _ _ _ _ (AbP.on_table_file_eq tab _ s h _ _ _ Hfh E1)), Hix. cbn [for_each].
  erewrite bind_ok by reflexivity. rewrite (bind_ok _ _ _ _ _ (AbP.on_table_file_eq tab _ (AbP.with_file tab s1 h s) h tt _ _ (lookup_insert_eq _ _ _) E)).
  unfold AbP.with_file, ret. destruct s. unfold SmSt.set_fhs, SmSt.set_core. simpl. by rewrite insert_insert_eq.
Qed.
End changes.

(** the recovery manager over another state of the system *)
Definition with_sm (s : SmManager Core) (r : RecoveryManager) : RecoveryManager :=
  mkRecoveryManager (mkTransactionManager s (next_txn_id_ (rc_tm r)) (next_timestamp_ (rc_tm r)) (txn_map (rc_tm r)))
    (undo_list_ r) (lsn_offset_table_ r) (rc_lsn_prevlsn_table_ r) (offset_list_ r).
Lemma rec_on_sm_eq {A} (m : Prog (SmManager Core) A) r a s' : m (tm_sm (rc_tm r)) = (Ok a, s') -> Rec.on_sm m r = (Ok a, with_sm s' r).
Proof. intros E. unfold Rec.on_sm, Rec.on_tm, TxnM.on_sm, zoom. by rewrite E. Qed.

(** a computation that changes record [rid] of [tab] to what [ch] says, and nothing else *)
Definition makes (m : Prog RecoveryManager unit) (ch : change) (tab : string) (rid : Rid) (r : RecoveryManager) (h : RmFileHandle) (pages : gmap Z apage) (chain : list Z) : Prop :=
  let s := tm_sm (rc_tm r) in
  exists c' h' pages' chain', m r = (Ok tt, with_sm (AbP.with_file tab c' h' s) r) /\
    file_after ch (mkPageId (fd_ h) (List.hd (-1) chain)) (AbP.apart (c_log (sm_core s)) (c_locks (sm_core s)) (c_addrs (sm_core s))) c' h' pages' chain' /\
    (forall i, RmP.rec_at pages' i = if decide (i = rid) then value_after ch h else RmP.rec_at pages i).

(** the function of a call makes its change *)
Lemma of_call_changes ifuel rfuel junk o r tab rid ch ti h pages chain : let s := tm_sm (rc_tm r) in
  change_of o = Some (tab, rid, ch) -> Meta.get_table (db_ s) tab = inr ti -> tm_indexes ti = [] -> fhs_ s !! tab = Some h ->
  RmP.rep (fun _ => True) (sm_core s) h pages chain -> possible ch rid (sm_core s) h pages chain ->
  makes (of_call ifuel (Datatypes.S rfuel) junk o) ch tab rid r h pages chain.
Proof.
  intros s Hch Hti Hix Hfh Hrep Hp.
  assert (Hrm : is_Some (RmP.rec_at pages rid) -> makes (Rec.rollback_insert ifuel junk tab rid) Remove tab rid r h pages chain).
  { intros [x Hx]. destruct (AbP.rollback_insert_spec ifuel junk tab ti s h pages chain rid x (fun _ => True) Hti Hix Hfh Hrep Hx) as (c' & h' & E & Ha & Hr & _); [by split|done|].
    eexists c', h', _, _. split; [by apply rec_on_sm_eq|]. split; [by apply RmP.rep_ctx|]. intros i. by eapply RmP.rec_at_del. }
  assert (Hin : forall v, possible (Put false v) rid (sm_core s) h pages chain -> makes (Rec.rollback_delete ifuel (Datatypes.S rfuel) junk tab rid v) (Put false v) tab rid r h pages chain).
  { intros v Hv. destruct (rollback_delete_redone ifuel rfuel junk s tab ti h pages chain Hti Hix Hfh Hrep rid v Hv) as (c' & h' & pages' & chain' & E & H).
    exists c', h', pages', chain'. split; [by apply rec_on_sm_eq|done]. }
  assert (Hup : forall v, possible (Put true v) rid (sm_core s) h pages chain -> makes (Rec.rollback_update ifuel (Datatypes.S rfuel) junk tab rid v) (Put true v) tab rid r h pages chain).
  { intros v Hv. destruct (rollback_update_redone ifuel rfuel junk s tab ti h pages chain Hti Hix Hfh Hrep rid v Hv) as (c' & h' & pages' & chain' & E & H).
    exists c', h', pages', chain'. split; [by apply rec_on_sm_eq|done]. }
  destruct o as [t|t|t|t a w|tid un v n rid' t|tid un v rid' t|tid un v rid' t|]; simpl in Hch; simplify_eq; cbn [of_call].
  - destruct (wtype_ w); [by apply Hin|by apply Hrm|by apply Hup].
  - by apply Hup.
  - by apply Hin.
  - by apply Hrm.
Qed.
End Redo.

(** C20: Redo of the log record of a write makes that write on the table: over a table without indexes and under the conditions in which the
    functions of recovery can do it ([Redo.possible]: a record to remove or to update is there; the first page with free
    space is not before that of the record; a free slot is filled in that first page; two frames are free), the redo of the record an insertion, a
    deletion, an update or a compensation logged returns and changes that record of the table and no other, to the logged value or to none;
    log, locks and write sets are as before.  A deletion leaves the file at rest; an insertion or an update leaves the
    first page with free space pinned for ever.  The compensation record of an insertion puts the record back, and that of a deletion removes
    it ([Redo.change_of]): the writes an abort took back are in effect again. *)
Theorem redo_repeats_writes ifuel rfuel junk o lsn x rest r tab rid ch ti h pages chain :
  let s := tm_sm (rc_tm r) in
  LogM.op_ok o -> int32_ok lsn -> LogM.op_record o lsn = Some x -> Redo.change_of o = Some (tab, rid, ch) ->
  Meta.get_table (db_ s) tab = inr ti -> tm_indexes ti = [] -> fhs_ s !! tab = Some h ->
  RmP.rep (fun _ => True) (sm_core s) h pages chain -> Redo.possible ch rid (sm_core s) h pages chain ->
  exists c' h' pages' chain',
    Rec.redo_record ifuel (S rfuel) junk (Log.hdr_of x) (Log.image x ++ rest) r = (Ok tt, Redo.with_sm (AbP.with_file tab c' h' s) r) /\
    Redo.file_after ch (mkPageId (fd_ h) (List.hd (-1) chain)) (AbP.apart (c_log (sm_core s)) (c_locks (sm_core s)) (c_addrs (sm_core s))) c' h' pages' chain' /\
    (forall i, RmP.rec_at pages' i = if decide (i = rid) then Redo.value_after ch h else RmP.rec_at pages i).
Proof.
  intros s Ho Hl Ex Hch Hti Hix Hfh Hrep Hp. rewrite (Redo.redo_of_call _ _ _ o lsn) by done. by eapply Redo.of_call_changes.
Qed.

(** ** Instances *)

Definition demo_calls : list LogM.op := [LogM.OBegin LogManager.demo_txn; LogM.OClrInsert 3 17 (mkRmRecord [5] 1) (mkRid 1 0) "t"].
Definition demo_log : list Z := concat (Log.image <$> RecP.records 0 demo_calls).
Definition demo_recovery : RecoveryManager :=
  RecP.on_disk (Dsk.write_log demo_log demo_log_disk).2 (mkRecoveryManager (demo_tm (mkLockManager ∅ ∅)) ∅ ∅ ∅ []).

Lemma demo_log_is : RecP.log_is demo_log demo_recovery.
Proof.
  split.
  - apply Dsk.dinv_write_log, Dsk.dinv_create_file. by constructor.
  - split; [exists 0%nat; vm_compute; reflexivity|right; vm_compute; reflexivity].
  - vm_compute. reflexivity.
  - vm_compute. reflexivity.
Qed.

Lemma recovery_scan_reads_log_witness : exists last_txn r',
  Rec.scan_log 3 (zeros LOG_HEADER_SIZE) 0 0 0 demo_recovery = (Ok (1, last_txn), r') /\ 3 <= last_txn /\ length (offset_list_ r') = 2%nat.
Proof.
  destruct (recovery_scan_reads_log demo_calls 2 demo_log 3 (zeros LOG_HEADER_SIZE) demo_recovery) as (l & t & d' & r' & E & Hl & Ht & _ & _ & _ & Hn & _).
  - repeat constructor; vm_compute; discriminate || reflexivity.
  - vm_compute. reflexivity.
  - vm_compute. reflexivity.
  - apply demo_log_is.
  - reflexivity.
  - reflexivity.
  - reflexivity.
  - reflexivity.
  - simpl. lia.
  - exists t, r'. assert (l = 1) as -> by lia. split; [exact E|]. split; [|exact Hn].
    apply Forall_cons in Ht as [_ Ht]. apply Forall_cons in Ht as [Ht _]. exact Ht.
Defined.

(** the redo of a deletion on a table with one record *)
Lemma redo_repeats_writes_witness : exists s h pages rid c' h' pages' chain',
  let r := mkRecoveryManager (demo_abort_tm s h rid) ∅ ∅ ∅ [] in let x := LogM.clr CLR_INSERT 1 (Log.make_delete 1 (mkRmRecord [1; 2; 3; 4; 5; 6; 7; 8] 8) rid "t") in
  Rec.redo_record 1 1 zeros (Log.hdr_of x) (Log.image x ++ []) r = (Ok tt, Redo.with_sm (AbP.with_file "t" c' h' (tm_sm (rc_tm r))) r) /\
  RmP.rep (fun _ => True) c' h' pages' chain' /\ is_Some (RmP.rec_at pages rid) /\ RmP.rec_at pages' rid = None.
Proof.
  destruct demo_kept_record as (s & h & pages & chain & rid & Hrep & _ & Hx & _). exists s, h, pages, rid.
  destruct (redo_repeats_writes 1 0 zeros (LogM.OClrDelete 1 17 (mkRmRecord [1; 2; 3; 4; 5; 6; 7; 8] 8) rid "t") 1
    (LogM.clr CLR_INSERT 1 (Log.make_delete 1 (mkRmRecord [1; 2; 3; 4; 5; 6; 7; 8] 8) rid "t")) [] (mkRecoveryManager (demo_abort_tm s h rid) ∅ ∅ ∅ []) "t" rid Redo.Remove demo_abort_tab h pages chain) as (c' & h' & pages' & chain' & E & Hf & Hr).
  - pose proof (demo_clr_ok _ _ _ _ _ _ Hrep Hx) as (H1 & H2 & H3 & H4 & H5 & H6). split_and!; done.
  - split; vm_compute; discriminate || reflexivity.
  - reflexivity.
  - reflexivity.
  - reflexivity.
  - reflexivity.
  - apply lookup_singleton_eq.
  - by destruct Hrep; split.
  - by eexists.
  - exists c', h', pages', chain'. split; [exact E|]. split; [exact (RmP.rep_any _ _ _ _ _ Hf)|]. split; [by eexists|]. rewrite Hr. by rewrite decide_True.
Defined.
