(* ===== verification/Planner.v ===== *)
(** Query plans and the planner: [src/src/optimizer/plan.h], [planner.h], [planner.cpp] and [optimizer.h].

    A plan is a tree of [shared_ptr]s; a null pointer is [NullPlan].  A vector that was moved from is empty.
    A condition comes with the [raw] buffer of its value, which an index scan copies into its key. *)

From S2P Require Import Prelude Bytes Errors Disk Defs Text SmMeta Values.
From S2P Require Import SmState Executor Analyze.

Inductive PlanTag :=
  | T_Invalid | T_Help | T_SET_OUTPUT_OFF | T_LOAD | T_ShowTable | T_ShowIndex | T_DescTable | T_CreateTable
  | T_DropTable | T_CreateIndex | T_DropIndex | T_Insert | T_Update | T_Delete | T_select | T_Transaction_begin
  | T_Transaction_commit | T_Transaction_abort | T_Transaction_rollback | T_SeqScan | T_IndexScan | T_NestLoop
  | T_Sort | T_Projection | T_Agg.

(** a condition with the raw buffer of its value *)
Definition QCond : Type := Condition * option (list Z).
Definition QSet : Type := SetClause * option (list Z).

Inductive Plan :=
  | NullPlan
  | ScanPlan (tag : PlanTag) (tab_name_ : string) (cols_ : list ColMeta) (conds_ : list QCond) (len_ : Z)
      (idx_conds_ : list QCond) (index_col_names_ : list string)
  | JoinPlan (tag : PlanTag) (left_ right_ : Plan) (conds_ : list QCond)
  | ProjectionPlan (tag : PlanTag) (subplan_ : Plan) (sel_cols_ : list TabCol)
  | AggPlan (tag : PlanTag) (subplan_ : Plan) (sel_col_ : TabCol)
  | SortPlan (tag : PlanTag) (subplan_ : Plan) (order_bys : list (TabCol * bool)) (limit_num_ : Z)
  | DMLPlan (tag : PlanTag) (subplan_ : Plan) (tab_name_ : string) (values_ : list AValue) (conds_ : list QCond) (set_clauses_ : list QSet)
  | DDLPlan (tag : PlanTag) (tab_name_ : string) (tab_col_names_ : list string) (cols_ : list ColDef)
  | OtherPlan (tag : PlanTag) (tab_name_ : string)
  | LoadPlan (tag : PlanTag) (file_path_ tab_name_ : string).

Module Pln.

(** ** Conditions *)

(** [swap_op] and the exchange of the two sides *)
Definition swap_op (op : CompOp) : CompOp :=
  match op with OP_EQ => OP_EQ | OP_NE => OP_NE | OP_LT => OP_GT | OP_GT => OP_LT | OP_LE => OP_GE | OP_GE => OP_LE end.
Definition swap_cond (c : QCond) : QCond :=
  (mkCondition (rhs_col c.1) (swap_op (cond_op c.1)) (is_rhs_val c.1) (lhs_col c.1) (rhs_val c.1), c.2).

Definition lhs_tab (c : QCond) : string := tc_tab_name (lhs_col c.1).
Definition rhs_tab (c : QCond) : string := tc_tab_name (rhs_col c.1).

(** [pop_conds]: the conditions of a scan, and those that stay *)
Definition pops (tab_name : string) (c : QCond) : bool :=
  (String.eqb tab_name (lhs_tab c) && is_rhs_val c.1) || String.eqb (lhs_tab c) (rhs_tab c).
Definition pop_conds (conds : list QCond) (tab_name : string) : list QCond * list QCond :=
  (List.filter (pops tab_name) conds, List.filter (fun c => negb (pops tab_name c)) conds).

(** [push_conds]: the side the plan has ([1], [2], or [3] when the condition was placed), the condition as it
    is then, and the plan *)
Fixpoint push_conds (cond : QCond) (plan : Plan) : Z * QCond * Plan :=
  match plan with
  | ScanPlan _ tab_name _ _ _ _ _ =>
      (if String.eqb tab_name (lhs_tab cond) then 1 else if String.eqb tab_name (rhs_tab cond) then 2 else 0, cond, plan)
  | JoinPlan tag lp rp conds =>
      let '(left_res, cond, lp) := push_conds cond lp in
      if left_res =? 3 then (3, cond, JoinPlan tag lp rp conds)
      else
        let '(right_res, cond, rp) := push_conds cond rp in
        if right_res =? 3 then (3, cond, JoinPlan tag lp rp conds)
        else if (left_res =? 0) || (right_res =? 0) then (left_res + right_res, cond, JoinPlan tag lp rp conds)
        else
          let cond := if left_res =? 2 then swap_cond cond else cond in
          (3, cond, JoinPlan tag lp rp (conds ++ [cond]))
  | _ => (0, cond, plan)
  end.

(** [pop_scan]: the scan of a table is marked and handed out; a null pointer when there is none.  The marks
    are those of [scantbl]. *)
Fixpoint find_scan (i : nat) (table : string) (plans : list Plan) : option (nat * Plan) :=
  match plans with
  | [] => None
  | p :: plans =>
      match p with
      | ScanPlan _ tab_name _ _ _ _ _ => if String.eqb tab_name table then Some (i, p) else find_scan (S i) table plans
      | _ => find_scan (S i) table plans
      end
  end.
Definition pop_scan (scantbl : list bool) (table : string) (joined_tables : list string) (plans : list Plan)
    : Plan * list bool * list string :=
  match find_scan 0 table plans with
  | Some (i, p) => (p, <[i := true]> scantbl, joined_tables ++ [table])
  | None => (NullPlan, scantbl, joined_tables)
  end.

(** ** Joins *)

(** the join under construction *)
Record JoinSt := mkJoinSt { js_marks : list bool; js_joined : list string; js_plan : Plan }.

Definition is_null (p : Plan) : bool := match p with NullPlan => true | _ => false end.
Definition joined (tab : string) (l : list string) : bool := existsb (String.eqb tab) l.

(** the first level: both sides are scans *)
Definition first_join (plans : list Plan) (c : QCond) (marks : list bool) (joined_tables : list string) : JoinSt :=
  let '(lp, marks, joined_tables) := pop_scan marks (lhs_tab c) joined_tables plans in
  let '(rp, marks, joined_tables) := pop_scan marks (rhs_tab c) joined_tables plans in
  mkJoinSt marks joined_tables (JoinPlan T_NestLoop lp rp [c]).

(** one further condition *)
Definition next_join (plans : list Plan) (s : JoinSt) (c : QCond) : JoinSt :=
  let '(lp, marks, jt) :=
    if negb (joined (lhs_tab c) (js_joined s)) then pop_scan (js_marks s) (lhs_tab c) (js_joined s) plans
    else (NullPlan, js_marks s, js_joined s) in
  let isneedreverse := negb (joined (rhs_tab c) jt) in
  let '(rp, marks, jt) :=
    if isneedreverse then pop_scan marks (rhs_tab c) jt plans else (NullPlan, marks, jt) in
  if negb (is_null lp) && negb (is_null rp) then
    mkJoinSt marks jt (JoinPlan T_NestLoop (JoinPlan T_NestLoop lp rp [c]) (js_plan s) [])
  else if negb (is_null lp) || negb (is_null rp) then
    let c := if isneedreverse then swap_cond c else c in
    let lp := if isneedreverse then rp else lp in
    mkJoinSt marks jt (JoinPlan T_NestLoop lp (js_plan s) [c])
  else mkJoinSt marks jt (push_conds c (js_plan s)).2.

(** the tables no condition mentions *)
Definition rest_join (plan : Plan) (x : bool * Plan) : Plan := if x.1 : bool then plan else JoinPlan T_NestLoop x.2 plan [].

(** the joins by the conditions; without any, the first table alone *)
Definition cond_joins (plans : list Plan) (conds : list QCond) : Prog unit JoinSt :=
  let n := length plans in
  match conds with
  | c :: conds => ret (fold_left (next_join plans) conds (first_join plans c (replicate n false) (replicate n "")))
  | [] => (let* p := deref (plans !! 0%nat) in ret (mkJoinSt (<[0%nat := true]> (replicate n false)) [] p))%prog
  end.

Definition join_all (plans : list Plan) (conds : list QCond) : Prog unit Plan :=
  (let* s := cond_joins plans conds in
   ret (fold_left rest_join (zip (js_marks s) plans) (js_plan s)))%prog.

Section ops.
Context {S : Type}.
Local Open Scope prog_scope.
Abbreviation SM := (SmManager S).

(** ** Scans *)

(** the inner loops of [get_index_cols]: the conditions on the columns of an index, from the first column on
    and as long as there is one *)
Fixpoint match_index (idx_conds : list QCond) (index_cols : list ColMeta) (n : nat) : Prog SM (list QCond) :=
  match n with
  | O => ret []
  | Datatypes.S n =>
      match index_cols with
      | [] => fail Undef
      | col :: index_cols =>
          match List.filter (fun c : QCond => String.eqb (tc_col_name (lhs_col c.1)) (cm_name col)) idx_conds with
          | [] => ret []
          | found => let* l := match_index idx_conds index_cols n in ret (found ++ l)
          end
      end
  end.

(** the first index with a condition on its first column *)
Fixpoint search_index (idx_conds : list QCond) (indexes : list IndexMeta) : Prog SM (option (list QCond * list string)) :=
  match indexes with
  | [] => ret None
  | index :: indexes =>
      let* tmp_conds := match_index idx_conds (im_cols index) (Z.to_nat (im_col_num index)) in
      match tmp_conds with
      | [] => search_index idx_conds indexes
      | _ => ret (Some (tmp_conds, cm_name <$> im_cols index))
      end
  end.

(** [Planner::get_index_cols]: whether there is one, [idx_conds] and [index_col_names] *)
Definition get_index_cols (tab_name : string) (curr_conds : list QCond) : Prog SM (bool * list QCond * list string) :=
  let idx_conds := List.filter (fun c : QCond => is_rhs_val c.1) curr_conds in
  match idx_conds with
  | [] => ret (false, [], [])
  | _ =>
      let* tab := (SmSt.RLatch;; SmSt.get_table tab_name) in
      let* found := search_index idx_conds (tm_indexes tab) in
      SmSt.RUnLatch;;
      ret (match found with Some (conds, names) => (true, conds, names) | None => (false, idx_conds, []) end)
  end.

(** the constructor [ScanPlan] *)
Definition make_scan (tag : PlanTag) (tab_name : string) (conds idx_conds : list QCond) (index_col_names : list string) : Prog SM Plan :=
  let* tab := SmSt.read_table tab_name in
  let* back := deref (last (tm_cols tab)) in
  ret (ScanPlan tag tab_name (tm_cols tab) conds (cm_offset back + cm_len back) idx_conds index_col_names).

(** the scan of a table under conditions: over an index when there is one *)
Definition table_scan (tab_name : string) (conds : list QCond) : Prog SM Plan :=
  let* x := get_index_cols tab_name conds in
  let '(index_exist, idx_conds, names) := x in
  if index_exist : bool then make_scan T_IndexScan tab_name conds idx_conds names
  else make_scan T_SeqScan tab_name conds idx_conds [].

(** the first loop of [make_one_rel]: a scan per table, and the conditions that remain *)
Fixpoint table_scans (tables : list string) (conds : list QCond) : Prog SM (list Plan * list QCond) :=
  match tables with
  | [] => ret ([], conds)
  | t :: tables =>
      let '(curr_conds, conds) := pop_conds conds t in
      let* p := table_scan t curr_conds in
      let* r := table_scans tables conds in
      ret (p :: r.1, r.2)
  end.

(** [Planner::make_one_rel] *)
Definition make_one_rel (query : Query) : Prog SM Plan :=
  let* r := table_scans (q_tables query) (q_conds query) in
  match r.1 with
  | [p] => ret p
  | plans => pure_call (join_all plans r.2)
  end.

(** ** The rest of a [SELECT] *)

(** [generate_sort_plan]; [has_sort] and [has_limit] are of the syntax tree *)
Definition generate_sort_plan (has_sort has_limit : bool) (query : Query) (plan : Plan) : Plan :=
  if negb has_sort then plan
  else SortPlan T_Sort plan (q_order_by query) (if has_limit then default 0 (q_limit query) else -1).

(** [logical_optimization], [physical_optimization] *)
Definition logical_optimization (query : Query) : Query := query.
Definition physical_optimization (has_sort has_limit : bool) (query : Query) : Prog SM Plan :=
  let* plan := make_one_rel query in
  ret (generate_sort_plan has_sort has_limit query plan).

(** [generate_agg_plan]: the first column, if any column is an aggregate *)
Definition generate_agg_plan (query : Query) (plan : Plan) : Plan :=
  if existsb has_agg (q_cols query) then
    match q_cols query with col :: _ => AggPlan T_Sort plan col | [] => plan end
  else plan.

(** [COUNT( * )] projects on all columns of all tables *)
Definition is_count_star (sel_cols : list TabCol) : bool :=
  match sel_cols with
  | [c] => String.eqb (tc_col_name c) "" && has_agg c && (match aggregate_type c with COUNT => true | _ => false end)
  | _ => false
  end.
Fixpoint all_tab_cols (tables : list string) : Prog SM (list TabCol) :=
  match tables with
  | [] => ret []
  | t :: tables =>
      let* tab := SmSt.read_table t in
      let* l := all_tab_cols tables in
      ret (((fun col => An.tab_col (cm_tab_name col) (cm_name col)) <$> tm_cols tab) ++ l)
  end.

Definition generate_select_plan (has_sort has_limit : bool) (query : Query) : Prog SM Plan :=
  let query := logical_optimization query in
  let* root := physical_optimization has_sort has_limit query in
  let* sel_cols := (if is_count_star (q_cols query) then all_tab_cols (q_tables query) else ret (q_cols query)) in
  ret (generate_agg_plan query (ProjectionPlan T_Projection root sel_cols)).

(** ** All statements *)

Definition interp_sv_type (t : ast.SvType) : ColType :=
  match t with
  | ast.SV_TYPE_INT => TYPE_INT | ast.SV_TYPE_FLOAT => TYPE_FLOAT | ast.SV_TYPE_STRING => TYPE_STRING
  | ast.SV_TYPE_BIGINT => TYPE_BIGINT | ast.SV_TYPE_DATETIME => TYPE_DATETIME
  end.
Fixpoint col_defs (fields : list ast.Field) : Prog SM (list ColDef) :=
  match fields with
  | [] => ret []
  | ast.ColDef name tl :: fields =>
      let* l := col_defs fields in
      ret (mkColDef name (interp_sv_type (ast.tl_type tl)) (ast.tl_len tl) :: l)
  | ast.OtherField :: _ => throw (InternalError "Unexpected field type")
  end.

(** [Planner::do_planner].  For [DELETE] and [UPDATE] the conditions have been moved into the scan, so that
    the plan above it has none. *)
Definition do_planner (parse : ast.TreeNode) (query : Query) : Prog SM Plan :=
  match parse with
  | ast.CreateTable tab_name fields => let* defs := col_defs fields in ret (DDLPlan T_CreateTable tab_name [] defs)
  | ast.DropTable tab_name => ret (DDLPlan T_DropTable tab_name [] [])
  | ast.CreateIndex tab_name col_names => ret (DDLPlan T_CreateIndex tab_name col_names [])
  | ast.DropIndex tab_name col_names => ret (DDLPlan T_DropIndex tab_name col_names [])
  | ast.ShowIndexes tab_name => ret (DDLPlan T_ShowIndex tab_name [] [])
  | ast.InsertStmt tab_name _ => ret (DMLPlan T_Insert NullPlan tab_name (q_values query) (q_conds query) (q_set_clauses query))
  | ast.DeleteStmt tab_name _ =>
      let* scan := table_scan tab_name (q_conds query) in
      ret (DMLPlan T_Delete scan tab_name [] [] [])
  | ast.UpdateStmt tab_name _ _ =>
      let* scan := table_scan tab_name (q_conds query) in
      ret (DMLPlan T_Update scan tab_name [] [] (q_set_clauses query))
  | ast.SelectStmt _ _ _ orderbys limit =>
      let* projection := generate_select_plan (bool_decide (is_Some orderbys)) (bool_decide (is_Some limit)) query in
      ret (DMLPlan T_select projection "" [] [] [])
  | _ => throw (InternalError "Unexpected AST root")
  end.

(** [Optimizer::plan_query] *)
Definition plan_query (parse : ast.TreeNode) (query : Query) : Prog SM Plan :=
  match parse with
  | ast.Help => ret (OtherPlan T_Help "")
  | ast.SetOutputOff => ret (OtherPlan T_SET_OUTPUT_OFF "")
  | ast.LoadData file_path tab_name => ret (LoadPlan T_LOAD file_path tab_name)
  | ast.ShowTables => ret (OtherPlan T_ShowTable "")
  | ast.DescTable tab_name => ret (OtherPlan T_DescTable tab_name)
  | ast.TxnBegin => ret (OtherPlan T_Transaction_begin "")
  | ast.TxnAbort => ret (OtherPlan T_Transaction_abort "")
  | ast.TxnCommit => ret (OtherPlan T_Transaction_commit "")
  | ast.TxnRollback => ret (OtherPlan T_Transaction_rollback "")
  | _ => do_planner parse query
  end.
End ops.
End Pln.
