(* ===== verification/PlannerProps.v ===== *)
(** The planner: the join tree of a [SELECT] and the choice of an index.

    A plan of scans and joins denotes a list of environments, which give a row to each of its tables.  A join
    reads the left side of its conditions from the left input and the right side from the right input, as the
    executor does; so the tree is right only when every condition was placed at a node whose inputs have its
    columns, on the right sides. *)

From S2P Require Import Prelude Bytes Errors Disk Defs Text Float32 SmMeta Values.
From S2P Require Import SmState Executor Analyze Planner.
From Stdlib Require Import Floats.SpecFloat.

Module PlnP.
Import Pln.

(** ** Exchanging the sides of a condition *)

Lemma SFcompare_swap a b : SFcompare a b = option_map CompOpp (SFcompare b a).
Proof.
  destruct a as [[]|[]| |[] m e], b as [[]|[]| |[] m' e']; try done; simpl; rewrite (Z.compare_antisym e' e);
    destruct (e' ?= e); try done; simpl; f_equal; fold (Pos.compare m m'); fold (Pos.compare m' m);
    by rewrite (Pos.compare_antisym m' m), ?CompOpp_involutive.
Qed.

Lemma eq_swap x y : Val.eq x y = Val.eq y x.
Proof.
  destruct x, y; try done; simpl; try apply Z.eqb_sym; try apply bool_decide_ext; try done.
  unfold SFeqb. rewrite SFcompare_swap. by destruct (SFcompare (f32_of_bits _) (f32_of_bits _)) as [[]|].
Qed.
Lemma lt_swap x y : Val.lt y x = Val.gt x y.
Proof. destruct x, y; try done. Qed.

Lemma apply_swap op x y : Val.apply_op (swap_op op) y x = Val.apply_op op x y.
Proof.
  destruct op; simpl; unfold Val.ne, Val.le, Val.ge; rewrite ?(eq_swap y x), ?(lt_swap x y), ?(lt_swap y x); done.
Qed.

(** ** Trees of scans and joins *)

Definition scan_tab (p : Plan) : string := match p with ScanPlan _ t _ _ _ _ _ => t | _ => "" end.
Definition scan_conds (p : Plan) : list QCond := match p with ScanPlan _ _ _ c _ _ _ => c | _ => [] end.
Fixpoint leaves (p : Plan) : list Plan :=
  match p with ScanPlan _ _ _ _ _ _ _ => [p] | JoinPlan _ l r _ => leaves l ++ leaves r | _ => [] end.
Abbreviation tabs p := (scan_tab <$> leaves p).
(** the conditions at the joins, and all of them *)
Fixpoint join_conds (p : Plan) : list QCond := match p with JoinPlan _ l r cs => join_conds l ++ join_conds r ++ cs | _ => [] end.
Fixpoint all_conds (p : Plan) : list QCond :=
  match p with ScanPlan _ _ _ c _ _ _ => c | JoinPlan _ l r cs => all_conds l ++ all_conds r ++ cs | _ => [] end.

(** a condition whose left side is of one of the tables [ls] and whose right side, if a column, of [rs] *)
Definition over (ls rs : list string) (c : QCond) : Prop := lhs_tab c ∈ ls /\ (is_rhs_val c.1 = true \/ rhs_tab c ∈ rs).

Fixpoint wf (p : Plan) : Prop :=
  match p with
  | ScanPlan _ t _ conds _ _ _ => Forall (over [t] [t]) conds
  | JoinPlan _ l r conds => wf l /\ wf r /\ NoDup (tabs l ++ tabs r) /\ Forall (over (tabs l) (tabs r)) conds
  | _ => False
  end.

Lemma over_mono ls rs ls' rs' c : (forall t, t ∈ ls -> t ∈ ls') -> (forall t, t ∈ rs -> t ∈ rs') -> over ls rs c -> over ls' rs' c.
Proof. intros Hl Hr [H1 H2]. split; [auto|destruct H2; auto]. Qed.

Lemma wf_conds p : wf p -> Forall (over (tabs p) (tabs p)) (all_conds p).
Proof.
  induction p as [| | tag l IHl r IHr cs| | | | | | | ]; try done. intros (Hl & Hr & _ & Hc). cbn [all_conds leaves]. rewrite fmap_app.
  apply Forall_app. split; [|apply Forall_app; split].
  - eapply Forall_impl; [by apply IHl|]. intros c. apply over_mono; intros; apply elem_of_app; by left.
  - eapply Forall_impl; [by apply IHr|]. intros c. apply over_mono; intros; apply elem_of_app; by right.
  - eapply Forall_impl; [exact Hc|]. intros c. apply over_mono; intros; apply elem_of_app; by (left + right).
Qed.

Lemma all_conds_split p : all_conds p ≡ₚ (leaves p ≫= scan_conds) ++ join_conds p.
Proof.
  induction p as [| | tag l IHl r IHr cs| | | | | | | ]; try done; cbn [all_conds leaves join_conds].
  - rewrite bind_cons, !app_nil_r. done.
  - rewrite bind_app, IHl, IHr, <- !app_assoc. apply Permutation_app_head. rewrite !app_assoc. do 2 apply Permutation_app_tail. apply Permutation_app_comm.
Qed.

(** the same condition, perhaps with its sides exchanged *)
Definition same_cond (c c' : QCond) : Prop := c' = c \/ (is_rhs_val c.1 = false /\ c' = swap_cond c).

(** ** What a plan of scans and joins denotes *)

Section sem.
Context {Row : Type} (rows : string -> list Row) (value : TabCol -> Row -> Value).
Abbreviation env := (gmap string Row).

(** a condition with its left side read from [a] and its right side from [b] *)
Definition col_val (e : env) (c : TabCol) : option Value := value c <$> e !! tc_tab_name c.
Definition holds (a b : env) (c : QCond) : bool :=
  match col_val a (lhs_col c.1), (if is_rhs_val c.1 then Some (rhs_val c.1) else col_val b (rhs_col c.1)) with
  | Some x, Some y => Val.apply_op (cond_op c.1) x y
  | _, _ => false
  end.
Definition all_hold (conds : list QCond) (a b : env) : bool := forallb (holds a b) conds.

Fixpoint den (p : Plan) : list env :=
  match p with
  | ScanPlan _ tab _ conds _ _ _ => rows tab ≫= (fun r => if all_hold conds {[tab := r]} {[tab := r]} then [{[tab := r]}] else [])
  | JoinPlan _ l r conds => den l ≫= (fun a => den r ≫= (fun b => if all_hold conds a b then [a ∪ b] else []))
  | _ => []
  end.

(** the reference: the product of the tables, and the environments of it on which all conditions hold *)
Fixpoint product (tables : list string) : list env :=
  match tables with [] => [∅] | t :: tables => rows t ≫= (fun r => <[t := r]> <$> product tables) end.
Definition answer (tables : list string) (conds : list QCond) : list env :=
  product tables ≫= (fun e => if all_hold conds e e then [e] else []).

(** *** Lists *)

Lemma bind_app_r {A B} (f g : A -> list B) l : (l ≫= (fun x => f x ++ g x)) ≡ₚ (l ≫= f) ++ (l ≫= g).
Proof.
  induction l as [|x l IH]; [done|]. rewrite !bind_cons, IH, <- !app_assoc. apply Permutation_app_head.
  rewrite !app_assoc. apply Permutation_app_tail, Permutation_app_comm.
Qed.
Lemma bind_nil {A B} (l : list A) : (l ≫= (fun _ => @nil B)) = [].
Proof. by induction l. Qed.
Lemma bind_swap {A B C} (f : A -> B -> list C) l1 l2 : (l1 ≫= (fun x => l2 ≫= f x)) ≡ₚ (l2 ≫= (fun y => l1 ≫= (fun x => f x y))).
Proof.
  induction l1 as [|x l1 IH]; [change ([] ≡ₚ (l2 ≫= (fun _ => @nil C))); by rewrite bind_nil|]. rewrite bind_cons, IH.
  rewrite <- (bind_app_r (f x) (fun y => l1 ≫= (fun x => f x y))). done.
Qed.
Lemma bind_ext {A B} (f g : A -> list B) l : (forall x, x ∈ l -> f x = g x) -> (l ≫= f) = (l ≫= g).
Proof.
  induction l as [|x l IH]; intros H; [done|]. rewrite !bind_cons. f_equal; [apply H; left|apply IH; intros; apply H; by right].
Qed.
Lemma bind_perm_ext {A B} (f g : A -> list B) l : (forall x, f x ≡ₚ g x) -> (l ≫= f) ≡ₚ (l ≫= g).
Proof. intros H. induction l as [|x l IH]; [done|]. rewrite !bind_cons. by rewrite (H x), IH. Qed.
Lemma bind_bind {A B C} (l : list A) (f : A -> list B) (g : B -> list C) : (l ≫= f) ≫= g = (l ≫= (fun x => f x ≫= g)).
Proof. induction l as [|x l IH]; [done|]. by rewrite !bind_cons, bind_app, IH. Qed.
Lemma fmap_bind {A B C} (l : list A) (f : A -> B) (g : B -> list C) : (f <$> l) ≫= g = (l ≫= (fun x => g (f x))).
Proof. induction l as [|x l IH]; [done|]. by rewrite fmap_cons, !bind_cons, IH. Qed.
Lemma if_bind {A B} (b : bool) (x : A) (g : A -> list B) : ((if b then [x] else []) ≫= g) = if b then g x else [].
Proof. destruct b; [|done]. by rewrite bind_cons, app_nil_r. Qed.
Lemma bind_if {A B} (b : bool) (l : list A) (g : A -> list B) : (l ≫= (fun x => if b then g x else [])) = if b then l ≫= g else [].
Proof. destruct b; [done|apply bind_nil]. Qed.

(** *** The product *)

Lemma product_dom ts e : e ∈ product ts -> forall t, is_Some (e !! t) <-> t ∈ ts.
Proof.
  revert e. induction ts as [|t ts IH]; intros e He u; cbn [product] in He.
  - apply list_elem_of_singleton in He as ->. rewrite lookup_empty, elem_of_nil. by split; intros [].
  - apply list_elem_of_bind in He as (r & He & _). apply list_elem_of_fmap in He as (e' & -> & He').
    rewrite elem_of_cons. destruct (decide (u = t)) as [->|Hne]; [rewrite lookup_insert_eq; split; [by left|by eexists]|].
    rewrite lookup_insert_ne by done. rewrite (IH e' He' u). split; [by right|by intros [?|?]].
Qed.

Lemma product_app l1 l2 : NoDup (l1 ++ l2) -> product (l1 ++ l2) = product l1 ≫= (fun a => (fun b => a ∪ b) <$> product l2).
Proof.
  induction l1 as [|t l1 IH]; intros Hd; cbn [product app].
  - rewrite bind_cons, app_nil_r. induction (product l2) as [|b l IHl]; [done|]. rewrite fmap_cons, <- IHl. by rewrite (left_id_L ∅ (∪)).
  - apply NoDup_cons in Hd as [_ Hd]. rewrite bind_bind. apply bind_ext. intros r _. rewrite fmap_bind, (IH Hd).
    clear IH Hd. generalize (product l1). intros l. induction l as [|a l IHl]; [done|]. rewrite !bind_cons, fmap_app, IHl. f_equal.
    rewrite <- list_fmap_compose. apply list_fmap_ext. intros i b _. simpl. by rewrite insert_union_l.
Qed.

Lemma product_perm l1 l2 : l1 ≡ₚ l2 -> NoDup l1 -> product l1 ≡ₚ product l2.
Proof.
  induction 1 as [|t l1 l2 Hp IH|t u l|l1 l2 l3 H1 IH1 H2 IH2]; intros Hd; [done| | |].
  - cbn [product]. apply bind_perm_ext. intros r. apply fmap_Permutation, IH. by apply NoDup_cons in Hd as [_ ?].
  - cbn [product]. assert (Hne : t <> u).
    { apply NoDup_cons in Hd as [Hn _]. rewrite elem_of_cons in Hn. intros ->. apply Hn. by left. }
    transitivity (rows u ≫= (fun r => rows t ≫= (fun r' => (fun e => <[u := r]> (<[t := r']> e)) <$> product l))).
    { apply bind_perm_ext. intros r. induction (rows t) as [|r' l' IHl]; [done|]. rewrite !bind_cons, fmap_app, IHl. by rewrite <- list_fmap_compose. }
    rewrite bind_swap. apply bind_perm_ext. intros r. induction (rows u) as [|r' l' IHl]; [done|]. rewrite !bind_cons, fmap_app, IHl.
    rewrite <- list_fmap_compose. apply Permutation_app_tail, reflexive_eq, list_fmap_ext. intros i e _. simpl. by apply insert_insert_ne.
  - rewrite (IH1 Hd). apply IH2. by rewrite <- H1.
Qed.

(** *** Plans *)

Lemma holds_local a b a' b' c :
  a !! lhs_tab c = a' !! lhs_tab c -> (is_rhs_val c.1 = true \/ b !! rhs_tab c = b' !! rhs_tab c) -> holds a b c = holds a' b' c.
Proof.
  intros Ha Hb. unfold holds, col_val. unfold lhs_tab, rhs_tab in *. rewrite Ha. destruct Hb as [-> | ->]; done.
Qed.
Lemma all_hold_local conds a b a' b' :
  Forall (fun c => a !! lhs_tab c = a' !! lhs_tab c /\ (is_rhs_val c.1 = true \/ b !! rhs_tab c = b' !! rhs_tab c)) conds ->
  all_hold conds a b = all_hold conds a' b'.
Proof.
  induction 1 as [|c conds [H1 H2] _ IH]; [done|]. unfold all_hold in *. simpl. f_equal; [by apply holds_local|exact IH].
Qed.

Lemma union_left (L : list string) (a b : env) t : (forall t, is_Some (a !! t) <-> t ∈ L) -> t ∈ L -> (a ∪ b) !! t = a !! t.
Proof. intros Ha Ht. apply Ha in Ht as [x Hx]. rewrite Hx. by apply lookup_union_Some_l. Qed.
Lemma union_right (L : list string) (a b : env) t : (forall t, is_Some (a !! t) <-> t ∈ L) -> t ∉ L -> (a ∪ b) !! t = b !! t.
Proof. intros Ha Ht. apply lookup_union_r. apply eq_None_not_Some. by rewrite Ha. Qed.

Theorem den_answer p : wf p -> den p = answer (tabs p) (all_conds p).
Proof.
  induction p as [| tag t cols cs len ic names | tag l IHl r IHr cs| | | | | | | ]; try done; cbn [wf].
  - intros _. unfold answer. cbn [den leaves all_conds product fmap list_fmap scan_tab]. rewrite bind_bind. apply bind_ext. intros x _.
    unfold fmap, list_fmap, mbind, list_bind. simpl. by rewrite insert_empty, app_nil_r.
  - intros (Hl & Hr & Hd & Hc). cbn [den leaves all_conds]. rewrite (IHl Hl), (IHr Hr), fmap_app. unfold answer. rewrite (product_app _ _ Hd), !bind_bind.
    apply bind_ext. intros a Ha. rewrite if_bind, fmap_bind, bind_bind, <- bind_if. apply bind_ext. intros b Hb. rewrite if_bind.
    pose proof (product_dom _ _ Ha) as Da. pose proof (product_dom _ _ Hb) as Db. apply NoDup_app in Hd as (_ & Hdis & _).
    assert (El : forall t, t ∈ tabs l -> (a ∪ b) !! t = a !! t) by (intros; by eapply union_left).
    assert (Er : forall t, t ∈ tabs r -> (a ∪ b) !! t = b !! t) by (intros t Ht; eapply union_right; [exact Da|]; intros ?; by eapply Hdis).
    unfold all_hold at 4. rewrite !forallb_app. fold (all_hold (all_conds l) (a ∪ b) (a ∪ b)) (all_hold (all_conds r) (a ∪ b) (a ∪ b)) (all_hold cs (a ∪ b) (a ∪ b)).
    rewrite (all_hold_local (all_conds l) (a ∪ b) (a ∪ b) a a), (all_hold_local (all_conds r) (a ∪ b) (a ∪ b) b b), (all_hold_local cs (a ∪ b) (a ∪ b) a b).
    + by destruct (all_hold (all_conds l) a a), (all_hold (all_conds r) b b), (all_hold cs a b).
    + eapply Forall_impl; [exact Hc|]. intros c [H1 H2]. split; [by apply El|]. destruct H2 as [?|?]; [by left|right; by apply Er].
    + eapply Forall_impl; [by apply wf_conds|]. intros c [H1 H2]. split; [by apply Er|]. destruct H2 as [?|?]; [by left|right; by apply Er].
    + eapply Forall_impl; [by apply wf_conds|]. intros c [H1 H2]. split; [by apply El|]. destruct H2 as [?|?]; [by left|right; by apply El].
Qed.

Lemma holds_same e c c' : same_cond c c' -> holds e e c' = holds e e c.
Proof.
  intros [-> | [Hv ->]]; [done|]. unfold holds, swap_cond, col_val. cbn [fst lhs_col rhs_col cond_op is_rhs_val]. rewrite Hv.
  destruct (e !! tc_tab_name (lhs_col c.1)), (e !! tc_tab_name (rhs_col c.1)); simpl; try done. apply apply_swap.
Qed.

Lemma all_hold_same conds conds' conds2 e : Forall2 same_cond conds conds' -> conds2 ≡ₚ conds' -> all_hold conds2 e e = all_hold conds e e.
Proof.
  intros H Hp. transitivity (all_hold conds' e e).
  - apply eq_true_iff_eq. unfold all_hold. rewrite !forallb_forall. split; intros Hall c Hin; apply Hall; apply list_elem_of_In; apply list_elem_of_In in Hin; [by rewrite Hp|by rewrite <- Hp].
  - clear Hp. induction H as [|c c' l l' Hc _ IH]; [done|]. unfold all_hold in *. simpl. by rewrite (holds_same e c c' Hc), IH.
Qed.

Lemma answer_equiv ts ts' conds conds' conds2 :
  ts ≡ₚ ts' -> NoDup ts -> Forall2 same_cond conds conds' -> conds2 ≡ₚ conds' -> answer ts conds2 ≡ₚ answer ts' conds.
Proof.
  intros Ht Hd Hc Hp. unfold answer. rewrite (bind_ext (fun e => if all_hold conds2 e e then [e] else []) (fun e => if all_hold conds e e then [e] else [])).
  - by apply bind_Permutation, product_perm.
  - intros e _. by rewrite (all_hold_same conds conds' conds2).
Qed.
End sem.

(** ** Placing a condition in a tree *)

Definition is_scan (p : Plan) : bool := match p with ScanPlan _ _ _ _ _ _ _ => true | _ => false end.

(** which sides of a condition a tree has *)
Definition sides (c : QCond) (p : Plan) : Z :=
  if decide (lhs_tab c ∈ tabs p) then (if decide (rhs_tab c ∈ tabs p) then 3 else 1)
  else if decide (rhs_tab c ∈ tabs p) then 2 else 0.

(** the condition is in the tree, perhaps with its sides exchanged *)
Record placed (c : QCond) (p p' : Plan) : Prop := {
  pl_wf : wf p';
  pl_leaves : leaves p' = leaves p;
  pl_conds : exists c', same_cond c c' /\ join_conds p' ≡ₚ c' :: join_conds p;
}.

Lemma placed_left c tag l l' r cs : wf (JoinPlan tag l r cs) -> placed c l l' -> placed c (JoinPlan tag l r cs) (JoinPlan tag l' r cs).
Proof.
  intros (_ & Hr & Hd & Hc) [H1 H2 (c' & H3 & H4)]. split; simpl.
  - by rewrite H2.
  - by rewrite H2.
  - exists c'. split; [done|]. by rewrite H4.
Qed.
Lemma placed_right c tag l r r' cs : wf (JoinPlan tag l r cs) -> placed c r r' -> placed c (JoinPlan tag l r cs) (JoinPlan tag l r' cs).
Proof.
  intros (Hl & _ & Hd & Hc) [H1 H2 (c' & H3 & H4)]. split; simpl.
  - by rewrite H2.
  - by rewrite H2.
  - exists c'. split; [done|]. rewrite H4. simpl. by rewrite <- Permutation_middle.
Qed.
Lemma placed_here c c' tag l r cs :
  wf (JoinPlan tag l r cs) -> same_cond c c' -> over (tabs l) (tabs r) c' -> placed c (JoinPlan tag l r cs) (JoinPlan tag l r (cs ++ [c'])).
Proof.
  intros (Hl & Hr & Hd & Hc) Hs Ho. split; simpl; [|done|].
  - split_and!; try done. apply Forall_app. split; [done|]. by constructor.
  - exists c'. split; [done|]. rewrite !app_assoc. by rewrite <- Permutation_cons_append.
Qed.

Lemma push_spec p : forall c, wf p -> is_rhs_val c.1 = false -> lhs_tab c <> rhs_tab c ->
  let '(res, c', p') := push_conds c p in
  res = sides c p /\ (res <> 3 -> c' = c /\ p' = p) /\ (res = 3 -> placed c p p').
Proof.
  induction p as [| tag t cols cs len ic names | tag l IHl r IHr cs| | | | | | | ]; intros c Hwf Hv Hne; try done; cbn [push_conds].
  - unfold sides. cbn [leaves fmap list_fmap scan_tab]. destruct (String.eqb_spec t (lhs_tab c)) as [->|H1].
    + rewrite decide_True by (by apply list_elem_of_singleton). rewrite decide_False by (rewrite list_elem_of_singleton; congruence). done.
    + rewrite decide_False by (rewrite list_elem_of_singleton; congruence). destruct (String.eqb_spec t (rhs_tab c)) as [->|H2].
      * by rewrite decide_True by (by apply list_elem_of_singleton).
      * by rewrite decide_False by (rewrite list_elem_of_singleton; congruence).
  - pose proof Hwf as (Hl & Hr & Hd & Hc). specialize (IHl c Hl Hv Hne). destruct (push_conds c l) as [[lres c1] l'].
    destruct IHl as (-> & Hl1 & Hl2). destruct (Z.eqb_spec (sides c l) 3) as [E|E].
    { assert (sides c (JoinPlan tag l r cs) = 3) as ->.
      { unfold sides in *. cbn [leaves]. rewrite fmap_app. repeat case_decide; try done; exfalso; set_unfold; tauto. }
      split; [done|]. split; [done|]. intros _. apply placed_left; [done|by apply Hl2]. }
    destruct (Hl1 E) as [-> ->]. specialize (IHr c Hr Hv Hne). destruct (push_conds c r) as [[rres c2] r']. destruct IHr as (-> & Hr1 & Hr2).
    destruct (Z.eqb_spec (sides c r) 3) as [E2|E2].
    { assert (sides c (JoinPlan tag l r cs) = 3) as ->.
      { unfold sides in *. cbn [leaves]. rewrite fmap_app. repeat case_decide; try done; exfalso; set_unfold; tauto. }
      split; [done|]. split; [done|]. intros _. apply placed_right; [done|by apply Hr2]. }
    destruct (Hr1 E2) as [-> ->]. apply NoDup_app in Hd as (_ & Hdis & _). unfold sides in *. cbn [leaves]. rewrite fmap_app.
    pose proof (Hdis (lhs_tab c)) as D1. pose proof (Hdis (rhs_tab c)) as D2.
    destruct (decide (lhs_tab c ∈ tabs l)) as [L1|L1], (decide (rhs_tab c ∈ tabs l)) as [L2|L2]; try done;
    destruct (decide (lhs_tab c ∈ tabs r)) as [R1|R1], (decide (rhs_tab c ∈ tabs r)) as [R2|R2]; try done; try (exfalso; tauto); cbn -[leaves];
      repeat first [rewrite decide_True by (apply elem_of_app; tauto) | rewrite decide_False by (rewrite elem_of_app; tauto)]; split; try done; split; try done; intros _.
    + apply placed_here; [done|by left|]. split; [done|by right].
    + apply placed_here; [done|right; by split|]. split; [done|by right].
Qed.

(** ** The construction of the tree *)

Fixpoint pick (b : bool) (marks : list bool) (ps : list Plan) : list Plan :=
  match marks, ps with m :: marks, p :: ps => if Bool.eqb m b then p :: pick b marks ps else pick b marks ps | _, _ => [] end.

Lemma pick_all marks : forall ps, length marks = length ps -> pick true marks ps ++ pick false marks ps ≡ₚ ps.
Proof.
  induction marks as [|m marks IH]; intros [|p ps] E; try done. simpl in *. destruct m; simpl; [|rewrite <- Permutation_middle]; by rewrite IH by lia.
Qed.
Lemma pick_set marks : forall ps i p, marks !! i = Some false -> ps !! i = Some p -> pick true (<[i := true]> marks) ps ≡ₚ p :: pick true marks ps.
Proof.
  induction marks as [|m marks IH]; intros [|p' ps] [|i] p Hm Hp; simplify_eq/=; [done|].
  destruct m; simpl; rewrite (IH _ _ _ Hm Hp); [apply Permutation_swap|done].
Qed.
Lemma pick_elem marks : forall ps i p, marks !! i = Some true -> ps !! i = Some p -> p ∈ pick true marks ps.
Proof.
  induction marks as [|m marks IH]; intros [|p' ps] [|i] p Hm Hp; simplify_eq/=; [left|]. destruct m; simpl; [right|]; by eapply IH.
Qed.
Lemma pick_none ps : pick true (replicate (length ps) false) ps = [].
Proof. by induction ps. Qed.

Lemma find_scan_ok ps : forall k i p, Forall is_scan ps -> NoDup (scan_tab <$> ps) -> ps !! i = Some p ->
  find_scan k (scan_tab p) ps = Some ((k + i)%nat, p).
Proof.
  induction ps as [|q ps IH]; intros k i p Hs Hd Hp; [done|]. apply Forall_cons in Hs as [Hq Hs]. apply NoDup_cons in Hd as [Hn Hd].
  destruct q as [|tag t cols cs len ic names| | | | | | | |]; try done. cbn [find_scan]. destruct i as [|i]; simplify_eq/=.
  - rewrite String.eqb_refl. do 2 f_equal. lia.
  - destruct (String.eqb_spec t (scan_tab p)) as [E|E].
    + exfalso. apply Hn. rewrite E. apply list_elem_of_fmap. exists p. split; [done|]. by eapply list_elem_of_lookup_2.
    + rewrite (IH (S k) i p Hs Hd Hp). do 2 f_equal. lia.
Qed.

Section joins.
Context (plans : list Plan).
Context (Hscan : Forall is_scan plans) (Hpwf : Forall wf plans) (Hnd : NoDup (scan_tab <$> plans)) (Hne : "" ∉ scan_tab <$> plans).
Abbreviation T := (scan_tab <$> plans).

Lemma scan_leaves p : is_scan p -> leaves p = [p] /\ join_conds p = [] /\ is_null p = false.
Proof. by destruct p. Qed.

(** a table that is not used yet *)
Lemma pop_ok marks jt t :
  length marks = length plans -> t ∈ T -> t ∉ scan_tab <$> pick true marks plans ->
  exists p marks', pop_scan marks t jt plans = (p, marks', jt ++ [t]) /\ is_scan p /\ wf p /\ scan_tab p = t /\
    length marks' = length plans /\ pick true marks' plans ≡ₚ p :: pick true marks plans.
Proof.
  intros Hl Ht Hf. apply list_elem_of_fmap in Ht as (p & -> & Hp). apply list_elem_of_lookup_1 in Hp as [i Hi].
  exists p, (<[i := true]> marks). unfold pop_scan. rewrite (find_scan_ok plans 0 i p Hscan Hnd Hi). split; [done|].
  pose proof (Forall_lookup_1 _ _ _ _ Hscan Hi). pose proof (Forall_lookup_1 _ _ _ _ Hpwf Hi). split_and!; try done; [by rewrite length_insert|].
  apply pick_set; [|done]. destruct (marks !! i) as [[]|] eqn:Em; [|done|].
  - exfalso. apply Hf, list_elem_of_fmap. exists p. split; [done|]. by eapply pick_elem.
  - apply lookup_ge_None in Em. apply lookup_lt_Some in Hi. lia.
Qed.

(** a condition that joins two tables *)
Record joins (c : QCond) : Prop := {
  jc_col : is_rhs_val c.1 = false;
  jc_lhs : lhs_tab c ∈ T;
  jc_rhs : rhs_tab c ∈ T;
  jc_ne : lhs_tab c <> rhs_tab c;
}.

(** the tree over the marked tables, with the conditions treated so far *)
Record jinv (s : JoinSt) (done_ : list QCond) : Prop := {
  ji_len : length (js_marks s) = length plans;
  ji_wf : wf (js_plan s);
  ji_nd : NoDup (tabs (js_plan s));
  ji_leaves : leaves (js_plan s) ≡ₚ pick true (js_marks s) plans;
  ji_joined : forall t, t ∈ T -> joined t (js_joined s) = bool_decide (t ∈ tabs (js_plan s));
  ji_conds : exists cs, Forall2 same_cond done_ cs /\ join_conds (js_plan s) ≡ₚ cs;
}.

Lemma joined_app t l t' : joined t (l ++ [t']) = joined t l || String.eqb t t'.
Proof. unfold joined. rewrite existsb_app. simpl. by rewrite orb_false_r. Qed.
Lemma joined_none t n : t ∈ T -> joined t (replicate n "") = false.
Proof. intros Ht. induction n as [|n IH]; [done|]. simpl. destruct (String.eqb_spec t ""); [by subst|done]. Qed.

Lemma bool_or (P Q R : Prop) `{Decision P, Decision Q, Decision R} : (R <-> P \/ Q) -> bool_decide P || bool_decide Q = bool_decide R.
Proof. intros E. rewrite <- bool_decide_or. by apply bool_decide_ext. Qed.
Lemma eqb_bool t t' : String.eqb t t' = bool_decide (t = t').
Proof. destruct (String.eqb_spec t t'); [by rewrite bool_decide_true|by rewrite bool_decide_false]. Qed.
Lemma same_conds_app done_ cs c c' : Forall2 same_cond done_ cs -> same_cond c c' -> Forall2 same_cond (done_ ++ [c]) (cs ++ [c']).
Proof. intros H1 H2. apply Forall2_app; [done|]. by constructor. Qed.

Lemma first_join_inv c : joins c -> jinv (first_join plans c (replicate (length plans) false) (replicate (length plans) "")) [c].
Proof.
  intros [Hc Hl Hr Hx]. unfold first_join.
  destruct (pop_ok (replicate (length plans) false) (replicate (length plans) "") (lhs_tab c)) as (p & m1 & E1 & S1 & W1 & N1 & L1 & K1).
  { apply length_replicate. } { done. } { rewrite pick_none. apply not_elem_of_nil. }
  rewrite E1. rewrite pick_none in K1.
  destruct (pop_ok m1 (replicate (length plans) "" ++ [lhs_tab c]) (rhs_tab c)) as (q & m2 & E2 & S2 & W2 & N2 & L2 & K2); [done|done| |].
  { rewrite K1. simpl. rewrite list_elem_of_singleton, N1. congruence. }
  rewrite E2. destruct (scan_leaves p S1) as (Lp & Jp & _), (scan_leaves q S2) as (Lq & Jq & _).
  assert (Ht : tabs (JoinPlan T_NestLoop p q [c]) = [lhs_tab c; rhs_tab c]) by (cbn [leaves]; rewrite Lp, Lq; simpl; by rewrite N1, N2).
  assert (Hd : NoDup [lhs_tab c; rhs_tab c]) by (apply NoDup_cons; split; [by rewrite list_elem_of_singleton|apply NoDup_singleton]).
  split; cbn [js_marks js_plan js_joined].
  - done.
  - cbn [wf]. rewrite Lp, Lq. simpl. rewrite N1, N2. split_and!; try done. constructor; [|done]. split; [by left|right; by left].
  - by rewrite Ht.
  - cbn [leaves]. rewrite Lp, Lq, K2, K1. simpl. apply Permutation_swap.
  - intros t Hin. rewrite !joined_app, (joined_none t _ Hin), Ht, !eqb_bool. simpl. apply bool_or. set_unfold. tauto.
  - exists [c]. split; [constructor; [by left|done]|]. cbn [join_conds]. by rewrite Jp, Jq.
Qed.

(** *** A further condition *)

(** the marked tables are those of the tree *)
Lemma fresh_tab s l t : jinv s l -> t ∉ tabs (js_plan s) -> t ∉ scan_tab <$> pick true (js_marks s) plans.
Proof. intros Hi Ht. by rewrite <- (ji_leaves _ _ Hi). Qed.

(** a new scan on the left of the tree *)
Lemma jinv_left s l c c' p marks :
  jinv s l -> is_scan p -> wf p -> scan_tab p ∈ T -> scan_tab p ∉ tabs (js_plan s) -> same_cond c c' -> over [scan_tab p] (tabs (js_plan s)) c' ->
  length marks = length plans -> pick true marks plans ≡ₚ p :: pick true (js_marks s) plans ->
  jinv (mkJoinSt marks (js_joined s ++ [scan_tab p]) (JoinPlan T_NestLoop p (js_plan s) [c'])) (l ++ [c]).
Proof.
  intros Hi Hs Hw Ht Hf Hc Ho Hl Hk. destruct Hi as [I1 I2 I3 I4 I5 (cs & I6 & I7)]. destruct (scan_leaves p Hs) as (Lp & Jp & _).
  assert (Htabs : tabs (JoinPlan T_NestLoop p (js_plan s) [c']) = scan_tab p :: tabs (js_plan s)) by (cbn [leaves]; by rewrite Lp).
  assert (Hd : NoDup (scan_tab p :: tabs (js_plan s))) by (by apply NoDup_cons).
  split; cbn [js_marks js_plan js_joined]; [done| | | | |].
  - cbn [wf]. rewrite Lp. simpl. split_and!; try done. by constructor.
  - by rewrite Htabs.
  - cbn [leaves]. rewrite Lp, Hk. simpl. by rewrite I4.
  - intros t Hin. rewrite joined_app, (I5 t Hin), Htabs, eqb_bool. apply bool_or. rewrite elem_of_cons. tauto.
  - exists (cs ++ [c']). split; [by apply same_conds_app|]. cbn [join_conds]. by rewrite Jp, I7.
Qed.

(** a join of two new scans on the left of the tree *)
Lemma jinv_pair s l c p q marks :
  jinv s l -> is_scan p -> is_scan q -> wf p -> wf q -> joins c -> scan_tab p = lhs_tab c -> scan_tab q = rhs_tab c ->
  lhs_tab c ∉ tabs (js_plan s) -> rhs_tab c ∉ tabs (js_plan s) ->
  length marks = length plans -> pick true marks plans ≡ₚ q :: p :: pick true (js_marks s) plans ->
  jinv (mkJoinSt marks ((js_joined s ++ [lhs_tab c]) ++ [rhs_tab c]) (JoinPlan T_NestLoop (JoinPlan T_NestLoop p q [c]) (js_plan s) [])) (l ++ [c]).
Proof.
  intros Hi Hp Hq Wp Wq [Hc Hl Hr Hx] Np Nq Fp Fq Hlen Hk. destruct Hi as [I1 I2 I3 I4 I5 (cs & I6 & I7)].
  destruct (scan_leaves p Hp) as (Lp & Jp & _), (scan_leaves q Hq) as (Lq & Jq & _).
  assert (Htabs : tabs (JoinPlan T_NestLoop (JoinPlan T_NestLoop p q [c]) (js_plan s) []) = lhs_tab c :: rhs_tab c :: tabs (js_plan s)).
  { cbn [leaves]. rewrite Lp, Lq. simpl. by rewrite Np, Nq. }
  assert (Hd : NoDup (lhs_tab c :: rhs_tab c :: tabs (js_plan s))).
  { apply NoDup_cons. split; [rewrite elem_of_cons; tauto|]. by apply NoDup_cons. }
  split; cbn [js_marks js_plan js_joined]; [done| | | | |].
  - cbn [wf leaves]. rewrite Lp, Lq. simpl. rewrite Np, Nq. split_and!; try done.
    + apply NoDup_cons. rewrite list_elem_of_singleton. split; [done|apply NoDup_singleton].
    + constructor; [|done]. split; [by left|right; by left].
  - by rewrite Htabs.
  - cbn [leaves]. rewrite Lp, Lq, Hk. simpl. rewrite I4. apply Permutation_swap.
  - intros t Hin. rewrite !joined_app, (I5 t Hin), Htabs, !eqb_bool. rewrite (bool_or _ _ (t ∈ lhs_tab c :: tabs (js_plan s))) by (rewrite elem_of_cons; tauto).
    apply bool_or. rewrite !elem_of_cons. tauto.
  - exists (cs ++ [c]). split; [apply same_conds_app; [done|by left]|]. cbn [join_conds]. rewrite Jp, Jq, I7. simpl. rewrite app_nil_r. apply Permutation_cons_append.
Qed.

Lemma next_join_inv s l c : jinv s l -> joins c -> jinv (next_join plans s c) (l ++ [c]).
Proof.
  intros Hi Hj. pose proof Hj as [Hc Hl Hr Hx]. unfold next_join. rewrite (ji_joined _ _ Hi _ Hl).
  case_bool_decide as Dl; cbn [negb].
  - rewrite (ji_joined _ _ Hi _ Hr). case_bool_decide as Dr; cbn [negb is_null andb orb].
    + pose proof (push_spec (js_plan s) c (ji_wf _ _ Hi) Hc Hx) as Hp. destruct (push_conds c (js_plan s)) as [[res c1] p'].
      destruct Hp as (-> & _ & Hp). destruct Hp as [P1 P2 (c' & P3 & P4)].
      { unfold sides. by rewrite !decide_True. }
      destruct Hi as [I1 I2 I3 I4 I5 (cs & I6 & I7)]. split; cbn [js_marks js_plan js_joined snd]; try done.
      * by rewrite P2.
      * by rewrite P2.
      * intros t Ht. by rewrite P2, I5.
      * exists (cs ++ [c']). split; [by apply same_conds_app|]. rewrite P4, I7. apply Permutation_cons_append.
    + destruct (pop_ok (js_marks s) (js_joined s) (rhs_tab c) (ji_len _ _ Hi) Hr (fresh_tab s l _ Hi Dr)) as (q & m & E & Sq & Wq & Nq & Lm & K).
      rewrite E. destruct (scan_leaves q Sq) as (_ & _ & ->). cbn [negb orb]. rewrite <- Nq.
      apply jinv_left; try done; [by rewrite Nq|by rewrite Nq|right; by split|]. split; [apply list_elem_of_singleton; by rewrite Nq|by right].
  - destruct (pop_ok (js_marks s) (js_joined s) (lhs_tab c) (ji_len _ _ Hi) Hl (fresh_tab s l _ Hi Dl)) as (p & m & E & Sp & Wp & Np & Lm & K).
    rewrite E. destruct (scan_leaves p Sp) as (_ & _ & ->). rewrite joined_app, (ji_joined _ _ Hi _ Hr), (proj2 (String.eqb_neq _ _)), orb_false_r by congruence.
    case_bool_decide as Dr; cbn [negb is_null andb orb].
    + rewrite <- Np. apply jinv_left; try done; [by rewrite Np|by rewrite Np|by left|]. split; [apply list_elem_of_singleton; by rewrite Np|by right].
    + destruct (pop_ok m (js_joined s ++ [lhs_tab c]) (rhs_tab c) Lm Hr) as (q & m2 & E2 & Sq & Wq & Nq & Lm2 & K2).
      { rewrite K. rewrite fmap_cons, elem_of_cons, Np. intros [?|?]; [congruence|]. by eapply (fresh_tab s l). }
      rewrite E2. destruct (scan_leaves q Sq) as (_ & _ & ->). cbn [negb andb]. apply jinv_pair; try done. by rewrite K2, K.
Qed.

Lemma next_joins_inv conds : forall s l, jinv s l -> Forall joins conds -> jinv (fold_left (next_join plans) conds s) (l ++ conds).
Proof.
  induction conds as [|c conds IH]; intros s l Hi Hc; [by rewrite app_nil_r|]. apply Forall_cons in Hc as [H1 H2]. cbn [fold_left].
  replace (l ++ c :: conds) with ((l ++ [c]) ++ conds) by (by rewrite <- app_assoc). apply IH; [by apply next_join_inv|done].
Qed.

(** *** The tables without a condition *)

Lemma rest_join_ok marks : forall ps plan, Forall is_scan ps -> Forall wf ps -> wf plan -> NoDup (tabs plan ++ (scan_tab <$> pick false marks ps)) ->
  let p := fold_left rest_join (zip marks ps) plan in
  wf p /\ leaves p ≡ₚ leaves plan ++ pick false marks ps /\ join_conds p = join_conds plan.
Proof.
  induction marks as [|m marks IH]; intros [|q ps] plan Hs Hw Hp Hd; cbn [zip zip_with fold_left pick]; try (by rewrite app_nil_r).
  apply Forall_cons in Hs as [Hq Hs]. apply Forall_cons in Hw as [Wq Hw]. cbn [pick] in Hd. unfold rest_join at 2. cbn [fst snd].
  destruct m; cbn [Bool.eqb] in *; [by apply IH|]. destruct (scan_leaves q Hq) as (Lq & Jq & _). rewrite fmap_cons in Hd.
  assert (Hd' : NoDup (scan_tab q :: tabs plan ++ (scan_tab <$> pick false marks ps))) by (by rewrite Permutation_middle).
  destruct (IH ps (JoinPlan T_NestLoop q plan []) Hs Hw) as (R1 & R2 & R3).
  - cbn [wf]. rewrite Lq. simpl. split_and!; try done. apply NoDup_cons in Hd' as [Hn Hd']. apply NoDup_cons. split.
    + intros ?. apply Hn, elem_of_app. by left.
    + by apply NoDup_app in Hd' as [? _].
  - cbn [leaves]. by rewrite Lq.
  - split; [exact R1|]. split.
    + rewrite R2. cbn [leaves]. rewrite Lq. simpl. apply Permutation_middle.
    + etransitivity; [exact R3|]. cbn [join_conds]. by rewrite Jq, app_nil_r.
Qed.

(** the whole construction *)
Lemma join_all_ok conds : plans <> [] -> Forall joins conds ->
  exists p cs, join_all plans conds tt = (Ok p, tt) /\ wf p /\ leaves p ≡ₚ plans /\ Forall2 same_cond conds cs /\ join_conds p ≡ₚ cs.
Proof.
  intros Hnil Hc.
  assert (Hstart : exists s, cond_joins plans conds tt = (Ok s, tt) /\ length (js_marks s) = length plans /\ wf (js_plan s) /\ leaves (js_plan s) ≡ₚ pick true (js_marks s) plans /\
      exists cs, Forall2 same_cond conds cs /\ join_conds (js_plan s) ≡ₚ cs).
  { destruct conds as [|c conds].
    - clear Hc. destruct plans as [|p ps]; [done|]. eexists. split; [done|]. cbn [js_marks js_plan]. apply Forall_cons in Hscan as [Hp _]. apply Forall_cons in Hpwf as [Wp _].
      destruct (scan_leaves p Hp) as (Lp & Jp & _). split_and!; [by rewrite length_insert, length_replicate|done| |exists []; by rewrite Jp].
      rewrite Lp. cbn [length replicate insert list_insert pick Bool.eqb]. by rewrite pick_none.
    - apply Forall_cons in Hc as [H1 H2]. pose proof (next_joins_inv conds _ [c] (first_join_inv c H1) H2) as [I1 I2 _ I4 _ I6].
      eexists. split; [done|]. split_and!; done. }
  destruct Hstart as (s & E & Hlen & Hwf & Hl & cs & H2 & Hj). unfold join_all. rewrite (bind_ok _ _ _ _ _ E).
  pose proof (pick_all (js_marks s) plans Hlen) as Hall.
  destruct (rest_join_ok (js_marks s) plans (js_plan s) Hscan Hpwf Hwf) as (R1 & R2 & R3).
  { rewrite <- fmap_app, Hl, Hall. done. }
  eexists _, cs. split; [done|]. split_and!; [exact R1| |done|by rewrite R3]. by rewrite R2, Hl.
Qed.
End joins.

(** ** The choice of an index *)

Definition col_of (c : QCond) : string := tc_col_name (lhs_col c.1).
Definition literal (c : QCond) : bool := is_rhs_val c.1.
Definition on_col (x : string) (c : QCond) : bool := String.eqb (col_of c) x.

(** the conditions on the columns [names], up to the first column without one *)
Fixpoint prefix_conds (conds : list QCond) (names : list string) : list QCond :=
  match names with
  | [] => []
  | x :: names => match List.filter (on_col x) conds with [] => [] | l => l ++ prefix_conds conds names end
  end.

(** the columns of an index the planner looks at *)
Definition key_names (index : IndexMeta) : list string := cm_name <$> take (Z.to_nat (im_col_num index)) (im_cols index).
Definition index_ok (index : IndexMeta) : Prop := (Z.to_nat (im_col_num index) <= length (im_cols index))%nat.

Lemma in_filter {A} (f : A -> bool) l x : x ∈ List.filter f l <-> x ∈ l /\ f x = true.
Proof. rewrite !list_elem_of_In. apply filter_In. Qed.

Lemma elem_of_prefix conds names c : c ∈ prefix_conds conds names <->
  c ∈ conds /\ exists k, names !! k = Some (col_of c) /\ forall j x, (j < k)%nat -> names !! j = Some x -> exists c', c' ∈ conds /\ col_of c' = x.
Proof.
  induction names as [|x names IH]; cbn [prefix_conds].
  { rewrite elem_of_nil. split; [done|]. intros (_ & k & Hk & _). done. }
  assert (Hf : forall c, c ∈ List.filter (on_col x) conds <-> c ∈ conds /\ col_of c = x).
  { intros c'. rewrite in_filter. unfold on_col. by rewrite String.eqb_eq. }
  destruct (List.filter (on_col x) conds) as [|c0 l] eqn:E.
  - rewrite elem_of_nil. split; [done|]. intros (Hc & [|k] & Hk & Hb).
    + simplify_eq/=. destruct (Hf c) as [_ H]. by apply elem_of_nil in H.
    + destruct (Hb 0%nat x ltac:(lia) eq_refl) as (c' & H1 & H2). destruct (Hf c') as [_ H]. by apply elem_of_nil in H.
  - rewrite elem_of_app, IH, Hf. split.
    + intros [[Hc Hx]|(Hc & k & Hk & Hb)]; (split; [done|]).
      * exists 0%nat. simpl. split; [by rewrite Hx|]. intros; lia.
      * exists (S k). split; [done|]. intros [|j] y Hj Hy; simplify_eq/=; [|apply (Hb j); [lia|done]].
        destruct (Hf c0) as [H _]. destruct H as [? ?]; [left|by exists c0].
    + intros (Hc & [|k] & Hk & Hb); simplify_eq/=; [by left|]. right. split; [done|]. exists k. split; [done|].
      intros j y Hj Hy. apply (Hb (S j)); [lia|done].
Qed.

Lemma exists_iff {A} (P Q : A -> Prop) : (forall x, P x <-> Q x) -> (exists x, P x) <-> (exists x, Q x).
Proof. intros H. split; intros [x Hx]; exists x; by apply H. Qed.

Section index.
Context {S : Type}.
Implicit Types (s : SmManager S).

Lemma match_index_eq conds cols n s : (n <= length cols)%nat ->
  match_index conds cols n s = (Ok (prefix_conds conds (cm_name <$> take n cols)), s).
Proof.
  revert n. induction cols as [|col cols IH]; intros [|n] Hn; simpl in Hn; try lia; try done. cbn [match_index take fmap list_fmap prefix_conds].
  change (fun c : QCond => String.eqb (tc_col_name (lhs_col c.1)) (cm_name col)) with (on_col (cm_name col)).
  destruct (List.filter (on_col (cm_name col)) conds) as [|c l]; [done|].
  by rewrite (bind_ok _ _ _ _ _ (IH n ltac:(lia))).
Qed.

(** the first index with a condition on its first column *)
Fixpoint first_match (conds : list QCond) (indexes : list IndexMeta) : option (list QCond * list string) :=
  match indexes with
  | [] => None
  | index :: indexes =>
      match prefix_conds conds (key_names index) with
      | [] => first_match conds indexes
      | l => Some (l, cm_name <$> im_cols index)
      end
  end.

Lemma search_index_eq conds indexes s : Forall index_ok indexes -> search_index conds indexes s = (Ok (first_match conds indexes), s).
Proof.
  induction 1 as [|index indexes Hx _ IH]; cbn [search_index first_match]; [done|].
  rewrite (bind_ok _ _ _ _ _ (match_index_eq conds _ _ s Hx)). fold (key_names index). by destruct (prefix_conds conds (key_names index)).
Qed.

Definition matched (conds : list QCond) (indexes : list IndexMeta) (r : option (list QCond * list string)) : Prop :=
  match r with
  | Some (ic, names) => exists i index, indexes !! i = Some index /\ names = cm_name <$> im_cols index /\ ic = prefix_conds conds (key_names index) /\ ic <> [] /\
      (forall j index', (j < i)%nat -> indexes !! j = Some index' -> prefix_conds conds (key_names index') = [])
  | None => Forall (fun index => prefix_conds conds (key_names index) = []) indexes
  end.

Lemma first_match_spec conds indexes : matched conds indexes (first_match conds indexes).
Proof.
  induction indexes as [|index indexes IH]; cbn [first_match]; [constructor|].
  destruct (prefix_conds conds (key_names index)) as [|c l] eqn:E.
  - destruct (first_match conds indexes) as [[ic names]|]; [|by constructor].
    destruct IH as (i & ix & H1 & H2 & H3 & H4 & H5). exists (Datatypes.S i), ix. split_and!; try done. intros [|j] ix' Hj Hx'; simplify_eq/=; [done|].
    apply (H5 j); [lia|done].
  - exists 0%nat, index. split_and!; try done. intros; lia.
Qed.

(** what the planner needs of the catalog *)
Record table_known s (t : string) (tab : TabMeta) : Prop := {
  tk_free : writer (db_latch_ s) = false;
  tk_meta : Meta.get_table (db_ s) t = inr tab;
  tk_cols : tm_cols tab <> [];
  tk_indexes : Forall index_ok (tm_indexes tab);
}.

Lemma latched_read {A B} t tab s (k : TabMeta -> Prog (SmManager S) A) (f : A -> B) a :
  table_known s t tab -> (forall s, k tab s = (Ok a, s)) ->
  (let* tab := (SmSt.RLatch;; SmSt.get_table t) in let* found := k tab in SmSt.RUnLatch;; ret (f found))%prog s = (Ok (f a), s).
Proof.
  intros [Hw Hm _ _] Hk. destruct s as [c d [rd w] fh i l]. simpl in *. subst w.
  unfold SmSt.RLatch, SmSt.try_mutex, SmSt.lock_shared, bind, SmSt.get_table. simpl. rewrite Hm. rewrite Hk. simpl.
  unfold SmSt.RUnLatch, modify, ret, SmSt.set_db_latch, SmSt.unlock_shared. simpl. by rewrite Z.add_simpl_r.
Qed.

Lemma prefix_nil names : prefix_conds [] names = [].
Proof. by destruct names. Qed.

(** what [get_index_cols] answers *)
Lemma get_index_cols_ok t tab conds s : table_known s t tab ->
  exists r, matched (List.filter literal conds) (tm_indexes tab) r /\
    exists rest, get_index_cols t conds s = (Ok (match r with Some (ic, names) => (true, ic, names) | None => (false, rest, []) end), s).
Proof.
  intros Hk. unfold get_index_cols. change (List.filter _ conds) with (List.filter literal conds).
  destruct (List.filter literal conds) as [|c l].
  - exists None. split; [|by exists []]. apply Forall_forall. intros. apply prefix_nil.
  - exists (first_match (c :: l) (tm_indexes tab)). split; [apply first_match_spec|]. exists (c :: l).
    apply (latched_read t tab s (fun tab => search_index (c :: l) (tm_indexes tab))
      (fun r => match r with Some (ic, names) => (true, ic, names) | None => (false, c :: l, []) end)); [done|].
    intros s0. apply search_index_eq, (tk_indexes _ _ _ Hk).
Qed.

(** *** Scans *)

Lemma make_scan_ok t tab s tag conds ic names : table_known s t tab -> exists cols len,
  make_scan tag t conds ic names s = (Ok (ScanPlan tag t cols conds len ic names), s).
Proof.
  intros [Hw Hm Hc _]. unfold make_scan. rewrite (bind_ok _ _ _ _ _ (SmSt.read_table_ok t tab s Hw Hm)).
  destruct (last (tm_cols tab)) as [b|] eqn:E; [|by apply last_None in E]. by eexists _, _.
Qed.

Lemma table_scan_ok t tab s conds : table_known s t tab -> exists p,
  table_scan t conds s = (Ok p, s) /\ is_scan p /\ scan_tab p = t /\ scan_conds p = conds.
Proof.
  intros Hk. destruct (get_index_cols_ok t tab conds s Hk) as (r & _ & rest & E). unfold table_scan. rewrite (bind_ok _ _ _ _ _ E).
  destruct r as [[ic names]|].
  - destruct (make_scan_ok t tab s T_IndexScan conds ic names Hk) as (cols & len & ->). by eexists.
  - destruct (make_scan_ok t tab s T_SeqScan conds rest [] Hk) as (cols & len & ->). by eexists.
Qed.

Lemma filter_split {A} (f : A -> bool) l : List.filter f l ++ List.filter (fun x => negb (f x)) l ≡ₚ l.
Proof. induction l as [|x l IH]; [done|]. simpl. destruct (f x); simpl; [by rewrite IH|]. by rewrite <- Permutation_middle, IH. Qed.

(** the scans share the conditions out *)
Lemma table_scans_ok tables : forall conds s, (forall t, t ∈ tables -> exists tab, table_known s t tab) ->
  exists ps rest, table_scans tables conds s = (Ok (ps, rest), s) /\ Forall is_scan ps /\ scan_tab <$> ps = tables /\
    (ps ≫= scan_conds) ++ rest ≡ₚ conds /\
    (forall i p c, ps !! i = Some p -> c ∈ scan_conds p -> pops (scan_tab p) c = true /\ forall j u, (j < i)%nat -> tables !! j = Some u -> pops u c = false) /\
    (forall t c, t ∈ tables -> c ∈ rest -> pops t c = false).
Proof.
  induction tables as [|t tables IH]; intros conds s Hk; cbn [table_scans].
  { exists [], conds. split_and!; try done; intros; set_unfold; tauto. }
  destruct (Hk t ltac:(left)) as [tab Ht]. unfold pop_conds.
  destruct (table_scan_ok t tab s (List.filter (pops t) conds) Ht) as (p & E & Hs & Hn & Hc). rewrite (bind_ok _ _ _ _ _ E).
  destruct (IH (List.filter (fun c => negb (pops t c)) conds) s) as (ps & rest & E2 & H1 & H2 & H3 & H4 & H5); [intros; apply Hk; by right|].
  rewrite (bind_ok _ _ _ _ _ E2). exists (p :: ps), rest. split; [done|]. split; [by constructor|]. split; [by rewrite fmap_cons, Hn, H2|].
  split; [rewrite bind_cons, Hc, <- app_assoc, H3; apply filter_split|]. split.
  - intros [|i] q c Hq Hin; simplify_eq/=.
    + rewrite Hc in Hin. apply in_filter in Hin as [_ ?]. split; [done|]. intros; lia.
    + destruct (H4 i q c Hq Hin) as [H6 H7]. split; [done|]. intros [|j] u Hj Hu; simplify_eq/=; [|apply (H7 j); [lia|done]].
      assert (Hin' : c ∈ List.filter (fun c => negb (pops (scan_tab p) c)) conds).
      { rewrite <- H3. apply elem_of_app. left. apply list_elem_of_bind. exists q. split; [done|]. by eapply list_elem_of_lookup_2. }
      apply in_filter in Hin' as [_ Hin']. by apply negb_true_iff.
  - intros u c [->|Hu]%elem_of_cons Hin; [|by eapply H5].
    assert (Hin' : c ∈ List.filter (fun c => negb (pops t c)) conds) by (rewrite <- H3; apply elem_of_app; by right).
    apply in_filter in Hin' as [_ Hin']. by apply negb_true_iff.
Qed.

(** *** The whole tree *)

(** a condition as the analysis leaves it: its columns are of the tables, and a literal has no right column; a
    condition on two columns of one table is of the first table *)
Record cond_ok (tables : list string) (c : QCond) : Prop := {
  co_lhs : lhs_tab c ∈ tables;
  co_lit : is_rhs_val c.1 = true -> rhs_tab c <> lhs_tab c;
  co_col : is_rhs_val c.1 = false -> rhs_tab c ∈ tables /\ (rhs_tab c = lhs_tab c -> tables !! 0%nat = Some (lhs_tab c));
}.

Lemma pops_spec t c : pops t c = true <-> (lhs_tab c = t /\ is_rhs_val c.1 = true) \/ lhs_tab c = rhs_tab c.
Proof. unfold pops. rewrite orb_true_iff, andb_true_iff, !String.eqb_eq. intuition congruence. Qed.

Lemma scan_wf tables ps i p : Forall is_scan ps -> scan_tab <$> ps = tables -> ps !! i = Some p ->
  Forall (cond_ok tables) (scan_conds p) ->
  (forall c, c ∈ scan_conds p -> pops (scan_tab p) c = true /\ forall j u, (j < i)%nat -> tables !! j = Some u -> pops u c = false) -> wf p.
Proof.
  intros Hs Ht Hp Hok Hc. pose proof (Forall_lookup_1 _ _ _ _ Hs Hp) as Hsp. destruct p as [|tag t cols cs len ic names| | | | | | | |]; try done.
  simpl in *. apply Forall_forall. intros c Hin. rewrite Forall_forall in Hok. destruct (Hok c Hin) as [H1 H2 H3]. destruct (Hc c Hin) as [H4 H5].
  apply pops_spec in H4 as [[<- Hv]|He]; [split; [by left|by left]|].
  assert (Hv : is_rhs_val c.1 = false) by (destruct (is_rhs_val c.1); [exfalso; by apply H2|done]). destruct (H3 Hv) as [_ H6].
  assert (t = lhs_tab c) as ->.
  { assert (Hti : tables !! i = Some t) by (rewrite <- Ht, list_lookup_fmap, Hp; done).
    destruct i as [|i]; [rewrite H6 in Hti by done; by simplify_eq|]. exfalso.
    assert (pops (lhs_tab c) c = false) as Hf by (eapply (H5 0%nat); [lia|by apply H6]).
    rewrite (proj2 (pops_spec _ _)) in Hf; [done|by right]. }
  split; [by left|right; rewrite <- He; by left].
Qed.

Lemma make_one_rel_ok q s :
  q_tables q <> [] -> NoDup (q_tables q) -> "" ∉ q_tables q -> (forall t, t ∈ q_tables q -> exists tab, table_known s t tab) ->
  Forall (cond_ok (q_tables q)) (q_conds q) ->
  exists p conds conds', make_one_rel q s = (Ok p, s) /\ wf p /\ tabs p ≡ₚ q_tables q /\
    conds ≡ₚ q_conds q /\ Forall2 same_cond conds conds' /\ all_conds p ≡ₚ conds'.
Proof.
  intros Hnil Hnd Hne Hk Hok. destruct (table_scans_ok (q_tables q) (q_conds q) s Hk) as (ps & rest & E & Hs & Hn & Hp & Hc & Hr).
  assert (Hin : forall c, c ∈ (ps ≫= scan_conds) ++ rest -> cond_ok (q_tables q) c).
  { intros c Hc'. rewrite Hp in Hc'. by apply (proj1 (Forall_forall _ _) Hok). }
  assert (Hw : Forall wf ps).
  { apply Forall_lookup_2. intros i p Hi. eapply scan_wf; [exact Hs|exact Hn|exact Hi| |intros c; by apply Hc].
    apply Forall_forall. intros c Hc'. apply Hin, elem_of_app. left. apply list_elem_of_bind. exists p. split; [done|]. by eapply list_elem_of_lookup_2. }
  unfold make_one_rel. rewrite (bind_ok _ _ _ _ _ E). cbn [fst snd].
  assert (Hj : Forall (joins ps) rest).
  { apply Forall_forall. intros c Hc'. destruct (Hin c) as [H1 H2 H3]; [apply elem_of_app; by right|].
    assert (Hpop : forall t, t ∈ q_tables q -> ~ ((lhs_tab c = t /\ is_rhs_val c.1 = true) \/ lhs_tab c = rhs_tab c)).
    { intros t Ht. rewrite <- pops_spec. by rewrite (Hr t c Ht Hc'). }
    assert (Hv : is_rhs_val c.1 = false) by (destruct (is_rhs_val c.1); [exfalso; apply (Hpop _ H1); by left; split|done]).
    destruct (H3 Hv) as [H4 _]. split; try rewrite Hn; try done. intros He. apply (Hpop _ H1). by right. }
  assert (Hgen : exists p cs, (match ps with [p] => ret p | plans => pure_call (join_all plans rest) end) s = (Ok p, s) /\ wf p /\ leaves p ≡ₚ ps /\
      Forall2 same_cond rest cs /\ join_conds p ≡ₚ cs).
  { destruct (join_all_ok ps Hs Hw ltac:(by rewrite Hn) ltac:(by rewrite Hn) rest) as (p & cs & Ej & J1 & J2 & J3 & J4); [by intros ->|done|].
    destruct ps as [|p1 [|p2 ps]].
    - exists p, cs. split_and!; try done; unfold pure_call; by rewrite Ej.
    - assert (rest = []) as ->.
      { destruct rest as [|c rest]; [done|]. apply Forall_cons in Hj as [[_ A1 A2 A3] _]. simpl in A1, A2. apply list_elem_of_singleton in A1, A2. congruence. }
      apply Forall_cons in Hs as [Hs1 _], Hw as [Hw1 _]. destruct (scan_leaves p1 Hs1) as (L1 & J & _). exists p1, []. rewrite L1, J. split_and!; done.
    - exists p, cs. split_and!; try done. unfold pure_call. by rewrite Ej. }
  destruct Hgen as (p & cs & Ep & Wp & Lp & F2 & Jp). exists p, ((ps ≫= scan_conds) ++ rest), ((ps ≫= scan_conds) ++ cs).
  split; [destruct ps as [|p1 [|p2 ps]]; exact Ep|]. split_and!; try done.
  - by rewrite Lp, Hn.
  - apply Forall2_app; [|done]. apply Forall_Forall2_diag, Forall_forall. intros. by left.
  - by rewrite all_conds_split, Lp, Jp.
Qed.
End index.
End PlnP.


(** The planner uses an index exactly when it can.  [get_index_cols] returns; it answers yes with the first
    index of the table whose first column is compared with a literal, with the names of the columns of that
    index, and with exactly those literal conditions that are on a column of the index before which every
    column has a literal condition too; it answers no when no index has such a first column. *)
Theorem planner_index_choice {S} (t : string) (tab : TabMeta) (conds : list QCond) (s : SmManager S) :
  PlnP.table_known s t tab ->
  let usable index := exists c x, c ∈ conds /\ is_rhs_val c.1 = true /\ PlnP.key_names index !! 0%nat = Some x /\ tc_col_name (lhs_col c.1) = x in
  exists found idx_conds names, Pln.get_index_cols t conds s = (Ok (found, idx_conds, names), s) /\
    (found = true -> exists i index, tm_indexes tab !! i = Some index /\ usable index /\ names = cm_name <$> im_cols index /\
       (forall j index', (j < i)%nat -> tm_indexes tab !! j = Some index' -> ~ usable index') /\
       (forall c, c ∈ idx_conds <-> c ∈ conds /\ is_rhs_val c.1 = true /\
          exists k, PlnP.key_names index !! k = Some (tc_col_name (lhs_col c.1)) /\
            forall j x, (j < k)%nat -> PlnP.key_names index !! j = Some x ->
              exists c', c' ∈ conds /\ is_rhs_val c'.1 = true /\ tc_col_name (lhs_col c'.1) = x)) /\
    (found = false -> forall index, index ∈ tm_indexes tab -> ~ usable index).
Proof.
  intros Hk usable. destruct (PlnP.get_index_cols_ok t tab conds s Hk) as (r & Hr & rest & E).
  assert (Hu : forall index, PlnP.prefix_conds (List.filter PlnP.literal conds) (PlnP.key_names index) = [] -> ~ usable index).
  { intros index Hn (c & x & Hc & Hv & Hx & Hcol).
    assert (Hin : c ∈ PlnP.prefix_conds (List.filter PlnP.literal conds) (PlnP.key_names index)); [|rewrite Hn in Hin; by apply elem_of_nil in Hin].
    apply PlnP.elem_of_prefix. split; [by apply PlnP.in_filter|]. exists 0%nat. split; [by rewrite Hx, <- Hcol|]. intros; lia. }
  destruct r as [[ic names]|]; (eexists _, _, _; split; [exact E|]; split; [|]); try done.
  - intros _. destruct Hr as (i & index & H1 & -> & -> & H3 & H4). exists i, index.
    assert (Hel : forall c, c ∈ PlnP.prefix_conds (List.filter PlnP.literal conds) (PlnP.key_names index) <-> c ∈ conds /\ is_rhs_val c.1 = true /\
          exists k, PlnP.key_names index !! k = Some (tc_col_name (lhs_col c.1)) /\
            forall j x, (j < k)%nat -> PlnP.key_names index !! j = Some x ->
              exists c', c' ∈ conds /\ is_rhs_val c'.1 = true /\ tc_col_name (lhs_col c'.1) = x).
    { intros c. rewrite PlnP.elem_of_prefix, PlnP.in_filter. unfold PlnP.literal, PlnP.col_of. rewrite Logic.and_assoc. do 2 apply and_iff_compat_l.
      apply PlnP.exists_iff. intros k. apply and_iff_compat_l. split; intros Hb j x Hj Hx; destruct (Hb j x Hj Hx) as (c' & Hc').
      - exists c'. rewrite PlnP.in_filter in Hc'. tauto.
      - exists c'. rewrite PlnP.in_filter. tauto. }
    split_and!; try done; [|intros j ix' Hj Hx'; apply Hu; by eapply H4].
    destruct (PlnP.prefix_conds _ _) as [|c l]; [done|]. destruct (proj1 (Hel c)) as (Hc & Hv & k & Hk' & Hb); [left|].
    destruct (PlnP.key_names index !! 0%nat) as [x|] eqn:Ex.
    + destruct k as [|k]; [rewrite Ex in Hk'; injection Hk' as Hk'; by exists c, x|]. destruct (Hb 0%nat x ltac:(lia) Ex) as (c' & A1 & A2 & A3). by exists c', x.
    + apply lookup_ge_None in Ex. apply lookup_lt_Some in Hk'. lia.
  - intros _ index Hin. apply Hu. by apply (proj1 (Forall_forall _ _) Hr).
Qed.

(** A comparison of two columns of the second table ends in the scan of the first: the scan of [u] has no
    condition, and that of [t] tests its own columns of these names. *)
Lemma pop_conds_misplaces {S} (s : SmManager S) (tt_ tu : TabMeta) (c : QCond) :
  PlnP.table_known s "t" tt_ -> PlnP.table_known s "u" tu -> is_rhs_val c.1 = false -> Pln.lhs_tab c = "u" -> Pln.rhs_tab c = "u" ->
  exists cols1 len1 cols2 len2, Pln.make_one_rel (mkQuery [c] [] ["t"; "u"] [] [] [] None) s =
    (Ok (JoinPlan T_NestLoop (ScanPlan T_SeqScan "u" cols2 [] len2 [] []) (ScanPlan T_SeqScan "t" cols1 [c] len1 [] []) []), s).
Proof.
  intros H1 H2 Hv Hl Hr. destruct (PlnP.make_scan_ok "t" tt_ s T_SeqScan [c] [] [] H1) as (cols1 & len1 & E1).
  destruct (PlnP.make_scan_ok "u" tu s T_SeqScan [] [] [] H2) as (cols2 & len2 & E2). exists cols1, len1, cols2, len2.
  unfold Pln.make_one_rel. cbn [q_tables q_conds Pln.table_scans]. unfold Pln.pop_conds, Pln.pops. cbn [List.filter]. rewrite Hl, Hr, Hv. cbn [String.eqb Ascii.eqb Bool.eqb andb orb negb].
  unfold Pln.table_scan, Pln.get_index_cols. cbn [List.filter]. rewrite Hv. unfold bind, ret. rewrite E1. by rewrite E2.
Qed.

(** ** Instances *)

Definition demo_col (tab name : string) (off : Z) : ColMeta := mkColMeta tab name TYPE_INT 4 off false.
Definition demo_tab (t : string) : TabMeta :=
  mkTabMeta t [demo_col t "a" 0; demo_col t "b" 4; demo_col t "c" 8] [mkIndexMeta t 4 1 [demo_col t "c" 8]; mkIndexMeta t 8 2 [demo_col t "a" 0; demo_col t "b" 4]].
Definition demo_plan_sm : SmManager unit :=
  mkSmManager tt (mkDbMeta "db" [("t", demo_tab "t"); ("u", demo_tab "u"); ("v", demo_tab "v")]) free_mutex ∅ ∅ free_mutex.

Lemma demo_known t : t ∈ ["t"; "u"; "v"] -> PlnP.table_known demo_plan_sm t (demo_tab t).
Proof.
  intros Ht. assert (t = "t" \/ t = "u" \/ t = "v") as Hor by (set_unfold; tauto).
  split; [done|destruct Hor as [-> | [-> | ->]]; reflexivity|done|]. repeat constructor; unfold PlnP.index_ok; simpl; lia.
Qed.

Definition demo_lit (t x : string) (op : CompOp) (v : Z) : QCond := (mkCondition (An.tab_col t x) op true (An.tab_col "" "") (VInt v), Some (enc_i32 v)).
Definition demo_eq (t x : string) (op : CompOp) (u y : string) : QCond := (mkCondition (An.tab_col t x) op false (An.tab_col u y) (VInt 0), None).
(** [SELECT ... FROM t, u, v WHERE t.a = 1 AND t.b > v.b AND u.a = v.a AND t.c < u.c AND t.a = t.b] *)
Definition demo_query : Query :=
  mkQuery [demo_lit "t" "a" OP_EQ 1; demo_eq "t" "b" OP_GT "v" "b"; demo_eq "u" "a" OP_EQ "v" "a"; demo_eq "t" "c" OP_LT "u" "c"; demo_eq "t" "a" OP_EQ "t" "b"]
    [] ["t"; "u"; "v"] [] [] [] None.
Definition demo_value (c : TabCol) (r : Z) : Value := VInt r.


Lemma planner_index_choice_witness : exists idx_conds,
  Pln.get_index_cols "t" (q_conds demo_query) demo_plan_sm = (Ok (true, idx_conds, ["a"; "b"]), demo_plan_sm) /\ demo_lit "t" "a" OP_EQ 1 ∈ idx_conds.
Proof.
  destruct (planner_index_choice "t" (demo_tab "t") (q_conds demo_query) demo_plan_sm) as (found & ic & names & E & Ht & _).
  - apply demo_known. left.
  - assert (E2 : Pln.get_index_cols "t" (q_conds demo_query) demo_plan_sm = (Ok (true, [demo_lit "t" "a" OP_EQ 1], ["a"; "b"]), demo_plan_sm)) by (vm_compute; reflexivity).
    rewrite E2 in E. injection E as <- <- <-. exists [demo_lit "t" "a" OP_EQ 1]. split; [exact E2|].
    destruct (Ht eq_refl) as (i & index & Hi & _ & Hn & _ & Hc). apply Hc. split; [left|]. split; [reflexivity|]. exists 0%nat.
    destruct i as [|[|i]]; simpl in Hi; simplify_eq. split; [reflexivity|]. intros j x Hj. lia.
Defined.
