(* ===== verification/Printer.v ===== *)
(** The answer to a client: [RecordPrinter] of [src/src/record_printer.h] over the output fields of [Context]
    ([src/src/common/context.h]).

    The buffer [data_send_] has [BUFFER_LENGTH] bytes.  Every piece of text is copied only while 40 bytes stay
    free behind it, which is where the count of records goes. *)

From S2P Require Import Prelude Bytes Errors Text.

Definition BUFFER_LENGTH : Z := 8192.
Definition RECORD_COUNT_LENGTH : Z := 40.
Definition COL_WIDTH : Z := 16.

(** the fields of [Context] that hold the answer *)
Record Output := mkOutput { data_send_ : list Z; offset_ : Z; ellipsis_ : bool }.

Module Prt.
Section ops.
Local Open Scope prog_scope.
Abbreviation bytes := (list Z).

(** a new context over a cleared buffer *)
Definition fresh : Output := mkOutput (zeros BUFFER_LENGTH) 0 false.
Definition dashes : bytes := string_bytes "+------------------".
Definition spaces (n : Z) : bytes := replicate (Z.to_nat n) 32.

(** [memcpy(data_send_ + *offset_, str, len); *offset_ += len] *)
Definition append (str : bytes) : Prog Output unit :=
  let* o := get in
  let* d := deref (memcpy (data_send_ o) (offset_ o) str (zlen str)) in
  modify (fun o => mkOutput d (offset_ o + zlen str) (ellipsis_ o)).

(** the guard every piece is printed under *)
Definition has_room (str : bytes) (o : Output) : bool :=
  negb (ellipsis_ o) && (offset_ o + RECORD_COUNT_LENGTH + zlen str <? BUFFER_LENGTH).
Definition put (str : bytes) : Prog Output unit :=
  let* b := gets (has_room str) in
  if b : bool then append str else modify (fun o => mkOutput (data_send_ o) (offset_ o) true).

Definition print_separator (num_cols : nat) : Prog Output unit :=
  for_each (replicate num_cols dashes) put;;
  put (string_bytes "+" ++ [10]).

(** one cell: cut at the width, then set right *)
Definition cell (col : bytes) : bytes :=
  let col := if COL_WIDTH <? zlen col then take (Z.to_nat (COL_WIDTH - 3)) col ++ string_bytes "..." else col in
  string_bytes "| " ++ spaces (COL_WIDTH - zlen col) ++ col ++ string_bytes " ".

(** the end of a line does not set [ellipsis_] *)
Definition print_record (num_cols : nat) (rec_str : list bytes) : Prog Output unit :=
  assert (length rec_str =? num_cols)%nat;;
  for_each (cell <$> rec_str) put;;
  let* b := gets (has_room (string_bytes "|" ++ [10])) in
  if b : bool then append (string_bytes "|" ++ [10]) else ret tt.

Definition print_record_count (num_rec : Z) : Prog Output unit :=
  let* o := get in
  append ((if ellipsis_ o then string_bytes "... ..." ++ [10] else []) ++ string_bytes "Total record(s): " ++ string_bytes (pretty num_rec) ++ [10]).
End ops.
End Prt.

(** ** The answer stays in its buffer *)

(** the last line *)
Definition count_line (ellipsis : bool) (num_rec : Z) : list Z :=
  (if ellipsis then string_bytes "... ..." ++ [10] else []) ++ string_bytes "Total record(s): " ++ string_bytes (pretty num_rec) ++ [10].

Module PrtP.
Import Prt.

(** the buffer holds [text], followed by at least the space of the count *)
Record oinv (o : Output) (text : list Z) : Prop := {
  oi_len : zlen (data_send_ o) = BUFFER_LENGTH;
  oi_off : offset_ o = zlen text;
  oi_room : zlen text + RECORD_COUNT_LENGTH < BUFFER_LENGTH;
  oi_text : slice 0 (zlen text) (data_send_ o) = text;
}.

Lemma fresh_inv : oinv fresh [].
Proof. by split. Qed.

Lemma append_eq o text str :
  zlen (data_send_ o) = BUFFER_LENGTH -> offset_ o = zlen text -> slice 0 (zlen text) (data_send_ o) = text -> zlen text + zlen str <= BUFFER_LENGTH ->
  exists d, append str o = (Ok tt, mkOutput d (zlen (text ++ str)) (ellipsis_ o)) /\ zlen d = BUFFER_LENGTH /\ slice 0 (zlen (text ++ str)) d = text ++ str.
Proof.
  intros Hl Ho Ht Hr. pose proof (zlen_nonneg text). pose proof (zlen_nonneg str).
  assert (Hz : zlen (text ++ str) = zlen text + zlen str) by (unfold zlen; rewrite length_app; lia).
  exists (splice (zlen text) str (data_send_ o)). split; [|split].
  - unfold append, bind, get, modify. rewrite Ho, memcpy_ok by lia. simpl. by rewrite Ho, Hz.
  - rewrite zlen_splice by lia. done.
  - rewrite Hz. unfold splice, slice at 1. rewrite Z2Nat.inj_0, drop_0.
    assert (Htk : take (Z.to_nat (zlen text)) (data_send_ o) = text) by (rewrite <- Ht at 2; unfold slice; by rewrite Z2Nat.inj_0, drop_0).
    rewrite Htk, app_assoc. rewrite take_app_length'; [done|]. unfold zlen. rewrite length_app. lia.
Qed.

(** the pieces of text a call prints *)
Inductive call := CSeparator (num_cols : nat) | CRecord (rec_str : list (list Z)).
Definition call_run (c : call) : Prog Output unit :=
  match c with CSeparator n => print_separator n | CRecord r => print_record (length r) r end.
Definition pieces (c : call) : list (list Z) :=
  match c with
  | CSeparator n => replicate n dashes ++ [string_bytes "+" ++ [10]]
  | CRecord r => (cell <$> r) ++ [string_bytes "|" ++ [10]]
  end.

(** all of the pieces [ps] are in the buffer, or a first part of them and the next one did not fit *)
Definition stopped (o : Output) (text : list Z) : Prop := ellipsis_ o = true \/ BUFFER_LENGTH <= zlen text + RECORD_COUNT_LENGTH + 2.
Definition shown (o : Output) (ps : list (list Z)) : Prop :=
  exists k, oinv o (concat (take k ps)) /\
    ((k = length ps /\ ellipsis_ o = false) \/ (k < length ps)%nat /\ stopped o (concat (take k ps)) /\ BUFFER_LENGTH <= zlen (concat ps) + RECORD_COUNT_LENGTH).

Lemma zlen_cell c : 2 <= zlen (cell c).
Proof. unfold cell. cbv zeta. rewrite zlen_app. pose proof (zlen_nonneg (spaces (COL_WIDTH - zlen (if COL_WIDTH <? zlen c then take (Z.to_nat (COL_WIDTH - 3)) c ++ string_bytes "..." else c)) ++ (if COL_WIDTH <? zlen c then take (Z.to_nat (COL_WIDTH - 3)) c ++ string_bytes "..." else c) ++ string_bytes " ")). change (zlen (string_bytes "| ")) with 2. lia. Qed.

Lemma has_room_spec str o text : oinv o text -> has_room str o = true <-> ellipsis_ o = false /\ zlen text + RECORD_COUNT_LENGTH + zlen str < BUFFER_LENGTH.
Proof. intros [_ Ho _ _]. unfold has_room. rewrite andb_true_iff, negb_true_iff, Z.ltb_lt, Ho. done. Qed.

(** one piece, under the guard; [b] says whether a piece that does not fit sets [ellipsis_] *)
Lemma put_gen (b : bool) o ps str : 2 <= zlen str -> (b = false -> zlen str = 2) -> shown o ps ->
  exists o', (let* r := gets (has_room str) in if r : bool then append str else modify (fun o => mkOutput (data_send_ o) (offset_ o) (b || ellipsis_ o)))%prog o = (Ok tt, o') /\
    shown o' (ps ++ [str]).
Proof.
  intros H2 Hb (k & Hi & Hk). unfold bind at 1, gets. pose proof (has_room_spec str o _ Hi) as Hr. pose proof Hi as [I1 I2 I3 I4].
  destruct (has_room str o) eqn:E.
  - destruct (proj1 Hr eq_refl) as [He Hroom]. destruct (append_eq o _ str I1 I2 I4 ltac:(unfold RECORD_COUNT_LENGTH in *; lia)) as (d & Ea & Hd & Ht).
    eexists. split; [exact Ea|]. exists (S (length ps)). destruct Hk as [[-> _]|(Hlt & [Hs|Hs] & _)]; [| congruence | lia].
    rewrite take_ge in * by lia. rewrite take_ge by (rewrite length_app; simpl; lia). rewrite concat_app. simpl. rewrite app_nil_r.
    split; [split; simpl; try done; rewrite zlen_app; lia|]. left. rewrite length_app. simpl. split; [lia|done].
  - eexists. split; [done|]. assert (Hn : ~ (ellipsis_ o = false /\ zlen (concat (take k ps)) + RECORD_COUNT_LENGTH + zlen str < BUFFER_LENGTH)) by (by rewrite <- Hr).
    assert (Hkl : (k <= length ps)%nat) by lia. exists k. rewrite take_app_le by done. split; [by split|]. right. rewrite length_app. simpl.
    split; [lia|]. pose proof (zlen_nonneg str). rewrite concat_app, zlen_app. simpl. rewrite app_nil_r. split.
    + destruct b; [by left|]. destruct (ellipsis_ o) eqn:Ee; [by left|right]. rewrite Hb in Hn by done. lia.
    + destruct Hk as [[-> He]|(_ & _ & Hbig)]; [|lia]. rewrite take_ge in Hn by lia. apply Z.nlt_ge. intros ?. apply Hn. split; [done|]. lia.
Qed.

Lemma put_shown o ps str : 2 <= zlen str -> shown o ps -> exists o', put str o = (Ok tt, o') /\ shown o' (ps ++ [str]).
Proof. intros H2 Hs. exact (put_gen true o ps str H2 ltac:(done) Hs). Qed.

Lemma puts_shown strs : forall o ps, Forall (fun s => 2 <= zlen s) strs -> shown o ps ->
  exists o', for_each strs put o = (Ok tt, o') /\ shown o' (ps ++ strs).
Proof.
  induction strs as [|x strs IH]; intros o ps Hf Hs; [exists o; by rewrite app_nil_r|]. apply Forall_cons in Hf as [Hx Hf].
  destruct (put_shown o ps x Hx Hs) as (o1 & E1 & H1). destruct (IH o1 _ Hf H1) as (o2 & E2 & H2). exists o2. cbn [for_each].
  rewrite (bind_ok _ _ _ _ _ E1). split; [done|]. by rewrite <- app_assoc in H2.
Qed.

Lemma call_shown c o ps : shown o ps -> exists o', call_run c o = (Ok tt, o') /\ shown o' (ps ++ pieces c).
Proof.
  intros Hs. destruct c as [n|r]; cbn [call_run pieces].
  - unfold print_separator. destruct (puts_shown (replicate n dashes) o ps) as (o1 & E1 & H1); [apply Forall_replicate; vm_compute; discriminate|done|].
    destruct (put_shown o1 _ (string_bytes "+" ++ [10]) ltac:(vm_compute; discriminate) H1) as (o2 & E2 & H2). exists o2.
    rewrite (bind_ok _ _ _ _ _ E1). split; [done|]. by rewrite <- app_assoc in H2.
  - unfold print_record. rewrite Nat.eqb_refl. destruct (puts_shown (cell <$> r) o ps) as (o1 & E1 & H1); [apply Forall_fmap, Forall_forall; intros; apply zlen_cell|done|].
    destruct (put_gen false o1 _ (string_bytes "|" ++ [10]) ltac:(vm_compute; discriminate) ltac:(done) H1) as (o2 & E2 & H2). exists o2.
    unfold assert. rewrite (bind_ok _ _ o tt o) by done. rewrite (bind_ok _ _ _ _ _ E1). rewrite <- app_assoc in H2. split; [|done].
    rewrite <- E2. unfold bind, gets. destruct (has_room _ o1); [done|]. by destruct o1.
Qed.

(** the digits of a number *)
Lemma pretty_go_len d : forall x s, (x < 10 ^ N.of_nat d)%N -> (String.length (pretty_N_go x s) <= d + String.length s)%nat.
Proof.
  induction d as [|d IH]; intros x s Hx.
  - assert (x = 0)%N as -> by (simpl in Hx; lia). by rewrite pretty_N_go_0.
  - destruct (decide (x = 0)%N) as [->|Hne]; [rewrite pretty_N_go_0; lia|]. rewrite pretty_N_go_step by lia.
    rewrite Nat2N.inj_succ, N.pow_succ_r' in Hx. etransitivity; [apply IH|simpl; lia]. by apply N.Div0.div_lt_upper_bound.
Qed.
Lemma zlen_string s : zlen (string_bytes s) = Z.of_nat (String.length s).
Proof. unfold zlen, string_bytes. rewrite length_fmap. induction s as [|c s IH]; [done|]. simpl. lia. Qed.
Lemma zlen_count n : 0 <= n < 10 ^ 14 -> zlen (string_bytes (pretty n)) <= 14.
Proof.
  intros Hn. rewrite zlen_string. destruct n as [|p|p]; [done| |lia].
  change (pretty (Z.pos p)) with (pretty (N.pos p)). unfold pretty, pretty_N. rewrite decide_False by done.
  assert (Hp : (N.pos p < 10 ^ N.of_nat 14)%N) by (change (10 ^ N.of_nat 14)%N with 100000000000000%N; change (10 ^ 14) with 100000000000000 in Hn; lia).
  pose proof (pretty_go_len 14 (N.pos p) "" Hp) as Hl. simpl String.length in Hl at 2. lia.
Qed.

Lemma calls_shown cs : forall o ps, shown o ps -> exists o', for_each cs call_run o = (Ok tt, o') /\ shown o' (ps ++ (cs ≫= pieces)).
Proof.
  induction cs as [|c cs IH]; intros o ps Hs; [exists o; by rewrite app_nil_r|]. destruct (call_shown c o ps Hs) as (o1 & E1 & H1).
  destruct (IH o1 _ H1) as (o2 & E2 & H2). exists o2. cbn [for_each]. rewrite (bind_ok _ _ _ _ _ E1). split; [done|]. by rewrite <- app_assoc in H2.
Qed.
(** the buffer holds a first part of the pieces [ps] and then the line with the count; all of them, when they leave room for it *)
Definition answered (ps : list (list Z)) (num_rec : Z) (o : Output) : Prop :=
  zlen (data_send_ o) = BUFFER_LENGTH /\ offset_ o + 1 <= BUFFER_LENGTH /\
  exists k, (k <= length ps)%nat /\ slice 0 (offset_ o) (data_send_ o) = concat (take k ps) ++ count_line (ellipsis_ o) num_rec /\
    (zlen (concat ps) + RECORD_COUNT_LENGTH < BUFFER_LENGTH -> k = length ps /\ ellipsis_ o = false).

Lemma count_answered o ps num_rec : 0 <= num_rec < 10 ^ 14 -> shown o ps -> exists o', print_record_count num_rec o = (Ok tt, o') /\ answered ps num_rec o'.
Proof.
  intros Hn (k & [I1 I2 I3 I4] & Hk). pose proof (zlen_count num_rec Hn) as Hc.
  assert (Hl : zlen (count_line (ellipsis_ o) num_rec) <= RECORD_COUNT_LENGTH).
  { unfold count_line. rewrite !zlen_app. change (zlen [10]) with 1. change (zlen (string_bytes "Total record(s): ")) with 17.
    unfold RECORD_COUNT_LENGTH. destruct (ellipsis_ o); [change (zlen (string_bytes "... ..." ++ [10])) with 8|change (zlen (@nil Z)) with 0]; lia. }
  destruct (append_eq o _ (count_line (ellipsis_ o) num_rec) I1 I2 I4 ltac:(lia)) as (d & Ea & Hd & Ht).
  eexists. split; [exact Ea|]. unfold answered. cbn [data_send_ offset_ ellipsis_]. split; [done|].
  split; [rewrite zlen_app; lia|]. exists k. split; [lia|]. split; [done|]. intros Hfit. destruct Hk as [?|(_ & _ & ?)]; [done|]. lia.
Qed.
Lemma fresh_shown : shown fresh [].
Proof. exists 0%nat. split; [apply fresh_inv|by left]. Qed.
End PrtP.

(** C37: The answer to a client never leaves its buffer.  Whatever separators and records are printed into a new
    context, and then the number of records, every copy is inside the 8192 bytes of [data_send_], and so is the
    terminating byte the server sends.  The buffer holds a first part of the pieces of text, in order and
    without gaps, and then the line with the count; the part is all of them when they leave room for the count.
    The number of records is assumed below 10{^ 14}: 40 bytes are kept for the line, which has 26 and the digits. *)
Theorem answer_in_buffer (cs : list PrtP.call) (num_rec : Z) :
  0 <= num_rec < 10 ^ 14 ->
  let ps := cs ≫= PrtP.pieces in
  runs (for_each cs PrtP.call_run;; Prt.print_record_count num_rec)%prog Prt.fresh (fun _ o =>
    zlen (data_send_ o) = BUFFER_LENGTH /\ offset_ o + 1 <= BUFFER_LENGTH /\
    exists k, (k <= length ps)%nat /\ slice 0 (offset_ o) (data_send_ o) = concat (take k ps) ++ count_line (ellipsis_ o) num_rec /\
      (zlen (concat ps) + RECORD_COUNT_LENGTH < BUFFER_LENGTH -> k = length ps /\ ellipsis_ o = false)).
Proof.
  intros Hn ps. destruct (PrtP.calls_shown cs Prt.fresh [] PrtP.fresh_shown) as (o & E & Ho). rewrite app_nil_l in Ho.
  destruct (PrtP.count_answered o ps num_rec Hn Ho) as (o' & E' & H'). exists tt, o'. by rewrite (bind_ok _ _ _ _ _ E).
Qed.

Lemma answer_in_buffer_witness :
  exists o, (for_each (PrtP.CSeparator 1 :: replicate 400 (PrtP.CRecord [string_bytes "a"])) PrtP.call_run;; Prt.print_record_count 400)%prog Prt.fresh = (Ok tt, o) /\
    offset_ o + 1 <= BUFFER_LENGTH.
Proof.
  destruct (answer_in_buffer (PrtP.CSeparator 1 :: replicate 400 (PrtP.CRecord [string_bytes "a"])) 400) as ([] & o & E & _ & H & _); [lia|].
  exists o. split; [exact E|exact H].
Defined.
