(* ===== verification/IxExec.v ===== *)
(** The index scan: [IndexScanExecutor] of [src/src/execution/executor_index_scan.h].

    [key_] is a buffer of [col_tot_len] bytes with any contents.  A value carries its [raw] buffer.  [ifuel]
    bounds the depth of the tree, [rfuel] the rounds of the loops over the scan. *)

From S2P Require Import Prelude Bytes Errors Disk BufferPool PageStore Defs.
From S2P Require Import Text SmMeta RmFile Values IxDefs IxNode IxTree.
From S2P Require Import SmState Executor SeqScan Planner.

Record IndexScanExecutor := mkIndexScanExecutor {
  isx_tab_name_ : string;
  isx_tab_ : TabMeta;
  isx_conds_ : list Condition;
  isx_fh_ : string;
  isx_cols_ : list ColMeta;
  isx_len_ : Z;
  isx_idx_conds_ : list QCond;
  isx_index_col_names_ : list string;
  isx_index_meta_ : IndexMeta;
  isx_rid_ : Rid;
  isx_key_ : list Z;
  isx_scan_ : option IxScan;
  isx_txn_ : Z;
}.

Module IxEx.
Section ops.
Context {S : Type} {PS : PageStore S} (lock_shared_on_table : Z -> Z -> Prog S bool) (ifuel rfuel : nat).
Local Open Scope prog_scope.
Abbreviation SM := (SmManager S).
Abbreviation IE := IndexScanExecutor.

Definition set_key (k : list Z) (e : IE) : IE :=
  mkIndexScanExecutor (isx_tab_name_ e) (isx_tab_ e) (isx_conds_ e) (isx_fh_ e) (isx_cols_ e) (isx_len_ e) (isx_idx_conds_ e) (isx_index_col_names_ e)
    (isx_index_meta_ e) (isx_rid_ e) k (isx_scan_ e) (isx_txn_ e).
Definition set_scan (sc : IxScan) (e : IE) : IE :=
  mkIndexScanExecutor (isx_tab_name_ e) (isx_tab_ e) (isx_conds_ e) (isx_fh_ e) (isx_cols_ e) (isx_len_ e) (isx_idx_conds_ e) (isx_index_col_names_ e)
    (isx_index_meta_ e) (isx_rid_ e) (isx_key_ e) (Some sc) (isx_txn_ e).
Definition set_rid (r : Rid) (e : IE) : IE :=
  mkIndexScanExecutor (isx_tab_name_ e) (isx_tab_ e) (isx_conds_ e) (isx_fh_ e) (isx_cols_ e) (isx_len_ e) (isx_idx_conds_ e) (isx_index_col_names_ e)
    (isx_index_meta_ e) r (isx_key_ e) (isx_scan_ e) (isx_txn_ e).

(** the constructor; [rid0] and [key0] are the uninitialised [rid_] and the new buffer.  A condition whose left
    column is of another table fails an assertion *)
Definition make (rid0 : Rid) (key0 : Z -> list Z) (tab_name : string) (conds idx_conds : list QCond) (index_col_names : list string) (txn : Z) : Prog SM IE :=
  let* tab := SmSt.read_table tab_name in
  let* index_meta := SmSt.of_sum (Meta.get_index_meta tab index_col_names) in
  let* fh := SmSt.read_fh tab_name in
  let* back := deref (last (tm_cols tab)) in
  assert (forallb (fun c : QCond => String.eqb (Pln.lhs_tab c) tab_name) conds);;
  ret (mkIndexScanExecutor tab_name tab (fst <$> conds) fh (tm_cols tab) (cm_offset back + cm_len back) idx_conds index_col_names index_meta
         rid0 (key0 (im_col_tot_len index_meta)) None txn).

(** ** The bounds of the scan *)

(** a value is copied into the key *)
Definition put_key (off : Z) (v : QCond) (key : list Z) : Prog unit (list Z * Z) :=
  let* raw := deref v.2 in
  let* key := deref (memcpy key off raw (zlen raw)) in
  ret (key, off + zlen raw).

(** the equalities at the front: how many, the key, and its length *)
Fixpoint eq_prefix (conds : list QCond) (n : Z) (off : Z) (key : list Z) : Prog unit (Z * Z * list Z * list QCond) :=
  match conds with
  | c :: rest =>
      match cond_op c.1 with
      | OP_EQ => let* r := put_key off c key in eq_prefix rest (n + 1) r.2 r.1
      | _ => ret (n, off, key, conds)
      end
  | [] => ret (n, off, key, [])
  end.

(** the conditions on the next column: the tightest bounds, each with the condition it comes from and whether it
    includes the value *)
Definition better_lower (c : QCond) (lower : option (QCond * bool)) : option (QCond * bool) :=
  let be' := match cond_op c.1 with OP_GE => true | _ => false end in
  match lower with
  | None => Some (c, be')
  | Some (l, be) =>
      if Val.gt (rhs_val c.1) (rhs_val l.1) || (Val.eq (rhs_val c.1) (rhs_val l.1) && be && negb be') then Some (c, be') else lower
  end.
Definition better_upper (c : QCond) (upper : option (QCond * bool)) : option (QCond * bool) :=
  let le' := match cond_op c.1 with OP_LE => true | _ => false end in
  match upper with
  | None => Some (c, le')
  | Some (u, le) =>
      if Val.lt (rhs_val c.1) (rhs_val u.1) || (Val.eq (rhs_val c.1) (rhs_val u.1) && le && negb le') then Some (c, le') else upper
  end.
Fixpoint range_of (col_name : string) (conds : list QCond) (lower upper : option (QCond * bool)) : option (QCond * bool) * option (QCond * bool) :=
  match conds with
  | c :: conds =>
      if String.eqb (tc_col_name (lhs_col c.1)) col_name then
        match cond_op c.1 with
        | OP_GE | OP_GT => range_of col_name conds (better_lower c lower) upper
        | OP_LE | OP_LT => range_of col_name conds lower (better_upper c upper)
        | _ => range_of col_name conds lower upper
        end
      else (lower, upper)
  | [] => (lower, upper)
  end.

(** [lower_val > upper_val || (lower_val == upper_val && !(be && le))] *)
Definition empty_range (lower upper : option (QCond * bool)) : bool :=
  match lower, upper with
  | Some (l, be), Some (u, le) => Val.gt (rhs_val l.1) (rhs_val u.1) || (Val.eq (rhs_val l.1) (rhs_val u.1) && negb (be && le))
  | _, _ => false
  end.

(** the two ends and the key afterwards *)
Definition scan_bounds (conds : list QCond) (key : list Z) : Prog (Ix.St (S:=S)) (Iid * Iid * list Z) :=
  let* def_lower := Ix.leaf_begin in
  let* def_upper := Ix.leaf_end in
  let* p := pure_call (eq_prefix conds 0 0 key) in
  let '(n, off, key, rest) := p in
  match rest with
  | [] =>
      let* lo := Ix.lower_bound ifuel key n in
      let* hi := Ix.upper_bound ifuel key n in
      ret (lo, hi, key)
  | c :: _ =>
      let '(lower, upper) := range_of (tc_col_name (lhs_col c.1)) rest None None in
      if empty_range lower upper then ret (def_lower, def_upper, key)
      else
        let* lo := (match lower with
                    | Some (l, be) =>
                        let* k := pure_call (put_key off l key) in
                        let* b := (if be : bool then Ix.lower_bound ifuel k.1 (n + 1) else Ix.upper_bound ifuel k.1 (n + 1)) in
                        ret (b, k.1)
                    | None => if n =? 0 then ret (def_lower, key) else let* b := Ix.lower_bound ifuel key n in ret (b, key)
                    end) in
        let* hi := (match upper with
                    | Some (u, le) =>
                        let* k := pure_call (put_key off u lo.2) in
                        let* b := (if le : bool then Ix.upper_bound ifuel k.1 (n + 1) else Ix.lower_bound ifuel k.1 (n + 1)) in
                        ret (b, k.1)
                    | None => if n =? 0 then ret (def_upper, lo.2) else let* b := Ix.upper_bound ifuel lo.2 n in ret (b, lo.2)
                    end) in
        ret (lo.1, hi.1, hi.2)
  end.

(** ** The virtual functions *)

Definition world {A} (m : Prog SM A) : Prog (IE * SM) A := zoom snd (fun s t => (t.1, s)) m.
Definition upd (f : IE -> IE) : Prog (IE * SM) unit := modify (fun t => (f t.1, t.2)).
Definition index_name (e : IE) : string := Meta.index_file_name (isx_tab_name_ e) (isx_index_col_names_ e).
Definition scan_of : Prog (IE * SM) IxScan := let* e := gets fst in deref (isx_scan_ e).

(** [scan_->next()] *)
Definition step_scan : Prog (IE * SM) unit :=
  let* e := gets fst in
  let* sc := scan_of in
  let* sc := world (SmSt.on_index (index_name e) (IxSc.next sc)) in
  upd (set_scan sc).

(** the loop that looks for the next record that satisfies the conditions *)
Fixpoint seek (rfuel : nat) : Prog (IE * SM) unit :=
  match rfuel with
  | O => fail OutOfFuel
  | Datatypes.S rfuel =>
      let* e := gets fst in
      let* sc := scan_of in
      if IxSc.is_end sc then ret tt
      else
        let* rid := world (SmSt.on_index (index_name e) (IxSc.rid sc)) in
        let* record := world (SmSt.on_file (isx_fh_ e) (Rm.get_record rid)) in
        let* cond_flag := pure_call (Scan.test_conds (isx_conds_ e) (tm_cols (isx_tab_ e)) (data record)) in
        if cond_flag : bool then upd (set_rid rid)
        else step_scan;; seek rfuel
  end.

(** [beginTuple]; the scan of an empty range is replaced at once by a scan between the bounds *)
Definition begin_tuple : Prog (IE * SM) unit :=
  let* e := gets fst in
  let* fd := world (SmSt.on_file (isx_fh_ e) Rm.get_fd) in
  let* ok := world (SmSt.on_core (lock_shared_on_table (isx_txn_ e) fd)) in
  if negb ok then throw (TransactionAbortException (isx_txn_ e) GET_LOCK_FAILED)
  else
    let* ih := world (SmSt.latch_shared;; let* i := SmSt.ih_at (index_name e) in SmSt.unlatch_shared;; ret i) in
    let* b := world (SmSt.on_index ih (scan_bounds (isx_idx_conds_ e) (isx_key_ e))) in
    let '(lo, hi, key) := b in
    upd (set_key key);;
    let* sc := world (SmSt.on_index ih (IxSc.begin lo hi false)) in
    upd (set_scan sc);;
    let* _ := world (SmSt.on_index ih (IxSc.rid sc)) in
    seek rfuel.

Definition next_tuple : Prog (IE * SM) unit := step_scan;; seek rfuel.

Definition next : Prog (IE * SM) RmRecord :=
  let* e := gets fst in
  world (SmSt.on_file (isx_fh_ e) (Rm.get_record (isx_rid_ e))).

(** [ColMeta()] of [AbstractExecutor::get_col_offset], which is not overridden *)
Definition no_col : ColMeta := mkColMeta "" "" TYPE_INT 0 0 false.

(** before [beginTuple] there is no scan to ask for its end *)
#[export] Instance exec : AbstractExecutor SM IndexScanExecutor := {
  cols := isx_cols_;
  tupleLen e := inl UnreachableCodeError;
  is_end e := match isx_scan_ e with Some sc => IxSc.is_end sc | None => true end;
  beginTuple := begin_tuple;
  nextTuple := next_tuple;
  Next := next;
  get_col_offset target e := inr no_col;
}.
End ops.
End IxEx.
