(* ===== verification/IxRange.v ===== *)
(** Range scans over a B+ tree: [lower_bound], [upper_bound] of [IxIndexHandle] and [IxScan].

    The leaves of a tree, from left to right, form a chain through their [next_leaf] fields.  A position in the
    index ([Iid]) stands for the entries from there on; [IxScan] moves it over the chain. *)

From S2P Require Import Prelude Bytes Errors Disk BufferPool PageStore Defs LogRecord.
From S2P Require Import RmFile RmPage RmProofs IxDefs IxNode IxNodeProofs IxTree IxTreeProofs.
From S2P Require Import IxProps Text SmMeta Values Executor SmState SeqScan SeqScanProofs.
From S2P Require Import BufferPoolProps LogManager Core RmProps ExecProps Planner IxExec Lock.
From Stdlib Require Import Sorting.Sorted.
Import RmPage.
Import IxN IxT IxP.

Module IxR.

(** ** The chain of the leaves *)

Section chain.
Context (h : IxFileHdr) (Hg : geo h) (Hc : cols h).

Fixpoint leaves (ps : gmap Z anode) (n : nat) (pn : Z) : list Z :=
  match n with
  | O => [pn]
  | S n => match ps !! pn with Some nd => concat ((fun r => leaves ps n (rid_page_no r)) <$> an_rids nd) | None => [] end
  end.
Definition pairs (ps : gmap Z anode) (leaf : Z) : list (list Z * Rid) := entries ps 0 leaf.
Definition all_pairs (ps : gmap Z anode) (l : list Z) : list (list Z * Rid) := concat (pairs ps <$> l).

Lemma all_pairs_app ps l1 l2 : all_pairs ps (l1 ++ l2) = all_pairs ps l1 ++ all_pairs ps l2.
Proof. unfold all_pairs. by rewrite fmap_app, concat_app. Qed.
Lemma all_pairs_cons ps p l : all_pairs ps (p :: l) = pairs ps p ++ all_pairs ps l.
Proof. done. Qed.

Lemma entries_leaves ps n pn : entries ps n pn = all_pairs ps (leaves ps n pn).
Proof.
  revert pn. induction n as [|n IH]; intros pn; [unfold all_pairs; simpl; by rewrite app_nil_r|]. cbn [entries leaves].
  destruct (ps !! pn) as [nd|]; [|done]. induction (an_rids nd) as [|r rs IHr]; [done|].
  rewrite !fmap_cons. simpl. by rewrite all_pairs_app, <- IHr, IH.
Qed.

Lemma lex_trans_lt a b c : klt h a b -> IxKey.lex (kv h b) (kv h c) <> Gt -> klt h a c.
Proof. apply IxKey.lex_lt_trans; apply kv_len, Hc. Qed.
Lemma lex_lt_trans' a b c : IxKey.lex (kv h a) (kv h b) <> Gt -> klt h b c -> klt h a c.
Proof. apply IxKey.lex_le_lt_trans; apply kv_len, Hc. Qed.

Lemma children_pairs ps n (rs : list Rid) e :
  e ∈ all_pairs ps (concat ((fun r => leaves ps n (rid_page_no r)) <$> rs)) -> exists j r, rs !! j = Some r /\ e ∈ entries ps n (rid_page_no r).
Proof.
  induction rs as [|r rs IH]; [intros He; by apply not_elem_of_nil in He|]. rewrite fmap_cons. simpl. rewrite all_pairs_app, elem_of_app. intros [He|He].
  - exists 0%nat, r. split; [done|]. by rewrite entries_leaves.
  - destruct (IH He) as (j & r' & Hj & He'). by exists (S j), r'.
Qed.

(** the leaf a search ends in, with the entries before and after it *)
Lemma route_split ps n pn lo hi key leaf :
  sub h ps n pn lo hi -> route h ps n pn key leaf ->
  exists l1 l2, leaves ps n pn = l1 ++ leaf :: l2 /\
    (forall e, e ∈ all_pairs ps l1 -> klt h e.1 key) /\ (forall e, e ∈ all_pairs ps l2 -> klt h key e.1).
Proof.
  revert pn lo hi. induction n as [|n IH]; intros pn lo hi Hsub Hrt.
  { simpl in Hrt. subst leaf. exists [], []. split; [done|]. split; intros e He; by apply not_elem_of_nil in He. }
  destruct Hrt as (nd & m & r & Hnd & Hm & H1 & H2 & Hrt). destruct Hsub as (nd' & Hnd' & Hs & Hin & Hl & Hlen & Hch).
  rewrite Hnd in Hnd'. injection Hnd' as <-. destruct (IH _ _ _ (Hch m r Hm) Hrt) as (l1 & l2 & E & B1 & B2). pose proof (lookup_lt_Some _ _ _ Hm).
  eexists (concat (_ <$> take m (an_rids nd)) ++ l1), (l2 ++ concat (_ <$> drop (S m) (an_rids nd))). split; [|split].
  - cbn [leaves]. rewrite Hnd, (concat_fmap_split _ _ _ _ Hm), E. by rewrite <- !app_assoc.
  - intros [k v]. rewrite all_pairs_app, elem_of_app. intros [(i & r' & Hr' & He)%children_pairs|He]; [|by apply B1]. apply lookup_take_Some in Hr' as [Hr' Hi].
    destruct (sub_entries h Hc _ _ _ _ _ _ _ (Hch i r' Hr') He) as [_ [_ Hhi]].
    destruct (lookup_lt_is_Some_2 (an_keys nd) i) as [ki Hki]; [lia|]. unfold hi_of in Hhi. rewrite Hki in Hhi.
    apply (lex_trans_lt k ki key); [exact (Hhi ki eq_refl)|by apply (H1 i)].
  - intros [k v]. rewrite all_pairs_app, elem_of_app. intros [He|(j & r' & Hr' & He)%children_pairs]; [by apply B2|]. rewrite lookup_drop in Hr'.
    destruct (sub_entries h Hc _ _ _ _ _ _ _ (Hch _ r' Hr') He) as [_ [Hlo _]]. pose proof (lookup_lt_Some _ _ _ Hr'). simpl in Hlo.
    destruct (lookup_lt_is_Some_2 (an_keys nd) (m + j)) as [ki Hki]; [lia|].
    apply (lex_trans_lt key ki k); [|exact (Hlo ki Hki)]. apply lex_gt. apply (H2 (m + j)%nat); [lia|done].
Qed.

(** the leaves are linked from the first to the last, and only a lone leaf is empty *)
Record linked (ps : gmap Z anode) (l : list Z) : Prop := {
  lk_first : head l = Some (first_leaf_ h);
  lk_last : last l = Some (last_leaf_ h);
  lk_next : forall i p nd, l !! i = Some p -> ps !! p = Some nd -> an_next nd = default IX_NO_PAGE (l !! S i);
  lk_full : forall i p, l !! i = Some p -> pairs ps p = [] -> l = [p];
  lk_nodup : NoDup l;
  lk_page : IX_NO_PAGE ∉ l;
}.

(** ** Positions *)

(** the entries from slot [c] of the [i]-th leaf on *)
Definition from (ps : gmap Z anode) (l : list Z) (i c : nat) : list (list Z * Rid) :=
  match l !! i with Some p => drop c (pairs ps p) ++ all_pairs ps (drop (S i) l) | None => [] end.

(** a position as the code writes it: the end of a leaf only for the last one *)
Record at_pos (ps : gmap Z anode) (l : list Z) (iid : Iid) (i c : nat) : Prop := {
  ap_leaf : l !! i = Some (iid_page_no iid);
  ap_slot : iid_slot_no iid = Z.of_nat c;
  ap_in : (c < length (pairs ps (iid_page_no iid)))%nat \/ (S i = length l /\ c = length (pairs ps (iid_page_no iid)));
}.

Lemma from_more ps l iid iid' i c i' c' : at_pos ps l iid i c -> at_pos ps l iid' i' c' -> (i < i')%nat -> (length (from ps l i' c') < length (from ps l i c))%nat.
Proof.
  intros [H1 H2 H3] [H1' H2' H3'] Hlt. unfold from. rewrite H1, H1'. pose proof (lookup_lt_Some _ _ _ H1').
  assert (Hin : pairs ps (iid_page_no iid') ++ all_pairs ps (drop (S i') l) `suffix_of` all_pairs ps (drop (S i) l)).
  { exists (all_pairs ps (take (i' - S i) (drop (S i) l))). rewrite <- all_pairs_cons, <- all_pairs_app. f_equal.
    rewrite <- (take_drop (i' - S i) (drop (S i) l)) at 1. rewrite drop_drop. replace (S i + (i' - S i))%nat with i' by lia. by rewrite (drop_S _ _ _ H1'). }
  apply suffix_length in Hin. rewrite length_app in Hin. rewrite !length_app, !length_drop. lia.
Qed.

Lemma at_pos_unique ps l iid iid' i c i' c' : at_pos ps l iid i c -> at_pos ps l iid' i' c' -> length (from ps l i c) = length (from ps l i' c') -> iid = iid'.
Proof.
  intros H H' E. destruct (Nat.lt_trichotomy i i') as [Hlt|[->|Hlt]].
  - pose proof (from_more _ _ _ _ _ _ _ _ H H' Hlt). lia.
  - destruct H as [H1 H2 H3], H' as [H1' H2' H3']. assert (Hp : iid_page_no iid = iid_page_no iid') by congruence.
    unfold from in E. rewrite H1, !length_app, !length_drop, Hp in E. rewrite Hp in H3. destruct iid, iid'; simpl in *. f_equal; lia.
  - pose proof (from_more _ _ _ _ _ _ _ _ H' H Hlt). lia.
Qed.

Lemma at_pos_index ps l iid i c i' c' : NoDup l -> at_pos ps l iid i c -> at_pos ps l iid i' c' -> i = i' /\ c = c'.
Proof. intros Hn [H1 H2 _] [H1' H2' _]. split; [by eapply NoDup_lookup|lia]. Qed.

Lemma from_nil ps l i : (length l <= S i)%nat -> all_pairs ps (drop (S i) l) = [].
Proof. intros Hi. by rewrite drop_ge. Qed.

(** the entry at a position, and the next position *)
Lemma from_step ps l iid i c : linked ps l -> at_pos ps l iid i c -> (c < length (pairs ps (iid_page_no iid)))%nat ->
  exists e, pairs ps (iid_page_no iid) !! c = Some e /\
    ((S c < length (pairs ps (iid_page_no iid)) \/ S i = length l)%nat /\
       at_pos ps l (mkIid (iid_page_no iid) (iid_slot_no iid + 1)) i (S c) /\ from ps l i c = e :: from ps l i (S c) \/
     S c = length (pairs ps (iid_page_no iid)) /\ exists p, l !! S i = Some p /\ at_pos ps l (mkIid p 0) (S i) 0 /\ from ps l i c = e :: from ps l (S i) 0).
Proof.
  intros Hl [H1 H2 H3] Hc'. destruct (lookup_lt_is_Some_2 _ _ Hc') as [e He]. exists e. split; [done|]. unfold from. rewrite H1, (drop_S _ _ _ He).
  destruct (decide (S c < length (pairs ps (iid_page_no iid)) \/ S i = length l)%nat) as [Hd|Hd].
  - left. split; [done|]. split; [split; simpl; [done|lia|lia]|done].
  - right. pose proof (lookup_lt_Some _ _ _ H1). split; [lia|]. destruct (lookup_lt_is_Some_2 l (S i)) as [p Hp]; [lia|]. exists p. split; [done|]. split.
    + split; [done|done|]. left. simpl. destruct (pairs ps p) eqn:Ep; [|simpl; lia].
      pose proof (lk_full _ _ Hl _ _ Hp Ep) as ->. simpl in *. lia.
    + rewrite Hp, drop_0, (drop_S _ _ _ Hp), all_pairs_cons. rewrite drop_ge by lia. done.
Qed.
End chain.

(** ** Searching for the ends of a range *)

Section store.
Context {S : Type} {PS : PageStore S} {PL : PageStoreLaws S}.
Context (h : IxFileHdr) (Hg : geo h) (Hc : cols h).
Local Open Scope prog_scope.
Abbreviation root := (root_page_ h).

Lemma irep_calm s s' hd ps n : irep h s hd ps n -> RmP.calm s s' -> irep h s' hd ps n.
Proof.
  intros [] []. split; try done; [|by rewrite ca_room]. intros i nd Hi. destruct (ir_pages0 i nd Hi) as (b & H1 & H2 & H3). exists b.
  split; [auto|]. split; [done|]. by rewrite ca_pins.
Qed.


(** a comparison of all columns *)
Definition whole (pre : Z) : Prop := pre = 0 \/ pre = zlen (col_types_ h).
Lemma klex_whole pre a b : whole pre -> klex h pre a b = IxKey.lex (kv h a) (kv h b).
Proof.
  intros [->| ->]; [by apply klex_0|]. unfold klex, pfx. pose proof (zlen_nonneg (col_types_ h)).
  destruct (Z.eqb_spec (zlen (col_types_ h)) 0); rewrite !firstn_all2; try done; rewrite length_kv by done; unfold zlen; lia.
Qed.

(** a search in a node that separates the keys [before] a bound from the others *)
Definition separates (search : IxFileHdr -> list Z -> Z -> Prog (list Z) Z) (key : list Z) (pre : Z) (before : list Z -> Prop) : Prop :=
  (forall nd b, nrep h nd b -> sorted h (an_keys nd) -> exists m, search h key pre b = (Ok (Z.of_nat m), b) /\ (m <= length (an_keys nd))%nat /\
     (forall i k, (i < m)%nat -> an_keys nd !! i = Some k -> before k) /\ (forall i k, (m <= i)%nat -> an_keys nd !! i = Some k -> ~ before k)) /\
  (forall k, klt h k key -> before k) /\ (forall k, klt h key k -> ~ before k).

Lemma whole_range pre : whole pre -> 0 <= pre <= zlen (col_types_ h).
Proof. pose proof (zlen_nonneg (col_types_ h)). intros [->| ->]; lia. Qed.

Lemma lower_separates key pre : whole pre -> key_good h key -> separates IxNode.lower_bound key pre (fun k => klt h k key).
Proof.
  intros Hp Hk. split; [|split; [done|]].
  - intros nd b Hr Hs. destruct (lower_bound_ok h Hg Hc nd b key pre Hr Hs Hk (whole_range pre Hp)) as (m & E & Hm & H1 & H2).
    exists m. split; [done|]. split; [done|]. unfold klt. split; intros i k; rewrite <- (klex_whole pre) by done; eauto.
  - intros k Hlt Hlt'. unfold klt in *. rewrite IxKey.lex_antisym, Hlt' in Hlt. done.
Qed.
Lemma upper_separates key pre : whole pre -> key_good h key -> separates IxNode.upper_bound key pre (fun k => IxKey.lex (kv h k) (kv h key) <> Gt).
Proof.
  intros Hp Hk. split; [|split].
  - intros nd b Hr Hs. destruct (upper_bound_ok h Hg Hc nd b key pre Hr Hs Hk (whole_range pre Hp)) as (m & E & Hm & H1 & H2).
    exists m. split; [done|]. split; [done|]. split; intros i k; rewrite <- (klex_whole pre) by done; [eauto|]. intros Hi Hik Hn. apply Hn. eauto.
  - unfold klt. intros k ->. done.
  - intros k Hlt Hn. apply Hn. by apply lex_gt.
Qed.

(** a position with the entries on its two sides *)
Definition cuts (ps : gmap Z anode) (n : nat) (before : list Z -> Prop) (iid : Iid) : Prop :=
  let l := leaves ps n root in
  exists i c pre, at_pos ps l iid i c /\ entries ps n root = pre ++ from ps l i c /\
    (forall e, e ∈ pre -> before e.1) /\ (forall e, e ∈ from ps l i c -> ~ before e.1).

Lemma cut_at ps n before key leaf nd m :
  linked h ps (leaves ps n root) -> sub h ps n root None None -> route h ps n root key leaf -> ps !! leaf = Some nd -> length (an_rids nd) = length (an_keys nd) ->
  (m <= length (an_keys nd))%nat -> (forall i k, (i < m)%nat -> an_keys nd !! i = Some k -> before k) -> (forall i k, (m <= i)%nat -> an_keys nd !! i = Some k -> ~ before k) ->
  (forall k, klt h k key -> before k) -> (forall k, klt h key k -> ~ before k) ->
  cuts ps n before (if (Z.of_nat m =? zlen (an_keys nd)) && negb (an_next nd =? IX_NO_PAGE) then mkIid (an_next nd) 0 else mkIid leaf (Z.of_nat m)).
Proof.
  intros Hl Hsub Hrt Hnd Hlen Hm B1 B2 K1 K2. destruct (route_split h Hc ps n _ _ _ key leaf Hsub Hrt) as (l1 & l2 & El & P1 & P2).
  unfold cuts. rewrite entries_leaves, El. rewrite El in Hl. clear El.
  assert (Ei : (l1 ++ leaf :: l2) !! length l1 = Some leaf) by (by rewrite lookup_app_r, Nat.sub_diag by lia).
  assert (Ed : drop (Datatypes.S (length l1)) (l1 ++ leaf :: l2) = l2) by (rewrite drop_app_ge by lia; by replace (Datatypes.S (length l1) - length l1)%nat with 1%nat by lia).
  assert (Ep : pairs ps leaf = zip (an_keys nd) (an_rids nd)) by (unfold pairs; cbn [entries]; by rewrite Hnd).
  assert (Lp : length (pairs ps leaf) = length (an_keys nd)) by (rewrite Ep, length_zip_with; lia).
  assert (Hat : forall j k v, pairs ps leaf !! j = Some (k, v) -> an_keys nd !! j = Some k).
  { intros j k v. rewrite Ep, lookup_zip_with. destruct (an_keys nd !! j), (an_rids nd !! j); simpl; congruence. }
  assert (Bt : forall e, e ∈ all_pairs ps l1 ++ take m (pairs ps leaf) -> before e.1).
  { intros [k v] [He|He]%elem_of_app; [by apply K1, (P1 (k, v))|]. apply list_elem_of_lookup in He as [j Hj]. apply lookup_take_Some in Hj as [Hj ?]. by eapply B1, Hat. }
  assert (Bd : forall e, e ∈ drop m (pairs ps leaf) ++ all_pairs ps l2 -> ~ before e.1).
  { intros [k v] [He|He]%elem_of_app; [|by apply K2, (P2 (k, v))]. apply list_elem_of_lookup in He as [j Hj]. rewrite lookup_drop in Hj. eapply (B2 (m + j)%nat); [lia|by eapply Hat]. }
  pose proof (lk_next _ _ _ Hl _ _ _ Ei Hnd) as Hnx. destruct ((l1 ++ leaf :: l2) !! Datatypes.S (length l1)) as [q|] eqn:Eq; simpl in Hnx.
  - assert (Hq : q <> IX_NO_PAGE) by (intros ->; apply (lk_page _ _ _ Hl); by eapply list_elem_of_lookup_2). rewrite Hnx, (proj2 (Z.eqb_neq _ _) Hq), andb_true_r.
    destruct (Z.eqb_spec (Z.of_nat m) (zlen (an_keys nd))) as [Em|Em]; unfold zlen in Em.
    + exists (Datatypes.S (length l1)), 0%nat, (all_pairs ps l1 ++ take m (pairs ps leaf)). unfold from. rewrite Eq, drop_0, <- all_pairs_cons, <- (drop_S _ _ _ Eq), Ed.
      rewrite drop_ge in Bd by lia. rewrite (firstn_all2 (n:=m)) in * by lia. split; [split; [done|done|left; simpl]|].
      * destruct (pairs ps q) eqn:Epq; [|simpl; lia]. pose proof (lk_full _ _ _ Hl _ _ Eq Epq) as Hone. apply (f_equal length) in Hone.
        apply lookup_lt_Some in Eq. rewrite length_app in *. simpl in *. lia.
      * split; [by rewrite all_pairs_app, all_pairs_cons, app_assoc|done].
    + exists (length l1), m, (all_pairs ps l1 ++ take m (pairs ps leaf)). unfold from. rewrite Ei, Ed. split; [split; [done|done|left; simpl; lia]|].
      split; [by rewrite all_pairs_app, all_pairs_cons, <- app_assoc, (app_assoc (take m _)), take_drop|done].
  - rewrite Hnx, andb_false_r. exists (length l1), m, (all_pairs ps l1 ++ take m (pairs ps leaf)). unfold from. rewrite Ei, Ed.
    split; [|split; [by rewrite all_pairs_app, all_pairs_cons, <- app_assoc, (app_assoc (take m _)), take_drop|done]].
    split; [done|done|]. simpl. apply lookup_ge_None in Eq. destruct (decide (m = length (pairs ps leaf))); [right|left; lia].
    rewrite length_app in *. simpl in *. lia.
Qed.

Abbreviation leaf_list ps n := (leaves ps n root).

Lemma bound_runs search key pre before s hd ps n fuel :
  separates search key pre before -> irep h s hd ps n -> linked h ps (leaf_list ps n) -> key_good h key -> (n <= fuel)%nat ->
  runs (Ix.bound search fuel key pre) (s, hd) (fun iid t => exists s', t = (s', hd) /\ RmP.calm s s' /\ cuts ps n before iid).
Proof.
  intros (Hsep & K1 & K2) Hi Hl Hk Hf. unfold Ix.bound. eapply runs_bind; [by apply (find_leaf_runs h Hg Hc s hd ps n)|].
  intros p t (s1 & s2 & leaf & nd & b & Ha). destruct (leaf_facts h Hc _ _ _ _ _ _ _ _ _ _ _ _ Ha) as (lo & hi & Hs & Hlf & Hlen & _ & _ & _).
  destruct Ha as [-> Hi1 Hcalm Hrt Hnd Hrep Hw Hcl Hpage]. pose proof (ir_hdr _ _ _ _ _ Hi1) as Hh.
  destruct (Hsep nd b Hrep Hs) as (m & E & Hm & B1 & B2).
  eapply node_read; [exact Hw|by rewrite Hh|]. eapply node_read; [exact Hw|exact (nrep_size h nd b Hrep)|].
  eapply node_read; [exact Hw|exact (nrep_next h nd b Hrep)|]. eapply runs_bind_eq; [by eapply get_page_no_eq|]. cbv zeta.
  eapply node_release; [exact Hw|by intros _|]. intros s3 Hr3. replace (ps_room s1 - 1 + 1) with (ps_room s1) in Hr3 by lia. apply runs_ret.
  exists s3. split; [done|]. destruct (ir_pages _ _ _ _ _ Hi1 _ _ Hnd) as (b0 & _ & _ & Hz).
  split; [eapply RmP.calm_trans; [exact Hcalm|by eapply RmP.rest_calm]|]. eapply cut_at; try done. apply Hi1.
Qed.

(** ** One leaf *)

Lemma leaf_of ps n p : sub h ps n root None None -> p ∈ leaf_list ps n -> exists nd, ps !! p = Some nd /\ an_leaf nd = true /\ length (an_rids nd) = length (an_keys nd).
Proof.
  assert (Hgen : forall n pn lo hi, sub h ps n pn lo hi -> p ∈ leaves ps n pn -> exists nd, ps !! p = Some nd /\ an_leaf nd = true /\ length (an_rids nd) = length (an_keys nd)).
  { clear n. induction n as [|n IH]; intros pn lo hi (nd & Hnd & _ & _ & Hk) Hp.
    - apply list_elem_of_singleton in Hp as ->. exists nd. split; [done|apply Hk].
    - cbn [leaves] in Hp. rewrite Hnd in Hp. apply list_elem_of_In, in_concat in Hp as (l & Hl & Hp). apply list_elem_of_In in Hl, Hp.
      apply list_elem_of_fmap in Hl as (r & -> & Hr). apply list_elem_of_lookup in Hr as [j Hj]. destruct Hk as (_ & _ & Hch). by eapply IH; [by apply (Hch j)|]. }
  intros Hsub. by apply (Hgen n _ _ _ Hsub).
Qed.

Lemma pairs_zip ps p nd : ps !! p = Some nd -> pairs ps p = zip (an_keys nd) (an_rids nd).
Proof. intros Hnd. unfold pairs. cbn [entries]. by rewrite Hnd. Qed.
Lemma pairs_len ps p nd : ps !! p = Some nd -> length (an_rids nd) = length (an_keys nd) -> length (pairs ps p) = length (an_keys nd).
Proof. intros Hnd Hl. rewrite (pairs_zip ps p nd Hnd), length_zip_with. lia. Qed.

(** a node was read and released *)
Lemma read_calm s hd ps n pn nd p b s1 s2 : irep h s hd ps n -> ps !! pn = Some nd -> ps_page s (mkPageId (ix_fd_ hd) pn) b ->
  RmP.wk any s (ps_npages s) (ps_room s - 1) (mkPageId (ix_fd_ hd) pn) p b s1 ->
  RmP.rest any s (ps_npages s) (ps_room s - 1 + 1) (mkPageId (ix_fd_ hd) pn) b s2 -> RmP.calm s s2.
Proof.
  intros Hi Hnd Hb _ Hr. replace (ps_room s - 1 + 1) with (ps_room s) in Hr by lia. destruct (ir_pages _ _ _ _ _ Hi _ _ Hnd) as (b0 & _ & _ & Hz). by eapply RmP.rest_calm.
Qed.

Lemma leaf_size_runs s hd ps n p : irep h s hd ps n -> p ∈ leaf_list ps n ->
  runs (IxSc.leaf_size p) (s, hd) (fun r t => r = zlen (pairs ps p) /\ exists s', t = (s', hd) /\ RmP.calm s s').
Proof.
  intros Hi Hp. destruct (leaf_of ps n p (ir_tree _ _ _ _ _ Hi) Hp) as (nd & Hnd & Hlf & Hlen). destruct (ir_pages _ _ _ _ _ Hi _ _ Hnd) as (b & Hb & Hrep & Hz).
  unfold IxSc.leaf_size, Ix.size_of. eapply node_fetch; [apply Hi|exact Hb|exact Hz|apply Hi|]. intros q s1 Hw Hcl.
  eapply node_read; [exact Hw|exact (nrep_is_leaf h nd b Hrep)|]. rewrite Hlf. rstep; [done|]. eapply node_read; [exact Hw|exact (nrep_size h nd b Hrep)|].
  eapply node_release; [exact Hw|by intros _|]. intros s2 Hr. rstep. split; [unfold zlen; by rewrite (pairs_len _ _ nd)|].
  exists s2. split; [done|]. by eapply read_calm.
Qed.

Lemma get_rid_runs s hd ps n iid i c : irep h s hd ps n -> at_pos ps (leaf_list ps n) iid i c ->
  runs (Ix.get_rid iid) (s, hd) (fun r t => (forall k v, pairs ps (iid_page_no iid) !! c = Some (k, v) -> r = v) /\ exists s', t = (s', hd) /\ RmP.calm s s').
Proof.
  intros Hi [H1 H2 H3]. destruct (leaf_of ps n (iid_page_no iid) (ir_tree _ _ _ _ _ Hi) ltac:(by eapply list_elem_of_lookup_2)) as (nd & Hnd & Hlf & Hlen).
  destruct (ir_pages _ _ _ _ _ Hi _ _ Hnd) as (b & Hb & Hrep & Hz). pose proof (pairs_len _ _ nd Hnd Hlen) as Hpl. pose proof (ir_hdr _ _ _ _ _ Hi) as Hh.
  unfold Ix.get_rid. eapply node_fetch; [apply Hi|exact Hb|exact Hz|apply Hi|]. intros q s1 Hw Hcl.
  eapply node_read; [exact Hw|exact (nrep_size h nd b Hrep)|]. rewrite H2. unfold zlen. destruct (Z.eqb_spec (Z.of_nat c) (Z.of_nat (length (an_keys nd)))) as [E|E].
  - eapply node_release; [exact Hw|by intros _|]. intros s2 Hr. rstep. split; [intros k v Hkv; apply lookup_lt_Some in Hkv; lia|]. exists s2. split; [done|by eapply read_calm].
  - rewrite (proj2 (Z.ltb_ge _ _)) by lia. destruct (lookup_lt_is_Some_2 (an_rids nd) c) as [r Hrc]; [lia|].
    eapply node_read; [exact Hw|rewrite Hh; exact (nrep_get_rid h Hg nd b c r Hrep Hrc)|].
    eapply node_release; [exact Hw|by intros _|]. intros s2 Hr. rstep. split; [|exists s2; split; [done|by eapply read_calm]].
    intros k v. rewrite (pairs_zip _ _ nd Hnd), lookup_zip_with, Hrc. destruct (an_keys nd !! c); simpl; congruence.
Qed.

(** ** The scan *)

(** the scan is at the entries [mid] before its end *)
Record scanning (ps : gmap Z anode) (n : nat) (sc : IxScan) (mid : list (list Z * Rid)) : Prop := {
  sg_pos : exists i c, at_pos ps (leaf_list ps n) (scan_iid sc) i c /\
    exists i' c', at_pos ps (leaf_list ps n) (scan_end sc) i' c' /\ from ps (leaf_list ps n) i c = mid ++ from ps (leaf_list ps n) i' c';
  sg_flag : is_end_ sc = true -> mid = [];
  sg_size : mid <> [] -> curr_node_size_ sc = zlen (pairs ps (iid_page_no (scan_iid sc)));
}.

Lemma scanning_end ps n sc mid : linked h ps (leaf_list ps n) -> scanning ps n sc mid -> IxSc.is_end sc = bool_decide (mid = []).
Proof.
  intros Hl [(i & c & Ha & i' & c' & Ha' & E) Hfl _]. unfold IxSc.is_end. destruct mid as [|e mid].
  - rewrite (bool_decide_true ([] = _)) by done. rewrite (bool_decide_true (scan_iid sc = _)); [by rewrite orb_true_r|]. eapply at_pos_unique; [exact Ha|exact Ha'|]. by rewrite E.
  - rewrite (bool_decide_false (_ :: _ = _)) by done. destruct (is_end_ sc); [by specialize (Hfl eq_refl)|]. simpl. apply bool_decide_false. intros Heq. rewrite Heq in Ha.
    destruct (at_pos_index _ _ _ _ _ _ _ (lk_nodup _ _ _ Hl) Ha Ha') as [-> ->]. apply (f_equal length) in E. rewrite length_app in E. simpl in E. lia.
Qed.

(** the first of the entries left is at the position *)
Lemma scanning_cons ps n sc e mid : scanning ps n sc (e :: mid) ->
  exists i c, at_pos ps (leaf_list ps n) (scan_iid sc) i c /\ (c < length (pairs ps (iid_page_no (scan_iid sc))))%nat /\ pairs ps (iid_page_no (scan_iid sc)) !! c = Some e.
Proof.
  intros [(i & c & Ha & i' & c' & _ & E) _ _]. exists i, c. split; [done|]. pose proof Ha as [H1 H2 H3]. unfold from in E. rewrite H1 in E.
  destruct H3 as [H3|[H3 ->]]; [|rewrite (from_nil ps _ i) in E by lia; rewrite drop_ge in E by lia; done].
  destruct (lookup_lt_is_Some_2 _ _ H3) as [x Hx]. rewrite (drop_S _ _ _ Hx) in E. simpl in E. injection E as -> _. done.
Qed.

Lemma rid_runs s hd ps n sc k r mid : irep h s hd ps n -> scanning ps n sc ((k, r) :: mid) ->
  runs (IxSc.rid sc) (s, hd) (fun v t => v = r /\ exists s', t = (s', hd) /\ RmP.calm s s').
Proof.
  intros Hi Hsc. destruct (scanning_cons _ _ _ _ _ Hsc) as (i & c & Ha & _ & He). unfold IxSc.rid.
  destruct (get_rid_runs s hd ps n _ i c Hi Ha) as (v & t & E & Hv & Ht). exists v, t. split; [done|]. split; [by eapply Hv|done].
Qed.

(** the last leaf *)
Lemma last_iff ps l p i : linked h ps l -> l !! i = Some p -> p = last_leaf_ h <-> Datatypes.S i = length l.
Proof.
  intros Hl Hi. pose proof (lk_last _ _ _ Hl) as Hla. rewrite last_lookup in Hla. pose proof (lookup_lt_Some _ _ _ Hi). split.
  - intros ->. pose proof (NoDup_lookup _ _ _ _ (lk_nodup _ _ _ Hl) Hi Hla). lia.
  - intros E. replace (pred (length l)) with i in Hla by lia. congruence.
Qed.

Lemma next_runs s hd ps n sc e mid : irep h s hd ps n -> linked h ps (leaf_list ps n) -> scanning ps n sc (e :: mid) ->
  runs (IxSc.next sc) (s, hd) (fun sc' t => scanning ps n sc' mid /\ exists s', t = (s', hd) /\ RmP.calm s s').
Proof.
  intros Hi Hl Hsc. pose proof (scanning_end _ _ _ _ Hl Hsc) as Hend. destruct (scanning_cons _ _ _ _ _ Hsc) as (i & c & Ha & Hc' & He).
  destruct Hsc as [(i0 & c0 & Ha0 & i' & c' & Ha' & E) Hfl Hsz]. destruct (at_pos_index _ _ _ _ _ _ _ (lk_nodup _ _ _ Hl) Ha0 Ha) as [-> ->].
  specialize (Hsz ltac:(done)). pose proof (ap_leaf _ _ _ _ _ Ha) as Hleaf. pose proof (ap_slot _ _ _ _ _ Ha) as Hslot. pose proof (last_iff _ _ _ _ Hl Hleaf) as Hlast.
  pose proof (RmP.calm_refl s (ir_inv _ _ _ _ _ Hi)) as Hrefl. unfold IxSc.next, Ix.hdr. rstep; [by rewrite Hend|]. cbv zeta. rstep. cbn [snd iid_page_no iid_slot_no].
  rewrite (ir_hdr _ _ _ _ _ Hi), Hsz, Hslot. unfold zlen.
  destruct (from_step h ps _ _ i c Hl Ha Hc') as (x & Hx & [(Hd & Hn & Ef)|(Hd & q & Hq & Hn & Ef)]); rewrite Ef in E; simpl in E; injection E as _ E; rewrite ?Hslot in Hn.
  - destruct (Z.eqb_spec (Z.of_nat c + 1) (Z.of_nat (length (pairs ps (iid_page_no (scan_iid sc)))))) as [Em|Em]; rewrite ?andb_true_r, ?andb_false_r; cbn [negb].
    + assert (Hll : iid_page_no (scan_iid sc) = last_leaf_ h) by (apply Hlast; lia). rewrite (proj2 (Z.eqb_eq _ _) Hll). cbn [negb andb]. rstep.
      split; [|by exists s]. split; simpl; [exists i, (Datatypes.S c); split; [done|]; by exists i', c'| |done]. intros _.
      unfold from in E at 1. rewrite Hleaf, (from_nil ps _ i), drop_ge in E by (apply Hlast in Hll; lia). by destruct mid.
    + rstep. split; [|by exists s]. split; simpl; [exists i, (Datatypes.S c); split; [done|]; by exists i', c'| |done].
      intros Ht. specialize (Hfl Ht). done.
  - pose proof (lookup_lt_Some _ _ _ Hq). rewrite (proj2 (Z.eqb_neq (iid_page_no _) _)) by (rewrite Hlast; lia). cbn [negb andb].
    rewrite (proj2 (Z.eqb_eq (Z.of_nat c + 1) _)) by lia.
    destruct (leaf_of ps n (iid_page_no (scan_iid sc)) (ir_tree _ _ _ _ _ Hi) ltac:(eapply list_elem_of_lookup_2; exact Hleaf)) as (nd & Hnd & Hlf & Hlen). destruct (ir_pages _ _ _ _ _ Hi _ _ Hnd) as (b & Hb & Hrep & Hz).
    eapply node_fetch; [apply Hi|exact Hb|exact Hz|apply Hi|]. intros p s1 Hw Hcl. eapply node_read; [exact Hw|exact (nrep_next h nd b Hrep)|].
    eapply node_release; [exact Hw|by intros _|]. intros s2 Hr. pose proof (read_calm _ _ _ _ _ _ _ _ _ _ Hi Hnd Hb Hw Hr) as Hcalm.
    rewrite (lk_next _ _ _ Hl _ _ _ Hleaf Hnd), Hq. cbn [default].
    eapply runs_bind; [apply (leaf_size_runs s2 hd ps n q (irep_calm _ _ _ _ _ Hi Hcalm)); by eapply list_elem_of_lookup_2|].
    intros r t (-> & s3 & -> & Hcalm'). rstep. split; [|exists s3; split; [done|by eapply RmP.calm_trans]].
    split; simpl; [exists (Datatypes.S i), 0%nat; split; [done|]; by exists i', c'| |done]. intros Ht. specialize (Hfl Ht). done.
Qed.

(** the scan between two positions *)
Lemma range_begin_runs s hd ps n lower upper i c i' c' mid : irep h s hd ps n -> linked h ps (leaf_list ps n) ->
  at_pos ps (leaf_list ps n) lower i c -> at_pos ps (leaf_list ps n) upper i' c' -> from ps (leaf_list ps n) i c = mid ++ from ps (leaf_list ps n) i' c' ->
  runs (IxSc.begin lower upper false) (s, hd) (fun sc t => scanning ps n sc mid /\ scan_iid sc = lower /\ exists s', t = (s', hd) /\ RmP.calm s s').
Proof.
  intros Hi Hl Ha Ha' E. assert (Hsc : forall sz, (mid <> [] -> sz = zlen (pairs ps (iid_page_no lower))) -> scanning ps n (mkIxScan lower upper false sz) mid).
  { intros sz Hsz. split; [exists i, c; split; [done|]; by exists i', c'|done|exact Hsz]. }
  unfold IxSc.begin. simpl. destruct (bool_decide_reflect (lower = upper)) as [->|Hne]; simpl.
  - rstep. split; [apply Hsc|]. 2: split; [done|]; exists s; split; [done|]; apply RmP.calm_refl, Hi.
    intros Hm. destruct (at_pos_index _ _ _ _ _ _ _ (lk_nodup _ _ _ Hl) Ha Ha') as [-> ->]. apply (f_equal length) in E. rewrite length_app in E. destruct mid; [done|simpl in E; lia].
  - eapply runs_bind; [apply (leaf_size_runs s hd ps n _ Hi); eapply list_elem_of_lookup_2, Ha|]. intros r t (-> & s1 & -> & Hcalm). rstep.
    split; [by apply Hsc|]. split; [done|]. by exists s1.
Qed.
End store.

(** ** The executor *)

Section exec.
Context {S : Type} {PS : PageStore S} {PL : PageStoreLaws S}.
Context (h : IxFileHdr) (Hg : geo h) (Hc : cols h).
Context (lock : Z -> Z -> Prog S bool) (ifuel rfuel : nat).
Context (tab_name iname : string) (hf : RmFileHandle) (pages : gmap Z apage) (chain : list Z) (hi : IxIndexHandle) (ps : gmap Z anode) (n : nat).
Abbreviation SM := (SmManager S).
Abbreviation IE := IndexScanExecutor.
Local Open Scope prog_scope.

Lemma rep_calm (s s' : S) : RmP.rep any s hf pages chain -> RmP.calm s s' -> RmP.rep any s' hf pages chain.
Proof.
  intros [] []. split; try done; auto; [by rewrite ca_npages| |by rewrite ca_room].
  intros i ap Hi. destruct (rp_pages i ap Hi) as (b & H1 & H2 & H3). exists b. split; [auto|]. split; [done|]. by rewrite ca_pins.
Qed.

Lemma get_record_calm (s : S) rid x : RmP.rep any s hf pages chain -> RmP.rec_at pages rid = Some x ->
  runs (Rm.get_record rid) (s, hf) (fun r t => r = mkRmRecord x (record_size (file_hdr_ hf)) /\ exists s', t = (s', hf) /\ RmP.calm s s').
Proof.
  intros Hrep Hx. unfold RmP.rec_at in Hx. destruct (pages !! rid_page_no rid) as [ap|] eqn:Hi; [|done].
  unfold Rm.get_record. eapply (ScanP.fetch_handle any any_framed); [exact Hrep|exact Hi|]. intros p b s1 Hw Hr Hcl Hpg Hz.
  destruct (pr_slot _ _ _ Hr _ _ Hx) as [Hv Hs]. unfold Rm.hdr. rstep. simpl. pose proof (RmP.rp_hdr _ _ _ _ _ Hrep) as Hhd.
  pose proof (slot_range _ Hhd _ Hv). pose proof (ho_rs _ Hhd). pose proof (ho_bs _ Hhd).
  eapply RmP.step_read; [exact Hw|apply in_range_spec; lia|]. fold (pg_slot (file_hdr_ hf) (rid_slot_no rid) b). rewrite Hs.
  eapply (RmP.step_unpin any any_framed); [exact Hw|done|]. intros s2 Hrest. rstep. replace (ps_room s - 1 + 1) with (ps_room s) in Hrest by lia. split.
  - unfold RmRecord_of. f_equal. subst x. unfold pg_slot. rewrite <- (zlen_slice (Rm.slot_off (file_hdr_ hf) (rid_slot_no rid)) (record_size (file_hdr_ hf)) b) at 1;
      [apply slice_full|lia|lia|rewrite (pr_len _ _ _ Hr); lia].
  - exists s2. split; [done|]. by eapply RmP.rest_calm.
Qed.

Lemma rec_at_len (s : S) rid x : RmP.rep any s hf pages chain -> RmP.rec_at pages rid = Some x -> zlen x = record_size (file_hdr_ hf).
Proof.
  intros Hrep Hx. unfold RmP.rec_at in Hx. destruct (pages !! rid_page_no rid) as [ap|] eqn:Hi; [|done].
  destruct (RmP.rp_pages _ _ _ _ _ Hrep _ _ Hi) as (b & _ & Hr & _). destruct (pr_slot _ _ _ Hr _ _ Hx) as [Hv <-].
  pose proof (RmP.rp_hdr _ _ _ _ _ Hrep) as Hh. pose proof (slot_range _ Hh _ Hv). pose proof (ho_rs _ Hh). pose proof (ho_bs _ Hh).
  unfold pg_slot. apply zlen_slice; [lia|lia|]. rewrite (pr_len _ _ _ Hr). lia.
Qed.

(** the table and its index are open *)
Record serving (w : SM) : Prop := {
  sv_fh : fhs_ w !! tab_name = Some hf;
  sv_ih : ihs_ w !! iname = Some hi;
  sv_rep : RmP.rep any (sm_core w) hf pages chain;
  sv_ix : irep h (sm_core w) hi ps n;
}.
Context (Hl : linked h ps (leaves ps n (root_page_ h))) (conds : list Condition) (tab : TabMeta).

Lemma serving_calm w s' : serving w -> RmP.calm (sm_core w) s' -> serving (SmSt.set_core s' w).
Proof. intros [] Hcalm. split; try done; [by eapply rep_calm|by eapply irep_calm]. Qed.

(** the fields of the executor that never change *)
Definition shaped (e : IE) : Prop := isx_fh_ e = tab_name /\ IxEx.index_name e = iname /\ isx_conds_ e = conds /\ isx_tab_ e = tab.

Lemma on_index_runs {A} (m : Prog (Ix.St (S:=S)) A) (e : IE) w (Q : A -> Prop) : serving w ->
  runs m (sm_core w, hi) (fun a t => Q a /\ exists s', t = (s', hi) /\ RmP.calm (sm_core w) s') ->
  runs (IxEx.world (SmSt.on_index iname m)) (e, w) (fun a t => Q a /\ exists s', t = (e, SmSt.set_core s' w) /\ serving (SmSt.set_core s' w)).
Proof.
  intros Hw (a & t & E & HQ & s' & -> & Hcalm). exists a, (e, SmSt.set_core s' w). split; [|split; [done|exists s'; split; [done|by apply serving_calm]]].
  apply (zoom_eq snd (fun (s : SM) (t : IE * SM) => (t.1, s)) _ (e, w)). cbn [snd]. unfold SmSt.on_index. rewrite (sv_ih _ Hw), E. f_equal.
  unfold SmSt.set_ihs, SmSt.set_core. simpl. by rewrite insert_id by apply Hw.
Qed.

Lemma on_file_runs {A} (m : Prog (Rm.St (S:=S)) A) (e : IE) w (Q : A -> Prop) : serving w ->
  runs m (sm_core w, hf) (fun a t => Q a /\ exists s', t = (s', hf) /\ RmP.calm (sm_core w) s') ->
  runs (IxEx.world (SmSt.on_file tab_name m)) (e, w) (fun a t => Q a /\ exists s', t = (e, SmSt.set_core s' w) /\ serving (SmSt.set_core s' w)).
Proof.
  intros Hw (a & t & E & HQ & s' & -> & Hcalm). exists a, (e, SmSt.set_core s' w). split; [|split; [done|exists s'; split; [done|by apply serving_calm]]].
  exact (zoom_eq snd (fun (s : SM) (t : IE * SM) => (t.1, s)) _ (e, w) _ _ (ScanP.on_file_eq tab_name m w hf a s' (sv_fh _ Hw) E)).
Qed.

(** the record of an entry, and whether the conditions hold of it *)
Definition row (kr : list Z * Rid) : list Z := default [] (RmP.rec_at pages kr.2).
Definition sat (kr : list Z * Rid) : bool := holds_scan conds (tm_cols tab) (row kr).
Definition readable (kr : list Z * Rid) : Prop :=
  RmP.rec_at pages kr.2 = Some (row kr) /\ exists b, Scan.test_conds conds (tm_cols tab) (row kr) tt = (Ok b, tt).
Abbreviation selected l := (List.filter sat l).

(** the executor is at the first entry of [mid] that the conditions hold of *)
Definition settled (e : IE) (w : SM) (mid : list (list Z * Rid)) : Prop :=
  shaped e /\ serving w /\ (exists sc, isx_scan_ e = Some sc /\ scanning h ps n sc mid) /\
  match mid with [] => True | kr :: _ => sat kr = true /\ isx_rid_ e = kr.2 end.

Lemma step_scan_runs (e : IE) w sc kr mid : shaped e -> serving w -> isx_scan_ e = Some sc -> scanning h ps n sc (kr :: mid) ->
  runs IxEx.step_scan (e, w) (fun _ t => exists sc', t.1 = IxEx.set_scan sc' e /\ scanning h ps n sc' mid /\ serving t.2).
Proof.
  intros (S1 & S2 & S3 & S4) Hw Hs Hsc. unfold IxEx.step_scan, IxEx.scan_of. rstep. rstep. rstep. cbn [fst]. rewrite Hs. rstep; [done|]. rewrite S2.
  eapply runs_bind; [apply (on_index_runs _ e w (fun sc' => scanning h ps n sc' mid) Hw); eapply next_runs; [apply Hw|exact Hl|exact Hsc]|].
  intros sc' t (Hsc' & s' & -> & Hw'). unfold IxEx.upd. rstep. by exists sc'.
Qed.

Lemma seek_runs fuel : forall (e : IE) w sc mid, shaped e -> serving w -> isx_scan_ e = Some sc -> scanning h ps n sc mid -> Forall readable mid -> (length mid < fuel)%nat ->
  runs (IxEx.seek (S:=S) fuel) (e, w) (fun _ t => exists mid', settled t.1 t.2 mid' /\ selected mid = selected mid' /\ Forall readable mid' /\ (length mid' <= length mid)%nat).
Proof.
  induction fuel as [|fuel IH]; intros e w sc mid Hsh Hw Hs Hsc Hok Hf; [lia|]. cbn [IxEx.seek]. unfold IxEx.scan_of at 1. rstep. rstep. rstep. cbn [fst]. rewrite Hs. rstep; [done|].
  rewrite (scanning_end h ps n sc mid Hl Hsc). pose proof Hsh as (S1 & S2 & S3 & S4). destruct mid as [|[k r] mid].
  - rewrite bool_decide_true by done. rstep. exists []. split; [|done]. split; [done|]. split; [done|]. split; [by exists sc|done].
  - rewrite bool_decide_false by done. apply Forall_cons in Hok as [[Hrec [b Hb]] Hok]. simpl in Hrec.
    rewrite S1, S2. eapply runs_bind; [apply (on_index_runs _ e w (fun v => v = r) Hw); apply (rid_runs h Hg) with ps n k mid; [apply Hw|exact Hsc]|].
    intros v t (-> & s1 & -> & Hw1). eapply runs_bind; [apply (on_file_runs _ e _ (fun v => v = mkRmRecord (row (k, r)) (record_size (file_hdr_ hf))) Hw1); apply get_record_calm; [apply Hw1|exact Hrec]|].
    intros v t (-> & s2 & -> & Hw2). cbn [data]. rewrite S3, S4. eapply runs_bind_pure; [exact Hb|].
    assert (Hsat : sat (k, r) = b) by (unfold sat, holds_scan; by rewrite Hb). destruct b.
    + unfold IxEx.upd. rstep. exists ((k, r) :: mid). split; [|split; [done|split; [constructor; [split; [done|by exists true]|done]|done]]].
      split; [done|]. split; [done|]. split; [by exists sc|]. done.
    + eapply runs_bind; [by eapply step_scan_runs|]. intros [] [e' w'] (sc' & He & Hsc' & Hw'). cbn [fst snd] in *. subst e'.
      eapply runs_conseq; [apply (IH (IxEx.set_scan sc' e) w' sc' mid); try done; simpl in Hf; lia|]. intros [] t (mid' & H1 & H2 & H3 & H4). exists mid'.
      split; [done|]. cbn [List.filter]. rewrite Hsat. split; [done|]. split; [done|]. simpl. lia.
Qed.

(** the loop of a client *)
Lemma rest_runs fuel : forall (e : IE) w mid acc, settled e w mid -> Forall readable mid -> (length mid < fuel)%nat -> (length mid < rfuel)%nat ->
  runs (fold_rest (X:=IxEx.exec lock ifuel rfuel) (fun acc r => ret (r :: acc)) acc fuel) (e, w) (fun l t => l = rev (rec_of <$> (row <$> selected mid)) ++ acc /\ serving t.2).
Proof.
  induction fuel as [|fuel IH]; intros e w mid acc Hset Hok Hf Hr; [lia|]. cbn [fold_rest]. rstep. cbn [fst]. pose proof Hset as (Hsh & Hw & (sc & Hs & Hsc) & Hat). pose proof Hsh as (S1 & _).
  assert (Hend : @Executor.is_end SM _ (IxEx.exec lock ifuel rfuel) e = bool_decide (mid = [])) by (simpl; rewrite Hs; by apply (scanning_end h ps n sc mid Hl)). rewrite Hend.
  destruct mid as [|kr mid]; [rewrite bool_decide_true by done; rstep; done|]. rewrite bool_decide_false by done. destruct Hat as [Hsat Hrid].
  apply Forall_cons in Hok as [Hkr Hok]. pose proof Hkr as [Hrec _].
  cbn [Executor.Next IxEx.exec]. unfold IxEx.next. rstep. rstep. cbn [fst]. rewrite S1, Hrid.
  eapply runs_bind; [apply (on_file_runs _ e w (fun v => v = mkRmRecord (row kr) (record_size (file_hdr_ hf))) Hw); apply get_record_calm; [apply Hw|exact Hrec]|].
  intros v t (-> & s1 & -> & Hw1). eapply runs_bind_pure; [reflexivity|]. cbn [nextTuple IxEx.exec]. unfold IxEx.next_tuple. rstep.
  eapply runs_bind; [by eapply step_scan_runs|]. intros [] [e' w'] (sc' & He & Hsc' & Hw'). cbn [fst snd] in *. subst e'.
  eapply runs_bind; [apply (seek_runs rfuel (IxEx.set_scan sc' e) w' sc' mid); try done; simpl in Hr; lia|]. intros [] [e2 w2] (mid' & Hset' & Hsel & Hok' & Hle). cbn [fst snd] in *.
  eapply runs_conseq; [apply (IH e2 w2 mid'); try done; simpl in Hf, Hr; lia|]. intros l t [-> Ht]. split; [|done].
  cbn [List.filter]. rewrite Hsat, Hsel. rewrite !fmap_cons. simpl. rewrite <- app_assoc. simpl. do 2 f_equal. unfold rec_of. by rewrite (rec_at_len _ _ _ (sv_rep _ Hw1) Hrec).
Qed.
End exec.

(** ** The bounds of the index conditions *)

Section bounds.
Context {S : Type} {PS : PageStore S} {PL : PageStoreLaws S}.
Context (h : IxFileHdr) (Hg : geo h) (Hc : cols h).
Abbreviation root := (root_page_ h).
Local Open Scope prog_scope.

Lemma suffix_cut {A} (l p1 q1 p2 q2 : list A) : l = p1 ++ q1 -> l = p2 ++ q2 -> (length p1 <= length p2)%nat -> exists m, q1 = m ++ q2 /\ p2 = p1 ++ m.
Proof.
  intros -> E Hle. exists (take (length p2 - length p1) q1).
  assert (Hd : drop (length p2) (p1 ++ q1) = q2) by (rewrite E; apply drop_app_length).
  assert (Ht : take (length p2) (p1 ++ q1) = p2) by (rewrite E; apply take_app_length).
  rewrite drop_app_ge in Hd by done. rewrite take_app_ge in Ht by done. split; [|done]. by rewrite <- Hd, take_drop.
Qed.

(** two positions, the first not after the second *)
Lemma range_mid ps n before1 before2 lower upper :
  cuts h ps n before1 lower -> cuts h ps n before2 upper -> (forall k, before1 k -> before2 k) ->
  exists i c i' c' pre mid post, at_pos ps (leaves ps n root) lower i c /\ at_pos ps (leaves ps n root) upper i' c' /\
    from ps (leaves ps n root) i c = mid ++ from ps (leaves ps n root) i' c' /\ entries ps n root = pre ++ mid ++ post /\
    (forall e, e ∈ pre -> before1 e.1) /\ (forall e, e ∈ post -> ~ before2 e.1).
Proof.
  intros (i & c & p1 & A1 & E1 & B1 & N1) (i' & c' & p2 & A2 & E2 & B2 & N2) Himp. destruct (decide (length p1 <= length p2)%nat) as [Hle|Hgt].
  - destruct (suffix_cut _ _ _ _ _ E1 E2 Hle) as (mid & Em & _). exists i, c, i', c', p1, mid, (from ps (leaves ps n root) i' c'). rewrite E1, Em. by split_and!.
  - exfalso. destruct (suffix_cut _ _ _ _ _ E2 E1 ltac:(lia)) as (mid & Em & Ep). destruct mid as [|e mid]; [rewrite app_nil_r in Ep; subst; lia|].
    apply (N2 e); [rewrite Em; left|]. apply Himp, B1. rewrite Ep. apply elem_of_app. right. left.
Qed.

Lemma first_cuts ps n : linked h ps (leaves ps n root) -> cuts h ps n (fun _ => False) (mkIid (first_leaf_ h) 0).
Proof.
  intros Hl. pose proof (lk_first _ _ _ Hl) as Hf. destruct (leaves ps n root) as [|p l] eqn:El; [done|]. injection Hf as ->. unfold cuts. rewrite El, entries_leaves, El.
  exists 0%nat, 0%nat, []. split; [|split; [|split; [intros e He; by apply not_elem_of_nil in He|intros e _ []]]]; [|by unfold from; simpl; rewrite drop_0].
  split; [done|done|]. simpl. destruct (pairs ps (first_leaf_ h)) eqn:Ep; [right|left; simpl; lia]. pose proof (lk_full _ _ _ Hl 0%nat _ eq_refl Ep) as E1. injection E1 as ->. done.
Qed.

Lemma last_cuts ps n : linked h ps (leaves ps n root) -> cuts h ps n (fun _ => True) (mkIid (last_leaf_ h) (zlen (pairs ps (last_leaf_ h)))).
Proof.
  intros Hl. pose proof (lk_last _ _ _ Hl) as Hla. rewrite last_lookup in Hla. pose proof (lookup_lt_Some _ _ _ Hla). unfold cuts.
  exists (pred (length (leaves ps n root))), (length (pairs ps (last_leaf_ h))), (entries ps n root).
  assert (Hfr : from ps (leaves ps n root) (pred (length (leaves ps n root))) (length (pairs ps (last_leaf_ h))) = []).
  { unfold from. rewrite Hla, from_nil by lia. rewrite drop_ge by done. done. }
  rewrite Hfr, app_nil_r. split; [|split; [done|split; [done|intros e He; by apply not_elem_of_nil in He]]]. split; simpl; [done|done|right; lia].
Qed.

Lemma leaf_end_runs s hd ps n : irep h s hd ps n -> linked h ps (leaves ps n root) ->
  runs Ix.leaf_end (s, hd) (fun iid t => exists s', t = (s', hd) /\ RmP.calm s s' /\ cuts h ps n (fun _ => True) iid).
Proof.
  intros Hi Hl. assert (Hin : last_leaf_ h ∈ leaves ps n root) by (pose proof (lk_last _ _ _ Hl) as Hla; rewrite last_lookup in Hla; by eapply list_elem_of_lookup_2).
  destruct (leaf_of h ps n _ (ir_tree _ _ _ _ _ Hi) Hin) as (nd & Hnd & Hlf & Hlen). destruct (ir_pages _ _ _ _ _ Hi _ _ Hnd) as (b & Hb & Hrep & Hz).
  unfold Ix.leaf_end, Ix.hdr. rstep. cbn [snd]. rewrite (ir_hdr _ _ _ _ _ Hi). eapply node_fetch; [apply Hi|exact Hb|exact Hz|apply Hi|]. intros p s1 Hw Hcl.
  eapply node_read; [exact Hw|exact (nrep_size h nd b Hrep)|]. eapply node_release; [exact Hw|by intros _|]. intros s2 Hr. rstep.
  exists s2. split; [done|]. split; [by eapply (read_calm h)|]. replace (zlen (an_keys nd)) with (zlen (pairs ps (last_leaf_ h))) by (unfold zlen; by rewrite (pairs_len _ _ nd)). by apply last_cuts.
Qed.

(** an operator holds of the result of a comparison *)
Definition cmp_ok (op : CompOp) (c : comparison) : bool :=
  match op, c with
  | OP_EQ, Eq | OP_LT, Lt | OP_GT, Gt | OP_LE, Lt | OP_LE, Eq | OP_GE, Gt | OP_GE, Eq | OP_NE, Lt | OP_NE, Gt => true
  | _, _ => false
  end.
(** an index condition compares the key with the bytes of its value *)
Definition fails (idx : list QCond) (k : list Z) : Prop :=
  exists c rw, c ∈ idx /\ c.2 = Some rw /\ cmp_ok (cond_op c.1) (IxKey.lex (kv h k) (kv h rw)) = false.

(** the conditions on an index of one column: one equality, or no equality at all; the values are ordered like their bytes *)
Record one_column (idx : list QCond) : Prop := {
  oc_one : zlen (col_types_ h) = 1;
  oc_keys : forall c, c ∈ idx -> exists rw, c.2 = Some rw /\ key_good h rw;
  oc_shape : (exists c, idx = [c] /\ cond_op c.1 = OP_EQ) \/ (idx <> [] /\ forall c, c ∈ idx -> cond_op c.1 <> OP_EQ);
  oc_order : forall c c' rw rw', c ∈ idx -> c' ∈ idx -> c.2 = Some rw -> c'.2 = Some rw' ->
    (IxKey.lex (kv h rw) (kv h rw') = Gt -> Val.gt (rhs_val c.1) (rhs_val c'.1) = true) /\
    (IxKey.lex (kv h rw) (kv h rw') = Eq -> Val.eq (rhs_val c.1) (rhs_val c'.1) = true);
}.

(** the bounds come from conditions *)
Definition low_from (idx : list QCond) (b : option (QCond * bool)) : Prop :=
  match b with None => True | Some (c, be) => c ∈ idx /\ cond_op c.1 = if be then OP_GE else OP_GT end.
Definition up_from (idx : list QCond) (b : option (QCond * bool)) : Prop :=
  match b with None => True | Some (c, le) => c ∈ idx /\ cond_op c.1 = if le then OP_LE else OP_LT end.

Lemma better_lower_from idx c b : c ∈ idx -> cond_op c.1 = OP_GE \/ cond_op c.1 = OP_GT -> low_from idx b -> low_from idx (IxEx.better_lower c b).
Proof. intros Hin Hop Hb. unfold IxEx.better_lower. destruct b as [[l be]|]; [case_match; [|done]|]; simpl; (split; [done|]); by destruct Hop as [-> | ->]. Qed.
Lemma better_upper_from idx c b : c ∈ idx -> cond_op c.1 = OP_LE \/ cond_op c.1 = OP_LT -> up_from idx b -> up_from idx (IxEx.better_upper c b).
Proof. intros Hin Hop Hb. unfold IxEx.better_upper. destruct b as [[l be]|]; [case_match; [|done]|]; simpl; (split; [done|]); by destruct Hop as [-> | ->]. Qed.

Lemma range_of_from idx col : forall conds lower upper, (forall c, c ∈ conds -> c ∈ idx) -> low_from idx lower -> up_from idx upper ->
  low_from idx (IxEx.range_of col conds lower upper).1 /\ up_from idx (IxEx.range_of col conds lower upper).2.
Proof.
  induction conds as [|c conds IH]; intros lower upper Hin Hlo Hup; [done|]. cbn [IxEx.range_of]. destruct (String.eqb _ _); [|done].
  assert (Hc' : c ∈ idx) by (apply Hin; left). assert (Hin' : forall c, c ∈ conds -> c ∈ idx) by (intros; apply Hin; by right).
  destruct (cond_op c.1) eqn:Eop; apply IH; try done; (apply better_lower_from || apply better_upper_from); auto.
Qed.

Lemma put_key_ok c rw key : c.2 = Some rw -> key_good h rw -> zlen key = col_tot_len_ h -> IxEx.put_key 0 c key tt = (Ok (rw, col_tot_len_ h), tt).
Proof.
  intros Hc' [Hz _] Hk. unfold IxEx.put_key. rewrite Hc'. unfold deref at 1. rewrite (bind_ok (ret rw) _ tt rw tt eq_refl). pose proof (zlen_nonneg rw).
  rewrite memcpy_ok by lia. unfold deref. rewrite (bind_ok (ret _) _ tt (splice 0 rw key) tt eq_refl). rewrite splice_all by lia. by rewrite Hz.
Qed.

(** the keys before a bound *)
Definition below (incl : bool) (rw k : list Z) : Prop := if incl then IxKey.lex (kv h k) (kv h rw) <> Gt else klt h k rw.
Definition before_low (b : option (QCond * bool)) (k : list Z) : Prop := match b with Some (c, be) => exists rw, c.2 = Some rw /\ below (negb be) rw k | None => False end.
Definition before_up (b : option (QCond * bool)) (k : list Z) : Prop := match b with Some (c, le) => exists rw, c.2 = Some rw /\ below le rw k | None => True end.

Context (Hone : zlen (col_types_ h) = 1) (ifuel : nat).

Lemma search_runs (incl : bool) s hd ps n rw : irep h s hd ps n -> linked h ps (leaves ps n root) -> key_good h rw -> (n <= ifuel)%nat ->
  runs (if incl then Ix.upper_bound ifuel rw (0 + 1) else Ix.lower_bound ifuel rw (0 + 1)) (s, hd) (fun iid t => exists s', t = (s', hd) /\ RmP.calm s s' /\ cuts h ps n (below incl rw) iid).
Proof.
  intros Hi Hl Hk Hf. assert (Hw : whole h (0 + 1)) by (right; by rewrite Hone).
  destruct incl; [apply (bound_runs h Hg Hc _ rw (0 + 1) _ s hd ps n ifuel (upper_separates h Hg Hc rw _ Hw Hk))|apply (bound_runs h Hg Hc _ rw (0 + 1) _ s hd ps n ifuel (lower_separates h Hg Hc rw _ Hw Hk))]; done.
Qed.

Lemma cuts_iff ps n (P Q : list Z -> Prop) iid : (forall k, P k <-> Q k) -> cuts h ps n P iid -> cuts h ps n Q iid.
Proof. intros HPQ (i & c & pre & A & E & B & N). exists i, c, pre. split; [done|]. split; [done|]. split; intros e He; [by apply HPQ, B|]. intros Hq. by apply (N e He), HPQ. Qed.

(** one end of the range *)
Lemma end_runs (incl : bool) s hd ps n c rw key : irep h s hd ps n -> linked h ps (leaves ps n root) -> (n <= ifuel)%nat ->
  c.2 = Some rw -> key_good h rw -> zlen key = col_tot_len_ h ->
  runs (let* k := pure_call (IxEx.put_key 0 c key) in let* b := (if incl then Ix.upper_bound ifuel k.1 (0 + 1) else Ix.lower_bound ifuel k.1 (0 + 1)) in ret (b, k.1)) (s, hd)
    (fun r t => exists s', t = (s', hd) /\ RmP.calm s s' /\ zlen r.2 = col_tot_len_ h /\ cuts h ps n (fun k => exists rw, c.2 = Some rw /\ below incl rw k) r.1).
Proof.
  intros Hi Hl Hf Hrw Hk Hz. eapply runs_bind_pure; [by apply put_key_ok|]. cbn [fst].
  eapply runs_bind; [by apply search_runs|]. intros iid t (s' & -> & Hcalm & Hcut). rstep. exists s'. split; [done|]. split; [done|]. split; [apply Hk|].
  eapply cuts_iff; [|exact Hcut]. intros k. split; [by exists rw|]. intros (rw' & Hrw' & Hb). congruence.
Qed.

(** the lower end is not after the upper one *)
Lemma range_nonempty idx lower upper : one_column idx -> low_from idx lower -> up_from idx upper -> IxEx.empty_range lower upper = false ->
  forall k, before_low lower k -> before_up upper k.
Proof.
  intros Hoc Hlo Hup He k. destruct upper as [[u le]|]; [|done]. destruct lower as [[l be]|]; [|done]. simpl in *. intros (rw & Hrw & Hb).
  destruct Hlo as [Hl _], Hup as [Hu _]. destruct (oc_keys _ Hoc u Hu) as (rw' & Hrw' & _). destruct (oc_order _ Hoc l u rw rw' Hl Hu Hrw Hrw') as [Hgt Heq].
  exists rw'. split; [done|]. apply orb_false_elim in He as [He1 He2]. destruct (IxKey.lex (kv h rw) (kv h rw')) eqn:Ec; [|clear Hgt Heq|by rewrite Hgt in He1].
  - rewrite Heq in He2 by done. destruct be, le; try done. simpl in *. unfold klt in Hb. pose proof (IxKey.lex_eq _ _ (kv_len h Hc rw rw') Ec) as Ekv. rewrite <- Ekv, Hb. done.
  - assert (Hlt : klt h k rw') by (unfold below in Hb; destruct be; simpl in Hb; [apply (lex_trans_lt h Hc k rw rw' Hb); by rewrite Ec|apply (lex_lt_trans' h Hc k rw rw' Hb Ec)]).
    unfold below. destruct le; [|done]. unfold klt in Hlt. by rewrite Hlt.
Qed.

(** a key outside the range fails a condition *)
Lemma before_low_fails idx lower k : low_from idx lower -> before_low lower k -> fails idx k.
Proof.
  destruct lower as [[c be]|]; [|done]. simpl. intros [Hin Hop] (rw & Hrw & Hb). exists c, rw. split; [done|]. split; [done|]. rewrite Hop. unfold below, klt in Hb.
  destruct be; simpl in *; [by rewrite Hb|]. by destruct (IxKey.lex (kv h k) (kv h rw)).
Qed.
Lemma after_up_fails idx upper k : one_column idx -> up_from idx upper -> ~ before_up upper k -> fails idx k.
Proof.
  intros Hoc. destruct upper as [[c le]|]; simpl; [|by intros _ []]. intros [Hin Hop] Hn. destruct (oc_keys _ Hoc c Hin) as (rw & Hrw & _). exists c, rw. split; [done|]. split; [done|]. rewrite Hop.
  destruct (IxKey.lex (kv h k) (kv h rw)) eqn:Ec; destruct le; try done; exfalso; apply Hn; exists rw; (split; [done|]); unfold below, klt; by rewrite Ec.
Qed.

(** what the bounds leave out fails a condition *)
Definition spans (ps : gmap Z anode) (n : nat) (idx : list QCond) (lower upper : Iid) : Prop :=
  exists before1 before2, cuts h ps n before1 lower /\ cuts h ps n before2 upper /\ (forall k, before1 k -> before2 k) /\
    (forall k, before1 k -> fails idx k) /\ (forall k, ~ before2 k -> fails idx k).

Lemma eq_prefix_none idx key : (forall c, c ∈ idx -> cond_op c.1 <> OP_EQ) -> IxEx.eq_prefix idx 0 0 key tt = (Ok (0, 0, key, idx), tt).
Proof. intros Hop. destruct idx as [|c idx]; [done|]. cbn [IxEx.eq_prefix]. specialize (Hop c ltac:(left)). by destruct (cond_op c.1). Qed.

(** the range of one equality *)
Lemma equality_spans s hd ps n c rw : irep h s hd ps n -> linked h ps (leaves ps n root) -> (n <= ifuel)%nat -> cond_op c.1 = OP_EQ -> c.2 = Some rw -> key_good h rw ->
  runs (let* lo := Ix.lower_bound ifuel rw 1 in let* hi := Ix.upper_bound ifuel rw 1 in ret (lo, hi, rw)) (s, hd)
    (fun r t => exists s', t = (s', hd) /\ RmP.calm s s' /\ spans ps n [c] r.1.1 r.1.2).
Proof.
  intros Hi Hl Hf Hop Hrw Hk. eapply runs_bind; [by apply (search_runs false s hd ps n rw)|]. intros lo t (s1 & -> & C1 & Hlo).
  eapply runs_bind; [by apply (search_runs true s1 hd ps n rw); [eapply irep_calm|..]|]. intros hi t (s2 & -> & C2 & Hhi). rstep.
  exists s2. split; [done|]. split; [by eapply RmP.calm_trans|]. exists (below false rw), (below true rw). split; [done|]. split; [done|]. unfold below, klt.
  split; [by intros k ->|]. split; intros k Hb; exists c, rw; (split; [left|]); (split; [done|]); rewrite Hop; destruct (IxKey.lex (kv h k) (kv h rw)); try done; by destruct Hb.
Qed.

Lemma scan_bounds_runs s hd ps n idx key : irep h s hd ps n -> linked h ps (leaves ps n root) -> (n <= ifuel)%nat -> one_column idx -> zlen key = col_tot_len_ h ->
  runs (IxEx.scan_bounds ifuel idx key) (s, hd) (fun r t => exists s', t = (s', hd) /\ RmP.calm s s' /\ spans ps n idx r.1.1 r.1.2).
Proof.
  intros Hi Hl Hf Hoc Hz. unfold IxEx.scan_bounds, Ix.leaf_begin, Ix.hdr. rstep. rstep. cbn [snd]. rewrite (ir_hdr _ _ _ _ _ Hi). rstep.
  eapply runs_bind; [by apply (leaf_end_runs s hd ps n)|]. intros hi0 t (s1 & -> & C1 & Hhi0). pose proof (irep_calm h _ _ _ _ _ Hi C1) as Hi1. pose proof (first_cuts ps n Hl) as Hlo0.
  destruct (oc_shape _ Hoc) as [(c & -> & Hop)|[Hne Hop]].
  { destruct (oc_keys _ Hoc c ltac:(left)) as (rw & Hrw & Hk). eapply runs_bind_pure.
    { cbn [IxEx.eq_prefix]. rewrite Hop, (bind_ok _ _ _ _ _ (put_key_ok c rw key Hrw Hk Hz)). reflexivity. }
    cbn [fst snd]. eapply runs_conseq; [by apply (equality_spans s1 hd ps n c rw)|]. intros r t (s2 & -> & C2 & Hsp). exists s2. split; [done|]. split; [by eapply RmP.calm_trans|done]. }
  eapply runs_bind_pure; [by apply eq_prefix_none|]. cbv iota beta. destruct idx as [|c0 idx0]; [done|]. set (idx := c0 :: idx0) in *.
  destruct (range_of_from idx (tc_col_name (lhs_col c0.1)) idx None None) as [Hlow Hupp]; [done..|].
  destruct (IxEx.range_of _ idx None None) as [lower upper]. cbn [fst snd] in Hlow, Hupp. destruct (IxEx.empty_range lower upper) eqn:Hemp.
  { rstep. exists s1. split; [done|]. split; [done|]. exists (fun _ => False), (fun _ => True). by split_and!. }
  eapply (runs_bind _ _ _ (fun r t => exists s2, t = (s2, hd) /\ RmP.calm s s2 /\ zlen r.2 = col_tot_len_ h /\ cuts h ps n (before_low lower) r.1)).
  { destruct lower as [[l be]|]; [|simpl; rstep; by exists s1]. destruct (oc_keys _ Hoc l (proj1 Hlow)) as (rw & Hrw & Hk). simpl.
    eapply runs_conseq; [pose proof (end_runs (negb be) s1 hd ps n l rw key Hi1 Hl Hf Hrw Hk Hz) as Hr; destruct be; exact Hr|].
    intros r t (s2 & -> & C2 & H1 & H2). exists s2. split; [done|]. split; [by eapply RmP.calm_trans|]. split; [done|]. by destruct be. }
  intros r t (s2 & -> & C2 & Hz2 & Hcut). pose proof (irep_calm h _ _ _ _ _ Hi C2) as Hi2.
  eapply (runs_bind _ _ _ (fun r t => exists s3, t = (s3, hd) /\ RmP.calm s s3 /\ cuts h ps n (before_up upper) r.1)).
  { destruct upper as [[u le]|]; [|simpl; rstep; by exists s2]. destruct (oc_keys _ Hoc u (proj1 Hupp)) as (rw & Hrw & Hk).
    eapply runs_conseq; [exact (end_runs le s2 hd ps n u rw r.2 Hi2 Hl Hf Hrw Hk Hz2)|]. intros r' t (s3 & -> & C3 & H1 & H2). exists s3. split; [done|]. split; [by eapply RmP.calm_trans|done]. }
  intros r' t (s3 & -> & C3 & Hcut'). rstep. exists s3. split; [done|]. split; [done|]. exists (before_low lower), (before_up upper). cbn [fst snd]. split; [done|]. split; [done|].
  split; [by apply (range_nonempty idx)|]. split; intros k; [by apply before_low_fails|by apply after_up_fails].
Qed.
End bounds.

(** ** The whole scan *)

Section run.
Context (h : IxFileHdr) (Hg : geo h) (Hc : cols h) (p : Z) (t0 : Transaction) (fds : list Z) (ifuel rfuel : nat).
Context (tab_name : string) (names : list string) (tab : TabMeta) (hf : RmFileHandle) (pages : gmap Z apage) (chain : list Z).
Context (hi : IxIndexHandle) (ps : gmap Z anode) (n : nat) (conds idx : list QCond).
Abbreviation World := (SmManager Core).
Abbreviation iname := (Meta.index_file_name tab_name names).
Abbreviation root := (root_page_ h).
Abbreviation serves := (serving h tab_name iname hf pages chain hi ps n).
Abbreviation rows_of := (row pages).
Abbreviation holds := (sat pages conds.*1 tab).
Local Open Scope prog_scope.

(** the index has exactly the records of the table, and a record that the conditions hold of has a key that the
    index conditions hold of *)
Record indexes : Prop := {
  xs_linked : linked h ps (leaves ps n root);
  xs_rids : NoDup (entries ps n root).*2;
  xs_there : forall k r, (k, r) ∈ entries ps n root -> is_Some (RmP.rec_at pages r);
  xs_all : forall r x, RmP.rec_at pages r = Some x -> exists k, (k, r) ∈ entries ps n root;
  xs_covers : forall kr, kr ∈ entries ps n root -> holds kr = true -> ~ fails h idx kr.1;
  xs_one : one_column h idx;
}.

(** a scan can be made and run *)
Record can_scan (w : World) : Prop := {
  cs_serves : serves w;
  cs_reader : CoreP.reader p t0 fds (sm_core w);
  cs_fd : fd_ hf ∈ fds;
  cs_db : writer (db_latch_ w) = false;
  cs_sm : writer (sm_latch_ w) = false;
  cs_meta : Meta.get_table (db_ w) tab_name = inr tab;
  cs_index : exists im, Meta.get_index_meta tab names = inr im /\ im_col_tot_len im = col_tot_len_ h;
  cs_last : is_Some (last (tm_cols tab));
  cs_lhs : forallb (fun c : QCond => String.eqb (Pln.lhs_tab c) tab_name) conds = true;
  cs_conds : forallb (Cond.scan_ok (tm_cols tab) (record_size (file_hdr_ hf))) conds.*1 = true;
  cs_height : (n <= ifuel)%nat;
}.

Lemma quiet_calm {S} {PS : PageStore S} {PL : PageStoreLaws S} (s s' : S) : ps_inv s -> RmP.quiet s s' -> RmP.calm s s'.
Proof. intros Hi []. split; auto. Qed.

Lemma ix_make_eq rid0 key0 w : can_scan w -> exists e, IxEx.make rid0 key0 tab_name conds idx names p w = (Ok e, w) /\
  shaped tab_name iname conds.*1 tab e /\ isx_idx_conds_ e = idx /\ isx_key_ e = key0 (col_tot_len_ h) /\ isx_txn_ e = p.
Proof.
  intros []. destruct cs_index0 as (im & Him & Hlen), cs_last0 as [c Hlast]. eexists. split.
  - unfold IxEx.make. rewrite (bind_ok _ _ _ _ _ (SmSt.read_table_ok tab_name tab w cs_db0 cs_meta0)). unfold SmSt.of_sum. rewrite Him, (bind_ok (ret im) _ w im w eq_refl).
    rewrite (bind_ok _ _ _ _ _ (SmSt.read_fh_ok tab_name hf w cs_sm0 (sv_fh _ _ _ _ _ _ _ _ _ _ cs_serves0))). rewrite Hlast. unfold deref. rewrite (bind_ok (ret c) _ w c w eq_refl).
    rewrite cs_lhs0. reflexivity.
  - split; [done|]. by rewrite Hlen.
Qed.

Lemma find_ih_eq (e : IndexScanExecutor) w : serves w -> writer (sm_latch_ w) = false ->
  IxEx.world (SmSt.latch_shared;; let* i := SmSt.ih_at iname in SmSt.unlatch_shared;; ret i) (e, w) = (Ok iname, (e, w)).
Proof.
  intros Hw Hl. apply (zoom_eq snd (fun (s : World) (t : IndexScanExecutor * World) => (t.1, s)) _ (e, w)). cbn [snd]. pose proof (sv_ih _ _ _ _ _ _ _ _ _ _ Hw) as Hih.
  destruct w as [c d l f ih [r wr]]. simpl in *. subst wr. unfold SmSt.latch_shared, SmSt.try_mutex, SmSt.lock_shared, SmSt.ih_at, SmSt.unlatch_shared, gets, modify, bind. simpl.
  rewrite Hih. simpl. unfold ret, SmSt.set_sm_latch, SmSt.unlock_shared. simpl. by rewrite Z.add_simpl_r.
Qed.

Lemma lock_eq (e : IndexScanExecutor) w : can_scan w ->
  exists c, IxEx.world (SmSt.on_core (Q.lock p (fd_ hf))) (e, w) = (Ok true, (e, SmSt.set_core c w)) /\ RmP.calm (sm_core w) c.
Proof.
  intros []. destruct (CoreP.core_lock_quietly p t0 fds (fd_ hf) cs_fd0 (sm_core w) cs_reader0) as (b & c & E & Hq & _ & ->). exists c.
  split; [|apply quiet_calm; [apply cs_serves0|done]].
  apply (zoom_eq snd (fun (s : World) (t : IndexScanExecutor * World) => (t.1, s)) _ (e, w)). cbn [snd]. exact (zoom_eq sm_core SmSt.set_core _ w _ _ E).
Qed.

Lemma sorted_nodup {A} (R : A -> A -> Prop) (l : list A) : (forall x, ~ R x x) -> StronglySorted R l -> NoDup l.
Proof. intros Hirr. induction 1 as [|x l _ IH Hx]; constructor; [|done]. rewrite Forall_forall in Hx. intros Hin. by apply (Hirr x), Hx. Qed.
Lemma filter_none {A} (f : A -> bool) (l : list A) : (forall x, x ∈ l -> f x = false) -> List.filter f l = [].
Proof. induction l as [|x l IH]; intros Hf; [done|]. cbn [List.filter]. rewrite (Hf x) by left. apply IH. intros y Hy. apply Hf. by right. Qed.

Lemma readable_entry w kr : can_scan w -> indexes -> kr ∈ entries ps n root -> readable pages conds.*1 tab kr.
Proof.
  intros Hcs Hix Hin. destruct kr as [k r]. destruct (xs_there Hix k r Hin) as [x Hx]. unfold readable, row. cbn [snd]. rewrite Hx. cbn [default]. split; [done|].
  destruct (Cond.test_conds_ok (tm_cols tab) (record_size (file_hdr_ hf)) conds.*1 x (cs_conds _ Hcs)
    (rec_at_len hf pages chain _ r x (sv_rep _ _ _ _ _ _ _ _ _ _ (cs_serves _ Hcs)) Hx)) as [b Hb]. by exists b.
Qed.

(** the entries between the bounds are the ones that the conditions can hold of *)
Lemma spans_mid w lower upper : can_scan w -> indexes -> spans h ps n idx lower upper ->
  exists i c i' c' mid, at_pos ps (leaves ps n root) lower i c /\ at_pos ps (leaves ps n root) upper i' c' /\
    from ps (leaves ps n root) i c = mid ++ from ps (leaves ps n root) i' c' /\
    List.filter holds mid = List.filter holds (entries ps n root) /\ Forall (readable pages conds.*1 tab) mid /\ (length mid <= length (entries ps n root))%nat.
Proof.
  intros Hcs Hix (b1 & b2 & C1 & C2 & Himp & F1 & F2). destruct (range_mid h ps n b1 b2 lower upper C1 C2 Himp) as (i & c & i' & c' & pre & mid & post & A1 & A2 & Ef & Ee & P1 & P2).
  assert (Hout : forall kr, kr ∈ entries ps n root -> fails h idx kr.1 -> holds kr = false).
  { intros kr Hin Hfl. destruct (holds kr) eqn:Eh; [|done]. by destruct (xs_covers Hix kr Hin Eh). }
  assert (Hsub : forall kr, kr ∈ pre \/ kr ∈ mid \/ kr ∈ post -> kr ∈ entries ps n root) by (intros kr; rewrite Ee, !elem_of_app; tauto).
  exists i, c, i', c', mid. split; [done|]. split; [done|]. split; [done|]. split; [|split].
  - rewrite Ee, !List.filter_app, (filter_none _ pre), (filter_none _ post), app_nil_r; [done| |]; intros kr Hkr; apply Hout; auto.
  - apply Forall_forall. intros kr Hkr. apply (readable_entry w); auto.
  - rewrite Ee, !length_app. lia.
Qed.

Lemma begin_tuple_runs (e : IndexScanExecutor) w : can_scan w -> indexes -> (length (entries ps n root) < rfuel)%nat ->
  shaped tab_name iname conds.*1 tab e -> isx_idx_conds_ e = idx -> zlen (isx_key_ e) = col_tot_len_ h -> isx_txn_ e = p ->
  runs (IxEx.begin_tuple Q.lock ifuel rfuel) (e, w) (fun _ t => exists mid, settled h tab_name iname hf pages chain hi ps n conds.*1 tab t.1 t.2 mid /\
    List.filter holds mid = List.filter holds (entries ps n root) /\ Forall (readable pages conds.*1 tab) mid /\ (length mid <= length (entries ps n root))%nat).
Proof.
  intros Hcs Hix Hf Hsh Hidx Hkey Htxn. pose proof Hsh as (S1 & S2 & S3 & S4). pose proof (xs_linked Hix) as Hl. pose proof (cs_serves _ Hcs) as Hw.
  unfold IxEx.begin_tuple. rstep. cbn [fst]. rewrite S1, S2, Hidx, Htxn.
  eapply runs_bind_eq; [apply (zoom_eq snd (fun (s : World) (t : IndexScanExecutor * World) => (t.1, s)) _ (e, w)); cbn [snd]; exact (ScanP.on_file_eq tab_name Rm.get_fd w hf (fd_ hf) (sm_core w) (sv_fh _ _ _ _ _ _ _ _ _ _ Hw) eq_refl)|].
  cbn [fst]. replace (SmSt.set_core (sm_core w) w) with w by (by destruct w).
  destruct (lock_eq e w Hcs) as (c0 & El & Hc0). eapply runs_bind_eq; [exact El|]. cbn [negb]. pose proof (serving_calm _ _ _ _ _ _ _ _ _ w c0 Hw Hc0) as Hw0.
  eapply runs_bind_eq; [apply (find_ih_eq e _ Hw0), (cs_sm _ Hcs)|].
  eapply runs_bind; [apply (on_index_runs h tab_name iname hf pages chain hi ps n _ e _ (fun r => spans h ps n idx r.1.1 r.1.2) Hw0)|].
  { eapply runs_conseq; [apply (scan_bounds_runs h Hg Hc (oc_one _ _ (xs_one Hix)) ifuel _ _ ps n idx _ (sv_ix _ _ _ _ _ _ _ _ _ _ Hw0) Hl (cs_height _ Hcs) (xs_one Hix) Hkey)|].
    intros r t (s' & -> & Hcalm & Hsp). split; [done|]. by exists s'. }
  intros [[lo up] key] t (Hsp & s1 & -> & Hw1). destruct (spans_mid w lo up Hcs Hix Hsp) as (i & c & i' & c' & mid & A1 & A2 & Ef & Hsel & Hok & Hle).
  unfold IxEx.upd. rstep. eapply runs_bind; [apply (on_index_runs h tab_name iname hf pages chain hi ps n _ _ _ (fun sc => scanning h ps n sc mid /\ scan_iid sc = lo) Hw1)|].
  { eapply runs_conseq; [apply (range_begin_runs h _ _ ps n lo up i c i' c' mid (sv_ix _ _ _ _ _ _ _ _ _ _ Hw1) Hl A1 A2 Ef)|]. intros sc t (H1 & H2 & s' & -> & Hcalm). split; [done|]. by exists s'. }
  intros sc t ([Hsc Hlo] & s2 & -> & Hw2). rstep. eapply runs_bind; [apply (on_index_runs h tab_name iname hf pages chain hi ps n _ _ _ (fun _ => True) Hw2)|].
  { unfold IxSc.rid. rewrite Hlo. eapply runs_conseq; [apply (get_rid_runs h Hg _ _ ps n lo i c (sv_ix _ _ _ _ _ _ _ _ _ _ Hw2) A1)|]. intros r t (_ & s' & -> & Hcalm). split; [done|]. by exists s'. }
  intros r t (_ & s3 & -> & Hw3).
  eapply runs_conseq; [apply (seek_runs h Hg tab_name iname hf pages chain hi ps n Hl conds.*1 tab rfuel _ _ sc mid)|]; try done; [lia|].
  intros [] t (mid' & Hset & Hsel' & Hok' & Hle'). exists mid'. split; [done|]. split; [by rewrite <- Hsel'|]. split; [done|lia].
Qed.

Lemma scan_runs (e : IndexScanExecutor) w fuel : can_scan w -> indexes -> (length (entries ps n root) < rfuel)%nat -> (length (entries ps n root) < fuel)%nat ->
  shaped tab_name iname conds.*1 tab e -> isx_idx_conds_ e = idx -> zlen (isx_key_ e) = col_tot_len_ h -> isx_txn_ e = p ->
  runs (all_tuples (X:=IxEx.exec Q.lock ifuel rfuel) fuel) (e, w) (fun l t => l = rec_of <$> (rows_of <$> List.filter holds (entries ps n root)) /\ serves t.2).
Proof.
  intros Hcs Hix Hr Hf Hsh Hidx Hkey Htxn. unfold all_tuples. cbn [beginTuple IxEx.exec].
  eapply runs_bind; [by apply begin_tuple_runs|]. intros [] [e1 w1] (mid & Hset & Hsel & Hok & Hle). cbn [fst snd] in *.
  eapply runs_bind; [apply (rest_runs h Hg Q.lock ifuel rfuel tab_name iname hf pages chain hi ps n (xs_linked Hix) conds.*1 tab fuel e1 w1 mid [] Hset Hok); lia|].
  intros l t [-> Ht]. rstep. split; [|done]. by rewrite app_nil_r, rev_involutive, Hsel.
Qed.
End run.

(** ** An index on an integer column *)

Section int.
Context (h : IxFileHdr) (Hg : geo h) (Hc : cols h).
Context (tab : TabMeta) (pages : gmap Z apage) (ps : gmap Z anode) (n : nat) (conds idx : list QCond) (c : ColMeta).
Abbreviation root := (root_page_ h).
Abbreviation value x := (dec_i32 (slice (cm_offset c) 4 x)).

(** the index has the column [c] as its key and one entry for each record; the index conditions are among the conditions
    and compare this column with numbers, one of them for equality or all of them for an inequality *)
Record int_index : Prop := {
  ii_types : col_types_ h = [TYPE_INT];
  ii_lens : col_lens_ h = [4];
  ii_tot : col_tot_len_ h = 4;
  ii_linked : linked h ps (leaves ps n root);
  ii_col : Meta.find_col (tm_cols tab) (cm_name c) = Some c;
  ii_int : cm_type c = TYPE_INT;
  ii_keys : forall k r, (k, r) ∈ entries ps n root <-> exists x, RmP.rec_at pages r = Some x /\ k = slice (cm_offset c) 4 x;
  ii_conds : forall q, q ∈ idx -> q ∈ conds /\ is_rhs_val q.1 = true /\ tc_col_name (lhs_col q.1) = cm_name c /\
    exists v, int32_ok v /\ rhs_val q.1 = VInt v /\ q.2 = Some (enc_i32 v);
  ii_shape : (exists q, idx = [q] /\ cond_op q.1 = OP_EQ) \/ (idx <> [] /\ forall q, q ∈ idx -> cond_op q.1 <> OP_EQ);
}.
Context (Hii : int_index).

Lemma int_kv k : zlen k = 4 -> kv h k = [dec_i32 k].
Proof. intros Hk. unfold kv. rewrite (ii_types Hii), (ii_lens Hii). simpl. assert (E : slice 0 4 k = k) by (rewrite <- Hk at 1; apply slice_full). by rewrite !E. Qed.
Lemma enc_kv v : int32_ok v -> kv h (enc_i32 v) = [v].
Proof. intros Hv. rewrite int_kv by apply zlen_enc_i32. by rewrite dec_enc_i32. Qed.

Lemma cmp_int op a b : cmp_ok op (IxKey.lex [a] [b]) = Val.apply_op op (VInt a) (VInt b).
Proof. simpl. destruct op; simpl; unfold Val.ne, Val.le, Val.ge; simpl; destruct (Z.compare_spec a b), (Z.eqb_spec a b), (Z.ltb_spec a b), (Z.ltb_spec b a); try done; lia. Qed.

(** the records on which the conditions hold satisfy each of them *)
Lemma tests_each (cs : list Condition) cl x q : holds_scan cs cl x = true -> q ∈ cs -> Val.test_record q cl x tt = (Ok true, tt).
Proof.
  unfold holds_scan. induction cs as [|q' cs IH]; intros Hh Hq; [by apply not_elem_of_nil in Hq|]. cbn [Scan.test_conds] in Hh. unfold bind in Hh at 1.
  destruct (Val.test_record q' cl x tt) as [[b|?|?] []] eqn:E; [|done|done]. destruct b; [|done]. apply elem_of_cons in Hq as [->|Hq]; [done|by apply IH].
Qed.

Lemma test_int q x v : is_rhs_val q = true -> tc_col_name (lhs_col q) = cm_name c -> rhs_val q = VInt v ->
  Val.test_record q (tm_cols tab) x tt = (Ok true, tt) -> Val.apply_op (cond_op q) (VInt (value x)) (VInt v) = true /\ zlen (slice (cm_offset c) 4 x) = 4.
Proof.
  intros Hv Hn Hr. unfold Val.test_record, Meta.find_from_cols. rewrite Hn, (ii_col Hii), Hv, Hr. unfold Val.read_from_record, Val.lift_sum, bind, ret. cbv beta iota. rewrite (ii_int Hii). unfold Val.load, mload.
  destruct (in_range (cm_offset c) 4 (zlen x)) eqn:Hin; [|done]. simpl. intros [= E]. split; [done|]. apply in_range_spec in Hin. apply zlen_slice; lia.
Qed.

(** a record on which the conditions hold has its key in the range *)
Lemma int_covers k r : (k, r) ∈ entries ps n root -> sat pages conds.*1 tab (k, r) = true -> ~ fails h idx k.
Proof.
  intros Hin Hs (q & rw & Hq & Hrw & Hf). apply (ii_keys Hii) in Hin as (x & Hx & ->). destruct (ii_conds Hii q Hq) as (Hqc & Hv & Hn & v & Hok & Hr & Hraw).
  rewrite Hraw in Hrw. injection Hrw as <-. unfold sat, row in Hs. cbn [snd] in Hs. rewrite Hx in Hs. cbn [default] in Hs.
  destruct (test_int q.1 x v Hv Hn Hr) as [Ha Hz]; [eapply tests_each; [exact Hs|by apply list_elem_of_fmap_2]|].
  rewrite int_kv, enc_kv, cmp_int in Hf by done. congruence.
Qed.

Lemma int_one_column : one_column h idx.
Proof.
  split; [by rewrite (ii_types Hii)| |exact (ii_shape Hii)|].
  - intros q Hq. destruct (ii_conds Hii q Hq) as (_ & _ & _ & v & _ & _ & Hraw). exists (enc_i32 v). split; [done|]. split; [by rewrite (ii_tot Hii), zlen_enc_i32|].
    split; [apply enc_i32_ok|]. rewrite (ii_types Hii), (ii_lens Hii). simpl. rewrite zlen_enc_i32. done.
  - intros q q' rw rw' Hq Hq' Hrw Hrw'. destruct (ii_conds Hii q Hq) as (_ & _ & _ & v & Hok & Hr & Hraw), (ii_conds Hii q' Hq') as (_ & _ & _ & v' & Hok' & Hr' & Hraw').
    assert (rw = enc_i32 v) as -> by congruence. assert (rw' = enc_i32 v') as -> by congruence. rewrite !enc_kv, Hr, Hr' by done. simpl.
    destruct (Z.compare_spec v v'); split; try done; intros _; [by apply Z.eqb_eq|by apply Z.ltb_lt].
Qed.

Lemma ordered_filter f l : ordered h l -> ordered h (List.filter f l).
Proof.
  induction l as [|a l IH]; intros Ho; [by intros i j ? ? _ ?|]. assert (Hl : ordered h l) by (intros i j x y Hij Hx Hy; by apply (Ho (S i) (S j)); [lia|..]).
  cbn [List.filter]. destruct (f a); [|by apply IH]. apply (ordered_app h [a]); [intros i j x y Hij Hx Hy; apply lookup_lt_Some in Hy; simpl in Hy; lia|by apply IH|].
  intros x y ->%list_elem_of_singleton Hy. rewrite list_elem_of_In, List.filter_In, <- list_elem_of_In in Hy. destruct Hy as [Hy _]. apply list_elem_of_lookup in Hy as [j Hj].
  by apply (Ho 0%nat (S j)); [lia|..].
Qed.

(** no record has two entries *)
Lemma rids_nodup : ordered h (entries ps n root) -> NoDup (entries ps n root).*2.
Proof.
  intros Ho. apply NoDup_alt. intros i j r Hi Hj. apply list_lookup_fmap_Some in Hi as ([k r1] & -> & Hi), Hj as ([k' r2] & Er & Hj). simpl in Er. subst r2.
  assert (k = k') as <-.
  { apply list_elem_of_lookup_2 in Hi, Hj. apply (ii_keys Hii) in Hi as (x & Hx & ->), Hj as (x' & Hx' & ->). congruence. }
  assert (Hirr : ~ klt h k k) by (unfold klt; by rewrite IxKey.lex_refl). destruct (Nat.lt_trichotomy i j) as [Hlt|[->|Hlt]]; [|done|].
  - destruct Hirr. exact (Ho i j _ _ Hlt Hi Hj).
  - destruct Hirr. exact (Ho j i _ _ Hlt Hj Hi).
Qed.

Lemma int_indexes : ordered h (entries ps n root) -> indexes h tab pages ps n conds idx.
Proof.
  intros Ho. split; [exact (ii_linked Hii)|by apply rids_nodup| | |intros [k r]; apply int_covers|exact int_one_column].
  - intros k r (x & Hx & _)%(ii_keys Hii). by exists x.
  - intros r x Hx. exists (slice (cm_offset c) 4 x). apply (ii_keys Hii). by exists x.
Qed.

(** the entries selected, as the records of a table *)
Definition pick : list (Rid * list Z) := (fun kr => (kr.2, row pages kr)) <$> List.filter (sat pages conds.*1 tab) (entries ps n root).

Lemma elem_of_pick rid x : (rid, x) ∈ pick <-> RmP.rec_at pages rid = Some x /\ holds_scan conds.*1 (tm_cols tab) x = true.
Proof.
  unfold pick. rewrite list_elem_of_fmap. setoid_rewrite list_elem_of_In. setoid_rewrite List.filter_In. setoid_rewrite <- list_elem_of_In. unfold sat, row. split.
  - intros ([k r] & [= -> ->] & Hin & Hs). apply (ii_keys Hii) in Hin as (y & Hy & _). cbn [snd] in *. by rewrite Hy in *.
  - intros [Hx Hh]. exists (slice (cm_offset c) 4 x, rid). cbn [snd]. rewrite Hx. split; [done|]. split; [|done]. apply (ii_keys Hii). by exists x.
Qed.

Lemma pick_sorted : ordered h (entries ps n root) -> Forall (fun k => zlen k = 4) (entries ps n root).*1 -> StronglySorted Z.lt ((fun r => value r.2) <$> pick).
Proof.
  intros Ho%(ordered_filter (sat pages conds.*1 tab)) Hz. unfold pick. rewrite <- list_fmap_compose.
  assert (Hin : forall kr, kr ∈ List.filter (sat pages conds.*1 tab) (entries ps n root) -> kv h kr.1 = [value (row pages kr)]).
  { intros [k r]. rewrite list_elem_of_In, List.filter_In, <- list_elem_of_In. intros [Hkr _]. pose proof Hkr as Hkr'. apply (ii_keys Hii) in Hkr as (x & Hx & ->).
    unfold row. cbn [fst snd]. rewrite Hx. cbn [default]. apply int_kv. rewrite Forall_forall in Hz. apply Hz. exact (list_elem_of_fmap_2 fst _ _ Hkr'). }
  induction (List.filter _ _) as [|a l IH]; [constructor|]. rewrite fmap_cons. constructor.
  - apply IH; [|intros kr Hkr; apply Hin; by right]. intros i j x y Hij Hx Hy. by apply (Ho (S i) (S j)); [lia|..].
  - apply Forall_fmap, Forall_forall. intros b Hb. simpl. pose proof Hb as Hb'. apply list_elem_of_lookup in Hb' as [j Hj]. pose proof (Ho 0%nat (S j) a b ltac:(lia) eq_refl Hj) as Hlt.
    unfold elt, klt in Hlt. rewrite (Hin a ltac:(left)), (Hin b ltac:(by right)) in Hlt. simpl in Hlt. by destruct (Z.compare_spec (value (row pages a)) (value (row pages b))).
Qed.

Lemma pick_nodup : ordered h (entries ps n root) -> Forall (fun k => zlen k = 4) (entries ps n root).*1 -> NoDup pick.
Proof. intros Ho Hz. apply (NoDup_fmap_1 (fun r : Rid * list Z => value r.2)), (sorted_nodup Z.lt), pick_sorted; [apply Z.lt_irrefl|done..]. Qed.

Lemma pick_matching {S} {PS : PageStore S} {PL : PageStoreLaws S} (s : S) hf chain : RmP.rep any s hf pages chain ->
  ordered h (entries ps n root) -> Forall (fun k => zlen k = 4) (entries ps n root).*1 -> pick.*2 ≡ₚ matching conds.*1 tab hf pages.
Proof.
  intros Hrep Ho Hz. unfold matching. apply fmap_Permutation, NoDup_Permutation; [by apply pick_nodup| |].
  - apply NoDup_ListNoDup, List.NoDup_filter, NoDup_ListNoDup, (NoDup_fmap_1 fst), (sorted_nodup rid_lt), ScanP.sorted_table_rows. intros r. unfold rid_lt, RmP.rid_le. lia.
  - intros [rid x]. rewrite elem_of_pick, list_elem_of_In, List.filter_In, <- list_elem_of_In. unfold ScanP.all_rows. rewrite ScanP.elem_of_table_rows. cbn [snd].
    split; [|tauto]. intros [Hx Hh]. destruct (RmP.has_rec_bounds _ _ _ _ _ rid Hrep ltac:(by exists x)) as [? [? ?]]. split_and!; (lia || done).
Qed.
End int.
End IxR.

(** ** The property *)


(** ** An instance: a table with the rows (5, 1) and (12, 2), an index on its first column, and [t.a >= 6] *)

Definition two_disk : Disk := fold_left (fun d op => disk_run op d) [DCreate "t"; DOpen "t"; DCreate "ta.idx"; DOpen "ta.idx"] Dsk.empty.
Definition two_store : Store := mkStore (Dsk.set_pageno (fun m => <[4 := 1]> (<[3 := 1]> m)) two_disk) (Bpm.make 0 4).
Definition row5 : list Z := enc_i32 5 ++ enc_i32 1.
Definition row12 : list Z := enc_i32 12 ++ enc_i32 2.
Definition two_handle : RmFileHandle := mkRmFileHandle 3 (Rm.set_first_free 1 (Rm.set_num_pages 2 (Rm.init_file_hdr 8))).
Definition two_recs : gmap Z (list Z) := <[1 := row12]> {[0 := row5]}.
Definition two_pages : gmap Z apage := {[1 := mkApage two_recs (-1)]}.
Definition two_bytes : list Z :=
  fill_bytes (file_hdr_ two_handle) 1 row12 (fill_bytes (file_hdr_ two_handle) 0 row5 RmP.fresh_bytes).
Definition two_node : anode := mkANode IX_NO_PAGE true IX_NO_PAGE IX_NO_PAGE [enc_i32 5; enc_i32 12] [mkRid 1 0; mkRid 1 1].
Definition two_leaf : list Z :=
  splice 1380 (Log.enc_Rid (mkRid 1 0) ++ Log.enc_Rid (mkRid 1 1)) (splice 24 (enc_i32 5 ++ enc_i32 12)
    (splice 0 (enc_i32 IX_NO_PAGE ++ enc_i32 IX_NO_PAGE ++ enc_i32 2 ++ enc_i32 1 ++ enc_i32 IX_NO_PAGE ++ enc_i32 IX_NO_PAGE) (zeros PAGE_SIZE))).
Definition two_tree : gmap Z anode := {[1 := two_node]}.
Definition two_index : IxIndexHandle := mkIxIndexHandle 4 demo_ix.

Lemma two_hdr_ok : hdr_ok (file_hdr_ two_handle).
Proof. apply (RmP.hdr_ok_same (file_hdr_ demo_handle)); try done. Qed.

Lemma two_page_rep : page_rep (file_hdr_ two_handle) (mkApage two_recs (-1)) two_bytes.
Proof.
  refine (page_rep_fill (file_hdr_ two_handle) two_hdr_ok (mkApage {[0 := row5]} (-1)) (fill_bytes (file_hdr_ two_handle) 0 row5 RmP.fresh_bytes) 1 row12 _ _ _ _); [|by vm_compute|done|by vm_compute].
  refine (page_rep_fill (file_hdr_ two_handle) two_hdr_ok (mkApage ∅ (-1)) RmP.fresh_bytes 0 row5 _ _ _ _); [|by vm_compute|done|by vm_compute].
  apply RmP.fresh_page_rep, two_hdr_ok.
Qed.

Lemma two_nrep : nrep demo_ix two_node two_leaf.
Proof.
  split.
  1-6: vm_compute; reflexivity.
  - intros i k Hi. destruct i as [|[|]]; [| |done]; injection Hi as <-; vm_compute; reflexivity.
  - intros i k Hi. destruct i as [|[|]]; [| |done]; injection Hi as <-; vm_compute; reflexivity.
  - vm_compute. discriminate.
  - done.
Qed.

Lemma two_sorted : sorted demo_ix (an_keys two_node).
Proof.
  split; [do 2 (constructor; [apply demo_key|]); constructor|]. intros i j a b Hij Ha Hb. destruct i as [|[|]], j as [|[|]]; try lia; try done.
  injection Ha as <-. injection Hb as <-. by vm_compute.
Qed.

Lemma names_framed F : RmP.framed (fun s : Store => Fr.names s = F).
Proof.
  split; simpl.
  - intros k s r s' E <-. by rewrite <- (Fr.frame_fetch_page k s), E.
  - intros k d s r s' E <-. by rewrite <- (Fr.frame_unpin_page k d s), E.
  - intros f s r s' E <-. by rewrite <- (Fr.frame_new_page f s), E.
  - intros k s r s' E <-. by rewrite <- (Fr.frame_delete_page k s), E.
  - intros f off w s r s' E <-. by rewrite <- (Fr.frame_write_frame f off w s), E.
Qed.

Lemma two_files : exists s : Store, RmP.rep any s two_handle two_pages [1] /\ irep demo_ix s two_index two_tree 0 /\
  ps_file s 4 /\ ps_room s = 4 /\ ps_npages s 4 = 2 /\ Fr.names s = Fr.names two_store.
Proof.
  assert (I0 : ps_inv two_store).
  { apply binv_make. assert (Dsk.dinv two_disk) as [] by (do 2 apply Dsk.dinv_open_file, Dsk.dinv_create_file; by constructor). by split. }
  destruct (put_page_framed _ (names_framed (Fr.names two_store)) two_store 3 two_bytes I0) as (s1 & I1 & O1 & P1 & N1 & R1 & K1 & F1 & C1); [split; [exists "t"; vm_compute; reflexivity|by unfold MAX_FD]|by vm_compute|by vm_compute|apply two_page_rep|done|].
  change (ps_npages two_store 3) with 1 in *. change (ps_room two_store) with 4 in *.
  assert (Hn4 : ps_npages s1 4 = 1) by (by rewrite K1).
  destruct (put_page_framed _ (names_framed (Fr.names two_store)) s1 4 two_leaf I1) as (s2 & I2 & O2 & P2 & N2 & R2 & K2 & F2 & C2); [apply F1; split; [exists "ta.idx"; vm_compute; reflexivity|by unfold MAX_FD]|by rewrite Hn4|lia|apply two_nrep|done|].
  rewrite Hn4 in *. exists s2. split; [|split; [apply (irep_leaf s2 demo_ix 4 two_node two_leaf); try done; [lia|apply two_nrep|apply two_sorted]|]].
  2: { split; [apply F2, F1; split; [exists "ta.idx"; vm_compute; reflexivity|by unfold MAX_FD]|]. split; [lia|]. split; [by rewrite K2|done]. }
  assert (Hone : forall i ap, two_pages !! i = Some ap -> i = 1 /\ ap = mkApage two_recs (-1)) by (intros i ap; unfold two_pages; rewrite lookup_singleton_Some; by intros [<- <-]).
  split; try done.
  - apply F2, F1. split; [exists "t"; vm_compute; reflexivity|by unfold MAX_FD].
  - by rewrite K2, K1.
  - intros i. split; [intros [ap [-> _]%Hone]; by vm_compute|]. intros Hi. assert (i = 1) as -> by (change (num_pages (file_hdr_ two_handle)) with 2 in Hi; lia). by eexists.
  - intros i ap [-> ->]%Hone. exists two_bytes. split; [by apply (ot_page _ _ _ _ _ _ _ O2)|]. split; [apply two_page_rep|]. by rewrite (ot_pins _ _ _ _ _ _ _ O2).
  - apply NoDup_singleton.
  - intros i. rewrite list_elem_of_singleton. split; [intros ->; by eexists|]. by intros (ap & [-> _]%Hone & _).
  - split; [|done]. by eexists.
  - lia.
Qed.

Definition two_col : ColMeta := mkColMeta "t" "a" TYPE_INT 4 0 true.
Definition two_tab : TabMeta := mkTabMeta "t" [two_col; mkColMeta "t" "b" TYPE_INT 4 4 false] [mkIndexMeta "t" 4 1 [two_col]].
Definition two_world (s : Store) : Q.World :=
  mkSmManager (mkCore s (LogM.make 0 0) demo_locks ∅) (mkDbMeta "db" [("t", two_tab)]) free_mutex {["t" := two_handle]}
    {[Meta.index_file_name "t" ["a"] := two_index]} free_mutex.
(** [t.a >= 6] *)
Definition two_cond : QCond := (mkCondition (demo_tabcol "a") OP_GE true (demo_tabcol "a") (VInt 6), Some (enc_i32 6)).

Lemma two_records r x : RmP.rec_at two_pages r = Some x <-> r = mkRid 1 0 /\ x = row5 \/ r = mkRid 1 1 /\ x = row12.
Proof.
  destruct r as [a b]. unfold RmP.rec_at, two_pages. simpl. destruct (decide (a = 1)) as [->|Ha].
  - rewrite lookup_singleton_eq. simpl. unfold two_recs. rewrite lookup_insert_Some, lookup_singleton_Some. split; [intros [[<- <-]|[_ [<- <-]]]; auto|].
    intros [[[= ->] ->]|[[= ->] ->]]; [right|left]; done.
  - rewrite lookup_singleton_ne by done. split; [done|]. intros [[[= ? ?] _]|[[= ? ?] _]]; congruence.
Qed.

Lemma two_int_index : IxR.int_index demo_ix two_tab two_pages two_tree 0 [two_cond] [two_cond] two_col.
Proof.
  assert (He : entries two_tree 0 (root_page_ demo_ix) = [(enc_i32 5, mkRid 1 0); (enc_i32 12, mkRid 1 1)]) by done.
  split; try done.
  - split; try done.
    + intros i p nd Hi Hnd. destruct i as [|i]; [|done]. injection Hi as <-. injection Hnd as <-. done.
    + intros i p Hi. destruct i; [|done]. injection Hi as <-. done.
    + apply NoDup_singleton.
    + intros Hin%list_elem_of_singleton. done.
  - intros k r. rewrite He, !elem_of_cons, elem_of_nil. setoid_rewrite two_records. split.
    + intros [[= -> ->]|[[= -> ->]|[]]]; [exists row5|exists row12]; (split; [auto|by vm_compute]).
    + intros (x & [[-> ->]|[-> ->]] & ->); [left|right; left]; by vm_compute.
  - intros q ->%list_elem_of_singleton. split; [left|]. split; [done|]. split; [done|]. exists 6. by vm_compute.
  - right. split; [done|]. by intros q ->%list_elem_of_singleton.
Qed.

Lemma two_can_scan s : RmP.rep any s two_handle two_pages [1] -> irep demo_ix s two_index two_tree 0 ->
  IxR.can_scan demo_ix 1 (demo_txn 1 GROWING) [3] 1 "t" ["a"] two_tab two_handle two_pages [1] two_index two_tree 0 [two_cond] (two_world s).
Proof.
  intros Hrep Hix. split; try reflexivity; try lia.
  - split; [apply lookup_singleton_eq|apply lookup_singleton_eq|by apply core_rep|]. destruct Hix. by split.
  - split; [apply demo_linv|]. split; [exists (demo_txn 1 GROWING); split; [by vm_compute|done]|]. split; [exists (demo_txn 1 GROWING); split; [by vm_compute|apply LkP.like_refl]|].
    intros fd _ q r. simpl. by rewrite lookup_empty.
  - by left.
  - by eexists.
  - by eexists.
Qed.

Lemma two_selected (l : list (Rid * list Z)) :
  (forall rid x, (rid, x) ∈ l <-> RmP.rec_at two_pages rid = Some x /\ holds_scan [two_cond.1] (tm_cols two_tab) x = true) ->
  StronglySorted Z.lt ((fun r => dec_i32 (slice (cm_offset two_col) 4 r.2)) <$> l) -> l = [(mkRid 1 1, row12)].
Proof.
  intros Hl Hs. assert (Hin : forall r, r ∈ l <-> r = (mkRid 1 1, row12)).
  { intros [rid x]. rewrite Hl, two_records. split.
    - intros [[[-> ->]|[-> ->]] Hh]; [vm_compute in Hh; discriminate|reflexivity].
    - intros [= -> ->]. split; [by right|by vm_compute]. }
  destruct l as [|a [|b l]]; [by pose proof (proj2 (Hin _) eq_refl) as Hn%not_elem_of_nil|by rewrite (proj1 (Hin a) ltac:(left))|].
  rewrite (proj1 (Hin a) ltac:(left)), (proj1 (Hin b) ltac:(right; left)) in Hs. apply StronglySorted_inv in Hs as [_ Hs]. apply Forall_inv in Hs. simpl in Hs. lia.
Qed.

