(* ===== verification/IxGrow.v ===== *)
(** Growing a B+ tree: what splitting a node does to the family of abstract nodes of a tree.

    [walk] collects something from every node of a tree, from left to right: its pages, its entries, the pages of one
    level, the pairs of a child and its parent.  A subtree can be replaced when the rest keeps its shape
    ([path_replace], [walk_replace]); splitting a node below its parent, or the root, are two instances. *)

From S2P Require Import Prelude Bytes Errors Disk Defs LogRecord.
From S2P Require Import IxDefs IxNode IxNodeProofs IxTree IxTreeProofs.
Import IxN IxT.

Module IxG.

Section walks.
Context (h : IxFileHdr) (Hc : cols h).

(** what the order of the keys depends on *)
Definition shape (nd : anode) : bool * list (list Z) * list Rid := (an_leaf nd, an_keys nd, an_rids nd).
Definition like_page (ps ps' : gmap Z anode) (p : Z) : Prop := shape <$> ps !! p = shape <$> ps' !! p.

Definition visit (A : Type) : Type := nat -> Z -> anode -> list A.
Class Shaped {A} (f : visit A) : Prop := shaped n pn nd nd' : shape nd = shape nd' -> f n pn nd = f n pn nd'.

Fixpoint walk {A} (f : visit A) (ps : gmap Z anode) (n : nat) (pn : Z) : list A :=
  match ps !! pn with
  | None => []
  | Some nd => f n pn nd ++ match n with O => [] | S n => concat ((fun r => walk f ps n (rid_page_no r)) <$> an_rids nd) end
  end.

Definition see_page : visit Z := fun _ pn _ => [pn].
Definition see_pairs : visit (list Z * Rid) := fun n _ nd => match n with O => zip (an_keys nd) (an_rids nd) | S _ => [] end.
Definition see_level (k : nat) : visit Z := fun n pn _ => if (n =? k)%nat then [pn] else [].
Definition see_kids : visit (Z * Z) := fun n pn nd => match n with O => [] | S _ => (fun r => (rid_page_no r, pn)) <$> an_rids nd end.
Abbreviation tpages := (walk see_page).
Abbreviation level k := (walk (see_level k)).
Abbreviation kids := (walk see_kids).

#[export] Instance page_shaped : Shaped see_page.
Proof. done. Qed.
#[export] Instance pairs_shaped : Shaped see_pairs.
Proof. intros n pn nd nd' [= H1 H2 H3]. unfold see_pairs. by rewrite H2, H3. Qed.
#[export] Instance level_shaped k : Shaped (see_level k).
Proof. done. Qed.
#[export] Instance kids_shaped : Shaped see_kids.
Proof. intros n pn nd nd' [= H1 H2 H3]. unfold see_kids. by rewrite H3. Qed.

(** the walks over the children of a node *)
Definition below {A} (f : visit A) (ps : gmap Z anode) (n : nat) (rs : list Rid) : list A := concat ((fun r => walk f ps n (rid_page_no r)) <$> rs).
Lemma below_app {A} (f : visit A) ps n rs rs' : below f ps n (rs ++ rs') = below f ps n rs ++ below f ps n rs'.
Proof. unfold below. by rewrite fmap_app, concat_app. Qed.
Lemma below_cons {A} (f : visit A) ps n r rs : below f ps n (r :: rs) = walk f ps n (rid_page_no r) ++ below f ps n rs.
Proof. done. Qed.
Lemma below_split {A} (f : visit A) ps n rs m r : rs !! m = Some r -> below f ps n rs = below f ps n (take m rs) ++ walk f ps n (rid_page_no r) ++ below f ps n (drop (S m) rs).
Proof. intros Hr. by rewrite <- (take_drop_middle rs m r Hr) at 1; rewrite below_app, below_cons. Qed.
Lemma walk_S {A} (f : visit A) ps n pn nd : ps !! pn = Some nd -> walk f ps (S n) pn = f (S n) pn nd ++ below f ps n (an_rids nd).
Proof. intros Hnd. simpl. by rewrite Hnd. Qed.

Lemma entries_walk ps n pn : entries ps n pn = walk see_pairs ps n pn.
Proof.
  revert pn. induction n as [|n IH]; intros pn; simpl; destruct (ps !! pn) as [nd|]; try done; [by rewrite app_nil_r|]. f_equal. apply list_fmap_ext. intros i r _. apply IH.
Qed.
Lemma pages_walk ps n pn lo hi : sub h ps n pn lo hi -> pages_of ps n pn = tpages ps n pn.
Proof.
  revert pn lo hi. induction n as [|n IH]; intros pn lo hi (nd & Hnd & _ & _ & Hk); simpl; rewrite Hnd; [done|]. simpl. do 2 f_equal. apply list_fmap_ext. intros i r Hr. destruct Hk as (_ & _ & Hk). by eapply IH, Hk.
Qed.

Lemma below_elem {A} (f : visit A) ps n rs x : x ∈ below f ps n rs <-> exists i r, rs !! i = Some r /\ x ∈ walk f ps n (rid_page_no r).
Proof.
  induction rs as [|r rs IH]; [split; [by intros ?%not_elem_of_nil|by intros (i & r & ? & _)]|]. rewrite below_cons, elem_of_app, IH. split.
  - intros [Hx|(i & r' & Hr & Hx)]; [by exists 0%nat, r|by exists (S i), r'].
  - intros ([|i] & r' & Hr & Hx); simpl in Hr; [left; by injection Hr as ->|right; by exists i, r'].
Qed.

Lemma self_page ps n pn lo hi : sub h ps n pn lo hi -> pn ∈ tpages ps n pn.
Proof. destruct n; intros (nd & Hnd & _); simpl; rewrite Hnd; left. Qed.

Lemma tpages_S ps n pn nd p : ps !! pn = Some nd -> p ∈ tpages ps (S n) pn <-> p = pn \/ exists i r, an_rids nd !! i = Some r /\ p ∈ tpages ps n (rid_page_no r).
Proof. intros Hnd. rewrite (walk_S _ _ _ _ _ Hnd). unfold see_page at 1. by rewrite elem_of_app, list_elem_of_singleton, below_elem. Qed.

Lemma like_page_eq ps ps' p nd : ps !! p = Some nd -> like_page ps ps' p -> exists nd', ps' !! p = Some nd' /\ shape nd' = shape nd.
Proof. unfold like_page. intros ->. simpl. destruct (ps' !! p) as [nd'|]; [|done]. intros [= H1 H2 H3]. exists nd'. split; [done|]. unfold shape. congruence. Qed.

(** a tree whose pages keep their shape is the same tree *)
Lemma same_tree ps ps' n pn lo hi : sub h ps n pn lo hi -> (forall p, p ∈ tpages ps n pn -> like_page ps ps' p) ->
  sub h ps' n pn lo hi /\ forall A (f : visit A), Shaped f -> walk f ps' n pn = walk f ps n pn.
Proof.
  revert pn lo hi. induction n as [|n IH]; intros pn lo hi Hsub Hl; pose proof (self_page _ _ _ _ _ Hsub) as Hself; destruct Hsub as (nd & Hnd & Hs & Hin & Hk);
    destruct (like_page_eq _ _ _ _ Hnd (Hl pn Hself)) as (nd' & Hnd' & Hsh); pose proof Hsh as [= Hsl Hsk Hsr].
  - split; [exists nd'; by rewrite Hsl, Hsk, Hsr|]. intros A f Hf. simpl. by rewrite Hnd, Hnd', (Hf _ _ _ _ Hsh).
  - destruct Hk as (Hlf & Hlen & Hk).
    assert (Hch : forall i r, an_rids nd !! i = Some r -> sub h ps' n (rid_page_no r) (lo_of lo (an_keys nd) i) (hi_of hi (an_keys nd) i) /\
      forall A (f : visit A), Shaped f -> walk f ps' n (rid_page_no r) = walk f ps n (rid_page_no r)).
    { intros i r Hr. apply IH; [by apply Hk|]. intros p Hp. apply Hl. apply (tpages_S _ _ _ _ _ Hnd). right. by exists i, r. }
    split.
    + exists nd'. rewrite Hsl, Hsk, Hsr. split_and!; try done. intros i r Hr. by apply (Hch i r).
    + intros A f Hf. rewrite (walk_S _ _ _ _ _ Hnd), (walk_S _ _ _ _ _ Hnd'), (Hf _ _ _ _ Hsh), Hsr. f_equal. unfold below. f_equal. apply list_fmap_ext. intros i r Hr. by apply (Hch i r).
Qed.

(** ** Subtrees *)

(** [y] is a node of height [k] of the tree, with bounds [lo'] and [hi'] *)
Inductive path (ps : gmap Z anode) : nat -> Z -> option (list Z) -> option (list Z) -> nat -> Z -> option (list Z) -> option (list Z) -> Prop :=
  | path_here n pn lo hi : path ps n pn lo hi n pn lo hi
  | path_down n pn lo hi nd m r k y lo' hi' : ps !! pn = Some nd -> an_rids nd !! m = Some r ->
      path ps n (rid_page_no r) (lo_of lo (an_keys nd) m) (hi_of hi (an_keys nd) m) k y lo' hi' -> path ps (S n) pn lo hi k y lo' hi'.

Lemma path_sub ps n pn lo hi k y lo' hi' : path ps n pn lo hi k y lo' hi' -> sub h ps n pn lo hi -> sub h ps k y lo' hi'.
Proof.
  induction 1 as [|n pn lo hi nd m r k y lo' hi' Hnd Hr _ IH]; [done|]. intros (nd' & Hnd' & _ & _ & _ & _ & Hch). rewrite Hnd in Hnd'. injection Hnd' as <-. by apply IH, Hch.
Qed.
Lemma path_le ps n pn lo hi k y lo' hi' : path ps n pn lo hi k y lo' hi' -> (k <= n)%nat.
Proof. induction 1; lia. Qed.
Lemma path_pages ps n pn lo hi k y lo' hi' p : path ps n pn lo hi k y lo' hi' -> p ∈ tpages ps k y -> p ∈ tpages ps n pn.
Proof. induction 1 as [|n pn lo hi nd m r k y lo' hi' Hnd Hr _ IH]; [done|]. intros Hp. apply (tpages_S _ _ _ _ _ Hnd). right. exists m, r. auto. Qed.

(** the last step of a path *)
Lemma path_last ps n pn lo hi k y lo' hi' : path ps n pn lo hi k y lo' hi' -> k = n /\ y = pn /\ lo' = lo /\ hi' = hi \/
  exists z nd m r lo2 hi2, path ps n pn lo hi (S k) z lo2 hi2 /\ ps !! z = Some nd /\ an_rids nd !! m = Some r /\ rid_page_no r = y /\
    lo' = lo_of lo2 (an_keys nd) m /\ hi' = hi_of hi2 (an_keys nd) m.
Proof.
  induction 1 as [|n pn lo hi nd m r k y lo' hi' Hnd Hr Hp IH]; [by left|]. right. destruct IH as [(-> & -> & -> & ->)|(z & nd2 & m2 & r2 & lo2 & hi2 & Hp2 & H)].
  - exists pn, nd, m, r, lo, hi. split; [constructor|]. done.
  - exists z, nd2, m2, r2, lo2, hi2. split; [|done]. by eapply path_down.
Qed.

(** the children of a node have no pages in common *)
Lemma nodup_children ps n (rs : list Rid) i j r r' p : NoDup (below see_page ps n rs) -> rs !! i = Some r -> rs !! j = Some r' -> i <> j ->
  p ∈ tpages ps n (rid_page_no r) -> p ∉ tpages ps n (rid_page_no r').
Proof.
  assert (Hlt : forall i j r r', NoDup (below see_page ps n rs) -> rs !! i = Some r -> rs !! j = Some r' -> (i < j)%nat -> p ∈ tpages ps n (rid_page_no r) -> p ∈ tpages ps n (rid_page_no r') -> False).
  { clear i j r r'. intros i j r r' Hnd Hi Hj Hij Hp Hp'. rewrite <- (take_drop_middle rs i r Hi), below_app, below_cons in Hnd. apply NoDup_app in Hnd as (_ & _ & Hnd).
    apply NoDup_app in Hnd as (_ & Hd & _). apply (Hd p Hp). apply below_elem. exists (j - S i)%nat, r'. split; [|done]. rewrite lookup_drop. by replace (S i + (j - S i))%nat with j by lia. }
  intros Hnd Hi Hj Hij Hp Hp'. destruct (Nat.lt_trichotomy i j) as [?|[?|?]]; [by eapply (Hlt i j)|done|by eapply (Hlt j i)].
Qed.

(** a subtree is replaced by another with the same bounds *)
Lemma path_replace ps ps' n pn lo hi k y lo' hi' : path ps n pn lo hi k y lo' hi' -> sub h ps n pn lo hi -> NoDup (tpages ps n pn) ->
  (forall p, p ∈ tpages ps n pn -> p ∉ tpages ps k y -> like_page ps ps' p) -> sub h ps' k y lo' hi' ->
  sub h ps' n pn lo hi /\ path ps' n pn lo hi k y lo' hi' /\ forall A (f : visit A), Shaped f -> exists pre suf,
    walk f ps n pn = pre ++ walk f ps k y ++ suf /\ walk f ps' n pn = pre ++ walk f ps' k y ++ suf.
Proof.
  intros Hpath. induction Hpath as [n pn lo hi|n pn lo hi nd m r k y lo' hi' Hnd Hr Hpath IH]; intros Hsub Hdup Hl Hnew.
  { split; [done|]. split; [constructor|]. intros A f _. exists [], []. by rewrite !app_nil_r. }
  destruct Hsub as (nd0 & Hnd0 & Hs & Hin & Hlf & Hlen & Hch). rewrite Hnd in Hnd0. injection Hnd0 as <-.
  assert (Hup : forall p, p ∈ tpages ps k y -> p ∈ tpages ps n (rid_page_no r)) by (intros p; by eapply path_pages).
  rewrite (walk_S _ _ _ _ _ Hnd) in Hdup. apply NoDup_cons in Hdup as [Hpn Hdup].
  assert (Hself : like_page ps ps' pn). { apply Hl; [apply (tpages_S _ _ _ _ _ Hnd); by left|]. intros Hp%Hup. apply Hpn, below_elem. by exists m, r. }
  destruct (like_page_eq _ _ _ _ Hnd Hself) as (nd' & Hnd' & Hsh). pose proof Hsh as [= Hsl Hsk Hsr].
  destruct IH as (Hsub' & Hpath' & Hwalk); [by apply Hch| | |done|].
  { rewrite <- (take_drop_middle _ _ _ Hr), below_app, below_cons in Hdup. apply NoDup_app in Hdup as (_ & _ & Hdup). by apply NoDup_app in Hdup as (? & _). }
  { intros p Hp. apply Hl. apply (tpages_S _ _ _ _ _ Hnd). right. by exists m, r. }
  assert (Hother : forall i r', an_rids nd !! i = Some r' -> i <> m -> sub h ps' n (rid_page_no r') (lo_of lo (an_keys nd) i) (hi_of hi (an_keys nd) i) /\
      forall A (f : visit A), Shaped f -> walk f ps' n (rid_page_no r') = walk f ps n (rid_page_no r')).
  { intros i r' Hi Him. apply same_tree; [by apply Hch|]. intros p Hp. apply Hl; [apply (tpages_S _ _ _ _ _ Hnd); right; by exists i, r'|].
    intros Hp'%Hup. by apply (nodup_children ps n (an_rids nd) i m r' r p Hdup Hi Hr Him Hp). }
  split; [|split].
  - exists nd'. rewrite Hsl, Hsk, Hsr. split_and!; try done. intros i r' Hi. destruct (decide (i = m)) as [->|Him]; [rewrite Hr in Hi; by injection Hi as <-|by apply (Hother i r')].
  - eapply path_down; [exact Hnd'|by rewrite Hsr|]. by rewrite Hsk.
  - intros A f Hf. destruct (Hwalk A f Hf) as (pre & suf & E1 & E2).
    assert (Hrest : forall (l : list Rid) i0, (forall j r', l !! j = Some r' -> an_rids nd !! (i0 + j)%nat = Some r' /\ (i0 + j)%nat <> m) -> below f ps' n l = below f ps n l).
    { intros l i0 Hl0. unfold below. f_equal. apply list_fmap_ext. intros j r' Hj. destruct (Hl0 j r' Hj) as [Hj' Hjm]. by apply (Hother _ r' Hj' Hjm). }
    exists (f (S n) pn nd ++ below f ps n (take m (an_rids nd)) ++ pre), (suf ++ below f ps n (drop (S m) (an_rids nd))).
    rewrite (walk_S _ _ _ _ _ Hnd), (walk_S _ _ _ _ _ Hnd'), Hsr, (Hf _ _ _ _ Hsh), !(below_split _ _ _ _ _ _ Hr), E1, E2.
    rewrite (Hrest (take m _) 0%nat), (Hrest (drop (S m) _) (S m)), <- !app_assoc; [done|..].
    + intros j r' Hj. rewrite lookup_drop in Hj. split; [done|lia].
    + intros j r' Hj. apply lookup_take_Some in Hj as [? ?]. split; [done|lia].
Qed.

Lemma path_nodup ps n pn lo hi k y lo' hi' : path ps n pn lo hi k y lo' hi' -> sub h ps n pn lo hi -> NoDup (tpages ps n pn) -> NoDup (tpages ps k y).
Proof.
  intros Hp Hs Hd. destruct (path_replace ps ps n pn lo hi k y lo' hi' Hp Hs Hd) as (_ & _ & Hwk); [done|by eapply path_sub|].
  destruct (Hwk _ see_page _) as (pre & suf & E & _). rewrite E in Hd. apply NoDup_app in Hd as (_ & _ & Hd). by apply NoDup_app in Hd as (? & _).
Qed.

(** ** The two halves of a node *)

(** the first pair that moves to the new node; the key at [c] of an internal node goes up *)
Definition cut (nd : anode) (c : nat) : nat := if an_leaf nd then c else S c.
Definition left_half (new : Z) (nd : anode) (c : nat) : anode :=
  mkANode (an_parent nd) (an_leaf nd) (an_prev nd) new (take c (an_keys nd)) (take (cut nd c) (an_rids nd)).
Definition right_half (i : Z) (nd : anode) (c : nat) : anode :=
  mkANode (an_parent nd) (an_leaf nd) i (an_next nd) (drop (cut nd c) (an_keys nd)) (drop (cut nd c) (an_rids nd)).

Lemma sorted_sub ks ks' (g : nat -> nat) : sorted h ks -> (forall j k, ks' !! j = Some k -> ks !! g j = Some k) -> (forall i j, (i < j)%nat -> (g i < g j)%nat) -> sorted h ks'.
Proof.
  intros [Hg Hlt] Hin Hm. split; [|intros i j a b Hij Ha Hb; by apply (Hlt (g i) (g j)); auto]. apply Forall_forall. intros k Hk. apply list_elem_of_lookup in Hk as [j Hj].
  rewrite Forall_forall in Hg. apply Hg. eapply list_elem_of_lookup_2, Hin, Hj.
Qed.
Lemma sorted_take ks c : sorted h ks -> sorted h (take c ks).
Proof. intros Hs. apply (sorted_sub ks _ id Hs); [|done]. by intros j k [? _]%lookup_take_Some. Qed.
Lemma sorted_drop ks c : sorted h ks -> sorted h (drop c ks).
Proof. intros Hs. apply (sorted_sub ks _ (fun j => (c + j)%nat) Hs); [|lia]. intros j k. by rewrite lookup_drop. Qed.

Lemma take_below ks c up k : sorted h ks -> ks !! c = Some up -> k ∈ take c ks -> klt h k up.
Proof. intros Hs Hup Hk. apply list_elem_of_lookup in Hk as [j Hj]. apply lookup_take_Some in Hj as [Hj ?]. by apply (so_lt _ _ Hs j c). Qed.
Lemma drop_above ks c d up k : sorted h ks -> ks !! c = Some up -> (c <= d)%nat -> k ∈ drop d ks -> IxKey.lex (kv h up) (kv h k) <> Gt.
Proof.
  intros Hs Hup Hd Hk. apply list_elem_of_lookup in Hk as [j Hj]. rewrite lookup_drop in Hj. destruct (decide (c = d + j)%nat) as [->|Hne].
  - rewrite Hup in Hj. injection Hj as ->. by rewrite IxKey.lex_refl.
  - pose proof (so_lt _ _ Hs c (d + j)%nat up k ltac:(lia) Hup Hj) as Hl. unfold klt in Hl. by rewrite Hl.
Qed.

(** the walks over the children, if there are any *)
Definition kids_below {A} (f : visit A) (ps : gmap Z anode) (k : nat) (rs : list Rid) : list A := match k with O => [] | S k => below f ps k rs end.
Lemma walk_node {A} (f : visit A) ps k pn nd : ps !! pn = Some nd -> walk f ps k pn = f k pn nd ++ kids_below f ps k (an_rids nd).
Proof. intros Hnd. destruct k; simpl; by rewrite Hnd. Qed.

(** the bounds of the children of the halves are those they had *)
Lemma left_bounds lo hi ks c up j : ks !! c = Some up -> (j <= c)%nat ->
  lo_of lo (take c ks) j = lo_of lo ks j /\ hi_of (Some up) (take c ks) j = hi_of hi ks j.
Proof.
  intros Hup Hj. split.
  - destruct j as [|j]; [done|]. simpl. by rewrite lookup_take_lt by lia.
  - unfold hi_of. destruct (decide (j = c)) as [->|Hne]; [by rewrite Hup, lookup_take_ge by lia|]. rewrite lookup_take_lt by lia. apply lookup_lt_Some in Hup. by destruct (lookup_lt_is_Some_2 ks j ltac:(lia)) as [x ->].
Qed.
Lemma right_bounds lo hi ks c up j : ks !! c = Some up ->
  lo_of (Some up) (drop (S c) ks) j = lo_of lo ks (S c + j) /\ hi_of hi (drop (S c) ks) j = hi_of hi ks (S c + j).
Proof. intros Hup. split; [|unfold hi_of; by rewrite lookup_drop]. destruct j as [|j]; simpl; [by rewrite Nat.add_0_r|]. rewrite lookup_drop. f_equal. lia. Qed.

End walks.

(** splitting the node [i] of height [k], the new node being [new] *)
Section halves.
Context (h : IxFileHdr) (Hc : cols h) (ps ps' : gmap Z anode) (k : nat) (i new : Z) (lo hi : option (list Z)) (nd ndl ndr : anode) (c : nat) (up : list Z).
Context (Hsub : sub h ps k i lo hi) (Hdup : NoDup (walk see_page ps k i)) (Hnd : ps !! i = Some nd) (Hup : an_keys nd !! c = Some up).
Context (Hl : ps' !! i = Some ndl) (Hsl : shape ndl = shape (left_half new nd c)) (Hr : ps' !! new = Some ndr) (Hsr : shape ndr = shape (right_half i nd c)).
Context (Hlike : forall p, p ∈ walk see_page ps k i -> p <> i -> like_page ps ps' p).

(** the children are as before *)
Lemma halves_child k' m r : k = S k' -> an_rids nd !! m = Some r -> sub h ps' k' (rid_page_no r) (lo_of lo (an_keys nd) m) (hi_of hi (an_keys nd) m) /\
  forall A (f : visit A), Shaped f -> walk f ps' k' (rid_page_no r) = walk f ps k' (rid_page_no r).
Proof.
  intros -> Hm. destruct Hsub as (nd0 & Hnd0 & _ & _ & _ & _ & Hch). rewrite Hnd in Hnd0. injection Hnd0 as <-. pose proof Hdup as Hdup'. rewrite (walk_S _ _ _ _ _ Hnd) in Hdup'. apply NoDup_cons in Hdup' as [Hi _].
  apply same_tree; [by apply Hch|]. intros p Hp. assert (Hin : p ∈ below see_page ps k' (an_rids nd)) by (apply below_elem; by exists m, r).
  apply Hlike; [rewrite (walk_S _ _ _ _ _ Hnd); by right|]. by intros ->.
Qed.

Lemma halves_kids rs : (forall r, r ∈ rs -> r ∈ an_rids nd) -> forall A (f : visit A), Shaped f -> kids_below f ps' k rs = kids_below f ps k rs.
Proof.
  intros Hrs A f Hf. pose proof halves_child as Hkid. destruct k as [|k']; [done|]. simpl. unfold below. f_equal. apply list_fmap_ext. intros j r Hj. apply list_elem_of_lookup_2, Hrs, list_elem_of_lookup in Hj as [m Hm].
  by apply (Hkid k' m r eq_refl Hm).
Qed.

Lemma halves_walk A (f : visit A) : Shaped f ->
  walk f ps' k i = f k i ndl ++ kids_below f ps k (take (cut nd c) (an_rids nd)) /\ walk f ps' k new = f k new ndr ++ kids_below f ps k (drop (cut nd c) (an_rids nd)).
Proof.
  intros Hf. pose proof Hsl as [= _ _ L3]. pose proof Hsr as [= _ _ R3]. rewrite (walk_node _ _ _ _ _ Hl), (walk_node _ _ _ _ _ Hr), L3, R3. simpl.
  rewrite !halves_kids; [done|..]; try done; intros r Hin; apply list_elem_of_lookup in Hin as [j Hj]; [rewrite lookup_drop in Hj|apply lookup_take_Some in Hj as [Hj _]]; by eapply list_elem_of_lookup_2.
Qed.

Lemma left_sub : sub h ps' k i lo (Some up).
Proof.
  pose proof halves_child as Hkid. pose proof Hsl as [= L1 L2 L3]. pose proof Hsub as Hsub0. pose proof (lookup_lt_Some _ _ _ Hup) as Hlt. unfold cut in L3.
  assert (Hk : forall nd0, ps !! i = Some nd0 -> sorted h (an_keys nd0) -> (forall x, x ∈ an_keys nd0 -> inb h lo hi x) -> sorted h (an_keys ndl) /\ forall x, x ∈ an_keys ndl -> inb h lo (Some up) x).
  { intros nd0 Hnd0 Hs Hin. rewrite Hnd in Hnd0. injection Hnd0 as <-. rewrite L2. split; [by apply sorted_take|]. intros x Hx. split; [|intros u [= <-]; by eapply take_below].
    apply Hin. apply list_elem_of_lookup in Hx as [j [Hj _]%lookup_take_Some]. by eapply list_elem_of_lookup_2. }
  destruct k as [|k']; destruct Hsub0 as (nd0 & Hnd0 & Hs & Hin & Hrest); destruct (Hk nd0 Hnd0 Hs Hin) as [Hs' Hin']; rewrite Hnd in Hnd0; injection Hnd0 as <-; exists ndl; (split; [exact Hl|]); (split; [done|]); (split; [done|]).
  - destruct Hrest as [Hlf Hlen]. rewrite L1, L2, L3, Hlf, !length_take. split; [done|lia].
  - destruct Hrest as (Hlf & Hlen & _). rewrite L1, L2, L3, Hlf, !length_take. split; [done|]. split; [lia|]. intros j r [Hj Hjc]%lookup_take_Some.
    destruct (left_bounds lo hi (an_keys nd) c up j Hup ltac:(lia)) as [-> ->]. by apply Hkid.
Qed.

Lemma right_sub : sub h ps' k new (Some up) hi.
Proof.
  pose proof halves_child as Hkid. pose proof Hsr as [= R1 R2 R3]. pose proof Hsub as Hsub0. pose proof (lookup_lt_Some _ _ _ Hup) as Hlt.
  assert (Hcut : (c <= cut nd c)%nat) by (unfold cut; destruct (an_leaf nd); lia).
  assert (Hk : forall nd0, ps !! i = Some nd0 -> sorted h (an_keys nd0) -> (forall x, x ∈ an_keys nd0 -> inb h lo hi x) -> sorted h (an_keys ndr) /\ forall x, x ∈ an_keys ndr -> inb h (Some up) hi x).
  { intros nd0 Hnd0 Hs Hin. rewrite Hnd in Hnd0. injection Hnd0 as <-. rewrite R2. split; [by apply sorted_drop|]. intros x Hx. split; [intros u [= <-]; by eapply drop_above|].
    apply Hin. apply list_elem_of_lookup in Hx as [j Hj]. rewrite lookup_drop in Hj. by eapply list_elem_of_lookup_2. }
  destruct k as [|k']; destruct Hsub0 as (nd0 & Hnd0 & Hs & Hin & Hrest); destruct (Hk nd0 Hnd0 Hs Hin) as [Hs' Hin']; rewrite Hnd in Hnd0; injection Hnd0 as <-; exists ndr; (split; [exact Hr|]); (split; [done|]); (split; [done|]).
  - destruct Hrest as [Hlf Hlen]. rewrite R1, R2, R3, !length_drop. split; [done|lia].
  - destruct Hrest as (Hlf & Hlen & _). rewrite R1, R2, R3. unfold cut. rewrite Hlf, !length_drop. split; [done|]. split; [lia|]. intros j r Hj. rewrite lookup_drop in Hj.
    destruct (right_bounds lo hi (an_keys nd) c up j Hup) as [-> ->]. by apply Hkid.
Qed.
End halves.

(** the parent [y] of a node [i] gets the new node [new] to the right of it *)
Section parent.
Context (h : IxFileHdr) (Hc : cols h) (ps ps' : gmap Z anode) (k : nat) (y i new : Z) (lo hi : option (list Z)) (nd nd' : anode) (m : nat) (r rn : Rid) (up : list Z).
Context (Hsub : sub h ps (S k) y lo hi) (Hdup : NoDup (walk see_page ps (S k) y)) (Hnd : ps !! y = Some nd) (Hm : an_rids nd !! m = Some r) (Hi : rid_page_no r = i) (Hn : rid_page_no rn = new).
Context (Hnd' : ps' !! y = Some nd') (Hsh : shape nd' = (false, ins m up (an_keys nd), ins (S m) rn (an_rids nd))).
Context (Hleft : sub h ps' k i (lo_of lo (an_keys nd) m) (Some up)) (Hright : sub h ps' k new (Some up) (hi_of hi (an_keys nd) m)).
Context (Hgood : key_good h up) (Hin : inb h (lo_of lo (an_keys nd) m) (hi_of hi (an_keys nd) m) up) (Hlow : forall l, lo_of lo (an_keys nd) m = Some l -> klt h l up).
Context (Hlike : forall p, p ∈ walk see_page ps (S k) y -> p <> y -> p ∉ walk see_page ps k i -> like_page ps ps' p).

Lemma parent_nd : sorted h (an_keys nd) /\ (forall x, x ∈ an_keys nd -> inb h lo hi x) /\ an_leaf nd = false /\ length (an_rids nd) = S (length (an_keys nd)) /\
  forall j q, an_rids nd !! j = Some q -> sub h ps k (rid_page_no q) (lo_of lo (an_keys nd) j) (hi_of hi (an_keys nd) j).
Proof. destruct Hsub as (nd0 & Hnd0 & H). rewrite Hnd in Hnd0. by injection Hnd0 as <-. Qed.

Lemma parent_child j q : an_rids nd !! j = Some q -> j <> m -> sub h ps' k (rid_page_no q) (lo_of lo (an_keys nd) j) (hi_of hi (an_keys nd) j) /\
  forall A (f : visit A), Shaped f -> walk f ps' k (rid_page_no q) = walk f ps k (rid_page_no q).
Proof.
  intros Hj Hjm. destruct parent_nd as (_ & _ & _ & _ & Hch). apply same_tree; [by apply Hch|]. pose proof Hdup as Hd. rewrite (walk_S _ _ _ _ _ Hnd) in Hd. apply NoDup_cons in Hd as [Hy Hd].
  intros p Hp. assert (Hb : p ∈ below see_page ps k (an_rids nd)) by (apply below_elem; by exists j, q). apply Hlike; [rewrite (walk_S _ _ _ _ _ Hnd); by right|by intros ->|].
  rewrite <- Hi. exact (nodup_children ps k (an_rids nd) j m q r p Hd Hj Hm Hjm Hp).
Qed.

Lemma parent_walk A (f : visit A) : Shaped f ->
  walk f ps' (S k) y = f (S k) y nd' ++ below f ps k (take m (an_rids nd)) ++ walk f ps' k i ++ walk f ps' k new ++ below f ps k (drop (S m) (an_rids nd)).
Proof.
  intros Hf. pose proof Hsh as [= _ _ E]. rewrite (walk_S _ _ _ _ _ Hnd'), E. unfold ins. rewrite (take_S_r _ _ _ Hm), !below_app, !below_cons, Hi, Hn, app_nil_r.
  assert (Hrest : forall (l : list Rid) i0, (forall j r', l !! j = Some r' -> an_rids nd !! (i0 + j)%nat = Some r' /\ (i0 + j)%nat <> m) -> below f ps' k l = below f ps k l).
  { intros l i0 Hl0. unfold below. f_equal. apply list_fmap_ext. intros j r' Hj. destruct (Hl0 j r' Hj) as [Hj' Hjm]. by apply (parent_child _ r' Hj' Hjm). }
  rewrite (Hrest (take m _) 0%nat), (Hrest (drop (S m) _) (S m)), <- !app_assoc; [done|..].
  - intros j r' Hj. rewrite lookup_drop in Hj. split; [done|lia].
  - intros j r' Hj. apply lookup_take_Some in Hj as [? ?]. split; [done|lia].
Qed.

(** the keys before and behind the place of the new one *)
Lemma ins_around : (forall j x, (j < m)%nat -> an_keys nd !! j = Some x -> klt h x up) /\ (forall j x, (m <= j)%nat -> an_keys nd !! j = Some x -> klt h up x).
Proof.
  destruct parent_nd as (Hs & Hb & _ & Hlen & _). pose proof (lookup_lt_Some _ _ _ Hm) as Hlt. clear - Hc Hs Hb Hlen Hlt Hin Hlow. split; intros j x Hj Hx.
  - destruct m as [|m']; [lia|]. simpl in Hlow. destruct (lookup_lt_is_Some_2 (an_keys nd) m') as [z Hz]; [lia|]. specialize (Hlow z Hz).
    destruct (decide (j = m')) as [->|Hne]; [congruence|]. eapply IxKey.lex_lt_trans; [by apply kv_len|by apply kv_len|apply (so_lt _ _ Hs j m' x z ltac:(lia) Hx Hz)|]. unfold klt in Hlow. by rewrite Hlow.
  - destruct (lookup_lt_is_Some_2 (an_keys nd) m) as [z Hz]; [apply lookup_lt_Some in Hx; lia|]. destruct Hin as [_ Hh]. unfold hi_of in Hh. rewrite Hz in Hh. specialize (Hh z eq_refl).
    destruct (decide (j = m)) as [->|Hne]; [rewrite Hz in Hx; by injection Hx as <-|]. eapply IxKey.lex_lt_trans; [by apply kv_len|by apply kv_len|exact Hh|].
    pose proof (so_lt _ _ Hs m j z x ltac:(lia) Hz Hx) as Hl. unfold klt in Hl. by rewrite Hl.
Qed.

Lemma ins_sorted : sorted h (ins m up (an_keys nd)) /\ forall x, x ∈ ins m up (an_keys nd) -> inb h lo hi x.
Proof.
  destruct ins_around as [Hbef Haft]. destruct parent_nd as (Hs & Hb & _ & Hlen & _). pose proof (lookup_lt_Some _ _ _ Hm) as Hlt.
  assert (Hup : inb h lo hi up).
  { destruct Hin as [H1 H2]. split.
    - intros l ->. destruct m as [|m'] eqn:Em; [by apply H1|]. destruct (lookup_lt_is_Some_2 (an_keys nd) m') as [z Hz]; [lia|].
      destruct (Hb z ltac:(by eapply list_elem_of_lookup_2)) as [Hbz _]. specialize (Hbz l eq_refl). pose proof (Hbef m' z ltac:(lia) Hz) as Hzu.
      by rewrite (IxKey.lex_le_lt_trans _ _ _ (kv_len h Hc l z) (kv_len h Hc z up) Hbz Hzu).
    - intros u ->. unfold hi_of in H2. destruct (an_keys nd !! m) as [z|] eqn:Ez; [|by apply H2]. destruct (Hb z ltac:(by eapply list_elem_of_lookup_2)) as [_ Hbz]. specialize (Hbz u eq_refl).
      eapply IxKey.lex_lt_trans; [by apply kv_len|by apply kv_len|by apply H2|by rewrite Hbz]. }
  split; [split|].
  - unfold ins. apply Forall_app. destruct Hs as [Hg _]. split; [by apply Forall_take|]. constructor; [done|by apply Forall_drop].
  - intros a b x z Hab. rewrite !lookup_ins by lia. repeat destruct (decide _); try lia; intros Hx Hz; simplify_eq;
      first [by apply (so_lt _ _ Hs a b)|by apply (Hbef a)|by apply (so_lt _ _ Hs a (b - 1)%nat); [lia|..]|by apply (Haft (b - 1)%nat); [lia|]|by apply (so_lt _ _ Hs (a - 1)%nat (b - 1)%nat); [lia|..]].
  - intros x. unfold ins. rewrite elem_of_app, elem_of_cons. intros [Hx|[->|Hx]]; [|done|]; apply Hb; apply list_elem_of_lookup in Hx as [j Hj].
    + apply lookup_take_Some in Hj as [Hj _]. by eapply list_elem_of_lookup_2.
    + rewrite lookup_drop in Hj. by eapply list_elem_of_lookup_2.
Qed.

Lemma parent_sub : sub h ps' (S k) y lo hi.
Proof.
  pose proof parent_child as Hkid. pose proof ins_sorted as [Hs' Hb']. destruct parent_nd as (Hs & Hb & Hlf & Hlen & Hch). pose proof Hsh as [= E1 E2 E3]. pose proof (lookup_lt_Some _ _ _ Hm) as Hlt.
  assert (Hlk : length (ins m up (an_keys nd)) = S (length (an_keys nd))) by (apply length_ins; lia).
  exists nd'. rewrite E1, E2, E3. split; [done|]. split; [done|]. split; [done|]. split; [done|]. split; [rewrite Hlk, length_ins; lia|].
  intros j q. rewrite lookup_ins by lia. destruct (decide (j < S m)%nat) as [Hj|Hj]; [|destruct (decide (j = S m)) as [->|Hne]].
  - intros Hq. assert (Elo : lo_of lo (ins m up (an_keys nd)) j = lo_of lo (an_keys nd) j).
    { destruct j as [|j]; [done|]. simpl. rewrite lookup_ins by lia. by rewrite decide_True by lia. }
    rewrite Elo. unfold hi_of. rewrite lookup_ins by lia. destruct (decide (j = m)) as [->|Hjm].
    + rewrite decide_False by lia. rewrite Hm in Hq. injection Hq as <-. by rewrite Hi.
    + rewrite decide_True by lia. by apply (Hkid j q Hq Hjm).
  - intros [= <-]. rewrite Hn. simpl. unfold hi_of. rewrite !lookup_ins by lia. rewrite decide_False, decide_True by lia. rewrite !decide_False by lia. simpl. rewrite Nat.sub_0_r. exact Hright.
  - intros Hq. destruct (Hkid (j - 1)%nat q Hq ltac:(lia)) as [Hsq _]. destruct j as [|[|j]]; [lia|lia|]. simpl in Hsq |- *. unfold hi_of in *.
    rewrite !lookup_ins by lia. rewrite !decide_False by lia. simpl. rewrite ?Nat.sub_0_r in *. exact Hsq.
Qed.
End parent.

(** ** Levels *)

Section levels.
Context (h : IxFileHdr) (Hc : cols h).
Abbreviation level k := (walk (see_level k)).
Abbreviation tpages := (walk see_page).

Lemma level_S k ps n pn nd p : ps !! pn = Some nd -> p ∈ level k ps (S n) pn <-> p = pn /\ k = S n \/ exists i r, an_rids nd !! i = Some r /\ p ∈ level k ps n (rid_page_no r).
Proof.
  intros Hnd. rewrite (walk_S _ _ _ _ _ Hnd), elem_of_app, below_elem. unfold see_level at 1. destruct (Nat.eqb_spec (S n) k) as [<-|Hne].
  - rewrite list_elem_of_singleton. split; [intros [->|?]; [by left|by right]|intros [[-> _]|?]; [by left|by right]].
  - rewrite elem_of_nil. split; [intros [[]|?]; by right|intros [[_ ->]|?]; [done|by right]].
Qed.
Lemma below_nil {A} (f : visit A) ps n rs : (forall pn, walk f ps n pn = []) -> below f ps n rs = [].
Proof. intros Hw. induction rs as [|r rs IH]; [done|]. by rewrite below_cons, Hw. Qed.
Lemma level_above k ps n pn : (n < k)%nat -> level k ps n pn = [].
Proof.
  revert pn. induction n as [|n IH]; intros pn Hk; destruct (ps !! pn) as [nd|] eqn:Hnd; try (simpl; by rewrite Hnd); rewrite (walk_node _ _ _ _ _ Hnd); unfold see_level at 1.
  - by destruct k; [lia|].
  - destruct (Nat.eqb_spec (S n) k); [lia|]. apply below_nil. intros pn'. apply IH. lia.
Qed.
Lemma level_here k ps pn nd : ps !! pn = Some nd -> level k ps k pn = [pn].
Proof.
  intros Hnd. rewrite (walk_node _ _ _ _ _ Hnd). unfold see_level at 1. rewrite Nat.eqb_refl. simpl. f_equal. destruct k as [|k]; [done|]. apply below_nil. intros pn'. apply level_above. lia.
Qed.
Lemma level_pages k ps n pn p : p ∈ level k ps n pn -> p ∈ tpages ps n pn.
Proof.
  revert pn. induction n as [|n IH]; intros pn; destruct (ps !! pn) as [nd|] eqn:Hnd; try (simpl; by rewrite Hnd).
  - simpl. rewrite Hnd. unfold see_level, see_page. destruct k; [done|]. by intros ?%not_elem_of_nil.
  - rewrite (level_S _ _ _ _ _ _ Hnd), (tpages_S _ _ _ _ _ Hnd). intros [[-> _]|(i & r & Hr & Hp)]; [by left|right]. exists i, r. auto.
Qed.

(** a page is on one level only *)
Lemma level_unique j j' ps n pn p : NoDup (tpages ps n pn) -> p ∈ level j ps n pn -> p ∈ level j' ps n pn -> j = j'.
Proof.
  revert pn. induction n as [|n IH]; intros pn Hdup; destruct (ps !! pn) as [nd|] eqn:Hnd; try (simpl; rewrite Hnd; by intros ?%not_elem_of_nil).
  - simpl. rewrite Hnd. unfold see_level. destruct j, j'; try done; by intros ?%not_elem_of_nil || intros _ ?%not_elem_of_nil.
  - rewrite !(level_S _ _ _ _ _ _ Hnd). rewrite (walk_S _ _ _ _ _ Hnd) in Hdup. apply NoDup_cons in Hdup as [Hpn Hdup].
    assert (Hno : forall i r j, an_rids nd !! i = Some r -> pn ∉ level j ps n (rid_page_no r)) by (intros i r j0 Hr Hp; apply Hpn, below_elem; exists i, r; split; [done|by eapply level_pages]).
    intros [[-> ->]|(i & r & Hr & Hp)] [[Hpp ->]|(i' & r' & Hr' & Hp')]; [done|by destruct (Hno i' r' j' Hr')|subst p; by destruct (Hno i r j Hr)|].
    destruct (decide (i = i')) as [<-|Hne]; [|destruct (nodup_children ps n (an_rids nd) i i' r r' p Hdup Hr Hr' Hne); by eapply level_pages].
    rewrite Hr in Hr'. injection Hr' as <-. apply (IH (rid_page_no r)); try done. rewrite (below_split _ _ _ _ _ _ Hr) in Hdup. apply NoDup_app in Hdup as (_ & _ & Hdup). by apply NoDup_app in Hdup as [? _].
Qed.

Lemma path_level ps n pn lo hi k y lo' hi' : path ps n pn lo hi k y lo' hi' -> is_Some (ps !! y) -> y ∈ level k ps n pn.
Proof.
  induction 1 as [n pn lo hi|n pn lo hi nd m r k y lo' hi' Hnd Hr _ IH]; intros Hy; [destruct Hy as [nd Hnd]; rewrite (level_here _ _ _ _ Hnd); left|].
  apply (level_S _ _ _ _ _ _ Hnd). right. exists m, r. auto.
Qed.

Lemma path_kids ps n pn lo hi k y lo' hi' nd m r : path ps n pn lo hi (S k) y lo' hi' -> ps !! y = Some nd -> an_rids nd !! m = Some r -> (rid_page_no r, y) ∈ walk see_kids ps n pn.
Proof.
  remember (S k) as k1 eqn:Ek. induction 1 as [n pn lo hi|n pn lo hi nd0 m0 r0 k1 y lo' hi' Hnd0 Hr0 _ IH]; intros Hnd Hr.
  - subst n. rewrite (walk_S _ _ _ _ _ Hnd). apply elem_of_app. left. apply list_elem_of_fmap. exists r. split; [done|by eapply list_elem_of_lookup_2].
  - rewrite (walk_S _ _ _ _ _ Hnd0). apply elem_of_app. right. apply below_elem. exists m0, r0. auto.
Qed.

Lemma level_path ps n pn lo hi k p : sub h ps n pn lo hi -> p ∈ walk (see_level k) ps n pn -> exists lo' hi', path ps n pn lo hi k p lo' hi'.
Proof.
  revert pn lo hi. induction n as [|n IH]; intros pn lo hi (nd & Hnd & _ & _ & Hk).
  - simpl. rewrite Hnd, app_nil_r. unfold see_level. destruct (Nat.eqb_spec 0 k) as [<-|]; [|by intros ?%not_elem_of_nil]. intros ->%list_elem_of_singleton. exists lo, hi. constructor.
  - rewrite (level_S _ _ _ _ _ _ Hnd). destruct Hk as (_ & _ & Hch). intros [[-> ->]|(i & r & Hr & Hp)]; [exists lo, hi; constructor|]. destruct (IH _ _ _ (Hch i r Hr) Hp) as (lo' & hi' & Hpath). exists lo', hi'. by eapply path_down.
Qed.
Lemma path_walk {A} (ps : gmap Z anode) n pn lo hi k y lo' hi' (f : visit A) : path ps n pn lo hi k y lo' hi' -> exists pre suf, walk f ps n pn = pre ++ walk f ps k y ++ suf.
Proof.
  induction 1 as [|n pn lo hi nd m r k y lo' hi' Hnd Hr _ (pre & suf & E)]; [exists [], []; by rewrite app_nil_r|].
  exists (f (S n) pn nd ++ below f ps n (take m (an_rids nd)) ++ pre), (suf ++ below f ps n (drop (S m) (an_rids nd))). by rewrite (walk_S _ _ _ _ _ Hnd), (below_split _ _ _ _ _ _ Hr), E, <- !app_assoc.
Qed.

(** ** Links *)

(** the pages of a level are linked in both directions *)
Fixpoint chain (ps : gmap Z anode) (prev : Z) (l : list Z) : Prop :=
  match l with
  | [] => True
  | p :: l => (exists nd, ps !! p = Some nd /\ an_prev nd = prev /\ an_next nd = List.hd IX_NO_PAGE l) /\ chain ps p l
  end.

Lemma chain_next ps prev l1 l2 i nd : ps !! i = Some nd -> chain ps prev (l1 ++ i :: l2) -> an_next nd = List.hd IX_NO_PAGE l2.
Proof. intros Hnd. revert prev. induction l1 as [|q l1 IH]; intros prev; simpl; [|intros [_ Hl]; by eapply IH]. intros [(x & Hx & _ & En) _]. congruence. Qed.

(** the links after a page [new] was put behind [i], whose node was [nd] *)
Record relinked (ps ps' : gmap Z anode) (i new : Z) (nd : anode) : Prop := {
  rl_left : exists x, ps' !! i = Some x /\ an_next x = new /\ an_prev x = an_prev nd;
  rl_right : exists x, ps' !! new = Some x /\ an_next x = an_next nd /\ an_prev x = i;
  rl_others : forall p x, p <> i -> ps !! p = Some x ->
    exists x', ps' !! p = Some x' /\ an_next x' = an_next x /\ an_prev x' = if decide (p = an_next nd) then new else an_prev x;
}.

Lemma chain_same ps ps' i new nd prev l : relinked ps ps' i new nd -> i ∉ l -> an_next nd ∉ l -> chain ps prev l -> chain ps' prev l.
Proof.
  intros [_ _ Ho]. revert prev. induction l as [|p l IH]; intros prev; [done|]. intros [Hi Hi']%not_elem_of_cons [Hn Hn']%not_elem_of_cons [(x & Hx & Hp & Hnx) Hl]. split; [|by apply IH].
  destruct (Ho p x (not_eq_sym Hi) Hx) as (x' & Hx' & En & Ep). rewrite decide_False in Ep by done. exists x'. by rewrite En, Ep.
Qed.

Lemma chain_insert ps ps' i new nd prev l1 l2 : relinked ps ps' i new nd -> ps !! i = Some nd -> NoDup (l1 ++ i :: l2) -> IX_NO_PAGE ∉ l1 ++ i :: l2 ->
  chain ps prev (l1 ++ i :: l2) -> chain ps' prev (l1 ++ i :: new :: l2).
Proof.
  intros Hrl Hnd. pose proof (fun l prev => chain_next ps prev l l2 i nd Hnd) as Hnx.
  revert prev. induction l1 as [|p l1 IH]; intros prev Hdup Hno Hch; specialize (Hnx _ _ Hch); simpl in *.
  - destruct Hch as [(x & Hx & Hp & _) Hch]. rewrite Hnd in Hx. injection Hx as <-. pose proof Hrl as [(xl & Hxl & Ln & Lp) (xr & Hxr & Rn & Rp) Ho]. split; [exists xl; by rewrite Ln, Lp|].
    split; [exists xr; by rewrite Rn, Rp|]. apply NoDup_cons in Hdup as [Hi Hdup]. destruct l2 as [|q l2]; [done|]. simpl in *. destruct Hch as [(x & Hx & Hq & Hqn) Hch].
    apply NoDup_cons in Hdup as [Hq2 Hdup]. apply not_elem_of_cons in Hi as [Hiq Hi]. destruct (Ho q x (not_eq_sym Hiq) Hx) as (x' & Hx' & En & Ep). rewrite decide_True in Ep by done.
    split; [exists x'; by rewrite En, Ep|]. eapply (chain_same ps ps' i new nd); try done. by rewrite Hnx.
  - destruct Hch as [(x & Hx & Hp & Hpn) Hch]. apply NoDup_cons in Hdup as [Hpl Hdup]. apply not_elem_of_cons in Hno as [Hpno Hno]. split; [|by apply IH].
    apply not_elem_of_app in Hpl as [_ Hpl]. apply not_elem_of_cons in Hpl as [Hpi Hpl]. destruct (rl_others _ _ _ _ _ Hrl p x Hpi Hx) as (x' & Hx' & En & Ep). exists x'. rewrite decide_False in Ep.
    + rewrite En, Ep, Hpn. split_and!; try done. by destruct l1.
    + rewrite Hnx. destruct l2 as [|q l2]; simpl; [|by apply not_elem_of_cons in Hpl as [? _]]. by apply not_eq_sym.
Qed.

(** ** Parents *)

(** the pairs of a page and the parent its node names *)
Definition parented (ps : gmap Z anode) (l : list (Z * Z)) : Prop := Forall (fun e => exists nd, ps !! e.1 = Some nd /\ an_parent nd = e.2) l.

Lemma kids_pages ps n pn lo hi : sub h ps n pn lo hi -> tpages ps n pn ≡ₚ pn :: (walk see_kids ps n pn).*1.
Proof.
  revert pn lo hi. induction n as [|n IH]; intros pn lo hi (nd & Hnd & _ & _ & Hk); [simpl; by rewrite Hnd|]. destruct Hk as (_ & _ & Hch).
  rewrite !(walk_S _ _ _ _ _ Hnd). unfold see_page at 1, see_kids at 1. simpl. f_equiv. rewrite fmap_app, <- list_fmap_compose. simpl.
  assert (Hgen : forall rs, (forall r, r ∈ rs -> exists lo hi, sub h ps n (rid_page_no r) lo hi) -> below see_page ps n rs ≡ₚ (rid_page_no <$> rs) ++ (below see_kids ps n rs).*1).
  { induction rs as [|r rs IHr]; intros Hrs; [done|]. rewrite !below_cons, fmap_cons, fmap_app, IHr by (intros q Hq; apply Hrs; by right). destruct (Hrs r ltac:(left)) as (lo' & hi' & Hr). rewrite (IH _ _ _ Hr). simpl.
    f_equiv. by rewrite Permutation_app_swap_app. }
  rewrite (Hgen (an_rids nd)); [done|]. intros r Hr. apply list_elem_of_lookup in Hr as [j Hj]. eauto.
Qed.

Lemma reparent ps ps' (M X : list (Z * Z)) : parented ps (M ++ X) -> NoDup (M ++ X).*1 ->
  (forall p x, p ∈ X.*1 -> p ∉ M.*1 -> ps !! p = Some x -> exists x', ps' !! p = Some x' /\ an_parent x' = an_parent x) -> parented ps' X.
Proof.
  unfold parented. rewrite fmap_app, Forall_app. intros [_ HX] (_ & Hd & _)%NoDup_app Hsame. rewrite Forall_forall in HX |- *. intros e He. destruct (HX e He) as (x & Hx & <-).
  assert (He1 : e.1 ∈ X.*1) by (by apply list_elem_of_fmap_2). destruct (Hsame e.1 x He1) as (x' & Hx' & Ex); [intros Hm; by apply (Hd e.1)|done|]. by exists x'.
Qed.
End levels.

(** ** Splitting a node of a tree *)

Section split.
Context (h : IxFileHdr) (Hc : cols h).
Abbreviation level k := (walk (see_level k)).
Abbreviation tpages := (walk see_page).
Abbreviation kids := (walk see_kids).

(** a tree with its links *)
Record twf (ps : gmap Z anode) (n : nat) (root : Z) : Prop := {
  tw_sub : sub h ps n root None None;
  tw_nodup : NoDup (tpages ps n root);
  tw_levels : forall k, chain ps IX_NO_PAGE (level k ps n root);
  tw_kids : parented ps (kids ps n root);
  tw_root : parented ps [(root, IX_NO_PAGE)];
  tw_pages : ps !! IX_NO_PAGE = None;
}.

Definition moved (nd : anode) (c : nat) : list Z := if an_leaf nd then [] else rid_page_no <$> drop (cut nd c) (an_rids nd).
Definition touch (new : Z) (nd : anode) (c : nat) (p : Z) (x : anode) : anode :=
  mkANode (if decide (p ∈ moved nd c) then new else an_parent x) (an_leaf x) (if decide (p = an_next nd) then new else an_prev x) (an_next x) (an_keys x) (an_rids x).
(** the nodes after [i] was split, and before its parent knows *)
Definition halves (ps : gmap Z anode) (i new : Z) (nd : anode) (c : nat) : gmap Z anode :=
  <[i := left_half new nd c]> (<[new := right_half i nd c]> (map_imap (fun p x => Some (touch new nd c p x)) ps)).
Definition with_parent (q : Z) (nd : anode) : anode := mkANode q (an_leaf nd) (an_prev nd) (an_next nd) (an_keys nd) (an_rids nd).
(** ... and after it was put into its parent [y], or under a new root [z] *)
Definition grown (ps : gmap Z anode) (i new : Z) (nd : anode) (c : nat) (y : Z) (ndy : anode) (m : nat) (rn : Rid) (up : list Z) : gmap Z anode :=
  <[y := set_pairs (ins m up (an_keys ndy)) (ins (S m) rn (an_rids ndy)) ndy]> (halves ps i new nd c).
Definition risen (ps : gmap Z anode) (i new : Z) (nd : anode) (c : nat) (z : Z) (ri rn : Rid) (up : list Z) : gmap Z anode :=
  <[z := mkANode IX_NO_PAGE false IX_NO_PAGE IX_NO_PAGE [up] [ri; rn]]>
    (<[i := with_parent z (left_half new nd c)]> (<[new := with_parent z (right_half i nd c)]> (halves ps i new nd c))).

Context (ps : gmap Z anode) (n : nat) (root : Z) (Hw : twf ps n root).
Context (k : nat) (i : Z) (lo hi : option (list Z)) (Hpath : path ps n root None None k i lo hi) (nd : anode) (Hnd : ps !! i = Some nd).
Context (c : nat) (up : list Z) (Hup : an_keys nd !! c = Some up) (Hc0 : (0 < c)%nat) (new : Z) (Hnew : ps !! new = None) (Hno : new <> IX_NO_PAGE).

Lemma node_sub : sub h ps k i lo hi.
Proof. eapply path_sub; [exact Hpath|apply Hw]. Qed.
Lemma node_pages p : p ∈ tpages ps k i -> p ∈ tpages ps n root.
Proof. by eapply path_pages. Qed.
Lemma tree_page p : p ∈ tpages ps n root -> is_Some (ps !! p).
Proof.
  assert (Hgen : forall n pn, p ∈ tpages ps n pn -> is_Some (ps !! p)).
  { clear. induction n as [|n IH]; intros pn; destruct (ps !! pn) as [x|] eqn:Hx; try (simpl; rewrite Hx; by intros ?%not_elem_of_nil).
    - simpl. rewrite Hx. intros ->%list_elem_of_singleton. by eexists.
    - rewrite (tpages_S _ _ _ _ _ Hx). intros [->|(j & r & _ & Hp)]; [by eexists|by eapply IH]. }
  apply Hgen.
Qed.

Lemma node_leaf : an_leaf nd = (k =? 0)%nat.
Proof. pose proof node_sub as Hs. destruct k; destruct Hs as (x & Hx & _ & _ & Hl & _); rewrite Hnd in Hx; by injection Hx as <-. Qed.
(** the node is the root, or a child of the parent it names *)
Lemma parent_of : k = n /\ i = root /\ lo = None /\ hi = None /\ an_parent nd = IX_NO_PAGE \/
  exists y ndy m r lo2 hi2, path ps n root None None (S k) y lo2 hi2 /\ ps !! y = Some ndy /\ an_rids ndy !! m = Some r /\ rid_page_no r = i /\
    lo = lo_of lo2 (an_keys ndy) m /\ hi = hi_of hi2 (an_keys ndy) m /\ an_parent nd = y.
Proof.
  destruct (path_last _ _ _ _ _ _ _ _ _ Hpath) as [(Ek & Ei & El & Eh)|(z & ndz & m & r & lo2 & hi2 & Hp & Hz & Hr & Er & El & Eh)].
  - left. split_and!; try done. pose proof (tw_root _ _ _ Hw) as Hr. apply Forall_singleton in Hr as (x & Hx & Hpx). simpl in *. congruence.
  - right. exists z, ndz, m, r, lo2, hi2. split_and!; try done. pose proof (tw_kids _ _ _ Hw) as Hk. unfold parented in Hk. rewrite Forall_forall in Hk.
    destruct (Hk _ (path_kids _ _ _ _ _ _ _ _ _ _ _ _ Hp Hz Hr)) as (x & Hx & Hpx). simpl in *. congruence.
Qed.

Lemma node_nodup : NoDup (tpages ps k i).
Proof. eapply path_nodup; [exact Hpath|apply Hw|apply Hw]. Qed.

(** the walk over a node, whose children are cut in two *)
Lemma node_walk A (f : visit A) : walk f ps k i = f k i nd ++ kids_below f ps k (take (cut nd c) (an_rids nd)) ++ kids_below f ps k (drop (cut nd c) (an_rids nd)).
Proof. rewrite (walk_node _ _ _ _ _ Hnd). f_equal. rewrite <- (take_drop (cut nd c) (an_rids nd)) at 1. destruct k; [done|]. apply below_app. Qed.

Lemma halves_lookup p : p <> i -> p <> new -> halves ps i new nd c !! p = touch new nd c p <$> ps !! p.
Proof. intros H1 H2. unfold halves. rewrite !lookup_insert_ne, map_lookup_imap by done. by destruct (ps !! p). Qed.

Lemma node_level : exists l1 l2, level k ps n root = l1 ++ i :: l2 /\ an_next nd = List.hd IX_NO_PAGE l2.
Proof.
  assert (Hin : i ∈ level k ps n root) by (eapply path_level; [exact Hpath|by eexists]). apply list_elem_of_split in Hin as (l1 & l2 & E). exists l1, l2. split; [done|].
  pose proof (tw_levels _ _ _ Hw k) as Hch. rewrite E in Hch. by eapply chain_next.
Qed.

Lemma level_nodup j : NoDup (level j ps n root).
Proof.
  pose proof (tw_nodup _ _ _ Hw) as Hd. revert Hd. generalize root n. clear. intros pn n. revert pn. induction n as [|n IH]; intros pn Hd; destruct (ps !! pn) as [x|] eqn:Hx; try (simpl; rewrite Hx; constructor).
  - simpl. rewrite Hx. unfold see_level. destruct j; simpl; [apply NoDup_singleton|constructor].
  - rewrite (walk_S _ _ _ _ _ Hx) in Hd. apply NoDup_cons in Hd as [_ Hd]. destruct (decide (j = S n)) as [->|Hne]; [rewrite (level_here _ _ _ _ Hx); apply NoDup_singleton|].
    rewrite (walk_S _ _ _ _ _ Hx). unfold see_level at 1. destruct (Nat.eqb_spec (S n) j); [done|]. simpl. induction (an_rids x) as [|r rs IHr]; [constructor|]. rewrite below_cons in Hd |- *.
    apply NoDup_app in Hd as (H1 & H2 & H3). apply NoDup_app. split; [by apply IH|]. split; [|by apply IHr]. intros p Hp Hp'. apply (H2 p); [by eapply level_pages|].
    apply below_elem in Hp' as (j' & r' & Hr' & Hp'). apply below_elem. exists j', r'. split; [done|by eapply level_pages].
Qed.

Lemma level_page j p : p ∈ level j ps n root -> is_Some (ps !! p).
Proof. intros Hp. eapply tree_page, level_pages, Hp. Qed.
Lemma level_real j : IX_NO_PAGE ∉ level j ps n root.
Proof. intros [x Hx]%level_page. by rewrite (tw_pages _ _ _ Hw) in Hx. Qed.

(** the next page of the level, if there is one *)
Lemma next_level : an_next nd = IX_NO_PAGE \/ an_next nd ∈ level k ps n root /\ an_next nd <> i.
Proof.
  destruct node_level as (l1 & l2 & E & ->). pose proof (level_nodup k) as Hd. rewrite E in Hd |- *. destruct l2 as [|q l2]; [by left|right]. simpl. split; [apply elem_of_app; right; right; left|].
  intros ->. apply NoDup_app in Hd as (_ & _ & Hd). apply NoDup_cons in Hd as [Hd _]. apply Hd. left.
Qed.

Lemma moved_pages p : p ∈ moved nd c -> p ∈ tpages ps k i /\ p <> i.
Proof.
  pose proof node_nodup as Hd. pose proof node_sub as Hs. unfold moved. rewrite node_leaf. destruct k as [|k']; [by intros ?%not_elem_of_nil|]. simpl (S k' =? 0)%nat. cbv iota.
  rewrite (walk_S _ _ _ _ _ Hnd) in Hd |- *. apply NoDup_cons in Hd as [Hi _]. destruct Hs as (x & Hx & _ & _ & _ & _ & Hch). rewrite Hnd in Hx. injection Hx as <-.
  intros (r & -> & Hr)%list_elem_of_fmap. apply list_elem_of_lookup in Hr as [j Hj]. rewrite lookup_drop in Hj.
  assert (Hin : rid_page_no r ∈ below see_page ps k' (an_rids nd)) by (apply below_elem; exists (cut nd c + j)%nat, r; split; [done|by eapply self_page, Hch]).
  split; [by right|]. by intros E; rewrite E in Hin.
Qed.

(** the children that move get the new node as their parent *)
Definition leaving : list (Z * Z) := match k with O => [] | S _ => (fun q => (rid_page_no q, i)) <$> drop (cut nd c) (an_rids nd) end.
Definition staying : list (Z * Z) := (match k with O => [] | S _ => (fun q => (rid_page_no q, i)) <$> take (cut nd c) (an_rids nd) end) ++
  kids_below see_kids ps k (take (cut nd c) (an_rids nd)) ++ kids_below see_kids ps k (drop (cut nd c) (an_rids nd)).
Lemma leaving_moved : leaving.*1 = moved nd c.
Proof. unfold leaving, moved. rewrite node_leaf. destruct k; [done|]. simpl. by rewrite <- list_fmap_compose. Qed.

Lemma node_kids : walk see_kids ps k i ≡ₚ leaving ++ staying.
Proof.
  rewrite node_walk. unfold see_kids at 1, leaving, staying. destruct k as [|k']; [done|]. rewrite <- (take_drop (cut nd c) (an_rids nd)) at 1. rewrite fmap_app, <- app_assoc. by rewrite Permutation_app_swap_app.
Qed.

(** what every result of the split has in common *)
Section result.
Context (ps' : gmap Z anode) (ndl ndr : anode) (Hl : ps' !! i = Some ndl) (Hsl : shape ndl = shape (left_half new nd c)) (Hr : ps' !! new = Some ndr) (Hsr : shape ndr = shape (right_half i nd c)).
Context (Hlike : forall p, p ∈ tpages ps k i -> p <> i -> like_page ps ps' p).

Lemma pair_walk A (f : visit A) : Shaped f -> walk f ps' k i = f k i ndl ++ kids_below f ps k (take (cut nd c) (an_rids nd)) /\ walk f ps' k new = f k new ndr ++ kids_below f ps k (drop (cut nd c) (an_rids nd)).
Proof. apply (halves_walk h ps ps' k i new lo hi nd ndl ndr c node_sub node_nodup Hnd Hl Hsl Hr Hsr Hlike). Qed.

Lemma pair_sub : sub h ps' k i lo (Some up) /\ sub h ps' k new (Some up) hi.
Proof.
  split; [apply (left_sub h ps ps' k i new lo hi nd ndl c up node_sub node_nodup Hnd Hup Hl Hsl Hlike)|apply (right_sub h ps ps' k i new lo hi nd ndr c up node_sub node_nodup Hnd Hup Hr Hsr Hlike)].
Qed.

Lemma pair_entries : walk see_pairs ps' k i ++ walk see_pairs ps' k new = walk see_pairs ps k i.
Proof.
  destruct (pair_walk _ see_pairs _) as [-> ->]. rewrite node_walk. pose proof Hsl as [= _ L2 L3]. pose proof Hsr as [= _ R2 R3]. pose proof node_leaf as Hlf. pose proof node_sub as Hs. unfold see_pairs at 1 3 5, kids_below.
  destruct k as [|k']; [|by simpl]. simpl in *. unfold cut in *. rewrite L2, L3, R2, R3, Hlf, !app_nil_r. destruct Hs as (x & Hx & _ & _ & _ & Hlen). rewrite Hnd in Hx. injection Hx as <-.
  rewrite <- zip_with_app by (rewrite !length_take; lia). by rewrite !take_drop.
Qed.
Lemma pair_pages : walk see_page ps' k i ++ walk see_page ps' k new ≡ₚ new :: walk see_page ps k i.
Proof. destruct (pair_walk _ see_page _) as [-> ->]. rewrite node_walk. unfold see_page at 1 3 5. simpl. rewrite <- Permutation_middle. apply perm_swap. Qed.
Lemma pair_level j : walk (see_level j) ps' k i ++ walk (see_level j) ps' k new = if decide (j = k) then [i; new] else walk (see_level j) ps k i.
Proof.
  destruct (decide (j = k)) as [->|Hne]; [by rewrite (level_here _ _ _ _ Hl), (level_here _ _ _ _ Hr)|]. destruct (pair_walk _ (see_level j) _) as [-> ->]. rewrite node_walk.
  unfold see_level at 1 3 5. by destruct (Nat.eqb_spec k j); [congruence|].
Qed.

Lemma pair_kids : parented ps' staying -> (forall p, p ∈ moved nd c -> parented ps' [(p, new)]) -> parented ps' (walk see_kids ps' k i ++ walk see_kids ps' k new).
Proof.
  intros Hst Hmv. destruct (pair_walk _ see_kids _) as [-> ->]. pose proof Hsl as [= _ _ L3]. pose proof Hsr as [= _ _ R3]. unfold parented in *. unfold staying in Hst. rewrite !Forall_app in *. destruct Hst as (H1 & H2 & H3).
  split; [split; [|done]|split; [|done]].
  - unfold see_kids. destruct k; [done|]. by rewrite L3.
  - pose proof leaving_moved as Hlm. unfold see_kids, leaving in *. destruct k as [|k']; [done|]. rewrite R3. simpl. apply Forall_fmap, Forall_forall. intros q Hq. simpl.
    specialize (Hmv (rid_page_no q)). rewrite <- Hlm, <- list_fmap_compose in Hmv. apply Forall_singleton in Hmv; [done|]. apply list_elem_of_fmap. by exists q.
Qed.
End result.

(** the root is in no subtree but the tree *)
Lemma root_only : root ∈ tpages ps k i -> root = i.
Proof.
  destruct (path_last _ _ _ _ _ _ _ _ _ Hpath) as [(_ & -> & _)|(z & x & m & r & lo' & hi' & Hp & Hx & Hr & <- & _)]; [done|]. intros Hin. exfalso.
  assert (Hin' : root ∈ kids_below see_page ps n (default [] (an_rids <$> ps !! root))). 2:{ pose proof (tw_nodup _ _ _ Hw) as Hd. pose proof (tw_root _ _ _ Hw) as Hr'. apply Forall_singleton in Hr' as (x0 & Hx0 & _).
    simpl in Hx0. rewrite (walk_node _ _ _ _ _ Hx0) in Hd. rewrite Hx0 in Hin'. apply NoDup_cons in Hd as [Hd _]. done. }
  inversion Hp as [|n' pn' ? ? x' m' r' ? ? ? ? Hx' Hr' Hp']; subst.
  - rewrite Hx. simpl. apply below_elem. by exists m, r.
  - rewrite Hx'. simpl. apply below_elem. exists m', r'. split; [done|]. eapply path_pages; [exact Hp'|]. apply (tpages_S _ _ _ _ _ Hx). right. by exists m, r.
Qed.

Lemma up_good : key_good h up /\ inb h lo hi up /\ forall l, lo = Some l -> klt h l up.
Proof.
  pose proof node_sub as Hs. assert (Hk : sorted h (an_keys nd) /\ forall x, x ∈ an_keys nd -> inb h lo hi x) by (destruct k; destruct Hs as (x & Hx & ? & ? & _); rewrite Hnd in Hx; by injection Hx as <-).
  destruct Hk as [Hs' Hb]. split; [eapply Forall_forall; [apply Hs'|by eapply list_elem_of_lookup_2]|]. split; [apply Hb; by eapply list_elem_of_lookup_2|].
  intros l ->. destruct (lookup_lt_is_Some_2 (an_keys nd) 0) as [z Hz]; [apply lookup_lt_Some in Hup; lia|]. destruct (Hb z ltac:(by eapply list_elem_of_lookup_2)) as [Hl _].
  eapply IxKey.lex_le_lt_trans; [by apply kv_len|by apply kv_len|by apply Hl|]. exact (so_lt _ _ Hs' 0%nat c z up Hc0 Hz Hup).
Qed.

(** *** Below a parent *)

Section grown.
Context (y : Z) (ndy : anode) (m : nat) (r rn : Rid) (lo2 hi2 : option (list Z)) (Hpy : path ps n root None None (S k) y lo2 hi2) (Hndy : ps !! y = Some ndy).
Context (Hm : an_rids ndy !! m = Some r) (Hri : rid_page_no r = i) (Hrn : rid_page_no rn = new) (Hlo : lo = lo_of lo2 (an_keys ndy) m) (Hhi : hi = hi_of hi2 (an_keys ndy) m).
Abbreviation ps' := (grown ps i new nd c y ndy m rn up).
Abbreviation ndy' := (set_pairs (ins m up (an_keys ndy)) (ins (S m) rn (an_rids ndy)) ndy).

Lemma parent_sub_old : sub h ps (S k) y lo2 hi2.
Proof. eapply path_sub; [exact Hpy|apply Hw]. Qed.
Lemma parent_nodup : NoDup (tpages ps (S k) y).
Proof. eapply path_nodup; [exact Hpy|apply Hw|apply Hw]. Qed.
Lemma parent_out : y ∉ tpages ps k i.
Proof.
  pose proof parent_nodup as Hd. rewrite (walk_S _ _ _ _ _ Hndy) in Hd. apply NoDup_cons in Hd as [Hy _]. intros Hin. apply Hy, below_elem. exists m, r. by rewrite Hri.
Qed.
Lemma parent_ne : y <> i /\ y <> new /\ y <> an_next nd /\ y ∉ moved nd c.
Proof.
  pose proof parent_out as Ho. split; [intros ->; apply Ho; eapply self_page, node_sub|]. split; [congruence|]. split; [|intros [? _]%moved_pages; done].
  assert (Hy : y ∈ level (S k) ps n root) by (eapply path_level; [exact Hpy|by eexists]). destruct next_level as [E|[E _]]; [rewrite E; intros ->; by apply (level_real (S k))|].
  intros Ey. rewrite <- Ey in E. pose proof (level_unique _ _ _ _ _ _ (tw_nodup _ _ _ Hw) Hy E). lia.
Qed.

Lemma parent_keys : an_leaf ndy = false /\ sorted h (an_keys ndy) /\ length (an_rids ndy) = S (length (an_keys ndy)).
Proof. destruct parent_sub_old as (x & Hx & Hs & _ & Hl & Hlen & _). rewrite Hndy in Hx. by injection Hx as <-. Qed.
Lemma parent_around : (forall j x, (j < m)%nat -> an_keys ndy !! j = Some x -> klt h x up) /\ (forall j x, (m <= j)%nat -> an_keys ndy !! j = Some x -> klt h up x).
Proof. destruct up_good as (G1 & G2 & G3). rewrite Hlo, Hhi in G2. rewrite Hlo in G3. pose proof parent_sub_old as Hs. by apply (ins_around h Hc ps k y lo2 hi2 ndy m r up Hs Hndy Hm G2 G3). Qed.
Lemma halves_y : halves ps i new nd c !! y = Some ndy.
Proof.
  destruct parent_ne as (H1 & H2 & H3 & H4). rewrite halves_lookup, Hndy by done. simpl. unfold touch. rewrite !decide_False by done. by destruct ndy.
Qed.

Lemma grown_y : ps' !! y = Some ndy'.
Proof. apply lookup_insert_eq. Qed.
Lemma grown_i : ps' !! i = Some (left_half new nd c).
Proof. destruct parent_ne as (? & _). unfold grown. rewrite lookup_insert_ne by done. apply lookup_insert_eq. Qed.
Lemma grown_new : ps' !! new = Some (right_half i nd c).
Proof. destruct parent_ne as (_ & ? & _). assert (i <> new) by congruence. unfold grown, halves. rewrite !lookup_insert_ne by done. apply lookup_insert_eq. Qed.
Lemma grown_other p x : p <> i -> p <> y -> ps !! p = Some x -> ps' !! p = Some (touch new nd c p x).
Proof. intros H1 H2 Hx. unfold grown. rewrite lookup_insert_ne by done. rewrite halves_lookup by congruence. by rewrite Hx. Qed.
Lemma grown_like p : is_Some (ps !! p) -> p <> i -> p <> y -> like_page ps ps' p.
Proof. intros [x Hx] H1 H2. unfold like_page. by rewrite (grown_other p x H1 H2 Hx), Hx. Qed.

Lemma grown_kids p : p ∈ tpages ps k i -> p <> i -> like_page ps ps' p.
Proof. intros Hp Hpi. apply grown_like; [by eapply tree_page, node_pages|done|]. intros ->. by apply parent_out. Qed.

Lemma grown_sub : sub h ps' (S k) y lo2 hi2.
Proof.
  destruct (pair_sub ps' _ _ grown_i eq_refl grown_new eq_refl grown_kids) as [H1 H2]. rewrite Hlo in H1. rewrite Hhi in H2. pose proof up_good as (G1 & G2 & G3). rewrite Hlo, Hhi in G2. rewrite Hlo in G3.
  pose proof parent_sub_old as Hs. assert (Hlf : an_leaf ndy = false) by (destruct Hs as (x & Hx & _ & _ & Hl & _); rewrite Hndy in Hx; by injection Hx as <-).
  apply (parent_sub h Hc ps ps' k y i new lo2 hi2 ndy ndy' m r rn up Hs parent_nodup Hndy Hm Hri Hrn grown_y); try done; [unfold shape; simpl; by rewrite Hlf|].
  intros p Hp Hpy' Hpi. apply grown_like; [eapply tree_page, path_pages; [exact Hpy|done]|intros ->; apply Hpi; eapply self_page, node_sub|done].
Qed.

Lemma grown_path : sub h ps' n root None None /\ path ps' n root None None (S k) y lo2 hi2 /\ forall A (f : visit A), Shaped f -> exists pre suf,
  walk f ps n root = pre ++ (f (S k) y ndy ++ below f ps k (take m (an_rids ndy)) ++ walk f ps k i ++ below f ps k (drop (S m) (an_rids ndy))) ++ suf /\
  walk f ps' n root = pre ++ (f (S k) y ndy' ++ below f ps k (take m (an_rids ndy)) ++ (walk f ps' k i ++ walk f ps' k new) ++ below f ps k (drop (S m) (an_rids ndy))) ++ suf.
Proof.
  assert (Hlk : forall p, p ∈ tpages ps (S k) y -> p <> y -> p ∉ tpages ps k i -> like_page ps ps' p).
  { intros p Hp Hpy' Hpi. apply grown_like; [eapply tree_page, path_pages; [exact Hpy|done]|intros ->; apply Hpi; eapply self_page, node_sub|done]. }
  assert (Hiy : i ∈ tpages ps (S k) y) by (apply (tpages_S _ _ _ _ _ Hndy); right; exists m, r; split; [done|]; rewrite Hri; eapply self_page, node_sub).
  assert (Hyy : y ∈ tpages ps (S k) y) by (eapply self_page, parent_sub_old).
  destruct (path_replace h ps ps' n root None None (S k) y lo2 hi2 Hpy (tw_sub _ _ _ Hw) (tw_nodup _ _ _ Hw)) as (H1 & H2 & H3); [|apply grown_sub|].
  { intros p Hp Hn. apply grown_like; [by eapply tree_page|by intros ->|by intros ->]. }
  split; [done|]. split; [done|]. intros A f Hf. destruct (H3 A f Hf) as (pre & suf & E1 & E2). exists pre, suf.
  pose proof parent_sub_old as Hs. assert (Hlf : an_leaf ndy = false) by (destruct Hs as (x & Hx & _ & _ & Hl & _); rewrite Hndy in Hx; by injection Hx as <-).
  rewrite E1, E2, (walk_S _ _ _ _ _ Hndy), (below_split _ _ _ _ _ _ Hm), Hri. split; [by rewrite <- !app_assoc|].
  rewrite (parent_walk h ps ps' k y i new lo2 hi2 ndy ndy' m r rn up Hs parent_nodup Hndy Hm Hri Hrn grown_y); try done; [by rewrite <- !app_assoc|unfold shape; simpl; by rewrite Hlf].
Qed.

Lemma grown_relinked : relinked ps ps' i new nd.
Proof.
  destruct parent_ne as (H1 & H2 & H3 & H4). split; [eexists; split; [apply grown_i|done]|eexists; split; [apply grown_new|done]|]. intros p x Hp Hx. destruct (decide (p = y)) as [->|Hpy'].
  - rewrite Hndy in Hx. injection Hx as <-. eexists. split; [apply grown_y|]. by rewrite decide_False.
  - eexists. split; [by apply grown_other|done].
Qed.

(** a walk that does not depend on the node of the parent *)
Lemma grown_walk A (f : visit A) : Shaped f -> f (S k) y ndy = f (S k) y ndy' -> exists pre suf,
  walk f ps n root = pre ++ walk f ps k i ++ suf /\ walk f ps' n root = pre ++ (walk f ps' k i ++ walk f ps' k new) ++ suf.
Proof.
  intros Hf Ef. destruct grown_path as (_ & _ & Hwk). destruct (Hwk A f Hf) as (pre & suf & -> & ->). rewrite <- Ef.
  exists (pre ++ f (S k) y ndy ++ below f ps k (take m (an_rids ndy))), (below f ps k (drop (S m) (an_rids ndy)) ++ suf). by rewrite <- !app_assoc.
Qed.

Lemma grown_entries : entries ps' n root = entries ps n root.
Proof. rewrite !entries_walk. destruct (grown_walk _ see_pairs _ eq_refl) as (pre & suf & -> & ->). by rewrite (pair_entries ps' _ _ grown_i eq_refl grown_new eq_refl grown_kids). Qed.
Lemma grown_pages : tpages ps' n root ≡ₚ new :: tpages ps n root.
Proof. destruct (grown_walk _ see_page _ eq_refl) as (pre & suf & -> & ->). rewrite (pair_pages ps' _ _ grown_i eq_refl grown_new eq_refl grown_kids). simpl. by rewrite <- Permutation_middle. Qed.
Lemma grown_level j : j <> k -> level j ps' n root = level j ps n root.
Proof. intros Hj. destruct (grown_walk _ (see_level j) _ eq_refl) as (pre & suf & -> & ->). rewrite (pair_level ps' _ _ grown_i eq_refl grown_new eq_refl grown_kids). by rewrite decide_False. Qed.
Lemma grown_level_k : exists l1 l2, level k ps n root = l1 ++ i :: l2 /\ level k ps' n root = l1 ++ i :: new :: l2.
Proof.
  destruct (grown_walk _ (see_level k) _ eq_refl) as (pre & suf & -> & ->). rewrite (pair_level ps' _ _ grown_i eq_refl grown_new eq_refl grown_kids), decide_True, (level_here _ _ _ _ Hnd) by done.
  by exists pre, suf.
Qed.

Lemma grown_parent p x : p <> i -> ps !! p = Some x -> p ∉ moved nd c -> exists x', ps' !! p = Some x' /\ an_parent x' = an_parent x.
Proof.
  intros Hp Hx Hmv. destruct (decide (p = y)) as [->|Hpy'].
  - rewrite Hndy in Hx. injection Hx as <-. eexists. split; [apply grown_y|done].
  - eexists. split; [by apply grown_other|]. simpl. by rewrite decide_False.
Qed.

Lemma grown_parented : parented ps' (kids ps' n root).
Proof.
  destruct grown_path as (_ & _ & Hwk). destruct (Hwk _ see_kids _) as (pre & suf & E & ->). pose proof (tw_kids _ _ _ Hw) as Hold. pose proof (kids_pages h _ _ _ _ _ (tw_sub _ _ _ Hw)) as Hkp. pose proof (tw_nodup _ _ _ Hw) as Hd.
  set (X := pre ++ see_kids (S k) y ndy ++ below see_kids ps k (take m (an_rids ndy)) ++ staying ++ below see_kids ps k (drop (S m) (an_rids ndy)) ++ suf).
  assert (Hperm : kids ps n root ≡ₚ leaving ++ X). { rewrite E, node_kids. unfold X. rewrite <- !app_assoc. by rewrite !(Permutation_app_swap_app _ leaving). }
  rewrite Hkp, Hperm in Hd. apply NoDup_cons in Hd as [_ Hd]. unfold parented in Hold. rewrite Hperm in Hold.
  assert (HX : parented ps' X).
  { apply (reparent ps ps' leaving X Hold Hd). intros p x Hp Hmv Hx. rewrite leaving_moved in Hmv. destruct (decide (p = i)) as [->|Hpi]; [|by apply grown_parent]. rewrite Hnd in Hx. injection Hx as <-. eexists. split; [apply grown_i|done]. }
  unfold parented, X in HX |- *. rewrite !Forall_app in HX |- *. destruct HX as (H1 & H2 & H3 & H4 & H5 & H6). split; [done|]. split; [|done]. split; [|split; [done|split; [|done]]].
  - unfold see_kids in *. simpl. unfold ins. rewrite fmap_app, fmap_cons, Forall_app. rewrite <- (take_drop (S m) (an_rids ndy)), fmap_app, Forall_app in H2. destruct H2 as [H2a H2b]. split; [done|]. constructor; [|done].
    simpl. rewrite Hrn. eexists. split; [apply grown_new|]. simpl. rewrite Forall_forall in H2a. destruct (H2a (rid_page_no r, y)) as (x & Hx & Hpx).
    { apply list_elem_of_fmap. exists r. split; [done|]. apply list_elem_of_lookup. exists m. by rewrite lookup_take_lt by lia. }
    simpl in Hx, Hpx. rewrite Hri, grown_i in Hx. by injection Hx as <-.
  - apply (pair_kids ps' _ _ grown_i eq_refl grown_new eq_refl grown_kids); [done|]. intros p Hp. apply Forall_singleton. simpl. destruct (moved_pages p Hp) as [Hpt Hpi]. destruct (tree_page p (node_pages p Hpt)) as [x Hx].
    eexists. split; [apply grown_other; [done|by intros ->; destruct parent_out|exact Hx]|]. simpl. by rewrite decide_True.
Qed.

Lemma grown_twf : twf ps' n root.
Proof.
  destruct parent_ne as (H1 & H2 & H3 & H4). destruct grown_path as (Hs & _ & _). split.
  - done.
  - rewrite grown_pages. constructor; [|apply Hw]. intros [x Hx]%tree_page. by rewrite Hnew in Hx.
  - intros j. pose proof (tw_levels _ _ _ Hw j) as Hch. destruct (decide (j = k)) as [->|Hj].
    + destruct grown_level_k as (l1 & l2 & E & ->). pose proof (level_nodup k) as Hd. pose proof (level_real k) as Hr. rewrite E in Hd, Hr, Hch. eapply chain_insert; [apply grown_relinked|done..].
    + rewrite grown_level by done. eapply chain_same; [apply grown_relinked| | |exact Hch].
      * intros Hin. apply Hj. eapply level_unique; [apply Hw|exact Hin|]. eapply path_level; [exact Hpath|by eexists].
      * destruct next_level as [->|[Hn _]]; [apply level_real|]. intros Hin. apply Hj. eapply level_unique; [apply Hw|exact Hin|exact Hn].
  - apply grown_parented.
  - pose proof (tw_root _ _ _ Hw) as Hr. unfold parented in *. rewrite Forall_singleton in *. simpl in *. destruct Hr as (x & Hx & Hpx). destruct (decide (root = i)) as [Eri|Hri'].
    + rewrite Eri in Hx |- *. eexists. split; [apply grown_i|]. rewrite Hnd in Hx. by injection Hx as ->.
    + destruct (grown_parent root x Hri' Hx) as (x' & Hx' & Ex); [|exists x'; by rewrite Ex]. intros [Hin _]%moved_pages. by apply Hri', root_only.
  - assert (IX_NO_PAGE <> i) by (intros <-; by rewrite (tw_pages _ _ _ Hw) in Hnd). assert (IX_NO_PAGE <> y) by (intros <-; by rewrite (tw_pages _ _ _ Hw) in Hndy).
    unfold grown. rewrite lookup_insert_ne by done. rewrite halves_lookup by done. by rewrite (tw_pages _ _ _ Hw).
Qed.
End grown.

(** *** Under a new root *)

Section risen.
Context (Hkn : n = k) (Hir : root = i) (Hlo : lo = None) (Hhi : hi = None) (z : Z) (ri rn : Rid) (Hri : rid_page_no ri = i) (Hrn : rid_page_no rn = new).
Context (Hz : ps !! z = None) (Hzn : z <> new) (Hzo : z <> IX_NO_PAGE).
Abbreviation ps' := (risen ps i new nd c z ri rn up).
Abbreviation ndz := (mkANode IX_NO_PAGE false IX_NO_PAGE IX_NO_PAGE [up] [ri; rn]).

Lemma risen_ne : z <> i /\ i <> new.
Proof. split; congruence. Qed.
Lemma risen_z : ps' !! z = Some ndz.
Proof. apply lookup_insert_eq. Qed.
Lemma risen_i : ps' !! i = Some (with_parent z (left_half new nd c)).
Proof. destruct risen_ne as [? ?]. unfold risen. rewrite lookup_insert_ne by done. apply lookup_insert_eq. Qed.
Lemma risen_new : ps' !! new = Some (with_parent z (right_half i nd c)).
Proof. destruct risen_ne as [? ?]. unfold risen. rewrite !lookup_insert_ne by done. apply lookup_insert_eq. Qed.
Lemma risen_other p x : p <> i -> ps !! p = Some x -> ps' !! p = Some (touch new nd c p x).
Proof. intros H1 Hx. unfold risen. rewrite !lookup_insert_ne by congruence. rewrite halves_lookup by congruence. by rewrite Hx. Qed.
Lemma risen_kids p : p ∈ tpages ps k i -> p <> i -> like_page ps ps' p.
Proof. intros Hp Hpi. destruct (tree_page p (node_pages p Hp)) as [x Hx]. unfold like_page. by rewrite (risen_other p x Hpi Hx), Hx. Qed.
Lemma risen_relinked : relinked ps ps' i new nd.
Proof. split; [eexists; split; [apply risen_i|done]|eexists; split; [apply risen_new|done]|]. intros p x Hp Hx. eexists. split; [by apply risen_other|done]. Qed.

Lemma risen_sub : sub h ps' (S k) z None None.
Proof.
  destruct (pair_sub ps' _ _ risen_i eq_refl risen_new eq_refl risen_kids) as [H1 H2]. destruct up_good as (G1 & G2 & _). rewrite Hlo in H1. rewrite Hhi in H2.
  exists ndz. split; [apply risen_z|]. split; [|split; [|split; [done|split; [done|]]]].
  - split; [by apply Forall_singleton|]. intros a b x x' Hab Hx Hx'. apply lookup_lt_Some in Hx'. simpl in Hx'. lia.
  - intros x ->%list_elem_of_singleton. by rewrite Hlo, Hhi in G2.
  - intros j q Hq. destruct j as [|[|j]]; [| |done]; injection Hq as <-; [by rewrite Hri|by rewrite Hrn].
Qed.

Lemma risen_walk A (f : visit A) : walk f ps' (S k) z = f (S k) z ndz ++ walk f ps' k i ++ walk f ps' k new.
Proof. rewrite (walk_S _ _ _ _ _ risen_z). simpl. rewrite !below_cons, Hri, Hrn. by rewrite app_nil_r. Qed.

Lemma risen_entries : entries ps' (S k) z = entries ps n root.
Proof. rewrite !entries_walk, risen_walk, (pair_entries ps' _ _ risen_i eq_refl risen_new eq_refl risen_kids). by rewrite Hkn, Hir. Qed.
Lemma risen_pages : tpages ps' (S k) z ≡ₚ z :: new :: tpages ps n root.
Proof. rewrite risen_walk, (pair_pages ps' _ _ risen_i eq_refl risen_new eq_refl risen_kids). by rewrite Hkn, Hir. Qed.
Lemma risen_level j : level j ps' (S k) z = if decide (j = S k) then [z] else if decide (j = k) then [i; new] else level j ps n root.
Proof.
  destruct (decide (j = S k)) as [->|Hj]; [apply (level_here _ _ _ _ risen_z)|]. rewrite risen_walk, (pair_level ps' _ _ risen_i eq_refl risen_new eq_refl risen_kids). unfold see_level at 1.
  destruct (Nat.eqb_spec (S k) j); [congruence|]. by rewrite Hkn, Hir.
Qed.

Lemma risen_parented : parented ps' (kids ps' (S k) z).
Proof.
  rewrite risen_walk. pose proof (tw_kids _ _ _ Hw) as Hold. pose proof (kids_pages h _ _ _ _ _ (tw_sub _ _ _ Hw)) as Hkp. pose proof (tw_nodup _ _ _ Hw) as Hd. rewrite Hkp in Hd. clear Hkp. rewrite Hkn, Hir in Hold, Hd.
  unfold parented in Hold. rewrite node_kids in Hold, Hd. apply NoDup_cons in Hd as [Hi Hd].
  assert (HX : parented ps' staying).
  { apply (reparent ps ps' leaving staying Hold Hd). intros p x Hp Hmv Hx. rewrite leaving_moved in Hmv. assert (p <> i) by (intros ->; apply Hi; rewrite fmap_app; apply elem_of_app; by right).
    eexists. split; [by apply risen_other|]. simpl. by rewrite decide_False. }
  apply Forall_app. split.
  - constructor; [|constructor; [|constructor]]; simpl; [rewrite Hri; eexists; split; [apply risen_i|done]|rewrite Hrn; eexists; split; [apply risen_new|done]].
  - apply (pair_kids ps' _ _ risen_i eq_refl risen_new eq_refl risen_kids); [done|]. intros p Hp. apply Forall_singleton. simpl. destruct (moved_pages p Hp) as [Hpt Hpi]. destruct (tree_page p (node_pages p Hpt)) as [x Hx].
    eexists. split; [by apply risen_other|]. simpl. by rewrite decide_True.
Qed.

Lemma risen_twf : twf ps' (S k) z.
Proof.
  split.
  - apply risen_sub.
  - rewrite risen_pages. constructor; [|constructor; [|apply Hw]].
    + intros [?|[x Hx]%tree_page]%elem_of_cons; [done|]. by rewrite Hz in Hx.
    + intros [x Hx]%tree_page. by rewrite Hnew in Hx.
  - intros j. rewrite risen_level. destruct (decide (j = S k)) as [->|Hj]; [split; [eexists; split; [apply risen_z|done]|done]|]. pose proof (tw_levels _ _ _ Hw j) as Hch. destruct (decide (j = k)) as [->|Hjk].
    + pose proof (level_nodup k) as Hd. pose proof (level_real k) as Hr. rewrite Hkn, Hir, (level_here _ _ _ _ Hnd) in Hd, Hr, Hch. apply (chain_insert ps ps' i new nd IX_NO_PAGE [] [] risen_relinked Hnd Hd Hr Hch).
    + eapply chain_same; [apply risen_relinked| | |exact Hch].
      * intros Hin. apply Hjk. eapply level_unique; [apply Hw|exact Hin|]. eapply path_level; [exact Hpath|by eexists].
      * destruct next_level as [->|[Hn _]]; [apply level_real|]. intros Hin. apply Hjk. eapply level_unique; [apply Hw|exact Hin|exact Hn].
  - apply risen_parented.
  - apply Forall_singleton. eexists. split; [apply risen_z|done].
  - assert (IX_NO_PAGE <> i) by (intros <-; by rewrite (tw_pages _ _ _ Hw) in Hnd). unfold risen. rewrite !lookup_insert_ne by done. rewrite halves_lookup by done. by rewrite (tw_pages _ _ _ Hw).
Qed.
End risen.
End split.
End IxG.
