(* ===== verification/IxSplit.v ===== *)
(** Insertion into a full leaf of a B+ tree: [split] and [insert_into_parent] of [IxIndexHandle], and [insert_entry] when
    the neighbours of the leaf are full as well.

    The bytes of the pages first: a node that is cut in two, a parent that gets a child, a new root.  Then the pages of
    the store, several of which are pinned at once ([held]), and last the recursion from the leaf towards the root. *)

From S2P Require Import Prelude Bytes Errors Disk BufferPool PageStore Defs LogRecord.
From S2P Require Import RmFile RmProofs IxDefs IxNode IxNodeProofs IxTree IxTreeProofs.
From S2P Require Import IxProps IxGrow.
Import IxN IxT IxP IxG.

Module IxS.

(** ** Nodes *)

Section node.
Context (h : IxFileHdr) (Hg : geo h).
Local Open Scope prog_scope.
Import IxNode.

Definition with_next (v : Z) (nd : anode) : anode := mkANode (an_parent nd) (an_leaf nd) (an_prev nd) v (an_keys nd) (an_rids nd).
Definition with_prev (v : Z) (nd : anode) : anode := mkANode (an_parent nd) (an_leaf nd) v (an_next nd) (an_keys nd) (an_rids nd).

(** the header of a node changed *)
Lemma nrep_rehead nd nd' b b' : nrep h nd b -> page b' -> (forall i, slot h i -> K h b' i = K h b i) -> (forall i, slot h i -> R h b' i = R h b i) ->
  an_keys nd' = an_keys nd -> an_rids nd' = an_rids nd -> an_leaf nd' = an_leaf nd ->
  F b' off_parent = an_parent nd' -> F b' off_num_key = F b off_num_key -> slice off_is_leaf 1 b' = slice off_is_leaf 1 b -> F b' off_prev_leaf = an_prev nd' -> F b' off_next_leaf = an_next nd' ->
  nrep h nd' b'.
Proof.
  intros Hr Hp HK HR Ek Er El Hpa Hn Hl Hpr Hnx. pose proof (nrep_keys_cap h nd b Hr) as Hkc. pose proof Hr as [? ? ? ? ? ? Hks Hrs Hcap Hlen]. split; try done.
  - by rewrite Hn, Ek.
  - by rewrite Hl, El.
  - rewrite Ek. intros i k Hi. pose proof (lookup_lt_Some _ _ _ Hi). rewrite HK by (unfold slot, zlen in *; lia). by apply Hks.
  - rewrite Er. intros i r Hi. pose proof (lookup_lt_Some _ _ _ Hi). rewrite HR by (unfold slot, zlen in *; lia). by apply Hrs.
  - by rewrite Er.
  - by rewrite Er, El, Ek.
Qed.

Lemma nrep_set off v nd nd' b : nrep h nd b -> int32_ok v -> off = off_parent \/ off = off_prev_leaf \/ off = off_next_leaf ->
  an_keys nd' = an_keys nd -> an_rids nd' = an_rids nd -> an_leaf nd' = an_leaf nd ->
  an_parent nd' = (if off =? off_parent then v else an_parent nd) -> an_prev nd' = (if off =? off_prev_leaf then v else an_prev nd) -> an_next nd' = (if off =? off_next_leaf then v else an_next nd) ->
  exists b', set_int off v b = (Ok tt, b') /\ nrep h nd' b'.
Proof.
  intros Hr Hv Ho Ek Er El Epa Epr Enx. pose proof (nr_page _ _ _ Hr) as Hp. destruct (set_int_agree h Hg b off v Hp) as (b' & E & Hp' & Hs & Hf & HK & HR); [destruct Ho as [->|[->| ->]]; unfold off_parent, off_prev_leaf, off_next_leaf; lia|].
  exists b'. split; [done|]. assert (Hfield : forall o, 0 <= o -> o + 4 <= off \/ off + 4 <= o -> F b' o = F b o) by (intros o H1 H2; unfold F; by rewrite Hf).
  assert (Hself : F b' off = v) by (unfold F; rewrite Hs; by apply dec_enc_i32). pose proof Hr as [_ H1 H2 H3 H4 H5 _ _ _ _].
  unfold off_parent, off_prev_leaf, off_next_leaf in *.
  apply (nrep_rehead nd nd' b b'); try done; destruct Ho as [->|[->| ->]]; simpl in *; rewrite ?Epa, ?Epr, ?Enx; unfold off_parent, off_num_key, off_is_leaf, off_prev_leaf, off_next_leaf in *; try done; try (rewrite Hfield; [done|lia|lia]); rewrite Hf; (done || lia).
Qed.
Lemma nrep_set_parent v nd b : nrep h nd b -> int32_ok v -> exists b', set_parent_page_no v b = (Ok tt, b') /\ nrep h (with_parent v nd) b'.
Proof. intros Hr Hv. apply (nrep_set off_parent v nd); try done; by left. Qed.
Lemma nrep_set_prev v nd b : nrep h nd b -> int32_ok v -> exists b', set_prev_leaf v b = (Ok tt, b') /\ nrep h (with_prev v nd) b'.
Proof. intros Hr Hv. apply (nrep_set off_prev_leaf v nd); try done; by (right; left). Qed.
Lemma nrep_set_next v nd b : nrep h nd b -> int32_ok v -> exists b', set_next_leaf v b = (Ok tt, b') /\ nrep h (with_next v nd) b'.
Proof. intros Hr Hv. apply (nrep_set off_next_leaf v nd); try done; by (right; right). Qed.

(** the node keeps its first [c] keys *)
Lemma nrep_truncate nd b c : nrep h nd b -> (cut nd c <= length (an_keys nd))%nat ->
  exists b', set_size (Z.of_nat c) b = (Ok tt, b') /\ nrep h (set_pairs (take c (an_keys nd)) (take (cut nd c) (an_rids nd)) nd) b'.
Proof.
  intros Hr Hcl. pose proof (nr_len _ _ _ Hr) as Hlen. pose proof (nr_cap _ _ _ Hr) as Hcap. assert (Hle : (c <= cut nd c)%nat) by (unfold cut; destruct (an_leaf nd); lia).
  assert (Hz : zlen (take c (an_keys nd)) = Z.of_nat c) by (unfold zlen; rewrite length_take; lia). rewrite <- Hz.
  apply (nrep_resize h Hg (fun _ => True) (fun _ => True) nd b b); [done|apply agree_refl, Hr| | | |].
  - intros i k [Hi _]%lookup_take_Some. by apply (nr_keys _ _ _ Hr).
  - intros i r [Hi _]%lookup_take_Some. by apply (nr_rids _ _ _ Hr).
  - unfold zlen in *. rewrite length_take. lia.
  - rewrite !length_take. unfold cut in *. destruct (an_leaf nd); lia.
Qed.

(** the header of a page as [set_page_hdr] writes it *)
Lemma set_page_hdr_ok b free par num (lf : bool) prv nxt : page b -> int32_ok par -> int32_ok num -> int32_ok prv -> int32_ok nxt ->
  exists b', set_page_hdr free par num lf prv nxt b = (Ok tt, b') /\ page b' /\ F b' off_parent = par /\ F b' off_num_key = num /\ negb (le_value (slice off_is_leaf 1 b') =? 0) = lf /\
    F b' off_prev_leaf = prv /\ F b' off_next_leaf = nxt /\ (forall i, slot h i -> K h b' i = K h b i) /\ (forall i, slot h i -> R h b' i = R h b i).
Proof.
  intros Hp H1 H2 H3 H4. set (w := enc_i32 free ++ enc_i32 par ++ enc_i32 num ++ enc_i32 (if lf then 1 else 0) ++ enc_i32 prv ++ enc_i32 nxt).
  assert (Hz : zlen w = 24) by (unfold w; rewrite !zlen_app, !zlen_enc_i32; lia). exists (splice 0 w b). pose proof (keys_size_pos h Hg) as Hs. unfold page, sizeof_IxPageHdr in *.
  assert (Hsub : forall o n, 0 <= o -> o + n <= 24 -> slice o n (splice 0 w b) = slice o n w) by (intros o n Ho Hn; rewrite slice_splice_sub by lia; by rewrite Z.sub_0_r).
  assert (Hf : forall o pre v suf, w = pre ++ enc_i32 v ++ suf -> zlen pre = o -> int32_ok v -> F (splice 0 w b) o = v).
  { intros o pre v suf E Ho Hv. unfold F. assert (zlen pre + (zlen (enc_i32 v) + zlen suf) = 24) by (rewrite <- !zlen_app; by rewrite <- E). rewrite zlen_enc_i32 in *. pose proof (zlen_nonneg pre). pose proof (zlen_nonneg suf).
    rewrite Hsub, E by lia. rewrite slice_app_r by lia. rewrite Ho, Z.sub_diag, slice_app_l by (rewrite ?zlen_enc_i32; lia). replace 4 with (zlen (enc_i32 v)) by apply zlen_enc_i32. rewrite slice_full. by apply dec_enc_i32. }
  split; [apply store_ok; [done|lia|rewrite Hz; unfold PAGE_SIZE; lia]|]. split; [rewrite zlen_splice; lia|].
  split; [apply (Hf _ (enc_i32 free) _ _ eq_refl (zlen_enc_i32 _) H1)|]. split; [apply (Hf _ (enc_i32 free ++ enc_i32 par) num (enc_i32 (if lf then 1 else 0) ++ enc_i32 prv ++ enc_i32 nxt)); [by rewrite <- !app_assoc|by rewrite zlen_app, !zlen_enc_i32|done]|].
  split; [|split; [apply (Hf _ (enc_i32 free ++ enc_i32 par ++ enc_i32 num ++ enc_i32 (if lf then 1 else 0)) prv (enc_i32 nxt)); [by rewrite <- !app_assoc|by rewrite !zlen_app, !zlen_enc_i32|done]|split;
    [apply (Hf _ (enc_i32 free ++ enc_i32 par ++ enc_i32 num ++ enc_i32 (if lf then 1 else 0) ++ enc_i32 prv) nxt []); [by rewrite app_nil_r, <- !app_assoc|by rewrite !zlen_app, !zlen_enc_i32|done]|split]]].
  - unfold off_is_leaf. rewrite Hsub by lia. unfold w. do 3 rewrite slice_app_r by (rewrite ?zlen_enc_i32; lia). rewrite !zlen_enc_i32, slice_app_l by (rewrite ?zlen_enc_i32; lia). destruct lf; reflexivity.
  - intros i Hi. pose proof (key_range h Hg i Hi). unfold K, sizeof_IxPageHdr in *. apply slice_splice_disj; lia.
  - intros i Hi. pose proof (rid_range h Hg i Hi). unfold R, sizeof_IxPageHdr in *. apply slice_splice_disj; lia.
Qed.

(** the pairs from [d] on are copied to the front of another page *)
Lemma copy_keys_ok nd b b0 d : nrep h nd b -> page b0 -> (d <= length (an_keys nd))%nat ->
  let n := Z.of_nat (length (an_keys nd) - d) in
  exists ks b1, load (key_off h (Z.of_nat d)) (col_tot_len_ h * n) b = (Ok ks, b) /\ store (key_off h 0) ks b0 = (Ok tt, b1) /\ page b1 /\ (forall i, slot h i -> R h b1 i = R h b0 i) /\
    forall j k, drop d (an_keys nd) !! j = Some k -> K h b1 (Z.of_nat j) = k.
Proof.
  intros Hr Hp0 Hd n. pose proof (nr_page _ _ _ Hr) as Hp. pose proof (nrep_keys_cap h nd b Hr) as Hkc. pose proof (keys_size_pos h Hg) as Hs. pose proof Hg as [G1 G2 G3 G4]. unfold zlen in Hkc.
  unfold page, key_off, sizeof_IxPageHdr in *. set (len := col_tot_len_ h) in *. set (ks := slice (24 + Z.of_nat d * len) (len * n) b).
  assert (Hend : Z.of_nat d * len + len * n <= keys_size_ h) by (rewrite G3; replace (Z.of_nat d * len + len * n) with ((Z.of_nat d + n) * len) by lia; apply Z.mul_le_mono_nonneg_r; lia).
  assert (0 <= Z.of_nat d * len /\ 0 <= len * n) as [Hdl Hnl] by (split; apply Z.mul_nonneg_nonneg; lia).
  assert (Hzk : zlen ks = len * n) by (apply zlen_slice; lia). exists ks, (splice (24 + 0 * len) ks b0). split; [apply load_ok; unfold page; lia|]. split; [apply store_ok; unfold page; lia|].
  split; [rewrite zlen_splice; lia|]. split.
  - intros i Hi. pose proof (rid_range h Hg i Hi). unfold R, sizeof_IxPageHdr in *. apply slice_splice_disj; lia.
  - intros j k Hj. rewrite lookup_drop in Hj. pose proof (lookup_lt_Some _ _ _ Hj) as Hlt. rewrite <- (nr_keys _ _ _ Hr _ _ Hj). unfold K, key_off, sizeof_IxPageHdr. fold len.
    assert (0 <= Z.of_nat j * len /\ Z.of_nat j * len + len <= len * n) as [Hj1 Hj2] by (split; [apply Z.mul_nonneg_nonneg; lia|replace (Z.of_nat j * len + len) with ((Z.of_nat j + 1) * len) by lia; rewrite (Z.mul_comm len); apply Z.mul_le_mono_nonneg_r; lia]).
    rewrite slice_splice_sub by lia. unfold ks. rewrite slice_slice by lia. f_equal. lia.
Qed.

Lemma copy_rids_ok nd b b0 d : nrep h nd b -> page b0 -> (d <= length (an_rids nd))%nat ->
  let n := Z.of_nat (length (an_rids nd) - d) in
  exists rs b1, load (rid_off h (Z.of_nat d)) (Log.sizeof_Rid * n) b = (Ok rs, b) /\ store (rid_off h 0) rs b0 = (Ok tt, b1) /\ page b1 /\ (forall i, slot h i -> K h b1 i = K h b0 i) /\
    forall j r, drop d (an_rids nd) !! j = Some r -> Log.dec_Rid (R h b1 (Z.of_nat j)) = r.
Proof.
  intros Hr Hp0 Hd n. pose proof (nr_page _ _ _ Hr) as Hp. pose proof (nr_cap _ _ _ Hr) as Hcap. pose proof (keys_size_pos h Hg) as Hs. pose proof Hg as [G1 G2 G3 G4]. unfold zlen in Hcap.
  unfold page, rid_off, sizeof_IxPageHdr, Log.sizeof_Rid in *. set (base := 24 + keys_size_ h) in *. set (rs := slice (base + Z.of_nat d * 8) (8 * n) b).
  assert (Hend : base + (Z.of_nat d + n) * 8 <= PAGE_SIZE) by (unfold base; nia).
  assert (Hzr : zlen rs = 8 * n) by (apply zlen_slice; lia). exists rs, (splice (base + 0 * 8) rs b0). split; [apply load_ok; unfold page; lia|]. split; [apply store_ok; unfold page; lia|].
  split; [rewrite zlen_splice; lia|]. split.
  - intros i Hi. pose proof (key_range h Hg i Hi). unfold K, base, sizeof_IxPageHdr in *. apply slice_splice_disj; lia.
  - intros j r Hj. rewrite lookup_drop in Hj. pose proof (lookup_lt_Some _ _ _ Hj) as Hlt. rewrite <- (nr_rids _ _ _ Hr _ _ Hj). f_equal. unfold R, rid_off, sizeof_IxPageHdr, Log.sizeof_Rid. fold base.
    rewrite slice_splice_sub by lia. unfold rs. rewrite slice_slice by lia. f_equal. lia.
Qed.

(** the new node *)
Lemma right_node_ok nd b b0 c i : nrep h nd b -> page b0 -> (cut nd c <= length (an_keys nd))%nat -> int32_ok (an_parent nd) -> int32_ok (an_next nd) -> int32_ok i ->
  let d := cut nd c in
  exists ks rs b1 b2 b3, load (key_off h (Z.of_nat d)) (col_tot_len_ h * Z.of_nat (length (an_keys nd) - d)) b = (Ok ks, b) /\ store (key_off h 0) ks b0 = (Ok tt, b1) /\
    load (rid_off h (Z.of_nat d)) (Log.sizeof_Rid * Z.of_nat (length (an_rids nd) - d)) b = (Ok rs, b) /\ store (rid_off h 0) rs b1 = (Ok tt, b2) /\
    set_page_hdr IX_NO_PAGE (an_parent nd) (Z.of_nat (length (an_keys nd) - d)) (an_leaf nd) i (an_next nd) b2 = (Ok tt, b3) /\ page b1 /\ page b2 /\ nrep h (right_half i nd c) b3.
Proof.
  intros Hr Hp0 Hd Hpar Hnx Hi d. pose proof (nr_len _ _ _ Hr) as Hlen. pose proof (nr_cap _ _ _ Hr) as Hcap. pose proof (nrep_keys_cap h nd b Hr) as Hkc. assert (Hdr : (d <= length (an_rids nd))%nat) by (rewrite Hlen; destruct (an_leaf nd); lia).
  destruct (copy_keys_ok nd b b0 d Hr Hp0 Hd) as (ks & b1 & L1 & S1 & P1 & _ & K1). destruct (copy_rids_ok nd b b1 d Hr P1 Hdr) as (rs & b2 & L2 & S2 & P2 & K2 & R2).
  pose proof Hg as [G1 G2 G3 G4]. unfold zlen in *. unfold Log.sizeof_Rid, sizeof_IxPageHdr in G4.
  destruct (set_page_hdr_ok b2 IX_NO_PAGE (an_parent nd) (Z.of_nat (length (an_keys nd) - d)) (an_leaf nd) i (an_next nd) P2) as (b3 & S3 & P3 & F1 & F2 & F3 & F4 & F5 & K3 & R3); try done; [unfold int32_ok, PAGE_SIZE in *; nia|].
  exists ks, rs, b1, b2, b3. split_and!; try done. split; simpl; try done.
  - rewrite F2. unfold zlen. by rewrite length_drop.
  - intros j k Hj. pose proof (lookup_lt_Some _ _ _ Hj) as Hlt. rewrite length_drop in Hlt. rewrite K3, K2 by (unfold slot; lia). by apply K1.
  - intros j r Hj. pose proof (lookup_lt_Some _ _ _ Hj) as Hlt. rewrite length_drop in Hlt. rewrite R3 by (unfold slot; lia). by apply R2.
  - unfold zlen. rewrite length_drop. lia.
  - rewrite !length_drop. fold d. destruct (an_leaf nd); lia.
Qed.

(** keys move one place to the right, and the rids behind them *)
Lemma move_child_ok b i : page b -> 1 <= i -> i + 1 <= btree_order_ h ->
  exists b', (copy_key h i (i - 1);; copy_rid h (i + 1) i) b = (Ok tt, b') /\ K h b' i = K h b (i - 1) /\ R h b' (i + 1) = R h b i /\ agree h (fun j => j <> i) (fun j => j <> i + 1) b b'.
Proof.
  intros Hb Hi1 Hi2. assert (Si : slot h i) by (unfold slot; lia). assert (Sp : slot h (i - 1)) by (unfold slot; lia). assert (Sn : slot h (i + 1)) by (unfold slot; lia).
  pose proof (key_range h Hg _ Sp). pose proof (rid_range h Hg _ Si). pose proof (keys_size_pos h Hg). pose proof Hg as [? ? _ _].
  assert (Hk : zlen (K h b (i - 1)) = col_tot_len_ h) by (apply zlen_slice; unfold page, sizeof_IxPageHdr in *; lia).
  destruct (set_key_ok h Hg b i (K h b (i - 1)) Hb Si Hk) as (b1 & E1 & HK & A1).
  assert (Hr : zlen (R h b1 i) = Log.sizeof_Rid). { pose proof (ag_page _ _ _ _ _ A1) as Hp. apply zlen_slice; unfold page, sizeof_IxPageHdr, Log.sizeof_Rid in *; lia. }
  destruct (store_rid_ok h Hg b1 (i + 1) (R h b1 i) (ag_page _ _ _ _ _ A1) Sn Hr) as (b2 & E2 & HR & A2). exists b2. split; [|split_and!].
  - unfold copy_key, copy_rid. erewrite bind_ok; [|erewrite bind_ok by (by apply get_key_ok); exact E1].
    erewrite bind_ok; [exact E2|]. apply load_ok; [apply A1|..]; unfold sizeof_IxPageHdr, Log.sizeof_Rid in *; lia.
  - by rewrite (ag_key _ _ _ _ _ A2).
  - by rewrite HR, (ag_rid _ _ _ _ _ A1).
  - destruct (agree_trans _ _ _ _ _ _ _ _ A1 A2) as [? ? Ak Ar]. split; auto.
Qed.

Lemma shift_children n i b : page b -> 0 <= i - Z.of_nat n -> i + 1 <= btree_order_ h ->
  exists b', loop_down n i (fun i => copy_key h i (i - 1);; copy_rid h (i + 1) i) b = (Ok tt, b') /\
    agree h (fun j => j <= i - Z.of_nat n \/ i < j) (fun j => j <= i - Z.of_nat n + 1 \/ i + 1 < j) b b' /\
    (forall j, i - Z.of_nat n < j <= i -> K h b' j = K h b (j - 1) /\ R h b' (j + 1) = R h b j).
Proof.
  revert i b. induction n as [|n IH]; intros i b Hb Hn Hi.
  { exists b. split; [done|]. split; [by apply agree_refl|]. intros. lia. }
  destruct (move_child_ok b i Hb ltac:(lia) Hi) as (b1 & E1 & K1 & R1 & A1).
  destruct (IH (i - 1) b1 (ag_page _ _ _ _ _ A1) ltac:(lia) ltac:(lia)) as (b2 & E2 & A2 & H2).
  exists b2. split; [cbn [loop_down]; by rewrite (bind_ok _ _ _ _ _ E1)|]. split.
  - destruct (agree_trans _ _ _ _ _ _ _ _ A1 A2) as [? ? Ak Ar]. split; try done; intros j Hj Hc; [apply Ak|apply Ar]; try done; lia.
  - intros j Hc. destruct (decide (j = i)) as [->|Hne].
    + rewrite (ag_key _ _ _ _ _ A2), (ag_rid _ _ _ _ _ A2) by (unfold slot in *; lia). done.
    + destruct (H2 j ltac:(lia)) as [-> ->]. rewrite (ag_key _ _ _ _ _ A1), (ag_rid _ _ _ _ _ A1) by (unfold slot in *; lia). done.
Qed.

(** the steps of [insert_into_parent] on the bytes of the parent *)
Lemma insert_child_ok nd b m key r : nrep h nd b -> an_leaf nd = false -> (m <= length (an_keys nd))%nat -> zlen (an_rids nd) <= btree_order_ h -> zlen key = col_tot_len_ h -> Log.rid_ok r ->
  let n := zlen (an_keys nd) in
  exists b1 b2 b3 b4, loop_down (Z.to_nat (n - Z.of_nat m)) n (fun i => copy_key h i (i - 1);; copy_rid h (i + 1) i) b = (Ok tt, b1) /\ set_key h (Z.of_nat m) key b1 = (Ok tt, b2) /\
    set_rid h (Z.of_nat m + 1) r b2 = (Ok tt, b3) /\ get_size b3 = (Ok n, b3) /\ set_size (n + 1) b3 = (Ok tt, b4) /\ page b1 /\ page b2 /\ page b3 /\
    nrep h (set_pairs (ins m key (an_keys nd)) (ins (S m) r (an_rids nd)) nd) b4.
Proof.
  intros Hr Hl Hm Hcap Hk Hrid n. pose proof (nr_len _ _ _ Hr) as Hlen. rewrite Hl in Hlen. pose proof (nr_page _ _ _ Hr) as Hp. unfold n, zlen in *. set (len := length (an_keys nd)) in *.
  destruct (shift_children (Z.to_nat (Z.of_nat len - Z.of_nat m)) (Z.of_nat len) b Hp) as (b1 & E1 & A1 & S1); [lia|lia|].
  replace (Z.of_nat len - Z.of_nat (Z.to_nat (Z.of_nat len - Z.of_nat m))) with (Z.of_nat m) in * by lia.
  destruct (set_key_ok h Hg b1 (Z.of_nat m) key (ag_page _ _ _ _ _ A1)) as (b2 & E2 & K2 & A2); [unfold slot; lia|done|].
  destruct (store_rid_ok h Hg b2 (Z.of_nat m + 1) (Log.enc_Rid r) (ag_page _ _ _ _ _ A2)) as (b3 & E3 & R3 & A3); [unfold slot; lia|apply Log.zlen_enc_Rid|].
  pose proof (agree_trans _ _ _ _ _ _ _ _ A1 (agree_trans _ _ _ _ _ _ _ _ A2 A3)) as A. pose proof A as [Hp3 _ HK3 HR3].
  assert (Hlk : length (ins m key (an_keys nd)) = S len) by (by apply length_ins). assert (Hlr : length (ins (S m) r (an_rids nd)) = S (length (an_rids nd))) by (apply length_ins; lia).
  destruct (nrep_resize h Hg _ _ nd b b3 (ins m key (an_keys nd)) (ins (S m) r (an_rids nd)) Hr A) as (b4 & E4 & Hr4).
  - intros j k Hj. pose proof (lookup_lt_Some _ _ _ Hj). rewrite lookup_ins in Hj by done. repeat destruct (decide _); simplify_eq.
    + rewrite HK3 by (unfold slot; lia). by apply (nr_keys _ _ _ Hr).
    + by rewrite (ag_key _ _ _ _ _ A3) by (unfold slot; lia || done).
    + rewrite (ag_key _ _ _ _ _ A3), (ag_key _ _ _ _ _ A2), (proj1 (S1 (Z.of_nat j) ltac:(lia))) by (unfold slot; lia || done).
      replace (Z.of_nat j - 1) with (Z.of_nat (j - 1)) by lia. by apply (nr_keys _ _ _ Hr).
  - intros j q Hj. pose proof (lookup_lt_Some _ _ _ Hj). rewrite lookup_ins in Hj by lia. repeat destruct (decide _); simplify_eq.
    + rewrite HR3 by (unfold slot; lia). by apply (nr_rids _ _ _ Hr).
    + replace (Z.of_nat (S m)) with (Z.of_nat m + 1) by lia. rewrite R3. by apply Log.dec_enc_Rid.
    + rewrite (ag_rid _ _ _ _ _ A3), (ag_rid _ _ _ _ _ A2) by (unfold slot; lia || done). replace (Z.of_nat j) with (Z.of_nat (j - 1) + 1) by lia.
      rewrite (proj2 (S1 (Z.of_nat (j - 1)) ltac:(lia))). by apply (nr_rids _ _ _ Hr).
  - unfold zlen. lia.
  - rewrite Hl. lia.
  - exists b1, b2, b3, b4. split_and!; try done; [exact (agree_size h _ _ nd b b3 Hr A)| |apply A1|apply A2].
    rewrite <- E4. unfold zlen. rewrite Hlk. f_equal. lia.
Qed.

Lemma set_rid_page_ok b i v : page b -> slot h i -> int32_ok v ->
  exists b', set_rid_page_no h i v b = (Ok tt, b') /\ rid_page_no (Log.dec_Rid (R h b' i)) = v /\ agree h (fun _ => True) (fun j => j <> i) b b'.
Proof.
  intros Hb Hi Hv. pose proof (rid_range h Hg i Hi) as Hr. pose proof (keys_size_pos h Hg) as Hs. pose proof (zlen_enc_i32 v) as Hz. unfold page, Log.sizeof_Rid in *.
  exists (splice (rid_off h i) (enc_i32 v) b). split; [|split].
  - apply store_ok; try done; unfold sizeof_IxPageHdr in *; lia.
  - unfold R, Log.sizeof_Rid. simpl. rewrite slice_slice by (unfold sizeof_IxPageHdr in *; lia). rewrite Z.add_0_r, slice_splice_same by (unfold sizeof_IxPageHdr in *; lia). by apply dec_enc_i32.
  - split; unfold page, K, R, Log.sizeof_Rid, sizeof_IxPageHdr in *.
    + rewrite zlen_splice; lia.
    + intros. apply slice_splice_disj; lia.
    + intros j Hj ?. pose proof (key_range h Hg j Hj). apply slice_splice_disj; unfold sizeof_IxPageHdr in *; lia.
    + intros j Hj ?. pose proof (rid_range h Hg j Hj). pose proof (rid_disjoint h i j ltac:(done)). unfold Log.sizeof_Rid in *. apply slice_splice_disj; unfold sizeof_IxPageHdr in *; lia.
Qed.

(** the page of a new root *)
Lemma new_root_ok b0 key i new : page b0 -> zlen key = col_tot_len_ h -> int32_ok i -> int32_ok new ->
  exists b1 b2 b3 b4 b5 ri rn, set_page_hdr IX_NO_PAGE IX_NO_PAGE 0 false IX_NO_PAGE IX_NO_PAGE b0 = (Ok tt, b1) /\ set_key h 0 key b1 = (Ok tt, b2) /\
    set_rid_page_no h 0 i b2 = (Ok tt, b3) /\ set_rid_page_no h 1 new b3 = (Ok tt, b4) /\ get_size b4 = (Ok 0, b4) /\ set_size (0 + 1) b4 = (Ok tt, b5) /\
    page b1 /\ page b2 /\ page b3 /\ page b4 /\ rid_page_no ri = i /\ rid_page_no rn = new /\ nrep h (mkANode IX_NO_PAGE false IX_NO_PAGE IX_NO_PAGE [key] [ri; rn]) b5.
Proof.
  intros Hp0 Hk Hi Hn. pose proof Hg as [_ Hord _ _]. assert (Hno : int32_ok IX_NO_PAGE) by done.
  destruct (set_page_hdr_ok b0 IX_NO_PAGE IX_NO_PAGE 0 false IX_NO_PAGE IX_NO_PAGE Hp0) as (b1 & E1 & P1 & F1 & F2 & F3 & F4 & F5 & _ & _); try done.
  destruct (set_key_ok h Hg b1 0 key P1) as (b2 & E2 & K2 & A2); [unfold slot; lia|done|]. destruct (set_rid_page_ok b2 0 i (ag_page _ _ _ _ _ A2)) as (b3 & E3 & R3 & A3); [unfold slot; lia|done|].
  destruct (set_rid_page_ok b3 1 new (ag_page _ _ _ _ _ A3)) as (b4 & E4 & R4 & A4); [unfold slot; lia|done|]. pose proof (agree_trans _ _ _ _ _ _ _ _ A2 (agree_trans _ _ _ _ _ _ _ _ A3 A4)) as A.
  set (nd0 := mkANode IX_NO_PAGE false IX_NO_PAGE IX_NO_PAGE [] [Log.dec_Rid (R h b1 0)]).
  assert (Hr0 : nrep h nd0 b1). { split; simpl; try done; [|unfold zlen; simpl; lia]. intros j r Hj. destruct j; [by injection Hj as <-|done]. }
  set (ri := Log.dec_Rid (R h b4 0)). set (rn := Log.dec_Rid (R h b4 1)).
  destruct (nrep_resize h Hg _ _ nd0 b1 b4 [key] [ri; rn] Hr0 A) as (b5 & E5 & Hr5).
  - intros j k Hj. destruct j; [|done]. injection Hj as <-. simpl. by rewrite (ag_key _ _ _ _ _ A4), (ag_key _ _ _ _ _ A3) by (unfold slot; lia || done).
  - intros j r Hj. destruct j as [|[|]]; [by injection Hj as <-..|done].
  - unfold zlen. simpl. lia.
  - done.
  - exists b1, b2, b3, b4, b5, ri, rn. split_and!; try done; [exact (agree_size h _ _ nd0 b1 b4 Hr0 A)|apply A2|apply A3|apply A4|].
    unfold ri. by rewrite (ag_rid _ _ _ _ _ A4) by (unfold slot; lia || done).
Qed.
End node.

(** ** Pages of the store, some of them pinned *)

Section store.
Context {S : Type} {PS : PageStore S} {PL : PageStoreLaws S}.
Local Open Scope prog_scope.
Abbreviation bytes := (gmap Z (list Z)).
Abbreviation pinned := (gmap Z page_ptr).
Abbreviation card H := (Z.of_nat (stdpp.base.size H)).

(** the pages [B] of the file [g], of which those in [H] are pinned once; [R] frames are left to the index, and the file has [np] pages *)
Record held (g R np : Z) (s : S) (B : bytes) (H : pinned) : Prop := {
  he_inv : ps_inv s;
  he_file : ps_file s g;
  he_page : forall i b, B !! i = Some b -> ps_page s (mkPageId g i) b;
  he_pins : forall i b, B !! i = Some b -> ps_pins s (mkPageId g i) = match H !! i with Some _ => 1 | None => 0 end;
  he_handle : forall i p, H !! i = Some p -> ps_handle s p (mkPageId g i) /\ is_Some (B !! i);
  he_room : ps_room s = R - card H;
  he_np : ps_npages s g = np;
}.

Lemma key_ne (g i j : Z) : i <> j -> mkPageId g i <> mkPageId g j.
Proof. congruence. Qed.

(** an operation on the page of a handle *)
Lemma on_node_raw {A} s hd p k b (m : IxFileHdr -> Prog (list Z) A) a b' : ps_inv s -> ps_handle s p k -> ps_page s k b -> m (ix_hdr_ hd) b = (Ok a, b') -> zlen b' = PAGE_SIZE ->
  exists s', Ix.on_node p m (s, hd) = (Ok a, (s', hd)) /\ ps_inv s' /\ ps_others k s s' /\ ps_page s' k b' /\ ps_handle s' p k /\ ps_pins s' k = ps_pins s k /\ ps_room s' = ps_room s /\
    (forall g, ps_npages s' g = ps_npages s g) /\ (forall g, ps_file s g -> ps_file s' g).
Proof.
  intros Hi Hhd Hpg Em Hz. pose proof (ps_page_len s k b Hi Hpg) as Hlen. unfold Ix.on_node, Ix.hdr. rewrite (bind_ok (gets _) _ (s, hd) (ix_hdr_ hd) (s, hd)) by done.
  pose proof (ps_read s p k b 0 PAGE_SIZE Hi Hhd Hpg eq_refl) as Er. rewrite <- Hlen in Er at 2. rewrite slice_full in Er. rewrite (bind_ok _ _ _ b (s, hd)) by (unfold Ix.lift, zoom; simpl; by rewrite Er).
  rewrite Em. destruct (decide (b' = b)) as [->|Hne].
  - rewrite bool_decide_true by done. exists s. split_and!; try done.
  - rewrite bool_decide_false by done. destruct (ps_write s p k b 0 b' Hi Hhd Hpg) as ([] & s' & E & H); [by rewrite Hz|]. rewrite splice_all in H by congruence. exists s'.
    rewrite (bind_ok _ _ _ tt (s', hd)) by (unfold Ix.lift, zoom; simpl; by rewrite E). done.
Qed.

(** ... of a pinned node *)
Lemma held_on {A B} g R np s BB H hd (i : Z) p b (m : IxFileHdr -> Prog (list Z) A) a b' (f : A -> Prog Ix.St B) P :
  held g R np s BB H -> H !! i = Some p -> BB !! i = Some b -> m (ix_hdr_ hd) b = (Ok a, b') -> zlen b' = PAGE_SIZE ->
  (forall s', held g R np s' (<[i := b']> BB) H -> runs (f a) (s', hd) P) -> runs (bind (Ix.on_node p m) f) (s, hd) P.
Proof.
  intros Hh Hp Hb Em Hz Hf. pose proof Hh as []. destruct (he_handle0 i p Hp) as [Hhd _].
  destruct (on_node_raw s hd p _ b m a b' he_inv0 Hhd (he_page0 i b Hb) Em Hz) as (s' & E & I' & O' & P' & H' & N' & R' & K' & F'). eapply runs_bind_eq; [exact E|]. apply Hf. split; auto.
  - intros j bj. rewrite lookup_insert. destruct (decide (i = j)) as [<-|Hij]; [by intros [= <-]|]. intros Hj. by apply (ot_page _ _ _ _ _ _ _ O'), he_page0; [apply key_ne|].
  - intros j bj. rewrite lookup_insert. destruct (decide (i = j)) as [<-|Hij]; [intros _; rewrite N'; by eapply he_pins0|]. intros Hj. rewrite (ot_pins _ _ _ _ _ _ _ O') by (by apply key_ne). by eapply he_pins0.
  - intros j q Hj. destruct (he_handle0 j q Hj) as [Hq Hbj]. split; [|rewrite lookup_insert; by destruct (decide (i = j))]. destruct (decide (i = j)) as [<-|Hij]; [by rewrite Hp in Hj; injection Hj as <-|].
    by apply (ot_handle _ _ _ _ _ _ _ O'); [apply key_ne|].
  - by rewrite R'.
  - by rewrite K'.
Qed.

Lemma held_on_eq {A} g R np s BB H hd (i : Z) p b (m : IxFileHdr -> Prog (list Z) A) a b' : held g R np s BB H -> H !! i = Some p -> BB !! i = Some b -> m (ix_hdr_ hd) b = (Ok a, b') -> zlen b' = PAGE_SIZE ->
  exists s', Ix.on_node p m (s, hd) = (Ok a, (s', hd)) /\ held g R np s' (<[i := b']> BB) H.
Proof.
  intros Hh Hp Hb Em Hz. destruct (held_on g R np s BB H hd i p b m a b' ret (fun x t => x = a /\ exists s', t = (s', hd) /\ held g R np s' (<[i := b']> BB) H) Hh Hp Hb Em Hz) as (x & t & E & -> & s' & -> & Hh').
  - intros s' Hh'. apply runs_ret. eauto.
  - exists s'. split; [|done]. apply bind_inv in E as (y & t & E & [= -> ->]). done.
Qed.

Lemma held_read {A B} g R np s BB H hd (i : Z) p b (m : IxFileHdr -> Prog (list Z) A) a (f : A -> Prog Ix.St B) P :
  held g R np s BB H -> H !! i = Some p -> BB !! i = Some b -> m (ix_hdr_ hd) b = (Ok a, b) -> runs (f a) (s, hd) P -> runs (bind (Ix.on_node p m) f) (s, hd) P.
Proof.
  intros Hh Hp Hb Em Hf. destruct (he_handle _ _ _ _ _ _ Hh i p Hp) as [Hhd _]. pose proof (he_page _ _ _ _ _ _ Hh i b Hb) as Hpg. pose proof (he_inv _ _ _ _ _ _ Hh) as Hi.
  pose proof (ps_page_len s _ b Hi Hpg) as Hlen. unfold Ix.on_node, Ix.hdr. rstep. rstep. cbn [snd]. rstep.
  eapply lift_step; [apply (ps_read s p _ b 0 PAGE_SIZE Hi Hhd Hpg); done|]. rewrite <- Hlen, slice_full, Em, bool_decide_true by done. rstep. rstep. exact Hf.
Qed.

Lemma held_page_no {B} g R np s BB H hd (i : Z) p (f : Z -> Prog Ix.St B) P : held g R np s BB H -> H !! i = Some p -> runs (f i) (s, hd) P -> runs (bind (Ix.get_page_no p) f) (s, hd) P.
Proof.
  intros Hh Hp Hf. destruct (he_handle _ _ _ _ _ _ Hh i p Hp) as [Hhd [b Hb]]. unfold Ix.get_page_no. rstep. eapply lift_step; [eapply ps_page_id; [apply Hh|exact Hhd|by apply (he_page _ _ _ _ _ _ Hh)]|]. rstep. exact Hf.
Qed.

Lemma held_fetch {B} R np s BB H hd (i : Z) b (f : page_ptr -> Prog Ix.St B) P : held (ix_fd_ hd) R np s BB H -> H !! i = None -> BB !! i = Some b -> card H < R ->
  (forall p s', held (ix_fd_ hd) R np s' BB (<[i := p]> H) -> ps_clean s' (mkPageId (ix_fd_ hd) i) -> (forall j, j <> i -> ps_clean s (mkPageId (ix_fd_ hd) j) -> ps_clean s' (mkPageId (ix_fd_ hd) j)) -> runs (f p) (s', hd) P) ->
  runs (bind (Ix.fetch_node i) f) (s, hd) P.
Proof.
  intros Hh Hp Hb Hr Hf. pose proof Hh as []. pose proof (he_page0 i b Hb) as Hpg. pose proof (he_pins0 i b Hb) as Hz. rewrite Hp in Hz.
  destruct (ps_fetch s _ b he_inv0 Hpg) as (r & s' & E & p & -> & I' & O' & P' & H' & N' & R' & C' & K' & F'); [right; lia|]. rewrite Hz in *.
  unfold Ix.fetch_node, Ix.get_fd. rstep. rstep. cbn [snd]. rstep. eapply lift_step; [exact E|]. rstep; [done|]. apply Hf; [|apply C'; by apply ps_idle_clean|intros j Hj; apply (ot_clean _ _ _ _ _ _ _ O'); by apply key_ne]. split; auto.
  - intros j bj Hj. destruct (decide (i = j)) as [<-|Hij]; [rewrite Hb in Hj; by injection Hj as <-|]. by apply (ot_page _ _ _ _ _ _ _ O'), he_page0; [apply key_ne|].
  - intros j bj Hj. rewrite lookup_insert. destruct (decide (i = j)) as [<-|Hij]; [done|]. rewrite (ot_pins _ _ _ _ _ _ _ O') by (by apply key_ne). by eapply he_pins0.
  - intros j q. rewrite lookup_insert. destruct (decide (i = j)) as [<-|Hij]; [intros [= <-]; split; [done|by eexists]|]. intros Hj. destruct (he_handle0 j q Hj) as [Hq Hbj]. split; [|done]. by apply (ot_handle _ _ _ _ _ _ _ O'); [apply key_ne|].
  - rewrite R', he_room0, map_size_insert_None by done. simpl. lia.
  - by rewrite K'.
Qed.

Lemma held_release_keep {B} g R np s BB H hd (i : Z) p (dirty : bool) (f : unit -> Prog Ix.St B) P : held g R np s BB H -> H !! i = Some p -> (dirty = false -> ps_clean s (mkPageId g i)) ->
  (forall s', held g R np s' BB (delete i H) -> (forall j, j <> i -> ps_clean s (mkPageId g j) -> ps_clean s' (mkPageId g j)) -> runs (f tt) (s', hd) P) -> runs (bind (Ix.release_node_handle p dirty) f) (s, hd) P.
Proof.
  intros Hh Hp Hd Hf. pose proof Hh as []. destruct (he_handle0 i p Hp) as [Hhd [b Hb]]. pose proof (he_page0 i b Hb) as Hpg. pose proof (he_pins0 i b Hb) as Hz. rewrite Hp in Hz.
  destruct (ps_unpin s _ b dirty he_inv0 Hpg) as (r & s' & E & -> & I' & O' & P' & N' & R' & C' & _ & K' & F'); [lia|auto|]. rewrite Hz in *.
  unfold Ix.release_node_handle. rstep. eapply lift_step; [by eapply ps_page_id|]. rstep. eapply lift_step; [exact E|]. rstep; [done|]. apply Hf; [|intros j Hj; apply (ot_clean _ _ _ _ _ _ _ O'); by apply key_ne]. split; auto.
  - intros j bj Hj. destruct (decide (i = j)) as [<-|Hij]; [rewrite Hb in Hj; by injection Hj as <-|]. by apply (ot_page _ _ _ _ _ _ _ O'), he_page0; [apply key_ne|].
  - intros j bj Hj. rewrite lookup_delete. destruct (decide (i = j)) as [<-|Hij]; [done|]. rewrite (ot_pins _ _ _ _ _ _ _ O') by (by apply key_ne). by eapply he_pins0.
  - intros j q. rewrite lookup_delete. destruct (decide (i = j)) as [<-|Hij]; [done|]. intros Hj. destruct (he_handle0 j q Hj) as [Hq Hbj]. split; [|done]. by apply (ot_handle _ _ _ _ _ _ _ O'); [apply key_ne|].
  - rewrite R', he_room0, map_size_delete_Some by (by eexists). simpl. assert (stdpp.base.size H <> O) by (apply map_size_non_empty_iff; intros ->; by rewrite lookup_empty in Hp). lia.
  - by rewrite K'.
Qed.

Lemma held_release {B} g R np s BB H hd (i : Z) p (dirty : bool) (f : unit -> Prog Ix.St B) P : held g R np s BB H -> H !! i = Some p -> (dirty = false -> ps_clean s (mkPageId g i)) ->
  (forall s', held g R np s' BB (delete i H) -> runs (f tt) (s', hd) P) -> runs (bind (Ix.release_node_handle p dirty) f) (s, hd) P.
Proof. intros Hh Hp Hd Hf. eapply held_release_keep; [done..|]. intros s' Hh' _. by apply Hf. Qed.

(** a new page *)
Lemma held_create {B} R np s BB H hd (f : page_ptr -> Prog Ix.St B) P : held (ix_fd_ hd) R np s BB H -> first_free_page_no_ (ix_hdr_ hd) = IX_NO_PAGE -> 0 <= np < 2 ^ 19 -> card H < R ->
  (forall p s', held (ix_fd_ hd) R (np + 1) s' (<[np := zeros PAGE_SIZE]> BB) (<[np := p]> H) ->
     runs (f p) (s', mkIxIndexHandle (ix_fd_ hd) (Ix.set_num_pages (num_pages_ (ix_hdr_ hd) + 1) (ix_hdr_ hd))) P) ->
  runs (bind Ix.create_node f) (s, hd) P.
Proof.
  intros Hh Hfree Hnp Hr Hf. pose proof Hh as []. assert (Hfresh : BB !! np = None).
  { destruct (BB !! np) as [b|] eqn:E; [|done]. pose proof (ps_page_bound s _ b (he_page0 np b E)) as Hb. simpl in Hb. lia. }
  assert (HfreshH : H !! np = None) by (destruct (H !! np) as [q|] eqn:E; [|done]; destruct (he_handle0 np q E) as [_ [b Hb]]; by rewrite Hb in Hfresh).
  destruct (ps_new s (ix_fd_ hd) he_inv0 he_file0) as (r & s' & E & p & -> & I' & O' & P' & H' & N' & R' & K' & F'); [lia|lia|]. rewrite he_np0 in *.
  unfold Ix.create_node, Ix.hdr, Ix.upd_hdr, Ix.get_fd. rstep. rstep. cbn [snd]. rstep. rstep. rstep. cbn [snd ix_fd_]. rewrite Hfree. simpl negb. cbv iota. rstep. cbn [fst snd ix_fd_]. rstep. cbn [fst snd ix_fd_]. eapply lift_step; [exact E|].
  rstep. rstep; [done|]. rstep. cbn [snd].
  apply Hf. split; auto.
  - intros j bj. rewrite lookup_insert. destruct (decide (np = j)) as [<-|Hij]; [by intros [= <-]|]. intros Hj. by apply (ot_page _ _ _ _ _ _ _ O'), he_page0; [apply key_ne|].
  - intros j bj. rewrite !lookup_insert. destruct (decide (np = j)) as [<-|Hij]; [done|]. intros Hj. rewrite (ot_pins _ _ _ _ _ _ _ O') by (by apply key_ne). by eapply he_pins0.
  - intros j q. rewrite !lookup_insert. destruct (decide (np = j)) as [<-|Hij]; [intros [= <-]; split; [done|by eexists]|]. intros Hj. destruct (he_handle0 j q Hj) as [Hq Hbj]. split; [|done]. by apply (ot_handle _ _ _ _ _ _ _ O'); [apply key_ne|].
  - rewrite R', he_room0, map_size_insert_None by done. lia.
  - rewrite K'. by rewrite decide_True.
Qed.

(** ** Nodes of the store *)

(** two headers that describe nodes in the same way *)
Definition like (h h1 : IxFileHdr) : Prop :=
  col_num_ h1 = col_num_ h /\ col_types_ h1 = col_types_ h /\ col_lens_ h1 = col_lens_ h /\ col_tot_len_ h1 = col_tot_len_ h /\ btree_order_ h1 = btree_order_ h /\ keys_size_ h1 = keys_size_ h.
Lemma like_same h : like h h.
Proof. by split_and!. Qed.
Lemma like_trans h1 h2 h3 : like h1 h2 -> like h2 h3 -> like h1 h3.
Proof. unfold like. intuition congruence. Qed.
Lemma like_sym h1 h2 : like h1 h2 -> like h2 h1.
Proof. unfold like. intuition congruence. Qed.
Lemma like_nrep h h1 nd b : like h h1 -> nrep h nd b -> nrep h1 nd b.
Proof. destruct h, h1. unfold like. simpl. intros (-> & -> & -> & -> & -> & ->) []. by split. Qed.
Lemma like_geo h h1 : like h h1 -> geo h -> geo h1.
Proof. destruct h, h1. unfold like. simpl. intros (-> & -> & -> & -> & -> & ->) []. by split. Qed.
Lemma like_cols h h1 : like h h1 -> cols h -> cols h1.
Proof. destruct h, h1. unfold like. simpl. intros (-> & -> & -> & -> & -> & ->) []. by split. Qed.
Lemma like_klt h h1 a b : like h h1 -> klt h1 a b = klt h a b.
Proof. destruct h, h1. unfold like. simpl. by intros (-> & -> & -> & -> & -> & ->). Qed.
Lemma like_good h h1 k : like h h1 -> key_good h k -> key_good h1 k.
Proof. destruct h, h1. unfold like. simpl. by intros (-> & -> & -> & -> & -> & ->). Qed.
Lemma like_sorted h h1 ks : like h h1 -> sorted h ks -> sorted h1 ks.
Proof. destruct h, h1. unfold like. simpl. intros (-> & -> & -> & -> & -> & ->) []. by split. Qed.

Context (h : IxFileHdr) (Hg : geo h) (Hc : cols h).

(** the pages of the nodes *)
Definition brep (B : bytes) (ps : gmap Z anode) : Prop := forall i nd, ps !! i = Some nd -> exists b, B !! i = Some b /\ nrep h nd b.

Lemma brep_insert B ps i nd b : brep B ps -> nrep h nd b -> brep (<[i := b]> B) (<[i := nd]> ps).
Proof. intros Hb Hr j x. rewrite !lookup_insert. destruct (decide (i = j)); [intros [= <-]; by exists b|apply Hb]. Qed.
Lemma brep_fresh B ps i b : brep B ps -> ps !! i = None -> brep (<[i := b]> B) ps.
Proof. intros Hb Hi j x Hx. rewrite lookup_insert_ne by congruence. by apply Hb. Qed.

Fixpoint adopt (x : Z) (cs : list Z) (ps : gmap Z anode) : gmap Z anode :=
  match cs with [] => ps | c :: cs => adopt x cs (alter (with_parent x) c ps) end.
Lemma lookup_adopt x cs ps q : adopt x cs ps !! q = if decide (q ∈ cs) then with_parent x <$> ps !! q else ps !! q.
Proof.
  revert ps. induction cs as [|c cs IH]; intros ps; cbn [adopt]; [case_decide as Hq; [by apply not_elem_of_nil in Hq|done]|]. rewrite IH, lookup_alter.
  repeat case_decide; subst; try done; try (by destruct (ps !! q)); exfalso; set_solver.
Qed.

Lemma runs_tail {T A} (m : Prog T A) s P : runs (bind m ret) s P -> runs m s P.
Proof. intros (a & t & E & HP). apply bind_inv in E as (a' & t' & E & [= -> ->]). by exists a, t. Qed.

Lemma maintain_child_runs R np s B H hd x p bx j (r : Rid) ndx c bc ndc : held (ix_fd_ hd) R np s B H -> like h (ix_hdr_ hd) -> H !! x = Some p -> B !! x = Some bx -> nrep h ndx bx -> an_leaf ndx = false ->
  an_rids ndx !! j = Some r -> rid_page_no r = c -> c <> x -> B !! c = Some bc -> nrep h ndc bc -> int32_ok x -> card H < R ->
  runs (Ix.maintain_child p (Z.of_nat j)) (s, hd) (fun _ t => exists s' b', t = (s', hd) /\ held (ix_fd_ hd) R np s' (<[c := b']> B) H /\ nrep h (with_parent x ndc) b').
Proof.
  intros Hh Hl Hp Hbx Hrx Hlf Hr Hrc Hcx Hbc Hrep Hx HR. destruct (nrep_set_parent h Hg x ndc bc Hrep Hx) as (b' & E' & Hrep'). pose proof (nr_page _ _ _ Hrep') as Hz'.
  unfold Ix.maintain_child. eapply held_read; [exact Hh|exact Hp|exact Hbx|exact (nrep_is_leaf h _ _ Hrx)|]. rewrite Hlf. simpl negb. cbv iota.
  eapply held_read; [exact Hh|exact Hp|exact Hbx|pose proof (like_nrep _ _ _ _ Hl Hrx) as Hrx1; unfold IxNode.value_at; rewrite (bind_ok _ _ _ _ _ (nrep_get_rid _ (like_geo _ _ Hl Hg) _ _ _ _ Hrx1 Hr)); unfold ret; by rewrite Hrc|].
  destruct (H !! c) as [q|] eqn:Hq.
  - (* the child is pinned already *)
    pose proof Hh as []. destruct (he_handle0 c q Hq) as [Hhq _]. pose proof (he_page0 c bc Hbc) as Hpg. pose proof (he_pins0 c bc Hbc) as Hpin. rewrite Hq in Hpin.
    destruct (ps_fetch s _ bc he_inv0 Hpg) as (r0 & s1 & E1 & q' & -> & I1 & O1 & P1 & H1 & N1 & R1 & C1 & K1 & F1); [left; lia|]. pose proof (ps_fetch_same _ _ _ _ _ Hhq E1) as [= ->]. rewrite Hpin in *.
    unfold Ix.fetch_node, Ix.get_fd. rstep. rstep. cbn [snd]. rstep. eapply lift_step; [exact E1|]. rstep; [done|].
    destruct (he_handle0 x p Hp) as [Hhx [bx' Hbx']]. unfold Ix.get_page_no. rstep.
    eapply lift_step; [apply (ps_page_id s1 p (mkPageId (ix_fd_ hd) x) bx' I1); [apply (ot_handle _ _ _ _ _ _ _ O1); [by apply not_eq_sym, key_ne|done]|apply (ot_page _ _ _ _ _ _ _ O1); [by apply not_eq_sym, key_ne|by apply he_page0]]|]. rstep. cbn [page_no].
    destruct (on_node_raw s1 hd q _ bc (fun _ => IxNode.set_parent_page_no x) tt b' I1 H1 P1 E' Hz') as (s2 & E2 & I2 & O2 & P2 & H2 & N2 & R2 & K2 & F2). eapply runs_bind_eq; [exact E2|].
    destruct (ps_unpin s2 _ b' true I2 P2) as (r3 & s3 & E3 & -> & I3 & O3 & P3 & N3 & R3 & C3 & H3 & K3 & F3); [lia|done|]. rewrite N2, N1 in *. apply runs_tail. unfold Ix.release_node_handle.
    rstep. eapply lift_step; [by eapply ps_page_id|]. rstep. eapply lift_step; [exact E3|]. rstep; [done|]. rstep. exists s3, b'. split; [done|]. split; [|done].
    pose proof (RmP.others_trans _ _ _ _ O1 (RmP.others_trans _ _ _ _ O2 O3)) as O. split; auto.
    + intros j0 bj. rewrite lookup_insert. destruct (decide (c = j0)) as [<-|Hij]; [by intros [= <-]|]. intros Hj. by apply (ot_page _ _ _ _ _ _ _ O), he_page0; [apply key_ne|].
    + intros j0 bj. rewrite lookup_insert. destruct (decide (c = j0)) as [<-|Hij]; [intros _; rewrite N3, Hq; lia|]. intros Hj. rewrite (ot_pins _ _ _ _ _ _ _ O) by (by apply key_ne). by eapply he_pins0.
    + intros j0 q0 Hj. destruct (he_handle0 j0 q0 Hj) as [Hq0 Hbj]. split; [|rewrite lookup_insert; by destruct (decide (c = j0))]. destruct (decide (c = j0)) as [<-|Hij]; [rewrite Hq in Hj; injection Hj as <-; apply H3; [done|lia]|].
      by apply (ot_handle _ _ _ _ _ _ _ O); [apply key_ne|].
    + rewrite R3, R2, R1. simpl. lia.
    + by rewrite K3, K2, K1.
  - eapply held_fetch; [exact Hh|exact Hq|exact Hbc|exact HR|]. intros q s1 Hh1 _ _. assert (Hx1 : <[c := q]> H !! x = Some p) by (by rewrite lookup_insert_ne).
    eapply held_page_no; [exact Hh1|exact Hx1|]. eapply held_on; [exact Hh1|apply lookup_insert_eq|exact Hbc|exact E'|exact Hz'|]. intros s2 Hh2. apply runs_tail.
    eapply held_release; [exact Hh2|apply lookup_insert_eq|done|]. intros s3 Hh3. rewrite delete_insert_id in Hh3 by done. rstep. by exists s3, b'.
Qed.
Lemma brep_ext B ps ps' : brep B ps -> (forall p, ps' !! p = ps !! p) -> brep B ps'.
Proof. intros Hb He p x. rewrite He. apply Hb. Qed.

(** ... of several children *)
Lemma maintain_children_runs R np H hd x p ndx n : like h (ix_hdr_ hd) -> H !! x = Some p -> an_leaf ndx = false -> int32_ok x -> card H < R ->
  forall i s B ps, held (ix_fd_ hd) R np s B H -> brep B ps -> ps !! x = Some ndx -> (i + n <= length (an_rids ndx))%nat ->
  let cs := rid_page_no <$> take n (drop i (an_rids ndx)) in
  x ∉ cs -> (forall c, c ∈ cs -> is_Some (ps !! c)) ->
  runs (Ix.maintain_children p (Z.of_nat i) n) (s, hd) (fun _ t => exists s' B', t = (s', hd) /\ held (ix_fd_ hd) R np s' B' H /\ brep B' (adopt x cs ps)).
Proof.
  intros Hl Hp Hlf Hx HR. induction n as [|n IH]; intros i s B ps Hh Hb Hnd Hlen cs Hxc Hcs; cbn [Ix.maintain_children]; [apply runs_ret; by exists s, B|].
  destruct (lookup_lt_is_Some_2 (an_rids ndx) i) as [r Hr]; [lia|]. assert (Ecs : cs = rid_page_no r :: (rid_page_no <$> take n (drop (Datatypes.S i) (an_rids ndx)))) by (unfold cs; by rewrite (drop_S _ _ _ Hr)).
  rewrite Ecs in Hxc, Hcs |- *. apply not_elem_of_cons in Hxc as [Hxr Hxc]. destruct (Hcs (rid_page_no r)) as [ndc Hndc]; [left|]. destruct (Hb _ _ Hnd) as (bx & Hbx & Hrx). destruct (Hb _ _ Hndc) as (bc & Hbc & Hrc).
  eapply runs_bind; [apply (maintain_child_runs R np s B H hd x p bx i r ndx (rid_page_no r) bc ndc); done || congruence|]. intros _ t (s1 & b1 & -> & Hh1 & Hr1).
  replace (Z.of_nat i + 1) with (Z.of_nat (Datatypes.S i)) by lia. cbn [adopt].
  assert (Hal : alter (with_parent x) (rid_page_no r) ps = <[rid_page_no r := with_parent x ndc]> ps) by (apply map_eq; intros q; rewrite lookup_alter, lookup_insert; case_decide; [subst; by rewrite Hndc|done]).
  rewrite Hal. eapply IH; [exact Hh1|by apply brep_insert|by rewrite lookup_insert_ne|lia|done|].
  intros c Hc1. rewrite lookup_insert. case_decide; [by eexists|]. apply Hcs. by right.
Qed.

(** ** Moving half of a node *)

(** how many keys a node keeps, and how many it holds at most *)
Definition keep (nd : anode) : Z := if an_leaf nd then IxNode.get_min_rid_size h else IxNode.get_min_rid_size h - 1.
Definition limit (nd : anode) : Z := if an_leaf nd then btree_order_ h else btree_order_ h - 1.
Lemma min_key_ok nd b : nrep h nd b -> IxNode.get_min_key_size h b = (Ok (keep nd), b).
Proof. intros Hr. unfold IxNode.get_min_key_size. by rewrite (bind_ok _ _ _ _ _ (nrep_is_leaf h nd b Hr)). Qed.
Lemma max_key_ok nd b : nrep h nd b -> IxNode.get_max_key_size h b = (Ok (limit nd), b).
Proof. intros Hr. unfold IxNode.get_max_key_size. by rewrite (bind_ok _ _ _ _ _ (nrep_is_leaf h nd b Hr)). Qed.
Lemma keep_bounds nd : 0 < keep nd <= limit nd /\ (an_leaf nd = false -> keep nd < limit nd).
Proof.
  pose proof (ge_order _ Hg). unfold keep, limit, IxNode.get_min_rid_size, IxNode.get_max_rid_size. rewrite Z.shiftr_div_pow2 by lia. pose proof (Z.div_mod (btree_order_ h + 1) 2 ltac:(lia)). pose proof (Z.mod_pos_bound (btree_order_ h + 1) 2 ltac:(lia)).
  change (2 ^ 1) with 2. destruct (an_leaf nd); lia.
Qed.

Section half.
Context (g R np : Z) (H : pinned) (ps : gmap Z anode) (i new : Z) (pi pn : page_ptr) (nd : anode) (c : nat) (up : list Z).
Context (Hpi : H !! i = Some pi) (Hpn : H !! new = Some pn) (Hnd : ps !! i = Some nd) (Hnew : ps !! new = None) (Hnone : ps !! IX_NO_PAGE = None) (Hno : new <> IX_NO_PAGE).
Context (Hup : an_keys nd !! c = Some up) (Hkeep : keep nd = Z.of_nat c) (Hnext : an_next nd = IX_NO_PAGE \/ is_Some (ps !! an_next nd) /\ an_next nd <> i /\ H !! an_next nd = None).
Context (Hmoved : forall q, q ∈ moved nd c -> is_Some (ps !! q) /\ q <> i) (HR : card H < R).
Context (Ii : int32_ok i) (In : int32_ok new) (Ip : int32_ok (an_parent nd)) (Inx : int32_ok (an_next nd)).
Abbreviation at_hdr h1 := (mkIxIndexHandle g h1).

Lemma half_ne : i <> new /\ an_next nd <> new /\ new ∉ moved nd c /\ i ∉ moved nd c /\ an_next nd <> i.
Proof.
  split_and!; [congruence| | |by intros [_ ?]%Hmoved|].
  - destruct Hnext as [->|([x Hx] & _)]; congruence.
  - intros [[x Hx] _]%Hmoved. congruence.
  - destruct Hnext as [->|(_ & ? & _)]; congruence.
Qed.

(** the last leaf, when it is cut *)
Definition relast (h1 : IxFileHdr) : IxFileHdr := if (an_next nd =? IX_NO_PAGE) && an_leaf nd then Ix.set_last_leaf new h1 else h1.

Lemma relink_runs s B ps1 : held g R np s B H -> brep B ps1 -> (an_next nd <> IX_NO_PAGE -> is_Some (ps1 !! an_next nd)) -> ps1 !! IX_NO_PAGE = None ->
  runs (if negb (an_next nd =? IX_NO_PAGE) then
          let* old_next_node := Ix.fetch_node (an_next nd) in
          Ix.on_node old_next_node (fun _ => IxNode.set_prev_leaf new);;
          Ix.release_node_handle old_next_node true
        else if an_leaf nd then Ix.upd_hdr (Ix.set_last_leaf new) else ret tt) (s, at_hdr h)
    (fun _ t => exists s' B', t = (s', at_hdr (relast h)) /\ held g R np s' B' H /\ brep B' (alter (with_prev new) (an_next nd) ps1)).
Proof.
  intros Hh Hb Hx H1. unfold relast. destruct (Z.eqb_spec (an_next nd) IX_NO_PAGE) as [E|E]; simpl.
  - assert (Hid : brep B (alter (with_prev new) (an_next nd) ps1)) by (rewrite E; eapply brep_ext; [exact Hb|]; intros p; rewrite lookup_alter; case_decide; [subst p; by rewrite H1|done]).
    destruct (an_leaf nd); [unfold Ix.upd_hdr; rstep|rstep]; by exists s, B.
  - destruct (Hx E) as [x Hndx]. destruct (Hb _ _ Hndx) as (b & HB & Hrep). destruct Hnext as [?|(_ & _ & Hpin)]; [done|]. destruct (nrep_set_prev h Hg new x b Hrep In) as (b' & E' & Hrep').
    eapply held_fetch; [exact Hh|exact Hpin|exact HB|exact HR|]. intros q s1 Hh1 _ _. eapply held_on; [exact Hh1|apply lookup_insert_eq|exact HB|exact E'|exact (nr_page _ _ _ Hrep')|]. intros s2 Hh2. apply runs_tail.
    eapply held_release; [exact Hh2|apply lookup_insert_eq|done|]. intros s3 Hh3. rewrite delete_insert_id in Hh3 by done. rstep. exists s3, (<[an_next nd := b']> B). split; [done|]. split; [done|].
    eapply brep_ext; [apply brep_insert; [exact Hb|exact Hrep']|]. intros p. rewrite lookup_alter, lookup_insert. case_decide; [subst p; by rewrite Hndx|done].
Qed.

Abbreviation left_pairs := (set_pairs (take c (an_keys nd)) (take (cut nd c) (an_rids nd)) nd).
Lemma halves_built p : halves ps i new nd c !! p =
  adopt new (moved nd c) (<[i := with_next new left_pairs]> (alter (with_prev new) (an_next nd) (<[i := left_pairs]> (<[new := right_half i nd c]> ps)))) !! p.
Proof.
  destruct half_ne as (N1 & N2 & N3 & N4 & N5). rewrite lookup_adopt. destruct (decide (p = i)) as [->|Hpi']; [rewrite decide_False, lookup_insert_eq by done; unfold halves; by rewrite lookup_insert_eq|].
  destruct (decide (p = new)) as [->|Hpn'].
  - rewrite decide_False, lookup_insert_ne, lookup_alter_ne, lookup_insert_ne, lookup_insert_eq by done. unfold halves. by rewrite lookup_insert_ne, lookup_insert_eq by done.
  - rewrite halves_lookup by done. rewrite lookup_insert_ne, lookup_alter by done. rewrite !lookup_insert_ne by done. unfold touch. destruct (ps !! p) as [[]|] eqn:E; simpl; repeat case_decide; subst; rewrite ?E; done || congruence.
Qed.

Lemma move_half_runs s B b0 : held g R np s B H -> brep B ps -> B !! new = Some b0 -> page b0 ->
  runs (Ix.move_half pi pn) (s, at_hdr h) (fun key t => key = up /\ exists s' B', t = (s', at_hdr (relast h)) /\ held g R np s' B' H /\ brep B' (halves ps i new nd c)).
Proof.
  intros Hh Hb HB0 Hp0. destruct half_ne as (N1 & N2 & N3 & N4 & N5). destruct (Hb _ _ Hnd) as (b & HB & Hrep). pose proof (lookup_lt_Some _ _ _ Hup) as Hlt. pose proof (nr_len _ _ _ Hrep) as Hlen.
  assert (Hcut : (cut nd c <= length (an_keys nd))%nat) by (unfold cut; destruct (an_leaf nd); lia). assert (Hdiff : zlen (an_keys nd) - Z.of_nat c = Z.of_nat (length (an_rids nd) - cut nd c)) by (unfold cut, zlen in *; destruct (an_leaf nd); lia).
  assert (Hfirst : (if an_leaf nd then Z.of_nat c else Z.of_nat c + 1) = Z.of_nat (cut nd c)) by (unfold cut; destruct (an_leaf nd); lia).
  destruct (right_node_ok h Hg nd b b0 c i Hrep Hp0 Hcut Ip Inx Ii) as (ks & rs & b1 & b2 & b3 & L1 & S1 & L2 & S2 & S3 & P1 & P2 & Hrep3). destruct (nrep_truncate h Hg nd b c Hrep Hcut) as (b4 & S4 & Hrep4).
  unfold Ix.move_half, Ix.size_of, Ix.resize. eapply held_read; [exact Hh|exact Hpi|exact HB|by apply min_key_ok|]. rewrite Hkeep. eapply held_read; [exact Hh|exact Hpi|exact HB|by apply (nrep_size h)|].
  eapply held_read; [exact Hh|exact Hpi|exact HB|exact (nrep_get_key h Hg nd b c up Hrep Hup)|]. eapply held_read; [exact Hh|exact Hpi|exact HB|by apply (nrep_is_leaf h)|]. eapply held_page_no; [exact Hh|exact Hpi|]. eapply held_page_no; [exact Hh|exact Hpn|].
  eapply held_read; [exact Hh|exact Hpi|exact HB|by apply (nrep_parent h)|]. eapply held_read; [exact Hh|exact Hpi|exact HB|by apply (nrep_next h)|]. cbv zeta. rewrite Hfirst, Hdiff.
  replace (zlen (an_keys nd) - Z.of_nat (cut nd c)) with (Z.of_nat (length (an_keys nd) - cut nd c)) by (unfold zlen; lia).
  eapply held_read; [exact Hh|exact Hpi|exact HB|exact L1|]. eapply held_on; [exact Hh|exact Hpn|exact HB0|exact S1|exact P1|]. intros s1 Hh1. eapply held_read; [exact Hh1|exact Hpi|by rewrite lookup_insert_ne|exact L2|].
  eapply held_on; [exact Hh1|exact Hpn|apply lookup_insert_eq|exact S2|exact P2|]. intros s2 Hh2. eapply held_on; [exact Hh2|exact Hpn|apply lookup_insert_eq|exact S3|exact (nr_page _ _ _ Hrep3)|]. intros s3 Hh3.
  eapply held_on; [exact Hh3|exact Hpi|by rewrite !lookup_insert_ne|exact S4|exact (nr_page _ _ _ Hrep4)|]. intros s4 Hh4.
  assert (Hb4 : brep (<[i := b4]> (<[new := b3]> (<[new := b2]> (<[new := b1]> B)))) (<[i := left_pairs]> (<[new := right_half i nd c]> ps))) by (do 2 (apply brep_insert; [|done]); do 2 (apply brep_fresh; [|done]); done).
  eapply runs_bind; [eapply relink_runs; [exact Hh4|exact Hb4| |]|].
  { intros Hne. destruct Hnext as [?|(? & _)]; [done|]. by rewrite !lookup_insert_ne by done. }
  { rewrite !lookup_insert_ne; [done|congruence|]. intros E. rewrite E in Hnd. congruence. }
  intros [] t (s5 & B5 & -> & Hh5 & Hb5). assert (Hi5 : alter (with_prev new) (an_next nd) (<[i := left_pairs]> (<[new := right_half i nd c]> ps)) !! i = Some left_pairs) by (by rewrite lookup_alter_ne, lookup_insert_eq).
  destruct (Hb5 _ _ Hi5) as (b5 & HB5 & Hrep5). destruct (nrep_set_next h Hg new _ b5 Hrep5 In) as (b6 & S6 & Hrep6). eapply held_on; [exact Hh5|exact Hpi|exact HB5|exact S6|exact (nr_page _ _ _ Hrep6)|]. intros s6 Hh6.
  pose proof (brep_insert _ _ i _ _ Hb5 Hrep6) as Hb6. pose proof halves_built as Hbuilt. destruct (an_leaf nd) eqn:Hlf.
  - rstep. rstep. split; [done|]. eexists s6, _. split; [done|]. split; [exact Hh6|]. eapply brep_ext; [exact Hb6|]. intros p. rewrite Hbuilt. unfold moved. by rewrite Hlf.
  - assert (Hcs : rid_page_no <$> take (length (an_rids nd) - cut nd c) (drop 0 (an_rids (right_half i nd c))) = moved nd c) by (unfold moved; rewrite Hlf; simpl; by rewrite drop_0, take_ge by (rewrite length_drop; lia)).
    rewrite Nat2Z.id. eapply runs_bind.
    + eapply (maintain_children_runs R np H (at_hdr (relast h)) new pn (right_half i nd c) _) with (i := 0%nat) (s := s6); [unfold relast; by destruct (_ && _)|done|done|done|done|exact Hh6|exact Hb6| | |rewrite Hcs; done|rewrite Hcs].
      * by rewrite lookup_insert_ne, lookup_alter_ne, lookup_insert_ne, lookup_insert_eq.
      * simpl. rewrite length_drop. lia.
      * intros q [[x Hq] Hqi]%Hmoved. assert (q <> new) by congruence. rewrite lookup_insert_ne, lookup_alter by congruence. case_decide; [subst q; apply fmap_is_Some|]; rewrite !lookup_insert_ne by congruence; by exists x.
    + rewrite Hcs. intros [] t (s7 & B7 & -> & Hh7 & Hb7). rstep. split; [done|]. exists s7, B7. split; [done|]. split; [exact Hh7|]. eapply brep_ext; [exact Hb7|exact Hbuilt].
Qed.
End half.

(** ** Above the two halves *)

Lemma held_fresh g R np s B H ps : held g R np s B H -> brep B ps -> ps !! np = None /\ H !! np = None.
Proof.
  intros Hh Hb. assert (HB : B !! np = None). { destruct (B !! np) as [b|] eqn:E; [|done]. pose proof (ps_page_bound s _ b (he_page _ _ _ _ _ _ Hh np b E)) as Hx. simpl in Hx. rewrite (he_np _ _ _ _ _ _ Hh) in Hx. lia. }
  split; [destruct (ps !! np) as [x|] eqn:E; [|done]; destruct (Hb _ _ E) as (b & E' & _); congruence|]. destruct (H !! np) as [q|] eqn:E; [|done]. destruct (he_handle _ _ _ _ _ _ Hh np q E) as [_ [b Hb']]. congruence.
Qed.
Lemma held_bound g R np s B H ps p : held g R np s B H -> brep B ps -> is_Some (ps !! p) -> 0 <= p < np.
Proof. intros Hh Hb [x Hx]. destruct (Hb _ _ Hx) as (b & HB & _). pose proof (ps_page_bound s _ b (he_page _ _ _ _ _ _ Hh p b HB)) as Hbd. simpl in Hbd. by rewrite (he_np _ _ _ _ _ _ Hh) in Hbd. Qed.

Section above.
Context (g R np : Z) (H : pinned) (ps : gmap Z anode) (i new : Z) (pi pn : page_ptr) (ndl : anode) (key : list Z).
Context (Hpi : H !! i = Some pi) (Hpn : H !! new = Some pn) (Hl : ps !! i = Some ndl) (Hin : i <> new) (HR : card H < R).
Context (Ii : int32_ok i) (In : int32_ok new) (Hnp : 0 <= np < 2 ^ 19).
Abbreviation at_hdr h1 := (mkIxIndexHandle g h1).

Lemma new_root_runs s B ndr : held g R np s B H -> brep B ps -> ps !! new = Some ndr -> first_free_page_no_ h = IX_NO_PAGE -> zlen key = col_tot_len_ h ->
  runs (Ix.new_root pi key pn) (s, at_hdr h) (fun p t => exists s' B' ri rn, t = (s', at_hdr (Ix.set_root np (Ix.set_num_pages (num_pages_ h + 1) h))) /\ held g R (np + 1) s' B' (<[np := p]> H) /\
    rid_page_no ri = i /\ rid_page_no rn = new /\
    brep B' (<[np := mkANode IX_NO_PAGE false IX_NO_PAGE IX_NO_PAGE [key] [ri; rn]]> (<[i := with_parent np ndl]> (<[new := with_parent np ndr]> ps)))).
Proof.
  intros Hh Hb Hr Hfree Hk. destruct (held_fresh _ _ _ _ _ _ _ Hh Hb) as [Hpz HHz]. assert (Iz : int32_ok np) by (unfold int32_ok; lia). assert (np <> i /\ np <> new) as [Hzi Hzn] by (split; congruence).
  destruct (new_root_ok h Hg (zeros PAGE_SIZE) key i new) as (b1 & b2 & b3 & b4 & b5 & ri & rn & E1 & E2 & E3 & E4 & G4 & E5 & P1 & P2 & P3 & P4 & Hri & Hrn & Hrep); [apply zlen_zeros; unfold PAGE_SIZE; lia|done..|].
  unfold Ix.new_root, Ix.size_of, Ix.resize. eapply held_create; [exact Hh|done|done|done|]. intros p s1 Hh1. assert (Hp : <[np := p]> H !! np = Some p) by apply lookup_insert_eq. cbn [ix_fd_ ix_hdr_] in *.
  assert (Hpi1 : <[np := p]> H !! i = Some pi) by (by rewrite lookup_insert_ne). assert (Hpn1 : <[np := p]> H !! new = Some pn) by (by rewrite lookup_insert_ne).
  eapply held_on; [exact Hh1|exact Hp|apply lookup_insert_eq|exact E1|exact P1|]. intros s2 Hh2. eapply held_on; [exact Hh2|exact Hp|apply lookup_insert_eq|exact E2|exact P2|]. intros s3 Hh3.
  eapply held_page_no; [exact Hh3|exact Hpi1|]. eapply held_page_no; [exact Hh3|exact Hpn1|].
  eapply held_on; [exact Hh3|exact Hp|apply lookup_insert_eq|exact E3|exact P3|]. intros s4 Hh4. eapply held_on; [exact Hh4|exact Hp|apply lookup_insert_eq|exact E4|exact P4|]. intros s5 Hh5.
  eapply held_read; [exact Hh5|exact Hp|apply lookup_insert_eq|exact G4|]. eapply held_on; [exact Hh5|exact Hp|apply lookup_insert_eq|exact E5|exact (nr_page _ _ _ Hrep)|]. intros s6 Hh6. eapply held_page_no; [exact Hh6|exact Hp|].
  set (B6 := <[np := b5]> _) in Hh6. assert (Hb6 : brep B6 (<[np := mkANode IX_NO_PAGE false IX_NO_PAGE IX_NO_PAGE [key] [ri; rn]]> ps)) by (apply brep_insert; [|done]; by repeat apply brep_fresh).
  destruct (Hb6 i ndl) as (bi & HBi & Hri1); [by rewrite lookup_insert_ne|]. destruct (nrep_set_parent h Hg np ndl bi Hri1 Iz) as (bi' & Ei & Hrepi).
  eapply held_on; [exact Hh6|exact Hpi1|exact HBi|exact Ei|exact (nr_page _ _ _ Hrepi)|]. intros s7 Hh7. pose proof (brep_insert _ _ i _ _ Hb6 Hrepi) as Hb7.
  destruct (Hb7 new ndr) as (bn & HBn & Hrn1); [by rewrite !lookup_insert_ne|]. destruct (nrep_set_parent h Hg np ndr bn Hrn1 Iz) as (bn' & En & Hrepn).
  eapply held_on; [exact Hh7|exact Hpn1|exact HBn|exact En|exact (nr_page _ _ _ Hrepn)|]. intros s8 Hh8. unfold Ix.upd_hdr. rstep. cbn [fst snd]. rstep. eexists s8, _, ri, rn. split; [done|]. split; [exact Hh8|]. split; [done|]. split; [done|].
  eapply brep_ext; [apply brep_insert; [exact Hb7|exact Hrepn]|]. intros q. rewrite !lookup_insert. repeat case_decide; congruence.
Qed.

(** [m] is the place of the key behind the keys that are not above it *)
Definition place (m : nat) (ks : list (list Z)) : Prop := (m <= length ks)%nat /\
  (forall j x, (j < m)%nat -> ks !! j = Some x -> IxKey.lex (kv h x) (kv h key) <> Gt) /\ (forall j x, (m <= j)%nat -> ks !! j = Some x -> IxKey.lex (kv h x) (kv h key) = Gt).
Lemma place_unique m m' ks : place m ks -> place m' ks -> m = m'.
Proof.
  assert (Hlt : forall m m', place m ks -> place m' ks -> ~ (m < m')%nat).
  { intros a b (_ & _ & H2) (L & H1 & _) Hab. destruct (lookup_lt_is_Some_2 ks a) as [x Hx]; [lia|]. by apply (H1 a x Hab Hx), (H2 a x). }
  intros H1 H2. pose proof (Hlt _ _ H1 H2). pose proof (Hlt _ _ H2 H1). lia.
Qed.

Lemma add_child_runs s B y ndy m : held g R np s B H -> brep B ps -> an_parent ndl = y -> ps !! y = Some ndy -> H !! y = None -> y <> i -> an_leaf ndy = false -> sorted h (an_keys ndy) ->
  zlen (an_keys ndy) <= limit ndy -> place m (an_keys ndy) -> key_good h key ->
  runs (Ix.add_child pi key pn) (s, at_hdr h) (fun r t => exists p s' B', r = (p, zlen (an_keys ndy) + 1) /\ t = (s', at_hdr h) /\ held g R np s' B' (<[y := p]> H) /\
    brep B' (<[y := set_pairs (ins m key (an_keys ndy)) (ins (Datatypes.S m) (mkRid new (-1)) (an_rids ndy)) ndy]> ps)).
Proof.
  intros Hh Hb Hpar Hy HHy Hyi Hlf Hs Hlim Hm Hk. destruct (Hb _ _ Hl) as (bi & HBi & Hri). destruct (Hb _ _ Hy) as (by' & HBy & Hry). pose proof (nr_len _ _ _ Hry) as Hlen. rewrite Hlf in Hlen.
  pose proof (zlen_nonneg (col_types_ h)). destruct (upper_bound_ok h Hg Hc ndy by' key 0 Hry Hs Hk ltac:(lia)) as (m' & Eu & Hm').
  assert (m' = m) as ->. { apply (place_unique m' m (an_keys ndy)); [|done]. destruct Hm' as (M1 & M2 & M3). split; [done|]. split; intros j x Hj Hx; rewrite <- klex_0 by done; [by eapply M2|by eapply M3]. }
  destruct (insert_child_ok h Hg ndy by' m key (mkRid new (-1)) Hry Hlf) as (b1 & b2 & b3 & b4 & E1 & E2 & E3 & G3 & E4 & P1 & P2 & P3 & Hrep); [apply Hm|unfold limit, zlen in *; rewrite Hlf in Hlim; lia|apply Hk|split; [done|split; simpl; lia]|].
  unfold Ix.add_child, Ix.size_of, Ix.resize. eapply held_read; [exact Hh|exact Hpi|exact HBi|by apply (nrep_parent h)|]. rewrite Hpar. eapply held_fetch; [exact Hh|exact HHy|exact HBy|exact HR|]. intros p s1 Hh1 _ _.
  assert (Hp : <[y := p]> H !! y = Some p) by apply lookup_insert_eq. cbn [ix_fd_ ix_hdr_] in *. eapply held_read; [exact Hh1|exact Hp|exact HBy|exact Eu|]. eapply held_read; [exact Hh1|exact Hp|exact HBy|by apply (nrep_size h)|].
  eapply held_on; [exact Hh1|exact Hp|exact HBy|exact E1|exact P1|]. intros s2 Hh2. eapply held_on; [exact Hh2|exact Hp|apply lookup_insert_eq|exact E2|exact P2|]. intros s3 Hh3.
  eapply held_page_no; [exact Hh3|rewrite lookup_insert_ne; [exact Hpn|congruence]|].
  eapply held_on; [exact Hh3|exact Hp|apply lookup_insert_eq|exact E3|exact P3|]. intros s4 Hh4. eapply held_read; [exact Hh4|exact Hp|apply lookup_insert_eq|exact G3|].
  eapply held_on; [exact Hh4|exact Hp|apply lookup_insert_eq|exact E4|exact (nr_page _ _ _ Hrep)|]. intros s5 Hh5. rstep. eexists p, s5, _. split; [done|]. split; [done|]. split; [exact Hh5|].
  rewrite !insert_insert_eq. by apply brep_insert.
Qed.
End above.

End store.

(** ** From a node towards the root *)

Section tree.
Context {S : Type} {PS : PageStore S} {PL : PageStoreLaws S}.
Context (h : IxFileHdr) (Hg : geo h) (Hc : cols h).
Local Open Scope prog_scope.
Abbreviation bytes := (gmap Z (list Z)).
Abbreviation pinned := (gmap Z page_ptr).
Abbreviation card H := (Z.of_nat (stdpp.base.size H)).
Abbreviation level k := (walk (see_level k)).

Lemma like_brep h1 h2 B ps : like h1 h2 -> brep h1 B ps -> brep h2 B ps.
Proof. intros Hl Hb p x Hx. destruct (Hb p x Hx) as (b & HB & Hr). exists b. split; [done|by eapply like_nrep]. Qed.
Lemma like_limit h1 nd : like h h1 -> limit h1 nd = limit h nd.
Proof. intros (_ & _ & _ & _ & E & _). unfold limit. by rewrite E. Qed.
Lemma like_keep h1 nd : like h h1 -> keep h1 nd = keep h nd.
Proof. intros (_ & _ & _ & _ & E & _). unfold keep, IxNode.get_min_rid_size, IxNode.get_max_rid_size. by rewrite E. Qed.

(** a tree in the pages of the file [g], of which those in [H] are pinned *)
Record grove (g R np : Z) (s : S) (h1 : IxFileHdr) (B : bytes) (H : pinned) (ps : gmap Z anode) (n : nat) : Prop := {
  gv_held : held g R np s B H;
  gv_like : like h h1;
  gv_free : first_free_page_no_ h1 = IX_NO_PAGE;
  gv_rep : brep h B ps;
  gv_tree : twf h ps n (root_page_ h1);
  gv_last : last (level 0 ps n (root_page_ h1)) = Some (last_leaf_ h1);
  gv_first : head (level 0 ps n (root_page_ h1)) = Some (first_leaf_ h1);
}.

Definition fit (nd : anode) : Prop := zlen (an_keys nd) <= limit h nd.
Definition leaves_kept (ps ps' : gmap Z anode) (i : Z) : Prop :=
  forall p x, ps !! p = Some x -> an_leaf x = true -> p <> i -> exists x', ps' !! p = Some x' /\ shape x' = shape x.

(** the leaves, when [i] is one of them *)
Definition leaves_cut (ps : gmap Z anode) (n : nat) (root : Z) (ps' : gmap Z anode) (n' : nat) (root' i new : Z) (nd : anode) : Prop :=
  if an_leaf nd then exists l1 l2, level 0 ps n root = l1 ++ i :: l2 /\ level 0 ps' n' root' = l1 ++ i :: new :: l2 else level 0 ps' n' root' = level 0 ps n root.

(** the node [i] was split, [new] being the other half *)
Definition outcome (g R : Z) (H : pinned) (ps : gmap Z anode) (n : nat) (root i : Z) (nd : anode) (new : Z) (t : Ix.St (S:=S)) : Prop :=
  exists s' h' B' ps' n' np', t = (s', mkIxIndexHandle g h') /\ grove g R np' s' h' B' H ps' n' /\
    entries ps' n' (root_page_ h') = entries ps n root /\ (n' = n \/ n' = Datatypes.S n) /\ (forall p x, ps' !! p = Some x -> fit x) /\ leaves_kept ps ps' i /\ leaves_cut ps n root ps' n' (root_page_ h') i new nd /\
    (an_leaf nd = true -> exists c xl xr, keep h nd = Z.of_nat c /\ ps' !! i = Some xl /\ shape xl = shape (left_half new nd c) /\ ps' !! new = Some xr /\ shape xr = shape (right_half i nd c)).

(** a pinned node with one key too many *)
Record ready (g R np : Z) (s : S) (h1 : IxFileHdr) (B : bytes) (H : pinned) (ps : gmap Z anode) (n k : nat) (i : Z) (pi : page_ptr) (nd : anode) (lo hi : option (list Z)) : Prop := {
  rd_grove : grove g R np s h1 B H ps n;
  rd_path : path ps n (root_page_ h1) None None k i lo hi;
  rd_nd : ps !! i = Some nd;
  rd_pin : H !! i = Some pi;
  rd_over : zlen (an_keys nd) = limit h nd + 1;
  rd_fit : forall p x, ps !! p = Some x -> p <> i -> fit x;
  rd_pins : forall q p, H !! q = Some p -> q = i \/ exists j, (j < k)%nat /\ q ∈ level j ps n (root_page_ h1);
  rd_room : card H + 2 * (Z.of_nat n - Z.of_nat k + 1) <= R;
  rd_np : 0 <= np /\ np + (Z.of_nat n - Z.of_nat k + 2) <= 2 ^ 19;
}.
Definition split_right (fuel : nat) : Prop := forall g R np s h1 B H ps n k i pi nd lo hi, ready g R np s h1 B H ps n k i pi nd lo hi -> (n - k < fuel)%nat ->
  runs (Ix.split fuel pi) (s, mkIxIndexHandle g h1) (fun q t => exists new, H !! new = None /\ outcome g R (<[new := q]> H) ps n (root_page_ h1) i nd new t).

(** *** The parent of the two halves *)

Section step.
Context (g R : Z) (ps : gmap Z anode) (n : nat) (root : Z) (Hw : twf h ps n root) (k : nat) (i : Z) (lo hi : option (list Z)) (Hpath : path ps n root None None k i lo hi).
Context (nd : anode) (Hnd : ps !! i = Some nd) (c : nat) (up : list Z) (Hup : an_keys nd !! c = Some up) (Hc0 : (0 < c)%nat) (new : Z) (Hnew : ps !! new = None) (Hno : new <> IX_NO_PAGE).
Context (Hkeep : keep h nd = Z.of_nat c) (Hover : zlen (an_keys nd) = limit h nd + 1) (Hfit : forall p x, ps !! p = Some x -> p <> i -> fit x).
Context (last0 first0 : Z) (Hlast : last (level 0 ps n root) = Some last0) (Hfirst : head (level 0 ps n root) = Some first0) (H : pinned) (pi pn : page_ptr) (Hpi : H !! i = Some pi) (Hpn : H !! new = Some pn).
Context (Hpins : forall q p, H !! q = Some p -> q = i \/ q = new \/ exists j, (j < k)%nat /\ q ∈ level j ps n root).

(** the state between the move and [insert_into_parent] *)
Record mid (np : Z) (s : S) (h1 : IxFileHdr) (B : bytes) : Prop := {
  md_held : held g R np s B H;
  md_like : like h h1;
  md_free : first_free_page_no_ h1 = IX_NO_PAGE;
  md_rep : brep h B (halves ps i new nd c);
  md_root : root_page_ h1 = root;
  md_last : last_leaf_ h1 = if (an_next nd =? IX_NO_PAGE) && an_leaf nd then new else last0;
  md_first : first_leaf_ h1 = first0;
  md_room : card H + 2 * (Z.of_nat n - Z.of_nat k) + 1 <= R;
  md_np : 0 <= np /\ np + (Z.of_nat n - Z.of_nat k + 1) <= 2 ^ 19;
}.

Lemma halves_i : halves ps i new nd c !! i = Some (left_half new nd c).
Proof. apply lookup_insert_eq. Qed.
Lemma halves_new : halves ps i new nd c !! new = Some (right_half i nd c).
Proof. unfold halves. rewrite lookup_insert_ne by congruence. apply lookup_insert_eq. Qed.

Lemma halves_fit p x : halves ps i new nd c !! p = Some x -> fit x.
Proof.
  destruct (keep_bounds h Hg nd) as [Hk _]. unfold fit, limit, zlen in *. destruct (decide (p = i)) as [->|Hpi']; [rewrite halves_i; intros [= <-]; simpl; rewrite length_take; lia|].
  destruct (decide (p = new)) as [->|Hpn']; [rewrite halves_new; intros [= <-]; simpl; unfold cut; rewrite length_drop; destruct (an_leaf nd); lia|].
  rewrite halves_lookup by done. destruct (ps !! p) as [x0|] eqn:E; [|done]. intros [= <-]. by apply (Hfit p x0).
Qed.
Lemma halves_leaf p x : ps !! p = Some x -> p <> i -> exists x', halves ps i new nd c !! p = Some x' /\ shape x' = shape x.
Proof. intros Hx Hp. exists (touch new nd c p x). rewrite halves_lookup by congruence. by rewrite Hx. Qed.

(** the last leaf *)
Lemma last_cut l1 l2 l' np s h1 B : mid np s h1 B -> k = 0%nat -> level 0 ps n root = l1 ++ i :: l2 -> l' = l1 ++ i :: new :: l2 -> last l' = Some (last_leaf_ h1).
Proof.
  intros Hm Hk El ->. rewrite (md_last _ _ _ _ Hm). pose proof (tw_levels _ _ _ _ Hw 0) as Hch. rewrite El in Hch. pose proof (chain_next _ _ _ _ _ _ Hnd Hch) as Hnx. pose proof Hlast as Hl0. rewrite El in Hl0.
  rewrite (node_leaf h ps n root Hw k i lo hi Hpath nd Hnd), Hk. destruct l2 as [|q l2]; simpl in Hnx.
  - rewrite Hnx. simpl. replace (l1 ++ [i; new]) with ((l1 ++ [i]) ++ [new]) by (by rewrite <- app_assoc). by rewrite last_snoc.
  - assert (q <> IX_NO_PAGE) by (intros ->; eapply (level_real h ps n root Hw 0); rewrite El; apply elem_of_app; right; right; left). rewrite Hnx. destruct (Z.eqb_spec q IX_NO_PAGE); [done|]. simpl.
    rewrite last_app_cons in Hl0 |- *. by rewrite !last_cons_cons in *.
Qed.
Lemma first_cut l1 l2 l' np s h1 B : mid np s h1 B -> level 0 ps n root = l1 ++ i :: l2 -> l' = l1 ++ i :: new :: l2 -> head l' = Some (first_leaf_ h1).
Proof. intros Hm E ->. rewrite (md_first _ _ _ _ Hm), <- Hfirst, E. by destruct l1. Qed.
Lemma last_kept np s h1 B : mid np s h1 B -> k <> 0%nat -> last_leaf_ h1 = last0.
Proof. intros Hm Hk. rewrite (md_last _ _ _ _ Hm), (node_leaf h ps n root Hw k i lo hi Hpath nd Hnd). destruct k; [done|]. by rewrite andb_false_r. Qed.

(** the two nodes keep their pairs when what follows keeps the leaves *)
Lemma halves_kept ps2 q : (forall p x, halves ps i new nd c !! p = Some x -> an_leaf x = true -> exists x', ps2 !! p = Some x' /\ shape x' = shape x) ->
  q = i -> leaves_kept ps ps2 q /\
  (an_leaf nd = true -> exists c xl xr, keep h nd = Z.of_nat c /\ ps2 !! i = Some xl /\ shape xl = shape (left_half new nd c) /\ ps2 !! new = Some xr /\ shape xr = shape (right_half i nd c)).
Proof.
  intros Hk ->. split.
  - intros p x Hx Hlf Hp. destruct (halves_leaf p x Hx Hp) as (x' & Hx' & Hs'). pose proof Hs' as [= El _ _]. destruct (Hk p x' Hx') as (x2 & Hx2 & Hs2); [by rewrite El|]. exists x2. by rewrite Hs2.
  - intros Hlf. destruct (Hk i _ halves_i) as (xl & Hl & Hsl); [done|]. destruct (Hk new _ halves_new) as (xr & Hr & Hsr); [done|]. by exists c, xl, xr.
Qed.

(** below a new root *)
Lemma rise_runs np s h1 B fuel : mid np s h1 B -> k = n -> i = root -> lo = None -> hi = None -> an_parent nd = IX_NO_PAGE ->
  runs (Ix.insert_into_parent (Ix.split fuel) pi up pn) (s, mkIxIndexHandle g h1) (fun _ t => outcome g R H ps n root i nd new t).
Proof.
  intros Hm Hkn Hir Hlo Hhi Hpar. pose proof Hm as [Hh Hl Hfr Hrep Hrt _ Hf1 Hroom [Hnp0 Hnp]]. pose proof (path_le _ _ _ _ _ _ _ _ _ Hpath) as Hle. pose proof (like_brep _ _ _ _ Hl Hrep) as Hrep1. assert (Hin : i <> new) by congruence.
  pose proof (held_bound _ _ _ _ _ _ _ _ i Hh Hrep ltac:(rewrite halves_i; by eexists)) as Bi. pose proof (held_bound _ _ _ _ _ _ _ _ new Hh Hrep ltac:(rewrite halves_new; by eexists)) as Bn.
  destruct (held_fresh _ _ _ _ _ _ _ _ Hh Hrep) as [Hz HHz]. assert (Hpz : ps !! np = None). { rewrite halves_lookup in Hz by lia. by destruct (ps !! np). }
  destruct (Hrep1 _ _ halves_i) as (bi & HBi & Hri). unfold Ix.insert_into_parent. eapply held_read; [exact Hh|exact Hpi|exact HBi|exact (is_root_ok h1 _ _ Hri)|]. simpl an_parent. rewrite Hpar. simpl Z.eqb. cbv iota.
  destruct (up_good h Hc ps n root Hw k i lo hi Hpath nd Hnd c up Hup Hc0) as ([Hlen _] & _).
  eapply runs_bind; [eapply (new_root_runs h1 (like_geo _ _ Hl Hg) g R np H (halves ps i new nd c) i new pi pn (left_half new nd c) up Hpi Hpn halves_i Hin) with (s := s) (ndr := right_half i nd c); [unfold int32_ok; lia..|exact Hh|exact Hrep1|apply halves_new|done|by destruct Hl as (_ & _ & _ & -> & _)]|].
  intros p t (s1 & B1 & ri & rn & -> & Hh1 & Eri & Ern & Hb1). apply runs_tail. eapply held_release; [exact Hh1|apply lookup_insert_eq|done|]. intros s2 Hh2. rewrite delete_insert_id in Hh2 by done. rstep.
  set (ps2 := risen ps i new nd c np ri rn up). assert (Hps2 : brep h B1 ps2) by (eapply like_brep; [by apply like_sym|exact Hb1]).
  assert (Hsh : forall q x, halves ps i new nd c !! q = Some x -> exists x', ps2 !! q = Some x' /\ shape x' = shape x).
  { intros q x Hx. unfold ps2, risen. rewrite !lookup_insert. repeat case_decide; subst; try congruence; [..|by exists x]; eexists; (split; [done|]); [rewrite halves_i in Hx|rewrite halves_new in Hx]; by injection Hx as <-. }
  destruct (halves_kept ps2 i) as [Hlv Hhv]; [intros q x Hx _; by apply Hsh|done|]. exists s2, (Ix.set_root np (Ix.set_num_pages (num_pages_ h1 + 1) h1)), B1, ps2, (Datatypes.S k), (np + 1).
  assert (Hlvl : level 0 ps2 (Datatypes.S k) np = if decide (0%nat = k) then [i; new] else level 0 ps n root).
  { unfold ps2. rewrite (risen_level h ps n root Hw k i lo hi Hpath nd Hnd c up new Hnew) by (done || lia). by rewrite decide_False by lia. }
  assert (Hone : k = 0%nat -> level 0 ps n root = [] ++ i :: []) by (intros E; replace n with 0%nat by lia; rewrite <- Hir; apply (level_here _ _ _ _ Hnd)).
  split; [done|]. split; [split; try done|split; [|split; [right; lia|split; [|split; [done|split; [|done]]]]]]; simpl root_page_; simpl last_leaf_; simpl first_leaf_.
  - apply (risen_twf h Hc ps n root Hw k i lo hi Hpath nd Hnd c up Hup Hc0 new Hnew Hno); done || unfold IX_NO_PAGE; lia.
  - rewrite Hlvl. case_decide as Hk0; [eapply (last_cut [] []); [exact Hm|done|by apply Hone|done]|]. rewrite (last_kept _ _ _ _ Hm) by lia. exact Hlast.
  - rewrite Hlvl. case_decide as Hk0; [eapply (first_cut [] []); [exact Hm|by apply Hone|done]|]. by rewrite Hf1.
  - apply (risen_entries h ps n root Hw k i lo hi Hpath nd Hnd c up Hc0 new Hnew); done || lia.
  - clear Hlvl. intros q x Hx. unfold ps2, risen in Hx. rewrite !lookup_insert in Hx. repeat case_decide; try (injection Hx as <-).
    + unfold fit, limit, zlen. simpl. pose proof (ge_order _ Hg). lia.
    + exact (halves_fit i _ halves_i).
    + exact (halves_fit new _ halves_new).
    + by eapply halves_fit.
  - unfold leaves_cut. rewrite (node_leaf h ps n root Hw k i lo hi Hpath nd Hnd), Hlvl. destruct (Nat.eqb_spec k 0) as [Hk0|Hk0]; [rewrite decide_True by done; exists [], []; by split; [apply Hone|]|by rewrite decide_False by lia].
Qed.

(** below the parent of the node *)
Section join.
Context (y : Z) (ndy : anode) (m : nat) (r : Rid) (lo2 hi2 : option (list Z)) (Hpy : path ps n root None None (Datatypes.S k) y lo2 hi2) (Hndy : ps !! y = Some ndy).
Context (Hmr : an_rids ndy !! m = Some r) (Hri : rid_page_no r = i) (Hlo : lo = lo_of lo2 (an_keys ndy) m) (Hhi : hi = hi_of hi2 (an_keys ndy) m) (Hpar : an_parent nd = y).
Abbreviation rn := (mkRid new (-1)).
Abbreviation ps1 := (grown ps i new nd c y ndy m rn up).
Abbreviation ndy1 := (set_pairs (ins m up (an_keys ndy)) (ins (Datatypes.S m) rn (an_rids ndy)) ndy).

Lemma join_ne : y <> i /\ y <> new /\ y <> IX_NO_PAGE /\ H !! y = None.
Proof.
  destruct (parent_ne h ps n root Hw k i lo hi Hpath nd Hnd c Hc0 new Hnew y ndy m r lo2 hi2 Hpy Hndy Hmr Hri) as (H1 & H2 & _). split; [done|]. split; [done|]. split; [intros E; rewrite E, (tw_pages _ _ _ _ Hw) in Hndy; done|].
  destruct (H !! y) as [q|] eqn:E; [|done]. destruct (Hpins y q E) as [?|[?|(j & Hj & Hin)]]; [done|done|]. exfalso.
  assert (Hy : y ∈ level (Datatypes.S k) ps n root) by (eapply path_level; [exact Hpy|by eexists]). pose proof (level_unique _ _ _ _ _ _ (tw_nodup _ _ _ _ Hw) Hy Hin). lia.
Qed.

Lemma join_place h1 : like h h1 -> place h1 up m (an_keys ndy).
Proof.
  intros Hl. destruct (parent_keys h ps n root Hw k y ndy lo2 hi2 Hpy Hndy) as (_ & _ & Hlen). destruct (parent_around h Hc ps n root Hw k i lo hi Hpath nd Hnd c up Hup Hc0 y ndy m r lo2 hi2 Hpy Hndy Hmr Hlo Hhi) as [Ha Hb].
  split; [apply lookup_lt_Some in Hmr; lia|]. split; intros j x Hj Hx; [specialize (Ha j x Hj Hx); rewrite <- (like_klt _ _ _ _ Hl) in Ha; unfold klt in Ha; by rewrite Ha|].
  specialize (Hb j x Hj Hx). rewrite <- (like_klt _ _ _ _ Hl) in Hb. unfold klt in Hb. rewrite IxKey.lex_antisym, Hb. done.
Qed.

Lemma join_levels : leaves_cut ps n root ps1 n root i new nd.
Proof.
  unfold leaves_cut. rewrite (node_leaf h ps n root Hw k i lo hi Hpath nd Hnd). destruct (Nat.eqb_spec k 0) as [Hk0|Hk0].
  - pose proof (grown_level_k h Hc ps n root Hw k i lo hi Hpath nd Hnd c up Hup Hc0 new Hnew y ndy m r rn lo2 hi2 Hpy Hndy Hmr Hri eq_refl Hlo Hhi) as Hl. by rewrite Hk0 in Hl.
  - by apply (grown_level h Hc ps n root Hw k i lo hi Hpath nd Hnd c up Hup Hc0 new Hnew y ndy m r rn lo2 hi2 Hpy Hndy Hmr Hri eq_refl Hlo Hhi).
Qed.

Lemma join_grove np s h1 B s' B' H' : mid np s h1 B -> held g R np s' B' H' -> brep h B' ps1 -> grove g R np s' h1 B' H' ps1 n.
Proof.
  intros Hm Hh Hb. pose proof Hm as [_ Hl Hfr _ Hrt _ Hf1 _ _]. pose proof join_levels as Hlvl. unfold leaves_cut in Hlvl. rewrite (node_leaf h ps n root Hw k i lo hi Hpath nd Hnd) in Hlvl. split; try done; rewrite Hrt.
  - by apply (grown_twf h Hc ps n root Hw k i lo hi Hpath nd Hnd c up Hup Hc0 new Hnew Hno y ndy m r rn lo2 hi2).
  - destruct (Nat.eqb_spec k 0) as [Hk0|Hk0]; [destruct Hlvl as (l1 & l2 & E1 & E2); by eapply (last_cut l1 l2)|]. rewrite Hlvl, (last_kept _ _ _ _ Hm) by done. exact Hlast.
  - destruct (Nat.eqb_spec k 0) as [Hk0|Hk0]; [destruct Hlvl as (l1 & l2 & E1 & E2); by eapply (first_cut l1 l2)|]. by rewrite Hlvl, Hf1.
Qed.

Lemma join_fit p x : ps1 !! p = Some x -> p <> y -> fit x.
Proof. intros Hx Hp. unfold grown in Hx. rewrite lookup_insert_ne in Hx by done. by eapply halves_fit. Qed.

Lemma join_outcome s' h' B' ps2 n2 np' : grove g R np' s' h' B' H ps2 n2 -> entries ps2 n2 (root_page_ h') = entries ps1 n root -> n2 = n \/ n2 = Datatypes.S n -> (forall p x, ps2 !! p = Some x -> fit x) -> leaves_kept ps1 ps2 y -> level 0 ps2 n2 (root_page_ h') = level 0 ps1 n root ->
  outcome g R H ps n root i nd new (s', mkIxIndexHandle g h').
Proof.
  intros Hv He Hn Hf Hk Hlv0. destruct (parent_keys h ps n root Hw k y ndy lo2 hi2 Hpy Hndy) as (Hlf & _). destruct (halves_kept ps2 i) as [Hlv Hhv]; [|done|].
  - intros p x Hx Hlx. apply (Hk p x); [|done|].
    + unfold grown. rewrite lookup_insert_ne; [done|]. intros <-. rewrite (halves_y h ps n root Hw k i lo hi Hpath nd Hnd c Hc0 new Hnew y ndy m r lo2 hi2 Hpy Hndy Hmr Hri Hlo Hhi) in Hx. congruence.
    + intros ->. rewrite (halves_y h ps n root Hw k i lo hi Hpath nd Hnd c Hc0 new Hnew y ndy m r lo2 hi2 Hpy Hndy Hmr Hri Hlo Hhi) in Hx. congruence.
  - exists s', h', B', ps2, n2, np'. split; [done|]. split; [done|]. pose proof join_levels as Hlvl. split; [|split_and!; try done; unfold leaves_cut in *; by rewrite Hlv0]. rewrite He.
    by apply (grown_entries h Hc ps n root Hw k i lo hi Hpath nd Hnd c up Hup Hc0 new Hnew y ndy m r rn lo2 hi2).
Qed.

Lemma join_ready np s h1 B s' B' p : mid np s h1 B -> held g R np s' B' (<[y := p]> H) -> brep h B' ps1 -> limit h ndy < zlen (an_keys ndy) + 1 -> ready g R np s' h1 B' (<[y := p]> H) ps1 n (Datatypes.S k) y p ndy1 lo2 hi2.
Proof.
  intros Hm Hh Hb Hbig. pose proof Hm as [_ _ _ _ Hrt _ _ Hroom [Hnp0 Hnp]]. destruct join_ne as (N1 & N2 & N3 & N4). pose proof (Hfit y ndy Hndy N1) as Hfy. unfold fit in Hfy.
  destruct (parent_keys h ps n root Hw k y ndy lo2 hi2 Hpy Hndy) as (_ & _ & Hlen). pose proof (path_le _ _ _ _ _ _ _ _ _ Hpy) as Hle. split; rewrite ?Hrt.
  - by apply (join_grove np s h1 B).
  - by apply (grown_path h Hc ps n root Hw k i lo hi Hpath nd Hnd c up Hup Hc0 new Hnew y ndy m r rn lo2 hi2).
  - apply lookup_insert_eq.
  - apply lookup_insert_eq.
  - unfold zlen in *. simpl an_keys. rewrite length_ins by (apply lookup_lt_Some in Hmr; lia). change (limit h ndy1) with (limit h ndy). lia.
  - apply join_fit.
  - destruct (grown_level_k h Hc ps n root Hw k i lo hi Hpath nd Hnd c up Hup Hc0 new Hnew y ndy m r rn lo2 hi2 Hpy Hndy Hmr Hri eq_refl Hlo Hhi) as (l1 & l2 & _ & E2).
    intros q p'. rewrite lookup_insert. destruct (decide (y = q)) as [<-|Hq]; [by left|]. intros Hp'. right. destruct (Hpins q p' Hp') as [->|[->|(j & Hj & Hin)]].
    + exists k. split; [lia|]. rewrite E2. apply elem_of_app. right. left.
    + exists k. split; [lia|]. rewrite E2. apply elem_of_app. right. right. left.
    + exists j. split; [lia|]. by rewrite (grown_level h Hc ps n root Hw k i lo hi Hpath nd Hnd c up Hup Hc0 new Hnew y ndy m r rn lo2 hi2 Hpy Hndy Hmr Hri eq_refl Hlo Hhi) by lia.
  - rewrite map_size_insert_None by done. lia.
  - lia.
Qed.

Lemma join_runs np s h1 B fuel : split_right fuel -> (n - Datatypes.S k < fuel)%nat -> mid np s h1 B ->
  runs (Ix.insert_into_parent (Ix.split fuel) pi up pn) (s, mkIxIndexHandle g h1) (fun _ t => outcome g R H ps n root i nd new t).
Proof.
  intros IH Hf Hm. pose proof Hm as [Hh Hl Hfr Hrep Hrt _ Hf1 Hroom [Hnp0 Hnp]]. pose proof (path_le _ _ _ _ _ _ _ _ _ Hpath) as Hle. pose proof (like_brep _ _ _ _ Hl Hrep) as Hrep1. destruct join_ne as (N1 & N2 & N3 & N4).
  pose proof (held_bound _ _ _ _ _ _ _ _ new Hh Hrep ltac:(rewrite halves_new; by eexists)) as Bn. destruct (parent_keys h ps n root Hw k y ndy lo2 hi2 Hpy Hndy) as (Hlf & Hs & Hlen). pose proof (Hfit y ndy Hndy N1) as Hfy.
  destruct (Hrep1 _ _ halves_i) as (bi & HBi & Hrepi). unfold Ix.insert_into_parent. eapply held_read; [exact Hh|exact Hpi|exact HBi|exact (is_root_ok h1 _ _ Hrepi)|]. simpl an_parent. rewrite Hpar, (proj2 (Z.eqb_neq _ _) N3).
  destruct (up_good h Hc ps n root Hw k i lo hi Hpath nd Hnd c up Hup Hc0) as (Hgood & _). rstep.
  pose proof (halves_y h ps n root Hw k i lo hi Hpath nd Hnd c Hc0 new Hnew y ndy m r lo2 hi2 Hpy Hndy Hmr Hri Hlo Hhi) as Hy.
  eapply runs_bind; [eapply (add_child_runs h1 (like_geo _ _ Hl Hg) (like_cols _ _ Hl Hc) g R np H (halves ps i new nd c) i new pi pn (left_half new nd c) up Hpi Hpn halves_i) with (s := s) (y := y) (ndy := ndy) (m := m);
    [lia|unfold int32_ok; lia|exact Hh|exact Hrep1|exact Hpar|exact Hy|done|done|done|by eapply like_sorted|by rewrite (like_limit _ _ Hl)|by apply join_place|by eapply like_good]|].
  intros ? t (p & s1 & B1 & -> & -> & Hh1 & Hb1). cbn beta iota. destruct (Hb1 _ _ (lookup_insert_eq _ _ _)) as (by1 & HBy & Hry). pose proof (like_brep _ _ _ _ (like_sym _ _ Hl) Hb1) as Hb1'. rstep.
  eapply held_read; [exact Hh1|apply lookup_insert_eq|exact HBy|exact (max_key_ok h1 _ _ Hry)|]. rewrite (like_limit _ _ Hl). change (limit h (set_pairs _ _ ndy)) with (limit h ndy). destruct (Z.ltb_spec (limit h ndy) (zlen (an_keys ndy) + 1)) as [Hbig|Hsmall].
  - rstep. eapply runs_bind; [eapply runs_bind; [apply (IH g R np s1 h1 B1 (<[y := p]> H) ps1 n (Datatypes.S k) y p ndy1 lo2 hi2); [by apply (join_ready np s h1 B)|done]|]|].
    + intros q t (new2 & Hn2 & s2 & h2 & B2 & ps2 & n2 & np2 & -> & Hv & He & Hn & Hfit2 & Hlv & Hcut & _). unfold leaves_cut in Hcut. simpl an_leaf in Hcut. rewrite Hlf, Hrt in Hcut. apply runs_tail. eapply held_release; [apply Hv|apply lookup_insert_eq|done|]. intros s3 Hh3.
      rewrite delete_insert_id in Hh3 by done. rstep. instantiate (1 := fun _ t => exists s2 h2 B2 ps2 n2 np2, t = (s2, mkIxIndexHandle g h2) /\ grove g R np2 s2 h2 B2 (<[y := p]> H) ps2 n2 /\ entries ps2 n2 (root_page_ h2) = entries ps1 n root /\
        (n2 = n \/ n2 = Datatypes.S n) /\ (forall q x, ps2 !! q = Some x -> fit x) /\ leaves_kept ps1 ps2 y /\ level 0 ps2 n2 (root_page_ h2) = level 0 ps1 n root). rewrite Hrt in He. exists s3, h2, B2, ps2, n2, np2. split_and!; try done. by destruct Hv.
    + intros [] t (s2 & h2 & B2 & ps2 & n2 & np2 & -> & Hv & He & Hn & Hfit2 & Hlv & Hcut). rstep. apply runs_tail. eapply held_release; [apply Hv|apply lookup_insert_eq|done|]. intros s3 Hh3. rewrite delete_insert_id in Hh3 by done. rstep.
      eapply join_outcome; [|exact He|done|exact Hfit2|exact Hlv|exact Hcut]. by destruct Hv.
  - rstep. rstep. apply runs_tail. eapply held_release; [exact Hh1|apply lookup_insert_eq|done|]. intros s2 Hh2. rewrite delete_insert_id in Hh2 by done. rstep.
    eapply (join_outcome s2 h1 B1 ps1 n np); [by apply (join_grove np s h1 B)|by rewrite Hrt|by left| |by intros q x Hx; exists x|by rewrite Hrt].
    intros q x Hx. destruct (decide (q = y)) as [->|Hq]; [|by eapply join_fit]. unfold grown in Hx. rewrite lookup_insert_eq in Hx. injection Hx as <-. unfold fit, zlen in *. simpl an_keys. change (limit h ndy1) with (limit h ndy).
    rewrite length_ins by (apply lookup_lt_Some in Hmr; lia). lia.
Qed.
End join.

End step.

(** the page of a node, its links and its children *)
Lemma ready_links g R np s h1 B H ps n k i pi nd lo hi c : ready g R np s h1 B H ps n k i pi nd lo hi ->
  (an_next nd = IX_NO_PAGE \/ is_Some (ps !! an_next nd) /\ an_next nd <> i /\ H !! an_next nd = None) /\ (forall q, q ∈ moved nd c -> is_Some (ps !! q) /\ q <> i) /\
  0 <= i < np /\ int32_ok (an_parent nd) /\ int32_ok (an_next nd).
Proof.
  intros [Hv Hpath Hnd Hpi _ _ Hpins _ [Hnp0 Hnp]]. pose proof Hv as [Hh Hl _ Hb Hw _ _]. pose proof (path_le _ _ _ _ _ _ _ _ _ Hpath) as Hle.
  assert (Hbd : forall q, is_Some (ps !! q) -> 0 <= q < np) by (intros q; by apply (held_bound _ _ _ _ _ _ _ _ q Hh Hb)). assert (Hok : forall q, is_Some (ps !! q) -> int32_ok q) by (intros q Hq%Hbd; unfold int32_ok; lia).
  pose proof (next_level h ps n _ Hw k i lo hi Hpath nd Hnd) as Hnx. split_and!.
  - destruct Hnx as [?|[Hin Hni]]; [by left|right]. split; [by eapply level_page|]. split; [done|]. destruct (H !! an_next nd) as [q|] eqn:E; [|done]. exfalso. destruct (Hpins _ _ E) as [?|(j & Hj & Hin')]; [done|].
    pose proof (level_unique _ _ _ _ _ _ (tw_nodup _ _ _ _ Hw) Hin Hin'). lia.
  - intros q Hq. destruct (moved_pages h ps n _ Hw k i lo hi Hpath nd Hnd c q Hq) as [Hin Hne]. split; [|done]. by eapply tree_page, path_pages.
  - apply Hbd. by eexists.
  - apply Hbd. by eexists.
  - destruct (parent_of h ps n _ Hw k i lo hi Hpath nd Hnd) as [(_ & _ & _ & _ & ->)|(y & ndy & m & r & lo2 & hi2 & _ & Hy & _ & _ & _ & _ & ->)]; [done|]. apply Hok. by eexists.
  - destruct Hnx as [->|[Hin _]]; [done|]. apply Hok. by eapply level_page.
Qed.

Lemma split_all fuel : split_right fuel.
Proof.
  induction fuel as [|fuel IH]; intros g R np s h1 B H ps n k i pi nd lo hi Hrd Hf; [lia|].
  destruct (keep_bounds h Hg nd) as [Hk1 Hk2]. set (c := Z.to_nat (keep h nd)). assert (Hkeep : keep h nd = Z.of_nat c) by lia. assert (Hc0 : (0 < c)%nat) by lia. pose proof (ready_links _ _ _ _ _ _ _ _ _ _ _ _ _ _ _ c Hrd) as (Hnx & Hmv & Bi & Ip & Inx).
  pose proof Hrd as [Hv Hpath Hnd Hpi Hover Hfit Hpins Hroom [Hnp0 Hnp]]. pose proof Hv as [Hh Hl Hfr Hb Hw Hlast Hfirst]. pose proof (path_le _ _ _ _ _ _ _ _ _ Hpath) as Hle. destruct (held_fresh _ _ _ _ _ _ _ _ Hh Hb) as [Hnew HHnew].
  destruct (lookup_lt_is_Some_2 (an_keys nd) c) as [up Hup]; [unfold zlen in Hover; lia|]. destruct (Hb _ _ Hnd) as (b & HB & Hrep). pose proof (like_nrep _ _ _ _ Hl Hrep) as Hrep1.
  cbn [Ix.split]. unfold Ix.size_of. eapply held_read; [exact Hh|exact Hpi|exact HB|by apply (nrep_size h)|]. eapply held_read; [exact Hh|exact Hpi|exact HB|exact (max_key_ok h1 _ _ Hrep1)|]. rstep; [rewrite (like_limit _ _ Hl); by apply Z.eqb_eq|].
  eapply held_create; [exact Hh|done|cbn [ix_fd_]; lia|lia|]. intros p s1 Hh1. cbn [ix_fd_ ix_hdr_] in *. set (h2 := Ix.set_num_pages (num_pages_ h1 + 1) h1). assert (Hl2 : like h h2) by exact Hl. set (H1 := <[np := p]> H) in *.
  assert (Hno : np <> IX_NO_PAGE) by (unfold IX_NO_PAGE; lia). assert (Hpi1 : H1 !! i = Some pi) by (unfold H1; rewrite lookup_insert_ne; [done|congruence]). assert (Hcard : card H1 = card H + 1) by (unfold H1; rewrite map_size_insert_None by done; lia).
  eapply runs_bind; [eapply (move_half_runs h2 (like_geo _ _ Hl2 Hg) (like_cols _ _ Hl2 Hc) g R (np + 1) H1 ps i np pi p nd c up Hpi1 (lookup_insert_eq _ _ _) Hnd Hnew (tw_pages _ _ _ _ Hw) Hno Hup) with (s := s1);
    [by rewrite (like_keep _ _ Hl2)| |exact Hmv|lia|unfold int32_ok; lia|unfold int32_ok; lia|done|done|exact Hh1|apply brep_fresh; [by eapply like_brep|done]|apply lookup_insert_eq|apply zlen_zeros; unfold PAGE_SIZE; lia]|].
  { destruct Hnx as [?|([x Hx] & Hni & HHn)]; [by left|right]. split; [by eexists|]. split; [done|]. unfold H1. rewrite lookup_insert_ne; [done|congruence]. }
  intros key t (-> & s2 & B2 & -> & Hh2 & Hb2).
  assert (Hm : mid g R ps n (root_page_ h1) k i nd c np (last_leaf_ h1) (first_leaf_ h1) H1 (np + 1) s2 (relast np nd h2) B2).
  { split; try done; try lia; unfold relast; try (by destruct (_ && _)). eapply like_brep; [apply like_sym; exact Hl2|exact Hb2]. }
  assert (Hpins1 : forall q p', H1 !! q = Some p' -> q = i \/ q = np \/ exists j, (j < k)%nat /\ q ∈ level j ps n (root_page_ h1)).
  { intros q p'. unfold H1. rewrite lookup_insert. destruct (decide (np = q)) as [<-|Hq]; [by right; left|]. intros [?|?]%Hpins; [by left|by right; right]. }
  apply (runs_bind _ _ _ (fun _ t => outcome g R H1 ps n (root_page_ h1) i nd np t)); [|intros [] t Ho; rstep; exists np; split; [done|exact Ho]].
  destruct (parent_of h ps n _ Hw k i lo hi Hpath nd Hnd) as [(E1 & E2 & E3 & E4 & E5)|(y & ndy & m & r & lo2 & hi2 & Hpy & Hy & Hmr & Hri & Hlo & Hhi & Hpar)].
  - eapply rise_runs; try done. apply lookup_insert_eq.
  - eapply join_runs; try done; [apply lookup_insert_eq|]. pose proof (path_le _ _ _ _ _ _ _ _ _ Hpy). lia.
Qed.
End tree.

(** ** A leaf with other pairs *)

Section leaf.
Context (h : IxFileHdr) (Hc : cols h).
Abbreviation level k := (walk (see_level k)).

Lemma route_path ps n pn lo hi key leaf : sub h ps n pn lo hi -> inb h lo hi key -> route h ps n pn key leaf -> exists lo' hi', path ps n pn lo hi 0 leaf lo' hi' /\ inb h lo' hi' key.
Proof.
  revert pn lo hi. induction n as [|n IH]; intros pn lo hi Hs Hb; [intros ->; exists lo, hi; split; [constructor|done]|]. intros (nd & m & r & Hnd & Hm & H1 & H2 & Hr). destruct Hs as (x & Hx & Hso & _ & _ & Hlen & Hch). rewrite Hnd in Hx. injection Hx as <-.
  destruct (IH _ _ _ (Hch m r Hm)) as (lo' & hi' & Hp & Hb'); [apply inb_child; try done; apply lookup_lt_Some in Hm; lia|done|]. exists lo', hi'. split; [by eapply path_down|done].
Qed.

(** links and parents depend on those fields only *)
Definition same_links (ps ps' : gmap Z anode) : Prop :=
  forall p x, ps !! p = Some x -> exists x', ps' !! p = Some x' /\ an_prev x' = an_prev x /\ an_next x' = an_next x /\ an_parent x' = an_parent x.
Lemma chain_links ps ps' prev l : same_links ps ps' -> chain ps prev l -> chain ps' prev l.
Proof. intros Hs. revert prev. induction l as [|p l IH]; intros prev; [done|]. intros [(x & Hx & Hp & Hn) Hl]. split; [|by apply IH]. destruct (Hs p x Hx) as (x' & Hx' & E1 & E2 & _). exists x'. by rewrite E1, E2. Qed.
Lemma parented_links ps ps' l : same_links ps ps' -> parented ps l -> parented ps' l.
Proof. intros Hs Hp. eapply Forall_impl; [exact Hp|]. intros e (x & Hx & He). destruct (Hs _ _ Hx) as (x' & Hx' & _ & _ & E). exists x'. by rewrite E. Qed.

Lemma leaf_twf ps n root leaf nd ks rs lo hi : twf h ps n root -> path ps n root None None 0 leaf lo hi -> ps !! leaf = Some nd ->
  let ps' := <[leaf := set_pairs ks rs nd]> ps in sub h ps' 0 leaf lo hi ->
  twf h ps' n root /\ path ps' n root None None 0 leaf lo hi /\ level 0 ps' n root = level 0 ps n root /\
  exists pre suf, entries ps n root = pre ++ zip (an_keys nd) (an_rids nd) ++ suf /\ entries ps' n root = pre ++ zip ks rs ++ suf.
Proof.
  intros Hw Hp Hnd ps' Hs. assert (Hne : forall p, p <> leaf -> ps' !! p = ps !! p) by (intros p Hpl; by apply lookup_insert_ne). assert (Hl : ps' !! leaf = Some (set_pairs ks rs nd)) by apply lookup_insert_eq.
  destruct (path_replace h ps ps' n root None None 0 leaf lo hi Hp (tw_sub _ _ _ _ Hw) (tw_nodup _ _ _ _ Hw)) as (Hs' & Hp' & Hwk); [|done|].
  { intros p _ Hpl. unfold like_page. rewrite Hne; [done|]. intros ->. apply Hpl. simpl. rewrite Hnd. left. }
  assert (Hsame : forall A (f : visit A), Shaped f -> f 0%nat leaf nd = f 0%nat leaf (set_pairs ks rs nd) -> walk f ps' n root = walk f ps n root).
  { intros A f Hf E. destruct (Hwk A f Hf) as (pre & suf & -> & ->). simpl. by rewrite Hnd, Hl, E. }
  assert (Hlk : same_links ps ps') by (intros p x Hx; destruct (decide (p = leaf)) as [->|Hpl]; [rewrite Hnd in Hx; injection Hx as <-; by eexists|exists x; by rewrite Hne]).
  split; [|split; [done|split; [exact (Hsame _ (see_level 0) _ eq_refl)|]]].
  - destruct Hw as [_ Hd Hlv Hk Hr Hno]. split; [done| | | | |].
    + by rewrite (Hsame _ see_page _ eq_refl).
    + intros j. rewrite (Hsame _ (see_level j) _ eq_refl). by eapply chain_links.
    + rewrite (Hsame _ see_kids _ eq_refl). by eapply parented_links.
    + by eapply parented_links.
    + rewrite Hne; [done|]. intros E. rewrite E in Hno. congruence.
  - rewrite !entries_walk. destruct (Hwk _ see_pairs _) as (pre & suf & -> & ->). exists pre, suf. simpl. rewrite Hnd, Hl. simpl. by rewrite !app_nil_r.
Qed.

Lemma chain_prev ps prev l1 l2 i nd : ps !! i = Some nd -> chain ps prev (l1 ++ i :: l2) -> an_prev nd = default prev (last l1).
Proof.
  intros Hnd. revert prev. induction l1 as [|q l1 IH]; intros prev; simpl; [intros [(x & Hx & Ep & _) _]; congruence|]. intros [_ Hl]. rewrite (IH q Hl), last_cons. by destruct (last l1).
Qed.
Lemma prev_level ps n root k i lo hi nd : twf h ps n root -> path ps n root None None k i lo hi -> ps !! i = Some nd -> an_prev nd = IX_NO_PAGE \/ an_prev nd ∈ level k ps n root /\ an_prev nd <> i.
Proof.
  intros Hw Hp Hnd. destruct (node_level h ps n root Hw k i lo hi Hp nd Hnd) as (l1 & l2 & E & _). pose proof (tw_levels _ _ _ _ Hw k) as Hch. rewrite E in Hch. rewrite (chain_prev _ _ _ _ _ _ Hnd Hch).
  pose proof (level_nodup h ps n root Hw k) as Hd. rewrite E in Hd |- *. destruct (last l1) as [q|] eqn:El; [right|by left]. simpl. apply last_Some in El as [l ->]. split; [set_solver|].
  intros ->. rewrite <- app_assoc in Hd. simpl in Hd. apply NoDup_app in Hd as (_ & _ & Hd). apply NoDup_cons in Hd as [Hd _]. apply Hd. left.
Qed.
End leaf.

(** ** Insertion *)

Section insertion.
Context {S : Type} {PS : PageStore S} {PL : PageStoreLaws S}.
Local Open Scope prog_scope.
Abbreviation bytes := (gmap Z (list Z)).
Abbreviation pinned := (gmap Z page_ptr).
Abbreviation level k := (walk (see_level k)).

Lemma like_kv h h1 k : like h h1 -> kv h1 k = kv h k.
Proof. destruct h, h1. unfold like. simpl. by intros (-> & -> & -> & -> & -> & ->). Qed.
Lemma like_inb h h1 lo hi k : like h h1 -> inb h lo hi k -> inb h1 lo hi k.
Proof. destruct h, h1. unfold like. simpl. by intros (-> & -> & -> & -> & -> & ->). Qed.
Lemma like_sub h h1 ps n pn lo hi : like h h1 -> sub h ps n pn lo hi -> sub h1 ps n pn lo hi.
Proof.
  intros Hl. revert pn lo hi. induction n as [|n IH]; intros pn lo hi (nd & Hnd & Hs & Hin & Hk); exists nd; (split; [done|]); (split; [by eapply like_sorted|]); (split; [intros k Hk'; eapply like_inb; [done|by apply Hin]|]); [done|].
  destruct Hk as (Hlf & Hlen & Hch). split; [done|]. split; [done|]. intros i r Hr. by apply IH, Hch.
Qed.
Lemma like_twf h h1 ps n root : like h h1 -> twf h ps n root -> twf h1 ps n root.
Proof. intros Hl []. split; try done. by eapply like_sub. Qed.

(** a tree at rest with its links: every level is a doubly linked list, every node names its parent, no node is overfull, and
    only a lone leaf is empty *)
Record tree_ok (s : S) (hd : IxIndexHandle) (ps : gmap Z anode) (n : nat) : Prop := {
  tk_rep : irep (ix_hdr_ hd) s hd ps n;
  tk_file : ps_file s (ix_fd_ hd);
  tk_tree : twf (ix_hdr_ hd) ps n (root_page_ (ix_hdr_ hd));
  tk_last : last (level 0 ps n (root_page_ (ix_hdr_ hd))) = Some (last_leaf_ (ix_hdr_ hd));
  tk_first : head (level 0 ps n (root_page_ (ix_hdr_ hd))) = Some (first_leaf_ (ix_hdr_ hd));
  tk_free : first_free_page_no_ (ix_hdr_ hd) = IX_NO_PAGE;
  tk_fit : forall p x, ps !! p = Some x -> fit (ix_hdr_ hd) x;
  tk_full : forall p x, p ∈ level 0 ps n (root_page_ (ix_hdr_ hd)) -> ps !! p = Some x -> an_keys x = [] -> level 0 ps n (root_page_ (ix_hdr_ hd)) = [p];
}.
Definition nonempty (ps : gmap Z anode) (l : list Z) : Prop := forall p x, p ∈ l -> ps !! p = Some x -> an_keys x <> [].

Lemma choose_bytes (P : Z -> anode -> list Z -> Prop) (ps : gmap Z anode) : (forall i nd, ps !! i = Some nd -> exists b, P i nd b) ->
  exists B : bytes, (forall i nd, ps !! i = Some nd -> exists b, B !! i = Some b /\ P i nd b) /\ (forall i b, B !! i = Some b -> exists nd, ps !! i = Some nd /\ P i nd b).
Proof.
  induction ps as [|i nd ps Hi IH] using map_ind; intros Hp; [exists ∅; split; intros ? ?; by rewrite lookup_empty|].
  destruct IH as (B & H1 & H2); [intros j x Hj; apply Hp; rewrite lookup_insert_ne; [done|congruence]|]. destruct (Hp i nd (lookup_insert_eq _ _ _)) as [b Hb]. exists (<[i := b]> B).
  split; intros j x; rewrite !lookup_insert; destruct (decide (i = j)) as [<-|Hij]; try (by intros [= <-]; eexists); auto.
Qed.

(** the state in which the leaf of the key is pinned *)
Lemma leaf_held s hd ps n key p s1 s' leaf nd b : tree_ok s hd ps n -> at_leaf (ix_hdr_ hd) s hd ps n key p (s', hd) s1 s' leaf nd b ->
  exists B, held (ix_fd_ hd) (ps_room s) (ps_npages s (ix_fd_ hd)) s' B {[leaf := p]} /\ brep (ix_hdr_ hd) B ps /\ B !! leaf = Some b.
Proof.
  intros Hlk [_ Hi Hcalm _ Hnd Hrep Hw _ Hpg]. set (g := ix_fd_ hd) in *. assert (Hkl : forall i, i <> leaf -> mkPageId g i <> mkPageId g leaf) by (intros; congruence).
  destruct (choose_bytes (fun i nd b => ps_page s' (mkPageId g i) b /\ nrep (ix_hdr_ hd) nd b /\ ps_pins s' (mkPageId g i) = if decide (i = leaf) then 1 else 0) ps) as (B & H1 & H2).
  { intros i x Hx. destruct (decide (i = leaf)) as [->|Hne]; [rewrite Hnd in Hx; injection Hx as <-; exists b; split_and!; [apply Hw|done|apply Hw]|].
    destruct (ir_pages _ _ _ _ _ Hi i x Hx) as (b' & Hb' & Hr' & Hz). pose proof (RmP.wk_others _ _ _ _ _ _ _ _ Hw) as O. exists b'. split; [apply (ot_page _ _ _ _ _ _ _ O); auto|]. split; [done|]. rewrite (ot_pins _ _ _ _ _ _ _ O); auto. }
  exists B. destruct (H1 leaf nd Hnd) as (b' & Hb' & Hp' & _ & _). rewrite (ps_page_fun s' _ _ _ Hp' (RmP.wk_page _ _ _ _ _ _ _ _ Hw)) in Hb'. split; [|split; [intros i x Hx; destruct (H1 i x Hx) as (b2 & ? & _ & ? & _); eauto|done]]. split.
  - apply Hw.
  - apply (RmP.wk_file _ _ _ _ _ _ _ _ Hw), (RmP.ca_file _ _ Hcalm), Hlk.
  - intros i b2 Hb2. by destruct (H2 i b2 Hb2) as (x & _ & ? & _).
  - intros i b2 Hb2. destruct (H2 i b2 Hb2) as (x & _ & _ & _ & ->). destruct (decide (i = leaf)) as [->|Hne]; [by rewrite lookup_singleton_eq|by rewrite lookup_singleton_ne].
  - intros i q [<- <-]%lookup_singleton_Some. split; [apply Hw|by eexists].
  - rewrite (RmP.wk_room _ _ _ _ _ _ _ _ Hw), (RmP.ca_room _ _ Hcalm), map_size_singleton. lia.
  - by rewrite (RmP.wk_npages _ _ _ _ _ _ _ _ Hw), (RmP.ca_npages _ _ Hcalm).
Qed.

(** everything was released *)
Lemma held_rest g R np s B : held g R np s B ∅ -> ps_room s = R.
Proof. intros Hh. rewrite (he_room _ _ _ _ _ _ Hh), map_size_empty. lia. Qed.
Lemma grove_ok h g R np s h1 B ps n : grove h g R np s h1 B ∅ ps n -> 0 < R -> (forall p x, ps !! p = Some x -> fit h x) -> nonempty ps (level 0 ps n (root_page_ h1)) -> tree_ok s (mkIxIndexHandle g h1) ps n.
Proof.
  intros [Hh Hl Hfr Hb Hw Hla Hfi] HR Hf Hne. pose proof (like_twf _ _ _ _ _ Hl Hw) as Hw1. split; try done; simpl.
  - split; simpl; try done; [apply Hh| | |apply Hw1|].
    + intros i nd Hnd. destruct (Hb i nd Hnd) as (b & HB & Hr). exists b. split; [by apply (he_page _ _ _ _ _ _ Hh)|]. split; [by eapply like_nrep|]. by rewrite (he_pins _ _ _ _ _ _ Hh i b HB), lookup_empty.
    + rewrite (he_room _ _ _ _ _ _ Hh), map_size_empty. lia.
    + rewrite (pages_walk h1 _ _ _ _ _ (tw_sub _ _ _ _ Hw1)). apply Hw1.
  - apply Hh.
  - intros p x Hx. unfold fit. rewrite (like_limit h h1 x Hl). by apply (Hf p x).
  - intros p x Hp Hx E. by destruct (Hne p x Hp Hx).
Qed.

(** the tree [ps] of height [n] got the entry, in the leaf [pn] *)
Definition inserted (R : Z) (hd : IxIndexHandle) (ps : gmap Z anode) (n : nat) (key : list Z) (r : Rid) (pn : Z) (t : Ix.St (S:=S)) : Prop :=
  exists s' hd' ps' n' l1 l2 x, t = (s', hd') /\ tree_ok s' hd' ps' n' /\ ps_room s' = R /\ ix_fd_ hd' = ix_fd_ hd /\ like (ix_hdr_ hd) (ix_hdr_ hd') /\ (n' = n \/ n' = Datatypes.S n) /\
    entries ps n (root_page_ (ix_hdr_ hd)) = l1 ++ l2 /\ entries ps' n' (root_page_ (ix_hdr_ hd')) = l1 ++ (key, r) :: l2 /\
    ps' !! pn = Some x /\ an_leaf x = true /\ (key, r) ∈ zip (an_keys x) (an_rids x).

Context (h : IxFileHdr) (Hg : geo h) (Hc : cols h).

(** the tree at rest again, with the same entries, the pair being in the leaf [pn] *)
Definition settled (g R : Z) (ps : gmap Z anode) (n : nat) (root : Z) (key : list Z) (r : Rid) (pn : Z) (t : Ix.St (S:=S)) : Prop :=
  exists s' h' ps' n' x, t = (s', mkIxIndexHandle g h') /\ tree_ok s' (mkIxIndexHandle g h') ps' n' /\ ps_room s' = R /\ like h h' /\ (n' = n \/ n' = Datatypes.S n) /\ entries ps' n' (root_page_ h') = entries ps n root /\
    ps' !! pn = Some x /\ an_leaf x = true /\ (key, r) ∈ zip (an_keys x) (an_rids x).

(** the leaf has got the pair, and is pinned *)
Record filled (g R np : Z) (s : S) (h1 : IxFileHdr) (B : bytes) (ps : gmap Z anode) (n : nat) (leaf : Z) (p : page_ptr) (nd : anode) (m : nat) (key : list Z) (r : Rid) (lo hi : option (list Z)) : Prop := {
  fl_grove : grove h g R np s h1 B {[leaf := p]} ps n;
  fl_path : path ps n (root_page_ h1) None None 0 leaf lo hi;
  fl_nd : ps !! leaf = Some nd;
  fl_leaf : an_leaf nd = true;
  fl_sorted : sorted h (an_keys nd);
  fl_good : key_good h key;
  fl_key : an_keys nd !! m = Some key;
  fl_rid : an_rids nd !! m = Some r;
  fl_fit : forall q x, ps !! q = Some x -> q <> leaf -> fit h x;
  fl_full : nonempty ps (level 0 ps n (root_page_ h1));
  fl_room : 2 * Z.of_nat n + 3 <= R;
  fl_np : 0 <= np /\ np + Z.of_nat n + 2 <= 2 ^ 19;
}.

(** a neighbour without room *)
Lemma peek_full {A} g R np s B H h1 ps nb x (X : page_ptr -> Prog (Ix.St (S:=S)) (option A)) : held g R np s B H -> brep h B ps -> like h h1 -> ps !! nb = Some x -> H !! nb = None -> limit h x <= zlen (an_keys x) -> Z.of_nat (stdpp.base.size H) < R ->
  runs (let* q := Ix.fetch_node nb in let* n := Ix.size_of q in let* m := Ix.on_node q IxNode.get_max_key_size in if n <? m then X q else Ix.release_node_handle q false;; ret None)
    (s, mkIxIndexHandle g h1) (fun o t => o = None /\ exists s', t = (s', mkIxIndexHandle g h1) /\ held g R np s' B H).
Proof.
  intros Hh Hb Hl Hx HHx Hfull HR. destruct (Hb _ _ Hx) as (b & HB & Hr). unfold Ix.size_of. eapply held_fetch; [exact Hh|exact HHx|exact HB|exact HR|]. intros q s1 Hh1 Hcl _.
  eapply held_read; [exact Hh1|apply lookup_insert_eq|exact HB|by apply (nrep_size h)|]. eapply held_read; [exact Hh1|apply lookup_insert_eq|exact HB|exact (max_key_ok h1 _ _ (like_nrep _ _ _ _ Hl Hr))|].
  rewrite (like_limit h h1 x Hl), (proj2 (Z.ltb_ge _ _)) by lia. eapply held_release; [exact Hh1|apply lookup_insert_eq|by intros _|]. intros s2 Hh2. rewrite delete_insert_id in Hh2 by done. rstep. by split; [|exists s2].
Qed.

Definition full_or_none (ps : gmap Z anode) (H : pinned) (nb : Z) : Prop := nb = IX_NO_PAGE \/ exists x, ps !! nb = Some x /\ H !! nb = None /\ limit h x <= zlen (an_keys x).
Lemma try_left_none g R np s B H h1 ps i pi nd key fuel : held g R np s B H -> brep h B ps -> like h h1 -> ps !! i = Some nd -> H !! i = Some pi -> full_or_none ps H (an_prev nd) -> Z.of_nat (stdpp.base.size H) < R ->
  runs (Ix.try_left fuel key pi) (s, mkIxIndexHandle g h1) (fun o t => o = None /\ exists s', t = (s', mkIxIndexHandle g h1) /\ held g R np s' B H).
Proof.
  intros Hh Hb Hl Hnd Hpi Hn HR. destruct (Hb _ _ Hnd) as (b & HB & Hr). unfold Ix.try_left. eapply held_read; [exact Hh|exact Hpi|exact HB|by apply (nrep_prev h)|]. destruct (Z.eqb_spec (an_prev nd) IX_NO_PAGE) as [E|E]; [rstep; by split; [|exists s]|].
  destruct Hn as [?|(x & Hx & HHx & Hf)]; [done|]. by eapply peek_full.
Qed.
Lemma try_right_none g R np s B H h1 ps i pi nd key fuel : held g R np s B H -> brep h B ps -> like h h1 -> ps !! i = Some nd -> H !! i = Some pi -> full_or_none ps H (an_next nd) -> Z.of_nat (stdpp.base.size H) < R ->
  runs (Ix.try_right fuel key pi) (s, mkIxIndexHandle g h1) (fun o t => o = None /\ exists s', t = (s', mkIxIndexHandle g h1) /\ held g R np s' B H).
Proof.
  intros Hh Hb Hl Hnd Hpi Hn HR. destruct (Hb _ _ Hnd) as (b & HB & Hr). unfold Ix.try_right. eapply held_read; [exact Hh|exact Hpi|exact HB|by apply (nrep_next h)|]. destruct (Z.eqb_spec (an_next nd) IX_NO_PAGE) as [E|E]; [rstep; by split; [|exists s]|].
  destruct Hn as [?|(x & Hx & HHx & Hf)]; [done|]. by eapply peek_full.
Qed.

(** the pair is in the half that the comparison with the first key of the right one says *)
Lemma landed_half nd c m key r k0 : sorted h (an_keys nd) -> an_leaf nd = true -> an_keys nd !! m = Some key -> an_rids nd !! m = Some r -> an_keys nd !! c = Some k0 ->
  (if 0 <=? IxKey.sign (IxKey.lex (kv h key) (kv h k0)) then (key, r) ∈ zip (drop (cut nd c) (an_keys nd)) (drop (cut nd c) (an_rids nd)) else (key, r) ∈ zip (take c (an_keys nd)) (take (cut nd c) (an_rids nd))).
Proof.
  intros Hs Hlf Hk Hr H0. unfold cut. rewrite Hlf. destruct (Nat.lt_trichotomy m c) as [Hmc|[->|Hmc]].
  - pose proof (so_lt _ _ Hs m c key k0 Hmc Hk H0) as Hlt. unfold klt in Hlt. rewrite Hlt. simpl. apply list_elem_of_lookup. exists m. rewrite lookup_zip_with, !lookup_take_lt, Hk, Hr by done. done.
  - rewrite H0 in Hk. injection Hk as ->. rewrite IxKey.lex_refl. simpl. apply list_elem_of_lookup. exists 0%nat. by rewrite lookup_zip_with, !lookup_drop, Nat.add_0_r, H0, Hr.
  - pose proof (so_lt _ _ Hs c m k0 key Hmc H0 Hk) as Hlt. unfold klt in Hlt. rewrite IxKey.lex_antisym, Hlt. simpl. apply list_elem_of_lookup. exists (m - c)%nat. rewrite lookup_zip_with, !lookup_drop. replace (c + (m - c))%nat with m by lia. by rewrite Hk, Hr.
Qed.

(** the leaves are those of before, with the halves of one of them in its place *)
Lemma split_nonempty ps ps2 l1 l2 leaf new n root : leaves_kept ps ps2 leaf -> nonempty ps (l1 ++ leaf :: l2) -> level 0 ps n root = l1 ++ leaf :: l2 -> twf h ps n root ->
  (forall x, ps2 !! leaf = Some x -> an_keys x <> []) -> (forall x, ps2 !! new = Some x -> an_keys x <> []) -> nonempty ps2 (l1 ++ leaf :: new :: l2).
Proof.
  intros Hk Hne El Hw Hl Hn p x Hp Hx. destruct (decide (p = leaf)) as [->|N1]; [by apply Hl|]. destruct (decide (p = new)) as [->|N2]; [by apply Hn|]. assert (Hin : p ∈ l1 ++ leaf :: l2) by set_solver.
  assert (Hlv : p ∈ level 0 ps n root) by (by rewrite El). destruct (level_path h ps n root None None 0 p (tw_sub _ _ _ _ Hw) Hlv) as (lo & hi & Hpath). destruct (path_sub h _ _ _ _ _ _ _ _ _ Hpath (tw_sub _ _ _ _ Hw)) as (y & Hy & _ & _ & Hlf & _).
  destruct (Hk p y Hy Hlf N1) as (x' & Hx' & [= _ E _]). rewrite Hx in Hx'. injection Hx' as <-. rewrite E. by apply (Hne p).
Qed.

Lemma split_leaf_runs g R np s h1 B leaf p ps n nd lo hi m key r fuel : filled g R np s h1 B ps n leaf p nd m key r lo hi -> zlen (an_keys nd) = btree_order_ h + 1 -> (n < fuel)%nat ->
  runs (let* new_ix_hdl := Ix.split fuel p in let* insert_id := Ix.landed key p new_ix_hdl in Ix.release_node_handle new_ix_hdl true;; Ix.release_node_handle p true;; ret insert_id) (s, mkIxIndexHandle g h1)
    (settled g R ps n (root_page_ h1) key r).
Proof.
  intros [Hv0 Hp Hnd Hlf Hs Hgood Hk Hr Hfit0 Hne Hroom Hnp] Hover Hf.
  eapply runs_bind; [apply (split_all h Hg Hc fuel g R np s h1 B {[leaf := p]} ps n 0%nat leaf p nd lo hi); [|lia]|].
  { split; try done; [apply lookup_singleton_eq|unfold limit; by rewrite Hlf|intros q p' [<- _]%lookup_singleton_Some; by left|rewrite map_size_singleton; lia|lia]. }
  intros q t (new & Hnew & s2 & h2 & B2 & ps2 & n2 & np2 & -> & Hv & He & Hn & Hfit & Hkept & Hcut & Hhalf). destruct (Hhalf Hlf) as (c & xl & xr & Hkeep & Hxl & Sl & Hxr & Sr). pose proof Sl as [= L1 L2 L3]. pose proof Sr as [= R1 R2 R3].
  destruct (keep_bounds h Hg nd) as [Hkb _]. destruct (lookup_lt_is_Some_2 (an_keys nd) c) as [k0 Hk0]; [unfold limit in Hkb; rewrite Hlf in Hkb; unfold zlen in Hover; lia|]. pose proof (landed_half nd c m key r k0 Hs Hlf Hk Hr Hk0) as Hin. pose proof (Forall_lookup_1 _ _ _ _ (so_good _ _ Hs) Hk0) as Hgood0.
  pose proof Hv as [Hh Hl _ Hb _ _ _]. destruct (Hb _ _ Hxr) as (bn & HBn & Hrn). assert (Hkr : an_keys xr !! 0%nat = Some k0) by (rewrite R2, lookup_drop; unfold cut; by rewrite Hlf, Nat.add_0_r).
  assert (Hne2 : nonempty ps2 (level 0 ps2 n2 (root_page_ h2))) by (unfold leaves_cut in Hcut; rewrite Hlf in Hcut; destruct Hcut as (l1 & l2 & El & ->); rewrite El in Hne; eapply split_nonempty; [exact Hkept|exact Hne|exact El|apply Hv0|intros x..]; rewrite ?Hxl, ?Hxr; intros [= <-]; [rewrite L2|rewrite R2]; intros E%(f_equal length); rewrite ?length_take, ?length_drop in E; unfold cut, limit, zlen in *; rewrite Hlf in *; simpl in E; lia).
  assert (Hnl : new <> leaf) by (intros ->; by rewrite lookup_singleton_eq in Hnew).
  assert (Hpl : <[new := q]> {[leaf := p]} !! leaf = Some p) by (rewrite lookup_insert_ne by done; apply lookup_singleton_eq).
  unfold Ix.landed. rstep. eapply held_read; [exact Hh|apply lookup_insert_eq|exact HBn|exact (nrep_get_key h2 (like_geo _ _ Hl Hg) _ _ 0%nat k0 (like_nrep _ _ _ _ Hl Hrn) Hkr)|]. rstep.
  eapply runs_bind_eq; [apply (compare_eq h2 (like_cols _ _ Hl Hc)); [done|by eapply like_good..]|]. rewrite !(like_kv _ _ _ Hl).
  assert (Hfin : forall pn x, ps2 !! pn = Some x -> an_leaf x = true -> (key, r) ∈ zip (an_keys x) (an_rids x) -> runs (Ix.release_node_handle q true;; Ix.release_node_handle p true;; ret pn) (s2, mkIxIndexHandle g h2)
    (settled g R ps n (root_page_ h1) key r)).
  { intros pn x Hx Hxl' Hxin. eapply held_release; [exact Hh|apply lookup_insert_eq|done|]. intros s3 Hh3. rewrite delete_insert_id in Hh3 by done. eapply held_release; [exact Hh3|apply lookup_singleton_eq|done|]. intros s4 Hh4.
    rewrite delete_singleton_eq in Hh4. rstep. exists s4, h2, ps2, n2, x. split_and!; try done; [|by apply (held_rest g R np2 s4 B2)]. eapply (grove_ok h g R np2); [by destruct Hv|lia|exact Hfit|exact Hne2]. }
  destruct (0 <=? _).
  - eapply held_page_no; [exact Hh|apply lookup_insert_eq|]. apply (Hfin new xr Hxr); [by rewrite R1|by rewrite R2, R3].
  - eapply held_page_no; [exact Hh|exact Hpl|]. apply (Hfin leaf xl Hxl); [by rewrite L1|by rewrite L2, L3].
Qed.
End insertion.
End IxS.
