(* ===== verification/IxSpill.v ===== *)
(** Insertion into an index: a full leaf hands pairs to a neighbour that has room ([redistribute] and [maintain_parent] of
    [IxIndexHandle]), and otherwise it is split ([IxSplit]).

    Moving pairs between two neighbouring leaves changes the key that separates them, which is a key of their nearest common
    ancestor: the leaf on the left is the last one of a child of that node, the leaf on the right the first one of the next
    child ([last_sub], [first_sub]). *)

From S2P Require Import Prelude Bytes Errors Disk BufferPool PageStore Defs LogRecord.
From S2P Require Import RmFile RmProofs IxDefs IxNode IxNodeProofs IxTree IxTreeProofs.
From S2P Require Import RmProps IxProps IxRange IxGrow IxSplit.
Import IxN IxT IxP IxG IxS.

Module IxW.
Abbreviation leaves := (walk (see_level 0)).
Abbreviation tpages := (walk see_page).

(** ** A subtree whose first or last leaf changes *)

Section ends.
Context (h : IxFileHdr) (Hc : cols h) (ps ps' : gmap Z anode).

Lemma leaves_ne n pn lo hi : sub h ps n pn lo hi -> leaves ps n pn <> [].
Proof.
  revert pn lo hi. induction n as [|n IH]; intros pn lo hi (nd & Hnd & _ & _ & Hk); [by rewrite (level_here _ _ _ _ Hnd)|]. destruct Hk as (_ & Hlen & Hch). rewrite (walk_S _ _ _ _ _ Hnd). unfold see_level at 1. simpl.
  destruct (an_rids nd) as [|r rs]; [done|]. rewrite below_cons. intros [E _]%app_eq_nil. by eapply IH, E; apply (Hch 0%nat r).
Qed.

Lemma lex_le_trans a b c : IxKey.lex (kv h a) (kv h b) <> Gt -> IxKey.lex (kv h b) (kv h c) <> Gt -> IxKey.lex (kv h a) (kv h c) <> Gt.
Proof.
  intros H1 H2. destruct (IxKey.lex (kv h a) (kv h b)) eqn:E; [|by rewrite (IxKey.lex_lt_trans _ _ _ (kv_len h Hc a b) (kv_len h Hc b c) E H2)|done]. by rewrite (IxKey.lex_eq _ _ (kv_len h Hc a b) E).
Qed.
Lemma sorted_le ks i j a b : sorted h ks -> (i <= j)%nat -> ks !! i = Some a -> ks !! j = Some b -> IxKey.lex (kv h a) (kv h b) <> Gt.
Proof.
  intros Hs Hij Ha Hb. destruct (decide (i = j)) as [->|Hne]; [rewrite Ha in Hb; injection Hb as ->; by rewrite IxKey.lex_refl|]. pose proof (so_lt _ _ Hs i j a b ltac:(lia) Ha Hb) as E. unfold klt in E. by rewrite E.
Qed.

(** the keys of a leaf of a subtree are within the bounds of the subtree *)
Lemma leaf_inb n pn lo hi l nd pre suf k : sub h ps n pn lo hi -> walk see_pairs ps n pn = pre ++ walk see_pairs ps 0 l ++ suf -> ps !! l = Some nd -> length (an_rids nd) = length (an_keys nd) -> k ∈ an_keys nd -> inb h lo hi k.
Proof.
  intros Hs Hw Hl Hlen Hk. apply list_elem_of_lookup in Hk as [j Hj]. destruct (lookup_lt_is_Some_2 (an_rids nd) j) as [r Hr]; [apply lookup_lt_Some in Hj; lia|].
  eapply (sub_entries h Hc ps n pn lo hi k r Hs). rewrite entries_walk, Hw, !elem_of_app. right. left. simpl. rewrite Hl. simpl. rewrite app_nil_r. apply list_elem_of_lookup. exists j. by rewrite lookup_zip_with, Hj, Hr.
Qed.

Section last.
Context (l : Z) (nd : anode) (Hl : ps !! l = Some nd) (Hlen : length (an_rids nd) = length (an_keys nd)) (hi hi' : list Z).
Context (Hleaf : forall lo, (forall z, lo = Some z -> IxKey.lex (kv h z) (kv h hi) <> Gt) -> sub h ps 0 l lo (Some hi) -> sub h ps' 0 l lo (Some hi')).
Context (Hsep : forall x, klt h x hi -> (forall k, k ∈ an_keys nd -> IxKey.lex (kv h x) (kv h k) <> Gt) -> klt h x hi').

Lemma last_sub n : forall u lo, (forall z, lo = Some z -> IxKey.lex (kv h z) (kv h hi) <> Gt) -> sub h ps n u lo (Some hi) -> last (leaves ps n u) = Some l -> NoDup (tpages ps n u) -> (forall p, p ∈ tpages ps n u -> p <> l -> like_page ps ps' p) ->
  sub h ps' n u lo (Some hi') /\ forall A (f : visit A), Shaped f -> exists pre, walk f ps n u = pre ++ walk f ps 0 l /\ walk f ps' n u = pre ++ walk f ps' 0 l.
Proof.
  induction n as [|n IH]; intros u lo Hlh Hs Hla Hd Hk.
  { destruct Hs as (x & Hx & Hr). rewrite (level_here _ _ _ _ Hx) in Hla. injection Hla as ->. split; [apply Hleaf; [done|by exists x]|]. intros A f _. by exists []. }
  destruct Hs as (x & Hx & Hso & Hin & Hlf & Hlr & Hch). set (m := length (an_keys x)) in *. destruct (lookup_lt_is_Some_2 (an_rids x) m) as [r Hr]; [lia|].
  assert (Hdr : drop (S m) (an_rids x) = []) by (apply drop_ge; lia). pose proof (Hch m r Hr) as Hsr. assert (Hhi : hi_of (Some hi) (an_keys x) m = Some hi) by (unfold hi_of; by rewrite lookup_ge_None_2 by lia). rewrite Hhi in Hsr.
  rewrite (walk_S _ _ _ _ _ Hx) in Hd. rewrite (walk_S _ _ _ _ _ Hx) in Hla. unfold see_level at 1 in Hla. simpl in Hla. rewrite (below_split _ _ _ _ _ _ Hr), Hdr, app_nil_r, last_app in Hla. apply NoDup_cons in Hd as [Hu Hd].
  destruct (last (leaves ps n (rid_page_no r))) as [l'|] eqn:El; [injection Hla as ->|by apply last_None, (leaves_ne _ _ _ _ Hsr) in El].
  assert (Hlr' : l ∈ tpages ps n (rid_page_no r)) by (apply last_Some in El as [l0 El]; eapply level_pages; rewrite El; apply elem_of_app; right; left).
  pose proof Hd as Hd2. rewrite (below_split _ _ _ _ _ _ Hr) in Hd2. apply NoDup_app in Hd2 as (_ & _ & Hd2). apply NoDup_app in Hd2 as (Hd2 & _).
  assert (Hlm : forall z, lo_of lo (an_keys x) m = Some z -> IxKey.lex (kv h z) (kv h hi) <> Gt).
  { intros z Hz. clearbody m. destruct m as [|m']; [by apply Hlh|]. simpl in Hz. assert (Hzi : z ∈ an_keys x) by (by eapply list_elem_of_lookup_2). destruct (Hin z Hzi) as [_ Hzh]. by rewrite (Hzh hi eq_refl). }
  destruct (IH _ _ Hlm Hsr El Hd2) as [Hsr' Hwr]; [intros p Hp; apply Hk, (tpages_S _ _ _ _ _ Hx); right; by exists m, r|].
  destruct (like_page_eq ps ps' u x Hx) as (x' & Hx' & Hsh); [apply Hk; [apply (tpages_S _ _ _ _ _ Hx); by left|intros ->; apply Hu, below_elem; by exists m, r]|]. pose proof Hsh as [= E1 E2 E3].
  assert (Hoth : forall i q, an_rids x !! i = Some q -> i <> m -> sub h ps' n (rid_page_no q) (lo_of lo (an_keys x) i) (hi_of (Some hi) (an_keys x) i) /\ forall A (f : visit A), Shaped f -> walk f ps' n (rid_page_no q) = walk f ps n (rid_page_no q)).
  { intros i q Hq Him. apply same_tree; [by apply Hch|]. intros p Hp. apply Hk; [apply (tpages_S _ _ _ _ _ Hx); right; by exists i, q|]. intros ->. by apply (nodup_children ps n (an_rids x) m i r q l Hd Hr Hq (not_eq_sym Him)). }
  split.
  - exists x'. rewrite E1, E2, E3. split; [done|]. split; [done|]. split; [|split; [done|split; [done|]]].
    + intros k Hkx. destruct (Hin k Hkx) as [I1 I2]. split; [done|]. intros ? [= <-]. apply Hsep; [by apply I2|]. intros k0 Hk0. destruct (Hwr _ see_pairs _) as (pre & Ew & _).
      pose proof (leaf_inb n _ _ _ l nd pre [] k0 Hsr ltac:(by rewrite app_nil_r) Hl Hlen Hk0) as [I3 _]. apply list_elem_of_lookup in Hkx as [j Hj]. pose proof (lookup_lt_Some _ _ _ Hj). destruct (lookup_lt_is_Some_2 (an_keys x) (m - 1)) as [z Hz]; [lia|].
      eapply lex_le_trans; [eapply (sorted_le _ j (m - 1)%nat); try done; lia|]. apply I3. replace m with (S (m - 1)) by lia. exact Hz.
    + intros i q Hq. destruct (decide (i = m)) as [->|Him]; [rewrite Hr in Hq; injection Hq as <-; unfold hi_of; by rewrite lookup_ge_None_2 by lia|]. destruct (Hoth i q Hq Him) as [Hsq _]. unfold hi_of in *.
      destruct (lookup_lt_is_Some_2 (an_keys x) i) as [z Hz]; [apply lookup_lt_Some in Hq; lia|]. by rewrite Hz in *.
  - intros A f Hf. destruct (Hwr A f Hf) as (pre & W1 & W2). exists (f (S n) u x ++ below f ps n (take m (an_rids x)) ++ pre).
    rewrite (walk_S _ _ _ _ _ Hx), (walk_S _ _ _ _ _ Hx'), E3, (Hf _ _ _ _ Hsh), !(below_split _ _ _ _ _ _ Hr), Hdr, W1, W2.
    assert (Ht : below f ps' n (take m (an_rids x)) = below f ps n (take m (an_rids x))) by (unfold below; f_equal; apply list_fmap_ext; intros j q [Hq Hj]%lookup_take_Some; apply (Hoth j q Hq); [lia|done]).
    rewrite Ht. unfold below. simpl. by rewrite !app_nil_r, <- !app_assoc.
Qed.
End last.

Section first.
Context (l : Z) (nd : anode) (Hl : ps !! l = Some nd) (Hlen : length (an_rids nd) = length (an_keys nd)) (lo lo' : list Z).
Context (Hleaf : forall hi, (forall z, hi = Some z -> IxKey.lex (kv h lo) (kv h z) <> Gt) -> sub h ps 0 l (Some lo) hi -> sub h ps' 0 l (Some lo') hi).
Context (Hsep : forall x, IxKey.lex (kv h lo) (kv h x) <> Gt -> (forall k, k ∈ an_keys nd -> klt h k x) -> IxKey.lex (kv h lo') (kv h x) <> Gt).

Lemma first_sub n : forall v hi, (forall z, hi = Some z -> IxKey.lex (kv h lo) (kv h z) <> Gt) -> sub h ps n v (Some lo) hi -> head (leaves ps n v) = Some l -> NoDup (tpages ps n v) -> (forall p, p ∈ tpages ps n v -> p <> l -> like_page ps ps' p) ->
  sub h ps' n v (Some lo') hi /\ (exists suf, walk see_pairs ps n v = walk see_pairs ps 0 l ++ suf /\ walk see_pairs ps' n v = walk see_pairs ps' 0 l ++ suf).
Proof.
  induction n as [|n IH]; intros v hi Hlh Hs Hla Hd Hk.
  { destruct Hs as (x & Hx & Hr). rewrite (level_here _ _ _ _ Hx) in Hla. injection Hla as ->. split; [apply Hleaf; [done|by exists x]|]. exists []. by rewrite !app_nil_r. }
  destruct Hs as (x & Hx & Hso & Hin & Hlf & Hlr & Hch). destruct (lookup_lt_is_Some_2 (an_rids x) 0) as [r Hr]; [lia|]. assert (Hrs : an_rids x = r :: drop 1 (an_rids x)) by (symmetry; exact (take_drop_middle _ 0 r Hr)).
  pose proof (Hch 0%nat r Hr) as Hsr. simpl lo_of in Hsr. rewrite (walk_S _ _ _ _ _ Hx) in Hd. rewrite (walk_S _ _ _ _ _ Hx) in Hla. unfold see_level at 1 in Hla. simpl in Hla. rewrite Hrs, below_cons in Hla. apply NoDup_cons in Hd as [Hu Hd].
  assert (El : head (leaves ps n (rid_page_no r)) = Some l) by (pose proof (leaves_ne _ _ _ _ Hsr); destruct (leaves ps n (rid_page_no r)); done).
  assert (Hlr' : l ∈ tpages ps n (rid_page_no r)) by (destruct (leaves ps n (rid_page_no r)) as [|l0 ls] eqn:Els; [done|]; injection El as ->; eapply level_pages; rewrite Els; left).
  pose proof Hd as Hd2. rewrite (below_split _ _ _ _ _ _ Hr) in Hd2. apply NoDup_app in Hd2 as (_ & _ & Hd2). apply NoDup_app in Hd2 as (Hd2 & _).
  assert (Hhm : forall z, hi_of hi (an_keys x) 0 = Some z -> IxKey.lex (kv h lo) (kv h z) <> Gt).
  { intros z. unfold hi_of. destruct (an_keys x !! 0%nat) as [k|] eqn:Ek; [|apply Hlh]. intros [= <-]. apply (Hin k); [by eapply list_elem_of_lookup_2|done]. }
  destruct (IH _ _ Hhm Hsr El Hd2) as (Hsr' & suf & W1 & W2); [intros p Hp; apply Hk, (tpages_S _ _ _ _ _ Hx); right; by exists 0%nat, r|].
  destruct (like_page_eq ps ps' v x Hx) as (x' & Hx' & Hsh); [apply Hk; [apply (tpages_S _ _ _ _ _ Hx); by left|intros ->; apply Hu, below_elem; by exists 0%nat, r]|]. pose proof Hsh as [= E1 E2 E3].
  assert (Hoth : forall i q, an_rids x !! i = Some q -> i <> 0%nat -> sub h ps' n (rid_page_no q) (lo_of (Some lo) (an_keys x) i) (hi_of hi (an_keys x) i) /\ forall A (f : visit A), Shaped f -> walk f ps' n (rid_page_no q) = walk f ps n (rid_page_no q)).
  { intros i q Hq Him. apply same_tree; [by apply Hch|]. intros p Hp. apply Hk; [apply (tpages_S _ _ _ _ _ Hx); right; by exists i, q|]. intros ->. by apply (nodup_children ps n (an_rids x) 0 i r q l Hd Hr Hq (not_eq_sym Him)). }
  split.
  - exists x'. rewrite E1, E2, E3. split; [done|]. split; [done|]. split; [|split; [done|split; [done|]]].
    + intros k Hkx. destruct (Hin k Hkx) as [I1 I2]. split; [|done]. intros ? [= <-]. apply Hsep; [by apply I1|]. intros k0 Hk0. pose proof (leaf_inb n _ _ _ l nd [] suf k0 Hsr W1 Hl Hlen Hk0) as [_ I3].
      apply list_elem_of_lookup in Hkx as [j Hj]. destruct (lookup_lt_is_Some_2 (an_keys x) 0) as [z Hz]; [apply lookup_lt_Some in Hj; lia|].
      eapply IxKey.lex_lt_trans; [by apply kv_len|by apply kv_len|apply I3; unfold hi_of; by rewrite Hz|]. eapply (sorted_le _ 0 j); try done. lia.
    + intros i q Hq. destruct (decide (i = 0%nat)) as [->|Him]; [rewrite Hr in Hq; by injection Hq as <-|]. destruct (Hoth i q Hq Him) as [Hsq _]. by destruct i.
  - exists (suf ++ below see_pairs ps n (drop 1 (an_rids x))). rewrite (walk_S _ _ _ _ _ Hx), (walk_S _ _ _ _ _ Hx'), E3, !(below_split _ _ _ _ _ _ Hr), W1, W2.
    assert (Ht : below see_pairs ps' n (drop 1 (an_rids x)) = below see_pairs ps n (drop 1 (an_rids x))) by (unfold below; f_equal; apply list_fmap_ext; intros j q Hq; rewrite lookup_drop in Hq; apply (Hoth (1 + j)%nat q Hq); [lia|apply _]).
    rewrite Ht. unfold below at 1 3. simpl. by rewrite <- !app_assoc.
Qed.
End first.
End ends.

(** ** The key between two neighbouring leaves *)

Section sep.
Context (h : IxFileHdr) (Hc : cols h) (ps ps' : gmap Z anode) (j : nat) (y : Z) (lo hi : option (list Z)) (ndy : anode).
Context (Hsy : sub h ps (S j) y lo hi) (Hdy : NoDup (tpages ps (S j) y)) (Hndy : ps !! y = Some ndy).
Context (m : nat) (ru rv : Rid) (Hu : an_rids ndy !! m = Some ru) (Hv : an_rids ndy !! S m = Some rv) (sep : list Z) (Hsep : an_keys ndy !! m = Some sep).
Context (l r : Z) (ndl ndr : anode) (Hl : ps !! l = Some ndl) (Hr : ps !! r = Some ndr) (Hla : last (leaves ps j (rid_page_no ru)) = Some l) (Hfi : head (leaves ps j (rid_page_no rv)) = Some r).
Context (Hll : an_leaf ndl = true) (Hlr : an_leaf ndr = true) (Hnl : length (an_rids ndl) = length (an_keys ndl)) (Hnr : length (an_rids ndr) = length (an_keys ndr)).
Context (kl kr : list (list Z)) (rl rr : list Rid) (nk : list Z) (Hcat : kl ++ kr = an_keys ndl ++ an_keys ndr) (Hrcat : rl ++ rr = an_rids ndl ++ an_rids ndr).
Context (Hlen : length rl = length kl) (Hkl : kl <> []) (Hnk : kr !! 0%nat = Some nk).
Context (Hl' : ps' !! l = Some (set_pairs kl rl ndl)) (Hr' : ps' !! r = Some (set_pairs kr rr ndr)) (Hy' : ps' !! y = Some (set_pairs (<[m := nk]> (an_keys ndy)) (an_rids ndy) ndy)).
Context (Hlike : forall p, p ∈ tpages ps (S j) y -> p <> l -> p <> r -> p <> y -> like_page ps ps' p).
Abbreviation u := (rid_page_no ru).
Abbreviation v := (rid_page_no rv).

Lemma sep_facts : sorted h (an_keys ndy) /\ (forall x, x ∈ an_keys ndy -> inb h lo hi x) /\ an_leaf ndy = false /\ length (an_rids ndy) = S (length (an_keys ndy)) /\
  (forall i q, an_rids ndy !! i = Some q -> sub h ps j (rid_page_no q) (lo_of lo (an_keys ndy) i) (hi_of hi (an_keys ndy) i)).
Proof. destruct Hsy as (x & Hx & H). rewrite Hndy in Hx. by injection Hx as <-. Qed.
Lemma sep_children : NoDup (below see_page ps j (an_rids ndy)) /\ y ∉ below see_page ps j (an_rids ndy).
Proof. pose proof Hdy as Hd. rewrite (walk_S _ _ _ _ _ Hndy) in Hd. by apply NoDup_cons in Hd as [? ?]. Qed.
Lemma sep_u : sub h ps j u (lo_of lo (an_keys ndy) m) (Some sep).
Proof. destruct sep_facts as (_ & _ & _ & _ & Hch). pose proof (Hch m ru Hu) as H. unfold hi_of in H. by rewrite Hsep in H. Qed.
Lemma sep_v : sub h ps j v (Some sep) (hi_of hi (an_keys ndy) (S m)).
Proof. destruct sep_facts as (_ & _ & _ & _ & Hch). pose proof (Hch (S m) rv Hv) as H. simpl in H. by rewrite Hsep in H. Qed.

Lemma sep_pages : l ∈ tpages ps j u /\ r ∈ tpages ps j v.
Proof.
  split; [apply last_Some in Hla as [l0 E]; eapply level_pages; rewrite E; apply elem_of_app; right; left|]. pose proof Hfi as Hf. destruct (leaves ps j v) as [|r0 rs] eqn:E; [done|]. injection Hf as Er. eapply level_pages. rewrite E, Er. left.
Qed.

(** the leaves themselves *)
Lemma sep_left : sorted h (an_keys ndl) /\ forall k, k ∈ an_keys ndl -> inb h (lo_of lo (an_keys ndy) m) (Some sep) k.
Proof.
  pose proof sep_u as Hs. destruct (level_path h ps j u (lo_of lo (an_keys ndy) m) (Some sep) 0 l Hs) as (lo' & hi' & Hp); [apply last_Some in Hla as [l0 ->]; apply elem_of_app; right; left|].
  destruct (path_sub h _ _ _ _ _ _ _ _ _ Hp Hs) as (x & Hx & Hso & _). rewrite Hl in Hx. injection Hx as <-. split; [done|]. intros k Hk. destruct (path_walk ps _ _ _ _ _ _ _ _ see_pairs Hp) as (pre & suf & E). by eapply leaf_inb.
Qed.
Lemma sep_right : sorted h (an_keys ndr) /\ forall k, k ∈ an_keys ndr -> inb h (Some sep) (hi_of hi (an_keys ndy) (S m)) k.
Proof.
  pose proof sep_v as Hs. destruct (level_path h ps j v (Some sep) (hi_of hi (an_keys ndy) (S m)) 0 r Hs) as (lo' & hi' & Hp); [destruct (leaves ps j v); [done|injection Hfi as ->; left]|].
  destruct (path_sub h _ _ _ _ _ _ _ _ _ Hp Hs) as (x & Hx & Hso & _). rewrite Hr in Hx. injection Hx as <-. split; [done|]. intros k Hk. destruct (path_walk ps _ _ _ _ _ _ _ _ see_pairs Hp) as (pre & suf & E). by eapply leaf_inb.
Qed.

Lemma sep_sorted : sorted h (kl ++ kr).
Proof.
  rewrite Hcat. destruct sep_left as [[G1 L1] B1]. destruct sep_right as [[G2 L2] B2]. split; [by apply Forall_app|]. intros a b x z Hab Hx Hz. apply lookup_app_Some in Hx as [Hx|[Hx1 Hx]]; apply lookup_app_Some in Hz as [Hz|[Hz1 Hz]].
  - by apply (L1 a b).
  - destruct (B1 x ltac:(by eapply list_elem_of_lookup_2)) as [_ Hxs]. destruct (B2 z ltac:(by eapply list_elem_of_lookup_2)) as [Hzs _]. eapply IxKey.lex_lt_trans; [by apply kv_len|by apply kv_len|by apply Hxs|by apply Hzs].
  - apply lookup_lt_Some in Hz. lia.
  - by apply (L2 _ _ x z) with (1 := ltac:(lia) : (a - length (an_keys ndl) < b - length (an_keys ndl))%nat).
Qed.
Lemma sep_in k : k ∈ kl \/ k ∈ kr -> k ∈ an_keys ndl \/ k ∈ an_keys ndr.
Proof. rewrite <- !elem_of_app, Hcat. done. Qed.
Lemma sep_nk : nk ∈ an_keys ndl \/ nk ∈ an_keys ndr.
Proof. apply sep_in. right. by eapply list_elem_of_lookup_2. Qed.
Lemma sep_lt k : k ∈ kl -> klt h k nk.
Proof.
  intros Hk. apply list_elem_of_lookup in Hk as [a Ha]. pose proof (lookup_lt_Some _ _ _ Ha). apply (so_lt _ _ sep_sorted a (length kl)); [done|by apply lookup_app_l_Some|]. by rewrite lookup_app_r, Nat.sub_diag by lia.
Qed.
Lemma sep_left_key x : klt h x sep -> (forall k, k ∈ an_keys ndl -> IxKey.lex (kv h x) (kv h k) <> Gt) -> klt h x nk.
Proof.
  intros Hxs Hxk. destruct sep_nk as [Hn|Hn].
  - destruct (lookup_lt_is_Some_2 kl 0) as [k0 Hk0]; [pose proof Hkl as Hne; clear - Hne; destruct kl; [done|simpl; lia]|].
    assert (Hkn : an_keys ndl !! 0%nat = Some k0). { pose proof (lookup_app_l_Some _ kr _ _ Hk0) as E. rewrite Hcat in E. destruct (an_keys ndl); [by apply not_elem_of_nil in Hn|done]. }
    eapply IxKey.lex_le_lt_trans; [by apply kv_len|by apply kv_len|apply (Hxk k0); by eapply list_elem_of_lookup_2|]. apply sep_lt. by eapply list_elem_of_lookup_2.
  - destruct sep_right as [_ B]. destruct (B nk Hn) as [Hs _]. eapply IxKey.lex_lt_trans; [by apply kv_len|by apply kv_len|exact Hxs|by apply Hs].
Qed.
Lemma sep_right_key x : IxKey.lex (kv h sep) (kv h x) <> Gt -> (forall k, k ∈ an_keys ndr -> klt h k x) -> klt h nk x.
Proof.
  intros Hsx Hkx. destruct sep_nk as [Hn|Hn]; [|by apply Hkx]. destruct sep_left as [_ B]. destruct (B nk Hn) as [_ Hs]. eapply IxKey.lex_lt_trans; [by apply kv_len|by apply kv_len|by apply Hs|done].
Qed.

Lemma sep_ne : l <> y /\ r <> y /\ l ∉ tpages ps j v /\ r ∉ tpages ps j u.
Proof.
  destruct sep_pages as [Hlp Hrp]. destruct sep_children as [Hd Hy]. split_and!.
  - intros E. apply Hy. rewrite <- E. apply below_elem. by exists m, ru.
  - intros E. apply Hy. rewrite <- E. apply below_elem. by exists (S m), rv.
  - by apply (nodup_children ps j (an_rids ndy) m (S m) ru rv l Hd Hu Hv (n_Sn m)).
  - by apply (nodup_children ps j (an_rids ndy) (S m) m rv ru r Hd Hv Hu (not_eq_sym (n_Sn m))).
Qed.
Lemma sep_page i q p : an_rids ndy !! i = Some q -> p ∈ tpages ps j (rid_page_no q) -> p ∈ tpages ps (S j) y /\ p <> y.
Proof.
  intros Hq Hp. destruct sep_children as [_ Hy]. assert (Hb : p ∈ below see_page ps j (an_rids ndy)) by (apply below_elem; by exists i, q). split; [rewrite (walk_S _ _ _ _ _ Hndy); by right|]. by intros ->.
Qed.
Lemma sep_nodup i q : an_rids ndy !! i = Some q -> NoDup (tpages ps j (rid_page_no q)).
Proof. intros Hq. destruct sep_children as [Hd _]. rewrite (below_split _ _ _ _ _ _ Hq) in Hd. apply NoDup_app in Hd as (_ & _ & Hd). by apply NoDup_app in Hd as [? _]. Qed.

Lemma sep_kid_u : sub h ps' j u (lo_of lo (an_keys ndy) m) (Some nk) /\ exists pre, walk see_pairs ps j u = pre ++ zip (an_keys ndl) (an_rids ndl) /\ walk see_pairs ps' j u = pre ++ zip kl rl.
Proof.
  destruct sep_facts as (Hso & Hin & _). destruct sep_ne as (N1 & N2 & N3 & N4). destruct (last_sub h Hc ps ps' l ndl Hl Hnl sep nk) with (n := j) (u := u) (lo := lo_of lo (an_keys ndy) m) as [Hs Hw].
  - intros lo' Hlo (x & Hx & _ & Hb & _). rewrite Hl in Hx. injection Hx as <-. pose proof sep_sorted as Hss. exists (set_pairs kl rl ndl). split; [done|]. split; [simpl; replace kl with (take (length kl) (kl ++ kr)) by apply take_app_length; by apply sorted_take|].
    split; [|done]. intros k Hk. split; [|intros ? [= <-]; by apply sep_lt]. intros z ->. simpl in Hk. destruct (sep_in k (or_introl Hk)) as [Hk'|Hk']; [by apply (Hb k Hk')|]. destruct sep_right as [_ Br]. eapply lex_le_trans; [done|by apply Hlo|by apply (Br k Hk')].
  - apply sep_left_key.
  - intros z Hz. destruct m as [|m'] eqn:Em; [simpl in Hz; apply (Hin sep); [by eapply list_elem_of_lookup_2|done]|]. simpl in Hz. eapply (sorted_le h _ m' (S m')); try done. lia.
  - apply sep_u.
  - done.
  - by apply (sep_nodup m).
  - intros p Hp Hpl. destruct (sep_page m ru p Hu Hp) as [Hpp Hpy]. apply Hlike; try done. by intros ->.
  - split; [done|]. destruct (Hw _ see_pairs _) as (pre & E1 & E2). exists pre. rewrite E1, E2. simpl. rewrite Hl, Hl'. simpl. by rewrite !app_nil_r.
Qed.
Lemma sep_kid_v : sub h ps' j v (Some nk) (hi_of hi (an_keys ndy) (S m)) /\ exists suf, walk see_pairs ps j v = zip (an_keys ndr) (an_rids ndr) ++ suf /\ walk see_pairs ps' j v = zip kr rr ++ suf.
Proof.
  destruct sep_facts as (Hso & Hin & _). destruct sep_ne as (N1 & N2 & N3 & N4). destruct (first_sub h Hc ps ps' r ndr Hr Hnr sep nk) with (n := j) (v := v) (hi := hi_of hi (an_keys ndy) (S m)) as [Hs (suf & E1 & E2)].
  - intros hi' Hhi (x & Hx & _ & Hb & _). rewrite Hr in Hx. injection Hx as <-. pose proof sep_sorted as Hss. assert (Hkr : kr = drop (length kl) (kl ++ kr)) by (by rewrite drop_app_length). assert (Hsk : sorted h kr) by (rewrite Hkr; by apply sorted_drop).
    assert (Hlrr : length rr = length kr) by (pose proof (f_equal length Hcat) as E; pose proof (f_equal length Hrcat) as E'; rewrite !length_app in E, E'; lia).
    exists (set_pairs kr rr ndr). split; [done|]. split; [done|]. split; [|done]. intros k Hk. simpl in Hk. split.
    + intros ? [= <-]. apply list_elem_of_lookup in Hk as [a Ha]. eapply (sorted_le h kr 0 a); try done. lia.
    + intros z ->. destruct (sep_in k (or_intror Hk)) as [Hk'|Hk']; [|by apply (Hb k Hk')]. destruct sep_left as [_ Bl]. eapply IxKey.lex_lt_trans; [by apply kv_len|by apply kv_len|by apply (Bl k Hk')|by apply Hhi].
  - intros x Hx1 Hx2. pose proof (sep_right_key x Hx1 Hx2) as E. unfold klt in E. by rewrite E.
  - intros z. unfold hi_of. destruct (an_keys ndy !! S m) as [k|] eqn:Ek; [|intros ->; by rewrite (proj2 (Hin sep ltac:(by eapply list_elem_of_lookup_2)) z eq_refl)]. intros [= <-]. eapply (sorted_le h _ m (S m)); try done. lia.
  - apply sep_v.
  - done.
  - by apply (sep_nodup (S m)).
  - intros p Hp Hpl. destruct (sep_page (S m) rv p Hv Hp) as [Hpp Hpy]. apply Hlike; try done. by intros ->.
  - split; [done|]. exists suf. rewrite E1, E2. simpl. rewrite Hr, Hr'. simpl. by rewrite !app_nil_r.
Qed.

Lemma sep_other i q : an_rids ndy !! i = Some q -> i <> m -> i <> S m -> sub h ps' j (rid_page_no q) (lo_of lo (an_keys ndy) i) (hi_of hi (an_keys ndy) i) /\ walk see_pairs ps' j (rid_page_no q) = walk see_pairs ps j (rid_page_no q).
Proof.
  intros Hq H1 H2. destruct sep_facts as (_ & _ & _ & _ & Hch). destruct sep_pages as [Hlp Hrp]. destruct sep_children as [Hd _]. destruct (same_tree h ps ps' j (rid_page_no q) _ _ (Hch i q Hq)) as [Hs Hw]; [|split; [done|by apply Hw, _]].
  intros p Hp. destruct (sep_page i q p Hq Hp) as [Hpp Hpy]. apply Hlike; try done; intros ->; [by apply (nodup_children ps j (an_rids ndy) m i ru q l Hd Hu Hq (not_eq_sym H1))|by apply (nodup_children ps j (an_rids ndy) (S m) i rv q r Hd Hv Hq (not_eq_sym H2))].
Qed.

Lemma sep_keys : sorted h (<[m := nk]> (an_keys ndy)) /\ forall x, x ∈ <[m := nk]> (an_keys ndy) -> inb h lo hi x.
Proof.
  destruct sep_facts as (Hso & Hin & _ & Hlr' & _). destruct sep_left as [[Gl _] Bl]. destruct sep_right as [[Gr _] Br]. pose proof (lookup_lt_Some _ _ _ Hsep) as Hm.
  assert (Hbef : forall i x, (i < m)%nat -> an_keys ndy !! i = Some x -> klt h x nk).
  { intros i x Hi Hx. apply sep_left_key; [by apply (so_lt _ _ Hso i m)|]. intros k Hk. destruct (Bl k Hk) as [Hk1 _]. destruct (lookup_lt_is_Some_2 (an_keys ndy) (m - 1)) as [z Hz]; [lia|]. eapply lex_le_trans; [done|eapply (sorted_le h _ i (m - 1)); try done; lia|]. apply Hk1.
    replace m with (S (m - 1)) by lia. exact Hz. }
  assert (Haft : forall i x, (m < i)%nat -> an_keys ndy !! i = Some x -> klt h nk x).
  { intros i x Hi Hx. apply sep_right_key; [eapply (sorted_le h _ m i); try done; lia|]. intros k Hk. destruct (Br k Hk) as [_ Hk1]. destruct (lookup_lt_is_Some_2 (an_keys ndy) (S m)) as [z Hz]; [apply lookup_lt_Some in Hx; lia|].
    eapply IxKey.lex_lt_trans; [by apply kv_len|by apply kv_len|apply Hk1; unfold hi_of; by rewrite Hz|]. by eapply (sorted_le h _ (S m) i). }
  assert (Hnin : inb h lo hi nk).
  { destruct sep_nk as [Hn|Hn]; [destruct (Bl nk Hn) as [B1 B2]|destruct (Br nk Hn) as [B1 B2]]; destruct (Hin sep ltac:(by eapply list_elem_of_lookup_2)) as [I1 I2]; split; intros z Hz.
    - destruct (decide (m = 0%nat)) as [Hm0|Hm0]; [apply B1; rewrite Hm0; exact Hz|]. destruct (lookup_lt_is_Some_2 (an_keys ndy) 0) as [z0 Hz0]; [lia|]. destruct (Hin z0 ltac:(by eapply list_elem_of_lookup_2)) as [I3 _].
      eapply lex_le_trans; [done|by apply I3|]. pose proof (Hbef 0%nat z0 ltac:(lia) Hz0) as E. unfold klt in E. by rewrite E.
    - eapply IxKey.lex_lt_trans; [by apply kv_len|by apply kv_len|by apply B2|]. by rewrite (I2 z Hz).
    - eapply lex_le_trans; [done|by apply I1|by apply B1].
    - unfold hi_of in B2. destruct (an_keys ndy !! S m) as [z0|] eqn:Ez; [|by apply B2]. destruct (Hin z0 ltac:(by eapply list_elem_of_lookup_2)) as [_ I3]. eapply IxKey.lex_lt_trans; [by apply kv_len|by apply kv_len|by apply B2|]. by rewrite (I3 z Hz). }
  split; [split|].
  - apply Forall_insert; [apply Hso|]. rewrite Forall_forall in Gl, Gr. destruct sep_nk as [Hn|Hn]; auto.
  - intros a b x z Hab Hx Hz. destruct (decide (a = m)) as [->|Ha]; destruct (decide (b = m)) as [->|Hb]; try lia.
    + rewrite list_lookup_insert_eq in Hx by done. injection Hx as <-. rewrite list_lookup_insert_ne in Hz by done. by apply (Haft b).
    + rewrite list_lookup_insert_eq in Hz by done. injection Hz as <-. rewrite list_lookup_insert_ne in Hx by done. by apply (Hbef a).
    + rewrite list_lookup_insert_ne in Hx, Hz by done. by apply (so_lt _ _ Hso a b).
  - intros x Hx. apply list_elem_of_lookup in Hx as [a Ha]. destruct (decide (a = m)) as [->|Hne]; [rewrite list_lookup_insert_eq in Ha by done; by injection Ha as <-|]. rewrite list_lookup_insert_ne in Ha by done. apply Hin. by eapply list_elem_of_lookup_2.
Qed.

Lemma sep_sub : sub h ps' (S j) y lo hi /\ walk see_pairs ps' (S j) y = walk see_pairs ps (S j) y.
Proof.
  destruct sep_facts as (Hso & Hin & Hlf & Hlr' & _). destruct sep_keys as [Hs' Hin']. destruct sep_kid_u as [Su (pre & U1 & U2)]. destruct sep_kid_v as [Sv (suf & V1 & V2)]. pose proof (lookup_lt_Some _ _ _ Hsep) as Hm. split.
  - exists (set_pairs (<[m := nk]> (an_keys ndy)) (an_rids ndy) ndy). split; [done|]. split; [done|]. split; [done|]. simpl. rewrite length_insert. split; [done|]. split; [done|]. intros i q Hq.
    destruct (decide (i = m)) as [->|H1]; [|destruct (decide (i = S m)) as [->|H2]].
    + rewrite Hu in Hq. injection Hq as <-. unfold hi_of. rewrite list_lookup_insert_eq by done. replace (lo_of lo (<[m := nk]> (an_keys ndy)) m) with (lo_of lo (an_keys ndy) m); [done|]. unfold lo_of. destruct m as [|m']; [done|]. by rewrite list_lookup_insert_ne by lia.
    + rewrite Hv in Hq. injection Hq as <-. simpl. rewrite list_lookup_insert_eq by done. unfold hi_of. by rewrite list_lookup_insert_ne by lia.
    + destruct (sep_other i q Hq H1 H2) as [Hs _]. unfold hi_of in *. rewrite list_lookup_insert_ne by done. replace (lo_of lo (<[m := nk]> (an_keys ndy)) i) with (lo_of lo (an_keys ndy) i); [done|]. unfold lo_of. destruct i as [|i']; [done|]. by rewrite list_lookup_insert_ne by lia.
  - rewrite (walk_S _ _ _ _ _ Hndy), (walk_S _ _ _ _ _ Hy'). simpl. assert (Hv2 : drop (S m) (an_rids ndy) !! 0%nat = Some rv) by (by rewrite lookup_drop, Nat.add_0_r).
    rewrite !(below_split _ _ _ _ _ _ Hu), !(below_split _ _ _ _ _ _ Hv2), U1, U2, V1, V2, drop_drop. simpl take. unfold below at 2 5. simpl.
    assert (Hrest : forall rs a, (forall i q, rs !! i = Some q -> an_rids ndy !! (a + i)%nat = Some q /\ (a + i)%nat <> m /\ (a + i)%nat <> S m) -> below see_pairs ps' j rs = below see_pairs ps j rs).
    { intros rs a Hrs. unfold below. f_equal. apply list_fmap_ext. intros i q Hq. destruct (Hrs i q Hq) as (H1 & H2 & H3). by apply (sep_other _ q H1 H2 H3). }
    rewrite (Hrest (take m _) 0%nat), (Hrest (drop _ _) (S m + 1)%nat).
    + rewrite <- !app_assoc. do 2 f_equal. rewrite !app_assoc. f_equal. rewrite <- !zip_with_app by lia. by rewrite Hcat, Hrcat.
    + intros i q Hq. rewrite lookup_drop in Hq. split; [done|lia].
    + intros i q [Hq Hi]%lookup_take_Some. split; [done|lia].
Qed.
End sep.

(** ** Neighbours *)

Section neighbours.
Context (h : IxFileHdr) (ps : gmap Z anode) (n : nat) (root : Z) (Hw : twf h ps n root) (l r : Z) (ndr : anode) (Hr : ps !! r = Some ndr) (Hprev : an_prev ndr = l) (Hl : l <> IX_NO_PAGE).

Lemma not_first : head (leaves ps n root) <> Some r.
Proof.
  intros Hh. pose proof (tw_levels _ _ _ _ Hw 0) as Hch. destruct (leaves ps n root) as [|p ls] eqn:E; [done|]. injection Hh as ->. destruct Hch as [(x & Hx & Hp & _) _]. congruence.
Qed.
Lemma before_first j y ndy m ru rv lo hi : path ps n root None None (S j) y lo hi -> ps !! y = Some ndy -> an_rids ndy !! m = Some ru -> an_rids ndy !! S m = Some rv -> head (leaves ps j (rid_page_no rv)) = Some r -> last (leaves ps j (rid_page_no ru)) = Some l.
Proof.
  intros Hp Hy Hu Hv Hh. destruct (path_sub h _ _ _ _ _ _ _ _ _ Hp (tw_sub _ _ _ _ Hw)) as (x & Hx & _ & _ & _ & _ & Hch). rewrite Hy in Hx. injection Hx as <-. pose proof (leaves_ne h ps j _ _ _ (Hch m ru Hu)) as Hne.
  destruct (path_walk ps _ _ _ _ _ _ _ _ (see_level 0) Hp) as (pre & suf & E). rewrite (walk_S _ _ _ _ _ Hy) in E. unfold see_level at 2 in E. simpl in E. assert (Hv2 : drop (S m) (an_rids ndy) !! 0%nat = Some rv) by (by rewrite lookup_drop, Nat.add_0_r).
  rewrite (below_split _ _ _ _ _ _ Hu), (below_split _ _ _ _ _ _ Hv2) in E. destruct (leaves ps j (rid_page_no rv)) as [|r0 rest]; [done|]. injection Hh as ->. pose proof (tw_levels _ _ _ _ Hw 0) as Hch0. rewrite E in Hch0. unfold below at 2 in Hch0. simpl in Hch0.
  rewrite <- !app_assoc in Hch0. simpl in Hch0. rewrite !(app_assoc _ _ (r :: _)) in Hch0. pose proof (chain_prev _ _ _ _ _ _ Hr Hch0) as Ep. rewrite Hprev, !last_app in Ep. apply last_is_Some in Hne as [q Eq]. rewrite Eq in Ep |- *. simpl in Ep. by rewrite Ep.
Qed.
End neighbours.

(** ** Pairs at the ends of a leaf *)

Section pairs.
Context (h : IxFileHdr) (Hg : geo h).
Local Open Scope prog_scope.
Import IxNode.

Lemma load_rid_ok nd b i r : nrep h nd b -> an_rids nd !! i = Some r -> exists raw, load_rid h (Z.of_nat i) b = (Ok raw, b) /\ zlen raw = Log.sizeof_Rid /\ Log.dec_Rid raw = r.
Proof.
  intros Hr Hi. pose proof (lookup_lt_Some _ _ _ Hi) as Hlt. pose proof (nr_cap _ _ _ Hr) as Hcap. pose proof (nr_page _ _ _ Hr) as Hp. assert (Hs : slot h (Z.of_nat i)) by (unfold slot, zlen in *; lia). pose proof (rid_range h Hg _ Hs) as Hrr. pose proof (keys_size_pos h Hg) as Hks.
  exists (R h b (Z.of_nat i)). unfold Log.sizeof_Rid, sizeof_IxPageHdr, page in *. split; [apply load_ok; unfold Log.sizeof_Rid, page; try lia; done|]. split; [apply zlen_slice; unfold Log.sizeof_Rid; lia|by apply (nr_rids _ _ _ Hr)].
Qed.

Lemma push_back_ok nd b k raw r : nrep h nd b -> an_leaf nd = true -> zlen (an_keys nd) <= btree_order_ h -> zlen k = col_tot_len_ h -> zlen raw = Log.sizeof_Rid -> Log.dec_Rid raw = r ->
  exists b1 b2 b3, set_key h (zlen (an_keys nd)) k b = (Ok tt, b1) /\ store_rid h (zlen (an_keys nd)) raw b1 = (Ok tt, b2) /\ set_size (zlen (an_keys nd) + 1) b2 = (Ok tt, b3) /\ page b1 /\ page b2 /\
    nrep h (set_pairs (an_keys nd ++ [k]) (an_rids nd ++ [r]) nd) b3.
Proof.
  intros Hr Hlf Hcap Hk Hraw Hdec. pose proof (nr_len _ _ _ Hr) as Hlen. rewrite Hlf in Hlen. set (n := zlen (an_keys nd)) in *. assert (Hs : slot h n) by (pose proof (zlen_nonneg (an_keys nd)); unfold slot; lia).
  destruct (set_key_ok h Hg b n k (nr_page _ _ _ Hr) Hs Hk) as (b1 & E1 & K1 & A1). destruct (store_rid_ok h Hg b1 n raw (ag_page _ _ _ _ _ A1) Hs Hraw) as (b2 & E2 & R2 & A2). pose proof (agree_trans _ _ _ _ _ _ _ _ A1 A2) as A.
  assert (Hz : zlen (an_keys nd ++ [k]) = n + 1) by (unfold n, zlen; rewrite length_app; simpl; lia).
  destruct (nrep_resize h Hg _ _ nd b b2 (an_keys nd ++ [k]) (an_rids nd ++ [r]) Hr A) as (b3 & E3 & Hr3).
  - intros i x Hx. apply lookup_app_Some in Hx as [Hx|[Hi Hx]].
    + pose proof (lookup_lt_Some _ _ _ Hx). rewrite (ag_key _ _ _ _ _ A) by (unfold slot, n, zlen in *; split; lia). by apply (nr_keys _ _ _ Hr).
    + apply list_lookup_singleton_Some in Hx as [Hi0 <-]. replace (Z.of_nat i) with n by (unfold n, zlen; lia). by rewrite (ag_key _ _ _ _ _ A2).
  - intros i x Hx. apply lookup_app_Some in Hx as [Hx|[Hi Hx]].
    + pose proof (lookup_lt_Some _ _ _ Hx). rewrite (ag_rid _ _ _ _ _ A) by (unfold slot, n, zlen in *; split; lia). by apply (nr_rids _ _ _ Hr).
    + apply list_lookup_singleton_Some in Hx as [Hi0 <-]. replace (Z.of_nat i) with n by (unfold n, zlen; lia). by rewrite R2.
  - unfold n, zlen in *. rewrite length_app. simpl. lia.
  - rewrite Hlf, !length_app. simpl. lia.
  - exists b1, b2, b3. rewrite Hz in E3. split_and!; try done; [apply A1|apply A2].
Qed.

Lemma pop_front_ok nd b k ks r rs : nrep h nd b -> an_leaf nd = true -> an_keys nd = k :: ks -> an_rids nd = r :: rs ->
  exists b1 b2, loop_up (Z.to_nat (zlen (an_keys nd) - 1)) 0 (fun i => move_pair h i (i + 1)) b = (Ok tt, b1) /\ set_size (zlen (an_keys nd) - 1) b1 = (Ok tt, b2) /\ page b1 /\ nrep h (set_pairs ks rs nd) b2.
Proof.
  intros Hr Hlf Ek Er. pose proof (nrep_keys_cap h nd b Hr) as Hkc. pose proof (nr_len _ _ _ Hr) as Hlen. rewrite Hlf, Ek, Er in Hlen. simpl in Hlen. rewrite Ek in Hkc |- *. unfold zlen in *. simpl length in *.
  replace (Z.of_nat (S (length ks)) - 1) with (Z.of_nat (length ks)) by lia. rewrite Nat2Z.id. destruct (shift_up h Hg (length ks) 0 b (nr_page _ _ _ Hr)) as (b1 & E1 & A1 & S1); [lia|lia|].
  destruct (nrep_resize h Hg _ _ nd b b1 ks rs Hr A1) as (b2 & E2 & Hr2).
  - intros i x Hx. pose proof (lookup_lt_Some _ _ _ Hx). destruct (S1 (Z.of_nat i) ltac:(lia)) as [-> _]. replace (Z.of_nat i + 1) with (Z.of_nat (S i)) by lia. apply (nr_keys _ _ _ Hr). by rewrite Ek.
  - intros i x Hx. pose proof (lookup_lt_Some _ _ _ Hx). destruct (S1 (Z.of_nat i) ltac:(lia)) as [_ ->]. replace (Z.of_nat i + 1) with (Z.of_nat (S i)) by lia. apply (nr_rids _ _ _ Hr). by rewrite Er.
  - unfold zlen. lia.
  - rewrite Hlf. lia.
  - exists b1, b2. split_and!; try done. apply A1.
Qed.

Lemma push_front_ok nd b k raw r : nrep h nd b -> an_leaf nd = true -> zlen (an_keys nd) <= btree_order_ h -> zlen k = col_tot_len_ h -> zlen raw = Log.sizeof_Rid -> Log.dec_Rid raw = r ->
  exists b1 b2 b3 b4, loop_down (Z.to_nat (zlen (an_keys nd))) (zlen (an_keys nd)) (fun i => move_pair h i (i - 1)) b = (Ok tt, b1) /\ set_key h 0 k b1 = (Ok tt, b2) /\ store_rid h 0 raw b2 = (Ok tt, b3) /\
    set_size (zlen (an_keys nd) + 1) b3 = (Ok tt, b4) /\ page b1 /\ page b2 /\ page b3 /\ nrep h (set_pairs (k :: an_keys nd) (r :: an_rids nd) nd) b4.
Proof.
  intros Hr Hlf Hcap Hk Hraw Hdec. pose proof (nr_len _ _ _ Hr) as Hlen. rewrite Hlf in Hlen. unfold zlen in *. set (n := length (an_keys nd)) in *. rewrite Nat2Z.id. assert (Hs0 : slot h 0) by (unfold slot; lia).
  destruct (shift_down h Hg n (Z.of_nat n) b (nr_page _ _ _ Hr)) as (b1 & E1 & A1 & S1); [unfold slot; lia|lia|].
  destruct (set_key_ok h Hg b1 0 k (ag_page _ _ _ _ _ A1) Hs0 Hk) as (b2 & E2 & K2 & A2). destruct (store_rid_ok h Hg b2 0 raw (ag_page _ _ _ _ _ A2) Hs0 Hraw) as (b3 & E3 & R3 & A3).
  pose proof (agree_trans _ _ _ _ _ _ _ _ A1 (agree_trans _ _ _ _ _ _ _ _ A2 A3)) as A.
  destruct (nrep_resize h Hg _ _ nd b b3 (k :: an_keys nd) (r :: an_rids nd) Hr A) as (b4 & E4 & Hr4).
  - intros [|i] x Hx; [injection Hx as <-; change (Z.of_nat 0) with 0; by rewrite (ag_key _ _ _ _ _ A3)|]. simpl in Hx. pose proof (lookup_lt_Some _ _ _ Hx). rewrite (ag_key _ _ _ _ _ A3), (ag_key _ _ _ _ _ A2) by (unfold slot; lia || done).
    destruct (S1 (Z.of_nat (S i)) ltac:(unfold slot; lia) ltac:(lia)) as [-> _]. replace (Z.of_nat (S i) - 1) with (Z.of_nat i) by lia. by apply (nr_keys _ _ _ Hr).
  - intros [|i] x Hx; [injection Hx as <-; change (Z.of_nat 0) with 0; by rewrite R3|]. simpl in Hx. pose proof (lookup_lt_Some _ _ _ Hx). rewrite (ag_rid _ _ _ _ _ A3), (ag_rid _ _ _ _ _ A2) by (unfold slot; lia || done).
    destruct (S1 (Z.of_nat (S i)) ltac:(unfold slot; lia) ltac:(lia)) as [_ ->]. replace (Z.of_nat (S i) - 1) with (Z.of_nat i) by lia. by apply (nr_rids _ _ _ Hr).
  - unfold zlen. simpl. lia.
  - rewrite Hlf. simpl. lia.
  - exists b1, b2, b3, b4. replace (zlen (k :: an_keys nd)) with (Z.of_nat n + 1) in E4 by (unfold zlen; simpl; lia). split_and!; try done; [apply A1|apply A2|apply A3].
Qed.

(** [find_child] *)
Lemma find_child_from_ok nd b c m r fuel : nrep h nd b -> an_leaf nd = false -> an_rids nd !! m = Some r -> rid_page_no r = c -> (forall i q, an_rids nd !! i = Some q -> rid_page_no q = c -> i = m) ->
  forall i, (i <= m)%nat -> (m - i <= fuel)%nat -> find_child_from h c (Z.of_nat i) fuel b = (Ok (Z.of_nat m), b).
Proof.
  intros Hr Hlf Hm Hc Hu. pose proof (nr_len _ _ _ Hr) as Hlen. rewrite Hlf in Hlen. pose proof (lookup_lt_Some _ _ _ Hm) as Hlt. induction fuel as [|fuel IH]; intros i Hi Hf.
  - assert (i = m) as -> by lia. cbn [find_child_from]. rewrite (bind_ok _ _ _ _ _ (nrep_size h nd b Hr)). rewrite (proj2 (Z.leb_le _ _)) by (unfold zlen; lia). change (negb true) with false. cbv iota.
    rewrite (bind_ok _ _ _ (rid_page_no r) b) by (unfold value_at; by rewrite (bind_ok _ _ _ _ _ (nrep_get_rid h Hg nd b m r Hr Hm))). by rewrite Hc, Z.eqb_refl.
  - destruct (lookup_lt_is_Some_2 (an_rids nd) i) as [q Hq]; [lia|]. cbn [find_child_from]. rewrite (bind_ok _ _ _ _ _ (nrep_size h nd b Hr)). rewrite (proj2 (Z.leb_le _ _)) by (unfold zlen; lia). change (negb true) with false. cbv iota.
    rewrite (bind_ok _ _ _ (rid_page_no q) b) by (unfold value_at; by rewrite (bind_ok _ _ _ _ _ (nrep_get_rid h Hg nd b i q Hr Hq))). destruct (Z.eqb_spec (rid_page_no q) c) as [E|E]; [by rewrite (Hu i q Hq E)|].
    replace (Z.of_nat i + 1) with (Z.of_nat (S i)) by lia. apply IH; [|lia]. destruct (decide (i = m)) as [->|]; [congruence|lia].
Qed.
Lemma find_child_ok nd b c m r : nrep h nd b -> an_leaf nd = false -> an_rids nd !! m = Some r -> rid_page_no r = c -> (forall i q, an_rids nd !! i = Some q -> rid_page_no q = c -> i = m) ->
  find_child h c b = (Ok (Z.of_nat m), b).
Proof.
  intros Hr Hlf Hm Hc Hu. pose proof (nr_len _ _ _ Hr) as Hlen. rewrite Hlf in Hlen. pose proof (lookup_lt_Some _ _ _ Hm) as Hlt. unfold find_child. rewrite (bind_ok _ _ _ _ _ (nrep_size h nd b Hr)).
  rewrite (bind_ok _ _ _ (Z.of_nat m) b) by (apply (find_child_from_ok nd b c m r _ Hr Hlf Hm Hc Hu 0%nat); unfold zlen; lia). rewrite (bind_ok _ _ _ _ _ (nrep_size h nd b Hr)), assert_ok; [done|]. apply Z.leb_le. unfold zlen. lia.
Qed.

(** [set_key] of an internal node *)
Lemma nrep_set_key nd b m k : nrep h nd b -> (m < length (an_keys nd))%nat -> zlen k = col_tot_len_ h -> exists b', set_key h (Z.of_nat m) k b = (Ok tt, b') /\ nrep h (set_pairs (<[m := k]> (an_keys nd)) (an_rids nd) nd) b'.
Proof.
  intros Hr Hm Hk. pose proof (nrep_keys_cap h nd b Hr) as Hkc. destruct (set_key_ok h Hg b (Z.of_nat m) k (nr_page _ _ _ Hr)) as (b1 & E1 & K1 & [Hp Hh HK HR]); [unfold slot, zlen in *; lia|done|]. exists b1. split; [done|].
  assert (Hf : forall off n, 0 <= off -> 0 <= n -> off + n <= 24 -> slice off n b1 = slice off n b) by (intros; apply Hh; unfold sizeof_IxPageHdr; lia).
  pose proof Hr as [_ F1 F2 F3 F4 F5 Hks Hrs Hcap Hlen]. unfold F in *. split; simpl; try done; unfold F.
  - by rewrite Hf by (unfold off_parent; lia).
  - unfold zlen. rewrite length_insert. by rewrite Hf by (unfold off_num_key; lia).
  - by rewrite Hf by (unfold off_is_leaf; lia).
  - by rewrite Hf by (unfold off_prev_leaf; lia).
  - by rewrite Hf by (unfold off_next_leaf; lia).
  - intros i x Hx. destruct (decide (i = m)) as [->|Hne]; [rewrite list_lookup_insert_eq in Hx by done; by injection Hx as <-|]. rewrite list_lookup_insert_ne in Hx by done. pose proof (lookup_lt_Some _ _ _ Hx). rewrite HK by (unfold slot, zlen in *; lia). by apply Hks.
  - intros i x Hx. pose proof (lookup_lt_Some _ _ _ Hx). rewrite HR by (unfold slot, zlen in *; lia || done). by apply Hrs.
  - by rewrite length_insert.
Qed.
End pairs.

(** ** Two pinned leaves *)

Section two.
Context {S : Type} {PS : PageStore S} {PL : PageStoreLaws S}.
Context (h : IxFileHdr) (Hg : geo h) (g R np : Z) (H : gmap Z page_ptr) (ps : gmap Z anode) (l r : Z) (pl pr : page_ptr) (ndl ndr : anode).
Context (Hpl : H !! l = Some pl) (Hpr : H !! r = Some pr) (Hlr : l <> r) (Hll : an_leaf ndl = true) (Hlfr : an_leaf ndr = true).
Local Open Scope prog_scope.
Abbreviation at_hdr := (mkIxIndexHandle g h).

Definition both (kl : list (list Z)) (rl : list Rid) (kr : list (list Z)) (rr : list Rid) : gmap Z anode := <[l := set_pairs kl rl ndl]> (<[r := set_pairs kr rr ndr]> ps).
Lemma both_l kl rl kr rr : both kl rl kr rr !! l = Some (set_pairs kl rl ndl).
Proof. apply lookup_insert_eq. Qed.
Lemma both_r kl rl kr rr : both kl rl kr rr !! r = Some (set_pairs kr rr ndr).
Proof. unfold both. rewrite lookup_insert_ne by done. apply lookup_insert_eq. Qed.

Definition moving (kl : list (list Z)) (rl : list Rid) (kr : list (list Z)) (rr : list Rid) (t : Ix.St (S:=S)) : Prop := exists s B, t = (s, at_hdr) /\ held g R np s B H /\ brep h B (both kl rl kr rr).

Lemma brep_both B kl rl kr rr kl' rl' kr' rr' bl br : brep h B (both kl rl kr rr) -> nrep h (set_pairs kl' rl' ndl) bl -> nrep h (set_pairs kr' rr' ndr) br -> brep h (<[r := br]> (<[l := bl]> B)) (both kl' rl' kr' rr').
Proof.
  intros Hb Hl Hr p x Hx. unfold both in Hx. destruct (decide (p = l)) as [->|Hpl'].
  - rewrite lookup_insert_eq in Hx. injection Hx as <-. exists bl. by rewrite lookup_insert_ne, lookup_insert_eq by done.
  - rewrite lookup_insert_ne in Hx by done. destruct (decide (p = r)) as [->|Hpr'].
    + rewrite lookup_insert_eq in Hx. injection Hx as <-. exists br. by rewrite lookup_insert_eq.
    + rewrite lookup_insert_ne in Hx by done. rewrite !lookup_insert_ne by done. apply Hb. unfold both. by rewrite !lookup_insert_ne by done.
Qed.

Lemma nrep_key_len nd b i k : nrep h nd b -> an_keys nd !! i = Some k -> zlen k = col_tot_len_ h.
Proof.
  intros Hr Hk. pose proof (lookup_lt_Some _ _ _ Hk) as Hlt. pose proof (nrep_keys_cap h nd b Hr) as Hcap. rewrite <- (nr_keys _ _ _ Hr i k Hk). pose proof (nr_page _ _ _ Hr) as Hp. assert (Hs : slot h (Z.of_nat i)) by (unfold slot, zlen in *; lia).
  pose proof (key_range h Hg _ Hs). pose proof (keys_size_pos h Hg). pose proof Hg as [? _ _ _]. unfold page, sizeof_IxPageHdr in *. apply zlen_slice; lia.
Qed.

Lemma shift_left_runs kl rl k x kr rr t : moving kl rl (k :: kr) (x :: rr) t -> zlen kl <= btree_order_ h -> runs (Ix.leaf_shift_left pl pr (zlen (k :: kr)) (zlen kl)) t (fun _ => moving (kl ++ [k]) (rl ++ [x]) kr rr).
Proof.
  intros (s & B & -> & Hh & Hb) Hcap. destruct (Hb _ _ (both_l _ _ _ _)) as (bl & HBl & Hrl). destruct (Hb _ _ (both_r _ _ _ _)) as (br & HBr & Hrr).
  pose proof (nrep_get_key h Hg _ br 0 k Hrr eq_refl) as Ek. pose proof (nrep_key_len _ br 0 k Hrr eq_refl) as Hk. destruct (load_rid_ok h Hg _ br 0 x Hrr eq_refl) as (raw & Er & Hraw & Hdec).
  destruct (push_back_ok h Hg _ bl k raw x Hrl Hll Hcap Hk Hraw Hdec) as (b1 & b2 & b3 & E1 & E2 & E3 & P1 & P2 & Hrep3). destruct (pop_front_ok h Hg _ br k kr x rr Hrr Hlfr eq_refl eq_refl) as (b4 & b5 & E4 & E5 & P4 & Hrep5).
  unfold Ix.leaf_shift_left, Ix.key_across, Ix.rid_across, Ix.resize. rstep. eapply held_read; [exact Hh|exact Hpr|exact HBr|exact Ek|]. eapply held_on; [exact Hh|exact Hpl|exact HBl|exact E1|exact P1|]. intros s1 Hh1. rstep.
  eapply held_read; [exact Hh1|exact Hpr|by rewrite lookup_insert_ne|exact Er|]. eapply held_on; [exact Hh1|exact Hpl|apply lookup_insert_eq|exact E2|exact P2|]. intros s2 Hh2.
  eapply held_on; [exact Hh2|exact Hpl|apply lookup_insert_eq|exact E3|exact (nr_page _ _ _ Hrep3)|]. intros s3 Hh3. eapply held_on; [exact Hh3|exact Hpr|by rewrite !lookup_insert_ne|exact E4|exact P4|]. intros s4 Hh4. apply runs_tail.
  eapply held_on; [exact Hh4|exact Hpr|apply lookup_insert_eq|exact E5|exact (nr_page _ _ _ Hrep5)|]. intros s5 Hh5. rstep. rewrite !insert_insert_eq in Hh5. eexists s5, _. split; [done|]. split; [exact Hh5|]. by eapply brep_both.
Qed.

Lemma shift_right_runs kl rl k x kr rr t : moving (kl ++ [k]) (rl ++ [x]) kr rr t -> length rl = length kl -> zlen kr <= btree_order_ h -> runs (Ix.leaf_shift_right pl pr (zlen (kl ++ [k])) (zlen kr)) t (fun _ => moving kl rl (k :: kr) (x :: rr)).
Proof.
  intros (s & B & -> & Hh & Hb) Hlen Hcap. destruct (Hb _ _ (both_l _ _ _ _)) as (bl & HBl & Hrl). destruct (Hb _ _ (both_r _ _ _ _)) as (br & HBr & Hrr).
  assert (Hz : zlen (kl ++ [k]) - 1 = Z.of_nat (length kl)) by (unfold zlen; rewrite length_app; simpl; lia). assert (Hk1 : an_keys (set_pairs (kl ++ [k]) (rl ++ [x]) ndl) !! length kl = Some k) by (simpl; by apply list_lookup_middle).
  assert (Hr1 : an_rids (set_pairs (kl ++ [k]) (rl ++ [x]) ndl) !! length kl = Some x) by (simpl; rewrite <- Hlen; by apply list_lookup_middle).
  pose proof (nrep_get_key h Hg _ bl _ k Hrl Hk1) as Ek. pose proof (nrep_key_len _ bl _ k Hrl Hk1) as Hk. destruct (load_rid_ok h Hg _ bl _ x Hrl Hr1) as (raw & Er & Hraw & Hdec).
  destruct (push_front_ok h Hg _ br k raw x Hrr Hlfr Hcap Hk Hraw Hdec) as (b1 & b2 & b3 & b4 & E1 & E2 & E3 & E4 & P1 & P2 & P3 & Hrep4).
  destruct (nrep_truncate h Hg _ bl (length kl) Hrl) as (b5 & E5 & Hrep5); [unfold cut; simpl; rewrite Hll, length_app; simpl; lia|].
  assert (Ecut : set_pairs (take (length kl) (kl ++ [k])) (take (cut (set_pairs (kl ++ [k]) (rl ++ [x]) ndl) (length kl)) (rl ++ [x])) (set_pairs (kl ++ [k]) (rl ++ [x]) ndl) = set_pairs kl rl ndl) by (unfold cut; simpl; rewrite Hll, take_app_length, <- Hlen, take_app_length; done).
  simpl an_keys in Hrep5. simpl an_rids in Hrep5. rewrite Ecut in Hrep5. unfold Ix.leaf_shift_right, Ix.key_across, Ix.rid_across, Ix.resize. rewrite Hz.
  eapply held_on; [exact Hh|exact Hpr|exact HBr|exact E1|exact P1|]. intros s1 Hh1. rstep. eapply held_read; [exact Hh1|exact Hpl|by rewrite lookup_insert_ne|exact Ek|]. eapply held_on; [exact Hh1|exact Hpr|apply lookup_insert_eq|exact E2|exact P2|]. intros s2 Hh2. rstep.
  eapply held_read; [exact Hh2|exact Hpl|by rewrite !lookup_insert_ne|exact Er|]. eapply held_on; [exact Hh2|exact Hpr|apply lookup_insert_eq|exact E3|exact P3|]. intros s3 Hh3.
  eapply held_on; [exact Hh3|exact Hpr|apply lookup_insert_eq|exact E4|exact (nr_page _ _ _ Hrep4)|]. intros s4 Hh4. apply runs_tail.
  eapply held_on; [exact Hh4|exact Hpl|by rewrite !lookup_insert_ne|exact E5|exact (nr_page _ _ _ Hrep5)|]. intros s5 Hh5. rstep. rewrite !insert_insert_eq, insert_insert_ne in Hh5 by done. eexists s5, _. split; [done|]. split; [exact Hh5|]. by eapply brep_both.
Qed.

Lemma moving_sizes {A} kl rl kr rr t (f : Z -> Prog Ix.St A) P : moving kl rl kr rr t -> (runs (f (zlen kl)) t P -> runs (bind (Ix.size_of pl) f) t P) /\ (runs (f (zlen kr)) t P -> runs (bind (Ix.size_of pr) f) t P).
Proof.
  intros (s & B & -> & Hh & Hb). destruct (Hb _ _ (both_l _ _ _ _)) as (bl & HBl & Hrl). destruct (Hb _ _ (both_r _ _ _ _)) as (br & HBr & Hrr).
  split; intros Hf; [eapply held_read; [exact Hh|exact Hpl|exact HBl|exact (nrep_size h _ _ Hrl)|exact Hf]|eapply held_read; [exact Hh|exact Hpr|exact HBr|exact (nrep_size h _ _ Hrr)|exact Hf]].
Qed.

(** the pairs in the end: none lost, as many on both sides up to one *)
Definition balanced (kl : list (list Z)) (rl : list Rid) (kr : list (list Z)) (rr : list Rid) (t : Ix.St (S:=S)) : Prop :=
  exists kl' rl' kr' rr', moving kl' rl' kr' rr' t /\ kl' ++ kr' = kl ++ kr /\ rl' ++ rr' = rl ++ rr /\ length rl' = length kl' /\ (length kl' <= Datatypes.S (length kr'))%nat /\ (length kr' <= Datatypes.S (length kl'))%nat.

Lemma balance_left_runs fuel : forall kl rl kr rr t, moving kl rl kr rr t -> length rl = length kl -> length rr = length kr -> (length kl <= length kr)%nat -> zlen kr <= btree_order_ h + 1 -> (length kr - length kl <= fuel)%nat ->
  runs (Ix.balance pr pl (Ix.leaf_shift_left pl pr) fuel) t (fun _ => balanced kl rl kr rr).
Proof.
  induction fuel as [|fuel IH]; intros kl rl kr rr t Hm Hll' Hlr' Hle Hcap Hf; cbn [Ix.balance]; (eapply (proj2 (moving_sizes _ _ _ _ _ _ _ Hm))); (eapply (proj1 (moving_sizes _ _ _ _ _ _ _ Hm))); (destruct (Z.ltb_spec 1 (zlen kr - zlen kl)) as [Hd|Hd]); unfold zlen in *; try lia.
  - rstep. exists kl, rl, kr, rr. split_and!; done || lia.
  - destruct kr as [|k kr]; [simpl in *; lia|]. destruct rr as [|x rr]; [simpl in *; lia|]. simpl length in *. eapply runs_bind; [apply shift_left_runs; [exact Hm|unfold zlen; lia]|]. intros [] t' Hm'.
    eapply runs_conseq; [apply (IH _ _ _ _ _ Hm'); rewrite ?length_app; simpl; lia|]. intros [] t2 (kl' & rl' & kr' & rr' & H1 & H2 & H3 & H4). exists kl', rl', kr', rr'. rewrite H2, H3, <- !app_assoc. done.
  - rstep. exists kl, rl, kr, rr. split_and!; done || lia.
Qed.

Lemma balance_right_runs fuel : forall kl rl kr rr t, moving kl rl kr rr t -> length rl = length kl -> length rr = length kr -> (length kr <= length kl)%nat -> zlen kl <= btree_order_ h + 1 -> (length kl - length kr <= fuel)%nat ->
  runs (Ix.balance pl pr (Ix.leaf_shift_right pl pr) fuel) t (fun _ => balanced kl rl kr rr).
Proof.
  induction fuel as [|fuel IH]; intros kl rl kr rr t Hm Hll' Hlr' Hle Hcap Hf; cbn [Ix.balance]; (eapply (proj1 (moving_sizes _ _ _ _ _ _ _ Hm))); (eapply (proj2 (moving_sizes _ _ _ _ _ _ _ Hm))); (destruct (Z.ltb_spec 1 (zlen kl - zlen kr)) as [Hd|Hd]); unfold zlen in *; try lia.
  - rstep. exists kl, rl, kr, rr. split_and!; done || lia.
  - destruct (exists_last (l := kl)) as (kl0 & k & ->); [by destruct kl; [simpl in *; lia|]|]. destruct (exists_last (l := rl)) as (rl0 & x & ->); [destruct rl; [rewrite length_app in *; simpl in *; lia|done]|]. rewrite !length_app in *. simpl length in *.
    eapply runs_bind; [pose proof (shift_right_runs kl0 rl0 k x kr rr t Hm ltac:(lia) ltac:(unfold zlen; lia)) as Hs; unfold zlen in Hs; rewrite length_app in Hs; exact Hs|]. intros [] t' Hm'.
    eapply runs_conseq; [apply (IH _ _ _ _ _ Hm'); simpl; lia|]. intros [] t2 (kl' & rl' & kr' & rr' & H1 & H2 & H3 & H4). exists kl', rl', kr', rr'. rewrite H2, H3, <- !app_assoc. done.
  - rstep. exists kl, rl, kr, rr. split_and!; done || lia.
Qed.
End two.

(** ** [maintain_parent] of the leaf on the right *)

Section climb.
Context {S : Type} {PS : PageStore S} {PL : PageStoreLaws S}.
Context (h : IxFileHdr) (Hg : geo h) (g R np : Z) (ps : gmap Z anode) (n : nat) (root : Z) (Hw : twf h ps n root).
Context (l r : Z) (pl pr : page_ptr) (ndl ndr : anode) (Hl : ps !! l = Some ndl) (Hr : ps !! r = Some ndr) (Hll : an_leaf ndl = true) (Hlfr : an_leaf ndr = true) (Hlr : l <> r) (Hprev : an_prev ndr = l) (Hlno : l <> IX_NO_PAGE).
Context (kl kr : list (list Z)) (rl rr : list Rid) (nk : list Z) (Hnk : zlen nk = col_tot_len_ h) (HR : 4 <= R).
Local Open Scope prog_scope.
Abbreviation at_hdr := (mkIxIndexHandle g h).
Abbreviation H := (<[l := pl]> ({[r := pr]} : gmap Z page_ptr)).
Abbreviation ps0 := (both ps l r ndl ndr kl rl kr rr).

(** the key between the leaves was set *)
Definition separated (t : Ix.St (S:=S)) : Prop := exists s B j y ndy m ru rv lo hi, t = (s, at_hdr) /\ held g R np s B H /\ path ps n root None None (Datatypes.S j) y lo hi /\ ps !! y = Some ndy /\ an_rids ndy !! m = Some ru /\ an_rids ndy !! Datatypes.S m = Some rv /\
  last (leaves ps j (rid_page_no ru)) = Some l /\ head (leaves ps j (rid_page_no rv)) = Some r /\ brep h B (<[y := set_pairs (<[m := nk]> (an_keys ndy)) (an_rids ndy) ndy]> ps0).

Lemma H_dom q p : H !! q = Some p -> q = l \/ q = r.
Proof. intros Hq. apply lookup_insert_Some in Hq as [[-> _]|[_ Hq]]; [by left|]. apply lookup_singleton_Some in Hq as [-> _]. by right. Qed.
Lemma H_card : Z.of_nat (stdpp.base.size H) = 2.
Proof. rewrite map_size_insert_None, map_size_singleton; [done|]. by apply lookup_singleton_ne. Qed.
Lemma inner_kept y ndy : ps !! y = Some ndy -> an_leaf ndy = false -> y <> l /\ y <> r /\ ps0 !! y = Some ndy /\ H !! y = None.
Proof.
  intros Hy Hlf. assert (y <> l) by congruence. assert (y <> r) by congruence. split_and!; try done; [unfold both; by rewrite !lookup_insert_ne|]. rewrite lookup_insert_ne by done. by apply lookup_singleton_ne.
Qed.

Lemma climb_runs fuel : forall j v ndv pv (first : bool) s B H' parent lo hi, path ps n root None None j v lo hi -> ps !! v = Some ndv -> head (leaves ps j v) = Some r -> held g R np s B H' -> brep h B ps0 -> H' !! v = Some pv ->
  (if first then v = r /\ H' = H else H' = <[v := pv]> H /\ H !! v = None /\ ps_clean s (mkPageId g v)) -> (n - j <= fuel)%nat ->
  runs (Ix.maintain_up nk first pv (an_parent ndv) parent fuel) (s, at_hdr) (fun res t => separated t /\ res.1 <> IX_NO_PAGE).
Proof.
  induction fuel as [|fuel IH]; intros j v ndv pv first s B H' parent lo hi Hp Hv Hhd Hh Hb HHv Hfst Hf; destruct (parent_of h ps n root Hw j v lo hi Hp ndv Hv) as [(Ej & Ev & _)|(y & ndy & m & q & lo2 & hi2 & Hpy & Hy & Hm & Hq & _ & _ & Hpar)];
    try (exfalso; rewrite Ej, Ev in Hhd; exact (not_first h ps n root Hw l r ndr Hr Hprev Hlno Hhd)).
  { pose proof (path_le _ _ _ _ _ _ _ _ _ Hpy). lia. }
  destruct (parent_keys h ps n root Hw j y ndy lo2 hi2 Hpy Hy) as (Hlfy & _ & Hlen). destruct (inner_kept y ndy Hy Hlfy) as (N1 & N2 & Hy0 & HHy). destruct (Hb _ _ Hy0) as (by1 & HBy & Hry).
  assert (Hyno : y <> IX_NO_PAGE) by (intros ->; by rewrite (tw_pages _ _ _ _ Hw) in Hy). pose proof (path_nodup h _ _ _ _ _ _ _ _ _ Hpy (tw_sub _ _ _ _ Hw) (tw_nodup _ _ _ _ Hw)) as Hdy. rewrite (walk_S _ _ _ _ _ Hy) in Hdy. apply NoDup_cons in Hdy as [Hyb Hdy].
  pose proof (path_sub h _ _ _ _ _ _ _ _ _ Hp (tw_sub _ _ _ _ Hw)) as Hsv. pose proof (self_page h _ _ _ _ _ Hsv) as Hvp. assert (Hvy : v <> y) by (intros E; apply Hyb, below_elem; exists m, q; split; [done|]; rewrite Hq; by rewrite <- E).
  assert (Huniq : forall i q', an_rids ndy !! i = Some q' -> rid_page_no q' = v -> i = m).
  { intros i q' Hi Eq'. destruct (decide (i = m)) as [|Him]; [done|]. exfalso. apply (nodup_children ps j (an_rids ndy) i m q' q v Hdy Hi Hm Him); [by rewrite Eq'|by rewrite Hq]. }
  assert (HH'y : H' !! y = None) by (destruct first; [destruct Hfst as [_ ->]; done|destruct Hfst as (-> & _); by rewrite lookup_insert_ne]). assert (Hcard : Z.of_nat (stdpp.base.size H') <= 3) by (destruct first; [destruct Hfst as [_ ->]; rewrite H_card; lia|destruct Hfst as (-> & HHv' & _); rewrite map_size_insert_None by done; pose proof H_card; lia]).
  cbn [Ix.maintain_up]. rewrite Hpar, (proj2 (Z.eqb_neq _ _) Hyno). eapply held_fetch; [exact Hh|exact HH'y|exact HBy|lia|]. intros p s1 Hh1 Hcly Hkeep. eapply held_page_no; [exact Hh1|rewrite lookup_insert_ne; [exact HHv|done]|].
  eapply held_read; [exact Hh1|apply lookup_insert_eq|exact HBy|exact (find_child_ok h Hg ndy by1 v m q Hry Hlfy Hm Hq Huniq)|]. cbn [ix_fd_] in *.
  assert (Hgo : forall s2, held g R np s2 B (<[y := p]> H) -> ps_clean s2 (mkPageId g y) -> runs (if 0 <? Z.of_nat m then Ix.on_node p (fun h => IxNode.set_key h (Z.of_nat m - 1) nk);; Ix.release_node_handle p true;; ret (y, Some p)
      else let* parent_page_no := Ix.on_node p (fun _ => IxNode.get_parent_page_no) in Ix.maintain_up nk false p parent_page_no (Some p) fuel) (s2, at_hdr) (fun res t => separated t /\ res.1 <> IX_NO_PAGE)).
  { intros s2 Hh2 Hcl2. destruct m as [|m'].
    - simpl. eapply held_read; [exact Hh2|apply lookup_insert_eq|exact HBy|by apply (nrep_parent h)|]. eapply (IH (Datatypes.S j) y ndy p false s2 B _ _ lo2 hi2 Hpy Hy); [|exact Hh2|exact Hb|apply lookup_insert_eq|done|lia].
      rewrite (walk_S _ _ _ _ _ Hy). unfold see_level at 1. simpl. rewrite <- (take_drop_middle _ _ _ Hm). simpl. rewrite below_cons, Hq. destruct (leaves ps j v); done.
    - rewrite (proj2 (Z.ltb_lt _ _)) by lia. replace (Z.of_nat (Datatypes.S m') - 1) with (Z.of_nat m') by lia. pose proof (lookup_lt_Some _ _ _ Hm) as Hlt. destruct (lookup_lt_is_Some_2 (an_rids ndy) m') as [ru Hru]; [lia|].
      destruct (nrep_set_key h Hg ndy by1 m' nk Hry ltac:(lia) Hnk) as (b2 & E2 & Hr2). eapply held_on; [exact Hh2|apply lookup_insert_eq|exact HBy|exact E2|exact (nr_page _ _ _ Hr2)|]. intros s3 Hh3.
      eapply held_release; [exact Hh3|apply lookup_insert_eq|done|]. intros s4 Hh4. rewrite delete_insert_id in Hh4 by done. rstep. split; [|done]. eexists s4, _, j, y, ndy, m', ru, q, lo2, hi2. split_and!; try done.
      + by eapply (before_first h ps n root Hw l r ndr Hr Hprev); try done; rewrite Hq.
      + by rewrite Hq.
      + by apply brep_insert. }
  destruct first.
  - rstep. destruct Hfst as [_ ->]. by apply Hgo.
  - destruct Hfst as (-> & HHv' & Hclv). eapply held_release_keep; [exact Hh1|rewrite lookup_insert_ne; [apply lookup_insert_eq|done]|intros _; by apply Hkeep|]. intros s2 Hh2 Hkeep2.
    rewrite delete_insert_ne, delete_insert_id in Hh2 by done. apply Hgo; [done|]. by apply Hkeep2.
Qed.
End climb.

(** ** The tree after the pairs moved *)

Section moved_tree.
Context (h : IxFileHdr) (Hc : cols h).

(** a walk that sees the children of inner nodes only *)
Lemma same_frame {A} (f : visit A) ps ps' n pn lo hi : sub h ps n pn lo hi -> (forall p x, ps !! p = Some x -> exists x', ps' !! p = Some x' /\ (an_leaf x = false -> an_rids x' = an_rids x)) ->
  (forall k p x x', (k <> 0%nat -> an_rids x' = an_rids x) -> f k p x' = f k p x) -> walk f ps' n pn = walk f ps n pn.
Proof.
  intros Hs Hk Hf. revert pn lo hi Hs. induction n as [|n IH]; intros pn lo hi (x & Hx & _ & _ & Hrest); destruct (Hk pn x Hx) as (x' & Hx' & Er); [simpl; rewrite Hx, Hx'; f_equal; by apply Hf|].
  destruct Hrest as (Hlf & _ & Hch). rewrite (walk_S _ _ _ _ _ Hx), (walk_S _ _ _ _ _ Hx'), (Hf _ _ x x'), Er by auto. f_equal. unfold below. f_equal. apply list_fmap_ext. intros i q Hq. by eapply IH, Hch.
Qed.

Lemma leaf_lengths ps n root k p nd : twf h ps n root -> p ∈ leaves ps k root -> k = n -> ps !! p = Some nd -> an_leaf nd = true /\ length (an_rids nd) = length (an_keys nd).
Proof.
  intros Hw Hp -> Hnd. destruct (level_path h ps n root None None 0 p (tw_sub _ _ _ _ Hw) Hp) as (lo & hi & Hpath). destruct (path_sub h _ _ _ _ _ _ _ _ _ Hpath (tw_sub _ _ _ _ Hw)) as (x & Hx & _ & _ & Hl & Hlen). rewrite Hnd in Hx. injection Hx as <-. done.
Qed.

Lemma spill_tree ps n root j y ndy m ru rv lo hi l r ndl ndr kl rl kr rr nk : twf h ps n root -> path ps n root None None (S j) y lo hi -> ps !! y = Some ndy -> an_rids ndy !! m = Some ru -> an_rids ndy !! S m = Some rv ->
  last (leaves ps j (rid_page_no ru)) = Some l -> head (leaves ps j (rid_page_no rv)) = Some r -> ps !! l = Some ndl -> ps !! r = Some ndr -> an_leaf ndl = true -> an_leaf ndr = true -> length (an_rids ndl) = length (an_keys ndl) -> length (an_rids ndr) = length (an_keys ndr) ->
  kl ++ kr = an_keys ndl ++ an_keys ndr -> rl ++ rr = an_rids ndl ++ an_rids ndr -> length rl = length kl -> kl <> [] -> kr !! 0%nat = Some nk ->
  let ps' := <[y := set_pairs (<[m := nk]> (an_keys ndy)) (an_rids ndy) ndy]> (both ps l r ndl ndr kl rl kr rr) in
  twf h ps' n root /\ leaves ps' n root = leaves ps n root /\ entries ps' n root = entries ps n root /\ sorted h (kl ++ kr) /\ l <> y /\ r <> y /\ l <> r.
Proof.
  intros Hw Hp Hy Hu Hv Hla Hfi Hl Hr Hll Hlr Hnl Hnr Hcat Hrcat Hlen Hkl Hnk ps'. pose proof (path_sub h _ _ _ _ _ _ _ _ _ Hp (tw_sub _ _ _ _ Hw)) as Hsy. pose proof (path_nodup h _ _ _ _ _ _ _ _ _ Hp (tw_sub _ _ _ _ Hw) (tw_nodup _ _ _ _ Hw)) as Hdy.
  destruct (lookup_lt_is_Some_2 (an_keys ndy) m) as [sep Hsep]; [destruct Hsy as (x & Hx & _ & _ & _ & Hlx & _); rewrite Hy in Hx; injection Hx as <-; apply lookup_lt_Some in Hv; lia|].
  pose proof (sep_ne ps j y ndy Hdy Hy m ru rv Hu Hv l r Hla Hfi) as (N1 & N2 & N3 & N4). pose proof (sep_pages ps j ru rv l r Hla Hfi) as [Pl Pr]. assert (Hlr' : l <> r) by (intros E; apply N3; by rewrite E).
  assert (Hl' : ps' !! l = Some (set_pairs kl rl ndl)) by (unfold ps'; rewrite lookup_insert_ne by done; apply both_l). assert (Hr' : ps' !! r = Some (set_pairs kr rr ndr)) by (unfold ps'; rewrite lookup_insert_ne by done; by apply both_r).
  assert (Hy' : ps' !! y = Some (set_pairs (<[m := nk]> (an_keys ndy)) (an_rids ndy) ndy)) by apply lookup_insert_eq. assert (Ho : forall p, p <> l -> p <> r -> p <> y -> ps' !! p = ps !! p) by (intros p ? ? ?; unfold ps', both; by rewrite !lookup_insert_ne by done).
  assert (Hlike : forall p, p ∈ tpages ps (S j) y -> p <> l -> p <> r -> p <> y -> like_page ps ps' p) by (intros p _ H1 H2 H3; unfold like_page; by rewrite Ho).
  destruct (sep_sub h Hc ps ps' j y lo hi ndy Hsy Hdy Hy m ru rv Hu Hv sep Hsep l r ndl ndr Hl Hr Hla Hfi Hll Hlr Hnl Hnr kl kr rl rr nk Hcat Hrcat Hlen Hkl Hnk Hl' Hr' Hy' Hlike) as [Hsub Hwk].
  pose proof (sep_page ps j y ndy Hdy Hy) as Hsp. pose proof (sep_sorted h Hc ps j y lo hi ndy Hsy Hy m ru rv Hu Hv sep Hsep l r ndl ndr Hl Hr Hla Hfi Hnl Hnr kl kr rl Hcat Hlen) as Hsort.
  destruct (path_replace h ps ps' n root None None (S j) y lo hi Hp (tw_sub _ _ _ _ Hw) (tw_nodup _ _ _ _ Hw)) as (Hs' & _ & Hw'); [|done|].
  { intros p _ Hpy. unfold like_page. rewrite Ho; [done|..]; intros ->; apply Hpy; [by apply (Hsp m ru)|by apply (Hsp (S m) rv)|by eapply self_page]. }
  assert (Hframe : forall p x, ps !! p = Some x -> exists x', ps' !! p = Some x' /\ an_leaf x' = an_leaf x /\ (an_leaf x = false -> an_rids x' = an_rids x) /\ an_prev x' = an_prev x /\ an_next x' = an_next x /\ an_parent x' = an_parent x).
  { intros p x Hx. destruct (decide (p = y)) as [->|H1]; [rewrite Hy in Hx; injection Hx as <-; by eexists|]. destruct (decide (p = l)) as [->|H2]; [rewrite Hl in Hx; injection Hx as <-; eexists; split; [done|]; split_and!; try done; simpl; congruence|].
    destruct (decide (p = r)) as [->|H3]; [rewrite Hr in Hx; injection Hx as <-; eexists; split; [done|]; split_and!; try done; simpl; congruence|]. exists x. by rewrite Ho. }
  assert (Hsf : forall A (f : visit A), (forall k p x x', (k <> 0%nat -> an_rids x' = an_rids x) -> f k p x' = f k p x) -> walk f ps' n root = walk f ps n root).
  { intros A f Hf. eapply same_frame; [apply Hw| |done]. intros p x Hx. destruct (Hframe p x Hx) as (x' & Hx' & _ & Er & _). by exists x'. }
  assert (Hlk : same_links ps ps') by (intros p x Hx; destruct (Hframe p x Hx) as (x' & Hx' & _ & _ & H); by exists x').
  split; [|split; [by apply (Hsf _ (see_level 0))|split; [|done]]].
  - pose proof Hw as [_ Hd Hlv Hk Hrt Hno]. split; [done| | | | |].
    + by rewrite (Hsf _ see_page) by done.
    + intros i. rewrite (Hsf _ (see_level i)) by done. by eapply chain_links.
    + rewrite (Hsf _ see_kids); [by eapply parented_links|]. intros k p x x' Hk'. unfold see_kids. destruct k; [done|]. by rewrite Hk'.
    + by eapply parented_links.
    + rewrite Ho; [done|..]; intros E; rewrite <- E in *; congruence.
  - rewrite !entries_walk. destruct (Hw' _ see_pairs _) as (pre & suf & -> & ->). by rewrite Hwk.
Qed.
End moved_tree.

(** ** [redistribute] *)

Section spill.
Context {S : Type} {PS : PageStore S} {PL : PageStoreLaws S}.
Context (h : IxFileHdr) (Hg : geo h) (Hc : cols h) (g R np : Z) (ps : gmap Z anode) (n : nat) (Hw : twf h ps n (root_page_ h)).
Context (l r : Z) (pl pr : page_ptr) (ndl ndr : anode) (Hl : ps !! l = Some ndl) (Hr : ps !! r = Some ndr) (Hlr : l <> r) (Hprev : an_prev ndr = l) (Hlno : l <> IX_NO_PAGE) (Hlv : l ∈ leaves ps n (root_page_ h)) (Hrv : r ∈ leaves ps n (root_page_ h)).
Context (HR : 4 <= R) (fuel : nat) (Hf : (n <= fuel)%nat).
Local Open Scope prog_scope.
Abbreviation at_hdr := (mkIxIndexHandle g h).
Abbreviation H := (<[l := pl]> ({[r := pr]} : gmap Z page_ptr)).

Lemma spill_leaves : an_leaf ndl = true /\ an_leaf ndr = true /\ length (an_rids ndl) = length (an_keys ndl) /\ length (an_rids ndr) = length (an_keys ndr).
Proof. destruct (leaf_lengths h ps n _ n l ndl Hw Hlv eq_refl Hl). by destruct (leaf_lengths h ps n _ n r ndr Hw Hrv eq_refl Hr). Qed.
Lemma H_l : H !! l = Some pl.
Proof. apply lookup_insert_eq. Qed.
Lemma H_r : H !! r = Some pr.
Proof. rewrite lookup_insert_ne by done. apply lookup_singleton_eq. Qed.

Lemma maintain_parent_runs kl rl kr rr nk t : moving h g R np H ps l r ndl ndr kl rl kr rr t -> kr !! 0%nat = Some nk -> runs (Ix.maintain_parent fuel pr) t (fun _ => separated h g R np ps n (root_page_ h) l r pl pr ndl ndr kl kr rl rr nk).
Proof.
  intros (s & B & -> & Hh & Hb) Hnk. destruct spill_leaves as (Hll & Hlfr & _). destruct (Hb _ _ (both_r ps l r ndl ndr Hlr kl rl kr rr)) as (br & HBr & Hrr).
  destruct (level_path h ps n _ None None 0 r (tw_sub _ _ _ _ Hw) Hrv) as (lo & hi & Hp).
  assert (Hpar : an_parent ndr <> IX_NO_PAGE).
  { destruct (parent_of h ps n _ Hw 0 r lo hi Hp ndr Hr) as [(En & Er & _)|(y & ndy & _ & _ & _ & _ & _ & Hy & _ & _ & _ & _ & ->)]; [|intros ->; by rewrite (tw_pages _ _ _ _ Hw) in Hy].
    exfalso. apply (not_first h ps n _ Hw l r ndr Hr Hprev Hlno). rewrite <- En, <- Er. by rewrite (level_here _ _ _ _ Hr). }
  unfold Ix.maintain_parent. eapply held_read; [exact Hh|exact H_r|exact HBr|exact (nrep_parent h _ _ Hrr)|]. cbn [an_parent set_pairs]. rstep; [by rewrite (proj2 (Z.eqb_neq _ _) Hpar)|]. unfold Ix.get_min_leafnode. rstep.
  eapply held_read; [exact Hh|exact H_r|exact HBr|exact (nrep_is_leaf h _ _ Hrr)|]. cbn [an_leaf set_pairs]. rewrite Hlfr. rstep. eapply held_read; [exact Hh|exact H_r|exact HBr|exact (nrep_get_key h Hg _ _ 0 nk Hrr Hnk)|].
  eapply runs_bind; [eapply (climb_runs h Hg g R np ps n _ Hw l r pl pr ndl ndr Hl Hr Hll Hlfr Hlr Hprev Hlno kl kr rl rr nk (nrep_key_len h Hg _ br 0 nk Hrr Hnk) HR fuel 0 r ndr pr true s B H None lo hi Hp Hr); [by rewrite (level_here _ _ _ _ Hr)|exact Hh|exact Hb|exact H_r|done|lia]|].
  intros [pg o] t [Hsep Hne]. simpl in Hne. rewrite (proj2 (Z.eqb_neq _ _) Hne). rstep. by rstep.
Qed.

(** what [redistribute] leaves behind *)
Definition spilled (t : Ix.St (S:=S)) : Prop := exists s B ps' kl rl kr rr nk, t = (s, at_hdr) /\ held g R np s B H /\ brep h B ps' /\ twf h ps' n (root_page_ h) /\ leaves ps' n (root_page_ h) = leaves ps n (root_page_ h) /\
  entries ps' n (root_page_ h) = entries ps n (root_page_ h) /\ ps' !! l = Some (set_pairs kl rl ndl) /\ ps' !! r = Some (set_pairs kr rr ndr) /\ kl ++ kr = an_keys ndl ++ an_keys ndr /\ rl ++ rr = an_rids ndl ++ an_rids ndr /\ length rl = length kl /\
  kr !! 0%nat = Some nk /\ sorted h (kl ++ kr) /\ (forall p x, ps' !! p = Some x -> fit h x) /\ nonempty ps' (leaves ps' n (root_page_ h)).

Context (Hfit : forall p x, ps !! p = Some x -> p <> l -> p <> r -> fit h x) (Hsum : zlen (an_keys ndl) + zlen (an_keys ndr) <= 2 * btree_order_ h) (Hmax : zlen (an_keys ndl) <= btree_order_ h + 1 /\ zlen (an_keys ndr) <= btree_order_ h + 1).
Context (Hne : nonempty ps (leaves ps n (root_page_ h))).
Context (Hmin : btree_order_ h < zlen (an_keys ndl) \/ btree_order_ h < zlen (an_keys ndr)).

Lemma balanced_spilled t kl rl kr rr nk : kl ++ kr = an_keys ndl ++ an_keys ndr -> rl ++ rr = an_rids ndl ++ an_rids ndr -> length rl = length kl -> (length kl <= Datatypes.S (length kr))%nat -> (length kr <= Datatypes.S (length kl))%nat -> kr !! 0%nat = Some nk ->
  separated h g R np ps n (root_page_ h) l r pl pr ndl ndr kl kr rl rr nk t -> spilled t.
Proof.
  intros Hcat Hrcat Hlen H1 H2 Hnk (s & B & j & y & ndy & m & ru & rv & lo & hi & -> & Hh & Hp & Hy & Hu & Hv & Hla & Hfi & Hb). destruct spill_leaves as (Hll & Hlfr & Hnl & Hnr). pose proof (f_equal length Hcat) as Ec. rewrite !length_app in Ec. unfold zlen in *.
  pose proof (ge_order _ Hg) as Hord. destruct (spill_tree h Hc ps n _ j y ndy m ru rv lo hi l r ndl ndr kl rl kr rr nk Hw Hp Hy Hu Hv Hla Hfi Hl Hr Hll Hlfr Hnl Hnr Hcat Hrcat Hlen) as (Hw' & Hlv' & He' & Hs' & N1 & N2 & _); [intros ->; simpl in *; lia|done|].
  eexists s, B, _, kl, rl, kr, rr, nk. split_and!; try done; [rewrite lookup_insert_ne by done; apply both_l|rewrite lookup_insert_ne by done; by apply both_r|..].
  2: { rewrite Hlv'. intros p x Hp' Hx. unfold both in Hx. rewrite !lookup_insert in Hx. repeat case_decide; try (injection Hx as <-); simpl; [|intros ->; simpl in *; lia..|by apply (Hne p)].
    intros E%(f_equal length). rewrite length_insert in E. apply nil_length_inv in E. by apply (Hne y ndy); [congruence|..]. }
  intros p x Hx. unfold both in Hx. rewrite !lookup_insert in Hx. repeat case_decide; try (injection Hx as <-); unfold fit, limit, zlen; simpl.
  - rewrite length_insert. assert (Hyn : y <> l /\ y <> r) by done. subst p. exact (Hfit y ndy Hy (proj1 Hyn) (proj2 Hyn)).
  - rewrite Hll. lia.
  - rewrite Hlfr. lia.
  - by apply (Hfit p x); [|apply not_eq_sym..].
Qed.

Lemma redistribute_runs s B : held g R np s B H -> brep h B ps -> (1 <? zlen (an_keys ndl) - zlen (an_keys ndr)) || (1 <? zlen (an_keys ndr) - zlen (an_keys ndl)) = true -> runs (Ix.redistribute fuel pl pr) (s, at_hdr) (fun _ => spilled).
Proof.
  intros Hh Hb Hd. destruct spill_leaves as (Hll & Hlfr & Hnl & Hnr). destruct (Hb _ _ Hl) as (bl & HBl & Hrl). destruct (Hb _ _ Hr) as (br & HBr & Hrr).
  assert (Hm : moving h g R np H ps l r ndl ndr (an_keys ndl) (an_rids ndl) (an_keys ndr) (an_rids ndr) (s, at_hdr)).
  { exists s, B. split; [done|]. split; [done|]. eapply brep_ext; [exact Hb|]. intros p. unfold both. rewrite !lookup_insert. repeat case_decide; subst; [rewrite Hl; by destruct ndl|rewrite Hr; by destruct ndr|done]. }
  unfold Ix.redistribute. eapply held_read; [exact Hh|exact H_l|exact HBl|exact (nrep_size h _ _ Hrl)|]. eapply held_read; [exact Hh|exact H_r|exact HBr|exact (nrep_size h _ _ Hrr)|]. cbv zeta. rstep; [exact Hd|].
  eapply held_read; [exact Hh|exact H_l|exact HBl|exact (nrep_is_leaf h _ _ Hrl)|]. rewrite Hll. eapply held_read; [exact Hh|exact H_r|exact HBr|exact (nrep_is_leaf h _ _ Hrr)|]. rewrite Hlfr. rstep; [done|].
  eapply (runs_bind _ _ _ (fun _ t => balanced h g R np H ps l r ndl ndr (an_keys ndl) (an_rids ndl) (an_keys ndr) (an_rids ndr) t)).
  - unfold zlen in *. destruct (Z.ltb_spec (Z.of_nat (length (an_keys ndl))) (Z.of_nat (length (an_keys ndr)))) as [Hlt|Hge].
    + apply (balance_left_runs h Hg g R np H ps l r pl pr ndl ndr H_l H_r Hlr Hll Hlfr); try done; unfold zlen; lia.
    + apply (balance_right_runs h Hg g R np H ps l r pl pr ndl ndr H_l H_r Hlr Hll Hlfr); try done; unfold zlen; lia.
  - intros [] t (kl & rl & kr & rr & Hm' & Hcat & Hrcat & Hlen & H1 & H2). pose proof (f_equal length Hcat) as Ec. rewrite !length_app in Ec. pose proof (ge_order _ Hg) as Hord. unfold zlen in *.
    destruct (lookup_lt_is_Some_2 kr 0) as [nk Hnk]; [lia|]. eapply runs_conseq; [by apply (maintain_parent_runs kl rl kr rr nk)|]. intros [] t' Hs. by eapply balanced_spilled.
Qed.

Context (Hfree : first_free_page_no_ h = IX_NO_PAGE) (Hlast : last (leaves ps n (root_page_ h)) = Some (last_leaf_ h)) (Hfirst : head (leaves ps n (root_page_ h)) = Some (first_leaf_ h)).

(** the pair is in the leaf that the comparison with the first key on the right says, and both leaves are released *)
Lemma spilled_done t key rid a b pa pb : spilled t -> key_good h key -> (key, rid) ∈ zip (an_keys ndl ++ an_keys ndr) (an_rids ndl ++ an_rids ndr) -> H !! a = Some pa -> delete a H !! b = Some pb -> delete b (delete a H) = ∅ ->
  runs (let* insert_id := Ix.landed key pl pr in Ix.release_node_handle pa true;; Ix.release_node_handle pb true;; ret (Some insert_id)) t
    (fun o t => exists pn, o = Some pn /\ settled h g R ps n (root_page_ h) key rid pn t).
Proof.
  intros (s & B & ps' & kl & rl & kr & rr & nk & -> & Hh & Hb & Hw' & Hlv' & He' & Hpl & Hpr & Hcat & Hrcat & Hlen & Hnk & Hs & Hfit' & Hne') Hgood Hin Ha Hbb Hdel. destruct spill_leaves as (Hll & Hlfr & _).
  destruct (Hb _ _ Hpr) as (br & HBr & Hrr). assert (Hgk : key_good h nk) by (apply (Forall_lookup_1 _ _ (length kl) _ (so_good _ _ Hs)); by rewrite lookup_app_r, Nat.sub_diag by lia).
  assert (Hfin : forall pn x, ps' !! pn = Some x -> an_leaf x = true -> (key, rid) ∈ zip (an_keys x) (an_rids x) -> runs (Ix.release_node_handle pa true;; Ix.release_node_handle pb true;; ret (Some pn)) (s, at_hdr) (fun o t => exists pn, o = Some pn /\ settled h g R ps n (root_page_ h) key rid pn t)).
  { intros pn x Hx Hxl Hxin. eapply held_release; [exact Hh|exact Ha|done|]. intros s1 Hh1. eapply held_release; [exact Hh1|exact Hbb|done|]. intros s2 Hh2. rewrite Hdel in Hh2. rstep. exists pn. split; [done|]. exists s2, h, ps', n, x. split_and!; try done; [|by apply (held_rest g R np s2 B)|by left].
    eapply (grove_ok h g R np s2 h B); [|lia|exact Hfit'|exact Hne']. split; try done; by rewrite Hlv'. }
  unfold Ix.landed. rstep. eapply held_read; [exact Hh|exact H_r|exact HBr|exact (nrep_get_key h Hg _ _ 0 nk Hrr Hnk)|]. rstep. eapply runs_bind_eq; [by apply (compare_eq h Hc)|].
  rewrite <- Hcat, <- Hrcat, zip_with_app, elem_of_app in Hin by done. destruct Hin as [Hin|Hin]; pose proof Hin as Hk%elem_of_zip_l; apply list_elem_of_lookup in Hk as [i Hi]; pose proof (lookup_lt_Some _ _ _ Hi).
  - assert (Hlt : IxKey.lex (kv h key) (kv h nk) = Lt) by (apply (so_lt _ _ Hs i (length kl)); [done|by apply lookup_app_l_Some|by rewrite lookup_app_r, Nat.sub_diag by lia]). rewrite Hlt. simpl. eapply held_page_no; [exact Hh|exact H_l|]. by apply (Hfin l (set_pairs kl rl ndl)).
  - assert (Hge : IxKey.lex (kv h nk) (kv h key) <> Gt) by (eapply (sorted_le h (kl ++ kr) (length kl) (length kl + i)); [done|lia|by rewrite lookup_app_r, Nat.sub_diag by lia|by rewrite lookup_app_r, Nat.add_sub_swap, Nat.sub_diag by lia]).
    assert (Hsg : (0 <=? IxKey.sign (IxKey.lex (kv h key) (kv h nk))) = true) by (rewrite IxKey.lex_antisym; by destruct (IxKey.lex (kv h nk) (kv h key))). rewrite Hsg. eapply held_page_no; [exact Hh|exact H_r|]. by apply (Hfin r (set_pairs kr rr ndr)).
Qed.
End spill.

(** ** Insertion *)

Section insertion.
Context {S : Type} {PS : PageStore S} {PL : PageStoreLaws S}.
Context (h : IxFileHdr) (Hg : geo h) (Hc : cols h).
Local Open Scope prog_scope.
Abbreviation filled g R np s B := (filled h g R np s h B).

Lemma ins_here {A} m (x : A) l : (m <= length l)%nat -> ins m x l !! m = Some x.
Proof. intros Hm. rewrite lookup_ins by done. by rewrite decide_False, decide_True by lia. Qed.
Lemma pair_swap (l r : Z) (pl pr : page_ptr) : l <> r -> <[r := pr]> ({[l := pl]} : gmap Z page_ptr) = <[l := pl]> {[r := pr]}.
Proof. intros Hne. apply map_eq. intros i. rewrite !lookup_insert, !lookup_singleton. repeat case_decide; congruence. Qed.
Lemma pair_delete (l r : Z) (pl pr : page_ptr) : l <> r -> let H := <[l := pl]> ({[r := pr]} : gmap Z page_ptr) in delete l H !! r = Some pr /\ delete r (delete l H) = ∅ /\ delete r H !! l = Some pl /\ delete l (delete r H) = ∅.
Proof.
  intros Hne H. split_and!; [|apply map_eq; intros i|..|apply map_eq; intros i]; unfold H; rewrite ?lookup_empty, ?lookup_delete, ?lookup_insert, ?lookup_singleton; repeat case_decide; congruence || done.
Qed.

(** a neighbour of the full leaf *)
Lemma neighbour_cases ps n root leaf lo hi nd nb : twf h ps n root -> path ps n root None None 0 leaf lo hi -> ps !! leaf = Some nd -> nb = an_prev nd \/ nb = an_next nd ->
  nb = IX_NO_PAGE \/ exists x, ps !! nb = Some x /\ nb <> leaf /\ nb <> IX_NO_PAGE /\ nb ∈ leaves ps n root /\ an_leaf x = true /\ (nb = an_next nd -> an_prev x = leaf).
Proof.
  intros Hw Hp Hnd Hnb. assert (Hlv : nb = IX_NO_PAGE \/ nb ∈ leaves ps n root /\ nb <> leaf) by (destruct Hnb as [->| ->]; [by eapply prev_level|by eapply next_level]).
  destruct Hlv as [?|[Hin Hne]]; [by left|right]. destruct (level_page _ _ _ _ _ Hin) as [x Hx]. exists x. split_and!; try done.
  - intros ->. by rewrite (tw_pages _ _ _ _ Hw) in Hx.
  - by destruct (leaf_lengths h ps n root n nb x Hw Hin eq_refl Hx).
  - intros ->. destruct (node_level h ps n root Hw 0 leaf lo hi Hp nd Hnd) as (l1 & l2 & E & En). destruct l2 as [|q l2]; simpl in En; [rewrite En, (tw_pages _ _ _ _ Hw) in Hx; done|]. rewrite En in Hx. pose proof (tw_levels _ _ _ _ Hw 0) as Hch. rewrite E in Hch.
    replace (l1 ++ leaf :: q :: l2) with ((l1 ++ [leaf]) ++ q :: l2) in Hch by (by rewrite <- app_assoc). rewrite (chain_prev _ _ _ _ _ _ Hx Hch). by rewrite last_snoc.
Qed.

Section overflow.
Context (g R np : Z) (s : S) (B : gmap Z (list Z)) (ps : gmap Z anode) (n : nat) (leaf : Z) (p : page_ptr) (nd : anode) (m : nat) (key : list Z) (rid : Rid) (lo hi : option (list Z)).
Context (Hfl : filled g R np s B ps n leaf p nd m key rid lo hi) (Hover : zlen (an_keys nd) = btree_order_ h + 1) (fuel : nat) (Hf : (n < fuel)%nat) (HR : 4 <= R).
Abbreviation done_at o t := (exists pn, o = Some pn /\ settled h g R ps n (root_page_ h) key rid pn t).

(** a neighbour that has room is pinned too *)
Lemma peek_room nb x (X : page_ptr -> Prog (Ix.St (S:=S)) (option Z)) : ps !! nb = Some x -> nb <> leaf -> zlen (an_keys x) < btree_order_ h -> an_leaf x = true ->
  (forall q s', held g R np s' B (<[nb := q]> {[leaf := p]}) -> runs (X q) (s', mkIxIndexHandle g h) (fun o t => done_at o t)) ->
  runs (let* q := Ix.fetch_node nb in let* n := Ix.size_of q in let* m := Ix.on_node q IxNode.get_max_key_size in if n <? m then X q else Ix.release_node_handle q false;; ret None) (s, mkIxIndexHandle g h) (fun o t => done_at o t).
Proof.
  intros Hx Hne Hroom Hlx HX. pose proof (fl_grove _ _ _ _ _ _ _ _ _ _ _ _ _ _ _ _ _ Hfl) as [Hh _ _ Hb _ _ _]. destruct (Hb _ _ Hx) as (b & HB & Hr). unfold Ix.size_of.
  eapply held_fetch; [exact Hh|by apply lookup_singleton_ne|exact HB|rewrite map_size_singleton; lia|]. intros q s1 Hh1 _ _. eapply held_read; [exact Hh1|apply lookup_insert_eq|exact HB|by apply (nrep_size h)|].
  eapply held_read; [exact Hh1|apply lookup_insert_eq|exact HB|exact (max_key_ok h _ _ Hr)|]. unfold limit. rewrite Hlx, (proj2 (Z.ltb_lt _ _)) by lia. by apply HX.
Qed.

Lemma over_leaf : leaf ∈ leaves ps n (root_page_ h) /\ length (an_rids nd) = length (an_keys nd) /\ (key, rid) ∈ zip (an_keys nd) (an_rids nd).
Proof.
  pose proof Hfl as [Hv Hp Hnd _ _ _ Hk Hr _ _ _ _]. pose proof Hv as [_ _ _ _ Hw _ _]. assert (Hin : leaf ∈ leaves ps n (root_page_ h)) by (eapply path_level; [exact Hp|by eexists]). split; [done|]. split; [by destruct (leaf_lengths h ps n _ n leaf nd Hw Hin eq_refl Hnd)|].
  apply list_elem_of_lookup. exists m. by rewrite lookup_zip_with, Hk, Hr.
Qed.

Lemma try_left_room x : ps !! an_prev nd = Some x -> an_prev nd <> leaf -> an_prev nd <> IX_NO_PAGE -> an_prev nd ∈ leaves ps n (root_page_ h) -> an_leaf x = true -> zlen (an_keys x) < btree_order_ h ->
  runs (Ix.try_left fuel key p) (s, mkIxIndexHandle g h) (fun o t => done_at o t).
Proof.
  intros Hx Hne Hno Hlv Hlx Hroom. pose proof Hfl as [Hv Hp Hnd Hlf _ Hgood _ _ Hfit Hne0 _ _]. pose proof Hv as [Hh _ Hfr Hb Hw Hla Hfi]. destruct over_leaf as (Hlv2 & Hlen2 & Hin). destruct (leaf_lengths h ps n _ n _ x Hw Hlv eq_refl Hx) as [_ Hlen1].
  destruct (Hb _ _ Hnd) as (b & HB & Hr). unfold Ix.try_left. eapply held_read; [exact Hh|apply lookup_singleton_eq|exact HB|by apply (nrep_prev h)|]. rewrite (proj2 (Z.eqb_neq _ _) Hno). eapply (peek_room (an_prev nd) x); try done. intros q s1 Hh1.
  eapply runs_bind; [eapply (redistribute_runs h Hg Hc g R np ps n Hw (an_prev nd) leaf q p x nd Hx Hnd Hne eq_refl Hno Hlv Hlv2 HR fuel); try done; try lia|].
  - intros i y Hy Hi1 Hi2. by apply (Hfit i).
  - intros [] t Hs. destruct (pair_delete (an_prev nd) leaf q p Hne) as (D1 & D2 & _). eapply spilled_done with (l := an_prev nd) (r := leaf) (a := an_prev nd) (b := leaf); try done; [|apply lookup_insert_eq].
    rewrite zip_with_app by done. apply elem_of_app. by right.
Qed.

Lemma try_right_room x : ps !! an_next nd = Some x -> an_next nd <> leaf -> an_next nd <> IX_NO_PAGE -> an_next nd ∈ leaves ps n (root_page_ h) -> an_leaf x = true -> an_prev x = leaf -> zlen (an_keys x) < btree_order_ h ->
  runs (Ix.try_right fuel key p) (s, mkIxIndexHandle g h) (fun o t => done_at o t).
Proof.
  intros Hx Hne Hno Hlv Hlx Hpx Hroom. pose proof Hfl as [Hv Hp Hnd Hlf _ Hgood _ _ Hfit Hne0 _ _]. pose proof Hv as [Hh _ Hfr Hb Hw Hla Hfi]. destruct over_leaf as (Hlv2 & Hlen2 & Hin). destruct (leaf_lengths h ps n _ n _ x Hw Hlv eq_refl Hx) as [_ Hlen1].
  assert (Hlno : leaf <> IX_NO_PAGE) by (intros E; rewrite E, (tw_pages _ _ _ _ Hw) in Hnd; done).
  destruct (Hb _ _ Hnd) as (b & HB & Hr). unfold Ix.try_right. eapply held_read; [exact Hh|apply lookup_singleton_eq|exact HB|by apply (nrep_next h)|]. rewrite (proj2 (Z.eqb_neq _ _) Hno). eapply (peek_room (an_next nd) x); try done. intros q s1 Hh1. rewrite pair_swap in Hh1 by done.
  eapply runs_bind; [eapply (redistribute_runs h Hg Hc g R np ps n Hw leaf (an_next nd) p q nd x Hnd Hx (not_eq_sym Hne) Hpx Hlno Hlv2 Hlv HR fuel); try done; try lia|].
  - intros i y Hy Hi1 Hi2. by apply (Hfit i).
  - intros [] t Hs. destruct (pair_delete leaf (an_next nd) p q (not_eq_sym Hne)) as (_ & _ & D1 & D2). eapply spilled_done with (l := leaf) (r := an_next nd) (a := an_next nd) (b := leaf); try done; [|rewrite lookup_insert_ne by done; apply lookup_singleton_eq].
    rewrite zip_with_app by done. apply elem_of_app. by left.
Qed.
End overflow.

Lemma overflow_runs g R np s B leaf p ps n nd lo hi m key r fuel : filled g R np s B ps n leaf p nd m key r lo hi -> zlen (an_keys nd) = btree_order_ h + 1 -> (n < fuel)%nat -> 4 <= R ->
  runs (let* o := Ix.try_left fuel key p in
        match o with
        | Some insert_id => ret insert_id
        | None =>
            let* o := Ix.try_right fuel key p in
            match o with
            | Some insert_id => ret insert_id
            | None =>
                let* new_ix_hdl := Ix.split fuel p in
                let* insert_id := Ix.landed key p new_ix_hdl in
                Ix.release_node_handle new_ix_hdl true;;
                Ix.release_node_handle p true;;
                ret insert_id
            end
        end) (s, mkIxIndexHandle g h) (settled h g R ps n (root_page_ h) key r).
Proof.
  intros Hfl Hover Hf HR. pose proof Hfl as [Hv Hp Hnd Hlf Hs Hgood Hk Hr Hfit Hne0 Hroom Hnp]. pose proof Hv as [Hh Hl Hfr Hb Hw Hla Hfi]. assert (Hcard : Z.of_nat (stdpp.base.size ({[leaf := p]} : gmap Z page_ptr)) < R) by (rewrite map_size_singleton; lia).
  pose proof (fun nb => neighbour_cases ps n _ leaf lo hi nd nb Hw Hp Hnd) as Hnb. assert (Hfull : forall nb, nb = an_prev nd \/ nb = an_next nd -> full_or_none h ps {[leaf := p]} nb \/
    exists x, ps !! nb = Some x /\ nb <> leaf /\ nb <> IX_NO_PAGE /\ nb ∈ leaves ps n (root_page_ h) /\ an_leaf x = true /\ (nb = an_next nd -> an_prev x = leaf) /\ zlen (an_keys x) < btree_order_ h).
  { intros nb Hn. destruct (Hnb nb Hn) as [->|(x & Hx & H1 & H2 & H3 & H4 & H5)]; [left; by left|]. destruct (Z.lt_ge_cases (zlen (an_keys x)) (btree_order_ h)) as [Hlt|Hge]; [right; by exists x|left; right]. exists x. rewrite lookup_singleton_ne by done. unfold limit. by rewrite H4. }
  destruct (Hfull (an_prev nd)) as [Hpv|(x & Hx & H1 & H2 & H3 & H4 & _ & H6)]; [by left| |].
  - eapply runs_bind; [eapply (try_left_none h g R np s B _ h ps leaf p nd); try done; apply lookup_singleton_eq|]. intros o t (-> & s1 & -> & Hh1). assert (Hfl1 : filled g R np s1 B ps n leaf p nd m key r lo hi) by (by split).
    destruct (Hfull (an_next nd)) as [Hnx|(x & Hx & H1 & H2 & H3 & H4 & H5 & H6)]; [by right| |].
    + eapply runs_bind; [eapply (try_right_none h g R np s1 B _ h ps leaf p nd); try done; apply lookup_singleton_eq|]. intros o t (-> & s2 & -> & Hh2). eapply (split_leaf_runs h Hg Hc); [|done|done]. by split.
    + eapply runs_bind; [eapply (try_right_room g R np s1 B ps n leaf p nd m key r lo hi Hfl1 Hover fuel Hf HR x); auto|]. intros o t (pn & -> & Hset). by rstep.
  - eapply runs_bind; [by eapply (try_left_room g R np s B ps n leaf p nd m key r lo hi Hfl Hover fuel Hf HR x)|]. intros o t (pn & -> & Hset). by rstep.
Qed.

(** when the pair is in its leaf no leaf is empty *)
Lemma filled_nonempty ps n root leaf nd ks rs m key lo hi : path ps n root None None 0 leaf lo hi -> ps !! leaf = Some nd -> leaves (<[leaf := set_pairs ks rs nd]> ps) n root = leaves ps n root -> ks !! m = Some key ->
  (forall p x, p ∈ leaves ps n root -> ps !! p = Some x -> an_keys x = [] -> leaves ps n root = [p]) -> nonempty (<[leaf := set_pairs ks rs nd]> ps) (leaves (<[leaf := set_pairs ks rs nd]> ps) n root).
Proof.
  intros Hp Hnd -> Hk Hfu q x Hq Hx. destruct (decide (leaf = q)) as [<-|Hne]; [rewrite lookup_insert_eq in Hx; injection Hx as <-; simpl; by intros ->|]. rewrite lookup_insert_ne in Hx by done. intros E. pose proof (Hfu q x Hq Hx E) as El.
  assert (Hin : leaf ∈ leaves ps n root) by (eapply path_level; [exact Hp|by eexists]). rewrite El in Hin. set_solver.
Qed.

Lemma insert_entry_total s hd ps n key r fuel : ix_hdr_ hd = h -> tree_ok s hd ps n -> (n < fuel)%nat -> key_good h key -> Log.rid_ok r -> ~ present h ps n key ->
  2 * Z.of_nat n + 4 <= ps_room s -> ps_npages s (ix_fd_ hd) + Z.of_nat n + 2 <= 2 ^ 19 ->
  runs (Ix.insert_entry fuel key r) (s, hd) (inserted (ps_room s) hd ps n key r).
Proof.
  intros Ehd Hlk Hf Hk Hrid Habs HR Hnp. pose proof Hlk as [Hi _ Hw Hla Hfi Hfr Hfit Hfu]. rewrite Ehd in *. unfold Ix.insert_entry. eapply runs_bind; [apply (find_leaf_runs h Hg Hc s hd ps n); [done|done|lia]|].
  intros p t (s1 & s' & leaf & nd & b & Ha). destruct (leaf_facts h Hc _ _ _ _ _ _ _ _ _ _ _ _ Ha) as (lo0 & hi0 & Hs & Hlf & Hlen & _ & _ & He). pose proof (al_state _ _ _ _ _ _ _ _ _ _ _ _ _ Ha) as ->.
  pose proof (al_route _ _ _ _ _ _ _ _ _ _ _ _ _ Ha) as Hrt. pose proof (al_leaf _ _ _ _ _ _ _ _ _ _ _ _ _ Ha) as Hnd. pose proof (al_rep _ _ _ _ _ _ _ _ _ _ _ _ _ Ha) as Hrep.
  destruct (leaf_held s hd ps n key p s1 s' leaf nd b Hlk) as (B & Hh & Hb & HB); [by rewrite Ehd|]. rewrite Ehd in Hb. destruct (route_path h ps n (root_page_ h) None None key leaf (tw_sub _ _ _ _ Hw)) as (lo & hi & Hp & Hbk); [by split|done|].
  assert (Hfr' : ~ holds h (an_keys nd) key) by (intros Hx; apply Habs; by apply (fresh_in_leaf h ps n leaf nd key Hnd Hlen He)). pose proof (Hfit leaf nd Hnd) as Hfl. unfold fit, limit in Hfl. rewrite Hlf in Hfl.
  destruct (insert_ok h Hg Hc nd b key r Hrep Hlf Hs Hfl Hk Hrid Hfr') as (m & b' & E & Hm & _ & Hrep' & Hs'). set (ks := ins m key (an_keys nd)) in *. set (rs := ins m r (an_rids nd)) in *. set (nd1 := set_pairs ks rs nd) in *.
  destruct (leaf_twf h ps n (root_page_ h) leaf nd ks rs lo hi Hw Hp Hnd) as (Hw1 & Hp1 & Hl1 & pre & suf & E1 & E2).
  { apply sub_leaf; try done; [unfold ks, rs; rewrite !length_ins by lia; lia|]. destruct (path_sub h _ _ _ _ _ _ _ _ _ Hp (tw_sub _ _ _ _ Hw)) as (x & Hx & _ & Hin & _). rewrite Hnd in Hx. injection Hx as <-. intros x Hx. apply elem_of_ins in Hx as [->|Hx]; [done|by apply Hin|lia]. }
  destruct hd as [g h0]. simpl in Ehd. subst h0. simpl in Hh, Hnp.
  assert (Hins : forall pn t, settled h g (ps_room s) (<[leaf := nd1]> ps) n (root_page_ h) key r pn t -> inserted (ps_room s) (mkIxIndexHandle g h) ps n key r pn t).
  { intros pn t (s2 & h2 & ps2 & n2 & x & -> & Hlk2 & HR2 & Hl2 & Hn2 & He2 & Hx2). exists s2, (mkIxIndexHandle g h2), ps2, n2, (pre ++ take m (zip (an_keys nd) (an_rids nd))), (drop m (zip (an_keys nd) (an_rids nd)) ++ suf), x.
    split_and!; try done; try apply Hx2; simpl; [rewrite E1; by rewrite <- (take_drop m (zip (an_keys nd) (an_rids nd))) at 1; rewrite <- !app_assoc|].
    etrans; [exact He2|]. etrans; [exact E2|]. unfold ks, rs. rewrite zip_ins by lia. unfold ins. by rewrite <- !app_assoc. }
  eapply runs_conseq; [|exact Hins]. clear Hins. destruct (held_on_eq g (ps_room s) _ s' B {[leaf := p]} (mkIxIndexHandle g h) leaf p b (fun h => IxNode.insert h key r) _ b' Hh (lookup_singleton_eq _ _) HB E (nr_page _ _ _ Hrep')) as (s2 & E' & Hh2).
  assert (Hne1 : nonempty (<[leaf := nd1]> ps) (leaves (<[leaf := nd1]> ps) n (root_page_ h))) by (apply (filled_nonempty ps n (root_page_ h) leaf nd ks rs m key lo hi); [done|done|exact Hl1|by apply ins_here|done]).
  assert (Hfl1 : filled g (ps_room s) (ps_npages s g) s2 (<[leaf := b']> B) (<[leaf := nd1]> ps) n leaf p nd1 m key r lo hi).
  { split; try done; [split; try done|..].
    - by apply brep_insert.
    - etrans; [exact (f_equal last Hl1)|done].
    - etrans; [exact (f_equal head Hl1)|done].
    - apply lookup_insert_eq.
    - by apply ins_here.
    - apply ins_here. lia.
    - intros q x Hx Hq. rewrite lookup_insert_ne in Hx by done. by apply (Hfit q).
    - lia.
    - pose proof (held_bound h _ _ _ _ _ _ ps leaf Hh Hb ltac:(by eexists)). lia. }
  eapply runs_bind_eq; [unfold try_catch; by rewrite E'|]. cbn beta iota. eapply held_read; [exact Hh2|apply lookup_singleton_eq|apply lookup_insert_eq|exact (max_key_ok h _ _ Hrep')|]. unfold limit. simpl an_leaf. rewrite Hlf.
  assert (Hz1 : zlen ks = zlen (an_keys nd) + 1) by (unfold ks, zlen; rewrite length_ins by lia; lia). destruct (Z.ltb_spec (btree_order_ h) (zlen (an_keys nd) + 1)) as [Hbig|Hsmall].
  - rstep; [apply Z.eqb_eq; lia|]. eapply overflow_runs; [exact Hfl1|simpl; lia|done|lia].
  - eapply held_page_no; [exact Hh2|apply lookup_singleton_eq|]. eapply held_release; [exact Hh2|apply lookup_singleton_eq|done|]. intros s3 Hh3. rewrite delete_singleton_eq in Hh3. rstep.
    exists s3, h, (<[leaf := nd1]> ps), n, nd1. split; [done|]. split; [|split; [by apply (held_rest g _ (ps_npages s g) s3 (<[leaf := b']> B))|split; [apply like_same|split; [by left|split; [done|split; [apply lookup_insert_eq|split; [done|]]]]]]].
    + pose proof Hfl1 as [Hv1 _ _ _ _ _ _ _ Hfit1 _ _ _]. eapply (grove_ok h g); [by destruct Hv1|lia| |exact Hne1]. intros q x Hx. destruct (decide (q = leaf)) as [->|Hq]; [|by apply (Hfit1 q)].
      rewrite lookup_insert_eq in Hx. injection Hx as <-. unfold fit, limit. simpl. rewrite Hlf. lia.
    + apply list_elem_of_lookup. exists m. rewrite lookup_zip_with. simpl. unfold ks, rs. by rewrite !ins_here by lia.
Qed.
End insertion.
End IxW.
Import IxW.

(** ** What a range scan needs *)

Section scan.
Context {S : Type} {PS : PageStore S} {PL : PageStoreLaws S}.

Lemma level_leaves h ps n pn lo hi : sub h ps n pn lo hi -> walk (see_level 0) ps n pn = IxR.leaves ps n pn.
Proof.
  revert pn lo hi. induction n as [|n IH]; intros pn lo hi (nd & Hnd & _ & _ & Hk); [by rewrite (level_here _ _ _ _ Hnd)|]. destruct Hk as (_ & _ & Hch).
  rewrite (walk_S _ _ _ _ _ Hnd). cbn [IxR.leaves]. rewrite Hnd. unfold see_level at 1, below. simpl. f_equal. apply list_fmap_ext. intros i r Hr. by eapply IH, Hch.
Qed.

(** a tree at rest has its leaves linked as a range scan follows them *)
Lemma tree_ok_linked s hd ps n : tree_ok s hd ps n -> IxR.linked (ix_hdr_ hd) ps (IxR.leaves ps n (root_page_ (ix_hdr_ hd))).
Proof.
  intros [Hi _ Hw Hla Hfi _ _ Hfu]. set (h := ix_hdr_ hd) in *. rewrite <- (level_leaves h _ _ _ None None (tw_sub _ _ _ _ Hw)). split; try done.
  - intros i p nd Hp Hnd. pose proof (take_drop_middle _ _ _ Hp) as E. pose proof (tw_levels _ _ _ _ Hw 0) as Hch. rewrite <- E in Hch. rewrite (chain_next _ _ _ _ _ _ Hnd Hch). rewrite <- (Nat.add_0_r (Datatypes.S i)) at 2. rewrite <- lookup_drop. by destruct (drop _ _).
  - intros i p Hp E. pose proof (list_elem_of_lookup_2 _ _ _ Hp) as Hin. destruct (level_path h ps n _ None None 0 p (tw_sub _ _ _ _ Hw) Hin) as (lo & hi & Hpath). destruct (path_sub h _ _ _ _ _ _ _ _ _ Hpath (tw_sub _ _ _ _ Hw)) as (x & Hx & _ & _ & _ & Hlen).
    apply (Hfu p x Hin Hx). unfold IxR.pairs in E. simpl in E. rewrite Hx in E. apply (f_equal length) in E. rewrite length_zip in E. apply nil_length_inv. simpl in E. lia.
  - by apply (level_nodup h).
  - by apply (level_real h).
Qed.

(** the empty leaf of a new index is such a tree *)
Lemma lone_leaf_ok s (h : IxFileHdr) g nd b : ps_inv s -> ps_file s g -> ps_page s (mkPageId g (root_page_ h)) b -> ps_pins s (mkPageId g (root_page_ h)) = 0 -> 0 < ps_room s -> nrep h nd b -> an_leaf nd = true -> sorted h (an_keys nd) ->
  an_parent nd = IX_NO_PAGE -> an_prev nd = IX_NO_PAGE -> an_next nd = IX_NO_PAGE -> zlen (an_keys nd) <= btree_order_ h -> root_page_ h <> IX_NO_PAGE -> first_leaf_ h = root_page_ h -> last_leaf_ h = root_page_ h -> first_free_page_no_ h = IX_NO_PAGE ->
  tree_ok s (mkIxIndexHandle g h) {[root_page_ h := nd]} 0.
Proof.
  intros Hi Hf Hb Hp Hroom Hr Hl Hs Epar Eprev Enext Hcap Hno E1 E2 Hfree. pose proof (irep_leaf s h g nd b Hi Hb Hp Hroom Hr Hl Hs) as Hrep. pose proof (lookup_singleton_eq (M := gmap Z) (root_page_ h) nd) as Hnd.
  assert (Hlv : forall k, walk (see_level k) {[root_page_ h := nd]} 0 (root_page_ h) = if (0 =? k)%nat then [root_page_ h] else []) by (intros k; simpl; rewrite Hnd; by rewrite app_nil_r).
  split; cbn [ix_hdr_ ix_fd_]; try done; [|rewrite Hlv; by rewrite ?E1, ?E2..|intros p x [<- <-]%lookup_singleton_Some; unfold fit, limit; by rewrite Hl|rewrite Hlv; simpl; intros p x ->%list_elem_of_singleton _ _; done].
  split; [apply Hrep|..].
  - simpl. rewrite Hnd. apply NoDup_singleton.
  - intros k. rewrite Hlv. destruct (0 =? k)%nat; [|done]. split; [|done]. by exists nd.
  - simpl. rewrite Hnd. constructor.
  - constructor; [|constructor]. by exists nd.
  - by apply lookup_singleton_ne.
Qed.
End scan.

(** ** Frames *)

Section framing.
Context {S : Type} {PS : PageStore S} {PL : PageStoreLaws S}.

(** a tree notices the pages of its file only *)
Lemma tree_ok_apart G s s' hd ps n : tree_ok s hd ps n -> Within.apart_from G s s' -> ix_fd_ hd ∉ G -> ps_inv s' -> 0 < ps_room s' -> tree_ok s' hd ps n.
Proof.
  intros [[_ Hh Hp _ Ht Hd] Hf Hw Hla Hfi Hfr Hfit Hfu] [P Q _ F] Hg Hi Hr. split; auto. split; auto. intros i nd Hnd. destruct (Hp i nd Hnd) as (b & Hb & Hrep & Hz). exists b. split; [by apply P|]. split; [done|]. by rewrite Q.
Qed.
Lemma tree_ok_calm s s' hd ps n : tree_ok s hd ps n -> RmP.calm s s' -> tree_ok s' hd ps n.
Proof.
  intros [[_ Hh Hp Hr Ht Hd] Hf Hw Hla Hfi Hfr Hfit Hfu] [Hi P Q Rm _ F]. split; auto. split; auto; [|lia]. intros i nd Hnd. destruct (Hp i nd Hnd) as (b & Hb & Hrep & Hz). exists b. split; [by apply P|]. split; [done|]. by rewrite Q.
Qed.

Context (C : S -> Prop) (HC : RmP.framed C).
Abbreviation frame g s0 := (Within.within g s0 C (RmP.framed_framed_in g C HC)).

Lemma tree_ok_within s hd ps n : tree_ok s hd ps n -> C s -> tree_ok (PL := frame (ix_fd_ hd) s) s hd ps n.
Proof.
  intros [[Hi Hh Hp Hr Ht Hd] Hf Hw Hla Hfi Hfr Hfit Hfu] HCs. split; try done. split; try done; simpl.
  intros i nd Hnd. destruct (Hp i nd Hnd) as (b & Hb & Hrep & Hz). by exists b.
Qed.
Lemma tree_ok_outside g s0 s hd ps n : tree_ok (PL := frame g s0) s hd ps n -> tree_ok s hd ps n /\ ps_inv s /\ Within.apart_from [g] s0 s /\ C s.
Proof.
  intros [[[Hi [Ha HCs]] Hh Hp Hr Ht Hd] [Hf _] Hw Hla Hfi Hfr Hfit Hfu]. split; [|done]. split; try done. split; try done. intros i nd Hnd. destruct (Hp i nd Hnd) as (b & [Hb _] & Hrep & Hz). by exists b.
Qed.

(** an insertion into one index leaves the other files as they are *)
Lemma insert_entry_apart h s hd ps n key r fuel : geo h -> cols h -> ix_hdr_ hd = h -> tree_ok s hd ps n -> C s -> (n < fuel)%nat -> key_good h key -> Log.rid_ok r -> ~ present h ps n key ->
  2 * Z.of_nat n + 4 <= ps_room s -> ps_npages s (ix_fd_ hd) + Z.of_nat n + 2 <= 2 ^ 19 ->
  runs (Ix.insert_entry fuel key r) (s, hd) (fun pn t => inserted (ps_room s) hd ps n key r pn t /\ Within.apart_from [ix_fd_ hd] s t.1 /\ C t.1).
Proof.
  intros Hg Hc Hh Hok HCs Hf Hk Hr Hno Hroom Hnp.
  eapply runs_conseq; [by apply (insert_entry_total (PL := frame (ix_fd_ hd) s) h Hg Hc s hd ps n key r fuel Hh (tree_ok_within s hd ps n Hok HCs))|].
  intros pn t (s' & hd' & ps' & n' & l1 & l2 & x & -> & Hok' & Hrest). destruct (tree_ok_outside _ _ _ _ _ _ Hok') as (Hok2 & _ & Ha & HC'). split; [|done]. by exists s', hd', ps', n', l1, l2, x.
Qed.

(** and so does a lookup *)
Lemma is_exist_apart h s hd ps n key fuel : geo h -> cols h -> ix_hdr_ hd = h -> tree_ok s hd ps n -> C s -> (n <= fuel)%nat -> key_good h key ->
  runs (Ix.is_exist fuel key) (s, hd) (fun b t => exists s', t = (s', hd) /\ RmP.calm s s' /\ C s' /\ (b = true <-> present h ps n key)).
Proof.
  intros Hg Hc Hh Hok HCs Hf Hk. pose proof (tk_rep _ _ _ _ Hok) as Hi. pose proof (tk_rep _ _ _ _ (tree_ok_within s hd ps n Hok HCs)) as Hi'. rewrite Hh in Hi, Hi'.
  destruct (is_exist_runs (PL := frame (ix_fd_ hd) s) h Hg Hc s hd ps n key fuel Hk Hi' Hf) as (b & t & E & s' & -> & Hcalm & Hb). destruct (is_exist_runs h Hg Hc s hd ps n key fuel Hk Hi Hf) as (b2 & t2 & E2 & s2 & -> & Hcalm2 & Hb2).
  rewrite E in E2. injection E2 as <- <-. exists b, (s', hd). split; [done|]. exists s'. split; [done|]. split; [done|]. split; [|done]. by destruct Hcalm as [[_ [_ ?]] _ _ _ _ _].
Qed.
End framing.

(** ** Properties *)

Section props.
Context {S : Type} {PS : PageStore S} {PL : PageStoreLaws S}.

(** C13: inserting a key that is not in the tree always succeeds, whatever the leaf holds: a leaf with room takes the pair, a full
    leaf hands pairs to a neighbour with room and the key above both is corrected, and otherwise the leaf is split, then its
    parent when that is full too, and so on up to a new root.  In every case the entries are those of before with the new one at
    its place in the order, the new one is in the leaf whose page is returned, a lookup finds it, and the tree is well formed
    again: balanced, no node overfull, parents and both neighbours of every node right, the leaves chained from the header's first
    to its last as a range scan needs them, every page unpinned, and the other files untouched.  The pool must have two free frames per level and four more, and
    the file may not be at its limit of pages. *)
Theorem ix_insert_total s hd ps n key r fuel : let h := ix_hdr_ hd in
  geo h -> cols h -> tree_ok s hd ps n -> (n < fuel)%nat -> key_good h key -> Log.rid_ok r -> ~ present h ps n key ->
  2 * Z.of_nat n + 4 <= ps_room s -> ps_npages s (ix_fd_ hd) + Z.of_nat n + 2 <= 2 ^ 19 ->
  exists pn s' hd' ps' n' l1 l2 x t, let root' := root_page_ (ix_hdr_ hd') in
    Ix.insert_entry fuel key r (s, hd) = (Ok pn, (s', hd')) /\ tree_ok s' hd' ps' n' /\ ps_room s' = ps_room s /\ Within.apart_from [ix_fd_ hd] s s' /\ ix_fd_ hd' = ix_fd_ hd /\ like h (ix_hdr_ hd') /\ (n' = n \/ n' = Datatypes.S n) /\
    entries ps n (root_page_ h) = l1 ++ l2 /\ entries ps' n' root' = l1 ++ (key, r) :: l2 /\ ordered h (entries ps' n' root') /\
    ps' !! pn = Some x /\ an_leaf x = true /\ (key, r) ∈ zip (an_keys x) (an_rids x) /\
    IxR.linked (ix_hdr_ hd') ps' (IxR.leaves ps' n' root') /\ Ix.get_value fuel key (s', hd') = (Ok (true, [r]), t).
Proof.
  intros h Hg Hc Hok Hf Hk Hr Hno Hroom Hnp.
  destruct (insert_entry_apart any any_framed h s hd ps n key r fuel Hg Hc eq_refl Hok I Hf Hk Hr Hno Hroom Hnp) as (pn & t & E & (s' & hd' & ps' & n' & l1 & l2 & x & -> & Hok' & HR' & Hfd & Hl & Hn & E1 & E2 & Hx & Hlf & Hin) & Hap & _).
  pose proof (tk_rep _ _ _ _ Hok') as Hi'. pose proof (like_geo _ _ Hl Hg) as Hg'. pose proof (like_cols _ _ Hl Hc) as Hc'.
  destruct (get_value_present (ix_hdr_ hd') Hg' Hc' s' hd' ps' n' key key r fuel Hi') as [t Et]; [lia|by eapply like_good|rewrite E2; apply elem_of_app; right; left|done|].
  exists pn, s', hd', ps', n', l1, l2, x, t. split_and!; try done; [|by apply (tree_ok_linked s')]. eapply (entries_ordered h Hc), like_sub; [by apply like_sym|apply Hi'].
Qed.
End props.

(** a tree of order 3 whose root is a full leaf *)
Definition full_ix : IxFileHdr := mkIxFileHdr IX_NO_PAGE 2 1 1 [TYPE_INT] [4] 4 3 16 1 1 48.
Definition full_rids : list Rid := [mkRid 3 1; mkRid 3 2; mkRid 3 3].
Definition full_node : anode := mkANode IX_NO_PAGE true IX_NO_PAGE IX_NO_PAGE [enc_i32 2; enc_i32 5; enc_i32 7] full_rids.
Definition full_page : list Z :=
  splice 40 (concat (Log.enc_Rid <$> full_rids)) (splice 24 (enc_i32 2 ++ enc_i32 5 ++ enc_i32 7)
    (splice 0 (enc_i32 IX_NO_PAGE ++ enc_i32 IX_NO_PAGE ++ enc_i32 3 ++ enc_i32 1 ++ enc_i32 IX_NO_PAGE ++ enc_i32 IX_NO_PAGE) (zeros PAGE_SIZE))).

Lemma full_geo : geo full_ix.
Proof. by split. Qed.
Lemma full_cols : cols full_ix.
Proof. split; [|done|done]. constructor; [|constructor]. split; [done|]. split; [done|by right]. Qed.
Lemma full_key v : key_good full_ix (enc_i32 v).
Proof. split; [by rewrite zlen_enc_i32|]. split; [apply enc_i32_ok|]. simpl. rewrite zlen_enc_i32. done. Qed.
Lemma full_nrep : nrep full_ix full_node full_page.
Proof.
  split.
  1-6: vm_compute; reflexivity.
  1, 2: intros i k Hi; destruct i as [|[|[|i]]]; [..|done]; injection Hi as <-; vm_compute; reflexivity.
  - vm_compute. discriminate.
  - done.
Qed.
Lemma full_sorted : sorted full_ix (an_keys full_node).
Proof.
  split; [unfold full_node, an_keys; rewrite !Forall_cons; split_and!; [apply full_key..|constructor]|]. intros i j a b Hij Ha Hb. destruct i as [|[|[|i]]], j as [|[|[|j]]]; try lia; simpl in Ha, Hb; try done; injection Ha as <-; injection Hb as <-; by vm_compute.
Qed.

Lemma ix_insert_total_witness : exists (s s' : Store) pn hd' n' t,
  Ix.insert_entry 3 (enc_i32 6) (mkRid 4 1) (s, mkIxIndexHandle 3 full_ix) = (Ok pn, (s', hd')) /\ (n' = 0 \/ n' = 1)%nat /\ Ix.get_value 3 (enc_i32 6) (s', hd') = (Ok (true, [mkRid 4 1]), t).
Proof.
  destruct (put_page demo_rm_store 3 full_page) as (s & I1 & _ & P1 & N1 & R1 & K1 & F1); [apply (RmP.rp_inv _ _ _ _ _ demo_rm_rep)|apply (RmP.rp_file _ _ _ _ _ demo_rm_rep)|done|done|apply full_nrep|]. exists s.
  destruct (ix_insert_total s (mkIxIndexHandle 3 full_ix) {[1 := full_node]} 0 (enc_i32 6) (mkRid 4 1) 3) as (pn & s' & hd' & ps' & n' & l1 & l2 & x & t & E & _ & _ & _ & _ & _ & Hn & _ & _ & _ & _ & _ & _ & _ & Et).
  - exact full_geo.
  - exact full_cols.
  - apply (lone_leaf_ok s full_ix 3 full_node full_page); try done; [apply F1, (RmP.rp_file _ _ _ _ _ demo_rm_rep)|by rewrite R1|exact full_nrep|exact full_sorted].
  - lia.
  - apply full_key.
  - by vm_compute.
  - intros (k & r & Hin & Hk). change (entries {[1 := full_node]} 0 (root_page_ (ix_hdr_ (mkIxIndexHandle 3 full_ix)))) with (zip (an_keys full_node) full_rids) in Hin.
    repeat (apply elem_of_cons in Hin as [[= -> ->]|Hin]; [by vm_compute in Hk|]). by apply not_elem_of_nil in Hin.
  - by rewrite R1.
  - rewrite K1. by vm_compute.
  - exists s', pn, hd', n', t. done.
Defined.
