(* ===== verification/InsIndex.v ===== *)
(** INSERT into a table with indexes: the composition of the record layer, the B+ trees, the locks and the log.

    The executor looks the key of the new record up in each index, inserts the record and then an entry into each
    index.  The files of the table and of its indexes are different ones, and an operation on one of them leaves the
    others as they are ([Within]), so every index has an entry for exactly the records of the table
    ([in_step]) again afterwards. *)

From S2P Require Import Prelude Bytes Errors Disk BufferPool PageStore Defs RmFile.
From S2P Require Import RmPage RmProofs RmProps LogRecord LogManager Lock Text Float32 SmMeta Values.
From S2P Require Import IxDefs IxNode IxTree IxNodeProofs IxTreeProofs IxProps IxManager IxManagerProps.
From S2P Require Import SmState Executor SeqScan Core ExecProps Txn TxnProps TxnAbort Dml DmlProps.
From S2P Require Import IxRange IxGrow IxSplit IxSpill.
Import IxN IxT IxP IxG IxS IxW.

Import RmPage.

Module InsX.
Import AbP InsP.

(** ** Indexes of a table *)

(** a tree with the handle it is reached through *)
Record tree := mkTree { t_hd : IxIndexHandle; t_nodes : gmap Z anode; t_height : nat }.
Abbreviation t_hdr T := (ix_hdr_ (t_hd T)).
Abbreviation t_fd T := (ix_fd_ (t_hd T)).
Definition t_entries (T : tree) : list (list Z * Rid) := entries (t_nodes T) (t_height T) (root_page_ (t_hdr T)).
Abbreviation iname im := (Meta.get_index_name im).

(** the columns of the key, and the key of a record *)
Definition key_cols (im : IndexMeta) : list ColMeta := take (Z.to_nat (im_col_num im)) (im_cols im).
Definition key (im : IndexMeta) (rec : list Z) : list Z := IxMP.key_of (key_cols im) rec.

(** the metadata and the header of an index agree, and its columns are columns of records of [rs] bytes *)
Record suits (im : IndexMeta) (T : tree) (rs : Z) : Prop := {
  su_geo : geo (t_hdr T);
  su_cols : cols (t_hdr T);
  su_num : 0 <= im_col_num im <= zlen (im_cols im);
  su_tot : im_col_tot_len im = IxM.col_tot_len (key_cols im);
  su_len : col_tot_len_ (t_hdr T) = IxM.col_tot_len (key_cols im);
  su_types : col_types_ (t_hdr T) = cm_type <$> key_cols im;
  su_lens : col_lens_ (t_hdr T) = cm_len <$> key_cols im;
  su_range : Forall (fun c => in_range (cm_offset c) (cm_len c) rs = true) (key_cols im);
}.

(** the index is open, its tree is well formed, and the pool and the file have room for one more entry *)
Record ready (ifuel : nat) (c : Core) (ihs : gmap string IxIndexHandle) (im : IndexMeta) (T : tree) : Prop := {
  rd_open : ihs !! iname im = Some (t_hd T);
  rd_tree : tree_ok c (t_hd T) (t_nodes T) (t_height T);
  rd_fuel : (t_height T < ifuel)%nat;
  rd_room : 2 * Z.of_nat (t_height T) + 4 <= ps_room c;
  rd_pages : ps_npages c (t_fd T) + Z.of_nat (t_height T) + 2 <= 2 ^ 19;
}.

(** the index has an entry for each record of the table, and no other one *)
Definition in_step (pages : gmap Z apage) (im : IndexMeta) (T : tree) : Prop :=
  forall k r, (k, r) ∈ t_entries T <-> exists x, RmP.rec_at pages r = Some x /\ k = key im x.

(** no float of the key is NaN *)
Definition no_nan (im : IndexMeta) (rec : list Z) : Prop :=
  forall c, c ∈ key_cols im -> cm_type c = TYPE_FLOAT -> f32_nan (le_value (slice (cm_offset c) (cm_len c) rec)) = false.

(** ** Keys *)

Lemma key_of_len cs rec : Forall (fun c => in_range (cm_offset c) (cm_len c) (zlen rec) = true) cs -> zlen (IxMP.key_of cs rec) = IxM.col_tot_len cs.
Proof.
  induction 1 as [|c cs Hc _ IH]; [done|]. apply in_range_spec in Hc as (? & ? & ?). unfold IxMP.key_of, IxM.col_tot_len in *. rewrite !fmap_cons. cbn [concat foldr]. rewrite zlen_app, IH, zlen_slice by lia. done.
Qed.

Lemma key_ok_of cs rec : forall pre, Forall (fun c => in_range (cm_offset c) (cm_len c) (zlen rec) = true) cs ->
  (forall c, c ∈ cs -> cm_type c = TYPE_FLOAT -> f32_nan (le_value (slice (cm_offset c) (cm_len c) rec)) = false) ->
  IxKey.key_ok_from (cm_type <$> cs) (cm_len <$> cs) (zlen pre) (pre ++ IxMP.key_of cs rec).
Proof.
  induction cs as [|c cs IH]; intros pre Hin Hnan; [done|]. apply Forall_cons in Hin as [Hc Hin]. pose proof (key_of_len cs rec Hin) as Hlen. apply in_range_spec in Hc as (H1 & H2 & H3).
  set (b := slice (cm_offset c) (cm_len c) rec) in *. assert (Hb : zlen b = cm_len c) by (apply zlen_slice; lia). unfold IxMP.key_of in *. rewrite !fmap_cons. cbn [concat]. set (ks := concat _) in *. fold b.
  cbn [IxKey.key_ok_from]. pose proof (zlen_nonneg pre). pose proof (zlen_nonneg ks). split; [rewrite !zlen_app; lia|]. split.
  - intros Hf. rewrite slice_app_r, Z.sub_diag by lia. rewrite <- Hb, slice_app_l, slice_full by lia. apply (Hnan c); [left|done].
  - rewrite app_assoc. replace (zlen pre + cm_len c) with (zlen (pre ++ b)) by (rewrite zlen_app; lia). apply IH; [done|]. intros d Hd. apply Hnan. by right.
Qed.

Lemma key_of_bytes cs rec : bytes_ok rec -> bytes_ok (IxMP.key_of cs rec).
Proof.
  intros Hb. unfold IxMP.key_of. induction cs as [|c cs IH]; [constructor|]. rewrite fmap_cons. cbn [concat]. apply bytes_ok_app. split; [by apply bytes_ok_slice|done].
Qed.

Lemma key_good_key im T rec : suits im T (zlen rec) -> bytes_ok rec -> no_nan im rec -> key_good (t_hdr T) (key im rec).
Proof.
  intros Hs Hb Hn. destruct Hs. split; [rewrite su_len0; by apply key_of_len|]. split; [by apply key_of_bytes|]. rewrite su_types0, su_lens0. exact (key_ok_of (key_cols im) rec [] su_range0 Hn).
Qed.

Lemma make_key_eq junk im T rec (s : SmManager Core) : suits im T (zlen rec) -> (forall n, 0 <= n -> zlen (junk n) = n) -> Roll.make_key junk im rec s = (Ok (key im rec), s).
Proof.
  intros Hs Hj. destruct Hs. unfold Roll.make_key. rewrite (proj2 (Z.leb_le _ _)), (proj2 (Z.leb_le _ _)) by lia. erewrite bind_ok by reflexivity. fold (key_cols im).
  rewrite (IxMP.fill_key_ok (key_cols im)); [by erewrite bind_ok by reflexivity|done|]. rewrite su_tot0, Hj; [done|]. rewrite <- (key_of_len _ _ su_range0). apply zlen_nonneg.
Qed.

(** ** The two loops over the indexes *)

Lemma on_index_eq {A} name (m : Prog (Core * IxIndexHandle) A) s hd a c' hd' : ihs_ s !! name = Some hd -> m (sm_core s, hd) = (Ok a, (c', hd')) ->
  SmSt.on_index name m s = (Ok a, SmSt.set_ihs (<[name := hd']> (ihs_ s)) (SmSt.set_core c' s)).
Proof. intros Hn E. unfold SmSt.on_index. by rewrite Hn, E. Qed.
Lemma set_ihs_same name hd c (s : SmManager Core) : ihs_ s !! name = Some hd -> SmSt.set_ihs (<[name := hd]> (ihs_ s)) (SmSt.set_core c s) = SmSt.set_core c s.
Proof. intros Hn. destruct s. simpl in *. by rewrite insert_id. Qed.

Lemma ready_calm ifuel c c' ihs im T : ready ifuel c ihs im T -> RmP.calm c c' -> ready ifuel c' ihs im T.
Proof. intros [] Hc. split; try done; [by eapply tree_ok_calm|by rewrite (RmP.ca_room _ _ Hc)|by rewrite (RmP.ca_npages _ _ Hc)]. Qed.
Lemma ready_apart ifuel G c c' ihs ihs' im T : ready ifuel c ihs im T -> Within.apart_from G c c' -> t_fd T ∉ G -> ps_inv c' -> ps_room c' = ps_room c -> ihs' !! iname im = ihs !! iname im -> ready ifuel c' ihs' im T.
Proof.
  intros [] Ha Hg Hi Hr Hn. split; [congruence| |done|by rewrite Hr|by rewrite (Within.af_npages _ _ _ Ha)]. eapply tree_ok_apart; try done. rewrite Hr. lia.
Qed.

Section loops.
Context (ifuel : nat) (junk : Z -> list Z) (Hjunk : forall n, 0 <= n -> zlen (junk n) = n) (rec : list Z) (Hrec : bytes_ok rec).
Context (C : Core -> Prop) (HC : RmP.framed C).
Abbreviation named x := (x.1, iname x.1).
Abbreviation fds L := ((fun x : IndexMeta * tree => t_fd x.2) <$> L).
Local Open Scope prog_scope.

(** the new record can be entered into the index *)
Definition enterable (x : IndexMeta * tree) : Prop :=
  suits x.1 x.2 (zlen rec) /\ no_nan x.1 rec /\ ~ present (t_hdr x.2) (t_nodes x.2) (t_height x.2) (key x.1 rec).

Lemma check_one s x : ready ifuel (sm_core s) (ihs_ s) x.1 x.2 -> enterable x -> C (sm_core s) ->
  exists c', Ins.check_unique ifuel junk rec (named x) s = (Ok tt, SmSt.set_core c' s) /\ RmP.calm (sm_core s) c' /\ C c'.
Proof.
  intros Hr (Hs & Hnan & Hno) HCs. destruct x as [im T]. cbn [fst snd] in *. pose proof (key_good_key im T rec Hs Hrec Hnan) as Hk. unfold Ins.check_unique. cbn [fst snd].
  rewrite (proj2 (Z.leb_le _ _)) by apply Hs. erewrite bind_ok by reflexivity. rewrite (bind_ok _ _ _ _ _ (make_key_eq junk im T rec s Hs Hjunk)).
  destruct (is_exist_apart C HC (t_hdr T) (sm_core s) (t_hd T) (t_nodes T) (t_height T) (key im rec) ifuel) as (b & t & E & c' & -> & Hcalm & HC' & Hb); try done; [apply Hs|apply Hs|apply Hr|pose proof (rd_fuel _ _ _ _ _ Hr); lia|].
  destruct b; [by destruct Hno; apply Hb|]. exists c'. split; [|done]. rewrite (bind_ok _ _ _ _ _ (on_index_eq _ _ _ _ _ _ _ (rd_open _ _ _ _ _ Hr) E)). by rewrite (set_ihs_same _ _ _ _ (rd_open _ _ _ _ _ Hr)).
Qed.

Lemma check_all L : forall s, Forall (fun x => ready ifuel (sm_core s) (ihs_ s) x.1 x.2 /\ enterable x) L -> ps_inv (sm_core s) -> C (sm_core s) ->
  exists c', for_each ((fun x => named x) <$> L) (Ins.check_unique ifuel junk rec) s = (Ok tt, SmSt.set_core c' s) /\ RmP.calm (sm_core s) c' /\ C c'.
Proof.
  induction L as [|x L IH]; intros s HL Hi HCs; [exists (sm_core s); split; [by destruct s|]; split; [by apply RmP.calm_refl|done]|]. apply Forall_cons in HL as [[Hr He] HL].
  destruct (check_one s x Hr He HCs) as (c1 & E1 & Hc1 & HC1). destruct (IH (SmSt.set_core c1 s)) as (c2 & E2 & Hc2 & HC2); [|apply Hc1|done|].
  { eapply Forall_impl; [exact HL|]. intros y [Hy Hey]. split; [by eapply ready_calm|done]. }
  exists c2. split; [|split; [by eapply RmP.calm_trans|done]]. rewrite fmap_cons. cbn [for_each]. rewrite (bind_ok _ _ _ _ _ E1), E2. by destruct s.
Qed.

(** the entry was added to the index *)
Definition grown (rid : Rid) (c : Core) (ihs : gmap string IxIndexHandle) (x y : IndexMeta * tree) : Prop :=
  y.1 = x.1 /\ ihs !! iname x.1 = Some (t_hd y.2) /\ tree_ok c (t_hd y.2) (t_nodes y.2) (t_height y.2) /\ t_fd y.2 = t_fd x.2 /\ like (t_hdr x.2) (t_hdr y.2) /\
  exists l1 l2, t_entries x.2 = l1 ++ l2 /\ t_entries y.2 = l1 ++ (key x.1 rec, rid) :: l2.

Lemma grown_apart rid G c c' ihs ihs' x y : grown rid c ihs x y -> Within.apart_from G c c' -> t_fd x.2 ∉ G -> ps_inv c' -> 0 < ps_room c' -> ihs' !! iname x.1 = ihs !! iname x.1 -> grown rid c' ihs' x y.
Proof. intros (H1 & H2 & H3 & H4 & H5) Ha Hg Hi Hr Hn. split; [done|]. split; [congruence|]. split; [|done]. eapply tree_ok_apart; try done. by rewrite H4. Qed.

Definition add_entry_of (rid : Rid) (i : IndexMeta * string) : Prog (SmManager Core) unit := assert (0 <=? im_col_num i.1);; Dml.add_key ifuel junk i rec rid.

Lemma add_one s x rid : ready ifuel (sm_core s) (ihs_ s) x.1 x.2 -> enterable x -> C (sm_core s) -> Log.rid_ok rid ->
  exists c' y, add_entry_of rid (named x) s = (Ok tt, SmSt.set_ihs (<[iname x.1 := t_hd y.2]> (ihs_ s)) (SmSt.set_core c' s)) /\ C c' /\ ps_inv c' /\ ps_room c' = ps_room (sm_core s) /\
    Within.apart_from [t_fd x.2] (sm_core s) c' /\ grown rid c' (<[iname x.1 := t_hd y.2]> (ihs_ s)) x y.
Proof.
  intros Hr (Hs & Hnan & Hno) HCs Hrid. destruct x as [im T]. cbn [fst snd] in *. pose proof (key_good_key im T rec Hs Hrec Hnan) as Hk. unfold add_entry_of, Dml.add_key. cbn [fst snd].
  rewrite (proj2 (Z.leb_le _ _)) by apply Hs. erewrite bind_ok by reflexivity. rewrite (bind_ok _ _ _ _ _ (make_key_eq junk im T rec s Hs Hjunk)).
  destruct (insert_entry_apart C HC (t_hdr T) (sm_core s) (t_hd T) (t_nodes T) (t_height T) (key im rec) rid ifuel) as (pn & t & E & (c' & hd' & ps' & n' & l1 & l2 & x & -> & Hok & HR & Hfd & Hl & _ & E1 & E2 & _) & Ha & HC');
    try done; [apply Hs|apply Hs|apply Hr..|]. cbn [fst] in *.
  exists c', (im, mkTree hd' ps' n'). split; [by rewrite (bind_ok _ _ _ _ _ (on_index_eq _ _ _ _ _ _ _ (rd_open _ _ _ _ _ Hr) E))|]. split; [done|]. split; [apply Hok|]. split; [done|]. split; [done|].
  split; [done|]. split; [apply lookup_insert_eq|]. do 3 (split; [done|]). by exists l1, l2.
Qed.

Lemma add_all rid L : Log.rid_ok rid -> forall s, Forall (fun x => ready ifuel (sm_core s) (ihs_ s) x.1 x.2 /\ enterable x) L -> NoDup (fds L) -> NoDup ((fun x => iname x.1) <$> L) -> ps_inv (sm_core s) -> C (sm_core s) ->
  exists c' ihs' L', for_each ((fun x => named x) <$> L) (add_entry_of rid) s = (Ok tt, SmSt.set_ihs ihs' (SmSt.set_core c' s)) /\ C c' /\ ps_inv c' /\ ps_room c' = ps_room (sm_core s) /\ Within.apart_from (fds L) (sm_core s) c' /\
    (forall name, name ∉ (fun x : IndexMeta * tree => iname x.1) <$> L -> ihs' !! name = ihs_ s !! name) /\ Forall2 (grown rid c' ihs') L L'.
Proof.
  intros Hrid. induction L as [|x L IH]; intros s HL Hfd Hnm Hi HCs; [exists (sm_core s), (ihs_ s), []; split_and!; try done; by destruct s|].
  apply Forall_cons in HL as [[Hr He] HL]. rewrite fmap_cons in Hfd. rewrite fmap_cons in Hnm. apply NoDup_cons in Hfd as [Hfd1 Hfd], Hnm as [Hnm1 Hnm].
  destruct (add_one s x rid Hr He HCs Hrid) as (c1 & y & E1 & HC1 & Hi1 & HR1 & Ha1 & Hg1). set (s1 := SmSt.set_ihs _ _) in *.
  destruct (IH s1) as (c2 & ihs2 & L' & E2 & HC2 & Hi2 & HR2 & Ha2 & Hn2 & HF); try done.
  { rewrite Forall_forall in HL |- *. intros z Hz. destruct (HL z Hz) as [Hrz Hez]. split; [|done]. eapply (ready_apart _ _ (sm_core s)); try done.
    - rewrite list_elem_of_singleton. intros E. apply Hfd1. rewrite <- E. by apply (list_elem_of_fmap_2 (fun x : IndexMeta * tree => t_fd x.2)).
    - simpl. rewrite lookup_insert_ne; [done|]. intros E. apply Hnm1. rewrite E. by apply (list_elem_of_fmap_2 (fun x : IndexMeta * tree => iname x.1)). }
  exists c2, ihs2, (y :: L'). split_and!; try done.
  - rewrite fmap_cons. cbn [for_each]. rewrite (bind_ok _ _ _ _ _ E1), E2. by destruct s.
  - by rewrite HR2.
  - rewrite fmap_cons. eapply Within.apart_trans; eapply Within.apart_mono; [|exact Ha1| |exact Ha2]; set_solver.
  - intros nm Hnm'. rewrite fmap_cons, not_elem_of_cons in Hnm'. destruct Hnm' as [Hne Hnm']. rewrite (Hn2 nm Hnm'). simpl. by apply lookup_insert_ne.
  - constructor; [|done]. eapply (grown_apart _ _ c1); try done; [rewrite HR2; simpl; pose proof (ir_room _ _ _ _ _ (tk_rep _ _ _ _ (proj1 (proj2 (proj2 Hg1))))); done|by apply Hn2].
Qed.
End loops.

(** ** INSERT *)

Lemma collect_eq L (s : SmManager Core) : Forall (fun x : IndexMeta * tree => ihs_ s !! iname x.1 = Some (t_hd x.2)) L -> Dml.collect L.*1 s = (Ok ((fun x => iname x.1) <$> L), s).
Proof.
  induction 1 as [|x L Hx _ IH]; [done|]. rewrite !fmap_cons. cbn [Dml.collect]. rewrite (bind_ok _ _ s (iname x.1) s); [|unfold SmSt.ih_at, bind, gets; by rewrite Hx]. by rewrite (bind_ok _ _ _ _ _ IH).
Qed.
Lemma idx_hdls_eq ti L (s : SmManager Core) : writer (sm_latch_ s) = false -> tm_indexes ti = L.*1 -> Forall (fun x : IndexMeta * tree => ihs_ s !! iname x.1 = Some (t_hd x.2)) L ->
  Dml.idx_hdls ti s = (Ok ((fun x => iname x.1) <$> L), s).
Proof.
  intros Hw Hix HL. destruct s as [c d l f i [r w]]. simpl in Hw. subst w. unfold Dml.idx_hdls. rewrite Hix. erewrite bind_ok by reflexivity. erewrite bind_ok by (by apply collect_eq).
  unfold SmSt.unlatch_shared, modify, bind, ret, SmSt.set_sm_latch, SmSt.unlock_shared. simpl. by rewrite Z.add_simpl_r.
Qed.
Lemma zip_named (L : list (IndexMeta * tree)) : zip L.*1 ((fun x => iname x.1) <$> L) = (fun x => (x.1, iname x.1)) <$> L.
Proof. induction L as [|x L IH]; [done|]. rewrite !fmap_cons. cbn [zip zip_with]. by rewrite IH. Qed.

(** after lookups the row may still be inserted *)
Lemma can_insert_calm junk s p t tab ti h pages chain name values b c' : can_insert junk s p t tab ti h pages chain name values b -> RmP.calm (sm_core s) c' ->
  aparts (c_log (sm_core s)) (c_locks (sm_core s)) (c_addrs (sm_core s)) (Fr.names (c_store (sm_core s))) c' -> can_insert junk (SmSt.set_core c' s) p t tab ti h pages chain name values b.
Proof.
  intros [] Hcalm [(E1 & E2 & E3) E4]. split; simpl; rewrite ?E1, ?E2, ?E3, ?E4; try done. eapply (Within.rep_apart _ _ []); [exact ci_rep0|by apply Within.calm_apart|apply not_elem_of_nil|apply Hcalm|done|]. rewrite (RmP.ca_room _ _ Hcalm). apply ci_rep0.
Qed.

(** one more record, one more entry *)
Lemma in_step_grown h pages pages' rid rec c ihs x y : in_step pages x.1 x.2 -> grown rec rid c ihs x y -> RmP.inserted h pages pages' rid rec -> in_step pages' x.1 y.2.
Proof.
  intros Hs (_ & _ & _ & _ & _ & l1 & l2 & E1 & E2) [Hnone Hall] k r. rewrite E2, elem_of_app, elem_of_cons, Hall. specialize (Hs k r). rewrite E1, elem_of_app in Hs. split.
  - intros [H|[[= -> ->]|H]]; [|exists rec; by rewrite decide_True|]; (destruct (proj1 Hs) as (x0 & Hx & ->); [tauto|]); exists x0; (rewrite decide_False; [done|intros ->; congruence]).
  - intros (x0 & Hx & ->). case_decide as Hr; [right; left; congruence|]. destruct (proj2 Hs) as [?|?]; [by exists x0|by left|by right; right].
Qed.

(** the row may be inserted into the table and each of its indexes [L] *)
Record can_index (ifuel : nat) (s : SmManager Core) (ti : TabMeta) (h : RmFileHandle) (pages : gmap Z apage) (L : list (IndexMeta * tree)) (rec : list Z) : Prop := {
  cx_all : tm_indexes ti = L.*1;
  cx_ready : Forall (fun x => ready ifuel (sm_core s) (ihs_ s) x.1 x.2) L;
  cx_suits : Forall (fun x => suits x.1 x.2 (record_size (file_hdr_ h))) L;
  cx_files : NoDup (fd_ h :: ((fun x => t_fd x.2) <$> L));
  cx_names : NoDup ((fun x => iname x.1) <$> L);
  cx_step : Forall (fun x => in_step pages x.1 x.2) L;
  cx_nan : Forall (fun x => no_nan x.1 rec) L;
  cx_new : Forall (fun x => forall r y, RmP.rec_at pages r = Some y -> kv (t_hdr x.2) (key x.1 y) <> kv (t_hdr x.2) (key x.1 rec)) L;
}.

Lemma enterable_all ifuel s ti h pages L rec : can_index ifuel s ti h pages L rec -> zlen rec = record_size (file_hdr_ h) -> Forall (enterable rec) L.
Proof.
  intros [_ _ Hs _ _ Hst Hn Hu] Hz. rewrite Forall_forall in *. intros x Hx. split; [rewrite Hz; by apply Hs|]. split; [by apply Hn|]. intros (k & r & Hin & Hk). apply (Hst x Hx) in Hin as (y & Hy & ->). by apply (Hu x Hx r y).
Qed.
(** the record is inserted, and the indexes have noticed nothing *)
Lemma inserted_ready ifuel c1 (s1 s3 : SmManager Core) g L : sm_core s1 = c1 -> Forall (fun x => ready ifuel c1 (ihs_ s1) x.1 x.2) L -> g ∉ (fun x : IndexMeta * tree => t_fd x.2) <$> L -> RmP.one_page g c1 (sm_core s3) -> ps_inv (sm_core s3) -> ihs_ s3 = ihs_ s1 ->
  Forall (fun x => ready ifuel (sm_core s3) (ihs_ s3) x.1 x.2) L.
Proof.
  intros <- HL Hg Hone Hi ->. rewrite Forall_forall in *. intros x Hx. eapply ready_apart; [by apply HL|by apply Within.one_page_apart| |done|by destruct Hone as (_ & ? & _)|done].
  intros Hin%list_elem_of_singleton. apply Hg. rewrite <- Hin. by apply (list_elem_of_fmap_2 (fun x : IndexMeta * tree => t_fd x.2)).
Qed.

(** [Next] *)
Lemma next_indexed malloc ifuel junk rid0 s p t tab ti h pages chain name values b L :
  can_insert junk s p t tab ti h pages chain name values b -> can_index ifuel s ti h pages L (row values) ->
  exists rid s' h' pages' chain' L' ls, let w := RmP.ins_write name rid (file_hdr_ h) (row values) in
    Ins.next malloc ifuel junk (mkInsertExecutor ti values tab tab rid0 p) s = (Ok rid, s') /\
    fhs_ s' !! tab = Some h' /\ rep (sm_core s') h' pages' chain' /\ RmP.inserted h pages pages' rid (row values) /\
    Forall2 (grown (row values) rid (sm_core s') (ihs_ s')) L L' /\
    wrote (c_log (sm_core s)) (c_log (sm_core s')) b t (malloc (c_addrs (sm_core s))) w /\ LkP.linv (c_locks (sm_core s')) /\
    txns (c_locks (sm_core s')) !! p = Some (holding (append_write_record w (set_so_far_lsn (global_lsn_ (c_log (sm_core s))) t)) ls) /\
    (exists r, LkP.holds_lock (c_locks (sm_core s')) (record_lock_id (fd_ h) rid) r /\ req_txn_id r = p /\ lock_mode_ r = LockMode.X).
Proof.
  intros Hc Hx. pose proof Hx as [Hix Hrd Hsu Hfd Hnm _ _ _]. pose proof Hc as [_ Hsm _ Hfh Hrep0 _ Hjunk _ Hsz Hval _ _ _ _ _ _ _ _ _ _ _].
  pose proof (row_size _ _ Hval) as Hz. fold (row values) in Hz. rewrite <- Hsz in Hz. pose proof (row_bytes _ _ Hval) as Hby. fold (row values) in Hby. pose proof (enterable_all _ _ _ _ _ _ _ Hx Hz) as Hent. apply NoDup_cons in Hfd as [Hfh' Hfd].
  destruct (check_all ifuel junk Hjunk (row values) Hby _ (aparts_framed (c_log (sm_core s)) (c_locks (sm_core s)) (c_addrs (sm_core s)) (Fr.names (c_store (sm_core s)))) L s) as (c1 & Echk & Hcalm & Hap); [by apply Forall_and|apply Hrep0|done|].
  pose proof (can_insert_calm _ _ _ _ _ _ _ _ _ _ _ _ c1 Hc Hcalm Hap) as Hc1. destruct Hap as [(La & Lb & Lc) Ld].
  destruct (insert_steps malloc junk _ p t tab ti h pages chain name values b Hc1 (fun _ => True) (any_kept _) I) as (rid & s1 & s2 & s3 & h' & pages' & chain' & ls & E1 & E2 & E3 & Hf & Hrep & Hins & Hw & Hi & Ht & Hr & _ & _ & _ & Hfd' & Hone & _ & Hihs & _).
  assert (Hrd3 : Forall (fun x => ready ifuel (sm_core s3) (ihs_ s3) x.1 x.2) L).
  { eapply (inserted_ready ifuel c1 (SmSt.set_core c1 s)); [done| |exact Hfh'|exact Hone|apply Hrep|exact Hihs]. eapply Forall_impl; [exact Hrd|]. intros x Hrx. exact (ready_calm _ _ _ _ _ _ Hrx Hcalm). }
  assert (Hrid : Log.rid_ok rid).
  { destruct Hins as [_ Hall]. assert (Hx2 : RmP.rec_at pages' rid = Some (row values)) by (by rewrite Hall, decide_True). destruct (RmP.has_rec_bounds _ _ _ _ _ rid Hrep (ex_intro _ _ Hx2)) as [Hp [Hs1 Hs2]]. destruct (RmP.rp_hdr _ _ _ _ _ Hrep) as [? ? _ _ _]. pose proof (RmP.rp_range _ _ _ _ _ Hrep). unfold RM_MAX_RECORD_SIZE in *. split; unfold int32_ok; lia. }
  destruct (add_all ifuel junk Hjunk (row values) Hby _ (aparts_framed (c_log (sm_core s3)) (c_locks (sm_core s3)) (c_addrs (sm_core s3)) (Fr.names (c_store (sm_core s3)))) rid L Hrid s3) as (c4 & ihs4 & L' & E4 & [(Ka & Kb & Kc) _] & Hi4 & HR4 & Hap4 & _ & HF);
    [by apply Forall_and|done|done|apply Hrep|done|].
  exists rid, (SmSt.set_ihs ihs4 (SmSt.set_core c4 s3)), h', pages', chain', L', ls. split; [|split; [|split; [|split; [done|split; [done|]]]]].
  - rewrite (insert_next_eq malloc ifuel junk s p t tab ti h pages chain name values b Hc), Hix. rewrite (bind_ok _ _ _ _ _ (idx_hdls_eq ti L s Hsm Hix ltac:(eapply Forall_impl; [exact Hrd|]; by intros x [])) ), zip_named.
    rewrite (bind_ok _ _ _ _ _ Echk). rewrite (bind_ok _ _ _ _ _ (on_file_fd tab h _ (ci_fh _ _ _ _ _ _ _ _ _ _ _ _ Hc1))), (bind_ok _ _ _ _ _ E1). erewrite bind_ok by reflexivity.
    rewrite (bind_ok _ _ _ _ _ E2), (bind_ok _ _ _ _ _ E3). erewrite bind_ok by reflexivity. by rewrite (bind_ok _ _ _ _ _ E4).
  - simpl. by rewrite Hf, lookup_insert_eq.
  - eapply Within.rep_apart; [exact Hrep|exact Hap4|by rewrite Hfd'|done|done|change (0 < ps_room c4); rewrite HR4; apply Hrep].
  - simpl. rewrite Ka, Kb. simpl in Hw, Ht. rewrite La, Lc in Hw. rewrite La in Ht. split_and!; try done.
Qed.

(** an index that has got the entry *)
Lemma grown_done h pages pages' rid rec c ihs x y : grown rec rid c ihs x y -> in_step pages x.1 x.2 -> cols (t_hdr x.2) -> RmP.inserted h pages pages' rid rec ->
  y.1 = x.1 /\ ihs !! iname x.1 = Some (t_hd y.2) /\ tree_ok c (t_hd y.2) (t_nodes y.2) (t_height y.2) /\
  IxR.linked (t_hdr y.2) (t_nodes y.2) (IxR.leaves (t_nodes y.2) (t_height y.2) (root_page_ (t_hdr y.2))) /\ ordered (t_hdr y.2) (t_entries y.2) /\ in_step pages' x.1 y.2.
Proof.
  intros Hg Hs Hc Hi. pose proof Hg as (H1 & H2 & H3 & _ & H5 & _). do 3 (split; [done|]). split; [by apply (tree_ok_linked c)|]. split; [|by eapply in_step_grown].
  eapply (entries_ordered (t_hdr y.2)); [by eapply like_cols|apply (ir_tree _ _ _ _ _ (tk_rep _ _ _ _ H3))].
Qed.
End InsX.

(** * The property *)

(** C5: an INSERT into a table with any number of indexes keeps table and indexes in step.  When every index has an entry
    for exactly the records of the table, and no record has the new row's key in any of them, the executor, from its
    construction to its [Next], returns: it adds exactly one record, at a free record id, whose columns read as the
    given values, and to each index, whether its leaf has room, is rebalanced or split, the entry of this record and no
    other.  Every index is then again a well-formed tree whose leaves a range scan can follow, with an entry for exactly the
    records of the table; the insertion is the last write of the transaction's write set and is in the log buffer, and the
    transaction has an exclusive lock on the record. *)
Theorem insert_keeps_indexes malloc ifuel junk rid0 s p t tab ti h pages chain name values b L :
  InsP.can_insert junk s p t tab ti h pages chain name values b -> InsX.can_index ifuel s ti h pages L (InsP.row values) ->
  exists e rid s' h' pages' chain' L' t', let row := InsP.row values in let w := RmP.ins_write name rid (file_hdr_ h) row in
    Ins.make rid0 tab values p s = (Ok e, s) /\ Ins.next malloc ifuel junk e s = (Ok rid, s') /\
    fhs_ s' !! tab = Some h' /\ RmP.rep (fun _ => True) (sm_core s') h' pages' chain' /\
    RmP.rec_at pages rid = None /\ (forall r, RmP.rec_at pages' r = if decide (r = rid) then Some row else RmP.rec_at pages r) /\
    (forall i col v, tm_cols ti !! i = Some col -> values !! i = Some v -> Val.read_from_record row col tt = (Ok v.1, tt)) /\
    Forall2 (fun x y : IndexMeta * InsX.tree => let T := y.2 in let hd := InsX.t_hd T in
      y.1 = x.1 /\ ihs_ s' !! Meta.get_index_name x.1 = Some hd /\ tree_ok (sm_core s') hd (InsX.t_nodes T) (InsX.t_height T) /\
      IxR.linked (ix_hdr_ hd) (InsX.t_nodes T) (IxR.leaves (InsX.t_nodes T) (InsX.t_height T) (root_page_ (ix_hdr_ hd))) /\
      ordered (ix_hdr_ hd) (InsX.t_entries T) /\ InsX.in_step pages' x.1 T) L L' /\
    txns (c_locks (sm_core s')) !! p = Some t' /\ state_ t' = GROWING /\ write_records_ t' = write_records_ t ++ [w] /\
    LogM.binv (c_log (sm_core s')) (b ++ Log.image (InsP.write_log (global_lsn_ (c_log (sm_core s))) t w)) /\
    LkP.linv (c_locks (sm_core s')) /\
    (exists r, LkP.holds_lock (c_locks (sm_core s')) (record_lock_id (fd_ h) rid) r /\ req_txn_id r = p /\ lock_mode_ r = LockMode.X).
Proof.
  intros Hc Hx. destruct (InsX.next_indexed malloc ifuel junk rid0 s p t tab ti h pages chain name values b L Hc Hx) as (rid & s' & h' & pages' & chain' & L' & ls & E & Hf & Hrep & Hins & HF & Hw & Hi & Ht & Hr). pose proof Hins as [Hnone Hall].
  eexists _, rid, s', h', pages', chain', L', _. split; [exact (InsP.make_eq rid0 _ _ _ _ _ _ _ _ _ _ _ _ Hc)|]. split; [exact E|]. do 4 (split; [done|]).
  split; [intros i col v; eapply InsP.fill_record_reads; [exact (InsP.ci_values _ _ _ _ _ _ _ _ _ _ _ _ Hc)|exact (InsP.ci_cols _ _ _ _ _ _ _ _ _ _ _ _ Hc)]|].
  split; [|split; [exact Ht|split; [done|split; [done|split; [exact (InsP.wr_buf _ _ _ _ _ _ Hw)|done]]]]].
  pose proof (InsX.cx_step _ _ _ _ _ _ _ Hx) as Hst. pose proof (InsX.cx_suits _ _ _ _ _ _ _ Hx) as Hsu. clear -HF Hst Hsu Hins. induction HF as [|x y L L' Hg HF IH]; [constructor|]. apply Forall_cons in Hst as [Hst1 Hst], Hsu as [Hsu1 Hsu]. constructor; [|by apply IH].
  by apply (InsX.grown_done h pages pages' rid (InsP.row values)); [| |apply Hsu1|].
Qed.

(** ** An instance: a row into a table with two records and an index *)

Definition two_meta : IndexMeta := mkIndexMeta "t" 4 1 [two_col].
Definition two_indexes : list (IndexMeta * InsX.tree) := [(two_meta, InsX.mkTree two_index two_tree 0)].

Lemma two_can_insert s : RmP.rep any s two_handle two_pages [1] -> Fr.names s = Fr.names two_store ->
  InsP.can_insert zeros (two_world s) 1 (demo_txn 1 GROWING) "t" two_tab two_handle two_pages [1] "t" demo_row [].
Proof.
  intros Hrep Hn. split; try reflexivity; try assumption.
  - by apply core_rep.
  - intros n Hn'. by apply zlen_zeros.
  - by split_and!.
  - repeat constructor; simpl; try (unfold int32_ok; lia); eexists; (split; reflexivity).
  - apply demo_linv.
  - by right.
  - split; vm_compute; split; discriminate || reflexivity.
  - intros q r. simpl. by rewrite lookup_empty.
  - intros rid _ q r. simpl. by rewrite lookup_empty.
  - change (Fr.names s !! 3 = Some "t"). rewrite Hn. vm_compute. reflexivity.
  - exact (LogM.li_buf _ _ _ demo_log_linv).
  - simpl. lia.
  - vm_compute. discriminate.
Qed.

Lemma two_can_index s : irep demo_ix s two_index two_tree 0 -> ps_file s 4 -> ps_room s = 4 -> ps_npages s 4 = 2 -> InsX.can_index 1 (two_world s) two_tab two_handle two_pages two_indexes (InsP.row demo_row).
Proof.
  intros Hix Hf Hr Hn. destruct (ir_pages _ _ _ _ _ Hix 1 two_node eq_refl) as (b & Hb & Hrep & Hz). split; try done; unfold two_indexes; rewrite ?Forall_singleton; cbn [fst snd].
  - split; cbn [InsX.t_hd InsX.t_nodes InsX.t_height]; [done| |lia|change (4 <= ps_room s); lia|change (ps_npages s 4 + 0 + 2 <= 2 ^ 19); lia].
    apply (lone_leaf_ok (two_world s).(sm_core) demo_ix 4 two_node b); try done; [apply Hix|change (0 < ps_room s); lia|exact two_sorted].
  - split; try done; [exact IxProps.demo_cols|by constructor].
  - apply NoDup_cons. split; [|apply NoDup_singleton]. by intros ?%list_elem_of_singleton.
  - apply NoDup_singleton.
  - intros k r. change (InsX.t_entries _) with (entries two_tree 0 (root_page_ demo_ix)). rewrite (IxR.ii_keys _ _ _ _ _ _ _ _ two_int_index). unfold InsX.key, IxMP.key_of. simpl. by setoid_rewrite app_nil_r.
  - intros c Hc Hf'. apply list_elem_of_singleton in Hc as ->. done.
  - intros r y [[-> ->]|[-> ->]]%two_records; by vm_compute.
Qed.

Lemma insert_keeps_indexes_witness : exists s e rid s' pages' L', Ins.make (mkRid 0 0) "t" demo_row 1 (two_world s) = (Ok e, two_world s) /\ Ins.next (fun _ => 4096) 1 zeros e (two_world s) = (Ok rid, s') /\
  RmP.rec_at pages' rid = Some (InsP.row demo_row) /\ Forall2 (fun x y : IndexMeta * InsX.tree => InsX.in_step pages' x.1 y.2) two_indexes L'.
Proof.
  destruct two_files as (s & Hrep & Hix & Hf & Hr & Hn & Hnm). exists s.
  destruct (insert_keeps_indexes (fun _ => 4096) 1 zeros (mkRid 0 0) (two_world s) 1 (demo_txn 1 GROWING) "t" two_tab two_handle two_pages [1] "t" demo_row [] two_indexes) as (e & rid & s' & h' & pages' & chain' & L' & t' & E1 & E2 & _ & _ & _ & Hall & _ & HF & _).
  - exact (two_can_insert s Hrep Hnm).
  - exact (two_can_index s Hix Hf Hr Hn).
  - exists e, rid, s', pages', L'. split; [exact E1|]. split; [exact E2|]. split; [rewrite Hall; destruct (decide (rid = rid)); [reflexivity|congruence]|]. eapply Forall2_impl; [exact HF|]. intros x y (_ & _ & _ & _ & _ & H). exact H.
Defined.
