(* ===== verification/Portal.v ===== *)
(** The portal: [src/src/portal.h], which turns plans into executors and runs them.

    [Executor] is an object of a class derived from [AbstractExecutor]: its state with the virtual functions of
    its class.  The fields that constructors leave uninitialised are the parameters [page0], [idx0] and [rid0],
    new buffers are given by [junk] and [buf0]; [fuel] bounds the loops of sort, join and aggregation, [ifuel] the depth
    of indexes, [rfuel] the loops over scans; [std_sort] is the library's sort. *)

From S2P Require Import Prelude Bytes Errors Disk BufferPool PageStore Defs.
From S2P Require Import Text SmMeta RmFile Values IxDefs IxNode IxTree.
From S2P Require Import SmState Executor SeqScan Projection Join Sort Agg.
From S2P Require Import LogManager Lock Core Txn Dml Analyze Planner.
From S2P Require Import IxExec.

Record Executor (W : Type) := mkExecutor {
  ob_state_type : Type;
  ob_class : AbstractExecutor W ob_state_type;
  ob_rid : ob_state_type -> option Rid;
  ob_state : ob_state_type;
}.
Arguments mkExecutor {W ob_state_type} _ _ _.
Arguments ob_state_type {W} _.
Arguments ob_class {W} _.
Arguments ob_rid {W} _ _.
Arguments ob_state {W} _.

Inductive portalTag := PORTAL_Invalid_Query | PORTAL_ONE_SELECT | PORTAL_DML_WITHOUT_SELECT | PORTAL_MULTI_QUERY | PORTAL_CMD_UTILITY.

(** the executor of a statement: a null pointer, a query, or one of the three that write *)
Inductive Root (W : Type) :=
  | NoRoot
  | QueryRoot (x : Executor W)
  | InsertRoot (e : InsertExecutor)
  | DeleteRoot (e : DeleteExecutor)
  | UpdateRoot (e : UpdateExecutor).
Arguments NoRoot {W}.
Arguments QueryRoot {W} _.
Arguments InsertRoot {W} _.
Arguments DeleteRoot {W} _.
Arguments UpdateRoot {W} _.

Record PortalStmt (W : Type) := mkPortalStmt { ps_tag : portalTag; ps_root : Root W; ps_plan : Plan }.
Arguments mkPortalStmt {W} _ _ _.
Arguments ps_tag {W} _.
Arguments ps_root {W} _.
Arguments ps_plan {W} _.

Module Prtl.
Section ops.
Context (std_sort : (RmRecord -> RmRecord -> bool) -> list RmRecord -> list RmRecord).
Context (junk : Z -> list Z) (buf0 : list Z) (page0 : Z) (idx0 : nat) (rid0 : Rid) (fuel ifuel rfuel : nat).
Local Open Scope prog_scope.
Abbreviation SM := (SmManager Core).

Definition lock (p fd : Z) : Prog Core bool := on_locks (Lk.lock_shared_on_table p fd).
Definition scan_class : AbstractExecutor SM SeqScanExecutor := Scan.exec lock.
Definition index_class : AbstractExecutor SM IndexScanExecutor := IxEx.exec lock ifuel rfuel.

(** [Portal::convert_plan_executor]; [None] is a null pointer, which a constructor above dereferences *)
Fixpoint convert_plan_executor (plan : Plan) (txn : Z) : Prog SM (option (Executor SM)) :=
  match plan with
  | ProjectionPlan _ subplan sel_cols =>
      let* o := convert_plan_executor subplan txn in
      let* x := deref o in
      let* e := SmSt.of_sum (Proj.make (X := ob_class x) buf0 (ob_state x) sel_cols) in
      ret (Some (mkExecutor (Proj.exec (X := ob_class x)) (fun _ => None) e))
  | ScanPlan tag tab_name _ conds _ idx_conds names =>
      match tag with
      | T_SeqScan =>
          let* e := Scan.make page0 idx0 tab_name (fst <$> conds) txn in
          ret (Some (mkExecutor scan_class Scan.rid e))
      | _ =>
          let* e := IxEx.make rid0 junk tab_name conds idx_conds names txn in
          ret (Some (mkExecutor index_class (fun e => Some (isx_rid_ e)) e))
      end
  | JoinPlan _ left_ right_ conds =>
      let* l := convert_plan_executor left_ txn in
      let* r := convert_plan_executor right_ txn in
      let* x := deref l in
      let* y := deref r in
      let* e := SmSt.of_sum (Nlj.make (XL := ob_class x) (XR := ob_class y) (ob_state x) (ob_state y) (fst <$> conds)) in
      ret (Some (mkExecutor (Nlj.exec (XL := ob_class x) (XR := ob_class y) fuel) (fun _ => None) e))
  | SortPlan _ subplan order_bys limit_num =>
      let* o := convert_plan_executor subplan txn in
      let* x := deref o in
      let* e := (fun s => let '(r, (_, s')) := Srt.make (X := ob_class x) std_sort fuel idx0 order_bys limit_num (ob_state x, s) in (r, s')) in
      ret (Some (mkExecutor (Srt.exec (X := ob_class x)) (fun _ => None) e))
  | AggPlan _ subplan sel_col =>
      let* o := convert_plan_executor subplan txn in
      let* x := deref o in
      let* e := pure_call (Agg.make (X := ob_class x) (ob_state x) sel_col) in
      ret (Some (mkExecutor (Agg.exec (X := ob_class x) fuel) (fun _ => None) e))
  | _ => ret None
  end.

(** the loop of [start]: the rids of a scan *)
Fixpoint collect_rids {E} {X : AbstractExecutor SM E} (rid : E -> option Rid) (rfuel : nat) : Prog (E * SM) (list Rid) :=
  match rfuel with
  | O => fail OutOfFuel
  | S rfuel =>
      let* stop := gets (fun t => is_end SM t.1) in
      if stop : bool then ret []
      else
        let* e := gets fst in
        let* r := deref (rid e) in
        nextTuple;;
        let* l := collect_rids rid rfuel in
        ret (r :: l)
  end.
Definition scan_rids (subplan : Plan) (txn : Z) : Prog SM (list Rid) :=
  let* o := convert_plan_executor subplan txn in
  let* x := deref o in
  fun s => let '(r, (_, s')) := (@beginTuple _ _ (ob_class x);; collect_rids (X := ob_class x) (ob_rid x) rfuel) (ob_state x, s) in (r, s').

(** [Portal::start] *)
Definition start (plan : Plan) (txn : Z) : Prog SM (PortalStmt SM) :=
  match plan with
  | OtherPlan _ _ | LoadPlan _ _ _ => ret (mkPortalStmt PORTAL_CMD_UTILITY NoRoot plan)
  | DDLPlan _ _ _ _ => ret (mkPortalStmt PORTAL_MULTI_QUERY NoRoot plan)
  | DMLPlan tag subplan tab_name values conds set_clauses =>
      match tag with
      | T_select =>
          let* o := convert_plan_executor subplan txn in
          ret (mkPortalStmt PORTAL_ONE_SELECT (match o with Some x => QueryRoot x | None => NoRoot end) plan)
      | T_Update =>
          let* rids := scan_rids subplan txn in
          let* e := Upd.make tab_name set_clauses (fst <$> conds) rids txn in
          ret (mkPortalStmt PORTAL_DML_WITHOUT_SELECT (UpdateRoot e) plan)
      | T_Delete =>
          let* rids := scan_rids subplan txn in
          let* e := Del.make tab_name (fst <$> conds) rids txn in
          ret (mkPortalStmt PORTAL_DML_WITHOUT_SELECT (DeleteRoot e) plan)
      | T_Insert =>
          let* e := Ins.make rid0 tab_name values txn in
          ret (mkPortalStmt PORTAL_DML_WITHOUT_SELECT (InsertRoot e) plan)
      | _ => throw (InternalError "Unexpected field type")
      end
  | _ => throw (InternalError "Unexpected field type")
  end.
End ops.
End Prtl.
