(* ===== verification/Load.v ===== *)
(** Loading a table from a text file: [SmManager::load_data] of [src/src/system/sm_manager.cpp], with
    [Value::convert_from_string] of [src/src/common/common.h].

    The file is read as a whole before the first record is inserted.  [junk n] is what a new buffer of [n] bytes
    holds. *)

From S2P Require Import Prelude Bytes Errors Disk BufferPool PageStore Defs.
From S2P Require Import Text Float32 SmMeta RmFile Values LogManager Lock.
From S2P Require Import IxDefs IxTree SmState Core Analyze Sm.

(** ** [load_data] *)

Module Ld.
Import Text Lit.
Local Open Scope prog_scope.
Definition comma : Ascii.ascii := Ascii.ascii_of_nat 44.
Definition space : Ascii.ascii := Ascii.ascii_of_nat 32.
Definition newline : Ascii.ascii := Ascii.ascii_of_nat 10.

(** [Value::convert_from_string] *)
Definition convert_from_string (str : text) (col : ColMeta) : Prog unit (list Z) :=
  let name := String.string_of_list_ascii str in
  let* val := (match cm_type col with
               | TYPE_BIGINT => if no_overflow_int64 str then let* v := Val.lift_sum (stoll str) in ret (VBigint v) else throw (BigIntOverflowError name)
               | TYPE_INT => if no_overflow_int str then let* v := Val.lift_sum (stoi str) in ret (VInt v) else throw (IntOverflowError name)
               | TYPE_FLOAT => if An.no_overflow_float str then let* w := Dec.stof str in ret (VFloat w) else throw (FloatOverflowError name)
               | TYPE_STRING => ret (VString name)
               | TYPE_DATETIME => Val.check_set_datetime str
               end) in
  Val.init_raw val (cm_len col).

(** [while (std::getline(file, line))]: a last line may lack its newline *)
Fixpoint lines_from (line : text) (s : text) : list text :=
  match s with
  | [] => match line with [] => [] | _ => [line] end
  | c :: s => if Ascii.eqb c newline then line :: lines_from [] s else lines_from (line ++ [c]) s
  end.
Definition lines (s : text) : list text := lines_from [] s.

(** [std::getline(ss, field, ',')]; [None] is a stream that has reached its end, which leaves [field] as it is *)
Fixpoint upto_comma (s : text) : text * option text :=
  match s with
  | [] => ([], None)
  | c :: s => if Ascii.eqb c comma then ([], Some s) else let '(w, o) := upto_comma s in (c :: w, o)
  end.
Definition getline (field : text) (ss : option text) : text * option text :=
  match ss with None => (field, None) | Some s => upto_comma s end.

(** the first line: the names of the columns; the number of the fields read is returned *)
Fixpoint check_header (cols : list ColMeta) (field : text) (ss : option text) (line_num : Z) : error + Z :=
  match cols with
  | [] => inr line_num
  | col :: cols =>
      let '(field, ss) := getline field ss in
      let name := String.string_of_list_ascii field in
      if String.eqb name (cm_name col) then check_header cols field ss (line_num + 1) else inl (ColumnNotFoundError name)
  end.
Definition header (tab_meta : TabMeta) (line : text) : Prog unit unit :=
  let* line_num := Val.lift_sum (check_header (tm_cols tab_meta) [] (Some line) 0) in
  if line_num =? zlen (tm_cols tab_meta) then ret tt else throw (InternalError "csv table column num does not match !").

(** the words of a line: the character after a comma is never taken for a comma *)
Fixpoint split (word : text) (s : text) : list text :=
  match s with
  | [] => [word]
  | c :: s =>
      if Ascii.eqb c comma then word :: match s with [] => [[]] | d :: s => split [d] s end
      else split (word ++ [c]) s
  end.
Fixpoint skip_spaces (s : text) : text := match s with c :: r => if Ascii.eqb c space then skip_spaces r else s | [] => [] end.
(** the loop from the end reads before the first character when there are only spaces *)
Definition trim (word : text) : Prog unit text :=
  match skip_spaces word with
  | [] => fail Undef
  | w => ret (rev (skip_spaces (rev w)))
  end.
Fixpoint trims (l : list text) : Prog unit (list text) :=
  match l with [] => ret [] | w :: l => let* w := trim w in let* l := trims l in ret (w :: l) end.

(** the words are converted and copied into the record *)
Fixpoint fill (cols : list ColMeta) (words : list text) (rec : list Z) : Prog unit (list Z) :=
  match cols, words with
  | col :: cols, field :: words =>
      let* raw := convert_from_string field col in
      let* rec := deref (memcpy rec (cm_offset col) raw (cm_len col)) in
      fill cols words rec
  | _, _ => ret rec
  end.
Definition row (tab_meta : TabMeta) (rec0 : list Z) (line : text) : Prog unit (list Z) :=
  let* words := trims (split [] line) in
  if (length words =? length (tm_cols tab_meta))%nat then fill (tm_cols tab_meta) words rec0 else throw (InternalError "csv not match").

Section ops.
Context (junk : Z -> list Z).
Abbreviation SM := (SmManager Core).

Definition load_line (tab_name : string) (tab_meta : TabMeta) (line : text) : Prog SM unit :=
  let* size := SmSt.on_file tab_name (gets (fun s => record_size (file_hdr_ s.2))) in
  let* rec := pure_call (row tab_meta (junk size) line) in
  let* _ := SmSt.on_file tab_name (Rm.insert_record None rec) in
  ret tt.

(** [load_data]: no log record is written, no lock is taken, and the indexes are left as they are *)
Definition load_data (file_path tab_name : string) : Prog SM unit :=
  let* tab_meta := SmSt.read_table tab_name in
  let* file := Sm.on_store (gets (fun s => Sm.get_file file_path (disk s))) in
  match lines (byte_ascii <$> file) with
  | [] => ret tt
  | first :: rest => pure_call (header tab_meta first);; for_each rest (load_line tab_name tab_meta)
  end.
End ops.
End Ld.
