(* ===== verification/Ql.v ===== *)
(** Running a statement: [QlManager] of [src/src/execution/execution_manager.cpp], [Portal::run], and the
    functions of [SmManager] that only print ([src/src/system/sm_manager.cpp]).

    [Session] is what one client thread works on: the managers, the answer to the client, the global flag
    [output_off] and the text of the file [output.txt]. *)

From Stdlib Require Import Floats.SpecFloat.
From S2P Require Import Prelude Bytes Errors Disk BufferPool PageStore Defs.
From S2P Require Import Text Float32 SmMeta RmFile Values IxDefs IxTree.
From S2P Require Import SmState Executor LogManager Lock Core Txn Dml.
From S2P Require Import Sm Analyze Planner Portal Printer Load.

Record Session := mkSession { se_tm : TransactionManager; se_out : Output; output_off : bool; output_txt : list Z }.

Definition help_info : string := "Supported SQL syntax:
  command ;
command:
  CREATE TABLE table_name (column_name type [, column_name type ...])
  DROP TABLE table_name
  CREATE INDEX table_name (column_name)
  DROP INDEX table_name (column_name)
  INSERT INTO table_name VALUES (value [, value ...])
  DELETE FROM table_name [WHERE where_clause]
  UPDATE table_name SET column_name = value [, column_name = value ...] [WHERE where_clause]
  SELECT selector FROM table_name [WHERE where_clause]
type:
  {INT | FLOAT | CHAR(n) | BIGINT | DATETIME}
where_clause:
  condition [AND condition ...]
condition:
  column op {column | value}
column:
  [table_name.]column_name
op:
  {= | <> | < | > | <= | >=}
selector:
  {* | column [, column ...]}
".

(** ** [std::to_string(float)]: six digits after the point, ties to even *)

Module Ftoa.
Import Text.
Definition round_even (n d : Z) : Z :=
  let q := n / d in let r := n mod d in
  if (d <? 2 * r) || ((d =? 2 * r) && Z.odd q) then q + 1 else q.
Definition micros (m e : Z) : Z := if 0 <=? e then m * 2 ^ e * 10 ^ 6 else round_even (m * 10 ^ 6) (2 ^ (- e)).
Definition six (n : Z) : text := let s := show_int n in replicate (6 - length s) (Ascii.ascii_of_nat 48) ++ s.
(** the sign of a NaN is its first bit *)
Definition show (w : Z) : text :=
  match f32_of_bits w with
  | S754_nan => if 2 ^ 31 <=? w then str "-nan" else str "nan"
  | S754_infinity s => if s then str "-inf" else str "inf"
  | S754_zero s => if s then str "-0.000000" else str "0.000000"
  | S754_finite s m e =>
      let u := micros (Zpos m) e in
      (if s then str "-" else []) ++ show_int (u / 10 ^ 6) ++ str "." ++ six (u mod 10 ^ 6)
  end.
End Ftoa.

Module Ql.
Section ops.
Context (malloc : gmap Z (list Z) -> Z) (junk : Z -> list Z) (fuel ifuel rfuel : nat).
Local Open Scope prog_scope.
Abbreviation SM := (SmManager Core).
Abbreviation bytes := (list Z).

Definition on_tm {A} (m : Prog TransactionManager A) : Prog Session A :=
  zoom se_tm (fun t s => mkSession t (se_out s) (output_off s) (output_txt s)) m.
Definition on_sm {A} (m : Prog SM A) : Prog Session A := on_tm (TxnM.on_sm m).
Definition on_out {A} (m : Prog Output A) : Prog Session A :=
  zoom se_out (fun o s => mkSession (se_tm s) o (output_off s) (output_txt s)) m.
(** [if (!output_off) outfile << text] *)
Definition outfile (text : bytes) : Prog Session unit :=
  modify (fun s => if output_off s then s else mkSession (se_tm s) (se_out s) false (output_txt s ++ text)).

Definition tbytes (t : Text.text) : bytes := string_bytes (String.string_of_list_ascii t).
Definition line (cells : list bytes) : bytes :=
  string_bytes "|" ++ (cells ≫= (fun c => string_bytes " " ++ c ++ string_bytes " |")) ++ [10].

(** ** [select_from] *)

(** the text of one column of a tuple *)
Definition col_str (col : ColMeta) (tuple : bytes) : Prog unit bytes :=
  match cm_type col with
  | TYPE_INT => let* b := Val.load tuple (cm_offset col) 4 in ret (tbytes (Text.show_int (dec_i32 b)))
  | TYPE_BIGINT => let* b := Val.load tuple (cm_offset col) 8 in ret (tbytes (Text.show_int (dec_i64 b)))
  | TYPE_FLOAT => let* b := Val.load tuple (cm_offset col) 4 in ret (tbytes (Ftoa.show (le_value b)))
  | TYPE_STRING => let* b := Val.load tuple (cm_offset col) (cm_len col) in ret (Val.c_str b)
  | TYPE_DATETIME => let* b := Val.load tuple (cm_offset col) 8 in let* t := Val.datetime_str (dec_i64 b) in ret (tbytes t)
  end.
Fixpoint col_strs (cs : list ColMeta) (tuple : bytes) : Prog unit (list bytes) :=
  match cs with
  | [] => ret []
  | col :: cs => let* s := col_str col tuple in let* l := col_strs cs tuple in ret (s :: l)
  end.

Section query.
Context {E : Type} {X : AbstractExecutor SM E}.

(** the executor runs on the managers of the session *)
Definition on_exec {A} (m : Prog (E * SM) A) : Prog (E * Session) A := fun t =>
  let tm := se_tm t.2 in
  let '(r, (e, s)) := m (t.1, tm_sm tm) in
  (r, (e, mkSession (mkTransactionManager s (next_txn_id_ tm) (next_timestamp_ tm) (txn_map tm)) (se_out t.2) (output_off t.2) (output_txt t.2))).
Definition on_session {A} (m : Prog Session A) : Prog (E * Session) A := zoom snd (fun s t => (t.1, s)) m.

(** the loop over the tuples; the count is returned *)
Fixpoint print_rows (fuel : nat) (num_rec : Z) : Prog (E * Session) Z :=
  match fuel with
  | O => fail OutOfFuel
  | S fuel =>
      let* stop := gets (fun t => is_end SM t.1) in
      if stop : bool then ret num_rec
      else
        let* tuple := on_exec Next in
        let* cs := gets (fun t => cols SM t.1) in
        let* columns := pure_call (col_strs cs (data tuple)) in
        on_session (on_out (Prt.print_record (length cs) columns));;
        on_session (outfile (line columns));;
        on_exec nextTuple;;
        print_rows fuel (num_rec + 1)
  end.

Definition select_loop : Prog (E * Session) unit :=
  let* cs := gets (fun t => cols SM t.1) in
  let captions := (fun c => string_bytes (cm_name c)) <$> cs in
  assert (0 <? zlen cs);;
  on_session (on_out (Prt.print_separator (length cs);; Prt.print_record (length cs) captions;; Prt.print_separator (length cs)));;
  on_session (outfile (line captions));;
  on_exec beginTuple;;
  let* num_rec := print_rows fuel 0 in
  on_session (on_out (Prt.print_separator (length cs);; Prt.print_record_count num_rec)).
End query.

Definition select_from (x : Executor SM) : Prog Session unit := fun s =>
  let '(r, (_, s')) := select_loop (X := ob_class x) (ob_state x, s) in (r, s').

(** ** [run_dml] *)

Definition run_dml (root : Root SM) : Prog Session unit :=
  match root with
  | InsertRoot e => let* _ := on_sm (Ins.next malloc ifuel junk e) in ret tt
  | DeleteRoot e => on_sm (Del.next malloc ifuel junk e)
  | UpdateRoot e => on_sm (Upd.next malloc ifuel junk e)
  | QueryRoot x => fun s => let '(r, (_, s')) := on_exec (@Next _ _ (ob_class x)) (ob_state x, s) in (match r with Ok _ => Ok tt | Throw e => Throw e | Fail f => Fail f end, s')
  | NoRoot => fail Undef
  end.

(** ** The functions of [SmManager] that print *)

Definition print_all (n : nat) (rows : list (list bytes)) : Prog Session unit := for_each rows (fun r => on_out (Prt.print_record n r)).

Definition show_tables : Prog Session unit :=
  outfile (string_bytes "| Tables |" ++ [10]);;
  on_out (Prt.print_separator 1;; Prt.print_record 1 [string_bytes "Tables"];; Prt.print_separator 1);;
  on_sm SmSt.RLatch;;
  let* tabs := gets (fun s => snd <$> tabs_ (db_ (tm_sm (se_tm s)))) in
  for_each tabs (fun tab =>
    on_out (Prt.print_record 1 [string_bytes (tm_name tab)]);;
    outfile (string_bytes "| " ++ string_bytes (tm_name tab) ++ string_bytes " |" ++ [10]));;
  on_sm SmSt.RUnLatch;;
  on_out (Prt.print_separator 1).

(** "(a,b)" *)
Fixpoint idx_names (cs : list ColMeta) : bytes :=
  match cs with
  | [] => []
  | [c] => string_bytes (cm_name c) ++ string_bytes ")"
  | c :: cs => string_bytes (cm_name c) ++ string_bytes "," ++ idx_names cs
  end.
Definition idx_cols (cs : list ColMeta) : bytes := string_bytes "(" ++ idx_names cs.
Definition show_indexes (tab_name : string) : Prog Session unit :=
  on_out (Prt.print_separator 1;; Prt.print_record 1 [string_bytes "Indexes"];; Prt.print_separator 1);;
  on_sm SmSt.RLatch;;
  let* tab := on_sm (SmSt.get_table tab_name) in
  for_each (tm_indexes tab) (fun idx =>
    outfile (string_bytes "| " ++ string_bytes tab_name ++ string_bytes " | unique | ");;
    outfile (idx_cols (im_cols idx) ++ string_bytes " |" ++ [10]);;
    on_out (Prt.print_record 1 [idx_cols (im_cols idx)]));;
  on_sm SmSt.RUnLatch;;
  on_out (Prt.print_separator 1).

Definition desc_table (tab_name : string) : Prog Session unit :=
  on_sm SmSt.RLatch;;
  let* tab := on_sm (SmSt.get_table tab_name) in
  on_out (Prt.print_separator 3;; Prt.print_record 3 (string_bytes <$> ["Field"; "Type"; "Index"]);; Prt.print_separator 3);;
  for_each (tm_cols tab) (fun col =>
    on_out (Prt.print_record 3 (string_bytes <$> [cm_name col; coltype2str (cm_type col); if cm_index col then "YES" else "NO"])));;
  on_sm SmSt.RUnLatch;;
  on_out (Prt.print_separator 3).

(** ** [run_mutli_query] and [run_cmd_utility] *)

(** a plan of another class does nothing *)
Definition run_mutli_query (plan : Plan) (txn : Z) : Prog Session unit :=
  match plan with
  | DDLPlan tag tab_name tab_col_names cols =>
      match tag with
      | T_CreateTable => on_sm (Sm.create_table junk tab_name cols)
      | T_DropTable => on_sm (Sm.drop_table junk tab_name)
      | T_CreateIndex => on_sm (Sm.create_index ifuel rfuel junk tab_name tab_col_names (Some txn))
      | T_DropIndex => on_sm (Sm.drop_index junk tab_name tab_col_names)
      | T_ShowIndex => show_indexes tab_name
      | _ => throw (InternalError "Unexpected field type")
      end
  | _ => ret tt
  end.

(** the text is copied behind what is there, but the length is set to its own *)
Definition show_help : Prog Output unit :=
  let* o := get in
  let* d := deref (memcpy (data_send_ o) (offset_ o) (string_bytes help_info) (zlen (string_bytes help_info))) in
  modify (fun o => mkOutput d (zlen (string_bytes help_info)) (ellipsis_ o)).
Definition set_output_off : Prog Session unit := modify (fun s => mkSession (se_tm s) (se_out s) true (output_txt s)).
(** [Transaction::set_txn_mode] *)
Definition set_txn_mode (mode : bool) (t : Transaction) : Transaction :=
  mkTransaction mode (state_ t) (isolation_level_ t) (so_far_lsn_ t) (txn_id_ t) (start_ts_ t) (write_records_ t) (lock_set_ t)
    (index_latch_page_set_ t) (index_deleted_page_set_ t).
Definition put_txn_mode (txn : Z) (mode : bool) : Prog TransactionManager unit :=
  TxnM.core (let* t := Ws.get_txn txn in Ws.put_txn txn (set_txn_mode mode t)).

(** one command; a [LoadPlan] is an [OtherPlan] with a path *)
Definition run_tag (tag : PlanTag) (tab_name : string) (file_path : option string) (txn : Z) : Prog Session unit :=
  match tag with
  | T_Help => on_out show_help
  | T_SET_OUTPUT_OFF => set_output_off
  | T_LOAD => let* path := deref file_path in on_sm (Ld.load_data junk path tab_name)
  | T_ShowTable => show_tables
  | T_DescTable => desc_table tab_name
  | T_Transaction_begin => on_tm (put_txn_mode txn true)
  | T_Transaction_commit => on_tm (TxnM.commit txn)
  | T_Transaction_rollback | T_Transaction_abort => on_tm (TxnM.abort ifuel rfuel junk txn)
  | _ => throw (InternalError "Unexpected field type")
  end.
Definition run_cmd_utility (plan : Plan) (txn : Z) : Prog Session unit :=
  match plan with
  | OtherPlan tag tab_name => run_tag tag tab_name None txn
  | LoadPlan tag file_path tab_name => run_tag tag tab_name (Some file_path) txn
  | _ => ret tt
  end.

(** ** [Portal::run] *)

Definition run (p : PortalStmt SM) (txn : Z) : Prog Session unit :=
  match ps_tag p with
  | PORTAL_ONE_SELECT => match ps_root p with QueryRoot x => select_from x | _ => fail Undef end
  | PORTAL_DML_WITHOUT_SELECT => run_dml (ps_root p)
  | PORTAL_MULTI_QUERY => run_mutli_query (ps_plan p) txn
  | PORTAL_CMD_UTILITY => run_cmd_utility (ps_plan p) txn
  | PORTAL_Invalid_Query => throw (InternalError "Unexpected field type")
  end.
End ops.
End Ql.
