(* ===== verification/Parser.v ===== *)
(** The scanner and the parser of SQL statements: [src/src/parser/lex.l] and [src/src/parser/yacc.y].

    The scanner takes the longest match, and the first rule among equals, as flex does; the start condition of a
    comment is a variable of the scanner that outlives a request.  The grammar is without conflicts, so the
    parser that bison makes of it accepts exactly its language with one token of lookahead; here every nonterminal
    is a function.  A character that no rule knows is reported and skipped.  At the end of the text the scanner
    yields [T_EOF], which is the empty list here. *)

From Stdlib Require Import Floats.SpecFloat Strings.Ascii.
From S2P Require Import Prelude Bytes Errors Text Float32 Values Agg Analyze.

(** ** Tokens *)

Inductive keyword :=
  | SHOW | LOAD | TXN_BEGIN | TXN_COMMIT | TXN_ABORT | TXN_ROLLBACK | TABLES | CREATE | TABLE | DROP | DESC | INSERT_ | INTO
  | VALUES | DELETE_ | FROM | WHERE | UPDATE_ | SET | OUTPUT | OFF | SELECT | INT | CHAR | FLOAT | DATETIME | INDEX | AND
  | JOIN | EXIT | HELP | ORDER | BY | LIMIT | ASC | BIGINT | KCOUNT | KMAX | KMIN | KSUM | AS.

Inductive token :=
  | KW (k : keyword)
  | SYM (c : Ascii.ascii)     (** a token that is its character *)
  | GEQ | LEQ | NEQ
  | IDENTIFIER (sv_str : string)
  | VALUE_INT_BIGINT (sv_str : string)
  | VALUE_FLOAT (sv_float : spec_float)
  | VALUE_STRING (sv_str : string).

Module Lex.
Import Text.

Definition kw_text (k : keyword) : string :=
  match k with
  | SHOW => "SHOW" | LOAD => "LOAD" | TXN_BEGIN => "BEGIN" | TXN_COMMIT => "COMMIT" | TXN_ABORT => "ABORT" | TXN_ROLLBACK => "ROLLBACK"
  | TABLES => "TABLES" | CREATE => "CREATE" | TABLE => "TABLE" | DROP => "DROP" | DESC => "DESC" | INSERT_ => "INSERT" | INTO => "INTO"
  | VALUES => "VALUES" | DELETE_ => "DELETE" | FROM => "FROM" | WHERE => "WHERE" | UPDATE_ => "UPDATE" | SET => "SET"
  | OUTPUT => "OUTPUT_FILE" | OFF => "OFF" | SELECT => "SELECT" | INT => "INT" | CHAR => "CHAR" | FLOAT => "FLOAT" | DATETIME => "DATETIME"
  | INDEX => "INDEX" | AND => "AND" | JOIN => "JOIN" | EXIT => "EXIT" | HELP => "HELP" | ORDER => "ORDER" | BY => "BY" | LIMIT => "LIMIT"
  | ASC => "ASC" | BIGINT => "BIGINT" | KCOUNT => "COUNT" | KMAX => "MAX" | KMIN => "MIN" | KSUM => "SUM" | AS => "AS"
  end.
Definition keywords : list keyword :=
  [SHOW; LOAD; TXN_BEGIN; TXN_COMMIT; TXN_ABORT; TXN_ROLLBACK; TABLES; CREATE; TABLE; DROP; DESC; INSERT_; INTO; VALUES; DELETE_; FROM; WHERE;
   UPDATE_; SET; OUTPUT; OFF; SELECT; INT; CHAR; FLOAT; DATETIME; INDEX; AND; JOIN; EXIT; HELP; ORDER; BY; LIMIT; ASC; BIGINT; KCOUNT; KMAX; KMIN; KSUM; AS].

(** characters *)
Definition code (c : Ascii.ascii) : Z := Z.of_nat (Ascii.nat_of_ascii c).
Definition chr (n : Z) (c : Ascii.ascii) : bool := code c =? n.
Definition between (lo hi : Z) (c : Ascii.ascii) : bool := (lo <=? code c) && (code c <=? hi).
Definition is_digit : Ascii.ascii -> bool := between 48 57.
Definition is_alpha (c : Ascii.ascii) : bool := between 65 90 c || between 97 122 c.
Definition is_ident (c : Ascii.ascii) : bool := chr 95 c || is_alpha c || is_digit c.
Definition is_blank (c : Ascii.ascii) : bool := chr 32 c || chr 9 c || chr 10 c || chr 13 c.
(** [; ( ) , * = .] *)
Definition is_single (c : Ascii.ascii) : bool := existsb (fun n => chr n c) [59; 40; 41; 44; 42; 61; 46].
Definition upper (c : Ascii.ascii) : Ascii.ascii := if between 97 122 c then Ascii.ascii_of_nat (Z.to_nat (code c - 32)) else c.

(** the longest prefix of such characters *)
Fixpoint span (f : Ascii.ascii -> bool) (s : text) : text * text :=
  match s with
  | c :: r => if f c then let '(w, r) := span f r in (c :: w, r) else ([], s)
  | [] => ([], [])
  end.
Definition string_of (s : text) : string := String.string_of_list_ascii s.

(** keywords are case insensitive *)
Definition word (w : text) : token :=
  match find (fun k => bool_decide (str (kw_text k) = upper <$> w)) keywords with Some k => KW k | None => IDENTIFIER (string_of w) end.

(** what a match is: a token, text that is skipped, or the start of a comment *)
Inductive action := Token (t : token) | Skip | Comment.

(** [file_path]: its expression matches up to two points, a slash, and then everything up to a space *)
Definition path (dots : text) (s : text) : token * text := let '(w, r) := span (fun c => negb (chr 32 c)) s in (VALUE_STRING (string_of (dots ++ w)), r).

(** a text that starts with a slash: a comment only when the path would be no longer *)
Definition slash (s : text) : action * text :=
  let '(t, r) := path [] s in
  match s with
  | _ :: c :: r' => if chr 42 c && bool_decide (r = r') then (Comment, r') else (Token t, r)
  | _ => (Token t, r)
  end.
(** a text that starts with a point *)
Definition point (c : Ascii.ascii) (s : text) : action * text :=
  match s with
  | d :: r =>
      if chr 47 d then let '(t, r) := path [c] s in (Token t, r)
      else if chr 46 d then
        match r with
        | e :: _ => if chr 47 e then let '(t, r) := path [c; d] r in (Token t, r) else (Token (SYM c), s)
        | [] => (Token (SYM c), s)
        end
      else (Token (SYM c), s)
  | [] => (Token (SYM c), s)
  end.
Definition number (s : text) : token * text :=
  let '(w, r) := span is_digit s in
  match r with
  | c :: r' => if chr 46 c then let '(f, r') := span is_digit r' in (VALUE_FLOAT (Dec.atof (w ++ c :: f)), r') else (VALUE_INT_BIGINT (string_of w), r)
  | [] => (VALUE_INT_BIGINT (string_of w), r)
  end.

(** the match at the front of a text: [c] is its first character, [s] the others *)
Definition scan (c : Ascii.ascii) (s : text) : action * text :=
  if is_blank c then (Skip, s)
  else if is_alpha c then let '(w, r) := span is_ident (c :: s) in (Token (word w), r)
  else if is_digit c then let '(t, r) := number (c :: s) in (Token t, r)
  else if chr 45 c then
    match s with
    | d :: r => if chr 45 d then (Skip, (span (fun c => negb (chr 10 c)) r).2) else (Token (SYM c), s)
    | [] => (Token (SYM c), s)
    end
  else if chr 43 c then (Token (SYM c), s)
  else if chr 47 c then slash (c :: s)
  else if chr 46 c then point c s
  else if chr 39 c then
    match span (fun c => negb (chr 39 c)) s with
    | (w, _ :: r) => (Token (VALUE_STRING (string_of w)), r)
    | (_, []) => (Skip, s)
    end
  else if chr 62 c then match s with d :: r => if chr 61 d then (Token GEQ, r) else (Token (SYM c), s) | [] => (Token (SYM c), s) end
  else if chr 60 c then
    match s with
    | d :: r => if chr 61 d then (Token LEQ, r) else if chr 62 d then (Token NEQ, r) else (Token (SYM c), s)
    | [] => (Token (SYM c), s)
    end
  else if is_single c then (Token (SYM c), s)
  else (Skip, s).

(** the text after the end of a comment, if it ends *)
Fixpoint comment (s : text) : option text :=
  match s with
  | c :: r =>
      match r with
      | d :: r' => if chr 42 c && chr 47 d then Some r' else comment r
      | [] => None
      end
  | [] => None
  end.

(** the tokens of a text, and whether it ends inside of a comment; [n] bounds the number of matches *)
Fixpoint tokens (n : nat) (in_comment : bool) (s : text) : list token * bool :=
  match n with
  | O => ([], in_comment)
  | S n =>
      if in_comment then match comment s with Some r => tokens n false r | None => ([], true) end
      else
        match s with
        | [] => ([], false)
        | c :: r =>
            match scan c r with
            | (Token t, r) => let '(l, b) := tokens n false r in (t :: l, b)
            | (Skip, r) => tokens n false r
            | (Comment, r) => tokens n true r
            end
        end
  end.
Definition lex (in_comment : bool) (s : text) : list token * bool := tokens (S (2 * length s)) in_comment s.
End Lex.

(** ** The grammar *)

(** a syntax error, or an exception thrown by an action *)
Inductive perr := Syntax | Thrown (e : error).

Module Gr.
Import ast.
Local Open Scope prog_scope.
Abbreviation P A := (M perr (list token) A).

(** the next token, if it is such that [f] gives a value *)
Definition accept {A} (f : token -> option A) : P A := fun ts =>
  match ts with t :: r => match f t with Some a => (Ok a, r) | None => (Throw Syntax, ts) end | [] => (Throw Syntax, []) end.
Definition next_is (f : token -> bool) : P bool := gets (fun ts => match ts with t :: _ => f t | [] => false end).

Definition is_kw (k : keyword) (t : token) : bool := match t with KW k' => bool_decide (Lex.kw_text k = Lex.kw_text k') | _ => false end.
Definition is_sym (c : Ascii.ascii) (t : token) : bool := match t with SYM c' => Ascii.eqb c c' | _ => false end.
#[global] Arguments is_sym _%_char_scope _.
Definition expect (f : token -> bool) : P unit := accept (fun t => if f t then Some tt else None).
Definition kw (k : keyword) : P unit := expect (is_kw k).
Definition sym (c : Ascii.ascii) : P unit := expect (is_sym c).
#[global] Arguments sym _%_char_scope _.

(** [tbName], [colName] *)
Definition name : P string := accept (fun t => match t with IDENTIFIER s => Some s | _ => None end).

(** a list with a separator, as in [colList: col | colList ',' col]; [n] bounds its length *)
Fixpoint more {A} (n : nat) (sep : token -> bool) (item : P A) : P (list A) :=
  match n with
  | O => fail OutOfFuel
  | S n =>
      let* b := next_is sep in
      if b : bool then
        let* _ := expect sep in
        let* x := item in
        let* l := more n sep item in
        ret (x :: l)
      else ret []
  end.
Definition list_of {A} (sep : token -> bool) (item : P A) : P (list A) :=
  let* x := item in
  let* n := gets (@length token) in
  let* l := more (S n) sep item in
  ret (x :: l).
Definition comma : token -> bool := is_sym ",".

(** [value] *)
Definition float_lit (f : spec_float) : P Value := let* w := deref (f32_bits f) in ret (FloatLit w).
Definition sign : P bool :=
  accept (fun t => if is_sym "+" t then Some false else if is_sym "-" t then Some true else None).
Definition is_sign (t : token) : bool := is_sym "+" t || is_sym "-" t.
Definition literal (neg : bool) (strings : bool) : P Value :=
  let* t := accept (fun t => match t with
                             | VALUE_INT_BIGINT _ | VALUE_FLOAT _ => Some t
                             | VALUE_STRING _ => if strings then Some t else None
                             | _ => None
                             end) in
  match t with
  | VALUE_INT_BIGINT s => ret (Int_Bint_Lit (if neg then "-" +:+ s else s))
  | VALUE_FLOAT f => float_lit (if neg then SFopp f else f)
  | VALUE_STRING s => ret (StringLit s)
  | _ => throw Syntax
  end.
Definition value : P Value :=
  let* b := next_is is_sign in
  if b : bool then let* neg := sign in literal neg false else literal false true.

(** [col]: a point after the first name decides *)
Definition col : P Col :=
  let* x := name in
  let* b := next_is (is_sym ".") in
  if b : bool then sym ".";; let* y := name in ret (mkCol x y NONE "") else ret (mkCol "" x NONE "").

Definition op : P SvCompOp :=
  accept (fun t => match t with
                   | NEQ => Some SV_OP_NE | LEQ => Some SV_OP_LE | GEQ => Some SV_OP_GE
                   | _ => if is_sym "=" t then Some SV_OP_EQ else if is_sym "<" t then Some SV_OP_LT else if is_sym ">" t then Some SV_OP_GT else None
                   end).
Definition is_name (t : token) : bool := match t with IDENTIFIER _ => true | _ => false end.
Definition expr : P Expr :=
  let* b := next_is is_name in
  if b : bool then let* c := col in ret (ECol c) else let* v := value in ret (EValue v).
Definition condition : P BinaryExpr := let* l := col in let* o := op in let* r := expr in ret (mkBinaryExpr l o r).
Definition optWhereClause : P (list BinaryExpr) :=
  let* b := next_is (is_kw WHERE) in
  if b : bool then kw WHERE;; list_of (is_kw AND) condition else ret [].

(** [setClause]: in [a = b + v] the name [b] is not kept *)
Definition setClause : P SetClause :=
  let* x := name in
  sym "=";;
  let* b := next_is is_name in
  if b : bool then
    let* _ := name in
    let* neg := sign in
    let* v := value in
    ret (mkSetClause x (if neg then 45 else 43) v)
  else let* v := value in ret (mkSetClause x 0 v).

(** [field], [type]: [std::stoi] may throw *)
Definition type_len : P TypeLen :=
  let* t := accept (fun t => match t with
                             | KW INT => Some SV_TYPE_INT | KW CHAR => Some SV_TYPE_STRING | KW FLOAT => Some SV_TYPE_FLOAT
                             | KW BIGINT => Some SV_TYPE_BIGINT | KW DATETIME => Some SV_TYPE_DATETIME | _ => None
                             end) in
  match t with
  | SV_TYPE_INT | SV_TYPE_FLOAT => ret (mkTypeLen t 4)
  | SV_TYPE_BIGINT | SV_TYPE_DATETIME => ret (mkTypeLen t 8)
  | SV_TYPE_STRING =>
      sym "(";;
      let* n := accept (fun t => match t with VALUE_INT_BIGINT s => Some s | _ => None end) in
      sym ")";;
      match Lit.stoi (Text.str n) with inr len => ret (mkTypeLen t len) | inl e => throw (Thrown e) end
  end.
Definition field : P Field := let* x := name in let* t := type_len in ret (ColDef x t).

(** [selector] *)
Definition aggregate_type (t : token) : option AggregateType :=
  match t with KW KCOUNT => Some COUNT | KW KMAX => Some MAX | KW KMIN => Some MIN | KW KSUM => Some SUM | _ => None end.
Definition aggregate_clause : P Col :=
  let* a := accept aggregate_type in
  sym "(";;
  let* b := next_is (is_sym "*") in
  let* c := (if b : bool then sym "*";; ret (mkCol "" "" NONE "") else col) in
  sym ")";;
  let* b := next_is (is_kw AS) in
  if b : bool then kw AS;; let* x := name in ret (mkCol (c_tab_name c) (c_col_name c) a x)
  else ret (mkCol (c_tab_name c) (c_col_name c) a (c_another_name c)).
Definition selector : P (list Col) :=
  let* star := next_is (is_sym "*") in
  if star : bool then sym "*";; ret []
  else
    let* agg := next_is (fun t => bool_decide (is_Some (aggregate_type t))) in
    if agg : bool then list_of comma aggregate_clause else list_of comma col.

(** the clauses after the tables *)
Definition order_clause : P OrderBy :=
  let* c := col in
  let* a := next_is (is_kw ASC) in
  if a : bool then kw ASC;; ret (mkOrderBy c OrderBy_ASC)
  else
    let* d := next_is (is_kw DESC) in
    if d : bool then kw DESC;; ret (mkOrderBy c OrderBy_DESC) else ret (mkOrderBy c OrderBy_DEFAULT).
Definition opt_order_clause : P (option (list OrderBy)) :=
  let* b := next_is (is_kw ORDER) in
  if b : bool then kw ORDER;; kw BY;; let* l := list_of comma order_clause in ret (Some l) else ret None.
Definition opt_limit_clause : P (option Value) :=
  let* b := next_is (is_kw LIMIT) in
  if b : bool then kw LIMIT;; let* v := value in ret (Some v) else ret None.
Definition in_parens {A} (p : P A) : P A := sym "(";; let* x := p in sym ")";; ret x.

(** [stmt]: the first tokens choose the rule *)
Definition stmt : P TreeNode :=
  let* k := accept (fun t => match t with KW k => Some k | _ => None end) in
  match k with
  | TXN_BEGIN => ret TxnBegin
  | TXN_COMMIT => ret TxnCommit
  | TXN_ABORT => ret TxnAbort
  | TXN_ROLLBACK => ret TxnRollback
  | SHOW =>
      let* b := next_is (is_kw TABLES) in
      if b : bool then kw TABLES;; ret ShowTables else kw INDEX;; kw FROM;; let* t := name in ret (ShowIndexes t)
  | CREATE =>
      let* b := next_is (is_kw TABLE) in
      if b : bool then kw TABLE;; let* t := name in let* l := in_parens (list_of comma field) in ret (CreateTable t l)
      else kw INDEX;; let* t := name in let* l := in_parens (list_of comma name) in ret (CreateIndex t l)
  | DROP =>
      let* b := next_is (is_kw TABLE) in
      if b : bool then kw TABLE;; let* t := name in ret (DropTable t)
      else kw INDEX;; let* t := name in let* l := in_parens (list_of comma name) in ret (DropIndex t l)
  | DESC => let* t := name in ret (DescTable t)
  | INSERT_ => kw INTO;; let* t := name in kw VALUES;; let* l := in_parens (list_of comma value) in ret (InsertStmt t l)
  | DELETE_ => kw FROM;; let* t := name in let* w := optWhereClause in ret (DeleteStmt t w)
  | UPDATE_ => let* t := name in kw SET;; let* l := list_of comma setClause in let* w := optWhereClause in ret (UpdateStmt t l w)
  | SELECT =>
      let* s := selector in
      kw FROM;;
      let* ts := list_of (fun t => comma t || is_kw JOIN t) name in
      let* w := optWhereClause in
      let* o := opt_order_clause in
      let* l := opt_limit_clause in
      ret (SelectStmt s ts w o l)
  | LOAD =>
      let* f := accept (fun t => match t with VALUE_STRING s => Some s | _ => None end) in
      kw INTO;;
      let* t := name in
      ret (LoadData f t)
  | _ => throw Syntax
  end.

(** [start]; [None] is a null [parse_tree] *)
Definition start : P (option TreeNode) :=
  let* ts := get in
  match ts with
  | [] => ret None
  | t :: _ =>
      if is_kw HELP t then kw HELP;; ret (Some Help)
      else if is_kw SET t then kw SET;; kw OUTPUT;; kw OFF;; ret (Some SetOutputOff)
      else if is_kw EXIT t then kw EXIT;; ret None
      else let* n := stmt in sym ";";; ret (Some n)
  end.
End Gr.

(** [yyparse] on the text of a request; the state is the start condition of the scanner.  It is that at the end of the text when
    the parser has seen [T_EOF], and outside of comments when it has stopped at a token.  [None] is a syntax error. *)
Definition yyparse (s : text) : Prog bool (option (option ast.TreeNode)) := fun in_comment =>
  let '(ts, at_end) := Lex.lex in_comment s in
  match Gr.start ts with
  | (Ok n, _) => (Ok (Some n), match ts with [] => at_end | _ => false end)
  | (Throw Syntax, r) => (Ok None, match r with [] => at_end | _ => false end)
  | (Throw (Thrown e), _) => (Throw e, false)
  | (Fail f, _) => (Fail f, false)
  end.
