(* ===== verification/Grammar.v ===== *)
(** The grammar of [src/src/parser/yacc.y], one constructor for each of its productions, and the proof that the
    functions of [Parser] accept exactly its language: every nonterminal has a soundness lemma (what is consumed derives
    the value) and a completeness lemma (a derivation is found when the next token is not one the rule could go on
    with). *)

From Stdlib Require Import Floats.SpecFloat Strings.Ascii.
From S2P Require Import Prelude Bytes Errors Text Float32 Values Agg Analyze Parser.

(** ** The productions *)

Module Gm.
Import ast.
Abbreviation G A := (list token -> A -> Prop).
Abbreviation tk c := (SYM c%char).

(** the left recursive lists: [l: item | l sep item] *)
Inductive list_of {A} (sep : token -> Prop) (item : G A) : G (list A) :=
  | list_one u x : item u x -> list_of sep item u [x]
  | list_snoc u l s v x : list_of sep item u l -> sep s -> item v x -> list_of sep item (u ++ s :: v) (l ++ [x]).
Definition comma (t : token) : Prop := t = tk ",".

Inductive colName : G string := colName_id s : colName [IDENTIFIER s] s.

Inductive value : G Value :=
  | value_int s : value [VALUE_INT_BIGINT s] (Int_Bint_Lit s)
  | value_float f w : f32_bits f = Some w -> value [VALUE_FLOAT f] (FloatLit w)
  | value_string s : value [VALUE_STRING s] (StringLit s)
  | value_plus_int s : value [tk "+"; VALUE_INT_BIGINT s] (Int_Bint_Lit s)
  | value_minus_int s : value [tk "-"; VALUE_INT_BIGINT s] (Int_Bint_Lit ("-" +:+ s))
  | value_plus_float f w : f32_bits f = Some w -> value [tk "+"; VALUE_FLOAT f] (FloatLit w)
  | value_minus_float f w : f32_bits (SFopp f) = Some w -> value [tk "-"; VALUE_FLOAT f] (FloatLit w).

Inductive col : G Col :=
  | col_full t c : col [IDENTIFIER t; tk "."; IDENTIFIER c] (mkCol t c NONE "")
  | col_short c : col [IDENTIFIER c] (mkCol "" c NONE "").

Inductive op : token -> SvCompOp -> Prop :=
  | op_eq : op (tk "=") SV_OP_EQ
  | op_lt : op (tk "<") SV_OP_LT
  | op_gt : op (tk ">") SV_OP_GT
  | op_ne : op NEQ SV_OP_NE
  | op_le : op LEQ SV_OP_LE
  | op_ge : op GEQ SV_OP_GE.

Inductive expr : G Expr :=
  | expr_value u v : value u v -> expr u (EValue v)
  | expr_col u c : col u c -> expr u (ECol c).
Inductive condition : G BinaryExpr :=
  | condition_op u l t o v r : col u l -> op t o -> expr v r -> condition (u ++ t :: v) (mkBinaryExpr l o r).
Inductive optWhereClause : G (list BinaryExpr) :=
  | where_none : optWhereClause [] []
  | where_some u l : list_of (eq (KW AND)) condition u l -> optWhereClause (KW WHERE :: u) l.

Inductive sign : token -> Z -> Prop := sign_plus : sign (tk "+") 43 | sign_minus : sign (tk "-") 45.
Inductive setClause : G SetClause :=
  | set_value x u v : value u v -> setClause (IDENTIFIER x :: tk "=" :: u) (mkSetClause x 0 v)
  | set_expr x y s n u v : sign s n -> value u v -> setClause (IDENTIFIER x :: tk "=" :: IDENTIFIER y :: s :: u) (mkSetClause x n v).

Inductive type : G TypeLen :=
  | type_int : type [KW INT] (mkTypeLen SV_TYPE_INT 4)
  | type_char s len : Lit.stoi (Text.str s) = inr len -> type [KW CHAR; tk "("; VALUE_INT_BIGINT s; tk ")"] (mkTypeLen SV_TYPE_STRING len)
  | type_float : type [KW FLOAT] (mkTypeLen SV_TYPE_FLOAT 4)
  | type_bigint : type [KW BIGINT] (mkTypeLen SV_TYPE_BIGINT 8)
  | type_datetime : type [KW DATETIME] (mkTypeLen SV_TYPE_DATETIME 8).
Inductive field : G Field := field_def x u t : type u t -> field (IDENTIFIER x :: u) (ColDef x t).

Inductive aggregate_type : token -> AggregateType -> Prop :=
  | agg_count : aggregate_type (KW KCOUNT) COUNT
  | agg_max : aggregate_type (KW KMAX) MAX
  | agg_min : aggregate_type (KW KMIN) MIN
  | agg_sum : aggregate_type (KW KSUM) SUM.
Inductive aggregate_clause : G Col :=
  | agg_col t a u c : aggregate_type t a -> col u c ->
      aggregate_clause (t :: tk "(" :: u ++ [tk ")"]) (mkCol (c_tab_name c) (c_col_name c) a (c_another_name c))
  | agg_star t a : aggregate_type t a -> aggregate_clause [t; tk "("; tk "*"; tk ")"] (mkCol "" "" a "")
  | agg_col_as t a u c x : aggregate_type t a -> col u c ->
      aggregate_clause (t :: tk "(" :: u ++ [tk ")"; KW AS; IDENTIFIER x]) (mkCol (c_tab_name c) (c_col_name c) a x)
  | agg_star_as t a x : aggregate_type t a -> aggregate_clause [t; tk "("; tk "*"; tk ")"; KW AS; IDENTIFIER x] (mkCol "" "" a x).
Inductive selector : G (list Col) :=
  | selector_star : selector [tk "*"] []
  | selector_cols u l : list_of comma col u l -> selector u l
  | selector_aggregates u l : list_of comma aggregate_clause u l -> selector u l.

Inductive tableList_sep : token -> Prop := sep_comma : tableList_sep (tk ",") | sep_join : tableList_sep (KW JOIN).

Inductive opt_asc_desc : G OrderByDir :=
  | dir_asc : opt_asc_desc [KW ASC] OrderBy_ASC
  | dir_desc : opt_asc_desc [KW DESC] OrderBy_DESC
  | dir_default : opt_asc_desc [] OrderBy_DEFAULT.
Inductive order_clause : G OrderBy :=
  | order_col u c v d : col u c -> opt_asc_desc v d -> order_clause (u ++ v) (mkOrderBy c d).
Inductive opt_order_clause : G (option (list OrderBy)) :=
  | order_some u l : list_of comma order_clause u l -> opt_order_clause (KW ORDER :: KW BY :: u) (Some l)
  | order_none : opt_order_clause [] None.
Inductive opt_limit_clause : G (option Value) :=
  | limit_some u v : value u v -> opt_limit_clause (KW LIMIT :: u) (Some v)
  | limit_none : opt_limit_clause [] None.

(** [dbStmt], [ddl], [dml], [txnStmt], [loadDataStmt] *)
Inductive stmt : G TreeNode :=
  | st_begin : stmt [KW TXN_BEGIN] TxnBegin
  | st_commit : stmt [KW TXN_COMMIT] TxnCommit
  | st_abort : stmt [KW TXN_ABORT] TxnAbort
  | st_rollback : stmt [KW TXN_ROLLBACK] TxnRollback
  | st_show_tables : stmt [KW SHOW; KW TABLES] ShowTables
  | st_show_index t : stmt [KW SHOW; KW INDEX; KW FROM; IDENTIFIER t] (ShowIndexes t)
  | st_create_table t u l : list_of comma field u l ->
      stmt (KW CREATE :: KW TABLE :: IDENTIFIER t :: tk "(" :: u ++ [tk ")"]) (CreateTable t l)
  | st_drop_table t : stmt [KW DROP; KW TABLE; IDENTIFIER t] (DropTable t)
  | st_desc t : stmt [KW DESC; IDENTIFIER t] (DescTable t)
  | st_create_index t u l : list_of comma colName u l ->
      stmt (KW CREATE :: KW INDEX :: IDENTIFIER t :: tk "(" :: u ++ [tk ")"]) (CreateIndex t l)
  | st_drop_index t u l : list_of comma colName u l ->
      stmt (KW DROP :: KW INDEX :: IDENTIFIER t :: tk "(" :: u ++ [tk ")"]) (DropIndex t l)
  | st_insert t u l : list_of comma value u l ->
      stmt (KW INSERT_ :: KW INTO :: IDENTIFIER t :: KW VALUES :: tk "(" :: u ++ [tk ")"]) (InsertStmt t l)
  | st_delete t u w : optWhereClause u w -> stmt (KW DELETE_ :: KW FROM :: IDENTIFIER t :: u) (DeleteStmt t w)
  | st_update t u l v w : list_of comma setClause u l -> optWhereClause v w ->
      stmt (KW UPDATE_ :: IDENTIFIER t :: KW SET :: u ++ v) (UpdateStmt t l w)
  | st_select u s v ts w c x o y n :
      selector u s -> list_of tableList_sep colName v ts -> optWhereClause w c -> opt_order_clause x o -> opt_limit_clause y n ->
      stmt (KW SELECT :: u ++ KW FROM :: v ++ w ++ x ++ y) (SelectStmt s ts c o n)
  | st_load f t : stmt [KW LOAD; VALUE_STRING f; KW INTO; IDENTIFIER t] (LoadData f t).

(** [start]; the production of [T_EOF] needs the end of the text, so the tokens that follow are an argument *)
Inductive start : list token -> list token -> option TreeNode -> Prop :=
  | start_stmt u n rest : stmt u n -> start (u ++ [tk ";"]) rest (Some n)
  | start_help rest : start [KW HELP] rest (Some Help)
  | start_output_off rest : start [KW SET; KW OUTPUT; KW OFF] rest (Some SetOutputOff)
  | start_exit rest : start [KW EXIT] rest None
  | start_eof : start [] [] None.
End Gm.

(** ** The functions of [Parser] accept its language *)

Module GrP.
Import ast Gr.
Local Open Scope prog_scope.

Lemma word_kw k x : Lex.upper <$> x = Text.str (Lex.kw_text k) -> Lex.word x = KW k.
Proof. intros H. unfold Lex.word. rewrite H. clear H. destruct k; vm_compute; reflexivity. Qed.

(** ** Tokens *)

Lemma kw_text_inj k k' : Lex.kw_text k = Lex.kw_text k' -> k = k'.
Proof.
  intros H. assert (Hw : forall j, Lex.word (Text.str (Lex.kw_text j)) = KW j) by (intros j; apply word_kw; destruct j; vm_compute; reflexivity).
  pose proof (Hw k) as H1. rewrite H, Hw in H1. by injection H1.
Qed.
Lemma is_kw_spec k t : is_kw k t = true <-> t = KW k.
Proof.
  destruct t; simpl; try (split; [discriminate|intros; discriminate]). rewrite bool_decide_eq_true. split; [intros H; f_equal; symmetry; by apply kw_text_inj|by intros [= ->]].
Qed.
Lemma is_sym_spec c t : is_sym c t = true <-> t = SYM c.
Proof. destruct t; simpl; try (split; [discriminate|intros; discriminate]). rewrite Ascii.eqb_eq. split; [by intros ->|by intros [= ->]]. Qed.

(** the first token, if there is one *)
Definition head_is (f : token -> bool) (ts : list token) : bool := match ts with t :: _ => f t | [] => false end.
(** a text after which a rule cannot go on with a token of [bad] *)
Definition stops (bad : token -> bool) (ts : list token) : Prop := head_is bad ts = false.

Lemma stops_or (f g : token -> bool) ts : stops (fun t => f t || g t) ts -> stops f ts /\ stops g ts.
Proof. unfold stops. destruct ts; [done|]. simpl. by intros [? ?]%orb_false_iff. Qed.
Lemma stops_weaken (f g : token -> bool) ts : (forall t, f t = true -> g t = true) -> stops g ts -> stops f ts.
Proof. unfold stops. destruct ts as [|t]; [done|]. simpl. intros H Hg. destruct (f t) eqn:E; [|done]. apply H in E. congruence. Qed.

Lemma stops_and (f g : token -> bool) ts : stops f ts -> stops g ts -> stops (fun t => f t || g t) ts.
Proof. unfold stops. destruct ts; [done|]. simpl. by intros -> ->. Qed.

(** ** What a parser promises *)

Definition sound {A} (p : P A) (g : Gm.G A) : Prop := forall ts a r, p ts = (Ok a, r) -> exists u, ts = u ++ r /\ g u a.
Definition complete {A} (bad : token -> bool) (p : P A) (g : Gm.G A) : Prop :=
  forall u a rest, g u a -> stops bad rest -> p (u ++ rest) = (Ok a, rest).

Lemma accept_inv {A} (f : token -> option A) ts a r : accept f ts = (Ok a, r) -> exists t, ts = t :: r /\ f t = Some a.
Proof. unfold accept. destruct ts as [|t ts]; [done|]. destruct (f t) eqn:E; [|done]. intros [= -> ->]. by exists t. Qed.
Lemma expect_inv f ts x r : expect f ts = (Ok x, r) -> exists t, ts = t :: r /\ f t = true.
Proof. intros (t & -> & H)%accept_inv. exists t. by destruct (f t). Qed.
Lemma kw_inv k ts x r : kw k ts = (Ok x, r) -> ts = KW k :: r.
Proof. intros (t & -> & H)%expect_inv. apply is_kw_spec in H as ->. done. Qed.
Lemma sym_inv c ts x r : sym c ts = (Ok x, r) -> ts = SYM c :: r.
Proof. intros (t & -> & H)%expect_inv. apply is_sym_spec in H as ->. done. Qed.
Lemma name_inv ts x r : name ts = (Ok x, r) -> ts = IDENTIFIER x :: r.
Proof. intros (t & -> & H)%accept_inv. destruct t; try discriminate. by injection H as ->. Qed.
Lemma next_inv f ts b r : next_is f ts = (Ok b, r) -> b = head_is f ts /\ r = ts.
Proof. intros [= <- <-]. by destruct ts. Qed.
Lemma ret_inv {A} (a b : A) (s s' : list token) : ret (E := perr) a s = (Ok b, s') -> a = b /\ s = s'.
Proof. by intros [= -> ->]. Qed.

Lemma name_sound : sound name Gm.colName.
Proof. intros ts a r ->%name_inv. by exists [IDENTIFIER a]. Qed.
Lemma name_complete bad : complete bad name Gm.colName.
Proof. intros u a rest [s] _. done. Qed.

Lemma kw_step {B} k (m : P B) r : (kw k;; m) (KW k :: r) = m r.
Proof. unfold kw, expect, accept, bind. rewrite (proj2 (is_kw_spec k _) eq_refl). done. Qed.
Lemma sym_step {B} c (m : P B) r : (sym c;; m) (SYM c :: r) = m r.
Proof. unfold sym, expect, accept, bind. rewrite (proj2 (is_sym_spec c _) eq_refl). done. Qed.
Lemma next_step {B} f (k : bool -> P B) ts : (let* b := next_is f in k b) ts = k (head_is f ts) ts.
Proof. by destruct ts. Qed.
Lemma ret_step {A B} (a : A) (k : A -> P B) ts : (let* x := ret a in k x) ts = k a ts.
Proof. done. Qed.
Lemma name_step {B} s (k : string -> P B) r : (let* x := name in k x) (IDENTIFIER s :: r) = k s r.
Proof. done. Qed.
Lemma complete_step {A B} bad (p : P A) g (k : A -> P B) u a rest :
  complete bad p g -> g u a -> stops bad rest -> (let* x := p in k x) (u ++ rest) = k a rest.
Proof. intros Hc Hg Hs. unfold bind. by rewrite (Hc u a rest Hg Hs). Qed.
Lemma assoc_step {A B C} (m : P A) (k : A -> P B) (h : B -> P C) s : (let* x := (let* y := m in k y) in h x) s = (let* y := m in let* x := k y in h x) s.
Proof. apply bind_assoc. Qed.

(** opens what a run that has returned consists of *)
Ltac popen :=
  repeat match goal with
  | H : bind _ _ _ = (Ok _, _) |- _ => apply bind_inv in H as (? & ? & ? & H)
  | H : ret _ _ = (Ok _, _) |- _ => apply ret_inv in H as [? ?]; subst
  | H : throw _ _ = (Ok _, _) |- _ => discriminate H
  | H : kw _ _ = (Ok _, _) |- _ => apply kw_inv in H; subst
  | H : sym _ _ = (Ok _, _) |- _ => apply sym_inv in H; subst
  | H : name _ = (Ok _, _) |- _ => apply name_inv in H; subst
  | H : next_is _ _ = (Ok _, _) |- _ => apply next_inv in H as [? ?]; subst
  | H : (if head_is ?f ?ts then _ else _) _ = (Ok _, _) |- _ => destruct (head_is f ts) eqn:?
  end.
(** ends a proof of soundness with a production *)
Ltac by_rule c := eexists; split; cycle 1; [eapply c; eauto|repeat (cbn; rewrite <- app_assoc); reflexivity].

(** uses the soundness of a part *)
Ltac use_sound L := match goal with H : _ = (Ok _, _) |- _ => apply L in H as (? & -> & ?) end.
(** uses the completeness of a part *)
Ltac use_complete L := erewrite complete_step by (apply L || eassumption || done).

(** runs a parser over tokens that are known *)
Ltac known b := let v := eval vm_compute in b in change b with v.
Ltac pstep :=
  match goal with
  | |- context [is_kw ?k (KW ?k')] => known (is_kw k (KW k'))
  | |- context [is_sym ?c (SYM ?c')] => known (is_sym c (SYM c'))
  | |- context [is_kw ?k (SYM ?c')] => known (is_kw k (SYM c'))
  | |- context [is_sym ?c (KW ?k)] => known (is_sym c (KW k))
  | |- context [@bool_decide (Lex.kw_text ?j = Lex.kw_text ?k) ?d] => known (@bool_decide (Lex.kw_text j = Lex.kw_text k) d)
  | |- context [Ascii.eqb ?c ?c'] => known (Ascii.eqb c c')
  | |- context [(kw _;; _) (KW _ :: _)] => rewrite kw_step
  | |- context [(sym _;; _) (SYM _ :: _)] => rewrite sym_step
  | |- context [bind name _ (IDENTIFIER _ :: _)] => rewrite name_step
  | |- context [bind (next_is _) _ _] => rewrite next_step
  | |- context [bind (ret _) _ _] => rewrite ret_step
  end; cbn [head_is app orb is_kw is_sym is_name].
Ltac pgo := cbn [head_is app orb is_kw is_sym is_name]; repeat pstep.

(** ** Lists *)
Section lists.
Context {A : Type} (sep : token -> bool) (S : token -> Prop) (item : P A) (g : Gm.G A).
Hypothesis Hsep : forall t, sep t = true <-> S t.

(** what follows the first item, from its front *)
Inductive items : Gm.G (list A) :=
  | items_nil : items [] []
  | items_cons t v x u l : S t -> g v x -> items u l -> items (t :: v ++ u) (x :: l).

Lemma items_snoc u l t v x : items u l -> S t -> g v x -> items (u ++ t :: v) (l ++ [x]).
Proof using.
  induction 1 as [|t' v' x' u l Ht Hv Hu IH]; intros Ht' Hx; simpl.
  - rewrite <- (app_nil_r v). constructor; [done|done|constructor].
  - rewrite <- app_assoc. constructor; auto.
Qed.
Lemma list_items u l : Gm.list_of S g u l -> exists v x w r, u = v ++ w /\ l = x :: r /\ g v x /\ items w r.
Proof using.
  induction 1 as [u x Hx|u l t v x _ (v0 & x0 & w & r & -> & -> & Hx0 & Hw) Ht Hx].
  - exists u, x, [], []. rewrite app_nil_r. split_and!; [done|done|done|constructor].
  - exists v0, x0, (w ++ t :: v), (r ++ [x]). rewrite <- app_assoc. split_and!; [done|done|done|by apply items_snoc].
Qed.
Lemma items_length u l : items u l -> (length l <= length u)%nat.
Proof using. induction 1; simpl; [lia|]. rewrite length_app. lia. Qed.

Lemma more_sound n ts l r : sound item g -> more n sep item ts = (Ok l, r) ->
  exists u, ts = u ++ r /\ forall u0 l0, Gm.list_of S g u0 l0 -> Gm.list_of S g (u0 ++ u) (l0 ++ l).
Proof using Hsep.
  intros Hs. revert ts l r. induction n as [|n IH]; intros ts l r H; [discriminate H|]. cbn [more] in H. popen.
  - match goal with H : expect _ _ = _ |- _ => apply expect_inv in H as (t & -> & Ht) end.
    match goal with H : item _ = _ |- _ => apply Hs in H as (v & -> & Hv) end.
    match goal with H : more _ _ _ _ = _ |- _ => apply IH in H as (w & -> & Hw) end.
    exists (t :: v ++ w). split; [by cbn; rewrite app_assoc|]. intros u0 l0 H0.
    replace (u0 ++ t :: v ++ w) with ((u0 ++ t :: v) ++ w) by (by rewrite <- app_assoc).
    rewrite (cons_middle _ l0), app_assoc. apply Hw. constructor; [done|by apply Hsep|done].
  - exists []. split; [done|]. intros u0 l0 H0. by rewrite !app_nil_r.
Qed.
Lemma list_sound : sound item g -> sound (list_of sep item) (Gm.list_of S g).
Proof using Hsep.
  intros Hs ts l r H. unfold list_of in H. popen.
  match goal with H : item _ = _ |- _ => apply Hs in H as (v & -> & Hv) end.
  match goal with H : gets _ _ = _ |- _ => injection H as <- <- end.
  match goal with H : more _ _ _ _ = _ |- _ => apply (more_sound _ _ _ _ Hs) in H as (w & -> & Hw) end.
  exists (v ++ w). split; [by rewrite app_assoc|]. apply (Hw v [_]). by constructor.
Qed.

Context (bad : token -> bool).
Hypothesis Hcomp : complete bad item g.
Hypothesis Hgo : forall t, S t -> bad t = false.

Lemma items_stop u l rest : items u l -> stops bad rest -> stops bad (u ++ rest).
Proof using Hgo. intros [|t v x u' l' Ht _ _] H; [done|]. unfold stops. simpl. by apply Hgo. Qed.
Lemma more_complete u l : items u l -> forall n rest, (length l < n)%nat -> stops (fun t => sep t || bad t) rest ->
  more n sep item (u ++ rest) = (Ok l, rest).
Proof using Hsep Hcomp Hgo.
  induction 1 as [|t v x u l Ht Hv Hu IH]; intros [|n] rest Hn Hr; simpl in Hn; try lia; cbn [more]; rewrite next_step.
  - assert (E : head_is sep rest = false) by (by apply stops_or in Hr as []).
    change ([] ++ rest) with rest. by rewrite E.
  - assert (Hb : stops bad rest) by (by apply stops_or in Hr as []).
    apply Hsep in Ht. cbn [head_is app]. rewrite Ht. unfold bind at 1, expect, accept. rewrite Ht. rewrite <- app_assoc.
    rewrite (complete_step bad _ _ _ v x) by (try done; by eapply items_stop).
    unfold bind. rewrite IH by (done || lia). done.
Qed.
Lemma list_complete : complete (fun t => sep t || bad t) (list_of sep item) (Gm.list_of S g).
Proof using Hsep Hcomp Hgo.
  intros u l rest H Hr. apply list_items in H as (v & x & w & r & -> & -> & Hx & Hw).
  assert (Hb : stops bad rest) by (by apply stops_or in Hr as []).
  unfold list_of. rewrite <- app_assoc. rewrite (complete_step bad _ _ _ v x) by (try done; by eapply items_stop).
  unfold bind at 1, gets. unfold bind. rewrite (more_complete w r Hw); [done| |done].
  pose proof (items_length _ _ Hw). rewrite length_app. lia.
Qed.
End lists.

(** ** Values, columns and conditions *)

Lemma complete_more {A} (bad bad' : token -> bool) (p : P A) g : (forall t, bad t = true -> bad' t = true) -> complete bad p g -> complete bad' p g.
Proof. intros H Hc u a rest Hg Hr. apply (Hc u a rest Hg). by apply (stops_weaken _ bad'). Qed.

Lemma sign_inv ts neg r : sign ts = (Ok neg, r) -> exists t, ts = t :: r /\ t = if neg then Gm.tk "-" else Gm.tk "+".
Proof.
  intros (t & -> & H)%accept_inv. exists t. split; [done|]. destruct (is_sym "+" t) eqn:E.
  - injection H as <-. by apply is_sym_spec in E.
  - destruct (is_sym "-" t) eqn:E'; [|done]. injection H as <-. by apply is_sym_spec in E'.
Qed.
Lemma sign_sound ts neg r : sign ts = (Ok neg, r) -> exists t, ts = t :: r /\ Gm.sign t (if neg then 45 else 43).
Proof. intros (t & -> & ->)%sign_inv. eexists. split; [done|]. destruct neg; constructor. Qed.
Lemma float_inv f ts v r : float_lit f ts = (Ok v, r) -> exists w, f32_bits f = Some w /\ v = FloatLit w /\ ts = r.
Proof. unfold float_lit, bind, deref. destruct (f32_bits f) as [w|]; [|done]. intros [= <- <-]. by exists w. Qed.

Lemma value_sound : sound value Gm.value.
Proof.
  intros ts v r H. unfold value, literal in H. popen.
  - match goal with H : sign _ = (Ok ?b, _) |- _ => destruct b; apply sign_inv in H as (t & -> & ->) end.
    all: match goal with H : accept _ _ = _ |- _ => apply accept_inv in H as (t & -> & Ht) end; destruct t; try discriminate Ht; injection Ht as <-.
    + popen. by_rule Gm.value_minus_int.
    + apply float_inv in H as (w & Hw & -> & ->). by_rule Gm.value_minus_float.
    + popen. by_rule Gm.value_plus_int.
    + apply float_inv in H as (w & Hw & -> & ->). by_rule Gm.value_plus_float.
  - match goal with H : accept _ _ = _ |- _ => apply accept_inv in H as (t & -> & Ht) end; destruct t; try discriminate Ht; injection Ht as <-.
    + popen. by_rule Gm.value_int.
    + apply float_inv in H as (w & Hw & -> & ->). by_rule Gm.value_float.
    + popen. by_rule Gm.value_string.
Qed.
Lemma value_complete bad : complete bad value Gm.value.
Proof.
  intros u v rest H _. destruct H as [s|f w Hw|s|s|s|f w Hw|f w Hw]; try reflexivity; cbn; unfold bind, float_lit, bind, deref; by rewrite Hw.
Qed.

Lemma col_sound : sound col Gm.col.
Proof. intros ts c r H. unfold col in H. popen; [by_rule Gm.col_full|by_rule Gm.col_short]. Qed.
Lemma col_complete : complete (is_sym ".") col Gm.col.
Proof. intros u c rest H Hr. unfold col. destruct H; pgo; [done|]. by rewrite Hr. Qed.

Lemma op_sound ts o r : op ts = (Ok o, r) -> exists t, ts = t :: r /\ Gm.op t o.
Proof.
  intros (t & -> & H)%accept_inv. exists t. split; [done|]. destruct t as [|c| | | | | | |]; try discriminate H; try (injection H as <-; constructor).
  repeat match type of H with
         | (if is_sym ?c ?t then _ else _) = _ => let E := fresh in destruct (is_sym c t) eqn:E; [apply is_sym_spec in E as [= ->]; injection H as <-; constructor|clear E]
         end; done.
Qed.
Lemma op_complete t o r : Gm.op t o -> op (t :: r) = (Ok o, r).
Proof. by intros []. Qed.

Lemma head_name ts : head_is is_name ts = true -> exists s r, ts = IDENTIFIER s :: r.
Proof. destruct ts as [|[]]; try done. eauto. Qed.
Lemma value_head u v rest : Gm.value u v -> head_is is_name (u ++ rest) = false.
Proof. by intros []. Qed.
Lemma col_head u c rest : Gm.col u c -> head_is is_name (u ++ rest) = true.
Proof. by intros []. Qed.

Lemma expr_sound : sound expr Gm.expr.
Proof.
  intros ts e r H. unfold expr in H. popen.
  - use_sound col_sound. by_rule Gm.expr_col.
  - use_sound value_sound. by_rule Gm.expr_value.
Qed.
Lemma expr_complete : complete (is_sym ".") expr Gm.expr.
Proof.
  intros u e rest H Hr. unfold expr. rewrite next_step. destruct H as [u v H|u c H].
  - rewrite (value_head _ _ _ H). by use_complete (value_complete (is_sym ".")).
  - rewrite (col_head _ _ _ H). by use_complete col_complete.
Qed.
Lemma condition_sound : sound condition Gm.condition.
Proof.
  intros ts b r H. unfold condition in H. popen.
  use_sound col_sound.
  use_sound op_sound.
  use_sound expr_sound. by_rule Gm.condition_op.
Qed.
Lemma condition_complete : complete (is_sym ".") condition Gm.condition.
Proof.
  intros u b rest H Hr. unfold condition. destruct H as [u l t o v r Hl Ho He]. rewrite <- app_assoc. cbn [app].
  erewrite complete_step by (apply col_complete || done || by destruct Ho). unfold bind at 1. rewrite (op_complete _ _ _ Ho).
  by use_complete expr_complete.
Qed.

(** [whereClause]: no condition ends before a point, and no list of them before [AND] *)
Definition and_or_point (t : token) : bool := is_kw AND t || is_sym "." t.
Lemma whereClause_sound : sound (list_of (is_kw AND) condition) (Gm.list_of (eq (KW AND)) Gm.condition).
Proof. apply list_sound; [intros t; rewrite is_kw_spec; split; congruence|exact condition_sound]. Qed.
Lemma whereClause_complete : complete and_or_point (list_of (is_kw AND) condition) (Gm.list_of (eq (KW AND)) Gm.condition).
Proof. apply list_complete; [intros t; rewrite is_kw_spec; split; congruence|exact condition_complete|by intros t <-]. Qed.

Definition after_where (t : token) : bool := is_kw WHERE t || and_or_point t.
Lemma where_sound : sound optWhereClause Gm.optWhereClause.
Proof.
  intros ts l r H. unfold optWhereClause in H. popen; [use_sound whereClause_sound; by_rule Gm.where_some|by_rule Gm.where_none].
Qed.
Lemma where_complete : complete after_where optWhereClause Gm.optWhereClause.
Proof.
  intros u l rest H Hr. unfold optWhereClause. apply stops_or in Hr as [Hw Hp]. destruct H as [|u l H]; pgo.
  - by rewrite Hw.
  - by apply whereClause_complete.
Qed.

(** ** The other clauses *)

Lemma setClause_sound : sound setClause Gm.setClause.
Proof.
  intros ts c r H. unfold setClause in H. popen.
  - use_sound sign_sound. use_sound value_sound. by_rule Gm.set_expr.
  - use_sound value_sound. by_rule Gm.set_value.
Qed.
Lemma setClause_complete bad : complete bad setClause Gm.setClause.
Proof.
  intros u c rest H Hr. unfold setClause. destruct H as [x u v H|x y s n u v Hs H]; pgo.
  - rewrite (value_head _ _ _ H). by use_complete (value_complete bad).
  - destruct Hs; (erewrite bind_ok by reflexivity); by use_complete (value_complete bad).
Qed.

Lemma type_sound : sound type_len Gm.type.
Proof.
  intros ts l r H. unfold type_len in H. popen. match goal with H : accept _ _ = (Ok ?t, _) |- _ => apply accept_inv in H as (t0 & -> & Ht) end.
  destruct t0 as [k| | | | | | | |]; try discriminate Ht. destruct k; try discriminate Ht; injection Ht as <-; popen.
  all: try (eexists; split; cycle 1; [constructor|reflexivity]).
  match goal with H : accept _ _ = _ |- _ => apply accept_inv in H as (t0 & -> & Ht) end. destruct t0; try discriminate Ht. injection Ht as <-.
  destruct (Lit.stoi _) eqn:E; [discriminate H|]. popen. by_rule Gm.type_char.
Qed.
Lemma type_complete bad : complete bad type_len Gm.type.
Proof. intros u l rest H Hr. destruct H as [|s len Hs| | |]; try reflexivity. cbn. unfold bind. cbn. by rewrite Hs. Qed.
Lemma field_sound : sound field Gm.field.
Proof. intros ts f r H. unfold field in H. popen. use_sound type_sound. by_rule Gm.field_def. Qed.
Lemma field_complete bad : complete bad field Gm.field.
Proof. intros u f rest H Hr. unfold field. destruct H as [x u t H]. pgo. by use_complete (type_complete bad). Qed.

(** [selector] *)
Lemma aggregate_type_spec t a : aggregate_type t = Some a <-> Gm.aggregate_type t a.
Proof. split; [|by intros []]. destruct t as [k| | | | | | | |]; try discriminate. destruct k; try discriminate; intros [= <-]; constructor. Qed.
Lemma aggregate_clause_sound : sound aggregate_clause Gm.aggregate_clause.
Proof.
  intros ts c r H. unfold aggregate_clause in H. popen.
  all: match goal with H : accept _ _ = _ |- _ => apply accept_inv in H as (t & -> & ?%aggregate_type_spec) end; try use_sound col_sound.
  all: first [by_rule Gm.agg_star_as|by_rule Gm.agg_star|by_rule Gm.agg_col_as|by_rule Gm.agg_col].
Qed.
Lemma col_no_star u c rest : Gm.col u c -> head_is (is_sym "*") (u ++ rest) = false.
Proof. by intros []. Qed.
Lemma col_no_agg u c rest : Gm.col u c -> head_is (fun t => bool_decide (is_Some (aggregate_type t))) (u ++ rest) = false.
Proof. by intros []. Qed.
Lemma aggregate_step {B} t a (k : AggregateType -> P B) r : Gm.aggregate_type t a -> (let* x := accept aggregate_type in k x) (t :: r) = k a r.
Proof. by intros []. Qed.
Lemma aggregate_clause_complete : complete (is_kw AS) aggregate_clause Gm.aggregate_clause.
Proof.
  intros u c rest H Hr. unfold aggregate_clause.
  destruct H as [t a u c Ha Hc|t a Ha|t a u c x Ha Hc|t a x Ha]; cbn [app]; rewrite (aggregate_step t a) by done; pgo.
  - rewrite <- app_assoc, (col_no_star _ _ _ Hc). use_complete col_complete. pgo. by rewrite Hr.
  - rewrite assoc_step. pgo. by rewrite Hr.
  - rewrite <- app_assoc, (col_no_star _ _ _ Hc). use_complete col_complete. pgo. done.
  - rewrite assoc_step. pgo. done.
Qed.

Lemma comma_spec t : comma t = true <-> Gm.comma t.
Proof. apply is_sym_spec. Qed.
Lemma comma_list_sound {A} (item : P A) g : sound item g -> sound (list_of comma item) (Gm.list_of Gm.comma g).
Proof. apply list_sound, comma_spec. Qed.
Lemma comma_list_complete {A} bad (item : P A) g : complete bad item g -> bad (Gm.tk ",") = false ->
  complete (fun t => comma t || bad t) (list_of comma item) (Gm.list_of Gm.comma g).
Proof. intros Hc Hb. apply list_complete; [exact comma_spec|done|by intros t ->]. Qed.
(** what a selector cannot be followed by *)
Definition after_selector (t : token) : bool := comma t || (is_sym "." t || is_kw AS t).
Lemma head_in_list {A} S (g : Gm.G A) (f : token -> bool) b u l rest :
  (forall v x r, g v x -> head_is f (v ++ r) = b) -> Gm.list_of S g u l -> head_is f (u ++ rest) = b.
Proof. intros Hg H. apply list_items in H as (v & x & w & r & -> & _ & Hx & _). rewrite <- app_assoc. by eapply Hg. Qed.
Lemma selector_sound : sound selector Gm.selector.
Proof.
  intros ts l r H. unfold selector in H. popen.
  - by_rule Gm.selector_star.
  - apply (comma_list_sound _ _ aggregate_clause_sound) in H as (u & -> & H). by_rule Gm.selector_aggregates.
  - apply (comma_list_sound _ _ col_sound) in H as (u & -> & H). by_rule Gm.selector_cols.
Qed.
Lemma selector_complete : complete after_selector selector Gm.selector.
Proof.
  intros u l rest H Hr. unfold selector. rewrite next_step. apply stops_or in Hr as [Hc Hr]. apply stops_or in Hr as [Hp Ha].
  destruct H as [|u l H|u l H].
  - done.
  - rewrite (head_in_list _ _ _ _ _ _ rest col_no_star H), next_step.
    rewrite (head_in_list _ _ (fun t => bool_decide (is_Some (aggregate_type t))) false _ _ rest col_no_agg H).
    by apply (comma_list_complete _ _ _ col_complete); [| |apply stops_and].
  - assert (Hh : forall f b, (forall t a r, Gm.aggregate_type t a -> head_is f (t :: r) = b) -> head_is f (u ++ rest) = b).
    { intros f b Hf. apply (head_in_list _ _ f b _ _ rest) in H; [done|]. intros v x r []; cbn [app]; by eapply Hf. }
    rewrite (Hh _ false) by (by intros t a r []). rewrite next_step, (Hh _ true) by (by intros t a r []).
    by apply (comma_list_complete _ _ _ aggregate_clause_complete); [| |apply stops_and].
Qed.

(** the clauses after the tables *)
Definition after_order_clause (t : token) : bool := is_sym "." t || (is_kw ASC t || is_kw DESC t).
Lemma order_clause_sound : sound order_clause Gm.order_clause.
Proof.
  intros ts c r H. unfold order_clause in H. popen; use_sound col_sound; eexists (_ ++ _); (split; cycle 1; [econstructor; [eassumption|constructor]|]).
  all: by rewrite <- app_assoc.
Qed.
Lemma order_clause_complete : complete after_order_clause order_clause Gm.order_clause.
Proof.
  intros u c rest H Hr. unfold order_clause. apply stops_or in Hr as [Hp Hr]. apply stops_or in Hr as [Ha Hd]. destruct H as [u c v d Hc Hv].
  rewrite <- app_assoc. erewrite complete_step by (apply col_complete || done || by destruct Hv). destruct Hv; pgo; try done. rewrite Ha. pgo. by rewrite Hd.
Qed.
Definition after_order (t : token) : bool := is_kw ORDER t || (comma t || after_order_clause t).
Lemma order_sound : sound opt_order_clause Gm.opt_order_clause.
Proof.
  intros ts c r H. unfold opt_order_clause in H. popen; [|by_rule Gm.order_none].
  use_sound (comma_list_sound _ _ order_clause_sound). by_rule Gm.order_some.
Qed.
Lemma order_complete : complete after_order opt_order_clause Gm.opt_order_clause.
Proof.
  intros u c rest H Hr. unfold opt_order_clause. apply stops_or in Hr as [Ho Hr]. destruct H as [u l H|]; pgo.
  - by use_complete (comma_list_complete _ _ _ order_clause_complete eq_refl).
  - by rewrite Ho.
Qed.
Lemma limit_sound : sound opt_limit_clause Gm.opt_limit_clause.
Proof. intros ts c r H. unfold opt_limit_clause in H. popen; [use_sound value_sound; by_rule Gm.limit_some|by_rule Gm.limit_none]. Qed.
Lemma limit_complete : complete (is_kw LIMIT) opt_limit_clause Gm.opt_limit_clause.
Proof.
  intros u c rest H Hr. unfold opt_limit_clause. destruct H as [u v H|]; pgo; [by use_complete (value_complete (is_kw LIMIT))|by rewrite Hr].
Qed.

(** [tableList] *)
Definition is_table_sep (t : token) : bool := comma t || is_kw JOIN t.
Lemma table_sep_spec t : is_table_sep t = true <-> Gm.tableList_sep t.
Proof.
  unfold is_table_sep. rewrite orb_true_iff, is_kw_spec. rewrite (comma_spec t). split; [intros [->| ->]; constructor|intros []; [by left|by right]].
Qed.
Lemma tables_sound : sound (list_of is_table_sep name) (Gm.list_of Gm.tableList_sep Gm.colName).
Proof. apply list_sound; [exact table_sep_spec|exact name_sound]. Qed.
Lemma tables_complete : complete (fun t => is_table_sep t || false) (list_of is_table_sep name) (Gm.list_of Gm.tableList_sep Gm.colName).
Proof. apply (list_complete _ _ _ _ table_sep_spec (fun _ => false)); [apply name_complete|done]. Qed.

(** ** Statements *)

Lemma parens_sound {A} (p : P A) g ts a r : sound p g -> in_parens p ts = (Ok a, r) -> exists u, ts = Gm.tk "(" :: u ++ Gm.tk ")" :: r /\ g u a.
Proof. intros Hs H. unfold in_parens in H. popen. use_sound Hs. eauto. Qed.
Lemma parens_step {A B} (item : P A) g (k : list A -> P B) u l rest : complete (fun _ => false) item g -> Gm.list_of Gm.comma g u l ->
  (let* x := in_parens (list_of comma item) in k x) (Gm.tk "(" :: u ++ Gm.tk ")" :: rest) = k l rest.
Proof.
  intros Hc Hg. unfold in_parens. rewrite assoc_step. pgo. rewrite assoc_step.
  erewrite complete_step by (apply (comma_list_complete _ _ _ Hc eq_refl) || exact Hg || done). rewrite assoc_step. pgo. done.
Qed.

Lemma stmt_sound : sound stmt Gm.stmt.
Proof.
  intros ts n r H. unfold stmt in H. apply bind_inv in H as (k & ts' & Hk & H). apply accept_inv in Hk as (t & -> & Hk).
  destruct t as [k'| | | | | | | |]; try discriminate Hk. injection Hk as ->. destruct k; try discriminate H; popen.
  all: try (eexists; split; cycle 1; [constructor|reflexivity]).
  - match goal with H : accept _ _ = _ |- _ => apply accept_inv in H as (t & -> & Ht) end. destruct t; try discriminate Ht. injection Ht as <-. by_rule Gm.st_load.
  - use_sound (fun ts a r => parens_sound _ _ ts a r (comma_list_sound _ _ field_sound)). by_rule Gm.st_create_table.
  - use_sound (fun ts a r => parens_sound _ _ ts a r (comma_list_sound _ _ name_sound)). by_rule Gm.st_create_index.
  - use_sound (fun ts a r => parens_sound _ _ ts a r (comma_list_sound _ _ name_sound)). by_rule Gm.st_drop_index.
  - use_sound (fun ts a r => parens_sound _ _ ts a r (comma_list_sound _ _ value_sound)). by_rule Gm.st_insert.
  - use_sound where_sound. by_rule Gm.st_delete.
  - use_sound (comma_list_sound _ _ setClause_sound). use_sound where_sound. by_rule Gm.st_update.
  - use_sound selector_sound. use_sound tables_sound. use_sound where_sound. use_sound order_sound. use_sound limit_sound. by_rule Gm.st_select.
Qed.

(** the clauses of a statement start with their keyword, or are empty *)
Lemma where_stops bad u w rest : Gm.optWhereClause u w -> bad (KW WHERE) = false -> stops bad rest -> stops bad (u ++ rest).
Proof. by intros []. Qed.
Lemma order_stops bad u w rest : Gm.opt_order_clause u w -> bad (KW ORDER) = false -> stops bad rest -> stops bad (u ++ rest).
Proof. by intros []. Qed.
Lemma limit_stops bad u w rest : Gm.opt_limit_clause u w -> bad (KW LIMIT) = false -> stops bad rest -> stops bad (u ++ rest).
Proof. by intros []. Qed.

Lemma stmt_complete u n rest : Gm.stmt u n -> stmt (u ++ Gm.tk ";" :: rest) = (Ok n, Gm.tk ";" :: rest).
Proof.
  intros H. unfold stmt. destruct H as [ | | | | | | t u l H | | | t u l H | t u l H | t u l H | t u w H | t u l v w H Hw | u s v ts w c x o y n Hs Hv Hw Hx Hy | ].
  all: try reflexivity; cbn [app]; rewrite <- ?app_assoc; (erewrite bind_ok by reflexivity); cbn beta iota; pgo.
  1-4: by erewrite parens_step by (exact H || apply field_complete || apply name_complete || apply value_complete).
  - by use_complete where_complete.
  - erewrite complete_step by (apply (comma_list_complete _ _ _ (setClause_complete (fun _ => false)) eq_refl) || exact H || by eapply where_stops).
    by use_complete where_complete.
  - use_complete selector_complete. pgo. rewrite <- !app_assoc.
    erewrite complete_step by (apply tables_complete || exact Hv || (eapply where_stops; [done|done|eapply order_stops; [done|done|by eapply limit_stops]])).
    erewrite complete_step by (apply where_complete || exact Hw || (eapply order_stops; [done|done|by eapply limit_stops])).
    erewrite complete_step by (apply order_complete || exact Hx || by eapply limit_stops).
    by use_complete limit_complete.
Qed.

Lemma start_sound ts n r : start ts = (Ok n, r) -> exists u, ts = u ++ r /\ Gm.start u r n.
Proof.
  unfold start. intros H. apply bind_inv in H as (ts' & s1 & [= <- <-] & H). destruct ts as [|t ts].
  { apply ret_inv in H as [<- <-]. exists []. split; [done|constructor]. }
  destruct (is_kw HELP t); [popen; match goal with H : _ = _ :: _ |- _ => rewrite H end; exists [KW HELP]; split; [done|constructor]|].
  destruct (is_kw SET t); [popen; match goal with H : _ = _ :: _ |- _ => rewrite H end; exists [KW SET; KW OUTPUT; KW OFF]; split; [done|constructor]|].
  destruct (is_kw EXIT t); [popen; match goal with H : _ = _ :: _ |- _ => rewrite H end; exists [KW EXIT]; split; [done|constructor]|].
  popen. match goal with H : stmt _ = _ |- _ => apply stmt_sound in H as (u & -> & Hu) end.
  exists (u ++ [Gm.tk ";"]). split; [by rewrite <- app_assoc|by constructor].
Qed.
Lemma stmt_head u n : Gm.stmt u n -> exists k v, u = KW k :: v /\ k <> HELP /\ k <> SET /\ k <> EXIT.
Proof. intros []; eexists _, _; (split; [reflexivity|by split_and!]). Qed.
Lemma start_complete u r n : Gm.start u r n -> start (u ++ r) = (Ok n, r).
Proof.
  intros H0; destruct H0 as [u n rest H| | | |]; try reflexivity. rewrite <- app_assoc. cbn [app].
  destruct (stmt_head _ _ H) as (k & v & -> & Hh & Hs & He). unfold start. unfold bind at 1, get. cbn [app].
  assert (Hk : forall j, k <> j -> is_kw j (KW k) = false).
  { intros j Hj. destruct (is_kw j (KW k)) eqn:E; [|done]. apply is_kw_spec in E as [= ->]. done. }
  rewrite !Hk by done. unfold bind at 1. rewrite app_comm_cons, (stmt_complete _ _ rest H). pgo. done.
Qed.
End GrP.
