(* ===== verification/Server.v ===== *)
(** One client of the server: [SetTransaction] and the loop of [client_handler] of [src/src/rmdb.cpp].

    [round] is one turn of the loop, from a request that was read to the bytes that are written back.  Sockets and
    threads are not modelled: the requests of several clients are turns that follow one another, and a turn that
    would wait for a lock or a latch fails (see [Lock] and [SmState]).  An exception that is neither a
    [TransactionAbortException] nor an [RMDBError] leaves the loop, and so does one that the parser throws. *)

From S2P Require Import Prelude Bytes Errors Disk BufferPool PageStore Defs.
From S2P Require Import Text SmMeta RmFile Values IxDefs IxTree.
From S2P Require Import SmState Executor LogManager Lock Core Txn Dml.
From S2P Require Import Sm Analyze Planner Portal Printer Load Ql Parser.

(** what a client thread has: its session, the id of its transaction, and the parser with its mutex; the scanner keeps its
    start condition from one request to the next *)
Record Client := mkClient { cl_session : Session; cl_txn_id : Z; buffer_mutex : bool; yy_start : bool }.

(** the end of a turn: the loop is left, the process exits, or an answer is sent *)
Inductive Reply := ClientExit | ServerCrash | Answer (text : list Z).

Module Srv.
Section ops.
Context (std_sort : (RmRecord -> RmRecord -> bool) -> list RmRecord -> list RmRecord) (malloc : gmap Z (list Z) -> Z).
Context (junk : Z -> list Z) (buf0 : list Z) (page0 : Z) (idx0 : nat) (rid0 : Rid) (mode0 : bool) (ts0 : Z) (agg0 : AggType).
Context (fuel ifuel rfuel : nat).
Local Open Scope prog_scope.
Abbreviation bytes := (list Z).

Definition on_session {A} (m : Prog Session A) : Prog Client A :=
  zoom cl_session (fun s c => mkClient s (cl_txn_id c) (buffer_mutex c) (yy_start c)) m.
Definition on_scanner {A} (m : Prog bool A) : Prog Client A :=
  zoom yy_start (fun b c => mkClient (cl_session c) (cl_txn_id c) (buffer_mutex c) b) m.
Definition set_mutex (b : bool) : Prog Client unit := modify (fun c => mkClient (cl_session c) (cl_txn_id c) b (yy_start c)).
(** a mutex that is locked stays so: no other turn is under way *)
Definition lock_mutex : Prog Client unit := let* b := gets buffer_mutex in if b : bool then fail Deadlock else set_mutex true.

(** [SetTransaction]: the transaction of the client goes on, or a new one begins *)
Definition SetTransaction : Prog Client Z :=
  let* txn_id := gets cl_txn_id in
  let* o := on_session (Ql.on_tm (TxnM.get_transaction txn_id)) in
  let* finished := (match o with
                    | None => ret true
                    | Some p =>
                        let* st := on_session (Ql.on_tm (TxnM.core (on_locks (Lk.get_state p)))) in
                        ret (match st with COMMITTED | ABORTED => true | _ => false end)
                    end) in
  match finished, o with
  | false, Some p => ret p
  | _, _ =>
      let* p := on_session (Ql.on_tm (TxnM.begin mode0 ts0)) in
      let* id := on_session (Ql.on_tm (TxnM.core (on_locks (Lk.get_transaction_id p)))) in
      modify (fun c => mkClient (cl_session c) id (buffer_mutex c) (yy_start c));;
      on_session (Ql.on_tm (Ql.put_txn_mode p false));;
      ret p
  end.

(** the part of the [try] block after the analysis *)
Definition execute (parse : ast.TreeNode) (query : Query) (txn : Z) : Prog Session unit :=
  let* plan := Ql.on_sm (Pln.plan_query parse query) in
  let* portalStmt := Ql.on_sm (Prtl.start std_sort junk buf0 page0 idx0 rid0 fuel ifuel rfuel plan txn) in
  Ql.run malloc junk fuel ifuel rfuel portalStmt txn;;
  let* t := Ql.on_tm (TxnM.core (Ws.get_txn txn)) in
  if txn_mode_ t then ret tt else Ql.on_tm (TxnM.commit txn).

(** the text takes the place of the answer; a zero byte ends it *)
Definition answer (text : bytes) (len : Z) : Prog Session unit :=
  Ql.on_out (let* o := get in
             let* d := deref (memcpy (data_send_ o) 0 (text ++ [0]) (zlen text + 1)) in
             modify (fun o => mkOutput d len (ellipsis_ o))).

(** the two handlers *)
Definition handler (txn : Z) (e : error) : Prog Session unit :=
  match e with
  | TransactionAbortException _ _ =>
      let str := string_bytes "abort" ++ [10] in
      answer str (zlen str);;
      Ql.on_tm (TxnM.abort ifuel rfuel junk txn);;
      Ql.outfile str
  | _ =>
      match what e with
      | Some msg =>
          let str := string_bytes msg ++ [10] in
          answer str (zlen str);;
          Ql.outfile (string_bytes "failure" ++ [10])
      | None => throw e
      end
  end.

(** the [try] block: the mutex of the parser is given back after the analysis *)
Definition try_block (parse : ast.TreeNode) (txn : Z) : Prog Client unit :=
  let* query := on_session (Ql.on_sm (An.do_analyze agg0 parse)) in
  set_mutex false;;
  on_session (execute parse query txn).

(** a statement *)
Definition statement (parse : ast.TreeNode) (txn : Z) : Prog Client unit :=
  try_catch (try_block parse txn) (fun e => on_session (handler txn e)).

(** [strcmp] with what was read: the text up to its first zero byte *)
Definition c_text (b : bytes) : option bytes := if bool_decide (0 ∈ b) then Some (Val.c_str b) else None.

(** one turn; [request] is what [read] put at the front of the cleared buffer *)
Definition round (request : bytes) : Prog Client Reply :=
  let data_recv := request ++ zeros (BUFFER_LENGTH - zlen request) in
  let* text := deref (c_text data_recv) in
  if bool_decide (text = string_bytes "exit") then ret ClientExit
  else if bool_decide (text = string_bytes "crash") then ret ServerCrash
  else
    on_session (modify (fun s => mkSession (se_tm s) Prt.fresh (output_off s) (output_txt s)));;
    let* txn := SetTransaction in
    lock_mutex;;
    let* tree := on_scanner (yyparse (Text.str (bytes_string text))) in
    (match tree with
     | Some (Some parse) => statement parse txn
     | Some None => ret tt
     | None =>
         let str := string_bytes "Parser Error" ++ [10] in
         on_session (answer str (zlen str);; Ql.outfile (string_bytes "failure" ++ [10]))
     end);;
    set_mutex false;;  (* when [finish_analyze] is false; else it has been given back *)
    let* o := gets (fun c => se_out (cl_session c)) in
    let* sent := deref (mload (data_send_ o) 0 (offset_ o + 1)) in
    ret (Answer sent).
End ops.
End Srv.
