(* ===== verification/QlProps.v ===== *)
(** What running a [SELECT] prints: [QlManager::select_from] over any executor that keeps the promises of
    [ExecutorLaws]. *)

From S2P Require Import Prelude Bytes Errors Disk BufferPool PageStore Defs.
From S2P Require Import Text SmMeta RmFile Values IxDefs IxTree.
From S2P Require Import SmState Executor LogManager Lock Core Txn.
From S2P Require Import Analyze Planner Portal Printer Load Ql.

Module QlP.
Import Ql.
Abbreviation SM := (SmManager Core).
Abbreviation bytes := (list Z).

(** the text of a tuple, and whether all of its columns can be printed *)
Definition row_text (cs : list ColMeta) (t : bytes) : list bytes := match (col_strs cs t tt).1 with Ok l => l | _ => [] end.
Definition printable (cs : list ColMeta) (t : bytes) : bool := match (col_strs cs t tt).1 with Ok _ => true | _ => false end.

Lemma printable_eq cs t : printable cs t = true -> col_strs cs t tt = (Ok (row_text cs t), tt).
Proof. unfold printable, row_text. destruct (col_strs cs t tt) as [[l|e|f] []]; simpl; done. Qed.


Lemma length_row_text cs : forall t l, col_strs cs t tt = (Ok l, tt) -> length l = length cs.
Proof.
  induction cs as [|c cs IH]; intros t l H; cbn [col_strs] in H; [by injection H as <-|].
  apply bind_inv in H as (x & [] & _ & H). apply bind_inv in H as (l' & [] & E & H). injection H as <-. simpl. f_equal. by eapply IH.
Qed.

(** ** The parts of a session *)

Definition sm_of (s : Session) : SM := tm_sm (se_tm s).
Definition put_sm (w : SM) (s : Session) : Session :=
  let tm := se_tm s in mkSession (mkTransactionManager w (next_txn_id_ tm) (next_timestamp_ tm) (txn_map tm)) (se_out s) (output_off s) (output_txt s).
Definition put_out (o : Output) (s : Session) : Session := mkSession (se_tm s) o (output_off s) (output_txt s).
Definition put_txt (text : bytes) (s : Session) : Session := mkSession (se_tm s) (se_out s) (output_off s) text.
(** what is appended to the file *)
Definition logged (s : Session) (text : bytes) : bytes := if output_off s then [] else text.

Section session.
Context {E : Type}.

Lemma on_exec_eq {A} (m : Prog (E * SM) A) e s a e' w' : m (e, sm_of s) = (Ok a, (e', w')) -> on_exec m (e, s) = (Ok a, (e', put_sm w' s)).
Proof. intros H. unfold on_exec. cbn [fst snd]. unfold sm_of in H. by rewrite H. Qed.
Lemma on_out_eq {A} (m : Prog Output A) (e : E) s a o' : m (se_out s) = (Ok a, o') -> on_session (on_out m) (e, s) = (Ok a, (e, put_out o' s)).
Proof. intros H. unfold on_session, on_out, zoom. cbn [fst snd]. by rewrite H. Qed.
Lemma outfile_eq text (e : E) s : on_session (outfile text) (e, s) = (Ok tt, (e, put_txt (output_txt s ++ logged s text) s)).
Proof.
  unfold on_session, outfile, zoom, modify, put_txt, logged. cbn [fst snd]. destruct s as [tm o [] txt]; simpl; [|done]. by rewrite app_nil_r.
Qed.
End session.

(** ** What a run of [select_from] has done so far *)

Section select.
Context {E : Type} {X : AbstractExecutor SM E} {I : SM -> Prop} {L : ExecutorLaws SM E I}.
Context (cs : list ColMeta) (s0 : Session).

(** the pieces [ps] were printed and [text] was written to the file, starting from [s0] *)
Record printed (ps : list bytes) (text : bytes) (s : Session) : Prop := {
  pd_world : I (sm_of s);
  pd_out : PrtP.shown (se_out s) ps;
  pd_off : output_off s = output_off s0;
  pd_txt : output_txt s = output_txt s0 ++ logged s0 text;
  pd_txn : next_txn_id_ (se_tm s) = next_txn_id_ (se_tm s0) /\ next_timestamp_ (se_tm s) = next_timestamp_ (se_tm s0) /\ txn_map (se_tm s) = txn_map (se_tm s0);
}.

Lemma printed_world ps text s w : printed ps text s -> I w -> printed ps text (put_sm w s).
Proof. by intros [] ?; split. Qed.
Lemma printed_out ps ps' text s o : printed ps text s -> PrtP.shown o ps' -> printed ps' text (put_out o s).
Proof. by intros [] ?; split. Qed.
Lemma logged_app text text' : logged s0 (text ++ text') = logged s0 text ++ logged s0 text'.
Proof. unfold logged. by destruct (output_off s0). Qed.
Lemma printed_txt ps text text' s : printed ps text s -> printed ps (text ++ text') (put_txt (output_txt s ++ logged s text') s).
Proof.
  intros [H1 H2 H3 H4 H5]. split; try done. simpl. rewrite H4, logged_app, <- app_assoc. unfold logged. by rewrite H3.
Qed.

(** the pieces and the line of a record *)
Definition rec_pieces (r : list bytes) : list bytes := PrtP.pieces (PrtP.CRecord r).

Lemma print_record_printed r ps text (e : E) s : length r = length cs -> printed ps text s ->
  exists s', on_session (on_out (Prt.print_record (length cs) r)) (e, s) = (Ok tt, (e, s')) /\ printed (ps ++ rec_pieces r) text s'.
Proof.
  intros Hl Hp. destruct (PrtP.call_shown (PrtP.CRecord r) (se_out s) ps (pd_out _ _ _ Hp)) as (o' & E1 & H1). cbn [PrtP.call_run] in E1.
  rewrite Hl in E1. exists (put_out o' s). split; [by apply on_out_eq|]. by eapply printed_out.
Qed.
Lemma print_separator_printed n ps text (e : E) s : printed ps text s ->
  exists s', on_session (on_out (Prt.print_separator n)) (e, s) = (Ok tt, (e, s')) /\ printed (ps ++ PrtP.pieces (PrtP.CSeparator n)) text s'.
Proof.
  intros Hp. destruct (PrtP.call_shown (PrtP.CSeparator n) (se_out s) ps (pd_out _ _ _ Hp)) as (o' & E1 & H1).
  exists (put_out o' s). split; [by apply on_out_eq|]. by eapply printed_out.
Qed.

Lemma print_rows_spec fuel : forall e all ts ps text s n,
  cols SM e = cs -> ex_at e all ts -> Forall (fun t => printable cs t = true) ts -> (length ts < fuel)%nat -> printed ps text s ->
  runs (print_rows fuel n) (e, s) (fun k t => k = n + zlen ts /\ cols SM t.1 = cs /\
    printed (ps ++ (ts ≫= (fun x => rec_pieces (row_text cs x)))) (text ++ (ts ≫= (fun x => line (row_text cs x)))) t.2).
Proof.
  induction fuel as [|fuel IH]; intros e all ts ps text s n Hc Ha Hf Hlt Hp; [lia|]. cbn [print_rows]. rstep. simpl. rewrite (ex_end e all ts Ha).
  destruct ts as [|t ts]; simpl; [rstep; rewrite !app_nil_r; unfold zlen; simpl; split_and!; [lia|done|done]|].
  apply Forall_cons in Hf as [Ht Hf]. pose proof (printable_eq cs t Ht) as Et.
  destruct (ex_next e all t ts (sm_of s) Ha (pd_world _ _ _ Hp)) as (r & [e1 w1] & E1 & -> & Htk & S1 & Hw1). cbn [fst snd] in *.
  eapply runs_bind_eq; [by apply on_exec_eq|]. rstep. cbn [fst]. rewrite (proj1 S1), Hc.
  eapply runs_bind_pure; [exact Et|].
  destruct (print_record_printed (row_text cs t) ps text e1 (put_sm w1 s) (length_row_text _ _ _ Et) (printed_world _ _ _ _ Hp Hw1)) as (s2 & E2 & H2).
  eapply runs_bind_eq; [exact E2|]. eapply runs_bind_eq; [apply outfile_eq|]. pose proof (printed_txt _ _ (line (row_text cs t)) _ H2) as H3.
  destruct (ex_step e1 all t ts (sm_of s2) (or_intror Htk) (pd_world _ _ _ H2)) as ([] & [e4 w4] & E4 & Ha4 & S4 & Hw4).
  eapply runs_bind_eq; [apply on_exec_eq; exact E4|].
  eapply runs_conseq; [apply (IH e4 all ts (ps ++ rec_pieces (row_text cs t)) (text ++ line (row_text cs t)))|]; try done.
  - cbn [fst snd] in *. by rewrite (proj1 S4), (proj1 S1).
  - simpl in Hlt. lia.
  - by apply printed_world.
  - intros k st (-> & Hk & Hpr). rewrite <- !app_assoc in Hpr. split_and!; [|done|done]. unfold zlen. simpl. lia.
Qed.

(** the pieces and the lines of the whole answer *)
Definition captions : list bytes := (fun c => string_bytes (cm_name c)) <$> cs.
Definition sep : list bytes := PrtP.pieces (PrtP.CSeparator (length cs)).
Definition answer_pieces (ts : list bytes) : list bytes := sep ++ rec_pieces captions ++ sep ++ (ts ≫= (fun x => rec_pieces (row_text cs x))) ++ sep.
Definition file_text (ts : list bytes) : bytes := line captions ++ (ts ≫= (fun x => line (row_text cs x))).

(** the answer and the lines of the file are complete *)
Record selected (ts : list bytes) (s : Session) : Prop := {
  sl_world : I (sm_of s);
  sl_answer : PrtP.answered (answer_pieces ts) (zlen ts) (se_out s);
  sl_off : output_off s = output_off s0;
  sl_txt : output_txt s = output_txt s0 ++ logged s0 (file_text ts);
  sl_txn : next_txn_id_ (se_tm s) = next_txn_id_ (se_tm s0) /\ next_timestamp_ (se_tm s) = next_timestamp_ (se_tm s0) /\ txn_map (se_tm s) = txn_map (se_tm s0);
}.

Lemma select_header (e : E) : se_out s0 = Prt.fresh -> I (sm_of s0) ->
  exists s, (on_session (on_out (Prt.print_separator (length cs);; Prt.print_record (length cs) captions;; Prt.print_separator (length cs))))%prog (e, s0) = (Ok tt, (e, s)) /\
    printed (sep ++ rec_pieces captions ++ sep) [] s.
Proof.
  intros Ho Hw. destruct (PrtP.call_shown (PrtP.CSeparator (length cs)) _ _ PrtP.fresh_shown) as (o1 & E1 & H1).
  destruct (PrtP.call_shown (PrtP.CRecord captions) _ _ H1) as (o2 & E2 & H2). destruct (PrtP.call_shown (PrtP.CSeparator (length cs)) _ _ H2) as (o3 & E3 & H3).
  exists (put_out o3 s0). split.
  - apply on_out_eq. rewrite Ho. cbn [PrtP.call_run] in E1, E2, E3. rewrite (bind_ok _ _ _ _ _ E1).
    replace (length captions) with (length cs) in E2 by (unfold captions; by rewrite length_fmap). by rewrite (bind_ok _ _ _ _ _ E2).
  - rewrite app_nil_l, <- app_assoc in H3. split; try done. unfold logged. destruct (output_off s0); by rewrite app_nil_r.
Qed.

Lemma select_loop_spec fuel e all :
  cols SM e = cs -> cs <> [] -> ex_src e all -> I (sm_of s0) -> se_out s0 = Prt.fresh ->
  Forall (fun t => printable cs t = true) all -> (length all < fuel)%nat -> zlen all < 10 ^ 14 ->
  runs (select_loop fuel) (e, s0) (fun _ t => selected all t.2).
Proof.
  intros Hc Hne Hs Hw Ho Hf Hfuel Hn. unfold select_loop. rstep. cbn [fst]. rewrite Hc. fold captions.
  rstep; [destruct cs; [done|]; apply Z.ltb_lt; unfold zlen; simpl; lia|].
  destruct (select_header e Ho Hw) as (s1 & E1 & H1). eapply runs_bind_eq; [exact E1|]. eapply runs_bind_eq; [apply outfile_eq|].
  pose proof (printed_txt _ _ (line captions) _ H1) as H2. rewrite app_nil_l in H2. set (s2 := put_txt _ s1) in *. clearbody s2.
  destruct (ex_begin e all (sm_of s2) Hs (pd_world _ _ _ H2)) as ([] & [e3 w3] & E3 & Ha & S3 & Hw3). cbn [fst snd] in *.
  eapply runs_bind_eq; [by apply on_exec_eq|].
  eapply runs_bind; [apply (print_rows_spec fuel e3 all all (sep ++ rec_pieces captions ++ sep) (line captions) (put_sm w3 s2) 0); try done; [by rewrite (proj1 S3)|by apply printed_world]|].
  intros k [e4 s4] (-> & _ & H4). cbn [snd] in H4. rewrite Z.add_0_l.
  destruct (PrtP.call_shown (PrtP.CSeparator (length cs)) _ _ (pd_out _ _ _ H4)) as (o5 & E5 & H5). cbn [PrtP.call_run] in E5.
  destruct (PrtP.count_answered o5 _ (zlen all) ltac:(pose proof (zlen_nonneg all); lia) H5) as (o6 & E6 & H6).
  eapply runs_eq; [apply on_out_eq; rewrite (bind_ok _ _ _ _ _ E5); exact E6|]. destruct H4 as [G1 G2 G3 G4 G5].
  split; try done. unfold answer_pieces. rewrite <- !app_assoc in H6. exact H6.
Qed.
End select.
End QlP.
