(* ===== verification/PortalProps.v ===== *)
(** What the portal makes of a plan: the executor tree of [Portal::convert_plan_executor] computes the plan, read as
    an expression of relational algebra. *)

From S2P Require Import Prelude Bytes Errors Disk BufferPool PageStore Bitmap Defs.
From S2P Require Import Text SmMeta RmFile RmPage RmProofs RmProps Values IxDefs IxTree.
From S2P Require Import SmState Executor Projection Join JoinProofs SeqScan SeqScanProofs.
From S2P Require Import LogManager Lock Core Txn ExecProps IxExec Sort.
From S2P Require Import Analyze Planner PlannerProps Portal Printer Load Ql QlProps.
From Stdlib Require Import Sorting.Sorted.
Import RmPage.

(** ** Relational algebra *)

Module Rel.
(** rows of [rel_len] bytes with these columns *)
Record relation := mkRel { rel_cols : list ColMeta; rel_len : Z; rel_rows : list (list Z) }.

Section algebra.
Context (db : string -> option relation).

(** the relation a plan of scans, joins and projections denotes, when its columns exist *)
Fixpoint eval (plan : Plan) : option relation :=
  match plan with
  | ScanPlan T_SeqScan tab_name _ conds _ _ _ =>
      r ← db tab_name;
      if forallb (Cond.scan_ok (rel_cols r) (rel_len r)) conds.*1 then
        Some (mkRel (rel_cols r) (rel_len r) (List.filter (holds_scan conds.*1 (rel_cols r)) (rel_rows r)))
      else None
  | JoinPlan _ left_ right_ conds =>
      a ← eval left_; b ← eval right_;
      if forallb (Cond.join_ok (rel_cols a) (rel_len a) (rel_cols b) (rel_len b)) conds.*1 then
        Some (mkRel (rel_cols a ++ (Nlj.shift_offset (rel_len a) <$> rel_cols b)) (rel_len a + rel_len b)
                (cross (holds_join conds.*1 (rel_cols a) (rel_cols b)) (rel_rows a) (rel_rows b)))
      else None
  | ProjectionPlan _ subplan sel_cols =>
      a ← eval subplan;
      match Proj.select (rel_cols a) sel_cols 0 with
      | inr (idxs, cs, len) => Some (mkRel cs len (Proj.project (rel_cols a) idxs <$> rel_rows a))
      | inl _ => None
      end
  | _ => None
  end.

(** the right input of a join can be read again, the pairs of a join are within the fuel, and the buffer of a
    projection has room *)
Fixpoint again (plan : Plan) : bool :=
  match plan with ScanPlan _ _ _ _ _ _ _ => true | ProjectionPlan _ subplan _ => again subplan | _ => false end.
Definition size (plan : Plan) : nat := match eval plan with Some r => length (rel_rows r) | None => 0 end.
Definition width (plan : Plan) : Z := match eval plan with Some r => rel_len r | None => 0 end.
Fixpoint fits (fuel : nat) (room : Z) (plan : Plan) : bool :=
  match plan with
  | JoinPlan _ l r _ => fits fuel room l && fits fuel room r && again r && (size l * size r <? fuel)%nat
  | ProjectionPlan _ subplan _ => fits fuel room subplan && (width plan <=? room)
  | _ => true
  end.
End algebra.

(** ** Rearranged inputs *)

Lemma cross_perm sat ls ls' rs rs' : ls ≡ₚ ls' -> rs ≡ₚ rs' -> cross sat ls rs ≡ₚ cross sat ls' rs'.
Proof.
  intros Hl Hr. unfold cross. rewrite Hl. clear ls Hl. induction ls' as [|l ls IH]; [done|]. simpl. rewrite IH. apply Permutation_app_tail. by rewrite Hr.
Qed.
End Rel.

(** ** The executors of a plan *)

Module PrtlP.
Import Rel.
Section world.
Context (p : Z) (t0 : Transaction) (fds : list Z) (T : Q.tables).
Context (HT : forall tab h pages chain, T !! tab = Some (h, pages, chain) -> fd_ h ∈ fds).
Context (std_sort : (RmRecord -> RmRecord -> bool) -> list RmRecord -> list RmRecord).
Context (junk : Z -> list Z) (buf0 : list Z) (page0 : Z) (idx0 : nat) (rid0 : Rid) (fuel ifuel rfuel : nat).
Abbreviation World := Q.World.
Abbreviation inv := (Q.world_ok p t0 fds T).
Abbreviation convert := (Prtl.convert_plan_executor std_sort junk buf0 page0 idx0 rid0 fuel ifuel rfuel).

(** the tables, as relations *)
Definition db_of (w : World) (tab_name : string) : option relation :=
  match Meta.get_table (db_ w) tab_name, T !! tab_name with
  | inr tab, Some (h, pages, _) => Some (mkRel (tm_cols tab) (record_size (file_hdr_ h)) (ScanP.all_rows h pages).*2)
  | _, _ => None
  end.

(** the catalog agrees with the files, and the columns of a table are inside its records *)
Record ready (w : World) : Prop := {
  rd_world : inv w;
  rd_free : writer (db_latch_ w) = false /\ writer (sm_latch_ w) = false;
  rd_tabs : forall t tab h pages chain, Meta.get_table (db_ w) t = inr tab -> T !! t = Some (h, pages, chain) ->
    Forall (Proj.col_in (record_size (file_hdr_ h))) (tm_cols tab) /\
    exists c, last (tm_cols tab) = Some c /\ cm_offset c + cm_len c = record_size (file_hdr_ h);
}.

(** the executor enumerates the rows of the relation, in some order *)
Record computes (x : Executor World) (r : relation) (L : ExecutorLaws World (ob_state_type x) (X:=ob_class x) inv) : Prop := {
  cp_src : exists out, ex_src (L:=L) (ob_state x) out /\ out ≡ₚ rel_rows r;
  cp_cols : cols World (ob_state x) (AbstractExecutor:=ob_class x) = rel_cols r;
  cp_len : tupleLen World (ob_state x) (AbstractExecutor:=ob_class x) = inr (rel_len r);
  cp_in : Forall (Proj.col_in (rel_len r)) (rel_cols r);
  cp_pos : 0 <= rel_len r;
}.

Lemma scan_computes w tag tab_name pcols conds plen ic names r :
  ready w -> eval (db_of w) (ScanPlan tag tab_name pcols conds plen ic names) = Some r ->
  exists x L, convert (ScanPlan tag tab_name pcols conds plen ic names) p w = (Ok (Some x), w) /\ computes x r L /\ Restartable World (ob_state_type x) (X:=ob_class x) inv.
Proof.
  intros [Hw Hf Ht] He. cbn [eval] in He. destruct tag; try discriminate He. unfold db_of in He.
  destruct (Meta.get_table (db_ w) tab_name) as [|tab] eqn:Em; [done|]. destruct (T !! tab_name) as [[[h pages] chain]|] eqn:ET; [|done]. simpl in He.
  destruct (forallb _ conds.*1) eqn:Ec; [|done]. injection He as <-. destruct (Ht _ _ _ _ _ Em ET) as [Hin Hsz].
  assert (Htab : Q.table_of p t0 fds T w tab_name tab h pages chain) by by split.
  destruct (Q.make_scan p t0 fds T w tab_name tab h pages chain conds.*1 page0 idx0 Htab Ec) as (e & E & Hc & Hl & _ & Hs).
  exists (mkExecutor Prtl.scan_class Scan.rid e), (Q.scan_laws p t0 fds T HT). split; [|split].
  - cbn [Prtl.convert_plan_executor]. by rewrite (bind_ok _ _ _ _ _ E).
  - split; simpl; try done; [|by rewrite Hl|by apply (Q.size_pos p t0 fds T w tab_name tab h pages chain)].
    eexists. split; [exact Hs|]. unfold matching. clear. induction (ScanP.all_rows h pages) as [|x l IH]; [done|]. simpl. destruct (holds_scan _ _ x.2); simpl; by rewrite IH.
  - apply Q.scan_restart.
Qed.

(** an executor of a relation, which can be started again when it must be *)
Definition made (restart : bool) (x : Executor World) (r : relation) : Prop :=
  exists L, computes x r L /\ (restart = true -> Restartable World (ob_state_type x) (X:=ob_class x) inv (L:=L)).

Lemma join_computes x y a b conds :
  made false x a -> made true y b -> forallb (Cond.join_ok (rel_cols a) (rel_len a) (rel_cols b) (rel_len b)) conds = true ->
  (length (rel_rows a) * length (rel_rows b) < fuel)%nat ->
  exists e, Nlj.make (XL := ob_class x) (XR := ob_class y) (ob_state x) (ob_state y) conds = inr e /\
    made false (mkExecutor (Nlj.exec (XL := ob_class x) (XR := ob_class y) fuel) (fun _ => None) e)
      (mkRel (rel_cols a ++ (Nlj.shift_offset (rel_len a) <$> rel_cols b)) (rel_len a + rel_len b) (cross (holds_join conds (rel_cols a) (rel_cols b)) (rel_rows a) (rel_rows b))).
Proof.
  intros (LX & [(ox & Hx & Px) Xc Xl Xi Xp] & _) (LY & [(oy & Hy & Py) Yc Yl Yi Yp] & RY) Hc Hf. specialize (RY eq_refl).
  destruct (ex_len (ExecutorLaws:=LX) _ _ Hx) as (n1 & E1 & F1), (ex_len (ExecutorLaws:=LY) _ _ Hy) as (n2 & E2 & F2).
  rewrite Xl in E1. rewrite Yl in E2. injection E1 as <-. injection E2 as <-. rewrite Forall_forall in F1, F2.
  destruct (NljP.join_src (LL:=LX) (LR:=LY) fuel (ob_state x) (ob_state y) conds (rel_len a) (rel_len b) ox oy Hx Hy Xl Yl) as (j & Ej & Hs & Hcs & Hlc & Hrc & Hlen & Hcols).
  - intros l r Hl Hr. rewrite Xc, Yc. apply (Cond.test_all_ok _ (rel_len a) _ (rel_len b)); [done|by apply F1|by apply F2].
  - by rewrite Px, Py.
  - exists j. split; [done|]. exists (NljP.laws (LL:=LX) (LR:=LY) (RR:=RY) fuel). split; [|done]. split; simpl; try lia.
    + eexists. split; [exact Hs|]. rewrite NljP.result_perm. unfold NljP.sat_of. rewrite Hcs, Hlc, Hrc, Xc, Yc. by apply cross_perm.
    + by rewrite Hcols, Xc, Yc.
    + by rewrite Hlen.
    + by apply shifted_cols_in.
Qed.

Lemma laid_out_in cs off idxs out len n : Proj.laid_out cs off idxs out len -> 0 <= off -> Forall (Proj.col_in n) cs -> Forall (Proj.col_in len) out.
Proof.
  intros H. induction H as [off|off i c idxs out len Hi H IH]; intros Ho Hin; [constructor|].
  pose proof (proj1 (Forall_lookup _ _) Hin i c Hi) as (H1 & H2 & H3). pose proof (Proj.laid_out_le _ _ _ _ _ _ H Hin).
  constructor; [|apply IH; [lia|done]]. unfold Proj.col_in. simpl. lia.
Qed.

Lemma project_computes restart x a sel idxs cs len :
  made restart x a -> Proj.select (rel_cols a) sel 0 = inr (idxs, cs, len) -> len <= zlen buf0 ->
  exists e, Proj.make (X := ob_class x) buf0 (ob_state x) sel = inr e /\
    made restart (mkExecutor (Proj.exec (X := ob_class x)) (fun _ => None) e) (mkRel cs len (Proj.project (rel_cols a) idxs <$> rel_rows a)).
Proof.
  intros (L & [(o & Hs & Ho) Hc Hl Hi Hp] & HR) Es Hb. pose proof (Proj.select_laid_out _ _ _ _ _ _ Es) as Hlo.
  destruct (Proj.make_src (L:=L) buf0 (ob_state x) sel (rel_len a) idxs cs len o) as (e & Ee & Hse); try done; [by rewrite Hc|by rewrite Hc|].
  exists e. split; [done|]. pose proof Ee as Ee'. unfold Proj.make in Ee'. rewrite Hc, Es in Ee'. injection Ee' as <-.
  exists (Proj.laws (L:=L)). split; [split; simpl; try done|].
  - eexists. split; [exact Hse|]. rewrite Hc. by rewrite Ho.
  - by eapply laid_out_in.
  - by eapply Proj.laid_out_le.
  - intros ->. by apply (Proj.restartable (R:=HR eq_refl)).
Qed.

Lemma made_weaken restart x r : made restart x r -> made false x r.
Proof. intros (L & H & _). by exists L. Qed.

(** every plan that fits *)
Lemma convert_computes w plan : ready w -> forall r, eval (db_of w) plan = Some r -> fits (db_of w) fuel (zlen buf0) plan = true ->
  exists x, convert plan p w = (Ok (Some x), w) /\ made (again plan) x r.
Proof.
  intros Hw. induction plan as [|tag t pc conds pl ic names|tag l IHl r0 IHr conds|tag sub IH sel| | | | | |]; intros r He Hf; try discriminate He.
  - destruct (scan_computes w tag t pc conds pl ic names r Hw He) as (x & L & E & H & HR). exists x. split; [exact E|]. by exists L.
  - cbn [fits] in Hf. apply andb_prop in Hf as [[[Hf1 Hf2]%andb_prop Hag]%andb_prop Hsz]. cbn [eval] in He. unfold size in Hsz.
    destruct (eval (db_of w) l) as [a|] eqn:Ea; [|done]. destruct (eval (db_of w) r0) as [b|] eqn:Eb; [|done]. simpl in He, Hsz.
    destruct (forallb _ conds.*1) eqn:Ec; [|done]. injection He as <-. apply Nat.ltb_lt in Hsz.
    destruct (IHl a eq_refl Hf1) as (x & Ex & Mx), (IHr b eq_refl Hf2) as (y & Ey & My). rewrite Hag in My.
    destruct (join_computes x y a b conds.*1 (made_weaken _ _ _ Mx) My Ec Hsz) as (e & Ee & Me). eexists. split; [|exact Me].
    cbn [Prtl.convert_plan_executor]. rewrite (bind_ok _ _ _ _ _ Ex), (bind_ok _ _ _ _ _ Ey). unfold bind at 1 2, deref, ret. by rewrite Ee.
  - cbn [fits] in Hf. apply andb_prop in Hf as [Hf1 Hwd]. unfold width in Hwd. rewrite He in Hwd. cbn [eval] in He.
    destruct (eval (db_of w) sub) as [a|] eqn:Ea; [|done]. simpl in He. destruct (Proj.select (rel_cols a) sel 0) as [|[[idxs cs] len]] eqn:Es; [done|].
    injection He as <-. simpl in Hwd. apply Z.leb_le in Hwd. destruct (IH a eq_refl Hf1) as (x & Ex & Mx).
    destruct (project_computes _ x a sel idxs cs len Mx Es Hwd) as (e & Ee & Me). eexists. split; [|exact Me].
    cbn [Prtl.convert_plan_executor]. rewrite (bind_ok _ _ _ _ _ Ex). unfold bind at 1, deref, ret. by rewrite Ee.
Qed.
End world.
End PrtlP.

(** ** A [SELECT] from the plan to the answer *)

Section select.
Context (p : Z) (t0 : Transaction) (fds : list Z) (T : Q.tables).
Context (HT : forall tab h pages chain, T !! tab = Some (h, pages, chain) -> fd_ h ∈ fds).
Context (std_sort : (RmRecord -> RmRecord -> bool) -> list RmRecord -> list RmRecord) (malloc : gmap Z (list Z) -> Z).
Context (junk : Z -> list Z) (buf0 : list Z) (page0 : Z) (idx0 : nat) (rid0 : Rid) (fuel ifuel rfuel : nat).

(** what [client_handler] does with a plan: [portal->start] and [portal->run] *)
Definition run_plan (plan : Plan) (txn : Z) : Prog Session unit :=
  (let* portalStmt := Ql.on_sm (Prtl.start std_sort junk buf0 page0 idx0 rid0 fuel ifuel rfuel plan txn) in
   Ql.run malloc junk fuel ifuel rfuel portalStmt txn)%prog.

(** all rows can be printed, and their number is within the fuel and the width of the count *)
Definition prints (r : Rel.relation) : Prop :=
  Rel.rel_cols r <> [] /\ Forall (fun t => QlP.printable (Rel.rel_cols r) t = true) (Rel.rel_rows r) /\
  (length (Rel.rel_rows r) < fuel)%nat /\ zlen (Rel.rel_rows r) < 10 ^ 14.

Lemma run_select s plan tab values conds sets r :
  PrtlP.ready p t0 fds T (QlP.sm_of s) -> se_out s = Prt.fresh ->
  Rel.eval (PrtlP.db_of T (QlP.sm_of s)) plan = Some r -> Rel.fits (PrtlP.db_of T (QlP.sm_of s)) fuel (zlen buf0) plan = true -> prints r ->
  runs (run_plan (DMLPlan T_select plan tab values conds sets) p) s
    (fun _ s' => exists rows, rows ≡ₚ Rel.rel_rows r /\ QlP.selected (I:=Q.world_ok p t0 fds T) (Rel.rel_cols r) s rows s').
Proof.
  intros Hr Ho He Hf (Hne & Hp & Hlt & Hn).
  destruct (PrtlP.convert_computes p t0 fds T HT std_sort junk buf0 page0 idx0 rid0 fuel ifuel rfuel (QlP.sm_of s) plan Hr r He Hf) as (x & E & L & [(out & Hs & Hout) Hc _ _ _] & _).
  unfold run_plan. eapply (runs_bind_eq _ _ s (mkPortalStmt PORTAL_ONE_SELECT (QueryRoot x) (DMLPlan T_select plan tab values conds sets)) s).
  { unfold Ql.on_sm, Ql.on_tm, TxnM.on_sm, zoom. unfold Prtl.start. unfold QlP.sm_of in E. rewrite (bind_ok _ _ _ _ _ E). by destruct s as [[] ? ? ?]. }
  unfold Ql.run. cbn [ps_tag ps_root]. unfold Ql.select_from.
  destruct (QlP.select_loop_spec (L:=L) (Rel.rel_cols r) s fuel (ob_state x) out Hc Hne Hs (PrtlP.rd_world _ _ _ _ _ Hr) Ho) as ([] & [e' s'] & El & Hsel).
  - by rewrite Hout.
  - by rewrite Hout.
  - unfold zlen in *. by rewrite Hout.
  - exists tt, s'. split; [by rewrite El|]. by exists out.
Qed.
End select.

(** ** Columns that can be printed *)

Lemma printable_readable n cs t : zlen t = n -> Forall (fun c => Cond.readable n c = true /\ cm_type c <> TYPE_DATETIME) cs -> QlP.printable cs t = true.
Proof.
  intros Ht Hf. assert (H : exists l, Ql.col_strs cs t tt = (Ok l, tt)).
  { induction cs as [|c cs IH]; [by exists []|]. apply Forall_cons in Hf as [[Hr Hd] Hf]. destruct (IH Hf) as [l El].
    assert (Hs : exists b, Ql.col_str c t tt = (Ok b, tt)).
    { unfold Ql.col_str, Val.load, mload. unfold Cond.readable, Cond.width in Hr. rewrite Ht. destruct (cm_type c); try done; unfold bind; rewrite Hr; simpl; unfold ret; eauto. }
    destruct Hs as [b Eb]. exists (b :: l). cbn [Ql.col_strs]. by rewrite (bind_ok _ _ _ _ _ Eb), (bind_ok _ _ _ _ _ El). }
  destruct H as [l El]. unfold QlP.printable. by rewrite El.
Qed.

(** ** The plan of a query on one table *)

Lemma pops_all t conds : Forall (fun c : QCond => Pln.lhs_tab c = t /\ (is_rhs_val c.1 = true \/ Pln.rhs_tab c = t)) conds ->
  List.filter (Pln.pops t) conds = conds.
Proof.
  induction 1 as [|c l [H1 H2] Hc IH]; [done|]. simpl. rewrite (proj2 (PlnP.pops_spec t c)); [by rewrite IH|]. destruct H2 as [H2|H2]; [by left|right; congruence].
Qed.
Lemma no_count_star cols : existsb has_agg cols = false -> Pln.is_count_star cols = false.
Proof. intros Ha. destruct cols as [|c [|c' l]]; try done. simpl in Ha. rewrite orb_false_r in Ha. simpl. by rewrite Ha, andb_false_r. Qed.
Lemma one_table_rel {S} (w : SmManager S) q t plan : q_tables q = [t] -> List.filter (Pln.pops t) (q_conds q) = q_conds q ->
  Pln.table_scan t (q_conds q) w = (Ok plan, w) -> Pln.make_one_rel q w = (Ok plan, w).
Proof.
  intros Hq Hall Et. unfold Pln.make_one_rel. rewrite Hq. cbn [Pln.table_scans]. unfold Pln.pop_conds. rewrite Hall.
  unfold bind at 1. by rewrite (bind_ok _ _ _ _ _ Et).
Qed.

Lemma plan_one_table {S} (w : SmManager S) cols tabs sconds limit q t tab :
  q_tables q = [t] -> writer (db_latch_ w) = false -> Meta.get_table (db_ w) t = inr tab -> tm_cols tab <> [] -> tm_indexes tab = [] ->
  Forall (fun c : QCond => Pln.lhs_tab c = t /\ (is_rhs_val c.1 = true \/ Pln.rhs_tab c = t)) (q_conds q) -> existsb has_agg (q_cols q) = false ->
  exists pcols plen ic, Pln.plan_query (ast.SelectStmt cols tabs sconds None limit) q w =
    (Ok (DMLPlan T_select (ProjectionPlan T_Projection (ScanPlan T_SeqScan t pcols (q_conds q) plen ic []) (q_cols q)) "" [] [] []), w).
Proof.
  intros Hq Hl Hm Hne Hi Hc Ha. assert (Hk : PlnP.table_known w t tab) by (split; try done; by rewrite Hi).
  pose proof (pops_all t (q_conds q) Hc) as Hall.
  destruct (PlnP.get_index_cols_ok t tab (q_conds q) w Hk) as (r & Hr & rest & Er). rewrite Hi in Hr.
  assert (r = None) as ->.
  { destruct r as [[ic names]|]; [|done]. destruct Hr as (i & ix & Hx & _). by rewrite lookup_nil in Hx. }
  destruct (PlnP.make_scan_ok t tab w T_SeqScan (q_conds q) rest [] Hk) as (pcols & plen & Es). exists pcols, plen, rest.
  assert (E1 : Pln.make_one_rel q w = (Ok (ScanPlan T_SeqScan t pcols (q_conds q) plen rest []), w)).
  { apply (one_table_rel w q t); [done|done|]. unfold Pln.table_scan. by rewrite (bind_ok _ _ _ _ _ Er). }
  unfold Pln.plan_query, Pln.do_planner, Pln.generate_select_plan, Pln.physical_optimization, Pln.logical_optimization, Pln.generate_sort_plan, Pln.generate_agg_plan.
  rewrite (no_count_star _ Ha), Ha. unfold bind at 1 2 3. rewrite E1. reflexivity.
Qed.

(** ** Sorting over an index scan *)

Lemma plan_order_by {S} (w : SmManager S) cols tabs sconds ob limit q t tab ic names :
  q_tables q = [t] -> PlnP.table_known w t tab -> Forall (fun c : QCond => Pln.lhs_tab c = t /\ (is_rhs_val c.1 = true \/ Pln.rhs_tab c = t)) (q_conds q) ->
  existsb has_agg (q_cols q) = false -> Pln.get_index_cols t (q_conds q) w = (Ok (true, ic, names), w) ->
  exists pcols plen lim, Pln.plan_query (ast.SelectStmt cols tabs sconds (Some ob) limit) q w =
    (Ok (DMLPlan T_select (ProjectionPlan T_Projection (SortPlan T_Sort (ScanPlan T_IndexScan t pcols (q_conds q) plen ic names) (q_order_by q) lim) (q_cols q)) "" [] [] []), w).
Proof.
  intros Hq Hk Hc Ha Hi. pose proof (pops_all t (q_conds q) Hc) as Hall.
  destruct (PlnP.make_scan_ok t tab w T_IndexScan (q_conds q) ic names Hk) as (pcols & plen & Es). exists pcols, plen.
  assert (E1 : Pln.make_one_rel q w = (Ok (ScanPlan T_IndexScan t pcols (q_conds q) plen ic names), w)).
  { apply (one_table_rel w q t); [done|done|]. unfold Pln.table_scan. by rewrite (bind_ok _ _ _ _ _ Hi). }
  unfold Pln.plan_query, Pln.do_planner, Pln.generate_select_plan, Pln.physical_optimization, Pln.logical_optimization, Pln.generate_sort_plan, Pln.generate_agg_plan.
  rewrite (no_count_star _ Ha), Ha. unfold bind at 1 2 3. rewrite E1. eexists. reflexivity.
Qed.

Lemma index_scan_made w p rid0 junk t tab h conds ic names im :
  PlnP.table_known w t tab -> writer (sm_latch_ w) = false -> fhs_ w !! t = Some h -> Meta.get_index_meta tab names = inr im ->
  Forall (fun c : QCond => Pln.lhs_tab c = t) conds -> exists e, IxEx.make (S:=Core) rid0 junk t conds ic names p w = (Ok e, w).
Proof.
  intros [Hw Hm Hc _] Hl Hf Hi Hconds. unfold IxEx.make. rewrite (bind_ok _ _ _ _ _ (SmSt.read_table_ok t tab w Hw Hm)). rewrite Hi.
  rewrite (bind_ok _ _ w im w) by done. rewrite (bind_ok _ _ _ _ _ (SmSt.read_fh_ok t h w Hl Hf)).
  destruct (last (tm_cols tab)) as [b|] eqn:El; [|by apply last_None in El]. rewrite (bind_ok _ _ w b w) by done.
  assert (Ef : forallb (fun c : QCond => String.eqb (Pln.lhs_tab c) t) conds = true).
  { apply forallb_forall. intros c Hin. rewrite Forall_forall in Hconds. apply String.eqb_eq, Hconds. by apply list_elem_of_In. }
  rewrite Ef. by eexists.
Qed.

(** ** Properties *)

(** C10: A [SELECT] computes its plan, read as relational algebra, and prints the result.  The plans are those built from
    sequential scans, projections, and joins whose right input is a scan or a projection of one; a join as the right input,
    which the planner makes for three tables and more, and an index scan are not among them.  Over tables that the transaction may
    read, with fuel for the pairs of every join and room for the rows of every projection: [Portal::start] builds the executors,
    [Portal::run] runs them, and all of it returns.  When the output to [output.txt] is on, the file has then, after what it held, a line with
    the names of the columns and one line per row of the relation that the algebra gives, and when it is off the file is as it was; the
    answer to the client holds the same rows in a table, or a first part of it when the buffer is too short, and the
    number of rows; the tables are as before. *)
Theorem select_plan_prints p t0 fds T std_sort malloc junk buf0 page0 idx0 rid0 fuel ifuel rfuel s plan tab values conds sets r :
  (forall tab h pages chain, T !! tab = Some (h, pages, chain) -> fd_ h ∈ fds) ->
  PrtlP.ready p t0 fds T (QlP.sm_of s) -> se_out s = Prt.fresh ->
  Rel.eval (PrtlP.db_of T (QlP.sm_of s)) plan = Some r -> Rel.fits (PrtlP.db_of T (QlP.sm_of s)) fuel (zlen buf0) plan = true -> prints fuel r ->
  runs (run_plan std_sort malloc junk buf0 page0 idx0 rid0 fuel ifuel rfuel (DMLPlan T_select plan tab values conds sets) p) s
    (fun _ s' => exists rows, rows ≡ₚ Rel.rel_rows r /\ QlP.selected (I:=Q.world_ok p t0 fds T) (Rel.rel_cols r) s rows s').
Proof. intros HT. by apply run_select. Qed.

(** a query on one table without indexes *)
Lemma query_prints p t0 fds T std_sort malloc junk buf0 page0 idx0 rid0 fuel ifuel rfuel s cols tabs sconds limit q t tab h pages chain idxs cs len :
  (forall tab h pages chain, T !! tab = Some (h, pages, chain) -> fd_ h ∈ fds) ->
  PrtlP.ready p t0 fds T (QlP.sm_of s) -> se_out s = Prt.fresh ->
  q_tables q = [t] -> existsb has_agg (q_cols q) = false ->
  Meta.get_table (db_ (QlP.sm_of s)) t = inr tab -> T !! t = Some (h, pages, chain) -> tm_indexes tab = [] ->
  Forall (fun c : QCond => Pln.lhs_tab c = t /\ (is_rhs_val c.1 = true \/ Pln.rhs_tab c = t)) (q_conds q) ->
  forallb (Cond.scan_ok (tm_cols tab) (record_size (file_hdr_ h))) (q_conds q).*1 = true ->
  Proj.select (tm_cols tab) (q_cols q) 0 = inr (idxs, cs, len) -> len <= zlen buf0 ->
  let rows := Proj.project (tm_cols tab) idxs <$> List.filter (holds_scan (q_conds q).*1 (tm_cols tab)) (ScanP.all_rows h pages).*2 in
  prints fuel (Rel.mkRel cs len rows) ->
  runs (let* plan := Ql.on_sm (Pln.plan_query (ast.SelectStmt cols tabs sconds None limit) q) in
        run_plan std_sort malloc junk buf0 page0 idx0 rid0 fuel ifuel rfuel plan p)%prog s
    (fun _ s' => exists rows', rows' ≡ₚ rows /\ QlP.selected (I:=Q.world_ok p t0 fds T) cs s rows' s').
Proof.
  intros HT Hr Ho Hq Ha Hm Ht Hi Hc Hok Hsel Hb rows Hp. pose proof Hr as [_ [Hfree _] Htabs]. destruct (Htabs _ _ _ _ _ Hm Ht) as [_ (c & Hlast & _)].
  assert (Hne : tm_cols tab <> []) by (intros Hx; by rewrite Hx in Hlast).
  destruct (plan_one_table (QlP.sm_of s) cols tabs sconds limit q t tab Hq Hfree Hm Hne Hi Hc Ha) as (pcols & plen & ic & E).
  eapply runs_bind_eq.
  { unfold Ql.on_sm, Ql.on_tm, TxnM.on_sm, zoom. unfold QlP.sm_of in E. rewrite E. reflexivity. }
  destruct s as [[w ni nt tm] o off txt]. unfold QlP.sm_of in *. cbn [se_tm tm_sm se_out output_off output_txt next_txn_id_ next_timestamp_ txn_map] in *.
  assert (He : Rel.eval (PrtlP.db_of T w) (ProjectionPlan T_Projection (ScanPlan T_SeqScan t pcols (q_conds q) plen ic []) (q_cols q)) = Some (Rel.mkRel cs len rows)).
  { cbn [Rel.eval]. unfold PrtlP.db_of. rewrite Hm, Ht. cbn [mbind option_bind Rel.rel_cols Rel.rel_len Rel.rel_rows]. rewrite Hok. cbn [mbind option_bind Rel.rel_cols Rel.rel_len Rel.rel_rows]. by rewrite Hsel. }
  apply (run_select p t0 fds T HT std_sort malloc junk buf0 page0 idx0 rid0 fuel ifuel rfuel _ _ _ _ _ _ (Rel.mkRel cs len rows)); try done.
  unfold QlP.sm_of. cbn [Rel.fits se_tm tm_sm]. unfold Rel.width. rewrite He. simpl. by apply Z.leb_le.
Qed.

(** [SELECT columns FROM t WHERE conditions] prints the selected columns of exactly the records of [t] on which
    all conditions hold.  From the analysed query on: the planner, the portal, the scan with its table lock, the
    projection, the printer and the file, for a table without indexes and a query without aggregates and
    [ORDER BY].  A [LIMIT] has no effect. *)
Theorem select_query_prints p t0 fds T std_sort malloc junk buf0 page0 idx0 rid0 fuel ifuel rfuel s cols tabs sconds limit q t tab h pages chain idxs cs len :
  (forall tab h pages chain, T !! tab = Some (h, pages, chain) -> fd_ h ∈ fds) ->
  PrtlP.ready p t0 fds T (QlP.sm_of s) -> se_out s = Prt.fresh ->
  q_tables q = [t] -> existsb has_agg (q_cols q) = false ->
  Meta.get_table (db_ (QlP.sm_of s)) t = inr tab -> T !! t = Some (h, pages, chain) -> tm_indexes tab = [] ->
  Forall (fun c : QCond => Pln.lhs_tab c = t /\ (is_rhs_val c.1 = true \/ Pln.rhs_tab c = t)) (q_conds q) ->
  forallb (Cond.scan_ok (tm_cols tab) (record_size (file_hdr_ h))) (q_conds q).*1 = true ->
  Proj.select (tm_cols tab) (q_cols q) 0 = inr (idxs, cs, len) -> len <= zlen buf0 ->
  let rows := Proj.project (tm_cols tab) idxs <$> List.filter (holds_scan (q_conds q).*1 (tm_cols tab)) (ScanP.all_rows h pages).*2 in
  prints fuel (Rel.mkRel cs len rows) ->
  runs (let* plan := Ql.on_sm (Pln.plan_query (ast.SelectStmt cols tabs sconds None limit) q) in
        run_plan std_sort malloc junk buf0 page0 idx0 rid0 fuel ifuel rfuel plan p)%prog s
    (fun _ s' => exists rows', rows' ≡ₚ rows /\ QlP.selected (I:=Q.world_ok p t0 fds T) cs s rows' s').
Proof. intros HT Hr Ho Hq Ha Hm Ht Hi Hc Hok Hsel Hb rows Hp. by apply (query_prints p t0 fds T std_sort malloc junk buf0 page0 idx0 rid0 fuel ifuel rfuel s cols tabs sconds limit q t tab h pages chain idxs cs len). Qed.

(** ** Witnesses: the table with one record *)

Definition demo_session (w : Q.World) : Session := mkSession (mkTransactionManager w 0 0 ∅) Prt.fresh false [].
Definition demo_scan (conds : list QCond) : Plan := ScanPlan T_SeqScan "t" [] conds 8 [] [].
Definition demo_select : Plan :=
  ProjectionPlan T_Projection (JoinPlan T_NestLoop (demo_scan [(demo_scan_cond, None)]) (demo_scan []) [(demo_join_cond, None)]) [demo_tabcol "b"].

Lemma one_row h pages rid : (forall r y, RmP.rec_at pages r = Some y -> r = rid) -> (length (ScanP.all_rows h pages) <= 1)%nat.
Proof.
  intros Hone. pose proof (ScanP.sorted_table_rows (file_hdr_ h) pages (Z.to_nat (num_pages (file_hdr_ h) - 1)) 1) as Hs. fold (ScanP.all_rows h pages) in Hs.
  assert (Hall : forall r, r ∈ ScanP.all_rows h pages -> r.1 = rid) by (intros [r y] Hr; apply ScanP.elem_of_table_rows in Hr as (_ & _ & Hr); by eapply Hone).
  destruct (ScanP.all_rows h pages) as [|a [|b l]]; simpl; [lia|lia|]. exfalso. simpl in Hs. apply StronglySorted_inv in Hs as [_ Hs].
  apply Forall_cons in Hs as [Hlt _]. rewrite (Hall a), (Hall b) in Hlt by set_solver. destruct Hlt as [?|[_ ?]]; lia.
Qed.

(** the table with one record, and a lock manager in which transaction 1 may read *)
Definition demo_world_with (l : LockManager) (s : Store) (h : RmFileHandle) : Q.World :=
  mkSmManager (mkCore s (LogM.make 0 0) l ∅) (mkDbMeta "db" [("t", ExecProps.demo_tab)]) free_mutex {["t" := h]} ∅ free_mutex.
Lemma demo_ready_with l t0 : LkP.linv l -> lock_table_ l = ∅ -> txns l !! 1 = Some t0 -> state_ t0 <> SHRINKING -> exists s h T pages chain,
  (forall tab h' pages chain, T !! tab = Some (h', pages, chain) -> fd_ h' ∈ [fd_ h]) /\ PrtlP.ready 1 t0 [fd_ h] T (demo_world_with l s h) /\
  T !! "t" = Some (h, pages, chain) /\ record_size (file_hdr_ h) = 8 /\ (length (ScanP.all_rows h pages) <= 1)%nat.
Proof.
  intros Hi Hq Ht0 Hst. destruct demo_only_record as (s & h & pages & chain & rid & x & Hrep & _ & Hsz & Hone).
  exists s, h, {["t" := (h, pages, chain)]}, pages, chain. split; [|split; [|split; [by rewrite lookup_singleton_eq|split; [done|by eapply one_row]]]].
  - intros tab h' pages' chain'. rewrite lookup_singleton_Some. intros [_ [= -> _ _]]. by apply list_elem_of_singleton.
  - assert (Hr : CoreP.reader 1 t0 [fd_ h] (sm_core (demo_world_with l s h))).
    { split; [done|]. split; [by exists t0|]. split; [exists t0; split; [done|apply LkP.like_refl]|]. intros fd _ q r. simpl. by rewrite Hq, lookup_empty. }
    split; [|done|].
    + split; [done|]. intros tab h' pages' chain'. rewrite lookup_singleton_Some. intros [<- [= <- <- <-]].
      split; [apply lookup_singleton_eq|]. by apply core_rep.
    + intros t tab h' pages' chain' Hm. rewrite lookup_singleton_Some. intros [<- [= <- <- <-]]. injection Hm as <-. rewrite Hsz. split.
      * repeat constructor; vm_compute; done.
      * by eexists.
Qed.
Lemma demo_ready : exists w T h pages chain,
  (forall tab h' pages chain, T !! tab = Some (h', pages, chain) -> fd_ h' ∈ [fd_ h]) /\ PrtlP.ready 1 (demo_txn 1 GROWING) [fd_ h] T w /\
  Meta.get_table (db_ w) "t" = inr ExecProps.demo_tab /\ T !! "t" = Some (h, pages, chain) /\ record_size (file_hdr_ h) = 8 /\ (length (ScanP.all_rows h pages) <= 1)%nat.
Proof.
  destruct (demo_ready_with demo_locks (demo_txn 1 GROWING) demo_linv) as (s & h & T & pages & chain & H1 & H2 & H3 & H4 & H5); [done|by vm_compute|done|].
  by exists (demo_world_with demo_locks s h), T, h, pages, chain.
Qed.

(** the rows of the record file have its record size *)
Lemma demo_rows_len t0 w T h pages chain : PrtlP.ready 1 t0 [fd_ h] T w -> T !! "t" = Some (h, pages, chain) -> record_size (file_hdr_ h) = 8 ->
  forall x, x ∈ (ScanP.all_rows h pages).*2 -> zlen x = 8.
Proof.
  intros [Hw _ _] Ht Hsz x Hx. pose proof (Q.rows_len 1 t0 [fd_ h] T w "t" h pages chain Hw Ht) as Hl. rewrite Hsz in Hl.
  apply list_elem_of_fmap in Hx as (r & -> & Hr). rewrite Forall_forall in Hl. by apply Hl.
Qed.

Lemma demo_select_rel w T h pages chain :
  Meta.get_table (db_ w) "t" = inr ExecProps.demo_tab -> T !! "t" = Some (h, pages, chain) -> record_size (file_hdr_ h) = 8 ->
  Rel.eval (PrtlP.db_of T w) demo_select = Some (Rel.mkRel [mkColMeta "t" "b" TYPE_INT 4 0 false] 4
    (Proj.project (ExecProps.demo_cols ++ (Nlj.shift_offset 8 <$> ExecProps.demo_cols)) [1%nat] <$>
       cross (holds_join [demo_join_cond] ExecProps.demo_cols ExecProps.demo_cols)
         (List.filter (holds_scan [demo_scan_cond] ExecProps.demo_cols) (ScanP.all_rows h pages).*2)
         (List.filter (holds_scan [] ExecProps.demo_cols) (ScanP.all_rows h pages).*2))).
Proof. intros Hm Ht Hsz. unfold demo_select, demo_scan. cbn [Rel.eval]. unfold PrtlP.db_of. rewrite Hm, Ht, Hsz. reflexivity. Qed.

Lemma select_plan_prints_witness : exists (w : Q.World) T (h : RmFileHandle) fuel r s',
  Rel.eval (PrtlP.db_of T w) demo_select = Some r /\
  run_plan (fun _ l => l) (fun _ => 0) zeros (zeros 4) 0 0 (mkRid 0 0) fuel 1 1 (DMLPlan T_select demo_select "" [] [] []) 1 (demo_session w) = (Ok tt, s') /\
  exists rows, rows ≡ₚ Rel.rel_rows r /\ QlP.selected (I:=Q.world_ok 1 (demo_txn 1 GROWING) [fd_ h] T) (Rel.rel_cols r) (demo_session w) rows s'.
Proof.
  destruct demo_ready as (w & T & h & pages & chain & HT & Hr & Hm & Ht & Hsz & Hone). pose proof (demo_select_rel w T h pages chain Hm Ht Hsz) as He.
  set (r := Rel.mkRel _ _ _) in He. set (n := length (ScanP.all_rows h pages)).
  assert (Hle : forall f, (length (List.filter f (ScanP.all_rows h pages).*2) <= n)%nat) by (intros f; etransitivity; [apply List.filter_length_le|by rewrite length_fmap]).
  assert (Hlen : (length (Rel.rel_rows r) <= n * n)%nat).
  { simpl. rewrite length_fmap. etransitivity; [apply (NljP.length_block (holds_join [demo_join_cond] ExecProps.demo_cols ExecProps.demo_cols))|]. by apply Nat.mul_le_mono. }
  destruct (select_plan_prints 1 (demo_txn 1 GROWING) [fd_ h] T (fun _ l => l) (fun _ => 0) zeros (zeros 4) 0 0 (mkRid 0 0) (S (n * n)) 1 1 (demo_session w) demo_select "" [] [] [] r HT Hr eq_refl He) as ([] & s' & E & H).
  - unfold demo_select, demo_scan. cbn [Rel.fits Rel.again andb]. unfold Rel.width. change (QlP.sm_of (demo_session w)) with w.
    fold (demo_scan [(demo_scan_cond, None)]) (demo_scan []). fold demo_select. rewrite He. unfold Rel.size, demo_scan. cbn [Rel.eval]. unfold PrtlP.db_of. rewrite Hm, Ht, Hsz.
    simpl. rewrite andb_true_r. apply Nat.ltb_lt. apply Nat.lt_succ_r. apply Nat.mul_le_mono; apply Hle.
  - split; [done|]. split; [|split; [lia|]].
    + apply Forall_forall. intros x Hx. apply (printable_readable 4); [|repeat constructor; done]. simpl in Hx.
      apply list_elem_of_fmap in Hx as (y & -> & Hy). unfold cross in Hy. apply list_elem_of_bind in Hy as (l & Hy & Hl).
      apply list_elem_of_bind in Hy as (r' & Hy & Hr'). destruct (holds_join _ _ _ _ _); [|set_solver]. apply list_elem_of_singleton in Hy as ->.
      pose proof (demo_rows_len _ w T h pages chain Hr Ht Hsz) as Hl8. apply PlnP.in_filter in Hl as [Hl _], Hr' as [Hr' _].
      unfold Proj.project. simpl. rewrite app_nil_r. unfold Proj.part. rewrite zlen_slice; [done|simpl; lia|simpl; lia|]. rewrite zlen_app, !Hl8 by done. simpl. lia.
    + unfold zlen. fold n in Hone. nia.
  - exists w, T, h, (S (n * n)), r, s'. split; [exact He|]. split; [exact E|exact H].
Defined.

Definition demo_q : Query := mkQuery [(demo_scan_cond, None)] [demo_tabcol "b"] ["t"] [] [] [] None.

(** the second column of the rows of the demo table can be printed *)
Lemma demo_prints t0 w T h pages chain conds : PrtlP.ready 1 t0 [fd_ h] T w -> T !! "t" = Some (h, pages, chain) -> record_size (file_hdr_ h) = 8 -> (length (ScanP.all_rows h pages) <= 1)%nat ->
  prints 2 (Rel.mkRel [mkColMeta "t" "b" TYPE_INT 4 0 false] 4 (Proj.project ExecProps.demo_cols [1%nat] <$> List.filter (holds_scan conds ExecProps.demo_cols) (ScanP.all_rows h pages).*2)).
Proof.
  intros Hr Ht Hsz Hone. assert (Hle : (length (List.filter (holds_scan conds ExecProps.demo_cols) (ScanP.all_rows h pages).*2) <= 1)%nat)
    by (etransitivity; [apply List.filter_length_le|by rewrite length_fmap]).
  unfold prints, zlen. cbn [Rel.rel_rows Rel.rel_cols]. rewrite length_fmap. split; [done|]. split; [|split; lia].
  apply Forall_forall. intros x Hx. apply (printable_readable 4); [|repeat constructor; done].
  apply list_elem_of_fmap in Hx as (y & -> & Hy). apply PlnP.in_filter in Hy as [Hy _].
  unfold Proj.project. simpl. rewrite app_nil_r. unfold Proj.part. rewrite zlen_slice; [done|simpl; lia|simpl; lia|].
  rewrite (demo_rows_len _ w T h pages chain Hr Ht Hsz y Hy). simpl. lia.
Qed.
Lemma select_query_prints_witness : exists (w : Q.World) T (h : RmFileHandle) fuel rows s',
  (let* plan := Ql.on_sm (Pln.plan_query (ast.SelectStmt [] ["t"] [] None (Some (ast.Int_Bint_Lit "0"))) demo_q) in
   run_plan (fun _ l => l) (fun _ => 0) zeros (zeros 4) 0 0 (mkRid 0 0) fuel 1 1 plan 1)%prog (demo_session w) = (Ok tt, s') /\
  QlP.selected (I:=Q.world_ok 1 (demo_txn 1 GROWING) [fd_ h] T) [mkColMeta "t" "b" TYPE_INT 4 0 false] (demo_session w) rows s'.
Proof.
  destruct demo_ready as (w & T & h & pages & chain & HT & Hr & Hm & Ht & Hsz & Hone).
  destruct (select_query_prints 1 (demo_txn 1 GROWING) [fd_ h] T (fun _ l => l) (fun _ => 0) zeros (zeros 4) 0 0 (mkRid 0 0) 2 1 1 (demo_session w) [] ["t"] [] (Some (ast.Int_Bint_Lit "0"))
    demo_q "t" ExecProps.demo_tab h pages chain [1%nat] [mkColMeta "t" "b" TYPE_INT 4 0 false] 4 HT Hr eq_refl) as ([] & s' & E & rows & _ & H); try done.
  - repeat constructor.
  - by rewrite Hsz.
  - exact (demo_prints (demo_txn 1 GROWING) w T h pages chain (q_conds demo_q).*1 Hr Ht Hsz Hone).
  - exists w, T, h, 2%nat, rows, s'. split; [exact E|exact H].
Defined.

(** [ORDER BY] cannot be combined with an index.  When the planner finds an index for the conditions of a
    [SELECT] on one table, every such query with [ORDER BY] fails, whatever the table holds: the constructor of the sort
    asks its child for the length of a tuple, which an index scan answers with an exception.  Nothing is
    read or locked before. *)
Theorem indexed_order_by_fails std_sort junk buf0 page0 idx0 rid0 fuel ifuel rfuel p (w : SmManager Core) cols tabs sconds ob limit q t tab h ic names im :
  PlnP.table_known w t tab -> writer (sm_latch_ w) = false -> fhs_ w !! t = Some h ->
  q_tables q = [t] -> Forall (fun c : QCond => Pln.lhs_tab c = t /\ (is_rhs_val c.1 = true \/ Pln.rhs_tab c = t)) (q_conds q) ->
  existsb has_agg (q_cols q) = false -> Pln.get_index_cols t (q_conds q) w = (Ok (true, ic, names), w) -> Meta.get_index_meta tab names = inr im ->
  (let* plan := Pln.plan_query (ast.SelectStmt cols tabs sconds (Some ob) limit) q in
   Prtl.start std_sort junk buf0 page0 idx0 rid0 fuel ifuel rfuel plan p)%prog w = (Throw UnreachableCodeError, w).
Proof.
  intros Hk Hl Hf Hq Hc Ha Hi Him. destruct (plan_order_by w cols tabs sconds ob limit q t tab ic names Hq Hk Hc Ha Hi) as (pcols & plen & lim & E).
  rewrite (bind_ok _ _ _ _ _ E). destruct (index_scan_made w p rid0 junk t tab h (q_conds q) ic names im Hk Hl Hf Him) as (e & Ee).
  { eapply Forall_impl; [exact Hc|]. by intros c [? _]. }
  cbn [Prtl.start Prtl.convert_plan_executor]. unfold bind. by rewrite Ee.
Qed.

Definition demo_indexed (c : Core) : SmManager Core :=
  mkSmManager c (mkDbMeta "db" [("t", PlannerProps.demo_tab "t")]) free_mutex {["t" := demo_handle]} ∅ free_mutex.
Definition demo_ordered : Query := mkQuery [demo_lit "t" "c" OP_EQ 1] [An.tab_col "t" "a"] ["t"] [] [] [(An.tab_col "t" "a", false)] None.

Definition demo_core : Core := mkCore demo_rm_store (LogM.make 0 0) demo_locks ∅.
Lemma indexed_order_by_fails_witness :
  (let* plan := Pln.plan_query (ast.SelectStmt [] ["t"] [] (Some []) None) demo_ordered in
   Prtl.start (fun _ l => l) zeros [] 0 0 (mkRid 0 0) 1 1 1 plan 1)%prog (demo_indexed demo_core) = (Throw UnreachableCodeError, demo_indexed demo_core).
Proof.
  apply (indexed_order_by_fails (fun _ l => l) zeros [] 0 0 (mkRid 0 0) 1 1 1 1 (demo_indexed demo_core) [] ["t"] [] [] None demo_ordered "t" (PlannerProps.demo_tab "t") demo_handle
    [demo_lit "t" "c" OP_EQ 1] ["c"] (mkIndexMeta "t" 4 1 [demo_col "t" "c" 8])).
  - split; [reflexivity|reflexivity|discriminate|]. repeat (constructor; [unfold PlnP.index_ok; simpl; lia|]). constructor.
  - reflexivity.
  - reflexivity.
  - reflexivity.
  - repeat constructor.
  - reflexivity.
  - reflexivity.
  - reflexivity.
Defined.
