(* ===== verification/ServerProps.v ===== *)
(** What a client of the server gets: the transaction its statements run in, the answer to a statement that
    fails, and [COMMIT] outside of a transaction. *)

From S2P Require Import Prelude Bytes Errors Disk BufferPool PageStore Defs.
From S2P Require Import Text SmMeta RmFile Values LogRecord IxDefs IxTree.
From S2P Require Import SmState Executor LogManager Lock Core Txn TxnProps.
From S2P Require Import Sm Analyze Planner Portal Printer Ql Parser Server.

Module SrvP.
Import Srv.

Definition tm_of (cl : Client) : TransactionManager := se_tm (cl_session cl).
Definition put_tm (tm : TransactionManager) (cl : Client) : Client :=
  let s := cl_session cl in mkClient (mkSession tm (se_out s) (output_off s) (output_txt s)) (cl_txn_id cl) (buffer_mutex cl) (yy_start cl).

Lemma on_tm_eq {A} (m : Prog TransactionManager A) cl r tm' : m (tm_of cl) = (r, tm') -> on_session (Ql.on_tm m) cl = (r, put_tm tm' cl).
Proof. intros E. unfold on_session, Ql.on_tm, zoom. unfold tm_of in E. by rewrite E. Qed.
Lemma put_tm_same cl : put_tm (tm_of cl) cl = cl.
Proof. by destruct cl as [[] ? ?]. Qed.

(** ** A new transaction *)

(** what [begin] needs: a new id, and room for its record in the log buffer *)
Record can_begin (tm : TransactionManager) (c b : list Z) : Prop := {
  cb_locks : LkP.linv (c_locks (TxnP.core_of tm));
  cb_log : LogM.linv (log_part (TxnP.core_of tm)) c b;
  cb_latch : log_latch_ (c_log (TxnP.core_of tm)) = false;
  cb_lsn : int32_ok (global_lsn_ (c_log (TxnP.core_of tm)));
  cb_id : 0 <= next_txn_id_ tm < 2 ^ 31;
  cb_new : txns (c_locks (TxnP.core_of tm)) !! next_txn_id_ tm = None;
  cb_room : zlen b + zlen (Log.image (Log.make_begin (global_lsn_ (c_log (TxnP.core_of tm))) INVALID_LSN (next_txn_id_ tm))) <= LOG_BUFFER_SIZE;
}.

(** the transaction that [begin] makes *)
Definition begun (mode : bool) (tm : TransactionManager) : Transaction :=
  set_so_far_lsn (global_lsn_ (c_log (TxnP.core_of tm))) (set_start_ts (next_timestamp_ tm) (new_Transaction mode 0 (next_txn_id_ tm) SERIALIZABLE)).

(** the state after it: the counters, the map, the transaction and its record in the log *)
Record has_begun (mode : bool) (tm : TransactionManager) (c b : list Z) (tm' : TransactionManager) : Prop := {
  hb_id : next_txn_id_ tm' = wrap 32 (next_txn_id_ tm + 1);
  hb_map : txn_map tm' = <[next_txn_id_ tm := next_txn_id_ tm]> (txn_map tm);
  hb_txns : txns (c_locks (TxnP.core_of tm')) = <[next_txn_id_ tm := begun mode tm]> (txns (c_locks (TxnP.core_of tm)));
  hb_table : lock_table_ (c_locks (TxnP.core_of tm')) = lock_table_ (c_locks (TxnP.core_of tm));
  hb_inv : LkP.linv (c_locks (TxnP.core_of tm'));
  hb_log : LogM.linv (log_part (TxnP.core_of tm')) c (b ++ Log.image (Log.make_begin (global_lsn_ (c_log (TxnP.core_of tm))) INVALID_LSN (next_txn_id_ tm)));
  hb_latch : log_latch_ (c_log (TxnP.core_of tm')) = false;
}.

Lemma linv_new p t s : txns s !! p = None -> txn_id_ t = p -> LkP.linv s -> LkP.linv (mkLockManager (lock_table_ s) (<[p := t]> (txns s))).
Proof.
  intros Hn Hid [H1 H2 H3 H4]. split; try done.
  - intros q u. simpl. destruct (decide (p = q)) as [<-|Hne]; [rewrite lookup_insert_eq; by intros [= <-]|rewrite lookup_insert_ne by done; apply H1].
  - intros id q a Hq Ha. destruct (H4 id q a Hq Ha) as (u & Hu & Hin). exists u. split; [|done]. simpl. rewrite lookup_insert_ne; [done|]. congruence.
Qed.

Lemma txn_begin_spec mode0 ts0 tm c b : can_begin tm c b ->
  runs (TxnM.begin mode0 ts0) tm (fun p tm' => p = next_txn_id_ tm /\ has_begun mode0 tm c b tm').
Proof.
  intros [Hl Hlog Hlatch Hlsn Hid Hnew Hroom]. unfold TxnM.begin. do 5 rstep.
  destruct tm as [[core d dl fh ih sl] id ts map]. unfold TxnP.core_of in *. cbn [next_txn_id_ next_timestamp_ txn_map tm_sm sm_core] in *.
  set (t0 := set_state DEFAULT (set_start_ts ts (new_Transaction mode0 ts0 id SERIALIZABLE))).
  set (core1 := set_addrs (<[id := []]> (c_addrs core)) (set_locks (mkLockManager (lock_table_ (c_locks core)) (<[id := t0]> (txns (c_locks core)))) core)).
  eapply (runs_bind_eq _ _ _ tt); [apply (TxnP.core_eq _ _ tt core1); reflexivity|].
  assert (Hid32 : int32_ok id) by (unfold int32_ok; lia).
  destruct (TxnP.gen_txn_eq Log.make_begin t0 (log_part core1) c b) as (s1 & E1 & [A1 A2 A3 A4 A5 A6]); try done.
  eapply runs_bind_eq; [apply TxnP.core_eq, TxnP.on_log_eq; exact E1|]. cbn [snd].
  eapply runs_bind_eq; [apply TxnP.core_eq, TxnP.put_txn_eq|]. rstep. split; [done|].
  assert (Hp : txns (c_locks core1) !! id = Some t0) by (simpl; apply lookup_insert_eq).
  assert (Hi1 : LkP.linv (c_locks core1)) by (by apply linv_new).
  split; unfold TxnP.core_of; simpl; try done.
  - by rewrite alter_insert_eq.
  - apply (TxnP.linv_put id t0 _ (c_locks core1) Hp); done.
  - by destruct s1.
Qed.

(** ** The transaction of a statement *)

Definition finished (t : Transaction) : bool := match state_ t with COMMITTED | ABORTED => true | _ => false end.

(** the transaction the client has: known to the manager, unless it has none yet *)
Definition own (cl : Client) (o : option Transaction) : Prop :=
  match o with
  | None => cl_txn_id cl = INVALID_TXN_ID
  | Some t => cl_txn_id cl <> INVALID_TXN_ID /\ txn_map (tm_of cl) !! cl_txn_id cl = Some (cl_txn_id cl) /\
      txns (c_locks (TxnP.core_of (tm_of cl))) !! cl_txn_id cl = Some t
  end.

(** the first part of [SetTransaction]: the transaction, and whether it has ended *)
Lemma ask_own cl o : own cl o ->
  on_session (Ql.on_tm (TxnM.get_transaction (cl_txn_id cl))) cl = (Ok ((fun _ => cl_txn_id cl) <$> o), cl) /\
  forall t, o = Some t -> on_session (Ql.on_tm (TxnM.core (on_locks (Lk.get_state (cl_txn_id cl))))) cl = (Ok (state_ t), cl).
Proof.
  intros Ho. split.
  - rewrite (on_tm_eq _ cl (Ok ((fun _ => cl_txn_id cl) <$> o)) (tm_of cl)); [by rewrite put_tm_same|]. unfold TxnM.get_transaction.
    destruct o as [t|]; [destruct Ho as (Hne & Hm & _)|rewrite Ho; done]. rewrite (proj2 (Z.eqb_neq _ _) Hne). unfold bind, gets. by rewrite Hm.
  - intros t ->. destruct Ho as (_ & _ & Ht). rewrite (on_tm_eq _ cl (Ok (state_ t)) (tm_of cl)); [by rewrite put_tm_same|].
    rewrite (TxnP.core_eq _ _ (state_ t) (TxnP.core_of (tm_of cl))); [by destruct (tm_of cl) as [[] ? ? ?]|].
    rewrite (TxnP.on_locks_eq _ _ (state_ t) (c_locks (TxnP.core_of (tm_of cl)))); [by destruct (TxnP.core_of (tm_of cl))|].
    unfold Lk.get_state, Lk.txn, bind, gets, deref, ret. by rewrite Ht.
Qed.

(** a transaction that goes on *)
Lemma set_transaction_same mode0 ts0 cl t : own cl (Some t) -> finished t = false -> SetTransaction mode0 ts0 cl = (Ok (cl_txn_id cl), cl).
Proof.
  intros Ho Hf. destruct (ask_own cl (Some t) Ho) as [E1 E2]. specialize (E2 t eq_refl). unfold SetTransaction.
  unfold bind at 1, gets at 1. rewrite (bind_ok _ _ _ _ _ E1). cbn [fmap option_fmap option_map].
  unfold finished in Hf. rewrite (bind_ok _ _ cl false cl); [done|]. rewrite (bind_ok _ _ _ _ _ E2). unfold ret. by destruct (state_ t).
Qed.

(** a new one *)
Lemma set_transaction_new mode0 ts0 cl o c b : own cl o -> default true (finished <$> o) = true -> can_begin (tm_of cl) c b ->
  runs (SetTransaction mode0 ts0) cl (fun p cl' => p = next_txn_id_ (tm_of cl) /\ cl_txn_id cl' = p /\ buffer_mutex cl' = buffer_mutex cl /\
    has_begun false (tm_of cl) c b (tm_of cl') /\ cl' = mkClient (cl_session (put_tm (tm_of cl') cl)) p (buffer_mutex cl) (yy_start cl)).
Proof.
  intros Ho Hf Hb. destruct (ask_own cl o Ho) as [E1 E2]. unfold SetTransaction. rstep. eapply runs_bind_eq; [exact E1|].
  destruct (txn_begin_spec mode0 ts0 (tm_of cl) c b Hb) as (p & tm1 & Eb & -> & [B1 B2 B3 B4 B5 B6 B7]).
  set (id := next_txn_id_ (tm_of cl)) in *. set (cl1 := put_tm tm1 cl).
  assert (Hrest : runs (let* p := on_session (Ql.on_tm (TxnM.begin mode0 ts0)) in
      let* i := on_session (Ql.on_tm (TxnM.core (on_locks (Lk.get_transaction_id p)))) in
      modify (fun c => mkClient (cl_session c) i (buffer_mutex c) (yy_start c));;
      on_session (Ql.on_tm (Ql.put_txn_mode p false));; ret p)%prog cl (fun p cl' => p = id /\ cl_txn_id cl' = p /\ buffer_mutex cl' = buffer_mutex cl /\
        has_begun false (tm_of cl) c b (tm_of cl') /\ cl' = mkClient (cl_session (put_tm (tm_of cl') cl)) p (buffer_mutex cl) (yy_start cl))).
  { eapply runs_bind_eq; [exact (on_tm_eq _ cl _ _ Eb)|]. fold cl1.
    assert (Ht : txns (c_locks (TxnP.core_of tm1)) !! id = Some (begun mode0 (tm_of cl))) by (by rewrite B3, lookup_insert_eq).
    eapply (runs_bind_eq _ _ _ id cl1).
    { rewrite (on_tm_eq _ cl1 (Ok id) tm1); [done|]. rewrite (TxnP.core_eq _ tm1 id (TxnP.core_of tm1)); [by destruct tm1 as [[] ? ? ?]|].
      rewrite (TxnP.on_locks_eq _ _ id (c_locks (TxnP.core_of tm1))); [by destruct (TxnP.core_of tm1)|].
      unfold Lk.get_transaction_id, Lk.txn, bind, gets, deref, ret. by rewrite Ht. }
    rstep. set (cl2 := mkClient _ _ _ _).
    set (tm2 := TxnP.with_core (set_locks (Lk.set_txn id (fun _ => Ql.set_txn_mode false (begun mode0 (tm_of cl))) (c_locks (TxnP.core_of tm1))) (TxnP.core_of tm1)) tm1).
    eapply (runs_bind_eq _ _ _ tt (put_tm tm2 cl2)).
    { apply on_tm_eq. change (tm_of cl2) with tm1. unfold Ql.put_txn_mode. apply TxnP.core_eq.
      rewrite (bind_ok _ _ _ _ _ (TxnP.get_txn_eq id _ _ Ht)). apply TxnP.put_txn_eq. }
    rstep. split_and!; try done. split; try done.
    - change (TxnP.core_of (tm_of (put_tm tm2 cl2))) with (set_locks (Lk.set_txn id (fun _ => Ql.set_txn_mode false (begun mode0 (tm_of cl))) (c_locks (TxnP.core_of tm1))) (TxnP.core_of tm1)).
      cbn [set_locks c_locks]. rewrite (TxnP.put_txns id _ _ _ Ht), B3, insert_insert_eq. done.
    - change (LkP.linv (Lk.set_txn id (fun _ => Ql.set_txn_mode false (begun mode0 (tm_of cl))) (c_locks (TxnP.core_of tm1)))). by apply (TxnP.linv_put id _ _ _ Ht). }
  destruct o as [t|]; cbn [fmap option_fmap option_map].
  - simpl in Hf. unfold finished in Hf. eapply (runs_bind_eq _ _ _ true cl); [rewrite (bind_ok _ _ _ _ _ (E2 t eq_refl)); unfold ret; by destruct (state_ t)|]. exact Hrest.
  - eapply (runs_bind_eq _ _ _ true cl); [done|]. exact Hrest.
Qed.

(** ** The answer to a statement that fails *)

(** what [write] sends: the text and the zero byte after it *)
Definition sent (s : Session) : option (list Z) := mload (data_send_ (se_out s)) 0 (offset_ (se_out s) + 1).

Lemma answer_eq text s : zlen (data_send_ (se_out s)) = BUFFER_LENGTH -> zlen text + 1 <= BUFFER_LENGTH ->
  exists o, answer text (zlen text) s = (Ok tt, mkSession (se_tm s) o (output_off s) (output_txt s)) /\ mload (data_send_ o) 0 (offset_ o + 1) = Some (text ++ [0]).
Proof.
  intros Hl Hf. pose proof (zlen_nonneg text). assert (Hz : zlen (text ++ [0]) = zlen text + 1) by (rewrite zlen_app; done).
  unfold answer, Ql.on_out, zoom, bind, get, modify. rewrite <- Hz, memcpy_ok by lia. simpl. eexists. split; [reflexivity|]. simpl.
  unfold mload. rewrite zlen_splice by lia. rewrite (proj2 (in_range_spec _ _ _)) by lia. rewrite <- Hz, slice_splice_same by lia. done.
Qed.

Definition failure_line : list Z := string_bytes "failure" ++ [10].

(** an [RMDBError] is answered with its message; the transaction is left as it is *)
Lemma handler_message ifuel rfuel junk p e msg s : what e = Some msg -> zlen (data_send_ (se_out s)) = BUFFER_LENGTH -> zlen (string_bytes msg) + 2 <= BUFFER_LENGTH ->
  exists s', handler junk ifuel rfuel p e s = (Ok tt, s') /\ se_tm s' = se_tm s /\ sent s' = Some (string_bytes msg ++ [10; 0]) /\ output_off s' = output_off s /\
    output_txt s' = output_txt s ++ (if output_off s then [] else failure_line).
Proof.
  intros Hw Hl Hf. assert (Hh : handler junk ifuel rfuel p e s = (answer (string_bytes msg ++ [10]) (zlen (string_bytes msg ++ [10]));; Ql.outfile failure_line)%prog s).
  { unfold handler. destruct e; try discriminate Hw; by rewrite Hw. }
  destruct (answer_eq (string_bytes msg ++ [10]) s Hl) as (o & E & Hs); [rewrite zlen_app; change (zlen [10]) with 1; lia|].
  rewrite Hh, (bind_ok _ _ _ _ _ E). unfold Ql.outfile, modify. cbn [output_off output_txt se_tm se_out]. eexists. split; [reflexivity|].
  rewrite <- app_assoc in Hs. destruct (output_off s); unfold sent; simpl; rewrite ?app_nil_r; split_and!; done.
Qed.
End SrvP.

(** ** A latch that is never given back *)

Module Blk.
Abbreviation World := (SmManager Core).

(** a reader that has gone holds the latch of the catalog *)
Definition blocked (w : World) : Prop := writer (db_latch_ w) = false /\ 0 < readers (db_latch_ w).
Definition keeps {A} (m : Prog World A) : Prop := forall w, blocked w -> blocked (m w).2.
Definition stuck {A} (m : Prog World A) : Prop := forall w a w', blocked w -> m w <> (Ok a, w').

Lemma blk_keeps_bind {A B} (m : Prog World A) (k : A -> Prog World B) : keeps m -> (forall a, keeps (k a)) -> keeps (bind m k).
Proof. intros Hm Hk w Hw. specialize (Hm w Hw). unfold bind. destruct (m w) as [[a|e|f] w1]; simpl in *; [by apply Hk|done|done]. Qed.
Lemma stuck_bind {A B} (m : Prog World A) (k : A -> Prog World B) : keeps m -> (forall a, stuck (k a)) -> stuck (bind m k).
Proof. intros Hm Hk w b w' Hw. specialize (Hm w Hw). unfold bind. destruct (m w) as [[a|e|f] w1]; simpl in *; [by apply Hk|done|done]. Qed.
Lemma stuck_first {A B} (m : Prog World A) (k : A -> Prog World B) : stuck m -> stuck (bind m k).
Proof. intros Hm w b w' Hw. unfold bind. destruct (m w) as [[a|e|f] w1] eqn:E; [by apply Hm in E|done|done]. Qed.

Lemma blk_keeps_ret {A} (a : A) : keeps (ret a).
Proof. by intros w. Qed.
Lemma keeps_throw {A} e : keeps (@throw error World A e).
Proof. by intros w. Qed.
Lemma stuck_throw {A} e : stuck (@throw error World A e).
Proof. by intros w. Qed.
Lemma keeps_store {A} (m : Prog Store A) : keeps (Sm.on_store m).
Proof. intros w Hw. unfold Sm.on_store, SmSt.on_core, Core.on_store, zoom. destruct (m (c_store (sm_core w))). done. Qed.
Lemma keeps_get_table t : keeps (SmSt.get_table t).
Proof. by intros w. Qed.
Lemma keeps_of_sum {A} (x : error + A) : keeps (SmSt.of_sum x).
Proof. destruct x; by intros w. Qed.
Lemma stuck_WLatch : stuck SmSt.WLatch.
Proof.
  intros w a w' [Hw Hr]. unfold SmSt.WLatch, SmSt.try_mutex, SmSt.lock_excl. rewrite Hw. destruct (Z.eqb_spec (readers (db_latch_ w)) 0); [lia|done].
Qed.
Lemma keeps_RLatch : keeps SmSt.RLatch.
Proof. intros w [Hw Hr]. unfold SmSt.RLatch, SmSt.try_mutex, SmSt.lock_shared. rewrite Hw. split; simpl; [done|lia]. Qed.

(** a section under the shared latch, which is given back *)
Lemma keeps_shared {A} (m : Prog World A) : (forall w, db_latch_ (m w).2 = db_latch_ w) ->
  keeps (SmSt.RLatch;; let* a := m in SmSt.RUnLatch;; ret a)%prog.
Proof.
  intros Hm w [Hw Hr]. unfold bind at 1, SmSt.RLatch, SmSt.try_mutex, SmSt.lock_shared. rewrite Hw. specialize (Hm (SmSt.set_db_latch (mkSharedMutex (readers (db_latch_ w) + 1) false) w)).
  unfold bind. destruct (m _) as [[a|e|f] w1]; simpl in *; unfold blocked; simpl; rewrite Hm; simpl; lia.
Qed.
Lemma keeps_is_table t : keeps (SmSt.is_table t).
Proof. apply keeps_shared. done. Qed.

Create HintDb blk.
#[export] Hint Resolve blk_keeps_ret keeps_throw stuck_throw keeps_store keeps_get_table keeps_of_sum stuck_WLatch keeps_RLatch keeps_is_table : blk.

Section ddl.
Context (ifuel rfuel : nat) (junk : Z -> list Z).

Lemma stuck_change_db f : stuck (Sm.change_db f).
Proof. apply stuck_first. auto with blk. Qed.
Lemma stuck_create_table t defs : stuck (Sm.create_table junk t defs).
Proof.
  apply stuck_bind; [auto with blk|]. intros []; [auto with blk|]. apply stuck_bind; [auto with blk|]. intros _. apply stuck_first, stuck_change_db.
Qed.
Lemma stuck_drop_index t names : stuck (Sm.drop_index junk t names).
Proof.
  apply stuck_bind; [auto with blk|]. intros []; cbn [negb]; [|auto with blk]. apply stuck_bind; [auto with blk|]. intros []; cbn [negb]; [|auto with blk].
  apply stuck_first. auto with blk.
Qed.
Lemma stuck_drop_table t : stuck (Sm.drop_table junk t).
Proof.
  apply stuck_bind; [auto with blk|]. intros tab. destruct (tm_indexes tab) as [|i l]; [|apply stuck_first, stuck_first, stuck_drop_index].
  apply stuck_bind; [apply blk_keeps_ret|]. intros _. apply stuck_bind; [auto with blk|]. intros []; cbn [negb]; [|auto with blk]. apply stuck_first, stuck_change_db.
Qed.
Lemma stuck_create_index t names ctx : stuck (Sm.create_index ifuel rfuel junk t names ctx).
Proof.
  apply stuck_bind; [auto with blk|]. intros []; cbn [negb]; [|auto with blk]. apply stuck_bind; [auto with blk|]. intros []; [auto with blk|].
  intros w a w' Hw. unfold bind at 1. pose proof (keeps_RLatch w Hw) as H1. unfold SmSt.RLatch, SmSt.try_mutex, SmSt.lock_shared in *. rewrite (proj1 Hw) in *. cbn [snd] in H1.
  unfold bind at 1, SmSt.get_table. destruct (Meta.get_table _ t) as [e|tab]; [done|]. unfold bind at 1, SmSt.of_sum. destruct (Sm.index_cols tab names) as [e|cs]; [done|].
  unfold bind at 1, SmSt.RUnLatch, modify, ret.
  assert (Hb : blocked (SmSt.set_db_latch (SmSt.unlock_shared (db_latch_ (SmSt.set_db_latch (mkSharedMutex (readers (db_latch_ w) + 1) false) w))) (SmSt.set_db_latch (mkSharedMutex (readers (db_latch_ w) + 1) false) w)))
    by (destruct Hw; unfold blocked; simpl; split; [done|lia]).
  destruct (IX_MAX_COL_LEN <? _); [done|]. revert w a w' Hw H1 Hb. intros w a w' _ _ Hb. by apply (stuck_first _ _ stuck_WLatch).
Qed.
End ddl.

(** the table a statement names first *)
Definition first_table (parse : ast.TreeNode) : option string :=
  match parse with
  | ast.SelectStmt _ (t :: _) _ _ _ => Some t
  | ast.UpdateStmt t _ _ | ast.DeleteStmt t _ | ast.InsertStmt t _ => Some t
  | _ => None
  end.

Lemma analyze_unknown agg0 parse t (w : World) : first_table parse = Some t -> writer (db_latch_ w) = false -> 0 <= readers (db_latch_ w) ->
  StrMap.find t (tabs_ (db_ w)) = None -> exists w', An.do_analyze agg0 parse w = (Throw (TableNotFoundError t), w') /\ blocked w'.
Proof.
  intros Hp Hw Hr Hf. destruct (SmSt.read_table_leaks t w Hw Hr Hf) as (w' & E & Hr' & HW). exists w'. split.
  - destruct parse; try discriminate Hp; cbn [first_table] in Hp; cbn [An.do_analyze].
    all: try (destruct tabs as [|t' tabs]; [done|]); injection Hp as ->.
    all: unfold An.analyze_insert, An.analyze_update, An.analyze_select, An.get_check_clause; cbn [An.get_all_cols].
    all: unfold bind; by rewrite E.
  - split; [|lia]. revert HW. unfold SmSt.WLatch, SmSt.try_mutex, SmSt.lock_excl. unfold SmSt.read_table, bind, SmSt.RLatch, SmSt.try_mutex, SmSt.lock_shared in E. rewrite Hw in E.
    unfold SmSt.get_table, Meta.get_table in E. cbn [db_ SmSt.set_db_latch] in E. rewrite Hf in E. injection E as <-. done.
Qed.
End Blk.

(** * Properties *)

(** Every statement runs in a transaction of its client.  [SetTransaction] returns; when the client has a
    transaction that is neither committed nor aborted, it is the one, and nothing changes; otherwise a new one
    has begun, with the next id, not explicit, without locks and writes, known to the transaction manager and to
    the client, and with its BEGIN record in the log buffer, while all other transactions and the lock table
    are as they were. *)
Theorem statement_transaction mode0 ts0 cl o c b :
  SrvP.own cl o -> SrvP.can_begin (SrvP.tm_of cl) c b ->
  runs (Srv.SetTransaction mode0 ts0) cl (fun p cl' =>
    if default true (SrvP.finished <$> o) then
      p = next_txn_id_ (SrvP.tm_of cl) /\ cl_txn_id cl' = p /\ SrvP.own cl' (Some (SrvP.begun false (SrvP.tm_of cl))) /\
      SrvP.has_begun false (SrvP.tm_of cl) c b (SrvP.tm_of cl')
    else p = cl_txn_id cl /\ cl' = cl).
Proof.
  intros Ho Hb. destruct (default true (SrvP.finished <$> o)) eqn:Hf.
  - eapply runs_conseq; [by apply (SrvP.set_transaction_new mode0 ts0 cl o c b)|]. intros p cl' (-> & H1 & _ & H3 & _).
    split; [done|]. split; [done|]. split; [|done]. destruct H3 as [_ B2 B3 _ _ _ _]. pose proof (SrvP.cb_id _ _ _ Hb).
    unfold SrvP.own. rewrite H1, B2, B3, !lookup_insert_eq. split; [unfold INVALID_TXN_ID; lia|done].
  - destruct o as [t|]; [|done]. exists (cl_txn_id cl), cl. split; [by apply (SrvP.set_transaction_same mode0 ts0 cl t)|done].
Qed.

(** C35: A statement that fails is answered with its error, and its transaction goes on.  When the [try] block of a
    turn throws an [RMDBError], the turn returns the text of the error with a newline and a zero byte as the
    answer, [failure] is added to [output.txt] unless output is off, the mutex of the parser is free, and
    the managers are as the throw left them: the transaction, also one of a single statement, is neither
    aborted nor committed, and the next statement of the client runs in it, with the locks and writes it has. *)
Theorem failed_statement_reply std_sort malloc junk buf0 page0 idx0 rid0 mode0 ts0 agg0 fuel ifuel rfuel request text cl p cl1 parse st e cl2 msg :
  Srv.c_text (request ++ zeros (BUFFER_LENGTH - zlen request)) = Some text -> text <> string_bytes "exit" -> text <> string_bytes "crash" ->
  Srv.SetTransaction mode0 ts0 (mkClient (mkSession (SrvP.tm_of cl) Prt.fresh (output_off (cl_session cl)) (output_txt (cl_session cl))) (cl_txn_id cl) (buffer_mutex cl) (yy_start cl)) = (Ok p, cl1) ->
  buffer_mutex cl1 = false -> yyparse (Text.str (bytes_string text)) (yy_start cl1) = (Ok (Some (Some parse)), st) ->
  Srv.try_block std_sort malloc junk buf0 page0 idx0 rid0 agg0 fuel ifuel rfuel parse p (mkClient (cl_session cl1) (cl_txn_id cl1) true st) = (Throw e, cl2) ->
  what e = Some msg -> zlen (string_bytes msg) + 2 <= BUFFER_LENGTH -> zlen (data_send_ (se_out (cl_session cl2))) = BUFFER_LENGTH ->
  runs (Srv.round std_sort malloc junk buf0 page0 idx0 rid0 mode0 ts0 agg0 fuel ifuel rfuel request) cl (fun reply cl3 =>
    reply = Answer (string_bytes msg ++ [10; 0]) /\ SrvP.tm_of cl3 = SrvP.tm_of cl2 /\ cl_txn_id cl3 = cl_txn_id cl2 /\ buffer_mutex cl3 = false /\
    output_txt (cl_session cl3) = output_txt (cl_session cl2) ++ (if output_off (cl_session cl2) then [] else SrvP.failure_line) /\
    forall t, SrvP.own cl2 (Some t) -> SrvP.finished t = false -> Srv.SetTransaction mode0 ts0 cl3 = (Ok (cl_txn_id cl2), cl3)).
Proof.
  intros Htext Hx Hc Hset Hmx Hy Htry Hw Hf Hl. destruct (SrvP.handler_message ifuel rfuel junk p e msg (cl_session cl2) Hw Hl Hf) as (s' & Eh & Htm & Hsent & Hoff & Htxt).
  unfold Srv.round. rstep; [exact Htext|]. rewrite !bool_decide_eq_false_2 by done. eapply runs_bind_eq; [reflexivity|].
  eapply runs_bind_eq; [exact Hset|]. eapply (runs_bind_eq _ _ _ tt (mkClient (cl_session cl1) (cl_txn_id cl1) true (yy_start cl1))).
  { unfold Srv.lock_mutex, bind, gets. by rewrite Hmx. }
  eapply (runs_bind_eq _ _ _ (Some (Some parse)) (mkClient (cl_session cl1) (cl_txn_id cl1) true st)).
  { unfold Srv.on_scanner, zoom. cbn [yy_start]. by rewrite Hy. }
  eapply (runs_bind_eq _ _ _ tt (mkClient s' (cl_txn_id cl2) (buffer_mutex cl2) (yy_start cl2))).
  { unfold Srv.statement, try_catch. rewrite Htry. unfold Srv.on_session, zoom. by rewrite Eh. }
  unfold Srv.set_mutex. rstep. rstep. rstep; [exact Hsent|]. rstep. cbn [cl_session cl_txn_id buffer_mutex]. split_and!; try done.
  intros t Ho Hfin. apply (SrvP.set_transaction_same mode0 ts0 (mkClient s' (cl_txn_id cl2) false (yy_start cl2)) t); [|done]. unfold SrvP.own, SrvP.tm_of in *. cbn [cl_session cl_txn_id]. by rewrite Htm.
Qed.

(** [COMMIT] of a client that has not begun a transaction commits the transaction of the statement itself, and
    the server commits it again when the statement has ended: two commit records of one transaction are in the
    log. *)
Theorem commit_outside_transaction std_sort malloc junk buf0 page0 idx0 rid0 fuel ifuel rfuel q p s t c b :
  let core := TxnP.core_of (se_tm s) in
  let lsn := global_lsn_ (c_log core) in
  let r := Log.make_commit lsn (so_far_lsn_ t) (txn_id_ t) in
  let r' := Log.make_commit (lsn + 1) lsn (txn_id_ t) in
  LkP.linv (c_locks core) -> txns (c_locks core) !! p = Some t -> txn_mode_ t = false -> LogM.txn_ok t ->
  LogM.linv (log_part core) c b -> log_latch_ (c_log core) = false -> 0 <= lsn < 2 ^ 31 - 2 -> zlen b + zlen (Log.image r) <= LOG_BUFFER_SIZE ->
  runs (Srv.execute std_sort malloc junk buf0 page0 idx0 rid0 fuel ifuel rfuel ast.TxnCommit q p) s (fun _ s' =>
    LogM.linv (log_part (TxnP.core_of (se_tm s'))) (c ++ b ++ Log.image r ++ Log.image r') []).
Proof.
  intros core lsn r r' Hl Ht Hm Hok Hlog Hlatch Hlsn Hf. pose proof Hok as [Hid Hso].
  assert (Hlsn' : 0 <= lsn < 2 ^ 31 - 1) by lia.
  destruct (TxnP.commit_spec p (se_tm s) t c b Hl Ht Hok Hlog Hlatch Hlsn' Hf) as ([] & tm1 & E1 & H1 & H2 & H3 & _ & H5 & H6 & _).
  assert (Ht1 : txns (c_locks (TxnP.core_of tm1)) !! p = Some (set_so_far_lsn lsn (TxnP.committed t))) by (by rewrite H6, lookup_insert_eq).
  assert (Hsz : zlen (@nil Z) + zlen (Log.image r') <= LOG_BUFFER_SIZE) by (vm_compute; discriminate).
  destruct (TxnP.commit_spec p tm1 (set_so_far_lsn lsn (TxnP.committed t)) (c ++ b ++ Log.image r) [] H5 Ht1) as ([] & tm2 & E2 & G1 & _).
  { split; [done|]. unfold int32_ok. simpl. lia. }
  { exact H1. } { done. } { rewrite H3. fold core lsn. lia. } { rewrite H3. exact Hsz. }
  unfold Srv.execute. eapply runs_bind_eq; [reflexivity|]. eapply runs_bind_eq; [reflexivity|].
  eapply (runs_bind_eq _ _ _ tt (mkSession tm1 (se_out s) (output_off s) (output_txt s))).
  { cbn -[TxnM.commit]. unfold Ql.on_tm, zoom. destruct s as [[w i n m] o off txt]. cbn -[TxnM.commit] in *. by rewrite E1. }
  eapply (runs_bind_eq _ _ _ (set_so_far_lsn lsn (TxnP.committed t)) (mkSession tm1 (se_out s) (output_off s) (output_txt s))).
  { unfold Ql.on_tm, zoom. cbn [se_tm]. rewrite (TxnP.core_eq _ tm1 _ _ (TxnP.get_txn_eq p _ _ Ht1)). by destruct tm1 as [[] ? ? ?]. }
  simpl txn_mode_. rewrite Hm. eapply runs_eq; [unfold Ql.on_tm, zoom; cbn [se_tm]; rewrite E2; reflexivity|]. cbn [se_tm].
  rewrite <- !app_assoc in G1. simpl app in G1. rewrite H3 in G1. exact G1.
Qed.

(** ** Witnesses *)

Definition demo_client (tm : TransactionManager) (id : Z) : Client := mkClient (mkSession tm Prt.fresh false []) id false false.
Definition demo_running : TransactionManager := mkTransactionManager (TxnProps.demo_sm demo_held) 3 3 {[1 := 1]}.
Definition demo_growing : Transaction := set_lock_set (fun _ => {[table_lock_id 3]}) (set_state GROWING (new_Transaction false 0 1 SERIALIZABLE)).

Lemma demo_can_begin : SrvP.can_begin (demo_tm demo_held) [] [].
Proof.
  split; [exact demo_held_linv|exact demo_log_linv|reflexivity|unfold int32_ok; simpl; lia|simpl; lia|vm_compute; reflexivity|vm_compute; discriminate].
Qed.

Lemma statement_transaction_witness : runs (Srv.SetTransaction true 7) (demo_client (demo_tm demo_held) INVALID_TXN_ID) (fun p cl' =>
  p = 3 /\ SrvP.own cl' (Some (SrvP.begun false (demo_tm demo_held)))).
Proof.
  eapply runs_conseq; [apply (statement_transaction true 7 (demo_client (demo_tm demo_held) INVALID_TXN_ID) None [] [])|].
  - reflexivity.
  - exact demo_can_begin.
  - intros p cl' (Hp & _ & Ho & _). split; [exact Hp|exact Ho].
Defined.

(** an [INSERT] into a table that does not exist *)
Definition demo_insert : string := "insert into nope values (-7, 'x');".
Definition demo_tree : ast.TreeNode := ast.InsertStmt "nope" [ast.Int_Bint_Lit "-7"; ast.StringLit "x"].
Lemma failed_statement_reply_witness :
  let round := Srv.round (fun _ l => l) (fun _ => 0) zeros [] 0 0 (mkRid 0 0) true 7 COUNT 1 1 1 (string_bytes demo_insert) in
  runs round (demo_client demo_running 1) (fun reply cl =>
    reply = Answer (string_bytes "Error: Table not found: nope" ++ [10; 0]) /\ output_txt (cl_session cl) = string_bytes "failure" ++ [10] /\
    Srv.SetTransaction true 7 cl = (Ok 1, cl)).
Proof.
  intros round. assert (Ho : SrvP.own (demo_client demo_running 1) (Some demo_growing)).
  { split; [discriminate|]. split; vm_compute; reflexivity. }
  assert (Hw : writer (db_latch_ (tm_sm demo_running)) = false) by reflexivity.
  set (cl2 := mkClient (mkSession (mkTransactionManager (SmSt.set_db_latch (mkSharedMutex 1 false) (TxnProps.demo_sm demo_held)) 3 3 {[1 := 1]}) Prt.fresh false []) 1 true false).
  eapply runs_conseq; [apply (failed_statement_reply (fun _ l => l) (fun _ => 0) zeros [] 0 0 (mkRid 0 0) true 7 COUNT 1 1 1
    (string_bytes demo_insert) (string_bytes demo_insert) (demo_client demo_running 1) 1 (demo_client demo_running 1) demo_tree false (TableNotFoundError "nope") cl2 "Error: Table not found: nope")|].
  - vm_compute. reflexivity.
  - discriminate.
  - discriminate.
  - apply (SrvP.set_transaction_same true 7 (demo_client demo_running 1) demo_growing); [exact Ho|reflexivity].
  - reflexivity.
  - reflexivity.
  - reflexivity.
  - reflexivity.
  - vm_compute. discriminate.
  - vm_compute. reflexivity.
  - intros reply cl (Hr & _ & _ & _ & Ht & Hs). split; [exact Hr|]. split; [exact Ht|].
    apply (Hs demo_growing); [|reflexivity]. split; [discriminate|]. split; vm_compute; reflexivity.
Defined.

(** C36: One statement with a misspelt table name stops all definitions of tables and indexes.  The analysis of a
    statement whose first table is not in the catalog throws, with the shared latch of the catalog held, and
    nothing gives it back: from then on no [CREATE TABLE], [DROP TABLE], [CREATE INDEX] or [DROP INDEX] of any
    client returns. *)
Theorem unknown_table_blocks_ddl agg0 parse t (w : SmManager Core) :
  Blk.first_table parse = Some t -> writer (db_latch_ w) = false -> 0 <= readers (db_latch_ w) -> StrMap.find t (tabs_ (db_ w)) = None ->
  exists w', An.do_analyze agg0 parse w = (Throw (TableNotFoundError t), w') /\
    forall (junk : Z -> list Z) ifuel rfuel tab defs names ctx w'',
      Sm.create_table junk tab defs w' <> (Ok tt, w'') /\ Sm.drop_table junk tab w' <> (Ok tt, w'') /\
      Sm.create_index ifuel rfuel junk tab names ctx w' <> (Ok tt, w'') /\ Sm.drop_index junk tab names w' <> (Ok tt, w'').
Proof.
  intros Hp Hw Hr Hf. destruct (Blk.analyze_unknown agg0 parse t w Hp Hw Hr Hf) as (w' & E & Hb). exists w'. split; [done|]. intros.
  split_and!; [by apply Blk.stuck_create_table|by apply Blk.stuck_drop_table|by apply Blk.stuck_create_index|by apply Blk.stuck_drop_index].
Qed.

Lemma unknown_table_blocks_ddl_witness : exists w', An.do_analyze COUNT (ast.DeleteStmt "nope" []) (TxnProps.demo_sm demo_held) = (Throw (TableNotFoundError "nope"), w') /\
  forall w'', Sm.create_table zeros "t" [] w' <> (Ok tt, w'').
Proof.
  destruct (unknown_table_blocks_ddl COUNT (ast.DeleteStmt "nope" []) "nope" (TxnProps.demo_sm demo_held)) as (w' & E & H);
    [reflexivity|reflexivity|simpl; lia|reflexivity|]. exists w'. split; [exact E|]. intros w''. apply (H zeros 1%nat 1%nat "t" [] [] None w'').
Defined.
