(* ===== verification/ParserProps.v ===== *)
(** The parser against its grammar, and the round trip of statements through their text. *)

From Stdlib Require Import Floats.SpecFloat Strings.Ascii.
From S2P Require Import Prelude Bytes Errors Text Float32 Values Agg.
From S2P Require Import Analyze Parser Grammar.

(** ** Texts that spell tokens: blanks between them, keywords in any case, and no blank where the next character cannot belong
    to the token *)

Module Spell.
Import Lex.

(** [x] is a spelling of a token *)
Inductive lexeme : token -> text -> Prop :=
  | lex_kw k x : upper <$> x = Text.str (kw_text k) -> lexeme (KW k) x
  | lex_sym c : c ∈ Text.str ";(),*=.+-<>" -> lexeme (SYM c) [c]
  | lex_geq : lexeme GEQ (Text.str ">=")
  | lex_leq : lexeme LEQ (Text.str "<=")
  | lex_neq : lexeme NEQ (Text.str "<>")
  | lex_id c s : is_alpha c = true -> forallb is_ident s = true -> word (c :: s) = IDENTIFIER (string_of (c :: s)) ->
      lexeme (IDENTIFIER (string_of (c :: s))) (c :: s)
  | lex_int c s : is_digit c = true -> forallb is_digit s = true -> lexeme (VALUE_INT_BIGINT (string_of (c :: s))) (c :: s)
  | lex_float c s f : is_digit c = true -> forallb is_digit s = true -> forallb is_digit f = true ->
      lexeme (VALUE_FLOAT (Dec.atof ((c :: s) ++ "."%char :: f))) ((c :: s) ++ "."%char :: f)
  | lex_string s : forallb (fun c => negb (chr 39 c)) s = true -> lexeme (VALUE_STRING (string_of s)) ("'"%char :: s ++ ["'"%char]).

(** a character that would be taken as part of the token before it *)
Definition continues (t : token) (c : ascii) : bool :=
  match t with
  | KW _ | IDENTIFIER _ => is_ident c
  | VALUE_INT_BIGINT _ => is_digit c || chr 46 c
  | VALUE_FLOAT _ => is_digit c
  | SYM d =>
      (chr 45 d && chr 45 c) || (chr 46 d && (chr 46 c || chr 47 c)) || (chr 62 d && chr 61 c) || (chr 60 d && (chr 61 c || chr 62 c))
  | _ => false
  end.
Definition ends (t : token) (s : text) : Prop := match s with c :: _ => continues t c = false | [] => True end.

Inductive spells : list token -> text -> Prop :=
  | spells_nil w : forallb is_blank w = true -> spells [] w
  | spells_cons w t x ts s : forallb is_blank w = true -> lexeme t x -> ends t s -> spells ts s -> spells (t :: ts) (w ++ x ++ s).

Lemma span_all f w s : forallb f w = true -> match s with c :: _ => f c = false | [] => True end -> span f (w ++ s) = (w, s).
Proof.
  intros H Hs. induction w as [|c w IH]; simpl in *.
  - destruct s as [|c s]; [done|]. simpl. by rewrite Hs.
  - apply andb_true_iff in H as [-> H]. by rewrite IH.
Qed.

(** facts on single characters, by their 256 cases *)
Ltac all_chars := intros c; destruct c as [[] [] [] [] [] [] [] []]; vm_compute; intuition (congruence || discriminate).
Lemma upper_ident c : is_ident (upper c) = is_ident c.
Proof. revert c. all_chars. Qed.
Lemma upper_alpha c : is_alpha (upper c) = is_alpha c.
Proof. revert c. all_chars. Qed.
Lemma alpha_first c : is_alpha c = true -> is_blank c = false.
Proof. revert c. all_chars. Qed.
Lemma alpha_ident c : is_alpha c = true -> is_ident c = true.
Proof. revert c. all_chars. Qed.
Lemma digit_first c : is_digit c = true -> is_blank c = false /\ is_alpha c = false.
Proof. revert c. all_chars. Qed.

Lemma kw_chars k : exists c s, Text.str (kw_text k) = c :: s /\ is_alpha c = true /\ forallb is_ident s = true.
Proof. destruct k; (eexists _, _; split; [reflexivity|]); vm_compute; done. Qed.
Lemma ident_upper x : forallb is_ident (upper <$> x) = forallb is_ident x.
Proof. induction x as [|c x IH]; [done|]. cbn. by rewrite upper_ident, IH. Qed.

(** a word, that ends where the characters of words do *)
Lemma scan_word c s r : is_alpha c = true -> forallb is_ident s = true -> match r with d :: _ => is_ident d = false | [] => True end ->
  scan c (s ++ r) = (Token (word (c :: s)), r).
Proof.
  intros Hc Hs Hr. unfold scan. rewrite (alpha_first c Hc), Hc. rewrite app_comm_cons, (span_all is_ident (c :: s) r); [done| |done].
  simpl. by rewrite (alpha_ident c Hc).
Qed.
Lemma scan_number c s r t r' : is_digit c = true -> number (c :: s ++ r) = (t, r') -> scan c (s ++ r) = (Token t, r').
Proof. intros Hc Hn. unfold scan. destruct (digit_first c Hc) as [-> ->]. by rewrite Hc, Hn. Qed.

(** a character that is a token *)
Lemma scan_sym c s : c ∈ Text.str ";(),*=.+-<>" -> ends (SYM c) s -> is_blank c = false /\ scan c ([] ++ s) = (Token (SYM c), s).
Proof.
  intros Hc He. cbn [app]. unfold ends in He.
  repeat (apply elem_of_cons in Hc as [->|Hc]); [..|by apply elem_of_nil in Hc]; (split; [done|]); destruct s as [|d s]; try done.
  all: destruct d as [[] [] [] [] [] [] [] []]; (discriminate He || reflexivity).
Qed.
Lemma scan_lexeme t x s : lexeme t x -> ends t s -> exists c x', x = c :: x' /\ is_blank c = false /\ scan c (x' ++ s) = (Token t, s).
Proof.
  intros H He. destruct H as [k x Hx|c Hc| | | |c x Hc Hx Hw|c x Hc Hx|c x f Hc Hx Hf|x Hx].
  - destruct (kw_chars k) as (d & y & Hk & Hd & Hy). pose proof (GrP.word_kw k x Hx) as Hw. rewrite Hk in Hx.
    destruct x as [|c x]; [discriminate Hx|]. cbn in Hx. injection Hx as <- <-. exists c, x.
    rewrite upper_alpha in Hd. rewrite ident_upper in Hy. split_and!; [done|by apply alpha_first|]. rewrite scan_word by done. by rewrite Hw.
  - exists c, []. split; [done|]. by apply scan_sym.
  - exists ">"%char, ["="%char]. done.
  - exists "<"%char, ["="%char]. done.
  - exists "<"%char, [">"%char]. done.
  - exists c, x. split_and!; [done|by apply alpha_first|]. rewrite scan_word by done. by rewrite Hw.
  - exists c, x. split_and!; [done|by apply digit_first|]. apply scan_number; [done|]. unfold number. rewrite app_comm_cons, (span_all is_digit (c :: x) s).
    + destruct s as [|d s]; [done|]. simpl in He. apply orb_false_iff in He as [_ He]. by rewrite He.
    + simpl. by rewrite Hc.
    + destruct s as [|d s]; [done|]. by apply orb_false_iff in He as [He _].
  - exists c, (x ++ "."%char :: f). split_and!; [done|by apply digit_first|]. apply scan_number; [done|]. unfold number.
    rewrite <- app_assoc, app_comm_cons, (span_all is_digit (c :: x)); [|simpl; by rewrite Hc|done]. cbn [app]. change (chr 46 ".") with true. cbn iota.
    rewrite (span_all is_digit f s Hf); [done|]. by destruct s.
  - exists "'"%char, (x ++ ["'"%char]). split_and!; [done|done|]. rewrite <- app_assoc. cbn [app].
    change (scan "'" (x ++ "'"%char :: s)) with
      (match span (fun c => negb (chr 39 c)) (x ++ "'"%char :: s) with (w, _ :: r) => (Token (VALUE_STRING (string_of w)), r) | (_, []) => (Skip, x ++ "'"%char :: s) end).
    by rewrite span_all.
Qed.

(** ** The tokens of a text *)

Lemma tokens_blank w s : forallb is_blank w = true -> forall n, tokens (length w + n) false (w ++ s) = tokens n false s.
Proof.
  induction w as [|c w IH]; intros H n; [done|]. simpl in H. apply andb_true_iff in H as [Hc H]. cbn [length Nat.add app tokens].
  assert (E : scan c (w ++ s) = (Skip, w ++ s)) by (unfold scan; by rewrite Hc). by rewrite E, IH.
Qed.
Lemma tokens_spell ts s : spells ts s -> forall n, (length s < n)%nat -> tokens n false s = (ts, false).
Proof.
  induction 1 as [w Hw|w t x ts s Hw Ht He Hs IH]; intros n Hn.
  - replace n with (length w + Datatypes.S (n - length w - 1))%nat by lia. pose proof (tokens_blank w [] Hw) as E. rewrite app_nil_r in E. by rewrite E.
  - destruct (scan_lexeme t x s Ht He) as (c & x' & -> & Hb & E). rewrite !length_app in Hn. cbn in Hn.
    replace n with (length w + Datatypes.S (n - length w - 1))%nat by lia. rewrite tokens_blank by done. cbn [app tokens]. rewrite E, IH by lia. done.
Qed.
Lemma lex_spell ts s : spells ts s -> lex false s = (ts, false).
Proof. intros H. apply tokens_spell; [done|lia]. Qed.
End Spell.

(** ** The tokens of a statement *)

Module Show.
Import ast Gm.

Definition sep_by {A} (s : token) (f : A -> list token) (l : list A) : list token :=
  match l with x :: r => f x ++ concat ((fun y => s :: f y) <$> r) | [] => [] end.
Definition commas {A} : (A -> list token) -> list A -> list token := sep_by (tk ",").
Definition value (v : Value) : list token :=
  match v with
  | Int_Bint_Lit (String c r) => if Ascii.eqb c "-" then [tk "-"; VALUE_INT_BIGINT r] else [VALUE_INT_BIGINT (String c r)]
  | Int_Bint_Lit EmptyString => [VALUE_INT_BIGINT ""]
  | FloatLit w => if f32_sign w then [tk "-"; VALUE_FLOAT (SFopp (f32_of_bits w))] else [VALUE_FLOAT (f32_of_bits w)]
  | StringLit s => [VALUE_STRING s]
  end.
Definition id (s : string) : list token := [IDENTIFIER s].
Definition col (c : Col) : list token :=
  if bool_decide (c_tab_name c = "") then [IDENTIFIER (c_col_name c)] else [IDENTIFIER (c_tab_name c); tk "."; IDENTIFIER (c_col_name c)].
Definition op (o : SvCompOp) : token :=
  match o with SV_OP_EQ => tk "=" | SV_OP_LT => tk "<" | SV_OP_GT => tk ">" | SV_OP_NE => NEQ | SV_OP_LE => LEQ | SV_OP_GE => GEQ end.
Definition expr (e : Expr) : list token := match e with EValue v => value v | ECol c => col c end.
Definition condition (b : BinaryExpr) : list token := col (be_lhs b) ++ op (be_op b) :: expr (be_rhs b).
Definition wheres (l : list BinaryExpr) : list token :=
  match l with [] => [] | _ => KW WHERE :: sep_by (KW AND) condition l end.
Definition set_clause (s : SetClause) : list token :=
  let x := IDENTIFIER (sc_col_name s) in
  x :: tk "=" :: (if sc_op s =? 43 then [x; tk "+"] else if sc_op s =? 45 then [x; tk "-"] else []) ++ value (sc_val s).
Definition type (t : TypeLen) : list token :=
  match tl_type t with
  | SV_TYPE_INT => [KW INT] | SV_TYPE_FLOAT => [KW FLOAT] | SV_TYPE_BIGINT => [KW BIGINT] | SV_TYPE_DATETIME => [KW DATETIME]
  | SV_TYPE_STRING => [KW CHAR; tk "("; VALUE_INT_BIGINT (pretty (tl_len t)); tk ")"]
  end.
Definition field (f : Field) : list token := match f with ColDef x t => IDENTIFIER x :: type t | OtherField => [] end.
Definition aggregate (c : Col) : list token :=
  KW (match c_aggregate_type c with COUNT => KCOUNT | MAX => KMAX | MIN => KMIN | _ => KSUM end) :: tk "(" ::
  (if bool_decide (c_col_name c = "") then [tk "*"] else col c) ++
  tk ")" :: (if bool_decide (c_another_name c = "") then [] else [KW AS; IDENTIFIER (c_another_name c)]).
Definition is_plain (c : Col) : bool := bool_decide (c_aggregate_type c = NONE).
Definition selector (l : list Col) : list token :=
  match l with [] => [tk "*"] | c :: _ => if is_plain c then commas col l else commas aggregate l end.
Definition order (o : OrderBy) : list token :=
  col (ob_col o) ++ match ob_dir o with OrderBy_ASC => [KW ASC] | OrderBy_DESC => [KW DESC] | OrderBy_DEFAULT => [] end.
Definition parens (l : list token) : list token := tk "(" :: l ++ [tk ")"].

Definition stmt (n : TreeNode) : list token :=
  match n with
  | TxnBegin => [KW TXN_BEGIN] | TxnCommit => [KW TXN_COMMIT] | TxnAbort => [KW TXN_ABORT] | TxnRollback => [KW TXN_ROLLBACK]
  | ShowTables => [KW SHOW; KW TABLES]
  | ShowIndexes t => [KW SHOW; KW INDEX; KW FROM; IDENTIFIER t]
  | CreateTable t l => KW CREATE :: KW TABLE :: IDENTIFIER t :: parens (commas field l)
  | DropTable t => [KW DROP; KW TABLE; IDENTIFIER t]
  | DescTable t => [KW DESC; IDENTIFIER t]
  | CreateIndex t l => KW CREATE :: KW INDEX :: IDENTIFIER t :: parens (commas id l)
  | DropIndex t l => KW DROP :: KW INDEX :: IDENTIFIER t :: parens (commas id l)
  | InsertStmt t l => KW INSERT_ :: KW INTO :: IDENTIFIER t :: KW VALUES :: parens (commas value l)
  | DeleteStmt t w => KW DELETE_ :: KW FROM :: IDENTIFIER t :: wheres w
  | UpdateStmt t l w => KW UPDATE_ :: IDENTIFIER t :: KW SET :: commas set_clause l ++ wheres w
  | SelectStmt s ts w o n =>
      KW SELECT :: selector s ++ KW FROM :: commas id ts ++ wheres w ++
      match o with Some l => KW ORDER :: KW BY :: commas order l | None => [] end ++
      match n with Some v => KW LIMIT :: value v | None => [] end
  | LoadData f t => [KW LOAD; VALUE_STRING f; KW INTO; IDENTIFIER t]
  | Help => [KW HELP]
  | SetOutputOff => [KW SET; KW OUTPUT; KW OFF]
  end.
Definition start (n : TreeNode) : list token := match n with Help | SetOutputOff => stmt n | _ => stmt n ++ [tk ";"] end.

(** the statements that a text can have *)
Definition ok_value (v : Value) : bool := match v with FloatLit w => bool_decide (f32_bits (f32_of_bits w) = Some w) | _ => true end.
Definition ok_col (c : Col) : bool := is_plain c && bool_decide (c_another_name c = "").
Definition ok_aggregate (c : Col) : bool := negb (is_plain c) && (negb (bool_decide (c_col_name c = "")) || bool_decide (c_tab_name c = "")).
Definition ok_expr (e : Expr) : bool := match e with EValue v => ok_value v | ECol c => ok_col c end.
Definition ok_condition (b : BinaryExpr) : bool := ok_col (be_lhs b) && ok_expr (be_rhs b).
Definition ok_set_clause (s : SetClause) : bool := existsb (Z.eqb (sc_op s)) [0; 43; 45] && ok_value (sc_val s).
Definition ok_field (f : Field) : bool :=
  match f with
  | ColDef _ t =>
      match tl_type t with
      | SV_TYPE_INT | SV_TYPE_FLOAT => tl_len t =? 4
      | SV_TYPE_BIGINT | SV_TYPE_DATETIME => tl_len t =? 8
      | SV_TYPE_STRING => (0 <=? tl_len t) && (tl_len t <? 2 ^ 31)
      end
  | OtherField => false
  end.
Definition some {A} (f : A -> bool) (l : list A) : bool := negb (bool_decide (length l = 0%nat)) && forallb f l.
Definition ok (n : TreeNode) : bool :=
  match n with
  | CreateTable _ l => some ok_field l
  | CreateIndex _ l | DropIndex _ l => some (fun _ => true) l
  | InsertStmt _ l => some ok_value l
  | DeleteStmt _ w => forallb ok_condition w
  | UpdateStmt _ l w => some ok_set_clause l && forallb ok_condition w
  | SelectStmt s ts w o n =>
      (forallb ok_col s || forallb ok_aggregate s) && some (fun _ => true) ts && forallb ok_condition w &&
      match o with Some l => some (fun x => ok_col (ob_col x)) l | None => true end && match n with Some v => ok_value v | None => true end
  | _ => true
  end.
End Show.

Module ShowP.
Import ast Show.

Lemma sep_by_more {A} (S : token -> Prop) (g : Gm.G A) s f okf r : S s -> (forall x, okf x = true -> g (f x) x) -> forallb okf r = true ->
  forall u l, Gm.list_of S g u l -> Gm.list_of S g (u ++ concat ((fun y => s :: f y) <$> r)) (l ++ r).
Proof.
  intros Hs Hg. induction r as [|x r IH]; intros Hr u l H; [by rewrite !app_nil_r|]. simpl in Hr. apply andb_true_iff in Hr as [Hx Hr].
  rewrite fmap_cons. cbn [concat]. replace (u ++ (s :: f x) ++ concat ((fun y => s :: f y) <$> r)) with ((u ++ s :: f x) ++ concat ((fun y => s :: f y) <$> r)) by (symmetry; apply app_assoc).
  rewrite (cons_middle x l r), app_assoc. apply IH; [done|]. constructor; auto.
Qed.
Lemma sep_by_derives {A} (S : token -> Prop) (g : Gm.G A) s f okf l : S s -> (forall x, okf x = true -> g (f x) x) -> some okf l = true ->
  Gm.list_of S g (sep_by s f l) l.
Proof.
  intros Hs Hg H. unfold some in H. destruct l as [|x r]; [done|]. simpl in H. apply andb_true_iff in H as [Hx Hr].
  apply (sep_by_more _ _ _ _ _ r Hs Hg Hr (f x) [x]). constructor. auto.
Qed.

Lemma value_derives v : ok_value v = true -> Gm.value (value v) v.
Proof.
  destruct v as [s|w|s]; simpl; intros H.
  - destruct s as [|c r]; [constructor|]. destruct (Ascii.eqb c "-") eqn:E; [|constructor]. apply Ascii.eqb_eq in E as ->. apply (Gm.value_minus_int r).
  - apply bool_decide_eq_true in H. destruct (f32_sign w); constructor; [|done]. by destruct (f32_of_bits w) as [[]|[]| |[]].
  - constructor.
Qed.
Lemma col_derives c : ok_col c = true -> Gm.col (col c) c.
Proof.
  unfold ok_col, is_plain, col. destruct c as [t c a n]. simpl. intros [->%bool_decide_eq_true ->%bool_decide_eq_true]%andb_true_iff.
  case_bool_decide as E; [rewrite E|]; constructor.
Qed.
Lemma expr_derives e : ok_expr e = true -> Gm.expr (expr e) e.
Proof. destruct e; simpl; intros H; constructor; [by apply value_derives|by apply col_derives]. Qed.
Lemma op_derives o : Gm.op (op o) o.
Proof. destruct o; constructor. Qed.
Lemma condition_derives b : ok_condition b = true -> Gm.condition (condition b) b.
Proof.
  destruct b as [l o r]. intros [Hl Hr]%andb_true_iff. constructor; [by apply col_derives|apply op_derives|by apply expr_derives].
Qed.
Lemma wheres_derive w : forallb ok_condition w = true -> Gm.optWhereClause (wheres w) w.
Proof.
  intros H. destruct w as [|b r]; [constructor|]. apply Gm.where_some. apply (sep_by_derives _ _ _ _ ok_condition); [done|exact condition_derives|done].
Qed.
Lemma set_clause_derives s : ok_set_clause s = true -> Gm.setClause (set_clause s) s.
Proof.
  destruct s as [x n v]. unfold ok_set_clause, set_clause. cbn [sc_col_name sc_op sc_val]. intros [Hn Hv%value_derives]%andb_true_iff. cbn [existsb] in Hn.
  destruct (n =? 43) eqn:E1; [apply Z.eqb_eq in E1 as ->; apply Gm.set_expr; [constructor|done]|].
  destruct (n =? 45) eqn:E2; [apply Z.eqb_eq in E2 as ->; apply Gm.set_expr; [constructor|done]|].
  rewrite !orb_false_r in Hn. apply Z.eqb_eq in Hn as ->. by apply Gm.set_value.
Qed.
Lemma field_derives f : ok_field f = true -> Gm.field (field f) f.
Proof.
  destruct f as [x [t len]|]; [|done]. simpl. intros H. constructor. unfold type. destruct t; simpl in *.
  1,2,4,5: apply Z.eqb_eq in H as ->; constructor.
  apply andb_true_iff in H as [H1%Z.leb_le H2%Z.ltb_lt]. constructor. unfold Lit.stoi, Lit.sto.
  pose proof (Text.number_Z len [] I) as Hn. rewrite app_nil_r in Hn. unfold Text.show_int in Hn. rewrite Hn.
  rewrite (proj2 (Z.leb_le (- 2 ^ 31) len)), (proj2 (Z.leb_le len (2 ^ 31 - 1))) by lia. done.
Qed.

Lemma aggregate_derives c : ok_aggregate c = true -> Gm.aggregate_clause (aggregate c) c.
Proof.
  destruct c as [t c a n]. unfold ok_aggregate, is_plain, aggregate, col. cbn [c_tab_name c_col_name c_aggregate_type c_another_name].
  intros [Ha Hc]%andb_true_iff. apply negb_true_iff, bool_decide_eq_false in Ha.
  set (k := match a with COUNT => KCOUNT | MAX => KMAX | MIN => KMIN | _ => KSUM end).
  assert (Hk : Gm.aggregate_type (KW k) a) by (destruct a; try done; constructor). clearbody k.
  case_bool_decide as E.
  - cbn in Hc. apply bool_decide_eq_true in Hc. subst t c. cbn [app]. case_bool_decide as En; [subst n; by apply Gm.agg_star|by apply Gm.agg_star_as].
  - set (u := if bool_decide (t = "") then [IDENTIFIER c] else _). assert (Hu : Gm.col u (mkCol t c NONE "")).
    { subst u. case_bool_decide as Et; [rewrite Et|]; constructor. }
    clearbody u. clear Hc. case_bool_decide as En; [subst n; apply (Gm.agg_col _ _ _ _ Hk Hu)|apply (Gm.agg_col_as _ _ _ _ n Hk Hu)].
Qed.
Lemma selector_derives l : forallb ok_col l || forallb ok_aggregate l = true -> Gm.selector (selector l) l.
Proof.
  destruct l as [|c r]; [constructor|]. intros H. unfold selector. destruct (is_plain c) eqn:E.
  - apply Gm.selector_cols, (sep_by_derives _ _ _ _ ok_col); [done|exact col_derives|]. unfold some. apply orb_true_iff in H as [H|H]; [done|].
    cbn in H. unfold ok_aggregate in H. by rewrite E in H.
  - apply Gm.selector_aggregates, (sep_by_derives _ _ _ _ ok_aggregate); [done|exact aggregate_derives|]. unfold some. apply orb_true_iff in H as [H|H]; [|done].
    cbn in H. unfold ok_col in H. by rewrite E in H.
Qed.
Lemma order_derives o : ok_col (ob_col o) = true -> Gm.order_clause (order o) o.
Proof. destruct o as [c d]. intros H%col_derives. constructor; [done|]. destruct d; constructor. Qed.
Lemma id_derives s : Gm.colName (id s) s.
Proof. constructor. Qed.

Lemma stmt_derives n : ok n = true -> n <> Help -> n <> SetOutputOff -> Gm.stmt (stmt n) n.
Proof.
  destruct n as [ | | | | | | | | | t l | | | t l | t l | t l | t w | t l w | s ts w o n]; intros H H1 H2; try done; try (by constructor); cbn [ok] in H.
  - apply Gm.st_create_table, (sep_by_derives _ _ _ _ ok_field); [done|exact field_derives|done].
  - apply Gm.st_create_index, (sep_by_derives _ _ _ _ (fun _ => true)); [done|by intros; apply id_derives|done].
  - apply Gm.st_drop_index, (sep_by_derives _ _ _ _ (fun _ => true)); [done|by intros; apply id_derives|done].
  - apply Gm.st_insert, (sep_by_derives _ _ _ _ ok_value); [done|exact value_derives|done].
  - apply Gm.st_delete, wheres_derive, H.
  - apply andb_true_iff in H as [Hl Hw]. apply Gm.st_update; [|by apply wheres_derive].
    apply (sep_by_derives _ _ _ _ ok_set_clause); [done|exact set_clause_derives|done].
  - repeat (apply andb_true_iff in H as [H ?]). apply Gm.st_select; [by apply selector_derives| |by apply wheres_derive| |].
    + apply (sep_by_derives _ _ _ _ (fun _ => true)); [constructor|by intros; apply id_derives|done].
    + destruct o as [l|]; constructor. apply (sep_by_derives _ _ _ _ (fun x => ok_col (ob_col x))); [done|exact order_derives|done].
    + destruct n as [v|]; constructor. by apply value_derives.
Qed.
Lemma start_derives n rest : ok n = true -> Gm.start (start n) rest (Some n).
Proof. intros H. destruct n; try constructor; by apply stmt_derives. Qed.
End ShowP.

(** ** Lists are never cut off by their bound *)

Module Tot.
Import Gr GrP.
Local Open Scope prog_scope.

Definition total {A} (p : P A) : Prop := forall ts r, p ts <> (Fail OutOfFuel, r).
Lemma total_bind {A B} (m : P A) (k : A -> P B) : total m -> (forall a, total (k a)) -> total (bind m k).
Proof. intros Hm Hk ts r. unfold bind. specialize (Hm ts). destruct (m ts) as [[a|e|f] s]; [apply Hk|done|]. intros [= -> ->]. by apply (Hm r). Qed.
Lemma total_ret {A} (a : A) : total (ret a).
Proof. done. Qed.
Lemma total_throw {A} e : total (A := A) (throw e).
Proof. done. Qed.
Lemma total_accept {A} (f : token -> option A) : total (accept f).
Proof. intros [|t ts] r; cbn; [done|]. by destruct (f t). Qed.
Lemma total_next f : total (next_is f).
Proof. done. Qed.
Lemma total_float f : total (float_lit f).
Proof. intros ts r. unfold float_lit, bind, deref. by destruct (f32_bits f). Qed.

Lemma total_more {A} sep (item : P A) g n : sound item g -> total item -> forall ts r, (length ts < n)%nat -> more n sep item ts <> (Fail OutOfFuel, r).
Proof.
  intros Hs Hi. induction n as [|n IH]; intros ts r Hn; [lia|]. cbn [more]. rewrite next_step. destruct (head_is sep ts); [|done].
  destruct ts as [|t ts]; [done|]. unfold bind at 1, expect, accept. destruct (sep t); [|done]. unfold bind at 1.
  destruct (item ts) as [[x|e|f] s1] eqn:E; [|done|intros [= -> ->]; by apply (Hi ts r)].
  apply Hs in E as (u & -> & _). simpl in Hn. rewrite length_app in Hn. unfold bind. specialize (IH s1).
  destruct (more n sep item s1) as [[l|e|f] s2]; [done|done|]. intros [= -> ->]. apply (IH r); [lia|done].
Qed.
Lemma total_list {A} sep (item : P A) g : sound item g -> total item -> total (list_of sep item).
Proof.
  intros Hs Hi. unfold list_of. apply total_bind; [done|]. intros x ts r. unfold bind at 1, gets. unfold bind.
  pose proof (total_more sep item g (S (length ts)) Hs Hi ts) as H. destruct (more _ sep item ts) as [[l|e|f] s]; [done|done|].
  intros [= -> ->]. apply (H r); [lia|done].
Qed.

Create HintDb parser_total.
#[export] Hint Resolve total_ret total_throw total_accept total_next total_float : parser_total.
#[export] Hint Extern 1 (total (bind _ _)) => apply total_bind; intros : parser_total.
#[export] Hint Extern 1 (total (if ?b then _ else _)) => destruct b : parser_total.
#[export] Hint Extern 1 (total (match ?x with _ => _ end)) => destruct x : parser_total.
Ltac tot := eauto 60 with parser_total.

Lemma total_kw k : total (kw k).
Proof. apply total_accept. Qed.
Lemma total_sym c : total (sym c).
Proof. apply total_accept. Qed.
Lemma total_name : total name.
Proof. apply total_accept. Qed.
Lemma total_sign : total sign.
Proof. apply total_accept. Qed.
Lemma total_op : total op.
Proof. apply total_accept. Qed.
#[export] Hint Resolve total_kw total_sym total_name total_sign total_op : parser_total.
Lemma total_value : total value.
Proof. unfold value, literal. tot. Qed.
Lemma total_col : total col.
Proof. unfold col. tot. Qed.
#[export] Hint Resolve total_value total_col : parser_total.
Lemma total_condition : total condition.
Proof. unfold condition, expr. tot. Qed.
Lemma total_setClause : total setClause.
Proof. unfold setClause. tot. Qed.
Lemma total_field : total field.
Proof. unfold field, type_len. tot. Qed.
Lemma total_aggregate : total aggregate_clause.
Proof. unfold aggregate_clause. tot. Qed.
Lemma total_order : total order_clause.
Proof. unfold order_clause. tot. Qed.

(** the lists of the grammar *)
Lemma total_lists sep : total (list_of sep condition) /\ total (list_of sep setClause) /\ total (list_of sep field) /\
  total (list_of sep aggregate_clause) /\ total (list_of sep order_clause) /\ total (list_of sep col) /\ total (list_of sep value) /\ total (list_of sep name).
Proof.
  split_and!; eapply total_list; eauto using total_condition, total_setClause, total_field, total_aggregate, total_order, total_col, total_value, total_name,
    condition_sound, setClause_sound, field_sound, aggregate_clause_sound, order_clause_sound, col_sound, value_sound, name_sound.
Qed.
#[export] Hint Extern 1 (total (list_of ?s _)) => apply (total_lists s) : parser_total.
Lemma total_clauses : total optWhereClause /\ total opt_order_clause /\ total opt_limit_clause /\ total selector.
Proof. unfold optWhereClause, opt_order_clause, opt_limit_clause, selector. split_and!; tot. Qed.
Lemma total_stmt : total stmt.
Proof.
  destruct total_clauses as (H1 & H2 & H3 & H4). unfold stmt, in_parens. apply total_bind; [apply total_accept|]. intros []; tot.
Qed.
Lemma total_start : total start.
Proof.
  pose proof total_stmt as H. intros ts. unfold start. unfold bind at 1, get. destruct ts as [|t ts]; [done|]. revert ts.
  assert (Ht : total (if is_kw HELP t then kw HELP;; ret (Some ast.Help)
      else if is_kw SET t then kw SET;; kw OUTPUT;; kw OFF;; ret (Some ast.SetOutputOff)
      else if is_kw EXIT t then kw EXIT;; ret None else let* n := stmt in sym ";";; ret (Some n))) by tot.
  intros ts. apply Ht.
Qed.
End Tot.

(** ** Texts *)

Module Render.
Import Lex.

Definition token_text (t : token) : text :=
  match t with
  | KW k => Text.str (kw_text k)
  | SYM c => [c]
  | GEQ => Text.str ">=" | LEQ => Text.str "<=" | NEQ => Text.str "<>"
  | IDENTIFIER s | VALUE_INT_BIGINT s => Text.str s
  | VALUE_STRING s => "'"%char :: Text.str s ++ ["'"%char]
  | VALUE_FLOAT _ => []
  end.
(** the tokens whose text the scanner reads back *)
Definition plain (t : token) : bool :=
  match t with
  | KW _ | GEQ | LEQ | NEQ => true
  | SYM c => existsb (Ascii.eqb c) (Text.str ";(),*=.+-<>")
  | IDENTIFIER s => match Text.str s with c :: r => is_alpha c && forallb is_ident r && match word (c :: r) with IDENTIFIER _ => true | _ => false end | [] => false end
  | VALUE_INT_BIGINT s => match Text.str s with c :: r => is_digit c && forallb is_digit r | [] => false end
  | VALUE_STRING s => forallb (fun c => negb (chr 39 c)) (Text.str s)
  | VALUE_FLOAT _ => false
  end.
(** the tokens with a space after each *)
Definition render (ts : list token) : text := concat ((fun t => token_text t ++ [" "%char]) <$> ts).

Lemma string_of_str s : string_of (Text.str s) = s.
Proof. apply String.string_of_list_ascii_of_string. Qed.
Lemma word_cases w : word w = IDENTIFIER (string_of w) \/ exists k, word w = KW k.
Proof. unfold word. destruct (find _ _); eauto. Qed.
Lemma plain_lexeme t : plain t = true -> Spell.lexeme t (token_text t).
Proof.
  destruct t as [k|c| | | |s|s|f|s]; cbn [plain token_text]; intros H; try (by constructor); try done.
  - constructor. by destruct k.
  - constructor. apply existsb_exists in H as (d & Hd & ->%Ascii.eqb_eq). by apply list_elem_of_In.
  - pose proof (string_of_str s) as Es. destruct (Text.str s) as [|c r]; [done|]. rewrite <- Es. apply andb_true_iff in H as [H Hw]. apply andb_true_iff in H as [Hc Hr].
    constructor; [done|done|]. destruct (word_cases (c :: r)) as [E|[k E]]; [done|]. by rewrite E in Hw.
  - pose proof (string_of_str s) as Es. destruct (Text.str s) as [|c r]; [done|]. rewrite <- Es. apply andb_true_iff in H as [Hc Hr]. by constructor.
  - pose proof (string_of_str s) as Es. rewrite <- Es at 1. by constructor.
Qed.
Lemma space_ends t s : Spell.ends t (" "%char :: s).
Proof. by destruct t as [|[[] [] [] [] [] [] [] []]| | | | | | |]. Qed.
Lemma spells_blank ts s c : is_blank c = true -> Spell.spells ts s -> Spell.spells ts (c :: s).
Proof.
  intros Hc [w Hw|w t x ts' s' Hw Ht He Hs].
  - constructor. simpl. by rewrite Hc.
  - apply (Spell.spells_cons (c :: w)); [simpl; by rewrite Hc|done|done|done].
Qed.
Lemma render_spells ts : forallb plain ts = true -> Spell.spells ts (render ts).
Proof.
  induction ts as [|t ts IH]; [by constructor|]. cbn [forallb]. intros [Ht Hts]%andb_true_iff. unfold render. rewrite fmap_cons. cbn [concat].
  rewrite <- app_assoc. apply (Spell.spells_cons []); [done|by apply plain_lexeme|apply space_ends|]. apply spells_blank; [done|]. by apply IH.
Qed.
End Render.

(** ** The properties *)

Lemma spelled_parses n x : Show.ok n = true -> Spell.spells (Show.start n) x -> yyparse x false = (Ok (Some (Some n)), false).
Proof.
  intros Hn Hx. unfold yyparse. rewrite (Spell.lex_spell _ _ Hx).
  pose proof (GrP.start_complete _ _ _ (ShowP.start_derives n [] Hn)) as E. rewrite app_nil_r in E. rewrite E.
  by destruct n.
Qed.

(** C28: The parser accepts exactly the language of the grammar.  A text has the tree [n], a null tree included, if and only if its tokens
    begin with a sentence that the productions of [yacc.y] derive with [n] as its value; so the one token of lookahead
    loses nothing, the grammar gives a text one tree at most, and no list of the parser is cut off by its bound. *)
Theorem yyparse_accepts_grammar s in_comment :
  (forall n, (exists b, yyparse s in_comment = (Ok (Some n), b)) <-> exists u r, (Lex.lex in_comment s).1 = u ++ r /\ Gm.start u r n) /\
  (forall b, yyparse s in_comment <> (Fail OutOfFuel, b)).
Proof.
  unfold yyparse. destruct (Lex.lex in_comment s) as [ts at_end]. cbn [fst]. pose proof (Tot.total_start ts) as Ht. split.
  - intros n. split.
    + intros [b H]. destruct (Gr.start ts) as [[n'|[|e]|f] r] eqn:E; try discriminate H. injection H as -> _.
      apply GrP.start_sound in E as (u & -> & Hu). eauto.
    + intros (u & r & -> & Hu). rewrite (GrP.start_complete u r n Hu). eauto.
  - intros b. destruct (Gr.start ts) as [[n'|[|e]|f] r]; try discriminate. intros [= -> _]. by apply (Ht r).
Qed.

(** C29: A statement comes back from its text.  Take the tokens of a statement that has a text (columns without an aggregate where
    the grammar has none, lists that are not empty, lengths of strings in range), and spell them with keywords in
    any case, any blanks before a token, and none where the next character does not belong to the token: the
    parser returns the statement, and the scanner is outside of comments. *)
Theorem statement_roundtrip n x : Show.ok n = true -> Spell.spells (Show.start n) x -> yyparse x false = (Ok (Some (Some n)), false).
Proof. intros Hn Hx. exact (spelled_parses n x Hn Hx). Qed.

(** [/*] before a space opens a comment that outlives the request: a later text without the end of a comment is an empty
    request, whatever it says. *)
Theorem open_comment_swallows s : Lex.comment s = None -> yyparse (Text.str "/* ") false = (Ok (Some None), true) /\ yyparse s true = (Ok (Some None), true).
Proof. intros H. split; [done|]. unfold yyparse, Lex.lex. cbn [Lex.tokens]. by rewrite H. Qed.

(** The length of a string column is read with [std::stoi], whose exception leaves the parser, and the parser is not called inside of the
    [try] block of the server. *)
Theorem char_length_throws : yyparse (Text.str "create table t (a char(99999999999));") false = (Throw OutOfRange, false).
Proof. vm_compute. reflexivity. Qed.

(** ** Witness *)

Definition demo_select : ast.TreeNode :=
  ast.SelectStmt [ast.mkCol "t" "a" ast.NONE ""; ast.mkCol "" "b" ast.NONE ""] ["t"; "u"]
    [ast.mkBinaryExpr (ast.mkCol "" "a" ast.NONE "") ast.SV_OP_GE (ast.EValue (ast.Int_Bint_Lit "-3"));
     ast.mkBinaryExpr (ast.mkCol "t" "b" ast.NONE "") ast.SV_OP_NE (ast.EValue (ast.StringLit "x y"))]
    (Some [ast.mkOrderBy (ast.mkCol "" "a" ast.NONE "") ast.OrderBy_DESC]) (Some (ast.Int_Bint_Lit "10")).
Lemma statement_roundtrip_witness : yyparse (Render.render (Show.start demo_select)) false = (Ok (Some (Some demo_select)), false).
Proof. apply (statement_roundtrip demo_select); [reflexivity|apply Render.render_spells; vm_compute; reflexivity]. Defined.
