(* ===== verification/RequestProps.v ===== *)
(** From the bytes of a request to the bytes of its answer: a [SELECT] on one table and an [INSERT], inside of a transaction, through the
    scanner, the parser, the analysis, the planner, the portal, the executors and the printer. *)

From Stdlib Require Import Strings.Ascii.
From S2P Require Import Prelude Bytes Errors Disk BufferPool PageStore Defs RmFile.
From S2P Require Import RmProofs RmPage Text SmMeta Values IxDefs IxTree SmState.
From S2P Require Import Executor Projection SeqScan SeqScanProofs LogManager Lock Core ExecProps.
From S2P Require Import Txn TxnProps Dml LogRecord DmlProps Sm.
From S2P Require Import Analyze AnalyzeProps Planner PlannerProps Printer.
From S2P Require Import Portal Load Ql QlProps PortalProps Parser ParserProps.
From S2P Require Import RmProps Server ServerProps.

(** ** The analysis of a query on one table *)

Module OneTab.
Import An.
Lemma infer_tab_in t all_cols col_name : Forall (fun c => cm_tab_name c = t) all_cols ->
  forall acc r, infer_tab all_cols col_name acc = inr r -> r = acc \/ r = t.
Proof.
  induction 1 as [|c cols Hc _ IH]; intros acc r; cbn [infer_tab]; [intros [= ->]; by left|].
  destruct (String.eqb (cm_name c) col_name); [|apply IH]. destruct (String.eqb acc ""); [|done]. intros H. destruct (IH _ _ H) as [->| ->]; by right.
Qed.
Lemma check_column_tab t all_cols target c : Forall (fun c => cm_tab_name c = t) all_cols -> t <> "" ->
  check_column all_cols target = inr c -> has_agg target = false -> tc_tab_name c = t /\ has_agg c = false.
Proof.
  intros Hall Ht. unfold check_column. intros H Ha. destruct (String.eqb (tc_tab_name target) "").
  - destruct (infer_tab all_cols (tc_col_name target) "") as [e|r] eqn:E; [done|]. rewrite Ha in H. cbn [negb] in H. rewrite andb_true_r in H.
    destruct (String.eqb_spec r ""); [done|]. injection H as <-. cbn. split; [|done]. by destruct (infer_tab_in _ _ _ Hall _ _ E).
  - destruct (existsb _ all_cols) eqn:E; [|done]. injection H as <-. split; [|done].
    apply existsb_exists in E as (col & Hin & [E _]%andb_true_iff). apply String.eqb_eq in E. rewrite <- E. apply list_elem_of_In in Hin. by eapply Forall_forall in Hall; [|exact Hin].
Qed.

Section query.
Context {S : Type} (w : SmManager S) (t : string) (tab : TabMeta).
Hypothesis Hw : writer (db_latch_ w) = false.
Hypothesis Hm : Meta.get_table (db_ w) t = inr tab.
Hypothesis Hcols : Forall (fun c => cm_tab_name c = t) (tm_cols tab).
Hypothesis Ht : t <> "".
Abbreviation SM := (SmManager S).

(** a computation that leaves the state as it is when it returns, with a result in [Q] *)
Definition reads {A} (m : Prog SM A) (Q : A -> Prop) : Prop := forall a w', m w = (Ok a, w') -> w' = w /\ Q a.
Lemma reads_bind {A B} (m : Prog SM A) (k : A -> Prog SM B) Q R : reads m Q -> (forall a, Q a -> reads (k a) R) -> reads (bind m k) R.
Proof using. intros Hm' Hk b w' H. apply bind_inv in H as (a & w1 & E & H). apply Hm' in E as [-> Ha]. by apply (Hk a Ha). Qed.
Lemma reads_ret {A} (a : A) (Q : A -> Prop) : Q a -> reads (ret a) Q.
Proof using. by intros Ha b w' [= <- <-]. Qed.
Lemma reads_sum {A} (x : error + A) (Q : A -> Prop) : (forall a, x = inr a -> Q a) -> reads (SmSt.of_sum x) Q.
Proof using. intros H a w' E. destruct x as [e|b]; [done|]. injection E as <- <-. auto. Qed.
Lemma reads_pure {A} (m : Prog unit A) : reads (pure_call m) (fun _ => True).
Proof using. intros a w' E. unfold pure_call in E. by injection E as _ <-. Qed.
Lemma reads_map_m {A B} (f : A -> Prog SM B) l (Q : B -> Prop) : (forall x, x ∈ l -> reads (f x) Q) -> reads (map_m f l) (Forall Q).
Proof using.
  induction l as [|x l IH]; intros H; cbn [map_m]; [by apply reads_ret|]. eapply reads_bind; [apply H; by left|]. intros y Hy.
  eapply reads_bind; [apply IH; intros z Hz; apply H; by right|]. intros ys Hys. apply reads_ret. by constructor.
Qed.

Lemma reads_col col_name : reads (read_col t col_name) (fun _ => True).
Proof using Hw Hm.
  intros c w' E. destruct (Meta.get_col tab col_name) as [e|col] eqn:Ec.
  - exfalso. revert E. unfold read_col, SmSt.RLatch, SmSt.try_mutex, SmSt.lock_shared, bind, SmSt.get_table. rewrite Hw. simpl. rewrite Hm. simpl. by rewrite Ec.
  - rewrite (AnP.read_col_ok t col_name tab col w Hw Hm Ec) in E. by injection E as _ <-.
Qed.
Lemma reads_all_cols : reads (get_all_cols [t] []) (fun l => l = tm_cols tab).
Proof using Hw Hm.
  intros l w' E. cbn [get_all_cols] in E. rewrite (bind_ok _ _ _ _ _ (SmSt.read_table_ok t tab w Hw Hm)) in E. by injection E as <- <-.
Qed.

(** a condition compares a column of the table with a value or with another of its columns *)
Definition on_tab (c : QCond) : Prop := Pln.lhs_tab c = t /\ (is_rhs_val c.1 = true \/ Pln.rhs_tab c = t).
Lemma reads_cond e : reads (check_cond (tm_cols tab) e) on_tab.
Proof using Hw Hm Hcols Ht.
  unfold check_cond. eapply reads_bind; [apply reads_sum; intros c Hc; exact (check_column_tab t _ _ _ Hcols Ht Hc eq_refl)|]. intros lhs [Hl _].
  rewrite Hl. eapply reads_bind; [apply reads_col|]. intros lc _. destruct (ast.be_rhs e) as [v|c].
  - eapply reads_bind; [apply reads_pure|]. intros v' _. apply reads_ret. split; [exact Hl|by left].
  - eapply reads_bind; [apply reads_sum; intros c' Hc; exact (check_column_tab t _ _ _ Hcols Ht Hc eq_refl)|]. intros rhs [Hr _]. rewrite Hr.
    eapply reads_bind; [apply reads_col|]. intros rc _. eapply (reads_bind _ _ (fun _ => True)); [destruct (Val.type_compatible _ _); [by apply reads_ret|intros ? ? [=]]|].
    intros _ _. apply reads_ret. split; [exact Hl|right; exact Hr].
Qed.

Record one_table (q : Query) : Prop := {
  ot_tables : q_tables q = [t];
  ot_plain : existsb has_agg (q_cols q) = false;
  ot_conds : Forall on_tab (q_conds q);
}.
Lemma plain_none cs : Forall (fun c => has_agg c = false) cs -> existsb has_agg cs = false.
Proof using. induction 1 as [|c cs Hc _ IH]; [done|]. simpl. by rewrite Hc, IH. Qed.

Lemma reads_select agg0 cols conds limit : forallb Show.ok_col cols = true ->
  reads (do_analyze agg0 (ast.SelectStmt cols [t] conds None limit)) one_table.
Proof using Hw Hm Hcols Ht.
  intros Hc. cbn [do_analyze]. unfold analyze_select. eapply reads_bind; [apply reads_all_cols|]. intros all ->.
  eapply (reads_bind _ _ (fun cs => existsb has_agg cs = false)).
  { destruct cols as [|c cols]; [apply reads_ret; apply plain_none, Forall_fmap, Forall_forall; done|]. cbn [fmap list_fmap].
    intros cs w' E. eapply (reads_map_m _ _ (fun c => has_agg c = false)) in E as [-> E]; [split; [done|by apply plain_none]|].
    intros x Hx. apply reads_sum. intros y Hy. eapply check_column_tab; [exact Hcols|exact Ht|exact Hy|].
    change (x ∈ name_count <$> (sel_col agg0 <$> c :: cols)) in Hx. apply list_elem_of_fmap in Hx as (y' & -> & Hy'). apply list_elem_of_fmap in Hy' as (z & -> & Hz).
    rewrite forallb_forall in Hc. specialize (Hc z ltac:(by apply list_elem_of_In)). apply andb_true_iff in Hc as [Hp _].
    unfold Show.is_plain in Hp. apply bool_decide_eq_true in Hp. unfold name_count, sel_col. rewrite Hp. by destruct (_ && _). }
  intros qc Hqc. eapply reads_bind.
  { unfold get_check_clause. eapply reads_bind; [apply reads_all_cols|]. intros all ->. apply reads_map_m. intros e _. apply reads_cond. }
  intros qconds Hqs. eapply reads_bind; [apply (reads_ret [] (fun o => o = []) eq_refl)|]. intros ord ->. eapply (reads_bind _ _ (fun _ => True)).
  { destruct limit as [v|]; [|by apply reads_ret]. eapply (reads_bind _ _ (fun _ => True)); [|intros; by apply reads_ret].
    unfold get_limit_clause. destruct v as [s|f|s]; [|intros ? ? [=]..]. destruct (Lit.no_overflow_int _); [by apply reads_sum|intros ? ? [=]]. }
  intros lim _. apply reads_ret. by split.
Qed.
End query.
End OneTab.

(** ** The request *)

Module Req.
Import Srv.

(** the text that the server finds in its buffer *)
Lemma c_str_zero b r : 0 ∉ b -> Val.c_str (b ++ 0 :: r) = b.
Proof.
  induction b as [|x b IH]; intros H; [done|]. cbn [Val.c_str app]. apply not_elem_of_cons in H as [Hx H]. destruct (Z.eqb_spec x 0); [congruence|]. by rewrite IH.
Qed.
Lemma c_text_request b : 0 ∉ b -> zlen b < BUFFER_LENGTH -> c_text (b ++ zeros (BUFFER_LENGTH - zlen b)) = Some b.
Proof.
  intros H0 Hl. assert (exists r, zeros (BUFFER_LENGTH - zlen b) = 0 :: r) as [r ->].
  { unfold zeros. destruct (Z.to_nat (BUFFER_LENGTH - zlen b)) eqn:E; [lia|]. eexists. reflexivity. }
  unfold c_text. rewrite bool_decide_true by set_solver. by rewrite c_str_zero.
Qed.

(** no statement is the text of [exit] or [crash] *)
Lemma not_exit n src : Spell.spells (Show.start n) (Text.str src) -> string_bytes src <> string_bytes "exit" /\ string_bytes src <> string_bytes "crash".
Proof.
  intros H. pose proof (Spell.lex_spell _ _ H) as E.
  assert (E1 : Lex.lex false (Text.str "exit") = ([KW EXIT], false)) by (vm_compute; reflexivity).
  assert (E2 : Lex.lex false (Text.str "crash") = ([IDENTIFIER "crash"], false)) by (vm_compute; reflexivity).
  split; intros ->%string_bytes_inj; [rewrite E1 in E|rewrite E2 in E]; injection E as E; by destruct n.
Qed.

(** what is read from the buffer: the text and the byte after it *)
Lemma sent_bytes d off x : slice 0 off d = x -> off + 1 <= zlen d -> x <> [] -> exists b, mload d 0 (off + 1) = Some (x ++ [b]).
Proof.
  intros Hx Hl Hne. assert (Ho : 0 <= off). { destruct (Z.leb_spec 0 off); [done|]. destruct Hne. rewrite <- Hx. unfold slice. by replace (Z.to_nat off) with 0%nat by lia. }
  unfold mload. destruct (lookup_lt_is_Some_2 d (Z.to_nat off)) as [b Hb]; [unfold zlen in Hl; lia|]. exists b.
  replace (in_range 0 (off + 1) (zlen d)) with true by (unfold in_range; symmetry; lia). f_equal. rewrite <- Hx. unfold slice. simpl.
  replace (Z.to_nat (off + 1)) with (S (Z.to_nat off)) by lia. by apply take_S_r.
Qed.

Section turn.
Context (std_sort : (RmRecord -> RmRecord -> bool) -> list RmRecord -> list RmRecord) (malloc : gmap Z (list Z) -> Z).
Context (junk : Z -> list Z) (buf0 : list Z) (page0 : Z) (idx0 : nat) (rid0 : Rid) (mode0 : bool) (ts0 : Z) (agg0 : AggType) (fuel ifuel rfuel : nat).

(** the client after the buffer was cleared, and with the mutex of the parser in a state *)
Definition fresh_out (s : Session) : Session := mkSession (se_tm s) Prt.fresh (output_off s) (output_txt s).
Definition with_mutex (s : Session) (b : bool) (cl : Client) : Client := mkClient s (cl_txn_id cl) b (yy_start cl).

(** a statement of an open transaction whose execution returns: the answer is what stands in the buffer *)
Lemma turn_of_statement n src cl t q s1 s2 sent :
  Show.ok n = true -> Spell.spells (Show.start n) (Text.str src) -> 0 ∉ string_bytes src -> zlen (string_bytes src) < BUFFER_LENGTH ->
  buffer_mutex cl = false -> yy_start cl = false -> SrvP.own cl (Some t) -> SrvP.finished t = false ->
  Ql.on_sm (An.do_analyze agg0 n) (fresh_out (cl_session cl)) = (Ok q, s1) ->
  Srv.execute std_sort malloc junk buf0 page0 idx0 rid0 fuel ifuel rfuel n q (cl_txn_id cl) s1 = (Ok tt, s2) ->
  mload (data_send_ (se_out s2)) 0 (offset_ (se_out s2) + 1) = Some sent ->
  Srv.round std_sort malloc junk buf0 page0 idx0 rid0 mode0 ts0 agg0 fuel ifuel rfuel (string_bytes src) cl = (Ok (Answer sent), with_mutex s2 false cl).
Proof.
  intros Hok Hsp H0 Hl Hmx Hyy Hown Hfin Ea Ee Hsent. destruct (not_exit n src Hsp) as [Hx Hc].
  set (cl0 := with_mutex (fresh_out (cl_session cl)) false cl).
  assert (Hset : SetTransaction mode0 ts0 cl0 = (Ok (cl_txn_id cl), cl0)) by (by apply (SrvP.set_transaction_same mode0 ts0 cl0 t)).
  unfold round. unfold bind at 1. rewrite (c_text_request _ H0 Hl). cbn [deref ret]. rewrite !bool_decide_eq_false_2 by done.
  assert (E0 : on_session (modify fresh_out) cl = (Ok tt, cl0)) by (unfold on_session, zoom, cl0, with_mutex; simpl; by rewrite Hmx).
  rewrite (bind_ok _ _ _ _ _ E0), (bind_ok _ _ _ _ _ Hset).
  rewrite (bind_ok lock_mutex _ cl0 tt (with_mutex (fresh_out (cl_session cl)) true cl)) by done.
  rewrite bytes_string_bytes. rewrite (bind_ok (on_scanner _) _ _ (Some (Some n)) (with_mutex (fresh_out (cl_session cl)) true cl)).
  2: { unfold on_scanner, zoom, with_mutex. cbn [yy_start]. rewrite Hyy, (spelled_parses n _ Hok Hsp). done. }
  assert (Et : try_block std_sort malloc junk buf0 page0 idx0 rid0 agg0 fuel ifuel rfuel n (cl_txn_id cl) (with_mutex (fresh_out (cl_session cl)) true cl) = (Ok tt, with_mutex s2 false cl)).
  { unfold try_block. rewrite (bind_ok (on_session _) _ _ q (with_mutex s1 true cl)) by (unfold on_session, zoom, with_mutex; simpl; by rewrite Ea).
    rewrite (bind_ok (set_mutex false) _ _ tt (with_mutex s1 false cl)) by done. unfold on_session, zoom, with_mutex. simpl. by rewrite Ee. }
  rewrite (bind_ok (statement _ _ _ _ _ _ _ _ _ _ _ _ _) _ _ tt (with_mutex s2 false cl)) by (unfold statement, try_catch; by rewrite Et).
  rewrite (bind_ok (set_mutex false) _ _ tt (with_mutex s2 false cl)) by done.
  unfold bind at 1, gets. unfold bind. cbn [with_mutex cl_session]. by rewrite Hsent.
Qed.

(** a plan that has run in a transaction that goes on *)
Lemma execute_in_transaction n q p s s' t :
  (let* plan := Ql.on_sm (Pln.plan_query n q) in run_plan std_sort malloc junk buf0 page0 idx0 rid0 fuel ifuel rfuel plan p)%prog s = (Ok tt, s') ->
  txns (c_locks (TxnP.core_of (se_tm s'))) !! p = Some t -> txn_mode_ t = true ->
  Srv.execute std_sort malloc junk buf0 page0 idx0 rid0 fuel ifuel rfuel n q p s = (Ok tt, s').
Proof.
  intros E Ht Hm. apply bind_inv in E as (plan & sa & Ep & E). apply bind_inv in E as (stmt & sb & Es & Er).
  unfold execute. rewrite (bind_ok _ _ _ _ _ Ep), (bind_ok _ _ _ _ _ Es), (bind_ok _ _ _ _ _ Er).
  rewrite (bind_ok (Ql.on_tm _) _ s' t s'); [by rewrite Hm|].
  unfold Ql.on_tm, zoom. rewrite (TxnP.core_eq _ (se_tm s') _ _ (TxnP.get_txn_eq p _ _ Ht)). by destruct s' as [[[] ? ? ?] ? ? ?].
Qed.
End turn.
End Req.

(** C9: A [SELECT] is answered, from the bytes of the request to those of the answer.  In an open transaction of the
    client, a request that spells [SELECT columns FROM t WHERE conditions;] for a table [t] without indexes, in any case and with any blanks, and
    that the analysis accepts, returns: the answer has the captions, the selected columns of exactly the records of [t] on which
    the conditions hold, once each, and their number, cut where the buffer ends; the same lines are in
    [output.txt]; the tables are as they were, the parser is free, and the next request of the client runs in the same
    transaction. *)
Theorem select_request_answered std_sort malloc junk buf0 page0 idx0 rid0 mode0 ts0 agg0 fuel ifuel rfuel src cl t0 fds T cols t sconds limit q w tab h pages chain idxs cs len :
  let n := ast.SelectStmt cols [t] sconds None limit in
  let s := cl_session cl in
  (forall tab h pages chain, T !! tab = Some (h, pages, chain) -> fd_ h ∈ fds) ->
  Show.ok n = true -> forallb Show.ok_col cols = true -> Spell.spells (Show.start n) (Text.str src) -> 0 ∉ string_bytes src -> zlen (string_bytes src) < BUFFER_LENGTH ->
  buffer_mutex cl = false -> yy_start cl = false -> SrvP.own cl (Some t0) -> SrvP.finished t0 = false -> txn_mode_ t0 = true ->
  PrtlP.ready (cl_txn_id cl) t0 fds T (QlP.sm_of s) ->
  Meta.get_table (db_ (QlP.sm_of s)) t = inr tab -> T !! t = Some (h, pages, chain) -> tm_indexes tab = [] -> t <> "" -> Forall (fun c => cm_tab_name c = t) (tm_cols tab) ->
  An.do_analyze agg0 n (QlP.sm_of s) = (Ok q, w) ->
  forallb (Cond.scan_ok (tm_cols tab) (record_size (file_hdr_ h))) (q_conds q).*1 = true ->
  Proj.select (tm_cols tab) (q_cols q) 0 = inr (idxs, cs, len) -> len <= zlen buf0 ->
  let rows := Proj.project (tm_cols tab) idxs <$> List.filter (holds_scan (q_conds q).*1 (tm_cols tab)) (ScanP.all_rows h pages).*2 in
  prints fuel (Rel.mkRel cs len rows) ->
  runs (Srv.round std_sort malloc junk buf0 page0 idx0 rid0 mode0 ts0 agg0 fuel ifuel rfuel (string_bytes src)) cl (fun reply cl' =>
    exists rows' k cut b, let ps := QlP.answer_pieces cs rows' in
      rows' ≡ₚ rows /\ reply = Answer (concat (take k ps) ++ count_line cut (zlen rows') ++ [b]) /\
      (zlen (concat ps) + RECORD_COUNT_LENGTH < BUFFER_LENGTH -> k = length ps /\ cut = false) /\
      output_txt (cl_session cl') = output_txt s ++ QlP.logged s (QlP.file_text cs rows') /\
      Q.world_ok (cl_txn_id cl) t0 fds T (QlP.sm_of (cl_session cl')) /\ buffer_mutex cl' = false /\
      Srv.SetTransaction mode0 ts0 cl' = (Ok (cl_txn_id cl), cl')).
Proof.
  intros n s HT Hok Hplain Hsp H0 Hl Hmx Hyy Hown Hfin Hmode Hr Hm Ht Hi Hne Hcols Ea Hsc Hsel Hb rows Hp.
  pose proof Hr as [_ [Hfree _] _].
  destruct (OneTab.reads_select (QlP.sm_of s) t tab Hfree Hm Hcols Hne agg0 cols sconds limit Hplain q w Ea) as [-> [Hq Ha Hc]].
  destruct (query_prints (cl_txn_id cl) t0 fds T std_sort malloc junk buf0 page0 idx0 rid0 fuel ifuel rfuel (Req.fresh_out s) cols [t] sconds limit q t tab h pages chain idxs cs len
    HT Hr eq_refl Hq Ha Hm Ht Hi Hc Hsc Hsel Hb Hp) as ([] & s2 & E & rows' & Hrows & [Hw Hans Hoff Htxt (Hid & Hts & Hmap)]).
  pose proof Hw as [(_ & _ & (t' & Ht' & st & ls & Et' & Hst) & _) _].
  assert (Hmode' : txn_mode_ t' = true) by (by rewrite Et').
  pose proof (Req.execute_in_transaction _ _ _ _ _ _ _ _ _ _ _ _ _ _ _ _ E Ht' Hmode') as Ee.
  destruct Hans as (Hlen & Hoffs & k & _ & Hslice & Hfit).
  destruct (Req.sent_bytes (data_send_ (se_out s2)) (offset_ (se_out s2)) _ Hslice) as [b Hsent]; [lia| |].
  { intros Hnil. apply app_eq_nil in Hnil as [_ Hnil]. unfold count_line in Hnil. apply app_eq_nil in Hnil as [_ Hnil]. done. }
  eexists _, _. split.
  { apply (Req.turn_of_statement std_sort malloc junk buf0 page0 idx0 rid0 mode0 ts0 agg0 fuel ifuel rfuel n src cl t0 q (Req.fresh_out s) s2 (concat (take k (QlP.answer_pieces cs rows')) ++ count_line (ellipsis_ (se_out s2)) (zlen rows') ++ [b])
      Hok Hsp H0 Hl Hmx Hyy Hown Hfin); [|exact Ee|by rewrite app_assoc].
    unfold Ql.on_sm, Ql.on_tm, TxnM.on_sm, zoom. unfold QlP.sm_of in Ea. unfold s in *. cbn [Req.fresh_out se_tm]. rewrite Ea. by destruct (cl_session cl) as [[] ? ? ?]. }
  exists rows', k, (ellipsis_ (se_out s2)), b. cbv zeta. split_and!; try done.
  apply (SrvP.set_transaction_same mode0 ts0 (Req.with_mutex s2 false cl) t').
  - destruct Hown as (Ho1 & Ho2 & _). unfold SrvP.own, SrvP.tm_of, Req.with_mutex. cbn [cl_session cl_txn_id]. rewrite Hmap. done.
  - rewrite Et'. unfold SrvP.finished in *. simpl. destruct Hst as [->| ->]; done.
Qed.

(** ** INSERT *)

Module InsReq.

(** the literals denote the values, so the analysis makes these values of them *)
Lemma analyze_lits {S} agg0 (w : SmManager S) tab ti vals values :
  writer (db_latch_ w) = false -> Meta.get_table (db_ w) tab = inr ti -> NoDup (cm_name <$> tm_cols ti) ->
  Forall2 InsP.value_for (tm_cols ti) values -> Forall2 (fun lit v => AnP.lit_of lit v.1) vals values ->
  An.do_analyze agg0 (ast.InsertStmt tab vals) w = (Ok (mkQuery [] [] [] [] values [] None), w).
Proof.
  intros Hw Hm Hn Hv Hl. cbn [An.do_analyze].
  rewrite (AnP.analyze_insert_loop tab vals ti w Hw Hm Hn) by (rewrite (Forall2_length _ _ _ Hv); by apply (Forall2_length _ _ _ Hl)).
  rewrite (bind_ok _ _ w values w); [done|]. apply AnP.convert_all_ok. clear Hn Hm Hw. revert vals Hl.
  induction Hv as [|col v cols values Hc _ IH]; intros vals Hl; inversion Hl as [|lit ? vals' ? H1 H2]; subst; [constructor|].
  cbn [zip zip_with]. constructor; [by apply AnP.convert_value_for|by apply IH].
Qed.

Section exec.
Context (std_sort : (RmRecord -> RmRecord -> bool) -> list RmRecord -> list RmRecord) (malloc : gmap Z (list Z) -> Z).
Context (junk : Z -> list Z) (buf0 : list Z) (page0 : Z) (idx0 : nat) (rid0 : Rid) (fuel ifuel rfuel : nat).

(** planner, portal and executor: one call of the executor *)
Lemma insert_runs tab vals values p s t ti h pages chain name b rid w' :
  InsP.can_insert junk (QlP.sm_of s) p t tab ti h pages chain name values b ->
  Ins.next malloc ifuel junk (mkInsertExecutor ti values tab tab rid0 p) (QlP.sm_of s) = (Ok rid, w') ->
  (let* plan := Ql.on_sm (Pln.plan_query (ast.InsertStmt tab vals) (mkQuery [] [] [] [] values [] None)) in
   run_plan std_sort malloc junk buf0 page0 idx0 rid0 fuel ifuel rfuel plan p)%prog s = (Ok tt, QlP.put_sm w' s).
Proof.
  intros Hc En. pose proof (InsP.make_eq rid0 _ _ _ _ _ _ _ _ _ _ _ _ Hc) as Em. unfold QlP.sm_of in *.
  assert (Hid : forall A (m : Prog (SmManager Core) A) a, m (tm_sm (se_tm s)) = (Ok a, tm_sm (se_tm s)) -> Ql.on_sm m s = (Ok a, s)).
  { intros A m a E. unfold Ql.on_sm, Ql.on_tm, TxnM.on_sm, zoom. rewrite E. by destruct s as [[] ? ? ?]. }
  set (plan := DMLPlan T_Insert NullPlan tab values [] []).
  rewrite (bind_ok (Ql.on_sm _) _ s plan s) by (by apply Hid). unfold run_plan.
  rewrite (bind_ok _ _ s (mkPortalStmt PORTAL_DML_WITHOUT_SELECT (InsertRoot (mkInsertExecutor ti values tab tab rid0 p)) plan) s).
  - unfold Ql.run. cbn [ps_tag ps_root Ql.run_dml]. rewrite (bind_ok _ _ s rid (QlP.put_sm w' s)); [done|].
    unfold Ql.on_sm, Ql.on_tm, TxnM.on_sm, zoom. by rewrite En.
  - apply Hid. unfold Prtl.start, plan. cbn [q_values q_conds q_set_clauses]. by rewrite (bind_ok _ _ _ _ _ Em).
Qed.
End exec.
End InsReq.

(** C7: An [INSERT] is executed, from the bytes of the request.  In an open transaction of the client, a request that
    spells [INSERT INTO t VALUES (literals);] for a table without indexes, with literals that denote values of its
    columns, returns an empty answer and adds exactly one record, at a free place, whose columns read as the values; the
    insertion is in the log buffer and is the last write of the transaction, which holds an exclusive lock on the record,
    and the next request of the client runs in the same transaction. *)
Theorem insert_request_adds_record std_sort malloc junk buf0 page0 idx0 rid0 mode0 ts0 agg0 fuel ifuel rfuel src cl t0 tab vals values ti h pages chain name b :
  let n := ast.InsertStmt tab vals in
  let p := cl_txn_id cl in
  let core := sm_core (QlP.sm_of (cl_session cl)) in
  Show.ok n = true -> Spell.spells (Show.start n) (Text.str src) -> 0 ∉ string_bytes src -> zlen (string_bytes src) < BUFFER_LENGTH ->
  buffer_mutex cl = false -> yy_start cl = false -> SrvP.own cl (Some t0) -> txn_mode_ t0 = true ->
  Forall2 (fun lit v => AnP.lit_of lit v.1) vals values -> NoDup (cm_name <$> tm_cols ti) ->
  InsP.can_insert junk (QlP.sm_of (cl_session cl)) p t0 tab ti h pages chain name values b -> tm_indexes ti = [] ->
  runs (Srv.round std_sort malloc junk buf0 page0 idx0 rid0 mode0 ts0 agg0 fuel ifuel rfuel (string_bytes src)) cl (fun reply cl' =>
    let core' := sm_core (QlP.sm_of (cl_session cl')) in
    reply = Answer [0] /\ exists rid h' pages' chain' row t', let w := RmP.ins_write name rid (file_hdr_ h) row in
      fhs_ (QlP.sm_of (cl_session cl')) !! tab = Some h' /\ RmP.rep (fun _ => True) core' h' pages' chain' /\
      RmP.rec_at pages rid = None /\ (forall r, RmP.rec_at pages' r = if decide (r = rid) then Some row else RmP.rec_at pages r) /\
      (forall i col v, tm_cols ti !! i = Some col -> values !! i = Some v -> Val.read_from_record row col tt = (Ok v.1, tt)) /\
      LogM.binv (c_log core') (b ++ Log.image (InsP.write_log (global_lsn_ (c_log core)) t0 w)) /\
      txns (c_locks core') !! p = Some t' /\ write_records_ t' = write_records_ t0 ++ [w] /\
      (exists r, LkP.holds_lock (c_locks core') (record_lock_id (fd_ h) rid) r /\ req_txn_id r = p /\ lock_mode_ r = LockMode.X) /\
      buffer_mutex cl' = false /\ Srv.SetTransaction mode0 ts0 cl' = (Ok p, cl')).
Proof.
  intros n p core Hok Hsp H0 Hl Hmx Hyy Hown Hmode Hlits Hn Hc Hnoix. set (s := Req.fresh_out (cl_session cl)).
  destruct (InsP.insert_next_spec malloc ifuel junk _ p t0 tab ti h pages chain name values b Hc (fun _ => True) (InsP.any_kept _) I rid0 Hnoix)
    as (rid & w' & h' & pages' & chain' & ls & E & Hf & Hrep & [Hnone Hall] & Hw & Hi & Ht & Hr & _).
  pose proof Hc as []. pose proof (InsReq.analyze_lits agg0 _ tab ti vals values ci_db ci_tab Hn ci_values Hlits) as Ea.
  pose proof (InsReq.insert_runs std_sort malloc junk buf0 page0 idx0 rid0 fuel ifuel rfuel tab vals values p s t0 ti h pages chain name b rid w' Hc E) as Er.
  pose proof (Req.execute_in_transaction std_sort malloc junk buf0 page0 idx0 rid0 fuel ifuel rfuel _ _ p s _ _ Er Ht Hmode) as Ee.
  assert (Hfin : SrvP.finished t0 = false) by (unfold SrvP.finished; destruct ci_state as [->| ->]; done).
  eexists _, _. split.
  { apply (Req.turn_of_statement std_sort malloc junk buf0 page0 idx0 rid0 mode0 ts0 agg0 fuel ifuel rfuel n src cl t0 (mkQuery [] [] [] [] values [] None) s (QlP.put_sm w' s) [0]
      Hok Hsp H0 Hl Hmx Hyy Hown Hfin); [|exact Ee|reflexivity].
    unfold Ql.on_sm, Ql.on_tm, TxnM.on_sm, zoom, s. cbn [Req.fresh_out se_tm]. unfold QlP.sm_of in Ea. unfold n. rewrite Ea. by destruct (cl_session cl) as [[] ? ? ?]. }
  cbv zeta. split; [done|]. eexists rid, h', pages', chain', (InsP.row values), _. split_and!; try done.
  - change (fhs_ w' !! tab = Some h'). by rewrite Hf, lookup_insert_eq.
  - intros i col v. by eapply InsP.fill_record_reads.
  - exact (InsP.wr_buf _ _ _ _ _ _ Hw).
  - destruct Hown as (Ho1 & Ho2 & _).
    apply (SrvP.set_transaction_same mode0 ts0 (Req.with_mutex (QlP.put_sm w' s) false cl) (InsP.holding (append_write_record (RmP.ins_write name rid (file_hdr_ h) (InsP.row values)) (set_so_far_lsn (global_lsn_ (c_log core)) t0)) ls)); [|done].
    split; [done|]. split; [done|exact Ht].
Qed.

(** ** Witness: [select b from t where a >= 1;] on a table with one record *)

Definition demo_request : string := "SELECT b FROM t WHERE a >= 1 ; ".
Definition demo_stmt : ast.TreeNode :=
  ast.SelectStmt [ast.mkCol "" "b" ast.NONE ""] ["t"]
    [ast.mkBinaryExpr (ast.mkCol "" "a" ast.NONE "") ast.SV_OP_GE (ast.EValue (ast.Int_Bint_Lit "1"))] None None.
Definition demo_open : Transaction := Ql.set_txn_mode true (demo_txn 1 GROWING).
Definition demo_open_locks : LockManager := mkLockManager ∅ {[1 := demo_open]}.
Definition demo_query : Query := mkQuery [(mkCondition (An.set_tab "t" (An.tab_col "" "a")) OP_GE true (An.tab_col "" "") (VInt 1), Some [1; 0; 0; 0])]
  [An.set_tab "t" (mkTabCol "" "b" false COUNT "" "")] ["t"] [] [] [] None.
Definition demo_reader (w : Q.World) : Client := mkClient (mkSession (mkTransactionManager w 2 2 {[1 := 1]}) Prt.fresh false []) 1 false false.

Lemma demo_open_linv : LkP.linv demo_open_locks.
Proof.
  split; [|intros id q a; simpl; rewrite lookup_empty; done..]. intros p t. simpl. rewrite lookup_singleton_Some. by intros [<- <-].
Qed.

Lemma select_request_answered_witness : exists w T (h : RmFileHandle) reply cl',
  Srv.round (fun _ l => l) (fun _ => 0) zeros (zeros 4) 0 0 (mkRid 0 0) true 7 COUNT 2 1 1 (string_bytes demo_request) (demo_reader w) = (Ok reply, cl') /\
  Q.world_ok 1 demo_open [fd_ h] T (QlP.sm_of (cl_session cl')) /\ Srv.SetTransaction true 7 cl' = (Ok 1, cl').
Proof.
  destruct (demo_ready_with demo_open_locks demo_open demo_open_linv) as (s & h & T & pages & chain & HT & Hr & Ht & Hsz & Hone); [reflexivity|apply lookup_singleton_eq|discriminate|].
  exists (demo_world_with demo_open_locks s h), T, h.
  destruct (select_request_answered (fun _ l => l) (fun _ => 0) zeros (zeros 4) 0 0 (mkRid 0 0) true 7 COUNT 2 1 1 demo_request (demo_reader (demo_world_with demo_open_locks s h)) demo_open [fd_ h] T
    [ast.mkCol "" "b" ast.NONE ""] "t" [ast.mkBinaryExpr (ast.mkCol "" "a" ast.NONE "") ast.SV_OP_GE (ast.EValue (ast.Int_Bint_Lit "1"))] None
    demo_query (demo_world_with demo_open_locks s h) ExecProps.demo_tab h pages chain [1%nat] [mkColMeta "t" "b" TYPE_INT 4 0 false] 4) as (reply & cl' & E & rows & k & cut & b & H).
  - exact HT.
  - reflexivity.
  - reflexivity.
  - replace (Text.str demo_request) with (Render.render (Show.start demo_stmt)) by (vm_compute; reflexivity). apply Render.render_spells. vm_compute. reflexivity.
  - apply (bool_decide_unpack _). vm_compute. exact I.
  - vm_compute. reflexivity.
  - reflexivity.
  - reflexivity.
  - split; [discriminate|]. split; [reflexivity|reflexivity].
  - reflexivity.
  - reflexivity.
  - exact Hr.
  - reflexivity.
  - exact Ht.
  - reflexivity.
  - discriminate.
  - repeat constructor.
  - reflexivity.
  - rewrite Hsz. vm_compute. reflexivity.
  - reflexivity.
  - vm_compute. discriminate.
  - exact (demo_prints demo_open _ T h pages chain (q_conds demo_query).*1 Hr Ht Hsz Hone).
  - destruct H as (_ & _ & _ & _ & Hw & _ & Hset). exists reply, cl'. split; [exact E|]. split; [exact Hw|exact Hset].
Defined.

(** [insert into t values (7, -1);] *)
Definition demo_insert_request : string := "INSERT INTO t VALUES ( 7 , - 1 ) ; ".
Definition demo_insert_stmt : ast.TreeNode := ast.InsertStmt "t" [ast.Int_Bint_Lit "7"; ast.Int_Bint_Lit "-1"].

Lemma insert_request_adds_record_witness : exists reply cl',
  Srv.round (fun _ l => l) (fun _ => 4096) zeros [] 0 0 (mkRid 0 0) true 7 COUNT 1 1 1 (string_bytes demo_insert_request) (demo_reader (demo_insert_with {[1 := demo_open]})) = (Ok reply, cl') /\
  reply = Answer [0] /\ Srv.SetTransaction true 7 cl' = (Ok 1, cl').
Proof.
  destruct (insert_request_adds_record (fun _ l => l) (fun _ => 4096) zeros [] 0 0 (mkRid 0 0) true 7 COUNT 1 1 1 demo_insert_request (demo_reader (demo_insert_with {[1 := demo_open]})) demo_open "t"
    [ast.Int_Bint_Lit "7"; ast.Int_Bint_Lit "-1"] demo_row (mkTabMeta "t" demo_row_cols []) demo_handle ∅ [] "t" []) as (reply & cl' & E & Hr & rid & h' & pages' & chain' & row & t' & H).
  - reflexivity.
  - replace (Text.str demo_insert_request) with (Render.render (Show.start demo_insert_stmt)) by (vm_compute; reflexivity). apply Render.render_spells. vm_compute. reflexivity.
  - apply (bool_decide_unpack _). vm_compute. exact I.
  - vm_compute. reflexivity.
  - reflexivity.
  - reflexivity.
  - split; [discriminate|]. split; reflexivity.
  - reflexivity.
  - repeat constructor; [exact (AnP.lit_int 7)|exact (AnP.lit_int (-1))].
  - apply (bool_decide_unpack _). vm_compute. exact I.
  - apply demo_can_insert_with; [exact demo_open_linv|apply lookup_singleton_eq|by right|split; vm_compute; split; discriminate || reflexivity].
  - reflexivity.
  - exists reply, cl'. split; [exact E|]. split; [exact Hr|]. by destruct H as (_ & _ & _ & _ & _ & _ & _ & _ & _ & _ & Hs).
Defined.
